(* ===== verification/_CoqProject ===== *)
-Q . S2P
Prelude.v
Errors.v
Provider.v
Native.v
Instance.v
Pki.v
CoreTypes.v
CertParse.v
Explain.v
Chain.v
Service.v
Asn1.v
Text.v
Strconv.v
Open.v
Cms.v
CmsSpec.v
Verify.v
Sign.v
Historical.v
Idempotency.v
Batch.v
OcspCache.v
Stores.v
Multisign.v
Jobs.v
Journal.v
Challenge.v
Oidc.v
Qr.v
QrRuns.v
Bolt.v
Crl.v
Worker.v
WorkerRuns.v
CertWatch.v
Jws.v
SignedQr.v
Resolvers.v
Trust.v
Aia.v
Dispatch.v
IdemPort.v
HttpIdem.v
Mq.v
Brokers.v
Consumers.v
Config.v
Compat.v
RestServer.v
RestSpec.v
Cli.v
GrpcServer.v
Metrics.v
App.v
Wiring.v
SpecDoc.v
OpenApi.v
Templates.v
Pages.v
LoginForm.v
Discovery.v
Ports.v
Notify.v
Reapers.v
Child.v
PoolRuns.v
Gauges.v
