(* ===== verification/Prelude.v ===== *)
(** * Qoltanba: a verified model of the core of the signing service

    Qoltanba (src/, a Go program) offers digital signatures under the rules of
    the Kazakhstan certification centre: it signs and verifies CMS, XML and WSSE
    documents through a closed native library (KalkanCrypt), explains why a
    signature is or is not valid, keeps evidence for the long term, and wraps
    those operations in services - batches, asynchronous jobs, signing by
    several parties, challenges, an OpenID Connect provider, an audit journal.
    This development models those packages and proves what each of them
    promises. Go file names below are relative to src/internal/.

    ** Reading order: the files, what they model, how they fit together

    - Prelude (this file): results, panics, the monad [M] of computations on an
      outside world, machine integers, Go's string helpers on bytes, the shared
      lemmas, tactics and the hint database [qol].
    - Errors: Go errors as trees with [errors.Is], [errors.As] and unwrapping;
      the domain's error kinds and [classify] (core/errors.go,
      provider/errors.go).
    - Provider: the driver port's types, the catalog of library errors with its
      texts in three languages (provider/types.go, catalog.go, locale.go).
    - Native: the driver of the C library (native/): result codes, flags, the
      pool of library instances and each of its operations, over a record
      [kalkan] of library calls. Instance: such a record over the C calls and
      their buffers (native/instance.go). Open: loading instances with or without
      isolation, capability detection, the self-test, closing (native/open.go,
      capabilities.go, selftest.go, part of shim.c). PoolRuns: callers, workers
      and the shutdown of the pool interleaved, a refinement of Native's [submit].
    - Pki: the OID registries and what is derived from them (pki/).
    - CoreTypes: the domain's requests and outcomes (core/contract.go and the
      type files). CertParse: a certificate from library properties and X.509
      fields (core/certparse.go).
    - Explain: the six diagnosis steps, the verdict, the signer card
      (core/explain.go, report.go, algorithm.go).
    - Chain: issuer selection and the chain walk (core/chain.go).
    - Service, Verify, Sign, Historical: the domain service (core/service.go,
      revocation.go, signers.go, timestamp.go, receipt.go, ltv.go, policy.go,
      historical.go). Its ports are fields of the record [service], each an
      action of [M W]; [Validate], [Verify], [Sign], [Archive], [VerifyAt] are
      written with the calls, guards and early returns of the Go functions.
    - Batch: core/batch.go and registry.go. The goroutines of [runBatch] are a
      step system.
    - Asn1, Cms, CmsSpec: encoding/asn1 as cms/ and aia/ use it, the CMS reader
      and writer (cms/cms.go, cms/ltv.go), and its specification: what a container
      is, and that adding evidence implements it.
    - Text: Go's string, path and base64 helpers, with their laws.
    - Idempotency, OcspCache, Crl: idempotency/cache.go, ocspcache/cache.go,
      crl/crl.go. The mutex cuts an operation into atomic sections;
      [Idempotency.step] interleaves the sections of many calls. IdemPort is the
      class the transports use the idempotency cache by; Idempotency is its
      instance.
    - Stores: the session store interface as a class with laws, and the
      in-memory store, its instance; Bolt: the durable stores of qr/, challenge/,
      multisign/ and jobs/ over bbolt's transactions, instances of the same
      classes. Multisign (multisign/) is written against
      the class. Challenge defines the challenge store's class, which Challenge
      (challenge/) and Oidc (oidc/) are proved against.
    - Jobs: jobs/: the manager's submissions, pickups, executions, cancellation,
      reaper and restart as a step system over the store.
    - Journal: audit/log.go: the hash-chained log, with the ways a write fails.
    - Ports: what implements the service's ports: the journal as audit sink, the
      OCSP cache with its counters, the file of a revocation list, the download of
      trust/registry.go. Notify: the notifications the job manager sends, one
      webhook delivery, the log of the library report (cmd/qoltanba/main.go).
      Reapers: the tickers that keep the stores from growing, over a class of
      reaped stores, and the start of the job manager.
    - Qr, QrRuns: qr/: the sessions and profiles as functions, and their store
      operations interleaved as runs.
    - Worker, WorkerRuns: cryptoworker/: frames and errors on the wire, the
      child's loop, a call; then slots, standby children, the warmer and the
      shutdown as a step system. Child: a child with its pipes, its size from /proc.
    - Jws, SignedQr: oidc/signer.go with UserInfo, and signedqr/.
    - CertWatch: certwatch/watch.go. Trust: trust/. Aia: aia/. Resolvers:
      dataref/ and keysource/ over an interface to the file system.
    - Dispatch: the wire types (transport/dto/) and the router
      (transport/dispatch/). Mq: the message-queue core (transport/mq/), Brokers:
      the adapters (transport/amqp/, kafka/, nats/), Consumers: their connections
      and the NATS subscription. HttpIdem: the idempotency
      middleware of transport/rest/ and transport/grpc/.
    - Strconv: Go's strconv and time.ParseDuration. Config: config/: the registry
      of settings, the four layers, the dump, validation. Compat: compat/, the
      judgement on the loaded library and the gate at startup.
    - RestServer, RestSpec: transport/rest/: routes, handlers, statuses and
      bodies, and what they promise. Templates, Pages: its HTML pages, the escapers
      and a reader of what is sent; LoginForm: the sign-in form. Discovery: what
      the OpenID provider publishes (oidc/), against those routes. GrpcServer: transport/grpc/. Cli:
      transport/cli/. Metrics: metrics/. All three transports call the operations
      through [core_ops].
    - App: cmd/qoltanba/main.go: the commands of the program, the gate, the
      assembly of the driver, the service and the subsystems, serving and shutting
      down, with a log of what is opened and closed. Wiring: the servers that a
      configuration puts on the network. Gauges: what a scrape of the service shows.
    - SpecDoc, OpenApi: tools/openapigen (spec.go, main.go), the generator of
      api/openapi.yaml: the tables of operations and the document built from them;
      the schemas, renamed into one space of names, and the Postman collection.
    The domain service calls the driver through [provider_ops]; Batch, Jobs,
    Multisign, Challenge and Oidc call the domain through the slice of it they
    ask for (an action of [M W]), so their theorems hold for the service of
    Verify and for any other implementation of that slice.

    ** How code becomes definitions

    A Go struct is a Record, a string type with constants an inductive type
    with a constructor for any other text, a nil pointer [None], nil slices and
    empty ones the empty list, bytes and strings both [string] (a sequence of
    bytes). A pair [(T, error)] whose error is nil exactly on success is [res];
    where a function returns a value beside its error the pair is kept. A call
    that may panic is an [outcome]. [int], [int64] and [time.Duration] are Z with
    [wrap64] where the code can overflow; instants are nanoseconds from Go's
    zero time. A map is a [gmap], or an association list where the code reads it in
    order. A mutex-protected section is one atomic step; what runs outside the
    locks interleaves.

    ** What the theorems show

    - Verification: a valid outcome names a signer and rests on the library's
      own confirmation; the verdict is valid exactly when its steps pass; a
      determinate revocation status comes from evidence; a structural override
      and a trusted timestamp are sound; historical verification and archiving
      respect revocation. The chain walk links each certificate to the next by
      a verified signature.
    - Services: a completed signing session has its required signatures; an
      authorization code is exchanged once, by whom it was issued to; a
      challenge is used once; a terminal job keeps no secrets and a key names
      one submission; a batch processes each item once and accounts for all;
      a cached OCSP answer is fresh; one key runs its work once, and who waited for
      it gets its result; the journal a process wrote verifies if its events are
      valid UTF-8, and two verified journals with the same head have the same
      facts or two of their entries collide.
    - Evidence: adding long-term evidence to a container changes that and nothing
      else, and it reads back ([add_ltv_implements], [ltv_roundtrip]); a fetched CRL,
      an issuer, a data payload come from where they are said to.
    - Transports: every message is answered, by replies a client can route; a
      retry or a redelivery gets the first answer and does nothing a second
      time; streaming and aggregating a batch agree; an AMQP delivery is
      acknowledged after its replies, and the consumer drains. REST, gRPC and the
      command line answer as the router does; every REST request has one handler,
      which answers, with an error status for an error; the browser is sent only
      to a registered address; a page reads as its template whatever its data, and
      the sign-in form returns the request that was checked ([pages_read],
      [login_form_returns]); a pipeline's gate passes only what verified.
    - The program: a refused library is never served; whatever ends a run, the
      driver and the journal are closed, and a clean end leaves nothing open; the
      routes are those of the features the configuration switches on; the journal
      that the service key seals is intact to the published check. The API
      description lists the routes of the transport, with the headers they honour,
      and its references lead somewhere ([spec_describes_routes],
      [no_dangling_refs]).
    - Processes: a call through a child process answers what the driver answers,
      and children are neither leaked nor shared.
    - Long-running parts: a refresh does not empty the trust store, a watched
      certificate's change raises one event, a signing key survives restarts, a
      signed document reads back until it expires.
    - Configuration: a setting has the value of its strongest layer, the dump tells
      it and hides the secrets, and validation accepts exactly what can run.
    - Library and data: error classification, flags, the catalog's round trip,
      identity derivation; no operation of an instance reads beyond its buffers
      while the library keeps to the two it does not check (the error text and the
      alias of a key); an output is fetched whole, opening the pool is all or nothing, and startup is
      refused exactly when the report says so.
    - Behaviour that differs from what comments promise is proved as such, at
      a concrete input (the theorems of kind error).

    ** Bounds and fuel

    The chain walk takes [maxChainDepth] = 16 steps and the native signer walk 64,
    the code's own bounds. Eviction loops get the size
    of the map, which each round shrinks. Loops over bytes (PEM blocks, ASN.1
    elements, paths) get the length, each round consuming some. Decimal
    rendering has fuel 40, more than the digits of a 64-bit integer. Polling
    loops (the watcher, the refresher, the Kafka consumer, the child's loop) take
    the number of rounds. A buffer doubles at most 25 times, up to 32 MiB
    ([withBuf_loop_ends]). [batch_terminates], [addPEM_fuel],
    [validate_returns] and the totality of the Fixpoints state that results
    exist.

    ** Parameters, and what is left out

    The record [libs] holds the parsers of X.509, PEM, OCSP and CRLs;
    [cmslib] the digests and clock formats of the CMS reader; [Codec] is the JSON
    of a type, with its round trip; SHA-256, RSA, URL encoding, base64 images,
    bbolt's buckets, files (with removals that may fail), processes and pipes, HTTP exchanges, protobuf
    messages and the brokers' client libraries are arguments of the modules that
    use them. None has a law, except where a theorem names one as a hypothesis
    (that no digest is the first entry's fixed previous hash for
    [journal_tamper_evident]; that JSON reads back what it wrote; that a signature
    verifies under its own key).

    Not modelled: the C library, the encoding of bodies as JSON or protobuf
    (what is encoded is a value of the model), logging other than that of the
    library report, the durable job store's [Recover] (it modifies the bucket it
    ranges over, which bbolt leaves undefined), generated code, the manual probe of the library
    (tools/probe) and the test driver; of tools/openapigen, the reflector and the
    writing of the files; in the journal, lines longer than the scanner's 8 MiB and a write torn exactly
    before its newline. String helpers are exact on ASCII. *)
From Stdlib Require Export ZArith Lia String Ascii List.
From stdpp Require Export base numbers gmap sets strings option.
From stdpp Require Export list.
Open Scope Z_scope.

(** ** Results: a Go [(T, error)] pair whose error is nil exactly on [Ok]. *)
Inductive res (E A : Type) : Type :=
| Ok (a : A)
| Err (e : E).
Arguments Ok {E A} a.
Arguments Err {E A} e.

Definition rbind {E A B} (r : res E A) (f : A -> res E B) : res E B :=
  match r with
  | Ok a => f a
  | Err e => Err e
  end.

Declare Scope res_scope.
Delimit Scope res_scope with res.
Notation "'let?' x ':=' r 'in' k" := (rbind r (fun x => k))
  (at level 10, x pattern, r at level 100, k at level 200,
   format "'[v' 'let?'  x  ':='  r  'in' '/' k ']'") : res_scope.

Definition is_ok {E A} (r : res E A) : bool :=
  match r with Ok _ => true | Err _ => false end.

Definition res_value {E A} (r : res E A) : option A :=
  match r with Ok a => Some a | Err _ => None end.

Definition res_error {E A} (r : res E A) : option E :=
  match r with Ok _ => None | Err e => Some e end.

(** ** Computations that may panic: a Go call that does not return normally. *)
Inductive outcome (A : Type) : Type :=
| Done (a : A)
| Panic.
Arguments Done {A} a.
Arguments Panic {A}.

Definition obind {A B} (r : outcome A) (f : A -> outcome B) : outcome B :=
  match r with
  | Done a => f a
  | Panic => Panic
  end.

Declare Scope outcome_scope.
Delimit Scope outcome_scope with outcome.
Notation "'let!' x ':=' r 'in' k" := (obind r (fun x => k))
  (at level 10, x pattern, r at level 100, k at level 200,
   format "'[v' 'let!'  x  ':='  r  'in' '/' k ']'") : outcome_scope.

Definition returns {A} (r : outcome A) : bool :=
  match r with Done _ => true | Panic => false end.

(** The Go slice expression [l[1:]]: it panics on an empty slice. *)
Definition slice_from1 {A} (l : list A) : outcome (list A) :=
  match l with
  | [] => Panic
  | _ :: t => Done t
  end.

(** ** 64-bit signed integers: Go's [int], [int64] and [time.Duration]. *)
Definition wrap64 (z : Z) : Z := (z + 2 ^ 63) mod 2 ^ 64 - 2 ^ 63.
Definition in64 (z : Z) : Prop := - 2 ^ 63 <= z < 2 ^ 63.
Definition u32 (z : Z) : Z := z mod 2 ^ 32.

(** Instants are nanoseconds counted from Go's zero [time.Time]. *)
Definition time := Z.
Definition duration := Z.
Definition time_zero : time := 0.
Definition is_zero (t : time) : bool := t =? 0.
Definition before (a b : time) : bool := a <? b.
Definition after (a b : time) : bool := b <? a.
Definition second : duration := 1000000000.
Definition minute : duration := 60 * second.
Definition hour : duration := 60 * minute.
(** [time.Duration(n) * time.Second] at Go's width. *)
Definition seconds (n : Z) : duration := wrap64 (n * second).

(** ** Association by order: the first element satisfying a test. *)
Fixpoint find_first {A} (f : A -> bool) (l : list A) : option A :=
  match l with
  | [] => None
  | x :: t => if f x then Some x else find_first f t
  end.

(** The least index below [n] from the front at which [f] holds. *)
Fixpoint index_of {A} (f : A -> bool) (l : list A) : option nat :=
  match l with
  | [] => None
  | x :: t => if f x then Some O else S <$> index_of f t
  end.

(** ** ASCII string helpers of Go's [strings] package. *)
Definition is_space (c : ascii) : bool :=
  let n := Z.of_nat (nat_of_ascii c) in
  (n =? 32) || ((9 <=? n) && (n <=? 13)).

Fixpoint trim_left (s : string) : string :=
  match s with
  | EmptyString => EmptyString
  | String c t => if is_space c then trim_left t else s
  end.

Fixpoint trim_right (s : string) : string :=
  match s with
  | EmptyString => EmptyString
  | String c t =>
      match trim_right t with
      | EmptyString => if is_space c then EmptyString else String c EmptyString
      | t' => String c t'
      end
  end.

(** [strings.TrimSpace] on ASCII. *)
Definition trim_space (s : string) : string := trim_right (trim_left s).

Definition lower_ascii (c : ascii) : ascii :=
  let n := nat_of_ascii c in
  if (Nat.leb 65 n && Nat.leb n 90)%bool then ascii_of_nat (n + 32) else c.

Definition upper_ascii (c : ascii) : ascii :=
  let n := nat_of_ascii c in
  if (Nat.leb 97 n && Nat.leb n 122)%bool then ascii_of_nat (n - 32) else c.

Fixpoint string_map (f : ascii -> ascii) (s : string) : string :=
  match s with
  | EmptyString => EmptyString
  | String c t => String (f c) (string_map f t)
  end.

Definition to_lower : string -> string := string_map lower_ascii.
Definition to_upper : string -> string := string_map upper_ascii.

(** [s == ""] and the usual tests, as booleans. *)
Definition str_eqb (a b : string) : bool := String.eqb a b.
Definition empty_str (s : string) : bool := str_eqb s "".

Fixpoint has_prefix (p s : string) : bool :=
  match p, s with
  | EmptyString, _ => true
  | String a p', String b s' => Ascii.eqb a b && has_prefix p' s'
  | String _ _, EmptyString => false
  end.

(** [strings.Contains]. *)
Fixpoint contains (sub s : string) : bool :=
  has_prefix sub s ||
  match s with
  | EmptyString => false
  | String _ t => contains sub t
  end.

Fixpoint concat_with (sep : string) (l : list string) : string :=
  match l with
  | [] => EmptyString
  | [x] => x
  | x :: t => (x ++ sep ++ concat_with sep t)%string
  end.

(** What [io.LimitReader] lets through of a body. *)
Fixpoint limit_reader (n : Z) (s : string) : string :=
  match s with
  | EmptyString => EmptyString
  | String c t => if n <=? 0 then EmptyString else String c (limit_reader (n - 1) t)
  end.

(** The double quote character. *)
Definition dq : string := String (ascii_of_nat 34) "".

(** Decimal rendering of an integer, as [%d] prints it. *)
Definition digit (z : Z) : ascii := ascii_of_nat (48 + Z.to_nat z).

Fixpoint dec_loop (fuel : nat) (z : Z) (acc : string) : string :=
  match fuel with
  | O => acc
  | S f =>
      let acc' := String (digit (z mod 10)) acc in
      if z <? 10 then acc' else dec_loop f (z / 10) acc'
  end.

Definition dec_of_Z (z : Z) : string :=
  if z <? 0 then String "-" (dec_loop 40 (- z) "") else dec_loop 40 z "".

(** Upper-case hexadecimal padded to [n] digits, as [%08X] prints it. *)
Definition hex_digit (z : Z) : ascii :=
  if z <? 10 then ascii_of_nat (48 + Z.to_nat z) else ascii_of_nat (55 + Z.to_nat z).

Fixpoint hex_pad (n : nat) (z : Z) (acc : string) : string :=
  match n with
  | O => acc
  | S m => hex_pad m (z / 16) (String (hex_digit (z mod 16)) acc)
  end.

Definition hex8 (z : Z) : string := hex_pad 8 (u32 z) "".

(** [hex.EncodeToString], upper-cased. *)
Fixpoint hex_upper (s : string) : string :=
  match s with
  | EmptyString => EmptyString
  | String c t =>
      let n := Z.of_nat (nat_of_ascii c) in
      String (hex_digit (n / 16)) (String (hex_digit (n mod 16)) (hex_upper t))
  end.

(** The big-endian bytes of a non-negative integer ([big.Int.Bytes]). *)
Fixpoint bytes_loop (fuel : nat) (z : Z) (acc : string) : string :=
  match fuel with
  | O => acc
  | S f => if z <=? 0 then acc
           else bytes_loop f (z / 256) (String (ascii_of_nat (Z.to_nat (z mod 256))) acc)
  end.
Definition big_bytes (z : Z) : string := bytes_loop (Z.to_nat (Z.log2 z / 8 + 1)) z "".

(** ** What [encoding/json] keeps of a string *)
Definition byte_in (lo hi : Z) (c : ascii) : bool :=
  let n := Z.of_nat (nat_of_ascii c) in (lo <=? n) && (n <=? hi).
Definition cont (c : ascii) : bool := byte_in 128 191 c.

(** The width of the rune in front, 0 when the first byte starts none. *)
Definition rune_width (s : string) : nat :=
  match s with
  | EmptyString => 0
  | String a t =>
      if byte_in 0 127 a then 1
      else match t with
      | EmptyString => 0
      | String b u =>
          if byte_in 194 223 a then (if cont b then 2 else 0)
          else match u with
          | EmptyString => 0
          | String c v =>
              if (byte_in 224 224 a && byte_in 160 191 b && cont c)
                 || ((byte_in 225 236 a || byte_in 238 239 a) && cont b && cont c)
                 || (byte_in 237 237 a && byte_in 128 159 b && cont c) then 3
              else match v with
              | EmptyString => 0
              | String d _ =>
                  if ((byte_in 240 240 a && byte_in 144 191 b) || (byte_in 241 243 a && cont b)
                      || (byte_in 244 244 a && byte_in 128 143 b)) && cont c && cont d
                  then 4 else 0
              end
          end
      end
  end%nat.

(** U+FFFD in UTF-8. *)
Definition replacement : string :=
  String (ascii_of_nat 239) (String (ascii_of_nat 191) (String (ascii_of_nat 189) "")).

(** Every byte that starts no rune is replaced. *)
Fixpoint utf8_clean_loop (fuel : nat) (s : string) : string :=
  match fuel, s with
  | S f, String c t =>
      match rune_width s with
      | O => replacement ++ utf8_clean_loop f t
      | w => substring 0 w s ++ utf8_clean_loop f (substring w (String.length s - w) s)
      end
  | _, _ => ""
  end.
Definition utf8_clean (s : string) : string := utf8_clean_loop (String.length s) s.

(** ** Stateful computations that may panic: the world [W] is everything the
    program reads and changes outside the function. *)
Definition M (W A : Type) : Type := W -> outcome (W * A).
Definition mret {W A} (a : A) : M W A := fun w => Done (w, a).
Definition mbind_ {W A B} (m : M W A) (f : A -> M W B) : M W B := fun w =>
  match m w with
  | Done (w', a) => f a w'
  | Panic => Panic
  end.
Definition mlift {W A} (o : outcome A) : M W A := fun w =>
  match o with
  | Done a => Done (w, a)
  | Panic => Panic
  end.
Definition mget {W A} (f : W -> A) : M W A := fun w => Done (w, f w).

Declare Scope m_scope.
Delimit Scope m_scope with m.
Notation "'let*' x ':=' r 'in' k" := (mbind_ r (fun x => k))
  (at level 10, x pattern, r at level 100, k at level 200,
   format "'[v' 'let*'  x  ':='  r  'in' '/' k ']'") : m_scope.

Fixpoint mfold {W A B} (f : B -> A -> M W B) (b : B) (l : list A) : M W B :=
  match l with
  | [] => mret b
  | x :: t => mbind_ (f b x) (fun b' => mfold f b' t)
  end.

(** ** A computation over a pair of the outside world and a component's store:
    lifting what happens in the one, or an atomic operation of the other. *)
Definition in_world {W St A} (m : M W A) : M (W * St) A := fun '(w, st) =>
  match m w with Done (w', a) => Done ((w', st), a) | Panic => Panic end.
Definition in_store {W St A} (f : St -> St * A) : M (W * St) A := fun '(w, st) =>
  let '(st', a) := f st in Done ((w, st'), a).

(** ** Tactics *)
(** Turn boolean tests of the context into propositions. *)
Ltac boolp :=
  repeat match goal with
  | H : (_ && _)%bool = true |- _ => apply andb_true_iff in H; destruct H
  | H : (_ || _)%bool = false |- _ => apply orb_false_iff in H; destruct H
  | H : negb _ = true |- _ => apply negb_true_iff in H
  | H : negb _ = false |- _ => apply negb_false_iff in H
  | H : (_ <? _)%Z = true |- _ => apply Z.ltb_lt in H
  | H : (_ <? _)%Z = false |- _ => apply Z.ltb_ge in H
  | H : (_ <=? _)%Z = true |- _ => apply Z.leb_le in H
  | H : (_ <=? _)%Z = false |- _ => apply Z.leb_gt in H
  | H : (_ =? _)%Z = true |- _ => apply Z.eqb_eq in H
  | H : (_ =? _)%Z = false |- _ => apply Z.eqb_neq in H
  | H : String.eqb _ _ = true |- _ => apply String.eqb_eq in H
  | H : String.eqb _ _ = false |- _ => apply String.eqb_neq in H
  | H : bool_decide _ = true |- _ => apply bool_decide_eq_true in H
  | H : bool_decide _ = false |- _ => apply bool_decide_eq_false in H
  end.

Create HintDb qol.

(** ** Shared lemmas *)
Lemma ok_inj {E A} (a b : A) : Ok (E := E) a = Ok b -> a = b.
Proof. by intros [=]. Qed.
Lemma rbind_ok {E A B} (r : res E A) (f : A -> res E B) b :
  rbind r f = Ok b <-> exists a, r = Ok a /\ f a = Ok b.
Proof. destruct r; simpl; naive_solver. Qed.

Lemma mbind_done {W A B} (m : M W A) (f : A -> M W B) w w' b :
  mbind_ m f w = Done (w', b) <->
  exists w1 a, m w = Done (w1, a) /\ f a w1 = Done (w', b).
Proof.
  unfold mbind_. destruct (m w) as [[w1 a]|].
  - split; [eauto|]. intros (w2 & a' & H & H'). by simplify_eq.
  - split; [done|]. naive_solver.
Qed.

Lemma mret_done {W A} (a b : A) (w w' : W) : mret a w = Done (w', b) <-> w' = w /\ b = a.
Proof. unfold mret. naive_solver. Qed.

Lemma mbind_returns {W A B} (m : M W A) (f : A -> M W B) w :
  m w <> Panic -> (forall w1 a, m w = Done (w1, a) -> f a w1 <> Panic) -> mbind_ m f w <> Panic.
Proof. unfold mbind_. intros H1 H2. destruct (m w) as [[w1 a]|]; [by apply H2|done]. Qed.

Lemma mret_returns {W A} (a : A) (w : W) : mret a w <> Panic.
Proof. done. Qed.

(** An invariant of the accumulator that every turn keeps holds at the end. *)
Lemma in_store_done {W St A} (f : St -> St * A) (w w' : W) st st' a :
  in_store f (w, st) = Done ((w', st'), a) <-> w' = w /\ f st = (st', a).
Proof. unfold in_store. destruct (f st). naive_solver. Qed.

Lemma in_world_done {W St A} (m : M W A) (w w' : W) (st st' : St) a :
  in_world m (w, st) = Done ((w', st'), a) <-> st' = st /\ m w = Done (w', a).
Proof. unfold in_world. destruct (m w) as [[]|]; naive_solver. Qed.

Lemma mfold_inv {W A B} (f : B -> A -> M W B) (P : B -> Prop) l b w w' b' :
  P b -> (forall b0 x w0 w1 b1, x ∈ l -> P b0 -> f b0 x w0 = Done (w1, b1) -> P b1) ->
  mfold f b l w = Done (w', b') -> P b'.
Proof.
  revert b w. induction l as [|x t IH]; intros b w Hb Hf H; simpl in H.
  - apply mret_done in H as [_ ->]. done.
  - apply mbind_done in H as (w1 & b1 & H1 & H2).
    eapply (IH b1 w1); [eapply Hf; eauto; left| |done].
    intros b0 y w0 w2 b2 Hy. apply Hf. by right.
Qed.

(** The same for a relation between the accumulator and the world. *)
Lemma mfold_state_inv {W A B} (f : B -> A -> M W B) (P : B -> W -> Prop) l b w w' b' :
  P b w -> (forall b0 x w0 w1 b1, x ∈ l -> P b0 w0 -> f b0 x w0 = Done (w1, b1) -> P b1 w1) ->
  mfold f b l w = Done (w', b') -> P b' w'.
Proof.
  revert b w. induction l as [|x t IH]; intros b w Hb Hf H; simpl in H.
  - by apply mret_done in H as [-> ->].
  - apply mbind_done in H as (w1 & b1 & H1 & H2).
    eapply (IH b1 w1); [eapply Hf; eauto; left| |done].
    intros b0 y w0 w2 b2 Hy. apply Hf. by right.
Qed.

(** A loop none of whose turns panics does not panic. *)
Lemma mfold_returns {W A B} (f : B -> A -> M W B) l b w :
  (forall b0 x w0, x ∈ l -> f b0 x w0 <> Panic) -> mfold f b l w <> Panic.
Proof.
  revert b w. induction l as [|x t IH]; intros b w Hf; simpl; [done|].
  unfold mbind_. pose proof (Hf b x w ltac:(left)) as Hx.
  destruct (f b x w) as [[w1 b1]|]; [|done]. apply IH. intros b0 y w0 Hy. apply Hf. by right.
Qed.

Lemma wrap64_in64 z : in64 (wrap64 z).
Proof.
  unfold in64, wrap64.
  pose proof (Z.mod_pos_bound (z + 2 ^ 63) (2 ^ 64) ltac:(lia)). lia.
Qed.

Lemma wrap64_id z : in64 z -> wrap64 z = z.
Proof.
  unfold in64, wrap64; intros H. rewrite Z.mod_small; lia.
Qed.

Lemma find_first_some {A} (f : A -> bool) l x :
  find_first f l = Some x -> x ∈ l /\ f x = true.
Proof.
  induction l as [|y t IH]; simpl; [done|].
  destruct (f y) eqn:Hy; intros H.
  - simplify_eq. split; [left|done].
  - destruct (IH H). split; [by right|done].
Qed.

Lemma find_first_none {A} (f : A -> bool) l :
  find_first f l = None <-> forall x, x ∈ l -> f x = false.
Proof.
  induction l as [|y t IH]; simpl.
  - split; [intros _ x Hx; by apply elem_of_nil in Hx | done].
  - destruct (f y) eqn:Hy; split.
    + done.
    + intros H. specialize (H y ltac:(left)). congruence.
    + intros H x Hx. apply elem_of_cons in Hx as [->|Hx]; [done|by apply IH].
    + intros H. apply IH. intros x Hx. apply H. by right.
Qed.

Lemma find_first_exists {A} (f : A -> bool) l :
  (exists x, x ∈ l /\ f x = true) -> exists y, find_first f l = Some y.
Proof.
  intros (x & Hx & Hf). destruct (find_first f l) eqn:E; [eauto|].
  rewrite find_first_none in E. rewrite (E x Hx) in Hf. done.
Qed.

Lemma existsb_elem {A} (f : A -> bool) l :
  existsb f l = true <-> exists x, x ∈ l /\ f x = true.
Proof.
  rewrite existsb_exists. by setoid_rewrite list_elem_of_In.
Qed.

Lemma existsb_none {A} (f : A -> bool) l :
  existsb f l = false <-> forall x, x ∈ l -> f x = false.
Proof.
  induction l as [|y t IH]; simpl.
  - split; [intros _ x Hx; by apply elem_of_nil in Hx | done].
  - rewrite orb_false_iff, IH. split.
    + intros [Hy Ht] x Hx. apply elem_of_cons in Hx as [->|Hx]; auto.
    + intros H. split; [apply H; left | intros x Hx; apply H; by right].
Qed.

Lemma forallb_elem {A} (f : A -> bool) l x : forallb f l = true -> x ∈ l -> f x = true.
Proof. rewrite forallb_forall. intros H Hx. by apply H, list_elem_of_In. Qed.

Lemma slice_from1_done {A} (l : list A) : returns (slice_from1 l) = true <-> l <> [].
Proof. destruct l; simpl; naive_solver. Qed.

Lemma str_eqb_eq a b : str_eqb a b = true <-> a = b.
Proof. apply String.eqb_eq. Qed.

Lemma str_eqb_neq a b : str_eqb a b = false <-> a <> b.
Proof. apply String.eqb_neq. Qed.

Lemma str_eqb_refl a : str_eqb a a = true.
Proof. apply String.eqb_refl. Qed.

#[export] Hint Resolve wrap64_in64 mret_returns : qol.
