(* ===== verification/Errors.v ===== *)
(** * Go errors: the values the program builds, wraps and inspects
    (internal/provider/errors.go, internal/core/errors.go). *)
From S2P Require Import Prelude.

(** ** Error trees

    An error is a package-level sentinel (compared by identity, here its
    qualified name), a fresh [errors.New], a [fmt.Errorf] that wraps with
    [%w] (its prefix is kept), a [provider.NativeError] or a [core.Error]. *)
Inductive error_kind :=
| KindInvalid | KindUnsupported | KindUnavailable | KindCanceled | KindInternal.

Global Instance error_kind_eq_dec : EqDecision error_kind.
Proof. solve_decision. Defined.

Inductive goerr : Type :=
| Sent (name msg : string)
| New (msg : string)
| Wrap (prefix : string) (inner : goerr)
| Native (op : string) (code : Z) (detail : string) (inner : option goerr)
| Domain (kind : error_kind) (op : string) (inner : option goerr).

Definition ctx_canceled : goerr := Sent "context.Canceled" "context canceled".
Definition ctx_deadline : goerr :=
  Sent "context.DeadlineExceeded" "context deadline exceeded".

(** The typed port errors of package provider. *)
Definition ErrClosed := Sent "provider.ErrClosed" "provider: closed".
Definition ErrUnsupported :=
  Sent "provider.ErrUnsupported" "provider: operation not supported by this library version".
Definition ErrNotReady := Sent "provider.ErrNotReady" "provider: library not ready".
Definition ErrInvalidPassword :=
  Sent "provider.ErrInvalidPassword" "provider: invalid container password".
Definition ErrKeyNotFound := Sent "provider.ErrKeyNotFound" "provider: key not found".
Definition ErrCertNotFound := Sent "provider.ErrCertNotFound" "provider: certificate not found".
Definition ErrCertExpired := Sent "provider.ErrCertExpired" "provider: certificate expired".
Definition ErrCertTimeInvalid :=
  Sent "provider.ErrCertTimeInvalid" "provider: certificate not valid at the given time".
Definition ErrCertParse := Sent "provider.ErrCertParse" "provider: certificate parse error".
Definition ErrSignFormatMismatch :=
  Sent "provider.ErrSignFormatMismatch" "provider: sign/verify flag mismatch".
Definition ErrSignatureInvalid :=
  Sent "provider.ErrSignatureInvalid" "provider: signature invalid".
Definition ErrNoSignature := Sent "provider.ErrNoSignature" "provider: no signature found".
Definition ErrChainInvalid :=
  Sent "provider.ErrChainInvalid" "provider: certificate chain build/verify failed".
Definition ErrCARequired :=
  Sent "provider.ErrCARequired" "provider: trusted CA certificate required".
Definition ErrOCSPRequest := Sent "provider.ErrOCSPRequest" "provider: OCSP request failed".
Definition ErrBufferTooSmall :=
  Sent "provider.ErrBufferTooSmall" "provider: output buffer too small".
Definition ErrXMLParse := Sent "provider.ErrXMLParse" "provider: XML parse error".
Definition ErrCMSFormat := Sent "provider.ErrCMSFormat" "provider: unknown CMS format".
Definition ErrInvalidParam := Sent "provider.ErrInvalidParam" "provider: invalid parameter".
Definition ErrEmptyOutput :=
  Sent "provider.ErrEmptyOutput"
    "provider: the library reported success but produced no output".

(** [NewNativeError]. *)
Definition NewNativeError (op : string) (code : Z) (detail : string)
    (sentinel : option goerr) : goerr := Native op (u32 code) detail sentinel.

(** [core.NewError]. *)
Definition NewError (kind : error_kind) (op msg : string) : goerr :=
  Domain kind op (Some (New msg)).

(** [Unwrap] of each error type. *)
Definition unwrap (e : goerr) : option goerr :=
  match e with
  | Sent _ _ | New _ => None
  | Wrap _ i => Some i
  | Native _ _ _ i | Domain _ _ i => i
  end.

Definition sentinel_name (e : goerr) : option string :=
  match e with Sent n _ => Some n | _ => None end.

(** [errors.Is(err, target)] for a sentinel [target]: it is met on the
    unwrap chain. *)
Fixpoint is_named (n : string) (e : goerr) : bool :=
  match e with
  | Sent m _ => str_eqb n m
  | New _ => false
  | Wrap _ i => is_named n i
  | Native _ _ _ None | Domain _ _ None => false
  | Native _ _ _ (Some i) | Domain _ _ (Some i) => is_named n i
  end.

Definition errors_is (e target : goerr) : bool :=
  match target with
  | Sent n _ => is_named n e
  | _ => false
  end.

(** [errors.As(err, **provider.NativeError)]: the first one on the chain. *)
Fixpoint as_native (e : goerr) : option (string * Z * string) :=
  match e with
  | Sent _ _ | New _ => None
  | Wrap _ i => as_native i
  | Native op c d _ => Some (op, c, d)
  | Domain _ _ None => None
  | Domain _ _ (Some i) => as_native i
  end.

(** [errors.As(err, **core.Error)]. *)
Fixpoint as_domain (e : goerr) : option error_kind :=
  match e with
  | Sent _ _ | New _ => None
  | Wrap _ i => as_domain i
  | Domain k _ _ => Some k
  | Native _ _ _ None => None
  | Native _ _ _ (Some i) => as_domain i
  end.

(** The integer behind an [ErrorKind] constant. *)
Definition kind_num (k : error_kind) : Z :=
  match k with
  | KindInvalid => 0 | KindUnsupported => 1 | KindUnavailable => 2
  | KindCanceled => 3 | KindInternal => 4
  end.

(** [Error()] of every error type. *)
Fixpoint err_text (e : goerr) : string :=
  match e with
  | Sent _ m | New m => m
  | Wrap p i => p ++ err_text i
  | Native op c d _ =>
      let head := op ++ ": code 0x" ++ hex8 c in
      if negb (empty_str d) then head ++ ": " ++ d else head
  | Domain k op None => op ++ ": " ++ dec_of_Z (kind_num k)
  | Domain _ op (Some i) => op ++ ": " ++ err_text i
  end%string.

(** ** internal/core/errors.go *)

(** [KindName]. *)
Definition KindName (k : error_kind) : string :=
  match k with
  | KindInvalid => "invalid"
  | KindUnsupported => "unsupported"
  | KindUnavailable => "unavailable"
  | KindCanceled => "canceled"
  | KindInternal => "internal"
  end.

(** [classify]. *)
Definition classify (e : goerr) : error_kind :=
  if errors_is e ctx_canceled || errors_is e ctx_deadline then KindCanceled
  else if errors_is e ErrUnsupported then KindUnsupported
  else if errors_is e ErrNotReady || errors_is e ErrClosed then KindUnavailable
  else if errors_is e ErrInvalidPassword || errors_is e ErrKeyNotFound
       || errors_is e ErrCertNotFound || errors_is e ErrCertExpired
       || errors_is e ErrCertTimeInvalid || errors_is e ErrCertParse
       || errors_is e ErrSignFormatMismatch || errors_is e ErrXMLParse
       || errors_is e ErrCMSFormat || errors_is e ErrInvalidParam
       || errors_is e ErrCARequired then KindInvalid
  else KindInternal.

(** [domainErr]; the nil case is the [None] of the caller. *)
Definition domainErr (op : string) (e : goerr) : goerr :=
  Domain (classify e) op (Some e).

(** [isSoftVerifyFailure]. *)
Definition isSoftVerifyFailure (e : goerr) : bool :=
  if errors_is e ErrSignatureInvalid || errors_is e ErrNoSignature
     || errors_is e ErrChainInvalid || errors_is e ErrCertExpired
     || errors_is e ErrCertTimeInvalid then true
  else
    match as_native e with
    | Some _ => negb (errors_is e ErrUnsupported)
                && negb (errors_is e ErrNotReady) && negb (errors_is e ErrClosed)
    | None => false
    end.

(** ** Lemmas *)
Lemma errors_is_domain op e k n m :
  errors_is (Domain k op (Some e)) (Sent n m) = errors_is e (Sent n m).
Proof. done. Qed.

Lemma errors_is_domainErr op e t : errors_is (domainErr op e) t = errors_is e t.
Proof. by destruct t. Qed.

Lemma errors_is_unwrap e i t :
  unwrap e = Some i -> sentinel_name e = None -> errors_is e t = errors_is i t.
Proof. destruct e, t; simpl; intros; simplify_eq; done. Qed.

Lemma as_domain_domainErr op e : as_domain (domainErr op e) = Some (classify e).
Proof. done. Qed.

(** [classify] only looks at the sentinels, so wrapping keeps the class. *)
Lemma classify_domainErr op e : classify (domainErr op e) = classify e.
Proof. unfold classify. by rewrite !errors_is_domainErr. Qed.

Lemma classify_unavailable e :
  classify e = KindUnavailable -> errors_is e ErrNotReady || errors_is e ErrClosed = true.
Proof.
  unfold classify. destruct (_ || errors_is e ctx_deadline); [done|].
  destruct (errors_is e ErrUnsupported); [done|].
  destruct (errors_is e ErrNotReady || errors_is e ErrClosed); [done|].
  by case_match.
Qed.
