(* ===== verification/Provider.v ===== *)
(** * Package provider: the driver port, its error catalog and its locales
    (internal/provider/types.go, catalog.go, locale.go). *)
From S2P Require Import Prelude Errors.

(** ** types.go *)
Inductive StorageType :=
| StoragePKCS12 | StorageKZIDCard | StorageKaztoken | StorageEToken72K
| StorageJaCarta | StorageX509Cert | StorageAKey | StorageEToken5110.

Inductive CertFormat := CertPEM | CertDER | CertB64.
Inductive ValidationMethod := ValidateOCSP | ValidateCRL | ValidateNone.
Inductive CertStatus := StatusUnknown | StatusGood | StatusRevoked.

Global Instance CertStatus_eq_dec : EqDecision CertStatus.
Proof. solve_decision. Defined.
Global Instance ValidationMethod_eq_dec : EqDecision ValidationMethod.
Proof. solve_decision. Defined.

Record KeyRef := mkKeyRef { k_storage : StorageType; k_path : string; k_password : string }.

Record TrustedCert := mkTrusted { tc_cert : string; tc_intermediate : bool }.

Record SignRequest := mkSignRequest {
  sr_key : KeyRef; sr_data : string; sr_path : string; sr_detached : bool;
  sr_input_pem : bool; sr_out_pem : bool; sr_check_cert_time : bool;
  sr_with_timestamp : bool; sr_tsa_url : string; sr_existing : string;
  sr_trusted : list TrustedCert;
}.

Record SignXMLRequest := mkSignXMLRequest {
  sx_key : KeyRef; sx_xml : string; sx_check_cert_time : bool;
  sx_with_timestamp : bool; sx_tsa_url : string; sx_node_id : string;
  sx_parent_node : string; sx_parent_ns : string; sx_trusted : list TrustedCert;
}.

Record SignWSSERequest := mkSignWSSERequest {
  sw_key : KeyRef; sw_xml : string; sw_node_id : string; sw_check_cert_time : bool;
  sw_with_timestamp : bool; sw_tsa_url : string; sw_trusted : list TrustedCert;
}.

Record SignHashRequest := mkSignHashRequest {
  sh_key : KeyRef; sh_hash : string; sh_out_pem : bool; sh_check_cert_time : bool;
}.

Record VerifyRequest := mkVerifyRequest {
  vr_signature : string; vr_data : string; vr_path : string; vr_detached : bool;
  vr_input_pem : bool; vr_out_pem : bool; vr_check_cert_time : bool;
  vr_signer_index : Z; vr_trusted : list TrustedCert;
}.

Record VerifyResult := mkVerifyResult {
  v_valid : bool; v_info : string; v_content : string; v_signer_cert : string;
  v_signers : list string; v_timestamp : time; v_raw_code : Z;
}.

Definition empty_verify : VerifyResult := mkVerifyResult false "" "" "" [] time_zero 0.

Record CertField := mkCertField {
  cf_id : Z; cf_name : string; cf_value : string; cf_raw : string; cf_ok : bool;
}.

Definition CertProperties := list CertField.

(** [CertProperties.Get]. *)
Definition Get (c : CertProperties) (name : string) : string * bool :=
  match find_first (fun f => str_eqb f.(cf_name) name) c with
  | Some f => (f.(cf_value), f.(cf_ok))
  | None => (""%string, false)
  end.

Record ValidateRequest := mkValidateRequest {
  vq_cert : string; vq_format : CertFormat; vq_method : ValidationMethod;
  vq_path : string; vq_check_time : time; vq_want_ocsp : bool;
  vq_trusted : list TrustedCert;
}.

Record ValidateResult := mkValidateResult {
  vs_status : CertStatus; vs_info : string; vs_ocsp : string; vs_raw_code : Z;
}.

Definition empty_validate : ValidateResult := mkValidateResult StatusUnknown "" "" 0.

Record Capabilities := mkCaps {
  c_version : string;
  c_pool_size : Z; c_sign_cms : bool; c_verify_cms : bool; c_sign_xml : bool;
  c_verify_xml : bool; c_cert_info : bool; c_validate : bool; c_timestamp : bool;
  c_zip_sign : bool; c_wsse : bool; c_hash : bool; c_export_cert : bool;
}.

(** ** catalog.go *)
Record Explanation := mkExplanation {
  x_code : string; x_key : string; x_message : string; x_action : string;
}.

Definition empty_explanation : Explanation := mkExplanation "" "" "" "".

Record catalogEntry := { ce_sentinel : goerr; ce_key : string; ce_message : string; ce_action : string }.

Definition catalog : list catalogEntry :=
  [
    Build_catalogEntry ErrInvalidPassword "container.password.invalid"
      "The private-key container password is incorrect."
      "Check the password for the key container (PKCS#12/PFX) and try again.";
    Build_catalogEntry ErrKeyNotFound "key.not_found"
      "No private key was found in the container."
      "Verify the container holds a signing key and that the right alias is selected.";
    Build_catalogEntry ErrCertNotFound "cert.not_found"
      "The certificate was not found."
      "Provide the signer certificate, or check that the key container includes it.";
    Build_catalogEntry ErrCertExpired "cert.expired"
      "The certificate is outside its validity period."
      "Reissue the certificate, or use one that is currently valid.";
    Build_catalogEntry ErrCertTimeInvalid "cert.time_invalid"
      "The certificate is not valid at the requested time."
      "Use a certificate valid at the signing/verification time, or adjust the check time.";
    Build_catalogEntry ErrCertParse "cert.parse_error"
      "The certificate could not be parsed."
      "Check the encoding (PEM/DER/Base64) and that the bytes are a valid X.509 certificate.";
    Build_catalogEntry ErrSignFormatMismatch "sign.format_mismatch"
      "The signature format flag does not match the data."
      "Ensure the format (CMS/XML/WSSE) and the detached flag match how the data was signed.";
    Build_catalogEntry ErrSignatureInvalid "signature.invalid"
      "The signature is cryptographically invalid."
      "The data was altered or signed with a different key — re-sign, or verify against the original source.";
    Build_catalogEntry ErrNoSignature "signature.absent"
      "No signature was found in the input."
      "Provide a signed container, and check that the format flag matches it.";
    Build_catalogEntry ErrChainInvalid "chain.invalid"
      "The certificate chain could not be built or verified."
      "Supply the issuing CA certificates (trust store) needed to complete the chain.";
    Build_catalogEntry ErrCARequired "ca.required"
      "A trusted CA certificate is required but was not available."
      "Load the NUC CA certificates into the trust store.";
    Build_catalogEntry ErrOCSPRequest "ocsp.request_failed"
      "The OCSP revocation check failed."
      "Check network access to the OCSP responder, or retry later.";
    Build_catalogEntry ErrXMLParse "xml.parse_error"
      "The XML document could not be parsed."
      "Ensure the input is well-formed XML.";
    Build_catalogEntry ErrEmptyOutput "output.empty"
      "The crypto library reported success but returned an empty result."
      "This combination of options is not supported by the library — a timestamp together with a disabled certificate-time check is the common case. Retry with the certificate-time check on.";
    Build_catalogEntry ErrCMSFormat "cms.format_unknown"
      "The CMS/PKCS#7 container format was not recognized."
      "Check that the input is a valid CMS/PKCS#7 structure and matches the detached flag.";
    Build_catalogEntry ErrInvalidParam "request.invalid_parameter"
      "The library rejected a request parameter."
      "Check the operation flags and the input encoding.";
    Build_catalogEntry ErrBufferTooSmall "buffer.too_small"
      "The library output buffer was too small."
      "Retry the operation; if it persists, report the input size to the maintainers.";
    Build_catalogEntry ErrUnsupported "operation.unsupported"
      "The loaded library version does not support this operation."
      "Upgrade the Kalkan library, or use a supported operation.";
    Build_catalogEntry ErrNotReady "service.not_ready"
      "The service is not ready — the native library is not initialized."
      "Wait for readiness (/readyz), or check the native library configuration.";
    Build_catalogEntry ErrClosed "service.closed"
      "The provider has been closed."
      "Restart the service."
  ]%string.

Definition generic_key : string := "library.error".
Definition generic_message : string := "The cryptographic library returned an error.".
Definition generic_action : string :=
  "Inspect the code and text detail; consult the error catalog or the maintainers.".

(** [Explain]; the nil error is the [None] of its callers. *)
Definition Explain (err : goerr) : Explanation :=
  let ne := as_native err in
  let code := match ne with
              | Some (_, c, _) => if negb (c =? 0) then ("0x" ++ hex8 c)%string else ""%string
              | None => ""%string
              end in
  match find_first (fun e => errors_is err e.(ce_sentinel)) catalog with
  | Some e => mkExplanation code e.(ce_key) e.(ce_message) e.(ce_action)
  | None =>
      match ne with
      | Some _ => mkExplanation code generic_key generic_message generic_action
      | None => mkExplanation code "" "" ""
      end
  end.

(** [SentinelForKey]. *)
Definition SentinelForKey (key : string) : option goerr :=
  ce_sentinel <$> find_first (fun e => str_eqb e.(ce_key) key) catalog.

(** ** locale.go *)
Inductive Locale := LocaleEN | LocaleRU | LocaleKK.

Global Instance Locale_eq_dec : EqDecision Locale.
Proof. solve_decision. Defined.

(** [strings.Split(s, ",")]. *)
Fixpoint split_comma (s acc : string) : list string :=
  match s with
  | EmptyString => [acc]
  | String c t =>
      if Ascii.eqb c "," then acc :: split_comma t ""
      else split_comma t (acc ++ String c "")%string
  end.

(** The prefix of [s] before the first character of [seps], all of it when
    there is none. *)
Fixpoint cut_before (seps : list ascii) (s : string) : string :=
  match s with
  | EmptyString => EmptyString
  | String c t =>
      if existsb (Ascii.eqb c) seps then EmptyString else String c (cut_before seps t)
  end.

(** The primary subtag of one list element. *)
Definition primary_subtag (part : string) : string :=
  let p := trim_space part in
  let p1 := cut_before [";"%char] p in
  let p2 := if str_eqb p1 p then p else trim_space p1 in
  cut_before ["-"%char; "_"%char] p2.

Definition locale_of (primary : string) : option Locale :=
  if str_eqb primary "ru" then Some LocaleRU
  else if str_eqb primary "kk" then Some LocaleKK
  else if str_eqb primary "en" then Some LocaleEN
  else None.

(** [ParseLocale]. *)
Definition ParseLocale (tag : string) : Locale :=
  let tag := trim_space (to_lower tag) in
  if empty_str tag then LocaleEN
  else match head (omap (fun p => locale_of (primary_subtag p)) (split_comma tag "")) with
       | Some l => l
       | None => LocaleEN
       end.

Record localized := { lo_message : string; lo_action : string }.

Definition translations_ru : list (string * localized) :=
  [
    ("container.password.invalid",
     Build_localized
       "Неверный пароль контейнера закрытого ключа."
       "Проверьте пароль контейнера (PKCS#12/PFX) и повторите попытку.");
    ("key.not_found",
     Build_localized
       "В контейнере не найден закрытый ключ."
       "Убедитесь, что контейнер содержит ключ подписи и выбран правильный алиас.");
    ("cert.not_found",
     Build_localized
       "Сертификат не найден."
       "Передайте сертификат подписанта или проверьте, что он есть в контейнере ключа.");
    ("cert.expired",
     Build_localized
       "Срок действия сертификата истёк."
       "Перевыпустите сертификат или используйте действующий.");
    ("cert.time_invalid",
     Build_localized
       "Сертификат недействителен на указанный момент времени."
       "Используйте сертификат, действующий на момент подписания/проверки, или измените проверяемое время.");
    ("cert.parse_error",
     Build_localized
       "Не удалось разобрать сертификат."
       "Проверьте кодировку (PEM/DER/Base64) и то, что байты являются корректным сертификатом X.509.");
    ("sign.format_mismatch",
     Build_localized
       "Флаг формата подписи не соответствует данным."
       "Убедитесь, что формат (CMS/XML/WSSE) и признак detached совпадают с тем, как данные подписывались.");
    ("signature.invalid",
     Build_localized
       "Подпись криптографически недействительна."
       "Данные изменены или подписаны другим ключом — подпишите заново либо проверьте против исходного документа.");
    ("signature.absent",
     Build_localized
       "Во входных данных не найдена подпись."
       "Передайте подписанный контейнер и проверьте, что флаг формата ему соответствует.");
    ("chain.invalid",
     Build_localized
       "Не удалось построить или проверить цепочку сертификатов."
       "Добавьте сертификаты выпустившего УЦ в хранилище доверия.");
    ("ca.required",
     Build_localized
       "Требуется доверенный сертификат УЦ, но он недоступен."
       "Загрузите сертификаты НУЦ РК в хранилище доверия.");
    ("ocsp.request_failed",
     Build_localized
       "Проверка отзыва по OCSP не удалась."
       "Проверьте сетевой доступ к OCSP-респондеру или повторите позже.");
    ("xml.parse_error",
     Build_localized
       "Не удалось разобрать XML-документ."
       "Убедитесь, что на вход подан корректный XML.");
    ("output.empty",
     Build_localized
       "Криптобиблиотека вернула успех, но пустой результат."
       "Это сочетание опций библиотека не поддерживает — чаще всего метка времени вместе с отключённой проверкой времени сертификата. Повторите с включённой проверкой времени.");
    ("cms.format_unknown",
     Build_localized
       "Формат контейнера CMS/PKCS#7 не распознан."
       "Проверьте, что на вход подана корректная структура CMS/PKCS#7 и что признак detached ей соответствует.");
    ("request.invalid_parameter",
     Build_localized
       "Библиотека отклонила параметр запроса."
       "Проверьте флаги операции и кодировку входных данных.");
    ("buffer.too_small",
     Build_localized
       "Выходной буфер библиотеки оказался мал."
       "Повторите операцию; если повторяется — сообщите сопровождающим размер входных данных.");
    ("operation.unsupported",
     Build_localized
       "Загруженная версия библиотеки не поддерживает эту операцию."
       "Обновите библиотеку Kalkan или используйте поддерживаемую операцию.");
    ("service.not_ready",
     Build_localized
       "Сервис не готов — нативная библиотека не инициализирована."
       "Дождитесь готовности (/readyz) или проверьте настройки нативной библиотеки.");
    ("service.closed",
     Build_localized
       "Провайдер закрыт."
       "Перезапустите сервис.");
    ("library.error",
     Build_localized
       "Криптографическая библиотека вернула ошибку."
       "Изучите код и текст ошибки; обратитесь к каталогу ошибок или к сопровождающим.")
  ]%string.

Definition translations_kk : list (string * localized) :=
  [
    ("container.password.invalid",
     Build_localized
       "Жабық кілт контейнерінің құпия сөзі дұрыс емес."
       "Контейнердің (PKCS#12/PFX) құпия сөзін тексеріп, қайта көріңіз.");
    ("key.not_found",
     Build_localized
       "Контейнерден жабық кілт табылмады."
       "Контейнерде қол қою кілті бар екенін және дұрыс алиас таңдалғанын тексеріңіз.");
    ("cert.not_found",
     Build_localized
       "Сертификат табылмады."
       "Қол қоюшының сертификатын беріңіз немесе оның кілт контейнерінде бар-жоғын тексеріңіз.");
    ("cert.expired",
     Build_localized
       "Сертификаттың қолданылу мерзімі өтіп кеткен."
       "Сертификатты қайта шығарыңыз немесе қолданыстағысын пайдаланыңыз.");
    ("cert.time_invalid",
     Build_localized
       "Сертификат көрсетілген уақытта жарамсыз."
       "Қол қою/тексеру сәтінде жарамды сертификатты пайдаланыңыз немесе тексеру уақытын өзгертіңіз.");
    ("cert.parse_error",
     Build_localized
       "Сертификатты талдау мүмкін болмады."
       "Кодтауды (PEM/DER/Base64) және байттардың жарамды X.509 сертификаты екенін тексеріңіз.");
    ("sign.format_mismatch",
     Build_localized
       "Қол қою пішімінің жалаушасы деректерге сәйкес келмейді."
       "Пішім (CMS/XML/WSSE) мен detached белгісі деректерге қол қою тәсіліне сай екенін тексеріңіз.");
    ("signature.invalid",
     Build_localized
       "Қол криптографиялық тұрғыдан жарамсыз."
       "Деректер өзгертілген немесе басқа кілтпен қол қойылған — қайта қол қойыңыз не бастапқы құжатпен салыстырыңыз.");
    ("signature.absent",
     Build_localized
       "Кіріс деректерінде қол табылмады."
       "Қол қойылған контейнерді беріңіз және пішім жалаушасының оған сәйкестігін тексеріңіз.");
    ("chain.invalid",
     Build_localized
       "Сертификаттар тізбегін құру немесе тексеру мүмкін болмады."
       "Сертификатты шығарған КО сертификаттарын сенім қоймасына қосыңыз.");
    ("ca.required",
     Build_localized
       "Сенімді КО сертификаты қажет, бірақ қолжетімсіз."
       "ҚР ҰКО сертификаттарын сенім қоймасына жүктеңіз.");
    ("ocsp.request_failed",
     Build_localized
       "OCSP арқылы кері қайтарып алуды тексеру сәтсіз аяқталды."
       "OCSP серверіне желілік қолжетімділікті тексеріңіз немесе кейінірек қайталаңыз.");
    ("xml.parse_error",
     Build_localized
       "XML құжатын талдау мүмкін болмады."
       "Кірісте жарамды XML бар екеніне көз жеткізіңіз.");
    ("output.empty",
     Build_localized
       "Криптокітапхана сәттілік туралы хабарлады, бірақ нәтиже бос."
       "Опциялардың бұл тіркесімін кітапхана қолдамайды — көбінесе бұл уақыт белгісі мен өшірілген сертификат уақытын тексеру. Сертификат уақытын тексеруді қосып қайталаңыз.");
    ("cms.format_unknown",
     Build_localized
       "CMS/PKCS#7 контейнерінің пішімі танылмады."
       "Кірісте жарамды CMS/PKCS#7 құрылымы бар екенін және detached белгісінің сәйкестігін тексеріңіз.");
    ("request.invalid_parameter",
     Build_localized
       "Кітапхана сұраныс параметрін қабылдамады."
       "Операция жалаушаларын және кіріс деректерінің кодтауын тексеріңіз.");
    ("buffer.too_small",
     Build_localized
       "Кітапхананың шығыс буфері тым кіші болды."
       "Операцияны қайталаңыз; қайталанса — кіріс деректерінің көлемін әзірлеушілерге хабарлаңыз.");
    ("operation.unsupported",
     Build_localized
       "Жүктелген кітапхана нұсқасы бұл операцияны қолдамайды."
       "Kalkan кітапханасын жаңартыңыз немесе қолдау көрсетілетін операцияны пайдаланыңыз.");
    ("service.not_ready",
     Build_localized
       "Қызмет дайын емес — нативті кітапхана іске қосылмаған."
       "Дайындықты күтіңіз (/readyz) немесе нативті кітапхана баптауларын тексеріңіз.");
    ("service.closed",
     Build_localized
       "Провайдер жабылған."
       "Қызметті қайта іске қосыңыз.");
    ("library.error",
     Build_localized
       "Криптографиялық кітапхана қате қайтарды."
       "Қате кодын және мәтінін қараңыз; қателер каталогына немесе әзірлеушілерге жүгініңіз.")
  ]%string.

Definition table_ru : gmap string localized := list_to_map translations_ru.
Definition table_kk : gmap string localized := list_to_map translations_kk.

(** [translations]: there is no English table. *)
Definition translations (l : Locale) : option (gmap string localized) :=
  match l with
  | LocaleEN => None
  | LocaleRU => Some table_ru
  | LocaleKK => Some table_kk
  end.

(** [Localize]. *)
Definition Localize (exp : Explanation) (loc : Locale) : Explanation :=
  match translations loc with
  | None => exp
  | Some table =>
      match table !! exp.(x_key) with
      | None => exp
      | Some t => mkExplanation exp.(x_code) exp.(x_key) t.(lo_message) t.(lo_action)
      end
  end.

(** [ExplainIn]. *)
Definition ExplainIn (err : goerr) (loc : Locale) : Explanation := Localize (Explain err) loc.

(** ** Lemmas *)
Lemma catalog_keys_distinct : NoDup (ce_key <$> catalog).
Proof. apply (bool_decide_unpack _). vm_compute. exact I. Qed.

(** What the proofs use of an entry, decided for the whole table. *)
Definition entry_ok (e : catalogEntry) : bool :=
  match ce_sentinel e with
  | Sent n m =>
      negb (empty_str (ce_message e)) && str_eqb (x_key (Explain (Sent n m))) (ce_key e) &&
      match SentinelForKey (ce_key e) with
      | Some (Sent n' m') => str_eqb n n' && str_eqb m m'
      | _ => false
      end
  | _ => false
  end.

Lemma catalog_ok : forallb entry_ok catalog = true.
Proof. vm_compute. reflexivity. Qed.

Lemma catalog_entry e :
  e ∈ catalog ->
  ce_message e <> ""%string /\ x_key (Explain (ce_sentinel e)) = ce_key e /\
  SentinelForKey (ce_key e) = Some (ce_sentinel e).
Proof.
  intros He. pose proof (forallb_elem _ _ _ catalog_ok He) as H. unfold entry_ok in H.
  destruct (ce_sentinel e) as [n m| | | |]; try discriminate H.
  destruct (SentinelForKey (ce_key e)) as [[n' m'| | | |]|];
    try (rewrite andb_false_r in H; discriminate H).
  apply andb_true_iff in H as [H Hs]. apply andb_true_iff in H as [Hm Hk].
  apply andb_true_iff in Hs as [Hn Hm'].
  apply str_eqb_eq in Hk, Hn, Hm'. apply negb_true_iff, str_eqb_neq in Hm.
  subst. done.
Qed.

(** The keys of the catalog and of the generic entry. *)
Definition all_keys : list string := generic_key :: (ce_key <$> catalog).

Lemma Explain_keys err : x_key (Explain err) <> ""%string -> x_key (Explain err) ∈ all_keys.
Proof.
  unfold Explain, all_keys. destruct (find_first _ catalog) as [e|] eqn:E; cbn [x_key].
  - intros _. apply find_first_some in E as [He _]. right. by apply list_elem_of_fmap_2.
  - destruct (as_native err) as [p|]; cbn [x_key]; [left|done].
Qed.

Lemma Localize_stable exp l :
  x_code (Localize exp l) = x_code exp /\ x_key (Localize exp l) = x_key exp.
Proof.
  unfold Localize. destruct (translations l) as [t|]; [|done]. by destruct (t !! x_key exp).
Qed.

Definition translated (t : gmap string localized) (k : string) : bool :=
  match t !! k with
  | Some x => negb (empty_str (lo_message x)) && negb (empty_str (lo_action x))
  | None => false
  end.

Lemma tables_complete :
  forallb (translated table_ru) all_keys &&
  forallb (translated table_kk) all_keys = true.
Proof. vm_compute. reflexivity. Qed.

#[local] Opaque catalog table_ru table_kk all_keys.

Lemma all_keys_translated l k t :
  k ∈ all_keys -> translations l = Some t ->
  exists x, t !! k = Some x /\ lo_message x <> ""%string /\ lo_action x <> ""%string.
Proof.
  intros Hk Ht. pose proof tables_complete as H. apply andb_true_iff in H as [Hr Hkk].
  assert (translated t k = true) as Htr.
  { rewrite forallb_forall in Hr, Hkk. apply list_elem_of_In in Hk.
    destruct l; [discriminate Ht| |]; injection Ht as <-; auto. }
  clear Hr Hkk Hk Ht. unfold translated in Htr. destruct (t !! k) as [x|]; [|done]. boolp.
  exists x. split_and!; auto; by apply str_eqb_neq.
Qed.

Lemma Explain_message err :
  x_key (Explain err) <> ""%string -> x_message (Explain err) <> ""%string.
Proof.
  unfold Explain. destruct (find_first _ catalog) as [e|] eqn:E; cbn [x_key x_message].
  - intros _. apply find_first_some in E as [He _]. by destruct (catalog_entry e He).
  - by destruct (as_native err).
Qed.

(** ** Theorems *)

(** The error catalog is invertible. A key that [Explain] gives an error,
    other than the generic library key, leads [SentinelForKey] back to a
    sentinel the error matches, and every catalogued sentinel is explained by
    its own key and recovered from it. *)
Theorem catalog_roundtrip :
  (forall err, x_key (Explain err) <> ""%string -> x_key (Explain err) <> generic_key ->
     exists s, SentinelForKey (x_key (Explain err)) = Some s /\ errors_is err s = true) /\
  (forall e, e ∈ catalog ->
     x_key (Explain (ce_sentinel e)) = ce_key e /\
     SentinelForKey (ce_key e) = Some (ce_sentinel e)).
Proof.
  split.
  - intros err. unfold Explain.
    destruct (find_first _ catalog) as [e|] eqn:E; cbn [x_key].
    + intros _ _. apply find_first_some in E as [He Hs].
      exists (ce_sentinel e). by destruct (catalog_entry e He) as (_ & _ & ->).
    + by destruct (as_native err).
  - intros e He. by destruct (catalog_entry e He) as (_ & ? & ?).
Qed.

(** Localization changes only the prose. Code and key are the same in every
    language, and an explained error always carries a non-empty message, in
    the language asked for whenever that is not English. *)
Theorem localize_total err l :
  x_code (ExplainIn err l) = x_code (Explain err) /\
  x_key (ExplainIn err l) = x_key (Explain err) /\
  (x_key (Explain err) <> ""%string ->
     x_message (ExplainIn err l) <> ""%string /\
     forall t, translations l = Some t ->
       lo_message <$> t !! x_key (Explain err) = Some (x_message (ExplainIn err l))).
Proof.
  unfold ExplainIn. destruct (Localize_stable (Explain err) l) as [-> ->].
  split; [reflexivity|]. split; [reflexivity|]. intros Hk. split.
  - unfold Localize. destruct (translations l) as [t|] eqn:Ht; [|by apply Explain_message].
    destruct (all_keys_translated l _ t (Explain_keys _ Hk) Ht) as (x & -> & Hm & _). done.
  - intros t Ht. unfold Localize. rewrite Ht.
    destruct (all_keys_translated l _ t (Explain_keys _ Hk) Ht) as (x & -> & _). done.
Qed.
