(* ===== verification/Native.v ===== *)
(** * The native driver: KalkanCrypt codes, flags and the pool's operations
    (internal/native/codes.go, flags.go, pool.go, worker.go).

    The C library behind an instance is a parameter: [kalkan] is the
    [kalkanInstance] interface over an abstract library state. A pool operation
    is the job it submits, run on the state of the worker that picks it up. *)
From S2P Require Import Prelude Errors Provider.

(** ** codes.go *)
Definition kcrOK := 0.
Definition kcrBase := 0x08F00000.
Definition kcrBufferTooSmall := kcrBase + 0x05.
Definition kcrCertParseError := kcrBase + 0x06.
Definition kcrInvalidFlag := kcrBase + 0x07.
Definition kcrInvalidPassword := kcrBase + 0x09.
Definition kcrCertWrongDate := kcrBase + 0x0a.
Definition kcrCertExpired := kcrBase + 0x0b.
Definition kcrIsNotCACert := kcrBase + 0x0c.
Definition kcrCheckChainError := kcrBase + 0x0e.
Definition kcrKeyNotFound := kcrBase + 0x16.
Definition kcrCertNotFound := kcrBase + 0x1b.
Definition kcrVerifySignError := kcrBase + 0x1c.
Definition kcrUnknownCMSFormat := kcrBase + 0x1e.
Definition kcrCACertNotFound := kcrBase + 0x20.
Definition kcrLoadTrustedCertsErr := kcrBase + 0x22.
Definition kcrNoSignFound := kcrBase + 0x24.
Definition kcrXMLParseError := kcrBase + 0x26.
Definition kcrOCSPReqErr := kcrBase + 0x30.
Definition kcrOCSPConnErr := kcrBase + 0x31.
Definition kcrGetCertPropErr := kcrBase + 0x38.
Definition kcrSignFormat := kcrBase + 0x39.
Definition kcrCertTimeInvalid := kcrBase + 0x42.
Definition kcrLibraryNotInitialized := kcrBase + 0x101.
Definition kcrParamError := kcrBase + 0x300.
Definition kcrCertStatusOK := kcrBase + 0x400.
Definition kcrCertStatusRevoked := kcrBase + 0x401.
Definition kcrCertStatusUnknown := kcrBase + 0x402.

(** The [switch] of [sentinelFor], as the table of its cases. *)
Definition sentinel_table : list (Z * goerr) :=
  [ (kcrInvalidPassword, ErrInvalidPassword);
    (kcrKeyNotFound, ErrKeyNotFound);
    (kcrCertNotFound, ErrCertNotFound);
    (kcrCertExpired, ErrCertExpired); (kcrCertWrongDate, ErrCertExpired);
    (kcrCertTimeInvalid, ErrCertTimeInvalid);
    (kcrCertParseError, ErrCertParse);
    (kcrXMLParseError, ErrXMLParse);
    (kcrUnknownCMSFormat, ErrCMSFormat);
    (kcrParamError, ErrInvalidParam); (kcrInvalidFlag, ErrInvalidParam);
    (kcrSignFormat, ErrSignFormatMismatch);
    (kcrVerifySignError, ErrSignatureInvalid);
    (kcrNoSignFound, ErrNoSignature);
    (kcrCheckChainError, ErrChainInvalid); (kcrIsNotCACert, ErrChainInvalid);
    (kcrCACertNotFound, ErrCARequired); (kcrLoadTrustedCertsErr, ErrCARequired);
    (kcrOCSPReqErr, ErrOCSPRequest); (kcrOCSPConnErr, ErrOCSPRequest);
    (kcrBufferTooSmall, ErrBufferTooSmall);
    (kcrLibraryNotInitialized, ErrNotReady) ].

(** [sentinelFor]. *)
Definition sentinelFor (code : Z) : option goerr :=
  snd <$> find_first (fun c => code =? fst c) sentinel_table.

(** [nativeErr]. *)
Definition nativeErr (op : string) (code : Z) (detail : string) : option goerr :=
  if code =? kcrOK then None
  else Some (NewNativeError op code detail (sentinelFor code)).

(** ** flags.go: the flags the operations combine *)
Definition kcCertPEM := 0x102.
Definition kcCertCA := 0x201.
Definition kcCertIntermediate := 0x202.
Definition kcUseNothing := 0x401.
Definition kcUseCRL := 0x402.
Definition kcUseOCSP := 0x404.
Definition kcSignCMS := 0x2.
Definition kcInPEM := 0x4.
Definition kcInDER := 0x8.
Definition kcDetachedData := 0x40.
Definition kcWithTimestamp := 0x100.
Definition kcOutPEM := 0x200.
Definition kcInFile := 0x8000.
Definition kcNoCheckCertTime := 0x10000.
Definition kcHashSHA256 := 0x20000.
Definition kcHashGOST95 := 0x40000.

(** [flags |= f] under a condition. *)
Definition or_if (c : bool) (f flags : Z) : Z := if c then Z.lor flags f else flags.

(** [signCMSFlags]. *)
Definition signCMSFlags (req : SignRequest) : Z :=
  or_if (negb (empty_str req.(sr_path))) kcInFile
  (or_if req.(sr_with_timestamp) kcWithTimestamp
  (or_if (negb req.(sr_check_cert_time)) kcNoCheckCertTime
  (or_if req.(sr_detached) kcDetachedData
  (Z.lor (or_if req.(sr_input_pem) kcInPEM kcSignCMS) kcOutPEM)))).

(** [cmsInputFlag]. *)
Definition cmsInputFlag (inputPEM : bool) : Z := if inputPEM then kcInPEM else kcInDER.

(** [verifyCMSFlags]. *)
Definition verifyCMSFlags (req : VerifyRequest) : Z :=
  or_if (negb (empty_str req.(vr_path))) kcInFile
  (or_if (negb req.(vr_check_cert_time)) kcNoCheckCertTime
  (or_if req.(vr_detached) kcDetachedData
  (or_if req.(vr_out_pem) kcOutPEM
  (Z.lor kcSignCMS (cmsInputFlag req.(vr_input_pem)))))).

(** [hashFlags]. *)
Definition hashFlags (alg : string) : Z :=
  if existsb (str_eqb alg) ["SHA256"; "sha256"; "2.16.840.1.101.3.4.2.1"]%string then kcHashSHA256
  else if existsb (str_eqb alg) ["GOST95"; "GOST34311"; "1.2.398.3.10.1.1.1"]%string
       then kcHashGOST95
  else 0.

(** [mapCertStatus]. *)
Definition mapCertStatus (code : Z) : CertStatus :=
  if (code =? kcrOK) || (code =? kcrCertStatusOK) then StatusGood
  else if (code =? 1) || (code =? kcrCertStatusRevoked) then StatusRevoked
  else StatusUnknown.

(** ** worker.go: what a worker can do with its instance *)
Record verifyOut := mkVerifyOut {
  vo_code : Z; vo_verify : string; vo_data : string; vo_cert : string;
}.
Record validateOut := mkValidateOut { va_code : Z; va_info : string; va_ocsp : string }.

(** [kalkanInstance] over the library's own state [L]. *)
Record kalkan (L : Type) := mkKalkan {
  i_loadKey : L -> KeyRef -> L * res goerr string;
  i_exportCert : L -> string -> Z -> L * res goerr string;
  i_certInfo : L -> string -> CertProperties;
  i_signData : L -> string -> Z -> string -> string -> L * res goerr string;
  i_verifyData : L -> string -> Z -> string -> string -> Z -> L * verifyOut;
  i_signXML : L -> string -> Z -> string -> string -> string -> string -> L * res goerr string;
  i_verifyXML : L -> string -> Z -> string -> L * (string * Z);
  i_signWSSE : L -> string -> Z -> string -> string -> L * res goerr string;
  i_hashData : L -> string -> Z -> string -> L * res goerr string;
  i_signHash : L -> string -> Z -> string -> L * res goerr string;
  i_certFromCMS : L -> string -> Z -> Z -> string * Z;
  i_certFromXML : L -> string -> Z -> string * Z;
  i_timeFromSig : L -> string -> Z -> Z -> time * Z;
  i_loadCertFile : L -> string -> Z -> L * option goerr;
  i_validate : L -> string -> Z -> string -> Z -> bool -> L * validateOut;
  i_tsaSetURL : L -> string -> L;
}.
Arguments i_loadKey {L}. Arguments i_exportCert {L}. Arguments i_certInfo {L}.
Arguments i_signData {L}. Arguments i_verifyData {L}. Arguments i_signXML {L}.
Arguments i_verifyXML {L}. Arguments i_signWSSE {L}. Arguments i_hashData {L}.
Arguments i_signHash {L}. Arguments i_certFromCMS {L}. Arguments i_certFromXML {L}.
Arguments i_timeFromSig {L}. Arguments i_loadCertFile {L}. Arguments i_validate {L}.
Arguments i_tsaSetURL {L}.

(** A job writes its captured result and returns an error. *)
Definition job (L A : Type) := L -> L * A * option goerr.

(** ** pool.go *)
Section Pool.
  Context {L : Type} (inst : kalkan L).
  (** PEM armour: [pem.Decode]'s block bytes, and [pem.EncodeToMemory]. *)
  Variable pem_decode : string -> option string.
  Variable pem_encode : string -> string.
  Variable b64_encode : string -> string.
  (** Writing a CA to a temporary file: the error, if any. *)
  Variable temp_write : string -> option goerr.

(** The scheduler's side of one [submit]: a worker takes the job, the pool
    quits first, or the context ends first; [a_after] is [ctx.Err()] once the
    job is done. *)
Inductive pickup := Picked | Quitting | CtxDone (e : goerr).
Record arrival := Arrival { a_closed : bool; a_pick : pickup; a_after : option goerr }.

(** [Pool.submit]: the job runs exactly when a worker picked it up. *)
Definition submit {A} (a : arrival) (init : A) (fn : job L A) (s : L)
    : L * A * option goerr :=
  if a.(a_closed) then (s, init, Some ErrClosed)
  else match a.(a_pick) with
  | Quitting => (s, init, Some ErrClosed)
  | CtxDone e => (s, init, Some e)
  | Picked =>
      match fn s with
      | (s', out, None) => (s', out, a.(a_after))
      | (s', out, Some e) => (s', out, Some e)
      end
  end.

(** [loadTrustedFromBytes]: the instance loads the file's content. *)
Definition loadTrustedFromBytes (s : L) (cert : string) (certType : Z) : L * option goerr :=
  match temp_write cert with
  | Some e => (s, Some e)
  | None => inst.(i_loadCertFile) s cert certType
  end.

(** [loadTrusted]. *)
Fixpoint loadTrusted (s : L) (cas : list TrustedCert) : L * option goerr :=
  match cas with
  | [] => (s, None)
  | ca :: t =>
      let ct := if ca.(tc_intermediate) then kcCertIntermediate else kcCertCA in
      match loadTrustedFromBytes s ca.(tc_cert) ct with
      | (s', Some e) => (s', Some e)
      | (s', None) => loadTrusted s' t
      end
  end.

(** [asn1SequenceTag]. *)
Definition asn1SequenceTag : ascii := ascii_of_nat 48.

(** [signedCMSFromPEM]. *)
Definition signedCMSFromPEM (sig : string) : res goerr string :=
  if empty_str sig then Err (New "the output buffer is empty")
  else match pem_decode sig with
  | None => Err (New "the output buffer holds no PEM block")
  | Some (String c t) =>
      if Ascii.eqb c asn1SequenceTag then Ok (String c t)
      else Err (New "the PEM block does not hold an ASN.1 SEQUENCE")
  | Some EmptyString => Err (New "the PEM block does not hold an ASN.1 SEQUENCE")
  end.

(** [emptyOutputErr]. *)
Definition emptyOutputErr (op : string) (tsNoTime : bool) (cause : goerr) : goerr :=
  let d := ("the library reported success but produced no container: " ++ err_text cause)%string in
  let d := if tsNoTime
           then (d ++ "; a timestamp together with a disabled certificate-time check is not supported")%string
           else d in
  NewNativeError op 0 d (Some ErrEmptyOutput).

(** Load the key, then the CAs, then set the TSA: the common prologue of the
    signing jobs. *)
Definition prologue (s : L) (key : KeyRef) (cas : list TrustedCert) (ts : bool) (tsa : string)
    : L * res goerr string :=
  match inst.(i_loadKey) s key with
  | (s1, Err e) => (s1, Err e)
  | (s1, Ok alias) =>
      match loadTrusted s1 cas with
      | (s2, Some e) => (s2, Err e)
      | (s2, None) => (if ts then inst.(i_tsaSetURL) s2 tsa else s2, Ok alias)
      end
  end.

(** [Pool.SignCMS]. *)
Definition signCMS_job (req : SignRequest) : job L string := fun s =>
  match prologue s req.(sr_key) req.(sr_trusted) req.(sr_with_timestamp) req.(sr_tsa_url) with
  | (s1, Err e) => (s1, ""%string, Some e)
  | (s1, Ok alias) =>
      let data := if negb (empty_str req.(sr_path)) then req.(sr_path) else req.(sr_data) in
      match inst.(i_signData) s1 alias (signCMSFlags req) data req.(sr_existing) with
      | (s2, Err e) => (s2, ""%string, Some e)
      | (s2, Ok sig) =>
          match signedCMSFromPEM sig with
          | Err derr =>
              (s2, ""%string,
               Some (emptyOutputErr "SignCMS"
                       (req.(sr_with_timestamp) && negb req.(sr_check_cert_time)) derr))
          | Ok der => (s2, if req.(sr_out_pem) then sig else der, None)
          end
      end
  end.

Definition SignCMS (caps : Capabilities) (a : arrival) (req : SignRequest) (s : L)
    : L * string * option goerr :=
  if negb caps.(c_sign_cms) then (s, ""%string, Some ErrUnsupported)
  else submit a ""%string (signCMS_job req) s.

(** The signer walk of [VerifyCMS] and [VerifyXML]: 1-based, at most 64. *)
Fixpoint walk (fuel : nat) (sigID : Z) (get : Z -> string * Z) : list string :=
  match fuel with
  | O => []
  | S f =>
      let (cert, crc) := get sigID in
      if negb (crc =? kcrOK) || empty_str cert then []
      else cert :: walk f (sigID + 1) get
  end.
Definition signers_of (get : Z -> string * Z) : list string := walk 64 1 get.

(** The signer at a 0-based index, the first one when it is out of range. *)
Definition signer_at (signers : list string) (idx : Z) : string :=
  let idx := if (idx <? 0) || (Z.of_nat (length signers) <=? idx) then 0 else idx in
  match signers !! Z.to_nat idx with Some c => c | None => ""%string end.

(** [Pool.VerifyCMS]. *)
Definition verifyCMS_job (req : VerifyRequest) : job L VerifyResult := fun s =>
  match loadTrusted s req.(vr_trusted) with
  | (s1, Some e) => (s1, empty_verify, Some e)
  | (s1, None) =>
      let data := if negb (empty_str req.(vr_path)) then req.(vr_path) else req.(vr_data) in
      let (s2, vo) := inst.(i_verifyData) s1 "" (verifyCMSFlags req) data
                        req.(vr_signature) req.(vr_signer_index) in
      let certFlags := Z.lor kcOutPEM (cmsInputFlag req.(vr_input_pem)) in
      let signers := signers_of
            (fun id => inst.(i_certFromCMS) s2 req.(vr_signature) id certFlags) in
      let signer := if empty_str vo.(vo_cert) && negb (Nat.eqb (length signers) 0)
                    then signer_at signers req.(vr_signer_index) else vo.(vo_cert) in
      let (t, rc) := inst.(i_timeFromSig) s2 req.(vr_signature)
                       (cmsInputFlag req.(vr_input_pem)) 0 in
      let ts := if rc =? kcrOK then t else time_zero in
      (s2, mkVerifyResult (vo.(vo_code) =? kcrOK) vo.(vo_verify) vo.(vo_data) signer
             signers ts vo.(vo_code),
       nativeErr "VerifyCMS" vo.(vo_code) "")
  end.

Definition VerifyCMS (caps : Capabilities) (a : arrival) (req : VerifyRequest) (s : L)
    : L * VerifyResult * option goerr :=
  if negb caps.(c_verify_cms) then (s, empty_verify, Some ErrUnsupported)
  else submit a empty_verify (verifyCMS_job req) s.

(** The flags of XML operations. *)
Definition xmlFlags (check_time ts : bool) : Z :=
  or_if ts kcWithTimestamp (or_if (negb check_time) kcNoCheckCertTime 0).

(** [Pool.SignXML]. *)
Definition SignXML (caps : Capabilities) (a : arrival) (req : SignXMLRequest) (s : L)
    : L * string * option goerr :=
  if negb caps.(c_sign_xml) then (s, ""%string, Some ErrUnsupported)
  else submit a ""%string (fun s =>
    match prologue s req.(sx_key) req.(sx_trusted) req.(sx_with_timestamp) req.(sx_tsa_url) with
    | (s1, Err e) => (s1, ""%string, Some e)
    | (s1, Ok alias) =>
        match inst.(i_signXML) s1 alias (xmlFlags req.(sx_check_cert_time) req.(sx_with_timestamp))
                req.(sx_xml) req.(sx_node_id) req.(sx_parent_node) req.(sx_parent_ns) with
        | (s2, Err e) => (s2, ""%string, Some e)
        | (s2, Ok sig) => (s2, sig, None)
        end
    end) s.

(** [Pool.VerifyXML]. *)
Definition VerifyXML (caps : Capabilities) (a : arrival) (req : VerifyRequest) (s : L)
    : L * VerifyResult * option goerr :=
  if negb caps.(c_verify_xml) then (s, empty_verify, Some ErrUnsupported)
  else submit a empty_verify (fun s =>
    match loadTrusted s req.(vr_trusted) with
    | (s1, Some e) => (s1, empty_verify, Some e)
    | (s1, None) =>
        let '(s2, (info, rc)) :=
          inst.(i_verifyXML) s1 "" (xmlFlags req.(vr_check_cert_time) false) req.(vr_signature) in
        let signers := signers_of (fun id => inst.(i_certFromXML) s2 req.(vr_signature) id) in
        let signer := match signers with
                      | [] => ""%string
                      | _ => signer_at signers req.(vr_signer_index)
                      end in
        (s2, mkVerifyResult (rc =? kcrOK) info "" signer signers time_zero rc,
         nativeErr "VerifyXML" rc "")
    end) s.

(** [Pool.SignWSSE]. *)
Definition SignWSSE (caps : Capabilities) (a : arrival) (req : SignWSSERequest) (s : L)
    : L * string * option goerr :=
  if negb caps.(c_wsse) then (s, ""%string, Some ErrUnsupported)
  else submit a ""%string (fun s =>
    match prologue s req.(sw_key) req.(sw_trusted) req.(sw_with_timestamp) req.(sw_tsa_url) with
    | (s1, Err e) => (s1, ""%string, Some e)
    | (s1, Ok alias) =>
        match inst.(i_signWSSE) s1 alias (xmlFlags req.(sw_check_cert_time) req.(sw_with_timestamp))
                req.(sw_xml) req.(sw_node_id) with
        | (s2, Err e) => (s2, ""%string, Some e)
        | (s2, Ok sig) => (s2, sig, None)
        end
    end) s.

(** [certToFormat]. *)
Definition certToFormat (raw : string) (format : CertFormat) : string :=
  let der := match pem_decode raw with Some b => b | None => raw end in
  match format with
  | CertDER => der
  | CertB64 => b64_encode der
  | CertPEM => pem_encode der
  end.

(** [Pool.ExportOwnerCert]: the certificate and the alias. *)
Definition ExportOwnerCert (caps : Capabilities) (a : arrival) (key : KeyRef)
    (format : CertFormat) (s : L) : L * (string * string) * option goerr :=
  let none := (""%string, ""%string) in
  if negb caps.(c_export_cert) then (s, none, Some ErrUnsupported)
  else submit a none (fun s =>
    match inst.(i_loadKey) s key with
    | (s1, Err e) => (s1, none, Some e)
    | (s1, Ok alias) =>
        match inst.(i_exportCert) s1 alias kcCertPEM with
        | (s2, Err e) => (s2, (""%string, alias), Some e)
        | (s2, Ok raw) => (s2, (certToFormat raw format, alias), None)
        end
    end) s.

(** [Pool.Hash]. *)
Definition Hash (caps : Capabilities) (a : arrival) (alg data : string) (s : L)
    : L * string * option goerr :=
  if negb caps.(c_hash) then (s, ""%string, Some ErrUnsupported)
  else submit a ""%string (fun s =>
    match inst.(i_hashData) s alg (hashFlags alg) data with
    | (s1, Err e) => (s1, ""%string, Some e)
    | (s1, Ok h) => (s1, h, None)
    end) s.

(** [Pool.SignHash]. *)
Definition SignHash (caps : Capabilities) (a : arrival) (req : SignHashRequest) (s : L)
    : L * string * option goerr :=
  if negb caps.(c_hash) then (s, ""%string, Some ErrUnsupported)
  else submit a ""%string (fun s =>
    match inst.(i_loadKey) s req.(sh_key) with
    | (s1, Err e) => (s1, ""%string, Some e)
    | (s1, Ok alias) =>
        let flags := or_if (negb req.(sh_check_cert_time)) kcNoCheckCertTime
                       (or_if req.(sh_out_pem) kcOutPEM 0) in
        match inst.(i_signHash) s1 alias flags req.(sh_hash) with
        | (s2, Err e) => (s2, ""%string, Some e)
        | (s2, Ok sig) => (s2, sig, None)
        end
    end) s.

(** [Pool.CertProperties]. *)
Definition PoolCertProperties (caps : Capabilities) (a : arrival) (cert : string) (s : L)
    : L * CertProperties * option goerr :=
  if negb caps.(c_cert_info) then (s, [], Some ErrUnsupported)
  else submit a [] (fun s => (s, inst.(i_certInfo) s cert, None)) s.

(** [Time.Unix()]: seconds since 1970 of an instant. *)
Definition unix (t : time) : Z := t / second - 62135596800.

(** [Pool.ValidateCert]. *)
Definition ValidateCert (caps : Capabilities) (a : arrival) (req : ValidateRequest) (s : L)
    : L * ValidateResult * option goerr :=
  if negb caps.(c_validate) then (s, empty_validate, Some ErrUnsupported)
  else submit a empty_validate (fun s =>
    match loadTrusted s req.(vq_trusted) with
    | (s1, Some e) => (s1, empty_validate, Some e)
    | (s1, None) =>
        let vt := match req.(vq_method) with
                  | ValidateCRL => kcUseCRL
                  | ValidateNone => kcUseNothing
                  | ValidateOCSP => kcUseOCSP
                  end in
        let (s2, vo) := inst.(i_validate) s1 req.(vq_cert) vt req.(vq_path)
                          (unix req.(vq_check_time)) req.(vq_want_ocsp) in
        let st := mapCertStatus vo.(va_code) in
        let r := mkValidateResult st vo.(va_info) vo.(va_ocsp) vo.(va_code) in
        (s2, r,
         if bool_decide (st = StatusUnknown) && negb (vo.(va_code) =? kcrOK)
            && negb (vo.(va_code) =? kcrCertStatusUnknown)
         then nativeErr "ValidateCert" vo.(va_code) vo.(va_info) else None)
    end) s.
End Pool.

(** ** Lemmas *)
Lemma submit_none {L A} a (init : A) (fn : job L A) s s' r :
  submit a init fn s = (s', r, None) ->
  a_closed a = false /\ a_pick a = Picked /\ a_after a = None /\ fn s = (s', r, None).
Proof.
  unfold submit. intros H. destruct (a_closed a); [done|].
  destruct (a_pick a); try done. destruct (fn s) as [[s1 r1] [e|]]; by simplify_eq.
Qed.

(** What a job wrote is returned whatever its error. *)
Lemma submit_result {L A} a (init : A) (fn : job L A) s s' r e :
  submit a init fn s = (s', r, e) ->
  (s' = s /\ r = init /\ e <> None) \/
  (exists e', fn s = (s', r, e') /\ (e = e' \/ e' = None)).
Proof.
  unfold submit. intros H. destruct (a_closed a); [left; by simplify_eq|].
  destruct (a_pick a); try (left; by simplify_eq).
  right. destruct (fn s) as [[s1 r1] [e1|]]; simplify_eq; eauto.
Qed.

Lemma walk_spec fuel id get :
  (length (walk fuel id get) <= fuel)%nat /\
  (forall k c, walk fuel id get !! k = Some c ->
     c <> ""%string /\ get (id + Z.of_nat k) = (c, kcrOK)) .
Proof.
  revert id. induction fuel as [|f IH]; intros id; simpl; [split; [lia|done]|].
  destruct (get id) as [cert crc] eqn:Hg.
  destruct (negb (crc =? kcrOK) || empty_str cert) eqn:Hc; [split; [simpl; lia|done]|].
  boolp. destruct (IH (id + 1)) as [Hl Hk]. split; [simpl; lia|].
  intros [|k] c Hc; simpl in Hc.
  - simplify_eq. split; [by apply str_eqb_neq|]. replace (id + Z.of_nat 0) with id by lia.
    by rewrite Hg.
  - destruct (Hk k c Hc) as [H1 H2]. split; [done|].
    by replace (id + Z.of_nat (S k)) with (id + 1 + Z.of_nat k) by lia.
Qed.

(** The sentinels of the code table carry no native error and are only
    provider sentinels. *)
Lemma sentinelFor_in code s : sentinelFor code = Some s -> (code, s) ∈ sentinel_table.
Proof.
  unfold sentinelFor. intros H. apply fmap_Some in H as ((c & s') & Hf & ->).
  apply find_first_some in Hf as [Hin Hc]. simpl in *. apply Z.eqb_eq in Hc. by subst.
Qed.

Lemma errors_is_native op code d s t :
  errors_is (NewNativeError op code d s) t =
  match s with Some s => errors_is s t | None => false end.
Proof. by destruct t, s. Qed.

(** Which of the three infrastructure sentinels a table entry is. *)
Definition infra (s : goerr) : bool :=
  errors_is s ErrUnsupported || errors_is s ErrNotReady || errors_is s ErrClosed.

Lemma table_infra :
  forallb (fun c => Bool.eqb (infra (snd c)) (fst c =? kcrLibraryNotInitialized)) sentinel_table = true.
Proof. vm_compute. reflexivity. Qed.

Lemma sentinelFor_not_initialized : sentinelFor kcrLibraryNotInitialized = Some ErrNotReady.
Proof. reflexivity. Qed.

Lemma infra_sentinelFor code :
  match sentinelFor code with Some s => infra s | None => false end =
  (code =? kcrLibraryNotInitialized).
Proof.
  destruct (sentinelFor code) as [s|] eqn:H.
  - apply sentinelFor_in in H. pose proof (forallb_elem _ _ _ table_infra H) as Hb.
    by apply Bool.eqb_prop in Hb.
  - destruct (code =? kcrLibraryNotInitialized) eqn:E; [|done]. apply Z.eqb_eq in E. subst.
    by rewrite sentinelFor_not_initialized in H.
Qed.

(** An error that carries a native code and no infrastructure sentinel is soft. *)
Lemma soft_native e p :
  as_native e = Some p ->
  infra e = false -> isSoftVerifyFailure e = true.
Proof.
  unfold isSoftVerifyFailure, infra. intros -> H.
  destruct (errors_is e ErrUnsupported), (errors_is e ErrNotReady), (errors_is e ErrClosed);
    try done. by case_match.
Qed.

Lemma infra_native op code d :
  infra (NewNativeError op code d (sentinelFor code)) = (code =? kcrLibraryNotInitialized).
Proof.
  unfold infra. rewrite !errors_is_native, <- infra_sentinelFor. by destruct (sentinelFor code).
Qed.

Lemma testbit_or_if c f flags k :
  Z.testbit (or_if c f flags) k = (c && Z.testbit f k) || Z.testbit flags k.
Proof. unfold or_if. destruct c; [rewrite Z.lor_spec; apply orb_comm|done]. Qed.

(** ** Theorems *)

(** The driver's error table and the domain's reading of it agree. A
    non-zero library code from a verify operation is a business outcome (a soft
    failure) for every code except "library not initialized", which is an
    unavailability. *)
Theorem native_soft_failure op code detail e :
  nativeErr op code detail = Some e ->
  isSoftVerifyFailure e = negb (code =? kcrLibraryNotInitialized) /\
  (classify e = KindUnavailable <-> code = kcrLibraryNotInitialized).
Proof.
  unfold nativeErr. intros H. destruct (code =? kcrOK); [done|]. injection H as <-.
  destruct (code =? kcrLibraryNotInitialized) eqn:Hc.
  - apply Z.eqb_eq in Hc. subst. rewrite sentinelFor_not_initialized. done.
  - split; [by apply (soft_native _ (op, u32 code, detail)); [|rewrite infra_native]|].
    split; [|intros ->; by rewrite Z.eqb_refl in Hc].
    pose proof (infra_native op code detail) as Hi. rewrite Hc in Hi. unfold infra in Hi. boolp.
    intros Hk%classify_unavailable. by rewrite H0, H1 in Hk.
Qed.

Lemma native_soft_failure_witness :
  isSoftVerifyFailure (NewNativeError "VerifyCMS" kcrVerifySignError "" (Some ErrSignatureInvalid))
    = true /\ kcrVerifySignError <> kcrLibraryNotInitialized.
Proof.
  split; [|discriminate].
  exact (proj1 (native_soft_failure "VerifyCMS" kcrVerifySignError "" _ eq_refl)).
Defined.

(** Every CMS verify flag is decided by exactly one request option, and the
    sign and verify flags agree on the options they share. *)
Theorem cms_flags_bits (s : SignRequest) (v : VerifyRequest) :
  let sb := Z.testbit (signCMSFlags s) in let vb := Z.testbit (verifyCMSFlags v) in
  sb 1 = true /\ vb 1 = true /\
  sb 2 = sr_input_pem s /\ vb 2 = vr_input_pem v /\ vb 3 = negb (vr_input_pem v) /\
  sb 6 = sr_detached s /\ vb 6 = vr_detached v /\
  sb 8 = sr_with_timestamp s /\ vb 8 = false /\
  sb 9 = true /\ vb 9 = vr_out_pem v /\
  sb 15 = negb (empty_str (sr_path s)) /\ vb 15 = negb (empty_str (vr_path v)) /\
  sb 16 = negb (sr_check_cert_time s) /\ vb 16 = negb (vr_check_cert_time v).
Proof.
  unfold signCMSFlags, verifyCMSFlags, cmsInputFlag.
  cbn zeta. rewrite !testbit_or_if, !Z.lor_spec, !testbit_or_if.
  destruct (vr_input_pem v); rewrite ?andb_false_r, ?orb_false_r, ?orb_true_r; simpl;
    rewrite ?andb_false_r, ?andb_true_r, ?orb_false_r, ?orb_true_r; done.
Qed.

(** A CMS verification through the pool answers "no error" only when the
    library was reached and returned success; a library refusal always comes
    back as an error next to an invalid result, and the signers listed are at
    most 64 non-empty certificates, each the library's answer for its 1-based
    position. *)
Theorem verify_cms_outcome {L} (inst : kalkan L) temp_write caps a req s s' r err :
  VerifyCMS inst temp_write caps a req s = (s', r, err) ->
  (err = None -> v_valid r = true /\ v_raw_code r = kcrOK /\ a_closed a = false /\
                 a_pick a = Picked /\ c_verify_cms caps = true) /\
  (v_raw_code r <> kcrOK -> v_valid r = false /\ err <> None) /\
  (length (v_signers r) <= 64)%nat /\
  (forall k c, v_signers r !! k = Some c -> c <> ""%string /\
     exists l flags, i_certFromCMS inst l (vr_signature req) (1 + Z.of_nat k) flags = (c, kcrOK)).
Proof.
  unfold VerifyCMS. intros H.
  destruct (c_verify_cms caps) eqn:Hcap; simpl in H.
  2:{ simplify_eq. simpl. split_and!; [done|done|lia|done]. }
  assert (forall s0 s1 r0 e0, verifyCMS_job inst temp_write req s0 = (s1, r0, e0) ->
    (e0 = None -> v_valid r0 = true /\ v_raw_code r0 = kcrOK) /\
    (v_raw_code r0 <> kcrOK -> v_valid r0 = false /\ e0 <> None) /\
    (length (v_signers r0) <= 64)%nat /\
    (forall k c, v_signers r0 !! k = Some c -> c <> ""%string /\
       exists l flags, i_certFromCMS inst l (vr_signature req) (1 + Z.of_nat k) flags = (c, kcrOK)))
    as Hjob.
  { intros s0 s1 r0 e0. unfold verifyCMS_job.
    destruct (loadTrusted inst temp_write s0 (vr_trusted req)) as [sa [e1|]].
    { intros ?; simplify_eq; simpl; split_and!; [done|done|lia|done]. }
    destruct (i_verifyData inst sa _ _ _ _ _) as [sb vo].
    destruct (i_timeFromSig inst sb _ _ _) as [t rc]. intros ?; simplify_eq; simpl.
    set (get := fun id => i_certFromCMS inst s1 (vr_signature req) id _).
    destruct (walk_spec 64 1 get) as [Hl Hk].
    assert (forall k c, signers_of get !! k = Some c -> c <> ""%string /\
      exists l flags, i_certFromCMS inst l (vr_signature req) (1 + Z.of_nat k) flags = (c, kcrOK))
      as Hsig.
    { intros k c Hkc. destruct (Hk k c Hkc). split; [done|]. unfold get in *. eauto. }
    unfold nativeErr. destruct (vo_code vo =? kcrOK) eqn:Hc.
    - apply Z.eqb_eq in Hc. split_and!; auto; done.
    - split_and!; auto; done. }
  destruct err as [e|].
  - destruct (submit_result _ _ _ _ _ _ _ H) as [(-> & -> & _)|(e' & Hj & _)]; simpl.
    + split_and!; [done|done|lia|done].
    + destruct (Hjob _ _ _ _ Hj) as (_ & Hb & Hc & Hd). split_and!; auto; [done|].
      intros Hr. split; [by apply Hb|done].
  - destruct (submit_none _ _ _ _ _ _ H) as (H1 & H2 & _ & Hj).
    destruct (Hjob _ _ _ _ Hj) as (Ha & Hb & Hc & Hd).
    split_and!; auto. intros _. destruct (Ha eq_refl). done.
Qed.

(** A library that accepts every container and knows one signer. *)
Definition toy_kalkan : kalkan unit :=
  mkKalkan unit (fun s _ => (s, Ok "alias"%string)) (fun s _ _ => (s, Ok "PEM"%string)) (fun _ _ => [])
    (fun s _ _ _ _ => (s, Ok "PEM"%string)) (fun s _ _ _ _ _ => (s, mkVerifyOut 0 "ok" "doc" ""))
    (fun s _ _ _ _ _ _ => (s, Ok ""%string)) (fun s _ _ _ => (s, (""%string, 0)))
    (fun s _ _ _ _ => (s, Ok ""%string)) (fun s _ _ _ => (s, Ok ""%string))
    (fun s _ _ _ => (s, Ok ""%string))
    (fun _ _ id _ => if id =? 1 then ("signer"%string, 0) else (""%string, 0x08F0001B))
    (fun _ _ _ => (""%string, 1)) (fun _ _ _ _ => (0, 1)) (fun s _ _ => (s, None))
    (fun s _ _ _ _ _ => (s, mkValidateOut 0 "" "")) (fun s _ => s).
Definition all_caps : Capabilities :=
  mkCaps "2.0.13" 1 true true true true true true true true true true true.

Lemma verify_cms_outcome_witness :
  let r := mkVerifyResult true "ok" "doc" "signer" ["signer"%string] 0 0 in
  v_valid r = true /\ v_raw_code r = kcrOK /\ a_closed (Arrival false Picked None) = false /\
  a_pick (Arrival false Picked None) = Picked /\ c_verify_cms all_caps = true.
Proof.
  refine (proj1 (verify_cms_outcome toy_kalkan (fun _ => None) all_caps
           (Arrival false Picked None)
           (mkVerifyRequest "cms" "" "" false true false true 0 []) tt tt
           (mkVerifyResult true "ok" "doc" "signer" ["signer"%string] 0 0) None _) eq_refl).
  vm_compute. reflexivity.
Defined.
