(* ===== verification/Instance.v ===== *)
(** * One library instance: buffers between Go and C (internal/native/instance.go)

    The C library is a record [clib] of its calls over its own state. A call
    with an output buffer of some capacity answers with a code, the length it
    left in the length argument and the memory from the start of the buffer on:
    bytes at the capacity and beyond lie outside the block. The alias of a key
    has no length: the Go side scans for its NUL, beyond the block if it must.
    [instance] is the [kalkan] the pool of Native.v runs on.

    The Go lengths become C ints ([c_int]), codes become uint32 ([u32]). The
    property and certificate readers leave the library's state alone; the text
    of the last error does too. *)
From S2P Require Import Prelude Errors Provider Native.

Module Instance.

(** ** flags.go: what only the instance uses *)
Definition kcstPKCS12 := 0x1.
Definition kcstKZIDCard := 0x2.
Definition kcstKaztoken := 0x4.
Definition kcstEToken72K := 0x8.
Definition kcstJaCarta := 0x10.
Definition kcstX509Cert := 0x20.
Definition kcstAKey := 0x40.
Definition kcstEToken5110 := 0x80.
Definition kcGetOCSPResponse := 0x80000.

(** [certProps]. *)
Definition certProps : list (Z * string) :=
  [(0x801, "ISSUER_COUNTRYNAME"); (0x802, "ISSUER_SOPN"); (0x803, "ISSUER_LOCALITYNAME");
   (0x804, "ISSUER_ORG_NAME"); (0x805, "ISSUER_ORGUNIT_NAME"); (0x806, "ISSUER_COMMONNAME");
   (0x807, "SUBJECT_COUNTRYNAME"); (0x808, "SUBJECT_SOPN"); (0x809, "SUBJECT_LOCALITYNAME");
   (0x80a, "SUBJECT_COMMONNAME"); (0x80b, "SUBJECT_GIVENNAME"); (0x80c, "SUBJECT_SURNAME");
   (0x80d, "SUBJECT_SERIALNUMBER"); (0x80e, "SUBJECT_EMAIL"); (0x80f, "SUBJECT_ORG_NAME");
   (0x810, "SUBJECT_ORGUNIT_NAME"); (0x811, "SUBJECT_BC"); (0x812, "SUBJECT_DC");
   (0x813, "NOTBEFORE"); (0x814, "NOTAFTER"); (0x815, "KEY_USAGE"); (0x816, "EXT_KEY_USAGE");
   (0x817, "AUTH_KEY_ID"); (0x818, "SUBJ_KEY_ID"); (0x819, "CERT_SN"); (0x81a, "ISSUER_DN");
   (0x81b, "SUBJECT_DN"); (0x81c, "SIGNATURE_ALG"); (0x81d, "PUBKEY"); (0x81e, "POLICIES_ID")]%string.

(** [storageFlag]. *)
Definition storageFlag (s : StorageType) : Z :=
  match s with
  | StoragePKCS12 => kcstPKCS12
  | StorageKZIDCard => kcstKZIDCard
  | StorageKaztoken => kcstKaztoken
  | StorageEToken72K => kcstEToken72K
  | StorageJaCarta => kcstJaCarta
  | StorageX509Cert => kcstX509Cert
  | StorageAKey => kcstAKey
  | StorageEToken5110 => kcstEToken5110
  end.

(** ** Memory *)
(** [C.int]: truncation to 32 bits, signed. *)
Definition c_int (z : Z) : Z := (z + 2 ^ 31) mod 2 ^ 32 - 2 ^ 31.
Definition c_len (s : string) : Z := c_int (Z.of_nat (String.length s)).

(** The byte at each offset from the start of a block. *)
Definition memory : Type := nat -> ascii.
Fixpoint read (m : memory) (from n : nat) : string :=
  match n with O => EmptyString | S k => String (m from) (read m (S from) k) end.
(** [C.GoBytes], which takes the length on trust. *)
Definition GoBytes (m : memory) (n : Z) : string := read m 0 (Z.to_nat n).

(** [trimNul]: what is before the first NUL. *)
Definition nul : ascii := ascii_of_nat 0.
Fixpoint trimNul (s : string) : string :=
  match s with
  | EmptyString => EmptyString
  | String c t => if Ascii.eqb c nul then EmptyString else String c (trimNul t)
  end.

(** What a C function reads from [C.CString(s)]: a string ends at its first NUL. *)
Definition CString (s : string) : string := trimNul s.

(** An output buffer after the call. *)
Record cbuf := mkBuf { b_len : Z; b_mem : memory }.
(** The alias block after the call: no length comes back, only the memory, of
    which [s_behind] bytes are mapped behind the [alias_cap] of the block. *)
Definition alias_cap : Z := 4096.
Record cstr := mkStr { s_mem : memory; s_behind : nat }.
(** [C.GoString]: the scan for the first NUL, which knows nothing of the block.
    When the mapped memory has none the process dies on the next byte; the
    definition stops at the end of the mapped memory. *)
Definition GoString (b : cstr) : string := trimNul (read (s_mem b) 0 (Z.to_nat alias_cap + s_behind b)).
(** A reply with one buffer. *)
Record creply := mkReply { c_rc : Z; c_out : cbuf }.

(** ** The C library (shim.h), over its state [L] *)
Record clib (L : Type) := mkClib {
  kc_lasterr : L -> Z -> cbuf;
  kc_loadkey : L -> Z -> string -> Z -> string -> Z -> L * (Z * cstr);
  kc_export_cert : L -> string -> Z -> Z -> L * creply;
  kc_cert_info : L -> string -> Z -> Z -> Z -> creply;
  kc_sign_data : L -> string -> Z -> string -> Z -> option string -> Z -> Z -> L * creply;
  kc_verify_data : L -> string -> Z -> option string -> Z -> string -> Z -> Z -> Z -> L * (Z * (cbuf * cbuf * cbuf));
  kc_sign_xml : L -> string -> Z -> string -> Z -> string -> string -> string -> Z -> L * creply;
  kc_sign_wsse : L -> string -> Z -> string -> Z -> string -> Z -> L * creply;
  kc_hash_data : L -> string -> Z -> string -> Z -> Z -> L * creply;
  kc_sign_hash : L -> string -> Z -> string -> Z -> Z -> L * creply;
  kc_verify_xml : L -> string -> Z -> string -> Z -> Z -> L * creply;
  kc_cert_from_xml : L -> string -> Z -> Z -> Z -> creply;
  kc_cert_from_cms : L -> string -> Z -> Z -> Z -> Z -> creply;
  kc_time_from_sig : L -> string -> Z -> Z -> Z -> Z * Z;
  kc_load_cert_file : L -> string -> Z -> L * Z;
  kc_validate : L -> string -> Z -> Z -> string -> Z -> Z -> Z -> L * (Z * (cbuf * cbuf));
  kc_tsa_seturl : L -> string -> L;
}.
Arguments kc_lasterr {L}. Arguments kc_loadkey {L}. Arguments kc_export_cert {L}. Arguments kc_cert_info {L}.
Arguments kc_sign_data {L}. Arguments kc_verify_data {L}. Arguments kc_sign_xml {L}. Arguments kc_sign_wsse {L}.
Arguments kc_hash_data {L}. Arguments kc_sign_hash {L}. Arguments kc_verify_xml {L}. Arguments kc_cert_from_xml {L}.
Arguments kc_cert_from_cms {L}. Arguments kc_time_from_sig {L}. Arguments kc_load_cert_file {L}.
Arguments kc_validate {L}. Arguments kc_tsa_seturl {L}.

(** ** withBuf *)
Definition maxCap : Z := 2 ^ 25.
(** The bytes taken from a reply: only on success with a length within the block. *)
Definition taken (r : creply) (cap : Z) : string :=
  if (u32 (c_rc r) =? kcrOK) && (0 <? b_len (c_out r)) && (b_len (c_out r) <=? cap)
  then GoBytes (b_mem (c_out r)) (b_len (c_out r)) else EmptyString.
(** The loop, with fuel for the doublings. *)
Fixpoint withBuf_loop {L} (fuel : nat) (cap : Z) (fn : L -> Z -> L * creply) (s : L) : option (L * (string * Z)) :=
  let (s', r) := fn s cap in
  if (u32 (c_rc r) =? kcrBufferTooSmall) && (cap <? maxCap) then
    match fuel with O => None | S f => withBuf_loop f (2 * cap) fn s' end
  else Some (s', (taken r cap, u32 (c_rc r))).
(** [withBuf]: 25 doublings from one byte reach [maxCap]. *)
Definition withBuf {L} (initCap : Z) (fn : L -> Z -> L * creply) (s : L) : L * (string * Z) :=
  default (s, (EmptyString, kcrBufferTooSmall)) (withBuf_loop 25 initCap fn s).
(** The same for a call that leaves the library's state alone. *)
Definition withBuf_read (initCap : Z) (fn : Z -> creply) : string * Z :=
  snd (withBuf initCap (fun (_ : unit) cap => (tt, fn cap)) tt).

(** ** Property values *)
(** [afterEq]. *)
Definition is_ident (c : ascii) : bool := byte_in 65 90 c || byte_in 97 122 c || byte_in 48 57 c || Ascii.eqb c ".".
Fixpoint afterEq_loop (v s : string) (first : bool) : string :=
  match s with
  | EmptyString => v
  | String c t =>
      if Ascii.eqb c "=" then (if first then v else t)
      else if is_ident c then afterEq_loop v t false else v
  end.
Definition afterEq (v : string) : string := afterEq_loop v v true.

(** [utf8.Valid] and [isPrintable], rune by rune. *)
Fixpoint runes_ok (fuel : nat) (ok : string -> bool) (s : string) : bool :=
  match fuel, s with
  | _, EmptyString => true
  | O, _ => false
  | S f, _ =>
      match rune_width s with
      | O => false
      | w => ok (substring 0 w s) && runes_ok f ok (substring w (String.length s - w) s)
      end
  end.
Definition utf8_valid (s : string) : bool := runes_ok (String.length s) (fun _ => true) s.
Definition printable_rune (r : string) : bool :=
  negb (str_eqb r replacement) &&
  match r with
  | String c EmptyString => negb (byte_in 0 31 c) || existsb (fun n => Ascii.eqb c (ascii_of_nat n)) [9; 10; 13]%nat
  | _ => true
  end.
Definition isPrintable (s : string) : bool := runes_ok (String.length s) printable_rune s.

(** ** The instance *)
Section Ops.
  Context {L : Type} (lib : clib L).

(** [lastErr]. *)
Definition lastErr (s : L) : string :=
  let b := kc_lasterr lib s (2 ^ 16) in
  if b_len b <=? 0 then EmptyString else trimNul (GoBytes (b_mem b) (b_len b)).
(** The error of a code, which is not [kcrOK]. *)
Definition failed (op : string) (rc : Z) (s : L) : goerr := NewNativeError op rc (lastErr s) (sentinelFor rc).
(** How a call with one buffer ends: its error, or its bytes. *)
Definition ended (op : string) (post : string -> string) (x : L * (string * Z)) : L * res goerr string :=
  let '(s, (out, rc)) := x in
  (s, if rc =? kcrOK then Ok (post out) else Err (failed op rc s)).

(** [loadKey]; the alias is whatever the scan of its block finds. The library is
    not told the size of the block: the shim keeps it to itself. *)
Definition loadKey (s : L) (ref : KeyRef) : L * res goerr string :=
  let '(s, (rc, alias)) := kc_loadkey lib s (storageFlag (k_storage ref))
    (k_password ref) (c_len (k_password ref)) (k_path ref) (c_len (k_path ref)) in
  (s, if u32 rc =? kcrOK then Ok (GoString alias) else Err (failed "LoadKeyStore" (u32 rc) s)).

(** [exportCert]. *)
Definition exportCert (s : L) (alias : string) (format : Z) : L * res goerr string :=
  ended "ExportCertificate" trimNul
    (withBuf (2 ^ 18) (fun s cap => kc_export_cert lib s (CString alias) (c_int format) cap) s).

(** [certInfo]. *)
Definition certField (s : L) (cert : string) (p : Z * string) : CertField :=
  let '(out, rc) := withBuf_read (2 ^ 16) (fun cap => kc_cert_info lib s cert (c_len cert) (fst p) cap) in
  if (rc =? kcrOK) && negb (empty_str out) then
    let b := trimNul out in
    if utf8_valid b && isPrintable b then mkCertField (u32 (fst p)) (snd p) (afterEq b) EmptyString true
    else mkCertField (u32 (fst p)) (snd p) EmptyString b true
  else mkCertField (u32 (fst p)) (snd p) EmptyString EmptyString false.
Definition certInfo (s : L) (cert : string) : CertProperties := map (certField s cert) certProps.

(** [cInputData]: a path is passed as a C string, contents with their length; the
    library sees the bytes up to the NUL of the path. *)
Definition cInputData (flags : Z) (data : string) : string :=
  if negb (Z.land flags kcInFile =? 0) then CString data else data.

(** [signData]. *)
Definition signData (s : L) (alias : string) (flags : Z) (data inSign : string) : L * res goerr string :=
  let cData := cInputData flags data in
  let cSign := if empty_str inSign then None else Some inSign in
  let signLen := if empty_str inSign then 0 else c_len inSign in
  ended "SignData" trimNul
    (withBuf (2 ^ 20) (fun s cap => kc_sign_data lib s (CString alias) (c_int flags) cData (c_len data) cSign signLen cap) s).

(** [verifyData]: three buffers of one MiB, and no second try. *)
Definition verify_cap : Z := 2 ^ 20.
Definition fits (b : cbuf) (cap : Z) : bool := (0 <? b_len b) && (b_len b <? cap).
Definition verifyData (s : L) (alias : string) (flags : Z) (data sign : string) (inCertID : Z) : L * verifyOut :=
  let cData := if empty_str data then None else Some (cInputData flags data) in
  let dataLen := if empty_str data then 0 else c_len data in
  let '(s, (rc, (bd, bv, bc))) :=
    kc_verify_data lib s (CString alias) (c_int flags) cData dataLen sign (c_len sign) (c_int inCertID) verify_cap in
  (s, mkVerifyOut (u32 rc)
        (if fits bv verify_cap then trimNul (GoBytes (b_mem bv) (b_len bv)) else EmptyString)
        (if fits bd verify_cap then GoBytes (b_mem bd) (b_len bd) else EmptyString)
        (if (u32 rc =? kcrOK) && fits bc verify_cap then trimNul (GoBytes (b_mem bc) (b_len bc)) else EmptyString)).

(** [signXML], [signWSSE]. *)
Definition signXML (s : L) (alias : string) (flags : Z) (xml nodeID parentNode parentNS : string) : L * res goerr string :=
  ended "SignXML" trimNul
    (withBuf (2 ^ 20) (fun s cap => kc_sign_xml lib s (CString alias) (c_int flags) xml (c_len xml) (CString nodeID) (CString parentNode) (CString parentNS) cap) s).
Definition signWSSE (s : L) (alias : string) (flags : Z) (xml nodeID : string) : L * res goerr string :=
  ended "SignWSSE" trimNul
    (withBuf (2 ^ 20) (fun s cap => kc_sign_wsse lib s (CString alias) (flags mod 2 ^ 64) xml (c_len xml) (CString nodeID) cap) s).

(** [hashData], [signHash]: binary, so nothing is trimmed. *)
Definition hashData (s : L) (algorithm : string) (flags : Z) (data : string) : L * res goerr string :=
  ended "HashData" id
    (withBuf (2 ^ 16) (fun s cap => kc_hash_data lib s (CString algorithm) (c_int flags) data (c_len data) cap) s).
Definition signHash (s : L) (alias : string) (flags : Z) (hash : string) : L * res goerr string :=
  ended "SignHash" id
    (withBuf (2 ^ 18) (fun s cap => kc_sign_hash lib s (CString alias) (c_int flags) hash (c_len hash) cap) s).

(** [verifyXML], [certFromXML], [certFromCMS]. *)
Definition verifyXML (s : L) (alias : string) (flags : Z) (xml : string) : L * (string * Z) :=
  let '(s, (out, rc)) :=
    withBuf (2 ^ 18) (fun s cap => kc_verify_xml lib s (CString alias) (c_int flags) xml (c_len xml) cap) s in
  (s, (trimNul out, rc)).
Definition certFromXML (s : L) (xml : string) (sigID : Z) : string * Z :=
  let (out, rc) := withBuf_read (2 ^ 18) (fun cap => kc_cert_from_xml lib s xml (c_len xml) (c_int sigID) cap) in
  (trimNul out, rc).
Definition certFromCMS (s : L) (cms : string) (sigID flags : Z) : string * Z :=
  let (out, rc) := withBuf_read (2 ^ 18)
    (fun cap => kc_cert_from_cms lib s cms (c_len cms) (c_int sigID) (c_int flags) cap) in
  (trimNul out, rc).

(** [timeFromSig]: [time.Unix(t, 0)] of a positive answer, in nanoseconds from Go's zero time. *)
Definition timeFromSig (s : L) (sig : string) (flags sigID : Z) : time * Z :=
  let (rc, t) := kc_time_from_sig lib s sig (c_len sig) (c_int flags) (c_int sigID) in
  (if (u32 rc =? kcrOK) && (0 <? t) then (t + 62135596800) * second else time_zero, u32 rc).

(** [loadCertFile]; as in Native.v, the path of a temporary file stands for its content. *)
Definition loadCertFile (s : L) (path : string) (certType : Z) : L * option goerr :=
  let (s, rc) := kc_load_cert_file lib s path (c_int certType) in
  (s, if u32 rc =? kcrOK then None else Some (failed "LoadCertificateFromFile" (u32 rc) s)).

(** [validate]: two buffers of 64 KiB. *)
Definition validate_cap : Z := 2 ^ 16.
Definition validate (s : L) (cert : string) (validType : Z) (path : string) (checkTime : Z) (wantOCSP : bool)
    : L * validateOut :=
  let flag := if wantOCSP then kcGetOCSPResponse else 0 in
  let '(s, (rc, (bi, bo))) :=
    kc_validate lib s cert (c_len cert) (c_int validType) (CString path) checkTime flag validate_cap in
  (s, mkValidateOut (u32 rc)
        (if fits bi validate_cap then trimNul (GoBytes (b_mem bi) (b_len bi)) else EmptyString)
        (if wantOCSP && fits bo validate_cap then GoBytes (b_mem bo) (b_len bo) else EmptyString)).

(** [tsaSetURL]. *)
Definition tsaSetURL (s : L) (url : string) : L := if empty_str url then s else kc_tsa_seturl lib s (CString url).

(** The interface the pool runs on. *)
Definition instance : kalkan L :=
  mkKalkan L loadKey exportCert certInfo signData verifyData signXML verifyXML signWSSE hashData signHash
    certFromCMS certFromXML timeFromSig loadCertFile validate tsaSetURL.
End Ops.

(** ** Lemmas *)
Lemma read_ext m m' from n : (forall i, (from <= i < from + n)%nat -> m i = m' i) -> read m from n = read m' from n.
Proof.
  revert from. induction n as [|n IH]; intros from Hm; [done|]. simpl.
  rewrite (Hm from) by lia. f_equal. apply IH. intros i Hi. apply Hm. lia.
Qed.
Lemma read_length m from n : String.length (read m from n) = n.
Proof. revert from. induction n as [|n IH]; intros from; [done|]. simpl. by rewrite IH. Qed.
Lemma trimNul_length s : (String.length (trimNul s) <= String.length s)%nat.
Proof. induction s as [|c s IH]; simpl; [lia|]. destruct (Ascii.eqb c nul); simpl; lia. Qed.

(** The loop ends within the doublings it has fuel for. *)
Lemma withBuf_loop_ends {L} fuel cap (fn : L -> Z -> L * creply) s :
  0 < cap -> maxCap <= cap * 2 ^ Z.of_nat fuel -> exists x, withBuf_loop fuel cap fn s = Some x.
Proof.
  revert cap s. induction fuel as [|f IH]; intros cap s Hc Hm.
  - simpl. destruct (fn s cap) as [s' r]. rewrite Z.mul_1_r in Hm.
    assert (cap <? maxCap = false) as -> by (apply Z.ltb_ge; lia). rewrite andb_false_r. eauto.
  - simpl. destruct (fn s cap) as [s' r]. destruct (_ && _); [|eauto]. apply IH; [lia|].
    rewrite Nat2Z.inj_succ, Z.pow_succ_r in Hm by lia. lia.
Qed.
Lemma withBuf_runs {L} init (fn : L -> Z -> L * creply) s :
  1 <= init -> withBuf_loop 25 init fn s = Some (withBuf init fn s).
Proof.
  intros Hi. unfold withBuf. destruct (withBuf_loop_ends 25 init fn s) as [x ->]; [lia| |done].
  unfold maxCap. change (Z.of_nat 25) with 25. lia.
Qed.

(** More fuel changes nothing. *)
Lemma withBuf_loop_fuel {L} f f' cap (fn : L -> Z -> L * creply) s x :
  (f <= f')%nat -> withBuf_loop f cap fn s = Some x -> withBuf_loop f' cap fn s = Some x.
Proof.
  revert f' cap s. induction f as [|f IH]; intros [|f'] cap s Hf; simpl; try lia; try done;
    destruct (fn s cap) as [s' r]; destruct (_ && _); try done.
  apply IH. lia.
Qed.

(** ** Length, then data
    What a C call promises whose output is [out]: a buffer that is too small is
    said to be so and nothing else happens, one that is large enough holds the
    output, its length beside it. *)
Definition serves {L} (fn : L -> Z -> L * creply) (s : L) (out : string) (s' : L) : Prop :=
  forall cap, 0 < cap ->
    (cap < Z.of_nat (String.length out) -> exists r, fn s cap = (s, r) /\ u32 (c_rc r) = kcrBufferTooSmall) /\
    (Z.of_nat (String.length out) <= cap -> exists r, fn s cap = (s', r) /\ u32 (c_rc r) = kcrOK /\
       b_len (c_out r) = Z.of_nat (String.length out) /\ read (b_mem (c_out r)) 0 (String.length out) = out).

Lemma taken_all r cap out :
  u32 (c_rc r) = kcrOK -> b_len (c_out r) = Z.of_nat (String.length out) ->
  read (b_mem (c_out r)) 0 (String.length out) = out -> Z.of_nat (String.length out) <= cap -> taken r cap = out.
Proof.
  intros Hrc Hl Hr Hc. unfold taken, GoBytes. rewrite Hrc, Hl, Nat2Z.id, Z.eqb_refl.
  rewrite (proj2 (Z.leb_le _ _) Hc), andb_true_r, Hr. simpl. destruct out; [done|].
  by rewrite (proj2 (Z.ltb_lt 0 _)) by (simpl; lia).
Qed.
Lemma taken_too_small r cap : u32 (c_rc r) = kcrBufferTooSmall -> taken r cap = EmptyString.
Proof. unfold taken. by intros ->. Qed.

Lemma serves_loop {L} (fn : L -> Z -> L * creply) s out s' fuel cap :
  serves fn s out s' -> 0 < cap -> cap * 2 ^ Z.of_nat fuel = maxCap ->
  withBuf_loop fuel cap fn s =
    Some (if Z.of_nat (String.length out) <=? maxCap then (s', (out, kcrOK)) else (s, (EmptyString, kcrBufferTooSmall))).
Proof.
  intros Hs. revert cap. induction fuel as [|f IH]; intros cap Hc Hm; simpl;
    destruct (Hs cap Hc) as [Hsmall Hbig];
    destruct (Z.lt_ge_cases cap (Z.of_nat (String.length out))) as [Hlt|Hge].
  - destruct (Hsmall Hlt) as (r & -> & Hr). rewrite Z.mul_1_r in Hm. subst cap.
    rewrite Hr, Z.ltb_irrefl, andb_false_r, (taken_too_small r) by done. by rewrite (proj2 (Z.leb_gt _ _) Hlt).
  - destruct (Hbig Hge) as (r & -> & Hr & Hl & Hm'). rewrite Z.mul_1_r in Hm. subst cap.
    rewrite Hr, (taken_all r maxCap out) by done. by rewrite (proj2 (Z.leb_le _ _) Hge).
  - destruct (Hsmall Hlt) as (r & -> & Hr). rewrite Hr.
    rewrite Nat2Z.inj_succ, Z.pow_succ_r in Hm by lia.
    assert (0 < 2 ^ Z.of_nat f) by (apply Z.pow_pos_nonneg; lia).
    rewrite (proj2 (Z.ltb_lt cap maxCap)) by nia. apply IH; lia.
  - destruct (Hbig Hge) as (r & -> & Hr & Hl & Hm'). rewrite Hr, (taken_all r cap out) by done.
    rewrite Nat2Z.inj_succ, Z.pow_succ_r in Hm by lia.
    assert (0 < 2 ^ Z.of_nat f) by (apply Z.pow_pos_nonneg; lia).
    by rewrite (proj2 (Z.leb_le (Z.of_nat (String.length out)) maxCap)) by nia.
Qed.
Lemma serves_withBuf {L} (fn : L -> Z -> L * creply) s out s' k :
  serves fn s out s' -> (k <= 25)%nat ->
  withBuf (2 ^ Z.of_nat k) fn s =
    if Z.of_nat (String.length out) <=? maxCap then (s', (out, kcrOK)) else (s, (EmptyString, kcrBufferTooSmall)).
Proof.
  intros Hs Hk. unfold withBuf.
  assert (2 ^ Z.of_nat k * 2 ^ Z.of_nat (25 - k) = maxCap) as Hm.
  { rewrite <- Z.pow_add_r by lia. unfold maxCap. f_equal. lia. }
  assert (0 < 2 ^ Z.of_nat k) as Hp by (apply Z.pow_pos_nonneg; lia).
  pose proof (serves_loop fn s out s' _ _ Hs Hp Hm) as Hl.
  apply (withBuf_loop_fuel _ 25) in Hl; [|lia]. by rewrite Hl.
Qed.

(** A signature the library makes reaches the caller: against a library that
    keeps the length-then-data protocol, the buffer grows until it holds the
    container, which is returned whole up to its first NUL; what does not fit in
    32 MiB is the library's own error, with nothing signed. *)
Theorem sign_data_complete {L} (lib : clib L) s alias flags data inSign sig s' :
  serves (fun s cap => kc_sign_data lib s (CString alias) (c_int flags) (cInputData flags data) (c_len data)
            (if empty_str inSign then None else Some inSign) (if empty_str inSign then 0 else c_len inSign) cap) s sig s' ->
  signData lib s alias flags data inSign =
    if Z.of_nat (String.length sig) <=? maxCap then (s', Ok (trimNul sig))
    else (s, Err (NewNativeError "SignData" kcrBufferTooSmall (lastErr lib s) (Some ErrBufferTooSmall))).
Proof.
  intros Hs. unfold signData, ended. change (2 ^ 20) with (2 ^ Z.of_nat 20). rewrite (serves_withBuf _ _ _ _ 20 Hs) by lia.
  by destruct (Z.of_nat (String.length sig) <=? maxCap).
Qed.
(** The digest of the library, of any bytes, is returned as it is. *)
Lemma hash_data_complete {L} (lib : clib L) s alg flags data out s' :
  serves (fun s cap => kc_hash_data lib s (CString alg) (c_int flags) data (c_len data) cap) s out s' ->
  Z.of_nat (String.length out) <= maxCap -> hashData lib s alg flags data = (s', Ok out).
Proof.
  intros Hs Hl. unfold hashData, ended. change (2 ^ 16) with (2 ^ Z.of_nat 16). rewrite (serves_withBuf _ _ _ _ 16 Hs) by lia.
  by rewrite (proj2 (Z.leb_le _ _) Hl).
Qed.

(** ** Staying inside the buffers
    The library whose buffers are followed by other memory: the bytes at the
    capacity and beyond are replaced, and [room] bytes are mapped behind the
    alias. *)
Definition clip (junk : memory) (cap : Z) (b : cbuf) : cbuf :=
  mkBuf (b_len b) (fun i => if Z.of_nat i <? cap then b_mem b i else junk i).
Definition clip_reply (junk : memory) (cap : Z) (r : creply) : creply := mkReply (c_rc r) (clip junk cap (c_out r)).
Definition clip_snd {L} (junk : memory) (cap : Z) (x : L * creply) : L * creply := (fst x, clip_reply junk cap (snd x)).
Definition clip_str (junk : memory) (room : nat) (b : cstr) : cstr :=
  mkStr (fun i => if Z.of_nat i <? alias_cap then s_mem b i else junk i) room.
Definition beyond {L} (junk : memory) (room : nat) (l : clib L) : clib L :=
  mkClib L
    (fun s cap => clip junk cap (kc_lasterr l s cap))
    (fun s st p pn c cn => let '(s', (rc, b)) := kc_loadkey l s st p pn c cn in (s', (rc, clip_str junk room b)))
    (fun s a f cap => clip_snd junk cap (kc_export_cert l s a f cap))
    (fun s c n p cap => clip_reply junk cap (kc_cert_info l s c n p cap))
    (fun s a f d n i m cap => clip_snd junk cap (kc_sign_data l s a f d n i m cap))
    (fun s a f d n g m id cap =>
       let '(s', (rc, (b1, b2, b3))) := kc_verify_data l s a f d n g m id cap in
       (s', (rc, (clip junk cap b1, clip junk cap b2, clip junk cap b3))))
    (fun s a f x n u v w cap => clip_snd junk cap (kc_sign_xml l s a f x n u v w cap))
    (fun s a f x n u cap => clip_snd junk cap (kc_sign_wsse l s a f x n u cap))
    (fun s a f d n cap => clip_snd junk cap (kc_hash_data l s a f d n cap))
    (fun s a f d n cap => clip_snd junk cap (kc_sign_hash l s a f d n cap))
    (fun s a f x n cap => clip_snd junk cap (kc_verify_xml l s a f x n cap))
    (fun s x n id cap => clip_reply junk cap (kc_cert_from_xml l s x n id cap))
    (fun s x n id f cap => clip_reply junk cap (kc_cert_from_cms l s x n id f cap))
    (kc_time_from_sig l) (kc_load_cert_file l)
    (fun s c n v q t f cap =>
       let '(s', (rc, (b1, b2))) := kc_validate l s c n v q t f cap in (s', (rc, (clip junk cap b1, clip junk cap b2))))
    (kc_tsa_seturl l).

(** Instances that answer alike. *)
Record same_answers {L} (i j : kalkan L) : Prop := {
  same_loadKey s k : i_loadKey i s k = i_loadKey j s k;
  same_exportCert s a f : i_exportCert i s a f = i_exportCert j s a f;
  same_certInfo s c : i_certInfo i s c = i_certInfo j s c;
  same_signData s a f d g : i_signData i s a f d g = i_signData j s a f d g;
  same_verifyData s a f d g n : i_verifyData i s a f d g n = i_verifyData j s a f d g n;
  same_signXML s a f x u v w : i_signXML i s a f x u v w = i_signXML j s a f x u v w;
  same_verifyXML s a f x : i_verifyXML i s a f x = i_verifyXML j s a f x;
  same_signWSSE s a f x u : i_signWSSE i s a f x u = i_signWSSE j s a f x u;
  same_hashData s a f d : i_hashData i s a f d = i_hashData j s a f d;
  same_signHash s a f d : i_signHash i s a f d = i_signHash j s a f d;
  same_certFromCMS s c n f : i_certFromCMS i s c n f = i_certFromCMS j s c n f;
  same_certFromXML s c n : i_certFromXML i s c n = i_certFromXML j s c n;
  same_timeFromSig s g f n : i_timeFromSig i s g f n = i_timeFromSig j s g f n;
  same_loadCertFile s c t : i_loadCertFile i s c t = i_loadCertFile j s c t;
  same_validate s c v q t o : i_validate i s c v q t o = i_validate j s c v q t o;
  same_tsaSetURL s u : i_tsaSetURL i s u = i_tsaSetURL j s u;
}.

Section Bounds.
  Context {L : Type} (lib : clib L) (junk : memory).

Lemma clip_read cap b n : n <= cap -> GoBytes (b_mem (clip junk cap b)) n = GoBytes (b_mem b) n.
Proof.
  intros Hn. apply read_ext. intros i Hi. simpl. by rewrite (proj2 (Z.ltb_lt _ _)) by lia.
Qed.
Lemma clip_taken cap r : taken (clip_reply junk cap r) cap = taken r cap.
Proof.
  unfold taken. cbn [clip_reply c_rc c_out clip b_len].
  destruct (b_len (c_out r) <=? cap) eqn:E; [|by rewrite !andb_false_r].
  apply Z.leb_le in E. by rewrite (clip_read cap (c_out r) (b_len (c_out r)) E).
Qed.
Lemma clip_loop fuel cap (fn : L -> Z -> L * creply) s :
  withBuf_loop fuel cap (fun s cap => clip_snd junk cap (fn s cap)) s = withBuf_loop fuel cap fn s.
Proof.
  revert cap s. induction fuel as [|f IH]; intros cap s; simpl; destruct (fn s cap) as [s' r]; simpl;
    rewrite clip_taken; [done|]. by rewrite IH.
Qed.
Lemma clip_withBuf init (fn : L -> Z -> L * creply) s :
  withBuf init (fun s cap => clip_snd junk cap (fn s cap)) s = withBuf init fn s.
Proof. unfold withBuf. by rewrite clip_loop. Qed.
Lemma clip_fits cap b : fits (clip junk cap b) cap = fits b cap.
Proof. done. Qed.
Lemma clip_bytes cap b : (if fits b cap then GoBytes (b_mem (clip junk cap b)) (b_len b) else EmptyString) =
  (if fits b cap then GoBytes (b_mem b) (b_len b) else EmptyString).
Proof.
  destruct (fits b cap) eqn:E; [|done]. unfold fits in E. boolp. apply clip_read. lia.
Qed.
End Bounds.
Lemma clip_withBuf_read junk init fn :
  withBuf_read init (fun cap => clip_reply junk cap (fn cap)) = withBuf_read init fn.
Proof. unfold withBuf_read. f_equal. apply (clip_withBuf junk init (fun (_ : unit) cap => (tt, fn cap))). Qed.

(** A scan that meets a NUL among the first [n] bytes sees no more of them. *)
Lemma trim_stops m from k n : (k < n)%nat -> m (from + k)%nat = nul ->
  trimNul (read m from n) = trimNul (read m from (S k)).
Proof.
  revert from n. induction k as [|k IH]; intros from n Hk Hm; (destruct n as [|n]; [lia|]).
  - rewrite Nat.add_0_r in Hm. simpl. by rewrite Hm.
  - change (read m from (S (S k))) with (String (m from) (read m (S from) (S k))).
    cbn [read trimNul]. destruct (Ascii.eqb (m from) nul); [done|]. f_equal.
    apply IH; [lia|]. by rewrite Nat.add_succ_comm.
Qed.
Lemma clip_scan junk room b n : (n < Z.to_nat alias_cap)%nat -> s_mem b n = nul -> GoString (clip_str junk room b) = GoString b.
Proof.
  intros Hn Hm. unfold GoString.
  assert (forall i, (i <= n)%nat -> s_mem (clip_str junk room b) i = s_mem b i) as He.
  { intros i Hi. simpl. by rewrite (proj2 (Z.ltb_lt _ _)) by lia. }
  rewrite (trim_stops (s_mem b) 0 n) by (done || lia).
  rewrite (trim_stops (s_mem (clip_str junk room b)) 0 n); [|lia|by rewrite He].
  f_equal. apply read_ext. intros i Hi. apply He. lia.
Qed.

Section InBounds.
  Context {L : Type} (lib : clib L) (junk : memory) (room : nat).
  (** The library says how much of the error text it wrote into the 64 KiB block. *)
  Hypothesis lasterr_fits : forall s, b_len (kc_lasterr lib s (2 ^ 16)) <= 2 ^ 16.
  (** The alias of a loaded key is a C string that fits its block, NUL included. *)
  Hypothesis alias_ends : forall s st pass pl path cl,
    let '(_, (rc, b)) := kc_loadkey lib s st pass pl path cl in
    u32 rc = kcrOK -> exists n, (n < Z.to_nat alias_cap)%nat /\ s_mem b n = nul.

Lemma lastErr_beyond s : lastErr (beyond junk room lib) s = lastErr lib s.
Proof.
  unfold lastErr. cbn [beyond kc_lasterr]. cbn [clip b_len].
  destruct (_ <=? 0); [done|]. f_equal. apply (clip_read junk (2 ^ 16) (kc_lasterr lib s (2 ^ 16))), lasterr_fits.
Qed.
Lemma failed_beyond op rc s : failed (beyond junk room lib) op rc s = failed lib op rc s.
Proof. unfold failed. by rewrite lastErr_beyond. Qed.
Lemma ended_beyond op post x y : x = y -> ended (beyond junk room lib) op post x = ended lib op post y.
Proof. intros ->. destruct y as [s [out rc]]. unfold ended. by rewrite failed_beyond. Qed.

Lemma certField_beyond s cert p : certField (beyond junk room lib) s cert p = certField lib s cert p.
Proof.
  unfold certField. cbn [beyond kc_cert_info]. by rewrite (clip_withBuf_read junk (2 ^ 16) (fun cap => kc_cert_info lib s cert (c_len cert) (fst p) cap)).
Qed.
Lemma verifyData_beyond s a f d g n : verifyData (beyond junk room lib) s a f d g n = verifyData lib s a f d g n.
Proof.
  unfold verifyData. cbn [beyond kc_verify_data].
  destruct (kc_verify_data lib _ _ _ _ _ _ _ _ _) as [s' [rc [[bd bv] bc]]]. rewrite !clip_fits. cbn [clip b_len].
  f_equal. f_equal.
  - destruct (fits bv verify_cap) eqn:E; [|done]. f_equal. pose proof (clip_bytes junk verify_cap bv) as Hb. by rewrite E in Hb.
  - apply clip_bytes.
  - destruct (u32 rc =? kcrOK); [|done]. simpl. destruct (fits bc verify_cap) eqn:E; [|done]. f_equal.
    pose proof (clip_bytes junk verify_cap bc) as Hb. by rewrite E in Hb.
Qed.
Lemma validate_beyond s c v q t o : validate (beyond junk room lib) s c v q t o = validate lib s c v q t o.
Proof.
  unfold validate. cbn [beyond kc_validate].
  destruct (kc_validate lib _ _ _ _ _ _ _ _) as [s' [rc [bi bo]]]. rewrite !clip_fits. cbn [clip b_len].
  f_equal. f_equal.
  - destruct (fits bi validate_cap) eqn:E; [|done]. f_equal. pose proof (clip_bytes junk validate_cap bi) as Hb. by rewrite E in Hb.
  - destruct o; [|done]. apply clip_bytes.
Qed.

Lemma loadKey_beyond s ref : loadKey (beyond junk room lib) s ref = loadKey lib s ref.
Proof.
  unfold loadKey. cbn [beyond kc_loadkey].
  pose proof (alias_ends s (storageFlag (k_storage ref)) (k_password ref) (c_len (k_password ref)) (k_path ref)
    (c_len (k_path ref))) as Ha.
  destruct (kc_loadkey lib _ _ _ _ _ _) as [s' [rc b]]. rewrite failed_beyond.
  destruct (u32 rc =? kcrOK) eqn:E; [|done]. boolp. destruct (Ha E) as [n [Hn Hm]]. by rewrite (clip_scan junk room b n).
Qed.

(** C39: The driver never looks beyond its buffers if the library keeps two
    promises the driver does not check: it does not call its error text longer
    than the 64 KiB block it got ([lastErr]), and the alias of a key it has
    loaded ends with a NUL inside its 4096-byte block ([loadKey] scans for it).
    Then, whatever lies behind the blocks handed to the library and however
    much of it, every operation of the instance answers the same. Either
    promise is needed. *)
Theorem instance_in_bounds : same_answers (instance (beyond junk room lib)) (instance lib).
Proof.
  constructor; intros; cbn [instance i_loadKey i_exportCert i_certInfo i_signData i_verifyData i_signXML i_verifyXML
    i_signWSSE i_hashData i_signHash i_certFromCMS i_certFromXML i_timeFromSig i_loadCertFile i_validate i_tsaSetURL].
  - apply loadKey_beyond.
  - apply ended_beyond, (clip_withBuf junk (2 ^ 18)).
  - apply map_ext. intros p. apply certField_beyond.
  - apply ended_beyond, (clip_withBuf junk (2 ^ 20)).
  - apply verifyData_beyond.
  - apply ended_beyond, (clip_withBuf junk (2 ^ 20)).
  - unfold verifyXML. cbn [beyond kc_verify_xml]. by rewrite (clip_withBuf junk (2 ^ 18)
      (fun s cap => kc_verify_xml lib s (CString a) (c_int f) x (c_len x) cap)).
  - apply ended_beyond, (clip_withBuf junk (2 ^ 20)).
  - apply ended_beyond, (clip_withBuf junk (2 ^ 16)).
  - apply ended_beyond, (clip_withBuf junk (2 ^ 18)).
  - unfold certFromCMS. cbn [beyond kc_cert_from_cms]. by rewrite (clip_withBuf_read junk (2 ^ 18)
      (fun cap => kc_cert_from_cms lib s c (c_len c) (c_int n) (c_int f) cap)).
  - unfold certFromXML. cbn [beyond kc_cert_from_xml]. by rewrite (clip_withBuf_read junk (2 ^ 18)
      (fun cap => kc_cert_from_xml lib s c (c_len c) (c_int n) cap)).
  - done.
  - unfold loadCertFile. cbn [beyond kc_load_cert_file]. destruct (kc_load_cert_file lib _ _ _) as [s' rc]. by rewrite failed_beyond.
  - apply validate_beyond.
  - done.
Qed.
End InBounds.

(** ** The pool on instances that answer alike *)
Section Pool.
  Context {L : Type} (i j : kalkan L) (Hsame : same_answers i j).
  Variable pem_decode : string -> option string.
  Variables pem_encode b64_encode : string -> string.
  Variable temp_write : string -> option goerr.

Lemma submit_ext {A} a (init : A) (f g : job L A) s : (forall s, f s = g s) -> submit a init f s = submit a init g s.
Proof. unfold submit. intros Hfg. by rewrite Hfg. Qed.
Lemma walk_ext fuel id (f g : Z -> string * Z) : (forall n, f n = g n) -> walk fuel id f = walk fuel id g.
Proof. intros Hfg. revert id. induction fuel as [|n IH]; intros id; simpl; [done|]. rewrite Hfg, IH. done. Qed.
Lemma loadTrusted_same s cas : loadTrusted i temp_write s cas = loadTrusted j temp_write s cas.
Proof.
  revert s. induction cas as [|ca t IH]; intros s; [done|]. simpl. unfold loadTrustedFromBytes.
  destruct (temp_write _); [done|]. rewrite (same_loadCertFile _ _ Hsame). by destruct (i_loadCertFile j _ _ _) as [s' [e|]].
Qed.
Lemma prologue_same s key cas ts tsa : prologue i temp_write s key cas ts tsa = prologue j temp_write s key cas ts tsa.
Proof.
  unfold prologue. rewrite (same_loadKey _ _ Hsame). destruct (i_loadKey j s key) as [s1 [alias|e]]; [|done].
  rewrite loadTrusted_same. destruct (loadTrusted j _ _ _) as [s2 [e|]]; [done|]. by rewrite (same_tsaSetURL _ _ Hsame).
Qed.

Lemma signCMS_same caps a req s : SignCMS i pem_decode temp_write caps a req s = SignCMS j pem_decode temp_write caps a req s.
Proof.
  unfold SignCMS. destruct (negb _); [done|]. apply submit_ext. intros s0. unfold signCMS_job. rewrite prologue_same.
  destruct (prologue j _ _ _ _ _ _) as [s1 [alias|e]]; [|done]. by rewrite (same_signData _ _ Hsame).
Qed.
Lemma verifyCMS_same caps a req s : VerifyCMS i temp_write caps a req s = VerifyCMS j temp_write caps a req s.
Proof.
  unfold VerifyCMS. destruct (negb _); [done|]. apply submit_ext. intros s0. unfold verifyCMS_job. rewrite loadTrusted_same.
  destruct (loadTrusted j _ _ _) as [s1 [e|]]; [done|]. rewrite (same_verifyData _ _ Hsame).
  destruct (i_verifyData j _ _ _ _ _ _) as [s2 vo]. rewrite (same_timeFromSig _ _ Hsame).
  unfold signers_of. by rewrite (walk_ext 64 1 _ _ (fun n => same_certFromCMS _ _ Hsame s2 (vr_signature req) n _)).
Qed.
Lemma signXML_same caps a req s : SignXML i temp_write caps a req s = SignXML j temp_write caps a req s.
Proof.
  unfold SignXML. destruct (negb _); [done|]. apply submit_ext. intros s0. rewrite prologue_same.
  destruct (prologue j _ _ _ _ _ _) as [s1 [alias|e]]; [|done]. by rewrite (same_signXML _ _ Hsame).
Qed.
Lemma verifyXML_same caps a req s : VerifyXML i temp_write caps a req s = VerifyXML j temp_write caps a req s.
Proof.
  unfold VerifyXML. destruct (negb _); [done|]. apply submit_ext. intros s0. rewrite loadTrusted_same.
  destruct (loadTrusted j _ _ _) as [s1 [e|]]; [done|]. rewrite (same_verifyXML _ _ Hsame).
  destruct (i_verifyXML j _ _ _ _) as [s2 [info rc]].
  unfold signers_of.
  by rewrite (walk_ext 64 1 (fun id => i_certFromXML i s2 (vr_signature req) id) _
    (fun n => same_certFromXML _ _ Hsame s2 (vr_signature req) n)).
Qed.
Lemma signWSSE_same caps a req s : SignWSSE i temp_write caps a req s = SignWSSE j temp_write caps a req s.
Proof.
  unfold SignWSSE. destruct (negb _); [done|]. apply submit_ext. intros s0. rewrite prologue_same.
  destruct (prologue j _ _ _ _ _ _) as [s1 [alias|e]]; [|done]. by rewrite (same_signWSSE _ _ Hsame).
Qed.
Lemma exportOwner_same caps a key fmt s :
  ExportOwnerCert i pem_decode pem_encode b64_encode caps a key fmt s =
  ExportOwnerCert j pem_decode pem_encode b64_encode caps a key fmt s.
Proof.
  unfold ExportOwnerCert. destruct (negb _); [done|]. apply submit_ext. intros s0. rewrite (same_loadKey _ _ Hsame).
  destruct (i_loadKey j _ _) as [s1 [alias|e]]; [|done]. by rewrite (same_exportCert _ _ Hsame).
Qed.
Lemma hash_same caps a alg data s : Hash i caps a alg data s = Hash j caps a alg data s.
Proof.
  unfold Hash. destruct (negb _); [done|]. apply submit_ext. intros s0. by rewrite (same_hashData _ _ Hsame).
Qed.
Lemma signHash_same caps a req s : SignHash i caps a req s = SignHash j caps a req s.
Proof.
  unfold SignHash. destruct (negb _); [done|]. apply submit_ext. intros s0. rewrite (same_loadKey _ _ Hsame).
  destruct (i_loadKey j _ _) as [s1 [alias|e]]; [|done]. by rewrite (same_signHash _ _ Hsame).
Qed.
Lemma certProperties_same caps a cert s : PoolCertProperties i caps a cert s = PoolCertProperties j caps a cert s.
Proof.
  unfold PoolCertProperties. destruct (negb _); [done|]. apply submit_ext. intros s0. by rewrite (same_certInfo _ _ Hsame).
Qed.
Lemma validateCert_same caps a req s : ValidateCert i temp_write caps a req s = ValidateCert j temp_write caps a req s.
Proof.
  unfold ValidateCert. destruct (negb _); [done|]. apply submit_ext. intros s0. rewrite loadTrusted_same.
  destruct (loadTrusted j _ _ _) as [s1 [e|]]; [done|]. by rewrite (same_validate _ _ Hsame).
Qed.
End Pool.

(** ** A library in memory
    It keeps the protocol and writes its outputs into blocks of "x"es; behind
    the alias block a page is mapped. *)
Definition mem_of (out : string) : memory := fun k => match String.get k out with Some c => c | None => "x"%char end.
Definition lab_buf (out : string) : cbuf := mkBuf (Z.of_nat (String.length out)) (mem_of out).
Definition lab_reply (out : string) (cap : Z) : creply :=
  if cap <? Z.of_nat (String.length out) then mkReply kcrBufferTooSmall (mkBuf (Z.of_nat (String.length out)) (fun _ => "x"%char))
  else mkReply kcrOK (lab_buf out).
Definition lab_alias (alias : string) : cstr := mkStr (mem_of (alias ++ String nul "")) 4096.
Definition lab_keyed (alias : cstr) (errtext : cbuf) (content : cbuf) : clib unit :=
  mkClib unit (fun _ _ => errtext) (fun _ _ _ _ _ _ => (tt, (kcrOK, alias)))
    (fun _ _ _ cap => (tt, lab_reply "CERT" cap)) (fun _ _ _ p cap => lab_reply "CN=Me" cap)
    (fun _ _ _ _ _ _ _ cap => (tt, lab_reply "SIGNATURE" cap))
    (fun _ _ _ _ _ _ _ _ _ => (tt, (kcrOK, (content, lab_buf "ok", lab_buf "CERT"))))
    (fun _ _ _ _ _ _ _ _ cap => (tt, lab_reply "<s/>" cap)) (fun _ _ _ _ _ _ cap => (tt, lab_reply "<s/>" cap))
    (fun _ _ _ _ _ cap => (tt, lab_reply "digest" cap)) (fun _ _ _ _ _ cap => (tt, lab_reply "SIG" cap))
    (fun _ _ _ _ _ cap => (tt, lab_reply "ok" cap)) (fun _ _ _ _ cap => lab_reply "CERT" cap)
    (fun _ _ _ _ _ cap => lab_reply "CERT" cap) (fun _ _ _ _ _ => (kcrOK, 0)) (fun _ _ _ => (tt, kcrOK))
    (fun _ _ _ _ _ _ _ _ => (tt, (kcrOK, (lab_buf "ok", lab_buf "")))) (fun _ _ => tt).
Definition lab_lib : cbuf -> cbuf -> clib unit := lab_keyed (lab_alias "alias").

Lemma mem_of_read out : read (mem_of out) 0 (String.length out) = out.
Proof.
  assert (forall (k : nat) s, (forall n : nat, mem_of out (k + n)%nat = mem_of s n) -> read (mem_of out) k (String.length s) = s) as Hr.
  { intros k s. revert k. induction s as [|c s IH]; intros k Hk; [done|]. simpl. f_equal.
    - specialize (Hk O). by rewrite Nat.add_0_r in Hk.
    - apply IH. intros n. specialize (Hk (S n)). by rewrite <- Nat.add_succ_comm in Hk. }
  by apply Hr.
Qed.
Lemma lab_serves out : serves (fun (_ : unit) cap => (tt, lab_reply out cap)) tt out tt.
Proof.
  intros cap _. unfold lab_reply. split; intros Hc; (eexists; split; [reflexivity|]).
  - by rewrite (proj2 (Z.ltb_lt _ _) Hc).
  - rewrite (proj2 (Z.ltb_ge _ _) Hc). split; [done|]. split; [done|]. apply mem_of_read.
Qed.

(** The end of the Go side. *)
Lemma sign_data_complete_witness :
  signData (lab_lib (lab_buf "bad") (lab_buf "data")) tt "alias" kcSignCMS "text" "" = (tt, Ok "SIGNATURE"%string).
Proof.
  rewrite (sign_data_complete (lab_lib (lab_buf "bad") (lab_buf "data")) tt "alias" kcSignCMS "text" "" "SIGNATURE" tt (lab_serves "SIGNATURE")). vm_compute. reflexivity.
Defined.
Lemma instance_in_bounds_witness :
  same_answers (instance (beyond (fun _ => "j"%char) 7 (lab_lib (lab_buf "bad") (lab_buf "data"))))
    (instance (lab_lib (lab_buf "bad") (lab_buf "data"))).
Proof.
  apply instance_in_bounds.
  - intros s. vm_compute. discriminate.
  - intros s st pass pl path cl. cbn [lab_lib lab_keyed kc_loadkey]. intros _. exists 5%nat. split; [|reflexivity].
    apply Nat.ltb_lt. vm_compute. reflexivity.
Defined.

(** The bound on the error text is needed: [lastErr] trusts a length beyond its
    block, and what lies behind the block gets into the message. *)
Lemma trim_run m from n : (forall i, (from <= i < from + n)%nat -> m i <> nul) ->
  String.length (trimNul (read m from n)) = n /\
  (m (from + n)%nat = nul -> String.length (trimNul (read m from (S n))) = n).
Proof.
  revert from. induction n as [|n IH]; intros from Hm.
  - split; [done|]. rewrite Nat.add_0_r. intros H. simpl. by rewrite H.
  - assert (m from <> nul) as Hf by (apply Hm; lia). apply Ascii.eqb_neq in Hf.
    destruct (IH (S from)) as [IH1 IH2]; [intros i Hi; apply Hm; lia|]. split.
    + simpl. rewrite Hf. simpl. by rewrite IH1.
    + intros H. change (read m from (S (S n))) with (String (m from) (read m (S from) (S n))).
      cbn [trimNul]. rewrite Hf. simpl. f_equal. apply IH2. by rewrite <- H, Nat.add_succ_comm.
Qed.
Example error_text_overread :
  let lib := lab_lib (mkBuf (2 ^ 16 + 1) (fun _ => "x"%char)) (lab_buf "data") in
  lastErr (beyond (fun _ => nul) 0 lib) tt <> lastErr lib tt.
Proof.
  intros lib. unfold lastErr. cbn [beyond kc_lasterr lib lab_lib lab_keyed]. cbn [clip b_len b_mem].
  change (2 ^ 16 + 1 <=? 0) with false. cbv iota. unfold GoBytes.
  replace (Z.to_nat (2 ^ 16 + 1)) with (S (Z.to_nat (2 ^ 16))) by (rewrite Z2Nat.inj_add by lia; lia).
  intros H. apply (f_equal String.length) in H.
  rewrite (proj1 (trim_run (fun _ => "x"%char) 0 (S (Z.to_nat (2 ^ 16))) (fun _ _ => ltac:(discriminate)))) in H.
  set (m := fun i : nat => if Z.of_nat i <? 2 ^ 16 then "x"%char else nul) in *.
  assert (forall i, (0 <= i < 0 + Z.to_nat (2 ^ 16))%nat -> m i <> nul) as Hx.
  { intros i Hi. unfold m. rewrite (proj2 (Z.ltb_lt _ _)) by lia. discriminate. }
  assert (m (0 + Z.to_nat (2 ^ 16))%nat = nul) as He.
  { unfold m. rewrite Nat.add_0_l, Z2Nat.id, Z.ltb_irrefl by lia. reflexivity. }
  rewrite (proj2 (trim_run m 0 (Z.to_nat (2 ^ 16)) Hx) He) in H. by apply Nat.neq_succ_diag_r in H.
Qed.
(** So is the NUL of the alias: a library that fills the block leaves the scan to
    what lies behind it, which becomes part of the alias. *)
Example alias_overread :
  let lib := lab_keyed (mkStr (fun _ => "x"%char) 1) (lab_buf "bad") (lab_buf "data") in
  forall ref, exists a b, snd (loadKey (beyond (fun _ => "j"%char) 1 lib) tt ref) = Ok a /\
    snd (loadKey (beyond (fun _ => nul) 1 lib) tt ref) = Ok b /\ String.length a = 4097%nat /\ String.length b = 4096%nat.
Proof.
  intros lib ref. unfold loadKey. cbn [beyond kc_loadkey lib lab_keyed]. change (u32 kcrOK =? kcrOK) with true. cbv iota.
  cbn [snd]. eexists _, _. split; [reflexivity|]. split; [reflexivity|]. split; vm_compute; reflexivity.
Qed.
(** Content that fills its buffer exactly is dropped, although the library
    verified it and wrote all of it. *)
Example exact_content_dropped :
  verifyData (lab_lib (lab_buf "bad") (mkBuf (2 ^ 20) (fun _ => "x"%char))) tt "" kcSignCMS "" "sig" 0 =
    (tt, mkVerifyOut kcrOK "ok" "" "CERT").
Proof. vm_compute. reflexivity. Qed.
(** A key's alias, a property. *)
Example cn_value : afterEq "CN=Me" = "Me"%string /\ afterEq "CN = Me" = "CN = Me"%string /\ afterEq "=x" = "=x"%string.
Proof. vm_compute. done. Qed.
End Instance.
