(* ===== verification/Pki.v ===== *)
(** * OID tables and identity derivations of the RK certification centre
    (internal/pki/oids.go, ca.go). The embedded JSON registries are data the
    repository generates; the functions over them take them as an argument. *)
From S2P Require Import Prelude.

(** Lookup in a Go map literal: the empty string when the key is absent. *)
Definition assoc (l : list (string * string)) (k : string) : string :=
  match find_first (fun p => str_eqb (fst p) k) l with
  | Some p => snd p
  | None => ""
  end.
Definition has_key (l : list (string * string)) (k : string) : bool :=
  existsb (fun p => str_eqb (fst p) k) l.

(** ** Roles *)
Definition KeyUserInfosystem : string := "INFOSYSTEM".

Definition ekuRoleExact : list (string * string) :=
  [ ("1.2.398.3.3.4.1.1", "INDIVIDUAL");
    ("1.2.398.3.3.4.1.2", "ORGANIZATION");
    ("1.2.398.3.3.4.1.2.1", "CEO");
    ("1.2.398.3.3.4.1.2.2", "CAN_SIGN");
    ("1.2.398.3.3.4.1.2.3", "CAN_SIGN_FINANCIAL");
    ("1.2.398.3.3.4.1.2.4", "HR");
    ("1.2.398.3.3.4.1.2.5", "EMPLOYEE");
    ("1.2.398.3.3.4.1.2.6", "INFOSYSTEM");
    ("1.2.398.3.3.4.2.1", "NCA_ADMIN");
    ("1.2.398.3.3.4.2.2", "NCA_MANAGER");
    ("1.2.398.3.3.4.2.3", "NCA_OPERATOR");
    ("1.2.398.3.3.4.3.1", "IDENTIFICATION_CON");
    ("1.2.398.3.3.4.3.2", "IDENTIFICATION_REMOTE");
    ("1.2.398.3.3.4.3.2.1", "IDENTIFICATION_DIGITAL_ID");
    ("1.2.398.3.3.4.3.2.2", "IDENTIFICATION_AI_PLATFORM");
    ("1.2.398.5.19.1.2.2.1", "TREASURY_CLIENT") ]%string.

Definition infosystemPrefix : string := "1.2.398.3.3.4.1.2.6".

(** [KeyUserForOID]; the empty string is "not a role". *)
Definition KeyUserForOID (oid : string) : string :=
  if has_key ekuRoleExact oid then assoc ekuRoleExact oid
  else if str_eqb oid infosystemPrefix || has_prefix (infosystemPrefix ++ ".") oid
       then KeyUserInfosystem
  else "".

Definition str_mem (x : string) (l : list string) : bool := existsb (str_eqb x) l.

(** The loop of [KeyUsersFromEKU]; [seen] is its result so far. *)
Fixpoint keyUsers_loop (seen : list string) (oids : list string) : list string :=
  match oids with
  | [] => []
  | oid :: t =>
      let r := KeyUserForOID (trim_space oid) in
      if negb (empty_str r) && negb (str_mem r seen)
      then r :: keyUsers_loop (r :: seen) t
      else keyUsers_loop seen t
  end.

(** [KeyUsersFromEKU]. *)
Definition KeyUsersFromEKU (oids : list string) : list string := keyUsers_loop [] oids.

(** ** Owner type *)
Inductive OwnerType := OwnerIndividual | OwnerLegalPerson | OwnerInfosystem | OwnerUnknown.

(** [OwnerTypeFrom]. *)
Definition OwnerTypeFrom (hasBIN hasNameOrIIN : bool) : OwnerType :=
  if negb hasBIN && hasNameOrIIN then OwnerIndividual
  else if hasBIN && hasNameOrIIN then OwnerLegalPerson
  else if hasBIN && negb hasNameOrIIN then OwnerInfosystem
  else OwnerUnknown.

Definition owner_name (o : OwnerType) : string :=
  match o with
  | OwnerIndividual => "INDIVIDUAL"
  | OwnerLegalPerson => "LEGAL_PERSON"
  | OwnerInfosystem => "INFOSYSTEM"
  | OwnerUnknown => "UNKNOWN"
  end.

(** ** TSA policies *)
Definition tsaPolicyID : list (string * string) :=
  [ ("TSA_GOST_POLICY", "1.2.398.3.3.2.6.1"); ("TSA_RSA_POLICY", "1.2.398.3.3.2.6.2");
    ("TSA_GOSTGT_POLICY", "1.2.398.3.3.2.6.3"); ("TSA_GOST2015_POLICY", "1.2.398.3.3.2.6.4") ]%string.

Definition TSAPolicyID (p : string) : string := assoc tsaPolicyID p.

Definition TSAPolicyArc : string := "1.2.398.3.3.2.6".

Definition tsaPolicyByOID : list (string * string) :=
  [ ("1.2.398.3.3.2.6.1", "TSA_GOST_POLICY"); ("1.2.398.3.3.2.6.2", "TSA_RSA_POLICY");
    ("1.2.398.3.3.2.6.3", "TSA_GOSTGT_POLICY"); ("1.2.398.3.3.2.6.4", "TSA_GOST2015_POLICY") ]%string.

(** [TSAPolicyName]. *)
Definition TSAPolicyName (oid : string) : string := assoc tsaPolicyByOID oid.

(** [IsTSAPolicy]. *)
Definition IsTSAPolicy (oid : string) : bool :=
  str_eqb oid TSAPolicyArc || has_prefix (TSAPolicyArc ++ ".") oid.

(** ** Signature and digest algorithms *)
Definition SignSHA1RSA : string := "1.2.840.113549.1.1.5".
Definition SignSHA256RSA : string := "1.2.840.113549.1.1.11".
Definition SignGOST2015_256 : string := "1.2.398.3.10.1.1.2.3.1".
Definition SignGOST2015_512 : string := "1.2.398.3.10.1.1.2.3.2".

(** [DigestOIDForSignOID]. *)
Definition DigestOIDForSignOID (signOID : string) : string :=
  if str_eqb signOID SignSHA1RSA then "1.3.14.3.2.26"
  else if str_eqb signOID SignSHA256RSA then "2.16.840.1.101.3.4.2.1"
  else if str_eqb signOID SignGOST2015_256 then "GOST3411_2015_256"
  else if str_eqb signOID SignGOST2015_512 then "GOST3411_2015_512"
  else "1.2.398.3.10.1.1.1.1".

Definition hashNameByOID : list (string * string) :=
  [ ("1.2.840.113549.2.5", "MD5");
    ("1.3.14.3.2.26", "SHA1");
    ("2.16.840.1.101.3.4.2.4", "SHA224");
    ("2.16.840.1.101.3.4.2.1", "SHA256");
    ("2.16.840.1.101.3.4.2.2", "SHA384");
    ("2.16.840.1.101.3.4.2.3", "SHA512");
    ("1.3.36.3.2.2", "RIPEMD128");
    ("1.3.36.3.2.1", "RIPEMD160");
    ("1.3.36.3.2.3", "RIPEMD256");
    ("1.2.398.3.10.1.1.1.1", "GOST34311GT");
    ("1.2.398.3.10.1.1.1", "GOST34311");
    ("1.2.398.3.10.1.3.1", "GOST34311");
    ("1.2.398.3.10.1.3.2", "GOST3411_2015_256");
    ("1.2.398.3.10.1.3.3", "GOST3411_2015_512") ]%string.

(** [HashNameForOID]. *)
Definition HashNameForOID (oid : string) : string := assoc hashNameByOID oid.

Definition xmldsigMore : string := "http://www.w3.org/2001/04/xmldsig-more#".
Definition xmlencSHA256 : string := "http://www.w3.org/2001/04/xmlenc#sha256".
Definition pkigovkzURNPfx : string := "urn:ietf:params:xml:ns:pkigovkz:xmlsec:algorithms:".

(** [XMLSignURIs]. *)
Definition XMLSignURIs (signOID : string) : string * string :=
  (if str_eqb signOID SignSHA1RSA then (xmldsigMore ++ "rsa-sha1", xmldsigMore ++ "sha1")
   else if str_eqb signOID SignSHA256RSA then (xmldsigMore ++ "rsa-sha256", xmlencSHA256)
   else if str_eqb signOID SignGOST2015_256 then
     (pkigovkzURNPfx ++ "gostr34102015-gostr34112015-256", pkigovkzURNPfx ++ "gostr34112015-256")
   else if str_eqb signOID SignGOST2015_512 then
     (pkigovkzURNPfx ++ "gostr34102015-gostr34112015-512", pkigovkzURNPfx ++ "gostr34112015-512")
   else (xmldsigMore ++ "gost34310-gost34311", xmldsigMore ++ "gost34311"))%string.

(** ** DN attributes *)
Definition dnAttrField : list (string * string) :=
  [ ("CN", "commonName");
    ("SURNAME", "lastName");
    ("SN", "lastName");
    ("GIVENNAME", "surName");
    ("G", "surName");
    ("SERIALNUMBER", "serialNumber");
    ("O", "organization");
    ("OU", "organizationUnit");
    ("C", "country");
    ("L", "locality");
    ("S", "state");
    ("ST", "state");
    ("E", "email");
    ("EMAILADDRESS", "email");
    ("BUSINESSCATEGORY", "businessCategory");
    ("DC", "domainComponent") ]%string.

Definition dnOIDToKey : list (string * string) :=
  [ ("2.5.4.3", "CN");
    ("2.5.4.4", "SURNAME");
    ("2.5.4.42", "GIVENNAME");
    ("2.5.4.5", "SERIALNUMBER");
    ("2.5.4.10", "O");
    ("2.5.4.11", "OU");
    ("2.5.4.6", "C");
    ("2.5.4.7", "L");
    ("2.5.4.8", "S");
    ("2.5.4.15", "BUSINESSCATEGORY");
    ("1.2.840.113549.1.9.1", "E");
    ("0.9.2342.19200300.100.1.25", "DC") ]%string.

(** [strings.TrimPrefix]. *)
Fixpoint drop_prefix (p s : string) : option string :=
  match p, s with
  | EmptyString, _ => Some s
  | String a p', String b s' => if Ascii.eqb a b then drop_prefix p' s' else None
  | String _ _, EmptyString => None
  end.
Definition trim_prefix (s p : string) : string :=
  match drop_prefix p s with Some r => r | None => s end.

(** [DNField]. *)
Definition DNField (key : string) : string :=
  let k := trim_prefix (to_upper (trim_space key)) "OID." in
  assoc dnAttrField (if has_key dnOIDToKey k then assoc dnOIDToKey k else k).

Definition IINPrefix : string := "IIN".
Definition BINPrefix : string := "BIN".

(** [GenderFromIIN]. *)
Definition GenderFromIIN (iin : string) : string :=
  match String.get 6 iin with
  | None => "NONE"
  | Some c =>
      let n := Z.of_nat (nat_of_ascii c) in
      if (n <? 48) || (57 <? n) then "NONE"
      else if (n - 48) mod 2 =? 1 then "MALE"
      else if n =? 48 then "NONE" else "FEMALE"
  end.

(** ** ca.go *)
Record CACertRef := mkCACertRef {
  ca_label : string; ca_url : string; ca_kind : string; ca_algo : string; ca_test : bool;
}.

(** [CACertificatesFor] over the registry's certificates. *)
Definition CACertificatesFor (registry : list CACertRef) (includeTest : bool) : list CACertRef :=
  filter (fun c => negb (ca_test c) || includeTest) registry.

(** ** Lemmas *)
Lemma str_mem_spec x l : str_mem x l = true <-> x ∈ l.
Proof.
  unfold str_mem. rewrite existsb_elem. split.
  - intros (y & Hy & He%str_eqb_eq). by subst.
  - intros H. exists x. by rewrite str_eqb_refl.
Qed.

Lemma str_mem_false x l : str_mem x l = false <-> x ∉ l.
Proof. rewrite <- str_mem_spec. by destruct (str_mem x l). Qed.

(** The loop lists the roles met, once each, in order, and nothing else. *)
Lemma keyUsers_loop_spec seen oids :
  NoDup (keyUsers_loop seen oids) /\
  (forall r, r ∈ keyUsers_loop seen oids <->
     r <> ""%string /\ r ∉ seen /\ exists o, o ∈ oids /\ KeyUserForOID (trim_space o) = r).
Proof.
  revert seen. induction oids as [|o t IH]; intros seen; simpl.
  { split; [constructor|]. intros r. split; [intros Hr; by apply elem_of_nil in Hr|].
    intros (_ & _ & o & Ho & _). by apply elem_of_nil in Ho. }
  set (r0 := KeyUserForOID (trim_space o)).
  destruct (negb (empty_str r0) && negb (str_mem r0 seen)) eqn:Hc.
  - apply andb_true_iff in Hc as [H1%negb_true_iff%str_eqb_neq H2%negb_true_iff%str_mem_false].
    destruct (IH (r0 :: seen)) as [Hn Hs]. split.
    + apply NoDup_cons. split; [rewrite Hs; set_solver|done].
    + intros r. rewrite elem_of_cons, Hs. split.
      * intros [->|(Ha & Hb & o' & Ho & Hr)]; [|set_solver].
        split_and!; auto. exists o. split; [left|done].
      * intros (Ha & Hb & o' & Ho & Hr). destruct (decide (r = r0)) as [->|Hne]; [by left|right].
        split_and!; [done|set_solver|]. exists o'. split; [|done].
        apply elem_of_cons in Ho as [->|Ho]; [by contradict Hne|done].
  - destruct (IH seen) as [Hn Hs]. split; [done|]. intros r. rewrite Hs.
    split; [intros (Ha & Hb & o' & Ho & Hr); split_and!; auto; exists o'; set_solver|].
    intros (Ha & Hb & o' & Ho & Hr). split_and!; auto.
    apply elem_of_cons in Ho as [->|Ho]; [|eauto].
    fold r0 in Hr. subst r. apply andb_false_iff in Hc as [Hc|Hc]; apply negb_false_iff in Hc.
    + by apply str_eqb_eq in Hc.
    + by apply str_mem_spec in Hc.
Qed.

(** ** Theorems *)

(** [KeyUsersFromEKU] lists exactly the roles that the extended key usage
    names, each once, whatever duplicates or foreign OIDs the list holds; a
    node below the information-system arc is always an information system. *)
Theorem roles_of_eku oids :
  NoDup (KeyUsersFromEKU oids) /\
  (forall r, r ∈ KeyUsersFromEKU oids <->
     r <> ""%string /\ exists o, o ∈ oids /\ KeyUserForOID (trim_space o) = r) /\
  (forall leaf, has_key ekuRoleExact (infosystemPrefix ++ "." ++ leaf) = false ->
     KeyUserForOID (infosystemPrefix ++ "." ++ leaf) = KeyUserInfosystem).
Proof.
  destruct (keyUsers_loop_spec [] oids) as [Hn Hs]. split_and!; [done| |].
  - intros r. unfold KeyUsersFromEKU. rewrite Hs. set_solver.
  - intros leaf Hk. unfold KeyUserForOID. by rewrite Hk.
Qed.

Lemma roles_of_eku_witness :
  KeyUserForOID (infosystemPrefix ++ "." ++ "7") = KeyUserInfosystem.
Proof. apply (proj2 (proj2 (roles_of_eku [])) "7"%string). reflexivity. Defined.
