(* ===== verification/CoreTypes.v ===== *)
(** * The domain's data (internal/core/cert_types.go, contract.go, warnings.go,
    the types of explain.go and report.go).

    A nil pointer is [None], a nil slice is the empty list or string, and a Go
    string type with named constants is an inductive type whose last
    constructor is any other text. *)
From S2P Require Import Prelude Errors Provider.

Inductive SignatureFormat := FormatCMS | FormatXML | FormatWSSE | FormatOther (s : string).
Global Instance SignatureFormat_eq_dec : EqDecision SignatureFormat.
Proof. solve_decision. Defined.

(** [SignatureFormat.Valid]. *)
Definition format_valid (f : SignatureFormat) : bool :=
  match f with FormatOther _ => false | _ => true end.

(** The text of a format, and [%q] of printable text. *)
Definition format_name (f : SignatureFormat) : string :=
  match f with
  | FormatCMS => "cms"
  | FormatXML => "xml"
  | FormatWSSE => "wsse"
  | FormatOther s => s
  end.

Definition quoted (s : string) : string := dq ++ s ++ dq.

Inductive CertEncoding := EncodingPEM | EncodingDER | EncodingB64 | EncodingOther (s : string).
Inductive RevMethod := MethodOCSP | MethodCRL | MethodOther (s : string).
Global Instance RevMethod_eq_dec : EqDecision RevMethod.
Proof. solve_decision. Defined.

(** ** contract.go: errors and warnings *)
Record LibError := mkLibError {
  le_code : string; le_text : string; le_key : string; le_message : string; le_action : string;
}.
Record Warning := mkWarning { w_field : string; w_reason : string }.

(** ** cert_types.go *)
Record Subject := mkSubject {
  s_common_name : string; s_last_name : string; s_given_name : string; s_email : string;
  s_organization : string; s_org_unit : string; s_country : string; s_locality : string;
  s_state : string; s_business_category : string; s_domain_component : string; s_dn : string;
  s_iin : string; s_bin : string; s_gender : string;
}.

Record Certificate := mkCertificate {
  c_subject : Subject; c_issuer : Subject; c_serial : string;
  c_not_before : option time; c_not_after : option time;
  c_sig_alg : string; c_sig_alg_oid : string; c_key_alg : string; c_public_key : string;
  c_authority_key_id : string; c_subject_key_id : string;
  c_key_usage : list string; c_key_usage_kind : string; c_eku : list string;
  c_policy_oids : list string; c_owner_type : string; c_roles : list string;
  c_ca_issuer_urls : list string; c_ocsp_urls : list string; c_crl_urls : list string;
  c_is_ca : bool; c_pem : string;
}.

Record Claims := mkClaims {
  cl_sub : string; cl_name : string; cl_given_name : string; cl_family_name : string;
  cl_email : string; cl_iin : string; cl_bin : string; cl_organization : string;
  cl_roles : list string; cl_owner_type : string; cl_gender : string;
}.

Record Timestamp := mkTimestamp {
  ts_serial : string; ts_gen_time : option time; ts_policy : string; ts_tsa : string;
  ts_hash_alg : string; ts_hash : string;
  ts_imprint_verified : option bool; ts_imprint_note : string;
  ts_signature_verified : option bool; ts_signature_note : string;
  ts_policy_name : string; ts_policy_accepted : option bool; ts_policy_note : string;
}.

Record RevocationStatus := mkRevocation {
  r_revoked : bool; r_determinate : bool; r_method : RevMethod;
  r_revocation_time : option time; r_reason : string; r_checked_at : option time;
  r_this_update : option time; r_next_update : option time; r_produced_at : option time;
  r_lib_error : option LibError;
}.

Record Signer := mkSigner {
  sg_certificate : Certificate; sg_chain : list Certificate; sg_valid : bool;
  sg_signing_time : option time; sg_sig_alg : string; sg_timestamp : option Timestamp;
  sg_chain_complete : bool; sg_trust_anchor : bool; sg_chain_sigs : bool;
  sg_cades : string; sg_verify_info : string; sg_claims : option Claims;
  sg_revocation : option RevocationStatus;
}.

Global Instance Subject_eq_dec : EqDecision Subject.
Proof. solve_decision. Defined.
Global Instance Certificate_eq_dec : EqDecision Certificate.
Proof. solve_decision. Defined.
Global Instance Claims_eq_dec : EqDecision Claims.
Proof. solve_decision. Defined.
Global Instance Timestamp_eq_dec : EqDecision Timestamp.
Proof. solve_decision. Defined.
Global Instance LibError_eq_dec : EqDecision LibError.
Proof. solve_decision. Defined.
Global Instance RevocationStatus_eq_dec : EqDecision RevocationStatus.
Proof. solve_decision. Defined.
Global Instance Signer_eq_dec : EqDecision Signer.
Proof. intros x y. unfold Decision. decide equality; solve_decision. Defined.

(** ** explain.go and report.go: the data *)
Inductive DiagnosisStatus := DiagPass | DiagFail | DiagWarn | DiagSkipped | DiagUnknown.
Global Instance DiagnosisStatus_eq_dec : EqDecision DiagnosisStatus.
Proof. solve_decision. Defined.

Record DiagnosisStep := mkStep {
  d_step : string; d_status : DiagnosisStatus; d_summary : string; d_action : string;
}.
Record Diagnosis := mkDiagnosis { dg_valid : bool; dg_summary : string; dg_steps : list DiagnosisStep }.

Inductive ReportVerdict := VerdictValid | VerdictInvalid | VerdictIndeterminate.
Global Instance ReportVerdict_eq_dec : EqDecision ReportVerdict.
Proof. solve_decision. Defined.

Record AlgorithmInfo := mkAlgInfo {
  ai_key_alg : string; ai_sig_oid : string; ai_generation : string; ai_advice : string;
}.

Record ReportDocument := mkReportDocument {
  rd_format : SignatureFormat; rd_detached : bool; rd_sig_sha : string;
  rd_content_sha : string; rd_content_bytes : Z;
}.
Record ReportCertificate := mkReportCertificate {
  rc_serial : string; rc_issuer : string; rc_not_before : option time;
  rc_not_after : option time; rc_expired : bool;
}.
Record ReportChain := mkReportChain {
  rch_complete : bool; rch_anchored : bool; rch_verified : bool; rch_count : Z;
}.
Record ReportSigner := mkReportSigner {
  rs_name : string; rs_iin : string; rs_bin : string; rs_organization : string;
  rs_owner_type : string; rs_roles : list string; rs_valid : bool;
  rs_signed_at : option time; rs_signed_at_source : string; rs_sig_alg : string;
  rs_algorithm : AlgorithmInfo; rs_cades : string;
  rs_certificate : ReportCertificate; rs_chain : ReportChain;
}.
Record VerificationReport := mkReport {
  rep_verdict : ReportVerdict; rep_summary : string; rep_checked_at : time;
  rep_document : ReportDocument; rep_signers : list ReportSigner;
  rep_steps : list DiagnosisStep; rep_warnings : list string;
}.

(** ** contract.go: requests and outcomes *)

(** dataref.go and keysource.go: a payload and a key by reference. *)
Record DataRef := mkDataRef { dr_path : string; dr_url : string }.
Definition IsRef (r : DataRef) : bool := negb (empty_str (dr_path r)) || negb (empty_str (dr_url r)).
Definition no_ref : DataRef := mkDataRef "" "".

Record InlineKey := mkInlineKey { ik_p12 : string; ik_password : string; ik_alias : string }.
Record PathKey := mkPathKey { pk_path : string; pk_password : string; pk_alias : string }.
Record TokenKey := mkTokenKey { tk_storage : string; tk_pin : string; tk_alias : string }.
Record KeySpec := mkKeySpec {
  ks_inline : option InlineKey; ks_path : option PathKey; ks_token : option TokenKey; ks_key_id : string;
}.
(** [KeySpec.Empty]. *)
Definition key_empty (k : KeySpec) : bool :=
  match ks_inline k, ks_path k, ks_token k with
  | None, None, None => empty_str (ks_key_id k)
  | _, _, _ => false
  end.

Record VerifyInput := mkVerifyInput {
  vi_format : SignatureFormat; vi_signature : string; vi_data : string; vi_data_ref : DataRef;
  vi_detached : bool; vi_input_pem : bool; vi_check_cert_time : bool;
  vi_extract_content : bool; vi_extract_claims : bool; vi_explain : bool; vi_report : bool;
  vi_receipt : bool; vi_trusted : list TrustedCert; vi_revocation_check : option bool;
  vi_revocation_method : RevMethod; vi_responder_url : string; vi_archive : bool;
}.

(** [VerifyInput.RevocationRequested]. *)
Definition RevocationRequested (i : VerifyInput) : bool :=
  match vi_revocation_check i with None => true | Some b => b end.

(** ltv.go: the container with evidence embedded. *)
Record ArchiveOutput := mkArchive {
  ar_signature : string; ar_ocsp : Z; ar_crls : Z; ar_certs : Z; ar_level : string;
  ar_warnings : list Warning;
}.
Definition empty_archive : ArchiveOutput := mkArchive "" 0 0 0 "" [].

Record VerifyOutput := mkVerifyOutput {
  vo_valid : bool; vo_format : SignatureFormat; vo_detached : bool;
  vo_signers : list Signer; vo_content : string; vo_warnings : list Warning;
  vo_lib_error : option LibError; vo_explanation : option Diagnosis;
  vo_report : option VerificationReport; vo_receipt : string; vo_archive : option ArchiveOutput;
}.

Record ValidateInput := mkValidateInput {
  va_cert : string; va_format : CertEncoding; va_method : RevMethod; va_check_time : time;
  va_want_ocsp : bool; va_trusted : list TrustedCert; va_responder : string; va_crl : string;
}.

Record ValidateOutput := mkValidateOutput {
  vao_status : RevocationStatus; vao_info : string; vao_ocsp : string;
  vao_warnings : list Warning; vao_lib_error : option LibError;
}.

Record OCSPAnswer := mkOCSPAnswer {
  oa_revoked : bool; oa_reason : string; oa_revocation_time : option time;
  oa_this_update : option time; oa_next_update : option time; oa_produced_at : option time;
  oa_response : string;
}.

Record AuditEvent := mkAuditEvent {
  ae_op : string; ae_subject : string; ae_signer : string; ae_outcome : string; ae_detail : string;
}.

(** ** warnings.go: the accumulator is the list so far *)
Definition warnings := list Warning.
Definition w_add (field reason : string) (w : warnings) : warnings := w ++ [mkWarning field reason].
Definition w_add_err (field : string) (e : goerr) (w : warnings) : warnings :=
  match as_native e with
  | Some (_, c, _) => w_add field ("0x" ++ hex8 c) w
  | None => w_add field (err_text e) w
  end.

(** ** Empty values *)
Definition empty_subject : Subject := mkSubject "" "" "" "" "" "" "" "" "" "" "" "" "" "" "".
Definition empty_cert : Certificate :=
  mkCertificate empty_subject empty_subject "" None None "" "" "" "" "" "" [] "" [] [] "" [] [] [] []
    false "".
Definition empty_revocation : RevocationStatus :=
  mkRevocation false false (MethodOther "") None "" None None None None None.

(** ** errors.go: rendering in the caller's language *)

(** [libErrorFrom]. *)
Definition libErrorFrom (loc : Locale) (e : goerr) : LibError :=
  let exp := Localize (Provider.Explain e) loc in
  match as_native e with
  | Some (_, c, d) =>
      mkLibError ("0x" ++ hex8 c) d (x_key exp) (x_message exp) (x_action exp)
  | None => mkLibError "" (err_text e) (x_key exp) (x_message exp) (x_action exp)
  end.

(** [core.Explain]. *)
Definition ExplainDomain (e : goerr) : Explanation :=
  if errors_is e ctx_canceled then
    mkExplanation "" "request.canceled" "The request was canceled." "Retry the request."
  else if errors_is e ctx_deadline then
    mkExplanation "" "request.timeout" "The request timed out." "Retry, or increase the timeout."
  else Provider.Explain e.

(** [core.ExplainIn]. *)
Definition ExplainDomainIn (loc : Locale) (e : goerr) : Explanation := Localize (ExplainDomain e) loc.

(** ** maps.go *)

(** [certFormat]. *)
Definition certFormat (e : CertEncoding) : CertFormat :=
  match e with
  | EncodingDER => CertDER
  | EncodingB64 => CertB64
  | _ => CertPEM
  end.

(** [validationMethod]. *)
Definition validationMethod (m : RevMethod) : ValidationMethod :=
  match m with MethodCRL => ValidateCRL | _ => ValidateOCSP end.

(** ** claims.go *)

(** [subjectID]. *)
Definition subjectID (s : Subject) : string :=
  if negb (empty_str (s_iin s)) then s_iin s else s_bin s.

(** [displayName]. *)
Definition displayName (s : Subject) : string :=
  if negb (empty_str (s_common_name s)) then s_common_name s
  else if negb (empty_str (s_last_name s)) && negb (empty_str (s_given_name s))
       then (s_last_name s ++ " " ++ s_given_name s)%string
  else if negb (empty_str (s_last_name s)) then s_last_name s
  else s_given_name s.

(** [oidcGender]. *)
Definition oidcGender (g : string) : string :=
  if str_eqb g "MALE" then "male" else if str_eqb g "FEMALE" then "female" else "".

(** [ClaimsFromCertificate]. *)
Definition ClaimsFromCertificate (c : Certificate) : Claims :=
  let s := c_subject c in
  mkClaims (subjectID s) (displayName s) (s_given_name s) (s_last_name s) (s_email s)
    (s_iin s) (s_bin s) (s_organization s) (c_roles c) (c_owner_type c) (oidcGender (s_gender s)).
