(* ===== verification/CertParse.v ===== *)
(** * Certificate parsing (internal/core/certparse.go, toDER of maps.go)

    The X.509, PEM, Base64 and time parsers of the standard library are
    parameters; everything the domain does with their results is defined. *)
From S2P Require Import Prelude Errors Provider Pki CoreTypes.

(** ** Text helpers *)
Definition is_digit (c : ascii) : bool :=
  let n := Z.of_nat (nat_of_ascii c) in (48 <=? n) && (n <=? 57).

(** The longest run of digits in front of [s], and the rest. *)
Fixpoint digits (s : string) : string * string :=
  match s with
  | EmptyString => (""%string, ""%string)
  | String c t =>
      if is_digit c then let (d, r) := digits t in (String c d, r) else (""%string, s)
  end.

(** The groups of the pattern, a dot followed by digits, taken greedily: the
    text matched, the number of groups and the rest. *)
Fixpoint groups (fuel : nat) (s : string) : string * nat * string :=
  match fuel, s with
  | S f, String "." t =>
      match digits t with
      | (EmptyString, _) => (""%string, O, s)
      | (d, r) => let '(g, n, r') := groups f r in (("." ++ d ++ g)%string, S n, r')
      end
  | _, _ => (""%string, O, s)
  end.

(** [oidPattern.FindAllString(s, -1)]: a start inside or after a run of digits
    that has fewer than two groups has fewer still, so the scan goes on behind
    what the failed attempt read of that run. *)
Fixpoint find_oids (fuel : nat) (s : string) : list string :=
  match fuel with
  | O => []
  | S f =>
      match s with
      | EmptyString => []
      | String c t =>
          if is_digit c then
            let (d, r) := digits s in
            let '(g, n, r') := groups (String.length r) r in
            if (2 <=? n)%nat then (d ++ g)%string :: find_oids f r' else find_oids f r
          else find_oids f t
      end
  end.
Definition findOIDs (s : string) : list string := find_oids (String.length s) s.

(** [lastOID]. *)
Definition lastOID (v : string) : string :=
  match last (findOIDs v) with Some o => o | None => "" end.

(** [strings.Split(v, sep)] for a one-character separator. *)
Fixpoint split_on (sep : ascii) (s acc : string) : list string :=
  match s with
  | EmptyString => [acc]
  | String c t =>
      if Ascii.eqb c sep then acc :: split_on sep t "" else split_on sep t (acc ++ String c "")%string
  end.

(** [strings.Fields] on ASCII. *)
Fixpoint fields (s acc : string) : list string :=
  match s with
  | EmptyString => if empty_str acc then [] else [acc]
  | String c t =>
      if is_space c then (if empty_str acc then fields t "" else acc :: fields t "")
      else fields t (acc ++ String c "")%string
  end.

(** [strings.LastIndex(v, "(")], as the text in front of it. *)
Fixpoint before_last_paren (s : string) : option string :=
  match s with
  | EmptyString => None
  | String c t =>
      match before_last_paren t with
      | Some p => Some (String c p)
      | None => if Ascii.eqb c "(" then Some EmptyString else None
      end
  end.

(** [stripParenOID]; a parenthesis at index 0 is kept. *)
Definition stripParenOID (v : string) : string :=
  match before_last_paren v with
  | Some (String c p) => trim_space (String c p)
  | _ => v
  end.

(** [splitEKU]. *)
Definition splitEKU (v : string) : list string :=
  filter (fun p => negb (empty_str p)) (map trim_space (split_on ";" v "")).

(** [trimPrefix]. *)
Definition trimPrefix (v prefix : string) : string :=
  let v := trim_space v in
  if empty_str v || negb (has_prefix prefix v) then ""
  else trim_space (trim_prefix v prefix).

(** [mergeUnique]. *)
Fixpoint mergeUnique (base add : list string) : list string :=
  match add with
  | [] => base
  | v :: t =>
      mergeUnique (if negb (empty_str v) && negb (str_mem v base) then base ++ [v] else base) t
  end.

(** [simplifyKeyUsage]. *)
Definition simplifyKeyUsage (bits : list string) : string :=
  if str_mem "digitalSignature" bits && str_mem "nonRepudiation" bits then "SIGN"
  else if str_mem "digitalSignature" bits && str_mem "keyEncipherment" bits then "AUTH"
  else "UNKNOWN".

(** [deriveKeyAlgorithm]. *)
Definition deriveKeyAlgorithm (signOID : string) : string :=
  if str_eqb signOID SignSHA1RSA || str_eqb signOID SignSHA256RSA then "rsa"
  else if str_eqb signOID SignGOST2015_256 then "gost2015-256"
  else if str_eqb signOID SignGOST2015_512 then "gost2015-512"
  else if str_eqb signOID "" then ""
  else "gost2004".

(** The identifiers [deriveSubjectIDs] writes into the subject. *)
Definition deriveSubjectIDs (s : Subject) (serial : string) : Subject :=
  let iin := trimPrefix serial IINPrefix in
  let '(iin', gender) := if negb (empty_str iin) then (iin, GenderFromIIN iin)
                         else (s_iin s, s_gender s) in
  let binOU := trimPrefix (s_org_unit s) BINPrefix in
  let binSN := trimPrefix serial BINPrefix in
  let bin := if negb (empty_str binOU) then binOU
             else if negb (empty_str binSN) then binSN else s_bin s in
  mkSubject (s_common_name s) (s_last_name s) (s_given_name s) (s_email s) (s_organization s)
    (s_org_unit s) (s_country s) (s_locality s) (s_state s) (s_business_category s)
    (s_domain_component s) (s_dn s) iin' bin gender.

(** What the domain reads of a [pkix.Name] and of an [x509.Certificate]. *)
Record pkixname := mkName {
  n_common : string; n_org : list string; n_unit : list string; n_country : list string;
  n_locality : list string; n_province : list string; n_text : string;
}.
Record x509cert := mkX509 {
  x_raw : string; x_raw_subject : string; x_raw_issuer : string;
  x_subject : pkixname; x_issuer : pkixname; x_serial : Z;
  x_not_before : time; x_not_after : time; x_is_ca : bool; x_key_usage : Z;
  x_subject_key_id : string; x_authority_key_id : string;
  x_ocsp_server : list string; x_issuing_url : list string; x_crl_points : list string;
  x_policies : list string;
}.

(** [toDER(raw, EncodingPEM)]: the PEM block's bytes, else [raw] as DER. *)
Definition pemToDER (pem_decode : string -> option string) (raw : string) : string :=
  match pem_decode raw with Some b => b | None => raw end.

(** [toDER]; the empty string is nil. *)
Definition toDER (pem_decode b64_decode : string -> option string) (raw : string)
    (enc : CertEncoding) : string :=
  match enc with
  | EncodingDER => raw
  | EncodingB64 => match b64_decode raw with Some d => d | None => "" end
  | _ => pemToDER pem_decode raw
  end.

Section Parse.
  Variable x509_parse : string -> option x509cert.
    Variable pem_encode : string -> string.
  Variable b64_decode : string -> option string.
  (** [time.Parse(kalkanTimeLayout, v)] in UTC. *)
  Variable parse_time : string -> option time.

(** [parseKalkanTime]. *)
Definition parseKalkanTime (v field : string) (w : warnings) : option time * warnings :=
  let v := trim_space v in
  if empty_str v then (None, w)
  else match parse_time v with
       | Some t => (Some t, w)
       | None => (None, w_add field ("unparseable time: " ++ v) w)
       end.

(** [enrichFromDER]. *)
Definition enrichFromDER (c : Certificate) (der : string) : Certificate :=
  match x509_parse der with
  | None => c
  | Some x =>
      mkCertificate (c_subject c) (c_issuer c) (c_serial c) (c_not_before c) (c_not_after c)
        (c_sig_alg c) (c_sig_alg_oid c) (c_key_alg c) (c_public_key c)
        (if empty_str (c_authority_key_id c) && negb (empty_str (x_authority_key_id x))
         then hex_upper (x_authority_key_id x) else c_authority_key_id c)
        (if empty_str (c_subject_key_id c) && negb (empty_str (x_subject_key_id x))
         then hex_upper (x_subject_key_id x) else c_subject_key_id c)
        (c_key_usage c) (c_key_usage_kind c) (c_eku c)
        (mergeUnique (c_policy_oids c) (x_policies x)) (c_owner_type c) (c_roles c)
        (mergeUnique (c_ca_issuer_urls c) (x_issuing_url x))
        (mergeUnique (c_ocsp_urls c) (x_ocsp_server x))
        (mergeUnique (c_crl_urls c) (x_crl_points x))
        (c_is_ca c || x_is_ca x) (c_pem c)
  end.

(** [parseCertificate]. *)
Definition parseCertificate (props : CertProperties) (der prefix : string) (w : warnings)
    : Certificate * warnings :=
  let get n := fst (Get props n) in
  let serial := get "SUBJECT_SERIALNUMBER"%string in
  let subject := deriveSubjectIDs
    (mkSubject (get "SUBJECT_COMMONNAME"%string) (get "SUBJECT_SURNAME"%string)
       (get "SUBJECT_GIVENNAME"%string) (get "SUBJECT_EMAIL"%string)
       (get "SUBJECT_ORG_NAME"%string) (get "SUBJECT_ORGUNIT_NAME"%string)
       (get "SUBJECT_COUNTRYNAME"%string) (get "SUBJECT_LOCALITYNAME"%string)
       (get "SUBJECT_SOPN"%string) (get "SUBJECT_BC"%string) (get "SUBJECT_DC"%string)
       (get "SUBJECT_DN"%string) "" "" "") serial in
  let issuer :=
    mkSubject (get "ISSUER_COMMONNAME"%string) "" "" "" (get "ISSUER_ORG_NAME"%string)
      (get "ISSUER_ORGUNIT_NAME"%string) (get "ISSUER_COUNTRYNAME"%string)
      (get "ISSUER_LOCALITYNAME"%string) (get "ISSUER_SOPN"%string) "" ""
      (get "ISSUER_DN"%string) "" "" "" in
  let hasNameOrIIN := negb (empty_str (s_common_name subject)) || negb (empty_str (s_iin subject)) in
  let owner := owner_name (OwnerTypeFrom (negb (empty_str (s_bin subject))) hasNameOrIIN) in
  let (nb, w1) := parseKalkanTime (get "NOTBEFORE"%string) (prefix ++ "notBefore") w in
  let (na, w2) := parseKalkanTime (get "NOTAFTER"%string) (prefix ++ "notAfter") w1 in
  let ku := get "KEY_USAGE"%string in
  let usage := if empty_str ku then [] else fields ku "" in
  let kind := if empty_str ku then ""%string else simplifyKeyUsage usage in
  let isCA := if empty_str ku then false else str_mem "keyCertSign" usage in
  let eku := get "EXT_KEY_USAGE"%string in
  let ekus := if empty_str eku then [] else splitEKU eku in
  let roles := if empty_str eku then [] else KeyUsersFromEKU (findOIDs eku) in
  let isCA := if empty_str eku then isCA else false in
  let sa := get "SIGNATURE_ALG"%string in
  let alg := if empty_str sa then ""%string else trim_space (stripParenOID sa) in
  let oid := if empty_str sa then ""%string else lastOID sa in
  let key := if empty_str sa then ""%string else deriveKeyAlgorithm oid in
  let pk := get "PUBKEY"%string in
  let pubkey := if empty_str pk then ""%string
                else match b64_decode pk with Some d => d | None => ""%string end in
  let pol := get "POLICIES_ID"%string in
  let policies := if empty_str pol then [] else findOIDs pol in
  let cert := mkCertificate subject issuer (get "CERT_SN"%string) nb na alg oid key pubkey
                (get "AUTH_KEY_ID"%string) (get "SUBJ_KEY_ID"%string) usage kind ekus policies
                owner roles [] [] [] isCA
                (if empty_str der then ""%string else pem_encode der) in
  (if empty_str der then cert else enrichFromDER cert der, w2).

(** [ocspURLFromCert]. *)
Definition ocspURLFromCert (der : string) : string :=
  match x509_parse der with
  | None => ""
  | Some c =>
      match find_first (fun u => has_prefix "http://" u || has_prefix "https://" u)
              (x_ocsp_server c) with
      | Some u => u
      | None => ""
      end
  end.

(** ** Lemmas *)
Lemma mergeUnique_elem base add x :
  x ∈ mergeUnique base add <-> x ∈ base \/ (x ∈ add /\ x <> ""%string).
Proof.
  revert base. induction add as [|v t IH]; intros base; simpl.
  - split; [tauto|]. intros [?|[H _]]; [done|by apply elem_of_nil in H].
  - rewrite IH, elem_of_cons.
    destruct (negb (empty_str v) && negb (str_mem v base)) eqn:Hc.
    + apply andb_true_iff in Hc as [Hv%negb_true_iff%str_eqb_neq _].
      rewrite elem_of_app, list_elem_of_singleton. naive_solver.
    + apply andb_false_iff in Hc as [Hc|Hc]; apply negb_false_iff in Hc.
      * apply str_eqb_eq in Hc. naive_solver.
      * apply str_mem_spec in Hc. naive_solver.
Qed.

Lemma mergeUnique_nodup base add : NoDup base -> NoDup (mergeUnique base add).
Proof.
  revert base. induction add as [|v t IH]; intros base Hb; simpl; [done|].
  apply IH. destruct (negb (empty_str v) && negb (str_mem v base)) eqn:Hc; [|done].
  apply andb_true_iff in Hc as [_ Hc%negb_true_iff%str_mem_false].
  apply NoDup_app. split_and!; [done|set_solver|apply NoDup_singleton].
Qed.

Lemma enrichFromDER_same c der :
  c_subject (enrichFromDER c der) = c_subject c /\ c_roles (enrichFromDER c der) = c_roles c /\
  c_owner_type (enrichFromDER c der) = c_owner_type c /\
  c_not_before (enrichFromDER c der) = c_not_before c /\
  c_not_after (enrichFromDER c der) = c_not_after c.
Proof. unfold enrichFromDER. by destruct (x509_parse der). Qed.

Lemma parsed_owner props der prefix w :
  let c := fst (parseCertificate props der prefix w) in
  c_owner_type c = owner_name (OwnerTypeFrom (negb (empty_str (s_bin (c_subject c))))
    (negb (empty_str (s_common_name (c_subject c))) || negb (empty_str (s_iin (c_subject c))))).
Proof.
  unfold parseCertificate.
  destruct (parseKalkanTime _ (prefix ++ "notBefore") w) as [nb w1].
  destruct (parseKalkanTime _ (prefix ++ "notAfter") w1) as [na w2]. cbn [fst].
  case_match; [done|].
  match goal with |- context [enrichFromDER ?c der] =>
    destruct (enrichFromDER_same c der) as (-> & _ & -> & _) end. done.
Qed.

(** ** Theorems *)

(** The identity of a parsed certificate is consistent. The owner type is
    decided by the presence of a BIN and of a name or IIN in the same subject;
    the claims' subject identifier is the IIN when there is one and the BIN
    otherwise, so it is empty only when the certificate carries neither, and a
    certificate classified as individual, legal person or information system
    always yields some of name, IIN or BIN. *)
Theorem identity_consistent props der prefix w :
  let c := fst (parseCertificate props der prefix w) in
  let s := c_subject c in let cl := ClaimsFromCertificate c in
  (cl_sub cl = ""%string <-> s_iin s = ""%string /\ s_bin s = ""%string) /\
  (s_iin s <> ""%string -> cl_sub cl = s_iin s) /\
  (c_owner_type c = "UNKNOWN"%string <->
     s_bin s = ""%string /\ s_common_name s = ""%string /\ s_iin s = ""%string) /\
  (c_owner_type c = "INFOSYSTEM"%string ->
     s_bin s <> ""%string /\ cl_sub cl = s_bin s).
Proof.
  cbv zeta. rewrite (parsed_owner props der prefix w).
  set (s := c_subject (fst (parseCertificate props der prefix w))).
  unfold ClaimsFromCertificate, subjectID, empty_str. cbn [cl_sub]. fold s.
  destruct (str_eqb (s_iin s) "") eqn:Hi; destruct (str_eqb (s_bin s) "") eqn:Hb;
    destruct (str_eqb (s_common_name s) "") eqn:Hn; simpl;
    repeat match goal with
           | H : str_eqb _ _ = true |- _ => apply str_eqb_eq in H
           | H : str_eqb _ _ = false |- _ => apply str_eqb_neq in H
           end; rewrite ?Hi, ?Hb, ?Hn; naive_solver.
Qed.
End Parse.

Lemma identity_consistent_witness :
  let props := [mkCertField 0 "SUBJECT_SERIALNUMBER" "IIN880101300123" "" true] in
  let c := fst (parseCertificate (fun _ => None) (fun s => s) (fun _ => None)
                  (fun _ => None) props "" "" []) in
  cl_sub (ClaimsFromCertificate c) = s_iin (c_subject c) /\
  s_iin (c_subject c) = "880101300123"%string /\ s_gender (c_subject c) = "MALE"%string.
Proof.
  cbv zeta. split; [|vm_compute; done].
  refine (proj1 (proj2 (identity_consistent (fun _ => None) (fun s => s) (fun _ => None)
    (fun _ => None) _ _ _ _)) _).
  vm_compute. discriminate.
Defined.
