(* ===== verification/Explain.v ===== *)
(** * The diagnosis and the verification card
    (internal/core/explain.go, report.go, algorithm.go). *)
From S2P Require Import Prelude Errors Provider Pki CoreTypes.

(** ** explain.go *)

(** [DiagnosisStatus.severity]. *)
Definition severity (d : DiagnosisStatus) : Z :=
  match d with
  | DiagFail => 4
  | DiagUnknown => 3
  | DiagWarn => 2
  | DiagPass => 1
  | DiagSkipped => 0
  end.

(** [DiagnosisStep.merge]. *)
Definition merge (status : DiagnosisStatus) (summary action : string) (s : DiagnosisStep)
    : DiagnosisStep :=
  if severity (d_status s) <? severity status
  then mkStep (d_step s) status summary action else s.

Definition stepSignature : string := "signature".
Definition stepCertificateTime : string := "certificateTime".
Definition stepChainComplete : string := "chainComplete".
Definition stepTrustAnchor : string := "trustAnchor".
Definition stepChainSignatures : string := "chainSignatures".
Definition stepRevocation : string := "revocation".

(** [signatureStep]. *)
Definition signatureStep (out : VerifyOutput) : DiagnosisStep :=
  if vo_valid out then
    mkStep stepSignature DiagPass "The signature is cryptographically valid." ""
  else match vo_signers out, vo_lib_error out with
  | [], None =>
      mkStep stepSignature DiagFail "No signature was found in the input."
        "Check that the payload is a signed container in the declared format (cms/xml/wsse)."
  | _, le =>
      let summary := match le with
                     | Some le => if negb (empty_str (le_message le)) then le_message le
                                  else "The signature did not verify cryptographically."%string
                     | None => "The signature did not verify cryptographically."%string
                     end in
      let action := match le with Some le => le_action le | None => ""%string end in
      mkStep stepSignature DiagFail summary
        (if empty_str action
         then "The content may have been altered, or the wrong original data / format was supplied."
         else action)
  end.

(** One turn of the loop of [certificateTimeStep]. *)
Definition certTime_one (failStatus : DiagnosisStatus) (now : time) (step : DiagnosisStep)
    (sg : Signer) : DiagnosisStep :=
  let c := sg_certificate sg in
  match c_not_before c, c_not_after c with
  | Some nb, Some na =>
      if before now nb then
        merge failStatus "A signer certificate was not yet valid at verification time."
          "Verify against the signing time, or confirm the certificate's notBefore." step
      else if after now na then
        merge failStatus "A signer certificate had expired at verification time."
          "Use point-in-time verification (/verify/at) to check validity as of the signing time." step
      else step
  | _, _ =>
      merge DiagUnknown "A signer certificate's validity window is unavailable."
        "Parse the certificate (cert/info) to inspect notBefore/notAfter." step
  end.

(** [certificateTimeStep]. *)
Definition certificateTimeStep (signers : list Signer) (checkCertTime : bool) (now : time)
    : DiagnosisStep :=
  match signers with
  | [] => mkStep stepCertificateTime DiagSkipped "No signer certificate to check." ""
  | _ =>
      fold_left (certTime_one (if checkCertTime then DiagFail else DiagWarn) now) signers
        (mkStep stepCertificateTime DiagPass
           "Every signer certificate was within its validity period." "")
  end.

(** The loop shared by the chain steps: every signer failing [ok] merges. *)
Definition merge_unless (ok : Signer -> bool) (status : DiagnosisStatus) (summary action : string)
    (step : DiagnosisStep) (signers : list Signer) : DiagnosisStep :=
  fold_left (fun st sg => if ok sg then st else merge status summary action st) signers step.

(** [chainCompleteStep]. *)
Definition chainCompleteStep (signers : list Signer) : DiagnosisStep :=
  match signers with
  | [] => mkStep stepChainComplete DiagSkipped "No signer to build a chain for." ""
  | _ =>
      merge_unless sg_chain_complete DiagWarn
        "The certificate chain is incomplete (no self-signed root reached)."
        "Supply the issuing CA(s) via trustedCerts, or enable AIA fetch / the RK CA registry."
        (mkStep stepChainComplete DiagPass "The certificate chain was built to a self-signed root." "")
        signers
  end.

(** [trustAnchorStep]. *)
Definition trustAnchorStep (signers : list Signer) : DiagnosisStep :=
  match signers with
  | [] => mkStep stepTrustAnchor DiagSkipped "No signer to anchor." ""
  | _ =>
      merge_unless sg_trust_anchor DiagWarn
        "The chain is not anchored to any configured trust anchor."
        "Load the RK CA trust store (trust.use-rk-registry or trust.ca-dir) so the signer can be trusted."
        (mkStep stepTrustAnchor DiagPass "The chain is anchored to a configured trusted root." "")
        signers
  end.

(** [chainSignaturesStep]. *)
Definition chainSignaturesStep (signers : list Signer) (chainVerifyOn : bool) : DiagnosisStep :=
  if negb chainVerifyOn then
    mkStep stepChainSignatures DiagSkipped "Chain-signature verification was not enabled."
      "Enable trust.verify-chain to cryptographically validate the chain (incl. GOST)."
  else match signers with
  | [] => mkStep stepChainSignatures DiagSkipped "No signer chain to verify." ""
  | _ =>
      merge_unless sg_chain_sigs DiagFail
        "A signer chain did not cryptographically validate against the anchors."
        "Confirm the correct issuing CAs and trust anchors are loaded."
        (mkStep stepChainSignatures DiagPass "The chain signatures were cryptographically verified." "")
        signers
  end.

(** The cases of the switch of [revocationStep]. *)
Inductive rev_case := RevUnchecked | RevUnanswered | RevRevoked | RevGood.
Definition rev_of (sg : Signer) : rev_case :=
  match sg_revocation sg with
  | None => RevUnchecked
  | Some r => if negb (r_determinate r) then RevUnanswered
              else if r_revoked r then RevRevoked else RevGood
  end.

(** One turn of the loop of [revocationStep]: the step and [checked]. *)
Definition revocation_one (acc : DiagnosisStep * Z) (sg : Signer) : DiagnosisStep * Z :=
  let (step, checked) := acc in
  match rev_of sg with
  | RevUnchecked =>
      (merge DiagUnknown "Revocation status was not checked as part of verification."
         "Leave revocationCheck on, or check separately via /cert/validate (now) or /verify/at (as of a past instant)."
         step, checked)
  | RevUnanswered =>
      (merge DiagUnknown "Revocation status could not be established (the responder did not answer)."
         ("Retry when the responder is reachable; do not read an unanswered check as " ++
          dq ++ "not revoked" ++ dq ++ ".")
         step, checked)
  | RevRevoked =>
      (merge DiagFail "A signer certificate has been revoked."
         "Reject the signature: the key it was made with has been repudiated." step, checked)
  | RevGood => (step, checked + 1)
  end.

(** [revocationStep]. *)
Definition revocationStep (out : VerifyOutput) : DiagnosisStep :=
  let (step, checked) :=
    fold_left revocation_one (vo_signers out)
      (mkStep stepRevocation DiagPass "No signer certificate has been revoked." "", 0) in
  if negb (vo_valid out) && (checked =? 0) && bool_decide (d_status step = DiagUnknown) then
    mkStep stepRevocation DiagSkipped "Revocation was not checked: the signature did not verify."
      "Fix the signature first; revocation is only meaningful for a signature that verifies."
  else match vo_signers out with
  | [] => mkStep stepRevocation DiagSkipped "No signer to check revocation for." ""
  | _ => step
  end.

(** [firstStepOf]. *)
Definition firstStepOf (steps : list DiagnosisStep) (status : DiagnosisStatus)
    : option DiagnosisStep :=
  find_first (fun s => bool_decide (d_status s = status)) steps.

(** [diagnosisSummary]. *)
Definition diagnosisSummary (valid : bool) (steps : list DiagnosisStep) : string :=
  if valid then
    match firstStepOf steps DiagWarn with
    | Some w => "Signature is valid, with a caveat: " ++ d_summary w
    | None => "Signature is valid."
    end
  else match firstStepOf steps DiagFail with
  | Some f => d_summary f
  | None => "Signature is not valid."
  end.

(** [buildDiagnosis]. *)
Definition buildDiagnosis (out : VerifyOutput) (checkCertTime chainVerifyOn : bool) (now : time)
    : Diagnosis :=
  let steps := [ signatureStep out;
                 certificateTimeStep (vo_signers out) checkCertTime now;
                 chainCompleteStep (vo_signers out);
                 trustAnchorStep (vo_signers out);
                 chainSignaturesStep (vo_signers out) chainVerifyOn;
                 revocationStep out ] in
  mkDiagnosis (vo_valid out) (diagnosisSummary (vo_valid out) steps) steps.

(** ** algorithm.go *)
Definition GenerationCurrent : string := "current".
Definition GenerationLegacy : string := "legacy".
Definition GenerationWeak : string := "weak".
Definition GenerationUnknown : string := "unknown".

(** [algorithmInfo]. *)
Definition algorithmInfo (cert : Certificate) : AlgorithmInfo :=
  let k := c_key_alg cert in
  let mk := mkAlgInfo k (c_sig_alg_oid cert) in
  (if str_eqb k "gost2015-256" || str_eqb k "gost2015-512" then mk GenerationCurrent ""
  else if str_eqb k "gost2004" then
    mk GenerationLegacy
      ("This certificate uses the superseded GOST 34.310/34.311 profile. " ++
       "Existing signatures stay verifiable; reissue the certificate under GOST 34.10-2015 for new ones.")
  else if str_eqb k "rsa" then
    if str_eqb (c_sig_alg_oid cert) SignSHA1RSA then
      mk GenerationWeak
        ("This certificate is signed with SHA-1, which is no longer collision-resistant. " ++
         "Reissue it under GOST 34.10-2015 before signing anything new.")
    else
      mk GenerationLegacy
        ("This certificate uses an RSA profile rather than the GOST 34.10-2015 one the NUC issues today. " ++
         "Existing signatures stay verifiable; reissue for new ones.")
  else if str_eqb k "" then
    mk GenerationUnknown "The signature algorithm could not be determined from the certificate."
  else mk GenerationUnknown "")%string.

(** ** report.go *)

(** [verdictFrom]: the loop stops at the first failed or unknown step. *)
Fixpoint verdict_steps (steps : list DiagnosisStep) : ReportVerdict :=
  match steps with
  | [] => VerdictValid
  | s :: t =>
      match d_status s with
      | DiagFail => VerdictInvalid
      | DiagUnknown => VerdictIndeterminate
      | _ => verdict_steps t
      end
  end.
Definition verdictFrom (out : VerifyOutput) (diag : Diagnosis) : ReportVerdict :=
  if negb (vo_valid out) then VerdictInvalid else verdict_steps (dg_steps diag).

(** [signerName]. *)
Definition signerName (s : Subject) : string :=
  if negb (empty_str (displayName s)) then displayName s else s_organization s.

(** [reportSigner]. *)
Definition reportSigner (s : Signer) (now : time) : ReportSigner :=
  let c := sg_certificate s in
  let subj := c_subject c in
  let '(at_, source) :=
    match sg_timestamp s with
    | Some (mkTimestamp _ (Some g) _ _ _ _ _ _ _ _ _ _ _) => (Some g, "timestamp"%string)
    | _ => match sg_signing_time s with
           | Some t => (Some t, "signingTime"%string)
           | None => (None, ""%string)
           end
    end in
  mkReportSigner (signerName subj) (s_iin subj) (s_bin subj) (s_organization subj)
    (c_owner_type c) (c_roles c) (sg_valid s) at_ source (sg_sig_alg s) (algorithmInfo c)
    (sg_cades s)
    (mkReportCertificate (c_serial c) (s_common_name (c_issuer c)) (c_not_before c) (c_not_after c)
       (match c_not_after c with Some na => after now na | None => false end))
    (mkReportChain (sg_chain_complete s) (sg_trust_anchor s) (sg_chain_sigs s)
       (Z.of_nat (length (sg_chain s)))).

(** [reportSummary]. *)
Definition reportSummary (verdict : ReportVerdict) (signers : list ReportSigner) (diag : Diagnosis)
    : string :=
  let who := match signers with
             | [] => ""%string
             | [s] => rs_name s
             | s :: t => (rs_name s ++ " and " ++ dec_of_Z (Z.of_nat (length t)) ++ " more")%string
             end in
  (match verdict with
  | VerdictValid =>
      if empty_str who then "Signature is valid."
      else "Signature is valid; signed by " ++ who ++ "."
  | VerdictIndeterminate => "Signature could not be fully confirmed: " ++ dg_summary diag
  | VerdictInvalid => "Signature is not valid: " ++ dg_summary diag
  end)%string.

Section Report.
  (** [hex.EncodeToString] of [sha256.Sum256]. *)
  Variable sha256_hex : string -> string.

(** [digestOf]. *)
Definition digestOf (b : string) : string := if empty_str b then "" else sha256_hex b.

(** [buildReport]. *)
Definition buildReport (out : VerifyOutput) (checkCertTime chainVerifyOn : bool)
    (sig content : string) (checkedAt : time) : VerificationReport :=
  let diag := match vo_explanation out with
              | Some d => d
              | None => buildDiagnosis out checkCertTime chainVerifyOn checkedAt
              end in
  let verdict := verdictFrom out diag in
  let signers := map (fun s => reportSigner s checkedAt) (vo_signers out) in
  mkReport verdict (reportSummary verdict signers diag) checkedAt
    (mkReportDocument (vo_format out) (vo_detached out) (digestOf sig) (digestOf content)
       (Z.of_nat (String.length content)))
    signers (dg_steps diag)
    (map (fun w => (w_field w ++ ": " ++ w_reason w)%string) (vo_warnings out)).
End Report.

(** ** Lemmas *)
Definition sev (s : DiagnosisStep) : Z := severity (d_status s).

Lemma sev_merge st a b s : sev (merge st a b s) = Z.max (sev s) (severity st).
Proof.
  unfold sev, merge. destruct (severity (d_status s) <? severity st) eqn:H; boolp; simpl; lia.
Qed.

(** A loop that only merges raises the severity to the worst contribution. *)
Lemma sev_fold {A} (f : DiagnosisStep -> A -> DiagnosisStep) (contrib : A -> Z) l s k :
  (forall st x, sev (f st x) = Z.max (sev st) (contrib x)) ->
  sev (fold_left f l s) < k <-> sev s < k /\ forall x, x ∈ l -> contrib x < k.
Proof.
  intros Hf. revert s. induction l as [|x l IH]; intros s; simpl.
  - split; [intros H; split; [done|intros y Hy; by apply elem_of_nil in Hy]|tauto].
  - rewrite IH, Hf. split.
    + intros [H1 H2]. split; [lia|]. intros y [->|Hy]%elem_of_cons; [lia|auto].
    + intros [H1 H2]. split; [|intros y Hy; apply H2; by right].
      specialize (H2 x ltac:(left)). lia.
Qed.

(** The contribution of one signer to the time step and to the revocation. *)
Definition time_contrib (fs : DiagnosisStatus) (now : time) (sg : Signer) : Z :=
  match c_not_before (sg_certificate sg), c_not_after (sg_certificate sg) with
  | Some nb, Some na =>
      if before now nb || after now na then severity fs else 0
  | _, _ => 3
  end.
Definition rev_contrib (sg : Signer) : Z :=
  match rev_of sg with RevUnchecked | RevUnanswered => 3 | RevRevoked => 4 | RevGood => 0 end.

Lemma sev_nonneg s : 0 <= sev s.
Proof. unfold sev. destruct (d_status s); simpl; lia. Qed.

Lemma certTime_one_sev fs now st sg :
  sev (certTime_one fs now st sg) = Z.max (sev st) (time_contrib fs now sg).
Proof.
  pose proof (sev_nonneg st). unfold certTime_one, time_contrib.
  destruct (c_not_before (sg_certificate sg)) as [nb|], (c_not_after (sg_certificate sg)) as [na|]; rewrite ?sev_merge; try done.
  destruct (before now nb), (after now na); simpl; rewrite ?sev_merge; lia.
Qed.

Lemma merge_unless_sev ok status a b st l k :
  0 < k ->
  sev (merge_unless ok status a b st l) < k <->
  sev st < k /\ (forall sg, sg ∈ l -> ok sg = true \/ severity status < k).
Proof.
  intros Hk. unfold merge_unless.
  rewrite (sev_fold _ (fun sg => if ok sg then 0 else severity status)).
  - split; intros [H1 H2]; (split; [done|]); intros sg Hsg; specialize (H2 sg Hsg);
      destruct (ok sg); auto; naive_solver lia.
  - intros st' sg. pose proof (sev_nonneg st'). destruct (ok sg); [lia|apply sev_merge].
Qed.

Lemma revocation_fold_sev l s n k :
  sev (fst (fold_left revocation_one l (s, n))) < k <->
  sev s < k /\ forall sg, sg ∈ l -> rev_contrib sg < k.
Proof.
  revert s n. induction l as [|sg l IH]; intros s n; simpl.
  - split; [intros H; split; [done|intros y Hy; by apply elem_of_nil in Hy]|tauto].
  - pose proof (sev_nonneg s). unfold rev_contrib at 1.
    setoid_rewrite elem_of_cons.
    destruct (rev_of sg) eqn:Hr; rewrite IH, ?sev_merge; cbn [severity];
      unfold rev_contrib; (split; [intros [H1 H2]; split; [lia|]; intros y [->|Hy];
        [rewrite Hr; lia | by apply H2] |
        intros [H1 H2]; pose proof (H2 sg (or_introl eq_refl)) as H3; rewrite Hr in H3;
        split; [lia | intros y Hy; by apply H2; right]]).
Qed.

Lemma verdict_steps_valid steps :
  verdict_steps steps = VerdictValid <-> forall s, s ∈ steps -> sev s < 3.
Proof.
  induction steps as [|s t IH]; simpl.
  - split; [intros _ s Hs; by apply elem_of_nil in Hs|done].
  - unfold sev. destruct (d_status s) eqn:Hs; cbn [severity].
    1,3,4: rewrite IH; split; [intros H x [->|Hx]%elem_of_cons; [rewrite Hs; simpl; lia|by apply H]
      | intros H x Hx; apply H; by right].
    + split; [done|]. intros H. specialize (H s ltac:(left)). rewrite Hs in H. simpl in H. lia.
    + split; [done|]. intros H. specialize (H s ltac:(left)). rewrite Hs in H. simpl in H. lia.
Qed.

Lemma certificateTimeStep_sev l (ct : bool) now :
  sev (certificateTimeStep l ct now) < 3 <->
  forall sg, sg ∈ l -> time_contrib (if ct then DiagFail else DiagWarn) now sg < 3.
Proof.
  unfold certificateTimeStep. destruct l as [|x l].
  - split; [intros _ sg H; by apply elem_of_nil in H|done].
  - rewrite (sev_fold _ _ _ _ _ (certTime_one_sev _ now)). split; [naive_solver|done].
Qed.

Lemma chainCompleteStep_sev l : sev (chainCompleteStep l) < 3.
Proof.
  destruct l; [done|]. apply merge_unless_sev; [lia|]. split; [done|]. intros; by right.
Qed.

Lemma trustAnchorStep_sev l : sev (trustAnchorStep l) < 3.
Proof.
  destruct l; [done|]. apply merge_unless_sev; [lia|]. split; [done|]. intros; by right.
Qed.

Lemma chainSignaturesStep_sev l cv :
  sev (chainSignaturesStep l cv) < 3 <->
  forall sg, sg ∈ l -> cv = true -> sg_chain_sigs sg = true.
Proof.
  unfold chainSignaturesStep. destruct cv; cbn [negb]; [|split; done].
  destruct l as [|x l]; [split; [intros _ sg H; by apply elem_of_nil in H|done]|].
  rewrite merge_unless_sev by lia. split.
  - intros [_ H] sg Hsg _. destruct (H sg Hsg) as [?|?]; [done|simpl in *; lia].
  - intros H. split; [done|]. intros sg Hsg. left. auto.
Qed.

Lemma revocationStep_sev out :
  vo_valid out = true ->
  sev (revocationStep out) < 3 <-> forall sg, sg ∈ vo_signers out -> rev_contrib sg < 3.
Proof.
  intros Hv. unfold revocationStep. rewrite Hv.
  pose proof (revocation_fold_sev (vo_signers out)
    (mkStep stepRevocation DiagPass "No signer certificate has been revoked." "") 0 3) as H.
  destruct (fold_left revocation_one (vo_signers out) _) as [st n]. simpl in *.
  destruct (vo_signers out) eqn:Hs.
  - split; [intros _ sg Hsg; by apply elem_of_nil in Hsg|done].
  - rewrite H. split; [naive_solver|]. intros Hc. split; [done|exact Hc].
Qed.

Lemma all_six {A} (P : A -> Prop) a b c d e f :
  (forall x, x ∈ [a; b; c; d; e; f] -> P x) <-> P a /\ P b /\ P c /\ P d /\ P e /\ P f.
Proof. rewrite <- list.Forall_forall, !Forall_cons, Forall_nil. tauto. Qed.

(** What must be established about a signer for a clean verdict. *)
Definition signer_established (checkCertTime chainVerifyOn : bool) (now : time) (sg : Signer) : Prop :=
  rev_of sg = RevGood /\
  (exists nb na, c_not_before (sg_certificate sg) = Some nb /\
     c_not_after (sg_certificate sg) = Some na /\ (checkCertTime = true -> nb <= now <= na)) /\
  (chainVerifyOn = true -> sg_chain_sigs sg = true).

Lemma time_contrib_ok (ct : bool) now sg :
  time_contrib (if ct then DiagFail else DiagWarn) now sg < 3 <->
  exists nb na, c_not_before (sg_certificate sg) = Some nb /\
     c_not_after (sg_certificate sg) = Some na /\ (ct = true -> nb <= now <= na).
Proof.
  unfold time_contrib, before, after.
  destruct (c_not_before (sg_certificate sg)) as [nb|], (c_not_after (sg_certificate sg)) as [na|];
    try (split; [lia|naive_solver]).
  split.
  - intros H. exists nb, na. split_and!; auto. intros ->.
    destruct ((now <? nb) || (na <? now)) eqn:E; [simpl in H; lia|boolp; lia].
  - intros (nb' & na' & [= <-] & [= <-] & H). destruct ct.
    + specialize (H eq_refl). replace ((now <? nb) || (na <? now)) with false; [lia|].
      symmetry. apply orb_false_iff. lia.
    + destruct ((now <? nb) || (na <? now)); simpl; lia.
Qed.

Lemma rev_contrib_ok sg : rev_contrib sg < 3 <-> rev_of sg = RevGood.
Proof. unfold rev_contrib. destruct (rev_of sg); split; (done || lia). Qed.

(** ** Theorems *)

(** C2: The card says "valid" exactly when the signature verified and, for
    every signer, the revocation status was established as good, the
    certificate's window is known (and contains the instant when the time check
    is on) and the chain verified when chain verification is on: an unanswered
    or skipped revocation check never yields a valid verdict. *)
Theorem verdict_valid_iff out ct cv now :
  verdictFrom out (buildDiagnosis out ct cv now) = VerdictValid <->
  vo_valid out = true /\
  forall sg, sg ∈ vo_signers out -> signer_established ct cv now sg.
Proof.
  unfold verdictFrom. destruct (vo_valid out) eqn:Hv; simpl negb; cbv iota; [|split; [done|naive_solver]].
  rewrite verdict_steps_valid. cbn [buildDiagnosis dg_steps].
  rewrite all_six, certificateTimeStep_sev, chainSignaturesStep_sev, (revocationStep_sev out Hv).
  pose proof (chainCompleteStep_sev (vo_signers out)).
  pose proof (trustAnchorStep_sev (vo_signers out)).
  assert (sev (signatureStep out) < 3) by (unfold signatureStep; by rewrite Hv).
  setoid_rewrite time_contrib_ok. setoid_rewrite rev_contrib_ok.
  unfold signer_established. split.
  - intros (_ & Ht & _ & _ & Hc & Hr). split; [done|]. intros sg Hsg. split_and!; auto.
  - intros [_ Hs]. split_and!; auto; intros sg Hsg; destruct (Hs sg Hsg) as (? & ? & ?); auto.
Qed.

(** The verdict is decided by the first step that failed or could not be
    determined, so an unavailable certificate window hides a revocation found
    later in the list: a revoked signer is reported as indeterminate, while
    the diagnosis next to it says the signature is valid. *)
Theorem revoked_reported_indeterminate :
  exists out now,
    (exists sg, sg ∈ vo_signers out /\ rev_of sg = RevRevoked) /\
    let d := buildDiagnosis out false false now in
    (exists st, st ∈ dg_steps d /\ d_status st = DiagFail) /\
    verdictFrom out d = VerdictIndeterminate /\
    dg_summary d = "Signature is valid."%string.
Proof.
  set (sg := mkSigner empty_cert [] true None "" None true true true "" "" None
               (Some (mkRevocation true true MethodOCSP (Some 5) "" None None None None None))).
  exists (mkVerifyOutput true FormatCMS false [sg] "" [] None None None "" None), 7.
  split; [exists sg; split; [left|done]|]. cbv zeta. split; [|by vm_compute].
  exists (mkStep stepRevocation DiagFail "A signer certificate has been revoked."
            "Reject the signature: the key it was made with has been repudiated.").
  split; [|done]. do 5 right. left.
Qed.
