(* ===== verification/Chain.v ===== *)
(** * Certificate chain building (internal/core/chain.go)

    Signature checks between certificates are the X.509 library's
    ([check_signature]); the AIA fetcher is a port that may read and change
    the world. *)
From S2P Require Import Prelude Errors Provider Pki CoreTypes CertParse.

(** [maxChainDepth]. *)
Definition maxChainDepth : nat := 16.

Definition ErrUnsupportedAlgorithm :=
  Sent "x509.ErrUnsupportedAlgorithm" "x509: cannot verify signature: algorithm unimplemented".

(** [isSelfIssued]. *)
Definition isSelfIssued (c : x509cert) : bool := str_eqb (x_raw_issuer c) (x_raw_subject c).

(** [isUnsupportedAlgo]. *)
Definition isUnsupportedAlgo (e : goerr) : bool := contains "unsupported" (to_lower (err_text e)).

(** [first]. *)
Definition first (l : list string) : string := match l with x :: _ => x | [] => "" end.

(** [keyUsageStrings]. *)
Definition keyUsageNames : list (Z * string) :=
  [ (0, "digitalSignature"); (1, "nonRepudiation"); (2, "keyEncipherment");
    (3, "dataEncipherment"); (4, "keyAgreement"); (5, "keyCertSign"); (6, "cRLSign") ]%string.
Definition keyUsageStrings (ku : Z) : list string :=
  omap (fun m => if Z.testbit ku (fst m) then Some (snd m) else None) keyUsageNames.

(** [subjectFromName] and [issuerFromCert]. *)
Definition subjectOf (n : pkixname) : Subject :=
  mkSubject (n_common n) "" "" "" (first (n_org n)) (first (n_unit n)) (first (n_country n))
    (first (n_locality n)) (first (n_province n)) "" "" (n_text n) "" "" "".

Section Chain.
  Context {W : Type}.
  Variable x509_parse : string -> option x509cert.
  Variable pem_decode : string -> option string.
  Variable pem_encode : string -> string.
  (** [current.CheckSignatureFrom(cand)]: [None] when it verifies. *)
  Variable check_signature : x509cert -> x509cert -> option goerr.

(** [issues]. *)
Definition issues (current cand : x509cert) : bool :=
  match check_signature current cand with
  | None => true
  | Some e => errors_is e ErrUnsupportedAlgorithm || isUnsupportedAlgo e
  end.

(** The loop of [findIssuer] over the candidates left. *)
Fixpoint findIssuer_loop (current : x509cert) (byKeyID byName : option x509cert)
    (candidates : list x509cert) : option x509cert :=
  match candidates with
  | [] => match byKeyID with Some c => Some c | None => byName end
  | c :: t =>
      if negb (str_eqb (x_raw_issuer current) (x_raw_subject c)) || negb (issues current c)
      then findIssuer_loop current byKeyID byName t
      else match check_signature current c with
      | None => Some c
      | Some _ =>
          if negb (empty_str (x_authority_key_id current))
             && str_eqb (x_authority_key_id current) (x_subject_key_id c)
          then findIssuer_loop current (match byKeyID with None => Some c | k => k end) byName t
          else findIssuer_loop current byKeyID (match byName with None => Some c | n => n end) t
      end
  end.

(** [findIssuer]. *)
Definition findIssuer (current : x509cert) (candidates : list x509cert) : option x509cert :=
  findIssuer_loop current None None candidates.

(** [IssuerFetcher]. *)
Definition fetcher := string -> M W (option string).

(** [fetchIssuer]. *)
Definition fetchIssuer (current : x509cert) (f : fetcher) : M W (option x509cert) :=
  (let* r := f (x_raw current) in
  mret (match r with
        | None => None
        | Some der =>
            if empty_str der then None
            else match x509_parse der with
            | None => None
            | Some c =>
                if negb (str_eqb (x_raw_issuer current) (x_raw_subject c))
                   || negb (issues current c)
                then None else Some c
            end
        end))%m.

(** [certFromX509]. *)
Definition certFromX509 (c : x509cert) (pem : string) : Certificate :=
  enrichFromDER x509_parse
    (mkCertificate (subjectOf (x_subject c)) (subjectOf (x_issuer c))
       (hex_upper (big_bytes (x_serial c))) (Some (x_not_before c)) (Some (x_not_after c))
       "" "" "" ""
       (if empty_str (x_authority_key_id c) then "" else hex_upper (x_authority_key_id c))
       (if empty_str (x_subject_key_id c) then "" else hex_upper (x_subject_key_id c))
       (keyUsageStrings (x_key_usage c)) "" [] [] "" [] [] [] [] (x_is_ca c) pem)
    (x_raw c).

(** The candidates and the anchor set of [buildChain] (lines 68-79). *)
Definition anchor_ders (trusted : list TrustedCert) : list string :=
  omap (fun tc => let der := pemToDER pem_decode (tc_cert tc) in
                  if empty_str der then None
                  else match x509_parse der with Some _ => Some der | None => None end) trusted.
Definition candidates_of (trusted : list TrustedCert) : list x509cert :=
  omap x509_parse (anchor_ders trusted).

(** The issuer of [current]: a candidate, else the fetched one (lines 93-96). *)
Definition next_issuer (f : option fetcher) (candidates : list x509cert) (current : x509cert)
    : M W (option x509cert) :=
  match findIssuer current candidates with
  | Some c => mret (Some c)
  | None => match f with Some g => fetchIssuer current g | None => mret None end
  end.

(** The loop of [buildChain]: the CA nodes above [current], and [complete]. *)
Fixpoint chain_loop (depth : nat) (f : option fetcher) (candidates : list x509cert)
    (seen : list string) (current : x509cert) : M W (list x509cert * bool) :=
  match depth with
  | O => mret ([], false)
  | S d =>
      if isSelfIssued current then mret ([], true)
      else
        (let* issuer := next_issuer f candidates current in
         match issuer with
         | None => mret ([], false)
         | Some c =>
             if str_mem (x_raw_subject c) seen then mret ([], false)
             else
               let* (nodes, complete) := chain_loop d f candidates (x_raw_subject c :: seen) c in
               mret (c :: nodes, complete)
         end)%m
  end.

(** The node of the chain for an issuer (line 106). *)
Definition node_of (c : x509cert) : Certificate := certFromX509 c (pem_encode (x_raw c)).

(** [buildChain]: the chain, complete and anchored; the empty chain is nil. *)
Definition buildChain (leafFull : Certificate) (leafDER : string) (trusted : list TrustedCert)
    (f : option fetcher) : M W (list Certificate * bool * bool) :=
  if empty_str leafDER then mret ([], false, false)
  else match x509_parse leafDER with
  | None => mret ([], false, false)
  | Some leaf =>
      let anchors := anchor_ders trusted in
      (let* (nodes, complete) :=
         chain_loop maxChainDepth f (candidates_of trusted) [x_raw_subject leaf] leaf in
       let anchored := str_mem leafDER anchors
                       || existsb (fun c => str_mem (x_raw c) anchors) nodes in
       mret (leafFull :: map node_of nodes, complete, anchored))%m
  end.

(** [nodeIsRoot]. *)
Definition nodeIsRoot (pem : string) : bool :=
  match x509_parse (pemToDER pem_decode pem) with
  | Some c => isSelfIssued c
  | None => false
  end.

(** ** Lemmas *)

(** A candidate the loop may return names the issuer and is not refused. *)
Definition issuer_ok (current c : x509cert) : Prop :=
  x_raw_issuer current = x_raw_subject c /\ issues current c = true.

Lemma findIssuer_loop_ok current k n l c :
  (forall x, k = Some x -> issuer_ok current x) -> (forall x, n = Some x -> issuer_ok current x) ->
  findIssuer_loop current k n l = Some c -> issuer_ok current c.
Proof.
  revert k n. induction l as [|x t IH]; intros k n Hk Hn H; simpl in H.
  - destruct k as [y|]; [apply Hk|apply Hn]; done.
  - destruct (negb (str_eqb (x_raw_issuer current) (x_raw_subject x)) || negb (issues current x))
      eqn:Hb; [by apply (IH k n)|].
    apply orb_false_iff in Hb as [H1%negb_false_iff%str_eqb_eq H2%negb_false_iff].
    destruct (check_signature current x); [|by simplify_eq].
    case_match; [destruct k|destruct n]; eapply IH; try exact H; eauto;
      intros y [= <-]; done.
Qed.

(** A candidate whose signature verifies is never passed over for a weaker one. *)
Lemma findIssuer_loop_verified current k n l :
  (exists c, c ∈ l /\ issuer_ok current c /\ check_signature current c = None) ->
  exists c, findIssuer_loop current k n l = Some c /\ check_signature current c = None.
Proof.
  revert k n. induction l as [|x t IH]; intros k n (c & Hin & [Hs Hi] & Hc);
    [by apply elem_of_nil in Hin|]. simpl.
  destruct (negb (str_eqb (x_raw_issuer current) (x_raw_subject x)) || negb (issues current x)) eqn:Hb.
  - apply elem_of_cons in Hin as [->|Hin]; [|apply IH; by exists c].
    rewrite Hs, str_eqb_refl, Hi in Hb. done.
  - destruct (check_signature current x) eqn:Hx; [|by exists x].
    apply elem_of_cons in Hin as [->|Hin]; [congruence|].
    case_match; apply IH; by exists c.
Qed.

Lemma next_issuer_ok f cands current w w' c :
  next_issuer f cands current w = Done (w', Some c) -> issuer_ok current c.
Proof.
  unfold next_issuer. destruct (findIssuer current cands) as [c0|] eqn:Hf.
  - intros [_ [= ->]]%mret_done. eapply findIssuer_loop_ok; [| |exact Hf]; done.
  - destruct f as [g|]; [|intros [_ ?]%mret_done; done].
    unfold fetchIssuer. intros (w1 & r & _ & Hr)%mbind_done. apply mret_done in Hr as [_ Hr].
    destruct r as [der|]; [|done]. destruct (empty_str der); [done|].
    destruct (x509_parse der) as [x|]; [|done].
    destruct (negb (str_eqb (x_raw_issuer current) (x_raw_subject x)) || negb (issues current x))
      eqn:Hb; [done|]. simplify_eq.
    by apply orb_false_iff in Hb as [H1%negb_false_iff%str_eqb_eq H2%negb_false_iff].
Qed.

(** Consecutive certificates of a chain are linked. *)
Fixpoint linked (current : x509cert) (nodes : list x509cert) : Prop :=
  match nodes with
  | [] => True
  | c :: t => issuer_ok current c /\ linked c t
  end.

Lemma empty_walk d (seen : list string) current (complete : bool) :
  (complete = true -> isSelfIssued current = true) ->
  linked current [] /\ (length (@nil x509cert) <= d)%nat /\
  NoDup (x_raw_subject <$> []) /\
  (forall c : x509cert, c ∈ [] -> x_raw_subject c ∉ seen) /\
  (complete = true -> isSelfIssued (default current (last [])) = true).
Proof.
  intros H. split_and!; [done|simpl; lia|constructor| |done].
  intros c Hc. by apply elem_of_nil in Hc.
Qed.

Lemma chain_loop_spec d f cands seen current w w' nodes complete :
  chain_loop d f cands seen current w = Done (w', (nodes, complete)) ->
  linked current nodes /\ (length nodes <= d)%nat /\
  NoDup (x_raw_subject <$> nodes) /\
  (forall c, c ∈ nodes -> x_raw_subject c ∉ seen) /\
  (complete = true -> isSelfIssued (default current (last nodes)) = true).
Proof.
  revert seen current w w' nodes complete.
  induction d as [|d IH]; intros seen current w w' nodes complete H; simpl in H.
  { apply mret_done in H as [_ [= -> ->]]. apply empty_walk. done. }
  destruct (isSelfIssued current) eqn:Hs.
  { apply mret_done in H as [_ [= -> ->]]. by apply empty_walk. }
  apply mbind_done in H as (w1 & issuer & Hi & H). destruct issuer as [c|].
  2:{ apply mret_done in H as [_ [= -> ->]]. by apply empty_walk. }
  destruct (str_mem (x_raw_subject c) seen) eqn:Hm.
  { apply mret_done in H as [_ [= -> ->]]. by apply empty_walk. }
  apply mbind_done in H as (w2 & [nodes' complete'] & Hl & H).
  apply mret_done in H as [_ H]. simplify_eq.
  destruct (IH _ _ _ _ _ _ Hl) as (H1 & H2 & H3 & H4 & H5).
  apply str_mem_false in Hm. split_and!; auto.
  - split; [by eapply next_issuer_ok|done].
  - simpl. lia.
  - rewrite fmap_cons. apply NoDup_cons. split; [|done].
    intros (y & Hy & Hin)%list_elem_of_fmap. apply (H4 y Hin). rewrite <- Hy. left.
  - intros y [->|Hy]%elem_of_cons; [done|]. specialize (H4 y Hy). set_solver.
  - intros Hc. specialize (H5 Hc). rewrite last_cons. destruct (last nodes'); done.
Qed.

Lemma chain_loop_returns d f cands seen current w :
  (forall g, f = Some g -> forall s w, g s w <> Panic) ->
  chain_loop d f cands seen current w <> Panic.
Proof.
  intros Hf. revert seen current w. induction d as [|d IH]; intros seen current w; simpl; [done|].
  destruct (isSelfIssued current); [done|].
  unfold mbind_ at 1. destruct (next_issuer f cands current w) as [[w1 [c|]]|] eqn:Hn.
  - destruct (str_mem _ seen); [done|]. unfold mbind_.
    pose proof (IH (x_raw_subject c :: seen) c w1).
    by destruct (chain_loop d f cands _ c w1) as [[w2 [? ?]]|].
  - done.
  - unfold next_issuer in Hn. destruct (findIssuer current cands); [done|].
    destruct f as [g|]; [|done]. unfold fetchIssuer, mbind_ in Hn.
    pose proof (Hf g eq_refl (x_raw current) w). by destruct (g (x_raw current) w) as [[? ?]|].
Qed.

(** The chain is empty exactly when the leaf is missing or does not parse. *)
Lemma buildChain_done leafFull der trusted f w w' chain complete anchored :
  buildChain leafFull der trusted f w = Done (w', (chain, complete, anchored)) ->
  (chain = [] /\ (der = ""%string \/ x509_parse der = None)) \/
  (exists leaf nodes, der <> ""%string /\ x509_parse der = Some leaf /\
     chain = leafFull :: map node_of nodes /\
     chain_loop maxChainDepth f (candidates_of trusted) [x_raw_subject leaf] leaf w
       = Done (w', (nodes, complete)) /\
     anchored = str_mem der (anchor_ders trusted)
                || existsb (fun c => str_mem (x_raw c) (anchor_ders trusted)) nodes).
Proof.
  unfold buildChain. destruct (empty_str der) eqn:He.
  - intros [_ H]%mret_done. simplify_eq. left. split; [done|left]. by apply str_eqb_eq.
  - apply str_eqb_neq in He. destruct (x509_parse der) as [leaf|] eqn:Hp.
    + intros (w1 & [nodes c] & Hl & H)%mbind_done. apply mret_done in H as [-> H]. simplify_eq.
      right. eauto 10.
    + intros [_ H]%mret_done. simplify_eq. left. split; [done|by right].
Qed.

Lemma buildChain_returns leafFull der trusted f w :
  (forall g, f = Some g -> forall s w, g s w <> Panic) ->
  buildChain leafFull der trusted f w <> Panic.
Proof.
  intros Hf. unfold buildChain. destruct (empty_str der); [done|].
  destruct (x509_parse der) as [leaf|]; [|done]. unfold mbind_.
  pose proof (chain_loop_returns maxChainDepth f (candidates_of trusted) [x_raw_subject leaf] leaf w Hf).
  by destruct (chain_loop _ _ _ _ _ w) as [[? [? ?]]|].
Qed.

(** ** Theorems *)

(** C28: A built chain is sound. It starts with the leaf and has at most 16 CA
    nodes above it; each node's subject is its predecessor's issuer and its key
    is not known to be wrong; no subject repeats, so the walk cannot loop;
    "complete" means the last certificate is self-issued, and "anchored" means
    that some certificate of the chain is one of the trusted ones. *)
Theorem build_chain_sound leafFull der leaf trusted f w w' chain complete anchored :
  der <> ""%string -> x509_parse der = Some leaf ->
  buildChain leafFull der trusted f w = Done (w', (chain, complete, anchored)) ->
  exists nodes, chain = leafFull :: map node_of nodes /\ (length nodes <= 16)%nat /\
    linked leaf nodes /\ NoDup (x_raw_subject <$> (leaf :: nodes)) /\
    (complete = true -> isSelfIssued (default leaf (last nodes)) = true) /\
    (anchored = true <->
       der ∈ anchor_ders trusted \/ exists c, c ∈ nodes /\ x_raw c ∈ anchor_ders trusted).
Proof.
  intros Hd Hp H. destruct (buildChain_done _ _ _ _ _ _ _ _ _ H)
    as [(_ & [?|?])|(leaf' & nodes & _ & Hp' & -> & Hl & ->)]; try congruence.
  assert (leaf' = leaf) as -> by congruence.
  destruct (chain_loop_spec _ _ _ _ _ _ _ _ _ Hl) as (H1 & H2 & H3 & H4 & H5).
  exists nodes. split_and!; auto.
  - rewrite fmap_cons. apply NoDup_cons. split; [|done].
    intros (y & Hy & Hin)%list_elem_of_fmap. apply (H4 y Hin). rewrite Hy. left.
  - rewrite orb_true_iff, str_mem_spec, existsb_elem. by setoid_rewrite str_mem_spec.
Qed.

(** Issuer selection prefers proof: when some candidate's key verifies the
    certificate's signature, the issuer chosen is one whose key verifies it,
    wherever name-only or key-id matches stand in the list; and no candidate
    that is chosen has a signature known to be wrong. *)
Theorem find_issuer_verified current candidates :
  ((exists c, c ∈ candidates /\ issuer_ok current c /\ check_signature current c = None) ->
   exists c, findIssuer current candidates = Some c /\ check_signature current c = None) /\
  (forall c, findIssuer current candidates = Some c -> issuer_ok current c).
Proof.
  split; [apply findIssuer_loop_verified|].
  intros c H. eapply findIssuer_loop_ok; [| |exact H]; done.
Qed.
End Chain.

(** A leaf "L", its issuer "R", self-issued, with "R" trusted. *)
Definition toy_name : pkixname := mkName "" [] [] [] [] [] "".
Definition toy_cert (subject issuer : string) : x509cert :=
  mkX509 subject subject issuer toy_name toy_name 1 0 10 false 0 "" "" [] [] [] [].
Definition toy_parse (der : string) : option x509cert :=
  if str_eqb der "L" then Some (toy_cert "L" "R")
  else if str_eqb der "R" then Some (toy_cert "R" "R") else None.

Lemma build_chain_sound_witness :
  exists nodes, [empty_cert; node_of toy_parse (fun s => s) (toy_cert "R" "R")] =
      empty_cert :: map (node_of toy_parse (fun s => s)) nodes /\ (length nodes <= 16)%nat /\
    linked (fun _ _ => None) (toy_cert "L" "R") nodes /\
    NoDup (x_raw_subject <$> (toy_cert "L" "R" :: nodes)) /\
    (true = true -> isSelfIssued (default (toy_cert "L" "R") (last nodes)) = true) /\
    (true = true <-> ("L"%string ∈ anchor_ders toy_parse (fun _ => None) [mkTrusted "R" false] \/
      exists c, c ∈ nodes /\ x_raw c ∈ anchor_ders toy_parse (fun _ => None) [mkTrusted "R" false])).
Proof.
  refine (build_chain_sound (W := unit) toy_parse (fun _ => None) (fun s => s) (fun _ _ => None)
            empty_cert "L" (toy_cert "L" "R") [mkTrusted "R" false] None tt tt _ true true _ _ _).
  - discriminate.
  - reflexivity.
  - reflexivity.
Defined.

Lemma find_issuer_verified_witness :
  exists c, findIssuer (fun _ c => if str_eqb (x_raw c) "K2" then None else Some ErrUnsupportedAlgorithm)
      (toy_cert "L" "R")
      [mkX509 "K1" "R" "R" toy_name toy_name 1 0 10 true 0 "" "" [] [] [] [];
       mkX509 "K2" "R" "R" toy_name toy_name 2 0 10 true 0 "" "" [] [] [] []] = Some c /\
    (if str_eqb (x_raw c) "K2" then None else Some ErrUnsupportedAlgorithm) = None.
Proof.
  apply (proj1 (find_issuer_verified
    (fun _ c => if str_eqb (x_raw c) "K2" then None else Some ErrUnsupportedAlgorithm)
    (toy_cert "L" "R")
    [mkX509 "K1" "R" "R" toy_name toy_name 1 0 10 true 0 "" "" [] [] [] [];
     mkX509 "K2" "R" "R" toy_name toy_name 2 0 10 true 0 "" "" [] [] [] []])).
  exists (mkX509 "K2" "R" "R" toy_name toy_name 2 0 10 true 0 "" "" [] [] [] []).
  split; [right; left|]. split; [split; reflexivity|reflexivity].
Defined.
