(* ===== verification/Service.v ===== *)
(** * The domain service: its ports and the revocation check
    (internal/core/service.go: Service, Validate, discoverAnchors,
    cryptoVerifyChain; internal/core/revocation.go).

    Every port is an action on the world [W] (network, library, caches,
    journal); the optional ones are [option]s, as the nil checks read them. The
    parsers of the standard library and of third parties are the record
    [libs]. *)
From S2P Require Import Prelude Errors Provider Pki CoreTypes CertParse Chain.

(** ** Libraries *)

(** What the domain reads of an OCSP response and of a CRL. *)
Record ocsp_response := mkOcspResponse {
  or_this_update : time; or_next_update : time; or_produced_at : time;
  or_is_revoked : bool; or_revoked_at : time; or_reason : Z;
}.
Record crl_entry := mkCrlEntry { en_serial : option Z; en_time : time; en_reason : Z }.
Record crl_list := mkCrlList { cr_this_update : time; cr_next_update : time; cr_entries : list crl_entry }.

Record libs := mkLibs {
  x509_parse : string -> option x509cert;
  pem_decode : string -> option string;
  pem_encode : string -> string -> string;
  b64_decode : string -> option string;
  parse_time : string -> option time;
  check_signature : x509cert -> x509cert -> option goerr;
  parse_ocsp : string -> option ocsp_response;
  parse_crl : string -> option crl_list;
  sha256_hex : string -> string;
}.

(** ** Ports *)
Record CRLResult := mkCRLResult {
  crr_base : string; crr_delta : string; crr_reliable : bool; crr_reason : string;
}.

(** [ReceiptClaims]. *)
Record ReceiptClaims := mkReceiptClaims {
  rcl_type : string; rcl_issuer : string; rcl_issued_at : Z; rcl_id : string;
  rcl_verdict : ReportVerdict; rcl_report : VerificationReport;
}.

Section Ports.
  Context (W : Type).

Definition result (A : Type) : Type := (A * option goerr)%type.

(** [provider.Provider]. *)
Record provider_port := mkProviderPort {
  p_caps : Capabilities;
  p_sign_cms : SignRequest -> M W (result string);
  p_sign_xml : SignXMLRequest -> M W (result string);
  p_sign_wsse : SignWSSERequest -> M W (result string);
  p_verify_cms : VerifyRequest -> M W (result VerifyResult);
  p_verify_xml : VerifyRequest -> M W (result VerifyResult);
  p_export : KeyRef -> CertFormat -> M W (result string);
  p_cert_properties : string -> CertFormat -> M W (result CertProperties);
  p_validate : ValidateRequest -> M W (result ValidateResult);
  p_hash : string -> string -> M W (result string);
}.

(** [OCSPCache]. *)
Record cache_port := mkCachePort {
  cache_lookup : string -> string -> M W (option OCSPAnswer);
  cache_store : string -> string -> OCSPAnswer -> M W unit;
}.

(** Temporary files of [writeTempCRL]: the path or the error, and the removal. *)
Record temp_port := mkTempPort {
  temp_create : string -> M W (res goerr string);
  temp_remove : string -> M W unit;
}.

(** [Service]. *)
Record service := mkService {
  prov : provider_port;
  keys : option (KeySpec -> M W (res goerr (KeyRef * M W unit)));
  trust : option (W -> list TrustedCert);
  fetcher_of : option (@fetcher W);
  crl : option (string -> M W (option CRLResult));
  crlFailHard : bool;
  verifyChain : bool;
  defaultTimestamp : bool;
  defaultTSAURL : string;
  now : W -> time;
  verifyOnly : bool;
  dataResolver : option (DataRef -> M W (res goerr (string * M W unit)));
  ocspCache : option cache_port;
  audit : option (AuditEvent -> M W unit);
  receiptSigner : option (ReceiptClaims -> M W (res goerr string));
  receiptIssuer : string;
  receiptRandom : M W (res goerr string);
  tsaPolicies : list string;
  temp : temp_port;
}.
End Ports.
Arguments p_caps {W}. Arguments p_sign_cms {W}. Arguments p_sign_xml {W}.
Arguments p_sign_wsse {W}. Arguments p_verify_cms {W}. Arguments p_verify_xml {W}.
Arguments p_export {W}. Arguments p_cert_properties {W}. Arguments p_validate {W}.
Arguments p_hash {W}. Arguments cache_lookup {W}. Arguments cache_store {W}.
Arguments temp_create {W}. Arguments temp_remove {W}.
Arguments prov {W}. Arguments keys {W}. Arguments trust {W}. Arguments fetcher_of {W}.
Arguments crl {W}. Arguments crlFailHard {W}. Arguments verifyChain {W}.
Arguments defaultTimestamp {W}. Arguments defaultTSAURL {W}. Arguments now {W}.
Arguments verifyOnly {W}. Arguments dataResolver {W}. Arguments ocspCache {W}.
Arguments audit {W}. Arguments receiptSigner {W}. Arguments receiptIssuer {W}. Arguments receiptRandom {W}.
Arguments tsaPolicies {W}. Arguments temp {W}.

(** ** revocation.go *)
Definition reasonNames : list (Z * string) :=
  [ (0, "unspecified"); (1, "keyCompromise"); (2, "cACompromise"); (3, "affiliationChanged");
    (4, "superseded"); (5, "cessationOfOperation"); (6, "certificateHold"); (8, "removeFromCRL");
    (9, "privilegeWithdrawn"); (10, "aACompromise") ]%string.

(** [reasonName]. *)
Definition reasonName (code : Z) : string :=
  match find_first (fun p => fst p =? code) reasonNames with Some p => snd p | None => "" end.

Definition is_letter (c : ascii) : bool :=
  let n := Z.of_nat (nat_of_ascii c) in
  ((65 <=? n) && (n <=? 90)) || ((97 <=? n) && (n <=? 122)).

Fixpoint letters (s : string) : string :=
  match s with
  | EmptyString => EmptyString
  | String c t => if is_letter c then String c (letters t) else EmptyString
  end.

(** [\\s] of RE2: white space without the vertical tab. *)
Fixpoint skip_blank (s : string) : string :=
  match s with
  | EmptyString => EmptyString
  | String c t => if is_space c && negb (Ascii.eqb c (ascii_of_nat 11)) then skip_blank t else s
  end.

(** The first submatch of [(?i)reason:\s*([A-Za-z]+)]. *)
Fixpoint reason_in (info : string) : option string :=
  let here :=
    match drop_prefix "reason:" (to_lower info) with
    | None => None
    | Some r =>
        (* the same text before lower-casing: drop as many characters *)
        let word := letters (skip_blank (substring 7 (String.length info) info)) in
        if empty_str word then None else Some word
    end in
  match here with
  | Some w => Some w
  | None => match info with EmptyString => None | String _ t => reason_in t end
  end.

Definition nonzero (t : time) : option time := if is_zero t then None else Some t.

(** [x != zero] keeps the old value when the new one is zero. *)
Definition or_old (new old : option time) : option time :=
  match new with Some t => Some t | None => old end.

(** [enrichFromOCSP]. *)
Definition enrichFromOCSP (lb : libs) (st : RevocationStatus) (resp info : string)
    : RevocationStatus :=
  match (if empty_str resp then None else parse_ocsp lb resp) with
  | Some r =>
      let rev := or_is_revoked r in
      mkRevocation (r_revoked st || rev) (r_determinate st) (r_method st)
        (if rev then or_old (nonzero (or_revoked_at r)) (r_revocation_time st) else r_revocation_time st)
        (if rev && negb (empty_str (reasonName (or_reason r))) then reasonName (or_reason r)
         else r_reason st)
        (r_checked_at st) (Some (or_this_update r))
        (or_old (nonzero (or_next_update r)) (r_next_update st))
        (or_old (nonzero (or_produced_at r)) (r_produced_at st)) (r_lib_error st)
  | None =>
      mkRevocation (r_revoked st) (r_determinate st) (r_method st) (r_revocation_time st)
        (if empty_str (r_reason st)
         then match reason_in info with Some w => w | None => r_reason st end
         else r_reason st)
        (r_checked_at st) (r_this_update st) (r_next_update st) (r_produced_at st) (r_lib_error st)
  end.

(** The entry of a certificate in a CRL (lines 88-101). *)
Definition crl_entry_of (rl : crl_list) (c : x509cert) : option crl_entry :=
  find_first (fun e => match en_serial e with Some n => n =? x_serial c | None => false end)
    (cr_entries rl).

(** [enrichFromCRL]. *)
Definition enrichFromCRL (lb : libs) (st : RevocationStatus) (crl certDER : string)
    : RevocationStatus :=
  match parse_crl lb (pemToDER (pem_decode lb) crl) with
  | None => st
  | Some rl =>
      let tu := or_old (nonzero (cr_this_update rl)) (r_this_update st) in
      let nu := or_old (nonzero (cr_next_update rl)) (r_next_update st) in
      let upd rev rt reason :=
        mkRevocation rev (r_determinate st) (r_method st) rt reason (r_checked_at st) tu nu
          (r_produced_at st) (r_lib_error st) in
      match x509_parse lb certDER with
      | None => upd (r_revoked st) (r_revocation_time st) (r_reason st)
      | Some c =>
          match crl_entry_of rl c with
          | None => upd (r_revoked st) (r_revocation_time st) (r_reason st)
          | Some e =>
              upd true (Some (en_time e))
                (if empty_str (reasonName (en_reason e)) then r_reason st
                 else reasonName (en_reason e))
          end
      end
  end.

Section Service.
  Context {W : Type} (lb : libs) (s : service W) (loc : Locale).

Notation parse := (x509_parse lb).
Notation pem := (pem_decode lb).
Definition encode_cert (der : string) : string := pem_encode lb "CERTIFICATE" der.
Definition build (leaf : Certificate) (der : string) (trusted : list TrustedCert)
    (f : option (@fetcher W)) : M W (list Certificate * bool * bool) :=
  buildChain parse pem encode_cert (check_signature lb) leaf der trusted f.

(** [mergedTrusted]. *)
Definition mergedTrusted (extra : list TrustedCert) : M W (list TrustedCert) :=
  mget (fun w => match trust s with Some t => t w ++ extra | None => extra end).

(** A chain node as a certificate to load (lines 294, 933 and 999). *)
Definition anchor_of (node : Certificate) : TrustedCert :=
  mkTrusted (c_pem node) (negb (nodeIsRoot parse pem (c_pem node))).

(** [toProviderCerts] is the identity on the shared record; [isAnchorFailure]. *)
Definition isAnchorFailure (e : option goerr) : bool :=
  match e with
  | None => false
  | Some e => errors_is e ErrCertTimeInvalid || errors_is e ErrChainInvalid || errors_is e ErrCARequired
  end.

(** The inner loop of [discoverAnchors] over the CA nodes of one chain. *)
Fixpoint add_nodes (acc : list string * list TrustedCert) (nodes : list Certificate)
    : list string * list TrustedCert :=
  match nodes with
  | [] => acc
  | node :: t =>
      let '(have, extra) := acc in
      let key := pemToDER pem (c_pem node) in
      add_nodes (if str_mem key have then acc else (key :: have, extra ++ [anchor_of node])) t
  end.

(** [discoverAnchors]: [chain[1:]] of an empty chain panics. *)
Definition discoverAnchors (leavesDER : list string) (trusted : list TrustedCert)
    : M W (list TrustedCert) :=
  match fetcher_of s with
  | None => mret []
  | Some f =>
      (let* acc :=
         mfold (fun acc der =>
           let* (chain, _, _) := build empty_cert der trusted (Some f) in
           let* nodes := mlift (slice_from1 chain) in
           mret (add_nodes acc nodes))
         (map (fun tc => pemToDER pem (tc_cert tc)) trusted, []) leavesDER in
       mret (snd acc))%m
  end.

(** [cryptoVerifyChain]. *)
Definition cryptoVerifyChain (leafPEM : string) (chain : list Certificate) : M W bool :=
  (let* nodes := mlift (slice_from1 chain) in
   let* merged := mergedTrusted [] in
   let trusted := map anchor_of nodes ++ merged in
   match trusted with
   | [] => mret false
   | _ =>
       let* (res, err) := p_validate (prov s)
         (mkValidateRequest leafPEM CertPEM ValidateNone "" time_zero false trusted) in
       mret (match err with None => vs_raw_code res =? 0 | Some _ => false end)
   end)%m.

(** [crlReason]. *)
Definition crlReason (r : option CRLResult) : string :=
  match r with
  | None => "unavailable"
  | Some c => if empty_str (crr_reason c) then "unreliable" else crr_reason c
  end.

(** What the CRL branch of [Validate] (lines 673-695) settles. *)
Record crl_choice := mkChoice {
  ch_method : RevMethod; ch_want_ocsp : bool; ch_crl : string; ch_delta : string; ch_warn : warnings;
}.
Definition resolve_crl (method : RevMethod) (i : ValidateInput) (certDER : string)
    : M W (res goerr crl_choice) :=
  let want := va_want_ocsp i || bool_decide (method = MethodOCSP) in
  if negb (bool_decide (method = MethodCRL)) then mret (Ok (mkChoice method want "" "" []))
  else if negb (empty_str (va_crl i)) then mret (Ok (mkChoice method want (va_crl i) "" []))
  else match crl s with
  | None => mret (Ok (mkChoice method want "" "" []))
  | Some source =>
      (let* r := source certDER in
       let reliable := match r with Some c => crr_reliable c | None => false end in
       mret (match r with
             | Some c =>
                 if reliable then Ok (mkChoice method want (crr_base c) (crr_delta c) [])
                 else if crlFailHard s then
                   Err (Domain KindInvalid "Validate" (Some (New
                     ("CRL revocation status could not be established (" ++ crlReason r
                      ++ "); fail policy is hard")%string)))
                 else Ok (mkChoice MethodOCSP true "" ""
                            (w_add "crl" ("fallback-to-ocsp:" ++ crlReason r) []))
             | None =>
                 if crlFailHard s then
                   Err (Domain KindInvalid "Validate" (Some (New
                     ("CRL revocation status could not be established (" ++ crlReason r
                      ++ "); fail policy is hard")%string)))
                 else Ok (mkChoice MethodOCSP true "" ""
                            (w_add "crl" ("fallback-to-ocsp:" ++ crlReason r) []))
             end))%m
  end.

(** [cachedValidateOutput]. *)
Definition cachedValidateOutput (i : ValidateInput) (method : RevMethod) (checkTime : time)
    (a : OCSPAnswer) (w : warnings) : ValidateOutput :=
  mkValidateOutput
    (mkRevocation (oa_revoked a) true method (oa_revocation_time a) (oa_reason a) (Some checkTime)
       (oa_this_update a) (oa_next_update a) (oa_produced_at a) None)
    "" (if va_want_ocsp i then oa_response a else "") w None.

(** The status read from the library's answer and the enrichment (745-763). *)
Definition native_status (method : RevMethod) (checkTime : time) (res : ValidateResult)
    (crlBytes deltaBytes certDER : string) : RevocationStatus :=
  let st := mkRevocation (bool_decide (vs_status res = StatusRevoked))
              (negb (bool_decide (vs_status res = StatusUnknown))) method None "" (Some checkTime)
              None None None None in
  if bool_decide (method = MethodOCSP) then enrichFromOCSP lb st (vs_ocsp res) (vs_info res)
  else if negb (empty_str crlBytes) then
    let st1 := enrichFromCRL lb st crlBytes certDER in
    if negb (r_revoked st1) && negb (empty_str deltaBytes) then enrichFromCRL lb st1 deltaBytes certDER
    else st1
  else st.

Definition set_lib_error (st : RevocationStatus) (e : goerr) : RevocationStatus :=
  mkRevocation (r_revoked st) false (r_method st) (r_revocation_time st) (r_reason st)
    (r_checked_at st) (r_this_update st) (r_next_update st) (r_produced_at st)
    (Some (libErrorFrom loc e)).

Definition answer_of (st : RevocationStatus) (resp : string) : OCSPAnswer :=
  mkOCSPAnswer (r_revoked st) (r_reason st) (r_revocation_time st) (r_this_update st)
    (r_next_update st) (r_produced_at st) resp.

(** The native call and its outcome (lines 734-795). *)
Definition native_call (i : ValidateInput) (ch : crl_choice) (path : string) (checkTime : time)
    (trusted : list TrustedCert) (certDER : string) (w : warnings) : M W (result ValidateOutput) :=
  let method := ch_method ch in
  (let* (res, err) := p_validate (prov s)
     (mkValidateRequest (va_cert i) (certFormat (va_format i)) (validationMethod method) path
        checkTime (ch_want_ocsp ch) trusted) in
   let st := native_status method checkTime res (ch_crl ch) (ch_delta ch) certDER in
   let resp := if va_want_ocsp i then vs_ocsp res else ""%string in
   match err with
   | Some e =>
       if isSoftVerifyFailure e
       then mret (mkValidateOutput (set_lib_error st e) (vs_info res) resp w None, None)
       else mret (mkValidateOutput st (vs_info res) resp [] None, Some (domainErr "Validate" e))
   | None =>
       let* _ :=
         match ocspCache s with
         | Some c => if bool_decide (method = MethodOCSP)
                     then cache_store c certDER path (answer_of st (vs_ocsp res))
                     else mret tt
         | None => mret tt
         end in
       mret (mkValidateOutput st (vs_info res) resp w None, None)
   end)%m.

(** The native call around the temporary CRL file (lines 725-732). *)
Definition validate_native (i : ValidateInput) (ch : crl_choice) (path : string) (checkTime : time)
    (trusted : list TrustedCert) (certDER : string) (w : warnings) : M W (result ValidateOutput) :=
  if bool_decide (ch_method ch = MethodCRL) && negb (empty_str (ch_crl ch)) then
    (let* created := temp_create (temp s) (ch_crl ch) in
     match created with
     | Err e => mret (mkValidateOutput empty_revocation "" "" [] None, Some (domainErr "Validate" e))
     | Ok p =>
         let* out := native_call i ch p checkTime trusted certDER w in
         let* _ := temp_remove (temp s) p in
         mret out
     end)%m
  else native_call i ch path checkTime trusted certDER w.

(** [Validate]. *)
Definition Validate (i : ValidateInput) : M W (result ValidateOutput) :=
  let method := match va_method i with MethodOther "" => MethodOCSP | m => m end in
  (let* clock := mget (now s) in
   let checkTime := if is_zero (va_check_time i) then clock else va_check_time i in
   let certDER := toDER pem (b64_decode lb) (va_cert i) (va_format i) in
   let* merged := mergedTrusted (va_trusted i) in
   let* extra := match fetcher_of s with
                 | Some _ => discoverAnchors [certDER] merged
                 | None => mret []
                 end in
   let trusted := merged ++ extra in
   let* choice := resolve_crl method i certDER in
   match choice with
   | Err e => mret (mkValidateOutput empty_revocation "" "" [] None, Some e)
   | Ok ch =>
       let ocsp := bool_decide (ch_method ch = MethodOCSP) in
       let path := if ocsp && empty_str (va_responder i) then ocspURLFromCert parse certDER
                   else va_responder i in
       if ocsp && empty_str path then
         mret (mkValidateOutput
                 (mkRevocation false false (ch_method ch) None "" (Some checkTime) None None None None)
                 "" ""
                 (w_add "revocation" "the certificate publishes no OCSP responder (AIA); pass responderUrl to name one"
                    (ch_warn ch)) None, None)
       else
         let* hit := match ocspCache s with
                     | Some c => if ocsp then cache_lookup c certDER path else mret None
                     | None => mret None
                     end in
         match hit with
         | Some a => mret (cachedValidateOutput i (ch_method ch) checkTime a (ch_warn ch), None)
         | None => validate_native i ch path checkTime trusted certDER (ch_warn ch)
         end
   end)%m.

(** ** Lemmas *)

(** Enrichment never clears a revocation and never decides determinacy. *)
Lemma enrichFromOCSP_safe st resp info :
  (r_revoked st = true -> r_revoked (enrichFromOCSP lb st resp info) = true) /\
  r_determinate (enrichFromOCSP lb st resp info) = r_determinate st /\
  r_lib_error (enrichFromOCSP lb st resp info) = r_lib_error st /\
  r_method (enrichFromOCSP lb st resp info) = r_method st.
Proof.
  unfold enrichFromOCSP. destruct (if empty_str resp then None else parse_ocsp lb resp); simpl;
    split_and!; try done. by intros ->.
Qed.

Lemma enrichFromCRL_safe st c der :
  (r_revoked st = true -> r_revoked (enrichFromCRL lb st c der) = true) /\
  r_determinate (enrichFromCRL lb st c der) = r_determinate st /\
  r_lib_error (enrichFromCRL lb st c der) = r_lib_error st /\
  r_method (enrichFromCRL lb st c der) = r_method st.
Proof.
  unfold enrichFromCRL. destruct (parse_crl lb _) as [rl|]; [|done].
  destruct (parse der) as [x|]; [|done]. by destruct (crl_entry_of rl x).
Qed.

Lemma native_status_facts method t res c d der :
  let st := native_status method t res c d der in
  (vs_status res = StatusRevoked -> r_revoked st = true) /\
  r_determinate st = negb (bool_decide (vs_status res = StatusUnknown)) /\
  r_lib_error st = None /\ r_method st = method.
Proof.
  unfold native_status. cbv zeta.
  set (st0 := mkRevocation _ _ _ _ _ _ _ _ _ _).
  assert (vs_status res = StatusRevoked -> r_revoked st0 = true) as H0
    by (intros H; simpl; by rewrite bool_decide_eq_true_2).
  case_bool_decide.
  { destruct (enrichFromOCSP_safe st0 (vs_ocsp res) (vs_info res)) as (H1 & H2 & H3 & H4).
    split_and!; auto. }
  destruct (negb (empty_str c)); [|by split_and!].
  destruct (enrichFromCRL_safe st0 c der) as (H1 & H2 & H3 & H4).
  destruct (negb _ && negb (empty_str d)); [|split_and!; auto].
  destruct (enrichFromCRL_safe (enrichFromCRL lb st0 c der) d der) as (G1 & G2 & G3 & G4).
  split_and!; [auto|by rewrite G2|by rewrite G3|by rewrite G4].
Qed.

(** How a status came to be: a stored answer, or the library's own. *)
Inductive evidence (i : ValidateInput) (st : RevocationStatus) : Prop :=
| FromCache c der path w1 w2 a :
    ocspCache s = Some c -> cache_lookup c der path w1 = Done (w2, Some a) ->
    r_revoked st = oa_revoked a -> evidence i st
| FromLibrary req w1 w2 res :
    p_validate (prov s) req w1 = Done (w2, (res, None)) ->
    vq_cert req = va_cert i -> vs_status res <> StatusUnknown ->
    (vs_status res = StatusRevoked -> r_revoked st = true) -> evidence i st.

Lemma native_call_evidence i ch path t trusted der wn w w' out :
  native_call i ch path t trusted der wn w = Done (w', (out, None)) ->
  r_determinate (vao_status out) = true ->
  r_lib_error (vao_status out) = None /\ evidence i (vao_status out).
Proof.
  unfold native_call. intros (w3 & [res err] & Hv & Hn)%mbind_done Hdet. cbv zeta in Hn.
  destruct (native_status_facts (ch_method ch) t res (ch_crl ch) (ch_delta ch) der)
    as (H1 & H2 & H3 & _).
  destruct err as [e|].
  - destruct (isSoftVerifyFailure e); apply mret_done in Hn as [_ Hn]; [|done].
    injection Hn as ->. done.
  - apply mbind_done in Hn as (w4 & u & _ & [_ Hn]%mret_done). injection Hn as ->.
    simpl in *. split; [done|]. eapply FromLibrary; [exact Hv|done| |done].
    rewrite H2 in Hdet. apply negb_true_iff in Hdet. by apply bool_decide_eq_false in Hdet.
Qed.

Lemma validate_native_evidence i ch path t trusted der wn w w' out :
  validate_native i ch path t trusted der wn w = Done (w', (out, None)) ->
  r_determinate (vao_status out) = true ->
  r_lib_error (vao_status out) = None /\ evidence i (vao_status out).
Proof.
  unfold validate_native. intros H Hdet. case_match; [|by eapply native_call_evidence].
  apply mbind_done in H as (w1 & [p|e] & _ & H); [|by apply mret_done in H as [_ H]].
  apply mbind_done in H as (w2 & o & Ho & H).
  apply mbind_done in H as (w3 & u & _ & [_ <-]%mret_done). by eapply native_call_evidence.
Qed.

(** The ports that a revocation check uses never panic themselves. *)
Record ports_total : Prop := {
  pt_validate : forall r w, p_validate (prov s) r w <> Panic;
  pt_fetch : forall g, fetcher_of s = Some g -> forall d w, g d w <> Panic;
  pt_crl : forall g, crl s = Some g -> forall d w, g d w <> Panic;
  pt_lookup : forall c, ocspCache s = Some c -> forall d p w, cache_lookup c d p w <> Panic;
  pt_store : forall c, ocspCache s = Some c -> forall d p a w, cache_store c d p a w <> Panic;
  pt_create : forall b w, temp_create (temp s) b w <> Panic;
  pt_remove : forall b w, temp_remove (temp s) b w <> Panic;
}.

Lemma mergedTrusted_returns extra w : mergedTrusted extra w <> Panic.
Proof. done. Qed.

Lemma discoverAnchors_returns leaves trusted w :
  ports_total -> (forall d, d ∈ leaves -> d <> ""%string /\ exists c, parse d = Some c) ->
  discoverAnchors leaves trusted w <> Panic.
Proof.
  intros Hp Hl. unfold discoverAnchors. destruct (fetcher_of s) as [f|] eqn:Hf; [|done].
  apply mbind_returns; [|done]. apply mfold_returns. intros acc d w0 Hd.
  destruct (Hl d Hd) as (Hne & leaf & Hparse).
  apply mbind_returns.
  - apply buildChain_returns. intros g [= <-]. by apply (pt_fetch Hp).
  - intros w1 [[chain complete] anchored] Hb.
    destruct (buildChain_done _ _ _ _ _ _ _ _ _ _ _ _ _ Hb)
      as [(_ & [?|?])|(leaf' & nodes & _ & _ & -> & _)]; [congruence..|done].
Qed.

Lemma resolve_crl_returns m i d w : ports_total -> resolve_crl m i d w <> Panic.
Proof.
  intros Hp. unfold resolve_crl. destruct (negb (bool_decide _)); [done|].
  destruct (negb (empty_str (va_crl i))); [done|]. destruct (crl s) as [g|] eqn:Hg; [|done].
  apply mbind_returns; [by apply (pt_crl Hp)|done].
Qed.

Lemma native_call_returns i ch path t trusted d wn w :
  ports_total -> native_call i ch path t trusted d wn w <> Panic.
Proof.
  intros Hp. unfold native_call. apply mbind_returns; [apply (pt_validate Hp)|].
  intros w2 [res [e|]] _; cbv zeta; [by destruct (isSoftVerifyFailure e)|].
  apply mbind_returns; [|done]. destruct (ocspCache s) as [c|] eqn:Hc; [|done].
  destruct (bool_decide _); [by apply (pt_store Hp)|done].
Qed.

Lemma validate_native_returns i ch path t trusted d wn w :
  ports_total -> validate_native i ch path t trusted d wn w <> Panic.
Proof.
  intros Hp. unfold validate_native. case_match; [|by apply native_call_returns].
  apply mbind_returns; [apply (pt_create Hp)|]. intros w1 [p|e] _; [|done].
  apply mbind_returns; [by apply native_call_returns|]. intros w2 o _.
  apply mbind_returns; [apply (pt_remove Hp)|done].
Qed.

(** ** Theorems *)

(** C3: A determinate revocation status rests on an answer. When [Validate]
    reports a determined status, it is a stored OCSP answer with the same
    verdict, or the library answered this certificate without error and with a
    known status, and a revocation the library saw is never cleared; a
    determined status carries no library error. *)
Theorem validate_determinate i w w' out :
  Validate i w = Done (w', (out, None)) ->
  r_determinate (vao_status out) = true ->
  r_lib_error (vao_status out) = None /\ evidence i (vao_status out).
Proof.
  unfold Validate. intros H Hdet.
  apply mbind_done in H as (w1 & clock & _ & H).
  apply mbind_done in H as (w2 & merged & _ & H).
  apply mbind_done in H as (w3 & extra & _ & H).
  apply mbind_done in H as (w4 & [ch|e] & _ & H); [|apply mret_done in H as [_ H]; done].
  case_match; [apply mret_done in H as [_ [= ->]]; done|].
  apply mbind_done in H as (w5 & hit & Hh & H). destruct hit as [a|].
  - apply mret_done in H as [_ [= ->]]. simpl in *. split; [done|].
    destruct (ocspCache s) as [c|] eqn:Hc; [|by apply mret_done in Hh as [_ ?]].
    destruct (bool_decide _); [|by apply mret_done in Hh as [_ ?]].
    by eapply FromCache.
  - by eapply validate_native_evidence.
Qed.

Lemma build_unparsable der trusted f w :
  der = ""%string \/ parse der = None ->
  build empty_cert der trusted f w = Done (w, ([], false, false)).
Proof.
  unfold build, buildChain. intros [->|H]; [done|].
  destruct (empty_str der); [done|]. by rewrite H.
Qed.

(** With AIA issuer fetching enabled, validating a certificate that does
    not decode or parse always panics: the chain of an unparsable leaf is nil
    and [discoverAnchors] slices it from 1. *)
Theorem validate_garbage_panics i w f :
  fetcher_of s = Some f ->
  (let der := toDER pem (b64_decode lb) (va_cert i) (va_format i) in
   der = ""%string \/ parse der = None) ->
  Validate i w = Panic.
Proof.
  cbv zeta. intros Hf Hd. unfold Validate, mbind_, mget, mergedTrusted, mget. rewrite Hf.
  unfold discoverAnchors, mbind_. rewrite Hf. simpl. unfold mbind_.
  rewrite (build_unparsable _ _ _ _ Hd). done.
Qed.

(** A validation always returns when the certificate parses (or AIA
    fetching is off) and the ports return: no other slicing or nil use in the
    whole revocation check can panic. *)
Theorem validate_returns i w :
  ports_total ->
  (fetcher_of s = None \/
   let der := toDER pem (b64_decode lb) (va_cert i) (va_format i) in
   der <> ""%string /\ exists c, parse der = Some c) ->
  Validate i w <> Panic.
Proof.
  intros Hp Hd. unfold Validate. apply mbind_returns; [done|]. intros w1 clock _.
  apply mbind_returns; [done|]. intros w2 merged _. apply mbind_returns.
  { destruct (fetcher_of s) as [f|] eqn:Hf; [|done].
    apply discoverAnchors_returns; [done|]. intros d ->%list_elem_of_singleton.
    destruct Hd as [?|Hd]; [done|exact Hd]. }
  intros w3 extra _. apply mbind_returns; [by apply resolve_crl_returns|].
  intros w4 [ch|e] _; [|done]. case_match; [done|]. apply mbind_returns.
  - destruct (ocspCache s) as [c|] eqn:Hc; [|done].
    destruct (bool_decide _); [by apply (pt_lookup Hp)|done].
  - intros w5 [a|] _; [done|by apply validate_native_returns].
Qed.
End Service.

(** ** A concrete service: one certificate "C" naming a responder, a library
    that knows it as good, an AIA fetcher that knows no issuer. *)
Definition toy_x509 : x509cert :=
  mkX509 "C" "S" "I" toy_name toy_name 7 0 100 false 0 "" "" ["http://ocsp"%string] [] [] [].
Definition toy_libs : libs :=
  mkLibs (fun d => if str_eqb d "C" then Some toy_x509 else None) (fun _ => None)
    (fun _ s => s) (fun _ => None) (fun _ => None) (fun _ _ => None) (fun _ => None) (fun _ => None)
    (fun s => s).
Definition toy_provider : provider_port unit :=
  mkProviderPort unit (mkCaps "2.0.13" 1 true true true true true true true true true true true)
    (fun _ => mret (""%string, None)) (fun _ => mret (""%string, None)) (fun _ => mret (""%string, None))
    (fun _ => mret (empty_verify, None)) (fun _ => mret (empty_verify, None))
    (fun _ _ => mret (""%string, None)) (fun _ _ => mret ([], None))
    (fun _ => mret (mkValidateResult StatusGood "" "" 0, None)) (fun _ _ => mret (""%string, None)).
Definition toy_service (f : option (@fetcher unit)) : service unit :=
  mkService unit toy_provider None None f None false false false "" (fun _ => 50) false None None None
    None "" (mret (Ok ""%string)) [] (mkTempPort unit (fun _ => mret (Ok ""%string)) (fun _ => mret tt)).
Definition toy_input (cert : string) : ValidateInput :=
  mkValidateInput cert EncodingDER MethodOCSP 0 false [] "" "".
Definition toy_status : RevocationStatus :=
  mkRevocation false true MethodOCSP None "" (Some 50) None None None None.

Lemma validate_determinate_witness :
  r_lib_error toy_status = None /\
  evidence (toy_service None) (toy_input "C") toy_status.
Proof.
  apply (validate_determinate toy_libs (toy_service None) LocaleEN (toy_input "C") tt tt
           (mkValidateOutput toy_status "" "" [] None)); reflexivity.
Defined.

Lemma validate_garbage_panics_witness :
  Validate toy_libs (toy_service (Some (fun _ => mret None))) LocaleEN (toy_input "garbage") tt = Panic.
Proof.
  apply (validate_garbage_panics toy_libs _ LocaleEN (toy_input "garbage") tt (fun _ => mret None)).
  - reflexivity.
  - right. reflexivity.
Defined.

Lemma validate_returns_witness :
  Validate toy_libs (toy_service (Some (fun _ => mret None))) LocaleEN (toy_input "C") tt <> Panic.
Proof.
  apply validate_returns.
  - constructor; intros; try discriminate. unfold toy_service in H; simpl in H.
    injection H as <-. discriminate.
  - right. split; [discriminate|]. exists toy_x509. reflexivity.
Defined.
