(* ===== verification/Asn1.v ===== *)
(** * DER as Go's encoding/asn1 reads and writes it

    The part of the standard library package cms (Cms.v) is built on: reading an
    identifier and a length, matching one field against its Go type and its
    struct tag, and writing an element. Readers take the remaining bytes and
    return what is left of them. Error texts keep the kind and the first words
    of Go's messages. *)
From S2P Require Import Prelude Errors.

Definition syntax_err (m : string) : goerr := New ("asn1: syntax error: " ++ m).
Definition structural_err (m : string) : goerr := New ("asn1: structure error: " ++ m).

(** ** Bytes *)
Definition z_of (c : ascii) : Z := Z.of_N (N_of_ascii c).
Definition byte_of (z : Z) : ascii := ascii_of_N (Z.to_N (z mod 256)).
Definition slen (s : string) : Z := Z.of_nat (String.length s).
Fixpoint stake (n : nat) (s : string) : string :=
  match n, s with
  | S n', String c t => String c (stake n' t)
  | _, _ => EmptyString
  end.
Fixpoint sdrop (n : nat) (s : string) : string :=
  match n, s with
  | S n', String _ t => sdrop n' t
  | _, _ => s
  end.
(** The bytes consumed between a position and a later one. *)
Definition consumed (from rest : string) : string :=
  stake (String.length from - String.length rest) from.

(** ** Classes and tags *)
Definition ClassUniversal : Z := 0.
Definition ClassContextSpecific : Z := 2.
Definition TagBoolean : Z := 1.
Definition TagInteger : Z := 2.
Definition TagOctetString : Z := 4.
Definition TagOID : Z := 6.
Definition TagSequence : Z := 16.
Definition TagSet : Z := 17.
Definition TagUTCTime : Z := 23.
Definition TagGeneralizedTime : Z := 24.

(** ** Reading an identifier and a length *)
Record tagAndLength := mkTL { t_class : Z; t_tag : Z; t_length : Z; t_compound : bool }.

(** [parseBase128Int]. *)
Fixpoint base128_loop (shifted : nat) (ret : Z) (s : string) : res goerr (Z * string) :=
  match s with
  | EmptyString => Err (syntax_err "truncated base 128 integer")
  | String c r =>
      let b := z_of c in
      if Nat.eqb shifted 5 then Err (structural_err "base 128 integer too large")
      else if Nat.eqb shifted 0 && (b =? 128) then
        Err (syntax_err "integer is not minimally encoded")
      else
        let ret' := Z.lor (Z.shiftl ret 7) (Z.land b 127) in
        if Z.land b 128 =? 0 then
          if 2 ^ 31 - 1 <? ret' then Err (structural_err "base 128 integer too large")
          else Ok (ret', r)
        else base128_loop (S shifted) ret' r
  end.
Definition parseBase128Int (s : string) : res goerr (Z * string) := base128_loop 0 0 s.

(** The bytes of a long-form length. *)
Fixpoint length_loop (n : nat) (len : Z) (s : string) : res goerr (Z * string) :=
  match n with
  | O => Ok (len, s)
  | S n' =>
      match s with
      | EmptyString => Err (syntax_err "truncated tag or length")
      | String c r =>
          if 2 ^ 23 <=? len then Err (structural_err "length too large")
          else
            let len' := Z.lor (Z.shiftl len 8) (z_of c) in
            if len' =? 0 then Err (structural_err "superfluous leading zeros in length")
            else length_loop n' len' r
      end
  end.

Definition parse_length (s : string) : res goerr (Z * string) :=
  match s with
  | EmptyString => Err (syntax_err "truncated tag or length")
  | String c r =>
      let b := z_of c in
      if Z.land b 128 =? 0 then Ok (Z.land b 127, r)
      else
        let n := Z.land b 127 in
        if n =? 0 then Err (syntax_err "indefinite length found (not DER)")
        else
          (let? (len, r') := length_loop (Z.to_nat n) 0 r in
           if len <? 128 then Err (structural_err "non-minimal length") else Ok (len, r'))%res
  end.

(** [parseTagAndLength]. *)
Definition parseTagAndLength (s : string) : res goerr (tagAndLength * string) :=
  match s with
  | EmptyString => Err (New "asn1: internal error in parseTagAndLength")
  | String c r =>
      let b := z_of c in
      let class := Z.shiftr b 6 in
      let compound := Z.land b 32 =? 32 in
      (let? (tag, r1) :=
         if Z.land b 31 =? 31 then
           let? (tag, r1) := parseBase128Int r in
           if tag <? 31 then Err (syntax_err "non-minimal tag") else Ok (tag, r1)
         else Ok (Z.land b 31, r) in
       let? (len, r2) := parse_length r1 in
       Ok (mkTL class tag len compound, r2))%res
  end.

(** ** Writing *)
(** [lengthLength]: eight rounds exhaust a 64-bit length. *)
Fixpoint lengthLength_loop (fuel : nat) (i : Z) : nat :=
  match fuel with
  | O => 1
  | S f => if 255 <? i then S (lengthLength_loop f (Z.shiftr i 8)) else 1
  end.
Definition lengthLength (i : Z) : nat := lengthLength_loop 8 i.

(** [appendLength] with [n] bytes to go. *)
Fixpoint appendLength (n : nat) (i : Z) : string :=
  match n with
  | O => EmptyString
  | S n' => String (byte_of (Z.shiftr i (Z.of_nat n' * 8))) (appendLength n' i)
  end.

(** [base128IntLength], [appendBase128Int]. *)
Fixpoint base128IntLength_loop (fuel : nat) (i : Z) : nat :=
  match fuel with
  | O => 0
  | S f => if 0 <? i then S (base128IntLength_loop f (Z.shiftr i 7)) else 0
  end.
Definition base128IntLength (n : Z) : nat := if n =? 0 then 1 else base128IntLength_loop 10 n.
Fixpoint base128_bytes (l : nat) (n : Z) : string :=
  match l with
  | O => EmptyString
  | S l' =>
      let o := Z.land (Z.shiftr n (Z.of_nat l' * 7)) 127 in
      String (byte_of (if Nat.eqb l' 0 then o else Z.lor o 128)) (base128_bytes l' n)
  end.
Definition appendBase128Int (n : Z) : string := base128_bytes (base128IntLength n) n.

(** [appendTagAndLength]: the identifier, then the length. *)
Definition ident_bytes (class tag : Z) (compound : bool) : string :=
  let b := Z.lor (Z.shiftl class 6) (if compound then 32 else 0) in
  if 31 <=? tag then String (byte_of (Z.lor b 31)) (appendBase128Int tag)
  else String (byte_of (Z.lor b tag)) "".
Definition length_bytes (n : Z) : string :=
  if 128 <=? n
  then String (byte_of (Z.lor 128 (Z.of_nat (lengthLength n)))) (appendLength (lengthLength n) n)
  else String (byte_of n) "".
Definition appendTagAndLength (t : tagAndLength) : string :=
  (ident_bytes (t_class t) (t_tag t) (t_compound t) ++ length_bytes (t_length t))%string.

(** ** RawValue *)
Record RawValue := mkRaw {
  rv_class : Z; rv_tag : Z; rv_compound : bool; rv_bytes : string; rv_full : string;
}.
Definition zero_raw : RawValue := mkRaw 0 0 false "" "".

(** [Marshal] of a [RawValue]: as given when it was read, header and body else. *)
Definition marshal_raw (v : RawValue) : string :=
  if empty_str (rv_full v)
  then (appendTagAndLength (mkTL (rv_class v) (rv_tag v) (slen (rv_bytes v)) (rv_compound v))
        ++ rv_bytes v)%string
  else rv_full v.

(** ** Object identifiers *)
Definition oid := list Z.

Fixpoint oid_rest (fuel : nat) (s : string) : res goerr oid :=
  match fuel, s with
  | _, EmptyString => Ok []
  | O, _ => Err (syntax_err "object identifier")
  | S f, _ =>
      (let? (v, r) := parseBase128Int s in
       let? t := oid_rest f r in
       Ok (v :: t))%res
  end.
(** [parseObjectIdentifier]: every round consumes a byte at least. *)
Definition parseObjectIdentifier (s : string) : res goerr oid :=
  if empty_str s then Err (syntax_err "zero length OBJECT IDENTIFIER")
  else
    (let? (v, r) := parseBase128Int s in
     let? t := oid_rest (String.length r) r in
     Ok ((if v <? 80 then [Z.quot v 40; Z.rem v 40] else [2; v - 80]) ++ t))%res.

(** The content of an object identifier, [makeObjectIdentifier]. *)
Definition makeObjectIdentifier (o : oid) : res goerr string :=
  match o with
  | a :: b :: t =>
      if (2 <? a) || ((a <? 2) && (40 <=? b)) then Err (structural_err "invalid object identifier")
      else Ok (appendBase128Int (a * 40 + b) ++ fold_right (fun v s => appendBase128Int v ++ s) "" t)%string
  | _ => Err (structural_err "invalid object identifier")
  end.

(** [ObjectIdentifier.String]. *)
Definition oid_string (o : oid) : string := concat_with "." (map dec_of_Z o).

(** ** Integers and booleans *)
Fixpoint be_value (acc : Z) (s : string) : Z :=
  match s with
  | EmptyString => acc
  | String c t => be_value (acc * 256 + z_of c) t
  end.
Definition first_byte (s : string) : Z := match s with EmptyString => 0 | String c _ => z_of c end.

(** [checkInteger]. *)
Definition checkInteger (s : string) : option goerr :=
  match s with
  | EmptyString => Some (structural_err "empty integer")
  | String _ EmptyString => None
  | String a (String b _) =>
      if ((z_of a =? 0) && (Z.land (z_of b) 128 =? 0)) || ((z_of a =? 255) && (Z.land (z_of b) 128 =? 128))
      then Some (structural_err "integer not minimally-encoded") else None
  end.
(** The two's complement value, [parseBigInt]. *)
Definition parseBigInt (s : string) : res goerr Z :=
  match checkInteger s with
  | Some e => Err e
  | None =>
      let v := be_value 0 s in
      Ok (if 128 <=? first_byte s then v - 2 ^ (8 * slen s) else v)
  end.
Definition parseInt64 (s : string) : res goerr Z :=
  match checkInteger s with
  | Some e => Err e
  | None => if 8 <? slen s then Err (structural_err "integer too large") else parseBigInt s
  end.
Definition parseBool (s : string) : res goerr bool :=
  match s with
  | String c EmptyString =>
      if z_of c =? 0 then Ok false else if z_of c =? 255 then Ok true
      else Err (syntax_err "invalid boolean")
  | _ => Err (syntax_err "invalid boolean")
  end.

(** ** Fields

    [getUniversalType] of a Go type and how its content is read: from the
    universal tag in force, the header, the content and the whole element. *)
Record gotype (A : Type) := mkGoType {
  ty_any : bool; ty_tag : Z; ty_compound : bool; ty_raw : bool;
  ty_parse : Z -> tagAndLength -> string -> string -> res goerr A;
}.
Arguments mkGoType {A}.
Arguments ty_any {A}. Arguments ty_tag {A}. Arguments ty_compound {A}.
Arguments ty_raw {A}. Arguments ty_parse {A}.

(** The struct tag of a field. *)
Record fieldParameters := mkParams {
  fp_optional : bool; fp_explicit : bool; fp_tag : option Z; fp_set : bool;
}.
Definition no_params : fieldParameters := mkParams false false None false.

(** What [parseField] settles before the content: the header in force and the
    bytes after it, or that the field is absent. *)
Definition mismatch {A} (p : fieldParameters) (e : goerr) (zero : A) (s : string)
    : res goerr (A * string) :=
  if fp_optional p then Ok (zero, s) else Err e.

(** The part of [parseField] after any explicit tag. *)
Definition parse_tagged {A} (ty : gotype A) (zero : A) (p : fieldParameters) (s : string)
    (t : tagAndLength) (r : string) : res goerr (A * string) :=
  let universal0 := if (ty_tag ty =? TagUTCTime) && (t_tag t =? TagGeneralizedTime)
                       && (t_class t =? ClassUniversal) then TagGeneralizedTime else ty_tag ty in
  let universal := if fp_set p then TagSet else universal0 in
  let '(any, class, tag) :=
    match fp_explicit p, fp_tag p with
    | false, Some n => (false, ClassContextSpecific, n)
    | _, _ => (ty_any ty, ClassUniversal, universal)
    end in
  if (negb any && (negb (t_class t =? class) || negb (t_tag t =? tag)))
     || (negb (ty_any ty) && negb (Bool.eqb (t_compound t) (ty_compound ty)))
  then mismatch p (structural_err "tags don't match") zero s
  else if slen r <? t_length t then Err (syntax_err "data truncated")
  else
    let inner := stake (Z.to_nat (t_length t)) r in
    let rest := sdrop (Z.to_nat (t_length t)) r in
    (let? v := ty_parse ty universal t inner (consumed s rest) in Ok (v, rest))%res.

(** [parseField]. *)
Definition parseField {A} (ty : gotype A) (zero : A) (p : fieldParameters) (s : string)
    : res goerr (A * string) :=
  if empty_str s then mismatch p (syntax_err "sequence truncated") zero s
  else
    (let? (t, r) := parseTagAndLength s in
     if fp_explicit p then
       if empty_str r then Err (structural_err "explicit tag has no child")
       else if (t_class t =? ClassContextSpecific)
               && bool_decide (Some (t_tag t) = fp_tag p) && ((t_length t =? 0) || t_compound t)
       then if ty_raw ty then parse_tagged ty zero p s t r
            else if 0 <? t_length t then
              let? (t', r') := parseTagAndLength r in parse_tagged ty zero p s t' r'
            else Err (structural_err "zero length explicit tag was not an asn1.Flag")
       else mismatch p (structural_err "explicitly tagged member didn't match") zero s
     else parse_tagged ty zero p s t r)%res.

(** [asn1.Unmarshal]: one value of the type, and the rest. *)
Definition Unmarshal {A} (ty : gotype A) (zero : A) (s : string) : res goerr (A * string) :=
  parseField ty zero no_params s.

(** ** The Go types *)
Definition raw_type : gotype RawValue :=
  mkGoType true (-1) false true (fun _ t inner full =>
    Ok (mkRaw (t_class t) (t_tag t) (t_compound t) inner full)).
Definition oid_type : gotype oid :=
  mkGoType false TagOID false false (fun _ _ inner _ => parseObjectIdentifier inner).
Definition int_type : gotype Z :=
  mkGoType false TagInteger false false (fun _ _ inner _ => parseInt64 inner).
Definition bigint_type : gotype (option Z) :=
  mkGoType false TagInteger false false (fun _ _ inner _ => let? v := parseBigInt inner in Ok (Some v))%res.
Definition bool_type : gotype bool :=
  mkGoType false TagBoolean false false (fun _ _ inner _ => parseBool inner).
Definition bytes_type : gotype string :=
  mkGoType false TagOctetString false false (fun _ _ inner _ => Ok inner).
(** A struct: its fields, in order; bytes after the last one are allowed. *)
Definition struct_type {A} (fields : string -> res goerr A) : gotype A :=
  mkGoType false TagSequence true false (fun _ _ inner _ => fields inner).

(** [parseSequenceOf]: the headers are walked first, then the elements read. *)
Fixpoint count_elements {A} (ty : gotype A) (fuel : nat) (s : string) : res goerr nat :=
  match fuel, s with
  | _, EmptyString => Ok 0%nat
  | O, _ => Err (syntax_err "truncated sequence")
  | S f, _ =>
      (let? (t, r) := parseTagAndLength s in
       if negb (ty_any ty) && (negb (t_class t =? ClassUniversal)
            || negb (Bool.eqb (t_compound t) (ty_compound ty)) || negb (t_tag t =? ty_tag ty))
       then Err (structural_err "sequence tag mismatch")
       else if slen r <? t_length t then Err (syntax_err "truncated sequence")
       else let? n := count_elements ty f (sdrop (Z.to_nat (t_length t)) r) in Ok (S n))%res
  end.
Fixpoint read_elements {A} (ty : gotype A) (zero : A) (n : nat) (s : string) : res goerr (list A) :=
  match n with
  | O => Ok []
  | S n' =>
      (let? (v, r) := parseField ty zero no_params s in
       let? l := read_elements ty zero n' r in Ok (v :: l))%res
  end.
Definition slice_type {A} (ty : gotype A) (zero : A) : gotype (list A) :=
  mkGoType false TagSequence true false (fun _ _ inner _ =>
    let? n := count_elements ty (String.length inner) inner in
    read_elements ty zero n inner)%res.

(** ** Lemmas on byte strings *)
Local Arguments String.append !_ _ : simpl nomatch.
Lemma z_of_range c : 0 <= z_of c < 256.
Proof. unfold z_of. pose proof (N_ascii_bounded c). lia. Qed.

Lemma z_of_byte z : z_of (byte_of z) = z mod 256.
Proof.
  unfold z_of, byte_of. pose proof (Z.mod_pos_bound z 256).
  rewrite N_ascii_embedding by lia. lia.
Qed.

Lemma empty_str_false s : s <> ""%string -> empty_str s = false.
Proof. apply String.eqb_neq. Qed.

Lemma slength_app (a b : string) :
  String.length (a ++ b) = (String.length a + String.length b)%nat.
Proof. induction a; cbn; congruence. Qed.

Lemma slen_app a b : slen (a ++ b) = slen a + slen b.
Proof. unfold slen. rewrite slength_app. lia. Qed.

Lemma stake_app a b : stake (String.length a) (a ++ b) = a.
Proof. induction a; cbn; congruence. Qed.

Lemma sdrop_app a b : sdrop (String.length a) (a ++ b) = b.
Proof. by induction a. Qed.

Lemma consumed_app a b : consumed (a ++ b) b = a.
Proof.
  unfold consumed. rewrite slength_app.
  replace (_ + _ - _)%nat with (String.length a) by lia. apply stake_app.
Qed.

Lemma app_assoc_s (a b c : string) : ((a ++ b) ++ c = a ++ (b ++ c))%string.
Proof. induction a; cbn; congruence. Qed.

Lemma app_nil_s (a : string) : (a ++ "" = a)%string.
Proof. induction a; cbn; congruence. Qed.

Lemma nil_app_s (a : string) : ("" ++ a = a)%string.
Proof. done. Qed.

Lemma lor_shiftl a b k : 0 <= b < 2 ^ k -> 0 <= k -> Z.lor (Z.shiftl a k) b = a * 2 ^ k + b.
Proof.
  intros Hb Hk. assert (Hd : Z.land (Z.shiftl a k) b = 0).
  { apply Z.bits_inj'. intros i Hi. rewrite Z.land_spec, Z.shiftl_spec, Z.bits_0 by done.
    destruct (Z.ltb_spec i k); [by rewrite Z.testbit_neg_r by lia|].
    rewrite <- (Z.mod_small b (2 ^ k)), Z.mod_pow2_bits_high by lia. by rewrite andb_false_r. }
  rewrite <- Z.lxor_lor, <- Z.add_nocarry_lxor by done. by rewrite Z.shiftl_mul_pow2.
Qed.

Lemma div_pow_succ x b k : 0 <= k -> 0 < b -> x / b ^ (k + 1) = x / b ^ k / b.
Proof. intros. rewrite Z.pow_add_r, Z.pow_1_r, Z.div_div by lia. done. Qed.

(** ** A length reads back *)
Lemma length_loop_spec (k : nat) len r :
  0 < len < 2 ^ 31 -> ((1 <= k)%nat -> len / 256 ^ (Z.of_nat k - 1) <> 0) ->
  length_loop k (len / 256 ^ Z.of_nat k) (appendLength k len ++ r) = Ok (len, r).
Proof.
  intros Hl. induction k as [|k IH]; intros Hk.
  - cbn. by rewrite Z.div_1_r.
  - cbn [appendLength String.append length_loop].
    replace (Z.of_nat (S k)) with (Z.of_nat k + 1) in * by lia.
    rewrite z_of_byte, Z.shiftr_div_pow2, Z.mul_comm, Z.pow_mul_r by lia. change (2 ^ 8) with 256.
    rewrite div_pow_succ by lia. set (q := len / 256 ^ Z.of_nat k).
    assert (Hq : 0 <= q <= len).
    { split; [apply Z.div_pos|apply Z.div_le_upper_bound]; nia. }
    rewrite (proj2 (Z.leb_gt _ _)) by (apply Z.div_lt_upper_bound; lia).
    rewrite lor_shiftl by (pose proof (Z.mod_pos_bound q 256); lia).
    replace (q / 256 * 2 ^ 8 + q mod 256) with q by (pose proof (Z.div_mod q 256); lia).
    rewrite Z.add_simpl_r in Hk.
    rewrite (proj2 (Z.eqb_neq _ _)) by (apply Hk; lia). apply IH. intros ?.
    subst q. intros Hz. apply Hk; [lia|]. replace (Z.of_nat k) with (Z.of_nat k - 1 + 1) by lia.
    by rewrite div_pow_succ, Hz by lia.
Qed.

Lemma lengthLength_spec len : 128 <= len < 2 ^ 31 ->
  (1 <= lengthLength len <= 4)%nat /\ 256 ^ (Z.of_nat (lengthLength len) - 1) <= len < 256 ^ Z.of_nat (lengthLength len).
Proof.
  intros H. unfold lengthLength. cbn [lengthLength_loop].
  rewrite !Z.shiftr_div_pow2 by lia. change (2 ^ 8) with 256. rewrite !Z.div_div by lia. cbn [Z.mul Pos.mul].
  repeat match goal with |- context [(255 <? ?x)%Z] => destruct (Z.ltb_spec 255 x) end;
    cbn; Z.to_euclidean_division_equations; lia.
Qed.

Lemma low_byte b : 0 <= b < 128 -> Z.land b 128 = 0.
Proof.
  intros H. apply Z.bits_inj'. intros i Hi. rewrite Z.land_spec, Z.bits_0.
  change 128 with (2 ^ 7). rewrite Z.pow2_bits_eqb by lia.
  destruct (Z.eqb_spec 7 i) as [<-|]; [|apply andb_false_r].
  by rewrite <- (Z.mod_small b (2 ^ 7)), Z.mod_pow2_bits_high by lia.
Qed.

Lemma parse_length_spec len r :
  0 <= len < 2 ^ 31 -> parse_length (length_bytes len ++ r) = Ok (len, r).
Proof.
  intros H. unfold length_bytes. destruct (Z.leb_spec 128 len).
  - cbn [String.append parse_length]. rewrite z_of_byte.
    destruct (lengthLength_spec len) as [Hn Hb]; [lia|]. set (n := lengthLength len) in *.
    assert (E : Z.land (Z.lor 128 (Z.of_nat n) mod 256) 128 =? 0 = false
                /\ Z.land (Z.lor 128 (Z.of_nat n) mod 256) 127 = Z.of_nat n).
    { assert (n = 1 \/ n = 2 \/ n = 3 \/ n = 4)%nat as [->|[->|[->| ->]]] by lia; done. }
    destruct E as [-> ->]. rewrite (proj2 (Z.eqb_neq _ 0)) by lia. rewrite Nat2Z.id.
    pose proof (length_loop_spec n len r) as L.
    rewrite (Z.div_small len (256 ^ Z.of_nat n)) in L by lia.
    rewrite L; [|lia|].
    + cbn. by rewrite (proj2 (Z.ltb_ge _ _)) by lia.
    + intros _ Hz%Z.div_small_iff; [lia|lia].
  - cbn. rewrite z_of_byte, Z.mod_small by lia.
    rewrite low_byte by lia. change 127 with (Z.ones 7).
    by rewrite Z.land_ones, Z.mod_small by lia.
Qed.

(** ** An element reads back *)
Definition low_tag (class tag : Z) : Prop := 0 <= class < 4 /\ 0 <= tag < 31.

Definition ident_check (class tag : Z) (c : bool) : bool :=
  let b := Z.lor (Z.lor (Z.shiftl class 6) (if c then 32 else 0)) tag mod 256 in
  (Z.shiftr b 6 =? class) && Bool.eqb (Z.land b 32 =? 32) c && (Z.land b 31 =? tag).

Lemma ident_checked class tag c : low_tag class tag -> ident_check class tag c = true.
Proof.
  intros [Hc Ht].
  assert (H : forallb (fun a => forallb (fun t => ident_check (Z.of_nat a) (Z.of_nat t) true
                && ident_check (Z.of_nat a) (Z.of_nat t) false) (seq 0 31)) (seq 0 4) = true)
    by (vm_compute; reflexivity).
  rewrite forallb_forall in H. specialize (H (Z.to_nat class)). rewrite in_seq, forallb_forall in H.
  specialize (H ltac:(lia) (Z.to_nat tag)). rewrite in_seq, !Z2Nat.id in H by lia.
  specialize (H ltac:(lia)). boolp. by destruct c.
Qed.

Lemma parseTagAndLength_spec class tag len c r :
  low_tag class tag -> 0 <= len < 2 ^ 31 ->
  parseTagAndLength (appendTagAndLength (mkTL class tag len c) ++ r) = Ok (mkTL class tag len c, r).
Proof.
  intros Ht Hl. unfold appendTagAndLength, ident_bytes. cbn [t_class t_tag t_length t_compound].
  rewrite (proj2 (Z.leb_gt 31 tag)) by (unfold low_tag in Ht; lia).
  cbn [String.append parseTagAndLength]. rewrite z_of_byte.
  pose proof (ident_checked class tag c Ht) as Hk. unfold ident_check in Hk. boolp.
  apply eqb_prop in H1. rewrite H, H1, H0.
  rewrite (proj2 (Z.eqb_neq tag 31)) by (unfold low_tag in Ht; lia). cbn [rbind].
  by rewrite parse_length_spec.
Qed.

(** A DER element over a body. *)
Definition element (class tag : Z) (c : bool) (body : string) : string :=
  (appendTagAndLength (mkTL class tag (slen body) c) ++ body)%string.
Definition short (body : string) : Prop := slen body < 2 ^ 31.

Lemma slen_nonneg s : 0 <= slen s.
Proof. unfold slen. lia. Qed.

Lemma appendTagAndLength_nonempty t : exists c r, appendTagAndLength t = String c r.
Proof. unfold appendTagAndLength, ident_bytes. destruct (31 <=? t_tag t); cbn; eauto. Qed.

Lemma element_nonempty class tag c body r : empty_str (element class tag c body ++ r) = false.
Proof.
  unfold element. destruct (appendTagAndLength_nonempty (mkTL class tag (slen body) c)) as (x & y & ->).
  done.
Qed.

Lemma element_longer class tag c body : slen body < slen (element class tag c body).
Proof.
  unfold element. destruct (appendTagAndLength_nonempty (mkTL class tag (slen body) c)) as (x & y & ->).
  rewrite slen_app. unfold slen. cbn [String.length]. lia.
Qed.

Lemma to_nat_slen s : Z.to_nat (slen s) = String.length s.
Proof. unfold slen. lia. Qed.

Lemma parse_header class tag c body r :
  low_tag class tag -> short body ->
  parseTagAndLength (element class tag c body ++ r) = Ok (mkTL class tag (slen body) c, (body ++ r)%string).
Proof.
  intros Ht Hs. unfold element. rewrite app_assoc_s.
  apply parseTagAndLength_spec; [done|]. pose proof (slen_nonneg body). unfold short in Hs. lia.
Qed.

(** What a field expects of an element, and that it is met. *)
Definition field_ok {A} (ty : gotype A) (p : fieldParameters) (class tag : Z) (c : bool) : Prop :=
  ty_tag ty <> TagUTCTime /\ (ty_any ty = true \/ c = ty_compound ty) /\
  match fp_explicit p, fp_tag p with
  | false, Some n => class = ClassContextSpecific /\ tag = n
  | true, Some n => ty_any ty = true /\ ty_raw ty = true /\ class = ClassContextSpecific /\ tag = n /\ c = true
  | true, None => False
  | false, None => ty_any ty = true \/
                   (class = ClassUniversal /\ tag = (if fp_set p then TagSet else ty_tag ty))
  end.

Lemma parse_tagged_match {A} (ty : gotype A) zero p class tag c body r :
  field_ok ty p class tag c ->
  parse_tagged ty zero p (element class tag c body ++ r)%string
    (mkTL class tag (slen body) c) (body ++ r)%string =
  rbind (ty_parse ty (if fp_set p then TagSet else ty_tag ty)
           (mkTL class tag (slen body) c) body (element class tag c body))
    (fun v => Ok (v, r)).
Proof.
  intros (Hu & Hc & Hm). unfold parse_tagged. cbn [t_class t_tag t_length t_compound].
  rewrite (proj2 (Z.eqb_neq (ty_tag ty) _) Hu). cbn [andb].
  rewrite slen_app, (proj2 (Z.ltb_ge _ _)) by (pose proof (slen_nonneg r); lia).
  rewrite to_nat_slen, stake_app, sdrop_app, consumed_app.
  assert (Ec : negb (ty_any ty) && negb (Bool.eqb c (ty_compound ty)) = false).
  { destruct Hc as [-> | ->]; [done|]. rewrite Bool.eqb_reflx. apply andb_false_r. }
  destruct (fp_explicit p), (fp_tag p) as [n|]; rewrite Ec, ?orb_false_r; try done.
  - by destruct Hm as [-> _].
  - destruct Hm as [-> ->]. by rewrite !Z.eqb_refl.
  - destruct Hm as [-> | [-> ->]]; [done|]. rewrite !Z.eqb_refl. by rewrite andb_false_r.
Qed.

(** A field whose tag is met is read from the element's body. *)
Lemma parseField_match {A} (ty : gotype A) zero p class tag c body r :
  low_tag class tag -> short body -> field_ok ty p class tag c ->
  (fp_explicit p = true -> body <> "") ->
  parseField ty zero p (element class tag c body ++ r)%string =
  rbind (ty_parse ty (if fp_set p then TagSet else ty_tag ty)
           (mkTL class tag (slen body) c) body (element class tag c body))
    (fun v => Ok (v, r)).
Proof.
  intros Ht Hs Hf Hb. unfold parseField. rewrite element_nonempty, parse_header by done.
  cbn [rbind]. destruct (fp_explicit p) eqn:Ee; [|by apply parse_tagged_match].
  pose proof Hf as (_ & _ & Hm). rewrite Ee in Hm. destruct (fp_tag p) as [n|] eqn:Et; [|done].
  destruct Hm as (_ & Hr & -> & -> & ->). cbn [t_class t_tag t_length t_compound].
  assert (E : empty_str (body ++ r) = false) by (destruct body; [by destruct Hb|done]).
  rewrite E, Hr, bool_decide_eq_true_2 by done. rewrite orb_true_r. by apply parse_tagged_match.
Qed.

(** An optional field is skipped at an element with another tag, and at the
    end of the data. *)
Lemma parseField_skip {A} (ty : gotype A) zero set n class tag c body r :
  low_tag class tag -> short body -> (class, tag) <> (ClassContextSpecific, n) ->
  parseField ty zero (mkParams true false (Some n) set) (element class tag c body ++ r)%string =
  Ok (zero, element class tag c body ++ r)%string.
Proof.
  intros Ht Hs Hn. unfold parseField. rewrite element_nonempty, parse_header by done.
  cbn [rbind fp_explicit]. unfold parse_tagged. cbn [fp_explicit fp_tag t_class t_tag t_length t_compound].
  destruct (Z.eqb_spec class ClassContextSpecific) as [->|]; [|done].
  by destruct (Z.eqb_spec tag n) as [->|].
Qed.

Lemma parseField_skip_explicit {A} (ty : gotype A) zero set n class tag c body r :
  low_tag class tag -> short body -> (class, tag) <> (ClassContextSpecific, n) ->
  (body ++ r)%string <> "" ->
  parseField ty zero (mkParams true true (Some n) set) (element class tag c body ++ r)%string =
  Ok (zero, element class tag c body ++ r)%string.
Proof.
  intros Ht Hs Hn Hb. unfold parseField. rewrite element_nonempty, parse_header by done.
  cbn [rbind fp_explicit fp_tag t_class t_tag t_length t_compound].
  rewrite empty_str_false by done.
  destruct (Z.eqb_spec class ClassContextSpecific) as [->|]; [|done].
  rewrite bool_decide_eq_false_2 by congruence. done.
Qed.

Lemma parseField_end {A} (ty : gotype A) zero p :
  fp_optional p = true -> parseField ty zero p "" = Ok (zero, ""%string).
Proof. intros H. unfold parseField, mismatch. cbn. by rewrite H. Qed.

(** Any element is a RawValue. *)
Lemma Unmarshal_raw class tag c body r :
  low_tag class tag -> short body ->
  Unmarshal raw_type zero_raw (element class tag c body ++ r)%string =
  Ok (mkRaw class tag c body (element class tag c body), r).
Proof.
  intros. unfold Unmarshal. rewrite parseField_match; [done|done|done| |done].
  split_and!; [done|by left|by left].
Qed.

(** A slice of elements of one type. *)
Fixpoint joined (l : list string) : string :=
  match l with
  | [] => ""
  | x :: t => x ++ joined t
  end%string.

Lemma joined_app a b : joined (a ++ b) = (joined a ++ joined b)%string.
Proof. induction a; cbn; [done|]. by rewrite IHa, app_assoc_s. Qed.

Section Slice.
  Context {A : Type} (ty : gotype A) (zero : A).
  Hypothesis ty_tag_low : low_tag ClassUniversal (ty_tag ty).
  Hypothesis ty_not_time : ty_tag ty <> TagUTCTime.
Notation el := (element ClassUniversal (ty_tag ty) (ty_compound ty)).

Lemma count_elements_spec bs fuel :
  Forall short bs -> (length bs <= fuel)%nat ->
  count_elements ty fuel (joined (map el bs)) = Ok (length bs).
Proof.
  intros Hs. revert fuel. induction Hs as [|b bs Hb Hs IH]; intros fuel Hf.
  - by destruct fuel.
  - destruct fuel as [|fuel]; [cbn in Hf; lia|]. cbn [map joined length]. cbn [count_elements].
    destruct (el b ++ joined (map el bs))%string eqn:E.
    { pose proof (element_nonempty ClassUniversal (ty_tag ty) (ty_compound ty) b (joined (map el bs))).
      by rewrite E in H. }
    rewrite <- E, parse_header by done. cbn [rbind t_class t_compound t_tag t_length].
    rewrite !Z.eqb_refl, Bool.eqb_reflx, andb_false_r.
    rewrite slen_app, (proj2 (Z.ltb_ge _ _)) by (pose proof (slen_nonneg (joined (map el bs))); lia).
    rewrite to_nat_slen, sdrop_app, IH by (cbn in Hf; lia). done.
Qed.

Lemma joined_length bs : (length bs <= String.length (joined (map el bs)))%nat.
Proof.
  induction bs as [|b bs IH]; [done|]. cbn [map joined length]. rewrite slength_app.
  pose proof (element_longer ClassUniversal (ty_tag ty) (ty_compound ty) b) as H. unfold slen in H. lia.
Qed.

Lemma slice_parse u t full bs vs :
  Forall short bs ->
  Forall2 (fun b v => ty_parse ty (ty_tag ty) (mkTL ClassUniversal (ty_tag ty) (slen b) (ty_compound ty))
                        b (el b) = Ok v) bs vs ->
  ty_parse (slice_type ty zero) u t (joined (map el bs)) full = Ok vs.
Proof.
  intros Hs Hv. cbn [ty_parse slice_type].
  rewrite count_elements_spec by (done || apply joined_length). cbn [rbind].
  induction Hv as [|b v bs vs Hb Hv IH]; [done|]. inversion_clear Hs.
  cbn [length read_elements map joined].
  rewrite parseField_match; [|done|done| |done].
  - cbn [fp_set no_params]. rewrite Hb. cbn [rbind]. by rewrite IH.
  - split_and!; [done|by right|by right].
Qed.
End Slice.

(** ** An object identifier reads back *)
Lemma base128IntLength_spec v : 0 <= v < 2 ^ 31 ->
  (1 <= base128IntLength v <= 5)%nat /\ v < 128 ^ Z.of_nat (base128IntLength v) /\
  ((1 < base128IntLength v)%nat -> 128 ^ (Z.of_nat (base128IntLength v) - 1) <= v).
Proof.
  intros H. unfold base128IntLength. destruct (Z.eqb_spec v 0) as [->|]; [cbn; lia|].
  cbn [base128IntLength_loop]. rewrite !Z.shiftr_div_pow2 by lia. change (2 ^ 7) with 128.
  rewrite !Z.div_div by lia. cbn [Z.mul Pos.mul].
  repeat match goal with |- context [(0 <? ?x)%Z] => destruct (Z.ltb_spec 0 x) end;
    cbn; Z.to_euclidean_division_equations; lia.
Qed.

Lemma high_byte o : 0 <= o < 128 ->
  Z.lor o 128 = 128 + o /\ Z.land (128 + o) 127 = o /\ Z.land (128 + o) 128 = 128.
Proof.
  intros H. assert (E : Z.lor o 128 = 128 + o).
  { rewrite Z.lor_comm. change 128 with (Z.shiftl 1 7) at 1. rewrite lor_shiftl by lia. lia. }
  split_and!; [done| |].
  - change 127 with (Z.ones 7). rewrite Z.land_ones by lia. change (2 ^ 7) with 128.
    rewrite <- Z.add_mod_idemp_l by lia. rewrite Z.mod_same, Z.mod_small by lia. done.
  - rewrite <- E, Z.land_lor_distr_l, low_byte by lia. done.
Qed.

Lemma base128_loop_spec v r (n k : nat) :
  0 <= v < 2 ^ 31 -> (1 <= k)%nat -> (n + k <= 5)%nat ->
  (n = 0%nat -> (1 < k)%nat -> 128 ^ (Z.of_nat k - 1) <= v < 128 ^ Z.of_nat k) ->
  base128_loop n (v / 128 ^ Z.of_nat k) (base128_bytes k v ++ r) = Ok (v, r).
Proof.
  intros Hv. revert n. induction k as [|k IH]; intros n Hk Hn Hlead; [lia|].
  cbn [base128_bytes String.append base128_loop].
  replace (Z.of_nat (S k)) with (Z.of_nat k + 1) in * by lia. rewrite Z.add_simpl_r in Hlead.
  set (q := v / 128 ^ Z.of_nat k).
  assert (Eq : Z.land (Z.shiftr v (Z.of_nat k * 7)) 127 = q mod 128).
  { change 127 with (Z.ones 7). rewrite Z.land_ones, Z.shiftr_div_pow2, Z.mul_comm, Z.pow_mul_r by lia. done. }
  rewrite Eq. pose proof (Z.mod_pos_bound q 128 ltac:(lia)) as Ho.
  rewrite div_pow_succ by lia. fold q.
  assert (En : Nat.eqb n 5 = false) by (apply Nat.eqb_neq; lia). rewrite En.
  assert (Er : Z.lor (Z.shiftl (q / 128) 7) (q mod 128) = q).
  { rewrite lor_shiftl by (change (2 ^ 7) with 128; lia). change (2 ^ 7) with 128.
    pose proof (Z.div_mod q 128). lia. }
  destruct (Nat.eqb_spec k 0) as [->|Hk0].
  - cbn [Z.of_nat] in *. assert (q = v) by (subst q; by rewrite Z.pow_0_r, Z.div_1_r).
    rewrite z_of_byte, (Z.mod_small (q mod 128)) by lia.
    rewrite (proj2 (Z.eqb_neq (q mod 128) 128)), andb_false_r by lia.
    rewrite low_byte by done. change 127 with (Z.ones 7). rewrite Z.land_ones, Z.mod_mod by lia.
    change (2 ^ 7) with 128. rewrite Er. cbn. rewrite (proj2 (Z.ltb_ge _ _)) by lia. congruence.
  - destruct (high_byte (q mod 128) Ho) as (E1 & E2 & E3). rewrite E1, z_of_byte, Z.mod_small by lia.
    rewrite E2, E3, Er. assert (Hb : Nat.eqb n 0 && (128 + q mod 128 =? 128) = false).
    { destruct (Nat.eqb_spec n 0) as [->|]; [|done]. cbn [andb]. apply Z.eqb_neq.
      destruct Hlead as [H1 H2]; [done|lia|].
      assert (1 <= q < 128).
      { subst q. split; [apply Z.div_le_lower_bound; lia|].
        apply Z.div_lt_upper_bound; [lia|]. rewrite Z.pow_add_r, Z.pow_1_r in H2 by lia. lia. }
      rewrite Z.mod_small by lia. lia. }
    rewrite Hb. cbn. apply IH; lia.
Qed.

Lemma parseBase128Int_spec v r : 0 <= v < 2 ^ 31 ->
  parseBase128Int (appendBase128Int v ++ r) = Ok (v, r).
Proof.
  intros Hv. unfold parseBase128Int, appendBase128Int.
  destruct (base128IntLength_spec v Hv) as (Hl & Hu & Hb).
  pose proof (base128_loop_spec v r 0 (base128IntLength v) Hv) as H.
  rewrite Z.div_small in H by lia. apply H; lia || auto.
Qed.

(** The identifiers that can be written and read. *)
Definition oid_ok (o : oid) : Prop :=
  match o with
  | a :: b :: t => 0 <= a <= 2 /\ 0 <= b /\ (a < 2 -> b < 40) /\ a * 40 + b < 2 ^ 31 /\
                   Forall (fun v => 0 <= v < 2 ^ 31) t
  | _ => False
  end.

Lemma appendBase128Int_nonempty v : 0 <= v < 2 ^ 31 -> exists c s, appendBase128Int v = String c s.
Proof.
  intros Hv. unfold appendBase128Int. destruct (base128IntLength_spec v Hv) as (Hl & _).
  destruct (base128IntLength v); [lia|]. cbn. eauto.
Qed.

Lemma oid_rest_spec t fuel :
  Forall (fun v => 0 <= v < 2 ^ 31) t ->
  let s := fold_right (fun v s => appendBase128Int v ++ s)%string ""%string t in
  (String.length s <= fuel)%nat -> oid_rest fuel s = Ok t.
Proof.
  intros Ht. revert fuel. induction Ht as [|v t Hv Ht IH]; intros fuel s Hf; [by destruct fuel|].
  subst s. cbn [fold_right] in *. set (s := fold_right _ _ t) in *.
  destruct (appendBase128Int_nonempty v Hv) as (c & x & E). rewrite slength_app, E in Hf.
  cbn [String.length] in Hf. destruct fuel as [|fuel]; [lia|].
  cbn [oid_rest]. rewrite E. cbn [String.append].
  change (String c (x ++ s)) with (String c x ++ s)%string. rewrite <- E, parseBase128Int_spec by done.
  cbn [rbind]. by rewrite IH by lia.
Qed.

Lemma parseObjectIdentifier_spec o : oid_ok o ->
  exists s, makeObjectIdentifier o = Ok s /\ s <> ""%string /\ parseObjectIdentifier s = Ok o.
Proof.
  destruct o as [|a [|b t]]; [done..|]. intros (Ha & Hb & Hab & Hv & Ht). cbn [makeObjectIdentifier].
  assert (E : (2 <? a) || ((a <? 2) && (40 <=? b)) = false).
  { rewrite (proj2 (Z.ltb_ge 2 a)) by lia. destruct (Z.ltb_spec a 2); [|done].
    by rewrite (proj2 (Z.leb_gt 40 b)) by lia. }
  rewrite E. eexists. split; [done|].
  destruct (appendBase128Int_nonempty (a * 40 + b)) as (c & x & Ex); [lia|].
  rewrite Ex. split; [done|]. unfold parseObjectIdentifier.
  rewrite <- Ex, parseBase128Int_spec by lia. cbn [rbind].
  rewrite Ex. cbn [String.append]. cbn [empty_str str_eqb String.eqb].
  rewrite oid_rest_spec by done. cbn [rbind]. f_equal.
  destruct (Z.ltb_spec (a * 40 + b) 80); cbn [app].
  - assert (a < 2) by lia. f_equal; [|f_equal]; Z.to_euclidean_division_equations; lia.
  - assert (a = 2) by lia. subst a. f_equal. f_equal. lia.
Qed.
