(* ===== verification/Text.v ===== *)
(** * Parts of Go's standard library that several components use: lexical
    paths (path/filepath on Unix), [strings.Split] and [strings.Join] on one
    separator, sorting of texts, and base64 for URLs without padding. *)
From stdpp Require Import sorting.
From S2P Require Import Prelude CertParse Asn1.
Open Scope Z_scope.

(** ** Splitting *)
Definition split (sep : ascii) (s : string) : list string := split_on sep s "".

Fixpoint no_char (c : ascii) (s : string) : bool :=
  match s with
  | EmptyString => true
  | String d t => negb (Ascii.eqb d c) && no_char c t
  end.

Lemma split_on_acc sep s acc :
  exists h t, split sep s = h :: t /\ split_on sep s acc = (acc ++ h)%string :: t.
Proof.
  unfold split. revert acc. induction s as [|c s IH]; intros acc; cbn [split_on].
  - exists ""%string, []. split; [done|]. by rewrite app_nil_s.
  - destruct (Ascii.eqb c sep).
    + exists ""%string, (split_on sep s ""). split; [done|]. by rewrite app_nil_s.
    + destruct (IH (acc ++ String c "")%string) as (h & t & E & ->).
      destruct (IH ("" ++ String c "")%string) as (h' & t' & E' & ->).
      rewrite E in E'. injection E' as <- <-. exists (String c h), t.
      split; [done|]. by rewrite app_assoc_s.
Qed.

Lemma split_cons sep c s : split sep (String c s) =
  if Ascii.eqb c sep then ""%string :: split sep s
  else match split sep s with h :: t => String c h :: t | [] => [] end.
Proof.
  unfold split at 1. cbn [split_on]. destruct (Ascii.eqb c sep); [done|].
  destruct (split_on_acc sep s ("" ++ String c "")%string) as (h & t & -> & ->). done.
Qed.

Lemma split_ne sep s : split sep s <> [].
Proof. destruct (split_on_acc sep s "") as (h & t & -> & _). done. Qed.

Lemma split_no_char sep s : no_char sep s = true -> split sep s = [s].
Proof.
  induction s as [|c s IH]; [done|]. cbn [no_char]. intros [H1 H2]%andb_true_iff.
  rewrite split_cons. apply negb_true_iff in H1 as ->. by rewrite IH.
Qed.

Lemma split_app sep a b : split sep (a ++ String sep b) = split sep a ++ split sep b.
Proof.
  induction a as [|c a IH]; [by rewrite nil_app_s, split_cons, Ascii.eqb_refl|].
  change (String c a ++ String sep b)%string with (String c (a ++ String sep b)).
  rewrite !split_cons, IH. destruct (Ascii.eqb c sep); [done|].
  destruct (split sep a) as [|h t] eqn:E; [by apply split_ne in E|done].
Qed.

Lemma no_char_app c a b : no_char c (a ++ b) = no_char c a && no_char c b.
Proof. induction a as [|d a IH]; [done|]. change (String d a ++ b)%string with (String d (a ++ b)).
  cbn [no_char]. by rewrite IH, andb_assoc. Qed.

(** Joining pieces free of the separator and splitting again. *)
Lemma split_concat sep l : l <> [] -> Forall (fun s => no_char sep s = true) l ->
  split sep (concat_with (String sep "") l) = l.
Proof.
  intros Hl Hf. induction Hf as [|x l Hx Hf IH]; [done|].
  destruct l as [|y l]; [by apply split_no_char|].
  change (concat_with (String sep "") (x :: y :: l))
    with (x ++ String sep "" ++ concat_with (String sep "") (y :: l))%string.
  change (String sep "" ++ concat_with (String sep "") (y :: l))%string
    with (String sep (concat_with (String sep "") (y :: l))).
  rewrite split_app, IH by done. by rewrite (split_no_char _ _ Hx).
Qed.

(** The pieces are free of the separator. *)
Lemma split_pieces sep s : Forall (fun p => no_char sep p = true) (split sep s).
Proof.
  induction s as [|c s IH]; [by repeat constructor|]. rewrite split_cons.
  destruct (Ascii.eqb c sep) eqn:E; [by constructor|].
  destruct (split sep s) as [|h t]; [done|]. apply Forall_cons in IH as [H1 H2].
  constructor; [|done]. cbn. by rewrite E.
Qed.

(** ** Paths *)
(** [filepath.Clean]: dots and double separators go, a dot-dot eats its parent. *)
Definition clean_step (rooted : bool) (st : list string) (c : string) : list string :=
  if empty_str c || str_eqb c "." then st
  else if str_eqb c ".." then
    match st with
    | [] => if rooted then [] else [".."%string]
    | top :: rest => if str_eqb top ".." then c :: st else rest
    end
  else c :: st.
Definition path_clean (p : string) : string :=
  if empty_str p then "."
  else
    let rooted := has_prefix "/" p in
    let out := concat_with "/" (reverse (fold_left (clean_step rooted) (split "/" p) [])) in
    if rooted then "/" ++ out else if empty_str out then "." else out.

(** [filepath.Join(dir, name)]. *)
Definition path_join (dir name : string) : string :=
  if empty_str dir then (if empty_str name then "" else path_clean name)
  else if empty_str name then path_clean dir
  else path_clean (dir ++ "/" ++ name).

(** [filepath.Base]. *)
Fixpoint trim_slashes (s : string) : string :=
  match s with
  | EmptyString => EmptyString
  | String c t =>
      match trim_slashes t with
      | EmptyString => if Ascii.eqb c "/" then EmptyString else String c EmptyString
      | t' => String c t'
      end
  end.
Definition path_base (p : string) : string :=
  if empty_str p then "."
  else let q := trim_slashes p in
       if empty_str q then "/" else default "" (last (split "/" q)).

(** [filepath.Ext]: from the last dot of the last element. *)
Definition path_ext (p : string) : string :=
  let b := default "" (last (split "/" p)) in
  match reverse (split "." b) with
  | e :: _ :: _ => "." ++ e
  | _ => ""
  end.

(** A name an entry of a directory can have. *)
Definition plain_name (n : string) : Prop :=
  n <> ""%string /\ n <> "."%string /\ n <> ".."%string /\ no_char "/" n = true.

Lemma trim_slashes_app a b : b <> ""%string -> trim_slashes b = b -> trim_slashes (a ++ b) = (a ++ b)%string.
Proof.
  intros Hb Ht. induction a as [|c a IH]; [done|].
  change (String c a ++ b)%string with (String c (a ++ b)). cbn [trim_slashes]. rewrite IH.
  destruct (a ++ b)%string eqn:E; [|done]. destruct a; [by destruct b|done].
Qed.
Lemma trim_slashes_plain n : no_char "/" n = true -> trim_slashes n = n.
Proof.
  induction n as [|c n IH]; [done|]. cbn. intros [H1 H2]%andb_true_iff. rewrite IH by done.
  apply negb_true_iff in H1. rewrite H1. by destruct n.
Qed.

Lemma concat_snoc sep l x : concat_with sep (l ++ [x]) =
  match l with [] => x | _ => (concat_with sep l ++ sep ++ x)%string end.
Proof.
  induction l as [|y l IH]; [done|]. change ((y :: l) ++ [x]) with (y :: (l ++ [x])).
  destruct l as [|z l]; [done|].
  change (concat_with sep (y :: (z :: l) ++ [x])) with (y ++ sep ++ concat_with sep ((z :: l) ++ [x]))%string.
  rewrite IH. change (concat_with sep (y :: z :: l)) with (y ++ sep ++ concat_with sep (z :: l))%string.
  by rewrite !app_assoc_s.
Qed.

Lemma path_base_last p n : plain_name n -> p = n \/ (exists d, p = (d ++ "/" ++ n)%string) -> path_base p = n.
Proof.
  intros (Hn & _ & _ & Hs) Hp. unfold path_base.
  assert (trim_slashes p = p) as Ht.
  { destruct Hp as [->|[d ->]]; [by apply trim_slashes_plain|]. rewrite <- app_assoc_s.
    apply trim_slashes_app; [done|by apply trim_slashes_plain]. }
  assert (p <> ""%string) as Hne by (destruct Hp as [->|[[|] ->]]; done).
  assert (empty_str p = false) as Ee by (by apply str_eqb_neq).
  rewrite Ht, Ee. destruct Hp as [->|[d ->]]; [by rewrite split_no_char|].
  change ("/" ++ n)%string with (String "/" n). rewrite split_app, last_app, (split_no_char _ _ Hs). done.
Qed.

Lemma clean_step_plain rooted st n : plain_name n -> clean_step rooted st n = n :: st.
Proof.
  intros (H1 & H2 & H3 & _). unfold clean_step, empty_str.
  by rewrite (proj2 (str_eqb_neq _ _) H1), (proj2 (str_eqb_neq _ _) H2), (proj2 (str_eqb_neq _ _) H3).
Qed.

(** The last element of a joined path is the name. *)
Lemma path_base_join dir n : dir <> ""%string -> plain_name n -> path_base (path_join dir n) = n.
Proof.
  intros Hd Hn. pose proof Hn as (H1 & H2 & H3 & H4). unfold path_join, empty_str.
  rewrite (proj2 (str_eqb_neq _ _) Hd), (proj2 (str_eqb_neq _ _) H1).
  apply path_base_last; [done|]. unfold path_clean, empty_str.
  assert (str_eqb (dir ++ "/" ++ n) "" = false) as -> by (apply str_eqb_neq; by destruct dir).
  change ("/" ++ n)%string with (String "/" n). rewrite split_app, fold_left_app, (split_no_char _ _ H4).
  cbn [fold_left]. rewrite clean_step_plain by done. set (st := fold_left _ (split "/" dir) []).
  set (rooted := has_prefix "/" _). rewrite reverse_cons, concat_snoc. destruct (reverse st) as [|y l].
  - destruct rooted; [right; by exists ""%string|]. rewrite (proj2 (str_eqb_neq _ _) H1). by left.
  - set (q := concat_with "/" (y :: l)). right. destruct rooted.
    + exists ("/" ++ q)%string. by rewrite app_assoc_s.
    + exists q. destruct (str_eqb (q ++ "/" ++ n) "") eqn:E; [|done]. apply str_eqb_eq in E. by destruct q.
Qed.

Lemma path_join_inj dir n m : dir <> ""%string -> plain_name n -> plain_name m ->
  path_join dir n = path_join dir m -> n = m.
Proof. intros Hd Hn Hm E. rewrite <- (path_base_join dir n), E by done. by apply path_base_join. Qed.

(** ** Sorting ([sort.Strings]) *)
Definition str_le (a b : string) : Prop := String.leb a b = true.
#[global] Instance str_le_dec : RelDecision str_le.
Proof. intros a b. unfold str_le. apply _. Defined.
Definition sort_strings : list string -> list string := merge_sort str_le.

(** ** [base64.RawURLEncoding] *)
Definition byte_val (a : ascii) : Z := Z.of_nat (nat_of_ascii a).
Definition byte_of (z : Z) : ascii := ascii_of_nat (Z.to_nat z).

Definition b64_chr (v : Z) : ascii :=
  byte_of (if v <? 26 then v + 65 else if v <? 52 then v + 71 else if v <? 62 then v - 4
           else if v =? 62 then 45 else 95).
Definition b64_val (c : ascii) : option Z :=
  let n := byte_val c in
  if (65 <=? n) && (n <=? 90) then Some (n - 65)
  else if (97 <=? n) && (n <=? 122) then Some (n - 71)
  else if (48 <=? n) && (n <=? 57) then Some (n + 4)
  else if n =? 45 then Some 62 else if n =? 95 then Some 63 else None.

(** [EncodeToString]: three bytes are four characters, a rest of one or two
    bytes two or three. *)
Fixpoint b64url_encode (s : string) : string :=
  match s with
  | EmptyString => EmptyString
  | String a EmptyString =>
      String (b64_chr (byte_val a / 4)) (String (b64_chr (byte_val a mod 4 * 16)) "")
  | String a (String b EmptyString) =>
      String (b64_chr (byte_val a / 4))
        (String (b64_chr (byte_val a mod 4 * 16 + byte_val b / 16))
          (String (b64_chr (byte_val b mod 16 * 4)) ""))
  | String a (String b (String c t)) =>
      String (b64_chr (byte_val a / 4))
        (String (b64_chr (byte_val a mod 4 * 16 + byte_val b / 16))
          (String (b64_chr (byte_val b mod 16 * 4 + byte_val c / 64))
            (String (b64_chr (byte_val c mod 64)) (b64url_encode t))))
  end.

(** [DecodeString]: line breaks are skipped, any other character outside the
    alphabet and a last group of one character are errors, the spare bits of
    the last group are not looked at. *)
Fixpoint b64_values (s : string) : option (list Z) :=
  match s with
  | EmptyString => Some []
  | String c t =>
      if Ascii.eqb c "010" || Ascii.eqb c "013" then b64_values t
      else match b64_val c, b64_values t with
           | Some v, Some l => Some (v :: l)
           | _, _ => None
           end
  end.
Fixpoint b64_groups (l : list Z) : option string :=
  match l with
  | [] => Some ""%string
  | [_] => None
  | [p; q] => Some (String (byte_of (p * 4 + q / 16)) "")
  | [p; q; r] => Some (String (byte_of (p * 4 + q / 16)) (String (byte_of (q mod 16 * 16 + r / 4)) ""))
  | p :: q :: r :: s :: t =>
      match b64_groups t with
      | Some u => Some (String (byte_of (p * 4 + q / 16))
                    (String (byte_of (q mod 16 * 16 + r / 4)) (String (byte_of (r mod 4 * 64 + s)) u)))
      | None => None
      end
  end.
Definition b64url_decode (s : string) : option string :=
  match b64_values s with Some l => b64_groups l | None => None end.

Lemma byte_val_bound a : 0 <= byte_val a < 256.
Proof. unfold byte_val. pose proof (nat_ascii_bounded a). lia. Qed.
Lemma byte_of_val a : byte_of (byte_val a) = a.
Proof. unfold byte_of, byte_val. by rewrite Nat2Z.id, ascii_nat_embedding. Qed.

(** The facts about each of the 64 characters, by evaluation. *)
Definition b64_char_ok (v : Z) : bool :=
  let c := b64_chr v in
  bool_decide (b64_val c = Some v) && negb (Ascii.eqb c "010") && negb (Ascii.eqb c "013")
    && negb (Ascii.eqb c ".") && negb (is_space c).
Lemma b64_chars_ok v : 0 <= v < 64 -> b64_char_ok v = true.
Proof.
  intros Hv. assert (forallb (fun n => b64_char_ok (Z.of_nat n)) (seq 0 64) = true) as H by (vm_compute; done).
  rewrite forallb_forall in H. specialize (H (Z.to_nat v)). rewrite Z2Nat.id in H by lia. apply H, in_seq. lia.
Qed.

Lemma b64_char_facts v : b64_char_ok v = true ->
  b64_val (b64_chr v) = Some v /\ Ascii.eqb (b64_chr v) "010" = false /\
  Ascii.eqb (b64_chr v) "013" = false /\ Ascii.eqb (b64_chr v) "." = false /\ is_space (b64_chr v) = false.
Proof. unfold b64_char_ok. cbn zeta. intros H. boolp. done. Qed.

Lemma b64_values_chr v s : 0 <= v < 64 ->
  b64_values (String (b64_chr v) s) = match b64_values s with Some l => Some (v :: l) | None => None end.
Proof.
  intros (H1 & H2 & H3 & _)%b64_chars_ok%b64_char_facts. cbn [b64_values]. by rewrite H1, H2, H3.
Qed.

(** Induction in steps of three bytes. *)
Lemma three_ind (P : string -> Prop) :
  P ""%string -> (forall a, P (String a "")) -> (forall a b, P (String a (String b ""))) ->
  (forall a b c t, P t -> P (String a (String b (String c t)))) -> forall s, P s.
Proof.
  intros H0 H1 H2 H3 s. enough (P s /\ (forall a, P (String a s)) /\ (forall a b, P (String a (String b s)))) by tauto.
  induction s as [|c s (I1 & I2 & I3)]; split_and!; auto.
Qed.

Ltac byte_bounds :=
  repeat match goal with
  | a : ascii |- _ =>
      lazymatch goal with H : 0 <= byte_val a < 256 |- _ => fail | _ => pose proof (byte_val_bound a) end
  end.
Ltac div_lia := byte_bounds; Z.div_mod_to_equations; lia.

Lemma b64_byte1 a x : 0 <= x < 16 -> byte_of (byte_val a / 4 * 4 + (byte_val a mod 4 * 16 + x) / 16) = a.
Proof. intros Hx. rewrite <- (byte_of_val a) at 3. f_equal. div_lia. Qed.
Lemma b64_byte2 a b x : 0 <= x < 4 ->
  byte_of ((byte_val a mod 4 * 16 + byte_val b / 16) mod 16 * 16 + (byte_val b mod 16 * 4 + x) / 4) = b.
Proof. intros Hx. rewrite <- (byte_of_val b) at 3. f_equal. div_lia. Qed.
Lemma b64_byte3 b c :
  byte_of ((byte_val b mod 16 * 4 + byte_val c / 64) mod 4 * 64 + byte_val c mod 64) = c.
Proof. rewrite <- (byte_of_val c) at 3. f_equal. div_lia. Qed.

(** What was encoded is decoded. *)
Lemma b64url_roundtrip s : b64url_decode (b64url_encode s) = Some s.
Proof.
  enough (exists l, b64_values (b64url_encode s) = Some l /\ b64_groups l = Some s) as (l & E & H)
    by (unfold b64url_decode; by rewrite E).
  induction s as [|a|a b|a b c t (l & E & IH)] using three_ind; cbn [b64url_encode];
    rewrite ?b64_values_chr by div_lia; rewrite ?E; eexists; (split; [done|]); cbn [b64_groups].
  - done.
  - f_equal. f_equal. rewrite <- (Z.add_0_r (_ * 16)). by apply b64_byte1.
  - rewrite b64_byte1 by div_lia. f_equal. f_equal. f_equal. rewrite <- (Z.add_0_r (_ mod 16 * 4)). by apply b64_byte2.
  - by rewrite IH, b64_byte1, b64_byte2, b64_byte3 by div_lia.
Qed.

(** No character of an encoding satisfies a test none of the 64 satisfies. *)
Fixpoint all_chars (P : ascii -> bool) (s : string) : bool :=
  match s with EmptyString => true | String c t => P c && all_chars P t end.
Lemma b64url_chars (P : ascii -> bool) s :
  (forall v, 0 <= v < 64 -> P (b64_chr v) = true) -> all_chars P (b64url_encode s) = true.
Proof.
  intros HP. induction s as [|a|a b|a b c t IH] using three_ind; cbn [b64url_encode all_chars];
    rewrite ?HP, ?IH by div_lia; done.
Qed.
Lemma b64url_no_dot s : no_char "." (b64url_encode s) = true.
Proof.
  assert (forall u, no_char "." u = all_chars (fun c => negb (Ascii.eqb c ".")) u) as ->
    by (intros u; induction u; [done|]; cbn; by rewrite IHu).
  apply b64url_chars. intros v Hv%b64_chars_ok. by apply b64_char_facts in Hv as (_ & _ & _ & -> & _).
Qed.

(** Text without spaces is its own trimming. *)
Lemma trim_no_space s : all_chars (fun c => negb (is_space c)) s = true -> trim_space s = s.
Proof.
  intros H. unfold trim_space. assert (trim_left s = s) as ->.
  { destruct s as [|c s]; [done|]. cbn in *. apply andb_true_iff in H as [->%negb_true_iff _]. done. }
  induction s as [|c s IH]; [done|]. cbn in *. apply andb_true_iff in H as [H1%negb_true_iff H2].
  rewrite IH by done. destruct s; [by rewrite H1|done].
Qed.
Lemma all_chars_app P a b : all_chars P (a ++ b) = all_chars P a && all_chars P b.
Proof. induction a as [|d a IH]; [done|]. change (String d a ++ b)%string with (String d (a ++ b)).
  cbn [all_chars]. by rewrite IH, andb_assoc. Qed.
Lemma b64url_no_space s : all_chars (fun c => negb (is_space c)) (b64url_encode s) = true.
Proof. apply b64url_chars. intros v Hv%b64_chars_ok. by apply b64_char_facts in Hv as (_ & _ & _ & _ & ->). Qed.
