(* ===== verification/Strconv.v ===== *)
(** * Go's text conversions: strconv.ParseBool and Atoi, time.ParseDuration

    Written from their documented behaviour on bytes. The fraction of a duration
    is scaled exactly, where Go computes it in double precision. *)
From S2P Require Import Prelude Errors Asn1 Text.
Open Scope Z_scope.

(** ** strconv *)
Definition ParseBool (s : string) : option bool :=
  if existsb (str_eqb s) ["1"; "t"; "T"; "TRUE"; "true"; "True"]%string then Some true
  else if existsb (str_eqb s) ["0"; "f"; "F"; "FALSE"; "false"; "False"]%string then Some false
  else None.
Definition format_bool (b : bool) : string := if b then "true" else "false".

Definition digit_of (c : ascii) : option Z :=
  let n := Z.of_nat (nat_of_ascii c) in if (48 <=? n) && (n <=? 57) then Some (n - 48) else None.
Fixpoint digits_loop (s : string) (acc : Z) : option Z :=
  match s with
  | EmptyString => Some acc
  | String c t => match digit_of c with Some d => digits_loop t (10 * acc + d) | None => None end
  end.
(** [Atoi]: the value it returns beside its error, which is 0 for what is no
    number and the nearest bound for a number out of range; and the error. *)
Definition Atoi (s : string) : Z * bool :=
  let '(neg, body) := match s with
                      | String "-" t => (true, t) | String "+" t => (false, t) | _ => (false, s)
                      end in
  match body with
  | EmptyString => (0, false)
  | _ =>
      match digits_loop body 0 with
      | None => (0, false)
      | Some n =>
          let z := if (neg : bool) then - n else n in
          if z <? - 2 ^ 63 then (- 2 ^ 63, false) else if 2 ^ 63 - 1 <? z then (2 ^ 63 - 1, false) else (z, true)
      end
  end.

(** ** time.ParseDuration *)
Definition bad_duration {A} (s : string) : res goerr A := Err (New ("time: invalid duration " ++ dq ++ s ++ dq)).

(** [leadingInt]: the value, and the rest; none on overflow. *)
Fixpoint leadingInt (s : string) (x : Z) : option (Z * string) :=
  match s with
  | EmptyString => Some (x, s)
  | String c t =>
      match digit_of c with
      | None => Some (x, s)
      | Some d =>
          if (2 ^ 63) / 10 <? x then None
          else let x' := 10 * x + d in if 2 ^ 63 <? x' then None else leadingInt t x'
      end
  end.
(** [leadingFraction]: digits past the precision are dropped. *)
Fixpoint leadingFraction (s : string) (x scale : Z) (overflow : bool) : Z * Z * string :=
  match s with
  | EmptyString => (x, scale, s)
  | String c t =>
      match digit_of c with
      | None => (x, scale, s)
      | Some d =>
          if overflow then leadingFraction t x scale true
          else if (2 ^ 63 - 1) / 10 <? x then leadingFraction t x scale true
          else let y := 10 * x + d in
               if 2 ^ 63 <? y then leadingFraction t x scale true
               else leadingFraction t y (10 * scale) false
      end
  end.
(** The unit: up to the next digit or point. *)
Fixpoint take_unit (s : string) : string * string :=
  match s with
  | EmptyString => (EmptyString, s)
  | String c t =>
      if Ascii.eqb c "." || bool_decide (is_Some (digit_of c)) then (EmptyString, s)
      else let '(u, r) := take_unit t in (String c u, r)
  end.
Definition micro_signs : list string :=
  [String "194" (String "181" "s"); String "206" (String "188" "s")]%string.
Definition unit_of (u : string) : option Z :=
  if str_eqb u "ns" then Some 1
  else if str_eqb u "us" || existsb (str_eqb u) micro_signs then Some 1000
  else if str_eqb u "ms" then Some 1000000
  else if str_eqb u "s" then Some second
  else if str_eqb u "m" then Some (60 * second)
  else if str_eqb u "h" then Some hour
  else None.

(** The terms of a duration, summed; each takes at least two bytes. *)
Fixpoint duration_terms (fuel : nat) (orig s : string) (d : Z) : res goerr Z :=
  match fuel with
  | O => bad_duration orig
  | S n =>
      match s with
      | EmptyString => Ok d
      | String c _ =>
          if negb (Ascii.eqb c "." || bool_decide (is_Some (digit_of c))) then bad_duration orig
          else
            match leadingInt s 0 with
            | None => bad_duration orig
            | Some (v, s1) =>
                let pre := negb (String.length s1 =? String.length s)%nat in
                let '(f, scale, s2, post) :=
                  match s1 with
                  | String "." t =>
                      let '(f, scale, s2) := leadingFraction t 0 1 false in
                      (f, scale, s2, negb (String.length s2 =? String.length t)%nat)
                  | _ => (0, 1, s1, false)
                  end in
                if negb pre && negb post then bad_duration orig
                else
                  let '(u, s3) := take_unit s2 in
                  match unit_of u with
                  | None => bad_duration orig
                  | Some unit =>
                      if (2 ^ 63) / unit <? v then bad_duration orig
                      else
                        let v := v * unit + (if 0 <? f then f * unit / scale else 0) in
                        if 2 ^ 63 <? v then bad_duration orig
                        else if 2 ^ 63 <? d + v then bad_duration orig
                        else duration_terms n orig s3 (d + v)
                  end
            end
      end
  end.
Definition ParseDuration (s : string) : res goerr duration :=
  let '(neg, body) := match s with
                      | String "-" t => (true, t) | String "+" t => (false, t) | _ => (false, s)
                      end in
  if str_eqb body "0" then Ok 0
  else if empty_str body then bad_duration s
  else
    match duration_terms (S (String.length body)) s body 0 with
    | Err e => Err e
    | Ok d => if (neg : bool) then Ok (- d) else if 2 ^ 63 - 1 <? d then bad_duration s else Ok d
    end.

(** ** Bounds and examples *)
Lemma duration_terms_bound fuel orig s d r :
  d <= 2 ^ 63 -> duration_terms fuel orig s d = Ok r -> r <= 2 ^ 63.
Proof.
  revert s d. induction fuel as [|n IH]; intros s d Hd; cbn [duration_terms]; [done|].
  destruct s as [|c t]; [by intros [= <-]|]. destruct (negb _); [done|].
  destruct (leadingInt _ 0) as [[v s1]|]; [|done].
  destruct (match s1 with String "." _ => _ | _ => _ end) as [[[f scale] s2] post].
  destruct (_ && _); [done|]. destruct (take_unit s2) as [u s3]. destruct (unit_of u) as [unit|]; [|done].
  destruct (_ <? v); [done|]. destruct (2 ^ 63 <? v * unit + _); [done|].
  destruct (2 ^ 63 <? d + _) eqn:E; [done|]. apply IH. apply Z.ltb_ge in E. exact E.
Qed.
(** The fuel is enough: each term consumes bytes. *)
Lemma leadingInt_rest s x v r : leadingInt s x = Some (v, r) -> (String.length r <= String.length s)%nat.
Proof.
  revert x. induction s as [|c t IH]; intros x; cbn [leadingInt]; [by intros [= <- <-]|].
  destruct (digit_of c); [|by intros [= <- <-]]. destruct (_ <? x); [done|].
  destruct (_ <? 10 * x + z); [done|]. intros H%IH. cbn. lia.
Qed.
Lemma leadingFraction_rest s x sc o f sc' r :
  leadingFraction s x sc o = (f, sc', r) -> (String.length r <= String.length s)%nat.
Proof.
  revert x sc o. induction s as [|c t IH]; intros x sc o; cbn [leadingFraction]; [by intros [= <- <- <-]|].
  destruct (digit_of c); [|by intros [= <- <- <-]].
  destruct o; [|destruct (_ <? x); [|destruct (_ <? 10 * x + z)]]; intros H%IH; cbn; lia.
Qed.
Lemma take_unit_rest s u r : take_unit s = (u, r) -> String.length s = (String.length u + String.length r)%nat.
Proof.
  revert u r. induction s as [|c t IH]; intros u r; cbn [take_unit]; [by intros [= <- <-]|].
  destruct (_ || _); [by intros [= <- <-]|]. destruct (take_unit t) as [u' r'] eqn:E. intros [= <- <-].
  cbn. by rewrite (IH u' r').
Qed.
Lemma duration_fuel n m orig s d :
  (String.length s < n)%nat -> (String.length s < m)%nat -> duration_terms n orig s d = duration_terms m orig s d.
Proof.
  revert m s d. induction n as [|n IH]; intros m s d Hn Hm; [lia|]. destruct m as [|m]; [lia|].
  cbn [duration_terms]. destruct s as [|c t]; [done|]. destruct (negb _); [done|].
  destruct (leadingInt _ 0) as [[v s1]|] eqn:E1; [|done]. apply leadingInt_rest in E1.
  destruct (match s1 with String "." _ => _ | _ => _ end) as [[[f scale] s2] post] eqn:E2.
  assert (String.length s2 <= String.length s1)%nat as H2.
  { destruct s1 as [|c1 t1]; [by injection E2 as <- <- <- <-|].
    destruct (Ascii.eqb_spec c1 ".") as [->|Hc].
    - destruct (leadingFraction t1 0 1 false) as [[f' sc'] r'] eqn:E3. apply leadingFraction_rest in E3.
      injection E2 as <- <- <- <-. cbn. lia.
    - destruct c1 as [[] [] [] [] [] [] [] []]; try (injection E2 as <- <- <- <-; done). by destruct Hc. }
  destruct (_ && _); [done|]. destruct (take_unit s2) as [u s3] eqn:E3. apply take_unit_rest in E3.
  destruct (unit_of u) as [unit|] eqn:Eu; [|done]. destruct u as [|cu tu]; [by vm_compute in Eu|].
  destruct (_ <? v); [done|]. destruct (2 ^ 63 <? v * unit + _); [done|]. destruct (2 ^ 63 <? d + _); [done|].
  cbn in Hn, Hm, E1, E3. apply IH; lia.
Qed.

Example parse_hours : ParseDuration "1h30m" = Ok (90 * 60 * second).
Proof. reflexivity. Qed.
Example parse_fraction : ParseDuration "-1.5s" = Ok (- 1500000000).
Proof. reflexivity. Qed.
Example parse_days : ParseDuration "7d" = bad_duration "7d".
Proof. reflexivity. Qed.
