(* ===== verification/Open.v ===== *)
(** * Loading the library: instances, isolation, capabilities, the self-test
    (internal/native/open.go, capabilities.go, selftest.go, the opening and
    closing of instance.go and pool.go, and kc_open, kc_has, kc_close of shim.c)

    The dynamic loader and the file system are actions on an outside world [W].
    What the process holds - instances it opened and did not close, temporary
    files it made and did not remove - is read off a log of events. *)
From S2P Require Import Prelude Errors Provider Native Instance Text Strconv.

Import Instance.Instance.

Module Open.

(** ** Capabilities *)
(** Which slots of the library's function table are filled, by capability. *)
Definition table : Type := Z -> bool.
Definition capSignData := 1.
Definition capVerifyData := 2.
Definition capSignXML := 3.
Definition capVerifyXML := 4.
Definition capCertInfo := 5.
Definition capValidate := 6.
Definition capTSA := 7.
Definition capZipSign := 8.
Definition capWSSE := 9.
Definition capHashData := 10.
Definition capSignHash := 11.
Definition capExportCert := 12.

(** A version in a text: [\d+\.\d+\.\d+] from its first character, greedily. *)
Fixpoint take_digits (s : string) : string * string :=
  match s with
  | String c t => if byte_in 48 57 c then let (d, r) := take_digits t in (String c d, r) else (EmptyString, s)
  | EmptyString => (EmptyString, EmptyString)
  end.
Definition after_dot (s : string) : option string :=
  match s with String c t => if Ascii.eqb c "." then Some t else None | EmptyString => None end.
Definition version_here (s : string) : option string :=
  let (a, r) := take_digits s in
  if empty_str a then None else
  match after_dot r with
  | None => None
  | Some r =>
      let (b, r) := take_digits r in
      if empty_str b then None else
      match after_dot r with
      | None => None
      | Some r => let (c, _) := take_digits r in
                  if empty_str c then None else Some (a ++ "." ++ b ++ "." ++ c)%string
      end
  end.
(** [versionRe.FindString]: the leftmost match. *)
Fixpoint find_version (s : string) : string :=
  match version_here s with
  | Some v => v
  | None => match s with EmptyString => EmptyString | String _ t => find_version t end
  end.

(** ** Configuration, events *)
Record Config := mkConfig {
  WrapperPath : string; PoolSize : Z; cf_isolated : bool; IsolationDeps : list string; cf_version : string;
}.
Inductive event := Opened (id : Z) | Closed (id : Z) | TempMade (name : string) | TempRemoved (name : string).
Notation events := (list event).

(** Instances open after the events, temporary files left by them. *)
Definition open_step (live : gset Z) (e : event) : gset Z :=
  match e with Opened id => {[id]} ∪ live | Closed id => live ∖ {[id]} | _ => live end.
Definition live (l : events) : gset Z := fold_left open_step l ∅.
Definition temp_step (temps : gset string) (e : event) : gset string :=
  match e with TempMade n => {[n]} ∪ temps | TempRemoved n => temps ∖ {[n]} | _ => temps end.
Definition temps (l : events) : gset string := fold_left temp_step l ∅.
Definition happened (e : event) (l : events) : events * unit := (l ++ [e], tt).

Section Loading.
  Context {W L : Type} (lib : clib L).
  (** What a loaded image offers: its function table or why there is none, and
      the library's state. *)
Record image := mkImage { im_table : res string table; im_state : L }.
  (** [dlmopen(LM_ID_NEWLM)], [dlopen], [dlclose], the finalizers, [calloc], and
      [KC_Init] with the state it leaves. *)
  Variable dlmopen : string -> M W (option image).
  Variable dlopen : string -> M W (res string image).
  Variable dlclose finalize : image -> M W unit.
  Variable calloc : M W bool.
  Variable kc_init : L -> M W (L * Z).
  (** What lies in memory where the error buffer is put. *)
  Variable heap : memory.
  (** The file system of [prepareNamespaceWrapper]; [patchelf]. *)
  Variable EvalSymlinks : string -> M W (res goerr string).
  Variable ReadFile : string -> M W (res goerr string).
  Variable CreateTemp : M W (res goerr string).
  Variable WriteTemp : string -> string -> M W (option goerr).
  Variable CloseTemp : string -> M W (option goerr).
  Variable patchelf : list string -> M W (option goerr).

(** *** shim.c *)
(** [snprintf] into a block: at most [cap - 1] bytes and a NUL are written, but
    the answer is the length of the whole text. *)
Definition snprintf (cap : Z) (text : string) : cbuf :=
  let kept := Z.to_nat (Z.min (Z.of_nat (String.length text)) (cap - 1)) in
  mkBuf (Z.of_nat (String.length text))
    (fun i => if (i <? kept)%nat then default nul (String.get i text) else if (i =? kept)%nat then nul else heap i).

Record kc := mkKc { kc_image : image; kc_table : table }.
(** [kc_open]: an error text, or the instance and whether isolation failed. *)
Definition kc_open (path : string) (isolated : bool) (cap : Z) : M W (cbuf + kc * bool) :=
  (let* first := (if isolated then dlmopen path else mret None) in
   let fallback := isolated && (match first with None => true | Some _ => false end) in
   let* img := (match first with Some i => mret (Ok i) | None => dlopen path end) in
   match img with
   | Err e => mret (inl (snprintf cap ("load " ++ path ++ ": " ++ e)%string))
   | Ok img =>
       match im_table img with
       | Err e => let* _ := dlclose img in mret (inl (snprintf cap e))
       | Ok t =>
           let* got := calloc in
           if got then mret (inr (mkKc img t, fallback))
           else let* _ := dlclose img in mret (inl (snprintf cap "calloc failed"))
       end
   end)%m.
(** [kc_close]: only an isolated instance is torn down. *)
Definition kc_close (k : kc) (isolated : bool) : M W unit :=
  if isolated then (let* _ := finalize (kc_image k) in dlclose (kc_image k))%m else mret tt.
(** [kc_has]. *)
Definition kc_has (k : kc) (id : Z) : bool := if (1 <=? id) && (id <=? 12) then kc_table k id else false.

(** *** instance.go *)
Record inst := mkInst { in_id : Z; in_isolated : bool; in_kc : kc; in_state : L }.
Definition has (i : inst) (id : Z) : bool := kc_has (in_kc i) id.
(** [close]; a second one finds no instance. *)
Definition close (i : inst) : M (W * events) unit :=
  (let* l := mget snd in
   if bool_decide (in_id i ∈ live l) then
     let* _ := in_world (kc_close (in_kc i) (in_isolated i)) in
     in_store (happened (Closed (in_id i)))
   else mret tt)%m.

(** [openInstance]. *)
Definition errCap : Z := 4096.
Definition openInstance (id : Z) (path : string) (isolated : bool) : M (W * events) (res goerr inst) :=
  (let* r := in_world (kc_open path isolated errCap) in
   match r with
   | inl b => mret (Err (New ("kalkan: load instance " ++ dec_of_Z id ++ ": " ++ GoBytes (b_mem b) (b_len b))))
   | inr (k, fallback) =>
       let* _ := in_store (happened (Opened id)) in
       let* (st, rc) := in_world (kc_init (im_state (kc_image k))) in
       let i := mkInst id (isolated && negb fallback) k st in
       if u32 rc =? kcrOK then mret (Ok i)
       else let* _ := close i in mret (Err (failed lib "KC_Init" (u32 rc) st))
   end)%m.

(** *** capabilities.go *)
(** [versionFromPath]. *)
Definition versionFromPath (path : string) : M W string :=
  let m := find_version path in
  if negb (empty_str m) then mret m
  else (let* r := EvalSymlinks path in
        match r with
        | Ok resolved => let m := find_version resolved in mret (if empty_str m then "unknown"%string else m)
        | Err _ => mret "unknown"%string
        end)%m.
(** [detectCaps]. *)
Definition detectCaps (i : inst) (cfg : Config) : M W Capabilities :=
  (let* ver := (if empty_str (cf_version cfg) then versionFromPath (WrapperPath cfg) else mret (cf_version cfg)) in
   mret (mkCaps ver 0 (has i capSignData) (has i capVerifyData) (has i capSignXML) (has i capVerifyXML)
     (has i capCertInfo) (has i capValidate) (has i capTSA) (has i capZipSign) (has i capWSSE)
     (has i capHashData && has i capSignHash) (has i capExportCert)))%m.

(** *** open.go *)
Record Pool := mkPool { p_insts : list inst; p_caps : Capabilities; p_cleanup : list string; p_closed : bool }.
(** [newPool]. *)
Definition set_pool_size (c : Capabilities) (n : Z) : Capabilities :=
  mkCaps (c_version c) n (c_sign_cms c) (c_verify_cms c) (c_sign_xml c) (c_verify_xml c) (c_cert_info c) (c_validate c)
    (c_timestamp c) (c_zip_sign c) (c_wsse c) (c_hash c) (c_export_cert c).
Definition newPool (insts : list inst) (caps : Capabilities) : Pool :=
  mkPool insts (set_pool_size caps (Z.of_nat (length insts))) [] false.
(** [Isolated]. *)
Definition Isolated (p : Pool) : bool := 1 <? c_pool_size (p_caps p).

(** [closeAll], [removeAll]. *)
Definition closeAll (insts : list inst) : M (W * events) unit := mfold (fun _ i => close i) tt insts.
Definition removeAll (paths : list string) : M (W * events) unit :=
  mfold (fun _ p => in_store (happened (TempRemoved p))) tt paths.

(** [prepareNamespaceWrapper]. *)
Definition patch_args (deps : list string) (name : string) : list string :=
  List.concat (map (fun d => ["--add-needed"%string; d]) deps) ++ [name].
Definition prepareNamespaceWrapper (src : string) (deps : list string) : M (W * events) (res goerr string) :=
  (let* r := in_world (EvalSymlinks src) in
   let real := match r with Ok p => p | Err _ => src end in
   let* data := in_world (ReadFile real) in
   match data with
   | Err e => mret (Err e)
   | Ok data =>
       let* tmp := in_world CreateTemp in
       match tmp with
       | Err e => mret (Err e)
       | Ok name =>
           let* _ := in_store (happened (TempMade name)) in
           let* w := in_world (WriteTemp name data) in
           match w with
           | Some e =>
               let* _ := in_world (CloseTemp name) in
               let* _ := in_store (happened (TempRemoved name)) in mret (Err e)
           | None =>
               let* c := in_world (CloseTemp name) in
               match c with
               | Some e => let* _ := in_store (happened (TempRemoved name)) in mret (Err e)
               | None =>
                   let* out := in_world (patchelf (patch_args deps name)) in
                   match out with
                   | Some e =>
                       let* _ := in_store (happened (TempRemoved name)) in
                       mret (Err (Wrap "patchelf (required for isolation): " e))
                   | None => mret (Ok name)
                   end
               end
           end
       end
   end)%m.

(** The loop of [Open]: [n] instances from [id] on, added to those opened. *)
Fixpoint openAll (n : nat) (id : Z) (path : string) (isolate : bool) (insts : list inst)
    : M (W * events) (list inst * option goerr) :=
  match n with
  | O => mret (insts, None)
  | S n =>
      (let* r := openInstance id path isolate in
       match r with
       | Err e => mret (insts, Some e)
       | Ok i =>
           if isolate && negb (in_isolated i) then
             let* _ := close i in
             mret (insts, Some (New ("kalkan: instance " ++ dec_of_Z id ++ " isolation not achieved (dlmopen namespace did not " ++
               "assemble); PoolSize>1 is unsafe — check IsolationDeps/platform or set PoolSize=1")))
           else openAll n (id + 1) path isolate (insts ++ [i])
       end)%m
  end.

(** [Open]. *)
Definition pool_size (cfg : Config) : Z := if PoolSize cfg <? 1 then 1 else PoolSize cfg.
Definition Open (cfg : Config) : M (W * events) (res goerr Pool) :=
  if empty_str (WrapperPath cfg) then mret (Err (New "kalkan: WrapperPath not set (BYOL: path to libkalkancryptwr-64.so)")) else
  let size := pool_size cfg in
  if (1 <? size) && negb (cf_isolated cfg) then
    mret (Err (New "kalkan: PoolSize>1 requires Isolated=true (else instances share crypto-engine state)")) else
  let isolate := cf_isolated cfg && (1 <? size) in
  (let* prepared := (if isolate then
       let* r := prepareNamespaceWrapper (WrapperPath cfg) (IsolationDeps cfg) in
       match r with
       | Err e => mret (Err (Wrap "kalkan: prepare isolated wrapper: " e))
       | Ok pw => mret (Ok (pw, [pw]))
       end
     else mret (Ok (WrapperPath cfg, []))) in
   match prepared with
   | Err e => mret (Err e)
   | Ok (path, cleanup) =>
       let* (insts, err) := openAll (Z.to_nat size) 0 path isolate [] in
       match err, insts with
       | Some e, _ => let* _ := closeAll insts in let* _ := removeAll cleanup in mret (Err e)
       | None, [] => mlift Panic
       | None, i :: _ =>
           let* caps := in_world (detectCaps i cfg) in
           let p := newPool insts caps in
           mret (Ok (mkPool (p_insts p) (p_caps p) cleanup false))
       end
   end)%m.

(** [Pool.Close]: the workers close their instances, in some order. *)
Definition Close (order : list inst) (p : Pool) : M (W * events) Pool :=
  if p_closed p then mret p
  else (let* _ := closeAll order in
        let* _ := removeAll (p_cleanup p) in
        mret (mkPool (p_insts p) (p_caps p) (p_cleanup p) true))%m.

(** ** What the process holds *)
Lemma live_snoc l e : live (l ++ [e]) = open_step (live l) e.
Proof. unfold live. by rewrite fold_left_app. Qed.
Lemma temps_snoc l e : temps (l ++ [e]) = temp_step (temps l) e.
Proof. unfold temps. by rewrite fold_left_app. Qed.
Lemma happened_done e (w w' : W) l l' u :
  in_store (happened e) (w, l) = Done ((w', l'), u) -> w' = w /\ l' = l ++ [e].
Proof. intros [-> E]%in_store_done. by inversion E. Qed.

(** What an action does to what is held. *)
Definition holds {A} (m : M (W * events) A) (l : events) (Q : events -> A -> Prop) : Prop :=
  forall w w' l' a, m (w, l) = Done ((w', l'), a) -> Q l' a.
Lemma holds_bind {A B} (m : M (W * events) A) (f : A -> M (W * events) B) l Q R :
  holds m l R -> (forall l1 a, R l1 a -> holds (f a) l1 Q) -> holds (mbind_ m f) l Q.
Proof.
  intros Hm Hf w w' l' b H. apply mbind_done in H as ((w1 & l1) & a & H1 & H2). exact (Hf l1 a (Hm _ _ _ _ H1) _ _ _ _ H2).
Qed.
Lemma holds_ret {A} (a : A) l (Q : events -> A -> Prop) : Q l a -> holds (mret a) l Q.
Proof. intros HQ w w' l' b [E ->]%mret_done. by injection E as -> ->. Qed.
Lemma holds_world {A} (m : M W A) l : holds (in_world m) l (fun l' _ => l' = l).
Proof. intros w w' l' a H. apply in_world_done in H. naive_solver. Qed.
Lemma holds_event e l : holds (in_store (happened e)) l (fun l' _ => l' = l ++ [e]).
Proof. intros w w' l' a H. by apply happened_done in H as [_ ->]. Qed.
Lemma holds_weaken {A} (m : M (W * events) A) l (Q R : events -> A -> Prop) :
  holds m l R -> (forall l' a, R l' a -> Q l' a) -> holds m l Q.
Proof. unfold holds. eauto. Qed.
(** The world's actions hold nothing new. *)
Lemma holds_step {A B} (m : M W A) (f : A -> M (W * events) B) l Q :
  (forall a, holds (f a) l Q) -> holds (mbind_ (in_world m) f) l Q.
Proof. intros Hf. apply (holds_bind _ _ _ _ _ (holds_world m l)). intros l1 a ->. apply Hf. Qed.
Lemma holds_log {B} e (f : unit -> M (W * events) B) l Q :
  holds (f tt) (l ++ [e]) Q -> holds (mbind_ (in_store (happened e)) f) l Q.
Proof. intros Hf. apply (holds_bind _ _ _ _ _ (holds_event e l)). by intros l1 [] ->. Qed.

Lemma holds_get {B} (f : events -> M (W * events) B) l Q : holds (f l) l Q -> holds (mbind_ (mget snd) f) l Q.
Proof. intros Hf w w' l' b H. exact (Hf w w' l' b H). Qed.

Lemma close_holds i l : holds (close i) l (fun l' _ => live l' = live l ∖ {[in_id i]} /\ temps l' = temps l).
Proof.
  unfold close. apply holds_get. case_bool_decide as Hin.
  - apply holds_step. intros _. apply (holds_weaken _ _ _ _ (holds_event _ _)). intros l2 _ ->. by rewrite live_snoc, temps_snoc.
  - apply holds_ret. split; [set_solver|done].
Qed.
Lemma closeAll_holds insts l :
  holds (closeAll insts) l (fun l' _ => live l' = live l ∖ list_to_set (in_id <$> insts) /\ temps l' = temps l).
Proof.
  unfold closeAll. revert l. induction insts as [|i t IH]; intros l; simpl.
  - apply holds_ret. split; [set_solver|done].
  - apply (holds_bind _ _ _ _ _ (close_holds i l)). intros l1 [] [Hl Ht].
    apply (holds_weaken _ _ _ _ (IH l1)). intros l2 _ [-> ->]. rewrite Hl, Ht. split; [set_solver|done].
Qed.
Lemma removeAll_holds paths l :
  holds (removeAll paths) l (fun l' _ => live l' = live l /\ temps l' = temps l ∖ list_to_set paths).
Proof.
  unfold removeAll. revert l. induction paths as [|p t IH]; intros l; simpl.
  - apply holds_ret. split; [done|set_solver].
  - apply holds_log. apply (holds_weaken _ _ _ _ (IH _)). intros l2 _ [-> ->]. rewrite live_snoc, temps_snoc.
    split; [done|simpl; set_solver].
Qed.

Lemma openInstance_holds id path isolated l : id ∉ live l ->
  holds (openInstance id path isolated) l (fun l' r => temps l' = temps l /\
    match r with Ok i => in_id i = id /\ live l' = {[id]} ∪ live l | Err _ => live l' = live l end).
Proof.
  intros Hid. unfold openInstance. apply holds_step. intros [b|[k fb]]; [by apply holds_ret|].
  apply holds_log, holds_step. intros [st rc]. destruct (u32 rc =? kcrOK).
  - apply holds_ret. by rewrite live_snoc, temps_snoc.
  - apply (holds_bind _ _ _ _ _ (close_holds _ _)). intros l1 _ [Hl Ht]. apply holds_ret.
    rewrite Hl, Ht, live_snoc, temps_snoc. split; [done|simpl; set_solver].
Qed.

Lemma openAll_holds n id path isolate insts l :
  live l = list_to_set (in_id <$> insts) -> (forall i, i ∈ insts -> in_id i < id) ->
  (isolate = true -> Forall (fun i => in_isolated i = true) insts) ->
  holds (openAll n id path isolate insts) l (fun l' r => temps l' = temps l /\
    live l' = list_to_set (in_id <$> fst r) /\
    (snd r = None -> length (fst r) = (length insts + n)%nat /\
       (isolate = true -> Forall (fun i => in_isolated i = true) (fst r)))).
Proof.
  revert id insts l. induction n as [|n IH]; intros id insts l Hl Hid Hiso; simpl.
  - apply holds_ret. split; [done|]. split; [done|]. intros _. split; [simpl; lia|done].
  - assert (id ∉ live l) as Hfresh.
    { rewrite Hl, elem_of_list_to_set, list_elem_of_fmap. intros (i & -> & Hi). specialize (Hid i Hi). lia. }
    apply (holds_bind _ _ _ _ _ (openInstance_holds id path isolate l Hfresh)).
    intros l1 [i|e] [Ht Hr]; [destruct Hr as [Hi Hl1]|].
    2:{ apply holds_ret. rewrite Ht, Hr. done. }
    destruct (isolate && negb (in_isolated i)) eqn:Ei.
    + apply (holds_bind _ _ _ _ _ (close_holds i l1)). intros l2 _ [Hl2 Ht2]. apply holds_ret.
      rewrite Ht2, Hl2, Hl1, Hi. split; [done|]. split; [rewrite Hl in *; set_solver|done].
    + apply (holds_weaken _ _ _ _ (IH (id + 1) (insts ++ [i]) l1 ltac:(rewrite fmap_app, list_to_set_app_L, Hl1, Hl; simpl; rewrite Hi; set_solver)
        ltac:(intros j [Hj|Hj]%elem_of_app; [specialize (Hid j Hj)|apply list_elem_of_singleton in Hj as ->]; lia)
        ltac:(intros ->; apply Forall_app; split; [by apply Hiso|]; simpl in Ei; boolp; by constructor))).
      intros l2 r (Ht2 & Hl2 & Hn). split; [congruence|]. split; [done|]. intros H. destruct (Hn H) as [Hlen Hall].
      split; [|done]. rewrite Hlen, length_app. simpl. lia.
Qed.

Lemma prepare_holds src deps l : temps l = ∅ ->
  holds (prepareNamespaceWrapper src deps) l (fun l' r => live l' = live l /\
    temps l' = match r with Ok name => {[name]} | Err _ => ∅ end).
Proof.
  intros Hl. unfold prepareNamespaceWrapper. apply holds_step. intros r. apply holds_step.
  intros [data|e]; [|by apply holds_ret]. apply holds_step. intros [name|e]; [|by apply holds_ret].
  apply holds_log, holds_step. intros [e|].
  - apply holds_step. intros _. apply holds_log, holds_ret. rewrite !live_snoc, !temps_snoc, Hl. split; [done|simpl; set_solver].
  - apply holds_step. intros [e|].
    + apply holds_log, holds_ret. rewrite !live_snoc, !temps_snoc, Hl. split; [done|simpl; set_solver].
    + apply holds_step. intros [e|].
      * apply holds_log, holds_ret. rewrite !live_snoc, !temps_snoc, Hl. split; [done|simpl; set_solver].
      * apply holds_ret. rewrite live_snoc, temps_snoc, Hl. split; [done|simpl; set_solver].
Qed.

Lemma open_holds cfg : holds (Open cfg) [] (fun l r =>
    match r with
    | Err _ => live l = ∅ /\ temps l = ∅
    | Ok p => live l = list_to_set (in_id <$> p_insts p) /\ temps l = list_to_set (p_cleanup p) /\
        p_closed p = false /\ Z.of_nat (length (p_insts p)) = pool_size cfg /\ c_pool_size (p_caps p) = pool_size cfg /\
        (1 < pool_size cfg -> Forall (fun i => in_isolated i = true) (p_insts p))
    end).
Proof.
  assert (1 <= pool_size cfg) as Hsize by (unfold pool_size; destruct (_ <? 1) eqn:E; boolp; lia).
  unfold Open. destruct (empty_str _); [by apply holds_ret|].
  destruct ((1 <? pool_size cfg) && negb (cf_isolated cfg)) eqn:Esafe; [by apply holds_ret|].
  set (isolate := cf_isolated cfg && (1 <? pool_size cfg)).
  eapply (holds_bind _ _ _ _ (fun l1 r => live l1 = ∅ /\
    temps l1 = match r with Ok (_, cleanup) => list_to_set cleanup | Err _ => ∅ end)).
  - destruct isolate; [|by apply holds_ret].
    apply (holds_bind _ _ _ _ _ (prepare_holds _ _ [] eq_refl)). intros l1 [pw|e] [Hl Ht]; apply holds_ret; [|done].
    split; [done|]. rewrite Ht. simpl. set_solver.
  - intros l1 [[path cleanup]|e] [Hl Ht]; [|by apply holds_ret].
    apply (holds_bind _ _ _ _ _ (openAll_holds (Z.to_nat (pool_size cfg)) 0 path isolate [] l1 Hl
      ltac:(by intros i Hi%elem_of_nil) ltac:(by constructor))).
    intros l2 [insts [e|]] (Ht2 & Hl2 & Hn); cbn [fst snd] in *.
    + apply (holds_bind _ _ _ _ _ (closeAll_holds insts l2)). intros l3 _ [Hl3 Ht3].
      apply (holds_bind _ _ _ _ _ (removeAll_holds cleanup l3)). intros l4 _ [Hl4 Ht4]. apply holds_ret.
      rewrite Hl4, Ht4, Hl3, Ht3, Ht2, Hl2, Ht. split; set_solver.
    + destruct (Hn eq_refl) as [Hlen Hall]. destruct insts as [|i t]; [simpl in Hlen; lia|].
      apply holds_step. intros caps. apply holds_ret. cbn [newPool p_insts p_caps p_cleanup p_closed set_pool_size c_pool_size].
      rewrite Hlen. simpl length. split; [done|]. split; [by rewrite Ht2, Ht|]. split; [done|]. split; [lia|]. split; [lia|].
      intros Hbig. apply Hall. unfold isolate. rewrite (proj2 (Z.ltb_lt _ _) Hbig) in *. simpl in Esafe. boolp.
      by rewrite Esafe.
Qed.

(** Opening the pool is all or nothing: with an error no instance stays open
    and no temporary file is left; without one the pool has exactly the
    instances that are open, as many as were asked for, each isolated when there
    are several, and knows the one file to remove. *)
Theorem open_all_or_nothing cfg w w' l r :
  Open cfg (w, []) = Done ((w', l), r) ->
  match r with
  | Err _ => live l = ∅ /\ temps l = ∅
  | Ok p =>
      live l = list_to_set (in_id <$> p_insts p) /\ temps l = list_to_set (p_cleanup p) /\
      p_closed p = false /\ Z.of_nat (length (p_insts p)) = pool_size cfg /\ c_pool_size (p_caps p) = pool_size cfg /\
      (1 < pool_size cfg -> Forall (fun i => in_isolated i = true) (p_insts p))
  end.
Proof. intros H. exact (open_holds cfg _ _ _ _ H). Qed.

(** Closing the pool, in whatever order its workers stop, leaves nothing
    behind; closing it again does nothing. *)
Theorem close_releases cfg w w1 l1 p order w2 l2 p2 :
  Open cfg (w, []) = Done ((w1, l1), Ok p) -> order ≡ₚ p_insts p ->
  Close order p (w1, l1) = Done ((w2, l2), p2) ->
  live l2 = ∅ /\ temps l2 = ∅ /\ Close order p2 (w2, l2) = Done ((w2, l2), p2).
Proof.
  intros Ho Hp Hc. assert (live l1 = list_to_set (in_id <$> p_insts p) /\ temps l1 = list_to_set (p_cleanup p) /\
    p_closed p = false) as (Hl & Ht & Hcl) by (pose proof (open_holds cfg _ _ _ _ Ho); naive_solver).
  assert (holds (Close order p) l1 (fun l2 p2 => live l2 = ∅ /\ temps l2 = ∅ /\ p_closed p2 = true)) as Hh.
  { unfold Close. rewrite Hcl. apply (holds_bind _ _ _ _ _ (closeAll_holds order l1)). intros l3 _ [Hl3 Ht3].
    apply (holds_bind _ _ _ _ _ (removeAll_holds (p_cleanup p) l3)). intros l4 _ [Hl4 Ht4]. apply holds_ret.
    rewrite Hl4, Ht4, Hl3, Ht3, Hl, Ht, Hp. split; [set_solver|]. split; [set_solver|done]. }
  destruct (Hh _ _ _ _ Hc) as (Hl2 & Ht2 & Hc2). split; [done|]. split; [done|]. unfold Close. by rewrite Hc2.
Qed.
End Loading.

(** ** The self-test (selftest.go) *)
Record SelfTestResult := mkSelfTest { st_ran : bool; st_ok : bool; st_algorithm : string; st_detail : string }.
Definition selfTestVector : string := "qoltanba self-test vector v1".

(** [bytes.TrimRight(got, "\x00")]. *)
Fixpoint trim_nuls (s : string) : string :=
  match s with
  | EmptyString => EmptyString
  | String c t => match trim_nuls t with
                  | EmptyString => if Ascii.eqb c nul then EmptyString else String c EmptyString
                  | u => String c u
                  end
  end.
(** [hex.DecodeString]. *)
Definition hex_val (c : ascii) : option Z :=
  let n := byte_val c in
  if (48 <=? n) && (n <=? 57) then Some (n - 48)
  else if (65 <=? n) && (n <=? 70) then Some (n - 55)
  else if (97 <=? n) && (n <=? 102) then Some (n - 87) else None.
Fixpoint hex_decode (s : string) : option string :=
  match s with
  | EmptyString => Some EmptyString
  | String _ EmptyString => None
  | String a (String b t) =>
      match hex_val a, hex_val b, hex_decode t with
      | Some x, Some y, Some u => Some (String (byte_of (x * 16 + y)) u)
      | _, _, _ => None
      end
  end.

Section SelfTest.
  Context {L : Type} (inst : kalkan L) (has : Z -> bool).
  Variable sha256 : string -> string.
  (** [base64.StdEncoding.DecodeString]. *)
  Variable b64_std : string -> option string.

Definition decodes_to (dec : string -> option string) (s want : string) : bool :=
  match dec s with Some d => str_eqb d want | None => false end.
(** [digestMatches]. *)
Definition digestMatches (got want : string) : bool :=
  if str_eqb got want then true
  else let trimmed := trim_nuls got in
       if str_eqb trimmed want then true
       else let s := trim_space trimmed in decodes_to hex_decode s want || decodes_to b64_std s want.

(** [SelfTest]. *)
Definition selfTest_job : job L SelfTestResult := fun s =>
  if negb (has capHashData) then
    (s, mkSelfTest false false "SHA256"
          "HashData is not available in this library version; correctness could not be proven", None)
  else match i_hashData inst s "SHA256" kcHashSHA256 selfTestVector with
       | (s, Err herr) => (s, mkSelfTest true false "SHA256" ("HashData call failed: " ++ err_text herr), None)
       | (s, Ok out) =>
           (s, if digestMatches out (sha256 selfTestVector)
               then mkSelfTest true true "SHA256" "HashData/SHA256 matches the reference digest"
               else mkSelfTest true false "SHA256"
                      ("HashData/SHA256 mismatch: library returned " ++ dec_of_Z (Z.of_nat (String.length out)) ++
                       " bytes that do not match the expected SHA-256"), None)
       end.
Definition SelfTest (a : arrival) (s : L) : L * SelfTestResult * option goerr :=
  submit a (mkSelfTest false false "SHA256" EmptyString) selfTest_job s.

(** A self-test that passed proves a computation: the library was asked for the
    SHA-256 of the vector and what it returned is the reference digest, raw, with
    NULs behind it, or as text. *)
Theorem selftest_sound a s s' r e :
  SelfTest a s = (s', r, e) -> st_ok r = true ->
  st_ran r = true /\ has capHashData = true /\ a_pick a = Picked /\
  exists out, i_hashData inst s "SHA256" kcHashSHA256 selfTestVector = (s', Ok out) /\
    let want := sha256 selfTestVector in
    out = want \/ trim_nuls out = want \/
    hex_decode (trim_space (trim_nuls out)) = Some want \/ b64_std (trim_space (trim_nuls out)) = Some want.
Proof.
  unfold SelfTest, submit. intros H Hok. destruct (a_closed a); [by simplify_eq/=|].
  destruct (a_pick a) eqn:Ep; [|by simplify_eq/=|by simplify_eq/=].
  destruct (selfTest_job s) as [[s1 r1] e1] eqn:Ej. assert (s1 = s' /\ r1 = r) as [-> ->] by (destruct e1; injection H as <- <- _; split; reflexivity).
  unfold selfTest_job in Ej. destruct (has capHashData); [|by simplify_eq/=]. cbn [negb] in Ej.
  destruct (i_hashData inst s _ _ _) as [s2 [out|herr]]; [|by simplify_eq/=].
  destruct (digestMatches _ _) eqn:Ed; simplify_eq/=.
  split; [done|]. split; [done|]. split; [done|]. exists out. split; [done|]. revert Ed. unfold digestMatches, decodes_to.
  destruct (str_eqb out _) eqn:E1; [left; by apply str_eqb_eq|].
  destruct (str_eqb (trim_nuls out) _) eqn:E2; [right; left; by apply str_eqb_eq|].
  intros [H|H]%orb_true_iff; [destruct (hex_decode _) as [d|]|destruct (b64_std _) as [d|]]; try done;
    apply str_eqb_eq in H as ->; auto.
Qed.
(** Only a library that was there and did not deliver fails it. *)
Lemma selftest_failed a s s' r e :
  SelfTest a s = (s', r, e) -> st_ran r = true -> st_ok r = false ->
  match snd (i_hashData inst s "SHA256" kcHashSHA256 selfTestVector) with
  | Ok out => digestMatches out (sha256 selfTestVector) = false
  | Err _ => True
  end.
Proof.
  unfold SelfTest, submit. intros H Hran Hok. destruct (a_closed a); [by simplify_eq/=|].
  destruct (a_pick a); [|by simplify_eq/=|by simplify_eq/=].
  destruct (selfTest_job s) as [[s1 r1] e1] eqn:Ej. assert (r1 = r) as -> by (destruct e1; injection H as _ <- _; reflexivity).
  unfold selfTest_job in Ej. destruct (has capHashData); [|by simplify_eq/=]. cbn [negb] in Ej.
  destruct (i_hashData inst s _ _ _) as [s2 [out|herr]]; [|done]. cbn [snd].
  by destruct (digestMatches out _); simplify_eq/=.
Qed.
End SelfTest.

Lemma read_get m from n k : (k < n)%nat -> String.get k (read m from n) = Some (m (from + k)%nat).
Proof.
  revert from k. induction n as [|n IH]; intros from [|k] Hk; simpl; try lia.
  - by rewrite Nat.add_0_r.
  - rewrite IH by lia. by rewrite Nat.add_succ_comm.
Qed.
(** The message of a failed load is read with the length of the whole text: of
    what does not fit into the block, the bytes come from the memory behind it. *)
Lemma load_error_overread heap cap text (k : nat) :
  0 < cap -> cap <= Z.of_nat k < Z.of_nat (String.length text) ->
  let b := snprintf heap cap text in String.get k (GoBytes (b_mem b) (b_len b)) = Some (heap k).
Proof.
  intros Hc Hk b. unfold b, GoBytes, snprintf. cbn [b_mem b_len]. rewrite Nat2Z.id, read_get by lia.
  rewrite Nat.add_0_l. destruct (Nat.ltb_spec k (Z.to_nat (Z.min (Z.of_nat (String.length text)) (cap - 1)))); [lia|].
  destruct (Nat.eqb_spec k (Z.to_nat (Z.min (Z.of_nat (String.length text)) (cap - 1)))); [lia|]. done.
Qed.

(** The digest in upper-case hexadecimal passes. *)
Lemma hex_roundtrip s : hex_decode (hex_upper s) = Some s.
Proof.
  induction s as [|c t IH]; [done|]. cbn [hex_upper hex_decode]. rewrite IH. by destruct c as [[] [] [] [] [] [] [] []].
Qed.

(** ** A loader in memory *)
Definition lab_image (slots : table) : image (L := unit) := mkImage (Ok slots) tt.
Definition lab_open (dlmopen : string -> M Z (option (image (L := unit)))) (cfg : Config) :=
  Open (lab_lib (lab_buf "bad") (lab_buf "")) dlmopen (fun _ => mret (Ok (lab_image (fun _ => true))))
    (fun _ => mret tt) (fun _ => mret tt) (mret true) (fun s => mret (s, 0)) (fun _ => nul)
    (fun p => mret (Ok p)) (fun _ => mret (Ok "ELF"%string)) (mret (Ok "/tmp/kkwr-ns-1.so"%string))
    (fun _ _ => mret None) (fun _ => mret None) (fun _ => mret None) cfg.
Definition lab_cfg : Config := mkConfig "/opt/libkalkancryptwr-64.so.2.0.13" 2 true ["/opt/libiconv.so"%string] "".
(** The loader gives a namespace as often as it can. *)
Definition lab_namespaces (n : Z) : string -> M Z (option (image (L := unit))) := fun _ w =>
  Done (w + 1, if w <? n then Some (lab_image (fun _ => true)) else None).

Definition lab_pool : Pool (L := unit) :=
  mkPool [mkInst 0 true (mkKc (lab_image (fun _ => true)) (fun _ => true)) tt;
          mkInst 1 true (mkKc (lab_image (fun _ => true)) (fun _ => true)) tt]
    (mkCaps "2.0.13" 2 true true true true true true true true true true true) ["/tmp/kkwr-ns-1.so"%string] false.
Definition lab_log : events := [TempMade "/tmp/kkwr-ns-1.so"; Opened 0; Opened 1].
Lemma lab_opened : lab_open (lab_namespaces 2) lab_cfg (0, []) = Done ((2, lab_log), Ok lab_pool).
Proof. vm_compute. reflexivity. Qed.

Lemma open_all_or_nothing_witness : live lab_log = list_to_set (in_id <$> p_insts lab_pool).
Proof. exact (proj1 (open_all_or_nothing _ _ _ _ _ _ _ _ _ _ _ _ _ _ lab_cfg 0 2 lab_log (Ok lab_pool) lab_opened)). Defined.
Lemma close_releases_witness :
  live (lab_log ++ [Closed 1; Closed 0; TempRemoved "/tmp/kkwr-ns-1.so"]) = ∅.
Proof.
  refine (proj1 (close_releases _ _ _ _ _ _ _ _ _ _ _ _ _ _ lab_cfg 0 2 lab_log lab_pool (rev (p_insts lab_pool)) 2 _
    (mkPool (p_insts lab_pool) (p_caps lab_pool) (p_cleanup lab_pool) true) lab_opened _ _)).
  - symmetry. apply Permutation_rev.
  - vm_compute. reflexivity.
Defined.
(** Only one namespace assembles: the first instance and the file are gone. *)
Example second_namespace_fails :
  match lab_open (lab_namespaces 1) lab_cfg (0, []) with
  | Done ((_, l), Err _) => l = [TempMade "/tmp/kkwr-ns-1.so"; Opened 0; Opened 1; Closed 1; Closed 0; TempRemoved "/tmp/kkwr-ns-1.so"]%string
  | _ => False
  end.
Proof. vm_compute. reflexivity. Qed.

Lemma selftest_sound_witness :
  st_ran (mkSelfTest true true "SHA256" "HashData/SHA256 matches the reference digest") = true.
Proof.
  exact (proj1 (selftest_sound (instance (lab_lib (lab_buf "bad") (lab_buf ""))) (fun _ => true) (fun _ => "digest"%string)
    (fun _ => None) (Arrival false Picked None) tt tt _ None ltac:(vm_compute; reflexivity) eq_refl)).
Defined.
Example version_of_name : find_version "libkalkancryptwr-64.so.2.0.13" = "2.0.13"%string /\ find_version "lib64.so.2.0" = ""%string.
Proof. vm_compute. done. Qed.
End Open.
