(* ===== verification/Cms.v ===== *)
(** * CMS containers (internal/cms/cms.go, ltv.go)

    What is read out of a SignedData beside the library - signers, timestamp
    tokens, embedded evidence - and the rewriting that embeds evidence for the
    long term. The decoder is that of Asn1; reading a UTCTime or GeneralizedTime
    text is a parameter.

    [container] is the syntax of a SignedData and [encode] its DER: the readers
    are proved to read what [encode] wrote, and [AddLTV] to implement [annotate]
    on the syntax. *)
From S2P Require Import Prelude Errors Asn1.

Definition oidSignedData : oid := [1; 2; 840; 113549; 1; 7; 2].
Definition oidSigningTime : oid := [1; 2; 840; 113549; 1; 9; 5].
Definition oidTimestampToken : oid := [1; 2; 840; 113549; 1; 9; 16; 2; 14].
Definition oidTSTInfo : oid := [1; 2; 840; 113549; 1; 9; 16; 1; 4].
Definition oidRevocationValues : oid := [1; 2; 840; 113549; 1; 9; 16; 2; 24].
Definition oidCertificateValues : oid := [1; 2; 840; 113549; 1; 9; 16; 2; 23].
(** [ObjectIdentifier.Equal]. *)
Definition oid_eqb (a b : oid) : bool := bool_decide (a = b).

(** [Timestamp] and [SignerInfo]. *)
Record cms_timestamp := mkCmsTimestamp {
  ct_version : Z; ct_policy : string; ct_serial : string; ct_gen_time : option time;
  ct_hash_oid : string; ct_hash : string; ct_tsa : string; ct_raw : string;
}.
Record cms_signer := mkCmsSigner {
  cs_serial : string; cs_skid : string; cs_sig_alg : string; cs_digest_alg : string;
  cs_signing_time : option time; cs_timestamp : option cms_timestamp; cs_signature : string;
}.
Record Evidence := mkEvidence { ev_ocsp : list string; ev_crls : list string; ev_certs : list string }.
(** [Evidence.Empty]. *)
Definition ev_empty (e : Evidence) : bool :=
  match ev_ocsp e, ev_crls e, ev_certs e with [], [], [] => true | _, _, _ => false end.

(** ** ASN.1 shapes *)
Open Scope res_scope.
Definition plain : fieldParameters := no_params.
Definition optional_tag (n : Z) : fieldParameters := mkParams true false (Some n) false.
Definition explicit_tag (n : Z) : fieldParameters := mkParams true true (Some n) false.
Definition any_optional : fieldParameters := mkParams true false None false.

Record contentInfo := mkContentInfo { ci_type : oid; ci_content : RawValue }.
Definition contentInfo_type : gotype contentInfo := struct_type (fun b =>
  let? (t, b) := parseField oid_type [] plain b in
  let? (c, _) := parseField raw_type zero_raw (explicit_tag 0) b in
  Ok (mkContentInfo t c)).

(** [encapContentInfo] has the same shape. *)
Definition encapContentInfo_type : gotype contentInfo := contentInfo_type.

Definition algorithmIdentifier_type : gotype (oid * RawValue) := struct_type (fun b =>
  let? (a, b) := parseField oid_type [] plain b in
  let? (p, _) := parseField raw_type zero_raw any_optional b in
  Ok (a, p)).
Definition zero_alg : oid * RawValue := ([], zero_raw).

Definition issuerAndSerial_type : gotype (option Z) := struct_type (fun b =>
  let? (_, b) := parseField raw_type zero_raw plain b in
  let? (n, _) := parseField bigint_type None plain b in
  Ok n).

Record signerInfoRaw := mkSignerInfoRaw {
  si_version : Z; si_sid : RawValue; si_digest : oid * RawValue; si_signed : RawValue;
  si_sig_alg : oid * RawValue; si_signature : string; si_unsigned : RawValue;
}.
Definition zero_signer : signerInfoRaw :=
  mkSignerInfoRaw 0 zero_raw zero_alg zero_raw zero_alg "" zero_raw.
Definition signerInfo_type : gotype signerInfoRaw := struct_type (fun b =>
  let? (v, b) := parseField int_type 0 plain b in
  let? (sid, b) := parseField raw_type zero_raw plain b in
  let? (da, b) := parseField algorithmIdentifier_type zero_alg plain b in
  let? (sa, b) := parseField raw_type zero_raw (optional_tag 0) b in
  let? (al, b) := parseField algorithmIdentifier_type zero_alg plain b in
  let? (sg, b) := parseField bytes_type "" plain b in
  let? (ua, _) := parseField raw_type zero_raw (optional_tag 1) b in
  Ok (mkSignerInfoRaw v sid da sa al sg ua)).

Record signedDataRaw := mkSignedData {
  sd_version : Z; sd_digests : RawValue; sd_encap : RawValue; sd_certs : RawValue; sd_crls : RawValue;
  sd_signers : list signerInfoRaw;
}.
Definition set_params : fieldParameters := mkParams false false None true.
Definition signedData_type : gotype signedDataRaw := struct_type (fun b =>
  let? (v, b) := parseField int_type 0 plain b in
  let? (da, b) := parseField raw_type zero_raw plain b in
  let? (ec, b) := parseField raw_type zero_raw plain b in
  let? (ce, b) := parseField raw_type zero_raw (optional_tag 0) b in
  let? (cr, b) := parseField raw_type zero_raw (optional_tag 1) b in
  let? (si, _) := parseField (slice_type signerInfo_type zero_signer) [] set_params b in
  Ok (mkSignedData v da ec ce cr si)).
Definition zero_sd : signedDataRaw := mkSignedData 0 zero_raw zero_raw zero_raw zero_raw [].

Record attribute := mkAttribute { at_type : oid; at_values : RawValue }.
Definition zero_attribute : attribute := mkAttribute [] zero_raw.
Definition attribute_type : gotype attribute := struct_type (fun b =>
  let? (t, b) := parseField oid_type [] plain b in
  let? (v, _) := parseField raw_type zero_raw set_params b in
  Ok (mkAttribute t v)).

(** ** cms.go *)

(** [parseSignedData]. *)
Definition parseSignedData (der : string) : res goerr signedDataRaw :=
  match Unmarshal contentInfo_type (mkContentInfo [] zero_raw) der with
  | Err e => Err (Wrap "cms: contentInfo: " e)
  | Ok (ci, _) =>
      if negb (oid_eqb (ci_type ci) oidSignedData)
      then Err (New ("cms: not signedData (" ++ oid_string (ci_type ci) ++ ")"))
      else match Unmarshal signedData_type zero_sd (rv_bytes (ci_content ci)) with
           | Ok (sd, _) => Ok sd
           | Err _ => match Unmarshal signedData_type zero_sd (rv_full (ci_content ci)) with
                      | Ok (sd, _) => Ok sd
                      | Err e => Err (Wrap "cms: signedData: " e)
                      end
           end
  end.

(** [parseAttributes]: the members up to the first that does not parse. *)
Fixpoint attributes_loop (fuel : nat) (b : string) : list attribute :=
  match fuel with
  | O => []
  | S f =>
      if empty_str b then []
      else match Unmarshal attribute_type zero_attribute b with
           | Err _ => []
           | Ok (a, rest) => a :: attributes_loop f rest
           end
  end.
Definition parseAttributes (raw : RawValue) : list attribute :=
  attributes_loop (String.length (rv_bytes raw)) (rv_bytes raw).

(** [hexInt]: [big.Int.Bytes] is the magnitude, without leading zeros. *)
Definition bigint_bytes (z : Z) : string :=
  let m := Z.abs z in if m =? 0 then ""%string else appendLength (Z.to_nat (Z.log2 m / 8 + 1)) m.
Definition hexInt (n : option Z) : string :=
  match n with None => ""%string | Some z => hex_upper (bigint_bytes z) end.

(** [fillSID]: the serial number and the key identifier. *)
Definition fillSID (sid : RawValue) : string * string :=
  if (rv_class sid =? ClassContextSpecific) && (rv_tag sid =? 0)
  then (""%string, hex_upper (rv_bytes sid))
  else match Unmarshal issuerAndSerial_type None (rv_full sid) with
       | Ok (n, _) => (hexInt n, ""%string)
       | Err _ => (""%string, ""%string)
       end.

(** [printableText]. *)
Fixpoint printable (s : string) : string :=
  match s with
  | EmptyString => EmptyString
  | String c t => if (32 <=? z_of c) && (z_of c <? 127) then String c (printable t) else printable t
  end.
Definition printableText (s : string) : string := trim_space (printable s).

Section Times.
  (** The UTCTime and GeneralizedTime formats. *)
  Variable parse_utc parse_generalized : string -> option time.

Definition time_type : gotype time :=
  mkGoType false TagUTCTime false false (fun u _ inner _ =>
    match (if u =? TagUTCTime then parse_utc inner else parse_generalized inner) with
    | Some t => Ok t
    | None => Err (New "parsing time")
    end).

(** [parseTime]. *)
Definition parseTime (b : string) : option time :=
  match Unmarshal time_type time_zero b with Ok (t, _) => Some t | Err _ => None end.

(** [tstInfoRaw]. An [optional] raw value without a tag takes whatever element
    comes next. *)
Record tstInfoRaw := mkTstInfo {
  tst_version : Z; tst_policy : oid; tst_imprint : (oid * RawValue) * string; tst_serial : option Z;
  tst_gen_time : time; tst_accuracy : RawValue; tst_ordering : bool; tst_nonce : option Z;
  tst_tsa : RawValue; tst_ext : RawValue;
}.
Definition messageImprint_type : gotype ((oid * RawValue) * string) := struct_type (fun b =>
  let? (a, b) := parseField algorithmIdentifier_type zero_alg plain b in
  let? (h, _) := parseField bytes_type "" plain b in
  Ok (a, h)).
Definition tstInfo_type : gotype tstInfoRaw := struct_type (fun b =>
  let? (v, b) := parseField int_type 0 plain b in
  let? (po, b) := parseField oid_type [] plain b in
  let? (mi, b) := parseField messageImprint_type (zero_alg, ""%string) plain b in
  let? (sn, b) := parseField bigint_type None plain b in
  let? (gt, b) := parseField time_type time_zero plain b in
  let? (ac, b) := parseField raw_type zero_raw any_optional b in
  let? (od, b) := parseField bool_type false any_optional b in
  let? (no, b) := parseField bigint_type None any_optional b in
  let? (ts, b) := parseField raw_type zero_raw (explicit_tag 0) b in
  let? (ex, _) := parseField raw_type zero_raw (optional_tag 1) b in
  Ok (mkTstInfo v po mi sn gt ac od no ts ex)).
Definition zero_tst : tstInfoRaw :=
  mkTstInfo 0 [] (zero_alg, ""%string) None time_zero zero_raw false None zero_raw zero_raw.

(** [ParseTimestampToken]. *)
Definition ParseTimestampToken (der : string) : res goerr cms_timestamp :=
  let? sd := parseSignedData der in
  match Unmarshal encapContentInfo_type (mkContentInfo [] zero_raw) (rv_full (sd_encap sd)) with
  | Err e => Err (Wrap "cms: encapContentInfo: " e)
  | Ok (eci, _) =>
      if negb (oid_eqb (ci_type eci) oidTSTInfo) then Err (New "cms: not a TSTInfo token")
      else match Unmarshal bytes_type "" (rv_bytes (ci_content eci)) with
           | Err e => Err (Wrap "cms: tst octet: " e)
           | Ok (octet, _) =>
               match Unmarshal tstInfo_type zero_tst octet with
               | Err e => Err (Wrap "cms: TSTInfo: " e)
               | Ok (tst, _) =>
                   Ok (mkCmsTimestamp (tst_version tst) (oid_string (tst_policy tst))
                         (hexInt (tst_serial tst)) (Some (tst_gen_time tst))
                         (oid_string (fst (fst (tst_imprint tst)))) (snd (tst_imprint tst))
                         (printableText (rv_bytes (tst_tsa tst))) der)
               end
           end
  end.

(** The last attribute of a type whose value reads wins. *)
Definition last_attribute {A} (ty : oid) (read : string -> option A) (attrs : list attribute) : option A :=
  fold_left (fun acc a =>
    if oid_eqb (at_type a) ty then
      match read (rv_bytes (at_values a)) with Some x => Some x | None => acc end
    else acc) attrs None.

(** [ParseSigners]: one signer, and the container. *)
Definition signer_facts (si : signerInfoRaw) : cms_signer :=
  let (serial, skid) := fillSID (si_sid si) in
  mkCmsSigner serial skid (oid_string (fst (si_sig_alg si))) (oid_string (fst (si_digest si)))
    (last_attribute oidSigningTime parseTime (parseAttributes (si_signed si)))
    (last_attribute oidTimestampToken (fun b => res_value (ParseTimestampToken b))
       (parseAttributes (si_unsigned si)))
    (si_signature si).
Definition ParseSigners (der : string) : res goerr (list cms_signer) :=
  let? sd := parseSignedData der in Ok (map signer_facts (sd_signers sd)).
End Times.

(** ** ltv.go *)

(** [encodeRaw]. *)
Definition encodeRaw (class tag : Z) (compound : bool) (body : string) : string :=
  marshal_raw (mkRaw class tag compound body "").

(** [splitDER]: the elements up to the first that does not parse. *)
Fixpoint split_loop (fuel : nat) (rest : string) : list string :=
  match fuel with
  | O => []
  | S f =>
      if empty_str rest then []
      else match Unmarshal raw_type zero_raw rest with
           | Err _ => []
           | Ok (v, next) => rv_full v :: split_loop f next
           end
  end.
Definition splitDER (b : string) : list string := split_loop (String.length b) b.

(** [parseAttributeList]. *)
Fixpoint attribute_list_loop (fuel : nat) (rest : string) : res goerr (list attribute) :=
  if empty_str rest then Ok []
  else match fuel with
  | O => Err (New "cms: parse attribute")
  | S f =>
      match Unmarshal attribute_type zero_attribute rest with
      | Err e => Err (Wrap "cms: parse attribute: " e)
      | Ok (a, next) => let? l := attribute_list_loop f next in Ok (a :: l)
      end
  end.
Definition parseAttributeList (b : string) : res goerr (list attribute) :=
  attribute_list_loop (String.length b) b.

(** [hasAttribute]. *)
Definition hasAttribute (attrs : list attribute) (ty : oid) : bool :=
  existsb (fun a => oid_eqb (at_type a) ty) attrs.

(** [asn1.Marshal] of an attribute. *)
Definition marshal_attribute (a : attribute) : res goerr string :=
  match makeObjectIdentifier (at_type a) with
  | Err e => Err (Wrap "cms: encode unsigned attribute: " e)
  | Ok o => Ok (encodeRaw ClassUniversal TagSequence true
                 (encodeRaw ClassUniversal TagOID false o ++ marshal_raw (at_values a)))
  end.

(** [isContextTag]. *)
Definition isContextTag (der : string) (tag : Z) : bool :=
  match der with
  | EmptyString => false
  | String c _ => z_of c =? Z.lor 160 tag
  end.

(** The attributes of [attrs] a signer does not carry yet, appended. *)
Definition add_missing (existing attrs : list attribute) : list attribute :=
  fold_left (fun ex a => if hasAttribute ex (at_type a) then ex else ex ++ [a]) attrs existing.

Fixpoint marshal_all (attrs : list attribute) : res goerr string :=
  match attrs with
  | [] => Ok ""%string
  | a :: t => let? b := marshal_attribute a in let? r := marshal_all t in Ok (b ++ r)%string
  end.

(** [signerWithEvidence]. *)
Definition signerWithEvidence (siRaw : string) (attrs : list attribute) : res goerr string :=
  match Unmarshal raw_type zero_raw siRaw with
  | Err e => Err (Wrap "cms: parse signer: " e)
  | Ok (si, _) =>
      let elements := splitDER (rv_bytes si) in
      if (length elements <? 5)%nat
      then Err (New ("cms: SignerInfo has " ++ dec_of_Z (Z.of_nat (length elements)) ++
                     " elements, expected at least 5"))
      else
        let last := default ""%string (last elements) in
        let? (existing, body) :=
          if isContextTag last 1 then
            match Unmarshal raw_type zero_raw last with
            | Err e => Err (Wrap "cms: parse unsigned attributes: " e)
            | Ok (raw, _) =>
                let? parsed := parseAttributeList (rv_bytes raw) in
                Ok (parsed, stake (String.length (rv_bytes si) - String.length last) (rv_bytes si))
            end
          else Ok ([], rv_bytes si) in
        let? encoded := marshal_all (add_missing existing attrs) in
        Ok (encodeRaw ClassUniversal TagSequence true
             (body ++ encodeRaw ClassContextSpecific 1 true encoded))
  end.

(** [evidenceAttributes]. *)
Definition sequence_of (l : list string) : string :=
  encodeRaw ClassUniversal TagSequence true (joined l).
Definition evidenceAttributes (ev : Evidence) : list attribute :=
  let set body := mkRaw ClassUniversal TagSet true body "" in
  (match ev_ocsp ev, ev_crls ev with
   | [], [] => []
   | _, _ =>
       let crls := match ev_crls ev with
                   | [] => ""%string
                   | l => encodeRaw ClassContextSpecific 0 true (sequence_of l)
                   end in
       let ocsp := match ev_ocsp ev with
                   | [] => ""%string
                   | l => encodeRaw ClassContextSpecific 1 true (sequence_of l)
                   end in
       [mkAttribute oidRevocationValues (set (encodeRaw ClassUniversal TagSequence true (crls ++ ocsp)))]
   end ++
   match ev_certs ev with
   | [] => []
   | l => [mkAttribute oidCertificateValues (set (sequence_of l))]
   end)%list.

(** The signers rebuilt one after the other. *)
Fixpoint rebuild (signers : list string) (attrs : list attribute) : res goerr string :=
  match signers with
  | [] => Ok ""%string
  | si :: t =>
      let? u := signerWithEvidence si attrs in let? r := rebuild t attrs in Ok (u ++ r)%string
  end.

(** [AddLTV]. *)
Definition AddLTV (der : string) (ev : Evidence) : res goerr string :=
  if ev_empty ev then Err (New "cms: no long-term validation evidence to embed")
  else match Unmarshal contentInfo_type (mkContentInfo [] zero_raw) der with
  | Err e => Err (Wrap "cms: parse container: " e)
  | Ok (ci, _) =>
  if negb (oid_eqb (ci_type ci) oidSignedData) then Err (New "cms: not a SignedData container")
  else match Unmarshal raw_type zero_raw (rv_bytes (ci_content ci)) with
  | Err e => Err (Wrap "cms: parse SignedData: " e)
  | Ok (sd, _) =>
  let elements := splitDER (rv_bytes sd) in
  if (length elements <? 4)%nat
  then Err (New ("cms: SignedData has " ++ dec_of_Z (Z.of_nat (length elements)) ++
                 " elements, expected at least 4"))
  else
    let signerSetRaw := default ""%string (last elements) in
    let prefix := stake (String.length (rv_bytes sd) - String.length signerSetRaw) (rv_bytes sd) in
    match Unmarshal raw_type zero_raw signerSetRaw with
    | Err e => Err (Wrap "cms: parse signers: " e)
    | Ok (signerSet, _) =>
    match splitDER (rv_bytes signerSet) with
    | [] => Err (New "cms: container carries no signers")
    | signers =>
        let? rebuilt := rebuild signers (evidenceAttributes ev) in
        let newSet := encodeRaw ClassUniversal TagSet true rebuilt in
        let newSD := encodeRaw ClassUniversal TagSequence true (prefix ++ newSet) in
        let? o := makeObjectIdentifier oidSignedData in
        Ok (encodeRaw ClassUniversal TagSequence true
              (encodeRaw ClassUniversal TagOID false o ++ encodeRaw ClassContextSpecific 0 true newSD))
    end end end end.

(** [sequenceElements]. *)
Definition sequenceElements (der : string) : list string :=
  if empty_str der then []
  else match Unmarshal raw_type zero_raw der with
       | Err _ => []
       | Ok (seq, _) => if negb (rv_tag seq =? TagSequence) || negb (rv_compound seq) then []
                        else splitDER (rv_bytes seq)
       end.

Definition revocationValues_type : gotype (RawValue * RawValue) := struct_type (fun b =>
  let? (c, b) := parseField raw_type zero_raw (explicit_tag 0) b in
  let? (o, _) := parseField raw_type zero_raw (explicit_tag 1) b in
  Ok (c, o)).

(** What one attribute adds to the evidence read. *)
Definition ev_app (a b : Evidence) : Evidence :=
  mkEvidence (ev_ocsp a ++ ev_ocsp b) (ev_crls a ++ ev_crls b) (ev_certs a ++ ev_certs b).
Definition no_evidence : Evidence := mkEvidence [] [] [].
Definition attribute_evidence (a : attribute) : Evidence :=
  if oid_eqb (at_type a) oidRevocationValues then
    match Unmarshal revocationValues_type (zero_raw, zero_raw) (rv_bytes (at_values a)) with
    | Err _ => no_evidence
    | Ok ((c, o), _) =>
        mkEvidence (sequenceElements (rv_bytes o)) (sequenceElements (rv_bytes c)) []
    end
  else if oid_eqb (at_type a) oidCertificateValues then
    mkEvidence [] [] (sequenceElements (rv_bytes (at_values a)))
  else no_evidence.

(** [EmbeddedEvidence]: the evidence read so far and the error. *)
Fixpoint evidence_loop (signers : list signerInfoRaw) (ev : Evidence) : Evidence * option goerr :=
  match signers with
  | [] => (ev, None)
  | si :: t =>
      if empty_str (rv_bytes (si_unsigned si)) then evidence_loop t ev
      else match parseAttributeList (rv_bytes (si_unsigned si)) with
           | Err e => (ev, Some e)
           | Ok attrs => evidence_loop t (fold_left (fun e a => ev_app e (attribute_evidence a)) attrs ev)
           end
  end.
Definition EmbeddedEvidence (der : string) : Evidence * option goerr :=
  match Unmarshal contentInfo_type (mkContentInfo [] zero_raw) der with
  | Err e => (no_evidence, Some (Wrap "cms: parse container: " e))
  | Ok (ci, _) =>
      if negb (oid_eqb (ci_type ci) oidSignedData)
      then (no_evidence, Some (New "cms: not a SignedData container"))
      else match Unmarshal signedData_type zero_sd (rv_bytes (ci_content ci)) with
           | Err e => (no_evidence, Some (Wrap "cms: parse SignedData: " e))
           | Ok (sd, _) => evidence_loop (sd_signers sd) no_evidence
           end
  end.
