(* ===== verification/CmsSpec.v ===== *)
(** * What the CMS reader and writer promise

    A SignedData as syntax, its DER, and embedding evidence as an operation on
    the syntax. The readers of Cms are proved to read back what [encode]
    wrote, and [AddLTV] to implement [annotate]: evidence goes to the unsigned
    attributes and every other byte stays. *)
From S2P Require Import Prelude Errors Asn1 Cms.

(** ** The syntax *)
Record elem := mkElem { e_class : Z; e_tag : Z; e_compound : bool; e_body : string }.
Definition enc (e : elem) : string := element (e_class e) (e_tag e) (e_compound e) (e_body e).
Definition raw_of (e : elem) : RawValue :=
  mkRaw (e_class e) (e_tag e) (e_compound e) (e_body e) (enc e).
Definition integer_ (b : string) : elem := mkElem ClassUniversal TagInteger false b.
Definition sequence (b : string) : elem := mkElem ClassUniversal TagSequence true b.
Definition set_of (b : string) : elem := mkElem ClassUniversal TagSet true b.
Definition octets (b : string) : elem := mkElem ClassUniversal TagOctetString false b.
Definition context (n : Z) (b : string) : elem := mkElem ClassContextSpecific n true b.
Definition oid_bytes (o : oid) : string :=
  match makeObjectIdentifier o with Ok s => s | Err _ => "" end.
Definition oid_elem (o : oid) : elem := mkElem ClassUniversal TagOID false (oid_bytes o).
Definition encs (l : list elem) : string := joined (map enc l).

Record attr := mkAttr { a_type : oid; a_value : elem }.
Definition attr_elem (a : attr) : elem := sequence (encs [oid_elem (a_type a); a_value a]).
Definition attr_of (a : attr) : attribute := mkAttribute (a_type a) (raw_of (a_value a)).

(** A signer: the content of each element, [None] for an absent optional one. *)
Record signer := mkSigner {
  s_version : string; s_sid : elem; s_digest : string; s_signed : option string; s_sig_alg : string;
  s_signature : string; s_unsigned : option (list attr);
}.
Definition signed_elems (s : signer) : list elem :=
  [integer_ (s_version s); s_sid s; sequence (s_digest s)]
  ++ match s_signed s with Some b => [context 0 b] | None => [] end
  ++ [sequence (s_sig_alg s); octets (s_signature s)].
Definition attrs_elem (l : list attr) : elem := context 1 (encs (map attr_elem l)).
Definition unsigned_elems (s : signer) : list elem :=
  match s_unsigned s with Some l => [attrs_elem l] | None => [] end.
Definition signer_elem (s : signer) : elem := sequence (encs (signed_elems s ++ unsigned_elems s)).

Record container := mkContainer {
  c_version : string; c_digests : elem; c_encap : elem; c_certs : option string; c_crls : option string;
  c_signers : list signer;
}.
Definition header_elems (c : container) : list elem :=
  [integer_ (c_version c); c_digests c; c_encap c]
  ++ match c_certs c with Some b => [context 0 b] | None => [] end
  ++ match c_crls c with Some b => [context 1 b] | None => [] end.
Definition signer_set (c : container) : elem := set_of (encs (map signer_elem (c_signers c))).
Definition signed_data (c : container) : elem := sequence (encs (header_elems c ++ [signer_set c])).
Definition content_elem (c : container) : elem := context 0 (enc (signed_data c)).
Definition container_elem (c : container) : elem :=
  sequence (encs [oid_elem oidSignedData; content_elem c]).

(** The DER of a container. *)
Definition encode (c : container) : string := enc (container_elem c).

(** Embedding: the attributes a signer does not carry yet are appended. *)
Definition has_attr (ty : oid) (l : list attr) : bool := existsb (fun a => oid_eqb (a_type a) ty) l.
Definition merge_attrs (l new : list attr) : list attr :=
  fold_left (fun l a => if has_attr (a_type a) l then l else l ++ [a]) new l.
Definition annotate_signer (new : list attr) (s : signer) : signer :=
  mkSigner (s_version s) (s_sid s) (s_digest s) (s_signed s) (s_sig_alg s) (s_signature s)
    (Some (merge_attrs (default [] (s_unsigned s)) new)).
Definition annotate (new : list attr) (c : container) : container :=
  mkContainer (c_version c) (c_digests c) (c_encap c) (c_certs c) (c_crls c)
    (map (annotate_signer new) (c_signers c)).

(** The attributes of an evidence. *)
Definition sequence_ (l : list string) : elem := sequence (joined l).
Definition revocation_elem (ev : Evidence) : elem :=
  sequence (encs (match ev_crls ev with [] => [] | l => [context 0 (enc (sequence_ l))] end
                  ++ match ev_ocsp ev with [] => [] | l => [context 1 (enc (sequence_ l))] end)).
Definition revocation_attrs (ev : Evidence) : list attr :=
  match ev_ocsp ev, ev_crls ev with
  | [], [] => []
  | _, _ => [mkAttr oidRevocationValues (set_of (enc (revocation_elem ev)))]
  end.
Definition certificate_attrs (ev : Evidence) : list attr :=
  match ev_certs ev with
  | [] => []
  | l => [mkAttr oidCertificateValues (set_of (enc (sequence_ l)))]
  end.
Definition evidence_attrs (ev : Evidence) : list attr := revocation_attrs ev ++ certificate_attrs ev.

(** ** Well-formedness *)
Definition tag_ok (e : elem) : Prop := low_tag (e_class e) (e_tag e).
Definition attr_ok (a : attr) : Prop := oid_ok (a_type a) /\ tag_ok (a_value a).
Definition alg_fields (b : string) : res goerr (oid * RawValue) :=
  ty_parse algorithmIdentifier_type TagSequence (mkTL 0 0 0 false) b "".
Definition attrs_of (s : signer) : list attr := default [] (s_unsigned s).
Definition signer_ok (s : signer) : Prop :=
  is_ok (parseInt64 (s_version s)) = true /\ tag_ok (s_sid s) /\
  is_ok (alg_fields (s_digest s)) = true /\ is_ok (alg_fields (s_sig_alg s)) = true /\
  Forall attr_ok (attrs_of s).
Definition fits (e : elem) : Prop := short (e_body e).
Definition container_ok (c : container) : Prop :=
  is_ok (parseInt64 (c_version c)) = true /\ tag_ok (c_digests c) /\ tag_ok (c_encap c) /\
  Forall signer_ok (c_signers c) /\ fits (container_elem c).

(** ** Elements *)
(** The tags of known elements. *)
Ltac solve_tag :=
  first [assumption
        | split; cbn; unfold ClassUniversal, ClassContextSpecific, TagInteger, TagSequence, TagSet,
                             TagOctetString, TagOID; lia].
#[export] Hint Extern 1 (tag_ok _) => solve_tag : qol.

Lemma enc_longer e : slen (e_body e) < slen (enc e).
Proof. apply element_longer. Qed.

Lemma encs_cons e l : encs (e :: l) = (enc e ++ encs l)%string.
Proof. done. Qed.

Lemma encs_app a b : encs (a ++ b) = (encs a ++ encs b)%string.
Proof. unfold encs. by rewrite map_app, joined_app. Qed.

Lemma encs_nil : encs [] = ""%string.
Proof. done. Qed.

(** Concatenations as right-nested lists of elements. *)
Ltac flatten := rewrite ?encs_app, ?encs_cons, ?encs_nil, ?app_assoc_s, ?nil_app_s.

Lemma encs_one e : encs [e] = enc e.
Proof. unfold encs. cbn [map joined]. apply app_nil_s. Qed.

(** The parts of a body that fits fit. *)
Lemma fits_parts l e : short (encs l) -> e ∈ l -> fits e.
Proof.
  unfold short, fits, short. revert e. induction l as [|x l IH]; [by intros ? ? ?%elem_of_nil|].
  intros e. rewrite encs_cons, slen_app. pose proof (slen_nonneg (enc x)). pose proof (slen_nonneg (encs l)).
  intros Hs [->|Hin]%elem_of_cons; [pose proof (enc_longer x); lia|]. apply IH; [lia|done].
Qed.

Lemma fits_enc e : short (enc e) -> fits e.
Proof. unfold fits, short. pose proof (enc_longer e). lia. Qed.

Lemma read_match {A} (ty : gotype A) zero p e r :
  tag_ok e -> fits e -> field_ok ty p (e_class e) (e_tag e) (e_compound e) ->
  (fp_explicit p = true -> e_body e <> ""%string) ->
  parseField ty zero p (enc e ++ r)%string =
  rbind (ty_parse ty (if fp_set p then TagSet else ty_tag ty)
           (mkTL (e_class e) (e_tag e) (slen (e_body e)) (e_compound e)) (e_body e) (enc e))
    (fun v => Ok (v, r)).
Proof. apply parseField_match. Qed.

Lemma read_raw p e r :
  tag_ok e -> fits e -> fp_explicit p = false ->
  match fp_tag p with Some n => e_class e = ClassContextSpecific /\ e_tag e = n | None => True end ->
  parseField raw_type zero_raw p (enc e ++ r)%string = Ok (raw_of e, r).
Proof.
  intros Ht Hf Hp Hm. rewrite read_match; [done..| |by rewrite Hp].
  split_and!; [done|by left|]. rewrite Hp. destruct (fp_tag p); [done|by left].
Qed.

Lemma read_explicit n e r :
  tag_ok e -> fits e -> e_class e = ClassContextSpecific -> e_tag e = n -> e_compound e = true ->
  e_body e <> ""%string ->
  parseField raw_type zero_raw (explicit_tag n) (enc e ++ r)%string = Ok (raw_of e, r).
Proof. intros. rewrite read_match; [done..| |done]. split_and!; [done|by left|]. by split_and!. Qed.

Lemma read_skip {A} (ty : gotype A) zero n e r :
  tag_ok e -> fits e -> (e_class e, e_tag e) <> (ClassContextSpecific, n) ->
  parseField ty zero (optional_tag n) (enc e ++ r)%string = Ok (zero, enc e ++ r)%string.
Proof. apply parseField_skip. Qed.

Lemma enc_nonempty e r : (enc e ++ r)%string <> ""%string.
Proof.
  intros H. pose proof (element_nonempty (e_class e) (e_tag e) (e_compound e) (e_body e) r) as E.
  unfold enc in H. by rewrite H in E.
Qed.

Lemma oid_elem_read o r :
  oid_ok o -> fits (oid_elem o) -> parseField oid_type [] plain (enc (oid_elem o) ++ r)%string = Ok (o, r).
Proof.
  intros Ho Hf. rewrite read_match; [|auto with qol|done| |done].
  - cbn. unfold oid_bytes. destruct (parseObjectIdentifier_spec o Ho) as (s & -> & _ & ->). done.
  - split_and!; [done|by right|by right].
Qed.

(** Concatenated elements split back. *)
Lemma Unmarshal_elem e r :
  tag_ok e -> fits e -> Unmarshal raw_type zero_raw (enc e ++ r)%string = Ok (raw_of e, r).
Proof. apply Unmarshal_raw. Qed.

Lemma Unmarshal_elem_end e :
  tag_ok e -> fits e -> Unmarshal raw_type zero_raw (enc e) = Ok (raw_of e, ""%string).
Proof. intros. rewrite <- (app_nil_s (enc e)). by rewrite Unmarshal_elem. Qed.

Lemma encs_length l : (length l <= String.length (encs l))%nat.
Proof.
  induction l as [|e l IH]; [done|]. rewrite encs_cons, slength_app. cbn.
  pose proof (enc_longer e). unfold slen in *. lia.
Qed.

Lemma splitDER_encs l : Forall tag_ok l -> short (encs l) -> splitDER (encs l) = map enc l.
Proof.
  intros Ht Hs. unfold splitDER. generalize (encs_length l). generalize (String.length (encs l)).
  assert (Hf : Forall fits l) by (apply Forall_forall; intros; by eapply fits_parts). clear Hs.
  induction Ht as [|e l He Ht IH]; intros n Hn; [by destruct n|].
  inversion_clear Hf as [|? ? Hfe Hfl]. destruct n as [|n]; [cbn in Hn; lia|].
  cbn [split_loop]. rewrite encs_cons.
  rewrite (empty_str_false _ (enc_nonempty e (encs l))).
  rewrite Unmarshal_elem by done. cbn [map rv_full raw_of]. f_equal. apply IH; [done|cbn in Hn; lia].
Qed.

(** ** Attributes *)
Lemma attribute_read a r :
  attr_ok a -> fits (attr_elem a) ->
  Unmarshal attribute_type zero_attribute (enc (attr_elem a) ++ r)%string = Ok (attr_of a, r).
Proof.
  intros [Ho Hv] Hf. unfold Unmarshal. rewrite read_match; [|auto with qol|done| |done].
  - assert (Hp : forall e, e ∈ [oid_elem (a_type a); a_value a] -> fits e)
      by (intros e He; exact (fits_parts _ e Hf He)).
    cbn [ty_parse attribute_type struct_type attr_elem sequence e_body]. rewrite !encs_cons.
    rewrite oid_elem_read by (done || apply Hp; set_solver). cbn [rbind].
    rewrite read_raw; [done|done|apply Hp; set_solver|done|done].
  - split_and!; [done|by right|by right].
Qed.

Lemma attrs_fit l e : short (encs (map attr_elem l)) -> e ∈ l -> fits (attr_elem e).
Proof. intros Hs He. apply (fits_parts _ _ Hs). by apply list_elem_of_fmap_2. Qed.

Lemma parseAttributeList_spec l :
  Forall attr_ok l -> short (encs (map attr_elem l)) ->
  parseAttributeList (encs (map attr_elem l)) = Ok (map attr_of l).
Proof.
  intros Ha Hs. unfold parseAttributeList. generalize (encs_length (map attr_elem l)).
  generalize (String.length (encs (map attr_elem l))).
  assert (Hf : Forall (fun a => fits (attr_elem a)) l)
    by (apply Forall_forall; intros; by eapply attrs_fit). clear Hs.
  induction Ha as [|a l Ha Hl IH]; intros n Hn; [by destruct n|].
  inversion_clear Hf as [|? ? Hfa Hfl]. cbn [map] in *. rewrite encs_cons.
  destruct n as [|n]; [cbn in Hn; lia|]. cbn [attribute_list_loop].
  rewrite (empty_str_false _ (enc_nonempty (attr_elem a) (encs (map attr_elem l)))).
  rewrite attribute_read by done. by rewrite IH by (done || cbn in Hn; lia).
Qed.

(** Reading leniently gives the same where strict reading succeeds. *)
Lemma attributes_loop_list n b l : attribute_list_loop n b = Ok l -> attributes_loop n b = l.
Proof.
  revert b l. induction n as [|n IH]; intros b l; cbn.
  - by destruct (empty_str b); intros [= <-].
  - destruct (empty_str b); [by intros [= <-]|].
    destruct (Unmarshal attribute_type zero_attribute b) as [[a next]|]; [|done].
    intros (l' & H & [= <-])%rbind_ok. f_equal. by apply IH.
Qed.

Lemma parseAttributes_spec c t k f l :
  Forall attr_ok l -> short (encs (map attr_elem l)) ->
  parseAttributes (mkRaw c t k (encs (map attr_elem l)) f) = map attr_of l.
Proof. intros. by apply attributes_loop_list, parseAttributeList_spec. Qed.

(** ** Signers *)
Definition int_value (b : string) : Z := default 0 (res_value (parseInt64 b)).
Definition alg_value (b : string) : oid * RawValue := default zero_alg (res_value (alg_fields b)).
Definition optional_raw (o : option elem) : RawValue := match o with Some e => raw_of e | None => zero_raw end.

Lemma read_int b r :
  is_ok (parseInt64 b) = true -> fits (integer_ b) ->
  parseField int_type 0 plain (enc (integer_ b) ++ r)%string = Ok (int_value b, r).
Proof.
  intros Hb Hf. rewrite read_match; [|auto with qol|done| |done].
  - cbn. unfold int_value. by destruct (parseInt64 b).
  - split_and!; [done|by right|by right].
Qed.

Lemma read_alg b r :
  is_ok (alg_fields b) = true -> fits (sequence b) ->
  parseField algorithmIdentifier_type zero_alg plain (enc (sequence b) ++ r)%string = Ok (alg_value b, r).
Proof.
  intros Hb Hf. rewrite read_match; [|auto with qol|done| |done].
  - cbn [ty_parse algorithmIdentifier_type struct_type e_body sequence]. unfold alg_value, alg_fields in *.
    cbn [ty_parse algorithmIdentifier_type struct_type] in *.
    by destruct (rbind (parseField oid_type [] plain b) _).
  - split_and!; [done|by right|by right].
Qed.

Lemma read_octets b r :
  fits (octets b) -> parseField bytes_type "" plain (enc (octets b) ++ r)%string = Ok (b, r).
Proof.
  intros Hf. rewrite read_match; [done|auto with qol|done| |done].
  split_and!; [done|by right|by right].
Qed.

(** An optional raw element, present or absent before an element of another
    tag or at the end. *)
Lemma read_optional n (o : option string) e r :
  0 <= n < 31 -> (forall b, o = Some b -> fits (context n b)) ->
  tag_ok e -> fits e -> (e_class e, e_tag e) <> (ClassContextSpecific, n) ->
  parseField raw_type zero_raw (optional_tag n)
    (encs (match o with Some b => [context n b] | None => [] end) ++ enc e ++ r)%string
  = Ok (optional_raw (context n <$> o), (enc e ++ r)%string).
Proof.
  intros Hn Ho Ht Hf Hm. destruct o as [b|].
  - rewrite encs_one, read_raw; [done|split; cbn; unfold ClassContextSpecific; lia|by apply Ho|done|done].
  - rewrite encs_nil, nil_app_s. by apply read_skip.
Qed.

Definition signer_raw (s : signer) : signerInfoRaw :=
  mkSignerInfoRaw (int_value (s_version s)) (raw_of (s_sid s)) (alg_value (s_digest s))
    (optional_raw (context 0 <$> s_signed s)) (alg_value (s_sig_alg s)) (s_signature s)
    (optional_raw (attrs_elem <$> s_unsigned s)).

Lemma signer_read s u t f :
  signer_ok s -> fits (signer_elem s) ->
  ty_parse signerInfo_type u t (e_body (signer_elem s)) f = Ok (signer_raw s).
Proof.
  intros (Hv & Hsid & Hd & Ha & _) Hf.
  assert (Hp : forall e, e ∈ signed_elems s ++ unsigned_elems s -> fits e)
    by (intros e He; exact (fits_parts _ e Hf He)).
  cbn [ty_parse signerInfo_type struct_type signer_elem sequence e_body].
  unfold signed_elems in *. flatten.
  rewrite read_int by (done || apply Hp; set_solver). cbn [rbind].
  rewrite read_raw by (done || apply Hp; set_solver). cbn [rbind].
  rewrite read_alg by (done || apply Hp; set_solver). cbn [rbind].
  rewrite read_optional; [|lia|intros b Hb; apply Hp; rewrite Hb; set_solver|auto with qol|
    apply Hp; set_solver|done]. cbn [rbind].
  rewrite read_alg by (done || apply Hp; set_solver). cbn [rbind].
  rewrite read_octets by (apply Hp; set_solver). cbn [rbind].
  unfold unsigned_elems, signer_raw in *. destruct (s_unsigned s) as [l|].
  - rewrite <- (app_nil_s (encs _)), encs_one, read_raw; [done|auto with qol|apply Hp; set_solver|done|done].
  - by rewrite parseField_end.
Qed.

(** ** Containers *)
Definition sd_of (c : container) : signedDataRaw :=
  mkSignedData (int_value (c_version c)) (raw_of (c_digests c)) (raw_of (c_encap c))
    (optional_raw (context 0 <$> c_certs c)) (optional_raw (context 1 <$> c_crls c))
    (map signer_raw (c_signers c)).

Lemma container_parts c :
  container_ok c ->
  fits (content_elem c) /\ fits (signed_data c) /\ fits (signer_set c) /\
  (forall e, e ∈ header_elems c -> fits e) /\ Forall (fun s => fits (signer_elem s)) (c_signers c).
Proof.
  intros (_ & _ & _ & _ & Hf).
  assert (H1 : fits (content_elem c)) by (apply (fits_parts _ _ Hf); set_solver).
  assert (H2 : fits (signed_data c)) by exact (fits_enc _ H1).
  assert (H3 : forall e, e ∈ header_elems c ++ [signer_set c] -> fits e)
    by (intros e He; exact (fits_parts _ e H2 He)).
  assert (H4 : fits (signer_set c)) by (apply H3; set_solver).
  split_and!; [done|done|done|intros; apply H3; set_solver|].
  apply Forall_forall. intros s Hs. apply (fits_parts _ _ H4). by apply list_elem_of_fmap_2.
Qed.

Lemma signers_read c :
  Forall signer_ok (c_signers c) -> Forall (fun s => fits (signer_elem s)) (c_signers c) ->
  fits (signer_set c) ->
  parseField (slice_type signerInfo_type zero_signer) [] set_params (enc (signer_set c))
  = Ok (map signer_raw (c_signers c), ""%string).
Proof.
  intros Ho Hf Hs. rewrite <- (app_nil_s (enc _)), read_match; [|auto with qol|done| |done].
  - cbn [fp_set set_params signer_set set_of e_body].
    replace (encs (map signer_elem (c_signers c)))
      with (joined (map (element ClassUniversal (ty_tag signerInfo_type) (ty_compound signerInfo_type))
             (map (fun s => e_body (signer_elem s)) (c_signers c)))) by (by unfold encs; rewrite !map_map).
    rewrite (slice_parse signerInfo_type zero_signer) with (vs := map signer_raw (c_signers c)); [done| |done| |].
    + split; cbn; unfold ClassUniversal, TagSequence; lia.
    + by apply Forall_map.
    + clear Hs. induction (c_signers c) as [|s l IH]; [constructor|].
      inversion_clear Ho. inversion_clear Hf. constructor; [by apply signer_read|by apply IH].
  - split_and!; [done|by right|by right].
Qed.

Lemma signed_data_read c u t f :
  container_ok c -> ty_parse signedData_type u t (e_body (signed_data c)) f = Ok (sd_of c).
Proof.
  intros Hc. destruct (container_parts c Hc) as (_ & _ & Hset & Hh & Hs). destruct Hc as (Hv & Hd & He & Hso & _).
  cbn [ty_parse signedData_type struct_type signed_data sequence e_body].
  unfold header_elems in *. flatten.
  rewrite read_int by (done || apply Hh; set_solver). cbn [rbind].
  rewrite !read_raw by (done || apply Hh; set_solver). cbn [rbind].
  rewrite read_raw by (done || apply Hh; set_solver). cbn [rbind].
  assert (E : exists e r, tag_ok e /\ fits e /\ (e_class e, e_tag e) <> (ClassContextSpecific, 0) /\
     (encs match c_crls c with Some b => [context 1 b] | None => [] end ++ enc (signer_set c) ++ "")%string
     = (enc e ++ r)%string).
  { destruct (c_crls c) as [b|] eqn:Eb.
    - exists (context 1 b). eexists. rewrite encs_one. split_and!; [auto with qol|apply Hh; set_solver|done|done].
    - exists (signer_set c), ""%string. split_and!; [auto with qol|done|done|done]. }
  destruct E as (e & r & Ht & Hf & Hn & E). rewrite E, read_optional, <- E;
    [|lia|intros b Hb; apply Hh; rewrite Hb; set_solver|done|done|done]. cbn [rbind].
  rewrite read_optional; [|lia|intros b Hb; apply Hh; rewrite Hb; set_solver|auto with qol|done|done].
  cbn [rbind]. rewrite app_nil_s, signers_read by done. done.
Qed.

(** The outer wrapping, read by every entry point. *)
Lemma oidSignedData_ok : oid_ok oidSignedData.
Proof. split_and!; try lia. repeat constructor; lia. Qed.

Lemma contentInfo_read c :
  container_ok c ->
  Unmarshal contentInfo_type (mkContentInfo [] zero_raw) (encode c)
  = Ok (mkContentInfo oidSignedData (raw_of (content_elem c)), ""%string).
Proof.
  intros Hc. destruct (container_parts c Hc) as (Hk & _). destruct Hc as (_ & _ & _ & _ & Hf).
  unfold Unmarshal, encode. rewrite <- (app_nil_s (enc _)), read_match; [|auto with qol|done| |done].
  - cbn [ty_parse contentInfo_type struct_type container_elem sequence e_body]. flatten.
    rewrite oid_elem_read by (apply oidSignedData_ok || apply (fits_parts _ _ Hf); set_solver). cbn [rbind].
    rewrite read_explicit; [done|auto with qol|done|done|done|done|].
    intros E. apply (enc_nonempty (signed_data c) ""). by rewrite app_nil_s.
  - split_and!; [done|by right|by right].
Qed.

Lemma signedData_Unmarshal c :
  container_ok c -> Unmarshal signedData_type zero_sd (e_body (content_elem c)) = Ok (sd_of c, ""%string).
Proof.
  intros Hc. destruct (container_parts c Hc) as (_ & Hsd & _). unfold Unmarshal.
  cbn [content_elem context e_body]. rewrite <- (app_nil_s (enc _)), read_match; [|auto with qol|done| |done].
  - rewrite signed_data_read by done. done.
  - split_and!; [done|by right|by right].
Qed.

Lemma parseSignedData_spec c : container_ok c -> parseSignedData (encode c) = Ok (sd_of c).
Proof.
  intros Hc. unfold parseSignedData. rewrite contentInfo_read by done.
  cbn [ci_type ci_content rv_bytes raw_of]. rewrite signedData_Unmarshal by done. done.
Qed.

(** ** Rewriting *)
Lemma marshal_raw_of e : marshal_raw (raw_of e) = enc e.
Proof.
  unfold marshal_raw. cbn [rv_full raw_of]. rewrite empty_str_false; [done|].
  intros E. apply (enc_nonempty e ""). by rewrite app_nil_s.
Qed.

Lemma encodeRaw_element class tag c body : encodeRaw class tag c body = enc (mkElem class tag c body).
Proof. done. Qed.

(** An attribute that would be written as [a]. *)
Definition writes (at_ : attribute) (a : attr) : Prop :=
  at_type at_ = a_type a /\ marshal_raw (at_values at_) = enc (a_value a).

Lemma writes_attr_of a : writes (attr_of a) a.
Proof. split; [done|apply marshal_raw_of]. Qed.

Lemma marshal_attribute_spec x a : writes x a -> oid_ok (a_type a) -> marshal_attribute x = Ok (enc (attr_elem a)).
Proof.
  intros [Ht Hv] Ho. unfold marshal_attribute. rewrite Ht, Hv.
  destruct (parseObjectIdentifier_spec _ Ho) as (s & E & _). rewrite E, !encodeRaw_element.
  unfold attr_elem. flatten. rewrite app_nil_s. unfold oid_elem, oid_bytes. by rewrite E.
Qed.

Lemma marshal_all_spec xs l :
  Forall2 writes xs l -> Forall attr_ok l -> marshal_all xs = Ok (encs (map attr_elem l)).
Proof.
  intros H. induction H as [|x a xs l Hx H IH]; [done|]. inversion_clear 1 as [|? ? [Ho _] Hl].
  cbn [marshal_all map]. rewrite (marshal_attribute_spec x a) by done. cbn [rbind].
  by rewrite IH.
Qed.

Lemma hasAttribute_spec xs l ty : Forall2 writes xs l -> hasAttribute xs ty = has_attr ty l.
Proof. induction 1 as [|x a xs l [E _] H IH]; [done|]. cbn. rewrite E. f_equal. apply IH. Qed.

Lemma add_missing_spec new n ex l :
  Forall2 writes new n -> Forall2 writes ex l -> Forall2 writes (add_missing ex new) (merge_attrs l n).
Proof.
  intros Hn. revert ex l. induction Hn as [|x a new n Hx Hn IH]; intros ex l Hl; [done|].
  unfold add_missing, merge_attrs in *. cbn [fold_left]. apply IH. destruct Hx as [E Hx].
  rewrite E, (hasAttribute_spec ex l) by done. destruct (has_attr (a_type a) l); [done|].
  apply Forall2_app; [done|]. by repeat constructor.
Qed.

Lemma merge_ok l n : Forall attr_ok l -> Forall attr_ok n -> Forall attr_ok (merge_attrs l n).
Proof.
  intros Hl Hn. revert l Hl. unfold merge_attrs. induction Hn as [|a n Ha Hn IH]; intros l Hl; [done|].
  cbn. apply IH. destruct (has_attr (a_type a) l); [done|]. apply Forall_app. split; [done|by apply Forall_singleton].
Qed.

Lemma signed_tags s : tag_ok (s_sid s) -> Forall tag_ok (signed_elems s).
Proof.
  intros. unfold signed_elems. destruct (s_signed s); repeat (constructor; auto with qol).
Qed.

Lemma context_tag_octets b : isContextTag (enc (octets b)) 1 = false.
Proof. done. Qed.

Lemma context_tag_attrs l : isContextTag (enc (attrs_elem l)) 1 = true.
Proof. done. Qed.

Lemma stake_before a b : stake (String.length (a ++ b) - String.length b) (a ++ b) = a.
Proof. rewrite slength_app. replace (_ + _ - _)%nat with (String.length a) by lia. apply stake_app. Qed.

Lemma signed_count s : (5 <= length (signed_elems s))%nat.
Proof. unfold signed_elems. rewrite !length_app. cbn. lia. Qed.

Lemma unsigned_tags s : Forall tag_ok (unsigned_elems s).
Proof.
  unfold unsigned_elems. destruct (s_unsigned s); [|constructor].
  apply Forall_singleton. auto with qol.
Qed.

Lemma signed_last s : last (map enc (signed_elems s)) = Some (enc (octets (s_signature s))).
Proof.
  unfold signed_elems. change [sequence (s_sig_alg s); octets (s_signature s)]
    with ([sequence (s_sig_alg s)] ++ [octets (s_signature s)]).
  rewrite !app_assoc, map_app. apply last_snoc.
Qed.

Lemma signerWithEvidence_spec s xs n r :
  signer_ok s -> fits (signer_elem s) -> Forall2 writes xs n -> Forall attr_ok n ->
  r = enc (signer_elem s) ->
  signerWithEvidence r xs = Ok (enc (signer_elem (annotate_signer n s))).
Proof.
  intros (_ & Hsid & _ & _ & Ha) Hf Hx Hn ->. unfold signerWithEvidence.
  rewrite Unmarshal_elem_end by (done || auto with qol). cbn [rv_bytes raw_of].
  cbn [signer_elem sequence e_body]. unfold fits in Hf. cbn [signer_elem sequence e_body] in Hf.
  pose proof (signed_tags s Hsid) as Ht. pose proof (signed_count s) as Hc.
  rewrite splitDER_encs; [|apply Forall_app; split; [done|apply unsigned_tags]|done].
  rewrite length_map, length_app, (proj2 (Nat.ltb_ge _ _)) by lia.
  unfold annotate_signer, attrs_of, unsigned_elems in *. cbn [s_unsigned].
  destruct (s_unsigned s) as [l|]; cbn [default] in *.
  - rewrite map_app. cbn [map]. rewrite last_snoc. cbn [default from_option id]. rewrite context_tag_attrs.
    assert (Hfa : fits (attrs_elem l)) by (apply (fits_parts _ _ Hf); set_solver).
    rewrite Unmarshal_elem_end by (done || auto with qol). cbn [rv_bytes raw_of attrs_elem context e_body].
    rewrite parseAttributeList_spec by done. cbn [rbind].
    rewrite encs_app, encs_one, stake_before.
    rewrite (marshal_all_spec _ (merge_attrs l n)); [|by apply add_missing_spec;
      [|apply Forall2_fmap_l, Forall_Forall2_diag, Forall_forall; intros; apply writes_attr_of]|by apply merge_ok].
    cbn [rbind]. unfold signer_elem, unsigned_elems. cbn [s_unsigned].
    rewrite !encodeRaw_element, encs_app, encs_one. done.
  - rewrite app_nil_r, signed_last. cbn [default from_option id]. rewrite context_tag_octets. cbn [rbind].
    rewrite (marshal_all_spec _ (merge_attrs [] n)); [|by apply add_missing_spec|by apply merge_ok].
    cbn [rbind]. unfold signer_elem, unsigned_elems. cbn [s_unsigned].
    rewrite !encodeRaw_element, encs_app, encs_one. done.
Qed.

Lemma rebuild_spec l xs n :
  Forall signer_ok l -> Forall (fun s => fits (signer_elem s)) l -> Forall2 writes xs n -> Forall attr_ok n ->
  rebuild (map enc (map signer_elem l)) xs = Ok (encs (map signer_elem (map (annotate_signer n) l))).
Proof.
  intros Ho Hf Hx Hn. induction Ho as [|s l Hs Ho IH]; [done|]. inversion_clear Hf.
  cbn [map rebuild]. erewrite signerWithEvidence_spec by done. cbn [rbind]. by rewrite IH.
Qed.

Lemma evidence_attrs_writes ev : Forall2 writes (evidenceAttributes ev) (evidence_attrs ev).
Proof.
  unfold evidenceAttributes, evidence_attrs, revocation_attrs, certificate_attrs. apply Forall2_app.
  - assert (E : writes
      (mkAttribute oidRevocationValues
         (mkRaw ClassUniversal TagSet true (encodeRaw ClassUniversal TagSequence true
            (match ev_crls ev with [] => "" | _ => encodeRaw ClassContextSpecific 0 true (sequence_of (ev_crls ev)) end
             ++ match ev_ocsp ev with [] => "" | _ => encodeRaw ClassContextSpecific 1 true (sequence_of (ev_ocsp ev)) end)) ""))
      (mkAttr oidRevocationValues (set_of (enc (revocation_elem ev))))).
    { split; [done|]. unfold revocation_elem. destruct (ev_crls ev), (ev_ocsp ev); flatten;
        rewrite ?app_nil_s; done. }
    destruct (ev_ocsp ev), (ev_crls ev); first [by constructor|by apply Forall2_cons].
  - destruct (ev_certs ev); [constructor|]. by repeat constructor.
Qed.

Lemma evidence_attrs_ok ev : Forall attr_ok (evidence_attrs ev).
Proof.
  assert (H1 : oid_ok oidRevocationValues) by (split_and!; try lia; repeat constructor; lia).
  assert (H2 : oid_ok oidCertificateValues) by (split_and!; try lia; repeat constructor; lia).
  assert (R : forall b, Forall attr_ok [mkAttr oidRevocationValues (set_of b)])
    by (intros; apply Forall_singleton; split; [done|cbn; auto with qol]).
  unfold evidence_attrs, revocation_attrs, certificate_attrs. apply Forall_app. split.
  - destruct (ev_ocsp ev), (ev_crls ev); first [by constructor|apply R].
  - destruct (ev_certs ev); [constructor|]. apply Forall_singleton. split; [done|cbn; auto with qol].
Qed.

Lemma header_count c : (3 <= length (header_elems c))%nat.
Proof. unfold header_elems. rewrite !length_app. cbn. lia. Qed.

Lemma header_tags c : tag_ok (c_digests c) -> tag_ok (c_encap c) -> Forall tag_ok (header_elems c).
Proof.
  intros. unfold header_elems. destruct (c_certs c), (c_crls c); repeat (apply Forall_cons; split; auto with qol);
    by apply Forall_nil.
Qed.

(** [AddLTV] computes [annotate]. *)
Lemma AddLTV_spec c ev :
  container_ok c -> c_signers c <> [] -> ev_empty ev = false ->
  AddLTV (encode c) ev = Ok (encode (annotate (evidence_attrs ev) c)).
Proof.
  intros Hc Hne Hev. unfold AddLTV. rewrite Hev, contentInfo_read by done.
  cbn [ci_type ci_content rv_bytes raw_of]. change (oid_eqb oidSignedData oidSignedData) with true. cbn [negb].
  destruct (container_parts c Hc) as (_ & Hsd & Hset & _ & Hs). destruct Hc as (_ & Hd & He & Ho & _).
  cbn [content_elem context e_body]. rewrite Unmarshal_elem_end by (done || auto with qol).
  cbn [rv_bytes raw_of signed_data sequence e_body].
  pose proof (header_tags c Hd He) as Ht. pose proof (header_count c) as Hn.
  rewrite splitDER_encs; [|apply Forall_app; split; [done|apply Forall_singleton; auto with qol]|done].
  rewrite length_map, length_app, (proj2 (Nat.ltb_ge _ _)) by (cbn; lia).
  rewrite map_app. cbn [map]. rewrite last_snoc. cbn [default from_option id].
  rewrite encs_app, encs_one, stake_before, Unmarshal_elem_end by (done || auto with qol).
  cbn [rv_bytes raw_of signer_set set_of e_body].
  rewrite splitDER_encs; [|by apply Forall_map, Forall_forall; intros; auto with qol|done].
  pose proof (rebuild_spec (c_signers c) _ _ Ho Hs (evidence_attrs_writes ev) (evidence_attrs_ok ev)) as R.
  destruct (map enc (map signer_elem (c_signers c))) eqn:E; [by destruct (c_signers c)|].
  rewrite <- E, R in *. clear E R. cbn [rbind].
  destruct (makeObjectIdentifier oidSignedData) as [o|] eqn:Eo; [|done]. cbn [rbind].
  rewrite !encodeRaw_element. unfold encode, container_elem, content_elem, signed_data, signer_set.
  rewrite !encs_cons, encs_app, encs_nil, app_nil_s, encs_one.
  unfold oid_elem, oid_bytes. rewrite Eo. done.
Qed.

(** ** Merging attributes *)
Lemma merge_app l n : exists n', merge_attrs l n = l ++ n' /\ n' ⊆ n.
Proof.
  revert l. unfold merge_attrs. induction n as [|a n IH]; intros l; [exists []; by rewrite app_nil_r|].
  cbn. destruct (has_attr (a_type a) l).
  - destruct (IH l) as (n' & -> & H). exists n'. set_solver.
  - destruct (IH (l ++ [a])) as (n' & -> & H). exists (a :: n'). rewrite <- app_assoc. set_solver.
Qed.

Lemma has_attr_app ty a b : has_attr ty (a ++ b) = has_attr ty a || has_attr ty b.
Proof. apply existsb_app. Qed.

Lemma merge_has ty l n : has_attr ty (merge_attrs l n) = has_attr ty l || has_attr ty n.
Proof.
  revert l. unfold merge_attrs. induction n as [|a n IH]; intros l; [by rewrite orb_false_r|].
  cbn [fold_left]. rewrite IH. cbn [has_attr existsb]. destruct (has_attr (a_type a) l) eqn:E.
  - unfold oid_eqb at 1. case_bool_decide as Hd; [|done]. subst ty. by rewrite E.
  - rewrite has_attr_app. unfold has_attr at 2. cbn [existsb]. by rewrite orb_false_r, orb_assoc.
Qed.

Lemma has_attr_in a l : a ∈ l -> has_attr (a_type a) l = true.
Proof.
  intros Ha. apply existsb_exists. exists a. split; [by apply list_elem_of_In|]. by apply bool_decide_eq_true.
Qed.

Lemma merge_present l n : (forall a, a ∈ n -> has_attr (a_type a) l = true) -> merge_attrs l n = l.
Proof.
  revert l. unfold merge_attrs. induction n as [|a n IH]; intros l H; [done|]. cbn.
  rewrite H by set_solver. apply IH. set_solver.
Qed.

Definition unarchived (s : signer) : Prop :=
  has_attr oidRevocationValues (attrs_of s) = false /\ has_attr oidCertificateValues (attrs_of s) = false.

Lemma merge_unarchived l ev :
  has_attr oidRevocationValues l = false -> has_attr oidCertificateValues l = false ->
  merge_attrs l (evidence_attrs ev) = l ++ evidence_attrs ev.
Proof.
  intros H1 H2. unfold merge_attrs, evidence_attrs, revocation_attrs, certificate_attrs.
  destruct (ev_ocsp ev), (ev_crls ev), (ev_certs ev); cbn [fold_left app a_type];
    rewrite ?H1, ?has_attr_app, ?H2, ?app_nil_r, <- ?app_assoc; done.
Qed.

(** ** Embedded evidence reads back *)
Definition der_list (l : list string) : Prop := exists es, Forall tag_ok es /\ l = map enc es.

Lemma sequence_read l : der_list l -> fits (sequence_ l) -> sequenceElements (enc (sequence_ l)) = l.
Proof.
  intros (es & He & ->) Hf. unfold sequenceElements.
  rewrite <- (app_nil_s (enc _)), (empty_str_false _ (enc_nonempty _ _)).
  rewrite Unmarshal_elem by (done || auto with qol). by apply splitDER_encs.
Qed.

Lemma read_explicit_skip n e r :
  tag_ok e -> fits e -> (e_class e, e_tag e) <> (ClassContextSpecific, n) -> (e_body e ++ r)%string <> ""%string ->
  parseField raw_type zero_raw (explicit_tag n) (enc e ++ r)%string = Ok (zero_raw, enc e ++ r)%string.
Proof. apply parseField_skip_explicit. Qed.

(** The two explicit fields of a revocation value, each there or not. *)
Definition explicit_list (n : Z) (l : list string) : list elem :=
  match l with [] => [] | _ => [context n (enc (sequence_ l))] end.
Definition explicit_raw (n : Z) (l : list string) : RawValue :=
  match l with [] => zero_raw | _ => raw_of (context n (enc (sequence_ l))) end.

Lemma enc_not_empty e : enc e <> ""%string.
Proof. intros E. apply (enc_nonempty e ""). by rewrite app_nil_s. Qed.

Lemma read_explicit_list n l r :
  0 <= n < 31 -> (forall e, e ∈ explicit_list n l -> fits e) ->
  (r = "" \/ exists e r', r = (enc e ++ r')%string /\ tag_ok e /\ fits e /\
                          (e_class e, e_tag e) <> (ClassContextSpecific, n) /\ e_body e <> "")%string ->
  parseField raw_type zero_raw (explicit_tag n) (encs (explicit_list n l) ++ r)%string
  = Ok (explicit_raw n l, r).
Proof.
  intros Hn Hf Hr. destruct l as [|x l]; cbn [explicit_list explicit_raw] in *.
  - rewrite encs_nil, nil_app_s. destruct Hr as [->|(e & r' & -> & Ht & Hfe & Hne & Hb)]; [done|].
    apply read_explicit_skip; [done..|]. by destruct (e_body e).
  - rewrite encs_one. apply read_explicit; [split; cbn; unfold ClassContextSpecific; lia|apply Hf; set_solver|done..|].
    apply enc_not_empty.
Qed.

Lemma explicit_sequence n l :
  der_list l -> (forall e, e ∈ explicit_list n l -> fits e) ->
  sequenceElements (rv_bytes (explicit_raw n l)) = l.
Proof.
  intros Hl Hf. destruct l as [|x l]; [done|]. cbn [explicit_raw raw_of rv_bytes context e_body].
  apply sequence_read; [done|]. apply fits_enc. apply (Hf (context n (enc (sequence_ (x :: l))))). set_solver.
Qed.

Lemma revocation_elem_lists ev :
  revocation_elem ev = sequence (encs (explicit_list 0 (ev_crls ev) ++ explicit_list 1 (ev_ocsp ev))).
Proof. unfold revocation_elem. by destruct (ev_crls ev), (ev_ocsp ev). Qed.

Lemma revocation_read ev :
  der_list (ev_ocsp ev) -> der_list (ev_crls ev) -> fits (revocation_elem ev) ->
  attribute_evidence (attr_of (mkAttr oidRevocationValues (set_of (enc (revocation_elem ev)))))
  = mkEvidence (ev_ocsp ev) (ev_crls ev) [].
Proof.
  intros Ho Hc Hf. unfold attribute_evidence. cbn [at_type attr_of a_type at_values a_value raw_of rv_bytes set_of e_body].
  change (oid_eqb oidRevocationValues oidRevocationValues) with true. cbv iota.
  rewrite revocation_elem_lists in *. set (l := explicit_list 0 _ ++ _) in *.
  assert (Hp : forall e, e ∈ l -> fits e) by (intros e He; exact (fits_parts _ _ Hf He)).
  unfold Unmarshal. rewrite <- (app_nil_s (enc _)), read_match;
    [|auto with qol|done|split_and!; [done|by right|by right]|done].
  cbn [ty_parse revocationValues_type struct_type sequence e_body]. subst l. rewrite encs_app.
  rewrite read_explicit_list; [|lia|intros; apply Hp; set_solver|]; cbn [rbind].
  - rewrite <- (app_nil_s (encs (explicit_list 1 _))), read_explicit_list;
      [|lia|intros; apply Hp; set_solver|by left]. cbn [rbind].
    rewrite !explicit_sequence; [done|done|intros; apply Hp; set_solver|done|intros; apply Hp; set_solver].
  - destruct (ev_ocsp ev) as [|y ys]; [by left|right]. cbn [explicit_list]. rewrite encs_one.
    eexists _, ""%string. rewrite app_nil_s. split_and!; [done|auto with qol|apply Hp; set_solver|done|apply enc_not_empty].
Qed.

Lemma certificates_read ev :
  der_list (ev_certs ev) -> fits (sequence_ (ev_certs ev)) ->
  attribute_evidence (attr_of (mkAttr oidCertificateValues (set_of (enc (sequence_ (ev_certs ev))))))
  = mkEvidence [] [] (ev_certs ev).
Proof. intros Hd Hf. unfold attribute_evidence. cbn -[sequenceElements enc]. by rewrite sequence_read. Qed.

Definition gather (e : Evidence) (l : list attr) : Evidence :=
  fold_left (fun e a => ev_app e (attribute_evidence (attr_of a))) l e.

Lemma ev_app_none e : ev_app e no_evidence = e.
Proof. destruct e. unfold ev_app. cbn. by rewrite !app_nil_r. Qed.

Lemma gather_other e l :
  has_attr oidRevocationValues l = false -> has_attr oidCertificateValues l = false -> gather e l = e.
Proof.
  revert e. induction l as [|a l IH]; intros e; [done|]. cbn [has_attr existsb].
  intros [H1 H2]%orb_false_iff [H3 H4]%orb_false_iff. unfold gather. cbn [fold_left].
  unfold attribute_evidence at 2. cbn [at_type attr_of]. rewrite H1, H3, ev_app_none. by apply IH.
Qed.

Lemma gather_app e a b : gather e (a ++ b) = gather (gather e a) b.
Proof. apply fold_left_app. Qed.

Lemma gather_revocation e ev :
  der_list (ev_ocsp ev) -> der_list (ev_crls ev) ->
  (forall a, a ∈ revocation_attrs ev -> fits (attr_elem a)) ->
  gather e (revocation_attrs ev) = ev_app e (mkEvidence (ev_ocsp ev) (ev_crls ev) []).
Proof.
  intros Ho Hc Hf. set (a := mkAttr oidRevocationValues (set_of (enc (revocation_elem ev)))).
  assert (R : revocation_attrs ev = [a] -> fits (revocation_elem ev)).
  { intros E. assert (Fa : fits (attr_elem a)) by (apply Hf; rewrite E; set_solver).
    apply fits_enc, (fits_parts _ (a_value a) Fa). set_solver. }
  pose proof (revocation_read ev Ho Hc) as RR. unfold revocation_attrs in *.
  destruct ev as [[|y ys] [|x xs] k]; cbn [ev_ocsp ev_crls] in *; cbn [gather fold_left];
    [by rewrite ev_app_none|unfold gather; cbn [fold_left]; by rewrite RR by (by apply R)..].
Qed.

Lemma gather_certificates e ev :
  der_list (ev_certs ev) -> (forall a, a ∈ certificate_attrs ev -> fits (attr_elem a)) ->
  gather e (certificate_attrs ev) = ev_app e (mkEvidence [] [] (ev_certs ev)).
Proof.
  intros Hc Hf. pose proof (certificates_read ev Hc) as K. unfold certificate_attrs in *.
  destruct (ev_certs ev) as [|x xs]; [symmetry; apply ev_app_none|].
  unfold gather. cbn [fold_left]. rewrite K; [done|].
  set (a := mkAttr oidCertificateValues (set_of (enc (sequence_ (x :: xs))))) in *.
  assert (Fa : fits (attr_elem a)) by (apply Hf; set_solver).
  apply fits_enc, (fits_parts _ (a_value a) Fa). set_solver.
Qed.

(** The evidence of one embedding, read back. *)
Lemma gather_evidence e ev :
  der_list (ev_ocsp ev) -> der_list (ev_crls ev) -> der_list (ev_certs ev) ->
  (forall a, a ∈ evidence_attrs ev -> fits (attr_elem a)) ->
  gather e (evidence_attrs ev) = ev_app e ev.
Proof.
  intros Ho Hc Hk Hf. unfold evidence_attrs in *.
  rewrite gather_app, gather_revocation, gather_certificates by (done || intros; apply Hf; set_solver).
  unfold ev_app. cbn. by rewrite !app_nil_r.
Qed.

(** ** Reading an archived container *)
Lemma annotate_ok c ev :
  container_ok c -> short (encode (annotate (evidence_attrs ev) c)) ->
  container_ok (annotate (evidence_attrs ev) c).
Proof.
  intros (Hv & Hd & He & Hs & _) Hf. split_and!; [done|done|done| |by apply fits_enc].
  cbn [annotate c_signers]. apply Forall_map. eapply Forall_impl; [exact Hs|].
  intros s (? & ? & ? & ? & Ha). split_and!; [done..|]. cbn.
  apply merge_ok; [exact Ha|apply evidence_attrs_ok].
Qed.

Lemma signer_attrs_fit s : fits (signer_elem s) -> short (encs (map attr_elem (attrs_of s))).
Proof.
  intros Hf. unfold attrs_of. destruct (s_unsigned s) as [l|] eqn:E; cbn; [|done].
  apply (fits_parts _ (attrs_elem l) Hf). unfold unsigned_elems. rewrite E. set_solver.
Qed.

Lemma evidence_loop_spec l e :
  Forall signer_ok l -> Forall (fun s => fits (signer_elem s)) l ->
  evidence_loop (map signer_raw l) e = (fold_left (fun e s => gather e (attrs_of s)) l e, None).
Proof.
  intros Ho Hf. revert e. induction Ho as [|s l Hs Ho IH]; intros e; [done|]. inversion_clear Hf.
  pose proof (signer_attrs_fit s H) as Hs'. destruct Hs as (_ & _ & _ & _ & Ha).
  cbn [map evidence_loop fold_left signer_raw si_unsigned]. unfold attrs_of in *.
  destruct (s_unsigned s) as [[|a t]|]; cbn [fmap option_fmap option_map optional_raw default from_option id] in *.
  - by apply IH.
  - cbn [rv_bytes raw_of attrs_elem context e_body].
    rewrite empty_str_false by apply enc_nonempty. rewrite parseAttributeList_spec by done.
    rewrite IH by done. do 2 f_equal. unfold gather. symmetry. generalize (a :: t) as k. intros k.
    generalize e. clear. induction k; intros e; [done|]. cbn. apply IHk.
  - by apply IH.
Qed.

Lemma EmbeddedEvidence_spec c :
  container_ok c ->
  EmbeddedEvidence (encode c) =
  (fold_left (fun e s => gather e (attrs_of s)) (c_signers c) no_evidence, None).
Proof.
  intros Hc. unfold EmbeddedEvidence. rewrite contentInfo_read by done. cbn [ci_type ci_content rv_bytes raw_of].
  rewrite signedData_Unmarshal by done. cbn [sd_signers sd_of].
  destruct (container_parts c Hc) as (_ & _ & _ & _ & Hf). destruct Hc as (_ & _ & _ & Hs & _).
  by apply evidence_loop_spec.
Qed.

Lemma archived_gather ev c e :
  der_list (ev_ocsp ev) -> der_list (ev_crls ev) -> der_list (ev_certs ev) ->
  container_ok (annotate (evidence_attrs ev) c) -> Forall unarchived (c_signers c) ->
  fold_left (fun e s => gather e (attrs_of s)) (c_signers (annotate (evidence_attrs ev) c)) e
  = Nat.iter (length (c_signers c)) (fun e => ev_app e ev) e.
Proof.
  intros Ho Hc Hk Hok Hu. destruct (container_parts _ Hok) as (_ & _ & _ & _ & Hf).
  cbn [annotate c_signers] in *. revert e. induction Hu as [|s l [H1 H2] Hu IH]; intros e; [done|].
  cbn [map] in Hf. inversion_clear Hf as [|? ? Hfs Hfl]. cbn [map fold_left length].
  assert (E : attrs_of (annotate_signer (evidence_attrs ev) s) = attrs_of s ++ evidence_attrs ev)
    by by apply merge_unarchived.
  rewrite E, gather_app, (gather_other e), gather_evidence, IH; [|done..| |done|done].
  - by rewrite Nat.iter_succ_r.
  - intros a Ha. apply (attrs_fit (attrs_of (annotate_signer (evidence_attrs ev) s)));
      [by apply signer_attrs_fit|]. rewrite E. set_solver.
Qed.

(** C8: Embedding evidence implements its specification on the syntax. On the
    DER of a well-formed container, [AddLTV] returns the DER of a container
    whose version, digests, content, certificates and CRLs, and whose signers'
    signed parts, are element for element those of the original; each signer's
    unsigned attributes are the original ones followed by some of the evidence
    attributes, and every evidence attribute is present. *)
Theorem add_ltv_implements c ev :
  container_ok c -> c_signers c <> [] -> ev_empty ev = false ->
  exists c', AddLTV (encode c) ev = Ok (encode c') /\
    header_elems c' = header_elems c /\
    map signed_elems (c_signers c') = map signed_elems (c_signers c) /\
    Forall2 (fun s s' => exists new, attrs_of s' = attrs_of s ++ new /\ new ⊆ evidence_attrs ev /\
                 forall a, a ∈ evidence_attrs ev -> has_attr (a_type a) (attrs_of s') = true)
      (c_signers c) (c_signers c').
Proof.
  intros Hc Hne Hev. exists (annotate (evidence_attrs ev) c). split; [by apply AddLTV_spec|].
  split; [done|]. cbn [annotate c_signers]. split; [by rewrite map_map|].
  apply Forall2_fmap_r, Forall_Forall2_diag, Forall_forall. intros s _.
  destruct (merge_app (attrs_of s) (evidence_attrs ev)) as (n & E & Hn). exists n.
  split_and!; [exact E|exact Hn|]. intros a Ha.
  change (has_attr (a_type a) (merge_attrs (attrs_of s) (evidence_attrs ev)) = true).
  rewrite merge_has, (has_attr_in _ _ Ha). apply orb_true_r.
Qed.

(** C9: What is archived can be read back. Embedding evidence into a container
    none of whose signers carries any, and reading the result, gives that
    evidence: each OCSP response, CRL and certificate byte for byte and in
    order, once per signer. *)
Theorem ltv_roundtrip c ev out :
  container_ok c -> c_signers c <> [] -> Forall unarchived (c_signers c) -> ev_empty ev = false ->
  der_list (ev_ocsp ev) -> der_list (ev_crls ev) -> der_list (ev_certs ev) ->
  AddLTV (encode c) ev = Ok out -> short out ->
  EmbeddedEvidence out = (Nat.iter (length (c_signers c)) (fun e => ev_app e ev) no_evidence, None).
Proof.
  intros Hc Hne Hu Hev Ho Hr Hk. rewrite AddLTV_spec by done. intros [= <-] Hs.
  pose proof (annotate_ok c ev Hc Hs) as Hok.
  by rewrite EmbeddedEvidence_spec, archived_gather by done.
Qed.

(** ** Signers *)
Lemma last_attribute_app {A} ty (read : string -> option A) a b :
  existsb (fun x => oid_eqb (at_type x) ty) b = false ->
  last_attribute ty read (a ++ b) = last_attribute ty read a.
Proof.
  intros Hb. unfold last_attribute. rewrite fold_left_app. generalize (fold_left
    (fun acc x => if oid_eqb (at_type x) ty then
       match read (rv_bytes (at_values x)) with Some y => Some y | None => acc end else acc) a None).
  induction b as [|x b IH]; intros acc; [done|]. cbn in *. apply orb_false_iff in Hb as [-> Hb]. by apply IH.
Qed.

Lemma unsigned_attributes s :
  signer_ok s -> fits (signer_elem s) ->
  parseAttributes (optional_raw (attrs_elem <$> s_unsigned s)) = map attr_of (attrs_of s).
Proof.
  intros (_ & _ & _ & _ & Ha) Hf. pose proof (signer_attrs_fit s Hf) as Hs. unfold attrs_of in *.
  destruct (s_unsigned s); [by apply parseAttributes_spec|done].
Qed.

Lemma evidence_attrs_types ev a :
  a ∈ evidence_attrs ev -> a_type a = oidRevocationValues \/ a_type a = oidCertificateValues.
Proof.
  unfold evidence_attrs, revocation_attrs, certificate_attrs. intros [H|H]%elem_of_app.
  - destruct (ev_ocsp ev), (ev_crls ev); [by apply elem_of_nil in H|..];
      apply list_elem_of_singleton in H as ->; by left.
  - destruct (ev_certs ev); [by apply elem_of_nil in H|]. apply list_elem_of_singleton in H as ->. by right.
Qed.

Lemma facts_annotated pu pg ev s :
  signer_ok s -> signer_ok (annotate_signer (evidence_attrs ev) s) ->
  fits (signer_elem s) -> fits (signer_elem (annotate_signer (evidence_attrs ev) s)) ->
  signer_facts pu pg (signer_raw (annotate_signer (evidence_attrs ev) s)) = signer_facts pu pg (signer_raw s).
Proof.
  intros Hs Hs' Hf Hf'. unfold signer_facts.
  assert (E : forall s0, si_sid (signer_raw s0) = raw_of (s_sid s0)
            /\ si_unsigned (signer_raw s0) = optional_raw (attrs_elem <$> s_unsigned s0)) by done.
  rewrite !(proj1 (E _)), !(proj2 (E _)), !unsigned_attributes by done.
  change (attrs_of (annotate_signer (evidence_attrs ev) s)) with (merge_attrs (attrs_of s) (evidence_attrs ev)).
  destruct (merge_app (attrs_of s) (evidence_attrs ev)) as (n' & -> & Hn').
  rewrite map_app, last_attribute_app; [done|]. apply existsb_none. intros x Hx.
  apply list_elem_of_fmap in Hx as (a & -> & Ha%Hn'). by destruct (evidence_attrs_types ev a Ha) as [E1|E1];
    cbn [at_type attr_of]; rewrite E1.
Qed.

(** Archiving does not disturb the signatures. Whatever the time parsers,
    the signers read from the archived container are those read from the
    original: same certificates' serial numbers and key identifiers,
    algorithms, signing times, timestamp tokens and signature values. *)
Theorem ltv_keeps_signers parse_utc parse_generalized c ev out :
  container_ok c -> c_signers c <> [] -> ev_empty ev = false ->
  AddLTV (encode c) ev = Ok out -> short out ->
  exists sgs, ParseSigners parse_utc parse_generalized (encode c) = Ok sgs /\
    ParseSigners parse_utc parse_generalized out = Ok sgs /\ length sgs = length (c_signers c).
Proof.
  intros Hc Hne Hev. rewrite AddLTV_spec by done. intros [= <-] Hs.
  pose proof (annotate_ok c ev Hc Hs) as Hok. unfold ParseSigners.
  rewrite !parseSignedData_spec by done. cbn [rbind sd_signers sd_of].
  eexists. split; [done|]. split; [|by rewrite !length_map]. f_equal.
  destruct (container_parts c Hc) as (_ & _ & _ & _ & Hf).
  destruct (container_parts _ Hok) as (_ & _ & _ & _ & Hf').
  destruct Hc as (_ & _ & _ & Ho & _). destruct Hok as (_ & _ & _ & Ho' & _).
  cbn [annotate c_signers] in *. rewrite !map_map. clear -Hf Hf' Ho Ho'.
  induction (c_signers c) as [|s l IH]; [done|]. cbn [map] in *.
  inversion_clear Hf. inversion_clear Hf'. inversion_clear Ho. inversion_clear Ho'.
  f_equal; [by apply facts_annotated|by apply IH].
Qed.

(** ** Archiving again *)
Definition same_kinds (ev' ev : Evidence) : Prop :=
  forall a, a ∈ evidence_attrs ev' -> has_attr (a_type a) (evidence_attrs ev) = true.

Lemma annotate_again c ev ev' :
  container_ok c -> c_signers c <> [] -> short (encode (annotate (evidence_attrs ev) c)) ->
  ev_empty ev' = false -> same_kinds ev' ev ->
  AddLTV (encode (annotate (evidence_attrs ev) c)) ev' = Ok (encode (annotate (evidence_attrs ev) c)).
Proof.
  intros Hc Hne Hs Hev' Hk.
  rewrite AddLTV_spec; [|by apply annotate_ok|by cbn; destruct (c_signers c)|done].
  f_equal. f_equal. unfold annotate. cbn [c_version c_digests c_encap c_certs c_crls c_signers]. f_equal.
  rewrite map_map. apply map_ext. intros s. unfold annotate_signer. cbn. do 2 f_equal.
  apply merge_present. intros a Ha. rewrite merge_has, (Hk a Ha). apply orb_true_r.
Qed.

(** An archived container is left alone: embedding evidence of the kinds
    it already carries, even other evidence, returns it unchanged. *)
Theorem ltv_idempotent c ev ev' out :
  container_ok c -> c_signers c <> [] -> ev_empty ev = false ->
  AddLTV (encode c) ev = Ok out -> short out -> ev_empty ev' = false -> same_kinds ev' ev ->
  AddLTV out ev' = Ok out.
Proof.
  intros Hc Hne Hev. rewrite AddLTV_spec by done. intros [= <-] Hs Hev' Hk.
  by apply annotate_again.
Qed.

(** ** A container to run on *)
Definition lab_oid (o : oid) : string := enc (oid_elem o).
Definition lab_alg (o : oid) : string := lab_oid o.
Definition lab_bytes (l : list Z) : string := fold_right (fun z s => String (byte_of z) s) ""%string l.
Definition lab_sid : elem := sequence (encs [sequence ""; integer_ (lab_bytes [0; 171; 205])]).
Definition lab_signer : signer :=
  mkSigner (lab_bytes [1]) lab_sid (lab_alg [2; 16; 840; 1; 101; 3; 4; 2; 1]) None
    (lab_alg [1; 2; 398; 3; 10; 1; 1; 2; 3; 2]) (lab_bytes [1; 2]) None.
Definition lab_container : container :=
  mkContainer (lab_bytes [1]) (set_of "") (sequence (lab_oid [1; 2; 840; 113549; 1; 7; 1])) None None
    [lab_signer; lab_signer].
Definition lab_evidence : Evidence :=
  mkEvidence [enc (sequence (enc (octets "ocsp-response")))] [enc (sequence (enc (octets "crl")))]
    [enc (sequence (enc (octets "issuer-cert")))].

Lemma lab_container_ok : container_ok lab_container.
Proof.
  assert (Hs : signer_ok lab_signer) by (split_and!; [done|auto with qol|vm_compute; reflexivity..|constructor]).
  split_and!; [done|auto with qol|auto with qol|by repeat constructor|vm_compute; reflexivity].
Qed.

Lemma lab_der x : der_list [enc (sequence (enc (octets x)))].
Proof. eexists [sequence _]. split; [apply Forall_singleton; auto with qol|done]. Qed.

Definition lab_archived : string :=
  match AddLTV (encode lab_container) lab_evidence with Ok s => s | Err _ => "" end.
Lemma lab_archived_ok : AddLTV (encode lab_container) lab_evidence = Ok lab_archived.
Proof. vm_compute. reflexivity. Qed.

Lemma add_ltv_implements_witness :
  exists c', AddLTV (encode lab_container) lab_evidence = Ok (encode c') /\
    header_elems c' = header_elems lab_container /\
    map signed_elems (c_signers c') = map signed_elems (c_signers lab_container) /\
    Forall2 (fun s s' => exists new, attrs_of s' = attrs_of s ++ new /\ new ⊆ evidence_attrs lab_evidence /\
                 forall a, a ∈ evidence_attrs lab_evidence -> has_attr (a_type a) (attrs_of s') = true)
      (c_signers lab_container) (c_signers c').
Proof. apply (add_ltv_implements lab_container lab_evidence); [apply lab_container_ok|done|done]. Defined.

Lemma ltv_roundtrip_witness :
  EmbeddedEvidence lab_archived = (ev_app (ev_app no_evidence lab_evidence) lab_evidence, None).
Proof.
  apply (ltv_roundtrip lab_container lab_evidence lab_archived);
    [apply lab_container_ok|done| |done|apply lab_der|apply lab_der|apply lab_der|apply lab_archived_ok|
     vm_compute; reflexivity].
  by repeat constructor.
Defined.

Lemma ltv_keeps_signers_witness :
  exists sgs, ParseSigners (fun _ => None) (fun _ => None) (encode lab_container) = Ok sgs /\
    ParseSigners (fun _ => None) (fun _ => None) lab_archived = Ok sgs /\ length sgs = 2%nat.
Proof.
  apply (ltv_keeps_signers (fun _ => None) (fun _ => None) lab_container lab_evidence lab_archived);
    [apply lab_container_ok|done|done|apply lab_archived_ok|vm_compute; reflexivity].
Defined.

(** Newer responses for a container that already carries revocation values. *)
Definition lab_newer : Evidence := mkEvidence [enc (sequence (enc (octets "newer response")))] [] [].

Lemma lab_same_kinds : same_kinds lab_newer lab_evidence.
Proof. intros a Ha. by apply list_elem_of_singleton in Ha as ->. Qed.

Lemma ltv_idempotent_witness : AddLTV lab_archived lab_newer = Ok lab_archived.
Proof.
  apply (ltv_idempotent lab_container lab_evidence lab_newer lab_archived);
    [apply lab_container_ok|done|done|apply lab_archived_ok|vm_compute; reflexivity|done|apply lab_same_kinds].
Defined.

(** ** Two behaviours the comments do not promise *)

(** A SignedData with a byte after its signer set: its signers read, and
    [AddLTV] answers with bytes that are no container any more. *)
Definition lab_trailing : string :=
  enc (sequence (encs [oid_elem oidSignedData; context 0 (enc (sequence
    (encs (header_elems lab_container ++ [signer_set lab_container]) ++ lab_bytes [0])))])).
Lemma trailing_byte_corrupts :
  is_ok (ParseSigners (fun _ => None) (fun _ => None) lab_trailing) = true /\
  (is_ok <$> ((fun out => ParseSigners (fun _ => None) (fun _ => None) out)
              <$> res_value (AddLTV lab_trailing lab_evidence))) = Some false.
Proof. split; vm_compute; reflexivity. Qed.

(** A timestamp token whose TSTInfo names its TSA and has no accuracy, ordering
    or nonce: the optional raw accuracy takes the element and the name is lost. *)
Definition lab_tst (optional : list elem) : string :=
  let tst := sequence (encs ([integer_ (lab_bytes [1]); oid_elem [1; 2; 398; 3; 3; 2; 6; 4];
               sequence (encs [sequence (lab_alg [2; 16; 840; 1; 101; 3; 4; 2; 1]); octets "hash"]);
               integer_ (lab_bytes [18; 52]); mkElem ClassUniversal TagGeneralizedTime false "20260508064513Z"]
               ++ optional)) in
  let eci := sequence (encs [oid_elem oidTSTInfo; context 0 (enc (octets (enc tst)))]) in
  encode (mkContainer (lab_bytes [3]) (set_of "") eci None None []).
Definition lab_tsa : elem := context 0 (enc (mkElem ClassContextSpecific 2 false "tsa.example")).
Definition lab_accuracy : elem := sequence (enc (integer_ (lab_bytes [1]))).
Lemma tsa_name_lost :
  (ct_tsa <$> res_value (ParseTimestampToken (fun _ => Some 7) (fun _ => Some 7) (lab_tst [lab_accuracy; lab_tsa])))
    = Some "tsa.example"%string /\
  (ct_tsa <$> res_value (ParseTimestampToken (fun _ => Some 7) (fun _ => Some 7) (lab_tst [lab_tsa])))
    = Some ""%string.
Proof. split; vm_compute; reflexivity. Qed.
