(* ===== verification/Verify.v ===== *)
(** * Signature verification (internal/core/service.go: Verify and what it calls;
    timestamp.go, receipt.go, ltv.go, signers.go).

    Containers are read and rewritten by Cms; the time formats and the digests
    are the record [cmslib]; the native library is behind the provider port. *)
From S2P Require Import Prelude Errors Provider Native Pki CoreTypes CertParse Explain Chain Service Asn1 Cms.

(** ** What lies under package cms: the time formats, and the digests computed in
    Go, by algorithm OID *)
Record cmslib := mkCmslib {
  parse_utc : string -> option time; parse_generalized : string -> option time;
  sha1 : string -> string; sha256 : string -> string; sha384 : string -> string;
  sha512 : string -> string; streebog256 : string -> string; streebog512 : string -> string;
  oid_name : string -> string;
}.
Definition parse_signers (cl : cmslib) (der : string) : option (list cms_signer) :=
  res_value (ParseSigners (parse_utc cl) (parse_generalized cl) der).

(** ** signers.go *)

(** [strings.TrimLeft(h, "0")]. *)
Fixpoint trim_zeros (s : string) : string :=
  match s with
  | String c t => if Ascii.eqb c "0" then trim_zeros t else s
  | EmptyString => EmptyString
  end.

(** [normHex]. *)
Definition normHex (h : string) : string :=
  let h := trim_zeros (to_upper (trim_space h)) in
  if empty_str h then "0" else h.

(** [timestampFromCMS]. *)
Definition timestampFromCMS (t : cms_timestamp) : Timestamp :=
  let n := HashNameForOID (ct_hash_oid t) in
  mkTimestamp (ct_serial t) (ct_gen_time t) (ct_policy t) (ct_tsa t)
    (if empty_str n then ct_hash_oid t else n) (ct_hash t) None "" None "" "" None "".

(** ** timestamp.go *)
Definition oidSHA384 : string := "2.16.840.1.101.3.4.2.2".
Definition oidSHA512 : string := "2.16.840.1.101.3.4.2.3".
Definition oidGOST34311 : string := "1.2.398.3.10.1.1.1".
Definition gostDigestName : string := "GOST34311".

(** [policyLabel]. *)
Definition policyLabel (oid name : string) : string :=
  if negb (empty_str name) then name ++ " (" ++ oid ++ ")"
  else if empty_str oid then "(none)" else oid.

(** [timestampWarning]. *)
Definition timestampWarning (note : string) : string :=
  "timestamp present but not accepted as CAdES-T: " ++
  (if empty_str note then "the token's message imprint could not be checked" else note).

(** [firstNonEmptyString]. *)
Definition firstNonEmptyString (l : list string) : string :=
  match find_first (fun v => negb (empty_str v)) l with Some v => v | None => "" end.

(** The copies that set one field of a timestamp, a signer or an outcome. *)
Definition ts_checked (t : Timestamp) (imp sig : option bool * string)
    (pol : string * option bool * string) : Timestamp :=
  mkTimestamp (ts_serial t) (ts_gen_time t) (ts_policy t) (ts_tsa t) (ts_hash_alg t) (ts_hash t)
    (fst imp) (snd imp) (fst sig) (snd sig) (fst (fst pol)) (snd (fst pol)) (snd pol).
Definition sg_set_valid (sg : Signer) (v : bool) : Signer :=
  mkSigner (sg_certificate sg) (sg_chain sg) v (sg_signing_time sg) (sg_sig_alg sg)
    (sg_timestamp sg) (sg_chain_complete sg) (sg_trust_anchor sg) (sg_chain_sigs sg) (sg_cades sg)
    (sg_verify_info sg) (sg_claims sg) (sg_revocation sg).
Definition sg_set_claims (sg : Signer) : Signer :=
  mkSigner (sg_certificate sg) (sg_chain sg) (sg_valid sg) (sg_signing_time sg) (sg_sig_alg sg)
    (sg_timestamp sg) (sg_chain_complete sg) (sg_trust_anchor sg) (sg_chain_sigs sg) (sg_cades sg)
    (sg_verify_info sg) (Some (ClaimsFromCertificate (sg_certificate sg))) (sg_revocation sg).
Definition sg_set_revocation (sg : Signer) (v : bool) (r : option RevocationStatus) : Signer :=
  mkSigner (sg_certificate sg) (sg_chain sg) v (sg_signing_time sg) (sg_sig_alg sg)
    (sg_timestamp sg) (sg_chain_complete sg) (sg_trust_anchor sg) (sg_chain_sigs sg) (sg_cades sg)
    (sg_verify_info sg) (sg_claims sg) r.
Definition sg_set_timestamp (sg : Signer) (level : string) (t : option Timestamp) : Signer :=
  mkSigner (sg_certificate sg) (sg_chain sg) (sg_valid sg) (sg_signing_time sg) (sg_sig_alg sg)
    t (sg_chain_complete sg) (sg_trust_anchor sg) (sg_chain_sigs sg) level
    (sg_verify_info sg) (sg_claims sg) (sg_revocation sg).
Definition sg_set_facts (sg : Signer) (st : option time) (alg : string) : Signer :=
  mkSigner (sg_certificate sg) (sg_chain sg) (sg_valid sg) st alg
    (sg_timestamp sg) (sg_chain_complete sg) (sg_trust_anchor sg) (sg_chain_sigs sg) (sg_cades sg)
    (sg_verify_info sg) (sg_claims sg) (sg_revocation sg).

Section Verify.
  Context {W : Type} (lb : libs) (cl : cmslib) (s : service W) (loc : Locale).

Notation pem := (pem_decode lb).

(** [sigAlgName]. *)
Definition sigAlgName (oid : string) : string :=
  if str_eqb oid SignGOST2015_256 then "GOST R 34.10-2015 256"
  else if str_eqb oid SignGOST2015_512 then "GOST R 34.10-2015 512"
  else if str_eqb oid SignSHA256RSA then "SHA256withRSA"
  else if str_eqb oid SignSHA1RSA then "SHA1withRSA"
  else if empty_str oid then ""
  else if negb (empty_str (oid_name cl oid)) then oid_name cl oid else oid.

(** [cmsSignersBySerial]: the last signer of a serial wins. *)
Definition cmsSignersBySerial (format : SignatureFormat) (signature : string)
    : gmap string cms_signer :=
  if negb (bool_decide (format = FormatCMS)) || empty_str signature then ∅
  else match parse_signers cl (pemToDER pem signature) with
  | None => ∅
  | Some l =>
      fold_left (fun m si => if empty_str (cs_serial si) then m
                             else <[normHex (cs_serial si) := si]> m) l ∅
  end.

(** [digestFor]. *)
Definition digestFor (oid data : string) : M W (res goerr string) :=
  if str_eqb oid "1.3.14.3.2.26" then mret (Ok (sha1 cl data))
  else if str_eqb oid "2.16.840.1.101.3.4.2.1" then mret (Ok (sha256 cl data))
  else if str_eqb oid oidSHA384 then mret (Ok (sha384 cl data))
  else if str_eqb oid oidSHA512 then mret (Ok (sha512 cl data))
  else if str_eqb oid "1.2.398.3.10.1.3.3" then mret (Ok (streebog512 cl data))
  else if str_eqb oid "1.2.398.3.10.1.3.2" then mret (Ok (streebog256 cl data))
  else if negb (str_eqb oid "1.2.398.3.10.1.1.1.1") && negb (str_eqb oid oidGOST34311)
          && negb (str_eqb oid "1.2.398.3.10.1.3.1")
  then mret (Err (New ("unsupported imprint digest " ++ oid)))
  else if negb (c_hash (p_caps (prov s)))
  then mret (Err (New ("the loaded library cannot compute " ++ gostDigestName)))
  else
    (let* (h, err) := p_hash (prov s) gostDigestName data in
     mret (match err with
           | Some e => Err (Wrap ("could not compute the " ++ gostDigestName ++ " imprint: ") e)
           | None => Ok h
           end))%m.

(** [verifyTimestampImprint]. *)
Definition verifyTimestampImprint (si : cms_signer) : M W (option bool * string) :=
  match cs_timestamp si with
  | None => mret (None, "no timestamp token"%string)
  | Some ts =>
      if empty_str (ct_hash ts) then mret (None, "the token carries no message imprint"%string)
      else if empty_str (cs_signature si)
      then mret (None, "the signature value could not be read from the container"%string)
      else
        (let* r := digestFor (ct_hash_oid ts) (cs_signature si) in
         mret (match r with
               | Err e => (None, err_text e)
               | Ok digest =>
                   if str_eqb digest (ct_hash ts) then (Some true, ""%string)
                   else (Some false, "the token's message imprint does not match this signature"%string)
               end))%m
  end.

(** [verifyTimestampSignature]. *)
Definition verifyTimestampSignature (ts : cms_timestamp) (trusted : list TrustedCert)
    : M W (option bool * string) :=
  if empty_str (ct_raw ts) then mret (None, "the token bytes were not retained"%string)
  else
    (let* (res, err) := p_verify_cms (prov s)
       (mkVerifyRequest (ct_raw ts) "" "" false false false false 0 trusted) in
     mret (match err with
           | None => if v_valid res then (Some true, ""%string)
                     else (Some false, "the TSA signature over the token did not verify"%string)
           | Some e =>
               if isSoftVerifyFailure e then
                 (Some false, ("the TSA signature over the token did not verify: "
                               ++ x_message (ExplainDomainIn loc e))%string)
               else (None, ("the TSA signature could not be checked: " ++ err_text e)%string)
           end))%m.

(** [checkTimestampPolicy]. *)
Definition checkTimestampPolicy (policy : string) : string * option bool * string :=
  let name := TSAPolicyName policy in
  match tsaPolicies s with
  | [] =>
      (name, None,
       if empty_str policy then "the token names no policy; none is enforced"
       else if empty_str name
       then "policy is outside the NUC TSA arc; no allow-list is configured, so nothing is enforced"
       else "no policy allow-list is configured, so nothing is enforced")%string
  | allowed =>
      if str_mem policy allowed then (name, Some true, ""%string)
      else (name, Some false,
            ("policy " ++ policyLabel policy name ++ " is not in the configured allow-list")%string)
  end.

(** ** buildSigners *)

(** The timestamp block of one signer (lines 871-898). *)
Definition check_timestamp (i : Z) (sg : Signer) (si : cms_signer) (t : cms_timestamp)
    (trusted : list TrustedCert) (w : warnings) : M W (Signer * warnings) :=
  (let* imp := verifyTimestampImprint si in
   let* sig := verifyTimestampSignature t trusted in
   let pol := checkTimestampPolicy (ct_policy t) in
   let ts := ts_checked (timestampFromCMS t) imp sig pol in
   let refused := match snd (fst pol) with Some b => negb b | None => false end in
   let held := bool_decide (fst imp = Some true) && bool_decide (fst sig = Some true)
               && negb refused in
   if held then mret (sg_set_timestamp sg "T" (Some ts), w)
   else
     let note := if refused then snd pol else firstNonEmptyString [snd imp; snd sig] in
     mret (sg_set_timestamp sg (sg_cades sg) (Some ts),
           w_add ("signers[" ++ dec_of_Z i ++ "].timestamp") (timestampWarning note) w))%m.

(** One turn of the loop of [buildSigners]. *)
Definition build_signer (i : Z) (res : VerifyResult) (bySerial : gmap string cms_signer)
    (trusted : list TrustedCert) (pemCert : string) (w : warnings) : M W (Signer * warnings) :=
  let leafDER := pemToDER pem pemCert in
  (let* (props, err) := p_cert_properties (prov s) pemCert CertPEM in
   let '(cert, w1) :=
     match err with
     | Some e =>
         (mkCertificate empty_subject empty_subject "" None None "" "" "" "" "" "" [] "" [] [] "" []
            [] [] [] false pemCert, w_add_err "signers[]" e w)
     | None => parseCertificate (x509_parse lb) (encode_cert lb) (b64_decode lb) (parse_time lb)
                 props leafDER "signers[]." w
     end in
   let* (chain, complete, anchored) := build lb cert leafDER trusted (fetcher_of s) in
   let* crypto := if verifyChain s then cryptoVerifyChain lb s pemCert chain else mret false in
   let sg := mkSigner cert chain (v_valid res) None "" None complete anchored crypto "BES"
               (v_info res) None None in
   let* (sg, w2) :=
     match bySerial !! normHex (c_serial cert) with
     | None => mret (sg, w1)
     | Some si =>
         let sg := sg_set_facts sg (cs_signing_time si) (sigAlgName (cs_sig_alg si)) in
         match cs_timestamp si with
         | None => mret (sg, w1)
         | Some t => check_timestamp i sg si t trusted w1
         end
     end in
   let sg := if empty_str (sg_sig_alg sg)
             then sg_set_facts sg (sg_signing_time sg) (c_sig_alg cert) else sg in
   let sg := match sg_timestamp sg with
             | None =>
                 if (i =? 0) && negb (is_zero (v_timestamp res)) then
                   sg_set_timestamp sg (sg_cades sg) (Some (mkTimestamp "" (Some (v_timestamp res)) "" ""
                     "" "" None
                     "only the library's genTime was available; the token itself could not be read or checked"
                     None "" "" None ""))
                 else sg
             | Some _ => sg
             end in
   mret (sg, w2))%m.

Fixpoint build_signers_loop (i : Z) (res : VerifyResult) (bySerial : gmap string cms_signer)
    (trusted : list TrustedCert) (certs : list string) (w : warnings) : M W (list Signer * warnings) :=
  match certs with
  | [] => mret ([], w)
  | c :: t =>
      (let* (sg, w1) := build_signer i res bySerial trusted c w in
       let* (rest, w2) := build_signers_loop (i + 1) res bySerial trusted t w1 in
       mret (sg :: rest, w2))%m
  end.

(** [buildSigners]. *)
Definition buildSigners (res : VerifyResult) (format : SignatureFormat) (signature : string)
    (trusted : list TrustedCert) (w : warnings) : M W (list Signer * warnings) :=
  match v_signers res with
  | [] => mret ([], w)
  | certs => build_signers_loop 0 res (cmsSignersBySerial format signature) trusted certs w
  end.

(** [verifyContainer]. *)
Definition verifyContainer (format : SignatureFormat) (req : VerifyRequest)
    : M W (result VerifyResult) :=
  if bool_decide (format = FormatCMS) then p_verify_cms (prov s) req else p_verify_xml (prov s) req.

(** [signerDERs]. *)
Definition signerDERs (certs : list string) : list string :=
  filter (fun d => negb (empty_str d)) (map (pemToDER pem) certs).

Definition req_with (r : VerifyRequest) (checkTime : bool) (trusted : list TrustedCert)
    : VerifyRequest :=
  mkVerifyRequest (vr_signature r) (vr_data r) (vr_path r) (vr_detached r) (vr_input_pem r)
    (vr_out_pem r) checkTime (vr_signer_index r) trusted.

(** The facts [compositeConfirms] asks of each signer (lines 1015-1023). *)
Definition signer_confirmed (clock : time) (sg : Signer) : bool :=
  sg_chain_sigs sg && sg_trust_anchor sg &&
  match c_not_before (sg_certificate sg), c_not_after (sg_certificate sg) with
  | Some nb, Some na => negb (before clock nb) && negb (after clock na)
  | _, _ => false
  end.

(** [compositeConfirms]. *)
Definition compositeConfirms (req : VerifyRequest) (format : SignatureFormat)
    (signers : list Signer) : M W bool :=
  match signers with
  | [] => mret false
  | _ =>
      (let* clock := mget (now s) in
       if negb (forallb (signer_confirmed clock) signers) then mret false
       else
         let* (res, err) := verifyContainer format (req_with req false (vr_trusted req)) in
         mret (match err with None => v_valid res | Some _ => false end))%m
  end.

(** ** checkRevocation *)

(** What the loop of [checkRevocation] accumulates besides the signers. *)
Record rev_acc := mkRevAcc { ra_valid : bool; ra_responses : list string; ra_warn : warnings }.

(** The method the check runs with. *)
Definition rev_method (i : VerifyInput) : RevMethod :=
  match vi_revocation_method i with MethodOther "" => MethodOCSP | m => m end.

(** One turn of the loop. *)
Definition check_one (i : VerifyInput) (trusted : list TrustedCert) (n : Z) (sg : Signer)
    (a : rev_acc) : M W (Signer * rev_acc) :=
  let field := ("signers[" ++ dec_of_Z n ++ "].revocation")%string in
  let cert := sg_certificate sg in
  if empty_str (c_pem cert) then
    mret (sg, mkRevAcc (ra_valid a) (ra_responses a)
                (w_add field "no certificate to check revocation for" (ra_warn a)))
  else
    (let* (res, err) := Validate lb s loc
       (mkValidateInput (c_pem cert) EncodingPEM (rev_method i) time_zero (vi_archive i) trusted
          (vi_responder_url i) "") in
     match err with
     | Some e =>
         mret (sg_set_revocation sg (sg_valid sg)
                 (Some (mkRevocation false false (rev_method i) None "" None None None None None)),
               mkRevAcc (ra_valid a) (ra_responses a) (w_add_err field e (ra_warn a)))
     | None =>
         let st := vao_status res in
         let repudiated := r_determinate st && r_revoked st in
         let w1 := if negb (r_determinate st)
                   then w_add field "revocation status could not be established" (ra_warn a)
                   else ra_warn a in
         let has := negb (empty_str (vao_ocsp res)) in
         let w2 := if negb has && vi_archive i
                   then w_add field "responder returned no reusable response to embed" w1 else w1 in
         mret (sg_set_revocation sg (if repudiated then false else sg_valid sg) (Some st),
               mkRevAcc (if repudiated then false else ra_valid a)
                 (if has then ra_responses a ++ [vao_ocsp res] else ra_responses a) w2)
     end)%m.

(** [checkRevocation]. *)
Fixpoint checkRevocation (i : VerifyInput) (trusted : list TrustedCert) (n : Z)
    (signers : list Signer) (a : rev_acc) : M W (list Signer * rev_acc) :=
  match signers with
  | [] => mret ([], a)
  | sg :: t =>
      (let* (sg', a1) := check_one i trusted n sg a in
       let* (rest, a2) := checkRevocation i trusted (n + 1) t a1 in
       mret (sg' :: rest, a2))%m
  end.

(** ** Archiving (ltv.go) *)

(** [embedEvidence]. *)
Definition embedEvidence (signature : string) (inputPEM outputPEM : bool) (ev : Evidence)
    : res goerr ArchiveOutput :=
  if ev_empty ev then
    Err (New "no long-term validation evidence could be collected (responder unreachable, or nothing to embed)")
  else
    (let? der := (if inputPEM
                  then match pem signature with
                       | Some b => Ok b
                       | None => Err (New "signature is not valid PEM")
                       end
                  else Ok signature) in
     let? archived := AddLTV der ev in
     Ok (mkArchive (if outputPEM then pem_encode lb "CMS" archived else archived)
           (Z.of_nat (length (ev_ocsp ev))) (Z.of_nat (length (ev_crls ev)))
           (Z.of_nat (length (ev_certs ev))) "LT" []))%res.

(** The evidence [attachArchive] collects from the chains. *)
Definition chain_ders (signers : list Signer) : list string :=
  filter (fun d => negb (empty_str d))
    (signers ≫= fun sg => map (fun c => pemToDER pem (c_pem c)) (sg_chain sg)).

(** [attachArchive]: the archive and the warnings. *)
Definition attachArchive (i : VerifyInput) (signers : list Signer) (ocsp : list string) (w : warnings)
    : option ArchiveOutput * warnings :=
  if negb (bool_decide (vi_format i = FormatCMS)) then
    (None, w_add "archive" "long-term validation evidence can only be embedded into CMS" w)
  else match embedEvidence (vi_signature i) (vi_input_pem i) (vi_input_pem i)
               (mkEvidence ocsp [] (chain_ders signers)) with
  | Err e => (None, w_add_err "archive" e w)
  | Ok a => (Some a, w)
  end.

(** [reencodeCMS]. *)
Definition reencodeCMS (sig : string) (fromPEM toPEM : bool) : res goerr string :=
  if Bool.eqb fromPEM toPEM then Ok sig
  else if toPEM then Ok (pem_encode lb "CMS" sig)
  else match pem sig with
       | Some b => Ok b
       | None => Err (New "archived container is not valid PEM")
       end.

(** [ArchivedEvidence]: the counts of what a container carries, and the error. *)
Definition ArchivedEvidence (signature : string) (inputPEM : bool) : res goerr (Z * Z * Z) :=
  let invalid e := Err (Domain KindInvalid "ArchivedEvidence" (Some e)) in
  match (if inputPEM then pem signature else Some signature) with
  | None => invalid (New "signature is not valid PEM")
  | Some der =>
      match EmbeddedEvidence der with
      | (_, Some e) => invalid e
      | (ev, None) => Ok (Z.of_nat (length (ev_ocsp ev)), Z.of_nat (length (ev_crls ev)),
                          Z.of_nat (length (ev_certs ev)))
      end
  end.

(** ** receipt.go *)
Definition receiptType : string := "qoltanba.verification-receipt.v1".

(** [issueReceipt]: the token and the error. *)
Definition issueReceipt (report : option VerificationReport) (clock : time)
    : M W (string * option goerr) :=
  match receiptSigner s, report with
  | Some sign, Some rep =>
      (let* id := receiptRandom s in
       match id with
       | Err e => mret (""%string, Some (Wrap "receipt id: " e))
       | Ok id =>
           let* token := sign (mkReceiptClaims receiptType (receiptIssuer s) (Native.unix clock) id
                                 (rep_verdict rep) rep) in
           mret (match token with
                 | Err e => (""%string, Some (Wrap "sign receipt: " e))
                 | Ok t => (t, None)
                 end)
       end)%m
  | _, _ => mret (""%string, None)
  end.

(** ** Synthesis *)

(** The event [attachSynthesis] records. *)
Definition verify_event (i : VerifyInput) (out : VerifyOutput) : AuditEvent :=
  mkAuditEvent "verify" (digestOf (sha256_hex lb) (vi_signature i))
    (match vo_signers out with
     | [] => ""
     | sg :: _ => let subj := c_subject (sg_certificate sg) in
                  firstNonEmptyString [s_iin subj; s_bin subj; s_common_name subj]
     end)
    (if vo_valid out then "valid" else "invalid")
    (match vo_lib_error out with Some le => le_key le | None => "" end).

Definition recordAudit (ev : AuditEvent) : M W unit :=
  match audit s with Some record => record ev | None => mret tt end.

(** [attachSynthesis]. *)
Definition attachSynthesis (i : VerifyInput) (out : VerifyOutput) : M W VerifyOutput :=
  (let* clock := mget (now s) in
   let expl := if vi_explain i
               then Some (buildDiagnosis out (vi_check_cert_time i) (verifyChain s) clock)
               else vo_explanation out in
   let out1 := mkVerifyOutput (vo_valid out) (vo_format out) (vo_detached out) (vo_signers out)
                 (vo_content out) (vo_warnings out) (vo_lib_error out) expl (vo_report out)
                 (vo_receipt out) (vo_archive out) in
   let rep := if vi_report i || vi_receipt i
              then Some (buildReport (sha256_hex lb) out1 (vi_check_cert_time i) (verifyChain s)
                           (vi_signature i) (vo_content out1) clock)
              else vo_report out1 in
   let* (token, warns) :=
     if vi_receipt i then
       let* (token, err) := issueReceipt rep clock in
       mret (token, match err with
                    | Some e => vo_warnings out1 ++ [mkWarning "receipt" (err_text e)]
                    | None => vo_warnings out1
                    end)
     else mret (vo_receipt out1, vo_warnings out1) in
   let* _ := recordAudit (verify_event i out1) in
   mret (mkVerifyOutput (vo_valid out1) (vo_format out1) (vo_detached out1) (vo_signers out1)
           (vo_content out1) warns (vo_lib_error out1) expl (if vi_report i then rep else None)
           token (vo_archive out1)))%m.

(** ** Verify *)
Definition domain_invalid (op msg : string) : goerr := Domain KindInvalid op (Some (New msg)).

(** [resolveData]: the path and the release. *)
Definition resolveData (op : string) (ref : DataRef) : M W (res goerr (string * M W unit)) :=
  if negb (IsRef ref) then mret (Ok (""%string, mret tt))
  else match dataResolver s with
  | None => mret (Err (Domain KindUnavailable op
                         (Some (New "by-reference data requires a configured data resolver"))))
  | Some resolve =>
      (let* r := resolve ref in
       mret (match r with
             | Err e => Err (match as_domain e with Some _ => e | None => domainErr op e end)
             | Ok d => Ok d
             end))%m
  end.

(** The first verify and the retry with discovered anchors (lines 332-345):
    the result, its error, the trusted set and the request in force. *)
Definition verify_with_retry (i : VerifyInput) (req : VerifyRequest) (trusted : list TrustedCert)
    : M W (VerifyResult * option goerr * list TrustedCert * VerifyRequest) :=
  (let* (res, err) := verifyContainer (vi_format i) req in
   let retry := match fetcher_of s with Some _ => true | None => false end
                && vi_check_cert_time i && isAnchorFailure err
                && negb (Nat.eqb (length (v_signers res)) 0) in
   if negb retry then mret (res, err, trusted, req)
   else
     let* extra := discoverAnchors lb s (signerDERs (v_signers res)) trusted in
     match extra with
     | [] => mret (res, err, trusted, req)
     | _ =>
         let trusted' := trusted ++ extra in
         let req' := req_with req (vr_check_cert_time req) trusted' in
         let* (res', err') := verifyContainer (vi_format i) req' in
         mret (res', err', trusted', req')
     end)%m.

(** The verdict before revocation: validity, error, signers and warnings
    (lines 347-380). *)
Definition verify_override (i : VerifyInput) (req : VerifyRequest) (valid : bool)
    (err : option goerr) (signers : list Signer) (w : warnings)
    : M W (bool * option goerr * list Signer * warnings) :=
  (let* confirmed :=
     if negb valid && verifyChain s && vi_check_cert_time i && isAnchorFailure err
     then compositeConfirms req (vi_format i) signers else mret false in
   if confirmed then
     mret (true, None, map (fun sg => sg_set_valid sg true) signers,
           w_add "verify" "cert-time-anchor-override: library rejected the time-checked verify (GOST-2015 VerifyData quirk); signature math, cryptographic chain to a trusted anchor and validity window independently confirm the signature" w)
   else mret (valid, err, signers, w))%m.

(** The revocation check and the archive (lines 385-390). *)
Definition verify_revocation (i : VerifyInput) (trusted : list TrustedCert) (valid : bool)
    (signers : list Signer) (w : warnings)
    : M W (bool * list Signer * option ArchiveOutput * warnings) :=
  if valid && RevocationRequested i then
    (let* (signers', a) := checkRevocation i trusted 0 signers (mkRevAcc valid [] w) in
     let '(archive, w2) := if vi_archive i
                           then attachArchive i signers' (ra_responses a) (ra_warn a)
                           else (None, ra_warn a) in
     mret (ra_valid a, signers', archive, w2))%m
  else mret (valid, signers, None, w).

(** [Verify]. *)
Definition Verify (i : VerifyInput) : M W (result VerifyOutput) :=
  let none := mkVerifyOutput false (FormatOther "") false [] "" [] None None None "" None in
  if negb (format_valid (vi_format i)) then
    mret (none, Some (domain_invalid "Verify" "unknown signature format"))
  else if IsRef (vi_data_ref i) && negb (bool_decide (vi_format i = FormatCMS)) then
    mret (none, Some (domain_invalid "Verify" "by-reference data supported for CMS only"))
  else
    (let* data := resolveData "Verify" (vi_data_ref i) in
     match data with
     | Err e => mret (none, Some e)
     | Ok (path, release) =>
         let* trusted0 := mergedTrusted s (vi_trusted i) in
         let req0 := mkVerifyRequest (vi_signature i) (vi_data i) path (vi_detached i)
                       (vi_input_pem i) true (vi_check_cert_time i) 0 trusted0 in
         let* (res, err0, trusted, req) := verify_with_retry i req0 trusted0 in
         let* (signers0, w0) := buildSigners res (vi_format i) (vi_signature i) trusted [] in
         let content := if vi_extract_content i then v_content res else ""%string in
         let signers1 := if vi_extract_claims i then map sg_set_claims signers0 else signers0 in
         let* (valid1, err, signers2, w1) :=
           verify_override i req (v_valid res) err0 signers1 w0 in
         let* (valid2, signers3, archive, w2) :=
           verify_revocation i trusted valid1 signers2 w1 in
         let nobody := valid2 && Nat.eqb (length signers3) 0 in
         let w3 := if nobody
                   then w_add "verify" "the signature verified but no signer could be identified; a verdict that names nobody is not a verdict" w2
                   else w2 in
         let mk le := mkVerifyOutput (valid2 && negb nobody) (vi_format i) (vi_detached i) signers3
                        content w3 le None None "" archive in
         let* out :=
           match err with
           | Some e =>
               if isSoftVerifyFailure e then
                 let* o := attachSynthesis i (mk (Some (libErrorFrom loc e))) in mret (o, None)
               else mret (mk None, Some (domainErr "Verify" e))
           | None => let* o := attachSynthesis i (mk None) in mret (o, None)
           end in
         let* _ := release in
         mret out
     end)%m.

(** ** Lemmas *)

(** Synthesis adds views; it never touches the verdict or the signers. *)
Lemma attachSynthesis_same i out w w' out' :
  attachSynthesis i out w = Done (w', out') ->
  vo_valid out' = vo_valid out /\ vo_signers out' = vo_signers out /\
  vo_lib_error out' = vo_lib_error out.
Proof.
  unfold attachSynthesis. intros (w1 & clock & _ & H)%mbind_done.
  apply mbind_done in H as (w2 & [token warns] & _ & H).
  apply mbind_done in H as (w3 & u & _ & [_ ->]%mret_done). done.
Qed.

(** What the revocation loop establishes about one checked signer. *)
Definition checked (valid : bool) (sg : Signer) : Prop :=
  (c_pem (sg_certificate sg) <> ""%string -> sg_revocation sg <> None) /\
  (valid = true -> forall r, c_pem (sg_certificate sg) <> ""%string ->
     sg_revocation sg = Some r -> r_determinate r = true -> r_revoked r = false).

Lemma check_one_spec i trusted n sg a w w' sg' a' :
  check_one i trusted n sg a w = Done (w', (sg', a')) ->
  checked (ra_valid a') sg' /\ (ra_valid a' = true -> ra_valid a = true) /\
  sg_certificate sg' = sg_certificate sg.
Proof.
  unfold check_one. destruct (empty_str (c_pem (sg_certificate sg))) eqn:He.
  - apply str_eqb_eq in He. intros [_ H]%mret_done. simplify_eq/=. split_and!; [|done|done].
    split; intros; congruence.
  - intros (w1 & [res err] & _ & H)%mbind_done. destruct err as [e|];
      apply mret_done in H as [_ H]; simplify_eq/=.
    + split_and!; [split; [done|]|done|done]. intros _ r _ [= <-]. done.
    + split_and!; [split; [done|]|by destruct (_ && _)|done].
      intros Hv r _ [= <-] Hd. rewrite Hd in Hv. by destruct (r_revoked (vao_status res)).
Qed.

Lemma checkRevocation_spec i trusted n signers a w w' signers' a' :
  checkRevocation i trusted n signers a w = Done (w', (signers', a')) ->
  (forall sg, sg ∈ signers' -> checked (ra_valid a') sg) /\
  (ra_valid a' = true -> ra_valid a = true) /\ length signers' = length signers.
Proof.
  revert n a w signers' a'. induction signers as [|sg t IH]; intros n a w signers' a' H; simpl in H.
  - apply mret_done in H as [_ H]. simplify_eq. split_and!; auto.
    intros sg Hsg. by apply elem_of_nil in Hsg.
  - apply mbind_done in H as (w1 & [sg1 a1] & H1 & H).
    apply mbind_done in H as (w2 & [rest a2] & H2 & H). apply mret_done in H as [Hw H]. simplify_eq.
    destruct (check_one_spec _ _ _ _ _ _ _ _ _ H1) as (Hc & Hv & _).
    destruct (IH _ _ _ _ _ H2) as (Hr & Hv2 & Hl).
    split_and!; [|auto|simpl; by rewrite Hl].
    intros x [->|Hx]%elem_of_cons; [|auto]. destruct Hc as [Hc1 Hc2]. split; [done|].
    intros Ht. apply Hc2. auto.
Qed.

Lemma verify_revocation_spec i trusted valid signers w0 w w' valid' signers' ar w1 :
  verify_revocation i trusted valid signers w0 w = Done (w', (valid', signers', ar, w1)) ->
  valid' = true ->
  valid = true /\ (RevocationRequested i = true -> forall sg, sg ∈ signers' -> checked true sg).
Proof.
  unfold verify_revocation. intros H Hv. destruct (valid && RevocationRequested i) eqn:Hc.
  - apply andb_true_iff in Hc as [-> _].
    apply mbind_done in H as (w2 & [sgs a] & Hr & H).
    destruct (checkRevocation_spec _ _ _ _ _ _ _ _ _ Hr) as (Hs & _ & _).
    split; [done|]. intros _.
    destruct (if vi_archive i then _ else _) as [ar' w3].
    apply mret_done in H as [_ [= -> -> _ _]]. by rewrite Hv in Hs.
  - apply mret_done in H as [_ H]. simplify_eq. split; [done|]. intros Hreq.
    by rewrite Hreq in Hc.
Qed.

(** The library said, for this container, that the signature holds. *)
Definition math_held (i : VerifyInput) : Prop :=
  exists req w1 w2 res e, vr_signature req = vi_signature i /\
    verifyContainer (vi_format i) req w1 = Done (w2, (res, e)) /\ v_valid res = true.

Lemma verify_with_retry_spec i req trusted w w' res err trusted' req' :
  verify_with_retry i req trusted w = Done (w', (res, err, trusted', req')) ->
  vr_signature req = vi_signature i ->
  vr_signature req' = vi_signature i /\ (v_valid res = true -> math_held i).
Proof.
  unfold verify_with_retry. intros (w1 & [r0 e0] & H0 & H)%mbind_done Hs.
  assert (v_valid r0 = true -> math_held i) as Hm0 by (intros ?; by exists req, w, w1, r0, e0).
  destruct (negb _); [apply mret_done in H as [_ H]; by simplify_eq|].
  apply mbind_done in H as (w2 & extra & _ & H). destruct extra as [|x t].
  - apply mret_done in H as [_ H]. by simplify_eq.
  - apply mbind_done in H as (w3 & [r1 e1] & H1 & H). apply mret_done in H as [_ H]. simplify_eq.
    split; [done|]. intros Hv. by exists (req_with req (vr_check_cert_time req) (trusted ++ x :: t)), w2, w3, r1, e1.
Qed.

Lemma compositeConfirms_spec req format signers w w' :
  compositeConfirms req format signers w = Done (w', true) ->
  signers <> [] /\ forallb (signer_confirmed (now s w)) signers = true /\
  exists w1 w2 res, verifyContainer format (req_with req false (vr_trusted req)) w1
      = Done (w2, (res, None)) /\ v_valid res = true.
Proof.
  unfold compositeConfirms. destruct signers as [|sg t]; [intros [_ ?]%mret_done; done|].
  intros (w1 & clock & Hc & H)%mbind_done. injection Hc as <- <-.
  destruct (negb _) eqn:Hf; [by apply mret_done in H as [_ ?]|].
  apply mbind_done in H as (w2 & [res err] & Hv & H). apply mret_done in H as [_ H].
  apply negb_false_iff in Hf. split_and!; [done|done|].
  destruct err; [done|]. by exists w, w2, res.
Qed.

Lemma verify_override_spec i req valid err signers w0 w w' valid' err' signers' w1 :
  verify_override i req valid err signers w0 w = Done (w', (valid', err', signers', w1)) ->
  vr_signature req = vi_signature i -> valid' = true -> valid = true \/ math_held i.
Proof.
  unfold verify_override. intros (w2 & c & Hc & H)%mbind_done Hs Hv. destruct c.
  - right. destruct (negb valid && _ && _ && _); [|by apply mret_done in Hc as [_ ?]].
    destruct (compositeConfirms_spec _ _ _ _ _ Hc) as (_ & _ & x & y & res & Hx & Hr).
    by exists (req_with req false (vr_trusted req)), x, y, res, None.
  - apply mret_done in H as [_ H]. simplify_eq. by left.
Qed.

(** ** Theorems *)

(** C1: A valid verification is never empty, unproved or repudiated: it names
    at least one signer, the library confirmed the signature mathematics of
    this very container, and, when the revocation check is on (the default),
    every signer with a certificate was checked and none of them is known to be
    revoked. *)
Theorem verify_valid_sound i w w' out :
  Verify i w = Done (w', (out, None)) -> vo_valid out = true ->
  vo_signers out <> [] /\ math_held i /\
  (RevocationRequested i = true ->
   forall sg, sg ∈ vo_signers out -> c_pem (sg_certificate sg) <> ""%string ->
     exists r, sg_revocation sg = Some r /\ (r_determinate r = true -> r_revoked r = false)).
Proof.
  unfold Verify. intros H Hv.
  destruct (negb _); [by apply mret_done in H as [_ ?]|].
  destruct (IsRef (vi_data_ref i) && _); [by apply mret_done in H as [_ ?]|].
  apply mbind_done in H as (w1 & [[path release]|e] & _ & H); [|by apply mret_done in H as [_ ?]].
  apply mbind_done in H as (w2 & trusted0 & _ & H).
  apply mbind_done in H as (w3 & [[[res err0] trusted] req] & Hr & H).
  apply mbind_done in H as (w4 & [signers0 wn0] & _ & H).
  apply mbind_done in H as (w5 & [[[valid1 err] signers2] wn1] & Ho & H).
  apply mbind_done in H as (w6 & [[[valid2 signers3] archive] wn2] & Hrev & H).
  apply mbind_done in H as (w7 & o & Hout & H).
  apply mbind_done in H as (w8 & u & _ & [_ <-]%mret_done).
  assert (exists le w9 w10 o0, attachSynthesis i
      (mkVerifyOutput (valid2 && negb (valid2 && Nat.eqb (length signers3) 0)) (vi_format i)
         (vi_detached i) signers3 (if vi_extract_content i then v_content res else ""%string)
         (if valid2 && Nat.eqb (length signers3) 0
          then w_add "verify" "the signature verified but no signer could be identified; a verdict that names nobody is not a verdict" wn2
          else wn2) le None None "" archive) w9 = Done (w10, o0) /\ o0 = out) as (le & w9 & w10 & o0 & Hs & ->).
  { destruct err as [e|]; [destruct (isSoftVerifyFailure e)|].
    - apply mbind_done in Hout as (w9 & o & Ho' & [_ [= ->]]%mret_done). eauto 6.
    - by apply mret_done in Hout as [_ ?].
    - apply mbind_done in Hout as (w9 & o & Ho' & [_ [= ->]]%mret_done). eauto 6. }
  destruct (attachSynthesis_same _ _ _ _ _ Hs) as (Hvalid & Hsg & _). simpl in Hvalid, Hsg.
  rewrite Hv in Hvalid. symmetry in Hvalid.
  apply andb_true_iff in Hvalid as [Hv2 Hnb]. rewrite Hv2 in Hnb. simpl in Hnb.
  destruct (verify_revocation_spec _ _ _ _ _ _ _ _ _ _ _ Hrev Hv2) as [Hv1 Hchk].
  destruct (verify_with_retry_spec _ _ _ _ _ _ _ _ _ Hr eq_refl) as [Hreq Hmath].
  rewrite Hsg. split_and!.
  - intros ->. done.
  - destruct (verify_override_spec _ _ _ _ _ _ _ _ _ _ _ _ Ho Hreq Hv1); auto.
  - intros Hrq sg Hin Hpem. destruct (Hchk Hrq sg Hin) as [H1 H2].
    destruct (sg_revocation sg) as [r|] eqn:Er; [|by destruct (H1 Hpem)].
    exists r. split; [done|]. by apply H2.
Qed.

(** The cert-time override is never weaker than the checks it replaces.
    It turns an invalid library verdict into a valid one only when chain
    verification is on, the time check was on and the failure was an anchor
    failure, there is a signer, every signer's chain verified cryptographically
    to a trusted anchor with the clock inside its window, and a second verify
    of the same container without the time gate succeeded. *)
Theorem override_sound i req err signers w0 w w' err' signers' w1 :
  verify_override i req false err signers w0 w = Done (w', (true, err', signers', w1)) ->
  verifyChain s = true /\ vi_check_cert_time i = true /\ isAnchorFailure err = true /\
  signers <> [] /\
  (forall sg, sg ∈ signers -> sg_chain_sigs sg = true /\ sg_trust_anchor sg = true /\
     exists nb na, c_not_before (sg_certificate sg) = Some nb /\
       c_not_after (sg_certificate sg) = Some na /\ nb <= now s w <= na) /\
  exists w2 w3 res, verifyContainer (vi_format i) (req_with req false (vr_trusted req)) w2
      = Done (w3, (res, None)) /\ v_valid res = true.
Proof.
  unfold verify_override. intros (w2 & c & Hc & H)%mbind_done. destruct c.
  2:{ apply mret_done in H as [_ H]. by simplify_eq. }
  simpl in Hc. destruct (verifyChain s); [|by apply mret_done in Hc as [_ ?]].
  destruct (vi_check_cert_time i); [|by apply mret_done in Hc as [_ ?]].
  destruct (isAnchorFailure err); [|by apply mret_done in Hc as [_ ?]]. simpl in Hc.
  destruct (compositeConfirms_spec _ _ _ _ _ Hc) as (Hne & Hall & Hm).
  split_and!; auto. intros sg Hsg. pose proof (forallb_elem _ _ _ Hall Hsg) as Hsc.
  unfold signer_confirmed in Hsc. apply andb_true_iff in Hsc as [Hsc Hw].
  apply andb_true_iff in Hsc as [H1 H2]. split_and!; auto.
  destruct (c_not_before (sg_certificate sg)) as [nb|], (c_not_after (sg_certificate sg)) as [na|];
    try done. unfold before, after in Hw. boolp. exists nb, na. split_and!; auto; lia.
Qed.

Lemma imprint_true si w w' note :
  verifyTimestampImprint si w = Done (w', (Some true, note)) ->
  exists t w1 w2, cs_timestamp si = Some t /\
    digestFor (ct_hash_oid t) (cs_signature si) w1 = Done (w2, Ok (ct_hash t)).
Proof.
  unfold verifyTimestampImprint. destruct (cs_timestamp si) as [t|]; [|intros [_ ?]%mret_done; done].
  destruct (empty_str (ct_hash t)); [intros [_ ?]%mret_done; done|].
  destruct (empty_str (cs_signature si)); [intros [_ ?]%mret_done; done|].
  intros (w1 & [d|e] & Hd & H)%mbind_done; apply mret_done in H as [_ H]; [|done].
  destruct (str_eqb d (ct_hash t)) eqn:Hq; [|done]. apply str_eqb_eq in Hq. subst.
  by exists t, w, w1.
Qed.

Lemma tsa_signature_true t trusted w w' note :
  verifyTimestampSignature t trusted w = Done (w', (Some true, note)) ->
  exists w1 w2 res,
    p_verify_cms (prov s) (mkVerifyRequest (ct_raw t) "" "" false false false false 0 trusted) w1
      = Done (w2, (res, None)) /\ v_valid res = true.
Proof.
  unfold verifyTimestampSignature. destruct (empty_str (ct_raw t)); [intros [_ ?]%mret_done; done|].
  intros (w1 & [res err] & Hv & H)%mbind_done. apply mret_done in H as [_ H].
  destruct err as [e|]; [by destruct (isSoftVerifyFailure e)|].
  destruct (v_valid res) eqn:Hr; [|done]. by exists w, w1, res.
Qed.

(** What stands behind a level T: the token of [si] over its own signature value,
    verified under the request's bytes, with a policy that is not refused. *)
Definition token_holds (si : cms_signer) : Prop :=
  exists t, cs_timestamp si = Some t /\
    (exists w1 w2, digestFor (ct_hash_oid t) (cs_signature si) w1 = Done (w2, Ok (ct_hash t))) /\
    (exists trusted w1 w2 res,
       p_verify_cms (prov s) (mkVerifyRequest (ct_raw t) "" "" false false false false 0 trusted) w1
         = Done (w2, (res, None)) /\ v_valid res = true) /\
    (tsaPolicies s = [] \/ ct_policy t ∈ tsaPolicies s).

Lemma check_timestamp_level n sg si t trusted wn w w' sg' wn' :
  check_timestamp n sg si t trusted wn w = Done (w', (sg', wn')) -> cs_timestamp si = Some t ->
  sg_certificate sg' = sg_certificate sg /\
  (sg_cades sg = "BES"%string -> sg_cades sg' = "T"%string -> token_holds si).
Proof.
  unfold check_timestamp. intros H Hsi.
  apply mbind_done in H as (w1 & [imp inote] & Hi & H).
  apply mbind_done in H as (w2 & [sig snote] & Hs & H). cbv zeta in H. cbn [fst] in H.
  match type of H with (if ?b then _ else _) _ = _ => destruct b eqn:Hc end.
  2:{ apply mret_done in H as [_ [= -> _]]. split; [done|]. simpl. congruence. }
  apply mret_done in H as [_ [= -> _]]. split; [done|]. intros _ _.
  apply andb_true_iff in Hc as [Hc Hp]. apply andb_true_iff in Hc as [H1 H2].
  apply bool_decide_eq_true in H1, H2. subst imp sig. exists t. split; [done|]. split_and!.
  - apply imprint_true in Hi as (t' & w3 & w4 & Ht' & Hd). rewrite Hsi in Ht'. injection Ht' as <-. by exists w3, w4.
  - exists trusted. by eapply tsa_signature_true.
  - unfold checkTimestampPolicy in Hp. destruct (tsaPolicies s) as [|a l]; [by left|right].
    destruct (str_mem (ct_policy t) (a :: l)) eqn:Hm; [by apply str_mem_spec in Hm|done].
Qed.

(** A signer's level is one that its container backs, by the serial. *)
Definition backed (bySerial : gmap string cms_signer) (sg : Signer) : Prop :=
  sg_cades sg = "T"%string ->
  exists si, bySerial !! normHex (c_serial (sg_certificate sg)) = Some si /\ token_holds si.
(** Later stages keep a signer's certificate and level. *)
Definition same_level (sg sg' : Signer) : Prop :=
  sg_certificate sg' = sg_certificate sg /\ sg_cades sg' = sg_cades sg.
Lemma backed_same m sg sg' : same_level sg sg' -> backed m sg -> backed m sg'.
Proof. unfold backed. by intros [-> ->]. Qed.

Lemma build_signer_backed n res m trusted c wn w w' sg wn' :
  build_signer n res m trusted c wn w = Done (w', (sg, wn')) -> backed m sg.
Proof.
  unfold build_signer. intros (w1 & [props err] & _ & H)%mbind_done.
  match type of H with (let '(cert, w1) := ?x in _) _ = _ => destruct x as [cert wc] end.
  apply mbind_done in H as (w2 & [[chain complete] anchored] & _ & H).
  apply mbind_done in H as (w3 & crypto & _ & H). cbv zeta in H.
  apply mbind_done in H as (w4 & [sg1 wn1] & Hsg & H). apply mret_done in H as [_ [= -> _]].
  assert (backed m sg1) as Hb.
  { destruct (m !! normHex (c_serial cert)) as [si|] eqn:Em; [|by apply mret_done in Hsg as [_ [= -> _]]].
    destruct (cs_timestamp si) as [t|] eqn:Et; [|by apply mret_done in Hsg as [_ [= -> _]]].
    destruct (check_timestamp_level _ _ _ _ _ _ _ _ _ _ Hsg Et) as [Hc Hl]. intros HT. exists si.
    rewrite Hc. split; [done|]. by apply Hl. }
  eapply backed_same; [|exact Hb].
  destruct (empty_str (sg_sig_alg sg1)); cbn [sg_timestamp sg_set_facts]; destruct (sg_timestamp sg1); try done;
    by destruct (_ && _).
Qed.

Lemma build_signers_backed n res m trusted certs : forall wn w w' l wn',
  build_signers_loop n res m trusted certs wn w = Done (w', (l, wn')) -> Forall (backed m) l.
Proof.
  revert n. induction certs as [|c certs IH]; intros n wn w w' l wn' H; cbn in H; [by apply mret_done in H as [_ [= -> _]]|].
  apply mbind_done in H as (w1 & [sg w2] & H1 & H). apply mbind_done in H as (w3 & [rest w4] & H2 & H).
  apply mret_done in H as [_ [= -> _]]. constructor; [by eapply build_signer_backed|by eapply IH].
Qed.

Lemma check_one_level i trusted n sg a w w' sg' a' :
  check_one i trusted n sg a w = Done (w', (sg', a')) -> same_level sg sg'.
Proof.
  unfold check_one. destruct (empty_str _); [by intros [_ [= -> _]]%mret_done|].
  intros (w1 & [res err] & _ & H)%mbind_done. destruct err; by apply mret_done in H as [_ [= -> _]].
Qed.
Lemma checkRevocation_level m i trusted l : forall n a w w' l' a',
  checkRevocation i trusted n l a w = Done (w', (l', a')) -> Forall (backed m) l -> Forall (backed m) l'.
Proof.
  induction l as [|sg l IH]; intros n a w w' l' a' H Hl; cbn in H; [by apply mret_done in H as [_ [= -> _]]|].
  apply mbind_done in H as (w1 & [sg' a1] & H1 & H). apply mbind_done in H as (w2 & [rest a2] & H2 & H).
  apply mret_done in H as [_ [= -> _]]. apply Forall_cons in Hl as [Hs Hl]. constructor; [|by eapply IH].
  eapply backed_same; [|done]. by eapply check_one_level.
Qed.
Lemma map_backed m f l : (forall sg, same_level sg (f sg)) -> Forall (backed m) l -> Forall (backed m) (map f l).
Proof. intros Hf. induction 1; cbn; constructor; [by eapply backed_same|done]. Qed.

(** The map by serial holds signers of the container. *)
Lemma bySerial_parsed format signature k si : cmsSignersBySerial format signature !! k = Some si ->
  format = FormatCMS /\ exists l, parse_signers cl (pemToDER pem signature) = Some l /\ si ∈ l /\ normHex (cs_serial si) = k.
Proof.
  unfold cmsSignersBySerial. destruct (negb _ || _) eqn:Ef; [done|]. boolp. destruct (parse_signers _ _) as [l|]; [|done].
  intros Hk. split; [done|]. exists l. split; [done|].
  assert (forall l0 (m0 : gmap string cms_signer),
    fold_left (fun m si => if empty_str (cs_serial si) then m else <[normHex (cs_serial si) := si]> m) l0 m0 !! k = Some si ->
    m0 !! k = Some si \/ si ∈ l0 /\ normHex (cs_serial si) = k) as Hfold.
  { induction l0 as [|x l0 IH]; intros m0 Hm; cbn in Hm; [by left|].
    apply IH in Hm as [Hm|[? ?]]; [|right; split; [by right|done]].
    destruct (empty_str (cs_serial x)); [by left|]. apply lookup_insert_Some in Hm as [[<- <-]|[_ Hm]]; [|by left].
    right. split; [by left|done]. }
  apply Hfold in Hk as [Hk|?]; [|done]. by rewrite lookup_empty in Hk.
Qed.

(** C4: A verification reports the level CAdES-T for a signer only over a genuine
    timestamp: whatever [Verify] answers, a signer at level T belongs to a CMS
    container, in which a signer info with the serial of its certificate carries a
    token; the token's imprint is the digest of that signature value under the
    token's algorithm, the library verified the TSA's signature over the token's
    bytes without error, and the operator's allow-list, if there is one, has its
    policy. *)
Theorem cades_t_sound i w w' out err sg :
  Verify i w = Done (w', (out, err)) -> sg ∈ vo_signers out -> sg_cades sg = "T"%string ->
  vi_format i = FormatCMS /\
  exists l si, parse_signers cl (pemToDER pem (vi_signature i)) = Some l /\ si ∈ l /\
    normHex (cs_serial si) = normHex (c_serial (sg_certificate sg)) /\ token_holds si.
Proof.
  intros H Hin HT.
  enough (Forall (backed (cmsSignersBySerial (vi_format i) (vi_signature i))) (vo_signers out)) as Hall.
  { rewrite Forall_forall in Hall. destruct (Hall sg Hin HT) as (si & Hk & Hh).
    apply bySerial_parsed in Hk as (Hf & l & Hl & Hsi & Hn). split; [done|]. by exists l, si. }
  clear sg Hin HT. unfold Verify in H.
  destruct (negb _); [by apply mret_done in H as [_ [= -> _]]|].
  destruct (IsRef (vi_data_ref i) && _); [by apply mret_done in H as [_ [= -> _]]|].
  apply mbind_done in H as (w1 & [[path release]|e] & _ & H); [|by apply mret_done in H as [_ [= -> _]]].
  apply mbind_done in H as (w2 & trusted0 & _ & H).
  apply mbind_done in H as (w3 & [[[res err0] trusted] req] & _ & H).
  apply mbind_done in H as (w4 & [signers0 wn0] & Hb & H).
  apply mbind_done in H as (w5 & [[[valid1 err1] signers2] wn1] & Ho & H).
  apply mbind_done in H as (w6 & [[[valid2 signers3] archive] wn2] & Hrev & H).
  apply mbind_done in H as (w7 & o & Hout & H).
  apply mbind_done in H as (w8 & u & _ & [_ <-]%mret_done).
  set (m := cmsSignersBySerial (vi_format i) (vi_signature i)) in *.
  assert (Forall (backed m) signers0) as H0.
  { unfold buildSigners in Hb. destruct (v_signers res) as [|c certs]; [by apply mret_done in Hb as [_ [= -> _]]|].
    by eapply build_signers_backed. }
  assert (Forall (backed m) signers2) as H2.
  { unfold verify_override in Ho. apply mbind_done in Ho as (w9 & c & _ & Ho).
    assert (Forall (backed m) (if vi_extract_claims i then map sg_set_claims signers0 else signers0)) as H1
      by (destruct (vi_extract_claims i); [by apply map_backed|done]).
    destruct c; apply mret_done in Ho as [_ [= _ _ -> _]]; [by apply map_backed|done]. }
  assert (Forall (backed m) signers3) as H3.
  { unfold verify_revocation in Hrev. destruct (valid1 && _); [|by apply mret_done in Hrev as [_ [= _ -> _ _]]].
    apply mbind_done in Hrev as (w9 & [sgs a] & Hr & Hrev).
    destruct (if vi_archive i then _ else _) as [ar' w10]. apply mret_done in Hrev as [_ [= _ -> _ _]].
    by eapply checkRevocation_level. }
  destruct err1 as [e|]; [destruct (isSoftVerifyFailure e)|];
    [apply mbind_done in Hout as (w9 & o1 & Hs & [_ [= -> _]]%mret_done)|by apply mret_done in Hout as [_ [= -> _]]
    |apply mbind_done in Hout as (w9 & o1 & Hs & [_ [= -> _]]%mret_done)];
    apply attachSynthesis_same in Hs as (_ & -> & _); exact H3.
Qed.
End Verify.

(** ** A concrete deployment: the leaf "L" issued by the self-issued "R"; the
    library accepts "L"'s containers once "R" is among the loaded CAs. *)
Definition leaf_x509 : x509cert :=
  mkX509 "L" "L" "R" toy_name toy_name 1 0 100 false 0 "" "" ["http://ocsp"%string] [] [] [].
Definition root_x509 : x509cert :=
  mkX509 "R" "R" "R" toy_name toy_name 2 0 100 true 0 "" "" [] [] [] [].
Definition lab_libs : libs :=
  mkLibs (fun d => if str_eqb d "L" then Some leaf_x509
                   else if str_eqb d "R" then Some root_x509 else None)
    (fun _ => None) (fun _ s => s) (fun _ => None) (fun v => if str_eqb v "t0" then Some 0 else Some 100)
    (fun _ _ => None) (fun _ => None) (fun _ => None) (fun s => s).
Definition lab_cms : cmslib :=
  mkCmslib (fun _ => None) (fun _ => None) (fun s => s) (fun s => s) (fun s => s) (fun s => s)
    (fun s => s) (fun s => s) (fun _ => ""%string).
Definition lab_verify (r : VerifyRequest) : result VerifyResult :=
  if existsb (fun t => str_eqb (tc_cert t) "R") (vr_trusted r) || negb (vr_check_cert_time r)
  then (mkVerifyResult true "" "" "L" ["L"%string] 0 0, None)
  else (mkVerifyResult false "" "" "L" ["L"%string] 0 kcrCertTimeInvalid,
        Some (NewNativeError "VerifyCMS" kcrCertTimeInvalid "" (Some ErrCertTimeInvalid))).
Definition lab_provider : provider_port unit :=
  mkProviderPort unit all_caps (fun _ => mret (""%string, None)) (fun _ => mret (""%string, None))
    (fun _ => mret (""%string, None)) (fun r => mret (lab_verify r)) (fun _ => mret (empty_verify, None))
    (fun _ _ => mret (""%string, None))
    (fun _ _ => mret ([mkCertField 0 "NOTBEFORE" "t0" "" true; mkCertField 0 "NOTAFTER" "t1" "" true;
                       mkCertField 0 "CERT_SN" "01" "" true], None))
    (fun _ => mret (mkValidateResult StatusGood "" "" 0, None)) (fun _ d => mret (d, None)).
Definition lab_fetch : @fetcher unit := fun d => mret (if str_eqb d "L" then Some "R"%string else None).
(** The service with the given fetcher and configured anchors. *)
Definition lab_service (f : option (@fetcher unit)) (anchors : list TrustedCert) : service unit :=
  mkService unit lab_provider None (Some (fun _ => anchors)) f None false true false "" (fun _ => 50)
    false None None None None "" (mret (Ok ""%string)) []
    (mkTempPort unit (fun _ => mret (Ok ""%string)) (fun _ => mret tt)).
Definition lab_input : VerifyInput :=
  mkVerifyInput FormatCMS "cms" "" no_ref false false true false false false false false [] None
    MethodOCSP "" false.
Definition run {A} (r : outcome (unit * A)) (d : A) : A :=
  match r with Done (_, a) => a | Panic => d end.
Definition lab_output (f : option (@fetcher unit)) (anchors : list TrustedCert) : VerifyOutput :=
  fst (run (Verify lab_libs lab_cms (lab_service f anchors) LocaleEN lab_input tt)
         (mkVerifyOutput false FormatCMS false [] "" [] None None None "" None, None)).

Lemma verify_valid_sound_witness :
  vo_signers (lab_output None [mkTrusted "R" false]) <> [] /\
  math_held (lab_service None [mkTrusted "R" false]) lab_input /\
  (RevocationRequested lab_input = true ->
   forall sg, sg ∈ vo_signers (lab_output None [mkTrusted "R" false]) ->
     c_pem (sg_certificate sg) <> ""%string ->
     exists r, sg_revocation sg = Some r /\ (r_determinate r = true -> r_revoked r = false)).
Proof.
  apply (verify_valid_sound lab_libs lab_cms (lab_service None [mkTrusted "R" false]) LocaleEN
           lab_input tt tt (lab_output None [mkTrusted "R" false])); vm_compute; reflexivity.
Defined.

(** A library whose time-checked verify misfires on a chain it validates. *)
Definition quirk_signer : Signer :=
  mkSigner (mkCertificate empty_subject empty_subject "" (Some 0) (Some 100) "" "" "" "" "" "" [] ""
              [] [] "" [] [] [] [] false "L") [] false None "" None true true true "BES" "" None None.

Lemma override_sound_witness :
  verifyChain (lab_service None []) = true /\ vi_check_cert_time lab_input = true /\
  isAnchorFailure (Some ErrCertTimeInvalid) = true /\ [quirk_signer] <> [] /\
  (forall sg, sg ∈ [quirk_signer] -> sg_chain_sigs sg = true /\ sg_trust_anchor sg = true /\
     exists nb na, c_not_before (sg_certificate sg) = Some nb /\
       c_not_after (sg_certificate sg) = Some na /\ nb <= now (lab_service None []) tt <= na) /\
  exists w2 w3 res, verifyContainer (lab_service None []) (vi_format lab_input)
      (req_with (mkVerifyRequest "cms" "" "" false false true true 0 []) false []) w2
      = Done (w3, (res, None)) /\ v_valid res = true.
Proof.
  eapply (override_sound (lab_service None []) lab_input
            (mkVerifyRequest "cms" "" "" false false true true 0 [])
            (Some ErrCertTimeInvalid) [quirk_signer] [] tt tt).
  vm_compute. reflexivity.
Defined.

(** A CMS container with a signer of serial 1 whose signature value is "sig" and
    whose unsigned attributes hold a timestamp token over "sig", in SHA-256. *)
Definition hex_str (l : list Z) : string := fold_right (fun z t => String (byte_of z) t) ""%string l.
Definition der_seq (l : list string) : string := encodeRaw ClassUniversal TagSequence true (joined l).
Definition der_set (l : list string) : string := encodeRaw ClassUniversal TagSet true (joined l).
Definition der_int (l : list Z) : string := encodeRaw ClassUniversal TagInteger false (hex_str l).
Definition der_oid (l : list Z) : string := encodeRaw ClassUniversal TagOID false (hex_str l).
Definition der_octets (t : string) : string := encodeRaw ClassUniversal TagOctetString false t.
Definition der_ctx (n : Z) (l : list string) : string := encodeRaw ClassContextSpecific n true (joined l).
Definition der_signed_data (content : string) (signers : list string) : string :=
  der_seq [der_oid [42; 134; 72; 134; 247; 13; 1; 7; 2];
    der_ctx 0 [der_seq [der_int [1]; der_set []; content; der_set signers]]].
Definition der_sha256 : string := der_seq [der_oid [96; 134; 72; 1; 101; 3; 4; 2; 1]].
Definition lab_tst : string :=
  der_seq [der_int [1]; der_oid [42; 131; 14]; der_seq [der_sha256; der_octets "sig"]; der_int [9];
    encodeRaw ClassUniversal TagGeneralizedTime false "20250101000000Z"].
Definition lab_token : string :=
  der_signed_data (der_seq [der_oid [42; 134; 72; 134; 247; 13; 1; 9; 16; 1; 4]; der_ctx 0 [der_octets lab_tst]]) [].
Definition lab_stamped : string :=
  der_signed_data (der_seq [der_oid [42; 134; 72; 134; 247; 13; 1; 7; 1]])
    [der_seq [der_int [1]; der_seq [der_seq []; der_int [1]]; der_sha256; der_sha256; der_octets "sig";
       der_ctx 1 [der_seq [der_oid [42; 134; 72; 134; 247; 13; 1; 9; 16; 2; 14]; der_set [lab_token]]]]].
Definition lab_cms_t : cmslib :=
  mkCmslib (fun _ => None) (fun _ => Some 5) (fun t => t) (fun t => t) (fun t => t) (fun t => t)
    (fun t => t) (fun t => t) (fun _ => ""%string).
Definition lab_input_t : VerifyInput :=
  mkVerifyInput FormatCMS lab_stamped "" no_ref false false true false false false false false [] None
    MethodOCSP "" false.
Definition lab_verified_t : result VerifyOutput :=
  run (Verify lab_libs lab_cms_t (lab_service None [mkTrusted "R" false]) LocaleEN lab_input_t tt)
    (mkVerifyOutput false FormatCMS false [] "" [] None None None "" None, None).
Definition lab_signer_t : Signer :=
  match vo_signers (fst lab_verified_t) with sg :: _ => sg | [] => quirk_signer end.

Lemma cades_t_sound_witness :
  sg_cades lab_signer_t = "T"%string /\ vi_format lab_input_t = FormatCMS /\
  exists l si, parse_signers lab_cms_t (pemToDER (pem_decode lab_libs) lab_stamped) = Some l /\ si ∈ l /\
    normHex (cs_serial si) = normHex (c_serial (sg_certificate lab_signer_t)) /\
    token_holds lab_cms_t (lab_service None [mkTrusted "R" false]) si.
Proof.
  assert (HT : sg_cades lab_signer_t = "T"%string) by (vm_compute; reflexivity). split; [exact HT|].
  assert (Hin : lab_signer_t ∈ vo_signers (fst lab_verified_t)) by (vm_compute; left).
  apply (cades_t_sound lab_libs lab_cms_t (lab_service None [mkTrusted "R" false]) LocaleEN lab_input_t
           tt tt (fst lab_verified_t) (snd lab_verified_t) lab_signer_t); [|exact Hin|exact HT].
  vm_compute. reflexivity.
Defined.

(** An issuer downloaded from a certificate's own AIA URL becomes a trust
    anchor. With no configured anchor and no CA in the request, a container
    whose leaf points at a self-issued certificate verifies as valid and its
    chain is reported as anchored in trust; without the fetcher the same
    container is invalid. *)
Theorem aia_issuer_is_trusted :
  exists sg,
    vo_valid (lab_output (Some lab_fetch) []) = true /\
    vo_signers (lab_output (Some lab_fetch) []) = [sg] /\
    sg_trust_anchor sg = true /\ sg_chain_sigs sg = true /\
    vo_valid (lab_output None []) = false.
Proof. eexists. vm_compute. done. Qed.

