(* ===== verification/Sign.v ===== *)
(** * Signing, extraction and certificate information
    (internal/core/service.go: Sign, Extract, CertInfo; policy.go). *)
From S2P Require Import Prelude Errors Provider Pki CoreTypes CertParse Explain Chain Service Asn1 Cms Verify.

(** ** policy.go *)
Record policyProfile := mkProfile { pp_format : SignatureFormat; pp_timestamp : bool }.

(** [policyProfiles], in the order of [Policies]. *)
Definition policyProfiles : list (string * policyProfile) :=
  [ ("cades-b", mkProfile FormatCMS false); ("cades-t", mkProfile FormatCMS true);
    ("xades-b", mkProfile FormatXML false); ("xades-t", mkProfile FormatXML true) ]%string.

Definition Policies : list string := map fst policyProfiles.
Definition policyList : string := concat_with ", " Policies.

Definition profile_of (p : string) : option policyProfile :=
  snd <$> find_first (fun e => str_eqb (fst e) p) policyProfiles.

(** [SignInput]; the absent co-signed container is [None]. *)
Record SignInput := mkSignInput {
  si_policy : string; si_format : SignatureFormat; si_data : string; si_data_ref : DataRef;
  si_key : KeySpec; si_detached : bool; si_with_timestamp : option bool; si_tsa_url : string;
  si_no_check_cert_time : bool; si_input_pem : bool; si_output_pem : bool;
  si_trusted : list TrustedCert; si_node_id : string; si_parent_node : string;
  si_parent_ns : string; si_existing : option string;
}.
Record SignOutput := mkSignOutput {
  so_signature : string; so_format : SignatureFormat; so_timestamp : option Timestamp;
  so_cades : string; so_lib_error : option LibError;
}.

Definition with_profile (i : SignInput) (f : SignatureFormat) (ts : option bool) : SignInput :=
  mkSignInput (si_policy i) f (si_data i) (si_data_ref i) (si_key i) (si_detached i) ts
    (si_tsa_url i) (si_no_check_cert_time i) (si_input_pem i) (si_output_pem i) (si_trusted i)
    (si_node_id i) (si_parent_node i) (si_parent_ns i) (si_existing i).

(** [applyPolicy]. *)
Definition applyPolicy (i : SignInput) : res goerr SignInput :=
  if empty_str (si_policy i) then Ok i
  else match profile_of (si_policy i) with
  | None => Err (New ("unknown signature policy " ++ quoted (si_policy i)
                      ++ " (supported: " ++ policyList ++ ")"))
  | Some p =>
      if negb (bool_decide (si_format i = FormatOther ""))
         && negb (bool_decide (si_format i = pp_format p))
      then Err (New ("policy " ++ quoted (si_policy i) ++ " signs " ++ format_name (pp_format p)
                     ++ ", but the request asks for " ++ format_name (si_format i)))
      else Ok (with_profile i (pp_format p)
                 (match si_with_timestamp i with None => Some (pp_timestamp p) | t => t end))
  end.

Section Sign.
  Context {W : Type} (lb : libs) (cl : cmslib) (s : service W) (loc : Locale).

(** [resolveKey]. *)
Definition resolveKey (spec : KeySpec) : M W (res goerr (KeyRef * M W unit)) :=
  if key_empty spec then mret (Err (domain_invalid "resolveKey" "no key specified"))
  else match keys s with
  | None => mret (Err (Domain KindUnavailable "resolveKey" (Some (New "no key source configured"))))
  | Some resolve => resolve spec
  end.

(** [firstTimestamp] returns some signer's token; map order is not specified,
    so the caller passes the order the runtime iterates in. *)
Definition firstTimestamp (order : gmap string cms_signer -> list cms_signer) (signature : string)
    : option Timestamp :=
  head (omap (fun si => timestampFromCMS <$> cs_timestamp si)
          (order (cmsSignersBySerial lb cl FormatCMS signature))).

(** [signWith]. *)
Definition signWith (i : SignInput) (key : KeyRef) (withTS : bool) (tsaURL dataPath : string)
    (trusted : list TrustedCert) : M W (result string) :=
  match si_format i with
  | FormatCMS =>
      p_sign_cms (prov s)
        (mkSignRequest key (si_data i) dataPath (si_detached i) (si_input_pem i) (si_output_pem i)
           (negb (si_no_check_cert_time i)) withTS tsaURL
           (match si_existing i with Some e => e | None => "" end) trusted)
  | FormatXML =>
      p_sign_xml (prov s)
        (mkSignXMLRequest key (si_data i) (negb (si_no_check_cert_time i)) withTS tsaURL
           (si_node_id i) (si_parent_node i) (si_parent_ns i) trusted)
  | FormatWSSE =>
      p_sign_wsse (prov s)
        (mkSignWSSERequest key (si_data i) (si_node_id i) (negb (si_no_check_cert_time i)) withTS
           tsaURL trusted)
  | FormatOther _ => mret (""%string, None)
  end.

(** [signerChainAnchors]. *)
Definition signerChainAnchors (key : KeyRef) (extra : list TrustedCert) : M W (list TrustedCert) :=
  (let* (cert, err) := p_export (prov s) key CertPEM in
   match err with
   | Some _ => mret []
   | None =>
       if empty_str cert then mret []
       else
         let* trusted := mergedTrusted s extra in
         let* (chain, _, _) := build lb empty_cert (pemToDER (pem_decode lb) cert) trusted (fetcher_of s) in
         let* nodes := mlift (slice_from1 chain) in
         mret (map (anchor_of lb) nodes)
   end)%m.

(** The sign and the retry against the signer's own chain (lines 183-193). *)
Definition sign_attempts (i : SignInput) (key : KeyRef) (withTS : bool) (tsaURL path : string)
    (trusted : list TrustedCert) : M W (result string) :=
  (let* (sig, err) := signWith i key withTS tsaURL path trusted in
   if negb (si_no_check_cert_time i) && isAnchorFailure err then
     let* own := signerChainAnchors key (si_trusted i) in
     match own with
     | [] => mret (sig, err)
     | _ => signWith i key withTS tsaURL path own
     end
   else mret (sig, err))%m.

Definition no_sign : SignOutput := mkSignOutput "" (FormatOther "") None "" None.

(** [Sign] from the resolved key on (lines 166-213). *)
Definition sign_resolved (order : gmap string cms_signer -> list cms_signer) (i : SignInput)
    (key : KeyRef) (path : string) : M W (result SignOutput) :=
  let withTS := match si_with_timestamp i with Some b => b | None => defaultTimestamp s end in
  let tsaURL := if empty_str (si_tsa_url i) then defaultTSAURL s else si_tsa_url i in
  (let* trusted := if si_no_check_cert_time i then mret [] else mergedTrusted s (si_trusted i) in
   let* (sig, err) := sign_attempts i key withTS tsaURL path trusted in
   match err with
   | Some e =>
       let* _ := recordAudit s (mkAuditEvent "sign" (digestOf (sha256_hex lb) (si_data i)) "" "error" "") in
       mret (mkSignOutput "" (si_format i) None "" (Some (libErrorFrom loc e)),
             Some (domainErr "Sign" e))
   | None =>
       let* _ := recordAudit s (mkAuditEvent "sign" (digestOf (sha256_hex lb) sig) "" "ok" "") in
       mret (mkSignOutput sig (si_format i)
               (if withTS && bool_decide (si_format i = FormatCMS) then firstTimestamp order sig else None)
               (if withTS then "T" else "BES") None, None)
   end)%m.

(** [Sign]. *)
Definition Sign (order : gmap string cms_signer -> list cms_signer) (i0 : SignInput)
    : M W (result SignOutput) :=
  if verifyOnly s then
    mret (no_sign, Some (domain_invalid "Sign" "sign disabled in verify-only mode"))
  else match applyPolicy i0 with
  | Err e => mret (no_sign, Some (Domain KindInvalid "Sign" (Some e)))
  | Ok i =>
      let cms := bool_decide (si_format i = FormatCMS) in
      if negb (format_valid (si_format i)) then
        mret (no_sign, Some (domain_invalid "Sign" "unknown signature format"))
      else if (match si_existing i with Some _ => true | None => false end) && negb cms then
        mret (no_sign, Some (domain_invalid "Sign" "co-sign supported for CMS only"))
      else if IsRef (si_data_ref i) && negb cms then
        mret (no_sign, Some (domain_invalid "Sign" "by-reference data supported for CMS only"))
      else
        (let* data := resolveData s "Sign" (si_data_ref i) in
         match data with
         | Err e => mret (no_sign, Some e)
         | Ok (path, releaseData) =>
             let* handle := resolveKey (si_key i) in
             let* out :=
               match handle with
               | Err e => mret (no_sign, Some (domainErr "Sign" e))
               | Ok (key, releaseKey) =>
                   let* out := sign_resolved order i key path in
                   let* _ := releaseKey in
                   mret out
               end in
             let* _ := releaseData in
             mret out
         end)%m
  end.

(** ** Extract *)
Record ExtractOutput := mkExtract {
  ex_content : string; ex_detached : bool; ex_lib_error : option LibError;
}.

(** [Extract]. *)
Definition Extract (format : SignatureFormat) (signature data : string)
    : M W (result ExtractOutput) :=
  if negb (format_valid format) then
    mret (mkExtract "" false None, Some (domain_invalid "Extract" "unknown signature format"))
  else
    (let* (res, err) := verifyContainer s format
       (mkVerifyRequest signature data "" false false true false 0 []) in
     let out le := mkExtract (v_content res) (empty_str (v_content res)) le in
     mret (match err with
           | None => (out None, None)
           | Some e => if isSoftVerifyFailure e then (out (Some (libErrorFrom loc e)), None)
                       else (out None, Some (domainErr "Extract" e))
           end))%m.

(** ** CertInfo *)
Record CertInfoInput := mkCertInfoInput {
  ci_cert : string; ci_key : KeySpec; ci_format : CertEncoding; ci_build_chain : bool;
  ci_validate : bool; ci_extract_claims : bool; ci_method : RevMethod; ci_trusted : list TrustedCert;
}.
Record CertInfoOutput := mkCertInfo {
  co_certificate : Certificate; co_chain : list Certificate; co_algorithm : AlgorithmInfo;
  co_claims : option Claims; co_warnings : list Warning; co_lib_error : option LibError;
}.
Definition no_info : CertInfoOutput :=
  mkCertInfo empty_cert [] (mkAlgInfo "" "" "" "") None [] None.

(** The chain block of [CertInfo]. *)
Definition info_chain (i : CertInfoInput) (cert : Certificate) (der : string) (w : warnings)
    : M W (list Certificate * warnings) :=
  if ci_build_chain i then
    (let* trusted := mergedTrusted s (ci_trusted i) in
     let* (chain, complete, anchored) := build lb cert der trusted (fetcher_of s) in
     mret (chain,
           if negb complete
           then w_add "chain" "the chain could not be built up to a self-issued root" w
           else if negb anchored
           then w_add "chain" "the chain is complete but does not end in a configured trust anchor" w
           else w))%m
  else mret ([], w).

(** The validation block of [CertInfo]. *)
Definition info_validate (i : CertInfoInput) (cert : string) (format : CertEncoding) (w : warnings)
    : M W warnings :=
  if ci_validate i then
    (let* (v, err) := Validate lb s loc
       (mkValidateInput cert format (ci_method i) time_zero false (ci_trusted i) "" "") in
     mret (match err with
           | Some e => w_add_err "validation" e w
           | None => match r_lib_error (vao_status v) with
                     | Some le => w_add "validation" (le_code le) w
                     | None => w
                     end
           end))%m
  else mret w.

(** [CertInfo] from the certificate bytes on (lines 601-639). *)
Definition info_of (i : CertInfoInput) (cert : string) (format : CertEncoding)
    : M W (result CertInfoOutput) :=
  if empty_str cert then mret (no_info, Some (domain_invalid "CertInfo" "no certificate provided"))
  else
    (let* (props, err) := p_cert_properties (prov s) cert (certFormat format) in
     match err with
     | Some e => mret (no_info, Some (domainErr "CertInfo" e))
     | None =>
         let der := toDER (pem_decode lb) (b64_decode lb) cert format in
         let (c, w) := parseCertificate (x509_parse lb) (encode_cert lb) (b64_decode lb)
                         (parse_time lb) props der "" [] in
         let* (chain, w1) := info_chain i c der w in
         let* w2 := info_validate i cert format w1 in
         mret (mkCertInfo c chain (algorithmInfo c)
                 (if ci_extract_claims i then Some (ClaimsFromCertificate c) else None) w2 None, None)
     end)%m.

(** [CertInfo]. *)
Definition CertInfo (i : CertInfoInput) : M W (result CertInfoOutput) :=
  if empty_str (ci_cert i) && negb (key_empty (ci_key i)) then
    (let* handle := resolveKey (ci_key i) in
     match handle with
     | Err e => mret (no_info, Some (domainErr "CertInfo" e))
     | Ok (key, release) =>
         let* (cert, err) := p_export (prov s) key CertPEM in
         let* out := match err with
                     | Some e => mret (no_info, Some (domainErr "CertInfo" e))
                     | None => info_of i cert EncodingPEM
                     end in
         let* _ := release in
         mret out
     end)%m
  else info_of i (ci_cert i) (ci_format i).

(** ** Lemmas *)
Lemma applyPolicy_ok i j :
  applyPolicy i = Ok j ->
  (si_policy i = ""%string /\ j = i) \/
  (exists p, profile_of (si_policy i) = Some p /\ si_format j = pp_format p /\
     (si_format i = FormatOther "" \/ si_format i = pp_format p) /\
     si_with_timestamp j = (match si_with_timestamp i with None => Some (pp_timestamp p) | t => t end)).
Proof.
  unfold applyPolicy. destruct (empty_str (si_policy i)) eqn:He.
  - intros [= <-]. left. by apply str_eqb_eq in He.
  - destruct (profile_of (si_policy i)) as [p|]; [|done]. case_match eqn:Hc; [done|].
    intros [= <-]. right. exists p. split_and!; auto.
    apply andb_false_iff in Hc as [Hc|Hc]; apply negb_false_iff, bool_decide_eq_true in Hc; auto.
Qed.

(** ** Theorems *)

(** A named policy fixes what a signing produces. A successful [Sign] with
    a policy used a known policy and its container format (a contradicting
    explicit format is refused), and claims level T exactly when the request's
    own timestamp flag, else the policy's default, asked for a timestamp; a
    verify-only service never signs. *)
Theorem sign_policy_level order i w w' out :
  Sign order i w = Done (w', (out, None)) ->
  verifyOnly s = false /\
  (si_policy i <> ""%string ->
   exists p, profile_of (si_policy i) = Some p /\ so_format out = pp_format p /\
     (si_format i = FormatOther "" \/ si_format i = pp_format p) /\
     so_cades out = (if (match si_with_timestamp i with Some b => b | None => pp_timestamp p end)
                     then "T" else "BES")%string).
Proof.
  unfold Sign. intros H. destruct (verifyOnly s); [by apply mret_done in H as [_ ?]|].
  split; [done|]. intros Hp. destruct (applyPolicy i) as [j|e] eqn:Ha; [|by apply mret_done in H as [_ ?]].
  destruct (applyPolicy_ok _ _ Ha) as [[? _]|(p & Hprof & Hf & Hcompat & Hts)]; [done|].
  exists p. split_and!; auto.
  all: destruct (negb (format_valid (si_format j))); [by apply mret_done in H as [_ ?]|];
    destruct (_ && negb _); [by apply mret_done in H as [_ ?]|];
    destruct (IsRef _ && negb _); [by apply mret_done in H as [_ ?]|];
    apply mbind_done in H as (w1 & [[path rd]|e] & _ & H); [|by apply mret_done in H as [_ ?]];
    apply mbind_done in H as (w2 & handle & _ & H);
    apply mbind_done in H as (w3 & o & Ho & H);
    apply mbind_done in H as (w4 & u & _ & [_ <-]%mret_done);
    destruct handle as [[key rk]|e]; [|by apply mret_done in Ho as [_ ?]];
    apply mbind_done in Ho as (w5 & o2 & Ho & Hk);
    apply mbind_done in Hk as (w6 & u2 & _ & [_ <-]%mret_done);
    unfold sign_resolved in Ho;
    apply mbind_done in Ho as (w7 & trusted & _ & Ho);
    apply mbind_done in Ho as (w8 & [sig err] & _ & Ho);
    destruct err as [e|]; apply mbind_done in Ho as (w9 & u3 & _ & [_ Hout]%mret_done); [done|];
    injection Hout as ->; simpl; auto.
  rewrite Hts. by destruct (si_with_timestamp i).
Qed.
End Sign.

(** ** A concrete signing: policy "cades-t", any key, no fetcher. *)
Definition signing_service : service unit :=
  mkService unit lab_provider (Some (fun _ => mret (Ok (mkKeyRef StoragePKCS12 "k" "", mret tt))))
    None None None false false false "" (fun _ => 50) false None None None None "" (mret (Ok ""%string))
    [] (mkTempPort unit (fun _ => mret (Ok ""%string)) (fun _ => mret tt)).
Definition signing_input : SignInput :=
  mkSignInput "cades-t" (FormatOther "") "doc" no_ref (mkKeySpec None None None "k1") false None ""
    false false true [] "" "" "" None.

Lemma sign_policy_level_witness :
  verifyOnly signing_service = false /\
  (si_policy signing_input <> ""%string ->
   exists p, profile_of (si_policy signing_input) = Some p /\
     so_format (mkSignOutput "" FormatCMS None "T" None) = pp_format p /\
     (si_format signing_input = FormatOther "" \/ si_format signing_input = pp_format p) /\
     so_cades (mkSignOutput "" FormatCMS None "T" None) =
       (if (match si_with_timestamp signing_input with Some b => b | None => pp_timestamp p end)
        then "T" else "BES")%string).
Proof.
  apply (sign_policy_level lab_libs lab_cms signing_service LocaleEN (fun _ => []) signing_input tt tt
           (mkSignOutput "" FormatCMS None "T" None)).
  vm_compute. reflexivity.
Defined.
