(* ===== verification/Historical.v ===== *)
(** * Point-in-time verification and archiving
    (internal/core/historical.go, Archive of ltv.go). *)
From S2P Require Import Prelude Errors Provider Pki CoreTypes CertParse Explain Chain Service Asn1 Cms CmsSpec Verify.

(** ** historical.go *)
Record VerifyAtInput := mkVerifyAtInput {
  vai_verify : VerifyInput; vai_at : time; vai_method : RevMethod; vai_crl : string;
  vai_responder : string;
}.

(** [PointInTimeVerdict]. *)
Record PointInTimeVerdict := mkPit {
  pv_at : time; pv_valid_at : bool; pv_determinate : bool; pv_signature_valid : bool;
  pv_within : bool; pv_not_before : option time; pv_not_after : option time;
  pv_not_revoked : bool; pv_revoked_as_of : bool; pv_revocation_time : option time;
  pv_reason : string; pv_method : RevMethod; pv_reasons : list string;
}.

Record SignerAt := mkSignerAt { sa_signer : Signer; sa_verdict : PointInTimeVerdict }.

Record VerifyAtOutput := mkVerifyAt {
  vat_at : time; vat_valid_at : bool; vat_determinate : bool; vat_format : SignatureFormat;
  vat_detached : bool; vat_signers : list SignerAt; vat_warnings : list Warning;
  vat_lib_error : option LibError;
}.
Definition no_verdict : VerifyAtOutput := mkVerifyAt 0 false false (FormatOther "") false [] [] None.

(** [withinValidityAt]: within and determinate. *)
Definition withinValidityAt (c : Certificate) (at_ : time) : bool * bool :=
  match c_not_before c, c_not_after c with
  | Some nb, Some na => (negb (before at_ nb) && negb (after at_ na), true)
  | _, _ => (false, false)
  end.

(** What [revocationAt] returns and writes on the verdict. *)
Record rev_at := mkRevAt {
  ra_not_revoked : bool; ra_determinate : bool; ra_as_of : bool; ra_time : option time;
  ra_reason : string; ra_method : RevMethod; ra_reasons : list string;
}.

(** The reading of a revocation status for the instant (lines 226-252 of
    [revocationAt]; [st] is the current status). *)
Definition place_revocation (st : RevocationStatus) (at_ : time) : rev_at :=
  let m := r_method st in
  match r_lib_error st, r_revoked st with
  | Some le, false =>
      mkRevAt true false false None "" m
        [("revocation check inconclusive (" ++ le_code le
          ++ "); an archived CRL at the instant would be authoritative")%string]
  | None, false => mkRevAt true true false None "" m []
  | _, true =>
      match r_revocation_time st with
      | None =>
          mkRevAt false false false None (r_reason st) m
            ["certificate is revoked but the revocation time is unknown; it cannot be placed relative to the requested instant"%string]
      | Some rt =>
          let hold := if str_eqb (r_reason st) "certificateHold" then
            ["revocation reason is certificateHold, which is reversible; a hold may have been lifted later — an archived CRL at the instant is authoritative"%string]
            else [] in
          let as_of := negb (before at_ rt) in
          if as_of then
            mkRevAt false true true (Some rt) (r_reason st) m
              (hold ++ ["certificate was already revoked at the requested instant"%string])
          else
            mkRevAt true true false (Some rt) (r_reason st) m
              (hold ++ ["certificate was revoked after the requested instant, so it was still valid then"%string])
      end
  end.

Section Historical.
  Context {W : Type} (lb : libs) (cl : cmslib) (s : service W) (loc : Locale).

(** [revocationAt]. *)
Definition revocationAt (cert : Certificate) (at_ : time) (i : VerifyAtInput) : M W rev_at :=
  if empty_str (c_pem cert) then
    mret (mkRevAt true false false None "" (MethodOther "")
            ["revocation status not checked (signer certificate unavailable)"%string])
  else
    (let* (res, err) := Validate lb s loc
       (mkValidateInput (c_pem cert) EncodingPEM (vai_method i) at_ false [] (vai_responder i) (vai_crl i)) in
     mret (match err with
           | Some e =>
               mkRevAt true false false None "" (MethodOther "")
                 [("revocation status could not be determined: " ++ err_text e)%string]
           | None => place_revocation (vao_status res) at_
           end))%m.

(** [assessSignerAt]. *)
Definition assessSignerAt (sg : Signer) (at_ : time) (i : VerifyAtInput) : M W PointInTimeVerdict :=
  let c := sg_certificate sg in
  let '(within, timeDet) := withinValidityAt c at_ in
  (let* r := revocationAt c at_ i in
   let reasons :=
     (if sg_valid sg then [] else ["signature did not verify"%string]) ++
     (if negb timeDet then ["certificate validity window unknown (notBefore/notAfter absent)"%string]
      else if negb within
      then ["certificate was outside its validity window at the requested instant"%string] else []) ++
     ra_reasons r in
   mret (mkPit at_ (sg_valid sg && within && ra_not_revoked r) (timeDet && ra_determinate r)
           (sg_valid sg) within (c_not_before c) (c_not_after c) (ra_not_revoked r) (ra_as_of r)
           (ra_time r) (ra_reason r) (ra_method r) reasons))%m.

Fixpoint assess_all (signers : list Signer) (at_ : time) (i : VerifyAtInput) : M W (list SignerAt) :=
  match signers with
  | [] => mret []
  | sg :: t =>
      (let* v := assessSignerAt sg at_ i in
       let* rest := assess_all t at_ i in
       mret (mkSignerAt sg v :: rest))%m
  end.

(** The verification [VerifyAt] runs: no time check, no revocation check. *)
Definition at_input (v : VerifyInput) : VerifyInput :=
  mkVerifyInput (vi_format v) (vi_signature v) (vi_data v) (vi_data_ref v) (vi_detached v)
    (vi_input_pem v) false (vi_extract_content v) (vi_extract_claims v) (vi_explain v) (vi_report v)
    (vi_receipt v) (vi_trusted v) (Some false) (vi_revocation_method v) (vi_responder_url v)
    (vi_archive v).

(** [VerifyAt]. *)
Definition VerifyAt (i : VerifyAtInput) : M W (result VerifyAtOutput) :=
  if is_zero (vai_at i) then
    mret (no_verdict, Some (domain_invalid "VerifyAt" "point-in-time instant (at) is required"))
  else
    (let* clock := mget (now s) in
     if after (vai_at i) clock then
       mret (no_verdict, Some (domain_invalid "VerifyAt" "point-in-time instant is in the future"))
     else
       let* (vout, err) := Verify lb cl s loc (at_input (vai_verify i)) in
       match err with
       | Some e => mret (no_verdict, Some e)
       | None =>
           let out valid det signers :=
             mkVerifyAt (vai_at i) valid det (vo_format vout) (vo_detached vout) signers
               (vo_warnings vout) (vo_lib_error vout) in
           match vo_signers vout with
           | [] => mret (out false true [], None)
           | sgs =>
               let* signers := assess_all sgs (vai_at i) i in
               mret (out (forallb (fun a => pv_valid_at (sa_verdict a)) signers)
                       (forallb (fun a => pv_determinate (sa_verdict a)) signers) signers, None)
           end
       end)%m.

(** ** Archive (ltv.go) *)
Record ArchiveInput := mkArchiveInput {
  ari_signature : string; ari_input_pem : bool; ari_data : string; ari_detached : bool;
  ari_responder : string; ari_trusted : list TrustedCert; ari_output_pem : bool;
  ari_allow_revoked : bool;
}.

(** [revokedSigners]. *)
Fixpoint revoked_from (n : Z) (signers : list Signer) : list string :=
  match signers with
  | [] => []
  | sg :: t =>
      let revoked := match sg_revocation sg with
                     | Some r => r_determinate r && r_revoked r
                     | None => false
                     end in
      let name := s_common_name (c_subject (sg_certificate sg)) in
      (if revoked
       then [if empty_str name then ("signer[" ++ dec_of_Z n ++ "]")%string else name] else [])
      ++ revoked_from (n + 1) t
  end.
Definition revokedSigners (signers : list Signer) : list string := revoked_from 0 signers.

Definition archive_verify (i : ArchiveInput) : VerifyInput :=
  mkVerifyInput FormatCMS (ari_signature i) (ari_data i) no_ref (ari_detached i) (ari_input_pem i)
    false false false false false false (ari_trusted i) None (MethodOther "") (ari_responder i) true.

(** The refusals and the result of [Archive] after the verification. *)
Definition archive_result (i : ArchiveInput) (v : VerifyOutput) : result ArchiveOutput :=
  let refuse kind msg := (empty_archive, Some (Domain kind "Archive" (Some (New msg)))) in
  match vo_signers v with
  | [] => refuse KindInvalid "container carries no signers to collect evidence for"%string
  | _ =>
      let revoked := revokedSigners (vo_signers v) in
      if negb (Nat.eqb (length revoked) 0) && negb (ari_allow_revoked i) then
        refuse KindInvalid
          ("signer certificate is revoked (" ++ concat_with ", " revoked
           ++ "); archiving it would file evidence of a repudiated signature — set allowRevoked to do it deliberately")%string
      else if Nat.eqb (length revoked) 0 && negb (vo_valid v) then
        refuse KindInvalid "the container does not verify; archiving it would preserve a signature that is already broken"%string
      else match vo_archive v with
      | None =>
          (mkArchive "" 0 0 0 "" (vo_warnings v), Some (Domain KindUnavailable "Archive" (Some (New
             "no long-term validation evidence could be collected (responder unreachable, or nothing to embed)"))))
      | Some a =>
          let out sig := mkArchive sig (ar_ocsp a) (ar_crls a) (ar_certs a) (ar_level a)
                           (ar_warnings a ++ vo_warnings v) in
          if Bool.eqb (ari_output_pem i) (ari_input_pem i) then (out (ar_signature a), None)
          else match reencodeCMS lb (ar_signature a) (ari_input_pem i) (ari_output_pem i) with
               | Err e => (empty_archive, Some (Domain KindInvalid "Archive" (Some e)))
               | Ok sig => (out sig, None)
               end
      end
  end.

(** [Archive]. *)
Definition Archive (i : ArchiveInput) : M W (result ArchiveOutput) :=
  if empty_str (ari_signature i) then
    mret (empty_archive, Some (domain_invalid "Archive" "signature is required"))
  else
    (let* (v, err) := Verify lb cl s loc (archive_verify i) in
     mret (match err with
           | Some e => (empty_archive, Some (domainErr "Archive" e))
           | None => archive_result i v
           end))%m.

(** ** Lemmas *)
Lemma assess_all_spec sgs at_ i w w' l :
  assess_all sgs at_ i w = Done (w', l) ->
  map sa_signer l = sgs /\
  forall a, a ∈ l -> exists w1 w2, assessSignerAt (sa_signer a) at_ i w1 = Done (w2, sa_verdict a).
Proof.
  revert w l. induction sgs as [|sg t IH]; intros w l H; simpl in H.
  - apply mret_done in H as [_ ->]. split; [done|]. intros a Ha. by apply elem_of_nil in Ha.
  - apply mbind_done in H as (w1 & v & Hv & H). apply mbind_done in H as (w2 & rest & Hr & H).
    apply mret_done in H as [-> ->]. destruct (IH _ _ Hr) as [Hm Ha]. split; [simpl; by rewrite Hm|].
    intros a [->|Hin]%elem_of_cons; [by exists w, w1|auto].
Qed.

(** The revocation check of a signer's certificate for the instant. *)
Definition status_asked (cert : Certificate) (i : VerifyAtInput) (w w' : W) (r : result ValidateOutput) : Prop :=
  Validate lb s loc
    (mkValidateInput (c_pem cert) EncodingPEM (vai_method i) (vai_at i) false [] (vai_responder i) (vai_crl i)) w
    = Done (w', r).
(** What an answer must say for the certificate to be good at the instant. *)
Definition good_at (st : RevocationStatus) (at_ : time) : Prop :=
  r_revoked st = true -> exists rt, r_revocation_time st = Some rt /\ at_ < rt.
(** Why a certificate counts as not revoked at the instant: the answer says so, or
    there is none. *)
Definition not_revoked_by (cert : Certificate) (i : VerifyAtInput) : Prop :=
  c_pem cert = ""%string \/
  exists w1 w2 res err, status_asked cert i w1 w2 (res, err) /\
    (err = None -> good_at (vao_status res) (vai_at i)).
(** Why the answer is definite: the library gave one, and it says so. *)
Definition known_good (cert : Certificate) (i : VerifyAtInput) : Prop :=
  c_pem cert <> ""%string /\
  exists w1 w2 res, status_asked cert i w1 w2 (res, None) /\ good_at (vao_status res) (vai_at i) /\
    (r_revoked (vao_status res) = false -> r_lib_error (vao_status res) = None).

Lemma place_good st at_ : ra_not_revoked (place_revocation st at_) = true -> good_at st at_.
Proof.
  unfold place_revocation, good_at, before. intros H Hr. rewrite Hr in H. revert H.
  destruct (r_lib_error st), (r_revocation_time st) as [rt|]; try done; cbn zeta;
    destruct (at_ <? rt) eqn:E; cbn; try done; intros _; exists rt; boolp; split; (done || lia).
Qed.
Lemma place_known st at_ : ra_determinate (place_revocation st at_) = true -> r_revoked st = false -> r_lib_error st = None.
Proof. unfold place_revocation. intros H Hr. rewrite Hr in H. by destruct (r_lib_error st). Qed.

Lemma revocationAt_spec cert i w w' r :
  revocationAt cert (vai_at i) i w = Done (w', r) -> ra_not_revoked r = true ->
  not_revoked_by cert i /\ (ra_determinate r = true -> known_good cert i).
Proof.
  unfold revocationAt. destruct (empty_str (c_pem cert)) eqn:Ee.
  { intros [_ ->]%mret_done _. split; [left; by apply str_eqb_eq|done]. }
  intros (w1 & [res err] & Hv & [_ ->]%mret_done)%mbind_done Hn. apply str_eqb_neq in Ee. destruct err as [e|].
  - split; [|done]. right. by exists w, w1, res, (Some e).
  - apply place_good in Hn as Hg. split; [right; by exists w, w1, res, None|].
    intros Hd. split; [done|]. exists w, w1, res. split; [done|]. split; [done|]. by eapply place_known.
Qed.

(** A verdict says "valid at" only inside the window. *)
Lemma assess_valid sg i w w' v :
  assessSignerAt sg (vai_at i) i w = Done (w', v) -> pv_valid_at v = true ->
  sg_valid sg = true /\ not_revoked_by (sg_certificate sg) i /\
  (pv_determinate v = true -> known_good (sg_certificate sg) i) /\
  exists nb na, c_not_before (sg_certificate sg) = Some nb /\
    c_not_after (sg_certificate sg) = Some na /\ nb <= vai_at i <= na.
Proof.
  unfold assessSignerAt. destruct (withinValidityAt (sg_certificate sg) (vai_at i)) as [within det] eqn:Hw.
  intros (w1 & r & Hrev & [_ ->]%mret_done)%mbind_done Hv. simpl in *.
  apply andb_true_iff in Hv as [Hv Hr]. apply andb_true_iff in Hv as [Hs Hin].
  destruct (revocationAt_spec _ _ _ _ _ Hrev Hr) as [Hn Hk]. split; [done|]. split; [done|].
  split; [by intros [_ Hd]%andb_true_iff; apply Hk|]. unfold withinValidityAt in Hw.
  destruct (c_not_before (sg_certificate sg)) as [nb|], (c_not_after (sg_certificate sg)) as [na|];
    try congruence. injection Hw as Hw _. rewrite <- Hw in Hin. unfold before, after in Hin.
  boolp. exists nb, na. split_and!; auto; lia.
Qed.

Lemma VerifyAt_done i w w' out :
  VerifyAt i w = Done (w', (out, None)) ->
  exists w1 w2 v, Verify lb cl s loc (at_input (vai_verify i)) w1 = Done (w2, (v, None)) /\
    vai_at i <= now s w /\ vai_at i <> 0 /\
    ((vo_signers v = [] /\ vat_valid_at out = false /\ vat_signers out = []) \/
     (exists w3 l, vo_signers v <> [] /\ assess_all (vo_signers v) (vai_at i) i w2 = Done (w3, l) /\
        vat_signers out = l /\
        vat_valid_at out = forallb (fun a => pv_valid_at (sa_verdict a)) l /\
        vat_determinate out = forallb (fun a => pv_determinate (sa_verdict a)) l)).
Proof.
  unfold VerifyAt. destruct (is_zero (vai_at i)) eqn:Hz; [by intros [_ ?]%mret_done|].
  intros (w1 & clock & Hc & H)%mbind_done. injection Hc as <- <-.
  destruct (after (vai_at i) (now s w)) eqn:Ha; [by apply mret_done in H as [_ ?]|].
  apply mbind_done in H as (w2 & [v err] & Hv & H). destruct err; [by apply mret_done in H as [_ ?]|].
  exists w, w2, v. unfold after, is_zero in *. boolp. split_and!; auto.
  destruct (vo_signers v) as [|sg t] eqn:Hs.
  - apply mret_done in H as [_ [= ->]]. by left.
  - right. apply mbind_done in H as (w3 & l & Hl & [_ [= ->]]%mret_done). by exists w3, l.
Qed.

(** ** Theorems *)


(** Revocation is placed on the right side of the instant, and the answer
    is monotone: a certificate with a known revocation time counts as revoked
    exactly from that time on, so if it was not revoked at an instant it was
    not revoked at any earlier one. *)
Theorem place_revocation_monotone st t1 t2 :
  t1 <= t2 ->
  (forall rt, r_revoked st = true -> r_revocation_time st = Some rt ->
     ra_determinate (place_revocation st t2) = true /\
     (ra_not_revoked (place_revocation st t2) = false <-> rt <= t2)) /\
  (ra_not_revoked (place_revocation st t2) = true -> ra_not_revoked (place_revocation st t1) = true).
Proof.
  intros Hle. unfold place_revocation, before. split.
  - intros rt -> ->. destruct (r_lib_error st); destruct (t2 <? rt) eqn:Hb; boolp; simpl;
      (split; [done|]); split; (done || lia).
  - destruct (r_lib_error st), (r_revoked st); try done;
      destruct (r_revocation_time st) as [rt|]; try done;
      destruct (t2 <? rt) eqn:Hb, (t1 <? rt) eqn:Hc; boolp; simpl; try done; lia.
Qed.

(** Archiving refuses what it must. It returns a container only when the
    verification named a signer, and either the signature verified with no
    known revocation, or some signer is revoked and the caller explicitly
    allowed it; and only when evidence was really embedded. *)
Theorem archive_guarded i w w' out :
  Archive i w = Done (w', (out, None)) ->
  exists w1 w2 v a, Verify lb cl s loc (archive_verify i) w1 = Done (w2, (v, None)) /\
    vo_signers v <> [] /\ vo_archive v = Some a /\
    ((vo_valid v = true /\ revokedSigners (vo_signers v) = []) \/
     (ari_allow_revoked i = true /\ revokedSigners (vo_signers v) <> [])).
Proof.
  unfold Archive. destruct (empty_str _); [by intros [_ ?]%mret_done|].
  intros (w1 & [v err] & Hv & H)%mbind_done. apply mret_done in H as [_ H].
  destruct err; [done|]. unfold archive_result in H.
  destruct (vo_signers v) as [|sg t] eqn:Hs; [done|].
  assert (vo_signers v <> []) as Hne by (by rewrite Hs). rewrite <- Hs in H. clear Hs.
  destruct (revokedSigners (vo_signers v)) as [|r l] eqn:Hr; simpl in H.
  - destruct (vo_valid v) eqn:Hval; simpl in H; [|done].
    destruct (vo_archive v) as [a|] eqn:Ha; [|done].
    exists w, w1, v, a. split_and!; auto.
  - destruct (ari_allow_revoked i) eqn:Hal; simpl in H; [|done].
    destruct (vo_archive v) as [a|] eqn:Ha; [|done].
    exists w, w1, v, a. split_and!; auto. right. by rewrite Hr.
Qed.
End Historical.

(** ** Concrete runs over the laboratory service. *)
Definition lab_at : VerifyAtInput := mkVerifyAtInput lab_input 20 MethodOCSP "" "".
Definition lab_at_output : VerifyAtOutput :=
  fst (run (VerifyAt lab_libs lab_cms (lab_service None [mkTrusted "R" false]) LocaleEN lab_at tt)
         (no_verdict, None)).


Definition held : RevocationStatus :=
  mkRevocation true true MethodOCSP (Some 30) "certificateHold" None None None None None.

Lemma place_revocation_monotone_witness :
  (forall rt, r_revoked held = true -> r_revocation_time held = Some rt ->
     ra_determinate (place_revocation held 25) = true /\
     (ra_not_revoked (place_revocation held 25) = false <-> rt <= 25)) /\
  (ra_not_revoked (place_revocation held 25) = true -> ra_not_revoked (place_revocation held 20) = true).
Proof. apply (place_revocation_monotone held 20 25). lia. Defined.

Definition lab_archive : ArchiveInput := mkArchiveInput (encode lab_container) false "" false "" [] false false.

Lemma archive_guarded_witness :
  exists w1 w2 v a,
    Verify lab_libs lab_cms (lab_service None [mkTrusted "R" false]) LocaleEN
      (archive_verify lab_archive) w1 = Done (w2, (v, None)) /\
    vo_signers v <> [] /\ vo_archive v = Some a /\
    ((vo_valid v = true /\ revokedSigners (vo_signers v) = []) \/
     (ari_allow_revoked lab_archive = true /\ revokedSigners (vo_signers v) <> [])).
Proof.
  eapply (archive_guarded lab_libs lab_cms (lab_service None [mkTrusted "R" false]) LocaleEN
            lab_archive tt tt).
  vm_compute. reflexivity.
Defined.

(** Archiving twice reports evidence it did not embed. When a container
    already carries evidence of the kinds collected, [embedEvidence] returns it
    byte for byte unchanged, and still counts the newly collected responses and
    certificates as embedded and reports level LT. *)
Theorem rearchive_reports_gain lb c ev ev' out a :
  container_ok c -> c_signers c <> [] -> ev_empty ev = false -> AddLTV (encode c) ev = Ok out -> short out ->
  ev_empty ev' = false -> same_kinds ev' ev ->
  embedEvidence lb out false false ev' = Ok a ->
  ar_signature a = out /\ ar_level a = "LT"%string /\
  ar_ocsp a = Z.of_nat (length (ev_ocsp ev')) /\ ar_certs a = Z.of_nat (length (ev_certs ev')) /\
  EmbeddedEvidence (ar_signature a) = EmbeddedEvidence out.
Proof.
  intros Hc Hne Hev Ho Hs Hev' Hk. unfold embedEvidence. rewrite Hev'. cbn [rbind].
  assert (E : AddLTV out ev' = Ok out).
  { rewrite AddLTV_spec in Ho by done. injection Ho as <-. by apply annotate_again. }
  rewrite E. intros [= <-]. done.
Qed.

Lemma rearchive_reports_gain_witness :
  let a := mkArchive lab_archived 1 0 0 "LT" [] in
  embedEvidence lab_libs lab_archived false false lab_newer = Ok a /\
  ar_signature a = lab_archived /\ ar_level a = "LT"%string /\ ar_ocsp a = 1 /\ ar_certs a = 0 /\
  EmbeddedEvidence (ar_signature a) = EmbeddedEvidence lab_archived.
Proof.
  intros a. assert (E : embedEvidence lab_libs lab_archived false false lab_newer = Ok a)
    by (vm_compute; reflexivity).
  split; [exact E|].
  apply (rearchive_reports_gain lab_libs lab_container lab_evidence lab_newer lab_archived a);
    [apply lab_container_ok|done|done|apply lab_archived_ok|vm_compute; reflexivity|done|
     apply lab_same_kinds|exact E].
Defined.
