(* ===== verification/Idempotency.v ===== *)
(** * Single-flight idempotency cache (internal/idempotency/cache.go)

    The cache is shared by concurrent [Do] calls. Its lock turns a call into
    atomic sections: [enter] (lines 68-98), the work itself outside the lock,
    [settle] (lines 102-114) and the closing of the done channel (109, 115);
    [step] interleaves the sections of any number of calls. *)
From S2P Require Import Prelude Errors.

(** [entry]: [e_done] says that the done channel is closed. *)
Record entry := Entry {
  e_key : string;
  e_done : bool;
  e_data : string;
  e_err : option goerr;
  e_expiry : time;
}.

(** [Cache]: list elements are identified by a number, [heap] holds the
    entries they point to, [lru] lists the elements, most recent first. *)
Record cache := Cache {
  ttl : duration;
  max : Z;
  byKey : gmap string nat;
  lru : list nat;
  heap : gmap nat entry;
  next : nat;
}.

(** [New]. *)
Definition New (ttl : duration) (max : Z) : cache :=
  Cache ttl (if max <? 1 then 1024 else max) ∅ [] ∅ 0.

(** What the work function did. *)
Inductive work :=
| WRet (data : string)
| WErr (data : string) (e : goerr)
| WPanic (msg : string).

(** [runGuarded]: data and error of the guarded call. *)
Definition runGuarded (w : work) : string * option goerr :=
  match w with
  | WRet d => (d, None)
  | WErr d e => (d, Some e)
  | WPanic m => (""%string, Some (Errors.New ("idempotency: work panicked: " ++ m)))
  end.

(** [container/list]: MoveToFront, PushFront, Remove, Back, by identity. *)
Definition list_remove (i : nat) (l : list nat) : list nat :=
  filter (fun j => j <> i) l.
Definition move_to_front (i : nat) (l : list nat) : list nat := i :: list_remove i l.

(** [removeLocked]. *)
Definition removeLocked (c : cache) (i : nat) : cache :=
  match c.(heap) !! i with
  | Some e => Cache c.(ttl) c.(max) (delete e.(e_key) c.(byKey))
                (list_remove i c.(lru)) c.(heap) c.(next)
  | None => c
  end.

(** [evictLocked]; one turn of the loop per tracked element is enough. *)
Fixpoint evict_loop (fuel : nat) (c : cache) : cache :=
  match fuel with
  | O => c
  | S f =>
      if c.(max) <? Z.of_nat (length c.(lru)) then
        match last c.(lru) with
        | Some back => evict_loop f (removeLocked c back)
        | None => c
        end
      else c
  end.

Definition evictLocked (c : cache) : cache := evict_loop (length c.(lru)) c.

(** [Len]. *)
Definition Len (c : cache) : nat := length c.(lru).

(** Outcome of the locked entry section of [Do] for a non-empty key: replay
    a finished entry, wait on a running one, or run the work as entry [i]. *)
Inductive verdict :=
| Replay (data : string)
| Wait (i : nat)
| Run (i : nat).

(** Registration of a new in-flight entry (lines 94-97). *)
Definition register (c : cache) (key : string) : cache * nat :=
  let i := c.(next) in
  (evictLocked (Cache c.(ttl) c.(max) (<[key := i]> c.(byKey)) (i :: c.(lru))
     (<[i := Entry key false "" None time_zero]> c.(heap)) (S i)), i).

(** The live branch of a finished entry (line 75). *)
Definition fresh (e : entry) (now : time) : bool :=
  is_zero e.(e_expiry) || before now e.(e_expiry).

(** The entry section of [Do] (lines 68-98). *)
Definition enter (c : cache) (now : time) (key : string) : cache * verdict :=
  match c.(byKey) !! key with
  | Some i =>
      match c.(heap) !! i with
      | Some e =>
          if e.(e_done) then
            if fresh e now then
              (Cache c.(ttl) c.(max) c.(byKey) (move_to_front i c.(lru)) c.(heap) c.(next),
               Replay e.(e_data))
            else
              let (c', j) := register (removeLocked c i) key in (c', Run j)
          else (c, Wait i)
      | None => (c, Wait i)
      end
  | None => let (c', j) := register c key in (c', Run j)
  end.

Definition set_entry (c : cache) (i : nat) (e : entry) : cache :=
  Cache c.(ttl) c.(max) c.(byKey) c.(lru) (<[i := e]> c.(heap)) c.(next).

(** The locked section after the work (lines 102-114): cached on success,
    dropped on failure when this call still owns the key. *)
Definition settle (c : cache) (now : time) (i : nat) (w : work) : cache :=
  match c.(heap) !! i with
  | None => c
  | Some e =>
      match runGuarded w with
      | (_, Some err) =>
          let c1 := set_entry c i (Entry e.(e_key) e.(e_done) e.(e_data) (Some err) e.(e_expiry)) in
          if bool_decide (c1.(byKey) !! e.(e_key) = Some i) then removeLocked c1 i else c1
      | (d, None) =>
          set_entry c i (Entry e.(e_key) e.(e_done) d e.(e_err) (now + c.(ttl)))
      end
  end.

(** [close(e.done)]. *)
Definition close_done (c : cache) (i : nat) : cache :=
  match c.(heap) !! i with
  | Some e => set_entry c i (Entry e.(e_key) true e.(e_data) e.(e_err) e.(e_expiry))
  | None => c
  end.

(** What [Do] returns: data, replayed, error. *)
Definition do_result := (string * bool * option goerr)%type.

(** The result of the call that ran the work (lines 110, 116). *)
Definition own_result (w : work) : do_result :=
  match runGuarded w with
  | (_, Some err) => (""%string, false, Some err)
  | (d, None) => (d, false, None)
  end.

(** The result of a coalesced call once the entry is done (line 86). *)
Definition coalesced_result (c : cache) (i : nat) : option do_result :=
  match c.(heap) !! i with
  | Some e => if e.(e_done) then Some (e.(e_data), true, e.(e_err)) else None
  | None => None
  end.

(** A [Do] call that no other call overlaps; an empty key bypasses the cache. *)
Definition Do (c : cache) (now later : time) (key : string) (w : work)
    : cache * option do_result :=
  if empty_str key then
    let (d, e) := runGuarded w in (c, Some (d, false, e))
  else
    match enter c now key with
    | (c', Replay d) => (c', Some (d, true, None))
    | (c', Run i) => (close_done (settle c' later i w) i, Some (own_result w))
    | (c', Wait i) => (c', coalesced_result c' i)
    end.

(** ** Concurrent calls *)

(** Where a call is: running the work of entry [i] for [key], settled but not
    yet closed, waiting on an entry, or returned. *)
Inductive pc :=
| Running (key : string) (i : nat)
| Settled (key : string) (i : nat) (w : work)
| Waiting (key : string) (i : nat)
| Returned (r : do_result).

Record world := World { wcache : cache; calls : list pc }.

(** One atomic section of one call. *)
Inductive step : world -> world -> Prop :=
| SEnterRun w now key c' i :
    key <> ""%string -> enter (wcache w) now key = (c', Run i) ->
    step w (World c' (Running key i :: calls w))
| SEnterWait w now key c' i :
    key <> ""%string -> enter (wcache w) now key = (c', Wait i) ->
    step w (World c' (Waiting key i :: calls w))
| SEnterReplay w now key c' d :
    key <> ""%string -> enter (wcache w) now key = (c', Replay d) ->
    step w (World c' (Returned (d, true, None) :: calls w))
| SSettle c l1 l2 key i now wk :
    step (World c (l1 ++ Running key i :: l2))
         (World (settle c now i wk) (l1 ++ Settled key i wk :: l2))
| SClose c l1 l2 key i wk :
    step (World c (l1 ++ Settled key i wk :: l2))
         (World (close_done c i) (l1 ++ Returned (own_result wk) :: l2))
| SWake c l1 l2 key i r :
    coalesced_result c i = Some r ->
    step (World c (l1 ++ Waiting key i :: l2))
         (World c (l1 ++ Returned r :: l2))
| SCancel c l1 l2 key i e :
    step (World c (l1 ++ Waiting key i :: l2))
         (World c (l1 ++ Returned (""%string, false, Some e) :: l2)).

Definition pc_key (p : pc) : option string :=
  match p with
  | Running k _ | Settled k _ _ | Waiting k _ => Some k
  | Returned _ => None
  end.

(** A run whose calls only use keys of [K]. *)
Inductive reachable (K : gset string) (c0 : cache) : world -> Prop :=
| RInit : reachable K c0 (World c0 [])
| RStep w w' : reachable K c0 w -> step w w' ->
    (forall p k, p ∈ calls w' -> pc_key p = Some k -> k ∈ K) ->
    reachable K c0 w'.

(** The entry ids of the calls whose work is executing for [key]. *)
Definition running_for (key : string) (l : list pc) : list nat :=
  omap (fun p => match p with
                 | Running k i => if str_eqb k key then Some i else None
                 | _ => None
                 end) l.

(** Consistency of the two indexes. *)
Record cache_ok (c : cache) : Prop := {
  ok_max : 1 <= c.(max);
  ok_nodup : NoDup c.(lru);
  ok_lru : forall i, i ∈ c.(lru) <->
      exists e, c.(heap) !! i = Some e /\ c.(byKey) !! e.(e_key) = Some i;
  ok_key : forall k i, c.(byKey) !! k = Some i ->
      exists e, c.(heap) !! i = Some e /\ e.(e_key) = k;
  ok_next : forall i, (c.(next) <= i)%nat -> c.(heap) !! i = None;
  ok_size : length c.(lru) = size c.(byKey);
  ok_success : forall i e, i ∈ c.(lru) -> c.(heap) !! i = Some e -> e.(e_err) = None;
}.

(** The entry ids a call executes or has just settled. *)
Definition call_ids (l : list pc) : list nat :=
  omap (fun p => match p with
                 | Running _ i | Settled _ i _ => Some i
                 | _ => None
                 end) l.

(** Invariant of a run over the keys of [K] that fit the cache. *)
Record world_ok (K : gset string) (m : Z) (w : world) : Prop := {
  wo_cache : cache_ok (wcache w);
  wo_max : max (wcache w) = m;
  wo_dom : forall k i, byKey (wcache w) !! k = Some i -> k ∈ K;
  wo_run : forall k i, Running k i ∈ calls w ->
      byKey (wcache w) !! k = Some i /\
      exists e, heap (wcache w) !! i = Some e /\ e_done e = false;
  wo_ids : NoDup (call_ids (calls w));
  wo_lt : forall i, i ∈ call_ids (calls w) -> (i < next (wcache w))%nat;
}.

(** ** Lemmas *)
Lemma list_remove_elem i j l : j ∈ list_remove i l <-> j <> i /\ j ∈ l.
Proof. unfold list_remove. by rewrite list_elem_of_filter. Qed.

Lemma list_remove_notin i l : i ∉ l -> list_remove i l = l.
Proof.
  unfold list_remove. induction l as [|x t IH]; [done|].
  intros H. rewrite filter_cons_True by set_solver. f_equal. apply IH. set_solver.
Qed.

Lemma list_remove_length i l :
  NoDup l -> i ∈ l -> S (length (list_remove i l)) = length l.
Proof.
  induction l as [|x t IH]; intros Hn Hi; [by apply elem_of_nil in Hi|].
  apply NoDup_cons in Hn as [Hx Hn]. unfold list_remove.
  destruct (decide (x = i)) as [->|Hne].
  - rewrite filter_cons_False by naive_solver.
    change (filter _ t) with (list_remove i t). by rewrite list_remove_notin.
  - rewrite filter_cons_True by done. simpl. f_equal. apply IH; [done|set_solver].
Qed.

Lemma removeLocked_ok c i : cache_ok c -> i ∈ c.(lru) -> cache_ok (removeLocked c i).
Proof.
  intros [Hm Hn Hl Hk Hx Hs He] Hi. unfold removeLocked.
  destruct (proj1 (Hl i) Hi) as (e & Hh & Hb). rewrite Hh.
  assert (forall e', heap c !! i = Some e' -> e' = e) as Hu by naive_solver.
  split; simpl; auto.
  - by apply NoDup_filter.
  - intros j. rewrite list_remove_elem, Hl. split.
    + intros [Hne (e' & Hj & Hbj)]. exists e'. split; [done|].
      rewrite lookup_delete_ne; [done|]. intros Heq. rewrite <- Heq in Hbj. congruence.
    + intros (e' & Hj & Hbj). apply lookup_delete_Some in Hbj as [Hne Hbj].
      split; [intros ->; naive_solver | eauto].
  - intros k j Hkj. apply lookup_delete_Some in Hkj as [_ Hkj]. auto.
  - rewrite map_size_delete_Some by eauto. rewrite <- Hs.
    pose proof (list_remove_length i (lru c) Hn Hi). lia.
  - intros j e' Hj. apply list_remove_elem in Hj as [_ Hj]. eauto.
Qed.

Lemma removeLocked_same c i :
  ttl (removeLocked c i) = ttl c /\ max (removeLocked c i) = max c /\
  heap (removeLocked c i) = heap c /\ next (removeLocked c i) = next c.
Proof. unfold removeLocked. by destruct (heap c !! i). Qed.

Lemma removeLocked_lru c i :
  is_Some (heap c !! i) -> lru (removeLocked c i) = list_remove i (lru c).
Proof. intros [e He]. unfold removeLocked. by rewrite He. Qed.

Lemma ok_heap c i : cache_ok c -> i ∈ lru c -> is_Some (heap c !! i).
Proof. intros H Hi. apply (ok_lru _ H) in Hi as (e & He & _). eauto. Qed.

Lemma last_in {A} (l : list A) x : last l = Some x -> x ∈ l.
Proof. intros H. apply last_Some in H as [l' ->]. set_solver. Qed.

Lemma evict_loop_spec f c :
  cache_ok c -> (length (lru c) <= f)%nat ->
  let c' := evict_loop f c in
  cache_ok c' /\ Z.of_nat (length (lru c')) <= max c /\
  ttl c' = ttl c /\ max c' = max c /\ heap c' = heap c /\ next c' = next c /\
  head (lru c') = head (lru c).
Proof.
  revert c. induction f as [|f IH]; intros c Hc Hf; simpl.
  - pose proof (ok_max _ Hc). split_and!; auto; lia.
  - destruct (max c <? Z.of_nat (length (lru c))) eqn:Hlt; boolp;
      [|split_and!; auto; lia].
    destruct (last (lru c)) as [b|] eqn:Hb.
    2:{ apply last_None in Hb. rewrite Hb in Hlt. simpl in Hlt.
        pose proof (ok_max _ Hc). lia. }
    pose proof (last_in _ _ Hb) as Hin.
    pose proof (removeLocked_ok _ _ Hc Hin) as Hc'.
    destruct (removeLocked_same c b) as (Ht & Hmx & Hh & Hnx).
    pose proof (removeLocked_lru c b (ok_heap _ _ Hc Hin)) as Hlru.
    pose proof (list_remove_length b _ (ok_nodup _ Hc) Hin) as Hlen.
    destruct (IH _ Hc') as (H1 & H2 & H3 & H4 & H5 & H6 & H7).
    { rewrite Hlru. lia. }
    rewrite Ht in *. rewrite Hmx in *. rewrite Hh in *. rewrite Hnx in *.
    split_and!; auto. rewrite H7, Hlru.
    pose proof (ok_max _ Hc). pose proof (ok_nodup _ Hc) as Hnd.
    destruct (lru c) as [|x [|y t]] eqn:El; simpl in *; [lia|lia|].
    assert (x <> b).
    { intros ->. apply NoDup_cons in Hnd as [Hx _]. apply Hx.
      change (last (y :: t) = Some b) in Hb. by apply last_in. }
    unfold list_remove. rewrite filter_cons_True by done. done.
Qed.

Lemma evict_loop_id f c :
  Z.of_nat (length (lru c)) <= max c -> evict_loop f c = c.
Proof.
  intros H. destruct f; simpl; [done|].
  destruct (max c <? Z.of_nat (length (lru c))) eqn:E; [boolp; lia|done].
Qed.

(** The state [register] builds before it evicts. *)
Definition pushed (c : cache) (key : string) : cache :=
  Cache c.(ttl) c.(max) (<[key := c.(next)]> c.(byKey)) (c.(next) :: c.(lru))
    (<[c.(next) := Entry key false "" None time_zero]> c.(heap)) (S c.(next)).

Lemma pushed_ok c key : cache_ok c -> byKey c !! key = None -> cache_ok (pushed c key).
Proof.
  intros [Hm Hn Hl Hk Hx Hs He] Hnone.
  assert (heap c !! next c = None) as Hfresh by (apply Hx; lia).
  assert (next c ∉ lru c) as Hnin.
  { intros Hi. apply Hl in Hi as (e & Hh & _). congruence. }
  split; simpl; auto.
  - by apply NoDup_cons.
  - intros i. rewrite elem_of_cons. split.
    + intros [->|Hi].
      * exists (Entry key false "" None time_zero). by rewrite !lookup_insert_eq.
      * apply Hl in Hi as (e & Hh & Hb). exists e.
        rewrite !lookup_insert_ne by congruence. done.
    + intros (e & Hh & Hb).
      destruct (decide (i = next c)) as [->|Hne]; [by left|right].
      rewrite lookup_insert_ne in Hh by done. apply Hl. exists e. split; [done|].
      apply lookup_insert_Some in Hb as [[_ ?]|[_ ?]]; [congruence|done].
  - intros k i Hb. apply lookup_insert_Some in Hb as [[<- <-]|[Hne Hb]].
    + rewrite lookup_insert_eq. eauto.
    + destruct (Hk _ _ Hb) as (e & Hh & He').
      rewrite lookup_insert_ne by congruence. eauto.
  - intros i Hi. rewrite lookup_insert_ne by lia. apply Hx. lia.
  - rewrite map_size_insert_None by done. by rewrite Hs.
  - intros i e Hi Hh. apply elem_of_cons in Hi as [->|Hi].
    + rewrite lookup_insert_eq in Hh. by simplify_eq.
    + rewrite lookup_insert_ne in Hh by (intros <-; contradiction). eauto.
Qed.

Lemma register_spec c key c' i :
  cache_ok c -> byKey c !! key = None -> register c key = (c', i) ->
  cache_ok c' /\ Z.of_nat (length (lru c')) <= max c /\ ttl c' = ttl c /\
  max c' = max c /\ next c' = S (next c) /\ i = next c /\
  heap c' = <[i := Entry key false "" None time_zero]> (heap c) /\
  head (lru c') = Some i.
Proof.
  intros Hc Hk H. pose proof (pushed_ok c key Hc Hk) as Hp.
  unfold register in H. injection H as <- <-.
  destruct (evict_loop_spec (length (lru (pushed c key))) _ Hp (le_n _))
    as (H1 & H2 & H3 & H4 & H5 & H6 & H7).
  unfold evictLocked. fold (pushed c key).
  split_and!; auto.
Qed.

Lemma head_elem {A} (l : list A) x : head l = Some x -> x ∈ l.
Proof. destruct l; simpl; intros; simplify_eq; left. Qed.

(** The registered entry is the most recent one, so its own call tracks it. *)
Lemma register_tracked c key c' i :
  cache_ok c -> byKey c !! key = None -> register c key = (c', i) ->
  byKey c' !! key = Some i.
Proof.
  intros Hc Hk H. destruct (register_spec _ _ _ _ Hc Hk H)
    as (H1 & _ & _ & _ & _ & _ & Hh & Hhd).
  apply head_elem in Hhd.
  apply (ok_lru _ H1) in Hhd as (e & He & Hb).
  rewrite Hh, lookup_insert_eq in He. by simplify_eq.
Qed.

Lemma removeLocked_byKey c i key :
  cache_ok c -> byKey c !! key = Some i ->
  cache_ok (removeLocked c i) /\ byKey (removeLocked c i) = delete key (byKey c).
Proof.
  intros Hc Hb. destruct (ok_key _ Hc _ _ Hb) as (e & He & Hk).
  split; [apply removeLocked_ok; [done|]; apply (ok_lru _ Hc); exists e; by rewrite Hk|].
  unfold removeLocked. by rewrite He, Hk.
Qed.

Lemma move_to_front_ok c i :
  cache_ok c -> i ∈ lru c ->
  cache_ok (Cache (ttl c) (max c) (byKey c) (move_to_front i (lru c)) (heap c) (next c)).
Proof.
  intros [Hm Hn Hl Hk Hx Hs He] Hi.
  assert (forall j, j ∈ move_to_front i (lru c) <-> j ∈ lru c) as Hel.
  { intros j. unfold move_to_front. rewrite elem_of_cons, list_remove_elem.
    destruct (decide (j = i)) as [->|]; naive_solver. }
  split; simpl; auto.
  - apply NoDup_cons. split; [rewrite list_remove_elem; naive_solver|by apply NoDup_filter].
  - intros j. by rewrite <- Hl, <- Hel.
  - rewrite <- Hs. unfold move_to_front. simpl. by apply list_remove_length.
  - intros j e Hj. apply (He j), Hel, Hj.
Qed.

Lemma tracked_in_lru c k i : cache_ok c -> byKey c !! k = Some i -> i ∈ lru c.
Proof.
  intros Hc Hb. destruct (ok_key _ Hc _ _ Hb) as (e & He & Hk).
  apply (ok_lru _ Hc). exists e. by rewrite Hk.
Qed.

(** What the entry section does, by cases on the entry the key has. *)
Lemma enter_cases c now key c' v :
  cache_ok c -> enter c now key = (c', v) ->
  cache_ok c' /\ ttl c' = ttl c /\ max c' = max c /\
  ((exists i e, byKey c !! key = Some i /\ heap c !! i = Some e /\
      ((e_done e = true /\ fresh e now = true /\ v = Replay (e_data e) /\
        byKey c' = byKey c /\ heap c' = heap c /\ next c' = next c) \/
       (e_done e = false /\ v = Wait i /\ c' = c) \/
       (e_done e = true /\ fresh e now = false /\ exists j,
          v = Run j /\ register (removeLocked c i) key = (c', j)))) \/
   (byKey c !! key = None /\ exists j, v = Run j /\ register c key = (c', j))).
Proof.
  intros Hc H. unfold enter in H.
  destruct (byKey c !! key) as [i|] eqn:Hb.
  - destruct (ok_key _ Hc _ _ Hb) as (e & Hh & Hk). rewrite Hh in H.
    destruct (e_done e) eqn:Hd; [destruct (fresh e now) eqn:Hf|].
    + injection H as <- <-.
      split; [apply move_to_front_ok; [done|by eapply tracked_in_lru]|].
      split_and!; auto. left. exists i, e. split_and!; auto. left. split_and!; auto.
    + destruct (register (removeLocked c i) key) as [c1 j] eqn:Hr. injection H as <- <-.
      destruct (removeLocked_byKey _ _ _ Hc Hb) as [Hc1 Hb1].
      destruct (register_spec _ _ _ _ Hc1 ltac:(rewrite Hb1; apply lookup_delete_eq) Hr)
        as (H1 & _ & H3 & H4 & _).
      destruct (removeLocked_same c i) as (Ht & Hm & _).
      split_and!; try congruence. left. exists i, e. split_and!; auto.
      right; right. eauto 6.
    + injection H as <- <-. split_and!; auto. left. exists i, e. split_and!; auto.
  - destruct (register c key) as [c1 j] eqn:Hr. injection H as <- <-.
    destruct (register_spec _ _ _ _ Hc Hb Hr) as (H1 & _ & H3 & H4 & _).
    split_and!; auto. right. eauto.
Qed.

Lemma set_entry_ok c i e e' :
  cache_ok c -> heap c !! i = Some e -> e_key e' = e_key e ->
  (i ∈ lru c -> e_err e' = None) -> cache_ok (set_entry c i e').
Proof.
  intros [Hm Hn Hl Hk Hx Hs He] Hh Hkey Herr. split; simpl; auto.
  - intros j. rewrite Hl. destruct (decide (i = j)) as [<-|Hne].
    + rewrite lookup_insert_eq, Hh. naive_solver congruence.
    + by rewrite lookup_insert_ne by done.
  - intros k j Hb. destruct (Hk _ _ Hb) as (f & Hf & Hfk).
    destruct (decide (i = j)) as [<-|Hne].
    + rewrite lookup_insert_eq. exists e'. split; congruence.
    + rewrite lookup_insert_ne by done. eauto.
  - intros j Hj. rewrite lookup_insert_ne; [by apply Hx|]. intros ->.
    rewrite (Hx _ Hj) in Hh. congruence.
  - intros j f Hj Hf. destruct (decide (i = j)) as [<-|Hne].
    + rewrite lookup_insert_eq in Hf. simplify_eq. auto.
    + rewrite lookup_insert_ne in Hf by done. eauto.
Qed.

Lemma removeLocked_set_entry c i e e' :
  heap c !! i = Some e -> e_key e' = e_key e ->
  removeLocked (set_entry c i e') i = set_entry (removeLocked c i) i e'.
Proof.
  intros Hh Hk. unfold removeLocked, set_entry. simpl. rewrite lookup_insert_eq, Hh. simpl.
  by rewrite Hk.
Qed.

Lemma settle_ok c now i w : cache_ok c -> cache_ok (settle c now i w).
Proof.
  intros Hc. unfold settle. destruct (heap c !! i) as [e|] eqn:Hh; [|done].
  destruct (runGuarded w) as [d [err|]].
  - case_bool_decide as Hb.
    + rewrite (removeLocked_set_entry c i e) by done.
      pose proof (tracked_in_lru _ _ _ Hc Hb) as Hin.
      destruct (removeLocked_byKey _ _ _ Hc Hb) as [Hr _].
      apply (set_entry_ok _ _ e); [done| |done|].
      * by rewrite (proj1 (proj2 (proj2 (removeLocked_same c i)))).
      * rewrite removeLocked_lru by eauto. rewrite list_remove_elem. naive_solver.
    + apply (set_entry_ok _ _ e); simpl; auto. intros Hin.
      apply (ok_lru _ Hc) in Hin as (e0 & Hh0 & Hb0). simpl in Hb. naive_solver.
  - apply (set_entry_ok _ _ e); simpl; auto. intros Hin. by eapply ok_success.
Qed.

Lemma close_done_ok c i : cache_ok c -> cache_ok (close_done c i).
Proof.
  intros Hc. unfold close_done. destruct (heap c !! i) as [e|] eqn:Hh; [|done].
  apply (set_entry_ok _ _ e); simpl; auto. intros Hin. by eapply ok_success.
Qed.

(** Settling and closing never change the configuration. *)
Lemma settle_same c now i w :
  ttl (settle c now i w) = ttl c /\ max (settle c now i w) = max c /\
  next (settle c now i w) = next c.
Proof.
  unfold settle. destruct (heap c !! i) as [e|]; [|done].
  destruct (runGuarded w) as [d [err|]]; [|done].
  case_bool_decide; [|done].
  match goal with |- context [removeLocked ?s i] =>
    destruct (removeLocked_same s i) as (-> & -> & _ & ->) end. done.
Qed.

Lemma close_done_same c i :
  ttl (close_done c i) = ttl c /\ max (close_done c i) = max c /\
  next (close_done c i) = next c /\ byKey (close_done c i) = byKey c.
Proof. unfold close_done. by destruct (heap c !! i). Qed.

(** After the run of a successful call the key is tracked by a done entry
    that holds the data; after a failed one the key is free. *)
Lemma finished_ok c i key t w e :
  cache_ok c -> byKey c !! key = Some i -> heap c !! i = Some e ->
  e_done e = false ->
  let c' := close_done (settle c t i w) i in
  cache_ok c' /\
  match runGuarded w with
  | (d, None) => byKey c' !! key = Some i /\
      exists e', heap c' !! i = Some e' /\ e_done e' = true /\ e_data e' = d /\
        e_expiry e' = t + ttl c
  | (_, Some _) => byKey c' !! key = None
  end.
Proof.
  intros Hc Hb Hh Hd c'.
  split; [by apply close_done_ok, settle_ok|].
  assert (e_key e = key) as Hk.
  { destruct (ok_key _ Hc _ _ Hb) as (? & ? & ?). naive_solver. }
  unfold c', settle. rewrite Hh. destruct (runGuarded w) as [d [err|]].
  - rewrite bool_decide_eq_true_2 by (simpl; congruence).
    rewrite (proj2 (proj2 (proj2 (close_done_same _ _)))).
    rewrite (removeLocked_set_entry c i e) by done. simpl.
    destruct (removeLocked_byKey _ _ _ Hc Hb) as [_ ->]. apply lookup_delete_eq.
  - unfold close_done, set_entry. simpl. rewrite lookup_insert_eq. simpl.
    split; [done|]. rewrite lookup_insert_eq. eauto.
Qed.

(** A call that ran its work without overlap, in terms of its sections. *)
Lemma Do_run c t1 t2 key w c1 r :
  cache_ok c -> key <> ""%string -> Do c t1 t2 key w = (c1, Some r) ->
  snd (fst r) = false ->
  exists c' i e, enter c t1 key = (c', Run i) /\ r = own_result w /\
    c1 = close_done (settle c' t2 i w) i /\ cache_ok c' /\ ttl c' = ttl c /\
    byKey c' !! key = Some i /\ heap c' !! i = Some e /\ e_done e = false.
Proof.
  intros Hc Hne H Hr. unfold Do in H.
  replace (empty_str key) with false in H
    by (symmetry; unfold empty_str; by apply str_eqb_neq).
  destruct (enter c t1 key) as [c' v] eqn:Hent.
  destruct (enter_cases _ _ _ _ _ Hc Hent) as (Hc' & Ht & Hm & Hcases).
  destruct v as [d|j|j].
  - injection H as <- <-. done.
  - injection H as <- Hco. unfold coalesced_result in Hco.
    destruct (heap c' !! j) as [e0|]; [|done].
    destruct (e_done e0); [|done]. injection Hco as <-. done.
  - injection H as <- <-.
    assert (exists c0, cache_ok c0 /\ byKey c0 !! key = None /\ register c0 key = (c', j))
      as (c0 & Hc0 & Hb0 & Hreg).
    { destruct Hcases as [(i & e & Hb & Hh & [(? & ? & ? & _)|[(? & ? & _)|(_ & _ & j' & Hv & Hreg)]])
        |(Hb & j' & Hv & Hreg)]; try congruence; simplify_eq.
      - destruct (removeLocked_byKey _ _ _ Hc Hb) as [Hc0 Hb0].
        exists (removeLocked c i). rewrite Hb0, lookup_delete_eq. done.
      - eauto. }
    destruct (register_spec _ _ _ _ Hc0 Hb0 Hreg) as (H1 & _ & _ & _ & _ & _ & Hh & _).
    exists c', j, (Entry key false "" None time_zero).
    pose proof (register_tracked _ _ _ _ Hc0 Hb0 Hreg).
    split_and!; auto. by rewrite Hh, lookup_insert_eq.
Qed.

Lemma own_result_run w : snd (fst (own_result w)) = false.
Proof. unfold own_result. by destruct (runGuarded w) as [? [?|]]. Qed.

(** A free or expired key runs the work. *)
Lemma Do_free c t1 t2 key w :
  key <> ""%string -> byKey c !! key = None ->
  snd (Do c t1 t2 key w) = Some (own_result w).
Proof.
  intros Hne Hb. unfold Do, enter, empty_str. rewrite (proj2 (str_eqb_neq key "")) by done.
  rewrite Hb. by destruct (register c key).
Qed.

Lemma Do_done c t1 t2 key w i e :
  key <> ""%string -> byKey c !! key = Some i -> heap c !! i = Some e ->
  e_done e = true ->
  snd (Do c t1 t2 key w) =
    Some (if fresh e t1 then (e_data e, true, None) else own_result w).
Proof.
  intros Hne Hb Hh Hd. unfold Do, enter, empty_str. rewrite (proj2 (str_eqb_neq key "")) by done.
  rewrite Hb, Hh, Hd. destruct (fresh e t1); [done|].
  by destruct (register (removeLocked c i) key).
Qed.

Lemma call_ids_app l1 l2 : call_ids (l1 ++ l2) = call_ids l1 ++ call_ids l2.
Proof. apply omap_app. Qed.

Lemma call_ids_running key i l : Running key i ∈ l -> i ∈ call_ids l.
Proof. intros H. apply list_elem_of_omap. by exists (Running key i). Qed.

Lemma call_ids_drop l1 l2 p r :
  call_ids (l1 ++ Returned r :: l2) `sublist_of` call_ids (l1 ++ p :: l2).
Proof.
  rewrite !call_ids_app. apply sublist_app; [done|].
  change (call_ids (p :: l2)) with (call_ids ([p] ++ l2)). rewrite call_ids_app.
  by apply sublist_inserts_l.
Qed.

(** Replacing a call by one that runs nothing keeps the invariant. *)
Lemma world_ok_retire K m c l1 p l2 r :
  world_ok K m (World c (l1 ++ p :: l2)) -> world_ok K m (World c (l1 ++ Returned r :: l2)).
Proof.
  intros [H1 H2 H3 H4 H5 H6]. pose proof (call_ids_drop l1 l2 p r) as Hsub.
  split; simpl in *; auto.
  - intros k i Hin. apply H4. set_solver.
  - by eapply sublist_NoDup.
  - intros i Hi. apply H6. by eapply elem_of_sublist.
Qed.

(** Replacing an entry of a call keeps the entries of the other calls. *)
Lemma ids_other l1 l2 p i k j :
  call_ids [p] = [i] -> NoDup (call_ids (l1 ++ p :: l2)) ->
  Running k j ∈ l1 ++ l2 -> j <> i.
Proof.
  intros Hp Hn Hin ->. change (p :: l2) with ([p] ++ l2) in Hn.
  rewrite !call_ids_app, Hp in Hn.
  assert (i ∈ call_ids (l1 ++ l2)) as Hi by by eapply call_ids_running.
  rewrite call_ids_app in Hi.
  rewrite (Permutation_app_comm [i]) in Hn. rewrite app_assoc in Hn.
  apply NoDup_app in Hn as (_ & Hn & _). apply (Hn i); set_solver.
Qed.

(** The keys of a run fit: the size bound makes eviction idle. *)
Lemma register_fits (K : gset string) c key c' j :
  cache_ok c -> byKey c !! key = None -> key ∈ K ->
  (forall k i, byKey c !! k = Some i -> k ∈ K) ->
  Z.of_nat (size K) <= max c -> register c key = (c', j) -> c' = pushed c key.
Proof.
  intros Hc Hb Hk Hdom Hsz H. unfold register in H. injection H as <- _.
  unfold evictLocked. fold (pushed c key). apply evict_loop_id.
  rewrite (ok_size _ (pushed_ok c key Hc Hb)), <- size_dom. simpl.
  assert (size (dom (<[key:=next c]> (byKey c))) <= size K)%nat; [|lia].
  apply subseteq_size. intros x Hx. rewrite dom_insert in Hx.
  apply elem_of_union in Hx as [Hx|Hx]; [set_solver|].
  apply elem_of_dom in Hx as [i Hi]. eauto.
Qed.

(** A new run of [key] keeps the invariant when no run of [key] is tracked. *)
Lemma world_ok_register (K : gset string) m w c0 key c' j :
  world_ok K m w -> Z.of_nat (size K) <= m -> key ∈ K ->
  cache_ok c0 -> byKey c0 = delete key (byKey (wcache w)) ->
  heap c0 = heap (wcache w) -> next c0 = next (wcache w) -> max c0 = m ->
  (forall i, Running key i ∉ calls w) ->
  register c0 key = (c', j) -> world_ok K m (World c' (Running key j :: calls w)).
Proof.
  intros [H1 H2 H3 H4 H5 H6] Hsz Hk Hc0 Hb Hh Hn Hm Hnone Hreg.
  assert (byKey c0 !! key = None) as Hfree by (rewrite Hb; apply lookup_delete_eq).
  assert (c' = pushed c0 key) as ->.
  { eapply (register_fits K); eauto; [|by rewrite Hm].
    intros k i Hki. rewrite Hb in Hki. apply lookup_delete_Some in Hki as [_ ?]. eauto. }
  pose proof (register_spec _ _ _ _ Hc0 Hfree Hreg) as (_ & _ & _ & _ & _ & -> & _).
  assert (next c0 ∉ call_ids (calls w)) as Hnew.
  { intros Hi. apply H6 in Hi. rewrite Hn in Hi. lia. }
  split; simpl.
  - by apply pushed_ok.
  - done.
  - intros k i Hki. apply lookup_insert_Some in Hki as [[<- _]|[_ Hki]]; [done|].
    rewrite Hb in Hki. apply lookup_delete_Some in Hki as [_ ?]. eauto.
  - intros k i Hin. apply elem_of_cons in Hin as [Heq|Hin].
    + injection Heq as -> ->. rewrite !lookup_insert_eq. eauto.
    + destruct (H4 _ _ Hin) as (Hbk & e & He & Hd).
      assert (k <> key) by (intros ->; by apply (Hnone i)).
      rewrite lookup_insert_ne by done. rewrite Hb, lookup_delete_ne by done.
      rewrite lookup_insert_ne; [rewrite Hh; eauto|].
      intros <-. apply Hnew. by eapply call_ids_running.
  - change (call_ids (Running key (next c0) :: calls w))
      with (next c0 :: call_ids (calls w)). by apply NoDup_cons.
  - intros i Hi. change (call_ids (Running key (next c0) :: calls w))
      with (next c0 :: call_ids (calls w)) in Hi.
    apply elem_of_cons in Hi as [->|Hi]; [lia|].
    apply H6 in Hi. rewrite <- Hn in Hi. lia.
Qed.

Lemma settle_effect c now i w e :
  heap c !! i = Some e ->
  (byKey (settle c now i w) = byKey c \/
   byKey (settle c now i w) = delete (e_key e) (byKey c)) /\
  forall j, j <> i -> heap (settle c now i w) !! j = heap c !! j.
Proof.
  intros Hh. unfold settle. rewrite Hh. destruct (runGuarded w) as [d [err|]].
  - case_bool_decide.
    + rewrite (removeLocked_set_entry c i e) by done. unfold removeLocked, set_entry.
      rewrite Hh. simpl. split; [by right|]. intros j Hj. by rewrite lookup_insert_ne.
    + split; [by left|]. intros j Hj. simpl. by rewrite lookup_insert_ne.
  - split; [by left|]. intros j Hj. simpl. by rewrite lookup_insert_ne.
Qed.

Lemma close_done_other c i j : j <> i -> heap (close_done c i) !! j = heap c !! j.
Proof.
  intros Hj. unfold close_done. destruct (heap c !! i); [|done]. simpl.
  by rewrite lookup_insert_ne.
Qed.

Lemma world_ok_settle K m c l1 l2 key i now wk :
  world_ok K m (World c (l1 ++ Running key i :: l2)) ->
  world_ok K m (World (settle c now i wk) (l1 ++ Settled key i wk :: l2)).
Proof.
  intros [H1 H2 H3 H4 H5 H6]; simpl in *.
  destruct (settle_same c now i wk) as (Ht & Hm & Hn).
  destruct (H4 key i ltac:(set_solver)) as (Hb & e & He & Hd).
  assert (e_key e = key) as Hk by (destruct (ok_key _ H1 _ _ Hb) as (? & ? & ?); naive_solver).
  destruct (settle_effect c now i wk e He) as [Hby Hoth].
  assert (forall l, call_ids (l ++ Settled key i wk :: l2) = call_ids (l ++ Running key i :: l2))
    as Hids by (intros l; rewrite !call_ids_app; done).
  split; simpl; try rewrite Hids; auto.
  - by apply settle_ok.
  - congruence.
  - intros k j Hkj. apply (H3 k j). destruct Hby as [Hby|Hby]; rewrite Hby in Hkj; [done|].
    by apply lookup_delete_Some in Hkj as [_ ?].
  - intros k j Hin. assert (Running k j ∈ l1 ++ l2) as Hin' by set_solver.
    pose proof (ids_other l1 l2 (Running key i) i k j eq_refl H5 Hin') as Hji.
    destruct (H4 k j ltac:(set_solver)) as (Hbk & e' & He' & Hd').
    split; [|exists e'; by rewrite Hoth].
    destruct Hby as [->| ->]; [done|]. rewrite lookup_delete_ne; [done|]. congruence.
  - intros j Hj. rewrite Hn. by apply H6.
Qed.

Lemma world_ok_close K m c l1 l2 key i wk r :
  world_ok K m (World c (l1 ++ Settled key i wk :: l2)) ->
  world_ok K m (World (close_done c i) (l1 ++ Returned r :: l2)).
Proof.
  intros Hw. pose proof (world_ok_retire _ _ _ _ _ _ r Hw) as [G1 G2 G3 G4 G5 G6].
  destruct Hw as [H1 H2 H3 H4 H5 H6]; simpl in *.
  destruct (close_done_same c i) as (_ & Hm & Hn & Hb).
  split; simpl; auto.
  - by apply close_done_ok.
  - congruence.
  - intros k j. rewrite Hb. eauto.
  - intros k j Hin. assert (Running k j ∈ l1 ++ l2) as Hin' by set_solver.
    pose proof (ids_other l1 l2 (Settled key i wk) i k j eq_refl H5 Hin') as Hji.
    rewrite Hb, close_done_other by done. auto.
  - intros j Hj. rewrite Hn. auto.
Qed.

Lemma world_ok_enter K m w now key c' v :
  world_ok K m w -> Z.of_nat (size K) <= m -> enter (wcache w) now key = (c', v) ->
  match v with
  | Run j => key ∈ K -> world_ok K m (World c' (Running key j :: calls w))
  | Wait j => world_ok K m (World c' (Waiting key j :: calls w))
  | Replay d => world_ok K m (World c' (Returned (d, true, None) :: calls w))
  end.
Proof.
  intros Hw Hsz Hent. pose proof Hw as [H1 H2 H3 H4 H5 H6].
  destruct (enter_cases _ _ _ _ _ H1 Hent) as (Hc' & Ht & Hm & Hcases).
  destruct Hcases as [(i & e & Hb & Hh &
      [(Hd & _ & -> & Hb' & Hh' & Hn')|[(Hd & -> & ->)|(Hd & _ & j & -> & Hreg)]])|(Hb & j & -> & Hreg)].
  - split; simpl; auto; try congruence.
    + intros k x. rewrite Hb'. apply H3.
    + intros k x Hin. rewrite Hb', Hh'. apply H4. set_solver.
    + intros x Hx. rewrite Hn'. by apply H6.
  - split; simpl; auto. intros k x Hin. apply H4. set_solver.
  - intros Hk. destruct (removeLocked_byKey _ _ _ H1 Hb) as [Hr Hrb].
    destruct (removeLocked_same (wcache w) i) as (_ & Hrm & Hrh & Hrn).
    eapply (world_ok_register K m w (removeLocked (wcache w) i)); eauto; [congruence|].
    intros x Hx. destruct (H4 _ _ Hx) as (Hbx & e' & He' & Hd').
    assert (x = i) as -> by congruence. congruence.
  - intros Hk. eapply (world_ok_register K m w (wcache w)); eauto.
    + symmetry. by apply delete_id.
    + intros x Hx. destruct (H4 _ _ Hx) as (Hbx & _). congruence.
Qed.

Lemma world_ok_reachable K c0 w :
  cache_ok c0 -> byKey c0 = ∅ -> Z.of_nat (size K) <= max c0 ->
  reachable K c0 w -> world_ok K (max c0) w.
Proof.
  intros Hc0 Hb0 Hsz. induction 1 as [|w w' Hr IH Hs HK].
  - split; simpl; auto.
    + intros k i Hk. by rewrite Hb0, lookup_empty in Hk.
    + intros k i Hk. by apply elem_of_nil in Hk.
    + constructor.
    + intros i Hi. by apply elem_of_nil in Hi.
  - destruct Hs; simpl in *.
    + pose proof (world_ok_enter _ _ _ _ _ _ _ IH Hsz H0) as Hw; simpl in Hw.
      apply Hw. eapply HK; [left|done].
    + by pose proof (world_ok_enter _ _ _ _ _ _ _ IH Hsz H0).
    + by pose proof (world_ok_enter _ _ _ _ _ _ _ IH Hsz H0).
    + by apply world_ok_settle.
    + by eapply world_ok_close.
    + by eapply world_ok_retire.
    + by eapply world_ok_retire.
Qed.

Lemma New_ok ttl m : cache_ok (New ttl m).
Proof.
  split; simpl; try done.
  - unfold New; simpl. destruct (m <? 1) eqn:Hm; boolp; lia.
  - constructor.
  - intros i. split; [intros Hi; by apply elem_of_nil in Hi|]. naive_solver.
Qed.

Lemma running_for_elem key i l : i ∈ running_for key l <-> Running key i ∈ l.
Proof.
  unfold running_for. rewrite list_elem_of_omap. split.
  - intros (p & Hin & Hp). destruct p as [k j| | |]; try done.
    case_match eqn:Hk; [|done]. apply str_eqb_eq in Hk. by simplify_eq.
  - intros Hin. exists (Running key i). by rewrite str_eqb_refl.
Qed.

Lemma running_for_sub key l : running_for key l `sublist_of` call_ids l.
Proof.
  induction l as [|p l IH]; [done|]. destruct p as [k i| | |]; simpl.
  - destruct (str_eqb k key); [by apply sublist_skip|by apply sublist_cons].
  - by apply sublist_cons.
  - done.
  - done.
Qed.

(** ** Theorems *)

(** ** Waiting calls *)

(** A call that runs the work of entry [i] for [k], or is about to close it. *)
Definition busy (k : string) (i : nat) (l : list pc) : Prop :=
  Running k i ∈ l \/ exists wk, Settled k i wk ∈ l.

Lemma busy_mono k i l l' :
  (forall p, p ∈ l -> p ∈ l') -> busy k i l -> busy k i l'.
Proof. intros H [?|[wk ?]]; [left|right; exists wk]; auto. Qed.

(** An unfinished tracked entry is being run, and so is the entry a call waits
    on, unless it is done. *)
Definition waits_ok (w : world) : Prop :=
  (forall k i e, byKey (wcache w) !! k = Some i -> heap (wcache w) !! i = Some e -> e_done e = false ->
     busy k i (calls w)) /\
  (forall k i, Waiting k i ∈ calls w ->
     exists e, heap (wcache w) !! i = Some e /\ (e_done e = true \/ busy k i (calls w))).

(** What the entry section does to the entries. *)
Lemma enter_heap K m w now key c' v :
  world_ok K m w -> enter (wcache w) now key = (c', v) ->
  (heap c' = heap (wcache w) /\ next c' = next (wcache w) /\ byKey c' = byKey (wcache w) /\
   ((exists i e, v = Wait i /\ byKey (wcache w) !! key = Some i /\ heap (wcache w) !! i = Some e /\ e_done e = false) \/
    exists i e, v = Replay (e_data e) /\ byKey (wcache w) !! key = Some i /\ heap (wcache w) !! i = Some e)) \/
  (v = Run (next (wcache w)) /\ next c' = S (next (wcache w)) /\
   heap c' = <[next (wcache w) := Entry key false "" None time_zero]> (heap (wcache w)) /\
   (Z.of_nat (size K) <= m -> key ∈ K -> byKey c' = <[key := next (wcache w)]> (byKey (wcache w)))).
Proof.
  intros [H1 Hm Hdom _ _ _] He. destruct (enter_cases _ _ _ _ _ H1 He) as (_ & _ & Hmc & Hc).
  destruct Hc as [(i & e & Hb & Hh & [(Hd & _ & -> & Hb' & Hh' & Hn')|[(Hd & -> & ->)|(Hd & _ & j & -> & Hreg)]])
    |(Hb & j & -> & Hreg)].
  - left. split_and!; try done. right. by exists i, e.
  - left. split_and!; try done. left. by exists i, e.
  - right. destruct (removeLocked_byKey _ _ _ H1 Hb) as [Hr Hrb].
    destruct (removeLocked_same (wcache w) i) as (_ & Hrm & Hrh & Hrn).
    destruct (register_spec _ _ _ _ Hr ltac:(rewrite Hrb; apply lookup_delete_eq) Hreg)
      as (_ & _ & _ & _ & Hnx & Hj & Hhp & _). rewrite Hrn in Hnx, Hj. subst j. rewrite Hrh in Hhp.
    split_and!; try done. intros Hsz Hk.
    assert (c' = pushed (removeLocked (wcache w) i) key) as ->.
    { eapply (register_fits K); [done|by rewrite Hrb, lookup_delete_eq|done| |by rewrite Hrm, Hm|done].
      intros k x. rewrite Hrb. intros [_ ?]%lookup_delete_Some. eauto. }
    unfold pushed. cbn. by rewrite Hrb, Hrn, insert_delete_eq.
  - right. destruct (register_spec _ _ _ _ H1 Hb Hreg) as (_ & _ & _ & _ & Hnx & Hj & Hhp & _). subst j.
    split_and!; try done. intros Hsz Hk. rewrite (register_fits K _ _ _ _ H1 Hb Hk Hdom ltac:(by rewrite Hm) Hreg). done.
Qed.

Lemma waits_ok_enter K m w now key c' v p :
  world_ok K m w -> Z.of_nat (size K) <= m -> key ∈ K -> waits_ok w -> enter (wcache w) now key = (c', v) ->
  p = match v with Run i => Running key i | Wait i => Waiting key i | Replay d => Returned (d, true, None) end ->
  waits_ok (World c' (p :: calls w)).
Proof.
  intros Hw Hsz Hk [HA HB] He ->.
  assert (forall k i x, busy k i (calls w) -> busy k i (x :: calls w)) as Hmono
    by (intros k i x; apply busy_mono; intros; by right).
  destruct (enter_heap _ _ _ _ _ _ _ Hw He) as [(Hh & _ & Hb & Hv)|(-> & _ & Hh & Hb)]; split; cbn [wcache calls].
  - intros k i e. rewrite Hb, Hh. eauto.
  - intros k i. rewrite Hh, elem_of_cons. intros [Hp|Hin].
    + destruct Hv as [(j & e & -> & Hbj & Hej & Hd)|(j & e & -> & _)]; [|done]. injection Hp as -> ->.
      exists e. split; [done|right]. eauto.
    + destruct (HB _ _ Hin) as (e & ? & [?|?]); eauto.
  - intros k i e. rewrite (Hb Hsz Hk), Hh. intros [[<- <-]|[Hne Hki]]%lookup_insert_Some; [left; by left|].
    intros Hi Hd. apply Hmono. rewrite lookup_insert_ne in Hi by
      (intros <-; destruct (ok_key _ (wo_cache _ _ _ Hw) _ _ Hki) as (? & Hx & _);
       by rewrite (ok_next _ (wo_cache _ _ _ Hw)) in Hx). eauto.
  - intros k i. rewrite Hh, elem_of_cons. intros [?|Hin]; [done|].
    destruct (HB _ _ Hin) as (e & Hi & Hd). exists e. split; [|destruct Hd; auto].
    rewrite lookup_insert_ne; [done|]. intros <-. by rewrite (ok_next _ (wo_cache _ _ _ Hw)) in Hi.
Qed.

Lemma busy_replace k j l1 l2 p q :
  busy k j (l1 ++ p :: l2) -> (busy k j [p] -> busy k j [q]) -> busy k j (l1 ++ q :: l2).
Proof.
  intros Hb Hp. assert (busy k j (l1 ++ l2) \/ busy k j [p]) as [Ho|Ho].
  { destruct Hb as [H|[wk H]]; apply elem_of_app in H as [H|[<-|H]%elem_of_cons]; unfold busy;
      setoid_rewrite elem_of_app; setoid_rewrite list_elem_of_singleton; eauto 6. }
  - eapply busy_mono; [|exact Ho]. intros x. rewrite !elem_of_app, elem_of_cons. tauto.
  - eapply busy_mono; [|exact (Hp Ho)]. intros x ->%list_elem_of_singleton. rewrite elem_of_app, elem_of_cons. tauto.
Qed.

Lemma waits_ok_settle K m c l1 l2 key i now wk :
  world_ok K m (World c (l1 ++ Running key i :: l2)) -> waits_ok (World c (l1 ++ Running key i :: l2)) ->
  waits_ok (World (settle c now i wk) (l1 ++ Settled key i wk :: l2)).
Proof.
  intros Hw [HA HB]; cbn [wcache calls] in *.
  destruct (wo_run _ _ _ Hw key i ltac:(cbn; set_solver)) as (Hb & e & He & Hd). cbn [wcache] in *.
  destruct (settle_effect c now i wk e He) as [Hby Hoth].
  assert (exists e', heap (settle c now i wk) !! i = Some e' /\ e_done e' = false) as (e' & He' & Hd').
  { unfold settle. rewrite He. destruct (runGuarded wk) as [d [err|]].
    - case_bool_decide; [rewrite (removeLocked_set_entry c i e) by done|]; cbn; rewrite lookup_insert_eq; eauto.
    - cbn. rewrite lookup_insert_eq. eauto. }
  assert (forall k j, busy k j (l1 ++ Running key i :: l2) -> busy k j (l1 ++ Settled key i wk :: l2)) as Hmono.
  { intros k j Hj. eapply busy_replace; [exact Hj|]. intros [?%list_elem_of_singleton|[? ?%list_elem_of_singleton]];
      simplify_eq. right. exists wk. by left. }
  split; cbn [wcache calls].
  - intros k j x Hk Hj Hx. apply Hmono.
    assert (byKey c !! k = Some j) as Hkj.
    { destruct Hby as [Hby|Hby]; rewrite Hby in Hk; [done|]. by apply lookup_delete_Some in Hk as [_ ?]. }
    destruct (decide (j = i)) as [->|Hne]; [by apply (HA k i e)|]. rewrite Hoth in Hj by done. eauto.
  - intros k j Hj. assert (Waiting k j ∈ l1 ++ Running key i :: l2) as Hj' by set_solver.
    destruct (HB k j Hj') as (x & Hx & Hd2). destruct (decide (j = i)) as [->|Hne].
    + exists e'. split; [done|right]. destruct Hd2 as [Hd2|?]; [congruence|auto].
    + exists x. rewrite Hoth by done. destruct Hd2; auto.
Qed.

Lemma waits_ok_close K m c l1 l2 key i wk r :
  world_ok K m (World c (l1 ++ Settled key i wk :: l2)) -> waits_ok (World c (l1 ++ Settled key i wk :: l2)) ->
  waits_ok (World (close_done c i) (l1 ++ Returned r :: l2)).
Proof.
  intros Hw [HA HB]; cbn [wcache calls] in *. destruct (close_done_same c i) as (_ & _ & _ & Hb).
  assert (forall k j, j <> i -> busy k j (l1 ++ Settled key i wk :: l2) -> busy k j (l1 ++ Returned r :: l2)) as Hmono.
  { intros k j Hne Hj. eapply busy_replace; [exact Hj|].
    intros [?%list_elem_of_singleton|[? ?%list_elem_of_singleton]]; simplify_eq. }
  assert (forall e, heap (close_done c i) !! i = Some e -> e_done e = true) as Hdone.
  { intros e. unfold close_done. destruct (heap c !! i) eqn:E; [|congruence]. cbn. rewrite lookup_insert_eq.
    by intros [= <-]. }
  split; cbn [wcache calls].
  - intros k j x Hk Hj Hx. rewrite Hb in Hk. destruct (decide (j = i)) as [->|Hne]; [by rewrite (Hdone x Hj) in Hx|].
    rewrite close_done_other in Hj by done. eauto.
  - intros k j Hj. assert (Waiting k j ∈ l1 ++ Settled key i wk :: l2) as Hj' by set_solver.
    destruct (HB k j Hj') as (x & Hx & Hd2). destruct (decide (j = i)) as [->|Hne].
    + unfold close_done. rewrite Hx. cbn. rewrite lookup_insert_eq. eexists. split; [done|by left].
    + exists x. rewrite close_done_other by done. destruct Hd2; auto.
Qed.

Lemma waits_ok_retire c l1 l2 key i r :
  waits_ok (World c (l1 ++ Waiting key i :: l2)) -> waits_ok (World c (l1 ++ Returned r :: l2)).
Proof.
  intros [HA HB]; cbn [wcache calls] in *.
  assert (forall k j, busy k j (l1 ++ Waiting key i :: l2) -> busy k j (l1 ++ Returned r :: l2)) as Hmono.
  { intros k j Hj. eapply busy_replace; [exact Hj|].
    intros [?%list_elem_of_singleton|[? ?%list_elem_of_singleton]]; simplify_eq. }
  split; cbn [wcache calls]; [eauto|]. intros k j Hj.
  destruct (HB k j ltac:(set_solver)) as (x & Hx & Hd2). exists x. destruct Hd2; auto.
Qed.

(** What every call that did not run [wk] itself is answered with. *)
Definition shared_result (wk : work) : do_result :=
  match runGuarded wk with (d, None) => (d, true, None) | (_, Some err) => (""%string, true, Some err) end.

(** The entry [i] of [key] holds what its execution [wk] left, and no call runs
    it any more. *)
Definition settled (w : world) (key : string) (i : nat) (wk : work) : Prop :=
  (exists e, heap (wcache w) !! i = Some e /\ e_key e = key /\ (e_data e, true, e_err e) = shared_result wk) /\
  forall k, Running k i ∉ calls w.

(** Steps that stay within the keys of [K]. *)
Definition step_in (K : gset string) (w w' : world) : Prop :=
  step w w' /\ forall p k, p ∈ calls w' -> pc_key p = Some k -> k ∈ K.

Lemma world_ok_step K m w w' : Z.of_nat (size K) <= m -> world_ok K m w -> step_in K w w' -> world_ok K m w'.
Proof.
  intros Hsz IH [Hs HK]. destruct Hs; cbn [wcache calls] in *.
  - pose proof (world_ok_enter _ _ _ _ _ _ _ IH Hsz H0) as Hw. simpl in Hw. apply Hw. eapply HK; [left|done].
  - by pose proof (world_ok_enter _ _ _ _ _ _ _ IH Hsz H0).
  - by pose proof (world_ok_enter _ _ _ _ _ _ _ IH Hsz H0).
  - by apply world_ok_settle.
  - by eapply world_ok_close.
  - by eapply world_ok_retire.
  - by eapply world_ok_retire.
Qed.

(** A step settles the entry, or keeps its key, data and error. *)
Definition keeps (w w' : world) (i : nat) (e : entry) : Prop :=
  exists e', heap (wcache w') !! i = Some e' /\ e_key e' = e_key e /\ e_data e' = e_data e /\ e_err e' = e_err e.
Definition settles (w w' : world) (key : string) (i : nat) (wk : work) : Prop :=
  exists l1 l2 now, calls w = l1 ++ Running key i :: l2 /\
    w' = World (settle (wcache w) now i wk) (l1 ++ Settled key i wk :: l2).

Lemma step_heap K m w w' i e :
  world_ok K m w -> step w w' -> heap (wcache w) !! i = Some e ->
  keeps w w' i e \/ exists key wk, settles w w' key i wk.
Proof.
  intros Hw Hs Hi.
  assert (i <> next (wcache w)) as Hnx by (intros ->; by rewrite (ok_next _ (wo_cache _ _ _ Hw)) in Hi).
  assert (forall c' l, heap c' = heap (wcache w) \/ heap c' = <[next (wcache w) := Entry l false "" None time_zero]> (heap (wcache w)) ->
    heap c' !! i = Some e) as Hent by (intros c' l [->| ->]; [done|by rewrite lookup_insert_ne]).
  destruct Hs as [w now key c' j Hne He|w now key c' j Hne He|w now key c' d Hne He
    |c l1 l2 key j now wk|c l1 l2 key j wk|c l1 l2 key j r Hco|c l1 l2 key j er]; cbn [wcache calls] in *.
  1,2,3: left; exists e; split; [|done]; apply (Hent c' key);
    destruct (enter_heap _ _ _ _ _ _ _ Hw He) as [(-> & _)|(_ & _ & -> & _)]; auto.
  - destruct (decide (j = i)) as [->|Hji]; [right; exists key, wk; by exists l1, l2, now|left].
    destruct (wo_run _ _ _ Hw key j ltac:(cbn; set_solver)) as (_ & x & Hx & _). cbn [wcache] in Hx.
    destruct (settle_effect c now j wk x Hx) as [_ Ho]. exists e. split; [|done]. cbn. rewrite Ho; done.
  - left. destruct (decide (j = i)) as [->|Hji].
    + unfold keeps, close_done. cbn [wcache]. rewrite Hi. cbn. rewrite lookup_insert_eq. by eexists.
    + exists e. split; [|done]. cbn. by rewrite close_done_other.
  - left. by exists e.
  - left. by exists e.
Qed.

(** Where the calls that run and the settled ones come from. *)
Lemma step_calls K m w w' k i :
  world_ok K m w -> step w w' ->
  (Running k i ∈ calls w' -> Running k i ∈ calls w \/
     i = next (wcache w) /\ heap (wcache w') !! i = Some (Entry k false "" None time_zero)) /\
  (forall wk, Settled k i wk ∈ calls w' -> Settled k i wk ∈ calls w \/ settles w w' k i wk).
Proof.
  intros Hw Hs. destruct Hs as [w now key c' j Hne He|w now key c' j Hne He|w now key c' d Hne He
    |c l1 l2 key j now wk|c l1 l2 key j wk|c l1 l2 key j r Hco|c l1 l2 key j er]; cbn [wcache calls] in *.
  1,2,3: split; [rewrite elem_of_cons; intros [Hp|?]; [|by left]|
    intros wk; rewrite elem_of_cons; intros [?|?]; [done|by left]]; try done.
  - injection Hp as -> ->. right. destruct (enter_heap _ _ _ _ _ _ _ Hw He)
      as [(_ & _ & _ & [(? & ? & ? & _)|(? & ? & ? & _)])|(Hv & _ & -> & _)]; [done..|].
    injection Hv as ->. by rewrite lookup_insert_eq.
  - split; [intros; left; set_solver|]. intros wk'. rewrite elem_of_app, elem_of_cons.
    intros [?|[[= -> -> ->]|?]]; [left; set_solver|right; by exists l1, l2, now|left; set_solver].
  - split; [intros; left; set_solver|intros wk'; left; set_solver].
  - split; [intros; left; set_solver|intros wk'; left; set_solver].
  - split; [intros; left; set_solver|intros wk'; left; set_solver].
Qed.

(** Settling stores the result of the work. *)
Lemma settle_stores c now i wk e :
  heap c !! i = Some e -> e_data e = ""%string -> e_err e = None ->
  exists e', heap (settle c now i wk) !! i = Some e' /\ e_key e' = e_key e /\ (e_data e', true, e_err e') = shared_result wk.
Proof.
  intros He Hd Her. unfold settle, shared_result. rewrite He. destruct (runGuarded wk) as [d [err|]].
  - case_bool_decide; [rewrite (removeLocked_set_entry c i e) by done|]; cbn; rewrite lookup_insert_eq;
      eexists; split_and!; [done|done|cbn; by rewrite Hd|done|done|cbn; by rewrite Hd].
  - cbn. rewrite lookup_insert_eq. eexists. split_and!; [done|done|]. cbn. by rewrite Her.
Qed.

(** What a run within the bound preserves: of entries, those that are run are
    blank, those that are settled hold the result. *)
Record run_ok (K : gset string) (m : Z) (w : world) : Prop := {
  ro_world : world_ok K m w;
  ro_waits : waits_ok w;
  ro_blank : forall k i, Running k i ∈ calls w ->
    exists e, heap (wcache w) !! i = Some e /\ e_key e = k /\ e_data e = ""%string /\ e_err e = None;
  ro_settled : forall k i wk, Settled k i wk ∈ calls w -> settled w k i wk;
}.

Lemma ids_apart k i p l :
  NoDup (call_ids l) -> p ∈ l -> call_ids [p] = [i] -> Running k i ∈ l -> p = Running k i.
Proof.
  intros Hn Hp Hi Hr. apply list_elem_of_split in Hp as (l1 & l2 & ->).
  pose proof (ids_other l1 l2 p i k i Hi Hn) as Ho. rewrite elem_of_app in Ho.
  apply elem_of_app in Hr as [H|[<-|H]%elem_of_cons]; [by destruct Ho; auto|done|by destruct Ho; auto].
Qed.

(** An entry without a running call keeps its result under any step. *)
Lemma settled_step K m w w' key i wk :
  world_ok K m w -> step w w' -> settled w key i wk -> settled w' key i wk.
Proof.
  intros Hw Hs [(e & He & Hk & Hr) Hno].
  destruct (step_heap K m w w' i e Hw Hs He) as [(e' & He' & Hk' & Hd & Her)|(k & wk' & l1 & l2 & now & Hc & _)].
  - split; [exists e'; split_and!; [done|congruence|by rewrite Hd, Her]|]. intros k Hk0.
    destruct (proj1 (step_calls K m w w' k i Hw Hs) Hk0) as [?|[-> _]]; [by apply (Hno k)|].
    by rewrite (ok_next _ (wo_cache _ _ _ Hw)) in He.
  - destruct (Hno k). rewrite Hc. set_solver.
Qed.

Lemma run_ok_step K m w w' : Z.of_nat (size K) <= m -> run_ok K m w -> step_in K w w' -> run_ok K m w'.
Proof.
  intros Hsz [Hw Hwt Hbl Hst] Hin. pose proof (world_ok_step K m w w' Hsz Hw Hin) as Hw'.
  destruct Hin as [Hs HK]. constructor; [done| | |].
  - destruct Hs; cbn [wcache calls] in *.
    1,2,3: eapply (waits_ok_enter K m); [exact Hw|exact Hsz| |exact Hwt|eassumption|reflexivity].
    + eapply HK; [left|done].
    + eapply HK; [left|done].
    + destruct (enter_cases _ _ _ _ _ (wo_cache _ _ _ Hw) H0) as (_ & _ & _ & [(j & e & Hb & _)|(_ & j & [=] & _)]).
      by eapply (wo_dom _ _ _ Hw).
    + eapply waits_ok_settle; eassumption.
    + eapply waits_ok_close; eassumption.
    + eapply waits_ok_retire; eassumption.
    + eapply waits_ok_retire; eassumption.
  - intros k i Hr. destruct (proj1 (step_calls K m w w' k i Hw Hs) Hr) as [Hr0|[_ He]]; [|by eexists].
    destruct (Hbl _ _ Hr0) as (e & He & Hk & Hd & Her).
    destruct (step_heap K m w w' i e Hw Hs He) as [(e' & ? & ? & ? & ?)|(k' & wk & l1 & l2 & now & Hc & ->)].
    + exists e'. split_and!; congruence.
    + exfalso. cbn [calls] in Hr. pose proof (wo_ids _ _ _ Hw') as Hn. cbn [calls] in Hn.
      assert (Settled k' i wk ∈ l1 ++ Settled k' i wk :: l2) as Hp by set_solver.
      by pose proof (ids_apart k i _ _ Hn Hp eq_refl Hr).
  - intros k i wk Hsd. destruct (proj2 (step_calls K m w w' k i Hw Hs) wk Hsd) as [Hsd0|(l1 & l2 & now & Hc & ->)].
    + by eapply settled_step; [| |apply Hst].
    + destruct (Hbl k i ltac:(rewrite Hc; set_solver)) as (e & He & <- & Hd & Her). split.
      * destruct (settle_stores (wcache w) now i wk e He Hd Her) as (e' & ? & ? & ?). exists e'. done.
      * intros k' Hr. pose proof (wo_ids _ _ _ Hw') as Hn. by pose proof (ids_apart k' i _ _ Hn Hsd eq_refl Hr).
Qed.

Lemma run_ok_reachable K ttl m w :
  Z.of_nat (size K) <= max (New ttl m) -> reachable K (New ttl m) w -> run_ok K (max (New ttl m)) w.
Proof.
  intros Hsz Hr. induction Hr as [|w w' Hr IH Hs HK]; [|by eapply run_ok_step].
  pose proof (RInit K (New ttl m)) as Hi.
  constructor; [by apply (world_ok_reachable K (New ttl m) _ (New_ok ttl m) eq_refl Hsz)|..].
  - split; cbn; [intros k i e Hk; by rewrite lookup_empty in Hk|intros k i H; by apply elem_of_nil in H].
  - intros k i H. by apply elem_of_nil in H.
  - intros k i wk H. by apply elem_of_nil in H.
Qed.

Lemma one_running K m w key : world_ok K m w -> (length (running_for key (calls w)) <= 1)%nat.
Proof.
  intros Hw. pose proof (sublist_NoDup _ _ (wo_ids _ _ _ Hw) (running_for_sub key (calls w))) as Hnd.
  destruct (running_for key (calls w)) as [|a [|b l]] eqn:Hl; simpl; try lia.
  destruct (wo_run _ _ _ Hw key a) as [Ha _]; [apply running_for_elem; rewrite Hl; set_solver|].
  destruct (wo_run _ _ _ Hw key b) as [Hb _]; [apply running_for_elem; rewrite Hl; set_solver|].
  assert (a = b) as -> by congruence. apply NoDup_cons in Hnd as [Hnd _]. set_solver.
Qed.

Lemma settled_later K m w w' key i wk :
  Z.of_nat (size K) <= m -> rtc (step_in K) w w' -> run_ok K m w -> settled w key i wk ->
  run_ok K m w' /\ settled w' key i wk.
Proof.
  intros Hsz. induction 1 as [|w w1 w' Hs _ IH]; [done|]. intros Hr Hse.
  apply IH; [by eapply run_ok_step|]. eapply settled_step; [apply (ro_world _ _ _ Hr)|apply Hs|done].
Qed.

(** C12: At most once, and one result for all. In any interleaving of concurrent
    [Do] calls over a set of keys that fits the configured bound: no key ever has
    two executions of its work in flight; a call that arrives while one is in
    flight waits on it; a waiting call's entry is being executed or has its
    result; and once an execution has ended, at every later moment the calls that
    waited on it are answered with its result, and a call that replays the entry
    is answered with the data of that execution, which succeeded. *)
Theorem idem_at_most_once (K : gset string) (ttl : duration) (m : Z) w key :
  Z.of_nat (size K) <= max (New ttl m) ->
  reachable K (New ttl m) w ->
  (length (running_for key (calls w)) <= 1)%nat /\
  (forall i now, Running key i ∈ calls w -> enter (wcache w) now key = (wcache w, Wait i)) /\
  (forall i, Waiting key i ∈ calls w -> busy key i (calls w) \/ is_Some (coalesced_result (wcache w) i)) /\
  (forall i wk w', Settled key i wk ∈ calls w -> rtc (step_in K) w w' ->
     (forall r, coalesced_result (wcache w') i = Some r -> r = shared_result wk) /\
     (forall now c' d, byKey (wcache w') !! key = Some i ->
        enter (wcache w') now key = (c', Replay d) -> runGuarded wk = (d, None))).
Proof.
  intros Hsz Hr. pose proof (run_ok_reachable _ _ _ _ Hsz Hr) as Hok. pose proof (ro_world _ _ _ Hok) as Hw.
  split; [by eapply one_running|split; [|split]].
  - intros i now Hi. destruct (wo_run _ _ _ Hw key i Hi) as (Hb & e & He & Hd). unfold enter. by rewrite Hb, He, Hd.
  - intros i Hi. destruct (proj2 (ro_waits _ _ _ Hok) key i Hi) as (e & He & [Hd|?]); [right|by left].
    unfold coalesced_result. rewrite He, Hd. by eexists.
  - intros i wk w' Hs Hst.
    destruct (settled_later _ _ _ _ _ _ _ Hsz Hst Hok (ro_settled _ _ _ Hok _ _ _ Hs))
      as [Hok' [(e & He & _ & Hres) _]]. split.
    + intros r. unfold coalesced_result. rewrite He. destruct (e_done e); [|done]. intros [= <-]. done.
    + intros now c' d Hb Hent. pose proof (ro_world _ _ _ Hok') as Hw'.
      pose proof (tracked_in_lru _ _ _ (wo_cache _ _ _ Hw') Hb) as Hlru.
      pose proof (ok_success _ (wo_cache _ _ _ Hw') _ _ Hlru He) as Herr.
      unfold enter in Hent. rewrite Hb, He in Hent. destruct (e_done e); [|done].
      destruct (fresh e now); [|by destruct (register _ _)]. injection Hent as _ <-.
      unfold shared_result in Hres. destruct (runGuarded wk) as [d' [err|]]; [|congruence].
      injection Hres as _ Her. congruence.
Qed.

(** A run of two concurrent calls for one key: the second one waits. *)
Definition two_callers : world :=
  World (pushed (New 60 4) "k") [Waiting "k" 0; Running "k" 0].

Lemma two_callers_reachable : reachable {["k"%string]} (New 60 4) two_callers.
Proof.
  apply (RStep _ _ (World (pushed (New 60 4) "k") [Running "k" 0])).
  - apply (RStep _ _ (World (New 60 4) [])); [constructor| |].
    + by apply (SEnterRun (World (New 60 4) []) 5 "k").
    + intros p k Hp. apply list_elem_of_singleton in Hp as ->. set_solver.
  - by apply (SEnterWait (World (pushed (New 60 4) "k") [Running "k" 0]) 5 "k").
  - intros p k Hp Hk. apply elem_of_cons in Hp as [->|Hp]; [set_solver|].
    apply list_elem_of_singleton in Hp as ->. set_solver.
Qed.

(** The work ends with "sig" and the waiting call is about to be woken. *)
Definition two_settled : world :=
  World (settle (pushed (New 60 4) "k") 7 0 (WRet "sig")) [Waiting "k" 0; Settled "k" 0 (WRet "sig")].
Definition two_closed : world :=
  World (close_done (wcache two_settled) 0) [Waiting "k" 0; Returned (own_result (WRet "sig"))].

Lemma two_settled_reachable : reachable {["k"%string]} (New 60 4) two_settled.
Proof.
  apply (RStep _ _ two_callers); [apply two_callers_reachable| |].
  - apply (SSettle (pushed (New 60 4) "k") [Waiting "k" 0] [] "k" 0 7 (WRet "sig")).
  - intros p k Hp Hk. cbn in Hp. apply elem_of_cons in Hp as [->|Hp]; [set_solver|].
    apply list_elem_of_singleton in Hp as ->. set_solver.
Qed.

Lemma idem_at_most_once_witness :
  (length (running_for "k" (calls two_settled)) <= 1)%nat /\
  coalesced_result (wcache two_closed) 0 = Some (shared_result (WRet "sig")) /\
  shared_result (WRet "sig") = ("sig"%string, true, None).
Proof.
  assert (Hsz : Z.of_nat (size ({["k"%string]} : gset string)) <= max (New 60 4)) by (vm_compute; discriminate).
  destruct (idem_at_most_once {["k"%string]} 60 4 two_settled "k" Hsz two_settled_reachable) as (H1 & _ & _ & H4).
  split; [exact H1|]. split; [|reflexivity].
  assert (Hst : rtc (step_in {["k"%string]}) two_settled two_closed).
  { apply rtc_once. split.
    - apply (SClose (wcache two_settled) [Waiting "k" 0] [] "k" 0 (WRet "sig")).
    - intros p k Hp Hk. cbn in Hp. apply elem_of_cons in Hp as [->|Hp]; [set_solver|].
      apply list_elem_of_singleton in Hp as ->. set_solver. }
  assert (Hin : Settled "k" 0 (WRet "sig") ∈ calls two_settled) by (cbn; right; left).
  destruct (H4 0%nat (WRet "sig") two_closed Hin Hst) as [Hco _].
  destruct (coalesced_result (wcache two_closed) 0) as [r|] eqn:E; [|vm_compute in E; discriminate].
  f_equal. apply Hco. reflexivity.
Defined.

(** Retry semantics of [Do]. After a call that ran its work: if it failed
    the next call with the key runs its own work; if it succeeded the next call
    replays the stored data, without running its work, exactly while the clock
    is before completion plus the TTL. *)
Theorem idem_retry c t1 t2 t3 t4 key w1 w2 c1 d e :
  cache_ok c -> key <> ""%string ->
  Do c t1 t2 key w1 = (c1, Some (d, false, e)) ->
  t2 + ttl c <> 0 ->
  snd (Do c1 t3 t4 key w2) =
    Some (if e then own_result w2
          else if t3 <? t2 + ttl c then (d, true, None) else own_result w2).
Proof.
  intros Hc Hne H1 Hnz.
  destruct (Do_run _ _ _ _ _ _ _ Hc Hne H1 eq_refl)
    as (c' & i & e0 & Hent & Hr & -> & Hc' & Ht & Hb & Hh & Hd).
  destruct (finished_ok c' i key t2 w1 e0 Hc' Hb Hh Hd) as [_ Hfin].
  unfold own_result in Hr. destruct (runGuarded w1) as [d' [err|]]; simplify_eq.
  - by apply Do_free.
  - destruct Hfin as (Hb' & e' & He' & Hdone & Hdata & Hexp).
    rewrite (Do_done _ _ _ _ _ i e') by done. unfold fresh, is_zero, before.
    rewrite Hexp, Ht. replace (t2 + ttl c =? 0) with false by lia. simpl.
    by rewrite Hdata.
Qed.

Lemma idem_retry_witness :
  snd (Do (fst (Do (New 60 4) 100 101 "k" (WRet "sig"))) 120 121 "k" (WRet "other"))
  = Some ("sig"%string, true, None).
Proof.
  apply (idem_retry (New 60 4) 100 101 120 121 "k" (WRet "sig") (WRet "other") _ "sig" None).
  - apply New_ok.
  - discriminate.
  - vm_compute. reflexivity.
  - vm_compute. discriminate.
Defined.

(** The bound does not spare in-flight entries: with one slot, a call for a
    second key evicts the running entry of the first, and a duplicate of the
    first then runs its work again while it is still executing. *)
Theorem idem_inflight_eviction :
  exists w, reachable {["a"%string; "b"%string]} (New 60 1) w /\
    length (running_for "a" (calls w)) = 2%nat.
Proof.
  set (c1 := fst (register (New 60 1) "a")). set (c2 := fst (register c1 "b")).
  set (c3 := fst (register c2 "a")).
  exists (World c3 [Running "a" 2; Running "b" 1; Running "a" 0]). split; [|done].
  assert (forall l : list pc, (forall p, p ∈ l -> pc_key p = Some "a"%string \/ pc_key p = Some "b"%string) ->
    forall p k, p ∈ l -> pc_key p = Some k -> k ∈ ({["a"; "b"]} : gset string)) as HK.
  { intros l Hl p k Hp Hk. destruct (Hl p Hp); set_solver. }
  apply (RStep _ _ (World c2 [Running "b" 1; Running "a" 0])).
  - apply (RStep _ _ (World c1 [Running "a" 0])).
    + apply (RStep _ _ (World (New 60 1) [])); [constructor| |].
      * by apply (SEnterRun (World (New 60 1) []) 5 "a").
      * apply HK. intros p Hp. set_solver.
    + by apply (SEnterRun (World c1 [Running "a" 0]) 5 "b").
    + apply HK. intros p Hp. set_solver.
  - by apply (SEnterRun (World c2 [Running "b" 1; Running "a" 0]) 5 "a").
  - apply HK. intros p Hp. set_solver.
Qed.
