(* ===== verification/Batch.v ===== *)
(** * Batches (internal/core/batch.go) and the register over them
    (internal/core/registry.go).

    [runBatch] is a step system: the dispatching loop and the goroutines
    interleave; the results slice has disjoint slots, the counters and the sink
    are under one mutex, the semaphore bounds the goroutines in flight. *)
From S2P Require Import Prelude Errors Provider CoreTypes Service Verify.

Inductive BatchPolicy := PolicyContinue | PolicyFailFast | PolicyOther (s : string).

(** [BatchPolicy.normalized], as the test it is used for. *)
Definition fail_fast (p : BatchPolicy) : bool :=
  match p with PolicyFailFast => true | _ => false end.

Record BatchOptions := mkBatchOptions { bo_policy : BatchPolicy; bo_concurrency : Z }.

Inductive ItemStatus := ItemOK | ItemError | ItemSkipped.
Global Instance ItemStatus_eq_dec : EqDecision ItemStatus.
Proof. solve_decision. Defined.

Record BatchItemError := mkItemError {
  ie_kind : string; ie_code : string; ie_message : string; ie_action : string;
}.

(** [itemErrorFrom]; the nil case is the caller's. *)
Definition itemErrorFrom (e : goerr) : BatchItemError :=
  let kind := match as_domain e with Some k => k | None => KindInternal end in
  let exp := ExplainDomain e in
  mkItemError (KindName kind) (x_code exp)
    (if empty_str (x_message exp) then err_text e else x_message exp) (x_action exp).

Record BatchItem (O : Type) := mkItem {
  it_index : nat; it_status : ItemStatus; it_output : option O; it_error : option BatchItemError;
}.
Arguments mkItem {O}. Arguments it_index {O}. Arguments it_status {O}.
Arguments it_output {O}. Arguments it_error {O}.

Record BatchOutput (O : Type) := mkBatchOutput {
  bo_total : Z; bo_succeeded : Z; bo_failed : Z; bo_results : list (BatchItem O);
}.
Arguments mkBatchOutput {O}. Arguments bo_total {O}. Arguments bo_succeeded {O}.
Arguments bo_failed {O}. Arguments bo_results {O}.

(** The concurrency in force: the option, else the default, at least 1. *)
Definition concurrency (opts : BatchOptions) (default_conc : Z) : Z :=
  let c := if bo_concurrency opts <=? 0 then default_conc else bo_concurrency opts in
  if c <? 1 then 1 else c.

(** [batchConcurrency]. *)
Definition batchConcurrency (caps : Capabilities) : Z :=
  if 0 <? c_pool_size caps then c_pool_size caps else 1.

Section Run.
  Context {O : Type} (failFast : bool) (conc : Z) (n : nat).

(** The skipped slot an item starts as, and the result of a run item. *)
Definition skipped (i : nat) : BatchItem O := mkItem i ItemSkipped None None.
Definition item_of (i : nat) (r : res goerr O) : BatchItem O :=
  match r with
  | Ok o => mkItem i ItemOK (Some o) None
  | Err e => mkItem i ItemError None (Some (itemErrorFrom e))
  end.

(** The shared state: the loop's index and whether it broke out, the goroutines
    running [fn] and those between their slot and the mutex, the slots, the
    fail flag, the counters and what the sink received. *)
Record batch := mkBatch {
  b_next : nat; b_stopped : bool; b_running : list nat; b_closing : list nat;
  b_results : list (BatchItem O); b_flag : bool; b_ok : Z; b_err : Z; b_sunk : list (BatchItem O);
}.

Definition batch_init : batch :=
  mkBatch 0 false [] [] (map skipped (seq 0 n)) false 0 0 [].

Definition in_flight (b : batch) : nat := (length (b_running b) + length (b_closing b))%nat.

(** A goroutine is started: the loop acquired a slot and saw no reason to stop. *)
Definition dispatch (b : batch) : batch :=
  mkBatch (S (b_next b)) (b_stopped b) (b_running b ++ [b_next b]) (b_closing b) (b_results b)
    (b_flag b) (b_ok b) (b_err b) (b_sunk b).
(** The loop breaks. *)
Definition stop (b : batch) : batch :=
  mkBatch (b_next b) true (b_running b) (b_closing b) (b_results b) (b_flag b) (b_ok b) (b_err b)
    (b_sunk b).
(** [fn] returned: the flag is raised and the slot is written. *)
Definition finish (b : batch) (r1 r2 : list nat) (i : nat) (r : res goerr O) : batch :=
  mkBatch (b_next b) (b_stopped b) (r1 ++ r2) (b_closing b ++ [i]) (<[i := item_of i r]> (b_results b))
    (b_flag b || (failFast && negb (is_ok r))) (b_ok b) (b_err b) (b_sunk b).
(** The counters and the sink under the mutex, then the slot is released. *)
Definition count (b : batch) (c1 c2 : list nat) (it : BatchItem O) : batch :=
  let failed := bool_decide (it_status it = ItemError) in
  mkBatch (b_next b) (b_stopped b) (b_running b) (c1 ++ c2) (b_results b) (b_flag b)
    (if failed then b_ok b else b_ok b + 1) (if failed then b_err b + 1 else b_err b)
    (b_sunk b ++ [it]).

Inductive step (canceled : bool) : batch -> batch -> Prop :=
| StepDispatch b :
    b_stopped b = false -> (b_next b < n)%nat -> Z.of_nat (in_flight b) < conc ->
    failFast && b_flag b = false ->
    step canceled b (dispatch b)
| StepStop b :
    b_stopped b = false -> (b_next b < n)%nat -> canceled || (failFast && b_flag b) = true ->
    step canceled b (stop b)
| StepFinish b r1 i r2 r :
    b_running b = r1 ++ i :: r2 -> step canceled b (finish b r1 r2 i r)
| StepCount b c1 i c2 it :
    b_closing b = c1 ++ i :: c2 -> b_results b !! i = Some it ->
    step canceled b (count b c1 c2 it).

(** [wg.Wait] returns: the loop is over and every goroutine is done. *)
Definition batch_done (b : batch) : Prop :=
  (b_stopped b = true \/ b_next b = n) /\ b_running b = [] /\ b_closing b = [].

(** What [runBatch] returns then. *)
Definition batch_output (b : batch) : BatchOutput O :=
  mkBatchOutput (Z.of_nat n) (b_ok b) (b_err b) (b_results b).

(** A slot is its item's: skipped, or run with exactly one of output and error. *)
Definition slot_ok (it : BatchItem O) (i : nat) : Prop :=
  it = skipped i \/ exists r, it = item_of i r.

Definition counted (st : ItemStatus) (l : list (BatchItem O)) : Z :=
  Z.of_nat (length (filter (fun it => it_status it = st) l)).
End Run.
Arguments mkBatch {O}. Arguments b_next {O}. Arguments b_stopped {O}. Arguments b_running {O}.
Arguments b_closing {O}. Arguments b_results {O}. Arguments b_flag {O}. Arguments b_ok {O}.
Arguments b_err {O}. Arguments b_sunk {O}. Arguments batch_init {O}.

(** ** The invariant of a run *)

(** Replacing an element the filter drops by one it keeps adds that one. *)
Lemma filter_insert_kept {A} (P : A -> Prop) `{!forall x, Decision (P x)} (l : list A) i x y :
  l !! i = Some x -> ~ P x -> P y -> filter P (<[i := y]> l) ≡ₚ y :: filter P l.
Proof.
  intros Hi Hx Hy. pose proof (lookup_lt_Some _ _ _ Hi) as Hlt.
  rewrite insert_take_drop by done. rewrite <- (take_drop_middle l i x Hi) at 3.
  rewrite !filter_app, filter_cons_True by done. rewrite filter_cons_False by done.
  by rewrite <- Permutation_middle.
Qed.

Section RunProofs.
  Context {O : Type} (failFast : bool) (conc : Z) (n : nat) (canceled : bool).
  Implicit Types b : @batch O.

Definition ran (it : BatchItem O) : Prop := it_status it <> ItemSkipped.
#[global] Instance ran_dec it : Decision (ran it).
Proof. unfold ran. apply _. Defined.

Record batch_ok (b : @batch O) : Prop := {
  bi_length : length (b_results b) = n;
  bi_next : (b_next b <= n)%nat;
  bi_live : NoDup (b_running b ++ b_closing b);
  bi_started : forall i, i ∈ b_running b ++ b_closing b -> (i < b_next b)%nat;
  bi_bound : Z.of_nat (in_flight b) <= conc;
  bi_waiting : forall i it, b_results b !! i = Some it ->
    ((b_next b <= i)%nat \/ i ∈ b_running b) -> it = skipped i;
  bi_ran : forall i it, b_results b !! i = Some it ->
    (i < b_next b)%nat -> i ∉ b_running b -> exists r, it = item_of i r;
  bi_sunk : b_sunk b ++ omap (fun i => b_results b !! i) (b_closing b) ≡ₚ filter ran (b_results b);
  bi_ok_count : b_ok b = counted ItemOK (b_sunk b);
  bi_err_count : b_err b = counted ItemError (b_sunk b);
  bi_flag : b_flag b = true -> failFast = true /\ exists it, it ∈ b_results b /\ it_status it = ItemError;
  bi_stopped : b_stopped b = true -> canceled = true \/ b_flag b = true;
}.

Lemma item_of_ran i (r : res goerr O) : ran (item_of i r).
Proof. by destruct r. Qed.

Lemma counted_app st (l1 l2 : list (BatchItem O)) :
  counted st (l1 ++ l2) = counted st l1 + counted st l2.
Proof. unfold counted. rewrite filter_app, length_app. lia. Qed.

Lemma counted_one st (it : BatchItem O) :
  counted st [it] = if bool_decide (it_status it = st) then 1 else 0.
Proof. unfold counted. cbn. by case_bool_decide; case_decide. Qed.

Lemma init_slot i it :
  map (@skipped O) (seq 0 n) !! i = Some it -> it = skipped i /\ (i < n)%nat.
Proof.
  intros H. apply list_lookup_fmap_Some in H as (j & -> & Hj).
  apply lookup_seq in Hj as [-> ?]. done.
Qed.

Lemma init_ok : 1 <= conc -> batch_ok (batch_init n).
Proof.
  intros Hc. split; cbn; try done; try lia.
  - by rewrite length_map, length_seq.
  - constructor.
  - by intros i ?%elem_of_nil.
  - by intros i it [-> _]%init_slot _.
  - destruct (filter ran (map skipped (seq 0 n))) as [|it l] eqn:E; [done|]. exfalso.
    assert (it ∈ filter ran (map (@skipped O) (seq 0 n))) as [Hr Hin]%list_elem_of_filter
      by (rewrite E; left).
    apply list_elem_of_lookup in Hin as [i [-> _]%init_slot]. by apply Hr.
Qed.

Lemma omap_insert_ne {A} (l : list A) (i : nat) (x : A) (ks : list nat) :
  i ∉ ks -> omap (fun k => <[i := x]> l !! k) ks = omap (fun k => l !! k) ks.
Proof.
  induction ks as [|k ks IH]; [done|]. intros [Hne Hn]%not_elem_of_cons. cbn.
  rewrite list_lookup_insert_ne by done. by rewrite IH.
Qed.

Lemma dispatch_ok b :
  batch_ok b -> (b_next b < n)%nat -> Z.of_nat (in_flight b) < conc -> batch_ok (dispatch b).
Proof.
  intros [H1 H2 H3 H4 H5 H6 H7 H8 H9 H10 H11 H12] Hn Hc.
  split; unfold in_flight in *; cbn in *; try done; try lia.
  - rewrite <- app_assoc, (Permutation_app_comm _ (b_closing b)), app_assoc.
    apply NoDup_app. split_and!; [done| |apply NoDup_singleton].
    intros i Hi ->%list_elem_of_singleton. apply H4 in Hi. lia.
  - intros i. rewrite !elem_of_app, list_elem_of_singleton. intros [[Hi| ->]|Hi]; [|lia|];
      (assert (i ∈ b_running b ++ b_closing b) as ?%H4 by (apply elem_of_app; tauto); lia).
  - rewrite length_app. cbn. lia.
  - intros i it Hi [Hle|[Hin| ->%list_elem_of_singleton]%elem_of_app]; eapply H6; eauto; left; lia.
  - intros i it Hi Hlt Hnin. apply not_elem_of_app in Hnin as [Hr Hne].
    rewrite list_elem_of_singleton in Hne. eapply H7; eauto. lia.
Qed.

Lemma stop_ok b :
  batch_ok b -> canceled || (failFast && b_flag b) = true -> batch_ok (stop b).
Proof.
  intros [H1 H2 H3 H4 H5 H6 H7 H8 H9 H10 H11 H12] Hs. split; cbn in *; try done.
  intros _. apply orb_true_iff in Hs as [?|[_ ?]%andb_true_iff]; auto.
Qed.

Lemma finish_ok b r1 i r2 r :
  batch_ok b -> b_running b = r1 ++ i :: r2 -> batch_ok (finish failFast b r1 r2 i r).
Proof.
  intros [H1 H2 H3 H4 H5 H6 H7 H8 H9 H10 H11 H12] Hr.
  assert ((r1 ++ r2) ++ b_closing b ++ [i] ≡ₚ b_running b ++ b_closing b) as Hp.
  { rewrite Hr, <- (Permutation_cons_append (b_closing b) i). by rewrite <- !Permutation_middle. }
  assert (i ∉ r1 ++ r2) as Hni.
  { rewrite Hr, <- Permutation_middle in H3. cbn in H3. apply NoDup_cons in H3 as [H3 _].
    intros ?. apply H3, elem_of_app. by left. }
  assert ((i < b_next b)%nat) as Hlt by (apply H4; rewrite Hr; set_solver).
  assert (is_Some (b_results b !! i)) as [old Hold] by (apply lookup_lt_is_Some; lia).
  assert (old = skipped i) as -> by (eapply H6; eauto; right; rewrite Hr; set_solver).
  split; unfold in_flight in *; cbn in *; try done.
  - by rewrite length_insert.
  - by rewrite Hp.
  - intros j Hj. apply H4. by rewrite <- Hp.
  - rewrite Hr in H5. rewrite !length_app in H5. rewrite !length_app. cbn [length] in *. lia.
  - intros j it Hj [Hle|Hin].
    + rewrite list_lookup_insert_ne in Hj by lia. eauto.
    + rewrite list_lookup_insert_ne in Hj by (intros ->; done).
      eapply H6; eauto. right. rewrite Hr. set_solver.
  - intros j it Hj Hltj Hnin. destruct (decide (i = j)) as [->|Hne].
    + rewrite list_lookup_insert_eq in Hj by lia. injection Hj as <-. eauto.
    + rewrite list_lookup_insert_ne in Hj by done. eapply H7; eauto. rewrite Hr. set_solver.
  - rewrite (filter_insert_kept ran _ _ _ _ Hold); [|by intros H; apply H|apply item_of_ran].
    rewrite omap_app. cbn. rewrite list_lookup_insert_eq by lia. cbn.
    rewrite app_assoc, <- Permutation_cons_append. f_equiv. rewrite <- H8.
    f_equiv. apply reflexive_eq, omap_insert_ne.
    intros Hin. rewrite Hr in H3. apply NoDup_app in H3 as (_ & H3 & _).
    apply (H3 i); [set_solver|done].
  - intros Hf. destruct r as [o|e]; cbn in *.
    + rewrite andb_false_r, orb_false_r in Hf. destruct (H11 Hf) as [? (it & Hin & He)].
      split; [done|]. exists it. split; [|done].
      apply list_elem_of_lookup in Hin as [j Hj]. apply list_elem_of_lookup. exists j.
      rewrite list_lookup_insert_ne; [done|]. intros <-. rewrite Hold in Hj. by injection Hj as <-.
    + split.
      * apply orb_true_iff in Hf as [?%H11|?]; [tauto|]. by destruct failFast.
      * exists (item_of i (Err e)). split; [|done]. apply list_elem_of_lookup. exists i.
        apply list_lookup_insert_eq. lia.
  - intros Hst. destruct (H12 Hst) as [?| ->]; auto.
Qed.

Lemma count_ok b c1 i c2 it :
  batch_ok b -> b_closing b = c1 ++ i :: c2 -> b_results b !! i = Some it ->
  batch_ok (count b c1 c2 it).
Proof.
  intros [H1 H2 H3 H4 H5 H6 H7 H8 H9 H10 H11 H12] Hc Hi.
  assert (i :: b_running b ++ c1 ++ c2 ≡ₚ b_running b ++ b_closing b) as Hp.
  { rewrite Hc, <- Permutation_middle, <- Permutation_middle. done. }
  assert (ran it) as Hran.
  { assert ((i < b_next b)%nat) by (apply H4; rewrite <- Hp; left).
    destruct (H7 i it Hi) as [r ->]; [done| |apply item_of_ran].
    rewrite <- Hp in H3. apply NoDup_cons in H3 as [H3 _]. set_solver. }
  split; unfold in_flight in *; cbn in *; try done.
  - rewrite <- Hp in H3. by apply NoDup_cons in H3 as [_ ?].
  - intros j Hj. apply H4. rewrite <- Hp. by right.
  - rewrite Hc in H5. rewrite !length_app in H5. rewrite !length_app. cbn [length] in *. lia.
  - rewrite <- H8, Hc, !omap_app. cbn. rewrite Hi. cbn.
    rewrite <- app_assoc. cbn. by rewrite !Permutation_middle.
  - rewrite counted_app, counted_one, <- H9. unfold ran in Hran.
    destruct (it_status it); case_bool_decide; try case_bool_decide; done || lia.
  - rewrite counted_app, counted_one, <- H10. case_bool_decide; lia.
Qed.

Lemma step_ok b b' : batch_ok b -> step failFast conc n canceled b b' -> batch_ok b'.
Proof. destruct 2; eauto using dispatch_ok, stop_ok, finish_ok, count_ok. Qed.

Lemma reach_ok b :
  1 <= conc -> rtc (step failFast conc n canceled) (batch_init n) b -> batch_ok b.
Proof.
  intros Hc H. pose proof (init_ok Hc) as Hi. induction H; eauto using step_ok.
Qed.
End RunProofs.

Section Results.
  Context {O : Type}.
  Implicit Types l : list (BatchItem O).

#[global] Instance counted_proper st : Proper ((≡ₚ) ==> eq) (@counted O st).
Proof. intros l1 l2 Hl. unfold counted. by rewrite Hl. Qed.

Lemma counted_ran st l : st <> ItemSkipped -> counted st (filter ran l) = counted st l.
Proof.
  intros Hst. unfold counted. f_equal. induction l as [|it l IH]; [done|].
  rewrite !filter_cons. unfold ran at 1.
  repeat case_decide; rewrite ?filter_cons; repeat case_decide; cbn; try congruence; lia.
Qed.

Lemma counted_total l :
  counted ItemOK l + counted ItemError l + counted ItemSkipped l = Z.of_nat (length l).
Proof.
  induction l as [|it l IH]; [done|]. change (it :: l) with ([it] ++ l).
  rewrite !counted_app, !counted_one, length_app. cbn [length].
  destruct (it_status it); repeat case_bool_decide; try done; lia.
Qed.

Lemma counted_zero st l : (forall it, it ∈ l -> it_status it <> st) -> counted st l = 0.
Proof.
  intros H. unfold counted. destruct (filter _ l) as [|it t] eqn:E; [done|]. exfalso.
  assert (it ∈ filter (fun it => it_status it = st) l) as [? Hin]%list_elem_of_filter
    by (rewrite E; left). by eapply H.
Qed.
End Results.

(** What is known of a finished batch. *)
Lemma done_slots {O} failFast conc n canceled (b : @batch O) i it :
  batch_ok failFast conc n canceled b -> batch_done n b -> b_results b !! i = Some it ->
  if (i <? b_next b)%nat then exists r, it = item_of i r else it = skipped i.
Proof.
  intros Hb (_ & Hr & _) Hi. destruct (Nat.ltb_spec i (b_next b)).
  - eapply bi_ran; eauto. rewrite Hr. apply not_elem_of_nil.
  - eapply bi_waiting; eauto.
Qed.

(** C26: A batch keeps its promises under every interleaving. At most
    [concurrency] items run at once; when it returns, there is one result per
    item in request order, the items dispatched carry exactly one of output
    and error and the rest are skipped, the counters count the results, and
    the sink received each run item exactly once. Unless the context was
    cancelled, continue-on-error runs everything and fail-fast skips items only
    after a real failure. *)
Theorem batch_sound {O} failFast conc n canceled (b : @batch O) :
  1 <= conc -> rtc (step failFast conc n canceled) (batch_init n) b ->
  Z.of_nat (in_flight b) <= conc /\
  (batch_done n b ->
   let out := batch_output n b in
   length (bo_results out) = n /\
   (forall i it, bo_results out !! i = Some it ->
      if (i <? b_next b)%nat then exists r, it = item_of i r else it = skipped i) /\
   bo_succeeded out = counted ItemOK (bo_results out) /\
   bo_failed out = counted ItemError (bo_results out) /\
   b_sunk b ≡ₚ filter ran (bo_results out) /\
   (canceled = false -> failFast = false -> bo_succeeded out + bo_failed out = bo_total out) /\
   (canceled = false -> (exists it, it ∈ bo_results out /\ it_status it = ItemSkipped) ->
      exists it, it ∈ bo_results out /\ it_status it = ItemError)).
Proof.
  intros Hc Hr. pose proof (reach_ok failFast conc n canceled b Hc Hr) as Hb.
  split; [apply Hb|]. intros Hd out. pose proof Hd as (Hstop & Hrun & Hclose).
  assert (b_sunk b ≡ₚ filter ran (b_results b)) as Hsunk.
  { rewrite <- (bi_sunk _ _ _ _ _ Hb), Hclose. cbn. by rewrite app_nil_r. }
  assert (b_ok b = counted ItemOK (b_results b)) as Hok
    by (rewrite (bi_ok_count _ _ _ _ _ Hb), Hsunk; by apply counted_ran).
  assert (b_err b = counted ItemError (b_results b)) as Herr
    by (rewrite (bi_err_count _ _ _ _ _ Hb), Hsunk; by apply counted_ran).
  assert (forall it, it ∈ b_results b -> it_status it = ItemSkipped -> b_stopped b = true) as Hskip.
  { intros it Hin Hst. destruct Hstop as [?|Hn]; [done|]. exfalso.
    apply list_elem_of_lookup in Hin as [i Hi]. pose proof (lookup_lt_Some _ _ _ Hi) as Hlt.
    rewrite (bi_length _ _ _ _ _ Hb) in Hlt. pose proof (done_slots _ _ _ _ _ _ _ Hb Hd Hi) as Hs.
    rewrite Hn in Hs. destruct (Nat.ltb_spec i n); [|lia]. destruct Hs as [[?|?] ->]; done. }
  cbn. split_and!; try done.
  - apply Hb.
  - intros i it. by apply (done_slots failFast conc n canceled).
  - intros Hcn Hff. rewrite Hok, Herr, <- (bi_length _ _ _ _ _ Hb), <- counted_total.
    rewrite (counted_zero ItemSkipped); [lia|]. intros it Hin Hst.
    destruct (bi_stopped _ _ _ _ _ Hb (Hskip it Hin Hst)) as [?|Hf]; [congruence|].
    apply (bi_flag _ _ _ _ _ Hb) in Hf as [? _]. congruence.
  - intros Hcn (it & Hin & Hst).
    destruct (bi_stopped _ _ _ _ _ Hb (Hskip it Hin Hst)) as [?|Hf]; [congruence|].
    by apply (bi_flag _ _ _ _ _ Hb) in Hf as [_ ?].
Qed.

(** How much a run has left to do. *)
Definition batch_work {O} (n : nat) (b : @batch O) : nat :=
  (3 * (n - b_next b) + 2 * length (b_running b) + length (b_closing b)
   + (if b_stopped b then 0 else 1))%nat.

(** C37: A batch terminates and never deadlocks: every step of the loop or of a
    goroutine leaves less to do, and as long as the batch is not finished some
    step is possible, whatever the items return. *)
Theorem batch_terminates {O} failFast conc n canceled (b : @batch O) (r : res goerr O) :
  1 <= conc -> rtc (step failFast conc n canceled) (batch_init n) b ->
  (forall b', step failFast conc n canceled b b' -> (batch_work n b' < batch_work n b)%nat) /\
  (~ batch_done n b -> exists b', step failFast conc n canceled b b').
Proof.
  intros Hc Hr. pose proof (reach_ok failFast conc n canceled b Hc Hr) as Hb. split.
  - intros b' Hs. unfold batch_work.
    destruct Hs as [b Hst Hn _ _|b Hst Hn _|b r1 i r2 r' Hrun|b c1 i c2 it Hcl _]; cbn.
    + rewrite length_app. cbn. destruct (b_stopped b); lia.
    + rewrite Hst. lia.
    + rewrite Hrun, !length_app. cbn. destruct (b_stopped b); lia.
    + rewrite Hcl, !length_app. cbn. destruct (b_stopped b); lia.
  - intros Hd. destruct (b_running b) as [|i rs] eqn:Er.
    2:{ eexists. apply (StepFinish _ _ _ _ _ [] i rs r). done. }
    destruct (b_closing b) as [|i cs] eqn:Ec.
    2:{ assert (i ∈ b_running b ++ b_closing b) as Hlt%(bi_started _ _ _ _ _ Hb)
          by (rewrite Er, Ec; left).
        assert (is_Some (b_results b !! i)) as [it Hit].
        { apply lookup_lt_is_Some. rewrite (bi_length _ _ _ _ _ Hb).
          pose proof (bi_next _ _ _ _ _ Hb). lia. }
        eexists. by apply (StepCount _ _ _ _ _ [] i cs it). }
    destruct (b_stopped b) eqn:Es; [exfalso; apply Hd; split_and!; auto|].
    destruct (decide (b_next b = n)) as [Hn|Hn]; [exfalso; apply Hd; split_and!; auto|].
    pose proof (bi_next _ _ _ _ _ Hb).
    destruct (failFast && b_flag b) eqn:Ef.
    + eexists. apply StepStop; [done|lia|]. rewrite Ef. apply orb_true_r.
    + eexists. apply StepDispatch; [done|lia| |done]. unfold in_flight. rewrite Er, Ec. cbn. lia.
Qed.

(** A fail-fast batch of three items, two at a time, whose first item fails. *)
Definition lab_end : @batch nat :=
  mkBatch 2 true [] []
    [item_of 0 (Err ErrKeyNotFound); item_of 1 (Ok 7%nat); skipped 2] true 1 1
    [item_of 0 (Err ErrKeyNotFound); item_of 1 (Ok 7%nat)].

Lemma lab_run : rtc (step true 2 3 false) (batch_init 3) lab_end.
Proof.
  eapply rtc_l; [apply StepDispatch; cbn; done || lia|].
  eapply rtc_l; [apply StepDispatch; cbn; done || lia|].
  eapply rtc_l; [apply (StepFinish _ _ _ _ _ [] 0 [1%nat] (Err ErrKeyNotFound)); done|].
  eapply rtc_l; [apply StepStop; cbn; done || lia|].
  eapply rtc_l; [eapply (StepCount _ _ _ _ _ [] 0 []); done|].
  eapply rtc_l; [apply (StepFinish _ _ _ _ _ [] 1 [] (Ok 7%nat)); done|].
  eapply rtc_l; [eapply (StepCount _ _ _ _ _ [] 1 []); done|].
  apply rtc_refl.
Qed.

Lemma batch_sound_witness :
  bo_total (batch_output 3 lab_end) = 3 /\ exists it : BatchItem nat,
    it ∈ bo_results (batch_output 3 lab_end) /\ it_status it = ItemError.
Proof.
  split; [reflexivity|].
  destruct (batch_sound true 2 3 false lab_end ltac:(lia) lab_run) as [_ H].
  destruct H as (_ & _ & _ & _ & _ & _ & H); [split_and!; [by left|done..]|].
  apply H; [done|]. exists (skipped 2). split; [right; right; left|done].
Defined.

Lemma batch_terminates_witness :
  exists b', step (O := nat) true 2 3 false (batch_init 3) b'.
Proof.
  apply (batch_terminates true 2 3 false (batch_init 3) (Ok 0%nat)); [lia|apply rtc_refl|].
  intros ([H|H] & _); done.
Defined.

(** ** registry.go *)
Record RegistrySigner := mkRegSigner {
  gs_name : string; gs_iin : string; gs_bin : string; gs_organization : string;
}.
Record RegistryRow := mkRow {
  rr_index : nat; rr_ref : string; rr_verdict : ReportVerdict; rr_summary : string;
  rr_signers : list RegistrySigner; rr_signed_at : option time; rr_reason : string;
  rr_document : ReportDocument; rr_error : option BatchItemError;
}.
Record RegistryOutput := mkRegistry {
  ro_checked_at : time; ro_total : Z; ro_valid : Z; ro_invalid : Z; ro_indeterminate : Z;
  ro_failed : Z; ro_rows : list RegistryRow;
}.
Record RegistryItem := mkRegItem { ri_ref : string; ri_verify : VerifyInput }.

Definition no_document : ReportDocument := mkReportDocument (FormatOther "") false "" "" 0.

(** [firstProblemStep]. *)
Definition firstProblemStep (steps : list DiagnosisStep) : string :=
  match find_first (fun s => bool_decide (d_status s = DiagFail)
                             || bool_decide (d_status s = DiagUnknown)) steps with
  | Some s => trim_space (d_step s)
  | None => ""
  end.

(** [fillRowFromReport] on a fresh row. *)
Definition fillRowFromReport (i : nat) (ref : string) (err : option BatchItemError)
    (rep : option VerificationReport) : RegistryRow :=
  match rep with
  | None => mkRow i ref VerdictIndeterminate "" [] None "" no_document err
  | Some r =>
      mkRow i ref (rep_verdict r) (rep_summary r)
        (map (fun s => mkRegSigner (rs_name s) (rs_iin s) (rs_bin s) (rs_organization s)) (rep_signers r))
        (match find_first (fun s => match rs_signed_at s with Some _ => true | None => false end)
                 (rep_signers r) with
         | Some s => rs_signed_at s
         | None => None
         end)
        (if bool_decide (rep_verdict r = VerdictValid) then "" else firstProblemStep (rep_steps r))
        (rep_document r) err
  end.

(** The row of one batch result. *)
Definition row_of (items : list RegistryItem) (it : BatchItem VerifyOutput) : RegistryRow :=
  let ref := match items !! it_index it with Some x => ri_ref x | None => "" end in
  match it_output it with
  | None =>
      mkRow (it_index it) ref VerdictIndeterminate
        (match it_error it with Some e => ie_message e | None => "" end) [] None
        (match it_error it with Some e => ie_kind e | None => "" end) no_document (it_error it)
  | Some out => fillRowFromReport (it_index it) ref (it_error it) (vo_report out)
  end.

(** The loop of [VerifyRegistry] over the batch's results. *)
Definition register_item (items : list RegistryItem) (o : RegistryOutput) (it : BatchItem VerifyOutput)
    : RegistryOutput :=
  let row := row_of items it in
  let failed := match it_output it with None => true | Some _ => false end in
  let counts v := negb failed && bool_decide (rr_verdict row = v) in
  mkRegistry (ro_checked_at o) (ro_total o)
    (if counts VerdictValid then ro_valid o + 1 else ro_valid o)
    (if counts VerdictInvalid then ro_invalid o + 1 else ro_invalid o)
    (if counts VerdictIndeterminate then ro_indeterminate o + 1 else ro_indeterminate o)
    (if failed then ro_failed o + 1 else ro_failed o)
    (ro_rows o ++ [row]).

(** [VerifyRegistry] from the batch's output on; [registry_inputs] is what it
    asks the batch. *)
Definition registry_inputs (items : list RegistryItem) : list VerifyInput :=
  map (fun it => let i := ri_verify it in
    mkVerifyInput (vi_format i) (vi_signature i) (vi_data i) (vi_data_ref i) (vi_detached i)
      (vi_input_pem i) (vi_check_cert_time i) (vi_extract_content i) (vi_extract_claims i)
      (vi_explain i) true (vi_receipt i) (vi_trusted i) (vi_revocation_check i)
      (vi_revocation_method i) (vi_responder_url i) (vi_archive i)) items.
Definition VerifyRegistry (items : list RegistryItem) (batch : BatchOutput VerifyOutput) (now : time)
    : RegistryOutput :=
  fold_left (register_item items) (bo_results batch)
    (mkRegistry now (bo_total batch) 0 0 0 0 []).

(** The item whose card says valid. *)
Definition valid_card (it : BatchItem VerifyOutput) : bool :=
  match it_output it with
  | Some out => match vo_report out with
                | Some rep => bool_decide (rep_verdict rep = VerdictValid)
                | None => false
                end
  | None => false
  end.

Lemma length_filter_cons {A} (P : A -> Prop) `{!forall x, Decision (P x)} x l :
  length (filter P (x :: l)) = ((if decide (P x) then 1 else 0) + length (filter P l))%nat.
Proof. rewrite filter_cons. by case_decide. Qed.

(** What the loop accumulates, from any start. *)
Lemma register_fold items l : forall o,
  let o' := fold_left (register_item items) l o in
  ro_total o' = ro_total o /\ ro_rows o' = ro_rows o ++ map (row_of items) l /\
  ro_valid o' + ro_invalid o' + ro_indeterminate o' + ro_failed o' =
    ro_valid o + ro_invalid o + ro_indeterminate o + ro_failed o + Z.of_nat (length l) /\
  ro_failed o' = ro_failed o + Z.of_nat (length (filter (fun it => it_output it = None) l)) /\
  ro_valid o' = ro_valid o + Z.of_nat (length
    (filter (fun it => valid_card it = true) l)).
Proof.
  induction l as [|it l IH]; intros o; cbn [fold_left map length].
  - rewrite app_nil_r. cbn. split_and!; try done; lia.
  - destruct (IH (register_item items o it)) as (Ht & Hrows & Hsum & Hf & Hv).
    cbv zeta in *. rewrite !length_filter_cons, Ht, Hrows, Hsum, Hf, Hv.
    unfold register_item, row_of, fillRowFromReport.
    cbn [ro_total ro_rows ro_valid ro_invalid ro_indeterminate ro_failed].
    rewrite <- app_assoc.
    destruct (decide (valid_card it = true)) as [Hd|Hd]; revert Hd; unfold valid_card at 1;
      (destruct (it_output it) as [out|]; [destruct (vo_report out) as [rep|]|]; cbn;
       [destruct (rep_verdict rep); cbn|..]);
      repeat case_bool_decide; try case_decide; intros Hd; split_and!; try done; try lia.
Qed.

(** A register accounts for every document exactly once. Over a batch of
    the documents it has one row per result, in request order and with the
    caller's label, the four counters add up to the number of rows, "failed"
    counts the items with no output, and "valid" counts exactly the outputs
    whose card says valid; a row without a verdict is never counted valid. *)
Theorem register_accounts items batch now :
  let o := VerifyRegistry items batch now in
  ro_rows o = map (row_of items) (bo_results batch) /\
  ro_valid o + ro_invalid o + ro_indeterminate o + ro_failed o = Z.of_nat (length (ro_rows o)) /\
  ro_failed o = Z.of_nat (length (filter (fun it => it_output it = None) (bo_results batch))) /\
  ro_valid o = Z.of_nat (length (filter (fun it => valid_card it = true) (bo_results batch))).
Proof.
  destruct (register_fold items (bo_results batch) (mkRegistry now (bo_total batch) 0 0 0 0 []))
    as (_ & Hr & Hs & Hf & Hv).
  unfold VerifyRegistry. rewrite Hr, Hs, Hf, Hv. cbn. rewrite length_map. split_and!; lia || done.
Qed.
