(* ===== verification/OcspCache.v ===== *)
(** * The OCSP answer cache (internal/ocspcache/cache.go, adapter.go).

    One mutex guards the map, so [Lookup] and [Store] are atomic; the hit
    counters are in Ports. SHA-256 of the certificate is a parameter. *)
From S2P Require Import Prelude CoreTypes.

Module OcspCache.

Record Config := mkConfig { oc_ttl : duration; oc_revoked_ttl : duration; oc_max : Z }.

Definition defaultTTL : duration := 10 * minute.
Definition defaultRevokedTTL : duration := 24 * hour.
Definition defaultMaxEntries : Z := 4096.

(** The defaults of [New]. *)
Definition New (c : Config) : Config :=
  mkConfig (if oc_ttl c <=? 0 then defaultTTL else oc_ttl c)
    (if oc_revoked_ttl c <=? 0 then defaultRevokedTTL else oc_revoked_ttl c)
    (if oc_max c <=? 0 then defaultMaxEntries else oc_max c).

(** A cached answer; [Entry] has the fields of [core.OCSPAnswer]. *)
Record entry := mkEntry { e_value : OCSPAnswer; e_expires : time; e_seq : Z }.
Record cache := mkCache { entries : gmap string entry; seq : Z }.
Definition empty_cache : cache := mkCache ∅ 0.

Section Cache.
  Variable cert_hash : string -> string.
  Variable cfg : Config.

(** [key]: the digest, a NUL, the responder. *)
Definition key (certDER responder : string) : string :=
  cert_hash certDER ++ String (ascii_of_nat 0) responder.

(** [Lookup] at time [now]: an expired entry is dropped on the way. *)
Definition Lookup (certDER responder : string) (now : time) (c : cache)
    : cache * option OCSPAnswer :=
  let k := key certDER responder in
  match entries c !! k with
  | None => (c, None)
  | Some e =>
      if negb (after (e_expires e) now) then (mkCache (delete k (entries c)) (seq c), None)
      else (c, Some (e_value e))
  end.

(** How long an answer may live: its TTL, cut at the responder's next update. *)
Definition lifetime (v : OCSPAnswer) (now : time) : time :=
  let expires := now + (if oa_revoked v then oc_revoked_ttl cfg else oc_ttl cfg) in
  match oa_next_update v with
  | Some nu => if before nu expires then nu else expires
  | None => expires
  end.

(** The entry inserted first; the first of the range among equals. *)
Definition older (acc : option (string * entry)) (p : string * entry) : option (string * entry) :=
  match acc with
  | None => Some p
  | Some q => if empty_str (fst q) || (e_seq (snd p) <? e_seq (snd q)) then Some p else Some q
  end.
Definition oldest (m : gmap string entry) : string :=
  match fold_left older (map_to_list m) None with Some p => fst p | None => "" end.

(** The loop that drops the oldest entries; the fuel is the map's size. *)
Fixpoint evict_loop (fuel : nat) (m : gmap string entry) : gmap string entry :=
  match fuel with
  | O => m
  | S f => if oc_max cfg <? Z.of_nat (size m) then evict_loop f (delete (oldest m) m) else m
  end.

(** [evictLocked]. *)
Definition evictLocked (now : time) (m : gmap string entry) : gmap string entry :=
  if Z.of_nat (size m) <=? oc_max cfg then m
  else
    let m' := filter (fun p => after (e_expires (snd p)) now = true) m in
    evict_loop (size m') m'.

(** [Store] at time [now]. *)
Definition Store (certDER responder : string) (v : OCSPAnswer) (now : time) (c : cache) : cache :=
  let expires := lifetime v now in
  if negb (after expires now) then c
  else
    let n := seq c + 1 in
    mkCache (evictLocked now (<[key certDER responder := mkEntry v expires n]> (entries c))) n.

(** ** Bound and freshness *)
Lemma older_elem l : forall acc q,
  fold_left older l acc = Some q -> q ∈ l \/ acc = Some q.
Proof.
  induction l as [|p l IH]; intros acc q H; cbn in H; [by right|].
  apply IH in H as [H|H]; [left; by right|]. unfold older in H.
  destruct acc as [a|]; [|injection H as <-; left; left].
  destruct (_ || _); injection H as <-; [left; left|by right].
Qed.

Lemma older_some l : forall p, is_Some (fold_left older l (Some p)).
Proof.
  induction l as [|x l IH]; intros p; cbn; [by eexists|]. destruct (_ || _); apply IH.
Qed.

Lemma oldest_in m : m <> ∅ -> is_Some (m !! oldest m).
Proof.
  intros Hm. unfold oldest. destruct (map_to_list m) as [|p l] eqn:E.
  { by apply map_to_list_empty_iff in E. }
  cbn [fold_left older]. destruct (older_some l p) as [q Hq]. rewrite Hq.
  apply older_elem in Hq as Hin. assert (q ∈ map_to_list m) as H.
  { rewrite E. destruct Hin as [?|[= ->]]; [by right|left]. }
  destruct q as [k e]. apply elem_of_map_to_list in H. by eexists.
Qed.

Lemma evict_loop_sub fuel : forall m, evict_loop fuel m ⊆ m.
Proof.
  induction fuel as [|f IH]; intros m; cbn; [done|]. destruct (_ <? _); [|done].
  etrans; [apply IH|apply delete_subseteq].
Qed.

Lemma evict_loop_bound fuel : forall m,
  0 <= oc_max cfg -> (size m <= fuel)%nat -> Z.of_nat (size (evict_loop fuel m)) <= oc_max cfg.
Proof.
  induction fuel as [|f IH]; intros m Hmax Hf; cbn; [lia|].
  destruct (Z.ltb_spec (oc_max cfg) (Z.of_nat (size m))) as [Hlt|]; [|done].
  assert (m <> ∅) as Hne by (intros ->; rewrite map_size_empty in Hlt; lia).
  apply oldest_in in Hne. apply IH; [done|]. rewrite map_size_delete_Some by done. lia.
Qed.

Lemma evictLocked_sub now m : evictLocked now m ⊆ m.
Proof.
  unfold evictLocked. destruct (_ <=? _); [done|].
  etrans; [apply evict_loop_sub|apply map_filter_subseteq].
Qed.

Lemma evictLocked_bound now m : 0 <= oc_max cfg -> Z.of_nat (size (evictLocked now m)) <= oc_max cfg.
Proof.
  intros Hmax. unfold evictLocked. destruct (Z.leb_spec (Z.of_nat (size m)) (oc_max cfg)); [done|].
  by apply evict_loop_bound.
Qed.

(** The cache over time, with the answers it was given. *)
Record stored := mkStored { so_cert : string; so_responder : string; so_answer : OCSPAnswer; so_at : time }.
Inductive run : cache -> list stored -> Prop :=
| RunInit : run empty_cache []
| RunStore c h cert resp v t :
    run c h -> run (Store cert resp v t c) (mkStored cert resp v t :: h)
| RunLookup c h cert resp t : run c h -> run (fst (Lookup cert resp t c)) h.

(** An entry is an answer of the history under its key, with its lifetime. *)
Definition entry_ok (h : list stored) (k : string) (e : entry) : Prop :=
  exists s, s ∈ h /\ key (so_cert s) (so_responder s) = k /\ e_value e = so_answer s /\
    e_expires e = lifetime (so_answer s) (so_at s).

Lemma cache_run_ok c h :
  0 <= oc_max cfg -> run c h ->
  Z.of_nat (size (entries c)) <= oc_max cfg /\
  forall k e, entries c !! k = Some e -> entry_ok h k e.
Proof.
  intros Hmax Hr. induction Hr as [|c h cert resp v t Hr [IHs IH]|c h cert resp t Hr [IHs IH]].
  - split; [cbn; rewrite map_size_empty; lia|]. intros k e Hk. by cbn in Hk; rewrite lookup_empty in Hk.
  - assert (forall k e, entry_ok h k e -> entry_ok (mkStored cert resp v t :: h) k e) as Hmono.
    { intros k e (s & Hs & ?). exists s. split; [by right|done]. }
    unfold Store. destruct (negb _); [by split; [|eauto]|]. cbn. split; [by apply evictLocked_bound|].
    intros k e Hk. eapply lookup_weaken in Hk; [|apply evictLocked_sub].
    apply lookup_insert_Some in Hk as [[<- <-]|[_ Hk]]; [|by apply Hmono, IH].
    exists (mkStored cert resp v t). split_and!; [left|done..].
  - unfold Lookup. destruct (entries c !! key cert resp) as [e0|]; [|done].
    destruct (negb _); [|done]. cbn. split.
    + pose proof (map_subseteq_size (delete (key cert resp) (entries c)) (entries c)
                    (delete_subseteq _ _)). lia.
    + intros k e [_ Hk]%lookup_delete_Some. by apply IH.
Qed.

Lemma lifetime_le v t :
  lifetime v t <= t + (if oa_revoked v then oc_revoked_ttl cfg else oc_ttl cfg) /\
  forall nu, oa_next_update v = Some nu -> lifetime v t <= nu.
Proof.
  unfold lifetime, before. destruct (oa_next_update v) as [nu|]; [|split; [lia|done]].
  destruct (Z.ltb_spec nu (t + (if oa_revoked v then oc_revoked_ttl cfg else oc_ttl cfg)));
    split; try lia; intros nu' [= <-]; lia.
Qed.

End Cache.

(** The cache never serves a stale or foreign answer and never outgrows its
    bound. An answer it serves was stored for the same key, is younger than the
    TTL of its verdict and older than nothing the responder promised: the
    instant is before the answer's own next update; and after any history the
    number of entries is within the configured maximum. *)
Theorem ocsp_cache_fresh cert_hash conf c h cert resp now c' v :
  let cfg := New conf in
  run cert_hash cfg c h -> Lookup cert_hash cert resp now c = (c', Some v) ->
  Z.of_nat (size (entries c)) <= oc_max cfg /\
  exists s, s ∈ h /\ so_answer s = v /\
    key cert_hash (so_cert s) (so_responder s) = key cert_hash cert resp /\
    now < so_at s + (if oa_revoked v then oc_revoked_ttl cfg else oc_ttl cfg) /\
    (forall nu, oa_next_update v = Some nu -> now < nu).
Proof.
  intros cfg Hr HL. destruct (cache_run_ok cert_hash cfg c h) as [Hs He]; [|done|].
  { subst cfg. cbn. destruct (Z.leb_spec (oc_max conf) 0); [done|lia]. }
  split; [done|]. unfold Lookup in HL. destruct (entries c !! _) as [e|] eqn:Ee; [|done].
  unfold after in HL. destruct (Z.ltb_spec now (e_expires e)) as [Hlt|]; [|done].
  injection HL as <- <-. destruct (He _ _ Ee) as (s & Hin & Hk & Hv & Hx).
  destruct (lifetime_le cfg (so_answer s) (so_at s)) as [Hl Hn]. rewrite <- Hx in Hl, Hn.
  rewrite Hv. exists s. split_and!; try done; [lia|]. intros nu Hnu. specialize (Hn nu Hnu). lia.
Qed.

(** A revoked answer with a next update, served while it lives. *)
Definition lab_answer : OCSPAnswer := mkOCSPAnswer true "keyCompromise" (Some 1) None (Some 500) None "".
Definition lab_cache : cache :=
  Store id (New (mkConfig 0 0 0)) "cert" "http://ocsp" lab_answer 100 empty_cache.

Lemma ocsp_cache_fresh_witness :
  Lookup id "cert" "http://ocsp" 499 lab_cache = (lab_cache, Some lab_answer) /\ 499 < 500 /\
  snd (Lookup id "cert" "http://ocsp" 500 lab_cache) = None.
Proof.
  assert (Lookup id "cert" "http://ocsp" 499 lab_cache = (lab_cache, Some lab_answer)) as E
    by (vm_compute; reflexivity).
  split; [exact E|]. split; [|vm_compute; reflexivity].
  destruct (ocsp_cache_fresh id (mkConfig 0 0 0) lab_cache
              [mkStored "cert" "http://ocsp" lab_answer 100] "cert" "http://ocsp" 499 lab_cache lab_answer)
    as [_ (s & _ & _ & _ & _ & Hn)]; [apply RunStore, RunInit|exact E|].
  by apply Hn.
Defined.
End OcspCache.
