(* ===== verification/Stores.v ===== *)
(** * Session stores: what a flow relies on, and the in-memory implementation
    (the Store interfaces and MemStore types of internal/multisign/store.go,
    internal/qr/store.go, internal/challenge/store.go, internal/jobs/memstore.go).

    A store keeps values by id. Every operation of [MemStore] holds the mutex
    for its whole body and copies what goes in and out, so it is one atomic
    step on values, and a stored value never aliases a caller's. *)
From S2P Require Import Prelude Errors.

(** The operations over the store's own state [St]; a store may fail. *)
Class Store (St V : Type) := {
  st_create : string -> V -> St -> St * option goerr;
  st_get : string -> St -> res goerr V;
  st_save : string -> V -> St -> St * option goerr;
  st_delete : string -> St -> St * option goerr;
  st_len : St -> Z;
}.

(** What the flows are proved against: a failed operation changes nothing, a
    create stores, a save replaces an entry that exists, and a get returns what
    is stored. *)
Class StoreLaws (St V : Type) `{Store St V} := {
  st_view : St -> gmap string V;
  st_get_ok : forall k v s, st_get k s = Ok v -> st_view s !! k = Some v;
  st_create_ok : forall k v s s', st_create k v s = (s', None) -> st_view s' = <[k := v]> (st_view s);
  st_create_err : forall k v s s' e, st_create k v s = (s', Some e) -> st_view s' = st_view s;
  st_save_ok : forall k v s s', st_save k v s = (s', None) ->
    st_view s' = <[k := v]> (st_view s) /\ is_Some (st_view s !! k);
  st_save_err : forall k v s s' e, st_save k v s = (s', Some e) -> st_view s' = st_view s;
  st_delete_ok : forall k s s', st_delete k s = (s', None) -> st_view s' = delete k (st_view s);
  st_delete_err : forall k s s' e, st_delete k s = (s', Some e) -> st_view s' = st_view s;
}.

(** [json.Marshal] and [json.Unmarshal] at a type of stored values: what was
    written is read back (the flows store text that came as JSON and instants
    with four-digit years). *)
Class Codec (V : Type) := {
  cd_encode : V -> res goerr string;
  cd_decode : string -> res goerr V;
  cd_round_trip : forall v raw, cd_encode v = Ok raw -> cd_decode raw = Ok v;
}.

(** ** MemStore *)
Section MemStore.
  Context {V : Type} (not_found : goerr).

Definition mem_get (k : string) (m : gmap string V) : res goerr V :=
  match m !! k with Some v => Ok v | None => Err not_found end.
Definition mem_create (k : string) (v : V) (m : gmap string V) : gmap string V * option goerr :=
  (<[k := v]> m, None).
Definition mem_save (k : string) (v : V) (m : gmap string V) : gmap string V * option goerr :=
  match m !! k with
  | None => (m, Some not_found)
  | Some _ => (<[k := v]> m, None)
  end.
Definition mem_delete (k : string) (m : gmap string V) : gmap string V * option goerr :=
  (delete k m, None).
Definition mem_len (m : gmap string V) : Z := Z.of_nat (size m).

Definition MemStore : Store (gmap string V) V := {|
  st_create := mem_create; st_get := mem_get; st_save := mem_save;
  st_delete := mem_delete; st_len := mem_len;
|}.

Definition MemStoreLaws : @StoreLaws (gmap string V) V MemStore.
Proof.
  refine {| st_view := fun m => m |};
    cbn [st_get st_create st_save st_delete MemStore];
    unfold mem_get, mem_create, mem_save, mem_delete; intros;
    repeat match goal with
    | H : context [match ?m !! ?k with _ => _ end] |- _ => destruct (m !! k) eqn:?
    end; simplify_eq; eauto.
Defined.
End MemStore.

(** A property of every stored value survives whatever the store does with
    values that have it. *)
Section Invariant.
  Context {St V : Type} `{StoreLaws St V} (P : string -> V -> Prop).

Definition all_stored (s : St) : Prop := forall k v, st_view s !! k = Some v -> P k v.

Lemma all_stored_create k v s s' o :
  all_stored s -> P k v -> st_create k v s = (s', o) -> all_stored s'.
Proof.
  intros Hs Hv E k' v'. destruct o as [e|].
  - rewrite (st_create_err _ _ _ _ _ E). apply Hs.
  - rewrite (st_create_ok _ _ _ _ E). intros [[-> ->]|[_ ?]]%lookup_insert_Some; auto.
Qed.

Lemma all_stored_save k v s s' o :
  all_stored s -> P k v -> st_save k v s = (s', o) -> all_stored s'.
Proof.
  intros Hs Hv E k' v'. destruct o as [e|].
  - rewrite (st_save_err _ _ _ _ _ E). apply Hs.
  - rewrite (proj1 (st_save_ok _ _ _ _ E)). intros [[-> ->]|[_ ?]]%lookup_insert_Some; auto.
Qed.

Lemma all_stored_delete k s s' o :
  all_stored s -> st_delete k s = (s', o) -> all_stored s'.
Proof.
  intros Hs E k' v'. destruct o as [e|].
  - rewrite (st_delete_err _ _ _ _ E). apply Hs.
  - rewrite (st_delete_ok _ _ _ E). intros [_ ?]%lookup_delete_Some; auto.
Qed.

Lemma all_stored_get k v s : all_stored s -> st_get k s = Ok v -> P k v.
Proof. intros Hs E. by apply Hs, st_get_ok. Qed.
End Invariant.
#[export] Hint Resolve all_stored_create all_stored_save all_stored_delete : qol.
