(* ===== verification/Multisign.v ===== *)
(** * Multi-party signing sessions (internal/multisign/multisign.go; the store is
    the interface of Stores).

    A session collects the signatures of a document until its requirements are
    met. The verifier is the slice of the domain the package asks for: any
    action that verifies a container. *)
From S2P Require Import Prelude Errors Provider CoreTypes Stores.

Module Multisign.

Inductive Status := StatusPending | StatusComplete | StatusExpired.
Global Instance Status_eq_dec : EqDecision Status.
Proof. solve_decision. Defined.

Definition ErrNotFound := Sent "multisign.ErrNotFound" "multisign: session not found".
Definition ErrSessionClosed :=
  Sent "multisign.ErrSessionClosed" "multisign: session is already complete or expired".
Definition ErrNoNewSigner :=
  Sent "multisign.ErrNoNewSigner" "multisign: the submitted container adds no new signer".
Definition ErrLostSigner :=
  Sent "multisign.ErrLostSigner" "multisign: the submitted container drops an existing signature".
Definition ErrNotInvited :=
  Sent "multisign.ErrNotInvited" "multisign: the signer is not among those required".
Definition ErrAlreadySigned :=
  Sent "multisign.ErrAlreadySigned" "multisign: this signer already signed".
Definition ErrInvalid :=
  Sent "multisign.ErrInvalid" "multisign: the submitted container does not verify".

(** ** Data *)
Record Required := mkRequired { rq_iin : string; rq_bin : string; rq_role : string; rq_label : string }.

(** [Required.empty]. *)
Definition rq_empty (r : Required) : bool :=
  empty_str (rq_iin r) && empty_str (rq_bin r) && empty_str (rq_role r).

(** [hasRole]: [strings.EqualFold] on ASCII. *)
Definition hasRole (roles : list string) (want : string) : bool :=
  existsb (fun r => str_eqb (to_lower r) (to_lower want)) roles.

(** [Required.matches], on the three fields it reads of a signer. *)
Definition matches (r : Required) (iin bin : string) (roles : list string) : bool :=
  if negb (empty_str (rq_iin r)) && negb (str_eqb (rq_iin r) iin) then false
  else if negb (empty_str (rq_bin r)) && negb (str_eqb (rq_bin r) bin) then false
  else if negb (empty_str (rq_role r)) && negb (hasRole roles (rq_role r)) then false
  else true.
Definition matches_signer (r : Required) (s : ReportSigner) : bool :=
  matches r (rs_iin s) (rs_bin s) (rs_roles s).

(** [Signature]; [sn_satisfies] is [None] for the code's -1. *)
Record Signature := mkSignature {
  sn_iin : string; sn_bin : string; sn_name : string; sn_roles : list string;
  sn_signed_at : time; sn_satisfies : option nat;
}.

Record Session := mkSession {
  ss_id : string; ss_status : Status; ss_format : SignatureFormat; ss_detached : bool;
  ss_document : string; ss_container : string; ss_required : list Required; ss_min : Z;
  ss_collected : list Signature; ss_subject : string; ss_created : time; ss_expires : time;
}.

Definition set_status (s : Session) (st : Status) : Session :=
  mkSession (ss_id s) st (ss_format s) (ss_detached s) (ss_document s) (ss_container s)
    (ss_required s) (ss_min s) (ss_collected s) (ss_subject s) (ss_created s) (ss_expires s).
Definition collect (s : Session) (sig : Signature) : Session :=
  mkSession (ss_id s) (ss_status s) (ss_format s) (ss_detached s) (ss_document s) (ss_container s)
    (ss_required s) (ss_min s) (ss_collected s ++ [sig]) (ss_subject s) (ss_created s) (ss_expires s).
Definition set_container (s : Session) (c : string) : Session :=
  mkSession (ss_id s) (ss_status s) (ss_format s) (ss_detached s) (ss_document s) c
    (ss_required s) (ss_min s) (ss_collected s) (ss_subject s) (ss_created s) (ss_expires s).

(** [Session.satisfied]. *)
Definition satisfied (s : Session) (idx : nat) : bool :=
  existsb (fun c => bool_decide (sn_satisfies c = Some idx)) (ss_collected s).

(** [Session.Remaining]. *)
Definition Remaining (s : Session) : list Required :=
  omap (fun p => if satisfied s (fst p) then None else Some (snd p)) (imap pair (ss_required s)).

(** [Session.complete]. *)
Definition complete (s : Session) : bool :=
  match ss_required s with
  | [] => ss_min s <=? Z.of_nat (length (ss_collected s))
  | _ => Nat.eqb (length (Remaining s)) 0
  end.

(** [identityOf]. *)
Definition identityOf (iin bin name : string) : string :=
  if negb (empty_str iin) then "iin:" ++ iin else "bin:" ++ bin ++ "|" ++ name.
Definition signer_identity (s : ReportSigner) : string := identityOf (rs_iin s) (rs_bin s) (rs_name s).
Definition sig_identity (s : Signature) : string := identityOf (sn_iin s) (sn_bin s) (sn_name s).

(** [containsAll]. *)
Definition containsAll (signers : list ReportSigner) (collected : list Signature) : bool :=
  forallb (fun c => existsb (fun s => str_eqb (signer_identity s) (sig_identity c)) signers) collected.

(** The requirement [record] resolves to: the first free one that matches. *)
Definition slot_for (s : Session) (sg : ReportSigner) : option nat :=
  fst <$> find_first (fun p => negb (satisfied s (fst p)) && matches_signer (snd p) sg)
            (imap pair (ss_required s)).

(** [record]. *)
Definition record (s : Session) (sg : ReportSigner) (now : time) : Signature :=
  mkSignature (rs_iin sg) (rs_bin sg) (rs_name sg) (rs_roles sg)
    (match rs_signed_at sg with Some t => t | None => now end) (slot_for s sg).

(** [alreadyCollected]. *)
Definition alreadyCollected (s : Session) (sg : ReportSigner) : bool :=
  existsb (fun c => str_eqb (sig_identity c) (signer_identity sg)) (ss_collected s).

(** [matchesAnyRequirement]. *)
Definition matchesAnyRequirement (s : Session) (sg : ReportSigner) : bool :=
  existsb (fun r => matches_signer r sg) (ss_required s).

(** The loop of [Create] over a seeded container. *)
Fixpoint seed_loop (s : Session) (signers : list ReportSigner) (now : time) : Session :=
  match signers with
  | [] => s
  | sg :: t => seed_loop (collect s (record s sg now)) t now
  end.

(** The loop of [Submit]: the session and the number of signers added. *)
Fixpoint submit_loop (s : Session) (signers : list ReportSigner) (now : time) (added : nat)
    : res goerr (Session * nat) :=
  match signers with
  | [] => Ok (s, added)
  | sg :: t =>
      if alreadyCollected s sg then submit_loop s t now added
      else
        let rec := record s sg now in
        match ss_required s, sn_satisfies rec with
        | _ :: _, None =>
            Err (if matchesAnyRequirement s sg then ErrAlreadySigned else ErrNotInvited)
        | _, _ => submit_loop (collect s rec) t now (S added)
        end
  end.

(** Completing a session that has what it needs. *)
Definition close_if_complete (s : Session) : Session :=
  if complete s then set_status s StatusComplete else s.

(** [Submit] between its read and its save, once the container verified. *)
Definition accept (s : Session) (container : string) (signers : list ReportSigner) (now : time)
    : res goerr Session :=
  if negb (containsAll signers (ss_collected s)) then Err ErrLostSigner
  else
    (let? (s', added) := submit_loop s signers now 0 in
     if Nat.eqb added 0 then Err ErrNoNewSigner
     else Ok (close_if_complete (set_container s' container)))%res.

(** [CreateRequest]. *)
Record CreateRequest := mkCreateRequest {
  cq_format : SignatureFormat; cq_detached : bool; cq_document : string; cq_container : string;
  cq_required : list Required; cq_min : Z; cq_subject : string; cq_ttl_seconds : Z;
}.

(** [defaultTTL] and the default of [New]. *)
Definition defaultTTL : duration := 7 * 24 * hour.
Definition effective_ttl (ttl : duration) : duration := if ttl <=? 0 then defaultTTL else ttl.

(** ** The service *)
Section Service.
  Context {W St : Type} `{Store St Session}.
  Variable verifier : VerifyInput -> M W (VerifyOutput * option goerr).
  Variable now : W -> time.
  Variable randID : M W (res goerr string).
  (** The configured TTL. *)
  Variable cfg_ttl : duration.

Definition clock : M (W * St) time := mget (fun w => now (fst w)).

(** [signersOf]. *)
Definition signersOf (s : Session) (container : string) : M W (res goerr (list ReportSigner)) :=
  (let* (out, err) := verifier
     (mkVerifyInput (ss_format s) container (ss_document s) no_ref (ss_detached s)
        (has_prefix "-----BEGIN" container) true false true false true false [] None
        (MethodOther "") "" false) in
   mret (match err, vo_report out with
         | Some e, _ => Err e
         | None, Some rep => if vo_valid out then Ok (rep_signers rep) else Err ErrInvalid
         | None, None => Err ErrInvalid
         end))%m.

(** The refusals of [Create] before anything happens. *)
Definition check_request (q : CreateRequest) : res goerr SignatureFormat :=
  if empty_str (cq_document q) && empty_str (cq_container q) then
    Err (New "multisign: document or container is required")
  else if (Nat.eqb (length (cq_required q)) 0) && (cq_min q <=? 0) then
    Err (New "multisign: either required signers or minSigners must be set")
  else match index_of rq_empty (cq_required q) with
  | Some i =>
      Err (New ("multisign: required[" ++ dec_of_Z (Z.of_nat i)
                ++ "] identifies nobody (set iin, bin or role)")%string)
  | None =>
      let format := match cq_format q with FormatOther "" => FormatCMS | f => f end in
      if format_valid format then Ok format
      else Err (New ("multisign: unknown format " ++ quoted (format_name format)))
  end.

(** [Create]. *)
Definition Create (q : CreateRequest) : M (W * St) (res goerr Session) :=
  match check_request q with
  | Err e => mret (Err e)
  | Ok format =>
      (let* id := in_world randID in
       match id with
       | Err e => mret (Err e)
       | Ok id =>
           let* t := clock in
           let ttl := if 0 <? cq_ttl_seconds q then seconds (cq_ttl_seconds q)
                      else effective_ttl cfg_ttl in
           let s0 := mkSession id StatusPending format (cq_detached q) (cq_document q)
                       (cq_container q) (cq_required q) (cq_min q) [] (cq_subject q) t (t + ttl) in
           let* seeded :=
             if empty_str (cq_container q) then mret (Ok s0)
             else
               let* signers := in_world (signersOf s0 (cq_container q)) in
               mret (let? l := signers in Ok (close_if_complete (seed_loop s0 l t)))%res in
           match seeded with
           | Err e => mret (Err e)
           | Ok s1 =>
               let* err := in_store (st_create id s1) in
               mret (match err with Some e => Err e | None => Ok s1 end)
           end
       end)%m
  end.

(** [Get]: a save that fails is ignored. *)
Definition Get (id : string) : M (W * St) (res goerr Session) :=
  (let* got := in_store (fun st => (st, st_get id st)) in
   match got with
   | Err e => mret (Err e)
   | Ok s =>
       let* t := clock in
       if bool_decide (ss_status s = StatusPending) && negb (after (ss_expires s) t) then
         let s' := set_status s StatusExpired in
         let* _ := in_store (st_save (ss_id s') s') in
         mret (Ok s')
       else mret (Ok s)
   end)%m.

(** [Submit] up to its read of the store: an open session. *)
Definition submit_load (id : string) : M (W * St) (res goerr Session) :=
  (let* got := Get id in
   mret (let? s := got in
         if bool_decide (ss_status s = StatusPending) then Ok s else Err ErrSessionClosed))%m%res.

(** [Submit] from there on. *)
Definition submit_finish (s : Session) (container : string) : M (W * St) (res goerr Session) :=
  (let* signers := in_world (signersOf s container) in
   match signers with
   | Err e => mret (Err e)
   | Ok l =>
       let* t := clock in
       match accept s container l t with
       | Err e => mret (Err e)
       | Ok s' =>
           let* err := in_store (st_save (ss_id s') s') in
           mret (match err with Some e => Err e | None => Ok s' end)
       end
   end)%m.

(** [Submit]. *)
Definition Submit (id container : string) : M (W * St) (res goerr Session) :=
  (let* loaded := submit_load id in
   match loaded with
   | Err e => mret (Err e)
   | Ok s => submit_finish s container
   end)%m.

(** [Cancel] and [Active]. *)
Definition Cancel (id : string) : M (W * St) (option goerr) := in_store (st_delete id).
Definition Active : M (W * St) Z := mget (fun w => st_len (snd w)).
End Service.

(** ** The invariant of a session *)
Record session_ok (s : Session) : Prop := {
  so_slots : forall c i, c ∈ ss_collected s -> sn_satisfies c = Some i ->
    exists r, ss_required s !! i = Some r /\ matches r (sn_iin c) (sn_bin c) (sn_roles c) = true;
  so_once : NoDup (omap sn_satisfies (ss_collected s));
  so_people : NoDup (sig_identity <$> ss_collected s);
  so_invited : ss_required s <> [] -> forall c, c ∈ ss_collected s -> is_Some (sn_satisfies c);
  so_complete : ss_status s = StatusComplete -> complete s = true;
}.

Lemma satisfied_iff s i :
  satisfied s i = true <-> exists c, c ∈ ss_collected s /\ sn_satisfies c = Some i.
Proof. unfold satisfied. rewrite existsb_elem. by setoid_rewrite bool_decide_eq_true. Qed.

Lemma slot_for_some s sg i :
  slot_for s sg = Some i ->
  satisfied s i = false /\ exists r, ss_required s !! i = Some r /\ matches_signer r sg = true.
Proof.
  unfold slot_for. destruct (find_first _ _) as [[j r]|] eqn:E; [|done]. intros [= <-].
  apply find_first_some in E as [He Hb]. apply elem_of_lookup_imap in He as (k & r' & [= -> ->] & Hk).
  cbn [fst snd] in Hb. boolp. eauto.
Qed.

Lemma alreadyCollected_false s sg :
  alreadyCollected s sg = false -> signer_identity sg ∉ sig_identity <$> ss_collected s.
Proof.
  unfold alreadyCollected. rewrite existsb_none. intros H (c & Hc & He)%list_elem_of_fmap.
  specialize (H c He). apply str_eqb_neq in H. congruence.
Qed.

Lemma record_identity s sg t : sig_identity (record s sg t) = signer_identity sg.
Proof. done. Qed.

(** Collecting a new invited signer keeps the invariant. *)
Lemma collect_ok s sg t :
  session_ok s -> ss_status s = StatusPending -> alreadyCollected s sg = false ->
  (ss_required s <> [] -> is_Some (slot_for s sg)) ->
  session_ok (collect s (record s sg t)).
Proof.
  intros [H1 H2 H3 H4 H5] Hst Hal Hinv. split; cbn [collect ss_collected ss_required ss_status].
  - intros c i [Hc| ->%list_elem_of_singleton]%elem_of_app Hi; [by eapply H1|].
    cbn in Hi. by apply slot_for_some in Hi as [_ Hi].
  - rewrite omap_app, NoDup_app. split_and!; [done| |cbn; destruct (slot_for s sg); cbn].
    + intros i (c & Hc & Hi)%list_elem_of_omap Hin. cbn in Hin.
      destruct (slot_for s sg) as [j|] eqn:Ej; cbn in Hin; [|by apply elem_of_nil in Hin].
      apply list_elem_of_singleton in Hin as ->. apply slot_for_some in Ej as [Hf _].
      assert (satisfied s j = true) by (apply satisfied_iff; eauto). congruence.
    + apply NoDup_singleton.
    + constructor.
  - rewrite fmap_app, NoDup_app. split_and!; [done| |apply NoDup_singleton].
    intros x Hx ->%list_elem_of_singleton. by apply (alreadyCollected_false _ _ Hal).
  - intros Hr c [Hc| ->%list_elem_of_singleton]%elem_of_app; [by apply H4|by apply Hinv].
  - congruence.
Qed.

Lemma complete_set_status s st : complete (set_status s st) = complete s.
Proof. done. Qed.

Lemma close_if_complete_ok s :
  session_ok s -> ss_status s = StatusPending -> session_ok (close_if_complete s).
Proof.
  intros Hs Hst. unfold close_if_complete. destruct (complete s) eqn:E; [|done].
  destruct Hs; split; done.
Qed.

(** What the loop of [Submit] does: it only appends, every appended signature is
    a signer of the container, and the invariant is kept. *)
Lemma submit_loop_spec l t : forall s n s' n',
  submit_loop s l t n = Ok (s', n') ->
  (exists new, ss_collected s' = ss_collected s ++ new /\ n' = (n + length new)%nat /\
     forall c, c ∈ new -> exists sg, sg ∈ l /\ sig_identity c = signer_identity sg) /\
  (session_ok s -> ss_status s = StatusPending -> session_ok s') /\
  (ss_id s' = ss_id s /\ ss_required s' = ss_required s /\ ss_min s' = ss_min s /\
   ss_status s' = ss_status s).
Proof.
  induction l as [|sg l IH]; intros s n s' n' H; cbn [submit_loop] in H.
  - simplify_eq. split_and!; try done. exists [].
    rewrite app_nil_r, Nat.add_0_r. split_and!; try done. intros c Hc. by apply elem_of_nil in Hc.
  - destruct (alreadyCollected s sg) eqn:Ha.
    + apply IH in H as ((new & Hn & Hl & Hc) & Hok & Hs). split; [|done].
      exists new. split_and!; [done|done|]. intros c Hin. destruct (Hc c Hin) as (x & ? & ?).
      exists x. split; [by right|done].
    + assert (submit_loop (collect s (record s sg t)) l t (S n) = Ok (s', n') /\
              (ss_required s <> [] -> is_Some (slot_for s sg))) as [Hrec Hinv].
      { cbn [record sn_satisfies] in H. destruct (ss_required s) as [|r rs] eqn:Er.
        - by destruct (slot_for s sg).
        - destruct (slot_for s sg) as [i|] eqn:Ei; [|done]. split; [done|by eexists]. }
      clear H. apply IH in Hrec as ((new & Hn & Hl & Hc) & Hok & Hs). split; [|split].
      * exists (record s sg t :: new). cbn in Hn. rewrite Hn, <- app_assoc.
        split_and!; [done|cbn; lia|]. intros c [->|Hin]%elem_of_cons.
        -- exists sg. split; [left|done].
        -- destruct (Hc c Hin) as (x & ? & ?). exists x. split; [by right|done].
      * intros Hs0 Hp. apply Hok; [by apply collect_ok|done].
      * done.
Qed.

Lemma accept_spec s container l t s' :
  accept s container l t = Ok s' ->
  (exists new, ss_collected s' = ss_collected s ++ new /\ new <> []) /\
  (forall c, c ∈ ss_collected s' -> exists sg, sg ∈ l /\ sig_identity c = signer_identity sg) /\
  ss_container s' = container /\ ss_id s' = ss_id s /\ ss_required s' = ss_required s /\
  ss_min s' = ss_min s /\
  ss_status s' = (if complete s' then StatusComplete else ss_status s) /\
  (session_ok s -> ss_status s = StatusPending -> session_ok s').
Proof.
  unfold accept. destruct (containsAll l (ss_collected s)) eqn:Ec; [|done]. cbn [negb].
  intros ([s1 n] & Hl & H)%rbind_ok.
  apply submit_loop_spec in Hl as ((new & Hn & Hlen & Hc) & Hok & Hid & Hr & Hm & Hst).
  destruct (Nat.eqb_spec n 0) as [|Hn0]; [done|]. simplify_eq.
  assert (session_ok s -> ss_status s = StatusPending ->
          session_ok (close_if_complete (set_container s1 container))) as Hfin.
  { intros H1 H2. apply close_if_complete_ok; [|cbn; congruence].
    destruct (Hok H1 H2) as [K1 K2 K3 K4 K5]. by split. }
  unfold close_if_complete in *.
  assert (ss_collected s1 = ss_collected s ++ new /\ new <> []) as [Hcol Hnew].
  { split; [done|]. intros ->. cbn in Hn0. lia. }
  assert (forall c, c ∈ ss_collected s1 -> exists sg, sg ∈ l /\ sig_identity c = signer_identity sg).
  { rewrite Hcol. intros c [Hin|Hin]%elem_of_app; [|by apply Hc].
    apply (forallb_elem _ _ _ Ec), existsb_elem in Hin as (sg & ? & He).
    apply str_eqb_eq in He. eauto. }
  destruct (complete (set_container s1 container)) eqn:Ecp; cbn [set_status set_container ss_collected
    ss_container ss_id ss_required ss_min ss_status]; rewrite ?complete_set_status, ?Ecp;
    split_and!; eauto.
Qed.

(** A completed session: every requirement has a collected signature that
    matches it, or the count is reached. *)
Lemma complete_slots s i r :
  complete s = true -> ss_required s !! i = Some r -> satisfied s i = true.
Proof.
  unfold complete. destruct (ss_required s) as [|r0 rs] eqn:Er; [done|]. rewrite <- Er.
  intros Hc Hi. apply Nat.eqb_eq, nil_length_inv in Hc.
  destruct (satisfied s i) eqn:Es; [done|]. exfalso.
  assert (r ∈ Remaining s) as Hin; [|rewrite Hc in Hin; by apply elem_of_nil in Hin].
  unfold Remaining. apply list_elem_of_omap. exists (i, r). split; [|cbn; by rewrite Es].
  apply elem_of_lookup_imap. eauto.
Qed.

(** ** Interleavings

    Requests interleave at the store: a submission reads the session, verifies
    the container for as long as that takes, and writes the session back. *)
Section Flow.
  Context {W St : Type} `{StoreLaws St Session}.
  Variable verifier : VerifyInput -> M W (VerifyOutput * option goerr).
  Variable now : W -> time.
  Variable randID : M W (res goerr string).
  Variable cfg_ttl : duration.

(** The world, the store and the submissions between read and write. *)
Record flow := mkFlow { fl_world : W; fl_store : St; fl_loaded : list (string * Session) }.

Inductive step : flow -> flow -> Prop :=
| StepWorld w w' st l : step (mkFlow w st l) (mkFlow w' st l)
| StepCreate w st l q w' st' r :
    cq_container q = ""%string ->
    Create verifier now randID cfg_ttl q (w, st) = Done ((w', st'), r) ->
    step (mkFlow w st l) (mkFlow w' st' l)
| StepGet w st l id w' st' r :
    Get now id (w, st) = Done ((w', st'), r) ->
    step (mkFlow w st l) (mkFlow w' st' l)
| StepLoad w st l id container w' st' s :
    submit_load now id (w, st) = Done ((w', st'), Ok s) ->
    step (mkFlow w st l) (mkFlow w' st' ((container, s) :: l))
| StepFinish w st l1 l2 container s w' st' r :
    submit_finish verifier now s container (w, st) = Done ((w', st'), r) ->
    step (mkFlow w st (l1 ++ (container, s) :: l2)) (mkFlow w' st' (l1 ++ l2))
| StepCancel w st l id w' st' r :
    Cancel id (w, st) = Done ((w', st'), r) ->
    step (mkFlow w st l) (mkFlow w' st' l).

Definition flow_ok (f : flow) : Prop :=
  all_stored (fun _ => session_ok) (fl_store f) /\
  forall c s, (c, s) ∈ fl_loaded f -> session_ok s /\ ss_status s = StatusPending.

Lemma Get_ok id w st w' st' r :
  all_stored (fun _ => session_ok) st -> Get now id (w, st) = Done ((w', st'), r) ->
  all_stored (fun _ => session_ok) st' /\ forall s, r = Ok s -> session_ok s.
Proof.
  intros Hst ([w1 st1] & got & [-> [= <- <-]]%in_store_done & H2)%mbind_done.
  destruct (st_get id st) as [s|e] eqn:Eg; [|apply mret_done in H2 as [[= -> ->] ->]; done].
  pose proof (all_stored_get _ _ _ _ Hst Eg) as Hs.
  apply mbind_done in H2 as (w2 & t & [= <- <-] & H2).
  destruct (_ && _) eqn:Eb; [|apply mret_done in H2 as [[= -> ->] ->]; split; [done|by intros ? [= <-]]].
  apply mbind_done in H2 as ([w3 st3] & o & [-> Hsv]%in_store_done & [[= -> ->] ->]%mret_done).
  assert (session_ok (set_status s StatusExpired)) by (by destruct Hs; split).
  split; [|by intros ? [= <-]]. by eapply all_stored_save.
Qed.

Lemma submit_finish_ok s container w st w' st' r :
  all_stored (fun _ => session_ok) st -> session_ok s -> ss_status s = StatusPending ->
  submit_finish verifier now s container (w, st) = Done ((w', st'), r) ->
  all_stored (fun _ => session_ok) st'.
Proof.
  intros Hst Hs Hp ([w1 st1] & signers & [-> _]%in_world_done & H2)%mbind_done.
  destruct signers as [l|e]; [|by apply mret_done in H2 as [[= -> ->] ->]].
  apply mbind_done in H2 as ([w2 st2] & t & [= <- <- <-] & H2).
  destruct (accept s container l _) as [s'|e] eqn:Ea; [|by apply mret_done in H2 as [[= -> ->] ->]].
  apply mbind_done in H2 as ([w3 st3] & o & [-> Hsv]%in_store_done & [[= -> ->] _]%mret_done).
  apply accept_spec in Ea as (_ & _ & _ & _ & _ & _ & _ & Hok).
  eapply all_stored_save; [done| |done]. by apply Hok.
Qed.

Lemma Create_ok q w st w' st' r :
  all_stored (fun _ => session_ok) st -> cq_container q = ""%string ->
  Create verifier now randID cfg_ttl q (w, st) = Done ((w', st'), r) ->
  all_stored (fun _ => session_ok) st'.
Proof.
  unfold Create. intros Hst Hq HC.
  destruct (check_request q) as [f|e]; [|by apply mret_done in HC as [[= -> ->] _]].
  apply mbind_done in HC as ([w1 st1] & id & [-> _]%in_world_done & HC).
  destruct id as [id|e]; [|by apply mret_done in HC as [[= -> ->] _]].
  apply mbind_done in HC as ([w2 st2] & t & [= <- <- <-] & HC).
  rewrite Hq in HC. cbn [empty_str str_eqb String.eqb] in HC.
  apply mbind_done in HC as ([w3 st3] & x & [[= -> ->] ->]%mret_done & HC).
  apply mbind_done in HC as ([w4 st4] & o & [-> Hc]%in_store_done & [[= -> ->] _]%mret_done).
  eapply all_stored_create; [done| |done].
  split; cbn; [intros ? ? []%elem_of_nil|constructor|constructor|intros _ ? []%elem_of_nil|done].
Qed.

Lemma session_step_ok f f' : flow_ok f -> step f f' -> flow_ok f'.
Proof.
  intros [Hst Hl] Hs. destruct Hs as
    [|w st l q w' st' r Hq HC|w st l id w' st' r HG|w st l id c w' st' s HL|w st l1 l2 c s w' st' r HF
     |w st l id w' st' r HC]; cbn [fl_store fl_loaded] in *.
  - done.
  - split; [by eapply Create_ok|done].
  - apply Get_ok in HG as [? _]; done.
  - apply mbind_done in HL as ([w1 st1] & got & HG & [[= -> ->] Hr]%mret_done).
    apply Get_ok in HG as [? Hs]; [|done]. destruct got as [s0|e]; [|done]. cbn in Hr.
    destruct (bool_decide _) eqn:Eb; [|done]. boolp. injection Hr as ->.
    split; [done|]. intros c' s' [[= -> ->]|?]%elem_of_cons; [by split; [apply Hs|]|by eapply Hl].
  - destruct (Hl c s) as [Hs Hp]; [set_solver|].
    split; [by eapply submit_finish_ok|]. intros c' s' Hin. apply (Hl c'). set_solver.
  - unfold Cancel in HC. apply in_store_done in HC as [-> HC].
    split; [by eapply all_stored_delete|done].
Qed.

(** Reachable flows: from an empty store, by any interleaving. *)
Definition reachable (f : flow) : Prop :=
  exists w st, st_view st = ∅ /\ rtc step (mkFlow w st []) f.

Lemma session_reachable_ok f : reachable f -> flow_ok f.
Proof.
  intros (w & st & He & Hr). assert (flow_ok (mkFlow w st [])) as Hinit.
  { split; [|intros ? ? []%elem_of_nil]. intros k v. cbn. rewrite He, lookup_empty. done. }
  induction Hr; [done|]. eauto using session_step_ok.
Qed.

(** What a read leaves behind: nothing, or the session marked as expired. *)
Lemma Get_view id w st w' st' r :
  Get now id (w, st) = Done ((w', st'), r) ->
  (st_view st' = st_view st \/
   exists s, st_view st !! id = Some s /\
     st_view st' = <[ss_id s := set_status s StatusExpired]> (st_view st)) /\
  (forall s, r = Ok s -> ss_status s = StatusPending ->
     st_view st !! id = Some s /\ st_view st' = st_view st).
Proof.
  intros ([w1 st1] & got & [-> [= <- <-]]%in_store_done & H2)%mbind_done.
  destruct (st_get id st) as [s|e] eqn:Eg; [|apply mret_done in H2 as [[= -> ->] ->]; by split; [left|]].
  pose proof (st_get_ok _ _ _ Eg) as Hs.
  apply mbind_done in H2 as (w2 & t & [= <- <-] & H2).
  destruct (_ && _) eqn:Eb.
  - apply mbind_done in H2 as ([w3 st3] & o & [-> Hsv]%in_store_done & [[= -> ->] ->]%mret_done).
    split; [|by intros ? [= <-]]. destruct o as [e|].
    + left. by eapply st_save_err.
    + right. exists s. split; [done|]. by apply st_save_ok in Hsv as [-> _].
  - apply mret_done in H2 as [[= -> ->] ->]. split; [by left|]. by intros ? [= <-].
Qed.

(** C5: A completed signing round is really complete. In any interleaving of
    creations without a seed, reads, submissions and cancellations, a stored
    session that is complete has, for every requirement, a collected signature
    that matches it, the signatures of two requirements are of two different
    people, and nobody uninvited is among them; without named requirements it
    holds at least the asked number of signatures, all of different people. *)
Theorem complete_means_signed f k s :
  reachable f -> st_view (fl_store f) !! k = Some s -> ss_status s = StatusComplete ->
  NoDup (sig_identity <$> ss_collected s) /\
  (forall i r, ss_required s !! i = Some r ->
     exists c, c ∈ ss_collected s /\ sn_satisfies c = Some i /\
       matches r (sn_iin c) (sn_bin c) (sn_roles c) = true) /\
  (forall i j c d, c ∈ ss_collected s -> d ∈ ss_collected s -> i <> j ->
     sn_satisfies c = Some i -> sn_satisfies d = Some j -> sig_identity c <> sig_identity d) /\
  (ss_required s <> [] -> forall c, c ∈ ss_collected s -> is_Some (sn_satisfies c)) /\
  (ss_required s = [] -> ss_min s <= Z.of_nat (length (ss_collected s))).
Proof.
  intros Hr Hk Hst. destruct (session_reachable_ok f Hr) as [Hall _].
  destruct (Hall k s Hk) as [H1 H2 H3 H4 H5]. pose proof (H5 Hst) as Hc. split_and!.
  - done.
  - intros i r Hi. pose proof (complete_slots s i r Hc Hi) as (c & Hin & He)%satisfied_iff.
    exists c. split_and!; [done|done|]. destruct (H1 c i Hin He) as (r' & Hr' & Hm). congruence.
  - intros i j c d Hcin Hd Hij Hi Hj Heq.
    apply list_elem_of_lookup in Hcin as [x Hx]. apply list_elem_of_lookup in Hd as [y Hy].
    assert (x = y); [|congruence].
    apply (NoDup_lookup _ x y (sig_identity c) H3); rewrite list_lookup_fmap; [by rewrite Hx|].
    rewrite Hy, Heq. done.
  - done.
  - intros He. unfold complete in Hc. rewrite He in Hc. boolp. done.
Qed.

(** A submission only ever adds. When it succeeds, the session it returns
    is the stored one extended by at least one signature, every collected
    signature, old or new, is by a signer of the verified container, which
    becomes the session's container, and requirements and identity of the
    session are untouched; when it fails, every stored session is what it was,
    or the same session marked as expired. *)
Theorem submit_only_adds id container w st w' st' r :
  Submit verifier now id container (w, st) = Done ((w', st'), r) ->
  (forall s', r = Ok s' ->
     exists s w1 st1 w2 l, submit_load now id (w, st) = Done ((w1, st1), Ok s) /\
       signersOf verifier s container w1 = Done (w2, Ok l) /\
       (exists new, ss_collected s' = ss_collected s ++ new /\ new <> []) /\
       (forall c, c ∈ ss_collected s' -> exists sg, sg ∈ l /\ sig_identity c = signer_identity sg) /\
       ss_container s' = container /\ ss_required s' = ss_required s /\ ss_min s' = ss_min s /\
       st_view st' = <[ss_id s := s']> (st_view st1)) /\
  (forall e, r = Err e ->
     st_view st' = st_view st \/
     exists s, st_view st !! id = Some s /\
       st_view st' = <[ss_id s := set_status s StatusExpired]> (st_view st)).
Proof.
  intros ([w1 st1] & loaded & HL & HS)%mbind_done. pose proof HL as HL0.
  apply mbind_done in HL as ([w2 st2] & got & HG & [[= -> ->] Hr]%mret_done).
  apply Get_view in HG as [Hv Hp].
  destruct loaded as [s|e]; [|apply mret_done in HS as [[= -> ->] ->]; split; [done|by intros]].
  destruct got as [s0|e]; [|done]. cbn in Hr. destruct (bool_decide _) eqn:Eb; [|done].
  injection Hr as ->. boolp. destruct (Hp s0 eq_refl Eb) as [_ Hsame].
  apply mbind_done in HS as ([w3 st3] & signers & [-> Hsg]%in_world_done & HS).
  destruct signers as [l|e]; [|apply mret_done in HS as [[= -> ->] ->]; by split; [|left]].
  apply mbind_done in HS as ([w4 st4] & t & [= <- <- <-] & HS).
  destruct (accept s0 container l _) as [s'|e] eqn:Ea; [|apply mret_done in HS as [[= -> ->] ->]; by split; [|left]].
  apply mbind_done in HS as ([w5 st5] & o & [-> Hsv]%in_store_done & [[= -> ->] ->]%mret_done).
  apply accept_spec in Ea as (Hnew & Hc & Hcont & Hid & Hrq & Hm & _).
  destruct o as [e|].
  - apply st_save_err in Hsv. split; [done|]. intros _ _. left. congruence.
  - apply st_save_ok in Hsv as [Hsv _]. split; [|done]. intros s1 [= <-].
    exists s0, w2, st2, w3, l. rewrite <- Hid. split_and!; eauto.
Qed.
End Flow.

(** ** A concrete deployment: a clock for a world and the in-memory store *)
Definition lab_store : Store (gmap string Session) Session := MemStore ErrNotFound.
#[local] Existing Instance lab_store.
Definition lab_laws : StoreLaws (gmap string Session) Session := MemStoreLaws ErrNotFound.
#[local] Existing Instance lab_laws.

Definition lab_signer (iin name : string) : ReportSigner :=
  mkReportSigner name iin "" "" "INDIVIDUAL" ["CEO"%string] true None "none" ""
    (mkAlgInfo "" "" "" "") "BES" (mkReportCertificate "" "" None None false)
    (mkReportChain true true true 1).
Definition alice := lab_signer "900101300123" "ALICE".
Definition bob := lab_signer "850505300456" "BOB".

(** Containers are named by their signers. *)
Fixpoint lab_signers (container : string) : list ReportSigner :=
  match container with
  | EmptyString => []
  | String c t => (if Ascii.eqb c "A" then [alice] else if Ascii.eqb c "B" then [bob] else [])
                  ++ lab_signers t
  end.
Definition lab_verifier (i : VerifyInput) : M Z (VerifyOutput * option goerr) :=
  mret (mkVerifyOutput true (vi_format i) false [] "" [] None None
          (Some (mkReport VerdictValid "" 0 (mkReportDocument FormatCMS false "" "" 0)
                   (lab_signers (vi_signature i)) [] [])) "" None, None).
Definition lab_rand : M Z (res goerr string) := mret (Ok "s1"%string).
Definition lab_request (container : string) (required : list Required) (m : Z) : CreateRequest :=
  mkCreateRequest (FormatOther "") false "doc" container required m "" 0.
Definition lab_create (container : string) (required : list Required) (m : Z) :=
  Create lab_verifier id lab_rand 0 (lab_request container required m) (1, ∅).
Definition lab_required : list Required :=
  [mkRequired "900101300123" "" "" "director"; mkRequired "" "" "ceo" "accountant"].
Definition store_of {A} (o : outcome ((Z * gmap string Session) * A)) : gmap string Session :=
  match o with Done ((_, st), _) => st | Panic => ∅ end.
Definition answer_of {A E} (o : outcome ((Z * gmap string Session) * res E A)) : option A :=
  match o with Done (_, Ok a) => Some a | _ => None end.
Definition lab_submit (container : string) (st : gmap string Session) :=
  Submit lab_verifier id "s1" container (2, st).

(** A round with two named requirements, played to its end. *)
Definition lab_st0 := store_of (lab_create "" lab_required 0).
Definition lab_st1 := store_of (lab_submit "A" lab_st0).
Definition lab_st2 := store_of (lab_submit "AB" lab_st1).
Definition lab_session (st : gmap string Session) : Session :=
  default (mkSession "" StatusPending FormatCMS false "" "" [] 0 [] "" 0 0) (st !! "s1"%string).

Lemma lab_submit_reachable c (st st' : gmap string Session) l s r :
  reachable lab_verifier id lab_rand 0 (mkFlow 2 st l) ->
  submit_load id "s1" (2, st) = Done ((2, st), Ok s) ->
  submit_finish lab_verifier id s c (2, st) = Done ((2, st'), r) ->
  reachable lab_verifier id lab_rand 0 (mkFlow 2 st' l).
Proof.
  intros (w & s0 & He & Hr) HL HF. exists w, s0. split; [done|].
  eapply rtc_r; [eapply rtc_r; [exact Hr|eapply StepLoad with (container := c), HL]|].
  by apply (StepFinish lab_verifier id lab_rand 0 2 st [] l c s 2 st' r).
Qed.

Lemma session_lab_reachable : reachable lab_verifier id lab_rand 0 (mkFlow 2 lab_st2 []).
Proof.
  eapply (lab_submit_reachable "AB" lab_st1); [|vm_compute; reflexivity..].
  eapply (lab_submit_reachable "A" lab_st0); [|vm_compute; reflexivity..].
  exists 1, ∅. split; [done|].
  apply (rtc_l _ _ (mkFlow 1 lab_st0 [])).
  - apply (StepCreate lab_verifier id lab_rand 0 1 ∅ [] (lab_request "" lab_required 0) 1 lab_st0
             (Ok (lab_session lab_st0))); [reflexivity|vm_compute; reflexivity].
  - eapply rtc_once, StepWorld.
Qed.

Lemma complete_means_signed_witness :
  length (ss_collected (lab_session lab_st2)) = 2%nat /\
  NoDup (sig_identity <$> ss_collected (lab_session lab_st2)).
Proof.
  split; [vm_compute; reflexivity|].
  apply (complete_means_signed lab_verifier id lab_rand 0 (mkFlow 2 lab_st2 []) "s1");
    [apply session_lab_reachable|vm_compute; reflexivity..].
Defined.

Lemma submit_only_adds_witness :
  exists s' : Session, answer_of (lab_submit "AB" lab_st1) = Some s' /\
    (forall c, c ∈ ss_collected s' -> exists sg, sg ∈ [alice; bob] /\ sig_identity c = signer_identity sg).
Proof.
  eexists. split; [vm_compute; reflexivity|].
  assert (lab_submit "AB" lab_st1 = Done ((2, lab_st2), Ok (lab_session lab_st2))) as E
    by (vm_compute; reflexivity).
  destruct (submit_only_adds lab_verifier id _ _ _ _ _ _ _ E) as [H _].
  destruct (H _ eq_refl) as (s & w1 & st1 & w2 & l & _ & Hs & _ & Hc & _).
  assert (l = [alice; bob]) as ->; [|exact Hc].
  vm_compute in Hs. injection Hs as _ <-. reflexivity.
Defined.

(** A seeded session counts the same person more than once. Opening a
    session that asks for two signers with a container holding one person's two
    signatures completes it at once. *)
Theorem seed_counts_duplicates :
  exists s, answer_of (lab_create "AA" [] 2) = Some s /\ ss_min s = 2 /\
    ss_status s = StatusComplete /\
    forall c d, c ∈ ss_collected s -> d ∈ ss_collected s -> sig_identity c = sig_identity d.
Proof.
  eexists. split; [vm_compute; reflexivity|]. split_and!; [done..|].
  cbn. intros c d Hc Hd. rewrite !elem_of_cons in Hc, Hd. set_solver.
Qed.

(** Concurrent submissions lose a signature. Two submissions that read the
    session before either writes it back are both accepted, and the second
    write drops the signature the first one was told it had given. *)
Theorem concurrent_submission_lost :
  exists st s1 s2 st1 st2 s,
    st = store_of (lab_create "" [] 2) /\
    submit_load id "s1" (2, st) = Done ((2, st), Ok s) /\
    submit_finish lab_verifier id s "A" (2, st) = Done ((2, st1), Ok s1) /\
    submit_finish lab_verifier id s "B" (2, st1) = Done ((2, st2), Ok s2) /\
    signer_identity alice ∈ sig_identity <$> ss_collected s1 /\
    st2 !! "s1"%string = Some s2 /\ signer_identity alice ∉ sig_identity <$> ss_collected s2.
Proof.
  do 6 eexists. split; [reflexivity|]. split_and!; [vm_compute; reflexivity..| | |].
  - left.
  - vm_compute. reflexivity.
  - apply (bool_decide_unpack _). vm_compute. exact I.
Qed.

End Multisign.
