(* ===== verification/Jobs.v ===== *)
(** * Asynchronous jobs (internal/jobs/jobs.go, memstore.go, manager.go).

    The manager is a step system: submissions, worker pickups, executions,
    cancellations, the reaper and a restart interleave at the store, whose
    operations are atomic. The executor, the clock and the fresh ids are
    arbitrary. *)
From S2P Require Import Prelude Errors Provider CoreTypes Batch.

Module Jobs.

Inductive Status := StatusQueued | StatusRunning | StatusSucceeded | StatusFailed | StatusCanceled.
Global Instance Status_eq_dec : EqDecision Status.
Proof. solve_decision. Defined.

(** [Status.Terminal]. *)
Definition Terminal (s : Status) : bool :=
  match s with StatusSucceeded | StatusFailed | StatusCanceled => true | _ => false end.

(** [Job]; a nil message is the empty string. *)
Record Job := mkJob {
  jb_id : string; jb_op : string; jb_status : Status; jb_submitted : time;
  jb_started : option time; jb_finished : option time; jb_expires : option time;
  jb_error : option BatchItemError; jb_request : string; jb_result : string; jb_callback : string;
}.

Record View := mkView {
  w_id : string; w_op : string; w_status : Status; w_submitted : time; w_started : option time;
  w_finished : option time; w_expires : option time; w_error : option BatchItemError;
}.

(** [Job.View]. *)
Definition view (j : Job) : View :=
  mkView (jb_id j) (jb_op j) (jb_status j) (jb_submitted j) (jb_started j) (jb_finished j)
    (jb_expires j) (jb_error j).

Definition ErrNotFound := Sent "jobs.ErrNotFound" "job not found".
Definition ErrExists := Sent "jobs.ErrExists" "job already exists".
Definition ErrBusy := Sent "jobs.ErrBusy" "job queue full".
Definition ErrTooLarge := Sent "jobs.ErrTooLarge" "job request too large".
Definition ErrInvalidOp := Sent "jobs.ErrInvalidOp" "unknown operation".
Definition ErrNotReady := Sent "jobs.ErrNotReady" "job not finished".

(** ** MemStore *)
Notation store := (gmap string Job).

(** [MemStore.Create]: the id must be free. *)
Definition store_create (j : Job) (m : store) : store * option goerr :=
  match m !! jb_id j with
  | Some _ => (m, Some ErrExists)
  | None => (<[jb_id j := j]> m, None)
  end.
Definition store_get (id : string) (m : store) : res goerr Job :=
  match m !! id with Some j => Ok j | None => Err ErrNotFound end.
Definition store_save (j : Job) (m : store) : store := <[jb_id j := j]> m.
Definition store_delete (id : string) (m : store) : store := delete id m.

Definition set_job_status (st : Status) (j : Job) : Job :=
  mkJob (jb_id j) (jb_op j) st (jb_submitted j) (jb_started j) (jb_finished j) (jb_expires j)
    (jb_error j) (jb_request j) (jb_result j) (jb_callback j).

(** [Recover]: running jobs are queued again; the ids of all queued jobs. *)
Definition recovered (j : Job) : Job :=
  if bool_decide (jb_status j = StatusRunning) then set_job_status StatusQueued j else j.
Definition Recover (m : store) : store * list string :=
  let m' := recovered <$> m in
  (m', omap (fun p => if bool_decide (jb_status (snd p) = StatusQueued)
                      then Some (jb_id (snd p)) else None) (map_to_list m')).

(** [Reap]: what is kept, and how many were removed. *)
Definition reapable (now : time) (j : Job) : bool :=
  Terminal (jb_status j) &&
  match jb_expires j with Some e => negb (after e now) | None => false end.
Definition Reap (now : time) (m : store) : store * Z :=
  let kept := filter (fun p => reapable now (snd p) = false) m in
  (kept, Z.of_nat (size m) - Z.of_nat (size kept)).

(** ** Manager *)
Record Config := mkConfig {
  cf_workers : Z; cf_queue_size : Z; cf_ttl : duration; cf_max_input : Z; cf_reap : duration;
}.

(** [Config.withDefaults]. *)
Definition withDefaults (c : Config) : Config :=
  let ttl := if cf_ttl c <=? 0 then hour else cf_ttl c in
  mkConfig (if cf_workers c <? 1 then 1 else cf_workers c)
    (if cf_queue_size c <? 1 then 128 else cf_queue_size c) ttl (cf_max_input c)
    (if cf_reap c <=? 0 then (if 5 * minute <? ttl then 5 * minute else ttl) else cf_reap c).

(** [idemRef] by key, in an order the map range may give. *)
Record idemRef := mkIdemRef { ir_id : string; ir_at : time }.
Definition idemMax : nat := 8192.

(** The manager: store, pending queue, ids recovery still has to feed, and the
    idempotency keys. *)
Record manager := mkManager {
  m_store : store; m_queue : list string; m_recovered : list string; m_idem : gmap string idemRef;
}.
Definition with_store (m : manager) (s : store) : manager :=
  mkManager s (m_queue m) (m_recovered m) (m_idem m).
Definition with_idem (m : manager) (k : gmap string idemRef) : manager :=
  mkManager (m_store m) (m_queue m) (m_recovered m) k.

Section Manager.
  Variable cfg : Config.
  Variable validOp : string -> bool.

(** The record [submit] creates. *)
Definition new_job (id op request callback : string) (t : time) : Job :=
  mkJob id op StatusQueued t None None None None request "" callback.

(** [submit] with the fresh id and the clock's reading. *)
Definition submit (op request callback id : string) (t : time) (m : manager)
    : manager * res goerr View :=
  if negb (validOp op) then (m, Err ErrInvalidOp)
  else if (0 <? cf_max_input cfg) && (cf_max_input cfg <? Z.of_nat (String.length request))
  then (m, Err ErrTooLarge)
  else
    let j := new_job id op request callback t in
    match store_create j (m_store m) with
    | (_, Some e) => (m, Err e)
    | (s, None) =>
        if Z.of_nat (length (m_queue m)) <? cf_queue_size cfg
        then (mkManager s (m_queue m ++ [id]) (m_recovered m) (m_idem m), Ok (view j))
        else (with_store m (store_delete id s), Err ErrBusy)
    end.

(** The oldest mapping; the first of the range among equals. *)
Definition older (acc : option (string * idemRef)) (p : string * idemRef) : option (string * idemRef) :=
  match acc with
  | None => Some p
  | Some q => if empty_str (fst q) || before (ir_at (snd p)) (ir_at (snd q)) then Some p else Some q
  end.
Definition oldest (k : gmap string idemRef) : string :=
  match fold_left older (map_to_list k) None with Some p => fst p | None => "" end.

(** [rememberKeyLocked]. *)
Definition rememberKeyLocked (key id : string) (t : time) (k : gmap string idemRef)
    : gmap string idemRef :=
  let k' := if Nat.leb idemMax (size k) then delete (oldest k) k else k in
  <[key := mkIdemRef id t]> k'.

(** [SubmitIdempotent]. *)
Definition SubmitIdempotent (op request callback key id : string) (t : time) (m : manager)
    : manager * res goerr View :=
  if empty_str key then submit op request callback id t m
  else
    let known := match m_idem m !! key with
                 | Some r => match store_get (ir_id r) (m_store m) with
                             | Ok j => Some j
                             | Err _ => None
                             end
                 | None => None
                 end in
    match known with
    | Some j => (m, Ok (view j))
    | None =>
        let m1 := with_idem m (delete key (m_idem m)) in
        match submit op request callback id t m1 with
        | (m2, Err e) => (m2, Err e)
        | (m2, Ok v) => (with_idem m2 (rememberKeyLocked key (w_id v) t (m_idem m2)), Ok v)
        end
    end.

(** [Get] and [Result]. *)
Definition Get (id : string) (m : manager) : res goerr View :=
  (let? j := store_get id (m_store m) in Ok (view j))%res.
Definition Result (id : string) (m : manager) : res goerr (string * Status) :=
  (let? j := store_get id (m_store m) in
   if Terminal (jb_status j) then Ok (jb_result j, jb_status j) else Err ErrNotReady)%res.

(** [setExpiry]. *)
Definition expiry (old : option time) (from : time) : option time :=
  if 0 <? cf_ttl cfg then Some (from + cf_ttl cfg) else old.

(** What [Cancel] writes over the record it read. *)
Definition canceled (t : time) (j : Job) : Job :=
  mkJob (jb_id j) (jb_op j) StatusCanceled (jb_submitted j) (jb_started j) (Some t)
    (expiry (jb_expires j) t) (jb_error j) "" (jb_result j) (jb_callback j).

(** What [run] writes over the record it read when it starts the job. *)
Definition started (t : time) (j : Job) : Job :=
  mkJob (jb_id j) (jb_op j) StatusRunning (jb_submitted j) (Some t) (jb_finished j) (jb_expires j)
    (jb_error j) (jb_request j) (jb_result j) (jb_callback j).

(** [errorView]. *)
Definition errorView (e : goerr) : BatchItemError := itemErrorFrom e.

(** The executor's answer: the marshalled output ([None] when it does not
    marshal) or an error. *)
Definition answer := res goerr (option string).

(** What [run] writes when the execution is over. *)
Definition finished (t : time) (r : answer) (j : Job) : Job :=
  let upd st err result :=
    mkJob (jb_id j) (jb_op j) st (jb_submitted j) (jb_started j) (Some t)
      (expiry (jb_expires j) t) err "" result (jb_callback j) in
  match r with
  | Err e => upd StatusFailed (Some (errorView e)) (jb_result j)
  | Ok (Some raw) => upd StatusSucceeded (jb_error j) raw
  | Ok None => upd StatusFailed (Some (mkItemError (KindName KindInternal) "" "encode result" ""))
                 (jb_result j)
  end.

(** An execution error that leaves the job as it is: the context was cancelled. *)
Definition interrupted (r : answer) : bool :=
  match r with Err e => errors_is e ctx_canceled | Ok _ => false end.

(** ** Interleavings

    Requests and workers between two store operations: a worker that read a
    queued job, a worker executing one, and a [Cancel] that read a live job. *)
Inductive pending := PStart (j : Job) | PExec (j : Job) | PCancel (j : Job).

Record system := mkSystem { s_manager : manager; s_pending : list pending }.

Inductive step : system -> system -> Prop :=
| StepSubmit m l op request callback key id t m' r :
    SubmitIdempotent op request callback key id t m = (m', r) ->
    step (mkSystem m l) (mkSystem m' l)
| StepRequeue m l id ids :
    m_recovered m = id :: ids -> Z.of_nat (length (m_queue m)) < cf_queue_size cfg ->
    step (mkSystem m l)
      (mkSystem (mkManager (m_store m) (m_queue m ++ [id]) ids (m_idem m)) l)
| StepPickup m l id q :
    m_queue m = id :: q ->
    step (mkSystem m l)
      (mkSystem (mkManager (m_store m) q (m_recovered m) (m_idem m))
         (match store_get id (m_store m) with
          | Ok j => if bool_decide (jb_status j = StatusQueued) then PStart j :: l else l
          | Err _ => l
          end))
| StepStart m l1 l2 j t :
    step (mkSystem m (l1 ++ PStart j :: l2))
      (mkSystem (with_store m (store_save (started t j) (m_store m))) (PExec (started t j) :: l1 ++ l2))
| StepFinish m l1 l2 j t r :
    step (mkSystem m (l1 ++ PExec j :: l2))
      (mkSystem (if interrupted r then m
                 else with_store m (store_save (finished t r j) (m_store m))) (l1 ++ l2))
| StepCancelLoad m l id j :
    store_get id (m_store m) = Ok j -> Terminal (jb_status j) = false ->
    step (mkSystem m l) (mkSystem m (PCancel j :: l))
| StepCancelSave m l1 l2 j t :
    step (mkSystem m (l1 ++ PCancel j :: l2))
      (mkSystem (with_store m (store_save (canceled t j) (m_store m))) (l1 ++ l2))
| StepReap m l t :
    step (mkSystem m l) (mkSystem (with_store m (fst (Reap t (m_store m)))) l)
| StepRestart m l q :
    q ≡ₚ snd (Recover (m_store m)) ->
    step (mkSystem m l) (mkSystem (mkManager (fst (Recover (m_store m))) [] q ∅) []).

Definition system_init : system := mkSystem (mkManager ∅ [] [] ∅) [].
Definition reachable (s : system) : Prop := rtc step system_init s.
End Manager.

(** ** The invariant *)
Record job_ok (ttl : duration) (id : string) (j : Job) : Prop := {
  jo_id : jb_id j = id;
  jo_terminal : Terminal (jb_status j) = true ->
    jb_request j = ""%string /\ exists f, jb_finished j = Some f /\ jb_expires j = Some (f + ttl);
  jo_live : Terminal (jb_status j) = false ->
    jb_finished j = None /\ jb_expires j = None /\ jb_error j = None /\ jb_result j = ""%string;
  jo_result : jb_status j <> StatusSucceeded -> jb_result j = ""%string;
  jo_error : jb_status j = StatusFailed <-> is_Some (jb_error j);
}.

Section Invariant.
  Context (c : Config) (validOp : string -> bool).
Notation cfg := (withDefaults c).
Notation ttl := (cf_ttl cfg).
Notation ok := (job_ok ttl).

Lemma ttl_pos : 0 < ttl.
Proof. cbn. destruct (Z.leb_spec (cf_ttl c) 0); [done|lia]. Qed.

Lemma expiry_some old t : expiry cfg old t = Some (t + ttl).
Proof. unfold expiry. pose proof ttl_pos. by destruct (Z.ltb_spec 0 ttl); [|lia]. Qed.

Lemma new_job_ok id op request callback t : ok id (new_job id op request callback t).
Proof. split; cbn; naive_solver. Qed.

Lemma started_ok id t j : ok id j -> Terminal (jb_status j) = false -> ok id (started t j).
Proof.
  intros [H1 H2 H3 H4 H5] Ht. destruct (H3 Ht) as (? & ? & He & ?).
  split; cbn; rewrite ?He; naive_solver.
Qed.

Lemma canceled_ok id t j : ok id j -> Terminal (jb_status j) = false -> ok id (canceled cfg t j).
Proof.
  intros [H1 H2 H3 H4 H5] Ht. destruct (H3 Ht) as (? & ? & He & ?).
  split; cbn [canceled jb_id jb_status jb_request jb_finished jb_expires jb_error jb_result Terminal];
    rewrite ?expiry_some, ?He; naive_solver.
Qed.

Lemma finished_job_ok id t r j : ok id j -> Terminal (jb_status j) = false -> ok id (finished cfg t r j).
Proof.
  intros [H1 H2 H3 H4 H5] Ht. destruct (H3 Ht) as (? & ? & He & ?).
  destruct r as [[raw|]|e]; unfold finished;
    split; cbn [jb_id jb_status jb_request jb_finished jb_expires jb_error jb_result Terminal];
    rewrite ?expiry_some, ?He; naive_solver.
Qed.

Lemma recovered_ok id j : ok id j -> ok id (recovered j).
Proof.
  unfold recovered. case_bool_decide as E; [|done]. intros [H1 H2 H3 H4 H5].
  destruct H3 as (? & ? & He & ?); [by rewrite E|].
  split; cbn; rewrite ?He; naive_solver.
Qed.

Definition store_ok (m : store) : Prop := forall id j, m !! id = Some j -> ok id j.

Lemma store_ok_insert m id j : store_ok m -> ok id j -> store_ok (<[id := j]> m).
Proof. intros Hm Hj id' j'. intros [[<- <-]|[_ ?]]%lookup_insert_Some; auto. Qed.

Lemma save_ok m j : store_ok m -> (forall id, ok id j -> store_ok (store_save j m)).
Proof. intros Hm id Hj. unfold store_save. rewrite (jo_id _ _ _ Hj). by apply store_ok_insert. Qed.

Lemma store_ok_delete m id : store_ok m -> store_ok (store_delete id m).
Proof. unfold store_delete. intros Hm k j [_ ?]%lookup_delete_Some. auto. Qed.

Lemma submit_store op request callback id t m m' r :
  submit cfg validOp op request callback id t m = (m', r) ->
  match r with
  | Ok v => m_store m' = <[id := new_job id op request callback t]> (m_store m) /\
      m_store m !! id = None /\ m_queue m' = m_queue m ++ [id] /\
      v = view (new_job id op request callback t) /\ m_idem m' = m_idem m
  | Err _ => m' = m
  end.
Proof.
  unfold submit. destruct (validOp op); cbn [negb]; [|by intros [= <- <-]].
  destruct (_ && _); [by intros [= <- <-]|]. unfold store_create. cbn [new_job jb_id].
  destruct (m_store m !! id) eqn:E; [by intros [= <- <-]|].
  destruct (_ <? _); intros [= <- <-]; cbn; [done|].
  unfold store_delete, with_store. rewrite delete_insert_id by done. by destruct m.
Qed.

Lemma SubmitIdempotent_ok op request callback key id t m m' r :
  store_ok (m_store m) ->
  SubmitIdempotent cfg validOp op request callback key id t m = (m', r) -> store_ok (m_store m').
Proof.
  intros Hm. assert (forall m1, store_ok (m_store m1) -> forall m2 r2,
    submit cfg validOp op request callback id t m1 = (m2, r2) -> store_ok (m_store m2)) as Hsub.
  { intros m1 H1 m2 r2 E%submit_store. destruct r2; [|by subst].
    destruct E as (-> & _). apply store_ok_insert; [done|apply new_job_ok]. }
  unfold SubmitIdempotent. destruct (empty_str key); [by apply Hsub|].
  destruct (match m_idem m !! key with Some _ => _ | None => _ end); [by intros [= <- <-]|].
  destruct (submit _ _ _ _ _ _ _ _) as [m2 [v|e]] eqn:E; intros [= <- <-];
    by apply Hsub in E.
Qed.

(** The record a worker or a canceller holds. *)
Definition pending_ok (p : pending) : Prop :=
  match p with
  | PStart j | PExec j | PCancel j => ok (jb_id j) j /\ Terminal (jb_status j) = false
  end.

Definition system_ok (s : system) : Prop :=
  store_ok (m_store (s_manager s)) /\ forall p, p ∈ s_pending s -> pending_ok p.

Lemma Recover_ok m : store_ok m -> store_ok (fst (Recover m)).
Proof. intros Hm id j. cbn. intros (j0 & <- & Hj)%lookup_fmap_Some. by apply recovered_ok, Hm. Qed.

Lemma Reap_ok t m : store_ok m -> store_ok (fst (Reap t m)).
Proof. intros Hm id j. cbn. intros [Hj _]%map_lookup_filter_Some. by apply Hm. Qed.

Lemma pending_split l1 p l2 :
  (forall q, q ∈ l1 ++ p :: l2 -> pending_ok q) ->
  pending_ok p /\ forall q, q ∈ l1 ++ l2 -> pending_ok q.
Proof. intros H. split; [apply H; set_solver|]. intros q Hq. apply H. set_solver. Qed.

Lemma job_step_ok s s' : system_ok s -> step cfg validOp s s' -> system_ok s'.
Proof.
  intros [Hm Hl] Hs. destruct Hs as
    [m l op rq cb key id t m' r E|m l id ids _ _|m l id q _|m l1 l2 j t|m l1 l2 j t r
    |m l id j E Ht|m l1 l2 j t|m l t|m l q _]; cbn [s_manager s_pending m_store] in *.
  - split; [by eapply SubmitIdempotent_ok|done].
  - done.
  - split; [done|]. cbn. unfold store_get. destruct (m_store m !! id) as [j|] eqn:Ej; [|done].
    case_bool_decide as Eq; [|done]. intros p [->|Hp]%elem_of_cons; [|by apply Hl].
    pose proof (Hm id j Ej) as Hj. cbn. rewrite (jo_id _ _ _ Hj), Eq. done.
  - apply pending_split in Hl as [[Hj Ht] Hl]. pose proof (started_ok _ t _ Hj Ht) as Hs.
    split; [by eapply save_ok|]. by intros p [->|Hp]%elem_of_cons; [|apply Hl].
  - apply pending_split in Hl as [[Hj Ht] Hl]. split; [|done]. cbn.
    destruct (interrupted r); [done|]. by eapply save_ok, finished_job_ok.
  - split; [done|]. unfold store_get in E. destruct (m_store m !! id) as [j'|] eqn:Ej; [|done].
    injection E as ->. intros p [->|Hp]%elem_of_cons; [|by apply Hl].
    pose proof (Hm id j Ej) as Hj. cbn. by rewrite (jo_id _ _ _ Hj).
  - apply pending_split in Hl as [[Hj Ht] Hl]. split; [|done]. by eapply save_ok, canceled_ok.
  - split; [by apply Reap_ok|done].
  - split; [by apply Recover_ok|]. by intros p Hp%elem_of_nil.
Qed.

Lemma jobs_reachable_ok s : reachable cfg validOp s -> system_ok s.
Proof.
  unfold reachable. assert (system_ok system_init) as H.
  { split; cbn; [by intros id j Hj|by intros p Hp%elem_of_nil]. }
  intros Hr. induction Hr; eauto using job_step_ok.
Qed.

(** C27: A finished job keeps no secrets and is kept exactly its retention time.
    Whatever the interleaving of submissions, workers, cancellations, the reaper
    and restarts, a stored terminal job has no request payload and expires its
    retention time after it finished, so the reaper deletes it from then on and
    not before; a live job has no result, no error, no expiry and no time of
    finish, its result is not ready, and it is never reaped; a result is served
    only for a finished job, and is empty unless it succeeded. The retention time
    is the TTL after the defaults: one hour for a TTL of zero, which a comment of
    the code takes for "until process exit". *)
Theorem terminal_jobs_scrubbed s id j :
  reachable cfg validOp s -> m_store (s_manager s) !! id = Some j ->
  (Terminal (jb_status j) = true ->
     jb_request j = ""%string /\
     exists f, jb_finished j = Some f /\ jb_expires j = Some (f + ttl) /\
       forall t, reapable t j = true <-> f + ttl <= t) /\
  (Terminal (jb_status j) = false ->
     jb_result j = ""%string /\ jb_error j = None /\ jb_expires j = None /\ jb_finished j = None /\
     Result id (s_manager s) = Err ErrNotReady /\ forall t, reapable t j = false) /\
  (forall raw st, Result id (s_manager s) = Ok (raw, st) ->
     Terminal st = true /\ (st <> StatusSucceeded -> raw = ""%string)) /\
  (jb_status j = StatusFailed <-> is_Some (jb_error j)) /\
  (cf_ttl c <= 0 -> ttl = hour).
Proof.
  intros Hr Hj. destruct (jobs_reachable_ok s Hr) as [Hm _].
  destruct (Hm id j Hj) as [H1 H2 H3 H4 H5]. unfold reapable, Result, store_get. rewrite Hj. cbn.
  split; [|split; [|split; [|split; [done|]]]].
  - intros Ht. destruct (H2 Ht) as (Hq & f & Hf & He). split; [done|]. exists f. split; [done|]. split; [done|].
    intros t. rewrite Ht, He. unfold after. cbn [andb]. rewrite negb_true_iff, Z.ltb_ge. done.
  - intros Ht. destruct (H3 Ht) as (? & ? & ? & ?). by rewrite Ht.
  - intros raw st. destruct (Terminal (jb_status j)) eqn:Et; [|done]. intros [= <- <-]. done.
  - intros Hz. by rewrite (proj2 (Z.leb_le _ _) Hz).
Qed.

Lemma SubmitIdempotent_cases op request callback key id t m m' v :
  empty_str key = false ->
  SubmitIdempotent cfg validOp op request callback key id t m = (m', v) ->
  (exists r j, m_idem m !! key = Some r /\ m_store m !! ir_id r = Some j /\ m' = m /\ v = Ok (view j)) \/
  (exists m2 v2, submit cfg validOp op request callback id t (with_idem m (delete key (m_idem m))) = (m2, v2) /\
     match v2 with
     | Err e => m' = m2 /\ v = Err e
     | Ok w => v = Ok w /\ m' = with_idem m2 (rememberKeyLocked key (w_id w) t (m_idem m2))
     end).
Proof.
  unfold SubmitIdempotent. intros ->. unfold store_get.
  destruct (match m_idem m !! key with Some _ => _ | None => _ end) as [j|] eqn:Ek.
  - intros [= <- <-]. left. destruct (m_idem m !! key) as [r|]; [|done]. exists r, j.
    destruct (m_store m !! ir_id r); naive_solver.
  - intros H. right.
    destruct (submit _ _ _ _ _ _ _ _) as [m2 v2] eqn:E. exists m2, v2. split; [done|].
    destruct v2; naive_solver.
Qed.

(** A submission is all or nothing, and a key names one job. A refused
    submission stores and queues nothing; an accepted one stores one fresh
    queued job and puts its id on the queue exactly once; and as long as that
    job is stored and its key remembered, submitting the key again answers with
    that job and changes nothing. *)
Theorem submit_once op request callback key id t m m' v :
  SubmitIdempotent cfg validOp op request callback key id t m = (m', v) ->
  (forall e, v = Err e -> m_store m' = m_store m /\ m_queue m' = m_queue m) /\
  (forall w, v = Ok w ->
     (m' = m /\ exists r j, m_idem m !! key = Some r /\ m_store m !! ir_id r = Some j /\ w = view j) \/
     (m_store m !! id = None /\ m_queue m' = m_queue m ++ [id] /\ w_status w = StatusQueued /\
      m_store m' = <[id := new_job id op request callback t]> (m_store m) /\
      (key <> ""%string -> forall m2 op2 rq2 cb2 id2 t2 j,
         m_idem m2 !! key = m_idem m' !! key -> m_store m2 !! id = Some j ->
         SubmitIdempotent cfg validOp op2 rq2 cb2 key id2 t2 m2 = (m2, Ok (view j))))).
Proof.
  intros H. destruct (empty_str key) eqn:Ek.
  - unfold SubmitIdempotent in H. rewrite Ek in H. apply submit_store in H.
    destruct v as [w|e]; [|subst; split; [done|by intros]].
    destruct H as (Hs & Hn & Hq & -> & _). split; [done|]. intros w [= <-]. right.
    apply str_eqb_eq in Ek. done.
  - apply (SubmitIdempotent_cases _ _ _ _ _ _ _ _ _ Ek) in H
      as [(r & j & Hr & Hj & -> & ->)|(m2 & v2 & E & H)].
    + split; [done|]. intros w [= <-]. left. eauto 6.
    + apply submit_store in E. destruct v2 as [w|e]; [|destruct H as [-> ->]; subst; split; done].
      destruct E as (Hs & Hn & Hq & -> & Hi), H as [-> ->]. split; [done|]. intros w [= <-].
      right. split_and!; try done. intros _ m3 op2 rq2 cb2 id2 t2 j Hk Hj.
      cbn in Hk. unfold rememberKeyLocked in Hk. rewrite lookup_insert_eq in Hk.
      unfold SubmitIdempotent. rewrite Ek, Hk. unfold store_get. cbn. by rewrite Hj.
Qed.
End Invariant.

(** ** A concrete run: one worker, one job *)
Definition lab_config : Config := mkConfig 1 4 0 0 0.
Notation lab := (withDefaults lab_config).
Definition lab_valid (op : string) : bool := str_eqb op "sign".
Definition lab_submit (m : manager) : manager * res goerr View :=
  SubmitIdempotent lab lab_valid "sign" "{secret}" "" "k1" "j1" 10 m.
Definition lab_m0 : manager := mkManager ∅ [] [] ∅.
Definition lab_m1 : manager := fst (lab_submit lab_m0).
Definition lab_job : Job := new_job "j1" "sign" "{secret}" "" 10.
Definition lab_running : Job := started 11 lab_job.
Definition lab_popped : manager := mkManager (m_store lab_m1) [] [] (m_idem lab_m1).
Definition lab_m2 : manager := with_store lab_popped (store_save lab_running (m_store lab_popped)).

(** The cancellation is recorded and acknowledged. *)
Definition lab_s2 : system :=
  mkSystem (with_store lab_m2 (store_save (canceled lab 12 lab_running) (m_store lab_m2)))
    [PExec lab_running].
(** The execution, which no cancellation interrupts, ends well. *)
Definition lab_s3 : system :=
  mkSystem (with_store (s_manager lab_s2)
    (store_save (finished lab 13 (Ok (Some "out"%string)) lab_running) (m_store (s_manager lab_s2)))) [].

Lemma job_lab_reachable : reachable lab lab_valid lab_s2.
Proof.
  unfold reachable.
  eapply rtc_l; [apply (StepSubmit lab lab_valid lab_m0 [] "sign" "{secret}" "" "k1" "j1" 10 lab_m1
    (snd (lab_submit lab_m0))); vm_compute; reflexivity|].
  eapply rtc_l; [apply (StepPickup lab lab_valid lab_m1 [] "j1" []); vm_compute; reflexivity|].
  eapply rtc_l; [apply (StepStart lab lab_valid lab_popped [] [] lab_job 11)|].
  eapply rtc_l; [apply (StepCancelLoad lab lab_valid lab_m2 [PExec lab_running] "j1" lab_running);
    vm_compute; reflexivity|].
  apply rtc_once, (StepCancelSave lab lab_valid lab_m2 [] [PExec lab_running] lab_running 12).
Qed.

(** A recorded cancellation is not final. A job whose cancellation was
    stored and acknowledged while it was executing is overwritten with
    "succeeded" when the execution ends without noticing, so a terminal status
    can change. *)
Theorem canceled_job_overwritten :
  exists s1 s2 j1 j2,
    reachable lab lab_valid s1 /\ m_store (s_manager s1) !! "j1"%string = Some j1 /\
    jb_status j1 = StatusCanceled /\ step lab lab_valid s1 s2 /\
    m_store (s_manager s2) !! "j1"%string = Some j2 /\ jb_status j2 = StatusSucceeded /\
    Result "j1" (s_manager s2) = Ok ("out"%string, StatusSucceeded).
Proof.
  exists lab_s2, lab_s3. do 2 eexists. split; [apply job_lab_reachable|].
  split; [vm_compute; reflexivity|]. split; [vm_compute; reflexivity|]. split.
  - apply (StepFinish lab lab_valid (s_manager lab_s2) [] [] lab_running 13 (Ok (Some "out"%string))).
  - split_and!; vm_compute; reflexivity.
Qed.

Lemma terminal_jobs_scrubbed_witness :
  reapable 3600000000012 (canceled lab 12 lab_running) = true /\
  jb_request (canceled lab 12 lab_running) = ""%string.
Proof.
  split; [vm_compute; reflexivity|].
  apply (terminal_jobs_scrubbed lab_config lab_valid lab_s2 "j1");
    [apply job_lab_reachable|vm_compute; reflexivity..].
Defined.

Lemma submit_once_witness :
  lab_submit lab_m0 = (lab_m1, Ok (view lab_job)) /\ m_queue lab_m1 = ["j1"%string].
Proof.
  assert (lab_submit lab_m0 = (lab_m1, Ok (view lab_job))) as E by (vm_compute; reflexivity).
  split; [exact E|].
  destruct (submit_once lab_config lab_valid _ _ _ _ _ _ _ _ _ E) as [_ H].
  destruct (H _ eq_refl) as [[_ (r & j & Hr & _)]|(_ & Hq & _)]; [by vm_compute in Hr|exact Hq].
Defined.
End Jobs.
