(* ===== verification/Journal.v ===== *)
(** * The tamper-evident journal (internal/audit/log.go).

    SHA-256 is a parameter; the time format and the chain are defined, and the
    UTF-8 cleaning of the JSON encoder is the Prelude's. A journal is its list of lines: an entry
    as it reads back, or text that is no entry. *)
From S2P Require Import Prelude Errors.

Module Journal.

Definition u64 (z : Z) : Z := z mod 2 ^ 64.

(** ** [time.RFC3339Nano] in UTC *)

(** [n] decimal digits, with leading zeros. *)
Fixpoint dec_pad (n : nat) (z : Z) (acc : string) : string :=
  match n with
  | O => acc
  | S m => dec_pad m (z / 10) (String (digit (z mod 10)) acc)
  end.
Definition pad2 (z : Z) : string := dec_pad 2 z "".

(** The civil date of a day counted from 1 January of year 1. *)
Definition civil (day : Z) : Z * Z * Z :=
  let z := day + 306 in
  let era := z / 146097 in
  let doe := z mod 146097 in
  let yoe := (doe - doe / 1460 + doe / 36524 - doe / 146096) / 365 in
  let doy := doe - (365 * yoe + yoe / 4 - yoe / 100) in
  let mp := (5 * doy + 2) / 153 in
  let d := doy - (153 * mp + 2) / 5 + 1 in
  let m := if mp <? 10 then mp + 3 else mp - 9 in
  (yoe + era * 400 + (if m <=? 2 then 1 else 0), m, d).

(** The fraction without its trailing zeros. *)
Fixpoint fraction (n : nat) (ns : Z) : string :=
  match n with
  | O => ""
  | S m => if ns mod 10 =? 0 then fraction m (ns / 10) else "." ++ dec_pad n ns ""
  end.

Definition rfc3339nano (t : time) : string :=
  let day := t / (24 * hour) in
  let rest := t mod (24 * hour) in
  let '(y, m, d) := civil day in
  dec_pad 4 y "" ++ "-" ++ pad2 m ++ "-" ++ pad2 d ++ "T" ++
  pad2 (rest / hour) ++ ":" ++ pad2 (rest / minute mod 60) ++ ":" ++ pad2 (rest / second mod 60) ++
  fraction 9 (rest mod second) ++ "Z".

(** ** Entries *)
Record Event := mkEvent {
  ev_op : string; ev_actor : string; ev_subject : string; ev_signer : string;
  ev_outcome : string; ev_detail : string;
}.
Record Entry := mkEntry {
  en_seq : Z; en_at : time; en_event : Event; en_prev : string; en_hash : string;
  en_signature : string;
}.
Record Seal := mkSeal { sl_seq : Z; sl_hash : string }.

Definition genesisHash : string := "genesis".

(** A line of the journal: an entry, or text [json.Unmarshal] refuses with a
    message. The empty line is skipped by both readers. *)
Inductive line := LEntry (e : Entry) | LBad (err : string) | LEmpty.

(** An entry as it reads back from the line [Append] writes. *)
Definition clean_event (ev : Event) : Event :=
  mkEvent (utf8_clean (ev_op ev)) (utf8_clean (ev_actor ev)) (utf8_clean (ev_subject ev))
    (utf8_clean (ev_signer ev)) (utf8_clean (ev_outcome ev)) (utf8_clean (ev_detail ev)).
Definition written (e : Entry) : line :=
  LEntry (mkEntry (en_seq e) (en_at e) (clean_event (en_event e)) (en_prev e) (en_hash e)
            (en_signature e)).

(** The newline. *)
Definition nl : string := String (ascii_of_nat 10) "".

Section Journal.
  Variable sha256_hex : string -> string.

(** The text [hashOf] hashes, field by field, and [hashOf]. *)
Definition hash_fields (e : Entry) : list string :=
  let ev := en_event e in
  [ dec_of_Z (en_seq e); rfc3339nano (en_at e); ev_op ev; ev_actor ev; ev_subject ev; ev_signer ev;
    ev_outcome ev; ev_detail ev; en_prev e ].
Definition hash_text (l : list string) : string :=
  fold_right (fun f acc => (f ++ nl ++ acc)%string) EmptyString l.
Definition hashOf (e : Entry) : string := sha256_hex (hash_text (hash_fields e)).

(** ** Verify *)
Record VerifyResult := mkVerify {
  vj_entries : Z; vj_broken_at : Z; vj_reason : string; vj_head : string; vj_intact : bool;
}.

(** [broken]. *)
Definition broken (r : VerifyResult) (at_ : Z) (reason : string) : VerifyResult :=
  mkVerify (vj_entries r) at_ reason (vj_head r) false.

(** The loop of [Verify] over the lines; [read] is the scanner's error. *)
Fixpoint verify_loop (check : option (Entry -> option goerr)) (lines : list line)
    (read : option goerr) (r : VerifyResult) (prev : string) (expected : Z) : VerifyResult :=
  match lines with
  | [] =>
      match read with
      | Some e => broken r expected ("read: " ++ err_text e)
      | None => mkVerify (vj_entries r) (vj_broken_at r) (vj_reason r) prev (vj_intact r)
      end
  | LEmpty :: t => verify_loop check t read r prev expected
  | LBad err :: _ => broken r expected ("entry is not valid JSON: " ++ err)
  | LEntry e :: t =>
      if negb (en_seq e =? expected) then
        broken r expected ("sequence jumped to " ++ dec_of_Z (en_seq e)
                           ++ " (an entry was removed or reordered)")
      else if negb (str_eqb (en_prev e) prev) then
        broken r (en_seq e) "previous hash does not match the entry before it"
      else if negb (str_eqb (en_hash e) (hashOf e)) then
        broken r (en_seq e) "entry content does not match its hash (it was edited)"
      else match (match check with Some f => f e | None => None end) with
      | Some err => broken r (en_seq e) ("signature check failed: " ++ err_text err)
      | None =>
          verify_loop check t read
            (mkVerify (u64 (vj_entries r + 1)) (vj_broken_at r) (vj_reason r) (vj_head r) (vj_intact r))
            (en_hash e) (u64 (expected + 1))
      end
  end.

Definition Verify (check : option (Entry -> option goerr)) (lines : list line) (read : option goerr)
    : VerifyResult :=
  verify_loop check lines read (mkVerify 0 0 "" "" true) genesisHash 1.

(** ** Log *)

(** The file, the chain head, and whether the buffered writer has failed (its
    error is sticky). *)
Record log := mkLog { lg_file : list line; lg_seq : Z; lg_prev : string; lg_dead : bool }.

(** [tail]: the head of an existing journal, or the reason it cannot be read. *)
Fixpoint tail_loop (lines : list line) (last : option Entry) : res string (option Entry) :=
  match lines with
  | [] => Ok last
  | LEmpty :: t => tail_loop t last
  | LBad err :: _ => Err err
  | LEntry e :: t => tail_loop t (Some e)
  end.
Definition tail (lines : list line) : res string (Z * string) :=
  (let? last := tail_loop lines None in
   Ok (match last with Some e => (en_seq e, en_hash e) | None => (0, genesisHash) end))%res.

(** [Open] on a readable, writable path. *)
Definition Open (lines : list line) : res string log :=
  (let? head := tail lines in Ok (mkLog lines (fst head) (snd head) false))%res.

(** How the write of one line ends: it is on disk; it failed part-way, leaving
    nothing or a torn line; or it is written but [file.Sync] failed. *)
Inductive io := IoOk | IoFail (torn : option string) (e : goerr) | IoSyncFail (e : goerr).

(** [Append] at time [t], with the optional signer. *)
Definition Append (signer : option (Seal -> res goerr string)) (ev : Event) (t : time) (o : io)
    (l : log) : log * res goerr Entry :=
  let e0 := mkEntry (u64 (lg_seq l + 1)) t ev (lg_prev l) "" "" in
  let h := hashOf e0 in
  let sealed sig := mkEntry (en_seq e0) t ev (lg_prev l) h sig in
  match (match signer with
         | Some sign => match sign (mkSeal (en_seq e0) h) with
                        | Ok s => Ok (sealed s)
                        | Err e => Err (Wrap "audit: sign entry: " e)
                        end
         | None => Ok (sealed "")
         end) with
  | Err e => (l, Err e)
  | Ok e =>
      if lg_dead l then (l, Err (New "write error"))
      else match o with
      | IoFail torn err =>
          (mkLog (lg_file l ++ match torn with Some s => [LBad s] | None => [] end) (lg_seq l)
             (lg_prev l) true, Err err)
      | IoSyncFail err =>
          (mkLog (lg_file l ++ [written e]) (lg_seq l) (lg_prev l) false, Err err)
      | IoOk => (mkLog (lg_file l ++ [written e]) (en_seq e) (en_hash e) false, Ok e)
      end
  end.

(** [Head]. *)
Definition Head (l : log) : Z * string := (lg_seq l, lg_prev l).

(** ** The chain a list of lines forms *)

(** The head after verified entries, from the head [(n, prev)]. *)
Definition link (check : option (Entry -> option goerr)) (h : option (Z * string)) (x : line)
    : option (Z * string) :=
  match h, x with
  | Some (n, prev), LEntry e =>
      if (en_seq e =? u64 (n + 1)) && str_eqb (en_prev e) prev && str_eqb (en_hash e) (hashOf e) &&
         match (match check with Some f => f e | None => None end) with None => true | Some _ => false end
      then Some (u64 (n + 1), en_hash e) else None
  | Some h, LEmpty => Some h
  | _, _ => None
  end.
Definition follow check (lines : list line) (h : Z * string) : option (Z * string) :=
  fold_left (link check) lines (Some h).

Definition is_entry (x : line) : bool := match x with LEntry _ => true | _ => false end.

Lemma follow_none check lines : fold_left (link check) lines None = None.
Proof. by induction lines. Qed.

Lemma follow_app check l1 l2 h :
  follow check (l1 ++ l2) h = match follow check l1 h with Some h' => follow check l2 h' | None => None end.
Proof.
  unfold follow. rewrite fold_left_app. destruct (fold_left _ l1 _); [done|apply follow_none].
Qed.

(** [Verify] walks a chain to its head and goes on from there. *)
Lemma verify_loop_app check l1 l2 read b reason hd ok : forall n prev n' prev',
  follow check l1 (n, prev) = Some (n', prev') ->
  verify_loop check (l1 ++ l2) read (mkVerify n b reason hd ok) prev (u64 (n + 1)) =
  verify_loop check l2 read (mkVerify n' b reason hd ok) prev' (u64 (n' + 1)).
Proof.
  induction l1 as [|x l1 IH]; intros n prev n' prev' H.
  - cbn in H. by injection H as <- <-.
  - unfold follow in H. cbn [fold_left] in H. cbn [app verify_loop].
    destruct x as [e|err|]; cbn [link] in H; [|by rewrite follow_none in H|by apply IH].
    destruct (_ && _) eqn:E; [|by rewrite follow_none in H]. boolp.
    rewrite H0, Z.eqb_refl. cbn [negb].
    repeat match goal with Hs : str_eqb _ _ = true |- _ => rewrite Hs; cbn [negb]; clear Hs end.
    destruct (match check with Some f => f e | None => None end); [done|]. by apply IH.
Qed.

(** A break is never intact. *)
Lemma verify_loop_broken check lines : forall r n prev,
  follow check lines (n, prev) = None ->
  vj_intact (verify_loop check lines None r prev (u64 (n + 1))) = false.
Proof.
  induction lines as [|x lines IH]; intros r n prev H; [done|].
  unfold follow in H. cbn [fold_left] in H. cbn [verify_loop].
  destruct x as [e|err|]; cbn [link] in H; [|done|by apply IH].
  destruct (en_seq e =? u64 (n + 1)); cbn [negb andb] in *; [|done].
  destruct (str_eqb (en_prev e) prev); cbn [negb andb] in *; [|done].
  destruct (str_eqb (en_hash e) (hashOf e)); cbn [negb andb] in *; [|done].
  destruct (match check with Some f => f e | None => None end); [done|]. by apply IH.
Qed.

(** [Verify] answers "intact" exactly for chains, and then reports the head. *)
Lemma verify_follow check lines :
  match follow check lines (0, genesisHash) with
  | Some (n, prev) => Verify check lines None = mkVerify n 0 "" prev true
  | None => vj_intact (Verify check lines None) = false
  end.
Proof.
  unfold Verify. change 1 with (u64 (0 + 1)).
  destruct (follow check lines _) as [[n prev]|] eqn:E; [|by apply verify_loop_broken].
  rewrite <- (app_nil_r lines) at 1. by rewrite (verify_loop_app _ _ _ _ _ _ _ _ _ _ _ _ E).
Qed.

(** ** Runs of the service *)

(** An event whose fields the JSON encoder keeps. *)
Definition event_ok (ev : Event) : Prop := clean_event ev = ev.

Section Runs.
  Variable signer : option (Seal -> res goerr string).
  (** The published key accepts what the service key signed. *)
  Variable check : option (Entry -> option goerr).
  Hypothesis accepts : forall f e, check = Some f -> en_hash e = hashOf e ->
    (forall sign, signer = Some sign -> sign (mkSeal (en_seq e) (en_hash e)) = Ok (en_signature e)) ->
    f e = None.

(** The journal as a deployment makes it: started, appended to, reopened. *)
Inductive run : log -> Prop :=
| RunNew : run (mkLog [] 0 genesisHash false)
| RunAppend l ev t e l' :
    run l -> event_ok ev -> Append signer ev t IoOk l = (l', Ok e) -> run l'
| RunReopen l l' : run l -> Open (lg_file l) = Ok l' -> run l'.

(** What a successful [Append] writes. *)
Lemma Append_entry ev t o l l' e :
  Append signer ev t o l = (l', Ok e) ->
  o = IoOk /\ lg_dead l = false /\
  l' = mkLog (lg_file l ++ [written e]) (en_seq e) (en_hash e) false /\
  en_seq e = u64 (lg_seq l + 1) /\ en_prev e = lg_prev l /\ en_event e = ev /\ en_at e = t /\
  en_hash e = hashOf e /\
  forall sign, signer = Some sign -> sign (mkSeal (en_seq e) (en_hash e)) = Ok (en_signature e).
Proof.
  unfold Append. destruct signer as [sign|].
  - destruct (sign _) as [s|err] eqn:Es; [|done]. destruct (lg_dead l); [done|].
    destruct o; intros [= <- <-]. split_and!; try done. by intros ? [= <-].
  - destruct (lg_dead l); [done|]. destruct o; intros [= <- <-]. split_and!; done.
Qed.

Lemma hashOf_same e e' :
  hash_fields e = hash_fields e' -> hashOf e = hashOf e'.
Proof. unfold hashOf. by intros ->. Qed.

Lemma written_ok e : event_ok (en_event e) -> written e = LEntry e.
Proof. unfold event_ok, written. intros ->. by destruct e. Qed.

Lemma link_appended ev t o l l' e :
  event_ok ev -> Append signer ev t o l = (l', Ok e) ->
  link check (Some (lg_seq l, lg_prev l)) (written e) = Some (lg_seq l', lg_prev l').
Proof.
  intros Hev HA. apply Append_entry in HA as (_ & _ & -> & Hs & Hp & He & _ & Hh & Hsig).
  rewrite written_ok by (by rewrite He). cbn. rewrite <- Hs, Z.eqb_refl, Hp, str_eqb_refl, <- Hh.
  rewrite str_eqb_refl. cbn. destruct check as [f|] eqn:Ec; [|done].
  by rewrite (accepts f e eq_refl Hh Hsig).
Qed.

Definition head_of (last : option Entry) : Z * string :=
  match last with Some e => (en_seq e, en_hash e) | None => (0, genesisHash) end.

(** [tail] finds the head that verification computes. *)
Lemma tail_loop_follow lines : forall last h,
  follow check lines (head_of last) = Some h ->
  exists last', tail_loop lines last = Ok last' /\ head_of last' = h.
Proof.
  induction lines as [|x lines IH]; intros last h H.
  - cbn in H. injection H as <-. eauto.
  - unfold follow in H. cbn [fold_left] in H. destruct (head_of last) as [n prev] eqn:Eh.
    destruct x as [e|err|]; cbn [link tail_loop] in *.
    + destruct (_ && _) eqn:E; [|by rewrite follow_none in H]. boolp.
      apply (IH (Some e)). cbn. by rewrite H0.
    + by rewrite follow_none in H.
    + apply IH. by rewrite Eh.
Qed.

Lemma run_ok l :
  run l -> Z.of_nat (length (lg_file l)) < 2 ^ 64 ->
  follow check (lg_file l) (0, genesisHash) = Some (lg_seq l, lg_prev l) /\
  lg_seq l = Z.of_nat (length (lg_file l)) /\ lg_dead l = false.
Proof.
  intros Hr. induction Hr as [|l ev t e l' Hr IH Hev HA|l l' Hr IH HO]; intros Hlen.
  - done.
  - pose proof (link_appended _ _ _ _ _ _ Hev HA) as Hl.
    apply Append_entry in HA as (_ & _ & -> & Hs & _). cbn [lg_file lg_seq lg_prev lg_dead] in *.
    rewrite length_app in Hlen |- *. cbn in Hlen. destruct IH as (Hf & Hn & _); [lia|].
    rewrite follow_app, Hf. unfold follow. cbn [fold_left]. split_and!; [done| |done].
    rewrite Hs, Hn. unfold u64. cbn. rewrite Z.mod_small; lia.
  - unfold Open, tail in HO.
    assert (lg_file l' = lg_file l) as Hfile
      by (destruct (tail_loop (lg_file l) None); [by injection HO as <-|done]).
    rewrite Hfile in *. destruct (IH Hlen) as (Hf & Hn & _).
    destruct (tail_loop_follow _ None _ Hf) as (last' & Ht & Hh). rewrite Ht in HO. cbn in HO.
    change (match last' with Some e => (en_seq e, en_hash e) | None => (0, genesisHash) end)
      with (head_of last') in HO. rewrite Hh in HO. injection HO as <-. cbn. done.
Qed.

(** An undisturbed journal always verifies and always resumes. Whatever
    was appended, across restarts, verification (with the key's signature check
    when given) finds the chain intact with one entry per append and reports
    the log's own head, and reopening the file yields exactly the log that wrote
    it. *)
Theorem journal_verifies l :
  run l -> Z.of_nat (length (lg_file l)) < 2 ^ 64 ->
  Verify check (lg_file l) None = mkVerify (Z.of_nat (length (lg_file l))) 0 "" (lg_prev l) true /\
  Head l = (Z.of_nat (length (lg_file l)), lg_prev l) /\
  Open (lg_file l) = Ok l.
Proof.
  intros Hr Hlen. destruct (run_ok l Hr Hlen) as (Hf & Hn & Hd).
  pose proof (verify_follow check (lg_file l)) as Hv. rewrite Hf in Hv.
  split_and!; [by rewrite <- Hn|by unfold Head; rewrite <- Hn|].
  unfold Open, tail. destruct (tail_loop_follow _ None _ Hf) as (last' & Ht & Hh). rewrite Ht. cbn.
  change (match last' with Some e => (en_seq e, en_hash e) | None => (0, genesisHash) end)
    with (head_of last'). rewrite Hh. cbn. destruct l. cbn in *. by subst.
Qed.

(** A failed sync breaks the journal for good. When [Append] reports an
    error because the sync failed, the entry is already in the file but the
    head was not advanced, so the next append writes the same sequence number
    again and verification reports a removed or reordered entry there. *)
Theorem sync_failure_breaks_chain l ev1 t1 err l1 r1 ev2 t2 l2 e2 :
  run l -> Z.of_nat (length (lg_file l)) + 2 < 2 ^ 64 -> event_ok ev1 -> event_ok ev2 ->
  Append signer ev1 t1 (IoSyncFail err) l = (l1, r1) -> lg_file l1 <> lg_file l ->
  Append signer ev2 t2 IoOk l1 = (l2, Ok e2) ->
  r1 = Err err /\ Verify check (lg_file l2) None =
    mkVerify (Z.of_nat (length (lg_file l)) + 1) (Z.of_nat (length (lg_file l)) + 2)
      ("sequence jumped to " ++ dec_of_Z (Z.of_nat (length (lg_file l)) + 1)
       ++ " (an entry was removed or reordered)") "" false.
Proof.
  intros Hr Hlen Hev1 Hev2 H1 Hfile H2. destruct (run_ok l Hr ltac:(lia)) as (Hf & Hn & Hd).
  assert (exists e1, Append signer ev1 t1 IoOk l =
            (mkLog (lg_file l ++ [written e1]) (en_seq e1) (en_hash e1) false, Ok e1) /\
          l1 = mkLog (lg_file l ++ [written e1]) (lg_seq l) (lg_prev l) false /\ r1 = Err err)
    as (e1 & HA & -> & ->).
  { unfold Append in *. destruct (match signer with Some _ => _ | None => _ end) as [e|] eqn:E;
      [|injection H1 as <- <-; done].
    rewrite Hd in *. injection H1 as <- <-. eauto. }
  split; [done|]. pose proof (link_appended _ _ _ _ _ _ Hev1 HA) as Hl. cbn [lg_seq lg_prev] in Hl.
  apply Append_entry in HA as (_ & _ & _ & Hs1 & _).
  apply Append_entry in H2 as (_ & _ & -> & Hs2 & _ & He2 & _). cbn [lg_seq lg_file] in *.
  rewrite Hs1, Hn in *. unfold u64 in Hl, Hs2 at 1. rewrite Z.mod_small in Hl, Hs2 by lia.
  set (len := Z.of_nat (length (lg_file l))) in *.
  unfold Verify. change 1 with (u64 (0 + 1)) at 1.
  assert (follow check (lg_file l ++ [written e1]) (0, genesisHash) = Some (len + 1, en_hash e1)) as Hf1.
  { rewrite follow_app, Hf. exact Hl. }
  rewrite (verify_loop_app _ _ _ _ _ _ _ _ _ _ _ _ Hf1).
  rewrite written_ok by (by rewrite He2). cbn [verify_loop]. rewrite Hs2. unfold u64.
  rewrite Z.mod_small by lia. rewrite (proj2 (Z.eqb_neq _ _)) by lia. cbn [negb].
  unfold broken. cbn [vj_entries vj_head]. f_equal; lia.
Qed.

(** ** Histories with any event *)

(** The same deployments without a condition on the events, with the events. *)
Inductive history : list Event -> log -> Prop :=
| HistNew : history [] (mkLog [] 0 genesisHash false)
| HistAppend evs l ev t e l' :
    history evs l -> Append signer ev t IoOk l = (l', Ok e) -> history (evs ++ [ev]) l'
| HistReopen evs l l' : history evs l -> Open (lg_file l) = Ok l' -> history evs l'.

Lemma open_file f l : Open f = Ok l -> lg_file l = f.
Proof. unfold Open. destruct (tail f); [|done]. by intros [= <-]. Qed.

Lemma history_run evs l : history evs l -> length (lg_file l) = length evs /\ (Forall event_ok evs -> run l).
Proof.
  induction 1 as [|evs l ev t e l' Hh [IHl IHr] HA|evs l l' Hh [IHl IHr] HO].
  - split; [done|]. intros _. constructor.
  - split.
    + apply Append_entry in HA as (_ & _ & -> & _). cbn. rewrite !length_app. cbn. lia.
    + rewrite Forall_app, Forall_singleton. intros [Hp Hev]. exact (RunAppend _ _ _ _ _ (IHr Hp) Hev HA).
  - split; [by rewrite (open_file _ _ HO)|]. intros Hp. eapply RunReopen; [by apply IHr|done].
Qed.

(** Where an event whose fields the encoder changes stands in the file. *)
Lemma history_at evs l pre ev post :
  history evs l -> evs = pre ++ ev :: post -> Forall event_ok pre -> Z.of_nat (length pre) + 1 < 2 ^ 64 ->
  exists e before after, lg_file l = before ++ written e :: after /\
    follow check before (0, genesisHash) = Some (Z.of_nat (length pre), en_prev e) /\
    en_event e = ev /\ en_hash e = hashOf e /\ en_seq e = Z.of_nat (length pre) + 1.
Proof.
  intros Hh. revert post. induction Hh as [|evs l ev' t e l' Hh IH HA|evs l l' Hh IH HO]; intros post E Hp Hn.
  - by destruct pre.
  - destruct post as [|x post _] using rev_ind.
    + apply app_inj_tail in E as [-> ->]. destruct (history_run _ _ Hh) as [Hlen Hr].
      destruct (run_ok l (Hr Hp) ltac:(lia)) as (Hf & Hs & _).
      apply Append_entry in HA as (_ & _ & -> & Hseq & Hprev & Hev & _ & Hhash & _).
      exists e, (lg_file l), []. cbn [lg_file]. rewrite Hf, Hs, Hlen, Hprev. split_and!; [done..|].
      rewrite Hseq, Hs, Hlen. unfold u64. rewrite Z.mod_small; lia.
    + rewrite app_comm_cons, app_assoc in E. apply app_inj_tail in E as [-> <-].
      destruct (IH post eq_refl Hp Hn) as (e1 & before & after & Hfile & ?).
      apply Append_entry in HA as (_ & _ & -> & _). exists e1, before, (after ++ [written e]).
      cbn [lg_file]. by rewrite Hfile, <- app_assoc.
  - rewrite (open_file _ _ HO). by eapply IH.
Qed.

(** The journal of a history: intact while every field survives the encoder, and
    otherwise broken at the first entry that does not, unless the digest of the
    cleaned fields is that of the fields. *)
Lemma history_verdict evs l :
  history evs l -> Z.of_nat (length evs) < 2 ^ 64 ->
  (Forall event_ok evs ->
   Verify check (lg_file l) None = mkVerify (Z.of_nat (length evs)) 0 "" (lg_prev l) true) /\
  (forall pre ev post, evs = pre ++ ev :: post -> Forall event_ok pre -> ~ event_ok ev ->
   exists e e', written e ∈ lg_file l /\ written e = LEntry e' /\ en_event e = ev /\
     (hashOf e' = hashOf e \/
      Verify check (lg_file l) None =
        mkVerify (Z.of_nat (length pre)) (Z.of_nat (length pre) + 1)
          "entry content does not match its hash (it was edited)" "" false)).
Proof.
  intros Hh Hlen. destruct (history_run _ _ Hh) as [Hf Hr]. split.
  - intros Hall. rewrite <- Hf in Hlen |- *. by apply (journal_verifies l (Hr Hall) Hlen).
  - intros pre ev post -> Hp Hev.
    assert (Z.of_nat (length pre) + 1 < 2 ^ 64) as Hn by (rewrite length_app in Hlen; cbn in Hlen; lia).
    destruct (history_at _ _ _ _ _ Hh eq_refl Hp Hn) as (e & before & after & Hfile & Hfo & He & Hhash & Hseq).
    eexists e, _. rewrite Hfile. split_and!; [rewrite elem_of_app; right; by left|reflexivity|done|].
    match goal with |- hashOf ?x = _ \/ _ => set (e' := x) end.
    destruct (decide (hashOf e' = hashOf e)) as [|Hne]; [by left|right].
    unfold Verify. change 1 with (u64 (0 + 1)) at 1. rewrite (verify_loop_app _ _ _ _ _ _ _ _ _ _ _ _ Hfo).
    unfold written. cbn [verify_loop]. fold e'.
    change (en_seq e') with (en_seq e). change (en_prev e') with (en_prev e). change (en_hash e') with (en_hash e).
    rewrite Hseq. unfold u64. rewrite Z.mod_small by lia. rewrite Z.eqb_refl, str_eqb_refl, Hhash. cbn [negb].
    destruct (str_eqb (hashOf e) (hashOf e')) eqn:Eh; [by apply str_eqb_eq in Eh|]. done.
Qed.

End Runs.

(** ** Tamper evidence *)

(** No newline inside. *)
Fixpoint no_nl (s : string) : bool :=
  match s with
  | EmptyString => true
  | String c t => negb (Ascii.eqb c (ascii_of_nat 10)) && no_nl t
  end.
Definition plain (ev : Event) : bool :=
  no_nl (ev_op ev) && no_nl (ev_actor ev) && no_nl (ev_subject ev) && no_nl (ev_signer ev) &&
  no_nl (ev_outcome ev) && no_nl (ev_detail ev).

Lemma no_nl_app a b : no_nl (a ++ b) = no_nl a && no_nl b.
Proof. induction a; simpl; [done|]. by rewrite IHa, andb_assoc. Qed.

Lemma digit_plain z : Ascii.eqb (digit (z mod 10)) (ascii_of_nat 10) = false.
Proof.
  assert (z mod 10 ∈ [0; 1; 2; 3; 4; 5; 6; 7; 8; 9]) as H.
  { pose proof (Z.mod_pos_bound z 10 ltac:(lia)).
    rewrite !elem_of_cons. lia. }
  repeat (apply elem_of_cons in H as [->|H]; [reflexivity|]). by apply elem_of_nil in H.
Qed.

Lemma dec_loop_plain f : forall z acc, no_nl (dec_loop f z acc) = no_nl acc || (Nat.eqb f 0 && no_nl acc).
Proof.
  induction f as [|f IH]; intros z acc; cbn [dec_loop]; [by destruct (no_nl acc)|].
  destruct (z <? 10); [|rewrite IH]; cbn [no_nl]; rewrite digit_plain; by destruct (no_nl acc), f.
Qed.
Lemma dec_of_Z_plain z : no_nl (dec_of_Z z) = true.
Proof. unfold dec_of_Z. destruct (z <? 0); cbn [no_nl]; rewrite dec_loop_plain; done. Qed.

Lemma dec_pad_plain n : forall z acc, no_nl (dec_pad n z acc) = no_nl acc.
Proof. induction n as [|n IH]; intros z acc; cbn; [done|]. rewrite IH. cbn. by rewrite digit_plain. Qed.

Lemma fraction_plain n : forall ns, no_nl (fraction n ns) = true.
Proof.
  induction n as [|n IH]; intros ns; cbn [fraction]; [done|].
  destruct (_ =? 0); [apply IH|]. rewrite no_nl_app, dec_pad_plain. done.
Qed.

Lemma rfc3339nano_plain t : no_nl (rfc3339nano t) = true.
Proof.
  unfold rfc3339nano, pad2. destruct (civil _) as [[y m] d].
  rewrite !no_nl_app, !dec_pad_plain, fraction_plain. done.
Qed.

(** The separator is found again. *)
Lemma split_nl a b x y :
  no_nl a = true -> no_nl b = true -> (a ++ nl ++ x = b ++ nl ++ y)%string -> a = b /\ x = y.
Proof.
  unfold nl. revert b. induction a as [|c a IH]; intros [|d b] Ha Hb H; cbn in *; injection H; try done.
  - intros _ <-. by cbn in Hb.
  - intros _ ->. by cbn in Ha.
  - intros H' ->. boolp. destruct (IH b) as [-> ->]; done.
Qed.

Lemma hash_text_inj l1 : forall l2 x y,
  length l1 = length l2 -> forallb no_nl l1 = true -> forallb no_nl l2 = true ->
  hash_text (l1 ++ [x]) = hash_text (l2 ++ [y]) -> l1 ++ [x] = l2 ++ [y].
Proof.
  induction l1 as [|a l1 IH]; intros [|b l2] x y Hlen H1 H2 H; try done; cbn in *.
  - f_equal. clear -H. unfold nl in H. revert y H.
    induction x as [|c x IHx]; intros [|d y] H; cbn in *; [done|..]; injection H.
    + intros Hx _. by destruct y.
    + intros Hx _. by destruct x.
    + intros Hx ->. f_equal. by apply IHx.
  - boolp. apply split_nl in H as [-> H]; [|done..]. f_equal. apply IH; [lia|done..].
Qed.

Definition free_fields (e : Entry) : list string :=
  let ev := en_event e in
  [ dec_of_Z (en_seq e); rfc3339nano (en_at e); ev_op ev; ev_actor ev; ev_subject ev; ev_signer ev;
    ev_outcome ev; ev_detail ev ].

Lemma free_fields_plain e : plain (en_event e) = true -> forallb no_nl (free_fields e) = true.
Proof.
  intros H. unfold plain in H. boolp. unfold free_fields. cbn [forallb].
  rewrite dec_of_Z_plain, rfc3339nano_plain. by repeat (apply andb_true_iff; split).
Qed.

Lemma hash_fields_inj e1 e2 :
  plain (en_event e1) = true -> plain (en_event e2) = true ->
  hash_text (hash_fields e1) = hash_text (hash_fields e2) -> hash_fields e1 = hash_fields e2.
Proof.
  intros H1 H2. change (hash_fields e1) with (free_fields e1 ++ [en_prev e1]).
  change (hash_fields e2) with (free_fields e2 ++ [en_prev e2]).
  apply hash_text_inj; [done|by apply free_fields_plain..].
Qed.

(** The entries of a journal, and two of them that record the same facts. *)
Definition entries (lines : list line) : list Entry :=
  omap (fun x => match x with LEntry e => Some e | _ => None end) lines.
Definition same_facts (e1 e2 : Entry) : Prop :=
  en_seq e1 = en_seq e2 /\ rfc3339nano (en_at e1) = rfc3339nano (en_at e2) /\
  en_event e1 = en_event e2 /\ en_prev e1 = en_prev e2 /\ en_hash e1 = en_hash e2.

(** What the hashed fields pin down. *)
Lemma hash_fields_facts e1 e2 :
  hash_fields e1 = hash_fields e2 ->
  rfc3339nano (en_at e1) = rfc3339nano (en_at e2) /\ en_event e1 = en_event e2 /\
  en_prev e1 = en_prev e2.
Proof.
  unfold hash_fields. generalize (dec_of_Z (en_seq e1)) (dec_of_Z (en_seq e2))
    (rfc3339nano (en_at e1)) (rfc3339nano (en_at e2)).
  intros d1 d2 t1 t2 H. injection H as _ Ht H1 H2 H3 H4 H5 H6 Hp.
  split_and!; [done| |done]. destruct (en_event e1), (en_event e2). cbn in *. congruence.
Qed.

Lemma follow_entries check lines : forall h h',
  follow check lines h = Some h' -> follow None (map LEntry (entries lines)) h = Some h'.
Proof.
  unfold follow. induction lines as [|x lines IH]; intros [n prev] h' H; [done|]. cbn [fold_left] in H.
  destruct x as [e|err|]; cbn [link] in H; [|by rewrite follow_none in H|by apply IH].
  destruct (_ && _) eqn:E; [|by rewrite follow_none in H].
  cbn [entries omap list_omap map fold_left link]. apply andb_true_iff in E as [-> _].
  by apply IH.
Qed.

Lemma follow_snoc l e h h' :
  follow None (map LEntry (l ++ [e])) h = Some h' ->
  exists n, follow None (map LEntry l) h = Some (n, en_prev e) /\ en_hash e = hashOf e /\
    h' = (en_seq e, en_hash e) /\ en_seq e = u64 (n + 1).
Proof.
  rewrite map_app, follow_app. destruct (follow None (map LEntry l) h) as [[n prev]|]; [|done].
  unfold follow. cbn [map fold_left link]. destruct (_ && _) eqn:E; [|done]. intros [= <-]. boolp.
  exists n. repeat match goal with Hs : str_eqb _ _ = true |- _ => apply str_eqb_eq in Hs end.
  split_and!; congruence.
Qed.

(** Two entries whose hashed texts differ and hash to one digest. *)
Definition collide (e1 e2 : Entry) : Prop :=
  hash_text (hash_fields e1) <> hash_text (hash_fields e2) /\ hashOf e1 = hashOf e2.

Lemma chains_agree l1 : forall l2 h1 h2,
  (forall x, sha256_hex x <> genesisHash) ->
  forallb (fun e => plain (en_event e)) l1 = true -> forallb (fun e => plain (en_event e)) l2 = true ->
  follow None (map LEntry l1) (0, genesisHash) = Some h1 ->
  follow None (map LEntry l2) (0, genesisHash) = Some h2 -> snd h1 = snd h2 ->
  (Forall2 same_facts l1 l2 /\ fst h1 = fst h2) \/ exists e1 e2, e1 ∈ l1 /\ e2 ∈ l2 /\ collide e1 e2.
Proof.
  induction l1 as [|e1 l1 IH] using rev_ind; intros l2 h1 h2 Hsha P1 P2 F1 F2 Hh.
  - destruct l2 as [|e2 l2 _] using rev_ind; [left; split; [constructor|cbn in *; congruence]|].
    apply follow_snoc in F2 as (n & _ & Hhash & -> & _). cbn in F1, Hh. injection F1 as <-.
    destruct (Hsha (hash_text (hash_fields e2))). unfold hashOf in Hhash. cbn in *. congruence.
  - apply follow_snoc in F1 as (n1 & F1 & Hh1 & -> & Hs1).
    destruct l2 as [|e2 l2 _] using rev_ind.
    { cbn in F2. injection F2 as <-. cbn in Hh.
      destruct (Hsha (hash_text (hash_fields e1))). unfold hashOf in Hh1. congruence. }
    apply follow_snoc in F2 as (n2 & F2 & Hh2 & -> & Hs2). cbn [fst snd] in *.
    rewrite forallb_app in P1, P2. cbn in P1, P2. boolp.
    destruct (decide (hash_text (hash_fields e1) = hash_text (hash_fields e2))) as [Ht|Ht].
    + apply hash_fields_inj in Ht as (Hat & Hev & Hprev)%hash_fields_facts; [|done..].
      destruct (IH l2 (n1, en_prev e1) (n2, en_prev e2)) as [[HF Hn]|(x & y & Hx & Hy & ?)]; try done;
        [|right; exists x, y; rewrite !elem_of_app; auto].
      cbn in Hn. subst n2. assert (en_seq e1 = en_seq e2) by congruence.
      left. split; [|done]. apply Forall2_app; [done|]. by repeat constructor.
    + right. exists e1, e2. rewrite !elem_of_app, !list_elem_of_singleton. unfold collide.
      split_and!; [by right..|done|congruence].
Qed.

(** C11: The head vouches for the whole history. If two journals, whatever
    their origin, both pass verification and report the same head, they record
    the same facts entry by entry (sequence number, time, event and link), or an
    entry of one and an entry of the other are a collision: the texts that are
    hashed for them differ and have one SHA-256. It assumes that the recorded
    fields hold no newline, which separates them in the hash, and that no digest
    is the word "genesis". *)
Theorem journal_tamper_evident check1 check2 l1 l2 :
  (forall x, sha256_hex x <> genesisHash) ->
  forallb (fun e => plain (en_event e)) (entries l1) = true ->
  forallb (fun e => plain (en_event e)) (entries l2) = true ->
  vj_intact (Verify check1 l1 None) = true -> vj_intact (Verify check2 l2 None) = true ->
  vj_head (Verify check1 l1 None) = vj_head (Verify check2 l2 None) ->
  Forall2 same_facts (entries l1) (entries l2) \/
  exists e1 e2, e1 ∈ entries l1 /\ e2 ∈ entries l2 /\ collide e1 e2.
Proof.
  intros Hsha P1 P2 I1 I2 Hh.
  pose proof (verify_follow check1 l1) as F1. pose proof (verify_follow check2 l2) as F2.
  destruct (follow check1 l1 _) as [h1|] eqn:E1; [|congruence].
  destruct (follow check2 l2 _) as [h2|] eqn:E2; [|congruence].
  apply follow_entries in E1, E2.
  destruct (chains_agree _ _ _ _ Hsha P1 P2 E1 E2) as [[? _]|?]; [|by left|by right].
  destruct h1, h2. rewrite F1, F2 in Hh. done.
Qed.
End Journal.

(** The newline is not escaped: two different events have one hash text, so the
    condition on newlines is needed. *)
Lemma hash_ambiguous :
  exists e1 e2, en_event e1 <> en_event e2 /\ forall sha, hashOf sha e1 = hashOf sha e2.
Proof.
  exists (mkEntry 1 0 (mkEvent ("verify" ++ nl ++ "x") "" "" "" "ok" "") "genesis" "" ""),
    (mkEntry 1 0 (mkEvent "verify" ("x" ++ nl ++ "") "" "" "ok" "") "genesis" "" "").
  split; [done|]. intros sha. unfold hashOf. f_equal.
Qed.

(** ** A concrete journal *)

(** A stand-in digest of the right length: the text cut or padded to 64. *)
Fixpoint cut (n : nat) (s : string) : string :=
  match n with
  | O => EmptyString
  | S m => match s with
           | EmptyString => String "0" (cut m EmptyString)
           | String c t => String c (cut m t)
           end
  end.
Definition lab_sha (s : string) : string := cut 64 s.
Lemma lab_sha_length s : String.length (lab_sha s) = 64%nat.
Proof.
  unfold lab_sha. generalize 64%nat as n. intros n. revert s.
  induction n as [|n IH]; intros [|c s]; cbn; auto.
Qed.

Definition lab_event (op : string) : Event := mkEvent op "" "doc" "900101300123" "valid" "".
Definition lab_sign (sl : Seal) : res goerr string := Ok ("sig:" ++ sl_hash sl)%string.
Definition lab_check (e : Entry) : option goerr :=
  if str_eqb (en_signature e) ("sig:" ++ en_hash e) then None else Some (New "bad signature").
Definition lab_append (op : string) (t : time) (o : io) (l : log) : log * res goerr Entry :=
  Append lab_sha (Some lab_sign) (lab_event op) t o l.
Definition lab_l0 : log := mkLog [] 0 genesisHash false.
Definition lab_l1 : log := fst (lab_append "sign" 5 IoOk lab_l0).
Definition lab_l2 : log := fst (lab_append "verify" 7 IoOk lab_l1).
(** The second append fails to sync, the third goes through. *)
Definition lab_b2 : log := fst (lab_append "verify" 7 (IoSyncFail (New "fsync")) lab_l1).
Definition lab_b3 : log := fst (lab_append "verify" 9 IoOk lab_b2).
Definition lab_entry (x : log * res goerr Entry) : Entry :=
  match snd x with Ok e => e | Err _ => mkEntry 0 0 (lab_event "") "" "" "" end.

Lemma lab_accepts f e :
  Some lab_check = Some f -> en_hash e = hashOf lab_sha e ->
  (forall sign, Some lab_sign = Some sign ->
     sign (mkSeal (en_seq e) (en_hash e)) = Ok (en_signature e)) -> f e = None.
Proof.
  intros [= <-] _ H. pose proof (H _ eq_refl) as Hs. unfold lab_sign in Hs. injection Hs as Hs.
  unfold lab_check. rewrite <- Hs. cbn [sl_hash]. by rewrite str_eqb_refl.
Qed.

Lemma lab_run1 : run lab_sha (Some lab_sign) lab_l1.
Proof.
  apply (RunAppend _ _ lab_l0 (lab_event "sign") 5 (lab_entry (lab_append "sign" 5 IoOk lab_l0)));
    [constructor|vm_compute; reflexivity..].
Qed.

Lemma lab_run2 : run lab_sha (Some lab_sign) lab_l2.
Proof.
  apply (RunAppend _ _ lab_l1 (lab_event "verify") 7 (lab_entry (lab_append "verify" 7 IoOk lab_l1)));
    [apply lab_run1|vm_compute; reflexivity..].
Qed.

Lemma journal_verifies_witness :
  Verify lab_sha (Some lab_check) (lg_file lab_l2) None = mkVerify 2 0 "" (lg_prev lab_l2) true.
Proof.
  apply (journal_verifies lab_sha (Some lab_sign) (Some lab_check) lab_accepts lab_l2 lab_run2).
  vm_compute. reflexivity.
Defined.

Lemma sync_failure_breaks_chain_witness :
  vj_reason (Verify lab_sha (Some lab_check) (lg_file lab_b3) None)
    = "sequence jumped to 2 (an entry was removed or reordered)"%string.
Proof.
  destruct (sync_failure_breaks_chain lab_sha (Some lab_sign) (Some lab_check) lab_accepts
    lab_l1 (lab_event "verify") 7 (New "fsync") lab_b2 (Err (New "fsync")) (lab_event "verify") 9
    lab_b3 (lab_entry (lab_append "verify" 9 IoOk lab_b2))) as [_ ->];
    [apply lab_run1|..]; first [vm_compute; reflexivity|by vm_compute].
Defined.

Lemma journal_tamper_evident_witness :
  length (entries (lg_file lab_l2)) = 2%nat /\
  (Forall2 same_facts (entries (lg_file lab_l2)) (entries (lg_file lab_l2)) \/
   exists e1 e2, e1 ∈ entries (lg_file lab_l2) /\ e2 ∈ entries (lg_file lab_l2) /\ collide lab_sha e1 e2).
Proof.
  split; [vm_compute; reflexivity|].
  apply (journal_tamper_evident lab_sha None (Some lab_check)); [|vm_compute; reflexivity..].
  intros x Hx. pose proof (lab_sha_length x) as Hl. by rewrite Hx in Hl.
Defined.
End Journal.
