(* ===== verification/Challenge.v ===== *)
(** * Challenge-response (internal/challenge/store.go, challenge.go).

    The store is an interface, [ChallengeStore]: the OIDC provider and the
    challenge service are proved against its laws, and the in-memory store
    discharges them. The verifier is the slice of the domain both ask for. *)
From S2P Require Import Prelude Errors Provider CoreTypes.

(** ** The verifier's slice of the domain *)
Record verifier (W : Type) := mkVerifier {
  vf_verify : VerifyInput -> M W (VerifyOutput * option goerr);
  vf_validate : ValidateInput -> M W (ValidateOutput * option goerr);
}.
Arguments vf_verify {W}. Arguments vf_validate {W}. Arguments mkVerifier {W}.

Module Challenge.

Record Challenge := mkChallenge {
  ch_id : string; ch_nonce : string; ch_purpose : string; ch_meta : gmap string string;
  ch_created : time; ch_expires : time; ch_used : bool;
}.
Definition mark_used (c : Challenge) : Challenge :=
  mkChallenge (ch_id c) (ch_nonce c) (ch_purpose c) (ch_meta c) (ch_created c) (ch_expires c) true.

Definition ErrNotFound := Sent "challenge.ErrNotFound" "challenge not found".
Definition ErrExpired := Sent "challenge.ErrExpired" "challenge expired".
Definition ErrUsed := Sent "challenge.ErrUsed" "challenge already used".

(** ** The store *)
Class ChallengeStore (St : Type) := {
  cs_create : Challenge -> St -> St * option goerr;
  cs_consume : string -> St -> St * res goerr Challenge;
  cs_reap : time -> St -> St * res goerr Z;
  cs_len : St -> Z;
}.

(** What the flows rely on: a consumption that succeeds finds an unused
    challenge and leaves it used; a refused operation changes nothing. *)
Class ChallengeStoreLaws (St : Type) `{ChallengeStore St} := {
  cs_view : St -> gmap string Challenge;
  cs_create_ok : forall c s s', cs_create c s = (s', None) -> cs_view s' = <[ch_id c := c]> (cs_view s);
  cs_create_err : forall c s s' e, cs_create c s = (s', Some e) -> cs_view s' = cs_view s;
  cs_consume_ok : forall id s s' c, cs_consume id s = (s', Ok c) ->
    exists c0, cs_view s !! id = Some c0 /\ ch_used c0 = false /\ c = mark_used c0 /\
      cs_view s' = <[id := c]> (cs_view s);
  cs_consume_err : forall id s s' e, cs_consume id s = (s', Err e) -> cs_view s' = cs_view s;
  cs_reap_sub : forall t s s' r, cs_reap t s = (s', r) -> cs_view s' ⊆ cs_view s;
}.

(** [MemStore]. *)
Definition mem_create (c : Challenge) (m : gmap string Challenge) : gmap string Challenge * option goerr :=
  (<[ch_id c := c]> m, None).
Definition mem_consume (id : string) (m : gmap string Challenge)
    : gmap string Challenge * res goerr Challenge :=
  match m !! id with
  | None => (m, Err ErrNotFound)
  | Some c => if ch_used c then (m, Err ErrUsed) else (<[id := mark_used c]> m, Ok (mark_used c))
  end.
Definition mem_reap (t : time) (m : gmap string Challenge) : gmap string Challenge * res goerr Z :=
  let kept := filter (fun p => after (ch_expires (snd p)) t = true) m in
  (kept, Ok (Z.of_nat (size m) - Z.of_nat (size kept))).

#[global] Instance MemStore : ChallengeStore (gmap string Challenge) := {|
  cs_create := mem_create; cs_consume := mem_consume; cs_reap := mem_reap;
  cs_len := fun m => Z.of_nat (size m);
|}.
#[global] Instance MemStoreLaws : ChallengeStoreLaws (gmap string Challenge).
Proof.
  refine {| cs_view := fun m => m |};
    cbn [cs_create cs_consume cs_reap MemStore]; unfold mem_create, mem_consume, mem_reap.
  - naive_solver.
  - naive_solver.
  - intros id m m' c. destruct (m !! id) as [c0|] eqn:E; [|done].
    destruct (ch_used c0) eqn:Eu; [done|]. intros [= <- <-]. eauto.
  - intros id m m' e. destruct (m !! id) as [c0|]; [destruct (ch_used c0)|]; naive_solver.
  - intros t m m' r [= <- _]. apply map_filter_subseteq.
Defined.

(** ** Single use *)
Section Trace.
  Context {St : Type} `{ChallengeStoreLaws St}.

(** What is observed of a run: creations and successful consumptions. *)
Inductive event := EvCreate (id : string) | EvConsume (id : string).
Global Instance event_eq_dec : EqDecision event.
Proof. solve_decision. Defined.

Inductive run : St -> list event -> Prop :=
| RunInit s : cs_view s = ∅ -> run s []
| RunCreate s tr c s' o : run s tr -> cs_create c s = (s', o) -> run s' (tr ++ [EvCreate (ch_id c)])
| RunConsume s tr id s' r :
    run s tr -> cs_consume id s = (s', r) -> run s' (if is_ok r then tr ++ [EvConsume id] else tr)
| RunReap s tr t s' r : run s tr -> cs_reap t s = (s', r) -> run s' tr.

Definition count (e : event) (tr : list event) : nat := length (filter (fun x => x = e) tr).

(** An unused challenge is one consumption still to come. *)
Definition available (s : St) (id : string) : nat :=
  match cs_view s !! id with Some c => if ch_used c then 0 else 1 | None => 0 end%nat.

Lemma count_app e t1 t2 : count e (t1 ++ t2) = (count e t1 + count e t2)%nat.
Proof. unfold count. by rewrite filter_app, length_app. Qed.

Lemma count_one e x : count e [x] = if decide (x = e) then 1%nat else 0%nat.
Proof. unfold count. cbn. by case_decide. Qed.

(** A challenge is answered at most once. In any interleaving of
    creations, consumptions (by any flow over the store) and reaping, an id is
    consumed successfully no more often than it was issued, so a signature over
    its nonce is accepted at most once. *)
Theorem challenge_single_use s tr id :
  run s tr -> (count (EvConsume id) tr + available s id <= count (EvCreate id) tr)%nat.
Proof.
  intros Hr. unfold available. induction Hr as [s Hs|s tr c s' o Hr IH E|s tr k s' r Hr IH E|s tr t s' r Hr IH E].
  - rewrite Hs, lookup_empty. cbn. lia.
  - rewrite !count_app, !count_one. rewrite (decide_False (P := EvCreate (ch_id c) = EvConsume id)) by done.
    destruct o as [e|].
    + rewrite (cs_create_err _ _ _ _ E). case_decide; lia.
    + rewrite (cs_create_ok _ _ _ E). case_decide as Hd.
      * injection Hd as <-. rewrite lookup_insert_eq. destruct (ch_used c);
          destruct (cs_view s !! ch_id c) as [c0|]; try destruct (ch_used c0); lia.
      * rewrite lookup_insert_ne by congruence. lia.
  - destruct r as [c|e]; cbn [is_ok].
    + destruct (cs_consume_ok _ _ _ _ E) as (c0 & Hv & Hu & -> & ->).
      rewrite !count_app, !count_one. rewrite (decide_False (P := EvConsume k = EvCreate id)) by done.
      case_decide as Hd.
      * injection Hd as ->. rewrite lookup_insert_eq. rewrite Hv, Hu in IH. cbn. lia.
      * rewrite lookup_insert_ne by congruence. lia.
    + rewrite (cs_consume_err _ _ _ _ E). lia.
  - pose proof (cs_reap_sub _ _ _ _ E) as Hsub.
    destruct (cs_view s' !! id) as [c|] eqn:Ec; [|lia].
    rewrite (lookup_weaken _ _ _ _ Ec Hsub) in IH. lia.
Qed.
End Trace.

(** ** challenge.go *)
Definition defaultTTL : duration := 5 * minute.
Record Config := mkConfig { cg_ttl : duration; cg_require_ocsp : bool }.

(** The default of [New]. *)
Definition effective_ttl (c : Config) : duration := if cg_ttl c <=? 0 then defaultTTL else cg_ttl c.

Record IssueRequest := mkIssueRequest { iq_purpose : string; iq_meta : gmap string string }.
Record IssueResponse := mkIssueResponse {
  ip_id : string; ip_data : string; ip_alg : string; ip_expires_in : Z; ip_purpose : string;
}.
Record ConfirmRequest := mkConfirmRequest { cq_id : string; cq_signature : string; cq_check : bool }.
Record ConfirmResponse := mkConfirmResponse {
  cp_confirmed : bool; cp_purpose : string; cp_meta : gmap string string; cp_at : time;
  cp_signer : option Claims; cp_certificate : option Certificate; cp_revoked : option bool;
}.
Definition no_response : ConfirmResponse := mkConfirmResponse false "" ∅ time_zero None None None.

Section Service.
  Context {W St : Type} `{ChallengeStore St}.
  Variable v : verifier W.
  Variable now : W -> time.
  (** [rand.Read] of the nonce, and [randID]. *)
  Variable rand_nonce : M W (res goerr string).
  Variable rand_id : M W (res goerr string).
  (** [base64.StdEncoding]. *)
  Variable b64 : string -> string.
  Variable cfg : Config.

Definition clock : M (W * St) time := mget (fun w => now (fst w)).

(** [Issue]. *)
Definition Issue (q : IssueRequest) : M (W * St) (res goerr IssueResponse) :=
  (let* nonce := in_world rand_nonce in
   match nonce with
   | Err e => mret (Err e)
   | Ok nonce =>
       let* id := in_world rand_id in
       match id with
       | Err e => mret (Err e)
       | Ok id =>
           let* t := clock in
           let ttl := effective_ttl cfg in
           let* err := in_store (cs_create
             (mkChallenge id nonce (iq_purpose q) (iq_meta q) t (t + ttl) false)) in
           mret (match err with
                 | Some e => Err e
                 | None => Ok (mkIssueResponse id (b64 nonce) "CMS-detached" (Z.quot ttl second)
                                 (iq_purpose q))
                 end)
       end
   end)%m.

(** [checkRevocation]. *)
Definition checkRevocation (pem : string) : M W (res goerr bool) :=
  (let* (out, err) := vf_validate v
     (mkValidateInput pem EncodingPEM MethodOCSP time_zero false [] "" "") in
   mret (match err with
         | Some e => Err (Wrap "revocation check: " e)
         | None =>
             let st := vao_status out in
             match r_lib_error st with
             | Some le => if r_revoked st then Ok true
                          else Err (New ("revocation check inconclusive: " ++ le_message le))
             | None => Ok (r_revoked st)
             end
         end))%m.

(** [Confirm]. *)
Definition Confirm (q : ConfirmRequest) : M (W * St) (ConfirmResponse * option goerr) :=
  (let* got := in_store (cs_consume (cq_id q)) in
   match got with
   | Err e => mret (no_response, Some e)
   | Ok ch =>
       let* t := clock in
       if negb (after (ch_expires ch) t) then mret (no_response, Some ErrExpired)
       else
         let* (out, err) := in_world (vf_verify v
           (mkVerifyInput FormatCMS (cq_signature q) (ch_nonce ch) no_ref true false true false true
              false false false [] None (MethodOther "") "" false)) in
         match err, vo_signers out with
         | Some e, _ => mret (no_response, Some (Wrap "verify challenge signature: " e))
         | None, [] => mret (mkConfirmResponse false (ch_purpose ch) (ch_meta ch) t None None None, None)
         | None, signer :: _ =>
             if negb (vo_valid out) then
               mret (mkConfirmResponse false (ch_purpose ch) (ch_meta ch) t None None None, None)
             else
               let resp ok rev := mkConfirmResponse ok (ch_purpose ch) (ch_meta ch) t
                 (sg_claims signer) (Some (sg_certificate signer)) rev in
               if cg_require_ocsp cfg || cq_check q then
                 let* r := in_world (checkRevocation (c_pem (sg_certificate signer))) in
                 mret (match r with
                       | Err e => (no_response, Some e)
                       | Ok rev => (resp (negb rev) (Some rev), None)
                       end)
               else mret (resp true None, None)
         end
   end)%m.
End Service.

Section ConfirmProofs.
  Context {W St : Type} `{ChallengeStoreLaws St}.
  Variable v : verifier W.
  Variable now : W -> time.
  Variable cfg : Config.
Notation confirm := (Confirm v now cfg).

(** What is asked of the verifier for a challenge. *)
Definition challenge_input (signature nonce : string) : VerifyInput :=
  mkVerifyInput FormatCMS signature nonce no_ref true false true false true
    false false false [] None (MethodOther "") "" false.

(** A confirmation means what it says. When [Confirm] answers
    "confirmed", the challenge was issued and unused, its lifetime had not
    passed, it is now spent, the verifier found the submitted signature over
    exactly this challenge's nonce valid, the purpose and signer reported are
    this challenge's and this signature's, and when a revocation check was
    required or asked for, it ran without error and did not answer revoked. *)
Theorem confirm_sound q w st w' st' resp :
  confirm q (w, st) = Done ((w', st'), (resp, None)) -> cp_confirmed resp = true ->
  exists c w1 out sg rest,
    cs_view st !! cq_id q = Some c /\ ch_used c = false /\ now w < ch_expires c /\
    cs_view st' = <[cq_id q := mark_used c]> (cs_view st) /\
    vf_verify v (challenge_input (cq_signature q) (ch_nonce c)) w = Done (w1, (out, None)) /\
    vo_valid out = true /\ vo_signers out = sg :: rest /\
    cp_purpose resp = ch_purpose c /\ cp_signer resp = sg_claims sg /\
    (cg_require_ocsp cfg || cq_check q = true ->
     cp_revoked resp = Some false /\
     exists vo, vf_validate v (mkValidateInput (c_pem (sg_certificate sg)) EncodingPEM MethodOCSP
                  time_zero false [] "" "") w1 = Done (w', (vo, None)) /\
       r_revoked (vao_status vo) = false /\ r_lib_error (vao_status vo) = None).
Proof.
  intros ([w1 st1] & got & [-> Hc]%in_store_done & HC)%mbind_done Hok.
  destruct got as [ch|e]; [|apply mret_done in HC as [_ HC]; congruence].
  destruct (cs_consume_ok _ _ _ _ Hc) as (c & Hv & Hu & -> & Hst).
  apply mbind_done in HC as ([w2 st2] & t & [= <- <- <-] & HC). unfold after in HC. cbn in HC.
  destruct (now w <? ch_expires c) eqn:Et; [|apply mret_done in HC as [_ HC]; congruence].
  cbn [negb] in HC. apply Z.ltb_lt in Et.
  apply mbind_done in HC as ([w3 st3] & [out err] & [-> Hf]%in_world_done & HC).
  destruct err as [e|]; [apply mret_done in HC as [_ HC]; congruence|].
  destruct (vo_signers out) as [|sg rest] eqn:Es.
  { apply mret_done in HC as [_ HC]. injection HC as ->. done. }
  destruct (vo_valid out) eqn:Ev; cbn [negb] in HC; [|apply mret_done in HC as [_ HC]; injection HC as ->; done].
  exists c, w3, out, sg, rest.
  destruct (cg_require_ocsp cfg || cq_check q).
  - apply mbind_done in HC as ([w4 st4] & r & [-> Hr]%in_world_done & HC).
    apply mret_done in HC as [[= -> ->] HC]. destruct r as [rev|e]; [|done]. injection HC as ->.
    cbn in Hok. apply negb_true_iff in Hok as ->.
    apply mbind_done in Hr as (w5 & [vo verr] & Hval & Hr). apply mret_done in Hr as [-> Hr].
    split_and!; try done. intros _. split; [done|]. exists vo.
    destruct verr as [e|]; [done|]. cbv zeta in Hr. destruct (r_lib_error (vao_status vo)) as [le|];
      destruct (r_revoked (vao_status vo)); try discriminate Hr. done.
  - apply mret_done in HC as [[= -> ->] [= ->]]. split_and!; done.
Qed.

(** The revocation check does not look at whether the status was determined:
    "not determined" without a library error is taken for "not revoked". *)
Lemma confirm_ignores_indeterminate pem w w' out :
  vf_validate v (mkValidateInput pem EncodingPEM MethodOCSP time_zero false [] "" "") w
    = Done (w', (out, None)) ->
  r_determinate (vao_status out) = false -> r_revoked (vao_status out) = false ->
  r_lib_error (vao_status out) = None ->
  checkRevocation v pem w = Done (w', Ok false).
Proof.
  intros Hv _ Hr Hl. unfold checkRevocation. apply mbind_done. exists w', (out, None).
  split; [done|]. cbn. by rewrite Hr, Hl.
Qed.
End ConfirmProofs.

(** ** A concrete flow *)
Definition lab_signer : Signer :=
  mkSigner (mkCertificate empty_subject empty_subject "" None None "" "" "" "" "" "" [] "" [] [] ""
    [] [] [] [] false "PEM") [] true None "" None true true true "BES" ""
    (Some (mkClaims "900101300123" "" "" "" "" "900101300123" "" "" [] "" "")) None.
(** Accepts the signature "sig:" followed by the data. *)
Definition lab_verifier : verifier Z := mkVerifier
  (fun i => mret (mkVerifyOutput (str_eqb (vi_signature i) ("sig:" ++ vi_data i)) (vi_format i) true
                    [lab_signer] "" [] None None None "" None, None))
  (fun i => mret (mkValidateOutput (mkRevocation false true MethodOCSP None "" None None None None None)
                    "" "" [] None, None)).
Definition lab_store : gmap string Challenge :=
  {["c1"%string := mkChallenge "c1" "n0nce" "payment" ∅ 0 100 false]}.
Definition lab_config : Config := mkConfig 0 true.
Definition lab_confirm (st : gmap string Challenge) :=
  Confirm lab_verifier id lab_config (mkConfirmRequest "c1" "sig:n0nce" false) (50, st).
Definition lab_spent : gmap string Challenge :=
  {["c1"%string := mkChallenge "c1" "n0nce" "payment" ∅ 0 100 true]}.
Definition lab_response : ConfirmResponse :=
  mkConfirmResponse true "payment" ∅ 50 (sg_claims lab_signer) (Some (sg_certificate lab_signer))
    (Some false).

Lemma confirm_sound_witness :
  lab_confirm lab_store = Done ((50, lab_spent), (lab_response, None)) /\
  exists c, lab_store !! "c1"%string = Some c /\ ch_used c = false /\ 50 < ch_expires c.
Proof.
  assert (lab_confirm lab_store = Done ((50, lab_spent), (lab_response, None))) as E
    by (vm_compute; reflexivity).
  split; [exact E|].
  destruct (confirm_sound lab_verifier id lab_config _ _ _ _ _ _ E eq_refl)
    as (c & w1 & out & sg & rest & Hv & Hu & Ht & _).
  exists c. done.
Defined.

Lemma challenge_single_use_witness :
  (count (EvConsume "c1") [EvCreate "c1"; EvConsume "c1"] + available lab_spent "c1" <=
   count (EvCreate "c1") [EvCreate "c1"; EvConsume "c1"])%nat.
Proof.
  apply challenge_single_use.
  apply (RunConsume lab_store [EvCreate "c1"] "c1" lab_spent (Ok (mkChallenge "c1" "n0nce" "payment" ∅ 0 100 true)));
    [|vm_compute; reflexivity].
  apply (RunCreate ∅ [] (mkChallenge "c1" "n0nce" "payment" ∅ 0 100 false) lab_store None);
    [by constructor|vm_compute; reflexivity].
Defined.
End Challenge.
