(* ===== verification/Oidc.v ===== *)
(** * The OpenID Connect provider (internal/oidc: oidc.go, authcode.go, the
    claims of contract.go and the expiry rule of signer.go).

    The RS256 signer, SHA-256/base64url of PKCE and the URL library are
    parameters; the challenge store is the interface of Challenge. *)
From S2P Require Import Prelude Errors Provider CoreTypes CertParse Native Challenge.

Module Oidc.
Import Challenge.Challenge.

Definition ErrChallengeExpired := ErrExpired.
Definition ErrSignatureRejected := Sent "oidc.ErrSignatureRejected" "signature rejected".
Definition ErrCertRevoked := Sent "oidc.ErrCertRevoked" "certificate revoked".
Definition ErrUnknownClient := Sent "oidc.ErrUnknownClient" "unknown client".
Definition ErrRedirectMismatch :=
  Sent "oidc.ErrRedirectMismatch" "redirect_uri is not registered for this client".
Definition ErrUnsupportedFlow := Sent "oidc.ErrUnsupportedFlow" "unsupported response_type".
Definition ErrPKCERequired := Sent "oidc.ErrPKCERequired" "code_challenge with S256 is required".
Definition ErrPKCEFailed := Sent "oidc.ErrPKCEFailed" "code_verifier does not match the challenge".
Definition ErrCodeInvalid :=
  Sent "oidc.ErrCodeInvalid" "authorization code is unknown, used or expired".
Definition ErrClientAuth := Sent "oidc.ErrClientAuth" "client authentication failed".
Definition ErrTokenInvalid := Sent "oidc.ErrTokenInvalid" "token invalid".
Definition ErrTokenExpired := Sent "oidc.ErrTokenExpired" "token expired".

(** ** Claim sets as JSON objects *)
Inductive jval := JStr (s : string) | JInt (n : Z) | JList (l : list string).
Notation jmap := (gmap string jval).

(** A string or a list under [omitempty], through a JSON round trip. *)
Definition put_str (k v : string) (m : jmap) : jmap :=
  if empty_str v then m else <[k := JStr (utf8_clean v)]> m.
Definition put_list (k : string) (l : list string) (m : jmap) : jmap :=
  match l with [] => m | _ => <[k := JList (map utf8_clean l)]> m end.

(** [claimsToMap]. *)
Definition claimsToMap (c : Claims) : jmap :=
  put_str "sub" (cl_sub c) (put_str "name" (cl_name c) (put_str "given_name" (cl_given_name c)
  (put_str "family_name" (cl_family_name c) (put_str "email" (cl_email c) (put_str "iin" (cl_iin c)
  (put_str "bin" (cl_bin c) (put_str "organization" (cl_organization c)
  (put_list "roles" (cl_roles c) (put_str "owner_type" (cl_owner_type c)
  (put_str "gender" (cl_gender c) ∅)))))))))).

(** ** Configuration and clients *)
Record Config := mkConfig {
  oc_issuer : string; oc_audience : string; oc_challenge_ttl : duration; oc_token_ttl : duration;
  oc_require_ocsp : bool; oc_reap : duration;
}.

(** [Config.withDefaults]. *)
Definition withDefaults (c : Config) : Config :=
  let ttl := if oc_challenge_ttl c <=? 0 then 5 * minute else oc_challenge_ttl c in
  mkConfig (oc_issuer c) (oc_audience c) ttl
    (if oc_token_ttl c <=? 0 then hour else oc_token_ttl c) (oc_require_ocsp c)
    (if oc_reap c <=? 0 then (if minute <? ttl then minute else ttl) else oc_reap c).

Record Client := mkClient { cn_id : string; cn_secret : string; cn_redirects : list string }.

(** [Client.redirectAllowed]. *)
Definition redirectAllowed (c : Client) (uri : string) : bool :=
  existsb (fun u => str_eqb u uri) (cn_redirects c).

(** [ParseClients]; [%q] of printable text. *)
Definition parse_client (raw : string) : res goerr Client :=
  match split_on "|" raw "" with
  | id :: secret :: ((_ :: _) as uris) =>
      let id := trim_space id in
      if empty_str id then Err (New ("client " ++ quoted raw ++ ": empty client_id"))
      else
        let l := filter (fun u => negb (empty_str u)) (map trim_space uris) in
        match l with
        | [] => Err (New ("client " ++ quoted id ++ ": no redirect_uri"))
        | _ => Ok (mkClient id (trim_space secret) l)
        end
  | _ => Err (New ("client " ++ quoted raw ++ ": want client_id|secret|redirect_uri[|redirect_uri...]"))
  end.
Fixpoint ParseClients (entries : list string) (acc : gmap string Client)
    : res goerr (gmap string Client) :=
  match entries with
  | [] => Ok acc
  | raw :: t => (let? c := parse_client raw in ParseClients t (<[cn_id c := c]> acc))%res
  end.

(** ** Requests *)
Record AuthorizeRequest := mkAuthorize {
  aq_client : string; aq_redirect : string; aq_response_type : string; aq_state : string;
  aq_nonce : string; aq_challenge : string; aq_method : string;
}.
Record TokenRequest := mkTokenRequest {
  tq_grant : string; tq_code : string; tq_redirect : string; tq_client : string;
  tq_secret : string; tq_verifier : string;
}.
Record TokenResponse := mkTokens { tr_id : string; tr_access : string; tr_type : string; tr_expires : Z }.

(** An issued code awaiting exchange; [authCodeTTL]. *)
Record authCode := mkAuthCode {
  ac_client : string; ac_redirect : string; ac_nonce : string; ac_claims : Claims;
  ac_challenge : string; ac_expires : time;
}.
Definition authCodeTTL : duration := 60 * second.

(** [codeStore.put], [codeStore.take] and [codeStore.reap]. *)
Definition put (code : string) (c : authCode) (m : gmap string authCode) : gmap string authCode := <[code := c]> m.
Definition take (code : string) (t : time) (m : gmap string authCode)
    : gmap string authCode * option authCode :=
  match m !! code with
  | None => (m, None)
  | Some c => (delete code m, if after (ac_expires c) t then Some c else None)
  end.
Definition reap (t : time) (m : gmap string authCode) : gmap string authCode :=
  filter (fun p => after (ac_expires (snd p)) t = true) m.

(** [looksPEM] and [firstNonEmpty]. *)
Definition looksPEM (b : string) : bool := has_prefix "-----BEGIN" (trim_space b).
Definition firstNonEmpty (l : list string) : string :=
  match find_first (fun v => negb (empty_str v)) l with Some v => v | None => "" end.

Definition S256 (m : string) : bool := str_eqb (to_lower m) "s256".

Section Provider.
  Context {W St : Type} `{ChallengeStore St}.
  Variable v : verifier W.
  Variable now : W -> time.
  Variable rand_nonce : M W (res goerr string).
  Variable rand_id : M W (res goerr string).
  (** [Signer.Sign] over a claim set; base64; the S256 transform of PKCE; and
      the URL library: the redirect with parameters added, unless it does not
      parse. *)
  Variable sign : jmap -> M W (res goerr string).
  Variable b64 : string -> string.
  Variable s256 : string -> string.
  Variable add_query : string -> list (string * string) -> option string.
  Variable cfg : Config.
  Variable clients : gmap string Client.

(** The provider's state next to the world: the challenge store and the codes. *)
Record pstate := mkPState { p_world : W; p_store : St; p_codes : gmap string authCode }.
Definition in_world {A} (m : M W A) : M pstate A := fun s =>
  match m (p_world s) with
  | Done (w', a) => Done (mkPState w' (p_store s) (p_codes s), a)
  | Panic => Panic
  end.
Definition in_store {A} (f : St -> St * A) : M pstate A := fun s =>
  let '(st', a) := f (p_store s) in Done (mkPState (p_world s) st' (p_codes s), a).
Definition in_codes {A} (f : gmap string authCode -> gmap string authCode * A) : M pstate A := fun s =>
  let '(c', a) := f (p_codes s) in Done (mkPState (p_world s) (p_store s) c', a).
Definition clock : M pstate time := mget (fun s => now (p_world s)).

(** [challengeMeta]. *)
Definition challengeMeta (nonce state : string) : gmap string string :=
  let m := if empty_str nonce then ∅ else {["clientNonce"%string := nonce]} in
  if empty_str state then m else <["state"%string := state]> m.

(** [Challenge]: the id and the data to sign. *)
Definition IssueChallenge (nonce_ state : string) : M pstate (res goerr (string * string)) :=
  (let* nonce := in_world rand_nonce in
   match nonce with
   | Err e => mret (Err e)
   | Ok nonce =>
       let* id := in_world rand_id in
       match id with
       | Err e => mret (Err e)
       | Ok id =>
           let* t := clock in
           let* err := in_store (cs_create (mkChallenge id nonce "oidc.login"
             (challengeMeta nonce_ state) t (t + oc_challenge_ttl cfg) false)) in
           mret (match err with Some e => Err e | None => Ok (id, b64 nonce) end)
       end
   end)%m.

(** What is asked of the verifier. *)
Definition login_input (signature nonce : string) : VerifyInput :=
  mkVerifyInput FormatCMS signature nonce no_ref true (looksPEM signature) true false true
    false false false [] None (MethodOther "") "" false.

(** [verifyChallengeSignature]: the claims and the client's nonce. *)
Definition verifyChallengeSignature (id signature : string) : M pstate (res goerr (Claims * string)) :=
  (let* got := in_store (cs_consume id) in
   match got with
   | Err e => mret (Err e)
   | Ok ch =>
       let* t := clock in
       if negb (after (ch_expires ch) t) then mret (Err ErrChallengeExpired)
       else if empty_str signature then mret (Err ErrSignatureRejected)
       else
         let* (out, err) := in_world (vf_verify v (login_input signature (ch_nonce ch))) in
         match err, vo_signers out with
         | Some e, _ => mret (Err e)
         | None, [] => mret (Err ErrSignatureRejected)
         | None, signer :: _ =>
             if negb (vo_valid out) then mret (Err ErrSignatureRejected)
             else match sg_claims signer with
             | None => mret (Err ErrSignatureRejected)
             | Some claims =>
                 if empty_str (cl_sub claims) then mret (Err ErrSignatureRejected)
                 else
                   let nonce := default ""%string (ch_meta ch !! "clientNonce"%string) in
                   if oc_require_ocsp cfg then
                     let* (res, verr) := in_world (vf_validate v
                       (mkValidateInput (c_pem (sg_certificate signer)) EncodingPEM MethodOCSP
                          time_zero true [] "" "")) in
                     mret (match verr with
                           | Some e => Err e
                           | None => if r_revoked (vao_status res) then Err ErrCertRevoked
                                     else Ok (claims, nonce)
                           end)
                   else mret (Ok (claims, nonce))
             end
         end
   end)%m.

(** The two claim sets of [IssueTokens]. *)
Definition idClaims (c : Claims) (clientID nonce : string) (t : time) : jmap :=
  let aud := firstNonEmpty [clientID; oc_audience cfg; oc_issuer cfg] in
  let m := <["exp"%string := JInt (unix (t + oc_token_ttl cfg))]>
    (<["auth_time"%string := JInt (unix t)]> (<["iat"%string := JInt (unix t)]>
    (<["aud"%string := JStr aud]> (<["sub"%string := JStr (cl_sub c)]>
    (<["iss"%string := JStr (oc_issuer cfg)]> (claimsToMap c)))))) in
  if empty_str nonce then m else <["nonce"%string := JStr nonce]> m.
Definition accClaims (c : Claims) (t : time) : jmap :=
  <["token_use"%string := JStr "access"]> (<["exp"%string := JInt (unix (t + oc_token_ttl cfg))]>
    (<["iat"%string := JInt (unix t)]> (<["sub"%string := JStr (cl_sub c)]>
    (<["iss"%string := JStr (oc_issuer cfg)]> (claimsToMap c))))).

(** [IssueTokens]. *)
Definition IssueTokens (c : Claims) (clientID nonce : string) : M pstate (res goerr TokenResponse) :=
  (let* t := clock in
   let* idt := in_world (sign (idClaims c clientID nonce t)) in
   match idt with
   | Err e => mret (Err e)
   | Ok idt =>
       let* acc := in_world (sign (accClaims c t)) in
       mret (match acc with
             | Err e => Err e
             | Ok acc => Ok (mkTokens idt acc "Bearer" (Z.quot (oc_token_ttl cfg) second))
             end)
   end)%m.

(** [Verify], the API grant. *)
Definition VerifyGrant (id signature clientID : string) : M pstate (res goerr TokenResponse) :=
  (let* r := verifyChallengeSignature id signature in
   match r with
   | Err e => mret (Err e)
   | Ok (claims, nonce) => IssueTokens claims clientID nonce
   end)%m.

(** [ValidateAuthorize]. *)
Definition ValidateAuthorize (q : AuthorizeRequest) : res goerr Client :=
  match clients !! aq_client q with
  | None => Err ErrUnknownClient
  | Some c =>
      if empty_str (aq_redirect q) || negb (redirectAllowed c (aq_redirect q)) then Err ErrRedirectMismatch
      else if negb (str_eqb (aq_response_type q) "code") then Err ErrUnsupportedFlow
      else if empty_str (cn_secret c) && (empty_str (aq_challenge q) || negb (S256 (aq_method q)))
      then Err ErrPKCERequired
      else if negb (empty_str (aq_challenge q)) && negb (S256 (aq_method q)) then Err ErrPKCERequired
      else Ok c
  end.

(** [CompleteAuthorization]. *)
Definition CompleteAuthorization (q : AuthorizeRequest) (id signature : string)
    : M pstate (res goerr string) :=
  match ValidateAuthorize q with
  | Err e => mret (Err e)
  | Ok client =>
      (let* r := verifyChallengeSignature id signature in
       match r with
       | Err e => mret (Err e)
       | Ok (claims, _) =>
           let* code := in_world rand_id in
           match code with
           | Err e => mret (Err e)
           | Ok code =>
               let* t := clock in
               let* _ := in_codes (fun m => (put code (mkAuthCode (cn_id client) (aq_redirect q)
                 (aq_nonce q) claims (aq_challenge q) (t + authCodeTTL)) m, tt)) in
               mret (match add_query (aq_redirect q)
                             (("code"%string, code) ::
                              (if empty_str (aq_state q) then [] else [("state"%string, aq_state q)])) with
                     | None => Err ErrRedirectMismatch
                     | Some u => Ok u
                     end)
           end
       end)%m
  end.

(** [verifyPKCE]. *)
Definition verifyPKCE (challenge verifier : string) : bool :=
  negb (empty_str verifier) && str_eqb challenge (s256 verifier).

(** [Exchange]. *)
Definition Exchange (q : TokenRequest) : M pstate (res goerr TokenResponse) :=
  if negb (str_eqb (tq_grant q) "authorization_code") then
    (* the quoted grant type that ends the message is left out *)
    mret (Err (Wrap "" ErrUnsupportedFlow))
  else match clients !! tq_client q with
  | None => mret (Err ErrUnknownClient)
  | Some c =>
      if negb (empty_str (cn_secret c)) && negb (str_eqb (cn_secret c) (tq_secret q))
      then mret (Err ErrClientAuth)
      else
        (let* t := clock in
         let* got := in_codes (take (tq_code q) t) in
         match got with
         | None => mret (Err ErrCodeInvalid)
         | Some code =>
             if negb (str_eqb (ac_client code) (tq_client q))
                || negb (str_eqb (ac_redirect code) (tq_redirect q))
             then mret (Err ErrCodeInvalid)
             else if negb (empty_str (ac_challenge code))
                     && negb (verifyPKCE (ac_challenge code) (tq_verifier q))
             then mret (Err ErrPKCEFailed)
             else IssueTokens (ac_claims code) (tq_client q) (ac_nonce code)
         end)%m
  end.

(** The expiry rule of [Signer.Verify] on the decoded claims of a good token. *)
Definition check_expiry (m : jmap) (t : time) : res goerr jmap :=
  match m !! "exp"%string with
  | Some (JInt e) => if after t ((e + 62135596800) * second) then Err ErrTokenExpired else Ok m
  | _ => Ok m
  end.

End Provider.

(** ** Proofs against the store interface *)
Section Proofs.
  Context {W St : Type} `{ChallengeStoreLaws St}.
  Variable v : verifier W.
  Variable now : W -> time.
  Variable rand_id : M W (res goerr string).
  Variable sign : jmap -> M W (res goerr string).
  Variable s256 : string -> string.
  Variable add_query : string -> list (string * string) -> option string.
  Variable cfg : Config.
  Variable clients : gmap string Client.
Notation pstate := (@pstate W St).
Notation exchange := (@Exchange W St now sign s256 cfg clients).
Notation complete := (CompleteAuthorization v now rand_id add_query cfg clients).

(** The claims come from a signature that the domain found valid over the nonce
    of a challenge unused until then, with its revocation check when required. *)
Definition vouched (c : Claims) : Prop :=
  cl_sub c <> ""%string /\
  exists id ch st signature w w' out sg rest,
    cs_view st !! id = Some ch /\ ch_used ch = false /\ now w < ch_expires ch /\
    vf_verify v (login_input signature (ch_nonce ch)) w = Done (w', (out, None)) /\
    vo_valid out = true /\ vo_signers out = sg :: rest /\ sg_claims sg = Some c /\
    (oc_require_ocsp cfg = true -> exists w2 vo,
       vf_validate v (mkValidateInput (c_pem (sg_certificate sg)) EncodingPEM MethodOCSP
                        time_zero true [] "" "") w' = Done (w2, (vo, None)) /\
       r_revoked (vao_status vo) = false).

(** An issued code: bound to a registered redirect of its client, protected by
    PKCE when the client is public, and carrying vouched claims. *)
Definition code_ok (c : authCode) : Prop :=
  (exists id cl, clients !! id = Some cl /\ cn_id cl = ac_client c /\
     ac_redirect c ∈ cn_redirects cl /\ ac_redirect c <> ""%string /\
     (cn_secret cl = ""%string -> ac_challenge c <> ""%string)) /\
  vouched (ac_claims c).
Definition codes_ok (m : gmap string authCode) : Prop := forall k c, m !! k = Some c -> code_ok c.

Lemma in_pworld_done {A} (m : M W A) (s s' : pstate) a :
  in_world m s = Done (s', a) <->
  exists w', m (p_world s) = Done (w', a) /\ s' = mkPState w' (p_store s) (p_codes s).
Proof. unfold in_world. destruct (m (p_world s)) as [[]|]; naive_solver. Qed.

Lemma verifyChallengeSignature_ok id signature s s' c nonce :
  verifyChallengeSignature v now cfg id signature s = Done (s', Ok (c, nonce)) ->
  vouched c /\ p_codes s' = p_codes s.
Proof.
  unfold verifyChallengeSignature. intros (s1 & got & HC & HR)%mbind_done.
  unfold in_store in HC. destruct (cs_consume id (p_store s)) as [st1 r] eqn:Ec.
  injection HC as <- <-. destruct r as [ch|e]; [|apply mret_done in HR as [_ HR]; congruence].
  destruct (cs_consume_ok _ _ _ _ Ec) as (c0 & Hv & Hu & -> & _).
  apply mbind_done in HR as (s2 & t & [= <- <-] & HR). cbn [p_world] in HR. unfold after in HR.
  cbn [ch_expires mark_used] in HR.
  destruct (Z.ltb_spec (now (p_world s)) (ch_expires c0)) as [Ht|];
    cbn [negb] in HR; [|apply mret_done in HR as [_ HR]; congruence].
  destruct (empty_str signature); [apply mret_done in HR as [_ HR]; congruence|].
  apply mbind_done in HR as (s3 & [out err] & (w3 & Hf & ->)%in_pworld_done & HR).
  cbn [p_world p_store p_codes] in *.
  destruct err as [e|]; [apply mret_done in HR as [_ HR]; congruence|].
  destruct (vo_signers out) as [|sg rest] eqn:Es; [apply mret_done in HR as [_ HR]; congruence|].
  destruct (vo_valid out) eqn:Ev; cbn [negb] in HR; [|apply mret_done in HR as [_ HR]; congruence].
  destruct (sg_claims sg) as [cl|] eqn:Ecl; [|apply mret_done in HR as [_ HR]; congruence].
  destruct (empty_str (cl_sub cl)) eqn:Esub; [apply mret_done in HR as [_ HR]; congruence|].
  apply str_eqb_neq in Esub. destruct (oc_require_ocsp cfg) eqn:Eo.
  - apply mbind_done in HR as (s4 & [vo verr] & (w4 & Hval & ->)%in_pworld_done & HR).
    apply mret_done in HR as [-> HR]. destruct verr as [e|]; [done|].
    destruct (r_revoked (vao_status vo)) eqn:Erev; [done|]. injection HR as -> _.
    split; [|done]. split; [done|].
    exists id, c0, (p_store s), signature, (p_world s), w3, out, sg, rest. split_and!; eauto.
  - apply mret_done in HR as [-> HR]. injection HR as -> _. split; [|done]. split; [done|].
    exists id, c0, (p_store s), signature, (p_world s), w3, out, sg, rest.
    split_and!; eauto. congruence.
Qed.

Lemma IssueTokens_ok c clientID nonce (s s' : pstate) tokens :
  IssueTokens now sign cfg c clientID nonce s = Done (s', Ok tokens) ->
  p_codes s' = p_codes s /\ exists w1,
    sign (idClaims cfg c clientID nonce (now (p_world s))) (p_world s) = Done (w1, Ok (tr_id tokens)).
Proof.
  unfold IssueTokens. intros (s1 & t & [= <- <-] & HR)%mbind_done.
  apply mbind_done in HR as (s2 & idt & (w2 & Hs & ->)%in_pworld_done & HR).
  destruct idt as [idt|e]; [|apply mret_done in HR as [_ HR]; congruence].
  apply mbind_done in HR as (s3 & acc & (w3 & _ & ->)%in_pworld_done & HR).
  apply mret_done in HR as [-> HR]. destruct acc as [acc|e]; [|done]. injection HR as ->. eauto.
Qed.

Lemma ValidateAuthorize_ok q c :
  ValidateAuthorize clients q = Ok c ->
  clients !! aq_client q = Some c /\ aq_redirect q <> ""%string /\ aq_redirect q ∈ cn_redirects c /\
  (cn_secret c = ""%string -> aq_challenge q <> ""%string).
Proof.
  unfold ValidateAuthorize. destruct (clients !! aq_client q) as [cl|]; [|done].
  destruct (_ || _) eqn:E1; [done|]. destruct (negb (str_eqb _ _)); [done|].
  destruct (empty_str (cn_secret cl) && _) eqn:E2; [done|].
  destruct (negb (empty_str (aq_challenge q)) && _); [done|]. intros [= ->].
  apply orb_false_iff in E1 as [E1 E3]. apply str_eqb_neq in E1. apply negb_false_iff in E3.
  unfold redirectAllowed in E3. apply existsb_elem in E3 as (u & Hu & He). apply str_eqb_eq in He as ->.
  split_and!; try done. intros Hs. rewrite Hs in E2. cbn in E2.
  apply orb_false_iff in E2 as [E2 _]. by apply str_eqb_neq.
Qed.

Lemma codes_ok_sub m m' : m' ⊆ m -> codes_ok m -> codes_ok m'.
Proof. intros Hs Hm k c Hc. eapply Hm, lookup_weaken; eauto. Qed.

Lemma take_ok code t m m' o :
  take code t m = (m', o) -> m' ⊆ m /\
  forall c, o = Some c -> m !! code = Some c /\ m' = delete code m /\ t < ac_expires c.
Proof.
  unfold take. destruct (m !! code) as [c|]; [|by intros [= <- <-]].
  intros [= <- <-]. split; [apply delete_subseteq|]. intros c'. unfold after.
  destruct (Z.ltb_spec t (ac_expires c)); [|done]. by intros [= <-].
Qed.

(** The provider over time: requests of both flows, the reaper, and whatever
    else changes the world and the challenge store. *)
Inductive step : pstate -> pstate -> Prop :=
| StepOther w st w' st' m : step (mkPState w st m) (mkPState w' st' m)
| StepComplete q id signature s s' r : complete q id signature s = Done (s', r) -> step s s'
| StepExchange q s s' r : exchange q s = Done (s', r) -> step s s'
| StepReap t s : step s (mkPState (p_world s) (p_store s) (reap t (p_codes s))).

Lemma verifyChallengeSignature_codes id signature s s' r :
  verifyChallengeSignature v now cfg id signature s = Done (s', r) -> p_codes s' = p_codes s.
Proof.
  unfold verifyChallengeSignature. intros (s1 & got & HC & HR)%mbind_done.
  unfold in_store in HC. destruct (cs_consume id (p_store s)) as [st1 r1]. injection HC as <- <-.
  destruct r1 as [ch|e]; [|by apply mret_done in HR as [-> _]].
  apply mbind_done in HR as (s2 & t & [= <- <-] & HR).
  destruct (negb _); [by apply mret_done in HR as [-> _]|].
  destruct (empty_str signature); [by apply mret_done in HR as [-> _]|].
  apply mbind_done in HR as (s3 & [out err] & (w3 & _ & ->)%in_pworld_done & HR).
  destruct err as [e|]; [by apply mret_done in HR as [-> _]|].
  destruct (vo_signers out) as [|sg rest]; [by apply mret_done in HR as [-> _]|].
  destruct (negb (vo_valid out)); [by apply mret_done in HR as [-> _]|].
  destruct (sg_claims sg) as [cl|]; [|by apply mret_done in HR as [-> _]].
  destruct (empty_str (cl_sub cl)); [by apply mret_done in HR as [-> _]|].
  destruct (oc_require_ocsp cfg); [|by apply mret_done in HR as [-> _]].
  apply mbind_done in HR as (s4 & [vo verr] & (w4 & _ & ->)%in_pworld_done & HR).
  by apply mret_done in HR as [-> _].
Qed.

Lemma complete_ok q id signature s s' r :
  complete q id signature s = Done (s', r) -> codes_ok (p_codes s) -> codes_ok (p_codes s').
Proof.
  unfold CompleteAuthorization. destruct (ValidateAuthorize clients q) as [cl|e] eqn:Ev;
    [|by intros [-> _]%mret_done].
  apply ValidateAuthorize_ok in Ev as (Hcl & Hne & Hin & Hp).
  intros (s1 & vr & HV & HR)%mbind_done Hok. pose proof (verifyChallengeSignature_codes _ _ _ _ _ HV) as Hcodes.
  destruct vr as [[claims nonce]|e]; [|apply mret_done in HR as [-> _]; by rewrite Hcodes].
  apply verifyChallengeSignature_ok in HV as [Hvouched _].
  apply mbind_done in HR as (s2 & code & (w2 & _ & ->)%in_pworld_done & HR).
  destruct code as [code|e]; [|apply mret_done in HR as [-> _]; cbn; by rewrite Hcodes].
  apply mbind_done in HR as (s3 & t & [= <- <-] & HR).
  apply mbind_done in HR as (s4 & u & [= <- _] & HR). apply mret_done in HR as [-> _]. cbn.
  rewrite Hcodes. unfold put. intros k c [[<- <-]|[_ Hc]]%lookup_insert_Some; [|by apply (Hok k)].
  split; [|done]. exists (aq_client q), cl. done.
Qed.

(** What an exchange does to the codes, and what a successful one found. *)
Lemma exchange_ok q s s' r :
  exchange q s = Done (s', r) -> p_codes s' ⊆ p_codes s /\
  forall tokens, r = Ok tokens -> exists code cl w1,
    p_codes s !! tq_code q = Some code /\ p_codes s' = delete (tq_code q) (p_codes s) /\
    now (p_world s) < ac_expires code /\ clients !! tq_client q = Some cl /\
    (cn_secret cl <> ""%string -> tq_secret q = cn_secret cl) /\
    ac_client code = tq_client q /\ ac_redirect code = tq_redirect q /\
    (ac_challenge code <> ""%string -> verifyPKCE s256 (ac_challenge code) (tq_verifier q) = true) /\
    sign (idClaims cfg (ac_claims code) (tq_client q) (ac_nonce code) (now (p_world s))) (p_world s)
      = Done (w1, Ok (tr_id tokens)).
Proof.
  unfold Exchange. destruct (negb (str_eqb _ _)); [by intros [-> ->]%mret_done|].
  destruct (clients !! tq_client q) as [cl|]; [|by intros [-> ->]%mret_done].
  destruct (_ && _) eqn:Es; [by intros [-> ->]%mret_done|].
  intros (s1 & t & [= <- <-] & HR)%mbind_done.
  apply mbind_done in HR as (s2 & got & HC & HR). unfold in_codes in HC.
  destruct (take _ _ _) as [m' o] eqn:Et. injection HC as <- <-.
  apply take_ok in Et as [Hsub Hsome].
  destruct o as [code|]; [|by apply mret_done in HR as [-> ->]].
  destruct (Hsome code eq_refl) as (Hcode & -> & Hexp).
  destruct (negb _ || _) eqn:Eb; [by apply mret_done in HR as [-> ->]|].
  apply orb_false_iff in Eb as [Ec Er]. apply negb_false_iff, str_eqb_eq in Ec, Er.
  destruct (negb (empty_str (ac_challenge code)) && negb _) eqn:Ep;
    [by apply mret_done in HR as [-> ->]|].
  destruct r as [tokens|e].
  - apply IssueTokens_ok in HR as [Hc (w1 & Hsign)]. cbn in Hc. rewrite Hc. split; [done|].
    intros tk [= <-]. exists code, cl, w1. split_and!; try done.
    + intros Hne. destruct (str_eqb (cn_secret cl) (tq_secret q)) eqn:Eq; [by apply str_eqb_eq in Eq|].
      apply str_eqb_neq in Hne. unfold empty_str in Es. by rewrite Hne in Es.
    + intros Hne. apply str_eqb_neq in Hne. unfold empty_str in Ep. rewrite Hne in Ep. cbn in Ep.
      by apply negb_false_iff in Ep.
  - split; [|done]. unfold IssueTokens in HR. apply mbind_done in HR as (s3 & t & [= <- <-] & HR).
    apply mbind_done in HR as (s4 & idt & (w2 & _ & ->)%in_pworld_done & HR).
    destruct idt as [idt|e1]; [|by apply mret_done in HR as [-> _]].
    apply mbind_done in HR as (s5 & acc & (w3 & _ & ->)%in_pworld_done & HR).
    by apply mret_done in HR as [-> _].
Qed.

Definition reachable (s : pstate) : Prop :=
  exists w st, rtc step (mkPState w st ∅) s.

Lemma reachable_codes s : reachable s -> codes_ok (p_codes s).
Proof.
  intros (w & st & Hr). assert (codes_ok (p_codes (mkPState w st ∅))) as Hi by (by intros k c Hc).
  induction Hr as [|s0 s1 s2 Hs _ IH]; [done|]. apply IH.
  destruct Hs as [| | |]; [done|by eapply complete_ok|..].
  - eapply codes_ok_sub; [by eapply exchange_ok|done].
  - eapply codes_ok_sub; [|done]. apply map_filter_subseteq.
Qed.

(** C6: Tokens are issued only to the party that was authorized. Over any
    history of the provider, when the token endpoint exchanges a code, that code
    was issued, unexpired and is spent by this exchange; the client is
    registered, authenticated with its secret when it has one and proved
    possession with PKCE when it has none; client and redirect are those the
    code was issued for, the redirect registered; and the id token is the
    service's signature over claims of a user whose signature over an unused
    challenge the domain found valid. *)
Theorem code_exchange_sound q s s' tokens :
  (forall id c, clients !! id = Some c -> cn_id c = id) ->
  reachable s -> exchange q s = Done (s', Ok tokens) ->
  exists code cl w1,
    p_codes s !! tq_code q = Some code /\ p_codes s' = delete (tq_code q) (p_codes s) /\
    now (p_world s) < ac_expires code /\ clients !! tq_client q = Some cl /\
    (cn_secret cl <> ""%string -> tq_secret q = cn_secret cl) /\
    (cn_secret cl = ""%string -> verifyPKCE s256 (ac_challenge code) (tq_verifier q) = true) /\
    ac_client code = tq_client q /\ ac_redirect code = tq_redirect q /\
    tq_redirect q ∈ cn_redirects cl /\ vouched (ac_claims code) /\
    sign (idClaims cfg (ac_claims code) (tq_client q) (ac_nonce code) (now (p_world s))) (p_world s)
      = Done (w1, Ok (tr_id tokens)).
Proof.
  intros Hids Hr HE. apply exchange_ok in HE as [_ HE].
  destruct (HE tokens eq_refl) as (code & cl & w1 & Hc & Hd & Ht & Hcl & Hsec & Hcid & Hred & Hp & Hs).
  destruct (reachable_codes s Hr _ _ Hc) as [(id & cl' & Hcl' & Hid & Hin & Hne & Hpub) Hv].
  assert (id = tq_client q) as -> by (rewrite <- (Hids _ _ Hcl'); congruence).
  assert (cl' = cl) as -> by congruence.
  exists code, cl, w1. split_and!; try done; [auto|by rewrite <- Hred].
Qed.
End Proofs.

(** The registry that [ParseClients] builds names every client by its key. *)
Lemma ParseClients_ids entries : forall acc m,
  (forall id c, acc !! id = Some c -> cn_id c = id) ->
  ParseClients entries acc = Ok m -> forall id c, m !! id = Some c -> cn_id c = id.
Proof.
  induction entries as [|raw t IH]; intros acc m Hacc H; cbn in H; [by injection H as <-|].
  destruct (parse_client raw) as [cl|e]; [|done]. cbn in H. eapply IH; [|exact H].
  intros id c [[<- <-]|[_ ?]]%lookup_insert_Some; auto.
Qed.

(** ** A concrete provider: one public client, a clock for a world *)
Definition lab_cfg : Config :=
  withDefaults (mkConfig "https://ca.example" "" 0 0 true 0).
Definition lab_clients : gmap string Client :=
  match ParseClients ["web||https://app/cb"%string] ∅ with Ok m => m | Err _ => ∅ end.
Definition lab_rand : M Z (res goerr string) := mret (Ok "code1"%string).
Definition lab_sign (m : jmap) : M Z (res goerr string) :=
  mret (Ok (match m !! "sub"%string with Some (JStr s) => "jwt:" ++ s | _ => "jwt" end)%string).
Definition lab_s256 (s : string) : string := "h(" ++ s ++ ")".
Definition lab_query (u : string) (q : list (string * string)) : option string :=
  Some (u ++ "?" ++ concat_with "&" (map (fun p => fst p ++ "=" ++ snd p) q))%string.
Definition lab_authorize : AuthorizeRequest :=
  mkAuthorize "web" "https://app/cb" "code" "xyz" "nn" "h(secret)" "S256".
Definition lab_token : TokenRequest :=
  mkTokenRequest "authorization_code" "code1" "https://app/cb" "web" "" "secret".
Definition lab_p0 : @pstate Z (gmap string Challenge) := mkPState 50 lab_store ∅.
Definition lab_complete := CompleteAuthorization lab_verifier id lab_rand lab_query lab_cfg lab_clients
  lab_authorize "c1" "sig:n0nce" lab_p0.
Definition lab_p1 : @pstate Z (gmap string Challenge) :=
  match lab_complete with Done (s, _) => s | Panic => lab_p0 end.
Definition lab_exchange := Exchange id lab_sign lab_s256 lab_cfg lab_clients lab_token lab_p1.
Definition lab_p2 : @pstate Z (gmap string Challenge) :=
  match lab_exchange with Done (s, _) => s | Panic => lab_p1 end.
Definition lab_tokens : TokenResponse := mkTokens "jwt:900101300123" "jwt:900101300123" "Bearer" 3600.

Lemma code_exchange_sound_witness :
  lab_exchange = Done (lab_p2, Ok lab_tokens) /\
  exists code, p_codes lab_p1 !! "code1"%string = Some code /\
    p_codes lab_p2 = delete "code1"%string (p_codes lab_p1) /\ ac_client code = "web"%string.
Proof.
  assert (lab_exchange = Done (lab_p2, Ok lab_tokens)) as E by (vm_compute; reflexivity).
  split; [exact E|].
  destruct (code_exchange_sound lab_verifier id lab_rand lab_sign lab_s256 lab_query lab_cfg
              lab_clients lab_token lab_p1 lab_p2 lab_tokens)
    as (code & cl & w1 & Hc & Hd & _ & _ & _ & _ & Hid & _); [..|exact E|].
  - apply (ParseClients_ids ["web||https://app/cb"%string] ∅); [by intros id c Hc|].
    vm_compute. reflexivity.
  - exists 50, lab_store. apply rtc_once.
    apply (StepComplete _ _ _ _ _ _ _ _ lab_authorize "c1" "sig:n0nce" lab_p0 lab_p1
             (Ok "https://app/cb?code=code1&state=xyz"%string)).
    vm_compute. reflexivity.
  - exists code. done.
Defined.
End Oidc.
