(* ===== verification/Qr.v ===== *)
(** * QR signing sessions (internal/qr: contract.go, orchestrator.go, profile.go,
    agnostic.go, egov.go, relay.go, store.go)

    A consumer opens a session, the app fetches what to sign and posts the
    signature (or an upstream gateway is polled for it), the signature is
    verified and the session ends verified, failed or expired. The flow is
    written over the store's class; its atomic sections are then interleaved as
    a step system (QrRuns). The QR image, the JSON decoder and the HTTP client are
    parameters. *)
From S2P Require Import Prelude Errors Provider CoreTypes CertParse Batch Challenge Oidc.

Module Qr.
Notation TokenResponse := Oidc.Oidc.TokenResponse.

(** ** contract.go and errors.go *)
Definition ModeSign : string := "sign".
Definition ModeAuth : string := "auth".
Definition mode_valid (m : string) : bool := str_eqb m ModeSign || str_eqb m ModeAuth.
Definition ProfileAgnostic : string := "agnostic".
Definition ProfileEGov : string := "egov".
Definition ProfileRelay : string := "relay".

Inductive Status := StatusPending | StatusVerified | StatusFailed | StatusExpired.
Global Instance Status_eq_dec : EqDecision Status.
Proof. solve_decision. Defined.
(** [Status.Terminal]. *)
Definition Terminal (s : Status) : bool := negb (bool_decide (s = StatusPending)).

Definition ErrSessionNotFound := Sent "qr.ErrSessionNotFound" "qr: session not found".
Definition ErrSessionUsed := Sent "qr.ErrSessionUsed" "qr: session signature already submitted".
Definition ErrSessionExpired := Sent "qr.ErrSessionExpired" "qr: session expired".
Definition ErrRejected := Sent "qr.ErrSignatureRejected" "qr: signature invalid or no signer".
Definition ErrRevoked := Sent "qr.ErrCertRevoked" "qr: signer certificate revoked".
Definition ErrUnsupportedProfile := Sent "qr.ErrUnsupportedProfile" "qr: unsupported profile".
Definition ErrUnsupportedMode := Sent "qr.ErrUnsupportedMode" "qr: unsupported mode".
Definition ErrAuthUnavailable :=
  Sent "qr.ErrAuthUnavailable" "qr: auth mode requires the OIDC token issuer".
Definition ErrNoData := Sent "qr.ErrNoData" "qr: no data to sign".
Definition ErrAppOnly := Sent "qr.ErrAppOnly" "qr: endpoint not served for this profile".

Record Document := mkDocument {
  do_ru : string; do_kz : string; do_en : string; do_data : string; do_mime : string;
}.
Record CreateRequest := mkCreate {
  cr_mode : string; cr_profile : string; cr_sign_method : string; cr_format : option SignatureFormat;
  cr_detached : bool; cr_data : string; cr_documents : list Document; cr_description : string;
  cr_client : string; cr_state : string; cr_nonce : string; cr_callback : string; cr_ttl : Z;
}.
Record CreateResponse := mkCreated {
  cd_id : string; cd_status : Status; cd_qr : string; cd_payload : string; cd_mobile : string;
  cd_business : string; cd_data_url : string; cd_sign_url : string; cd_expires_in : Z; cd_state : string;
}.

(** The result a session stores as JSON: the tokens, or [SignResult]. *)
Inductive QrResult :=
| ResTokens (t : TokenResponse)
| ResSign (signature : string) (valid : bool) (signers : list Signer) (claims : Claims).

Record Session := mkSession {
  qs_id : string; qs_mode : string; qs_profile : string; qs_sign_method : string;
  qs_format : SignatureFormat; qs_detached : bool; qs_data : string; qs_documents : list Document;
  qs_description : string; qs_client : string; qs_nonce : string; qs_state : string;
  qs_callback : string; qs_relay_id : string; qs_relay_url : string; qs_status : Status;
  qs_result : option QrResult; qs_error : option BatchItemError; qs_created : time; qs_expires : time;
  qs_used : bool;
}.
Global Instance Document_eq_dec : EqDecision Document.
Proof. solve_decision. Defined.
Global Instance TokenResponse_eq_dec : EqDecision TokenResponse.
Proof. solve_decision. Defined.
Global Instance BatchItemError_eq_dec : EqDecision BatchItemError.
Proof. solve_decision. Defined.
Global Instance QrResult_eq_dec : EqDecision QrResult.
Proof. solve_decision. Defined.
Global Instance Session_eq_dec : EqDecision Session.
Proof. intros x y. unfold Decision. decide equality; solve_decision. Defined.
(** The copies the flow makes of a session. *)
Definition set_state (s : Session) (st : Status) (r : option QrResult) (e : option BatchItemError)
    (used : bool) : Session :=
  mkSession (qs_id s) (qs_mode s) (qs_profile s) (qs_sign_method s) (qs_format s) (qs_detached s)
    (qs_data s) (qs_documents s) (qs_description s) (qs_client s) (qs_nonce s) (qs_state s)
    (qs_callback s) (qs_relay_id s) (qs_relay_url s) st r e (qs_created s) (qs_expires s) used.
Definition set_relay (s : Session) (id url : string) : Session :=
  mkSession (qs_id s) (qs_mode s) (qs_profile s) (qs_sign_method s) (qs_format s) (qs_detached s)
    (qs_data s) (qs_documents s) (qs_description s) (qs_client s) (qs_nonce s) (qs_state s)
    (qs_callback s) id url (qs_status s) (qs_result s) (qs_error s) (qs_created s) (qs_expires s) (qs_used s).
Definition mark_used (s : Session) : Session := set_state s (qs_status s) (qs_result s) (qs_error s) true.
Definition expired (s : Session) : Session := set_state s StatusExpired (qs_result s) (qs_error s) (qs_used s).
Definition verified (s : Session) (r : QrResult) : Session :=
  set_state s StatusVerified (Some r) (qs_error s) (qs_used s).

(** [View] and [view]. *)
Record View := mkView {
  vw_id : string; vw_mode : string; vw_profile : string; vw_status : Status; vw_expires : time;
  vw_result : option QrResult; vw_error : option BatchItemError;
}.
Definition view (s : Session) : View :=
  mkView (qs_id s) (qs_mode s) (qs_profile s) (qs_status s) (qs_expires s) (qs_result s) (qs_error s).

(** [explainError]. *)
Definition explainError (e : goerr) : BatchItemError :=
  mkItemError (if existsb (errors_is e) [ErrRejected; ErrRevoked; ErrSessionExpired; ErrSessionUsed; ErrNoData]
               then "invalid" else "internal") "" (err_text e) "".
Definition failed (s : Session) (e : goerr) : Session :=
  set_state s StatusFailed (qs_result s) (Some (explainError e)) (qs_used s).

(** [looksPEM]. *)
Definition looksPEM (b : string) : bool := has_prefix "-----BEGIN" (trim_space b).

(** [trimSlash]. *)
Fixpoint trimSlash (s : string) : string :=
  match s with
  | EmptyString => EmptyString
  | String c t => match trimSlash t with
                  | EmptyString => if Ascii.eqb c "/" then EmptyString else String c EmptyString
                  | t' => String c t'
                  end
  end.

(** ** store.go *)
Class SessionStore (St : Type) := {
  ss_create : Session -> St -> St * option goerr;
  ss_get : string -> St -> res goerr Session;
  ss_consume : string -> St -> St * res goerr Session;
  ss_save : Session -> St -> St * option goerr;
  ss_reap : time -> St -> St * res goerr Z;
  ss_len : St -> Z;
}.
(** What the flow relies on. *)
Class SessionStoreLaws (St : Type) `{SessionStore St} := {
  ss_view : St -> gmap string Session;
  ss_create_ok : forall s st st', ss_create s st = (st', None) -> ss_view st' = <[qs_id s := s]> (ss_view st);
  ss_create_err : forall s st st' e, ss_create s st = (st', Some e) -> ss_view st' = ss_view st;
  ss_get_ok : forall id st s, ss_get id st = Ok s -> ss_view st !! id = Some s;
  ss_consume_ok : forall id st st' s, ss_consume id st = (st', Ok s) ->
    exists s0, ss_view st !! id = Some s0 /\ qs_used s0 = false /\ s = mark_used s0 /\
      ss_view st' = <[id := s]> (ss_view st);
  ss_consume_err : forall id st st' e, ss_consume id st = (st', Err e) -> ss_view st' = ss_view st;
  ss_save_ok : forall s st st', ss_save s st = (st', None) -> ss_view st' = <[qs_id s := s]> (ss_view st);
  ss_save_err : forall s st st' e, ss_save s st = (st', Some e) -> ss_view st' = ss_view st;
}.

(** [MemStore]. *)
Definition mem_put (s : Session) (m : gmap string Session) : gmap string Session * option goerr :=
  (<[qs_id s := s]> m, None).
Definition mem_get (id : string) (m : gmap string Session) : res goerr Session :=
  match m !! id with Some s => Ok s | None => Err ErrSessionNotFound end.
Definition mem_consume (id : string) (m : gmap string Session) : gmap string Session * res goerr Session :=
  match m !! id with
  | None => (m, Err ErrSessionNotFound)
  | Some s => if qs_used s then (m, Err ErrSessionUsed) else (<[id := mark_used s]> m, Ok (mark_used s))
  end.
Definition mem_reap (t : time) (m : gmap string Session) : gmap string Session * res goerr Z :=
  let kept := filter (fun p => after (qs_expires (snd p)) t = true) m in
  (kept, Ok (Z.of_nat (size m) - Z.of_nat (size kept))).
Global Instance MemStore : SessionStore (gmap string Session) := {|
  ss_create := mem_put; ss_get := mem_get; ss_consume := mem_consume; ss_save := mem_put;
  ss_reap := mem_reap; ss_len := fun m => Z.of_nat (size m);
|}.
Global Instance MemStoreLaws : SessionStoreLaws (gmap string Session).
Proof.
  refine {| ss_view := fun m => m |};
    cbn [ss_create ss_get ss_consume ss_save MemStore]; unfold mem_put, mem_get, mem_consume; intros;
    repeat match goal with
    | H : context [match ?m !! ?k with _ => _ end] |- _ => destruct (m !! k) eqn:?
    | H : context [if qs_used ?s then _ else _] |- _ => destruct (qs_used s) eqn:?
    end; simplify_eq; eauto.
Defined.

(** ** profile.go *)
Record PublicURLs := mkURLs { pu_data : string; pu_sign : string }.
Record Artifacts := mkArtifacts {
  ar_payload : string; ar_mobile : string; ar_business : string; ar_data_url : string; ar_sign_url : string;
}.
(** One item of [documentsToSign], and the bodies the app fetches. *)
Record egovDoc := mkEgovDoc {
  ed_id : Z; ed_ru : string; ed_kz : string; ed_en : string; ed_mime : string; ed_data : string;
}.
Inductive AppBody :=
| AgnosticBody (id data format : string) (detached : bool) (description : string)
| EGovBody (sign_method organization : string) (docs : list egovDoc).
(** [Profiler]: [Prepare] may stamp the session. *)
Record Profiler (W : Type) := mkProfiler {
  pr_self_hosted : bool;
  pr_prepare : Session -> PublicURLs -> M W (Session * res goerr Artifacts);
  pr_app_data : Session -> res goerr AppBody;
  pr_parse : Session -> string -> res goerr string;
  pr_poll : Session -> M W (string * bool * option goerr);
}.
Arguments mkProfiler {W}. Arguments pr_self_hosted {W}. Arguments pr_prepare {W}.
Arguments pr_app_data {W}. Arguments pr_parse {W}. Arguments pr_poll {W}.

(** ** orchestrator.go *)
Record QrConfig := mkQrConfig {
  qc_profile : string; qc_mode : string; qc_ttl : duration; qc_reap : duration; qc_require_ocsp : bool;
}.
(** [Config.withDefaults]. *)
Definition withDefaults (c : QrConfig) : QrConfig :=
  let ttl := if qc_ttl c <=? 0 then 5 * minute else qc_ttl c in
  mkQrConfig (if empty_str (qc_profile c) then ProfileAgnostic else qc_profile c)
    (if empty_str (qc_mode c) then ModeSign else qc_mode c) ttl
    (if qc_reap c <=? 0 then (if minute <? ttl then minute else ttl) else qc_reap c) (qc_require_ocsp c).
Definition appPathPrefix : string := "/qr/a/".

Section Flow.
  Context {W St : Type} `{SessionStore St}.
  Variable v : verifier W.
  (** The token issuer; [None] disables auth mode. *)
  Variable issuer : option (Claims -> string -> string -> M W (res goerr TokenResponse)).
  Variable profiles : gmap string (Profiler W).
  Variable cfg : QrConfig.
  (** The delivery started in the background, when it is configured. *)
  Variable webhook : option (string -> View -> M W unit).
  Variable now : W -> time.
  Variable newID : M W (res goerr string).
  Variable rand_nonce : M W (res goerr string).
  Variable encodeQR : string -> res goerr string.

Definition clock : M (W * St) time := mget (fun w => now (fst w)).

(** [Create]: the session it stores, once the request is accepted. *)
Definition new_session (req : CreateRequest) (mode profile id : string) (t ttl : Z) : Session :=
  mkSession id mode profile (if empty_str (cr_sign_method req) then "CMS_SIGN_ONLY" else cr_sign_method req)
    (match cr_format req with Some f => f | None => FormatCMS end) (cr_detached req) "" (cr_documents req)
    (cr_description req) (cr_client req) (cr_nonce req) (cr_state req) (cr_callback req) "" "" StatusPending
    None None t (t + ttl) false.
Definition with_data (s : Session) (data : string) (detached : bool) (f : SignatureFormat) : Session :=
  mkSession (qs_id s) (qs_mode s) (qs_profile s) (qs_sign_method s) f detached data (qs_documents s)
    (qs_description s) (qs_client s) (qs_nonce s) (qs_state s) (qs_callback s) (qs_relay_id s)
    (qs_relay_url s) (qs_status s) (qs_result s) (qs_error s) (qs_created s) (qs_expires s) (qs_used s).
(** The data to sign: a fresh nonce for a login, the caller's otherwise. *)
Definition session_data (req : CreateRequest) (mode : string) (s : Session) : M W (res goerr Session) :=
  if str_eqb mode ModeAuth then
    (let* n := rand_nonce in
     mret (match n with Err e => Err e | Ok n => Ok (with_data s n true FormatCMS) end))%m
  else if empty_str (cr_data req) && bool_decide (qs_documents s = []) then mret (Err ErrNoData)
  else mret (Ok (with_data s (cr_data req) (qs_detached s) (qs_format s))).
Definition session_ttl (req : CreateRequest) : duration :=
  if 0 <? cr_ttl req then seconds (cr_ttl req) else qc_ttl cfg.

Definition Create (req : CreateRequest) (publicBase : string) : M (W * St) (res goerr CreateResponse) :=
  let mode := if empty_str (cr_mode req) then qc_mode cfg else cr_mode req in
  if negb (mode_valid mode) then mret (Err ErrUnsupportedMode)
  else if str_eqb mode ModeAuth && negb (bool_decide (is_Some issuer)) then mret (Err ErrAuthUnavailable)
  else
    let profile := if empty_str (cr_profile req) then qc_profile cfg else cr_profile req in
    match profiles !! profile with
    | None => mret (Err ErrUnsupportedProfile)
    | Some impl =>
        (let* id := in_world newID in
         match id with
         | Err e => mret (Err e)
         | Ok id =>
             let ttl := session_ttl req in
             let* t := clock in
             let* s := in_world (session_data req mode (new_session req mode profile id t ttl)) in
             match s with
             | Err e => mret (Err e)
             | Ok s =>
                 let url := if pr_self_hosted impl then (trimSlash publicBase ++ appPathPrefix ++ id)%string
                            else ""%string in
                 let* (s', art) := in_world (pr_prepare impl s (mkURLs url url)) in
                 match art with
                 | Err e => mret (Err e)
                 | Ok art =>
                     match encodeQR (ar_payload art) with
                     | Err e => mret (Err e)
                     | Ok qr =>
                         let* err := in_store (ss_create s') in
                         mret (match err with
                               | Some e => Err e
                               | None =>
                                   Ok (mkCreated id StatusPending qr (ar_payload art) (ar_mobile art)
                                         (ar_business art) (ar_data_url art) (ar_sign_url art)
                                         (Z.quot ttl second) (cr_state req))
                               end)
                     end
                 end
             end
         end)%m
    end.

(** [AppData]. *)
Definition AppData (id : string) : M (W * St) (res goerr AppBody) :=
  (let* got := mget (fun w => ss_get id (snd w)) in
   match got with
   | Err e => mret (Err e)
   | Ok s =>
       let* t := clock in
       mret (if negb (after (qs_expires s) t) then Err ErrSessionExpired
             else match profiles !! qs_profile s with
                  | None => Err ErrUnsupportedProfile
                  | Some impl => if negb (pr_self_hosted impl) then Err ErrAppOnly else pr_app_data impl s
                  end)
   end)%m.

(** [verify]: what is asked of the verifier, and the result it makes. *)
Definition verify_input (s : Session) (sig : string) : VerifyInput :=
  mkVerifyInput (qs_format s) sig (qs_data s) no_ref (qs_detached s) (looksPEM sig) true false true
    false false false [] None (MethodOther "") "" false.
Definition revocation_input (pem : string) : ValidateInput :=
  mkValidateInput pem EncodingPEM MethodOCSP time_zero true [] "" "".
Definition make_result (s : Session) (sig : string) (out : VerifyOutput) (c : Claims)
    : M W (res goerr QrResult) :=
  if str_eqb (qs_mode s) ModeAuth then
    match issuer with
    | None => mlift Panic
    | Some issue => (let* t := issue c (qs_client s) (qs_nonce s) in
                     mret (match t with Err e => Err e | Ok t => Ok (ResTokens t) end))%m
    end
  else mret (Ok (ResSign sig (vo_valid out) (vo_signers out) c)).
Definition verify (s : Session) (sig : string) : M W (res goerr QrResult) :=
  (let* (out, err) := vf_verify v (verify_input s sig) in
   match err, vo_signers out with
   | Some e, _ => mret (Err e)
   | None, [] => mret (Err ErrRejected)
   | None, signer :: _ =>
       if negb (vo_valid out) then mret (Err ErrRejected)
       else match sg_claims signer with
            | None => mret (Err ErrRejected)
            | Some c =>
                if empty_str (cl_sub c) then mret (Err ErrRejected)
                else if qc_require_ocsp cfg then
                  let* (vr, verr) := vf_validate v (revocation_input (c_pem (sg_certificate signer))) in
                  match verr with
                  | Some e => mret (Err e)
                  | None => if r_revoked (vao_status vr) then mret (Err ErrRevoked)
                            else make_result s sig out c
                  end
                else make_result s sig out c
            end
   end)%m.

(** [fireWebhook]. *)
Definition fireWebhook (s : Session) : M W unit :=
  match webhook with
  | Some deliver => if empty_str (qs_callback s) then mret tt else deliver (qs_callback s) (view s)
  | None => mret tt
  end.

(** [fail]: the failed session is saved, its error kept. *)
Definition fail (s : Session) (e : goerr) : M (W * St) (option goerr) :=
  (let* _ := in_store (ss_save (failed s e)) in
   let* _ := in_world (fireWebhook (failed s e)) in
   mret (Some e))%m.

(** [complete]. *)
Definition complete (s : Session) (sig : string) : M (W * St) (option goerr) :=
  (let* r := in_world (verify s sig) in
   match r with
   | Err e => fail s e
   | Ok r =>
       let* err := in_store (ss_save (verified s r)) in
       match err with
       | Some e => mret (Some e)
       | None => let* _ := in_world (fireWebhook (verified s r)) in mret None
       end
   end)%m.

(** [SubmitSignature]. *)
Definition SubmitSignature (id body : string) : M (W * St) (option goerr) :=
  (let* got := in_store (ss_consume id) in
   match got with
   | Err e => mret (Some e)
   | Ok s =>
       let* t := clock in
       if negb (after (qs_expires s) t) then mret (Some ErrSessionExpired)
       else match profiles !! qs_profile s with
            | None => mret (Some ErrUnsupportedProfile)
            | Some impl => match pr_parse impl s body with
                           | Err e => fail s e
                           | Ok sig => complete s sig
                           end
            end
   end)%m.

(** The session as it is stored now, if it still is. *)
Definition reread (id : string) : M (W * St) (option Session) := mget (fun w => res_value (ss_get id (snd w))).

(** [pollRelay]. *)
Definition pollRelay (s : Session) (impl : Profiler W) : M (W * St) (option Session) :=
  (let* (sig, done, err) := in_world (pr_poll impl s) in
   match err with
   | Some e => if errors_is e ErrRejected then let* _ := fail s e in reread (qs_id s) else mret None
   | None =>
       if negb done then mret None
       else
         let* got := in_store (ss_consume (qs_id s)) in
         match got with
         | Err _ => reread (qs_id s)
         | Ok consumed => let* _ := complete consumed sig in reread (qs_id s)
         end
   end)%m.

(** [Get]. *)
Definition Get (id : string) : M (W * St) (res goerr View) :=
  (let* got := mget (fun w => ss_get id (snd w)) in
   match got with
   | Err e => mret (Err e)
   | Ok s =>
       let* t := clock in
       if negb (Terminal (qs_status s)) && negb (after (qs_expires s) t) then
         let* _ := in_store (ss_save (expired s)) in mret (Ok (view (expired s)))
       else if negb (Terminal (qs_status s)) then
         match profiles !! qs_profile s with
         | Some impl =>
             if negb (pr_self_hosted impl) then
               let* updated := pollRelay s impl in
               mret (Ok (view (match updated with Some u => u | None => s end)))
             else mret (Ok (view s))
         | None => mret (Ok (view s))
         end
       else mret (Ok (view s))
   end)%m.

(** [ActiveSessions] and the sweep of [Start]. *)
Definition ActiveSessions : M (W * St) Z := mget (fun w => ss_len (snd w)).
Definition Sweep : M (W * St) (res goerr Z) :=
  (let* t := clock in in_store (ss_reap t))%m.
End Flow.

(** ** agnostic.go *)
Section Profiles.
  Context {W : Type}.
  (** [json.Unmarshal] of a posted body: its [signature]; its [documentsToSign],
      each with [signature] and [cms]; the gateway's answers. *)
  Variable decode_flat : string -> res goerr string.
  Variable decode_nested : string -> res goerr (list (string * string)).

Definition app_only : M W (string * bool * option goerr) := mret (""%string, false, Some ErrAppOnly).

Definition agnosticProfile : Profiler W :=
  mkProfiler true
    (fun s urls => mret (s, Ok (mkArtifacts (pu_data urls) "" "" (pu_data urls) (pu_sign urls))))
    (fun s => Ok (AgnosticBody (qs_id s) (qs_data s) (format_name (qs_format s)) (qs_detached s) (qs_description s)))
    (fun _ body => match decode_flat body with
                   | Err e => Err e
                   | Ok sig => if empty_str sig then Err ErrRejected else Ok sig
                   end)
    (fun _ => app_only).

(** ** egov.go *)
Record EGovConfig := mkEGov {
  eg_payload : string; eg_mobile : string; eg_business : string; eg_organization : string;
}.
(** [newEGovProfile]. *)
Definition egov_defaults (c : EGovConfig) : EGovConfig :=
  mkEGov (if empty_str (eg_payload c) then "{dataUrl}" else eg_payload c) (eg_mobile c) (eg_business c)
    (eg_organization c).

(** [strings.NewReplacer]: the first pair that matches at a position replaces,
    from left to right. *)
Fixpoint drop_prefix (p s : string) : option string :=
  match p, s with
  | EmptyString, _ => Some s
  | String a p', String b s' => if Ascii.eqb a b then drop_prefix p' s' else None
  | String _ _, EmptyString => None
  end.
Fixpoint first_match (pairs : list (string * string)) (s : string) : option (string * string) :=
  match pairs with
  | [] => None
  | (k, x) :: t => match drop_prefix k s with Some r => Some (x, r) | None => first_match t s end
  end.
Fixpoint replace_loop (fuel : nat) (pairs : list (string * string)) (s : string) : string :=
  match fuel, s with
  | O, _ | _, EmptyString => s
  | S f, String c t =>
      match first_match pairs s with
      | Some (x, r) => (x ++ replace_loop f pairs r)%string
      | None => String c (replace_loop f pairs t)
      end
  end.
Definition replace (pairs : list (string * string)) (s : string) : string :=
  replace_loop (String.length s) pairs s.

(** The documents of a session as [documentsToSign] items, numbered from 1. *)
Fixpoint number_docs (i : Z) (docs : list Document) : list egovDoc :=
  match docs with
  | [] => []
  | d :: t => mkEgovDoc i (do_ru d) (do_kz d) (do_en d) (do_mime d) (do_data d) :: number_docs (i + 1) t
  end.
Definition data_document (s : Session) : Document :=
  mkDocument (qs_description s) "" "" (qs_data s) "@file/octet-stream".

(** The first signature or CMS of the items. *)
Fixpoint first_signature (docs : list (string * string)) : option string :=
  match docs with
  | [] => None
  | (sig, cms) :: t => if negb (empty_str sig) then Some sig
                       else if negb (empty_str cms) then Some cms else first_signature t
  end.

Definition egov_prepare (c : EGovConfig) (s : Session) (urls : PublicURLs) : Artifacts :=
  let rep := replace [("{dataUrl}", pu_data urls); ("{signUrl}", pu_sign urls); ("{id}", qs_id s)]%string in
  mkArtifacts (rep (eg_payload c))
    (if empty_str (eg_mobile c) then "" else rep (eg_mobile c))
    (if empty_str (eg_business c) then "" else rep (eg_business c)) (pu_data urls) (pu_sign urls).
Definition egov_app_data (c : EGovConfig) (s : Session) : res goerr AppBody :=
  match qs_documents s with
  | [] => if empty_str (qs_data s) then Err ErrNoData
          else Ok (EGovBody (qs_sign_method s) (eg_organization c) (number_docs 1 [data_document s]))
  | docs => Ok (EGovBody (qs_sign_method s) (eg_organization c) (number_docs 1 docs))
  end.
Definition egov_parse (body : string) : res goerr string :=
  let nested := match decode_nested body with
                | Err e => Err e
                | Ok docs => match first_signature docs with Some sig => Ok sig | None => Err ErrRejected end
                end in
  match decode_flat body with
  | Ok sig => if empty_str sig then nested else Ok sig
  | Err _ => nested
  end.
Definition egovProfile (cfg : EGovConfig) : Profiler W :=
  let c := egov_defaults cfg in
  mkProfiler true (fun s urls => mret (s, Ok (egov_prepare c s urls))) (egov_app_data c)
    (fun _ => egov_parse) (fun _ => app_only).
End Profiles.

(** ** relay.go *)
Record RelayConfig := mkRelay { rl_base : string; rl_org : string }.
Record registerResp := mkRegister {
  rg_qr : string; rg_mobile : string; rg_business : string; rg_data_url : string; rg_sign_url : string;
}.
Inductive RelayPayload :=
| PayRegister (description : string)
| PayUpload (sign_method : string) (docs : list egovDoc).
(** What a request brings back: the status and the body, or a failure. *)
Definition response : Type := res goerr (Z * string).

(** [firstStr]. *)
Definition firstStr (l : list string) : string :=
  match find_first (fun x => negb (empty_str x)) l with Some x => x | None => "" end.
(** [egovDocsFor]. *)
Definition egovDocsFor (s : Session) : list egovDoc :=
  number_docs 1 (match qs_documents s with
                 | [] => if empty_str (qs_data s) then [] else [data_document s]
                 | docs => docs
                 end).

Section Relay.
  Context {W : Type}.
  Variable cfg : RelayConfig.
  (** The HTTP client, the path of a URL, and the decoders of the answers. *)
  Variable http_post : string -> RelayPayload -> M W response.
  Variable http_get : string -> M W response.
  Variable url_path : string -> string.
  Variable decode_register : string -> res goerr registerResp.
  (** What decoding leaves in the record when its error is ignored. *)
  Variable decode_loose : string -> registerResp.
  Variable decode_poll : string -> res goerr (string * list (string * string * string)).

(** [do]. *)
Definition do_response (url : string) (r : response) : res goerr string :=
  match r with
  | Err e => Err e
  | Ok (status, body) =>
      if (status <? 200) || (300 <=? status)
      then Err (New ("gateway " ++ url_path url ++ ": status " ++ dec_of_Z status))
      else Ok (limit_reader (2 ^ 23) body)
  end.
Definition postJSON (url : string) (p : RelayPayload) : M W (res goerr string) :=
  (let* r := http_post url p in mret (do_response url r))%m.
Definition get (url : string) : M W (res goerr string) :=
  (let* r := http_get url in mret (do_response url r))%m.

(** [newRelayProfile] trims the base; [registerPath]. *)
Definition registerPath : string :=
  let base := trimSlash (rl_base cfg) in
  if empty_str (rl_org cfg) then (base ++ "/api/egovQr")%string
  else (base ++ "/api/" ++ rl_org cfg ++ "/egovQr")%string.

Definition relay_prepare (s : Session) (urls : PublicURLs) : M W (Session * res goerr Artifacts) :=
  (let* reg := postJSON registerPath (PayRegister (qs_description s)) in
   match reg with
   | Err e => mret (s, Err (Wrap "qr relay: register: " e))
   | Ok reg =>
       match decode_register reg with
       | Err e => mret (s, Err (Wrap "qr relay: decode register: " e))
       | Ok r =>
           if empty_str (rg_data_url r) then mret (s, Err (New "qr relay: gateway returned no dataURL"))
           else
             let* up := postJSON (rg_data_url r) (PayUpload (qs_sign_method s) (egovDocsFor s)) in
             match up with
             | Err e => mret (s, Err (Wrap "qr relay: upload: " e))
             | Ok up =>
                 let sign := firstStr [rg_sign_url (decode_loose up); rg_sign_url r] in
                 mret (set_relay s (rg_qr r) sign,
                       Ok (mkArtifacts (rg_qr r) (rg_mobile r) (rg_business r) (rg_data_url r) sign))
             end
       end
   end)%m.

(** The first item that carries a signature. *)
Fixpoint poll_signature (docs : list (string * string * string)) : option string :=
  match docs with
  | [] => None
  | (sig, cms, data) :: t =>
      if negb (empty_str sig) then Some sig else if negb (empty_str cms) then Some cms
      else if negb (empty_str data) then Some data else poll_signature t
  end.
Definition equal_fold (a b : string) : bool := str_eqb (to_lower a) (to_lower b).
Definition relay_poll (s : Session) : M W (string * bool * option goerr) :=
  if empty_str (qs_relay_url s) then mret (""%string, false, Some (New "qr relay: no upstream signURL"))
  else
    (let* body := get (qs_relay_url s) in
     mret (match body with
           | Err e => (""%string, false, Some e)
           | Ok body =>
               match decode_poll body with
               | Err e => (""%string, false, Some (Wrap "qr relay: decode poll: " e))
               | Ok (status, docs) =>
                   match poll_signature docs with
                   | Some sig => (sig, true, None)
                   | None => if equal_fold status "CANCELED" || equal_fold status "EXPIRED"
                             then (""%string, true, Some ErrRejected) else (""%string, false, None)
                   end
               end
           end))%m.
Definition relayProfile : Profiler W :=
  mkProfiler false relay_prepare (fun _ => Err ErrAppOnly) (fun _ _ => Err ErrAppOnly) relay_poll.
End Relay.
End Qr.
