(* ===== verification/QrRuns.v ===== *)
(** * Interleaved QR sessions

    The flow of Qr cut at the store: each call is a sequence of atomic sections
    with a private snapshot of the session between them, and the sections of
    any number of calls interleave. Every call of the flow is such a sequence
    ([calls_are_runs]). *)
From S2P Require Import Prelude Errors Provider CoreTypes Batch Challenge Oidc Qr.

Module QrRuns.
Import Qr.Qr.

(** What a call in flight holds: a consumed session and the expiry still to be
    checked; a consumed session and its signature; a session about to be
    saved; a snapshot just read; a snapshot to poll the gateway for. *)
Inductive flight :=
| FSubmit (s : Session)
| FPolled (s : Session) (sig : string)
| FSave (s : Session)
| FRead (s : Session)
| FPoll (s : Session).
Definition flight_session (f : flight) : Session :=
  match f with FSubmit s | FPolled s _ | FSave s | FRead s | FPoll s => s end.

(** What an observer sees: a verification that succeeded (its tokens are
    issued) and a terminal session saved and announced. *)
Inductive event := EvVerified (id : string) | EvSaved (id : string) (st : Status).
Global Instance event_eq_dec : EqDecision event.
Proof. solve_decision. Defined.

Record state := mkState {
  q_store : gmap string Session; q_flights : list flight; q_now : time; q_log : list event;
  q_created : gmap string Session;
}.
Definition init : state := mkState ∅ [] 0 [] ∅.

Section Runs.
  Context {W : Type}.
  Variable v : verifier W.
  Variable issuer : option (Claims -> string -> string -> M W (res goerr TokenResponse)).
  Variable profiles : gmap string (Profiler W).
  Variable cfg : QrConfig.
Notation verify := (verify v issuer cfg).

Inductive action :=
| ACreate (s : Session)
| AConsume (id : string)
| ASubmit (n : nat) (body : string) (w : W)
| APolled (n : nat) (w : W)
| ASave (n : nat)
| ARead (id : string)
| AGet (n : nat)
| APoll (n : nat) (w : W)
| ADrop (n : nat)
| AReap
| ATick (d : Z).

Definition take_flight (n : nat) (l : list flight) : option (flight * list flight) :=
  match l !! n with Some f => Some (f, take n l ++ drop (S n) l) | None => None end.
Definition with_store (st : state) (m : gmap string Session) (fl : list flight) (ev : list event) : state :=
  mkState m fl (q_now st) (q_log st ++ ev) (q_created st).

(** The verification of a consumed session. *)
Definition verify_section (st : state) (rest : list flight) (s : Session) (sig : string) (w : W) : state :=
  match verify s sig w with
  | Done (_, Ok r) => with_store st (q_store st) (FSave (verified s r) :: rest) [EvVerified (qs_id s)]
  | Done (_, Err e) => with_store st (q_store st) (FSave (failed s e) :: rest) []
  | Panic => with_store st (q_store st) rest []
  end.

Definition apply (a : action) (st : state) : option state :=
  match a with
  | ACreate s =>
      if bool_decide (q_created st !! qs_id s = None) && negb (qs_used s)
         && bool_decide (qs_status s = StatusPending) && bool_decide (qs_result s = None)
         && bool_decide (qs_error s = None)
      then Some (mkState (fst (mem_put s (q_store st))) (q_flights st) (q_now st) (q_log st)
                   (<[qs_id s := s]> (q_created st)))
      else None
  | AConsume id =>
      let '(m, r) := mem_consume id (q_store st) in
      match r with
      | Ok s => Some (with_store st m (FSubmit s :: q_flights st) [])
      | Err _ => Some st
      end
  | ASubmit n body w =>
      match take_flight n (q_flights st) with
      | Some (FSubmit s, rest) =>
          Some (if negb (after (qs_expires s) (q_now st)) then with_store st (q_store st) rest []
                else match profiles !! qs_profile s with
                     | None => with_store st (q_store st) rest []
                     | Some impl =>
                         match pr_parse impl s body with
                         | Err e => with_store st (q_store st) (FSave (failed s e) :: rest) []
                         | Ok sig => verify_section st rest s sig w
                         end
                     end)
      | _ => None
      end
  | APolled n w =>
      match take_flight n (q_flights st) with
      | Some (FPolled s sig, rest) => Some (verify_section st rest s sig w)
      | _ => None
      end
  | ASave n =>
      match take_flight n (q_flights st) with
      | Some (FSave s, rest) =>
          Some (with_store st (fst (mem_put s (q_store st))) rest [EvSaved (qs_id s) (qs_status s)])
      | _ => None
      end
  | ARead id =>
      match mem_get id (q_store st) with
      | Ok s => Some (with_store st (q_store st) (FRead s :: q_flights st) [])
      | Err _ => Some st
      end
  | AGet n =>
      match take_flight n (q_flights st) with
      | Some (FRead s, rest) =>
          Some (if negb (Terminal (qs_status s)) && negb (after (qs_expires s) (q_now st)) then
                  with_store st (fst (mem_put (expired s) (q_store st))) rest []
                else if negb (Terminal (qs_status s)) then
                  match profiles !! qs_profile s with
                  | Some impl => if negb (pr_self_hosted impl)
                                 then with_store st (q_store st) (FPoll s :: rest) []
                                 else with_store st (q_store st) rest []
                  | None => with_store st (q_store st) rest []
                  end
                else with_store st (q_store st) rest [])
      | _ => None
      end
  | APoll n w =>
      match take_flight n (q_flights st) with
      | Some (FPoll s, rest) =>
          match profiles !! qs_profile s with
          | None => None
          | Some impl =>
              match pr_poll impl s w with
              | Panic => Some (with_store st (q_store st) rest [])
              | Done (_, (sig, done, Some e)) =>
                  Some (if errors_is e ErrRejected
                        then with_store st (q_store st) (FSave (failed s e) :: rest) []
                        else with_store st (q_store st) rest [])
              | Done (_, (sig, done, None)) =>
                  if negb done then Some (with_store st (q_store st) rest [])
                  else
                    let '(m, r) := mem_consume (qs_id s) (q_store st) in
                    match r with
                    | Ok c => Some (with_store st m (FPolled c sig :: rest) [])
                    | Err _ => Some (with_store st (q_store st) rest [])
                    end
              end
          end
      | _ => None
      end
  | ADrop n =>
      match take_flight n (q_flights st) with
      | Some (_, rest) => Some (with_store st (q_store st) rest [])
      | None => None
      end
  | AReap => Some (with_store st (fst (mem_reap (q_now st) (q_store st))) (q_flights st) [])
  | ATick d => if 0 <=? d then Some (mkState (q_store st) (q_flights st) (q_now st + d) (q_log st) (q_created st))
               else None
  end.

Fixpoint run (acts : list action) (st : state) : option state :=
  match acts with
  | [] => Some st
  | a :: t => match apply a st with Some st' => run t st' | None => None end
  end.
Definition reachable (st : state) : Prop := exists acts, run acts init = Some st.

(** ** What holds of every session, stored or in flight *)
(** The session as it was created. *)
Definition frozen (s : Session) : Session := set_state s StatusPending None None false.
Definition backed (s : Session) : Prop :=
  qs_used s = true /\ exists sig r w w', qs_result s = Some r /\ verify (frozen s) sig w = Done (w', Ok r).
Definition session_inv (created : gmap string Session) (s : Session) : Prop :=
  created !! qs_id s = Some (frozen s) /\ (qs_status s = StatusVerified -> backed s).
Definition flight_inv (created : gmap string Session) (f : flight) : Prop :=
  session_inv created (flight_session f) /\
  match f with FSubmit s | FPolled s _ => qs_used s = true | _ => True end.
Definition store_inv (created m : gmap string Session) : Prop :=
  map_Forall (fun id s => qs_id s = id /\ session_inv created s) m.
Definition inv (st : state) : Prop :=
  store_inv (q_created st) (q_store st) /\ Forall (flight_inv (q_created st)) (q_flights st).

Lemma take_flight_perm n l f rest : take_flight n l = Some (f, rest) -> l ≡ₚ f :: rest.
Proof.
  unfold take_flight. destruct (l !! n) as [x|] eqn:E; [|done]. intros [= -> <-].
  rewrite <- (take_drop_middle l n f E) at 1. by rewrite Permutation_middle.
Qed.

Lemma frozen_set s st r e u : frozen (set_state s st r e u) = frozen s.
Proof. done. Qed.

Lemma session_inv_set created s st r e u :
  session_inv created s -> st <> StatusVerified -> session_inv created (set_state s st r e u).
Proof. intros [H _] Hn. split; [exact H|]. cbn. congruence. Qed.

Lemma session_inv_used created s : session_inv created s -> session_inv created (mark_used s).
Proof. intros [H Hb]. split; [exact H|]. intros Hs. destruct (Hb Hs) as (_ & B). by split. Qed.

Lemma store_inv_put created m s :
  store_inv created m -> session_inv created s -> store_inv created (fst (mem_put s m)).
Proof. intros Hm Hs. apply map_Forall_insert_2; [by split|done]. Qed.

Lemma consume_inv created m id m' s :
  store_inv created m -> mem_consume id m = (m', Ok s) ->
  store_inv created m' /\ session_inv created s /\ qs_used s = true /\ qs_id s = id.
Proof.
  intros Hm E. destruct (@ss_consume_ok _ MemStore MemStoreLaws id m m' s E) as (s0 & Hs0 & _ & -> & Hv). cbn in Hs0, Hv. subst m'.
  destruct (Hm _ _ Hs0) as [Hid Hs]. pose proof (session_inv_used _ _ Hs) as Hu.
  split_and!; [|done|done|done]. apply map_Forall_insert_2; [by split|done].
Qed.

Lemma verify_section_inv st rest s sig w :
  store_inv (q_created st) (q_store st) -> Forall (flight_inv (q_created st)) rest ->
  session_inv (q_created st) s -> qs_used s = true -> inv (verify_section st rest s sig w).
Proof.
  intros Hm Hr Hs Hu. unfold verify_section. destruct (verify s sig w) as [[w' [r|e]]|] eqn:E; split; try done;
    cbn [with_store q_flights q_created]; (apply Forall_cons; split; [|done]); split; try done.
  - split; [apply Hs|]. intros _. split; [done|]. by exists sig, r, w, w'.
  - by apply session_inv_set.
Qed.

Lemma apply_inv a st st' : inv st -> apply a st = Some st' -> inv st'.
Proof.
  intros [Hm Hf] Ha.
  assert (T : forall n f rest, take_flight n (q_flights st) = Some (f, rest) ->
    flight_inv (q_created st) f /\ Forall (flight_inv (q_created st)) rest).
  { intros n f rest E%take_flight_perm. rewrite E in Hf. by inversion Hf. }
  destruct a as [s|id|n body w|n w|n|id|n|n w|n| |d]; cbn [apply] in Ha.
  - destruct (_ && _) eqn:E in Ha; [|done]. injection Ha as <-. boolp.
    assert (Es : frozen s = s) by (destruct s; cbn in *; by subst).
    assert (M : forall x, session_inv (q_created st) x -> session_inv (<[qs_id s := s]> (q_created st)) x).
    { intros x [Hx Hb]. split; [|done]. rewrite lookup_insert_ne; [done|]. congruence. }
    split; cbn [q_store q_flights q_created].
    + apply store_inv_put.
      * eapply map_Forall_impl; [exact Hm|]. intros ? ? [? ?]. split; [done|by apply M].
      * split; [by rewrite lookup_insert_eq, Es|]. congruence.
    + eapply Forall_impl; [exact Hf|]. intros f [? ?]. split; [by apply M|done].
  - destruct (mem_consume id (q_store st)) as [m [s|e]] eqn:E; injection Ha as <-; [|by split].
    destruct (consume_inv _ _ _ _ _ Hm E) as (Hm' & Hs & Hu & _). split; [done|]. by apply Forall_cons.
  - destruct (take_flight n _) as [[[s| | | |] rest]|] eqn:E; try done. injection Ha as <-.
    destruct (T _ _ _ E) as [[Hs Hu] Hr]. destruct (negb _); [by split|].
    destruct (profiles !! _) as [impl|]; [|by split].
    destruct (pr_parse impl s body) as [sig|e]; [by apply verify_section_inv|].
    split; [done|]. apply Forall_cons. split; [|done]. split; [by apply session_inv_set|done].
  - destruct (take_flight n _) as [[[|s sig| | |] rest]|] eqn:E; try done. injection Ha as <-.
    destruct (T _ _ _ E) as [[Hs Hu] Hr]. by apply verify_section_inv.
  - destruct (take_flight n _) as [[[| |s| |] rest]|] eqn:E; try done. injection Ha as <-.
    destruct (T _ _ _ E) as [[Hs _] Hr]. split; [by apply store_inv_put|done].
  - unfold mem_get in Ha. destruct (q_store st !! id) as [s|] eqn:E; injection Ha as <-; [|by split].
    split; [done|]. apply Forall_cons. split; [|done]. split; [apply (Hm _ _ E)|done].
  - destruct (take_flight n _) as [[[| | |s|] rest]|] eqn:E; try done. injection Ha as <-.
    destruct (T _ _ _ E) as [[Hs _] Hr]. destruct (negb (Terminal _) && _).
    { split; [|done]. apply (store_inv_put _ _ (expired s)); [done|by apply session_inv_set]. }
    destruct (negb (Terminal _)); [|by split]. destruct (profiles !! _) as [impl|]; [|by split].
    destruct (negb _); split; try done. by apply Forall_cons.
  - destruct (take_flight n _) as [[[| | | |s] rest]|] eqn:E; try done.
    destruct (T _ _ _ E) as [[Hs _] Hr]. destruct (profiles !! _) as [impl|]; [|done].
    destruct (pr_poll impl s w) as [[w' [[sig fin] [e|]]]|]; [|destruct (negb fin)|]; try (injection Ha as <-; by split).
    + injection Ha as <-. destruct (is_named _ e); [|by split]. split; [done|].
      apply Forall_cons. split; [|done]. split; [by apply session_inv_set|done].
    + destruct (mem_consume _ _) as [m [c|e]] eqn:Ec; injection Ha as <-; [|by split].
      destruct (consume_inv _ _ _ _ _ Hm Ec) as (Hm' & Hc & Hu & _). split; [done|]. by apply Forall_cons.
  - destruct (take_flight n _) as [[f rest]|] eqn:E; [|done]. injection Ha as <-.
    destruct (T _ _ _ E) as [_ Hr]. by split.
  - injection Ha as <-. split; [|done]. intros i x [E _]%map_lookup_filter_Some. by apply Hm.
  - destruct (0 <=? d); [|done]. injection Ha as <-. by split.
Qed.

Lemma run_inv (P : state -> Prop) acts st st' :
  (forall a s s', P s -> apply a s = Some s' -> P s') -> P st -> run acts st = Some st' -> P st'.
Proof.
  intros Hs. revert st. induction acts as [|a acts IH]; intros st HP; cbn; [by intros [= <-]|].
  destruct (apply a st) as [s1|] eqn:E; [|done]. apply IH. by eapply Hs.
Qed.

Lemma reachable_inv st : reachable st -> inv st.
Proof.
  intros [acts E]. eapply run_inv; [apply apply_inv| |exact E]. split; [apply map_Forall_empty|apply Forall_nil_2].
Qed.

(** What a successful verification rests on. *)
Definition accepted_by_verifier (c : Session) (sig : string) : Prop :=
  exists w w' out signer rest claims,
    vf_verify v (verify_input c sig) w = Done (w', (out, None)) /\ vo_valid out = true /\
    vo_signers out = signer :: rest /\ sg_claims signer = Some claims /\ cl_sub claims <> ""%string /\
    (qc_require_ocsp cfg = true -> exists w1 w2 vr,
       vf_validate v (revocation_input (c_pem (sg_certificate signer))) w1 = Done (w2, (vr, None)) /\
       r_revoked (vao_status vr) = false).

Lemma verify_accepted s sig w w' r : verify s sig w = Done (w', Ok r) -> accepted_by_verifier s sig.
Proof.
  unfold Qr.Qr.verify. intros (w1 & [out err] & Ev & H)%mbind_done.
  destruct err as [e|]; [by apply mret_done in H as [_ ?]|].
  destruct (vo_signers out) as [|signer rest] eqn:Es; [by apply mret_done in H as [_ ?]|].
  destruct (vo_valid out) eqn:Ea; cbn [negb] in H; [|by apply mret_done in H as [_ ?]].
  destruct (sg_claims signer) as [c|] eqn:Ec; [|by apply mret_done in H as [_ ?]].
  destruct (empty_str (cl_sub c)) eqn:Eb; [by apply mret_done in H as [_ ?]|].
  exists w, w1, out, signer, rest, c. split_and!; try done; [by apply String.eqb_neq|].
  intros Hr. rewrite Hr in H. apply mbind_done in H as (w2 & [vr verr] & E2 & H).
  destruct verr as [e|]; [by apply mret_done in H as [_ ?]|]. exists w1, w2, vr. split; [done|].
  destruct (r_revoked (vao_status vr)); [by apply mret_done in H as [_ ?]|done].
Qed.


(** ** Single use *)
Definition submit_of (id : string) (f : flight) : nat :=
  match f with FSubmit s => if bool_decide (qs_id s = id) then 1 else 0 | _ => 0 end.
Fixpoint submits (id : string) (l : list flight) : nat :=
  match l with [] => 0 | f :: t => submit_of id f + submits id t end.
Definition verifications (id : string) (l : list event) : nat :=
  length (filter (fun e => e = EvVerified id) l).
Definition self_hosted (c : Session) : Prop :=
  forall impl, profiles !! qs_profile c = Some impl -> pr_self_hosted impl = true.

(** What a flight of a self-hosted session may be. *)
Definition direct (id : string) (f : flight) : Prop :=
  qs_id (flight_session f) = id ->
  match f with FSave s => qs_used s = true | FPolled _ _ | FPoll _ => False | _ => True end.
Definition single (id : string) (st : state) : Prop :=
  match q_created st !! id with
  | None => verifications id (q_log st) = 0%nat
  | Some c =>
      self_hosted c ->
      (verifications id (q_log st) <= 1)%nat /\ Forall (direct id) (q_flights st) /\
      (q_now st < qs_expires c ->
       (submits id (q_flights st) + verifications id (q_log st) <= 1)%nat /\
       forall s, q_store st !! id = Some s -> qs_used s = false ->
         (submits id (q_flights st) + verifications id (q_log st) = 0)%nat)
  end.

Lemma submits_perm id l l' : l ≡ₚ l' -> submits id l = submits id l'.
Proof. induction 1; cbn; lia. Qed.

Lemma verifications_app id a b : verifications id (a ++ b) = (verifications id a + verifications id b)%nat.
Proof. unfold verifications. by rewrite filter_app, length_app. Qed.

(** The sections that keep the count: what they must not do to a self-hosted
    session. *)
Lemma single_weaken id st m l ev :
  single id st -> (verifications id ev = 0)%nat ->
  (forall c, q_created st !! id = Some c -> self_hosted c -> Forall (direct id) (q_flights st) ->
     Forall (direct id) l /\ (submits id l <= submits id (q_flights st))%nat /\
     (q_now st < qs_expires c -> forall s, m !! id = Some s -> qs_used s = false ->
        exists s0, q_store st !! id = Some s0 /\ qs_used s0 = false)) ->
  single id (with_store st m l ev).
Proof.
  unfold single. cbn [with_store q_created q_log q_flights q_now q_store]. intros H Hev Hd.
  rewrite verifications_app, Hev, Nat.add_0_r. destruct (q_created st !! id) as [c|]; [|done].
  intros Hs. destruct (H Hs) as (H1 & H2 & H3). destruct (Hd c eq_refl Hs H2) as (D1 & D2 & D3).
  split; [done|]. split; [done|]. intros Ht. destruct (H3 Ht) as [H4 H5]. split; [lia|].
  intros s Es Hu. destruct (D3 Ht s Es Hu) as (s0 & E0 & U0). specialize (H5 s0 E0 U0). lia.
Qed.

(** A flight taken out. *)
Lemma take_direct id n l f rest :
  take_flight n l = Some (f, rest) -> Forall (direct id) l -> direct id f /\ Forall (direct id) rest.
Proof. intros E%take_flight_perm H. rewrite E in H. by inversion H. Qed.

Lemma take_submits id n l f rest :
  take_flight n l = Some (f, rest) -> submits id l = (submit_of id f + submits id rest)%nat.
Proof. intros E%take_flight_perm. by rewrite (submits_perm id _ _ E). Qed.

(** A flight replaced by ones that are direct and submit nothing. *)
Lemma single_replace id st n f rest l m :
  single id st -> take_flight n (q_flights st) = Some (f, rest) ->
  (forall c, q_created st !! id = Some c -> self_hosted c -> direct id f ->
     Forall (direct id) l /\ submits id l = 0%nat /\
     (q_now st < qs_expires c -> forall s, m !! id = Some s -> qs_used s = false ->
        exists s0, q_store st !! id = Some s0 /\ qs_used s0 = false)) ->
  single id (with_store st m (l ++ rest) []).
Proof.
  intros H E Hd. apply single_weaken; [done|done|]. intros c Hc Hs Hf.
  destruct (take_direct id _ _ _ _ E Hf) as [Df Dr]. destruct (Hd c Hc Hs Df) as (L1 & L2 & L3).
  split_and!; [by apply Forall_app| |done]. rewrite (take_submits id _ _ _ _ E).
  assert (A : forall a b, submits id (a ++ b) = (submits id a + submits id b)%nat)
    by (intros a; induction a; intros; cbn; [done|]; rewrite IHa; lia).
  rewrite A. lia.
Qed.

Lemma single_drop id st n f rest :
  single id st -> take_flight n (q_flights st) = Some (f, rest) -> single id (with_store st (q_store st) rest []).
Proof. intros H E. apply (single_replace id st n f rest [] _ H E). intros. split_and!; eauto. Qed.

Lemma single_verify id st n f rest s sig w :
  inv st -> single id st -> take_flight n (q_flights st) = Some (f, rest) ->
  session_inv (q_created st) s -> qs_used s = true ->
  (f = FSubmit s /\ q_now st < qs_expires s) \/ f = FPolled s sig ->
  single id (verify_section st rest s sig w).
Proof.
  intros [Hm Hf] H E [Hc _] Hu Hfs. unfold verify_section.
  destruct (verify s sig w) as [[w' [r|e]]|] eqn:Ev.
  - destruct (decide (qs_id s = id)) as [Hid|Hid].
    + unfold single in *. cbn [with_store q_created q_log q_flights q_now q_store] in *.
      subst id. rewrite Hc in *. intros Hs. destruct (H Hs) as (H1 & H2 & H3).
      destruct (take_direct _ _ _ _ _ E H2) as [Df Dr].
      destruct Hfs as [[-> Ht]| ->]; [|by destruct (Df eq_refl)].
      cbn [frozen set_state qs_expires] in *. destruct (H3 Ht) as [H4 H5].
      rewrite (take_submits _ _ _ _ _ E) in H4, H5. cbn [submit_of submits] in *.
      rewrite bool_decide_eq_true_2 in H4, H5 by done. rewrite verifications_app.
      assert (V1 : verifications (qs_id s) [EvVerified (qs_id s)] = 1%nat)
        by (unfold verifications; rewrite filter_cons_True by done; done).
      rewrite V1. split_and!; [lia| |].
      * apply Forall_cons. split; [by intros _|done].
      * intros _. split; [lia|]. intros s0 E0 U0. specialize (H5 s0 E0 U0). lia.
    + apply single_weaken; [done| |].
      { unfold verifications. rewrite filter_cons_False by congruence. done. }
      intros c Hc' Hs Hd. destruct (take_direct id _ _ _ _ E Hd) as [_ Dr]. split_and!.
      * apply Forall_cons. split; [by intros Hx|done].
      * rewrite (take_submits id _ _ _ _ E). cbn. lia.
      * eauto.
  - apply (single_replace id st n f rest [FSave (failed s e)] _ H E). intros c Hc' Hs Hd.
    split_and!; [|done|eauto]. apply Forall_singleton. by intros _.
  - by eapply single_drop.
Qed.

Lemma single_create id st s :
  inv st -> single id st -> q_created st !! qs_id s = None ->
  single id (mkState (fst (mem_put s (q_store st))) (q_flights st) (q_now st) (q_log st)
               (<[qs_id s := s]> (q_created st))).
Proof.
  intros [Hm Hf] H Hn. unfold single in *. cbn [q_created q_log q_flights q_now q_store].
  destruct (decide (qs_id s = id)) as [<-|Hid].
  - rewrite lookup_insert_eq. rewrite Hn in H. intros _.
    assert (Hd : forall f, f ∈ q_flights st -> qs_id (flight_session f) <> qs_id s).
    { intros f Hin Heq. rewrite Forall_forall in Hf. destruct (Hf f Hin) as [[E _] _]. congruence. }
    assert (Hs : submits (qs_id s) (q_flights st) = 0%nat).
    { induction (q_flights st) as [|f l IH]; [done|]. cbn. rewrite IH by (intros; try apply Hd; set_solver || by inversion Hf).
      specialize (Hd f ltac:(set_solver)). destruct f; cbn in *; try done. by rewrite bool_decide_eq_false_2. }
    rewrite H, Hs. split_and!; [lia| |intros _; split; [lia|intros; lia]].
    apply Forall_forall. intros f Hin Heq. by destruct (Hd f Hin).
  - rewrite lookup_insert_ne by done. destruct (q_created st !! id) as [c|]; [|done].
    intros Hs. destruct (H Hs) as (H1 & H2 & H3). split_and!; [done|done|]. intros Ht.
    destruct (H3 Ht) as [H4 H5]. split; [done|]. intros x Ex. cbn in Ex.
    rewrite lookup_insert_ne in Ex by done. eauto.
Qed.

Lemma single_consume id st k m s :
  inv st -> single id st -> mem_consume k (q_store st) = (m, Ok s) ->
  single id (with_store st m (FSubmit s :: q_flights st) []).
Proof.
  intros [Hm Hf] H E. destruct (@ss_consume_ok _ MemStore MemStoreLaws k _ m s E) as (s0 & Hs0 & Hu0 & Hs & Hv).
  cbn in Hs0, Hv. destruct (Hm _ _ Hs0) as [Hk _]. assert (Hks : qs_id s = k) by by rewrite Hs.
  destruct (decide (k = id)) as [->|Hid].
  - unfold single in *. cbn [with_store q_created q_log q_flights q_now q_store].
    rewrite app_nil_r. destruct (q_created st !! id) as [c|]; [|done]. intros Hsf.
    destruct (H Hsf) as (H1 & H2 & H3). split; [done|]. split; [by apply Forall_cons|]. intros Ht.
    destruct (H3 Ht) as [H4 H5]. specialize (H5 s0 Hs0 Hu0). cbn [submits submit_of].
    rewrite bool_decide_eq_true_2 by done. split; [lia|]. intros x Ex Ux.
    rewrite Hv, lookup_insert_eq in Ex. injection Ex as <-. by rewrite Hs in Ux.
  - apply single_weaken; [done|done|]. intros c Hc Hsf Hd. split_and!; [by apply Forall_cons| |].
    + cbn. rewrite bool_decide_eq_false_2 by congruence. lia.
    + intros _ x Ex Ux. rewrite Hv, lookup_insert_ne in Ex by done. eauto.
Qed.

(** A session put back: not one that is unused, of a self-hosted session that
    has not expired. *)
Lemma single_put id st n f rest s :
  single id st -> take_flight n (q_flights st) = Some (f, rest) -> session_inv (q_created st) s ->
  (qs_id s = id -> direct id f -> qs_used s = false -> qs_expires s <= q_now st) ->
  forall ev, verifications id ev = 0%nat -> single id (with_store st (fst (mem_put s (q_store st))) rest ev).
Proof.
  intros H E [Hc _] Hp ev Hev. apply single_weaken; [done|done|]. intros c Hc' Hs Hd.
  destruct (take_direct id _ _ _ _ E Hd) as [Df Dr]. split_and!; [done| |].
  - rewrite (take_submits id _ _ _ _ E). lia.
  - intros Ht x Ex Ux. cbn in Ex. destruct (decide (qs_id s = id)) as [Hid|Hid].
    + subst id. rewrite lookup_insert_eq in Ex. injection Ex as <-. specialize (Hp eq_refl Df Ux).
      rewrite Hc in Hc'. injection Hc' as <-. cbn in Ht. lia.
    + rewrite lookup_insert_ne in Ex by done. eauto.
Qed.

(** A gateway poll is no step of a self-hosted session. *)
Lemma single_poll id st n s rest l m :
  inv st -> single id st -> take_flight n (q_flights st) = Some (FPoll s, rest) ->
  Forall (fun f => qs_id (flight_session f) = qs_id s) l -> submits id l = 0%nat ->
  (forall k, k <> qs_id s -> m !! k = q_store st !! k) ->
  single id (with_store st m (l ++ rest) []).
Proof.
  intros Hi H E Hl Hs Hm. apply (single_replace id st n (FPoll s) rest l m H E). intros c Hc Hsf Hd.
  destruct (decide (qs_id s = id)) as [Hid|Hid]; [by destruct (Hd Hid)|].
  split_and!; [|done|].
  - eapply Forall_impl; [exact Hl|]. intros f Hf Hx. congruence.
  - intros _ x Ex Ux. rewrite Hm in Ex by done. eauto.
Qed.

Lemma apply_single id a st st' : inv st -> single id st -> apply a st = Some st' -> single id st'.
Proof.
  intros Hi H Ha. pose proof Hi as [Hm Hf].
  assert (T : forall n f rest, take_flight n (q_flights st) = Some (f, rest) -> flight_inv (q_created st) f).
  { intros n f rest E%take_flight_perm. rewrite E in Hf. by inversion Hf. }
  destruct a as [s|k|n body w|n w|n|k|n|n w|n| |d]; cbn [apply] in Ha.
  - destruct (_ && _) eqn:E in Ha; [|done]. injection Ha as <-. boolp. by apply single_create.
  - destruct (mem_consume k (q_store st)) as [m [s|e]] eqn:E; injection Ha as <-; [by eapply single_consume|done].
  - destruct (take_flight n _) as [[[s| | | |] rest]|] eqn:E; try done. injection Ha as <-.
    destruct (T _ _ _ E) as [Hs Hu]. destruct (negb _) eqn:Ht; [by eapply single_drop|].
    destruct (profiles !! _) as [impl|]; [|by eapply single_drop].
    destruct (pr_parse impl s body) as [sig|e].
    + eapply single_verify; [done|done|exact E|done|done|]. left. split; [done|].
      apply negb_false_iff in Ht. unfold after in Ht. by apply Z.ltb_lt.
    + apply (single_replace id st n (FSubmit s) rest [FSave (failed s e)] _ H E). intros c Hc Hs' Hd.
      split_and!; [|done|eauto]. apply Forall_singleton. by intros _.
  - destruct (take_flight n _) as [[[|s sig| | |] rest]|] eqn:E; try done. injection Ha as <-.
    destruct (T _ _ _ E) as [Hs Hu]. eapply single_verify; [done|done|exact E|done|done|by right].
  - destruct (take_flight n _) as [[[| |s| |] rest]|] eqn:E; try done. injection Ha as <-.
    destruct (T _ _ _ E) as [Hs _]. eapply single_put; [done|exact E|exact Hs| |done].
    intros Hid Hd Hu. specialize (Hd Hid). cbn in Hd. congruence.
  - unfold mem_get in Ha. destruct (q_store st !! k) as [s|] eqn:E; injection Ha as <-; [|done].
    apply single_weaken; [done|done|]. intros c Hc Hs Hd. split_and!; [by apply Forall_cons|cbn; lia|eauto].
  - destruct (take_flight n _) as [[[| | |s|] rest]|] eqn:E; try done. injection Ha as <-.
    destruct (T _ _ _ E) as [Hs _]. destruct (negb (Terminal _) && _) eqn:Eb.
    { eapply (single_put id st n (FRead s) rest (expired s)); [done|exact E|by apply session_inv_set| |done].
      intros Hid _ _. boolp.
      cbn. unfold after in *. by apply Z.ltb_ge. }
    destruct (negb (Terminal _)); [|by eapply single_drop].
    destruct (profiles !! _) as [impl|] eqn:Ep; [|by eapply single_drop].
    destruct (negb (pr_self_hosted impl)) eqn:Es; [|by eapply single_drop].
    apply (single_replace id st n (FRead s) rest [FPoll s] _ H E). intros c Hc Hsf Hd.
    split_and!; [|done|eauto]. apply Forall_singleton. intros Hid. cbn in Hid. subst id.
    destruct Hs as [Hcr _]. cbn in Hcr. rewrite Hcr in Hc. injection Hc as <-. apply negb_true_iff in Es.
    rewrite (Hsf impl Ep) in Es. done.
  - destruct (take_flight n _) as [[[| | | |s] rest]|] eqn:E; try done.
    destruct (profiles !! _) as [impl|]; [|done].
    destruct (pr_poll impl s w) as [[w' [[sig fin] [e|]]]|]; [|destruct (negb fin)|];
      try (injection Ha as <-; by eapply single_drop).
    + injection Ha as <-. destruct (is_named _ e); [|by eapply single_drop].
      apply (single_poll id st n s rest [FSave (failed s e)]); try done. by apply Forall_singleton.
    + destruct (mem_consume _ _) as [m [c|e]] eqn:Ec; injection Ha as <-; [|by eapply single_drop].
      destruct (consume_inv _ _ _ _ _ Hm Ec) as (_ & _ & _ & Hid).
      apply (single_poll id st n s rest [FPolled c sig]); try done; [by apply Forall_singleton|].
      intros k Hk. destruct (@ss_consume_ok _ MemStore MemStoreLaws _ _ _ _ Ec) as (_ & _ & _ & _ & Hv).
      cbn in Hv. rewrite Hv. by apply lookup_insert_ne.
  - destruct (take_flight n _) as [[f rest]|] eqn:E; [|done]. injection Ha as <-. by eapply single_drop.
  - injection Ha as <-. apply single_weaken; [done|done|]. intros c Hc Hs Hd. split_and!; [done|done|].
    intros _ x [Ex _]%map_lookup_filter_Some Ux. eauto.
  - destruct (Z.leb_spec 0 d); [|done]. injection Ha as <-. unfold single in *.
    cbn [q_created q_log q_flights q_now q_store]. destruct (q_created st !! id) as [c|]; [|done].
    intros Hs. destruct (H Hs) as (H1 & H2 & H3). split_and!; [done|done|]. intros Ht. apply H3. lia.
Qed.

(** A self-hosted session is signed once. Whatever calls interleave -
    repeated and concurrent posts of signatures, status reads that expire the
    session, sweeps, delays - at most one signature of a session whose profile
    hosts its own endpoints is verified with success, so a login session issues
    tokens at most once. *)
Theorem qr_single_use st id c :
  reachable st -> q_created st !! id = Some c -> self_hosted c ->
  (verifications id (q_log st) <= 1)%nat.
Proof.
  intros [acts E] Hc Hs.
  assert (Hst : inv st /\ single id st).
  { eapply (run_inv (fun s => inv s /\ single id s)); [| |exact E].
    - intros a s s' [H1 H2] Ha. split; [by eapply apply_inv|by eapply apply_single].
    - split; [split; [apply map_Forall_empty|apply Forall_nil_2]|]. done. }
  destruct Hst as [_ H]. unfold single in H. rewrite Hc in H. by destruct (H Hs).
Qed.

(** ** The calls of the flow are runs of their sections *)
Variable webhook : option (string -> View -> M W unit).
Variable now : W -> time.
Definition alone (m : gmap string Session) (t : time) (log : list event) (cr : gmap string Session) : state :=
  mkState m [] t log cr.
(** A call that takes the store from [m] to [m'] at an instant is a sequence of
    sections run with nothing in between. *)
Definition is_run (m m' : gmap string Session) (t : time) : Prop :=
  exists acts, forall log cr, exists log', run acts (alone m t log cr) = Some (alone m' t log' cr).

Lemma in_store_run {A} (f : gmap string Session -> gmap string Session * A) (w w' : W) m m' a :
  in_store f (w, m) = Done ((w', m'), a) -> w' = w /\ m' = fst (f m).
Proof. intros [-> E]%in_store_done. by rewrite E. Qed.

Lemma fail_store s e w m w' m' r :
  fail webhook s e (w, m) = Done ((w', m'), r) -> m' = fst (mem_put (failed s e) m).
Proof.
  unfold fail. intros ([w1 m1] & o & E & H)%mbind_done. apply in_store_run in E as [-> ->].
  apply mbind_done in H as ([w2 m2] & u & E & H). apply in_world_done in E as [-> _].
  apply mret_done in H as [[= -> ->] _]. done.
Qed.

Lemma complete_store s sig w m w' m' r :
  complete v issuer cfg webhook s sig (w, m) = Done ((w', m'), r) ->
  exists w1 x, verify s sig w = Done (w1, x) /\
    m' = fst (mem_put (match x with Ok q => verified s q | Err e => failed s e end) m).
Proof.
  unfold complete. intros ([w1 m1] & x & E & H)%mbind_done. apply in_world_done in E as [-> E].
  exists w1, x. split; [done|]. destruct x as [q|e]; [|by eapply fail_store].
  apply mbind_done in H as ([w2 m2] & o & E2 & H). apply in_store_done in E2 as [-> [= <- <-]].
  apply mbind_done in H as ([w3 m3] & u & E3 & H). apply in_world_done in E3 as [-> _].
  apply mret_done in H as [[= -> ->] _]. done.
Qed.

(** A signature posted, from the consumption to the save. *)
Lemma run_verify_save fl_store s sig w w1 x t log cr :
  verify s sig w = Done (w1, x) ->
  let s' := match x with Ok q => verified s q | Err e => failed s e end in
  exists log', run [ASave 0] (verify_section (mkState fl_store [] t log cr) [] s sig w)
    = Some (alone (fst (mem_put s' fl_store)) t log' cr).
Proof. intros E. unfold verify_section. rewrite E. destruct x; eexists; done. Qed.

(** A posted signature is a run of its sections: whatever [SubmitSignature]
    does to the store when it returns, consuming the session, checking it and
    saving the outcome do, one atomic section at a time. *)
Lemma submit_is_a_run id body w m w' m' r :
  SubmitSignature v issuer profiles cfg webhook now id body (w, m) = Done ((w', m'), r) ->
  is_run m m' (now w).
Proof.
  unfold SubmitSignature. intros ([w1 m1] & got & E & H)%mbind_done. apply in_store_done in E as [-> E].
  destruct got as [s|e].
  2:{ apply mret_done in H as [[= -> ->] _]. exists [AConsume id]. intros log cr. exists log.
      pose proof (@ss_consume_err _ MemStore MemStoreLaws _ _ _ _ E) as V. cbn in V. subst m1.
      cbn in E. cbn [run apply alone q_store]. by rewrite E. }
  apply mbind_done in H as ([w2 m2] & t & E2 & H). injection E2 as <- <- <-. cbn [fst] in H.
  assert (R : forall k, (forall log cr, exists log', run k (with_store (alone m (now w) log cr) m1 [FSubmit s] []) =
              Some (alone m' (now w) log' cr)) -> is_run m m' (now w)).
  { intros k Hk. exists (AConsume id :: k). intros log cr. destruct (Hk log cr) as [log' Hr]. exists log'.
    cbn [run apply]. cbn in E. cbn [alone q_store q_flights]. rewrite E. exact Hr. }
  destruct (negb (after (qs_expires s) (now w))) eqn:Ex.
  { apply mret_done in H as [[= -> ->] _]. apply (R [ASubmit 0 body w]). intros log cr. exists log.
    cbn. rewrite Ex. unfold with_store. cbn. by rewrite !app_nil_r. }
  destruct (profiles !! qs_profile s) as [impl|] eqn:Ep.
  2:{ apply mret_done in H as [[= -> ->] _]. apply (R [ASubmit 0 body w]). intros log cr. exists log.
      cbn. rewrite Ex, Ep. unfold with_store. cbn. by rewrite !app_nil_r. }
  destruct (pr_parse impl s body) as [sig|e] eqn:Eq.
  - apply complete_store in H as (w3 & x & Ev & ->). apply (R [ASubmit 0 body w; ASave 0]). intros log cr.
    destruct (run_verify_save m1 s sig w w3 x (now w) (log ++ []) cr Ev) as [log' Hr]. exists log'.
    cbn [run]. cbn [apply with_store alone q_flights take_flight lookup list_lookup take drop app q_now].
    rewrite Ex, Ep, Eq. exact Hr.
  - apply fail_store in H as ->. apply (R [ASubmit 0 body w; ASave 0]). intros log cr. eexists.
    cbn [run]. cbn [apply with_store alone q_flights take_flight lookup list_lookup take drop app q_now].
    rewrite Ex, Ep, Eq. done.
Qed.

Lemma pollRelay_run s impl w m w' m' u :
  profiles !! qs_profile s = Some impl ->
  pollRelay v issuer cfg webhook s impl (w, m) = Done ((w', m'), u) ->
  exists k, forall log cr, exists log',
    run k (mkState m [FPoll s] (now w) log cr) = Some (alone m' (now w) log' cr).
Proof.
  intros Ep. unfold pollRelay. intros ([w1 m1] & [[sig fin] err] & E & H)%mbind_done.
  apply in_world_done in E as [-> E].
  assert (A : forall log cr, apply (APoll 0 w) (mkState m [FPoll s] (now w) log cr) =
    Some (match err with
          | Some e => if errors_is e ErrRejected then with_store (alone m (now w) log cr) m [FSave (failed s e)] []
                      else with_store (alone m (now w) log cr) m [] []
          | None => if negb fin then with_store (alone m (now w) log cr) m [] []
                    else match mem_consume (qs_id s) m with
                         | (m2, Ok c) => with_store (alone m (now w) log cr) m2 [FPolled c sig] []
                         | (_, Err _) => with_store (alone m (now w) log cr) m [] []
                         end
          end)).
  { intros log cr. cbn [apply take_flight q_flights lookup list_lookup take drop app]. rewrite Ep, E.
    destruct err; [done|]. destruct (negb fin); [done|]. cbn [q_store]. by destruct (mem_consume _ m) as [? [?|?]]. }
  assert (R : forall k, (forall log cr, exists log', match apply (APoll 0 w) (mkState m [FPoll s] (now w) log cr) with
       | Some st => run k st | None => None end = Some (alone m' (now w) log' cr)) ->
     exists k, forall log cr, exists log',
    run k (mkState m [FPoll s] (now w) log cr) = Some (alone m' (now w) log' cr)).
  { intros k Hk. exists (APoll 0 w :: k). exact Hk. }
  destruct err as [e|].
  - destruct (errors_is e ErrRejected).
    + apply mbind_done in H as ([w2 m2] & o & F & H). apply fail_store in F as ->. injection H as <- <- <-.
      apply (R [ASave 0]). intros log cr. rewrite A. eexists. done.
    + apply mret_done in H as [[= -> ->] _]. apply (R []). intros log cr. rewrite A. eexists. done.
  - destruct (negb fin).
    + apply mret_done in H as [[= -> ->] _]. apply (R []). intros log cr. rewrite A. eexists. done.
    + apply mbind_done in H as ([w2 m2] & got & F & H). apply in_store_done in F as [-> F]. cbn in F. rewrite F in A.
      destruct got as [c|e].
      * apply mbind_done in H as ([w3 m3] & o & F3 & H). injection H as <- <- <-.
        apply complete_store in F3 as (w4 & x & Ev & ->). apply (R [APolled 0 w1; ASave 0]). intros log cr. rewrite A.
        destruct (run_verify_save m2 c sig w1 w4 x (now w) (log ++ []) cr Ev) as [log' Hr]. exists log'. exact Hr.
      * injection H as <- <- <-. pose proof (@ss_consume_err _ MemStore MemStoreLaws _ _ _ _ F) as V. cbn in V.
        subst m2. apply (R []). intros log cr. rewrite A. eexists. done.
Qed.

(** A status read is a run of its sections: the snapshot, the expiry it may
    save, the gateway's answer, the consumption and the save of the outcome. *)
Lemma get_is_a_run id w m w' m' r :
  Get v issuer profiles cfg webhook now id (w, m) = Done ((w', m'), r) -> is_run m m' (now w).
Proof.
  unfold Get. intros ([w1 m1] & got & E & H)%mbind_done. injection E as <- <- <-. cbn [snd] in H.
  change (ss_get id m) with (mem_get id m) in H. destruct (mem_get id m) as [s|e] eqn:Eg.
  2:{ apply mret_done in H as [[= -> ->] _]. exists []. intros log cr. by exists log. }
  apply mbind_done in H as ([w2 m2] & t & E2 & H). injection E2 as <- <- <-. cbn [fst] in H.
  assert (R : forall k, (forall log cr, exists log', match apply (AGet 0) (mkState m [FRead s] (now w) log cr) with
       | Some st => run k st | None => None end = Some (alone m' (now w) log' cr)) -> is_run m m' (now w)).
  { intros k Hk. exists (ARead id :: AGet 0 :: k). intros log cr. destruct (Hk (log ++ []) cr) as [log' Hr]. exists log'.
    cbn [run]. cbn [apply alone q_store]. rewrite Eg. exact Hr. }
  cbn [apply take_flight q_flights lookup list_lookup take drop app q_now] in R.
  destruct (negb (Terminal (qs_status s)) && negb (after (qs_expires s) (now w))).
  { apply mbind_done in H as ([w2 m2] & o & E & H). apply in_store_done in E as [-> E].
    apply mret_done in H as [[= -> ->] _]. cbn in E. injection E as <- <-. apply (R []). intros log cr.
    eexists. done. }
  destruct (negb (Terminal (qs_status s))).
  2:{ apply mret_done in H as [[= -> ->] _]. apply (R []). intros log cr. eexists. done. }
  destruct (profiles !! qs_profile s) as [impl|] eqn:Ep.
  2:{ apply mret_done in H as [[= -> ->] _]. apply (R []). intros log cr. eexists. done. }
  destruct (negb (pr_self_hosted impl)).
  2:{ apply mret_done in H as [[= -> ->] _]. apply (R []). intros log cr. eexists. done. }
  apply mbind_done in H as ([w2 m2] & u & E & H). apply mret_done in H as [[= -> ->] _].
  destruct (pollRelay_run s impl w m w2 m2 u Ep E) as [k Hk]. apply (R k). intros log cr.
  destruct (Hk (log ++ []) cr) as [log' Hr]. exists log'. exact Hr.
Qed.

(** The calls of the flow refine the interleaved sections: whatever
    [SubmitSignature] or [Get] does to the store when it returns - consuming,
    expiring, polling, saving - a sequence of its atomic sections does with
    nothing in between. So what holds of every interleaving of sections holds of
    the calls. *)
Theorem calls_are_runs id body w m w' m' :
  (forall r, SubmitSignature v issuer profiles cfg webhook now id body (w, m) = Done ((w', m'), r) ->
     is_run m m' (now w)) /\
  (forall r, Get v issuer profiles cfg webhook now id (w, m) = Done ((w', m'), r) -> is_run m m' (now w)).
Proof. split; intros r E; [by eapply submit_is_a_run|by eapply get_is_a_run]. Qed.

End Runs.

(** ** Lost terminal states *)
Section Lost.
  Context {W : Type}.
  Variable v : verifier W.
  Variable issuer : option (Claims -> string -> string -> M W (res goerr TokenResponse)).
  Variable profiles : gmap string (Profiler W).
  Variable cfg : QrConfig.
Notation verify := (verify v issuer cfg).
Notation apply := (apply v issuer profiles cfg).
Notation run := (run v issuer profiles cfg).
Notation reachable := (reachable v issuer profiles cfg).

Definition fresh (c : Session) : Prop :=
  qs_used c = false /\ qs_status c = StatusPending /\ qs_result c = None /\ qs_error c = None.

Lemma fresh_frozen c : fresh c -> frozen c = c.
Proof. destruct c; cbn. unfold fresh. cbn. by intros (-> & -> & -> & ->). Qed.

Lemma apply_create c t log : fresh c ->
  apply (ACreate c) (mkState ∅ [] t log ∅) = Some (mkState {[qs_id c := c]} [] t log {[qs_id c := c]}).
Proof. intros (U & S & R & E). cbn. rewrite lookup_empty, U, S, R, E. by rewrite !insert_empty. Qed.

(** The sections of a run on a given state, and the test for a pending session. *)
Ltac sections :=
  cbn [with_store q_store q_flights q_now q_log q_created take_flight lookup list_lookup take drop app mem_put fst].
Ltac pending := change (negb (Terminal StatusPending)) with true; cbn [negb andb]; cbv iota.

(** A verified session can end expired. For any self-hosted session whose
    signature verifies, there is a run - a status read that took its snapshot
    before the signature was posted and writes it back after the expiry - in
    which the session is saved and announced as verified, and is then stored as
    expired and unused, its result gone. *)
Theorem verified_session_overwritten c impl body sig w w' r :
  fresh c -> 0 < qs_expires c -> profiles !! qs_profile c = Some impl -> pr_parse impl (mark_used c) body = Ok sig ->
  verify c sig w = Done (w', Ok r) ->
  exists st s, reachable st /\ EvSaved (qs_id c) StatusVerified ∈ q_log st /\
    q_store st !! qs_id c = Some s /\ qs_status s = StatusExpired /\ qs_used s = false /\ qs_result s = None.
Proof.
  intros Hf Ht Hi Hp Hv. pose proof Hf as (U & S & R & E).
  pose (id := qs_id c).
  assert (Run : run [ACreate c; ARead id; AConsume id; ASubmit 0 body w; ASave 0; ATick (qs_expires c); AGet 0] init
    = Some (mkState {[id := expired c]} [] (qs_expires c)
              [EvVerified id; EvSaved id StatusVerified] {[id := c]})).
  { cbn [run]. unfold init. rewrite apply_create by done.
    cbn [apply q_store q_flights]. unfold mem_get. fold id. rewrite lookup_singleton_eq.
    sections. unfold mem_consume. rewrite lookup_singleton_eq, U.
    sections.
    cbn [mark_used set_state qs_expires qs_profile]. unfold after.
    rewrite (proj2 (Z.ltb_lt _ _) Ht). cbn [negb]. rewrite Hi, Hp.
    unfold verify_section. change (verify (mark_used c) sig w) with (verify c sig w). rewrite Hv.
    sections.
    rewrite (proj2 (Z.leb_le 0 (qs_expires c))) by lia.
    sections.
    rewrite S, Z.add_0_l, Z.ltb_irrefl. cbn [Terminal negb bool_decide andb mem_put fst].
    unfold with_store. cbn [q_store q_flights q_now q_log q_created app].
    change (negb (Terminal StatusPending) && true) with true. cbv iota.
    change (qs_id (mark_used c)) with id. by rewrite !insert_insert_eq, insert_singleton_eq. }
  exists (mkState {[id := expired c]} [] (qs_expires c)
            [EvVerified id; EvSaved id StatusVerified] {[id := c]}), (expired c).
  split; [by eexists|]. cbn. rewrite lookup_singleton_eq. split_and!; [set_solver|done|done|done|done].
Qed.

(** A relayed session can be verified twice. For any session whose gateway
    answers with a signature that verifies, there is a run - one status read that
    took its snapshot before the expiry and saves it after, one that polls the
    gateway across it - in which two verifications of the session succeed, so a
    login issues two sets of tokens. *)
Theorem relayed_session_verified_twice c impl sig w w' w'' r :
  fresh c -> 0 < qs_expires c -> profiles !! qs_profile c = Some impl -> pr_self_hosted impl = false ->
  pr_poll impl c w = Done (w', (sig, true, None)) -> verify c sig w' = Done (w'', Ok r) ->
  exists st, reachable st /\ verifications (qs_id c) (q_log st) = 2%nat.
Proof.
  intros Hf Ht Hi Hh Hp Hv. pose proof Hf as (U & S & R & E).
  pose (id := qs_id c).
  exists (mkState {[id := mark_used (expired c)]} [FSave (verified (mark_used (expired c)) r); FSave (verified (mark_used c) r)]
            (qs_expires c) [EvVerified id; EvVerified id] {[id := c]}).
  split.
  - exists [ACreate c; ARead id; ARead id; AGet 0; ARead id; AGet 0; APoll 0 w; APolled 0 w';
            ATick (qs_expires c); AGet 2; APoll 1 w; APolled 0 w'].
    cbn [run]. unfold init. rewrite apply_create by done.
    cbn [apply q_store q_flights]. unfold mem_get. fold id. rewrite lookup_singleton_eq.
    sections. rewrite lookup_singleton_eq.
    sections.
    unfold after. rewrite S, (proj2 (Z.ltb_lt _ _) Ht), Hi, Hh.
    cbn [Terminal negb andb bool_decide with_store q_store q_flights q_now q_log q_created].
    pending.
    sections. rewrite lookup_singleton_eq.
    sections.
    rewrite S, (proj2 (Z.ltb_lt _ _) Ht), Hi, Hh.
    pending.
    sections.
    rewrite Hi, Hp. cbn [negb]. unfold mem_consume. fold id. rewrite lookup_singleton_eq, U.
    unfold verify_section.
    sections.
    change (verify (mark_used c) sig w') with (verify c sig w'). rewrite Hv.
    rewrite (proj2 (Z.leb_le 0 (qs_expires c))) by lia.
    sections.
    rewrite S, Z.add_0_l, Z.ltb_irrefl. pending.
    sections.
    rewrite Hi, Hp. cbn [negb]. change (qs_id (expired c)) with id. fold id. rewrite lookup_insert_eq.
    cbn [qs_used expired set_state]. rewrite U.
    sections.
    change (verify (mark_used (expired c)) sig w') with (verify c sig w'). rewrite Hv.
    unfold with_store. cbn [q_store q_flights q_now q_log q_created app].
    change (qs_id (mark_used c)) with id. change (qs_id (mark_used (expired c))) with id.
    by rewrite !insert_insert_eq, insert_singleton_eq.
  - cbn [q_log]. unfold verifications, id. by rewrite !filter_cons_True.
Qed.
End Lost.

(** ** A login at a self-hosted profile and one at a gateway *)
Definition lab_issuer (c : Claims) (client nonce : string) : M Z (res goerr Qr.Qr.TokenResponse) :=
  mret (Ok (Oidc.Oidc.mkTokens ("jwt:" ++ cl_sub c) "" "Bearer" 3600)).
Definition lab_json (body : string) : res goerr string := Ok body.
Definition lab_gateway (s : Session) : M Z (string * bool * option goerr) :=
  relay_poll (fun _ => mret (Ok (200, "sig:" ++ qs_data s))%string) (fun u => u)
    (fun body => Ok ("SIGNED", [(body, "", "")])%string) s.
Definition lab_profiles : gmap string (Profiler Z) :=
  {[ProfileAgnostic := agnosticProfile lab_json;
    ProfileRelay := mkProfiler false (fun s _ => mret (s, Err ErrAppOnly)) (fun _ => Err ErrAppOnly)
                      (fun _ _ => Err ErrAppOnly) lab_gateway]}.
Definition lab_qr : QrConfig := mkQrConfig ProfileAgnostic ModeAuth (5 * minute) minute true.
Definition lab_session (profile : string) : Session :=
  mkSession "s1" ModeAuth profile "CMS_SIGN_ONLY" FormatCMS true "n0nce" [] "" "web" "" "" "" "op1"
    "https://gw/sign" StatusPending None None 0 100 false.
Definition lab_login : list (@action Z) :=
  [ACreate (lab_session ProfileAgnostic); ARead "s1"; AConsume "s1"; AConsume "s1"; AGet 1;
   ASubmit 0 "sig:n0nce" 7; ASave 0].
Definition lab_run (acts : list (@action Z)) : state :=
  match run Challenge.Challenge.lab_verifier (Some lab_issuer) lab_profiles lab_qr acts init with
  | Some st => st | None => init
  end.
Definition lab_result : QrResult :=
  ResTokens (Oidc.Oidc.mkTokens "jwt:900101300123" "" "Bearer" 3600).


Lemma qr_single_use_witness :
  verifications "s1" (q_log (lab_run lab_login)) = 1%nat /\
  (verifications "s1" (q_log (lab_run lab_login)) <= 1)%nat.
Proof.
  split; [vm_compute; reflexivity|].
  apply (qr_single_use Challenge.Challenge.lab_verifier (Some lab_issuer) lab_profiles lab_qr
    (lab_run lab_login) "s1" (lab_session ProfileAgnostic)); [exists lab_login|..]; try (vm_compute; reflexivity).
  intros impl E. vm_compute in E. injection E as <-. reflexivity.
Defined.

Definition lab_stored : gmap string Session := {["s1"%string := lab_session ProfileAgnostic]}.
Lemma calls_are_runs_witness :
  is_run Challenge.Challenge.lab_verifier (Some lab_issuer) lab_profiles lab_qr lab_stored
    {["s1"%string := verified (mark_used (lab_session ProfileAgnostic)) lab_result]} 7.
Proof.
  refine (proj1 (calls_are_runs Challenge.Challenge.lab_verifier (Some lab_issuer) lab_profiles lab_qr None id
    "s1" "sig:n0nce" 7 lab_stored 7 _) None _). vm_compute. reflexivity.
Defined.

Lemma verified_session_overwritten_witness :
  exists st s, reachable Challenge.Challenge.lab_verifier (Some lab_issuer) lab_profiles lab_qr st /\
    EvSaved "s1" StatusVerified ∈ q_log st /\ q_store st !! "s1"%string = Some s /\
    qs_status s = StatusExpired /\ qs_used s = false /\ qs_result s = None.
Proof.
  apply (verified_session_overwritten Challenge.Challenge.lab_verifier (Some lab_issuer) lab_profiles lab_qr
    (lab_session ProfileAgnostic) (agnosticProfile lab_json) "sig:n0nce" "sig:n0nce" 7 7 lab_result);
    [repeat split|..]; vm_compute; reflexivity.
Defined.

Lemma relayed_session_verified_twice_witness :
  exists st, reachable Challenge.Challenge.lab_verifier (Some lab_issuer) lab_profiles lab_qr st /\
    verifications "s1" (q_log st) = 2%nat.
Proof.
  apply (relayed_session_verified_twice Challenge.Challenge.lab_verifier (Some lab_issuer) lab_profiles lab_qr
    (lab_session ProfileRelay)
    (mkProfiler false (fun s _ => mret (s, Err ErrAppOnly)) (fun _ => Err ErrAppOnly)
       (fun _ _ => Err ErrAppOnly) lab_gateway) "sig:n0nce" 7 7 7 lab_result);
    [repeat split|..]; vm_compute; reflexivity.
Defined.
End QrRuns.
