(* ===== verification/Bolt.v ===== *)
(** * The durable stores (the BoltStore types of internal/qr/store.go,
    internal/challenge/store.go, internal/multisign/store.go and
    internal/jobs/boltstore.go)

    bbolt is not part of the repository: [BoltDB] is what the stores use of it
    and [BoltLaws] what its documentation promises of transactions on one
    bucket. The values are stored as JSON, another parameter. Each durable store
    is shown to keep the laws its flow relies on and to answer as the in-memory
    store does, unless the database itself fails. *)
From S2P Require Import Prelude Errors Provider CoreTypes Stores Multisign Jobs Challenge Oidc Qr.

(** ** The database *)
(** A database file holding one bucket: what a transaction does with the bucket
    ([Get], [Put], [Delete], [ForEach], [Stats().KeyN]) and the transactions
    themselves ([Update] commits unless its body fails). *)
Class BoltDB (B : Type) := {
  bk_get : string -> B -> option string;
  bk_put : string -> string -> B -> res goerr B;
  bk_delete : string -> B -> res goerr B;
  bk_entries : B -> list (string * string);
  bk_keyn : B -> Z;
  db_update : forall A : Type, (B -> res goerr (B * A)) -> B -> B * res goerr A;
  db_view : forall A : Type, (B -> res goerr A) -> B -> res goerr A;
}.
Arguments db_update {B _ A}. Arguments db_view {B _ A}.

(** The promises. [db_failure] are the errors of the database: a full disk, a
    closed file, a key it does not take. *)
Class BoltLaws (B : Type) `{BoltDB B} := {
  bk_view : B -> gmap string string;
  db_failure : goerr -> Prop;
  bk_get_view : forall k b, bk_get k b = bk_view b !! k;
  bk_put_spec : forall k v b,
    match bk_put k v b with Ok b' => bk_view b' = <[k := v]> (bk_view b) | Err e => db_failure e end;
  bk_delete_spec : forall k b,
    match bk_delete k b with Ok b' => bk_view b' = delete k (bk_view b) | Err e => db_failure e end;
  bk_entries_view : forall b, bk_entries b ≡ₚ map_to_list (bk_view b);
  bk_keyn_view : forall b, bk_keyn b = Z.of_nat (size (bk_view b));
  db_update_spec : forall (A : Type) (f : B -> res goerr (B * A)) b,
    match db_update f b with
    | (b', Ok a) => exists b1, f b = Ok (b1, a) /\ bk_view b' = bk_view b1
    | (b', Err e) => bk_view b' = bk_view b /\ (f b = Err e \/ db_failure e)
    end;
  db_view_spec : forall (A : Type) (f : B -> res goerr A) b,
    match db_view f b with Ok a => f b = Ok a | Err e => f b = Err e \/ db_failure e end;
}.

Module Bolt.

Section Store.
  Context {B V : Type} `{BoltDB B} `{Codec V}.
  Variable not_found used_already : goerr.
  Variable used : V -> bool.
  Variable mark : V -> V.

Definition no_result {A} (r : B * res goerr A) : B * option goerr :=
  (fst r, match snd r with Ok _ => None | Err e => Some e end).

(** [put] in a transaction of its own. *)
Definition put_in (k : string) (v : V) (b : B) : res goerr (B * unit) :=
  (let? raw := cd_encode v in let? b' := bk_put k raw b in Ok (b', tt))%res.
Definition bolt_put (k : string) (v : V) (b : B) : B * option goerr := no_result (db_update (put_in k v) b).

(** [Get]. *)
Definition get_in (k : string) (b : B) : res goerr V :=
  match bk_get k b with None => Err not_found | Some raw => cd_decode raw end.
Definition bolt_get (k : string) (b : B) : res goerr V := db_view (get_in k) b.

(** [Save] where the entry must exist: a [Get], then the put. *)
Definition bolt_save (k : string) (v : V) (b : B) : B * option goerr :=
  match bolt_get k b with Err e => (b, Some e) | Ok _ => bolt_put k v b end.

(** [Create] where the id must be free. *)
Definition bolt_create_new (exists_already : goerr) (k : string) (v : V) (b : B) : B * option goerr :=
  no_result (db_update (fun b => match bk_get k b with Some _ => Err exists_already | None => put_in k v b end) b).

(** [Delete]. *)
Definition bolt_delete (k : string) (b : B) : B * option goerr :=
  no_result (db_update (fun b => (let? b' := bk_delete k b in Ok (b', tt))%res) b).

(** [Consume]. *)
Definition consume_in (k : string) (b : B) : res goerr (B * V) :=
  (let? v := get_in k b in
   if used v then Err used_already
   else let? raw := cd_encode (mark v) in
        let? b' := bk_put k raw b in
        Ok (b', mark v))%res.
Definition bolt_consume (k : string) (b : B) : B * res goerr V := db_update (consume_in k) b.

(** [Reap]: the keys of the dead entries, in the bucket's order, then deleted. *)
Fixpoint dead_keys (dead : V -> bool) (l : list (string * string)) : res goerr (list string) :=
  match l with
  | [] => Ok []
  | (k, raw) :: t =>
      (let? v := cd_decode raw in
       let? ks := dead_keys dead t in
       Ok (if dead v then k :: ks else ks))%res
  end.
Fixpoint delete_keys (ks : list string) (b : B) : res goerr B :=
  match ks with [] => Ok b | k :: t => (let? b' := bk_delete k b in delete_keys t b')%res end.
Definition reap_in (dead : V -> bool) (b : B) : res goerr (B * Z) :=
  (let? ks := dead_keys dead (bk_entries b) in
   let? b' := delete_keys ks b in
   Ok (b', Z.of_nat (length ks)))%res.
Definition bolt_reap (dead : V -> bool) (b : B) : B * res goerr Z := db_update (reap_in dead) b.

(** [Len]. *)
Definition bolt_len (b : B) : Z := match db_view (fun b => Ok (bk_keyn b)) b with Ok n => n | Err _ => 0 end.
End Store.

(** ** The four stores *)
Definition ended (expires now : time) : bool := negb (after expires now).

Section Stores.
  Context {B : Type} `{BoltDB B}.
Definition QrBolt `{Codec Qr.Session} : Qr.SessionStore B := {|
  Qr.ss_create := fun s => bolt_put (Qr.qs_id s) s;
  Qr.ss_get := bolt_get Qr.ErrSessionNotFound;
  Qr.ss_consume := bolt_consume Qr.ErrSessionNotFound Qr.ErrSessionUsed Qr.qs_used Qr.mark_used;
  Qr.ss_save := fun s => bolt_put (Qr.qs_id s) s;
  Qr.ss_reap := fun t => bolt_reap (fun s => ended (Qr.qs_expires s) t);
  Qr.ss_len := bolt_len;
|}.
Definition ChallengeBolt `{Codec Challenge.Challenge} : Challenge.ChallengeStore B := {|
  Challenge.cs_create := fun c => bolt_put (Challenge.ch_id c) c;
  Challenge.cs_consume :=
    bolt_consume Challenge.ErrNotFound Challenge.ErrUsed Challenge.ch_used Challenge.mark_used;
  Challenge.cs_reap := fun t => bolt_reap (fun c => ended (Challenge.ch_expires c) t);
  Challenge.cs_len := bolt_len;
|}.
Definition MultisignBolt `{Codec Multisign.Session} : Store B Multisign.Session := {|
  st_create := bolt_put;
  st_get := bolt_get Multisign.ErrNotFound;
  st_save := bolt_save Multisign.ErrNotFound;
  st_delete := bolt_delete;
  st_len := bolt_len;
|}.
Definition jobs_create `{Codec Jobs.Job} (j : Jobs.Job) : B -> B * option goerr :=
  bolt_create_new Jobs.ErrExists (Jobs.jb_id j) j.
Definition jobs_save `{Codec Jobs.Job} (j : Jobs.Job) : B -> B * option goerr := bolt_put (Jobs.jb_id j) j.
Definition jobs_get `{Codec Jobs.Job} : string -> B -> res goerr Jobs.Job := bolt_get Jobs.ErrNotFound.
Definition jobs_delete : string -> B -> B * option goerr := bolt_delete.
Definition jobs_reap `{Codec Jobs.Job} (t : time) : B -> B * res goerr Z := bolt_reap (Jobs.reapable t).
End Stores.

(** ** What the stores keep *)
Section Laws.
  Context {B V : Type} `{BoltLaws B} `{Codec V}.
  Variable not_found used_already : goerr.
  Variable used : V -> bool.
  Variable mark : V -> V.

(** The values in the file. *)
Definition bolt_view (b : B) : gmap string V := omap (fun raw => res_value (cd_decode raw)) (bk_view b).

Lemma view_insert b b' k v raw :
  bk_view b' = <[k := raw]> (bk_view b) -> cd_encode v = Ok raw -> bolt_view b' = <[k := v]> (bolt_view b).
Proof.
  intros E Hc%cd_round_trip. apply map_eq. intros j. unfold bolt_view. rewrite lookup_omap, E.
  destruct (decide (k = j)) as [->|Hn]; [by rewrite !lookup_insert_eq; cbn; rewrite Hc|].
  by rewrite !lookup_insert_ne, lookup_omap.
Qed.

Lemma view_delete b b' k : bk_view b' = delete k (bk_view b) -> bolt_view b' = delete k (bolt_view b).
Proof. intros E. unfold bolt_view. by rewrite E, omap_delete. Qed.

(** A transaction whose body keeps a relation between its states keeps it. *)
Lemma update_ok {A} (f : B -> res goerr (B * A)) b b' a :
  db_update f b = (b', Ok a) -> exists b1, f b = Ok (b1, a) /\ bk_view b' = bk_view b1.
Proof. intros E. pose proof (db_update_spec A f b) as S. by rewrite E in S. Qed.
Lemma update_err {A} (f : B -> res goerr (B * A)) b b' e :
  db_update f b = (b', Err e) -> bk_view b' = bk_view b /\ (f b = Err e \/ db_failure e).
Proof. intros E. pose proof (db_update_spec A f b) as S. by rewrite E in S. Qed.

Lemma put_in_ok k (v : V) b b' u :
  put_in k v b = Ok (b', u) -> exists raw, cd_encode v = Ok raw /\ bk_view b' = <[k := raw]> (bk_view b).
Proof.
  unfold put_in. destruct (cd_encode v) as [raw|e]; cbn; [|done].
  pose proof (bk_put_spec k raw b) as S. destruct (bk_put k raw b) as [b1|e]; cbn; [|done].
  intros [= <- _]. eauto.
Qed.

Lemma bolt_put_ok k (v : V) b b' : bolt_put k v b = (b', None) -> bolt_view b' = <[k := v]> (bolt_view b).
Proof.
  unfold bolt_put, no_result. destruct (db_update _ b) as [b1 [u|e]] eqn:E; cbn; [|done]. intros [= <-].
  apply update_ok in E as (b2 & (raw & Hc & Hv)%put_in_ok & E). eapply view_insert; [|done]. by rewrite E.
Qed.
Lemma bolt_put_err k (v : V) b b' e : bolt_put k v b = (b', Some e) -> bolt_view b' = bolt_view b.
Proof.
  unfold bolt_put, no_result. destruct (db_update _ b) as [b1 [u|x]] eqn:E; cbn; [done|]. intros [= <- _].
  apply update_err in E as [E _]. unfold bolt_view. by rewrite E.
Qed.

Lemma get_in_ok k b (v : V) :
  get_in not_found k b = Ok v -> bolt_view b !! k = Some v /\ exists raw, bk_view b !! k = Some raw /\ cd_decode raw = Ok v.
Proof.
  unfold get_in, bolt_view. rewrite lookup_omap, bk_get_view. destruct (bk_view b !! k) as [raw|]; [|done].
  cbn. intros E. rewrite E. eauto.
Qed.
Lemma bolt_get_ok k b (v : V) : bolt_get not_found k b = Ok v -> bolt_view b !! k = Some v.
Proof.
  unfold bolt_get. intros E. pose proof (db_view_spec V (get_in not_found k) b) as S. rewrite E in S.
  by apply get_in_ok in S as [? _].
Qed.

Lemma bolt_consume_ok k b b' (v : V) :
  bolt_consume not_found used_already used mark k b = (b', Ok v) ->
  exists v0, bolt_view b !! k = Some v0 /\ used v0 = false /\ v = mark v0 /\ bolt_view b' = <[k := v]> (bolt_view b).
Proof.
  unfold bolt_consume. intros (b1 & E & Hb)%update_ok. unfold consume_in in E.
  destruct (get_in not_found k b) as [v0|e] eqn:Eg; cbn in E; [|done]. apply get_in_ok in Eg as [Hv _].
  destruct (used v0) eqn:Eu; [done|]. destruct (cd_encode (mark v0)) as [raw|e] eqn:Ec; cbn in E; [|done].
  pose proof (bk_put_spec k raw b) as S. destruct (bk_put k raw b) as [b2|e]; cbn in E; [|done].
  injection E as <- <-. exists v0. split_and!; [done..|]. eapply view_insert; [by rewrite Hb|done].
Qed.
Lemma bolt_consume_err k b b' e :
  bolt_consume not_found used_already used mark k b = (b', Err e) -> bolt_view b' = bolt_view b.
Proof. unfold bolt_consume. intros [E _]%update_err. unfold bolt_view. by rewrite E. Qed.

Lemma bolt_delete_ok k b b' : bolt_delete k b = (b', None) -> bolt_view b' = delete k (bolt_view b).
Proof.
  unfold bolt_delete, no_result. destruct (db_update _ b) as [b1 [u|e]] eqn:E; cbn; [|done]. intros [= <-].
  apply update_ok in E as (b2 & E & Hb). pose proof (bk_delete_spec k b) as S.
  destruct (bk_delete k b) as [b3|e]; cbn in E; [|done]. injection E as <- _. apply view_delete. by rewrite Hb.
Qed.
Lemma bolt_delete_err k b b' e : bolt_delete k b = (b', Some e) -> bolt_view b' = bolt_view b.
Proof.
  unfold bolt_delete, no_result. destruct (db_update _ b) as [b1 [u|x]] eqn:E; cbn; [done|]. intros [= <- _].
  apply update_err in E as [E _]. unfold bolt_view. by rewrite E.
Qed.
Lemma bolt_save_ok k (v : V) b b' :
  bolt_save not_found k v b = (b', None) -> bolt_view b' = <[k := v]> (bolt_view b) /\ is_Some (bolt_view b !! k).
Proof.
  unfold bolt_save. destruct (bolt_get not_found k b) as [v0|e] eqn:E; [|done].
  intros Hp%bolt_put_ok. apply bolt_get_ok in E. eauto.
Qed.
Lemma bolt_save_err k (v : V) b b' e : bolt_save not_found k v b = (b', Some e) -> bolt_view b' = bolt_view b.
Proof.
  unfold bolt_save. destruct (bolt_get not_found k b) as [v0|x] eqn:E; [by apply bolt_put_err|by intros [= <- _]].
Qed.

Lemma delete_keys_lookup ks b b' k :
  delete_keys ks b = Ok b' -> bk_view b' !! k = if decide (k ∈ ks) then None else bk_view b !! k.
Proof.
  revert b. induction ks as [|j ks IH]; intros b; cbn [delete_keys]; [by intros [= <-]|].
  pose proof (bk_delete_spec j b) as S. destruct (bk_delete j b) as [b1|e]; cbn; [|done].
  intros E%IH. rewrite E, S. destruct (decide (k ∈ ks)) as [Hi|Hi].
  - by rewrite decide_True by (by right).
  - destruct (decide (k = j)) as [->|Hn].
    + by rewrite decide_True, lookup_delete_eq by left.
    + rewrite decide_False by (intros [->|?]%elem_of_cons; done). by rewrite lookup_delete_ne.
Qed.

Lemma bolt_reap_sub dead b b' r : bolt_reap (V:=V) dead b = (b', r) -> bolt_view b' ⊆ bolt_view b.
Proof.
  unfold bolt_reap. destruct r as [n|e].
  2:{ intros [E _]%update_err. unfold bolt_view. by rewrite E. }
  intros (b1 & E & Hb)%update_ok. unfold reap_in in E. destruct (dead_keys _ _) as [ks|e]; cbn in E; [|done].
  destruct (delete_keys ks b) as [b2|e] eqn:Ed; cbn in E; [|done]. injection E as <- _.
  apply map_subseteq_spec. intros k v. unfold bolt_view. rewrite !lookup_omap, Hb.
  rewrite (delete_keys_lookup _ _ _ k Ed). by case_decide.
Qed.
End Laws.

(** ** The laws of the flows *)
Section Instances.
  Context {B : Type} `{BoltLaws B}.
Definition QrBoltLaws `{Codec Qr.Session} : @Qr.SessionStoreLaws B QrBolt.
Proof.
  refine (@Qr.Build_SessionStoreLaws B QrBolt bolt_view _ _ _ _ _ _ _);
    cbn [Qr.ss_create Qr.ss_get Qr.ss_consume Qr.ss_save QrBolt];
    eauto using bolt_put_ok, bolt_put_err, bolt_get_ok, bolt_consume_ok, bolt_consume_err.
Defined.
Definition ChallengeBoltLaws `{Codec Challenge.Challenge} : @Challenge.ChallengeStoreLaws B ChallengeBolt.
Proof.
  refine (@Challenge.Build_ChallengeStoreLaws B ChallengeBolt bolt_view _ _ _ _ _);
    cbn [Challenge.cs_create Challenge.cs_consume Challenge.cs_reap ChallengeBolt];
    eauto using bolt_put_ok, bolt_put_err, bolt_consume_ok, bolt_consume_err, bolt_reap_sub.
Defined.
Definition MultisignBoltLaws `{Codec Multisign.Session} : @StoreLaws B Multisign.Session MultisignBolt.
Proof.
  refine (@Build_StoreLaws B Multisign.Session MultisignBolt bolt_view _ _ _ _ _ _ _);
    cbn [st_create st_get st_save st_delete MultisignBolt];
    eauto using bolt_put_ok, bolt_put_err, bolt_get_ok, bolt_delete_ok, bolt_delete_err, bolt_save_ok, bolt_save_err.
Defined.
End Instances.

(** ** The durable store answers as the in-memory one *)
Section Refinement.
  Context {B V : Type} `{BoltLaws B} `{Codec V}.
  Variable not_found used_already : goerr.
  Variable used : V -> bool.
  Variable mark : V -> V.

(** The file holds the values of the map, each of them readable. *)
Definition represents (b : B) (m : gmap string V) : Prop := cd_decode <$> bk_view b = Ok <$> m.
(** The errors that are not the store's own. *)
Definition store_failure (e : goerr) : Prop := db_failure e \/ exists v : V, cd_encode v = Err e.

Lemma represents_lookup b m k : represents b m -> cd_decode <$> (bk_view b !! k) = Ok <$> (m !! k).
Proof. intros R. rewrite <- !lookup_fmap. by rewrite R. Qed.

Lemma represents_same b b' m : bk_view b' = bk_view b -> represents b m -> represents b' m.
Proof. unfold represents. by intros ->. Qed.

Lemma represents_insert b b' m k v raw :
  represents b m -> cd_encode v = Ok raw -> bk_view b' = <[k := raw]> (bk_view b) -> represents b' (<[k := v]> m).
Proof. unfold represents. intros R Hc%cd_round_trip ->. by rewrite !fmap_insert, R, Hc. Qed.

Lemma put_in_err k (v : V) b e : put_in k v b = Err e -> store_failure e.
Proof.
  unfold put_in. destruct (cd_encode v) as [raw|x] eqn:Ec; cbn; [|intros [= <-]; right; eauto].
  pose proof (bk_put_spec k raw b) as S. destruct (bk_put k raw b) as [b1|x]; cbn; [done|].
  intros [= <-]. by left.
Qed.

Lemma put_represents k v b m b' r :
  represents b m -> bolt_put k v b = (b', r) ->
  (r = None /\ represents b' (<[k := v]> m)) \/ (exists e, r = Some e /\ store_failure e /\ represents b' m).
Proof.
  intros R. unfold bolt_put, no_result. destruct (db_update _ b) as [b1 [u|e]] eqn:E; cbn; intros [= <- <-].
  - apply update_ok in E as (b2 & (raw & Hc & Hv)%put_in_ok & Hb). left. split; [done|].
    eapply represents_insert; [done|done|congruence].
  - apply update_err in E as [Hb He]. right. exists e. split_and!; [done| |by eapply represents_same].
    destruct He as [He|He]; [by eapply put_in_err|by left].
Qed.

Lemma get_in_represents k b m :
  represents b m -> get_in not_found k b = match m !! k with Some v => Ok v | None => Err not_found end.
Proof.
  intros R. pose proof (represents_lookup b m k R) as L. unfold get_in. rewrite bk_get_view.
  destruct (bk_view b !! k), (m !! k); cbn in L; try done. by injection L as ->.
Qed.

Lemma get_represents k b m :
  represents b m ->
  bolt_get not_found k b = match m !! k with Some v => Ok v | None => Err not_found end \/
  exists e, bolt_get not_found k b = Err e /\ @store_failure e.
Proof.
  intros R. unfold bolt_get. pose proof (db_view_spec V (get_in not_found k) b) as S.
  rewrite (get_in_represents k b m R) in S. destruct (db_view _ b) as [v|e]; [by left|].
  destruct S as [S|S]; [by left|right]. exists e. split; [done|by left].
Qed.

Lemma consume_represents k b m b' r :
  represents b m -> bolt_consume not_found used_already used mark k b = (b', r) ->
  match m !! k with
  | None => r = Err not_found /\ represents b' m
  | Some v => if used v then r = Err used_already /\ represents b' m
              else r = Ok (mark v) /\ represents b' (<[k := mark v]> m)
  end \/ (exists e, r = Err e /\ store_failure e /\ represents b' m).
Proof.
  intros R E. unfold bolt_consume in E. pose proof (get_in_represents k b m R) as G.
  assert (C : forall b1 v1, consume_in not_found used_already used mark k b = Ok (b1, v1) ->
    exists v raw, m !! k = Some v /\ used v = false /\ v1 = mark v /\ cd_encode (mark v) = Ok raw /\
      bk_view b1 = <[k := raw]> (bk_view b)).
  { intros b1 v1. unfold consume_in. rewrite G. destruct (m !! k) as [v|]; [|done]. cbn.
    destruct (used v) eqn:Eu; [done|]. destruct (cd_encode (mark v)) as [raw|x] eqn:Ec; cbn; [|done].
    pose proof (bk_put_spec k raw b) as S. destruct (bk_put k raw b) as [b2|x]; cbn; [|done].
    intros [= <- <-]. eauto 10. }
  assert (F : forall e, consume_in not_found used_already used mark k b = Err e ->
    match m !! k with
    | None => e = not_found
    | Some v => if used v then e = used_already else store_failure e
    end).
  { intros e. unfold consume_in. rewrite G. destruct (m !! k) as [v|]; [|by intros [= ->]]. cbn.
    destruct (used v) eqn:Eu; [by intros [= ->]|].
    destruct (cd_encode (mark v)) as [raw|x] eqn:Ec; cbn; [|intros [= <-]; right; eauto].
    pose proof (bk_put_spec k raw b) as S. destruct (bk_put k raw b) as [b2|x]; cbn; [done|].
    intros [= <-]. by left. }
  destruct r as [v1|e].
  - apply update_ok in E as (b1 & E & Hb). destruct (C b1 v1 E) as (v & raw & Hm & Hu & -> & Hc & Hv).
    left. rewrite Hm, Hu. split; [done|]. eapply represents_insert; [done|done|congruence].
  - apply update_err in E as [Hb [E|E]]; [|right; exists e; split_and!; [done|by left|by eapply represents_same]].
    specialize (F e E). pose proof (represents_same _ _ _ Hb R) as R'.
    destruct (m !! k) as [v|]; [destruct (used v)|]; subst; [by left|right|by left]. eauto.
Qed.

End Refinement.

Section Reaping.
  Context {B V : Type} `{BoltLaws B} `{Codec V}.

(** The scan of the bucket finds the dead entries, each once. *)
Lemma dead_keys_scan dead l :
  (forall k raw, (k, raw) ∈ l -> exists v, cd_decode raw = Ok v) ->
  exists ks, dead_keys dead l = Ok ks /\ ks `sublist_of` l.*1 /\
    forall k, k ∈ ks <-> exists raw v, (k, raw) ∈ l /\ cd_decode raw = Ok v /\ dead v = true.
Proof.
  induction l as [|[k raw] l IH]; intros Hl.
  { exists []. split_and!; [done|constructor|]. intros k. split; [by intros ?%elem_of_nil|].
    by intros (? & ? & ?%elem_of_nil & _). }
  destruct (Hl k raw ltac:(by left)) as [v Hv].
  destruct IH as (ks & E & Hs & Hk); [intros; eapply Hl; by right|]. cbn. rewrite Hv. cbn. rewrite E. cbn.
  exists (if dead v then k :: ks else ks). split; [done|]. split; [destruct (dead v); by constructor|].
  intros j. transitivity (j ∈ ks \/ (j = k /\ dead v = true)).
  { destruct (dead v); [rewrite elem_of_cons; naive_solver|]. naive_solver. }
  rewrite Hk. split.
  - intros [(r & x & Hi & Hx & Hd)|[-> Hd]]; [|by exists raw, v; split; [left|]].
    exists r, x. split; [by right|done].
  - intros (r & x & [[= -> ->]|Hi]%elem_of_cons & Hx & Hd); [right|left; eauto]. by rewrite Hv in Hx; injection Hx as ->.
Qed.

Lemma delete_keys_err ks b e : delete_keys ks b = Err e -> db_failure e.
Proof.
  revert b. induction ks as [|k ks IH]; intros b; cbn; [done|].
  pose proof (bk_delete_spec k b) as S. destruct (bk_delete k b) as [b1|x]; cbn; [apply IH|by intros [= <-]].
Qed.

(** Counting what a filter removes. *)
Lemma size_filter_split (P : string * V -> Prop) `{forall x, Decision (P x)} (m : gmap string V) :
  size m = (size (filter P m) + size (filter (fun x => ~ P x) m))%nat.
Proof.
  rewrite <- (map_filter_union_complement P m) at 1. apply map_size_disj_union. apply map_disjoint_filter_complement.
Qed.

Lemma reap_in_represents dead b m :
  represents b m ->
  let kept := filter (fun p => dead (snd p) = false) m in
  match reap_in (V:=V) dead b with
  | Ok (b1, n) => n = Z.of_nat (size m) - Z.of_nat (size kept) /\ represents b1 kept
  | Err e => db_failure e
  end.
Proof.
  intros R kept. pose proof (bk_entries_view b) as P. unfold reap_in.
  assert (L : forall k raw, (k, raw) ∈ bk_entries b <-> bk_view b !! k = Some raw).
  { intros k raw. by rewrite P, elem_of_map_to_list. }
  destruct (dead_keys_scan dead (bk_entries b)) as (ks & E & Hs & Hk).
  { intros k raw Hi%L. pose proof (represents_lookup b m k R) as Hm. rewrite Hi in Hm. cbn in Hm.
    destruct (m !! k) as [v|]; [|done]. exists v. by injection Hm. }
  rewrite E. cbn. destruct (delete_keys ks b) as [b1|e] eqn:Ed; cbn; [|by eapply delete_keys_err].
  assert (D : forall k, k ∈ ks <-> exists v, m !! k = Some v /\ dead v = true).
  { intros k. rewrite Hk. pose proof (represents_lookup b m k R) as Hm. split.
    - intros (raw & v & Hi%L & Hv & Hd). rewrite Hi in Hm. cbn in Hm. destruct (m !! k) as [x|]; [|done].
      exists v. split; [|done]. injection Hm as Hm. congruence.
    - intros (v & Hv & Hd). rewrite Hv in Hm. destruct (bk_view b !! k) as [raw|] eqn:Er; [|done].
      exists raw, v. split; [by apply L|]. split; [|done]. by injection Hm. }
  split.
  - rewrite (size_filter_split (fun p => dead (snd p) = false) m). fold kept.
    enough (length ks = size (filter (fun p => ~ dead (snd p) = false) m)) by lia.
    rewrite <- (size_list_to_set (C:=gset string) ks), <- size_dom.
    2:{ apply (sublist_NoDup _ (bk_entries b).*1); [|done]. rewrite P. apply NoDup_fst_map_to_list. }
    f_equal. apply set_eq. intros k. rewrite elem_of_list_to_set, D, elem_of_dom. unfold is_Some.
    setoid_rewrite map_lookup_filter_Some. cbn. setoid_rewrite not_false_iff_true. done.
  - apply map_eq. intros k. rewrite !lookup_fmap, (delete_keys_lookup _ _ _ k Ed).
    pose proof (represents_lookup b m k R) as Hm. destruct (decide (k ∈ ks)) as [Hi|Hi].
    + apply D in Hi as (v & Hv & Hd). unfold kept. rewrite (proj2 (map_lookup_filter_None _ _ _)); [done|].
      right. intros x Hx. simplify_eq. cbn. by rewrite Hd.
    + rewrite Hm. f_equal. symmetry. destruct (m !! k) as [v|] eqn:Hv.
      * apply map_lookup_filter_Some. split; [done|]. cbn. destruct (dead v) eqn:Hd; [|done]. destruct Hi. apply D. eauto.
      * apply map_lookup_filter_None. by left.
Qed.

Lemma reap_represents dead b m b' r :
  represents b m -> bolt_reap (V:=V) dead b = (b', r) ->
  let kept := filter (fun p => dead (snd p) = false) m in
  (r = Ok (Z.of_nat (size m) - Z.of_nat (size kept)) /\ represents b' kept) \/
  (exists e, r = Err e /\ store_failure e /\ represents b' m).
Proof.
  intros R E kept. pose proof (reap_in_represents dead b m R) as S. cbn in S. unfold bolt_reap in E.
  destruct r as [n|e].
  - apply update_ok in E as (b1 & E & Hb). rewrite E in S. destruct S as [-> S]. left. split; [done|].
    by eapply represents_same.
  - apply update_err in E as [Hb [E|E]]; right; exists e; (split; [done|]); (split; [|by eapply represents_same]); left.
    + by rewrite E in S.
    + done.
Qed.
End Reaping.

(** The durable job store answers as the in-memory one of Jobs.v. *)
Section JobStore.
  Context {B : Type} `{BoltLaws B} `{Codec Jobs.Job}.

Lemma jobs_create_represents j b m b' r :
  represents b m -> jobs_create j b = (b', r) ->
  (exists m', Jobs.store_create j m = (m', r) /\ represents b' m') \/
  (exists e, r = Some e /\ store_failure (V:=Jobs.Job) e /\ represents b' m).
Proof.
  intros R. pose proof (represents_lookup b m (Jobs.jb_id j) R) as L.
  unfold jobs_create, bolt_create_new, no_result, Jobs.store_create.
  destruct (db_update _ b) as [b1 [u|e]] eqn:E; cbn; intros [= <- <-].
  - left. apply update_ok in E as (b2 & E & Hb). rewrite bk_get_view in E.
    destruct (bk_view b !! _) eqn:Eb; [done|]. destruct (m !! Jobs.jb_id j) as [x|]; [done|].
    apply put_in_ok in E as (raw & Hc & Hv). eexists. split; [done|].
    eapply represents_insert; [done|done|congruence].
  - apply update_err in E as [Hb E]. pose proof (represents_same _ _ _ Hb R) as R'.
    destruct E as [E|E]; [|right; exists e; split_and!; [done|by left|done]]. rewrite bk_get_view in E.
    destruct (bk_view b !! _) eqn:Eb; cbn in L.
    + injection E as <-. destruct (m !! Jobs.jb_id j) as [x|]; [|done]. left. eauto.
    + right. exists e. split_and!; [done|by eapply put_in_err|done].
Qed.

Lemma jobs_save_represents j b m b' r :
  represents b m -> jobs_save j b = (b', r) ->
  (r = None /\ represents b' (Jobs.store_save j m)) \/
  (exists e, r = Some e /\ store_failure (V:=Jobs.Job) e /\ represents b' m).
Proof. apply put_represents. Qed.

Lemma jobs_get_represents id b m :
  represents b m ->
  jobs_get id b = Jobs.store_get id m \/ exists e, jobs_get id b = Err e /\ store_failure (V:=Jobs.Job) e.
Proof. apply get_represents. Qed.

Lemma jobs_reap_represents t b m b' r :
  represents b m -> jobs_reap t b = (b', r) ->
  (r = Ok (snd (Jobs.Reap t m)) /\ represents b' (fst (Jobs.Reap t m))) \/
  (exists e, r = Err e /\ store_failure (V:=Jobs.Job) e /\ represents b' m).
Proof. apply reap_represents. Qed.
End JobStore.

(** ** Sequences of operations on the session store *)
Inductive op :=
| OpCreate (s : Qr.Session)
| OpGet (id : string)
| OpConsume (id : string)
| OpSave (s : Qr.Session)
| OpReap (t : time).
Inductive answer :=
| ADone (e : option goerr)
| ASession (r : res goerr Qr.Session)
| ACount (r : res goerr Z).
Definition perform {St} (I : Qr.SessionStore St) (o : op) (st : St) : St * answer :=
  match o with
  | OpCreate s => let '(st', e) := Qr.ss_create s st in (st', ADone e)
  | OpGet id => (st, ASession (Qr.ss_get id st))
  | OpConsume id => let '(st', r) := Qr.ss_consume id st in (st', ASession r)
  | OpSave s => let '(st', e) := Qr.ss_save s st in (st', ADone e)
  | OpReap t => let '(st', r) := Qr.ss_reap t st in (st', ACount r)
  end.
Fixpoint perform_all {St} (I : Qr.SessionStore St) (ops : list op) (st : St) : St * list (op * answer) :=
  match ops with
  | [] => (st, [])
  | o :: t =>
      let '(st1, a) := perform I o st in
      let '(st2, l) := perform_all I t st1 in (st2, (o, a) :: l)
  end.
Definition answer_error (a : answer) : option goerr :=
  match a with ADone e => e | ASession r => res_error r | ACount r => res_error r end.

Section SessionStore.
  Context {B : Type} `{BoltLaws B} `{Codec Qr.Session}.

(** An operation that the database failed: it changed nothing. *)
Definition failed_op (p : op * answer) : Prop :=
  exists e, answer_error (snd p) = Some e /\ store_failure (V:=Qr.Session) e.

Lemma perform_refines o b m b' a :
  represents b m -> perform QrBolt o b = (b', a) ->
  (exists m', perform Qr.MemStore o m = (m', a) /\ represents b' m') \/ (failed_op (o, a) /\ represents b' m).
Proof.
  intros R. destruct o as [s|id|id|s|t]; cbn [perform].
  - cbn [Qr.ss_create QrBolt Qr.MemStore Qr.mem_put]. destruct (bolt_put _ s b) as [b1 e] eqn:E. intros [= <- <-].
    destruct (put_represents _ s b m b1 e R E) as [[-> R']|(x & -> & Hx & R')]; [by left; eauto|right].
    split; [by exists x|done].
  - intros [= <- <-]. cbn [Qr.ss_get QrBolt Qr.MemStore].
    destruct (get_represents Qr.ErrSessionNotFound id b m R) as [E|(x & E & Hx)]; [left|right].
    + exists m. rewrite E. by unfold Qr.mem_get.
    + split; [|done]. exists x. by rewrite E.
  - cbn [Qr.ss_consume QrBolt Qr.MemStore]. unfold Qr.mem_consume.
    destruct (bolt_consume _ _ _ _ id b) as [b1 r] eqn:E. intros [= <- <-].
    destruct (consume_represents _ _ _ _ _ _ _ _ _ R E) as [C|(x & -> & Hx & R')].
    + left. destruct (m !! id) as [s|]; [destruct (Qr.qs_used s)|]; destruct C as [-> ?]; eauto.
    + right. split; [by exists x|done].
  - cbn [Qr.ss_save QrBolt Qr.MemStore Qr.mem_put]. destruct (bolt_put _ s b) as [b1 e] eqn:E. intros [= <- <-].
    destruct (put_represents _ s b m b1 e R E) as [[-> R']|(x & -> & Hx & R')]; [by left; eauto|right].
    split; [by exists x|done].
  - cbn [Qr.ss_reap QrBolt Qr.MemStore]. unfold Qr.mem_reap.
    destruct (bolt_reap _ b) as [b1 r] eqn:E. intros [= <- <-].
    assert (K : filter (fun p => ended (Qr.qs_expires (snd p)) t = false) m =
                filter (fun p => after (Qr.qs_expires (snd p)) t = true) m).
    { apply map_filter_ext. intros i x _. cbn. unfold ended. apply negb_false_iff. }
    destruct (reap_represents _ b m b1 r R E) as [[-> R']|(x & -> & Hx & R')].
    + left. rewrite K in *. eauto.
    + right. split; [by exists x|done].
Qed.

(** C36: The durable session store answers as the in-memory one. Whatever
    sequence of creations, reads, consumptions, saves and sweeps is run on the
    file, leaving out the operations the database itself failed, the in-memory
    store gives the same answers to the same sequence and ends with the same
    sessions; a failed operation changes nothing. *)
Theorem bolt_refines_memory ops b m b' tr :
  represents b m -> perform_all QrBolt ops b = (b', tr) ->
  exists kept m', kept `sublist_of` tr /\ perform_all Qr.MemStore kept.*1 m = (m', kept) /\ represents b' m' /\
    (forall p, p ∈ tr -> ~ failed_op p -> p ∈ kept) /\ ((forall p, ~ failed_op p) -> kept = tr).
Proof.
  revert b m b' tr. induction ops as [|o ops IH]; intros b m b' tr R; cbn [perform_all].
  { intros [= <- <-]. exists [], m. split_and!; [done|done|done| |done]. by intros p ?%elem_of_nil. }
  destruct (perform QrBolt o b) as [b1 a] eqn:E. destruct (perform_all QrBolt ops b1) as [b2 l] eqn:E2. intros [= <- <-].
  destruct (perform_refines o b m b1 a R E) as [(m1 & Em & R1)|[Hb R1]];
    destruct (IH _ _ _ _ R1 E2) as (kept & m' & Hs & Hm & R2 & Hk & Ha).
  - exists ((o, a) :: kept), m'. split_and!; [by constructor| |done| |].
    + cbn [list_fmap fmap perform_all fst]. rewrite Em. change (list_fmap _ _ fst kept) with kept.*1. by rewrite Hm.
    + intros p [->|Hp]%elem_of_cons Hn; [by left|right; by apply Hk].
    + intros Hn. by rewrite Ha.
  - exists kept, m'. split_and!; [by constructor|done|done| |].
    + intros p [->|Hp]%elem_of_cons Hn; [done|by apply Hk].
    + intros Hn. by destruct (Hn _ Hb).
Qed.
End SessionStore.

(** ** Lost updates between the two transactions of a save *)
Section SaveRace.
  Context {B : Type} `{BoltLaws B} `{Codec Multisign.Session}.

(** The put of [Save] does not see a deletion that came after its [Get]: the
    session that was canceled is in the file again. *)
Lemma save_resurrects_canceled id s s0 b b1 b2 :
  bolt_get Multisign.ErrNotFound id b = Ok s0 -> bolt_delete id b = (b1, None) -> bolt_put id s b1 = (b2, None) ->
  bolt_view b1 !! id = (None : option Multisign.Session) /\ bolt_view b2 !! id = Some s.
Proof.
  intros _ E1 E2. apply bolt_delete_ok in E1. apply bolt_put_ok in E2.
  rewrite E2, E1. by rewrite lookup_delete_eq, lookup_insert_eq.
Qed.
End SaveRace.

(** ** A database in memory *)
Definition lab_key_required := New "key required".
Global Instance lab_db : BoltDB (gmap string string) := {|
  bk_get := fun k b => b !! k;
  bk_put := fun k v b => if empty_str k then Err lab_key_required else Ok (<[k := v]> b);
  bk_delete := fun k b => Ok (delete k b);
  bk_entries := map_to_list;
  bk_keyn := fun b => Z.of_nat (size b);
  db_update := fun A f b => match f b with Ok (b', a) => (b', Ok a) | Err e => (b, Err e) end;
  db_view := fun A f b => f b;
|}.
Global Instance lab_db_laws : BoltLaws (gmap string string).
Proof.
  refine {| bk_view := fun b => b; db_failure := fun e => e = lab_key_required |};
    cbn [bk_get bk_put bk_delete bk_entries bk_keyn db_update db_view lab_db]; try done.
  - intros k v b. by destruct (empty_str k).
  - intros A f b. destruct (f b) as [[b' a]|e]; [by exists b'|by split; [|left]].
  - intros A f b. destruct (f b); [done|by left].
Defined.

Definition lab_session : Qr.Session :=
  Qr.mkSession "s1" Qr.ModeAuth Qr.ProfileAgnostic "CMS_SIGN_ONLY" FormatCMS true "n0nce" [] "" "web" "" "" "" ""
    "" Qr.StatusPending None None 0 100 false.
(** A codec for two sessions: the stored one and the consumed one. *)
Global Instance lab_codec : Codec Qr.Session.
Proof.
  refine {|
    cd_encode := fun s => if decide (s = lab_session) then Ok "new"
                          else if decide (s = Qr.mark_used lab_session) then Ok "used" else Err (New "json");
    cd_decode := fun raw => if str_eqb raw "new" then Ok lab_session
                            else if str_eqb raw "used" then Ok (Qr.mark_used lab_session) else Err (New "json");
  |}%string.
  intros v raw. destruct (decide (v = lab_session)) as [->|_]; [by intros [= <-]|].
  destruct (decide (v = _)) as [->|_]; by intros [= <-].
Defined.

Definition lab_ops : list op :=
  [OpCreate lab_session; OpGet "s2"; OpConsume "s1"; OpCreate (Qr.expired lab_session); OpConsume "s1"; OpReap 100]%string.

Lemma bolt_refines_memory_witness :
  exists kept m', perform_all QrBolt lab_ops (∅ : gmap string string) =
      (∅, [(OpCreate lab_session, ADone None); (OpGet "s2", ASession (Err Qr.ErrSessionNotFound));
           (OpConsume "s1", ASession (Ok (Qr.mark_used lab_session)));
           (OpCreate (Qr.expired lab_session), ADone (Some (New "json")));
           (OpConsume "s1", ASession (Err Qr.ErrSessionUsed)); (OpReap 100, ACount (Ok 1))])%string /\
    perform_all Qr.MemStore kept.*1 ∅ = (m', kept) /\ (OpConsume "s1", ASession (Ok (Qr.mark_used lab_session)))%string ∈ kept.
Proof.
  assert (E : perform_all QrBolt lab_ops (∅ : gmap string string) =
      (∅, [(OpCreate lab_session, ADone None); (OpGet "s2", ASession (Err Qr.ErrSessionNotFound));
           (OpConsume "s1", ASession (Ok (Qr.mark_used lab_session)));
           (OpCreate (Qr.expired lab_session), ADone (Some (New "json")));
           (OpConsume "s1", ASession (Err Qr.ErrSessionUsed)); (OpReap 100, ACount (Ok 1))])%string)
    by (vm_compute; reflexivity).
  destruct (bolt_refines_memory lab_ops ∅ ∅ _ _ (fmap_empty _) E) as (kept & m' & _ & Hm & _ & Hk & _).
  exists kept, m'. split; [exact E|]. split; [exact Hm|]. apply Hk.
  - right. right. left.
  - intros (e & He & _). done.
Defined.
End Bolt.
