(* ===== verification/Crl.v ===== *)
(** * The CRL store (internal/crl/crl.go)

    CRLs by distribution point: memory or spool directory, refetch past
    nextUpdate, the stale copy when that fails, least-recently-used eviction,
    and the consistency of a delta with its base. Each lock section is one
    function on the cache; between them a call reads bodies and downloads, and
    other calls run. The HTTP download, the file system, the X.509 and PEM
    parsers, SHA-256 and the readers of x/crypto/cryptobyte are parameters. *)
From S2P Require Import Prelude Errors Provider CoreTypes CertParse Chain Service Asn1.

Module Crl.

Definition maxCRLBytes : Z := 2 ^ 24.
Definition defaultMaxBytes : Z := 2 ^ 28.
Definition oidFreshestCRL : oid := [2; 5; 29; 46].
Definition oidDeltaCRLIndicator : oid := [2; 5; 29; 27].
Definition errNoBody := Sent "crl.errNoBody" "crl: cache entry has no body".

(** [entry]: a resident body ([None] is nil) or a spool file. *)
Record entry := mkEntry {
  en_der : option string; en_path : string; en_size : Z; en_next : time;
  en_number : option Z; en_base : option Z; en_aki : string; en_used : time;
}.
Record Config := mkConfig { cf_timeout : duration; cf_spool : string; cf_max : Z }.
(** The mutable part of [Cache]; [settings] is the rest. *)
Record cache := mkCache { cc_entries : gmap string entry; cc_total : Z; cc_hits : Z; cc_misses : Z }.
Record settings := mkSettings { st_spool : string; st_max : Z; st_timeout : duration }.
Definition set_entries (c : cache) (m : gmap string entry) (total : Z) : cache :=
  mkCache m total (cc_hits c) (cc_misses c).
(** The counters are 64-bit and atomic. *)
Definition hit (c : cache) : cache := mkCache (cc_entries c) (cc_total c) ((cc_hits c + 1) mod 2 ^ 64) (cc_misses c).
Definition miss (c : cache) : cache := mkCache (cc_entries c) (cc_total c) (cc_hits c) ((cc_misses c + 1) mod 2 ^ 64).
Definition Stats (c : cache) : Z * Z := (cc_hits c, cc_misses c).

(** What [x509] reads of a CRL and of a certificate. *)
Record revlist := mkRevlist {
  rl_next : time; rl_number : option Z; rl_aki : string; rl_exts : list (oid * string);
}.
Record crlcert := mkCrlCert { ct_points : list string; ct_exts : list (oid * string) }.
(** [cryptobyte.String]: the content of the next element of a tag and what
    follows it; whether the next element has a tag. Context tags 0 (constructed)
    and 6 (primitive) and SEQUENCE are the ones used. *)
Inductive cb_tag := CbSequence | CbContext0 | CbContext6.
Record parsers := mkParsers {
  ps_crl : string -> option revlist;
  ps_cert : string -> option crlcert;
  ps_pem : string -> option string;
  ps_sha_hex : string -> string;
  ps_read : cb_tag -> string -> option (string * string);
  ps_peek : cb_tag -> string -> bool;
}.
(** The files: each operation may fail. *)
Record files (W : Type) := mkFiles {
  fs_create_temp : M W (res goerr string);
  fs_write : string -> string -> M W (option goerr);
  fs_close : string -> M W (option goerr);
  fs_rename : string -> string -> M W (option goerr);
  fs_remove : string -> M W unit;
  fs_read : string -> M W (res goerr string);
  fs_mkdir : string -> M W (option goerr);
  fs_list : string -> M W (res goerr (list (string * bool)));
}.
Arguments fs_create_temp {W}. Arguments fs_write {W}. Arguments fs_close {W}. Arguments fs_rename {W}.
Arguments fs_remove {W}. Arguments fs_read {W}. Arguments fs_mkdir {W}. Arguments fs_list {W}.
Arguments mkFiles {W}.

(** ** Consistency and metadata *)
(** [consistent]. *)
Definition consistent (base delta : entry) : bool :=
  match en_base delta, en_number base with
  | Some d, Some b =>
      negb (b <? d) &&
      negb (negb (empty_str (en_aki base)) && negb (empty_str (en_aki delta))
            && negb (str_eqb (en_aki base) (en_aki delta)))
  | _, _ => false
  end.

Definition oid_eqb (a b : oid) : bool := bool_decide (a = b).

Section Parse.
  Variable ps : parsers.

(** [parseMeta]: nextUpdate, number, base number, key identifier. *)
Fixpoint delta_base (exts : list (oid * string)) (acc : option Z) : option Z :=
  match exts with
  | [] => acc
  | (id, value) :: t =>
      delta_base t (if oid_eqb id oidDeltaCRLIndicator
                    then match Unmarshal bigint_type None value with Ok (n, _) => n | Err _ => acc end
                    else acc)
  end.
Definition parseMeta (der : string) : time * option Z * option Z * string :=
  match ps_crl ps der with
  | None => (time_zero, None, None, ""%string)
  | Some rl => (rl_next rl, rl_number rl, delta_base (rl_exts rl) None, rl_aki rl)
  end.
Definition with_meta (der : option string) (path : string) (size : Z) (now : time)
    (m : time * option Z * option Z * string) : entry :=
  let '(next, number, base, aki) := m in mkEntry der path size next number base aki now.

(** [normalizeCRL]. *)
Definition normalizeCRL (body : string) : option string :=
  let der := match ps_pem ps body with Some b => b | None => body end in
  match ps_crl ps der with Some _ => Some der | None => None end.

(** [parseDistributionPointURIs]: the full names of one point, then the points. *)
Fixpoint names_loop (fuel : nat) (name : string) (urls : list string) : list string * bool :=
  match fuel with
  | O => (urls, true)
  | S f =>
      if empty_str name then (urls, true)
      else if negb (ps_peek ps CbContext6 name) then (urls, true)
      else match ps_read ps CbContext6 name with
           | None => (urls, false)
           | Some (uri, rest) => names_loop f rest (urls ++ [uri])
           end
  end.
(** The optional name of a point: not there, unreadable, or its content. *)
Definition read_optional (dp : string) : option (option string) :=
  if ps_peek ps CbContext0 dp then
    match ps_read ps CbContext0 dp with Some (name, _) => Some (Some name) | None => None end
  else Some None.
Fixpoint points_loop (fuel : nat) (val : string) (urls : list string) : list string :=
  match fuel with
  | O => urls
  | S f =>
      if empty_str val then urls
      else match ps_read ps CbSequence val with
           | None => urls
           | Some (dp, rest) =>
               match read_optional dp with
               | None => urls
               | Some None => points_loop f rest urls
               | Some (Some name) =>
                   match ps_read ps CbContext0 name with
                   | None => points_loop f rest urls
                   | Some (full, _) =>
                       let '(urls', go) := names_loop (String.length full) full urls in
                       if go then points_loop f rest urls' else urls'
                   end
               end
           end
  end.
Definition parseDistributionPointURIs (der : string) : list string :=
  match ps_read ps CbSequence der with
  | None => []
  | Some (val, _) => points_loop (String.length val) val []
  end.
(** [freshestCRLURLs]. *)
Fixpoint freshestCRLURLs (exts : list (oid * string)) : list string :=
  match exts with
  | [] => []
  | (id, value) :: t => if oid_eqb id oidFreshestCRL then parseDistributionPointURIs value else freshestCRLURLs t
  end.
(** [keyFor]. *)
Definition keyFor (url : string) : string := ps_sha_hex ps url.
End Parse.

(** ** The cache *)
(** [New]: the defaults; a spool directory that cannot be made turns the spool
    off. *)
Definition defaults (c : Config) : settings :=
  mkSettings (cf_spool c) (if cf_max c <=? 0 then defaultMaxBytes else cf_max c)
    (if cf_timeout c <=? 0 then 10 * second else cf_timeout c).
Definition empty_cache : cache := mkCache ∅ 0 0 0.

(** The lookup of [get] under the lock: the entry, its use noted. *)
Definition touch (key : string) (now : time) (c : cache) : cache * option entry :=
  match cc_entries c !! key with
  | None => (c, None)
  | Some e =>
      let e' := mkEntry (en_der e) (en_path e) (en_size e) (en_next e) (en_number e) (en_base e) (en_aki e) now in
      (set_entries c (<[key := e']> (cc_entries c)) (cc_total c), Some e')
  end.

(** The victim of a round of [evictLocked]: the first least recently used. *)
Definition older (acc : option (string * entry)) (p : string * entry) : option (string * entry) :=
  match acc with
  | None => Some p
  | Some q => if before (en_used (snd p)) (en_used (snd q)) then Some p else Some q
  end.
Definition victim (keep : string) (m : gmap string entry) : option (string * entry) :=
  fold_left older (map_to_list (delete keep m)) None.
(** [evictLocked]: the entries, their total size and the files to remove; the
    fuel is the number of entries. *)
Fixpoint evict_loop (fuel : nat) (max : Z) (keep : string) (m : gmap string entry) (total : Z)
    (gone : list string) : gmap string entry * Z * list string :=
  match fuel with
  | O => (m, total, gone)
  | S f =>
      if (max <? total) && (1 <? Z.of_nat (size m)) then
        match victim keep m with
        | None => (m, total, gone)
        | Some (k, e) =>
            evict_loop f max keep (delete k m) (total - en_size e)
              (if empty_str (en_path e) then gone else gone ++ [en_path e])
        end
      else (m, total, gone)
  end.
Definition evictLocked (max : Z) (keep : string) (m : gmap string entry) (total : Z) :=
  evict_loop (size m) max keep m total [].
(** The locked part of [store]. *)
Definition insert_locked (max : Z) (key : string) (e : entry) (c : cache) : cache * list string :=
  let old := cc_entries c !! key in
  let total := match old with Some o => cc_total c - en_size o | None => cc_total c end in
  let stale := match old with
               | Some o => if negb (empty_str (en_path o)) && negb (str_eqb (en_path o) (en_path e))
                           then [en_path o] else []
               | None => []
               end in
  let '(m, total', gone) := evictLocked max key (<[key := e]> (cc_entries c)) (total + en_size e) in
  (set_entries c m total', stale ++ gone).

Section Cache.
  Context {W : Type}.
  Variable ps : parsers.
  Variable fs : files W.
  Variable st : settings.
  Variable now : W -> time.
  (** [httpFetch], or the function a test puts in its place. *)
  Variable fetch : string -> M W (option string).

Definition clock : M (W * cache) time := mget (fun w => now (fst w)).
Fixpoint remove_all (paths : list string) : M W unit :=
  match paths with
  | [] => mret tt
  | p :: t => (let* _ := fs_remove fs p in remove_all t)%m
  end.

(** [writeFileAtomic]. *)
Definition writeFileAtomic (path data : string) : M W (option goerr) :=
  (let* tmp := fs_create_temp fs in
   match tmp with
   | Err e => mret (Some e)
   | Ok name =>
       let* err := fs_write fs name data in
       match err with
       | Some e => let* _ := fs_close fs name in let* _ := fs_remove fs name in mret (Some e)
       | None =>
           let* err := fs_close fs name in
           match err with
           | Some e => let* _ := fs_remove fs name in mret (Some e)
           | None =>
               let* err := fs_rename fs name path in
               match err with
               | Some e => let* _ := fs_remove fs name in mret (Some e)
               | None => mret None
               end
           end
       end
   end)%m.

(** [filepath.Join] of the spool directory, written in clean form. *)
Definition spool_file (key : string) : string := (st_spool st ++ "/" ++ key ++ ".crl")%string.

(** [body]. *)
Definition body (e : entry) : M W (res goerr string) :=
  match en_der e with
  | Some d => mret (Ok d)
  | None => if empty_str (en_path e) then mret (Err errNoBody) else fs_read fs (en_path e)
  end.

(** [store]. *)
Definition store (key der : string) : M (W * cache) entry :=
  (let* t := clock in
   let entry_of d path := with_meta d path (slen der) t (parseMeta ps der) in
   let* e := if empty_str (st_spool st) then mret (entry_of (Some der) ""%string)
             else let* err := in_world (writeFileAtomic (spool_file key) der) in
                  mret (match err with
                        | None => entry_of None (spool_file key)
                        | Some _ => entry_of (Some der) ""%string
                        end) in
   let* gone := in_store (insert_locked (st_max st) key e) in
   let* _ := in_world (remove_all gone) in
   mret e)%m.

(** What [get] returns: body, metadata, freshness; [None] is a miss. *)
Definition found : Type := option (string * entry * bool).
(** [staleFallback]. *)
Definition staleFallback (cached : option entry) : M (W * cache) found :=
  match cached with
  | None => mret None
  | Some e =>
      (let* b := in_world (body e) in
       mret (match b with Ok d => Some (d, e, false) | Err _ => None end))%m
  end.
(** The download of [get], after the miss is counted. *)
Definition refetch (url : string) (cached : option entry) : M (W * cache) found :=
  (let* _ := in_store (fun c => (miss c, tt)) in
   let* got := in_world (fetch url) in
   match got with
   | None => staleFallback cached
   | Some raw =>
       match normalizeCRL ps raw with
       | None => staleFallback cached
       | Some der => let* e := store (keyFor ps url) der in mret (Some (der, e, true))
       end
   end)%m.
(** [get]. *)
Definition get (url : string) : M (W * cache) found :=
  (let* t := clock in
   let* cached := in_store (touch (keyFor ps url) t) in
   let* t := clock in
   match cached with
   | Some e =>
       if negb (is_zero (en_next e)) && before t (en_next e) then
         let* b := in_world (body e) in
         match b with
         | Ok d => let* _ := in_store (fun c => (hit c, tt)) in mret (Some (d, e, true))
         | Err _ => refetch url cached
         end
       else refetch url cached
   | None => refetch url cached
   end)%m.

(** [first]. *)
Fixpoint first (urls : list string) : M (W * cache) found :=
  match urls with
  | [] => mret None
  | u :: t => (let* r := get u in match r with Some x => mret (Some x) | None => first t end)%m
  end.

(** [CRLFor]: the delta of a base. *)
Definition set_reason (r : CRLResult) (why : string) : CRLResult :=
  mkCRLResult (crr_base r) (crr_delta r) false (if empty_str (crr_reason r) then why else crr_reason r).
Definition overlay_delta (base_meta : entry) (delta : found) (r : CRLResult) : CRLResult :=
  match delta with
  | None => set_reason r "delta-unavailable"
  | Some (d, meta, fresh) =>
      if negb fresh then set_reason r "stale-delta"
      else if consistent base_meta meta then mkCRLResult (crr_base r) d (crr_reliable r) (crr_reason r)
      else set_reason r "delta-inconsistent"
  end.
Definition CRLFor (certDER : string) : M (W * cache) (option CRLResult) :=
  match ps_cert ps certDER with
  | None => mret None
  | Some cert =>
      (let* base := first (ct_points cert) in
       match base with
       | None => mret None
       | Some (b, meta, fresh) =>
           let r := mkCRLResult b "" fresh (if fresh then "" else "stale-base") in
           match freshestCRLURLs ps (ct_exts cert) with
           | [] => mret (Some r)
           | urls => let* delta := first urls in mret (Some (overlay_delta meta delta r))
           end
       end)%m
  end.

(** [warmStart]: the files of the directory, the unreadable ones removed. *)
Definition crl_name (name : string) : option string :=
  let n := String.length name in
  if (4 <=? n)%nat && str_eqb (sdrop (n - 4) name) ".crl" then Some (stake (n - 4) name) else None.
Definition adopt (p : string * bool) (c : cache) : M W cache :=
  match snd p, crl_name (fst p) with
  | false, Some key =>
      let path := (st_spool st ++ "/" ++ fst p)%string in
      (let* got := fs_read fs path in
       match got with
       | Err _ => mret c
       | Ok der =>
           match normalizeCRL ps der with
           | None => let* _ := fs_remove fs path in mret c
           | Some _ =>
               let* t := mget now in
               let e := with_meta None path (slen der) t (parseMeta ps der) in
               mret (set_entries c (<[key := e]> (cc_entries c)) (cc_total c + en_size e))
           end
       end)%m
  | _, _ => mret c
  end.
Definition warmStart : M W cache :=
  (let* ents := fs_list fs (st_spool st) in
   match ents with
   | Err _ => mret empty_cache
   | Ok l => mfold (fun c p => adopt p c) empty_cache l
   end)%m.
End Cache.

(** [New]. *)
Definition New {W} (ps : parsers) (fs : files W) (now : W -> time) (cfg : Config) : M W (settings * cache) :=
  let st := defaults cfg in
  if empty_str (st_spool st) then mret (st, empty_cache)
  else (let* err := fs_mkdir fs (st_spool st) in
        match err with
        | Some _ => mret (mkSettings "" (st_max st) (st_timeout st), empty_cache)
        | None => let* c := warmStart ps fs st now in mret (st, c)
        end)%m.

(** [httpFetch]: a bounded GET; the response is the status and the body, or
    nothing. *)
Definition httpFetch {W} (http_get : string -> M W (option (Z * string))) (url : string) : M W (option string) :=
  (let* r := http_get url in
   mret (match r with
         | Some (status, b) => if status =? 200 then Some (limit_reader maxCRLBytes b) else None
         | None => None
         end))%m.

(** ** Eviction *)
Definition total_size (m : gmap string entry) : Z := map_fold (fun _ e acc => en_size e + acc) 0 m.

Lemma total_size_insert k e m : m !! k = None -> total_size (<[k := e]> m) = en_size e + total_size m.
Proof. intros Hk. unfold total_size. rewrite map_fold_insert_L; [done|intros; lia|done]. Qed.
Lemma total_size_delete k e m : m !! k = Some e -> total_size (delete k m) = total_size m - en_size e.
Proof.
  intros Hk. rewrite <- (insert_delete_id m k e Hk) at 2.
  rewrite total_size_insert; [lia|apply lookup_delete_eq].
Qed.
Lemma total_size_replace k e e' m : m !! k = Some e ->
  total_size (<[k := e']> m) = total_size m - en_size e + en_size e'.
Proof.
  intros Hk. rewrite <- insert_delete_eq, total_size_insert by apply lookup_delete_eq.
  rewrite (total_size_delete k e m Hk). lia.
Qed.

Lemma older_fold l : forall acc q,
  fold_left older l acc = Some q ->
  (q ∈ l \/ acc = Some q) /\ forall p, p ∈ l \/ acc = Some p -> en_used (snd q) <= en_used (snd p).
Proof.
  induction l as [|x l IH]; intros acc q; cbn [fold_left].
  { intros ->. split; [by right|]. intros p [?%elem_of_nil|[= ->]]; [done|lia]. }
  intros [Hq Hm]%IH. unfold older, before in Hq, Hm. destruct acc as [a|].
  - destruct (Z.ltb_spec (en_used (snd x)) (en_used (snd a))).
    + split; [destruct Hq as [?|[= ->]]; left; [by right|left]|].
      intros p [[->|Hp]%elem_of_cons|[= ->]]; [by apply Hm; right|by apply Hm; left|].
      specialize (Hm x (or_intror eq_refl)). lia.
    + split; [destruct Hq as [?|?]; [left; by right|by right]|].
      intros p [[->|Hp]%elem_of_cons|[= ->]]; [|by apply Hm; left|by apply Hm; right].
      specialize (Hm a (or_intror eq_refl)). lia.
  - split; [destruct Hq as [?|[= ->]]; left; [by right|left]|].
    intros p [[->|Hp]%elem_of_cons|?]; [by apply Hm; right|by apply Hm; left|done].
Qed.

Lemma older_fold_some l acc : is_Some acc \/ l <> [] -> is_Some (fold_left older l acc).
Proof.
  revert acc. induction l as [|x l IH]; intros acc; cbn [fold_left]; [by intros [?|?]|]. intros _.
  apply IH. left. unfold older. destruct acc; [by destruct (before _ _); eexists|by eexists].
Qed.

(** The victim is another entry than the one kept, and none of the others was
    used longer ago. *)
Lemma victim_spec keep m k e :
  victim keep m = Some (k, e) ->
  k <> keep /\ m !! k = Some e /\ forall j x, j <> keep -> m !! j = Some x -> en_used e <= en_used x.
Proof.
  unfold victim. intros [Hq Hm]%older_fold. destruct Hq as [Hq|?]; [|done].
  apply elem_of_map_to_list, lookup_delete_Some in Hq as [Hk He]. split_and!; [done|done|].
  intros j x Hj Hx. apply (Hm (j, x)). left. by apply elem_of_map_to_list, lookup_delete_Some.
Qed.
Lemma victim_exists keep m : is_Some (m !! keep) -> (1 < size m)%nat -> is_Some (victim keep m).
Proof.
  intros [e He] Hs. apply older_fold_some. right. intros E%map_to_list_empty_iff.
  apply (f_equal size) in E. rewrite (map_size_delete_Some _ _ (mk_is_Some _ _ He)), map_size_empty in E. lia.
Qed.

Lemma crl_evict_loop_spec fuel max keep : forall m total gone m' total' gone',
  evict_loop fuel max keep m total gone = (m', total', gone') ->
  (size m <= fuel)%nat -> is_Some (m !! keep) -> total = total_size m ->
  m' ⊆ m /\ m' !! keep = m !! keep /\ total' = total_size m' /\ (total' <= max \/ size m' = 1%nat).
Proof.
  induction fuel as [|f IH]; intros m total gone m' total' gone' E Hf Hk Ht; cbn [evict_loop] in E.
  { destruct Hk as [e He]. assert (m = ∅) as -> by (apply map_size_empty_inv; lia). done. }
  destruct (Z.ltb_spec max total) as [Hm|Hm]; cbn [andb] in E.
  2:{ injection E as <- <- <-. split_and!; [done|done|done|left; lia]. }
  destruct (Z.ltb_spec 1 (Z.of_nat (size m))) as [Hs|Hs]; cbn [andb] in E.
  2:{ injection E as <- <- <-. split_and!; [done|done|done|right].
      destruct Hk as [e He]. enough (size m <> 0%nat) by lia. intros H0%map_size_empty_inv. by subst. }
  destruct (victim_exists keep m Hk ltac:(lia)) as [[k e] Hv]. rewrite Hv in E.
  apply victim_spec in Hv as (Hn & He & _).
  apply IH in E as (A & B & C & D).
  - split_and!; [|rewrite B; by apply lookup_delete_ne|done|done]. etrans; [exact A|apply delete_subseteq].
  - rewrite map_size_delete_Some by eauto. lia.
  - by rewrite lookup_delete_ne.
  - rewrite (total_size_delete k e m He). lia.
Qed.

(** ** The cache under interleaved calls *)
Definition meta_of (e : entry) : time * option Z * option Z * string :=
  (en_next e, en_number e, en_base e, en_aki e).

Section Sections.
  Variable ps : parsers.
  Variable max : Z.

(** An entry is resident, with its own metadata and size, or spooled. *)
Definition entry_ok (e : entry) : Prop :=
  match en_der e with
  | Some d => meta_of e = parseMeta ps d /\ en_size e = slen d /\ en_path e = ""%string
  | None => en_path e <> ""%string
  end.
Definition cache_ok (c : cache) : Prop :=
  cc_total c = total_size (cc_entries c) /\ map_Forall (fun _ => entry_ok) (cc_entries c) /\
  (cc_total c <= max \/ (size (cc_entries c) <= 1)%nat).

(** What calls do to the cache, one atomic section at a time. *)
Inductive section : cache -> cache -> Prop :=
| SecTouch key t c : section c (fst (touch key t c))
| SecHit c : section c (hit c)
| SecMiss c : section c (miss c)
| SecInsert key e c : entry_ok e -> section c (fst (insert_locked max key e c)).

Lemma touch_ok key t c : cache_ok c -> cache_ok (fst (touch key t c)).
Proof.
  intros (Ht & He & Hb). unfold touch. destruct (cc_entries c !! key) as [e|] eqn:Ek; [|done].
  cbn [fst]. set (e' := mkEntry _ _ _ _ _ _ _ _). split_and!; cbn [cc_total cc_entries set_entries].
  - rewrite (total_size_replace key e e' _ Ek), Ht. cbn. lia.
  - apply map_Forall_insert_2; [|done]. pose proof (He _ _ Ek) as Ho. exact Ho.
  - rewrite map_size_insert, Ek. done.
Qed.

Lemma insert_locked_ok key e c : cache_ok c -> entry_ok e -> cache_ok (fst (insert_locked max key e c)).
Proof.
  intros (Ht & Ho & _) He. unfold insert_locked. destruct (evictLocked _ _ _ _) as [[m total] gone] eqn:E.
  apply crl_evict_loop_spec in E as (A & B & C & D); [|done|by rewrite lookup_insert_eq; eexists|].
  - split_and!; cbn [fst cc_total cc_entries set_entries]; [done| |destruct D; [by left|right; lia]].
    intros k x Hx. eapply lookup_weaken in Hx; [|exact A]. by eapply (map_Forall_insert_2 _ _ _ _ He Ho).
  - destruct (cc_entries c !! key) as [o|] eqn:Ek.
    + rewrite (total_size_replace key o e _ Ek). lia.
    + rewrite total_size_insert by done. lia.
Qed.

Lemma section_ok c c' : section c c' -> cache_ok c -> cache_ok c'.
Proof. intros S Hc. destruct S; [by apply touch_ok|exact Hc|exact Hc|by apply insert_locked_ok]. Qed.

Lemma sections_ok c c' : rtc section c c' -> cache_ok c -> cache_ok c'.
Proof. induction 1; eauto using section_ok. Qed.

Lemma empty_ok : cache_ok empty_cache.
Proof. split_and!; [done|apply map_Forall_empty|right; cbn; rewrite map_size_empty; lia]. Qed.

(** The CRL cache keeps its bounds and its metadata. However the lock
    sections of concurrent calls interleave, from an empty cache the recorded
    total is the sum of the entries' sizes, it is within the cap unless a single
    CRL is held, and every resident CRL carries the nextUpdate, numbers and key
    identifier read from that very CRL. *)
Theorem crl_cache_bounded c :
  rtc section empty_cache c ->
  cc_total c = total_size (cc_entries c) /\ (cc_total c <= max \/ (size (cc_entries c) <= 1)%nat) /\
  forall key e d, cc_entries c !! key = Some e -> en_der e = Some d ->
    meta_of e = parseMeta ps d /\ en_size e = slen d.
Proof.
  intros H. destruct (sections_ok _ _ H empty_ok) as (Ht & Ho & Hb). split_and!; [done|done|].
  intros key e d Hk Hd. pose proof (Ho _ _ Hk) as He. unfold entry_ok in He. rewrite Hd in He. by destruct He as (? & ? & _).
Qed.
End Sections.

Section CacheProofs.
  Context {W : Type}.
  Variable ps : parsers.
  Variable fs : files W.
  Variable st : settings.
  Variable now : W -> time.
  Variable fetch : string -> M W (option string).
Notation get := (get ps fs st now fetch).
Notation first := (first ps fs st now fetch).
Notation CRLFor := (CRLFor ps fs st now fetch).
Notation sections := (rtc (section ps (st_max st))).

Lemma spool_file_nonempty key : spool_file st key <> ""%string.
Proof. unfold spool_file. by destruct (st_spool st). Qed.

Lemma with_meta_fields d path n t m : meta_of (with_meta d path n t m) = m.
Proof. by destruct m as [[[? ?] ?] ?]. Qed.
Lemma with_meta_der d path n t m : en_der (with_meta d path n t m) = d.
Proof. by destruct m as [[[? ?] ?] ?]. Qed.
Lemma with_meta_path d path n t m : en_path (with_meta d path n t m) = path.
Proof. by destruct m as [[[? ?] ?] ?]. Qed.
Lemma with_meta_size d path n t m : en_size (with_meta d path n t m) = n.
Proof. by destruct m as [[[? ?] ?] ?]. Qed.

(** [store] records the CRL's own metadata and is one section. *)
Lemma store_sections key der w c w' c' e :
  store ps fs st now key der (w, c) = Done ((w', c'), e) ->
  meta_of e = parseMeta ps der /\ entry_ok ps e /\ sections c c'.
Proof.
  unfold store. intros ([w1 c1] & t & E & H)%mbind_done. injection E as <- <- <-.
  apply mbind_done in H as ([w2 c2] & e2 & E & H).
  assert (Hc : c2 = c /\ entry_ok ps e2 /\ meta_of e2 = parseMeta ps der).
  { destruct (empty_str (st_spool st)).
    - apply mret_done in E as [[= -> ->] ->]. split; [done|]. split; [|apply with_meta_fields].
      unfold entry_ok. by rewrite with_meta_der, with_meta_fields, with_meta_size, with_meta_path.
    - apply mbind_done in E as ([w3 c3] & err & E & H3). apply in_world_done in E as [-> _].
      apply mret_done in H3 as [[= -> ->] ->]. split; [done|]. split; [|destruct err; apply with_meta_fields].
      unfold entry_ok. destruct err; rewrite with_meta_der, ?with_meta_path.
      + by rewrite with_meta_fields, with_meta_size.
      + apply spool_file_nonempty. }
  destruct Hc as (-> & Ho & Hm). apply mbind_done in H as ([w3 c3] & gone & E3 & H). apply in_store_done in E3 as [-> E3].
  apply mbind_done in H as ([w4 c4] & u & E4 & H). apply in_world_done in E4 as [-> _].
  apply mret_done in H as [[= -> ->] ->]. split_and!; [done|done|]. apply rtc_once.
  pose proof (SecInsert ps (st_max st) key e2 c Ho) as S. by rewrite E3 in S.
Qed.

(** ** What [get] serves *)
Definition from_network (url der : string) (meta : entry) : Prop :=
  exists w1 w2 raw, fetch url w1 = Done (w2, Some raw) /\ normalizeCRL ps raw = Some der /\
    meta_of meta = parseMeta ps der.
Definition from_cache (url der : string) (c : cache) (meta : entry) : Prop :=
  exists e, cc_entries c !! keyFor ps url = Some e /\ meta_of meta = meta_of e /\
    (en_der e = Some der \/ (en_der e = None /\ exists w1 w2, fs_read fs (en_path e) w1 = Done (w2, Ok der))).

Lemma body_spec e w w' d :
  body fs e w = Done (w', Ok d) ->
  en_der e = Some d \/ (en_der e = None /\ exists w1 w2, fs_read fs (en_path e) w1 = Done (w2, Ok d)).
Proof.
  unfold body. destruct (en_der e) as [x|]; [by intros [_ [= ->]]%mret_done; left|].
  destruct (empty_str (en_path e)); [by intros [_ ?]%mret_done|]. intros E. right. eauto.
Qed.

Lemma staleFallback_spec cached w c w' c' r :
  staleFallback fs cached (w, c) = Done ((w', c'), r) ->
  c' = c /\ match r with
            | None => True
            | Some (d, meta, fresh) => cached = Some meta /\ fresh = false /\ exists w1, body fs meta w = Done (w1, Ok d)
            end.
Proof.
  unfold staleFallback. destruct cached as [e|]; [|by intros [[= -> ->] ->]%mret_done].
  intros ([w1 c1] & b & E & H)%mbind_done. apply in_world_done in E as [-> E].
  apply mret_done in H as [[= -> ->] ->]. split; [done|]. destruct b as [d|x]; [|done]. eauto.
Qed.

Lemma refetch_spec url cached w c w' c' r :
  refetch ps fs st now fetch url cached (w, c) = Done ((w', c'), r) ->
  sections c c' /\ match r with
  | None => True
  | Some (d, meta, true) => from_network url d meta
  | Some (d, meta, false) => cached = Some meta /\ (exists w1 w2, body fs meta w1 = Done (w2, Ok d)) /\
      exists got w2, fetch url w = Done (w2, got) /\ match got with Some raw => normalizeCRL ps raw = None | None => True end
  end.
Proof.
  unfold refetch. intros ([w1 c1] & u & E & H)%mbind_done. apply in_store_done in E as [-> [= <- <-]].
  assert (M : sections c (miss c)) by (apply rtc_once; constructor).
  apply mbind_done in H as ([w2 c2] & got & E & H). apply in_world_done in E as [-> E].
  destruct got as [raw|].
  - destruct (normalizeCRL ps raw) as [der|] eqn:En.
    + apply mbind_done in H as ([w3 c3] & e & Es & H). apply store_sections in Es as (Hm & _ & Hs).
      apply mret_done in H as [[= -> ->] ->]. split; [by etrans|]. exists w, w2, raw. done.
    + apply staleFallback_spec in H as [-> H]. split; [done|].
      destruct r as [[[d meta] [|]]|]; [by destruct H as (_ & ? & _)| |done].
      destruct H as (-> & _ & w3 & Hb). split_and!; [done|by eauto|]. exists (Some raw), w2. done.
  - apply staleFallback_spec in H as [-> H]. split; [done|].
    destruct r as [[[d meta] [|]]|]; [by destruct H as (_ & ? & _)| |done].
    destruct H as (-> & _ & w3 & Hb). split_and!; [done|by eauto|]. by exists None, w2.
Qed.

Lemma get_spec url w c w' c' r :
  get url (w, c) = Done ((w', c'), r) ->
  sections c c' /\ match r with
  | None => True
  | Some (der, meta, fresh) =>
      (fresh = true /\ from_network url der meta) \/
      (from_cache url der c meta /\
       (fresh = true -> en_next meta <> time_zero /\ now w < en_next meta) /\
       (fresh = false -> exists got w1 w2, fetch url w1 = Done (w2, got) /\
          match got with Some raw => normalizeCRL ps raw = None | None => True end))
  end.
Proof.
  unfold Crl.get. intros ([w1 c1] & t & E & H)%mbind_done. injection E as <- <- <-.
  apply mbind_done in H as ([w2 c2] & cached & E & H). apply in_store_done in E as [-> E]. cbn [fst] in E.
  assert (T : sections c c2).
  { apply rtc_once. pose proof (SecTouch ps (st_max st) (keyFor ps url) (now w) c) as S. by rewrite E in S. }
  assert (K : forall e, cached = Some e -> exists e0, cc_entries c !! keyFor ps url = Some e0 /\
    meta_of e = meta_of e0 /\ en_der e = en_der e0 /\ en_path e = en_path e0).
  { intros e ->. unfold touch in E. destruct (cc_entries c !! _) as [e0|] eqn:E0; [|done].
    injection E as _ <-. exists e0. done. }
  assert (B : forall e d, cached = Some e -> (exists w1 w2, body fs e w1 = Done (w2, Ok d)) -> from_cache url d c e).
  { intros e d Hc (w3 & w4 & Hb%body_spec). destruct (K e Hc) as (e0 & E0 & Hm & Hd & Hp).
    exists e0. rewrite <- Hd, <- Hp. done. }
  apply mbind_done in H as ([w3 c3] & t & E3 & H). injection E3 as <- <- <-. cbn [fst] in H.
  assert (F : forall w4, refetch ps fs st now fetch url cached (w4, c2) = Done ((w', c'), r) -> sections c c' /\ match r with
  | None => True
  | Some (der, meta, fresh) =>
      (fresh = true /\ from_network url der meta) \/
      (from_cache url der c meta /\
       (fresh = true -> en_next meta <> time_zero /\ now w < en_next meta) /\
       (fresh = false -> exists got w1 w2, fetch url w1 = Done (w2, got) /\
          match got with Some raw => normalizeCRL ps raw = None | None => True end))
  end).
  { intros w4 [Hs Hr]%refetch_spec. split; [by etrans|]. destruct r as [[[d meta] [|]]|]; [by left| |done].
    destruct Hr as (Hc & Hb & got & w5 & Hf & Hn). right. split_and!; [by apply B|done|]. intros _. by exists got, w4, w5. }
  destruct cached as [e|]; [|by eapply F].
  destruct (negb (is_zero (en_next e)) && before (now w) (en_next e)) eqn:Ef; [|by eapply F].
  apply mbind_done in H as ([w4 c4] & b & Eb & H). apply in_world_done in Eb as [-> Eb].
  destruct b as [d|x]; [|by eapply F].
  apply mbind_done in H as ([w5 c5] & u & Eh & H). apply in_store_done in Eh as [-> [= <- <-]].
  apply mret_done in H as [[= -> ->] ->]. split; [etrans; [exact T|apply rtc_once; constructor]|]. right.
  boolp. split_and!; [apply B; [done|by eauto]| |done].
  intros _. unfold before, is_zero, time_zero in *. lia.
Qed.

(** What the CRL cache serves. A CRL called fresh was downloaded from that
    URL by this call, or its cached copy is used strictly before its nextUpdate;
    one called stale is the last cached copy, and the download of this call
    failed or was no CRL. Metadata of a downloaded CRL are its own. *)
Theorem crl_served_sound url w c w' c' der meta fresh :
  get url (w, c) = Done ((w', c'), Some (der, meta, fresh)) ->
  (fresh = true /\ from_network url der meta) \/
  (from_cache url der c meta /\
   (fresh = true -> en_next meta <> time_zero /\ now w < en_next meta) /\
   (fresh = false -> exists got w1 w2, fetch url w1 = Done (w2, got) /\
      match got with Some raw => normalizeCRL ps raw = None | None => True end)).
Proof. by intros [_ H]%get_spec. Qed.

Lemma first_spec urls w c w' c' r :
  first urls (w, c) = Done ((w', c'), r) ->
  sections c c' /\ forall x, r = Some x -> exists u s s', u ∈ urls /\ get u s = Done (s', Some x).
Proof.
  revert w c. induction urls as [|u urls IH]; intros w c; cbn [Crl.first].
  { intros [[= -> ->] ->]%mret_done. done. }
  intros ([w1 c1] & g & E & H)%mbind_done. pose proof (get_spec _ _ _ _ _ _ E) as [Hs _]. destruct g as [x|].
  - apply mret_done in H as [[= -> ->] ->]. split; [done|]. intros y [= <-].
    exists u, (w, c), (w1, c1). split; [by left|done].
  - apply IH in H as [Hs' Hx]. split; [by etrans|]. intros y Hy. destruct (Hx y Hy) as (v & s & s' & Hv & Hg).
    exists v, s, s'. split; [by right|done].
Qed.

(** What a call leaves behind: it is a sequence of sections. *)
Lemma CRLFor_sections der w c w' c' r :
  CRLFor der (w, c) = Done ((w', c'), r) -> sections c c'.
Proof.
  unfold Crl.CRLFor. destruct (ps_cert ps der) as [cert|]; [|by intros [[= -> ->] _]%mret_done].
  intros ([w1 c1] & b & E & H)%mbind_done. apply first_spec in E as [Hs _].
  destruct b as [[[b meta] fresh]|]; [|by apply mret_done in H as [[= -> ->] _]].
  destruct (freshestCRLURLs ps _) as [|u us]; [by apply mret_done in H as [[= -> ->] _]|].
  apply mbind_done in H as ([w2 c2] & d & E & H). apply first_spec in E as [Hs' _].
  apply mret_done in H as [[= -> ->] _]. by etrans.
Qed.

(** The base and the delta of an answer. *)
Lemma CRLFor_spec der w c w' c' r :
  CRLFor der (w, c) = Done ((w', c'), Some r) ->
  exists cert u s s' meta fresh, ps_cert ps der = Some cert /\ u ∈ ct_points cert /\
    get u s = Done (s', Some (crr_base r, meta, fresh)) /\ (crr_reliable r = true -> fresh = true) /\
    (crr_reliable r = false -> crr_reason r <> ""%string) /\
    (crr_delta r <> ""%string -> exists u' s1 s2 dmeta, u' ∈ freshestCRLURLs ps (ct_exts cert) /\
       get u' s1 = Done (s2, Some (crr_delta r, dmeta, true)) /\ consistent meta dmeta = true).
Proof.
  unfold Crl.CRLFor. destruct (ps_cert ps der) as [cert|]; [|by intros [_ ?]%mret_done].
  intros ([w1 c1] & b & E & H)%mbind_done. apply first_spec in E as [_ Hb].
  destruct b as [[[b meta] fresh]|]; [|by apply mret_done in H as [_ ?]].
  destruct (Hb _ eq_refl) as (u & s & s' & Hu & Hg).
  destruct (freshestCRLURLs ps _) as [|v vs] eqn:Ev.
  { apply mret_done in H as [_ [= ->]]. exists cert, u, s, s', meta, fresh. cbn. by split_and!; destruct fresh. }
  apply mbind_done in H as ([w2 c2] & d & E & H). apply first_spec in E as [_ Hd].
  apply mret_done in H as [_ [= ->]]. exists cert, u, s, s', meta, fresh.
  destruct d as [[[d dmeta] dfresh]|]; cbn [overlay_delta]; [destruct (Hd _ eq_refl) as (u' & s1 & s2 & Hu' & Hg')|].
  2:{ cbn. split_and!; try done. by destruct fresh. }
  destruct dfresh; cbn [negb]; [destruct (consistent meta dmeta) eqn:Ec|];
    (split_and!; [done|done|done|try by destruct fresh|try by destruct fresh|try done]).
  intros _. rewrite Ev. by exists u', s1, s2, dmeta.
Qed.

Lemma consistent_spec base delta :
  consistent base delta = true ->
  exists d b, en_base delta = Some d /\ en_number base = Some b /\ d <= b /\
    (en_aki base <> ""%string -> en_aki delta <> ""%string -> en_aki base = en_aki delta).
Proof.
  unfold consistent. destruct (en_base delta) as [d|], (en_number base) as [b|]; try done. intros Hc.
  exists d, b. apply andb_true_iff in Hc as [H1 H2]. apply negb_true_iff, Z.ltb_ge in H1.
  split_and!; [done|done|done|]. intros A B. apply negb_true_iff in H2.
  apply empty_str_false in A, B. rewrite A, B in H2. cbn in H2. by apply negb_false_iff, str_eqb_eq in H2.
Qed.

(** A CRL check only uses a CRL that may be used. When the service, asked for
    a CRL check and given no CRL, settles on one from this store, the base was
    served fresh from a distribution point of the certificate, and a delta is
    overlaid only when it was served fresh from its Freshest-CRL points, its base
    number does not exceed the number of that base, and the key identifiers, where
    both are present, are equal. *)
Theorem crl_source_sound (sv : service (W * cache)) i der w c w' c' ch :
  crl sv = Some CRLFor -> va_crl i = ""%string ->
  resolve_crl sv MethodCRL i der (w, c) = Done ((w', c'), Ok ch) -> ch_method ch = MethodCRL ->
  exists cert u s s' meta, ps_cert ps der = Some cert /\ u ∈ ct_points cert /\
    get u s = Done (s', Some (ch_crl ch, meta, true)) /\
    (ch_delta ch <> ""%string -> exists u' s1 s2 dmeta d b, u' ∈ freshestCRLURLs ps (ct_exts cert) /\
       get u' s1 = Done (s2, Some (ch_delta ch, dmeta, true)) /\
       en_base dmeta = Some d /\ en_number meta = Some b /\ d <= b /\
       (en_aki meta <> ""%string -> en_aki dmeta <> ""%string -> en_aki meta = en_aki dmeta)).
Proof.
  intros Hs Hi. unfold resolve_crl. rewrite bool_decide_true by done. cbn [negb]. rewrite Hi, Hs. cbn [empty_str str_eqb negb].
  change (negb (String.eqb "" "")) with false. cbv iota.
  intros ([w1 c1] & r & E & H)%mbind_done. apply mret_done in H as [_ H]. intros Hm.
  destruct r as [r|]; [|by destruct (crlFailHard sv); simplify_eq/=].
  destruct (crr_reliable r) eqn:Er; [|by destruct (crlFailHard sv); simplify_eq/=].
  injection H as ->. apply CRLFor_spec in E as (cert & u & s & s' & meta & fresh & Hc & Hu & Hg & Hf & _ & Hd).
  rewrite (Hf Er) in Hg. exists cert, u, s, s', meta. split_and!; [done|done|done|].
  intros (u' & s1 & s2 & dmeta & Hu' & Hg' & Hcon)%Hd. apply consistent_spec in Hcon as (d & b & Hcon).
  exists u', s1, s2, dmeta, d, b. naive_solver.
Qed.

(** A CRL downloaded past its own nextUpdate is called fresh. *)
Lemma refetched_expired_is_fresh url raw der next number base aki w w1 :
  st_spool st = ""%string -> fetch url w = Done (w1, Some raw) -> normalizeCRL ps raw = Some der ->
  parseMeta ps der = (next, number, base, aki) -> next < now w ->
  exists s meta, get url (w, empty_cache) = Done (s, Some (der, meta, true)) /\ en_next meta < now w.
Proof.
  intros Hsp Hf Hn Hm Hlt. unfold Crl.get, touch. unfold refetch, store, clock, mget, in_store, in_world, mbind_.
  cbn [fst empty_cache cc_entries]. rewrite lookup_empty. cbn [fst]. rewrite Hf, Hn. cbn [fst]. rewrite Hsp.
  change (empty_str "") with true. cbv iota. cbn [mret]. rewrite Hm.
  destruct (insert_locked _ _ _ _) as [c2 gone] eqn:Ei. assert (G : gone = []).
  { revert Ei. unfold insert_locked, evictLocked. cbn [cc_entries miss empty_cache].
    rewrite lookup_empty, insert_empty, map_size_singleton. cbn [evict_loop]. rewrite map_size_singleton.
    rewrite andb_false_r. by intros [= _ <-]. }
  subst gone. cbn [remove_all mret]. eexists _, _. split; [done|done].
Qed.
End CacheProofs.

(** ** The spool write *)
(** What the file system promises: a temporary file is a new one, a rename
    replaces in one step, a failed operation leaves the other files alone. *)
Class FilesLaws {W} (fs : files W) := {
  fv : W -> gmap string string;
  fv_create : forall w w' r, fs_create_temp fs w = Done (w', r) ->
    match r with Ok n => fv w !! n = None /\ fv w' = <[n := ""%string]> (fv w) | Err _ => fv w' = fv w end;
  fv_write : forall n d w w' r, fs_write fs n d w = Done (w', r) ->
    exists written, fv w' = <[n := written]> (fv w) /\ (r = None -> written = d);
  fv_close : forall n w w' r, fs_close fs n w = Done (w', r) -> fv w' = fv w;
  fv_rename : forall n p w w' r, fs_rename fs n p w = Done (w', r) ->
    match r with
    | None => exists d, fv w !! n = Some d /\ fv w' = <[p := d]> (delete n (fv w))
    | Some _ => fv w' = fv w
    end;
  fv_remove : forall n w w' u, fs_remove fs n w = Done (w', u) -> fv w' = fv w \/ fv w' = delete n (fv w);
}.

Section Spool.
  Context {W : Type} (fs : files W) `{FilesLaws W fs}.

(** A write either leaves the CRL that was there or replaces it whole, and says
    which; every other file stays, the temporary one aside. *)
Lemma writeFileAtomic_atomic path data w w' r old :
  fv w !! path = Some old ->
  writeFileAtomic fs path data w = Done (w', r) ->
  (r = None -> fv w' !! path = Some data) /\ (r <> None -> fv w' !! path = Some old) /\
  forall p x, p <> path -> fv w !! p = Some x -> fv w' !! p = Some x.
Proof.
  intros Hp. unfold writeFileAtomic. intros (w1 & tmp & E1 & H1)%mbind_done. apply fv_create in E1.
  destruct tmp as [n|e]; [|apply mret_done in H1 as [-> ->]; rewrite E1; by split_and!].
  destruct E1 as [Hn E1]. assert (Np : n <> path) by congruence.
  assert (R : forall wa wb d, fv wa = <[n := d]> (fv w) -> fv wb = fv wa \/ fv wb = delete n (fv wa) ->
    fv wb !! path = Some old /\ forall p x, p <> path -> fv w !! p = Some x -> fv wb !! p = Some x).
  { intros wa wb d Ea Eb. assert (K : forall p x, p <> n -> fv w !! p = Some x -> fv wb !! p = Some x).
    { intros p x Hx Hw. destruct Eb as [-> | ->]; rewrite Ea, ?lookup_delete_ne by done; by rewrite lookup_insert_ne. }
    split; [by apply K|]. intros p x _ Hx. apply K; [congruence|done]. }
  apply mbind_done in H1 as (w2 & err & E2 & H1). apply fv_write in E2 as (d & E2 & Hd).
  rewrite E1, insert_insert_eq in E2. destruct err as [e|].
  { apply mbind_done in H1 as (w3 & e3 & E3%fv_close & H1). apply mbind_done in H1 as (w4 & u & E4%fv_remove & H1).
    apply mret_done in H1 as [-> ->]. rewrite E3 in E4. by destruct (R w2 w4 d E2 E4). }
  apply mbind_done in H1 as (w3 & err & E3%fv_close & H1). rewrite <- E3 in E2. destruct err as [e|].
  { apply mbind_done in H1 as (w4 & u & E4%fv_remove & H1). apply mret_done in H1 as [-> ->].
    by destruct (R w3 w4 d E2 E4). }
  apply mbind_done in H1 as (w4 & err & E4%fv_rename & H1). destruct err as [e|].
  { rewrite <- E4 in E2. apply mbind_done in H1 as (w5 & u & E5%fv_remove & H1). apply mret_done in H1 as [-> ->].
    by destruct (R w4 w5 d E2 E5). }
  apply mret_done in H1 as [-> ->]. destruct E4 as (d' & E4 & E5). rewrite E2, lookup_insert_eq in E4.
  injection E4 as <-. rewrite (Hd eq_refl) in *. split_and!; [by rewrite E5, lookup_insert_eq|done|].
  intros p x Hx Hw. rewrite E5, lookup_insert_ne, E2 by done. rewrite delete_insert_eq, lookup_delete_ne; [done|congruence].
Qed.
End Spool.

(** ** The distribution points end *)
Section Points.
  Variable ps : parsers.
  (** Reading an element leaves less to read. *)
  Hypothesis read_shrinks : forall t s c r, ps_read ps t s = Some (c, r) -> (String.length r < String.length s)%nat.

Lemma names_loop_fuel f1 f2 name urls :
  (String.length name <= f1)%nat -> (String.length name <= f2)%nat ->
  names_loop ps f1 name urls = names_loop ps f2 name urls.
Proof.
  revert f2 name urls. induction f1 as [|f1 IH]; intros f2 name urls H1 H2.
  { destruct name; [|cbn in H1; lia]. by destruct f2. }
  destruct f2 as [|f2]; [destruct name; [done|cbn in H2; lia]|]. cbn [names_loop].
  destruct (empty_str name); [done|]. destruct (negb _); [done|].
  destruct (ps_read ps CbContext6 name) as [[uri rest]|] eqn:E; [|done]. apply read_shrinks in E. apply IH; lia.
Qed.

(** The loop over the points stops by itself: any fuel of at least the length of
    what is to be read gives the same URLs. *)
Lemma points_loop_fuel f1 f2 val urls :
  (String.length val <= f1)%nat -> (String.length val <= f2)%nat ->
  points_loop ps f1 val urls = points_loop ps f2 val urls.
Proof.
  revert f2 val urls. induction f1 as [|f1 IH]; intros f2 val urls H1 H2.
  { destruct val; [|cbn in H1; lia]. by destruct f2. }
  destruct f2 as [|f2]; [destruct val; [done|cbn in H2; lia]|]. cbn [points_loop].
  destruct (empty_str val); [done|]. destruct (ps_read ps CbSequence val) as [[dp rest]|] eqn:E; [|done].
  apply read_shrinks in E. destruct (read_optional ps dp) as [[name|]|]; [|apply IH; lia|done].
  destruct (ps_read ps CbContext0 name) as [[full r2]|]; [|apply IH; lia].
  destruct (names_loop _ _ _ _) as [urls' []]; [apply IH; lia|done].
Qed.
End Points.

(** ** A base and its delta *)
Definition lab_read (t : cb_tag) (s : string) : option (string * string) :=
  match t, s with
  | CbSequence, "ext" => Some ("points", "") | CbSequence, "points" => Some ("point", "")
  | CbContext0, "point" => Some ("name", "") | CbContext0, "name" => Some ("uris", "")
  | CbContext6, "uris" => Some ("http://delta", "")
  | _, _ => None
  end%string.
Definition lab_parsers : parsers := mkParsers
  (fun der => match der with
              | "base" => Some (mkRevlist 100 (Some 5) "k" [])
              | "delta" => Some (mkRevlist 50 (Some 6) "k"
                                   [(oidDeltaCRLIndicator, element ClassUniversal TagInteger false (String (byte_of 5) ""))])
              | _ => None
              end%string)
  (fun der => if str_eqb der "cert" then Some (mkCrlCert ["http://gone"; "http://base"] [(oidFreshestCRL, "ext")]) else None)%string
  (fun _ => None) (fun url => url) lab_read (fun _ _ => true).
Definition lab_files : files Z := mkFiles (mret (Err errNoBody)) (fun _ _ => mret None) (fun _ => mret None)
  (fun _ _ => mret None) (fun _ => mret tt) (fun _ => mret (Err errNoBody)) (fun _ => mret None) (fun _ => mret (Ok [])).
Definition lab_fetch (url : string) : M Z (option string) :=
  mret (match url with "http://base" => Some "base" | "http://delta" => Some "delta" | _ => None end)%string.
Definition lab_settings : settings := defaults (mkConfig 0 "" 0).
Definition lab_CRLFor := CRLFor lab_parsers lab_files lab_settings (fun w => w) lab_fetch.
Definition lab_entry (key : string) (t : time) : entry :=
  with_meta (Some key) "" (slen key) t (parseMeta lab_parsers key).
Definition lab_cache : cache :=
  mkCache {["http://base"%string := lab_entry "base" 7; "http://delta"%string := lab_entry "delta" 7]} 9 0 3.

Lemma crl_served_sound_witness :
  get lab_parsers lab_files lab_settings (fun w => w) lab_fetch "http://base" (60, lab_cache) =
    Done ((60, hit (fst (touch "http://base" 60 lab_cache))), Some ("base"%string, lab_entry "base" 60, true)) /\
  (from_network lab_parsers lab_fetch "http://base" "base" (lab_entry "base" 60) \/ 60 < en_next (lab_entry "base" 60)).
Proof.
  assert (E : get lab_parsers lab_files lab_settings (fun w => w) lab_fetch "http://base" (60, lab_cache) =
    Done ((60, hit (fst (touch "http://base" 60 lab_cache))), Some ("base"%string, lab_entry "base" 60, true)))
    by (vm_compute; reflexivity).
  split; [exact E|].
  destruct (crl_served_sound _ _ _ _ _ _ _ _ _ _ _ _ _ E) as [[_ H]|(_ & H & _)]; [left; exact H|right; apply H; reflexivity].
Defined.

Lemma crl_cache_bounded_witness :
  exists c, lab_CRLFor "cert" (7, empty_cache) = Done ((7, c), Some (mkCRLResult "base" "delta" true ""%string)) /\
    cc_total c = 9 /\ total_size (cc_entries c) = 9.
Proof.
  exists lab_cache. assert (E : lab_CRLFor "cert" (7, empty_cache) = Done ((7, lab_cache), Some (mkCRLResult "base" "delta" true ""%string)))
    by (vm_compute; reflexivity).
  split; [exact E|]. split; [reflexivity|]. symmetry.
  exact (proj1 (crl_cache_bounded lab_parsers (st_max lab_settings) lab_cache (CRLFor_sections _ _ _ _ _ _ _ _ _ _ _ E))).
Defined.

Definition lab_service : service (Z * cache) :=
  mkService _ (mkProviderPort _ (mkCaps "2.0.13" 1 true true true true true true true true true true true) (fun _ => mret (""%string, None)) (fun _ => mret (""%string, None))
    (fun _ => mret (""%string, None)) (fun _ => mlift Panic) (fun _ => mlift Panic) (fun _ _ => mret (""%string, None))
    (fun _ _ => mlift Panic) (fun _ => mlift Panic) (fun _ _ => mret (""%string, None)))
    None None None (Some lab_CRLFor) true false false "" fst false None None None None "" (mlift Panic) []
    (mkTempPort _ (fun _ => mlift Panic) (fun _ => mret tt)).
Definition lab_check : ValidateInput := mkValidateInput "cert" EncodingDER MethodCRL 0 false [] "" "".
Definition lab_choice : crl_choice := mkChoice MethodCRL false "base" "delta" [].

Lemma crl_source_sound_witness :
  exists u s s' meta,
    resolve_crl lab_service MethodCRL lab_check "cert" (7, empty_cache) = Done ((7, lab_cache), Ok lab_choice) /\
    u ∈ ["http://gone"; "http://base"]%string /\
    get lab_parsers lab_files lab_settings (fun w => w) lab_fetch u s = Done (s', Some ("base"%string, meta, true)).
Proof.
  assert (E : resolve_crl lab_service MethodCRL lab_check "cert" (7, empty_cache) = Done ((7, lab_cache), Ok lab_choice))
    by (vm_compute; reflexivity).
  destruct (crl_source_sound lab_parsers lab_files lab_settings (fun w => w) lab_fetch lab_service lab_check "cert"
    7 empty_cache 7 lab_cache lab_choice eq_refl eq_refl E eq_refl) as (cert & u & s & s' & meta & Hc & Hu & Hg & _).
  injection Hc as <-. exists u, s, s', meta. split; [exact E|]. split; [exact Hu|exact Hg].
Defined.

(** A warm start adopts what is in the directory whatever the cap: two CRLs of
    four and five bytes under a cap of one. *)
Definition lab_spool : files Z := mkFiles (mret (Err errNoBody)) (fun _ _ => mret None) (fun _ => mret None)
  (fun _ _ => mret None) (fun _ => mret tt)
  (fun p => mret (Ok (if str_eqb p "spool/a.crl" then "base" else "delta"))%string) (fun _ => mret None)
  (fun _ => mret (Ok [("a.crl", false); ("b.crl", false); ("notes", false)])%string).
Example warm_start_over_cap :
  match New lab_parsers lab_spool (fun w => w) (mkConfig 0 "spool" 1) 7 with
  | Done (_, (st, c)) => st_max st = 1 /\ cc_total c = 9 /\ size (cc_entries c) = 2%nat
  | Panic => False
  end.
Proof. vm_compute. done. Qed.
End Crl.
