(* ===== verification/Worker.v ===== *)
(** * The out-of-process driver (internal/cryptoworker/protocol.go, server.go,
    client.go)

    The wire protocol, the child's loop and the supervisor's calls. JSON, the
    processes and their pipes are parameters; a frame is bytes. WorkerRuns has
    the supervisor under concurrent calls. *)
From S2P Require Import Prelude Errors Provider Asn1 Stores.

Module Worker.

(** ** protocol.go *)
Definition opCapabilities : string := "capabilities".
Definition opSelfTest : string := "selftest".
Definition opSignCMS : string := "sign.cms".
Definition opVerifyCMS : string := "verify.cms".
Definition opSignXML : string := "sign.xml".
Definition opVerifyXML : string := "verify.xml".
Definition opSignWSSE : string := "sign.wsse".
Definition opExportCert : string := "cert.export".
Definition opCertProps : string := "cert.properties".
Definition opValidateCert : string := "cert.validate".
Definition opHash : string := "hash".
Definition opSignHash : string := "sign.hash".
Definition maxFrame : Z := 2 ^ 26.

Record request := mkRequest { rq_op : string; rq_payload : string }.
Record wireError := mkWire {
  we_op : string; we_code : Z; we_detail : string; we_key : string; we_message : string;
}.
(** An absent payload is the empty one. *)
Record response := mkResponse { rs_payload : string; rs_err : option wireError; rs_revoked : bool }.

(** [encodeError] and [wireError.decode]. *)
Definition encodeError (err : option goerr) : option wireError :=
  match err with
  | None => None
  | Some e =>
      let key := x_key (Explain e) in
      Some (match as_native e with
            | Some (op, code, detail) => mkWire op code detail key (err_text e)
            | None => mkWire "" 0 "" key (err_text e)
            end)
  end.
Definition decode (w : option wireError) : option goerr :=
  match w with
  | None => None
  | Some w =>
      let sentinel := SentinelForKey (we_key w) in
      if negb (we_code w =? 0) || negb (empty_str (we_op w))
      then Some (NewNativeError (we_op w) (we_code w) (we_detail w) sentinel)
      else match sentinel with
           | Some s => Some s
           | None => Some (New (we_message w))
           end
  end.

(** [binary.BigEndian]: the four bytes of a length, and back. *)
Definition put_uint32 (n : Z) : string :=
  String (byte_of (Z.shiftr n 24)) (String (byte_of (Z.shiftr n 16))
    (String (byte_of (Z.shiftr n 8)) (String (byte_of n) EmptyString))).
Definition get_uint32 (s : string) : Z := be_value 0 s.

Section Frames.
  Context {V : Type} `{Codec V}.

(** [writeFrame] on a writer that takes bytes: the header, then the payload. *)
Definition frame_of (v : V) : res goerr (string * string) :=
  match cd_encode v with
  | Err e => Err (Wrap "cryptoworker: encode frame: " e)
  | Ok payload =>
      if maxFrame <? slen payload
      then Err (New ("cryptoworker: frame too large (" ++ dec_of_Z (slen payload) ++ " bytes)"))
      else Ok (put_uint32 (u32 (slen payload)), payload)
  end.
Definition writeFrame {W} (write : string -> M W (option goerr)) (v : V) : M W (option goerr) :=
  match frame_of v with
  | Err e => mret (Some e)
  | Ok (head, payload) =>
      (let* err := write head in
       match err with Some e => mret (Some e) | None => write payload end)%m
  end.

(** [io.ReadFull] on what a stream still has before it ends. *)
Definition EOF := Sent "io.EOF" "EOF".
Definition ErrUnexpectedEOF := Sent "io.ErrUnexpectedEOF" "unexpected EOF".
Definition ReadFull (n : Z) (s : string) : res goerr (string * string) :=
  if slen s <? n then Err (if empty_str s then EOF else ErrUnexpectedEOF)
  else Ok (stake (Z.to_nat n) s, sdrop (Z.to_nat n) s).

(** [readFrame]: the value, and what follows the frame. *)
Definition readFrame (s : string) : res goerr (V * string) :=
  match ReadFull 4 s with
  | Err e => Err (if errors_is e ErrUnexpectedEOF then EOF else e)
  | Ok (head, rest) =>
      let n := get_uint32 head in
      if maxFrame <? n then Err (New ("cryptoworker: frame too large (" ++ dec_of_Z n ++ " bytes)"))
      else match ReadFull n rest with
           | Err e => Err (Wrap "cryptoworker: short frame: " e)
           | Ok (payload, rest) => match cd_decode payload with Ok v => Ok (v, rest) | Err e => Err e end
           end
  end.
End Frames.

(** ** The driver port, one constructor per operation *)
Inductive call_in :=
| InCaps | InSelfTest
| InSignCMS (r : SignRequest) | InVerifyCMS (r : VerifyRequest)
| InSignXML (r : SignXMLRequest) | InVerifyXML (r : VerifyRequest)
| InSignWSSE (r : SignWSSERequest) | InExport (key : KeyRef) (format : CertFormat)
| InCertProps (cert : string) (format : CertFormat) | InValidate (r : ValidateRequest)
| InHash (algorithm data : string) | InSignHash (r : SignHashRequest).
Inductive call_out :=
| OutCaps (c : Capabilities)
| OutSelfTest (ran ok : bool) (algorithm detail : string)
| OutSign (signature : string)
| OutVerify (r : VerifyResult)
| OutExport (cert alias : string)
| OutProps (p : CertProperties)
| OutValidate (r : ValidateResult)
| OutHash (hash : string).
Definition op_of (i : call_in) : string :=
  match i with
  | InCaps => opCapabilities | InSelfTest => opSelfTest
  | InSignCMS _ => opSignCMS | InVerifyCMS _ => opVerifyCMS
  | InSignXML _ => opSignXML | InVerifyXML _ => opVerifyXML
  | InSignWSSE _ => opSignWSSE | InExport _ _ => opExportCert
  | InCertProps _ _ => opCertProps | InValidate _ => opValidateCert
  | InHash _ _ => opHash | InSignHash _ => opSignHash
  end.
(** The operations whose request carries arguments. *)
Definition with_payload : list string :=
  [opSignCMS; opVerifyCMS; opSignXML; opVerifyXML; opSignWSSE; opExportCert; opCertProps;
   opValidateCert; opHash; opSignHash].

(** JSON of the payloads, by operation: the two ends are the same binary. *)
Record payloads := mkPayloads {
  pl_in : call_in -> res goerr string;
  pl_parse_in : string -> string -> res goerr call_in;
  pl_out : call_out -> res goerr string;
  pl_parse_out : string -> string -> res goerr call_out;
  pl_zero : string -> call_out;
}.

(** ** server.go *)
Section Server.
  Context {W : Type}.
  Variable pl : payloads.
  (** [Driver]; [None] of [run] is not there: a panic is the outcome [Panic]. *)
Record Driver := mkDriver {
  dr_caps : Capabilities;
  dr_run : call_in -> M W (call_out * option goerr);
  }.
  (** The text of a recovered value. *)
  Variable panic_text : string.
  Variable d : Driver.

Definition failure (msg : string) : response := mkResponse "" (Some (mkWire "" 0 "" "" msg)) false.

(** [reply]. *)
Definition reply (out : call_out) (err : option goerr) : response :=
  let revoked := match out with OutValidate r => bool_decide (vs_status r = StatusRevoked) | _ => false end in
  match pl_out pl out with
  | Ok payload => mkResponse payload (encodeError err) revoked
  | Err e =>
      mkResponse "" (match encodeError err with
                     | Some w => Some w
                     | None => Some (mkWire "" 0 "" "" ("cryptoworker: encode result: " ++ err_text e))
                     end) revoked
  end.

(** [dispatch]. *)
Definition dispatch (req : request) : M W response :=
  match pl_parse_in pl (rq_op req) (rq_payload req) with
  | Err e => mret (failure ("cryptoworker: decode " ++ rq_op req ++ ": " ++ err_text e))
  | Ok i => (let* (out, err) := dr_run d i in mret (reply out err))%m
  end.

(** [handle]; its deferred recover answers for a panic of the driver. *)
Definition handle_body (req : request) : M W response :=
  if str_eqb (rq_op req) opCapabilities then mret (reply (OutCaps (dr_caps d)) None)
  else if str_eqb (rq_op req) opSelfTest then
    (let* (out, err) := dr_run d InSelfTest in mret (reply out err))%m
  else if existsb (str_eqb (rq_op req)) with_payload then dispatch req
  else mret (failure ("cryptoworker: unknown operation " ++ dq ++ rq_op req ++ dq)).
Definition handle (req : request) : M W response := fun w =>
  match handle_body req w with
  | Done r => Done r
  | Panic => Done (w, failure ("cryptoworker: panic in driver: " ++ panic_text))
  end.

(** [Serve] on what the parent writes before it closes the pipe; the fuel is its
    length, and an iteration takes at least a header. *)
Context `{Codec request} `{Codec response}.
Variable write : string -> M W (option goerr).
Fixpoint serve_loop (fuel : nat) (input : string) : M W (option goerr) :=
  match fuel with
  | O => mret None
  | S f =>
      match readFrame (V:=request) input with
      | Err e => mret (if errors_is e EOF then None else Some e)
      | Ok (req, rest) =>
          (let* resp := handle req in
           let* err := writeFrame write resp in
           match err with Some e => mret (Some e) | None => serve_loop f rest end)%m
      end
  end.
Definition Serve (input : string) : M W (option goerr) := serve_loop (S (String.length input)) input.
End Server.
Arguments mkDriver {W}. Arguments dr_caps {W}. Arguments dr_run {W}.

(** ** client.go *)
Definition errCallTimeout := Sent "cryptoworker.errCallTimeout" "cryptoworker: call timed out".
Definition defaultCallTimeout : duration := 60 * second.
Definition defaultMaxOps : Z := 1000.
Definition defaultMaxRSSBytes : Z := 2 ^ 29.
Definition rssCheckEvery : Z := 16.

Record Config := mkConfig {
  cf_command : list string; cf_size : Z; cf_call_timeout : duration; cf_max_ops : Z; cf_max_rss : Z;
  cf_standby : Z; cf_keep_after_revoked : bool;
}.
(** The accessors of [Config] with their defaults. *)
Definition size_of (c : Config) : Z := if cf_size c <? 1 then 1 else cf_size c.
Definition callTimeout (c : Config) : duration :=
  if cf_call_timeout c <=? 0 then defaultCallTimeout else cf_call_timeout c.
Definition maxOps (c : Config) : Z := if cf_max_ops c =? 0 then defaultMaxOps else cf_max_ops c.
Definition standby_of (c : Config) : Z := if cf_standby c <? 0 then 0 else cf_standby c.
Definition maxRSS (c : Config) : Z := if cf_max_rss c =? 0 then defaultMaxRSSBytes else cf_max_rss c.

(** The counters wrap at 64 bits. *)
Record Stats := mkStats { sa_spawns : Z; sa_crashes : Z; sa_recycles : Z; sa_timeouts : Z; sa_hot_swaps : Z }.
Definition up (n : Z) : Z := (n + 1) mod 2 ^ 64.
Definition count_spawn (s : Stats) := mkStats (up (sa_spawns s)) (sa_crashes s) (sa_recycles s) (sa_timeouts s) (sa_hot_swaps s).
Definition count_crash (s : Stats) := mkStats (sa_spawns s) (up (sa_crashes s)) (sa_recycles s) (sa_timeouts s) (sa_hot_swaps s).
Definition count_recycle (s : Stats) := mkStats (sa_spawns s) (sa_crashes s) (up (sa_recycles s)) (sa_timeouts s) (sa_hot_swaps s).
Definition count_timeout (s : Stats) := mkStats (sa_spawns s) (sa_crashes s) (sa_recycles s) (up (sa_timeouts s)) (sa_hot_swaps s).
Definition count_swap (s : Stats) := mkStats (sa_spawns s) (sa_crashes s) (sa_recycles s) (sa_timeouts s) (up (sa_hot_swaps s)).

(** A slot: its child, if it has one, and what the child has answered. *)
Record slot := mkSlot { sl_proc : option Z; sl_ops : Z }.
(** [Supervisor]: the free slots and the standby children as the channels hold
    them, whether a refill is pending, whether it is closed, and the counters. *)
Record Supervisor := mkSup {
  su_free : list slot; su_standby : list Z; su_warm : bool; su_closed : bool; su_in_use : Z; su_stats : Stats;
}.
Definition set_free (s : Supervisor) (l : list slot) : Supervisor :=
  mkSup l (su_standby s) (su_warm s) (su_closed s) (su_in_use s) (su_stats s).
Definition set_standby (s : Supervisor) (l : list Z) : Supervisor :=
  mkSup (su_free s) l (su_warm s) (su_closed s) (su_in_use s) (su_stats s).
Definition count (f : Stats -> Stats) (s : Supervisor) : Supervisor :=
  mkSup (su_free s) (su_standby s) (su_warm s) (su_closed s) (su_in_use s) (f (su_stats s)).
Definition use (n : Z) (s : Supervisor) : Supervisor :=
  mkSup (su_free s) (su_standby s) (su_warm s) (su_closed s) (su_in_use s + n) (su_stats s).
(** [requestWarm]: a second request while one is pending is dropped. *)
Definition requestWarm (s : Supervisor) : Supervisor :=
  mkSup (su_free s) (su_standby s) true (su_closed s) (su_in_use s) (su_stats s).
(** [takeStandby]. *)
Definition takeStandby (s : Supervisor) : Supervisor * option Z :=
  match su_standby s with
  | p :: t => (requestWarm (count count_swap (set_standby s t)), Some p)
  | [] => (s, None)
  end.
(** The part of [retire] that is not the kill. *)
Definition after_retire (cfg : Config) (s : Supervisor) : Supervisor :=
  if 0 <? standby_of cfg then requestWarm s else s.
(** [recycleReason]: whether there is one; [rss] is the reading of /proc. *)
Definition recycle (cfg : Config) (ops : Z) (revoked : bool) (rss : option Z) : bool :=
  if revoked && negb (cf_keep_after_revoked cfg) then true
  else if (0 <? maxOps cfg) && (maxOps cfg <=? ops) then true
  else if (0 <? maxRSS cfg) && (Z.rem ops rssCheckEvery =? 0) then
    match rss with Some n => maxRSS cfg <=? n | None => false end
  else false.

(** What waiting for an answer ends with: the bytes of the child's output, the
    timer, or the context. *)
Inductive arrival := Arrived (bytes : string) | TimerFired | ContextDone (e : goerr).

Section Client.
  Context {W : Type} `{Codec request} `{Codec response}.
  Variable pl : payloads.
  Variable cfg : Config.
  (** [startProcess], the pipes of a child, [kill], /proc and the context. *)
  Variable start_process : M W (res goerr Z).
  Variable pipe_write : Z -> string -> M W (option goerr).
  Variable pipe_read : Z -> duration -> M W arrival.
  Variable kill : Z -> M W unit.
  Variable rss_bytes : Z -> M W (option Z).
  Variable ctx_err : W -> option goerr.

(** [process.call]. *)
Definition process_call (p : Z) (req : request) (timeout : duration) : M W (res goerr response) :=
  (let* err := writeFrame (pipe_write p) req in
   match err with
   | Some e => mret (Err (Wrap "cryptoworker: send: " e))
   | None =>
       let* a := pipe_read p timeout in
       mret (match a with
             | Arrived bytes =>
                 match readFrame (V:=response) bytes with
                 | Ok (r, _) => Ok r
                 | Err e => Err (Wrap "cryptoworker: receive: " e)
                 end
             | TimerFired => Err errCallTimeout
             | ContextDone e => Err e
             end)
   end)%m.

(** [spawn]. *)
Definition spawn : M (W * Supervisor) (res goerr Z) :=
  (let* r := in_world start_process in
   match r with
   | Err e => mret (Err e)
   | Ok p => let* _ := in_store (fun s => (count count_spawn s, tt)) in mret (Ok p)
   end)%m.

(** [retire]: the slot without its child. *)
Definition retire (sl : slot) : M (W * Supervisor) slot :=
  (let* _ := match sl_proc sl with Some p => in_world (kill p) | None => mret tt end in
   let* _ := in_store (fun s => (after_retire cfg s, tt)) in
   mret (mkSlot None 0))%m.

(** [acquire]: closed, the context's end, or the next free slot; with none free
    and the context alive it waits, here the outcome [Panic]. *)
Definition acquire : M (W * Supervisor) (res goerr slot) := fun '(w, s) =>
  if su_closed s then Done ((w, s), Err ErrClosed)
  else match ctx_err w, su_free s with
       | Some e, _ => Done ((w, s), Err e)
       | None, sl :: rest => Done ((w, set_free s rest), Ok sl)
       | None, [] => Panic
       end.

(** The child of a slot: its own, a warm spare, or a new one. *)
Definition ensure (sl : slot) : M (W * Supervisor) (res goerr slot) :=
  match sl_proc sl with
  | Some _ => mret (Ok sl)
  | None =>
      (let* p := in_store takeStandby in
       match p with
       | Some p => mret (Ok (mkSlot (Some p) 0))
       | None => let* r := spawn in
                 mret (match r with Ok p => Ok (mkSlot (Some p) 0) | Err e => Err e end)
       end)%m
  end.

(** What [callOnce] makes of the child's answer: the slot as it is given back,
    the result, the error and whether to try again. *)
Definition settle (op : string) (sl : slot) (p : Z) (r : res goerr response)
    : M (W * Supervisor) (slot * (call_out * option goerr * bool)) :=
  let zero := pl_zero pl op in
  match r with
  | Err e =>
      (let* sl' := retire sl in
       if errors_is e errCallTimeout then
         let* _ := in_store (fun s => (count count_timeout s, tt)) in mret (sl', (zero, Some e, false))
       else
         let* c := mget (fun w => ctx_err (fst w)) in
         match c with
         | Some ce => mret (sl', (zero, Some ce, false))
         | None => let* _ := in_store (fun s => (count count_crash s, tt)) in mret (sl', (zero, Some e, true))
         end)%m
  | Ok resp =>
      let sl1 := mkSlot (sl_proc sl) (sl_ops sl + 1) in
      let parsed := if empty_str (rs_payload resp) then Ok zero else pl_parse_out pl op (rs_payload resp) in
      match parsed with
      | Err e =>
          (let* sl' := retire sl1 in
           mret (sl', (zero, Some (Wrap ("cryptoworker: decode " ++ op ++ " result: ") e), false)))%m
      | Ok out =>
          (let* rss := in_world (rss_bytes p) in
           let* sl' := if recycle cfg (sl_ops sl1) (rs_revoked resp) rss
                       then let* _ := in_store (fun s => (count count_recycle s, tt)) in retire sl1
                       else mret sl1 in
           mret (sl', (out, decode (rs_err resp), false)))%m
      end
  end.

(** [callOnce]: the slot is given back on every path. *)
Definition release (sl : slot) (s : Supervisor) : Supervisor * unit :=
  (set_free (use (-1) s) (su_free s ++ [sl]), tt).
Definition callOnce (op : string) (req : request) : M (W * Supervisor) (call_out * option goerr * bool) :=
  (let* got := acquire in
   match got with
   | Err e => mret (pl_zero pl op, Some e, false)
   | Ok sl =>
       let* _ := in_store (fun s => (use 1 s, tt)) in
       let* ready := ensure sl in
       match ready with
       | Err e => let* _ := in_store (release sl) in mret (pl_zero pl op, Some e, false)
       | Ok sl =>
           match sl_proc sl with
           | None => mlift Panic
           | Some p =>
               let* r := in_world (process_call p req (callTimeout cfg)) in
               let* (sl', x) := settle op sl p r in
               let* _ := in_store (release sl') in
               mret x
           end
       end
   end)%m.

(** [call]: two attempts. *)
Fixpoint call_loop (attempts : nat) (op : string) (req : request) (last : option goerr)
    : M (W * Supervisor) (call_out * option goerr) :=
  match attempts with
  | O => mret (pl_zero pl op, last)
  | S n =>
      (let* (out, err, retryable) := callOnce op req in
       match err with
       | Some e => if retryable then call_loop n op req (Some e) else mret (out, err)
       | None => mret (out, err)
       end)%m
  end.
Definition call (i : call_in) : M (W * Supervisor) (call_out * option goerr) :=
  match pl_in pl i with
  | Err e => mret (pl_zero pl (op_of i), Some (Wrap ("cryptoworker: encode " ++ op_of i ++ ": ") e))
  | Ok payload => call_loop 2 (op_of i) (mkRequest (op_of i) payload) None
  end.
End Client.

(** [PoolStats]. *)
Definition PoolStats (cfg : Config) (s : Supervisor) : Z * Z := (su_in_use s, size_of cfg).

(** ** Errors across the process boundary *)
(** The sentinel at the end of an unwrap chain. *)
Fixpoint leaf (e : goerr) : option string :=
  match e with
  | Sent n _ => Some n
  | New _ | Native _ _ _ None | Domain _ _ None => None
  | Wrap _ i | Native _ _ _ (Some i) | Domain _ _ (Some i) => leaf i
  end.
(** An error the driver may return: its sentinel, if any, is in the catalog, and
    a native error in it has a 32-bit code and names its operation. *)
Definition driver_error (e : goerr) : Prop :=
  (leaf e = None \/ exists c, c ∈ catalog /\ leaf e = sentinel_name (ce_sentinel c)) /\
  forall op code detail, as_native e = Some (op, code, detail) -> 0 <= code < 2 ^ 32 /\ op <> ""%string.
(** What the domain can tell of an error. *)
Definition same_to_domain (a b : goerr) : Prop :=
  (forall n, is_named n a = is_named n b) /\ as_native a = as_native b /\ Explain a = Explain b /\
  classify a = classify b /\ isSoftVerifyFailure a = isSoftVerifyFailure b.

Lemma is_named_leaf n : forall e, is_named n e = match leaf e with Some m => str_eqb n m | None => false end.
Proof. fix IH 1. intros [m x|x|x i|op c x [i|]|k op [i|]]; cbn; try done; apply IH. Qed.

Lemma errors_is_leaf e m s : leaf e = Some m -> errors_is e s = match s with Sent n _ => str_eqb n m | _ => false end.
Proof. intros H. destruct s; cbn; try done. by rewrite is_named_leaf, H. Qed.
Lemma errors_is_no_leaf e s : leaf e = None -> errors_is e s = false.
Proof. intros H. destruct s; cbn; try done. by rewrite is_named_leaf, H. Qed.

Lemma find_first_ext {A} (f g : A -> bool) l : (forall x, f x = g x) -> find_first f l = find_first g l.
Proof. intros H. induction l as [|x l IH]; cbn; [done|]. by rewrite H, IH. Qed.

(** Errors with the same leaf and the same native error look the same. *)
Lemma same_leaf a b : leaf a = leaf b -> as_native a = as_native b -> same_to_domain a b.
Proof.
  intros Hl Hn. assert (N : forall n, is_named n a = is_named n b) by (intros n; by rewrite !is_named_leaf, Hl).
  assert (I : forall t, errors_is a t = errors_is b t) by (intros []; cbn; auto).
  split_and!; [done|done| | |].
  - unfold Explain. rewrite Hn. by rewrite (find_first_ext _ (fun e => errors_is b (ce_sentinel e))) by (intros; apply I).
  - unfold classify. by rewrite !I.
  - unfold isSoftVerifyFailure. by rewrite !I, Hn.
Qed.

(** The key of an error leads back to its leaf. *)
Lemma key_of_leaf e c :
  c ∈ catalog -> leaf e = sentinel_name (ce_sentinel c) -> SentinelForKey (x_key (Explain e)) = Some (ce_sentinel c).
Proof.
  intros Hc Hl. destruct (catalog_entry c Hc) as (_ & Hk & Hs).
  assert (K : x_key (Explain e) = x_key (Explain (ce_sentinel c))).
  { unfold Explain. pose proof (forallb_elem _ _ _ catalog_ok Hc) as Ho. unfold entry_ok in Ho.
    destruct (ce_sentinel c) as [n m| | | |] eqn:Es; try done. cbn in Hl.
    rewrite (find_first_ext _ (fun x => errors_is (Sent n m) (ce_sentinel x)))
      by (intros x; rewrite (errors_is_leaf e n _ Hl), (errors_is_leaf (Sent n m) n _ eq_refl); done).
    destruct (find_first _ catalog) as [x|] eqn:E; [done|]. exfalso.
    rewrite find_first_none in E. specialize (E c Hc). cbn in E. rewrite Es in E. cbn in E. by rewrite str_eqb_refl in E. }
  by rewrite K, Hk.
Qed.

Lemma key_of_no_leaf e : leaf e = None -> SentinelForKey (x_key (Explain e)) = None.
Proof.
  intros Hl. unfold Explain. rewrite (find_first_ext _ (fun _ => false)) by (intros; by apply errors_is_no_leaf).
  assert (F : find_first (fun _ : catalogEntry => false) catalog = None) by reflexivity. rewrite F.
  destruct (as_native e) as [[[op c] x]|]; reflexivity.
Qed.

Lemma wire_error_back e :
  driver_error e ->
  exists e', decode (encodeError (Some e)) = Some e' /\ same_to_domain e e'.
Proof.
  intros [Hl Hn]. unfold encodeError, decode.
  assert (S : SentinelForKey (x_key (Explain e)) = None /\ leaf e = None \/
              exists s, SentinelForKey (x_key (Explain e)) = Some s /\ leaf e = leaf s /\ as_native s = None).
  { destruct Hl as [Hl|(c & Hc & Hl)]; [left; by rewrite key_of_no_leaf|right].
    exists (ce_sentinel c). split; [by apply key_of_leaf|].
    pose proof (forallb_elem _ _ _ catalog_ok Hc) as Ho. unfold entry_ok in Ho. by destruct (ce_sentinel c). }
  destruct (as_native e) as [[[op code] detail]|] eqn:En; cbn [we_key we_op we_code we_detail we_message].
  - destruct (Hn _ _ _ eq_refl) as [Hc Ho]. apply empty_str_false in Ho. rewrite Ho, orb_true_r.
    eexists. split; [done|]. unfold NewNativeError.
    apply same_leaf; [|rewrite En; cbn; unfold u32; by rewrite Z.mod_small].
    destruct S as [[-> ->]|(s & -> & -> & _)]; done.
  - cbn [Z.eqb negb orb empty_str str_eqb String.eqb].
    destruct S as [[-> Hl']|(s & -> & Hl' & Hs)]; eexists; (split; [done|]); apply same_leaf; rewrite ?En; done.
Qed.

(** An error keeps its meaning across the pipe. Whatever error the driver
    may return, the error the parent rebuilds from the wire matches the same
    sentinels, carries the same native code, operation and detail, and is
    explained and classified the same, so the domain treats a call to a child as
    it treats a call in process. *)
Theorem wire_error_roundtrip e :
  driver_error e ->
  exists e', decode (encodeError (Some e)) = Some e' /\ same_to_domain e e'.
Proof. apply wire_error_back. Qed.

(** ** Frames *)
Lemma get_put_uint32 n : 0 <= n < 2 ^ 32 -> get_uint32 (put_uint32 n) = n.
Proof.
  intros H. unfold get_uint32, put_uint32. cbn [be_value]. rewrite !z_of_byte, !Z.shiftr_div_pow2 by lia.
  change (2 ^ 24) with 16777216. change (2 ^ 16) with 65536. change (2 ^ 8) with 256.
  Z.to_euclidean_division_equations. lia.
Qed.

Section FrameProofs.
  Context {V : Type} `{Codec V}.

(** A frame is read back, with what follows it. *)
Lemma frame_roundtrip (v : V) head payload rest :
  frame_of v = Ok (head, payload) -> readFrame (V:=V) (head ++ payload ++ rest) = Ok (v, rest).
Proof.
  unfold frame_of, readFrame. destruct (cd_encode v) as [p|e] eqn:E; [|done].
  destruct (Z.ltb_spec maxFrame (slen p)) as [Hm|Hm]; [done|]. intros [= <- <-].
  pose proof (slen_nonneg p) as Hp. unfold maxFrame in Hm.
  assert (U : u32 (slen p) = slen p) by (unfold u32; apply Z.mod_small; lia). rewrite U.
  assert (Hh : slen (put_uint32 (slen p)) = 4) by done.
  unfold ReadFull at 1. rewrite slen_app, Hh.
  destruct (Z.ltb_spec (4 + slen (p ++ rest)) 4) as [Hx|_]; [pose proof (slen_nonneg (p ++ rest)); lia|].
  change (Z.to_nat 4) with (String.length (put_uint32 (slen p))). rewrite stake_app, sdrop_app, get_put_uint32 by lia.
  destruct (Z.ltb_spec maxFrame (slen p)) as [Hx|_]; [unfold maxFrame in Hx; lia|].
  unfold ReadFull. rewrite slen_app. destruct (Z.ltb_spec (slen p + slen rest) (slen p)); [pose proof (slen_nonneg rest); lia|].
  rewrite to_nat_slen, stake_app, sdrop_app. by rewrite (cd_round_trip _ _ E).
Qed.
End FrameProofs.

(** ** The child answers in order *)
Section ServeProofs.
  Context {W : Type} `{Codec request} `{Codec response}.
  Variable pl : payloads.
  Variable panic_text : string.
  Variable d : Driver (W:=W).
  Variable write : string -> M W (option goerr).
Notation handle := (handle pl panic_text d).
Notation serve_loop := (serve_loop pl panic_text d write).

(** The frames of some requests, and less than a header after them. *)
Inductive framed : list request -> string -> Prop :=
| FramedEnd tail : slen tail < 4 -> framed [] tail
| FramedNext r reqs head payload rest :
    frame_of r = Ok (head, payload) -> framed reqs rest -> framed (r :: reqs) (head ++ payload ++ rest).
(** The answers to the requests, one by one, until a write fails. *)
Fixpoint answer_all (reqs : list request) : M W (option goerr) :=
  match reqs with
  | [] => mret None
  | r :: t =>
      (let* resp := handle r in
       let* err := writeFrame write resp in
       match err with Some e => mret (Some e) | None => answer_all t end)%m
  end.

Lemma frame_head (v : request) head payload : frame_of v = Ok (head, payload) -> exists a b c d, head = String a (String b (String c (String d ""))).
Proof.
  unfold frame_of. destruct (cd_encode v) as [p|]; [|done]. destruct (_ <? _); [done|].
  intros [= <- _]. unfold put_uint32. eauto.
Qed.

Lemma serve_loop_framed reqs input fuel w :
  framed reqs input -> (String.length input < fuel)%nat -> serve_loop fuel input w = answer_all reqs w.
Proof.
  intros Hf. revert fuel w. induction Hf as [tail Ht|r reqs head payload rest Hr Hf IH]; intros fuel w Hl.
  - destruct fuel as [|f]; [lia|]. cbn [Worker.serve_loop answer_all]. unfold readFrame, ReadFull.
    destruct (Z.ltb_spec (slen tail) 4) as [_|]; [|lia].
    by destruct (empty_str tail).
  - destruct (frame_head _ _ _ Hr) as (a & b & c & e & Hh).
    destruct fuel as [|f]; [lia|]. cbn [Worker.serve_loop answer_all].
    rewrite (frame_roundtrip r head payload rest Hr).
    assert (Hl' : (String.length rest < f)%nat).
    { rewrite Hh, !slength_app in Hl. cbn in Hl. lia. }
    unfold mbind_. destruct (handle r w) as [[w1 resp]|]; [|done].
    destruct (writeFrame write resp w1) as [[w2 [x|]]|]; try done. by apply IH.
Qed.

(** The child answers every request, in order, and stops at the end of the
    pipe. On the frames of any requests, even when the pipe is cut inside the
    next header, the loop handles the requests one by one, writes the frame of
    each answer, ends without an error when the pipe closes, and with the write's
    error when a write fails. *)
Theorem serve_in_order reqs input w :
  framed reqs input -> Serve pl panic_text d write input w = answer_all reqs w.
Proof. intros Hf. apply serve_loop_framed; [done|lia]. Qed.
End ServeProofs.

(** ** A call through a child is the call in process *)
Section Transparent.
  Context {W : Type} `{Codec request} `{Codec response}.
  Variable pl : payloads.
  Variable panic_text : string.
  Variable d : Driver (W:=W).
  Variable cfg : Config.
  Variable rss_bytes : Z -> option Z.

(** What the payloads' JSON promises for one call. *)
Record payload_ok (i : call_in) (payload : string) (out : call_out) (result : string) : Prop := {
  po_in : pl_in pl i = Ok payload;
  po_parse_in : pl_parse_in pl (op_of i) payload = Ok i;
  po_out : pl_out pl out = Ok result;
  po_parse_out : pl_parse_out pl (op_of i) result = Ok out;
  po_some : result <> ""%string;
}.

(** One child whose pipes are those of the driver's loop: what the parent wrote
    is handled and the answer's frame comes back. *)
Definition child_write (p : Z) (bytes : string) : M (W * string) (option goerr) :=
  in_store (fun buf => ((buf ++ bytes)%string, None)).
Definition child_read (p : Z) (t : duration) : M (W * string) arrival := fun '(w, buf) =>
  match readFrame (V:=request) buf with
  | Err e => Done ((w, buf), Arrived "")
  | Ok (req, rest) =>
      match handle pl panic_text d req w with
      | Panic => Panic
      | Done (w', resp) =>
          match frame_of resp with
          | Err e => Done ((w', rest), Arrived "")
          | Ok (head, payload) => Done ((w', rest), Arrived (head ++ payload))
          end
      end
  end.
Definition child_call := callOnce pl cfg (mlift Panic) child_write child_read (fun _ => mret tt)
  (fun p => mret (rss_bytes p)) (fun _ => None).
Definition supervised := call pl cfg (mlift Panic) child_write child_read (fun _ => mret tt)
  (fun p => mret (rss_bytes p)) (fun _ => None).

Definition same_error (a b : option goerr) : Prop :=
  match a, b with Some x, Some y => same_to_domain x y | None, None => True | _, _ => False end.

Lemma decode_same err :
  (forall e, err = Some e -> driver_error e) -> same_error err (decode (encodeError err)).
Proof.
  destruct err as [e|]; [|done]. intros He. destruct (wire_error_back e (He e eq_refl)) as (e' & -> & Hs). exact Hs.
Qed.

Lemma handle_call i payload out result err w w' :
  payload_ok i payload out result -> i <> InCaps -> dr_run d i w = Done (w', (out, err)) ->
  exists revoked, handle pl panic_text d (mkRequest (op_of i) payload) w =
    Done (w', mkResponse result (encodeError err) revoked).
Proof.
  intros [_ Hi Ho _ _] Hc Hd. unfold handle, handle_body. cbn [rq_op].
  exists (match out with OutValidate r => bool_decide (vs_status r = StatusRevoked) | _ => false end).
  assert (R : reply pl out err = mkResponse result (encodeError err)
    (match out with OutValidate r => bool_decide (vs_status r = StatusRevoked) | _ => false end)) by (unfold reply; by rewrite Ho).
  destruct i; try done;
    lazymatch goal with
    | |- context [op_of InSelfTest] =>
        change (str_eqb (op_of InSelfTest) opCapabilities) with false;
        change (str_eqb (op_of InSelfTest) opSelfTest) with true; cbv iota;
        unfold mbind_; rewrite Hd; cbn; by rewrite R
    | |- context [str_eqb (op_of ?x) opCapabilities] =>
        change (str_eqb (op_of x) opCapabilities) with false;
        change (str_eqb (op_of x) opSelfTest) with false;
        change (existsb (str_eqb (op_of x)) with_payload) with true; cbv iota;
        unfold dispatch; cbn [rq_op rq_payload]; rewrite Hi; unfold mbind_; rewrite Hd; cbn; by rewrite R
    end.
Qed.
(** One exchange over the pipes. *)
Lemma child_exchange p req resp t w w' :
  is_ok (frame_of req) = true -> is_ok (frame_of resp) = true ->
  handle pl panic_text d req w = Done (w', resp) ->
  process_call child_write child_read p req t (w, ""%string) = Done ((w', ""%string), Ok resp).
Proof.
  destruct (frame_of req) as [[hq pq]|] eqn:Eq; [|done]. destruct (frame_of resp) as [[hr pr]|] eqn:Er; [|done].
  intros _ _ Hh. pose proof (frame_roundtrip _ _ _ ""%string Eq) as Rq. pose proof (frame_roundtrip _ _ _ ""%string Er) as Rr.
  rewrite !app_nil_s in Rq, Rr. unfold process_call, writeFrame, mbind_. rewrite Eq. cbn [child_write in_store].
  change (("" ++ hq) ++ pq)%string with (hq ++ pq)%string. unfold child_read. rewrite Rq, Hh, Er. unfold mret. by rewrite Rr.
Qed.

(** C33: A call through a child is the call in process. With a free slot whose
    child runs the driver's loop, a request and an answer that fit a frame, the
    supervisor returns exactly what the driver returned, with an error the domain
    cannot tell from the driver's, leaves the driver in the state the call left it
    in, and gives the slot back. *)
Theorem worker_transparent i payload out err result w w' s sl rest p :
  i <> InCaps -> payload_ok i payload out result ->
  dr_run d i w = Done (w', (out, err)) -> (forall e, err = Some e -> driver_error e) ->
  is_ok (frame_of (mkRequest (op_of i) payload)) = true ->
  (forall revoked, is_ok (frame_of (mkResponse result (encodeError err) revoked)) = true) ->
  su_closed s = false -> su_free s = sl :: rest -> sl_proc sl = Some p ->
  exists s' err', supervised i (w, ""%string, s) = Done ((w', ""%string, s'), (out, err')) /\
    same_error err err' /\ length (su_free s') = length (su_free s) /\ su_in_use s' = su_in_use s.
Proof.
  intros Hc Hp Hd He Hq Hr Hcl Hf Hsl. pose proof Hp as [Hin _ _ Hout Hne].
  destruct (handle_call _ _ _ _ _ _ _ Hp Hc Hd) as [revoked Hh].
  pose proof (child_exchange p _ _ (callTimeout cfg) w w' Hq (Hr revoked) Hh) as Hx.
  pose proof (decode_same err He) as Hs. apply empty_str_false in Hne.
  unfold supervised, call. rewrite Hin. cbn [call_loop]. unfold callOnce, acquire, mbind_.
  rewrite Hcl, Hf. unfold in_store, in_world, ensure, mret. rewrite Hsl. cbv beta iota. rewrite Hsl. cbv beta iota. rewrite Hx.
  unfold settle. cbn [rs_payload rs_err rs_revoked]. rewrite Hne, Hout.
  unfold in_world, mbind_, mret. destruct (recycle _ _ _ _).
  - unfold in_store, mret. unfold retire, mbind_. rewrite Hsl. unfold in_world, in_store, mret, release.
    destruct (decode (encodeError err)) as [e'|] eqn:Ed;
      (eexists _, _; split; [reflexivity|]; split; [by rewrite <- Ed in *|];
       unfold after_retire; destruct (0 <? standby_of cfg); cbn; rewrite length_app; cbn; split; lia).
  - unfold in_store, release. destruct (decode (encodeError err)) as [e'|] eqn:Ed;
      (eexists _, _; split; [reflexivity|]; split; [by rewrite <- Ed in *|]; cbn; rewrite length_app; cbn; split; lia).
Qed.
End Transparent.

(** ** A child that hashes *)
Global Instance request_eq_dec : EqDecision request.
Proof. solve_decision. Defined.
Global Instance wireError_eq_dec : EqDecision wireError.
Proof. solve_decision. Defined.
Global Instance response_eq_dec : EqDecision response.
Proof. solve_decision. Defined.

Definition lab_error : goerr := Native "Hash" 5 "bad flags" (Some ErrInvalidParam).
Definition lab_request : request := mkRequest opHash "in".
Definition lab_response : response := mkResponse "out" (encodeError (Some lab_error)) false.
Definition lab_payloads : payloads := mkPayloads
  (fun _ => Ok "in"%string) (fun _ _ => Ok (InHash "SHA256" "data")) (fun _ => Ok "out"%string)
  (fun _ _ => Ok (OutHash "h")) (fun _ => OutHash "").
Definition lab_driver : Driver (W:=Z) :=
  mkDriver (mkCaps "2.0.13" 1 true true true true true true true true true true true)
    (fun _ w => Done (w + 1, (OutHash "h", Some lab_error))).
(** Codecs of the one request and of the one answer, whatever its mark. *)
Global Instance lab_request_codec : Codec request.
Proof.
  refine {| cd_encode := fun r => if decide (r = lab_request) then Ok "q" else Err (New "json");
            cd_decode := fun raw => if str_eqb raw "q" then Ok lab_request else Err (New "json") |}%string.
  intros v raw. destruct (decide _) as [->|_]; by intros [= <-].
Defined.
Global Instance lab_response_codec : Codec response.
Proof.
  refine {| cd_encode := fun r => if decide (r = lab_response) then Ok "a"
                                  else if decide (r = mkResponse "out" (encodeError (Some lab_error)) true) then Ok "b"
                                  else Err (New "json");
            cd_decode := fun raw => if str_eqb raw "a" then Ok lab_response
                                    else if str_eqb raw "b" then Ok (mkResponse "out" (encodeError (Some lab_error)) true)
                                    else Err (New "json") |}%string.
  intros v raw. destruct (decide _) as [->|_]; [by intros [= <-]|]. destruct (decide _) as [->|_]; by intros [= <-].
Defined.

Lemma lab_error_ok : driver_error lab_error.
Proof.
  split; [right; exists (Build_catalogEntry ErrInvalidParam "request.invalid_parameter"
    "The library rejected a request parameter." "Check the operation flags and the input encoding.")|].
  - split; [apply (list_elem_of_lookup_2 _ 15); reflexivity|reflexivity].
  - intros op code detail [= <- <- <-]. split; [lia|done].
Qed.

Lemma wire_error_roundtrip_witness :
  exists e', decode (encodeError (Some lab_error)) = Some e' /\ classify lab_error = KindInvalid /\ classify e' = KindInvalid.
Proof.
  destruct (wire_error_roundtrip lab_error lab_error_ok) as (e' & E & _ & _ & _ & Hc & _).
  exists e'. split; [exact E|]. split; [reflexivity|]. rewrite <- Hc. reflexivity.
Defined.

(** The child's output as the world. *)
Definition lab_write (bytes : string) : M (Z * string) (option goerr) := in_store (fun out => ((out ++ bytes)%string, None)).
Definition lab_stdin : string := (put_uint32 1 ++ "q" ++ put_uint32 1 ++ "q" ++ "xx")%string.
Definition lab_stream_driver : Driver (W:=(Z * string)) :=
  mkDriver (dr_caps lab_driver) (fun i => in_world (dr_run lab_driver i)).
Lemma serve_in_order_witness :
  Serve lab_payloads "boom" lab_stream_driver lab_write lab_stdin (0, ""%string) =
    Done ((2, (put_uint32 1 ++ "a" ++ put_uint32 1 ++ "a")%string), None) /\
  answer_all lab_payloads "boom" lab_stream_driver lab_write [lab_request; lab_request] (0, ""%string) =
    Done ((2, (put_uint32 1 ++ "a" ++ put_uint32 1 ++ "a")%string), None).
Proof.
  assert (E : Serve lab_payloads "boom" lab_stream_driver lab_write lab_stdin (0, ""%string) =
    Done ((2, (put_uint32 1 ++ "a" ++ put_uint32 1 ++ "a")%string), None)) by (vm_compute; reflexivity).
  split; [exact E|]. rewrite <- E. symmetry. apply serve_in_order.
  apply (FramedNext lab_request [lab_request] (put_uint32 1) "q" (put_uint32 1 ++ "q" ++ "xx")); [vm_compute; reflexivity|].
  apply (FramedNext lab_request [] (put_uint32 1) "q" "xx"); [vm_compute; reflexivity|]. apply FramedEnd. reflexivity.
Defined.

Definition lab_config : Config := mkConfig ["worker"%string] 1 0 1 0 0 false.
Definition lab_sup : Supervisor := mkSup [mkSlot (Some 7) 0] [] false false 0 (mkStats 1 0 0 0 0).
Definition lab_supervised := supervised lab_payloads "boom" lab_driver lab_config (fun _ => None) (InHash "SHA256" "data").
Lemma worker_transparent_witness :
  exists s', lab_supervised (0, ""%string, lab_sup) = Done ((1, ""%string, s'), (OutHash "h", Some lab_error)) /\
    length (su_free s') = 1%nat /\ su_free s' = [mkSlot None 0].
Proof.
  destruct (worker_transparent lab_payloads "boom" lab_driver lab_config (fun _ => None) (InHash "SHA256" "data")
    "in" (OutHash "h") (Some lab_error) "out" 0 1 lab_sup (mkSlot (Some 7) 0) [] 7) as (s' & err' & E & _ & Hl & _);
    [done|by split|reflexivity|intros e [= <-]; exact lab_error_ok|reflexivity|by intros []|reflexivity|reflexivity|reflexivity|].
  assert (X : lab_supervised (0, ""%string, lab_sup) =
    Done ((1, ""%string, mkSup [mkSlot None 0] [] false false 0 (mkStats 1 0 1 0 0)), (OutHash "h", Some lab_error)))
    by (vm_compute; reflexivity).
  exists (mkSup [mkSlot None 0] [] false false 0 (mkStats 1 0 1 0 0)). split; [exact X|]. split; [|reflexivity].
  unfold lab_supervised in X. rewrite X in E. injection E as <- _. exact Hl.
Defined.
End Worker.
