(* ===== verification/WorkerRuns.v ===== *)
(** * The supervisor of the child processes under concurrent calls
    (internal/cryptoworker/client.go)

    The calls, the warmer and [Close] cut where they meet on the supervisor's
    channels: taking a slot, finding its child, the answer, giving the slot
    back; the warmer's steps; the steps of the shutdown. *)
From S2P Require Import Prelude Errors Provider Stores Worker.

Module WorkerRuns.
Import Worker.Worker.

(** A call that holds a slot: without having looked for a child, starting one,
    waiting for its answer, or done with it. *)
Inductive stage := Taken (sl : slot) | Spawning (sl : slot) | Calling (sl : slot) (p : Z) | Settled (sl : slot).
Definition stage_slot (g : stage) : slot :=
  match g with Taken sl | Spawning sl | Calling sl _ | Settled sl => sl end.
(** [warmLoop]: not started, at its select, refilling, about to send a child to
    the standby set, pausing after a failed start, ended. *)
Inductive warmer := WNone | WIdle | WFilling | WHolding (p : Z) | WBackoff | WStopped.
(** [Close]: not called, waiting for the warmer, draining slots, draining the
    standby set, returned. *)
Inductive closer := CNone | CWaiting | CSlots (left : nat) | CStandby | CDone.

Record state := mkState {
  w_sup : Supervisor; w_waiting : nat; w_calls : list stage; w_warmer : warmer; w_closer : closer;
  w_spawned : list Z; w_killed : list Z; w_log : list (Z * bool);
}.

(** How a call to a child ends. *)
Inductive ending :=
| Answered (revoked : bool) (rss : option Z)
| Garbled (revoked : bool)
| TimedOut | Canceled | Crashed.

Section Runs.
  Variable cfg : Config.
Definition size_nat : nat := Z.to_nat (size_of cfg).
Definition stopping (st : state) : bool := match w_closer st with CNone => false | _ => true end.

(** After [Start] has a first child: its slot, the empty ones, no warmer yet. *)
Definition start (p : Z) : state :=
  mkState (mkSup (mkSlot (Some p) 0 :: repeat (mkSlot None 0) (size_nat - 1)) [] false false 0 (mkStats 1 0 0 0 0))
    0 [] WNone CNone [p] [] [].

Inductive action :=
| AEnter | AGiveUp | ATake
| AEnsure (n : nat) | ASpawned (n : nat) (r : option Z) | AAnswer (n : nat) (a : ending) | ARelease (n : nat)
| AWarmStart | AWarmTake | AWarmSpawn (r : option Z) | AWarmFull | AWarmPut | AWarmDrop | AWarmWake | AWarmStop
| AClose | ACloseWarm | ACloseSlot | ACloseSlots | ACloseStandby.

Definition take_call (n : nat) (l : list stage) : option (stage * list stage) :=
  match l !! n with Some g => Some (g, take n l ++ drop (S n) l) | None => None end.
Definition with_sup (st : state) (s : Supervisor) (calls : list stage) : state :=
  mkState s (w_waiting st) calls (w_warmer st) (w_closer st) (w_spawned st) (w_killed st) (w_log st).
Definition with_warmer (st : state) (s : Supervisor) (w : warmer) : state :=
  mkState s (w_waiting st) (w_calls st) w (w_closer st) (w_spawned st) (w_killed st) (w_log st).
Definition with_closer (st : state) (s : Supervisor) (c : closer) : state :=
  mkState s (w_waiting st) (w_calls st) (w_warmer st) c (w_spawned st) (w_killed st) (w_log st).
Definition spawned (p : Z) (st : state) : state :=
  mkState (count count_spawn (w_sup st)) (w_waiting st) (w_calls st) (w_warmer st) (w_closer st)
    (p :: w_spawned st) (w_killed st) (w_log st).
Definition killed (p : Z) (st : state) : state :=
  mkState (w_sup st) (w_waiting st) (w_calls st) (w_warmer st) (w_closer st) (w_spawned st) (p :: w_killed st) (w_log st).
Definition logged (p : Z) (revoked : bool) (st : state) : state :=
  mkState (w_sup st) (w_waiting st) (w_calls st) (w_warmer st) (w_closer st) (w_spawned st) (w_killed st)
    (w_log st ++ [(p, revoked)]).
Definition clear_warm (s : Supervisor) : Supervisor :=
  mkSup (su_free s) (su_standby s) false (su_closed s) (su_in_use s) (su_stats s).
Definition close_flag (s : Supervisor) : Supervisor :=
  mkSup (su_free s) (su_standby s) (su_warm s) true (su_in_use s) (su_stats s).
(** A slot whose child is retired. *)
Definition retired (f : Stats -> Stats) (st : state) (rest : list stage) (p : Z) : state :=
  killed p (with_sup st (after_retire cfg (count f (w_sup st))) (Settled (mkSlot None 0) :: rest)).
Definition fresh (p : Z) (st : state) : bool := bool_decide (p ∉ w_spawned st).

(** A call: [acquire], then the parts of [callOnce]. *)
Definition apply_call (a : action) (st : state) : option state :=
  let s := w_sup st in
  match a with
  | AEnter =>
      Some (if su_closed s then st
            else mkState s (S (w_waiting st)) (w_calls st) (w_warmer st) (w_closer st) (w_spawned st) (w_killed st) (w_log st))
  | AGiveUp =>
      match w_waiting st with
      | O => None
      | S n => Some (mkState s n (w_calls st) (w_warmer st) (w_closer st) (w_spawned st) (w_killed st) (w_log st))
      end
  | ATake =>
      match w_waiting st, su_free s with
      | S n, sl :: rest =>
          Some (mkState (use 1 (set_free s rest)) n (Taken sl :: w_calls st) (w_warmer st) (w_closer st)
                  (w_spawned st) (w_killed st) (w_log st))
      | _, _ => None
      end
  | AEnsure n =>
      match take_call n (w_calls st) with
      | Some (Taken sl, rest) =>
          Some (match sl_proc sl with
                | Some p => with_sup st s (Calling sl p :: rest)
                | None => match takeStandby s with
                          | (s', Some p) => with_sup st s' (Calling (mkSlot (Some p) 0) p :: rest)
                          | (s', None) => with_sup st s' (Spawning sl :: rest)
                          end
                end)
      | _ => None
      end
  | ASpawned n r =>
      match take_call n (w_calls st) with
      | Some (Spawning sl, rest) =>
          match r with
          | None => Some (with_sup st s (Settled sl :: rest))
          | Some p => if fresh p st then Some (spawned p (with_sup st s (Calling (mkSlot (Some p) 0) p :: rest))) else None
          end
      | _ => None
      end
  | AAnswer n e =>
      match take_call n (w_calls st) with
      | Some (Calling sl p, rest) =>
          Some (match e with
                | Answered revoked rss =>
                    if recycle cfg (sl_ops sl + 1) revoked rss then retired count_recycle (logged p revoked st) rest p
                    else logged p revoked (with_sup st s (Settled (mkSlot (sl_proc sl) (sl_ops sl + 1)) :: rest))
                | Garbled revoked => retired id (logged p revoked st) rest p
                | TimedOut => retired count_timeout st rest p
                | Canceled => retired id st rest p
                | Crashed => retired count_crash st rest p
                end)
      | _ => None
      end
  | ARelease n =>
      match take_call n (w_calls st) with
      | Some (Settled sl, rest) => Some (with_sup st (fst (release sl s)) rest)
      | _ => None
      end
  | _ => None
  end.
(** [warmLoop], with its start in [Start]. *)
Definition apply_warm (a : action) (st : state) : option state :=
  let s := w_sup st in
  match a with
  | AWarmStart =>
      match w_warmer st, w_closer st with
      | WNone, CNone => if 0 <? standby_of cfg then Some (with_warmer st (requestWarm s) WIdle) else None
      | _, _ => None
      end
  | AWarmTake =>
      match w_warmer st with
      | WIdle => if su_warm s then Some (with_warmer st (clear_warm s) WFilling) else None
      | _ => None
      end
  | AWarmSpawn r =>
      match w_warmer st with
      | WFilling =>
          if Z.of_nat (length (su_standby s)) <? standby_of cfg then
            match r with
            | None => Some (with_warmer st s WBackoff)
            | Some p => if fresh p st then Some (spawned p (with_warmer st s (WHolding p))) else None
            end
          else None
      | _ => None
      end
  | AWarmFull =>
      match w_warmer st with
      | WFilling => if Z.of_nat (length (su_standby s)) <? standby_of cfg then None else Some (with_warmer st s WIdle)
      | _ => None
      end
  | AWarmPut =>
      match w_warmer st with
      | WHolding p => if Z.of_nat (length (su_standby s)) <? standby_of cfg
                      then Some (with_warmer st (set_standby s (su_standby s ++ [p])) WFilling) else None
      | _ => None
      end
  | AWarmDrop =>
      match w_warmer st with
      | WHolding p => if stopping st then Some (killed p (with_warmer st s WStopped)) else None
      | _ => None
      end
  | AWarmWake => match w_warmer st with WBackoff => Some (with_warmer st s WIdle) | _ => None end
  | AWarmStop =>
      match w_warmer st with
      | WIdle | WBackoff => if stopping st then Some (with_warmer st s WStopped) else None
      | _ => None
      end
  | _ => None
  end.
(** [Close]. *)
Definition apply_close (a : action) (st : state) : option state :=
  let s := w_sup st in
  match a with
  | AClose => Some (if su_closed s then st else with_closer st (close_flag s) CWaiting)
  | ACloseWarm =>
      match w_closer st, w_warmer st with
      | CWaiting, (WNone | WStopped) => Some (with_closer st s (CSlots size_nat))
      | _, _ => None
      end
  | ACloseSlot =>
      match w_closer st, su_free s with
      | CSlots (S k), sl :: rest =>
          let st' := with_closer st (after_retire cfg (set_free s rest)) (CSlots k) in
          Some (match sl_proc sl with Some p => killed p st' | None => st' end)
      | _, _ => None
      end
  | ACloseSlots => match w_closer st with CSlots O => Some (with_closer st s CStandby) | _ => None end
  | ACloseStandby =>
      match w_closer st with
      | CStandby =>
          Some (match su_standby s with
                | p :: t => killed p (with_closer st (set_standby s t) CStandby)
                | [] => with_closer st s CDone
                end)
      | _ => None
      end
  | _ => None
  end.
Definition apply (a : action) (st : state) : option state :=
  match a with
  | AEnter | AGiveUp | ATake | AEnsure _ | ASpawned _ _ | AAnswer _ _ | ARelease _ => apply_call a st
  | AWarmStart | AWarmTake | AWarmSpawn _ | AWarmFull | AWarmPut | AWarmDrop | AWarmWake | AWarmStop => apply_warm a st
  | AClose | ACloseWarm | ACloseSlot | ACloseSlots | ACloseStandby => apply_close a st
  end.

Fixpoint run (acts : list action) (st : state) : option state :=
  match acts with
  | [] => Some st
  | a :: t => match apply a st with Some st' => run t st' | None => None end
  end.
Definition reachable (st : state) : Prop := exists p acts, run acts (start p) = Some st.

(** ** Who holds which child *)
Definition slot_holds (sl : slot) : list (Z * Z) := match sl_proc sl with Some p => [(p, sl_ops sl)] | None => [] end.
Definition spare (p : Z) : Z * Z := (p, 0).
Definition warmer_holds (w : warmer) : list (Z * Z) := match w with WHolding p => [spare p] | _ => [] end.
Definition slots_hold (l : list slot) : list (Z * Z) := concat (slot_holds <$> l).
Definition holds (st : state) : list (Z * Z) :=
  slots_hold (su_free (w_sup st)) ++ slots_hold (stage_slot <$> w_calls st) ++
  (spare <$> su_standby (w_sup st)) ++ warmer_holds (w_warmer st).

(** The answers of a child. *)
Definition served (p : Z) (log : list (Z * bool)) : Z := Z.of_nat (length (filter (fun x => fst x = p) log)).
Definition within_budget (log : list (Z * bool)) (x : Z * Z) : Prop :=
  snd x = served (fst x) log /\ (0 < maxOps cfg -> snd x < maxOps cfg) /\
  (cf_keep_after_revoked cfg = false -> forall r, (fst x, r) ∈ log -> r = false).
Definition log_ok (log : list (Z * bool)) : Prop := forall p,
  (0 < maxOps cfg -> served p log <= maxOps cfg) /\
  (cf_keep_after_revoked cfg = false -> forall l1 l2, log = l1 ++ (p, true) :: l2 -> forall r, (p, r) ∉ l2).
Record core (h : list (Z * Z)) (sp ki : list Z) (log : list (Z * bool)) : Prop := {
  co_nodup : NoDup sp;
  co_owned : h.*1 ++ ki ≡ₚ sp;
  co_budget : Forall (within_budget log) h;
  co_log : log_ok log;
  co_known : forall p r, (p, r) ∈ log -> p ∈ sp;
}.

Lemma served_app p a b : served p (a ++ b) = served p a + served p b.
Proof. unfold served. rewrite filter_app, length_app. lia. Qed.
Lemma served_one p q r : served p [(q, r)] = if decide (q = p) then 1 else 0.
Proof. unfold served. cbn. by case_decide. Qed.
Lemma served_none p log : (forall r, (p, r) ∉ log) -> served p log = 0.
Proof.
  unfold served. induction log as [|[q r] log IH]; intros H; [done|]. rewrite filter_cons_False.
  - apply IH. intros r' Hr. apply (H r'). by right.
  - cbn. intros ->. apply (H r). left.
Qed.

Lemma core_perm h h' sp ki log : h ≡ₚ h' -> core h sp ki log -> core h' sp ki log.
Proof.
  intros P [A B C D E]. split; try done; [by rewrite <- P|]. rewrite Forall_forall in *. intros x Hx. apply C. by rewrite P.
Qed.
Lemma core_kill p o h sp ki log : core ((p, o) :: h) sp ki log -> core h sp (p :: ki) log.
Proof.
  intros [A B C D E]. split; try done; [|by inversion C]. rewrite <- B. cbn. solve_Permutation.
Qed.
Lemma core_spawn p h sp ki log : p ∉ sp -> core h sp ki log -> core (spare p :: h) (p :: sp) ki log.
Proof.
  intros Hp [A B C D E]. split; try done.
  - by apply NoDup_cons.
  - cbn. by rewrite B.
  - apply Forall_cons. split; [|done]. unfold within_budget, spare. cbn. split_and!; [|done|].
    + symmetry. apply served_none. intros r Hr. by apply Hp, (E p r).
    + intros _ r Hr. by destruct (Hp (E p r Hr)).
  - intros q r Hr. right. by eapply E.
Qed.

(** The children of a core are pairwise different. *)
Lemma core_distinct p o h sp ki log q : core ((p, o) :: h) sp ki log -> q ∈ h.*1 -> q <> p.
Proof.
  intros [A B _ _ _] Hq ->. rewrite <- B in A. cbn in A. apply NoDup_cons in A as [A _]. apply A. apply elem_of_app. by left.
Qed.

Lemma log_ok_app p r o h sp ki log : core ((p, o) :: h) sp ki log -> log_ok (log ++ [(p, r)]).
Proof.
  intros [_ _ C D _] q. inversion_clear C as [|? ? [Ho [Hb Hk]] _]. cbn in Ho, Hb, Hk. destruct (D q) as [D1 D2]. split.
  - intros Hm. rewrite served_app, served_one. specialize (D1 Hm). specialize (Hb Hm). case_decide; subst; lia.
  - intros Hkeep l1 l2 Hl r' Hr. specialize (D2 Hkeep). destruct l2 as [|y l3 _] using rev_ind; [by apply elem_of_nil in Hr|].
    rewrite app_comm_cons, app_assoc in Hl. apply app_inj_tail in Hl as [Hl <-].
    apply elem_of_app in Hr as [Hr|Hr]; [by eapply D2|]. apply list_elem_of_singleton in Hr as [= -> _].
    assert (true = false); [|done]. apply (Hk Hkeep). rewrite Hl. apply elem_of_app. right. by left.
Qed.

Lemma budget_app p r o h sp ki log :
  core ((p, o) :: h) sp ki log -> Forall (within_budget (log ++ [(p, r)])) h.
Proof.
  intros Hc. pose proof Hc as [_ _ C _ _]. inversion_clear C as [|? ? _ C']. rewrite Forall_forall in *.
  intros [q o'] Hx. destruct (C' _ Hx) as (Ho & Hb & Hk). cbn in *.
  assert (Hq : q <> p) by (eapply core_distinct; [exact Hc|]; by apply (list_elem_of_fmap_2 fst) in Hx).
  split_and!; [|done|].
  - cbn. rewrite served_app, served_one, decide_False by congruence. lia.
  - intros Hkeep r' [Hr|[= -> _]%list_elem_of_singleton]%elem_of_app; [by apply Hk|done].
Qed.

Lemma core_answer p r o h sp ki log :
  core ((p, o) :: h) sp ki log -> (0 < maxOps cfg -> o + 1 < maxOps cfg) ->
  (cf_keep_after_revoked cfg = false -> r = false) ->
  core ((p, o + 1) :: h) sp ki (log ++ [(p, r)]).
Proof.
  intros Hc Hm Hr. pose proof Hc as [A B C D E]. split; try done.
  - apply Forall_cons. split; [|by eapply budget_app]. inversion_clear C as [|? ? [Ho [Hb Hk]] _]. cbn in *.
    split_and!; [|done|].
    + cbn. rewrite served_app, served_one, decide_True by done. lia.
    + intros Hkeep r' [Hx|[= ->]%list_elem_of_singleton]%elem_of_app; [by apply Hk|by apply Hr].
  - by eapply log_ok_app.
  - intros q r' [Hq|[= -> _]%list_elem_of_singleton]%elem_of_app; [by eapply E|]. rewrite <- B. by left.
Qed.

Lemma core_answer_kill p r o h sp ki log :
  core ((p, o) :: h) sp ki log -> core h sp (p :: ki) (log ++ [(p, r)]).
Proof.
  intros Hc. pose proof Hc as [A B C D E]. split; [done| |by eapply budget_app|by eapply log_ok_app|].
  - rewrite <- B. cbn. solve_Permutation.
  - intros q r' [Hq|[= -> _]%list_elem_of_singleton]%elem_of_app; [by eapply E|]. rewrite <- B. by left.
Qed.

(** A child that is kept after an answer is within its budget. *)
Lemma recycle_kept ops revoked rss :
  recycle cfg ops revoked rss = false ->
  (0 < maxOps cfg -> ops < maxOps cfg) /\ (cf_keep_after_revoked cfg = false -> revoked = false).
Proof.
  unfold recycle. destruct (revoked && negb (cf_keep_after_revoked cfg)) eqn:E; [done|]. intros H. split.
  - intros Hm. rewrite (proj2 (Z.ltb_lt _ _) Hm) in H. cbn [andb] in H. destruct (Z.leb_spec (maxOps cfg) ops); [done|lia].
  - intros Hk. by rewrite Hk, andb_true_r in E.
Qed.

(** ** The invariant *)
Definition call_ok (g : stage) : Prop :=
  match g with Calling sl p => sl_proc sl = Some p | Spawning sl => sl_proc sl = None | _ => True end.
(** Every slot is free, with a call, or drained by [Close]. *)
Definition slots_ok (st : state) : Prop :=
  let n := (length (su_free (w_sup st)) + length (w_calls st))%nat in
  match w_closer st with
  | CNone | CWaiting => n = size_nat
  | CSlots k => n = k /\ (k <= size_nat)%nat
  | CStandby => n = 0%nat
  | CDone => n = 0%nat /\ su_standby (w_sup st) = []
  end.
Definition close_ok (st : state) : Prop :=
  su_closed (w_sup st) = stopping st /\
  match w_closer st with
  | CNone | CWaiting => True
  | _ => w_warmer st = WNone \/ w_warmer st = WStopped
  end.
Record inv (st : state) : Prop := {
  in_core : core (holds st) (w_spawned st) (w_killed st) (w_log st);
  in_calls : Forall call_ok (w_calls st);
  in_slots : slots_ok st;
  in_close : close_ok st;
  in_use : su_in_use (w_sup st) = Z.of_nat (length (w_calls st));
}.

Lemma take_call_perm n l g rest : take_call n l = Some (g, rest) -> l ≡ₚ g :: rest.
Proof.
  unfold take_call. destruct (l !! n) as [x|] eqn:E; [|done]. intros [= -> <-].
  rewrite <- (take_drop_middle l n g E) at 1. by rewrite Permutation_middle.
Qed.
Lemma slots_hold_cons sl l : slots_hold (sl :: l) = slot_holds sl ++ slots_hold l.
Proof. done. Qed.
Lemma slots_hold_app a b : slots_hold (a ++ b) = slots_hold a ++ slots_hold b.
Proof. unfold slots_hold. by rewrite fmap_app, concat_app. Qed.
Global Instance slots_hold_perm : Proper ((≡ₚ) ==> (≡ₚ)) slots_hold.
Proof. intros a b H. unfold slots_hold. induction H; cbn; rewrite ?IHPermutation; solve [solve_Permutation|by etrans]. Qed.

(** The parts of the supervisor a transition may leave alone. *)
Lemma after_retire_fields (s : Supervisor) :
  su_free (after_retire cfg s) = su_free s /\ su_standby (after_retire cfg s) = su_standby s /\
  su_closed (after_retire cfg s) = su_closed s /\ su_in_use (after_retire cfg s) = su_in_use s.
Proof. unfold after_retire. by destruct (0 <? standby_of cfg). Qed.

(** What is held when a call is taken out. *)
Lemma holds_taken st n g rest :
  take_call n (w_calls st) = Some (g, rest) ->
  holds st ≡ₚ slot_holds (stage_slot g) ++ holds (with_sup st (w_sup st) rest).
Proof.
  intros E%take_call_perm. unfold holds. cbn [w_sup w_calls w_warmer with_sup].
  rewrite E. cbn [fmap list_fmap]. rewrite slots_hold_cons. solve_Permutation.
Qed.
Lemma calls_taken st n g rest :
  take_call n (w_calls st) = Some (g, rest) -> Forall call_ok (w_calls st) ->
  call_ok g /\ Forall call_ok rest /\ length (w_calls st) = S (length rest).
Proof.
  intros E%take_call_perm H. rewrite E in H. apply Forall_cons in H as [? ?]. split_and!; [done|done|]. by rewrite E.
Qed.

(** A call replaced by another with the same slot count. *)
Lemma inv_call st n g rest s' g' sp ki log w :
  inv st -> take_call n (w_calls st) = Some (g, rest) -> call_ok g' ->
  su_free s' = su_free (w_sup st) -> su_closed s' = su_closed (w_sup st) -> su_in_use s' = su_in_use (w_sup st) ->
  (w_closer st = CDone -> su_standby s' = []) ->
  core (holds (mkState s' w (g' :: rest) (w_warmer st) (w_closer st) sp ki log)) sp ki log ->
  inv (mkState s' w (g' :: rest) (w_warmer st) (w_closer st) sp ki log).
Proof.
  intros [_ Hc Hs Hl Hu] E Hg Hf Hcl Hus Hst Hco. destruct (calls_taken _ _ _ _ E Hc) as (_ & Hr & Hn).
  split; [exact Hco|by apply Forall_cons| | |].
  - unfold slots_ok in *. cbn [w_closer w_sup w_calls length] in *. rewrite Hf. rewrite Hn in Hs.
    destruct (w_closer st); try done. destruct Hs as [Hs _]. split; [done|by apply Hst].
  - unfold close_ok, stopping in *. cbn [w_closer w_sup w_warmer] in *. by rewrite Hcl.
  - cbn [w_sup w_calls length]. rewrite Hus, Hu, Hn. done.
Qed.

Lemma inv_retired st n sl p rest f log :
  inv st -> take_call n (w_calls st) = Some (Calling sl p, rest) ->
  (log = w_log st \/ exists r, log = w_log st ++ [(p, r)]) ->
  inv (retired f (mkState (w_sup st) (w_waiting st) (w_calls st) (w_warmer st) (w_closer st)
         (w_spawned st) (w_killed st) log) rest p).
Proof.
  intros Hi E Hlog. pose proof Hi as [Hco Hc Hs _ _]. destruct (calls_taken _ _ _ _ E Hc) as (Hp & _ & _). cbn in Hp.
  destruct (after_retire_fields (count f (w_sup st))) as (F1 & F2 & F3 & F4).
  unfold retired, killed. cbn [w_sup w_waiting w_calls w_warmer w_closer w_spawned w_killed w_log with_sup].
  eapply inv_call; [exact Hi|exact E|done|done|done|done| |].
  - rewrite F2. unfold slots_ok in Hs. intros Hd. rewrite Hd in Hs. by destruct Hs.
  - pose proof (core_perm _ _ _ _ _ (holds_taken _ _ _ _ E) Hco) as Hk. cbn [stage_slot] in Hk.
    unfold slot_holds in Hk at 1. rewrite Hp in Hk. cbn [app] in Hk.
    assert (P : holds (mkState (after_retire cfg (count f (w_sup st))) (w_waiting st) (Settled (mkSlot None 0) :: rest)
              (w_warmer st) (w_closer st) (w_spawned st) (p :: w_killed st) log) = holds (with_sup st (w_sup st) rest)).
    { unfold holds. cbn [w_sup w_calls w_warmer with_sup]. by rewrite F1, F2. }
    rewrite P. destruct Hlog as [->|[r ->]]; [by eapply core_kill|by eapply core_answer_kill].
Qed.

(** The actions of a call. *)
Lemma apply_call_inv a st st' :
  match a with AEnsure _ | ASpawned _ _ | AAnswer _ _ => True | _ => False end ->
  inv st -> apply a st = Some st' -> inv st'.
Proof.
  intros Ha Hi E. pose proof Hi as [Hco Hc Hs Hl Hu].
  assert (T : forall n g rest, take_call n (w_calls st) = Some (g, rest) ->
    call_ok g /\ core (slot_holds (stage_slot g) ++ holds (with_sup st (w_sup st) rest)) (w_spawned st) (w_killed st) (w_log st)).
  { intros n g rest Eg. split; [by eapply calls_taken|]. eapply core_perm; [by eapply holds_taken|done]. }
  assert (D : w_closer st = CDone -> su_standby (w_sup st) = []) by (intros Hd; unfold slots_ok in Hs; rewrite Hd in Hs; tauto).
  destruct a as [| | |n|n r|n e| | | | | | | | | | | | | |]; try done; cbn [apply apply_call apply_warm apply_close] in E;
    (destruct (take_call n (w_calls st)) as [[[sl|sl|sl p|sl] rest]|] eqn:Et; try done);
    destruct (T _ _ _ Et) as [Hg Hk]; cbn [stage_slot call_ok] in *.
  - destruct (sl_proc sl) as [p|] eqn:Ep; [|destruct (su_standby (w_sup st)) as [|p t] eqn:Es].
    + injection E as <-. eapply inv_call; [done|exact Et|done|done|done|done|done|].
      unfold holds in *. cbn [w_sup w_calls w_warmer with_sup stage_slot fmap list_fmap] in *. rewrite slots_hold_cons.
      eapply core_perm; [|exact Hk]. solve_Permutation.
    + unfold takeStandby in E. rewrite Es in E. injection E as <-. eapply inv_call; [done|exact Et|done|done|done|done|done|].
      unfold holds in *. cbn [w_sup w_calls w_warmer with_sup stage_slot fmap list_fmap] in *. rewrite slots_hold_cons.
      eapply core_perm; [|exact Hk]. solve_Permutation.
    + unfold takeStandby in E. rewrite Es in E. injection E as <-.
      eapply inv_call; [done|exact Et|done|done|done|done| |].
      * intros Hd. specialize (D Hd). congruence.
      * unfold slot_holds in Hk at 1. rewrite Ep in Hk. unfold holds in *.
        cbn [w_sup w_calls w_warmer with_sup stage_slot fmap list_fmap requestWarm count set_standby su_free su_standby] in *.
        rewrite slots_hold_cons. rewrite Es in Hk. eapply core_perm; [|exact Hk]. cbn. solve_Permutation.
  - unfold slot_holds in Hk at 1. rewrite Hg in Hk. cbn [app] in Hk. destruct r as [p|].
    + destruct (fresh p st) eqn:Ef; [|done]. apply bool_decide_eq_true in Ef. injection E as <-.
      unfold spawned. cbn [w_sup w_waiting w_calls w_warmer w_closer w_spawned w_killed w_log with_sup].
      eapply inv_call; [done|exact Et|done|done|done|done|done|].
      eapply core_perm; [|by apply (core_spawn p)]. unfold holds.
      cbn [w_sup w_calls w_warmer with_sup stage_slot fmap list_fmap count su_free su_standby]. rewrite slots_hold_cons.
      cbn. solve_Permutation.
    + injection E as <-. eapply inv_call; [done|exact Et|done|done|done|done|done|].
      unfold holds in *. cbn [w_sup w_calls w_warmer with_sup stage_slot fmap list_fmap] in *. rewrite slots_hold_cons.
      unfold slot_holds at 1. by rewrite Hg.
  - destruct e as [revoked rss|revoked| | |]; [destruct (recycle cfg (sl_ops sl + 1) revoked rss) eqn:Er| | | |];
      injection E as <-; try (eapply inv_retired; [done|exact Et|by eauto]).
    apply recycle_kept in Er as [Hm Hr]. unfold logged.
    cbn [w_sup w_waiting w_calls w_warmer w_closer w_spawned w_killed w_log with_sup].
    eapply inv_call; [done|exact Et|done|done|done|done|done|].
    unfold slot_holds in Hk at 1. rewrite Hg in Hk. cbn [app] in Hk.
    eapply core_perm; [|eapply (core_answer p revoked); [exact Hk|done|done]].
    unfold holds. cbn [w_sup w_calls w_warmer with_sup stage_slot fmap list_fmap].
    rewrite slots_hold_cons. unfold slot_holds. cbn [sl_proc sl_ops]. rewrite Hg. solve_Permutation.
Qed.

(** The actions of the warmer. *)
Lemma inv_warm st s w sp ki :
  inv st -> su_free s = su_free (w_sup st) -> su_closed s = su_closed (w_sup st) -> su_in_use s = su_in_use (w_sup st) ->
  (w_closer st = CDone -> su_standby s = []) ->
  (match w_closer st with CNone | CWaiting => True | _ => w = WNone \/ w = WStopped end) ->
  core (holds (mkState s (w_waiting st) (w_calls st) w (w_closer st) sp ki (w_log st))) sp ki (w_log st) ->
  inv (mkState s (w_waiting st) (w_calls st) w (w_closer st) sp ki (w_log st)).
Proof.
  intros [_ Hc Hs Hl Hu] Hf Hcl Hus Hst Hw Hco. split; [exact Hco|exact Hc| | |].
  - unfold slots_ok in *. cbn [w_closer w_sup w_calls] in *. rewrite Hf. destruct (w_closer st); try done.
    destruct Hs as [Hs _]. split; [done|by apply Hst].
  - destruct Hl as [Hl _]. unfold close_ok, stopping in *. cbn [w_closer w_sup w_warmer] in *. by rewrite Hcl.
  - cbn [w_sup w_calls]. by rewrite Hus.
Qed.

Lemma apply_warm_inv a st st' :
  match a with AWarmStart | AWarmTake | AWarmSpawn _ | AWarmFull | AWarmPut | AWarmDrop | AWarmWake | AWarmStop => True | _ => False end ->
  inv st -> apply a st = Some st' -> inv st'.
Proof.
  intros Ha Hi E. pose proof Hi as [Hco Hc Hs [Hl Hw] Hu].
  assert (D : w_closer st = CDone -> su_standby (w_sup st) = []) by (intros Hd; unfold slots_ok in Hs; rewrite Hd in Hs; tauto).
  assert (N : match w_closer st with CNone | CWaiting => True | _ => w_warmer st = WNone \/ w_warmer st = WStopped end) by exact Hw.
  destruct a as [| | | | | | | | |r| | | | | | | | | |]; try done; cbn [apply apply_call apply_warm apply_close] in E; destruct (w_warmer st) eqn:Ew; try done.
  - destruct (w_closer st) eqn:Ec; try done. destruct (0 <? _); [|done]. injection E as <-. unfold with_warmer.
    apply inv_warm; [done|done|done|done|congruence|by rewrite Ec|]. unfold holds in *. cbn in *. by rewrite Ew in Hco.
  - destruct (su_warm _); [|done]. injection E as <-. apply inv_warm; try done.
    + by destruct (w_closer st); destruct N.
    + unfold holds in *. cbn in *. by rewrite Ew in Hco.
  - destruct (_ <? _); [|done]. destruct r as [p|]; [destruct (fresh p st) eqn:Ef; [|done]|]; injection E as <-.
    + apply bool_decide_eq_true in Ef. unfold spawned. cbn [w_sup w_waiting w_calls w_warmer w_closer w_spawned w_killed w_log with_warmer].
      apply inv_warm; try done; [by destruct (w_closer st); destruct N|].
      eapply core_perm; [|by apply (core_spawn p)]. unfold holds. cbn. rewrite Ew. solve_Permutation.
    + apply inv_warm; try done; [by destruct (w_closer st); destruct N|]. unfold holds in *. cbn in *. by rewrite Ew in Hco.
  - destruct (_ <? _); [done|]. injection E as <-. apply inv_warm; try done; [by destruct (w_closer st); destruct N|].
    unfold holds in *. cbn in *. by rewrite Ew in Hco.
  - destruct (_ <? _); [|done]. injection E as <-. apply inv_warm; try done.
    + intros Hd. rewrite Hd in N. by destruct N.
    + by destruct (w_closer st); destruct N.
    + eapply core_perm; [|exact Hco]. unfold holds. cbn. rewrite Ew, fmap_app. cbn. solve_Permutation.
  - destruct (stopping st); [|done]. injection E as <-. unfold killed. cbn [w_sup w_waiting w_calls w_warmer w_closer w_spawned w_killed w_log with_warmer].
    apply inv_warm; try done; [destruct (w_closer st); tauto|]. apply (core_kill p 0).
    eapply core_perm; [|exact Hco]. unfold holds. cbn. rewrite Ew. cbn. solve_Permutation.
  - injection E as <-. apply inv_warm; try done; [by destruct (w_closer st); destruct N|]. unfold holds in *. cbn in *. by rewrite Ew in Hco.
  - destruct (stopping st); [|done]. injection E as <-. apply inv_warm; try done; [destruct (w_closer st); tauto|].
    unfold holds in *. cbn in *. by rewrite Ew in Hco.
  - destruct (stopping st); [|done]. injection E as <-. apply inv_warm; try done; [destruct (w_closer st); tauto|].
    unfold holds in *. cbn in *. by rewrite Ew in Hco.
Qed.

Lemma apply_slot_inv a st st' :
  match a with AEnter | AGiveUp | ATake | ARelease _ => True | _ => False end ->
  inv st -> apply a st = Some st' -> inv st'.
Proof.
  intros Ha Hi E. pose proof Hi as [Hco Hc Hs Hl Hu]. destruct a as [| | | | | |n| | | | | | | | | | | | |]; try done; cbn [apply apply_call apply_warm apply_close] in E.
  - injection E as <-. by destruct (su_closed _).
  - destruct (w_waiting st); [done|]. injection E as <-. done.
  - destruct (w_waiting st); [done|]. destruct (su_free (w_sup st)) as [|sl rest] eqn:Ef; [done|]. injection E as <-. split.
    + eapply core_perm; [|exact Hco]. unfold holds.
      cbn [w_sup w_calls w_warmer stage_slot fmap list_fmap use set_free su_free su_standby].
      rewrite Ef, !slots_hold_cons. solve_Permutation.
    + by apply Forall_cons.
    + unfold slots_ok in *. cbn in *. rewrite Ef in Hs. cbn in Hs. destruct (w_closer st); cbn in *; lia.
    + exact Hl.
    + cbn. rewrite Hu. lia.
  - destruct (take_call n _) as [[[| | |sl] rest]|] eqn:Et; try done. injection E as <-.
    destruct (calls_taken _ _ _ _ Et Hc) as (_ & Hr & Hn). split; [|exact Hr| |exact Hl|].
    + eapply core_perm; [|exact Hco]. rewrite (holds_taken _ _ _ _ Et). unfold holds.
      cbn [stage_slot fst release w_sup w_calls w_warmer with_sup set_free use su_free su_standby].
      rewrite slots_hold_app, slots_hold_cons. change (slots_hold []) with (@nil (Z * Z)). solve_Permutation.
    + unfold slots_ok in *. cbn in *. rewrite length_app. cbn. rewrite Hn in Hs. destruct (w_closer st); try lia.
    + cbn. rewrite Hu, Hn. lia.
Qed.

Lemma apply_close_inv a st st' :
  match a with AClose | ACloseWarm | ACloseSlot | ACloseSlots | ACloseStandby => True | _ => False end ->
  inv st -> apply a st = Some st' -> inv st'.
Proof.
  intros Ha Hi E. pose proof Hi as [Hco Hc Hs [Hl Hw] Hu].
  destruct a as [| | | | | | | | | | | | | | | | | | |]; try done; cbn [apply apply_call apply_warm apply_close] in E.
  - injection E as <-. destruct (su_closed (w_sup st)) eqn:Ec; [done|].
    assert (N : w_closer st = CNone) by (unfold stopping in Hl; destruct (w_closer st); congruence).
    split; [exact Hco|exact Hc| |by split|exact Hu]. unfold slots_ok in *. rewrite N in Hs. exact Hs.
  - destruct (w_closer st) eqn:Ec; try done. assert (Hq : with_closer st (w_sup st) (CSlots size_nat) = st' /\ (w_warmer st = WNone \/ w_warmer st = WStopped)).
    { destruct (w_warmer st); try done; injection E as <-; by split; [|auto]. }
    destruct Hq as [<- Hq]. split; [exact Hco|exact Hc| | |exact Hu].
    + unfold slots_ok in *. rewrite Ec in Hs. split; [exact Hs|done].
    + split; [|exact Hq]. cbn. rewrite Hl. unfold stopping. by rewrite Ec.
  - destruct (w_closer st) as [| |[|k]| |] eqn:Ec; try done. destruct (su_free (w_sup st)) as [|sl rest] eqn:Ef; [done|]. injection E as <-.
    destruct (after_retire_fields (set_free (w_sup st) rest)) as (F1 & F2 & F3 & F4).
    assert (P : holds st ≡ₚ slot_holds sl ++ holds (with_closer st (after_retire cfg (set_free (w_sup st) rest)) (CSlots k))).
    { unfold holds. cbn [w_sup w_calls w_warmer with_closer]. rewrite F1, F2, Ef, slots_hold_cons. cbn. solve_Permutation. }
    assert (S : slots_ok (with_closer st (after_retire cfg (set_free (w_sup st) rest)) (CSlots k))).
    { unfold slots_ok in *. rewrite Ec, Ef in Hs. cbn [w_closer w_sup w_calls with_closer]. rewrite F1. cbn in *. lia. }
    assert (L : close_ok (with_closer st (after_retire cfg (set_free (w_sup st) rest)) (CSlots k))).
    { split; [|exact Hw]. cbn [w_sup with_closer]. rewrite F3. cbn. rewrite Hl. unfold stopping. by rewrite Ec. }
    assert (U : su_in_use (after_retire cfg (set_free (w_sup st) rest)) = Z.of_nat (length (w_calls st))) by (rewrite F4; exact Hu).
    apply (core_perm _ _ _ _ _ P) in Hco. unfold slot_holds in Hco. destruct (sl_proc sl) as [p|].
    + split; [by eapply core_kill|exact Hc|exact S|exact L|exact U].
    + split; [exact Hco|exact Hc|exact S|exact L|exact U].
  - destruct (w_closer st) as [| |[|k]| |] eqn:Ec; try done. injection E as <-.
    split; [exact Hco|exact Hc| | |exact Hu].
    + unfold slots_ok in *. rewrite Ec in Hs. apply Hs.
    + split; [|exact Hw]. cbn. rewrite Hl. unfold stopping. by rewrite Ec.
  - destruct (w_closer st) eqn:Ec; try done. injection E as <-. destruct (su_standby (w_sup st)) as [|p t] eqn:Es.
    + split; [exact Hco|exact Hc| | |exact Hu].
      * unfold slots_ok in *. rewrite Ec in Hs. by split.
      * split; [|exact Hw]. cbn. rewrite Hl. unfold stopping. by rewrite Ec.
    + split; [|exact Hc| | |exact Hu].
      * apply (core_kill p 0). eapply core_perm; [|exact Hco]. unfold holds. cbn. rewrite Es. cbn. unfold spare at 1. solve_Permutation.
      * unfold slots_ok in *. rewrite Ec in Hs. exact Hs.
      * split; [|exact Hw]. cbn. rewrite Hl. unfold stopping. by rewrite Ec.
Qed.

Lemma worker_apply_inv a st st' : inv st -> apply a st = Some st' -> inv st'.
Proof.
  destruct a; first [by apply apply_call_inv|by apply apply_warm_inv|by apply apply_slot_inv|by apply apply_close_inv].
Qed.

Lemma slots_hold_empty n : slots_hold (repeat (mkSlot None 0) n) = [].
Proof. induction n as [|n IH]; [done|]. exact IH. Qed.
Lemma size_pos : (1 <= size_nat)%nat.
Proof. unfold size_nat, size_of. destruct (Z.ltb_spec (cf_size cfg) 1); lia. Qed.

Lemma start_inv p : inv (start p).
Proof.
  split; [|done| |done|done].
  - unfold holds, start. cbn [w_sup w_calls w_warmer su_free su_standby]. rewrite slots_hold_cons, slots_hold_empty.
    cbn. split; cbn.
    + apply NoDup_singleton.
    + done.
    + apply Forall_singleton. split_and!; [done|done|]. cbn. by intros _ r ?%elem_of_nil.
    + intros q. split; [intros Hm; change (0 <= maxOps cfg); lia|]. intros _ l1 l2 E. by destruct l1.
    + by intros ? ? ?%elem_of_nil.
  - unfold slots_ok. cbn. rewrite repeat_length. pose proof size_pos. lia.
Qed.

Lemma run_invariant acts st st' : inv st -> run acts st = Some st' -> inv st'.
Proof.
  revert st. induction acts as [|a acts IH]; intros st Hi; cbn [run]; [by intros [= <-]|].
  destruct (apply a st) as [st1|] eqn:E; [|done]. apply IH. by eapply worker_apply_inv.
Qed.
Lemma worker_reachable_inv st : reachable st -> inv st.
Proof. intros (p & acts & E). by eapply run_invariant; [apply start_inv|]. Qed.

(** C34: No child is shared, forgotten or left behind. In every interleaving of
    calls, crashes, timeouts, recycling, pre-warming and shutdown, each child
    ever started is held by exactly one slot, standby place or warmer, or has
    been killed; no more calls run than there are slots; and once [Close] has
    returned every child has been killed. *)
Theorem worker_no_leak st :
  reachable st ->
  NoDup (w_spawned st) /\ (holds st).*1 ++ w_killed st ≡ₚ w_spawned st /\
  su_in_use (w_sup st) = Z.of_nat (length (w_calls st)) /\ (length (w_calls st) <= size_nat)%nat /\
  (w_closer st = CDone -> w_killed st ≡ₚ w_spawned st).
Proof.
  intros H%worker_reachable_inv. destruct H as [[A B C D E] Hc Hs [Hl Hw] Hu].
  split_and!; [done|done|done|unfold slots_ok in Hs; destruct (w_closer st); lia|]. intros Hd.
  unfold slots_ok in Hs. rewrite Hd in Hs, Hw. destruct Hs as [Hs Hst]. rewrite <- B.
  assert (holds st = []) as ->; [|done]. unfold holds.
  destruct (su_free (w_sup st)); [|done]. destruct (w_calls st); [|done]. rewrite Hst. by destruct Hw as [->| ->].
Qed.

(** A child works within its budget and never after a revoked verdict. In
    every interleaving, a child has answered at most [MaxOps] operations when
    that budget is on, and, unless the configuration keeps such children, the
    answer that carried a revoked verdict is the last one of its child. *)
Theorem worker_budget st p :
  reachable st ->
  (0 < maxOps cfg -> served p (w_log st) <= maxOps cfg) /\
  (cf_keep_after_revoked cfg = false ->
   forall l1 l2 r, w_log st = l1 ++ (p, true) :: l2 -> (p, r) ∉ l2).
Proof. intros H%worker_reachable_inv. destruct H as [[_ _ _ D _] _ _ _ _]. destruct (D p) as [D1 D2]. split; eauto. Qed.

(** After [Close] has returned no slot is ever given again. *)
Lemma done_stays a st st' :
  inv st -> w_closer st = CDone -> a <> AGiveUp -> apply a st = Some st' ->
  w_closer st' = CDone /\ w_waiting st' = w_waiting st.
Proof.
  intros [_ _ Hs [Hl _] _] Hd Ha E. unfold slots_ok in Hs. rewrite Hd in Hs. destruct Hs as [Hs Hst].
  unfold stopping in Hl. rewrite Hd in Hl.
  destruct (su_free (w_sup st)) eqn:Ef; [|done]. destruct (w_calls st) eqn:Ec; [|done].
  destruct a; cbn [apply apply_call apply_warm apply_close] in E; rewrite ?Hl, ?Hd, ?Ef, ?Ec in E; try done;
    repeat match goal with
    | H : context [match w_waiting st with _ => _ end] |- _ => destruct (w_waiting st); try done
    | H : context [match w_warmer st with _ => _ end] |- _ => destruct (w_warmer st); try done
    | H : (if ?b then _ else _) = Some _ |- _ => destruct b; try done
    | H : match ?r with Some _ => _ | None => _ end = Some _ |- _ => destruct r; try done
    end; injection E as <-; by split.
Qed.

(** C40: A caller that passed the closed check before [Close] waits for ever. Once
    [Close] has returned, whatever happens next, a caller still waiting for a
    slot is never given one and never told that the supervisor is closed; only
    the end of its own context frees it. *)
Theorem closed_strands_waiters st acts st' :
  reachable st -> w_closer st = CDone -> AGiveUp ∉ acts -> run acts st = Some st' ->
  w_waiting st' = w_waiting st.
Proof.
  intros H%worker_reachable_inv Hd Ha E. revert st H Hd E. induction acts as [|a acts IH]; intros st Hi Hd; cbn [run]; [by intros [= <-]|].
  apply not_elem_of_cons in Ha as [Ha Ha']. destruct (apply a st) as [st1|] eqn:Ea; [|done]. intros E.
  destruct (done_stays a st st1 Hi Hd) as [Hd1 Hw1]; [congruence|done|].
  rewrite (IH Ha' st1) by (try done; by eapply worker_apply_inv). done.
Qed.
End Runs.

(** ** Two slots, one spare *)
Definition lab_config : Config := mkConfig ["worker"%string] 2 0 2 0 1 false.
Definition lab_calls : list action :=
  [AWarmStart; AEnter; AEnter; ATake; ATake; AWarmTake; AWarmSpawn (Some 2); AWarmPut; AWarmFull; AEnsure 1; AEnsure 1;
   AAnswer 0 (Answered true None); AAnswer 1 (Answered false None); ARelease 0; ARelease 0; AEnter; ATake; AEnsure 0;
   AAnswer 0 Crashed; ARelease 0; AEnter].
Definition lab_close : list action :=
  [AClose; AWarmStop; ACloseWarm; ACloseSlot; ACloseSlot; ACloseSlots; ACloseStandby].
Definition lab_run (acts : list action) : state :=
  match run lab_config acts (start lab_config 1) with Some st => st | None => start lab_config 1 end.
Lemma lab_reachable acts : is_Some (run lab_config acts (start lab_config 1)) -> reachable lab_config (lab_run acts).
Proof. intros [st E]. exists 1, acts. unfold lab_run. by rewrite E. Qed.

Lemma worker_no_leak_witness :
  w_closer (lab_run (lab_calls ++ lab_close)) = CDone /\ w_killed (lab_run (lab_calls ++ lab_close)) = [1; 2] /\
  w_killed (lab_run (lab_calls ++ lab_close)) ≡ₚ w_spawned (lab_run (lab_calls ++ lab_close)).
Proof.
  split; [vm_compute; reflexivity|]. split; [vm_compute; reflexivity|].
  apply (worker_no_leak lab_config); [apply lab_reachable; vm_compute; eexists; reflexivity|vm_compute; reflexivity].
Defined.

Lemma worker_budget_witness :
  w_log (lab_run lab_calls) = [(2, true); (1, false)] /\ served 1 (w_log (lab_run lab_calls)) <= 2.
Proof.
  split; [vm_compute; reflexivity|].
  apply (worker_budget lab_config); [apply lab_reachable; vm_compute; eexists; reflexivity|reflexivity].
Defined.

Lemma closed_strands_waiters_witness :
  w_waiting (lab_run (lab_calls ++ lab_close)) = 1%nat /\
  w_waiting (match run lab_config [AEnter; AClose] (lab_run (lab_calls ++ lab_close)) with Some st => st | None => start lab_config 1 end) = 1%nat.
Proof.
  split; [vm_compute; reflexivity|].
  rewrite (closed_strands_waiters lab_config (lab_run (lab_calls ++ lab_close)) [AEnter; AClose]
    (match run lab_config [AEnter; AClose] (lab_run (lab_calls ++ lab_close)) with Some st => st | None => start lab_config 1 end));
    [vm_compute; reflexivity|apply lab_reachable; vm_compute; eexists; reflexivity|vm_compute; reflexivity| |vm_compute; reflexivity].
  rewrite !elem_of_cons, elem_of_nil. intros [?|[?|?]]; done.
Defined.

(** A spare that could not be started is not tried again when the pause is over:
    the standby set stays empty and no refill is pending. *)
Example warmer_gives_up :
  let st := lab_run [AWarmStart; AWarmTake; AWarmSpawn None; AWarmWake] in
  w_warmer st = WIdle /\ su_warm (w_sup st) = false /\ su_standby (w_sup st) = [] /\
  forall r, apply lab_config AWarmTake st = None /\ apply lab_config (AWarmSpawn r) st = None.
Proof. vm_compute. repeat split. Qed.
End WorkerRuns.
