(* ===== verification/CertWatch.v ===== *)
(** * The certificate watcher (internal/certwatch/watch.go)

    A sweep reads every certificate file of a directory, checks its validity
    and its revocation, records a state and posts a webhook when the situation
    of a certificate changes. The directory, the files, the HTTP client, the
    JSON encoder, PEM and X.509 are parameters; the validator is an action of
    the world, the domain's [Validate] in the last section. *)
From stdpp Require Import sorting.
From S2P Require Import Prelude Errors Provider CoreTypes CertParse Explain Chain Service Asn1 Text.
Open Scope Z_scope.

Module CertWatch.

Definition defaultInterval : duration := 6 * hour.
Definition defaultWarnFrom : duration := 30 * (24 * hour).

Record Config := mkConfig {
  cf_dir : string; cf_interval : duration; cf_warn_from : duration; cf_url : string; cf_check : bool;
}.

(** The defaults of [New]. *)
Definition New_config (c : Config) : Config :=
  mkConfig (cf_dir c) (if cf_interval c <=? 0 then defaultInterval else cf_interval c)
    (if cf_warn_from c <=? 0 then defaultWarnFrom else cf_warn_from c) (cf_url c) (cf_check c).

Record State := mkState {
  st_file : string; st_subject : string; st_serial : string; st_not_after : option time;
  st_revoked : bool; st_expires_in : duration; st_checked_at : time; st_error : string;
}.
Record Event := mkEvent { ev_kind : string; ev_state : State }.

(** The maps of a [Watcher]. *)
Record watcher := mkWatcher { wa_states : gmap string State; wa_notified : gmap string string }.
Definition new_watcher : watcher := mkWatcher ∅ ∅.

(** [t.Sub(u)] saturates at the ends of a [time.Duration]. *)
Definition time_sub (t u : time) : duration :=
  let d := t - u in
  if d <? - 2 ^ 63 then - 2 ^ 63 else if 2 ^ 63 - 1 <? d then 2 ^ 63 - 1 else d.

(** [%X] of a big integer. *)
Fixpoint hex_loop (fuel : nat) (z : Z) (acc : string) : string :=
  match fuel with
  | O => acc
  | S f => let acc' := String (hex_digit (z mod 16)) acc in
           if z <? 16 then acc' else hex_loop f (z / 16) acc'
  end.
Definition hex_big (z : Z) : string :=
  let h := hex_loop (Z.to_nat (Z.log2 (Z.abs z) + 1)) (Z.abs z) "" in
  if z <? 0 then String "-" h else h.

(** [eventKind]. *)
Definition eventKind (s : State) (warnFrom : duration) : string :=
  if negb (empty_str (st_error s)) then "check_failed"
  else if st_revoked s then "revoked"
  else match st_not_after s with
       | Some _ => if st_expires_in s <=? 0 then "expired"
                   else if st_expires_in s <=? warnFrom then "expiring" else ""
       | None => ""
       end.

(** The file names a sweep considers. *)
Definition cert_ext (name : string) : bool :=
  existsb (str_eqb (to_lower (path_ext name))) [".cer"; ".crt"; ".pem"; ".der"].

(** What the watcher reads of a certificate. *)
Record wcert := mkWcert { wc_cn : string; wc_subject : string; wc_serial : Z; wc_not_after : time }.

(** What became of the webhook of one observation: not called, or its error. *)
Definition report : Type := option (option goerr).
Definition failed_report (r : report) : bool := match r with Some (Some _) => true | _ => false end.

Section Watch.
  Context {W : Type}.
  Variable now : M W time.
  Variable read_dir : string -> M W (res goerr (list (string * bool))).
  Variable read_file : string -> M W (res goerr string).
  Variable pem_block : string -> option (string * string).
  Variable parse_certificate : string -> res goerr wcert.
  Variable validate : ValidateInput -> M W (ValidateOutput * option goerr).
  Variable marshal_event : Event -> res goerr string.
  (** The request to an address, and its answer: status code and line. *)
  Variable valid_request : string -> option goerr.
  Variable http_post : string -> string -> M W (res goerr (Z * string)).
  Variable cfg : Config.

(** [certFiles]; the entries with whether they are directories. *)
Definition certFiles (dir : string) : M W (res goerr (list string)) :=
  if empty_str (trim_space dir) then mret (Ok [])
  else (let* entries := read_dir dir in
        mret match entries with
             | Err e => Err e
             | Ok l => Ok (sort_strings (map (fun e => path_join dir (fst e))
                             (filter (fun e => negb (snd e) && cert_ext (fst e) = true) l)))
             end)%m.

(** [decodeCert]. *)
Definition decodeCert (raw : string) : option (string * CertEncoding) :=
  let der := if is_ok (parse_certificate raw) then Some (raw, EncodingDER) else None in
  match pem_block raw with
  | Some (ty, b) => if str_eqb ty "CERTIFICATE" then Some (b, EncodingPEM) else der
  | None => der
  end.

Definition blank (file : string) (t : time) (err : string) : State :=
  mkState (path_base file) "" "" None false 0 t err.
Definition of_cert (file : string) (t : time) (c : wcert) (revoked : bool) (err : string) : State :=
  mkState (path_base file) (if empty_str (wc_cn c) then wc_subject c else wc_cn c)
    (hex_big (wc_serial c)) (Some (wc_not_after c)) revoked (time_sub (wc_not_after c) t) t err.

Definition watch_input (raw : string) (f : CertEncoding) : ValidateInput :=
  mkValidateInput raw f MethodOCSP time_zero false [] "" "".

(** [check]. *)
Definition check (file : string) : M W State :=
  (let* t := now in
   let* raw := read_file file in
   match raw with
   | Err e => mret (blank file t (err_text e))
   | Ok raw =>
       match decodeCert raw with
       | None => mret (blank file t "not a certificate (PEM or DER expected)")
       | Some (der, format) =>
           match parse_certificate der with
           | Err e => mret (blank file t ("parse: " ++ err_text e))
           | Ok c =>
               if negb (cf_check cfg) then mret (of_cert file t c false "")
               else
                 let* (out, err) := validate (watch_input raw format) in
                 mret match err, r_lib_error (vao_status out), r_revoked (vao_status out) with
                      | Some e, _, _ => of_cert file t c false ("revocation: " ++ err_text e)
                      | None, Some le, false =>
                          of_cert file t c false ("revocation inconclusive: " ++ le_message le)
                      | None, _, revoked => of_cert file t c revoked ""
                      end
           end
       end
   end)%m.

(** [postEvent]. *)
Definition postEvent (ev : Event) : M W (option goerr) :=
  match marshal_event ev with
  | Err e => mret (Some e)
  | Ok body =>
      match valid_request (cf_url cfg) with
      | Some e => mret (Some e)
      | None =>
          (let* r := http_post (cf_url cfg) body in
           mret match r with
                | Err e => Some e
                | Ok (code, status) =>
                    if 300 <=? code then Some (New ("webhook returned " ++ status)) else None
                end)%m
      end
  end.

(** The lock sections of [notify]: what changes, and giving the mark back. *)
Definition mark (file kind : string) (wa : watcher) : watcher * bool :=
  if str_eqb kind (default "" (wa_notified wa !! file)) then (wa, false)
  else (mkWatcher (wa_states wa) (<[file := kind]> (wa_notified wa)), true).
Definition unmark (file : string) (wa : watcher) : watcher * unit :=
  (mkWatcher (wa_states wa) (delete file (wa_notified wa)), tt).

(** [notify]; its result is what became of the webhook. *)
Definition notify (s : State) : M (W * watcher) report :=
  let kind := eventKind s (cf_warn_from cfg) in
  (let* changed := in_store (mark (st_file s) kind) in
   if negb changed || empty_str kind || empty_str (cf_url cfg) then mret None
   else
     let* err := in_world (postEvent (mkEvent kind s)) in
     match err with
     | None => mret (Some None)
     | Some e => let* _ := in_store (unmark (st_file s)) in mret (Some (Some e))
     end)%m.

Definition record_state (file : string) (s : State) (wa : watcher) : watcher * unit :=
  (mkWatcher (<[file := s]> (wa_states wa)) (wa_notified wa), tt).

(** [Sweep]: what it observed, and what became of each webhook. *)
Definition visit (acc : list (State * report)) (file : string) : M (W * watcher) (list (State * report)) :=
  (let* s := in_world (check file) in
   let* _ := in_store (record_state file s) in
   let* r := notify s in
   mret (acc ++ [(s, r)]))%m.
Definition Sweep : M (W * watcher) (list (State * report)) :=
  (let* files := in_world (certFiles (cf_dir cfg)) in
   match files with
   | Err _ => mret []
   | Ok files => mfold visit [] files
   end)%m.

(** [Start]: a first sweep, then one for each tick. *)
Definition Start (ticks : nat) : M (W * watcher) (list (State * report)) :=
  mfold (fun acc _ => let* seen := Sweep in mret (acc ++ seen))%m [] (repeat tt (S ticks)).

(** [States]. *)
Definition by_file (a b : State) : Prop := str_le (st_file a) (st_file b).
Global Instance by_file_dec : RelDecision by_file.
Proof. intros a b. unfold by_file. apply _. Defined.
Definition States (wa : watcher) : list State := merge_sort by_file (map snd (map_to_list (wa_states wa))).
End Watch.

(** ** When a webhook is called *)
Section Webhooks.
  Context {W : Type}.
  Variable now : M W time.
  Variable read_dir : string -> M W (res goerr (list (string * bool))).
  Variable read_file : string -> M W (res goerr string).
  Variable pem_block : string -> option (string * string).
  Variable parse_certificate : string -> res goerr wcert.
  Variable validate : ValidateInput -> M W (ValidateOutput * option goerr).
  Variable marshal_event : Event -> res goerr string.
  Variable valid_request : string -> option goerr.
  Variable http_post : string -> string -> M W (res goerr (Z * string)).
  Variable cfg : Config.
Notation kind s := (eventKind s (cf_warn_from cfg)).
Notation notify := (notify marshal_event valid_request http_post cfg).
Notation visit := (visit now read_file pem_block parse_certificate validate marshal_event valid_request
                     http_post cfg).
Notation Sweep := (Sweep now read_dir read_file pem_block parse_certificate validate marshal_event
                     valid_request http_post cfg).
Notation Start := (Start now read_dir read_file pem_block parse_certificate validate marshal_event
                     valid_request http_post cfg).

(** The latest observation of a file, and whether it already raised a kind. *)
Definition latest (f : string) (tr : list (State * report)) : option (State * report) :=
  last (filter (fun o => st_file (fst o) = f) tr).
Definition raised (f k : string) (tr : list (State * report)) : Prop :=
  exists s r, latest f tr = Some (s, r) /\ failed_report r = false /\ kind s = k.
Definition told (f : string) (tr : list (State * report)) : string :=
  match latest f tr with
  | Some (s, r) => if failed_report r then "" else kind s
  | None => ""
  end.

Lemma latest_snoc f tr s r :
  latest f (tr ++ [(s, r)]) = if decide (st_file s = f) then Some (s, r) else latest f tr.
Proof.
  unfold latest. rewrite filter_app, filter_cons, filter_nil. cbn [fst].
  destruct (decide (st_file s = f)); [by rewrite last_snoc|by rewrite app_nil_r].
Qed.

Lemma told_raised f k tr : k <> ""%string -> told f tr = k <-> raised f k tr.
Proof.
  intros Hk. unfold told, raised. destruct (latest f tr) as [[s r]|].
  - destruct (failed_report r) eqn:Ef; split; try naive_solver.
    intros (s0 & r0 & [= <- <-] & E & _). congruence.
  - naive_solver.
Qed.

(** What the notified map holds, and what every observation so far did. *)
Definition due (pre : list (State * report)) (s : State) : Prop :=
  kind s <> ""%string /\ cf_url cfg <> ""%string /\ ~ raised (st_file s) (kind s) pre.
Record told_by (tr : list (State * report)) (wa : watcher) : Prop := {
  tb_map : forall f, default ""%string (wa_notified wa !! f) = told f tr;
  tb_due : forall pre s r post, tr = pre ++ (s, r) :: post -> r <> None <-> due pre s;
}.

Lemma told_by_snoc tr s r wa wa' :
  told_by tr wa ->
  (forall f, default ""%string (wa_notified wa' !! f) =
     if decide (st_file s = f) then (if failed_report r then "" else kind s)
     else default ""%string (wa_notified wa !! f)) ->
  (r <> None <-> due tr s) -> told_by (tr ++ [(s, r)]) wa'.
Proof.
  intros [Hm Hd] Hm' Hr. constructor.
  - intros f. rewrite Hm'. unfold told. rewrite latest_snoc. case_decide; [done|apply Hm].
  - intros pre s0 r0 post E. destruct post as [|o post _] using rev_ind.
    + apply app_inj_tail in E as [-> [= -> ->]]. done.
    + rewrite app_comm_cons, app_assoc in E. apply app_inj_tail in E as [-> _]. by eapply Hd.
Qed.

Lemma notify_told tr s w wa w' wa' r :
  told_by tr wa -> notify s (w, wa) = Done ((w', wa'), r) -> told_by (tr ++ [(s, r)]) wa'.
Proof.
  intros Ht ([w1 wa1] & changed & [-> Hc]%in_store_done & H)%mbind_done.
  pose proof (tb_map _ _ Ht (st_file s)) as Hold. unfold mark in Hc.
  destruct (str_eqb (kind s) (default ""%string (wa_notified wa !! st_file s))) eqn:Ek; injection Hc as <- <-.
  - cbn in H. apply mret_done in H as [[= -> ->] ->]. apply str_eqb_eq in Ek.
    apply (told_by_snoc tr s None wa wa Ht).
    + intros f. case_decide as Hf; [by rewrite <- Hf|done].
    + split; [done|]. intros (Hk & _ & Hr). destruct Hr. apply told_raised; [done|]. by rewrite <- Hold.
  - apply str_eqb_neq in Ek. cbn [negb orb] in H.
    assert (kind s <> ""%string -> ~ raised (st_file s) (kind s) tr) as Hnr.
    { intros Hk Hr%told_raised; [|done]. rewrite Hr in Hold. by rewrite Hold in Ek. }
    destruct (empty_str (kind s) || empty_str (cf_url cfg)) eqn:Eq.
    + apply mret_done in H as [[= -> ->] ->]. eapply told_by_snoc; [exact Ht| |].
      * intros f. cbn. case_decide as Hf; [by rewrite Hf, lookup_insert_eq|by rewrite lookup_insert_ne].
      * split; [done|]. intros (H1 & H2 & _). apply orb_true_iff in Eq as [E|E]; by apply str_eqb_eq in E.
    + apply orb_false_iff in Eq as [E1%str_eqb_neq E2%str_eqb_neq].
      assert (due tr s) as Hdue by (split; [done|split; [done|by apply Hnr]]).
      apply mbind_done in H as ([w2 wa2] & err & [-> _]%in_world_done & H).
      destruct err as [e|]; [apply mbind_done in H as ([w3 wa3] & [] & [-> Hu]%in_store_done & H);
        injection Hu as <-|]; apply mret_done in H as [[= -> ->] ->];
        (eapply told_by_snoc; [exact Ht| |by split]);
        intros f; cbn; case_decide as Hf.
      * by rewrite Hf, lookup_delete_eq.
      * by rewrite lookup_delete_ne, lookup_insert_ne.
      * by rewrite Hf, lookup_insert_eq.
      * by rewrite lookup_insert_ne.
Qed.

Lemma sweep_told base w wa w' wa' tr :
  told_by base wa -> Sweep (w, wa) = Done ((w', wa'), tr) -> told_by (base ++ tr) wa'.
Proof.
  intros Ht ([w1 wa1] & files & [-> _]%in_world_done & H)%mbind_done.
  destruct files as [files|e]; [|apply mret_done in H as [[= -> ->] ->]; by rewrite app_nil_r].
  refine (mfold_state_inv visit (fun acc s => told_by (base ++ acc) (snd s)) files [] _ _ _ _ _ H).
  - by rewrite app_nil_r.
  - intros acc file [w2 wa2] [w3 wa3] acc' _ Hb Hv. cbn in *.
    apply mbind_done in Hv as ([w4 wa4] & s & [-> _]%in_world_done & Hv).
    apply mbind_done in Hv as ([w5 wa5] & [] & [-> Hs]%in_store_done & Hv). injection Hs as <-.
    apply mbind_done in Hv as ([w6 wa6] & r & Hn & Hv). apply mret_done in Hv as [[= -> ->] ->].
    rewrite app_assoc. eapply notify_told; [|exact Hn]. destruct Hb as [Hm Hd]. by constructor.
Qed.

(** A webhook reports every change of a certificate's situation and
    nothing else. Over any number of sweeps of a new watcher, whatever the
    files, the validator and the network did, an observation posts an event
    exactly when it needs attention, a webhook is configured, and the previous
    observation of that file had not already raised the same kind: it was of
    another kind, or its delivery failed, in which case it is tried again. *)
Theorem webhook_on_change ticks w w' wa' tr pre s r post :
  Start ticks (w, new_watcher) = Done ((w', wa'), tr) -> tr = pre ++ (s, r) :: post ->
  r <> None <->
  kind s <> ""%string /\ cf_url cfg <> ""%string /\
  ~ (exists s' r', latest (st_file s) pre = Some (s', r') /\ failed_report r' = false /\ kind s' = kind s).
Proof.
  intros H E. enough (told_by tr wa') as [_ Hd] by by eapply Hd.
  refine (mfold_state_inv _ (fun acc s => told_by acc (snd s)) _ [] _ _ _ _ _ H).
  - constructor; [intros f; cbn; by rewrite lookup_empty|]. intros ? ? ? ? ?. by destruct pre0.
  - intros acc [] [w1 wa1] [w2 wa2] acc' _ Hb Hs. cbn in *.
    apply mbind_done in Hs as ([w3 wa3] & seen & Hs & Hr). apply mret_done in Hr as [[= -> ->] ->].
    by eapply sweep_told.
Qed.
End Webhooks.

(** ** What a check concludes *)
Section Checks.
  Context {W : Type}.
  Variable now : M W time.
  Variable read_file : string -> M W (res goerr string).
  Variable pem_block : string -> option (string * string).
  Variable parse_certificate : string -> res goerr wcert.
  Variable validate : ValidateInput -> M W (ValidateOutput * option goerr).
  Variable cfg : Config.

(** A file's certificate, with what the validator is given. *)
Definition certificate_of (raw : res goerr string) : option (wcert * string * CertEncoding) :=
  match raw with
  | Err _ => None
  | Ok raw =>
      match decodeCert pem_block parse_certificate raw with
      | Some (der, format) =>
          match parse_certificate der with Ok c => Some (c, raw, format) | Err _ => None end
      | None => None
      end
  end.

(** The situation of a certificate at an instant, when nothing else is known. *)
Definition by_time (t : time) (c : wcert) : string :=
  if wc_not_after c <=? t then "expired"
  else if wc_not_after c <=? t + cf_warn_from cfg then "expiring" else "".
Definition by_answer (t : time) (c : wcert) (out : ValidateOutput) (err : option goerr) : string :=
  match err with
  | Some _ => "check_failed"
  | None => if r_revoked (vao_status out) then "revoked"
            else if r_lib_error (vao_status out) then "check_failed" else by_time t c
  end.

(** The saturated difference falls on the same side of any duration. *)
Lemma time_sub_le t u d : in64 d -> time_sub t u <= d <-> t <= u + d \/ d = 2 ^ 63 - 1.
Proof.
  unfold in64, time_sub. intros Hd. cbv zeta.
  destruct (Z.ltb_spec (t - u) (- 2 ^ 63)); [lia|]. destruct (Z.ltb_spec (2 ^ 63 - 1) (t - u)); lia.
Qed.

Lemma err_nonempty p x : p <> ""%string -> empty_str (p ++ x) = false.
Proof. intros Hp. apply str_eqb_neq. by destruct p. Qed.

Lemma kind_failed file t c rev p x :
  p <> ""%string -> eventKind (of_cert file t c rev (p ++ x)) (cf_warn_from cfg) = "check_failed"%string.
Proof. intros Hp. unfold eventKind. cbn [st_error of_cert]. by rewrite err_nonempty. Qed.
Lemma kind_checked file t c rev :
  0 < cf_warn_from cfg < 2 ^ 63 - 1 ->
  eventKind (of_cert file t c rev "") (cf_warn_from cfg) =
    if rev then "revoked"%string else by_time t c.
Proof.
  intros Hw. unfold eventKind, by_time. cbn. destruct rev; [done|].
  destruct (Z.leb_spec (time_sub (wc_not_after c) t) 0) as [H|H];
    destruct (Z.leb_spec (wc_not_after c) t) as [H'|H']; [done|..|].
  - apply time_sub_le in H; [lia|done].
  - exfalso. cut (time_sub (wc_not_after c) t <= 0); [lia|]. apply time_sub_le; [done|lia].
  - destruct (Z.leb_spec (time_sub (wc_not_after c) t) (cf_warn_from cfg)) as [H1|H1];
      destruct (Z.leb_spec (wc_not_after c) (t + cf_warn_from cfg)) as [H2|H2]; [done|..|done].
    + apply time_sub_le in H1; [lia|unfold in64; lia].
    + exfalso. cut (time_sub (wc_not_after c) t <= cf_warn_from cfg); [lia|].
      apply time_sub_le; [unfold in64; lia|lia].
Qed.

(** The kind of event a checked file raises is the situation of its
    certificate: a file that cannot be read as one, and a revocation check that
    failed or left the matter open, raise check_failed; a revoked certificate
    raises revoked; otherwise the instants decide, at any distance between
    them - the duration kept in the state saturates, the classification does
    not. *)
Theorem watch_classifies file w w' s :
  0 < cf_warn_from cfg < 2 ^ 63 - 1 ->
  (forall w0 w1 e, read_file file w0 = Done (w1, Err e) -> err_text e <> ""%string) ->
  check now read_file pem_block parse_certificate validate cfg file w = Done (w', s) ->
  exists t w1 w2 raw, now w = Done (w1, t) /\ read_file file w1 = Done (w2, raw) /\
    match certificate_of raw with
    | None => eventKind s (cf_warn_from cfg) = "check_failed"%string
    | Some (c, raw, format) =>
        if cf_check cfg then
          exists out err, validate (watch_input raw format) w2 = Done (w', (out, err)) /\
            eventKind s (cf_warn_from cfg) = by_answer t c out err
        else eventKind s (cf_warn_from cfg) = by_time t c
    end.
Proof.
  intros Hw Hread (w1 & t & Ht & (w2 & raw & Hr & H)%mbind_done)%mbind_done.
  exists t, w1, w2, raw. split; [done|]. split; [done|]. destruct raw as [raw|e]; cbn [certificate_of].
  2:{ apply mret_done in H as [-> ->]. apply Hread in Hr.
      unfold eventKind, blank, empty_str. cbn [st_error]. by rewrite (proj2 (str_eqb_neq _ _) Hr). }
  destruct (decodeCert _ _ raw) as [[der format]|]; [|by apply mret_done in H as [-> ->]].
  destruct (parse_certificate der) as [c|e]; [|apply mret_done in H as [-> ->]; unfold eventKind, blank;
    cbn [st_error]; by rewrite err_nonempty].
  destruct (cf_check cfg); cbn [negb] in H; [|apply mret_done in H as [-> ->]; by apply kind_checked].
  apply mbind_done in H as (w3 & [out err] & Hv & H). apply mret_done in H as [-> ->].
  exists out, err. split; [done|]. unfold by_answer. destruct err as [e|]; [by apply kind_failed|].
  destruct (r_lib_error (vao_status out)), (r_revoked (vao_status out));
    first [by apply kind_failed|by rewrite kind_checked].
Qed.
End Checks.

(** ** Keys *)
Lemma filter_plain (P : string * bool -> Prop) `{forall x, Decision (P x)} dir l : dir <> ""%string ->
  NoDup (map fst l) -> Forall (fun e => plain_name (fst e)) l ->
  NoDup (map path_base (map (fun e => path_join dir (fst e)) (filter P l))).
Proof.
  intros Hd. rewrite map_map. induction l as [|e l IH]; intros Hn Hp; [constructor|].
  cbn in Hn. apply NoDup_cons in Hn as [Hnin Hn]. apply Forall_cons in Hp as [He Hp].
  rewrite filter_cons. destruct (decide (P e)); [|by apply IH]. cbn. rewrite path_base_join by done.
  constructor; [|by apply IH]. intros Hin. apply Hnin.
  apply list_elem_of_In, in_map_iff in Hin as (e' & E & Hin).
  apply list_elem_of_In, list_elem_of_filter in Hin as [_ Hin].
  rewrite path_base_join in E; [|done|by eapply Forall_forall in Hp]. rewrite <- E.
  apply list_elem_of_In, in_map, list_elem_of_In, Hin.
Qed.

(** States are keyed by path and marks by base name: in one directory, whose
    entries have distinct plain names, both tell the same files apart. *)
Lemma certFiles_bases {W} (read_dir : string -> M W (res goerr (list (string * bool)))) dir w w1 w' l files :
  read_dir dir w = Done (w1, Ok l) -> dir <> ""%string ->
  NoDup (map fst l) -> Forall (fun e => plain_name (fst e)) l ->
  certFiles read_dir dir w = Done (w', Ok files) -> NoDup (map path_base files).
Proof.
  intros Hl Hd Hn Hp H. unfold certFiles in H.
  destruct (empty_str (trim_space dir)); [apply mret_done in H as [_ [= ->]]; constructor|].
  apply mbind_done in H as (w2 & r & Hr & H). rewrite Hl in Hr. injection Hr as <- <-.
  apply mret_done in H as [_ [= ->]]. unfold sort_strings.
  rewrite (Permutation_map path_base (merge_sort_Permutation str_le _)). by apply filter_plain.
Qed.

(** ** Concrete watchers *)
Definition lab_cert : wcert := mkWcert "CN" "CN=CN" 255 150.
Definition lab_config : Config := New_config (mkConfig "/w" 0 1000 "https://hook" true).
Definition lab_parse (d : string) : res goerr wcert := if str_eqb d "C" then Ok lab_cert else Err (New "bad").
Definition lab_answer (revoked : bool) (le : option LibError) (err : option goerr)
    : ValidateOutput * option goerr :=
  (mkValidateOutput (mkRevocation revoked (negb (bool_decide (is_Some le))) MethodOCSP None "" None None
     None None le) "" "" [] None, err).
(** A world that counts the posts; the first one is refused. *)
Definition lab_start (ticks : nat) :=
  Start (W := Z) (mret 100) (fun _ => mret (Ok [("a.pem", false); ("sub", true); ("notes.txt", false)]))%string
    (fun _ => mret (Ok "C"%string)) (fun _ => None) lab_parse (fun _ => mret (lab_answer false None None))
    (fun _ => Ok "{}"%string) (fun _ => None)
    (fun _ _ w => Done (w + 1, Ok (if w =? 0 then 503 else 204, "status"%string))) lab_config ticks
    (0, new_watcher).
Definition lab_state : State := of_cert "a.pem" 100 lab_cert false "".
Definition lab_refused : State * report := (lab_state, Some (Some (New "webhook returned status"))).

(** The refused post is tried again, the delivered one is not. *)
Lemma webhook_on_change_witness :
  lab_start 2 = Done ((2, mkWatcher {["/w/a.pem"%string := lab_state]} {["a.pem"%string := "expiring"%string]}),
                      [lab_refused; (lab_state, Some None); (lab_state, None)]) /\
  (Some None <> @None (option goerr) <->
   eventKind lab_state 1000 <> ""%string /\ "https://hook"%string <> ""%string /\
   ~ (exists s' r', latest "a.pem" [lab_refused] = Some (s', r') /\ failed_report r' = false /\
        eventKind s' 1000 = eventKind lab_state 1000)).
Proof.
  assert (lab_start 2 = Done ((2, mkWatcher {["/w/a.pem"%string := lab_state]}
    {["a.pem"%string := "expiring"%string]}), [lab_refused; (lab_state, Some None); (lab_state, None)])) as E
    by (vm_compute; reflexivity).
  split; [exact E|].
  exact (webhook_on_change _ _ _ _ _ _ _ _ _ lab_config 2 0 _ _ _ [lab_refused] lab_state (Some None)
           [(lab_state, None)] E eq_refl).
Defined.

Definition lab_check (t : time) (r : ValidateOutput * option goerr) : outcome (unit * State) :=
  check (mret t) (fun _ => mret (Ok "C"%string)) (fun _ => None) lab_parse (fun _ => mret r) lab_config
    "/w/a.pem" tt.

Lemma watch_classifies_witness :
  lab_check 100 (lab_answer false None None) = Done (tt, lab_state) /\
  exists t w1 w2 raw, mret 100 tt = Done (w1, t) /\ mret (Ok "C"%string) w1 = Done (w2, raw) /\
    match certificate_of (fun _ => None) lab_parse raw with
    | None => eventKind lab_state (cf_warn_from lab_config) = "check_failed"%string
    | Some (c, raw, format) =>
        if cf_check lab_config then
          exists out err, mret (lab_answer false None None) w2 = Done (tt, (out, err)) /\
            eventKind lab_state (cf_warn_from lab_config) = by_answer lab_config t c out err
        else eventKind lab_state (cf_warn_from lab_config) = by_time lab_config t c
    end.
Proof.
  split; [reflexivity|].
  apply (watch_classifies (mret 100) (fun _ => mret (Ok "C"%string)) (fun _ => None) lab_parse
           (fun _ => mret (lab_answer false None None)) lab_config "/w/a.pem" tt tt lab_state).
  - split; reflexivity.
  - intros w0 w1 e. discriminate.
  - reflexivity.
Defined.

(** An expired certificate whose responder cannot be reached is never
    reported as expired. *)
Example expiry_hidden_by_failed_check :
  match lab_check 200 (lab_answer false None (Some (New "unreachable"))) with
  | Done (_, s) => st_expires_in s <= 0 /\ eventKind s (cf_warn_from lab_config) = "check_failed"%string
  | Panic => False
  end.
Proof. vm_compute. split; [discriminate|reflexivity]. Qed.

(** A certificate whose file is gone keeps its last state. *)
Example removed_file_stays :
  match Start (W := bool) (mret 100) (fun _ w => Done (false, Ok (if w then [("a.pem"%string, false)] else [])))
          (fun _ => mret (Ok "C"%string)) (fun _ => None) lab_parse (fun _ => mret (lab_answer false None None))
          (fun _ => Ok "{}"%string) (fun _ => None) (fun _ _ => mret (Ok (200, ""%string))) lab_config 1
          (true, new_watcher) with
  | Done ((_, wa), _) => States wa = [lab_state]
  | Panic => False
  end.
Proof. vm_compute. reflexivity. Qed.

(** Over the domain service: a certificate that names no responder is not
    checked at all, and the watcher takes it for one that is not revoked. *)
Definition lab_service_cert : x509cert :=
  mkX509 "N" "S" "I" toy_name toy_name 7 0 100 false 0 "" "" [] [] [] [].
Definition lab_libs : libs :=
  mkLibs (fun d => if str_eqb d "N" then Some lab_service_cert else None) (fun _ => None)
    (fun _ s => s) (fun _ => None) (fun _ => None) (fun _ _ => None) (fun _ => None) (fun _ => None)
    (fun s => s).
Definition lab_validate : ValidateInput -> M unit (ValidateOutput * option goerr) :=
  Validate lab_libs (toy_service None) LocaleEN.
Example undetermined_reported_healthy :
  match check (mret 100) (fun _ => mret (Ok "N"%string)) (fun _ => None)
          (fun _ => Ok (mkWcert "CN" "" 1 (10 ^ 16))) lab_validate lab_config "/w/n.der" tt,
        lab_validate (watch_input "N" EncodingDER) tt with
  | Done (_, s), Done (_, (out, err)) =>
      err = None /\ r_determinate (vao_status out) = false /\
      eventKind s (cf_warn_from lab_config) = ""%string
  | _, _ => False
  end.
Proof. vm_compute. split_and!; reflexivity. Qed.
End CertWatch.
