(* ===== verification/Jws.v ===== *)
(** * The service key (internal/oidc/signer.go)

    Compact RS256 tokens over JSON claims, the key set published for them, the
    key file, and the userinfo endpoint that reads them. SHA-256, RSA, the JSON
    encoder and the key formats are parameters. *)
From S2P Require Import Prelude Errors Provider CoreTypes CertParse Native Asn1 Text Oidc.
Open Scope Z_scope.

Module Jws.

Definition ErrTokenInvalid := Oidc.Oidc.ErrTokenInvalid.
Definition ErrTokenExpired := Oidc.Oidc.ErrTokenExpired.

(** ** JSON values
    What [encoding/json] decodes into [any]; [F] are the 64-bit floats. *)
Inductive json (F : Type) : Type :=
| JNull
| JBool (b : bool)
| JNum (f : F)
| JText (s : string)
| JArr (l : list (json F))
| JObj (l : list (string * json F)).
Arguments JNull {F}. Arguments JBool {F} b. Arguments JNum {F} f. Arguments JText {F} s.
Arguments JArr {F} l. Arguments JObj {F} l.

Definition pair_dec {B} (db : forall u v : B, {u = v} + {u <> v}) (p q : string * B) : {p = q} + {p <> q}.
Proof.
  destruct p as [a u], q as [b v]. destruct (String.string_dec a b); [|right; congruence].
  destruct (db u v); [left|right]; congruence.
Defined.
#[global] Instance json_eq_dec {F} `{EqDecision F} : EqDecision (json F).
Proof.
  refine (fix go x y : Decision (x = y) :=
    match x, y with
    | JNull, JNull => left eq_refl
    | JBool a, JBool b => match decide (a = b) with left E => left _ | right N => right _ end
    | JNum a, JNum b => match decide (a = b) with left E => left _ | right N => right _ end
    | JText a, JText b => match decide (a = b) with left E => left _ | right N => right _ end
    | JArr a, JArr b => match List.list_eq_dec go a b with left E => left _ | right N => right _ end
    | JObj a, JObj b =>
        match List.list_eq_dec (pair_dec go) a b with left E => left _ | right N => right _ end
    | _, _ => right _
    end); clear go; congruence.
Defined.

(** Fields given to the encoder: integers, texts, and decoded values. *)
Inductive gval (F : Type) : Type := GInt (z : Z) | GText (s : string) | GVal (j : json F).
Arguments GInt {F} z. Arguments GText {F} s. Arguments GVal {F} j.
#[global] Instance gval_eq_dec {F} `{EqDecision F} : EqDecision (gval F).
Proof. solve_decision. Defined.

(** The fields of a claim set of the provider. *)
Definition of_jval {F} (v : Oidc.Oidc.jval) : gval F :=
  match v with
  | Oidc.Oidc.JStr s => GText s
  | Oidc.Oidc.JInt n => GInt n
  | Oidc.Oidc.JList l => GVal (JArr (map JText l))
  end.

(** What comes back of a field: numbers as floats, invalid UTF-8 replaced. *)
Fixpoint clean {F} (j : json F) : json F :=
  match j with
  | JText s => JText (utf8_clean s)
  | JArr l => JArr (map clean l)
  | JObj l => JObj (map (fun p => (utf8_clean (fst p), clean (snd p))) l)
  | _ => j
  end.

(** The codec of claim objects and its two conversions of numbers. *)
Record codec (F : Type) := mkCodec {
  cd_marshal : gmap string (gval F) -> res goerr string;
  cd_unmarshal : string -> option (gmap string (json F));
  cd_of_int : Z -> F;
  cd_to_int : F -> Z;
}.
Arguments cd_marshal {F}. Arguments cd_unmarshal {F}. Arguments cd_of_int {F}. Arguments cd_to_int {F}.
Arguments mkCodec {F}.

Definition decoded {F} (c : codec F) (v : gval F) : json F :=
  match v with
  | GInt z => JNum (cd_of_int c z)
  | GText s => JText (utf8_clean s)
  | GVal j => clean j
  end.

(** What is relied on: a decoder reads what the encoder wrote, and an integer
    of at most 53 bits is a float exactly. *)
Record codec_laws {F} (c : codec F) : Prop := {
  cl_roundtrip : forall m s, cd_marshal c m = Ok s -> cd_unmarshal c s = Some (decoded c <$> m);
  cl_exact : forall z, Z.abs z <= 2 ^ 53 -> cd_to_int c (cd_of_int c z) = z;
}.

(** Seconds of [time.Unix] on the scale of instants. *)
Definition unix_time (n : Z) : time := (n + 62135596800) * second.

Section Signer.
  Context {W F : Type}.
  Variable c : codec F.
  Variable sha256 : string -> string.
  Variable rsa_sign : string -> M W (res goerr string).
  Variable rsa_verify : string -> string -> bool.
  Variable kid : string.

(** The header; [json.Marshal] writes the keys of a map in order. *)
Definition field (k v : string) : string := dq ++ k ++ dq ++ ":" ++ dq ++ v ++ dq.
Definition header : string :=
  "{" ++ concat_with "," [field "alg" "RS256"; field "kid" kid; field "typ" "JWT"] ++ "}".

(** [Signer.Sign]. *)
Definition Sign (claims : gmap string (gval F)) : M W (res goerr string) :=
  match cd_marshal c claims with
  | Err e => mret (Err e)
  | Ok payload =>
      let input := (b64url_encode header ++ "." ++ b64url_encode payload)%string in
      (let* sig := rsa_sign (sha256 input) in
       mret match sig with
            | Err e => Err e
            | Ok sig => Ok (input ++ "." ++ b64url_encode sig)%string
            end)%m
  end.

(** [Signer.Verify]. *)
Definition Verify (token : string) (t : time) : res goerr (gmap string (json F)) :=
  match split "." token with
  | [h; p; g] =>
      match b64url_decode g with
      | None => Err ErrTokenInvalid
      | Some sig =>
          if negb (rsa_verify (sha256 (h ++ "." ++ p)%string) sig) then Err ErrTokenInvalid
          else match b64url_decode p with
               | None => Err ErrTokenInvalid
               | Some payload =>
                   match cd_unmarshal c payload with
                   | None => Err ErrTokenInvalid
                   | Some claims =>
                       match claims !! "exp"%string with
                       | Some (JNum f) => if after t (unix_time (cd_to_int c f)) then Err ErrTokenExpired
                                          else Ok claims
                       | _ => Ok claims
                       end
                   end
               end
      end
  | _ => Err ErrTokenInvalid
  end.

(** [Provider.UserInfo]. *)
Definition UserInfo (bearer : string) (t : time) : res goerr (gmap string (json F)) :=
  Verify (trim_space bearer) t.

(** ** Laws of the key: what it signed, it verifies. *)
Definition key_sound : Prop := forall d w w' sig, rsa_sign d w = Done (w', Ok sig) -> rsa_verify d sig = true.

(** A token the signer made, seen apart. *)
Lemma sign_token claims w w' token :
  Sign claims w = Done (w', Ok token) ->
  exists payload sig, cd_marshal c claims = Ok payload /\
    let input := (b64url_encode header ++ "." ++ b64url_encode payload)%string in
    rsa_sign (sha256 input) w = Done (w', Ok sig) /\ token = (input ++ "." ++ b64url_encode sig)%string.
Proof.
  unfold Sign. destruct (cd_marshal c claims) as [payload|e]; [|intros [_ H]%mret_done; done].
  intros (w1 & [sig|e] & Hs & [-> H]%mret_done)%mbind_done; [|done]. apply ok_inj in H.
  by exists payload, sig.
Qed.

Lemma token_parts h p g :
  no_char "." h = true -> no_char "." p = true -> no_char "." g = true ->
  split "." ((h ++ "." ++ p) ++ "." ++ g) = [h; p; g].
Proof.
  intros Hh Hp Hg. rewrite app_assoc_s. change ("." ++ g)%string with (String "." g).
  rewrite app_assoc_s.
  change (h ++ "." ++ p ++ String "." g)%string with (h ++ String "." (p ++ String "." g))%string.
  by rewrite split_app, split_app, !split_no_char.
Qed.

Lemma verify_signed claims w w' token t :
  codec_laws c -> key_sound -> Sign claims w = Done (w', Ok token) ->
  Verify token t =
    match (decoded c <$> claims) !! "exp"%string with
    | Some (JNum f) => if after t (unix_time (cd_to_int c f)) then Err ErrTokenExpired
                       else Ok (decoded c <$> claims)
    | _ => Ok (decoded c <$> claims)
    end.
Proof.
  intros Hc Hk (payload & sig & Hm & Hs & ->)%sign_token. cbn zeta in Hs. unfold Verify.
  rewrite token_parts by apply b64url_no_dot. rewrite !b64url_roundtrip.
  rewrite (Hk _ _ _ _ Hs). cbn [negb]. by rewrite (cl_roundtrip _ Hc _ _ Hm).
Qed.

(** A token is one word: trimming changes nothing. *)
Lemma sign_trimmed claims w w' token : Sign claims w = Done (w', Ok token) -> trim_space token = token.
Proof.
  intros (payload & sig & _ & _ & ->)%sign_token. apply trim_no_space.
  by rewrite !all_chars_app, !b64url_no_space.
Qed.
(** Blanks around text without spaces are trimmed off. *)
Definition blank (s : string) : Prop := all_chars is_space s = true.
Lemma trim_left_blank s x : blank s -> trim_left (s ++ x) = trim_left x.
Proof.
  unfold blank. induction s as [|d s IH]; [done|]. change (String d s ++ x)%string with (String d (s ++ x)). cbn.
  destruct (is_space d); [apply IH|done].
Qed.
Lemma trim_right_blank s : blank s -> trim_right s = ""%string.
Proof. unfold blank. induction s as [|d s IH]; [done|]. cbn. intros [Hd Hs]%andb_true_iff. by rewrite IH, Hd. Qed.
Lemma trim_right_solid s x : all_chars (fun c => negb (is_space c)) s = true -> blank x -> trim_right (s ++ x) = s.
Proof.
  intros Hs Hx. induction s as [|d s IH]; [by apply trim_right_blank|].
  change (String d s ++ x)%string with (String d (s ++ x)). cbn in *. apply andb_true_iff in Hs as [Hd%negb_true_iff Hs].
  rewrite IH by done. destruct s; [by rewrite Hd|done].
Qed.
Lemma trim_around a s b : blank a -> blank b -> all_chars (fun c => negb (is_space c)) s = true ->
  trim_space (a ++ s ++ b) = s.
Proof.
  intros Ha Hb Hs. unfold trim_space. rewrite trim_left_blank by done. destruct s as [|d s].
  - change (EmptyString ++ b)%string with b. by rewrite <- (app_nil_s b), trim_left_blank by done.
  - cbn in Hs. apply andb_true_iff in Hs as [Hd%negb_true_iff Hs].
    change (String d s ++ b)%string with (String d (s ++ b)). cbn [trim_left]. rewrite Hd.
    change (String d (s ++ b))%string with (String d s ++ b)%string. apply trim_right_solid; [|done].
    cbn. by rewrite Hd.
Qed.
Lemma sign_trimmed_in claims w w' token a b :
  Sign claims w = Done (w', Ok token) -> blank a -> blank b -> trim_space (a ++ token ++ b) = token.
Proof.
  intros (payload & sig & _ & _ & ->)%sign_token Ha Hb. apply trim_around; [done..|].
  by rewrite !all_chars_app, !b64url_no_space.
Qed.
Lemma sign_nonempty claims w w' token : Sign claims w = Done (w', Ok token) -> token <> ""%string.
Proof.
  intros (payload & sig & _ & _ & ->)%sign_token E.
  apply (f_equal (fun s => length (split "." s))) in E. by rewrite token_parts in E by apply b64url_no_dot.
Qed.

(** Whatever passes was signed by the key over exactly the segments read. *)
Lemma verify_sound token t claims :
  Verify token t = Ok claims ->
  exists h p g sig payload, split "." token = [h; p; g] /\ b64url_decode g = Some sig /\
    rsa_verify (sha256 (h ++ "." ++ p)%string) sig = true /\
    b64url_decode p = Some payload /\ cd_unmarshal c payload = Some claims /\
    forall f, claims !! "exp"%string = Some (JNum f) -> t <= unix_time (cd_to_int c f).
Proof.
  unfold Verify. destruct (split "." token) as [|h [|p [|g [|]]]] eqn:E; try done.
  destruct (b64url_decode g) as [sig|] eqn:Eg; [|done].
  destruct (rsa_verify _ sig) eqn:Ev; [|done]. cbn [negb].
  destruct (b64url_decode p) as [payload|] eqn:Ep; [|done].
  destruct (cd_unmarshal c payload) as [m|] eqn:Em; [|done]. intros H.
  exists h, p, g, sig, payload. split_and!; try done.
  - f_equal. destruct (m !! "exp"%string) as [[]|]; try (case_match; [done|]); by injection H as ->.
  - intros f Hf. assert (m = claims) as -> by
      (destruct (m !! "exp"%string) as [[]|]; try (case_match; [done|]); by injection H as ->).
    rewrite Hf in H. unfold after in H. destruct (Z.ltb_spec (unix_time (cd_to_int c f)) t); [done|lia].
Qed.
End Signer.

(** ** The key file *)
Section KeyFile.
  Context {W K : Type}.
  Variable generate : M W (res goerr K).
  (** The file at a path: its content, nothing there, or another error. *)
  Variable read_key : string -> M W (res goerr (option string)).
  Variable write_key : string -> string -> M W (option goerr).
  Variable marshal_pkcs8 : K -> res goerr string.
  Variable pem_encode : string -> string -> string.
  Variable pem_decode : string -> option string.
  Variable parse_pkcs1 : string -> option K.
  (** A PKCS#8 key, RSA or of another kind. *)
  Variable parse_pkcs8 : string -> res goerr (option K).
  Variable marshal_pkix : K -> res goerr string.
  Variable sha256 : string -> string.

Record signer := mkSigner { sg_key : K; sg_kid : string; sg_ephemeral : bool }.

(** [thumbprint] and [newSigner]. *)
Definition thumbprint (k : K) : res goerr string :=
  match marshal_pkix k with Err e => Err e | Ok der => Ok (b64url_encode (sha256 der)) end.
Definition newSigner (k : K) (ephemeral : bool) : res goerr signer :=
  (let? kid := thumbprint k in Ok (mkSigner k kid ephemeral))%res.

(** [parsePrivateKey]. *)
Definition parsePrivateKey (data : string) : res goerr K :=
  match pem_decode data with
  | None => Err (New "no PEM block")
  | Some b =>
      match parse_pkcs1 b with
      | Some k => Ok k
      | None => match parse_pkcs8 b with
                | Err e => Err e
                | Ok (Some k) => Ok k
                | Ok None => Err (New "not an RSA key")
                end
      end
  end.

(** [LoadOrGenerate]. *)
Definition LoadOrGenerate (path : string) : M W (res goerr signer) :=
  if empty_str (trim_space path) then
    (let* k := generate in mret match k with Err e => Err e | Ok k => newSigner k true end)%m
  else
    (let* data := read_key path in
     match data with
     | Err e => mret (Err (Wrap ("oidc: read key " ++ path ++ ": ") e))
     | Ok (Some data) =>
         mret match parsePrivateKey data with
              | Err e => Err (Wrap ("oidc: parse key " ++ path ++ ": ") e)
              | Ok k => newSigner k false
              end
     | Ok None =>
         let* k := generate in
         match k with
         | Err e => mret (Err e)
         | Ok k =>
             match marshal_pkcs8 k with
             | Err e => mret (Err e)
             | Ok der =>
                 let* err := write_key path (pem_encode "PRIVATE KEY" der) in
                 mret match err with
                      | Some e => Err (Wrap ("oidc: write key " ++ path ++ ": ") e)
                      | None => newSigner k false
                      end
             end
         end
     end)%m.

(** What is relied on: the key parses back from its file, the file holds what
    was written, and reading leaves it there. *)
Record file_laws (path : string) : Prop := {
  fl_pkcs8 : forall k der, marshal_pkcs8 k = Ok der -> parsePrivateKey (pem_encode "PRIVATE KEY" der) = Ok k;
  fl_write : forall blob w w1, write_key path blob w = Done (w1, None) ->
    exists w2, read_key path w1 = Done (w2, Ok (Some blob));
  fl_read : forall data w w1, read_key path w = Done (w1, Ok (Some data)) ->
    exists w2, read_key path w1 = Done (w2, Ok (Some data));
}.

(** A restart keeps the key: the signer a start loaded, or generated and wrote
    to its path, is the one the next start loads, key id included. *)
Theorem key_survives_restart path w w1 s :
  file_laws path -> trim_space path <> ""%string ->
  LoadOrGenerate path w = Done (w1, Ok s) ->
  sg_ephemeral s = false /\ exists w2, LoadOrGenerate path w1 = Done (w2, Ok s).
Proof.
  intros L Hp H. unfold LoadOrGenerate in *. rewrite (proj2 (str_eqb_neq _ _) Hp : empty_str _ = false) in *.
  assert (forall k, newSigner k false = Ok s -> sg_ephemeral s = false) as He.
  { unfold newSigner. intros k. destruct (thumbprint k); [|done]. by intros [= <-]. }
  apply mbind_done in H as (w2 & data & Hr & H). destruct data as [[data|]|e].
  - apply mret_done in H as [-> H]. destruct (parsePrivateKey data) as [k|] eqn:Ek; [|done].
    split; [by eapply He|]. destruct (fl_read _ L _ _ _ Hr) as [w3 H3]. exists w3.
    apply mbind_done. exists w3, (Ok (Some data)). split; [done|]. by rewrite Ek, H.
  - apply mbind_done in H as (w3 & [k|e] & Hg & H); [|by apply mret_done in H as [_ H]].
    destruct (marshal_pkcs8 k) as [der|e] eqn:Ed; [|by apply mret_done in H as [_ H]].
    apply mbind_done in H as (w4 & [e|] & Hw & H); apply mret_done in H as [-> H]; [done|].
    split; [by eapply He|]. destruct (fl_write _ L _ _ _ Hw) as [w5 H5]. exists w5.
    apply mbind_done. exists w5, (Ok (Some (pem_encode "PRIVATE KEY" der))). split; [done|].
    by rewrite (fl_pkcs8 _ L _ _ Ed), H.
  - by apply mret_done in H as [_ H].
Qed.
End KeyFile.

(** ** A key in memory: the file is the world. *)
Definition lab_write (path data : string) : M (option string) (option goerr) := fun _ => Done (Some data, None).
Definition lab_read (path : string) : M (option string) (res goerr (option string)) := fun w => Done (w, Ok w).
Definition lab_load (path : string) : M (option string) (res goerr (@signer string)) :=
  LoadOrGenerate (mret (Ok "K"%string)) lab_read lab_write (fun k => Ok k) (fun _ b => b) Some (fun _ => None)
    (fun b => Ok (Some b)) (fun k => Ok k) id path.
Lemma lab_file_laws path :
  file_laws lab_read lab_write (fun k => Ok k) (fun _ b => b) Some (fun _ => None) (fun b => Ok (Some b)) path.
Proof.
  constructor.
  - by intros k der [= ->].
  - intros blob w w1 [= <-]. by exists (Some blob).
  - intros data w w1 [= <- ->]. by eexists.
Qed.
Lemma key_survives_restart_witness :
  lab_load "key.pem" None = Done (Some "K"%string, Ok (mkSigner "K"%string "Sw"%string false)) /\
  exists w2, lab_load "key.pem" (Some "K"%string) = Done (w2, Ok (mkSigner "K"%string "Sw"%string false)).
Proof.
  assert (lab_load "key.pem" None = Done (Some "K"%string, Ok (mkSigner "K"%string "Sw"%string false))) as E
    by reflexivity.
  split; [exact E|].
  refine (proj2 (key_survives_restart _ _ _ _ _ _ _ _ _ _ "key.pem" None _ _ (lab_file_laws _) _ E)).
  vm_compute. discriminate.
Defined.
End Jws.
