(* ===== verification/SignedQr.v ===== *)
(** * Signed documents in a QR code (internal/signedqr/signedqr.go)

    A small claim set under the service key, sized for a code, and its offline
    check, over the tokens of Jws. The QR renderer and base64 of the image are
    parameters. *)
From S2P Require Import Prelude Errors Provider CoreTypes CertParse Native Asn1 Text Oidc Jws.
Open Scope Z_scope.

Module SignedQr.
Import Jws.Jws.

Definition maxPayloadBytes : Z := 1200.
Definition qrPNGSize : Z := 512.
Definition defaultTTL : duration := 365 * (24 * hour).
Definition docType : string := "qoltanba.signed-document.v1".

Record Claims (F : Type) := mkClaims {
  cm_type : string; cm_issuer : string; cm_subject : string; cm_issued : Z; cm_expires : Z;
  cm_data : list (string * json F);
}.
Arguments cm_type {F}. Arguments cm_issuer {F}. Arguments cm_subject {F}. Arguments cm_issued {F}.
Arguments cm_expires {F}. Arguments cm_data {F}. Arguments mkClaims {F}.

(** The object the tags of [Claims] make; empty optional fields are left out. *)
Definition opt_field {F} (k : string) (absent : bool) (v : gval F) (m : gmap string (gval F)) :=
  if absent then m else <[k := v]> m.
Definition claims_object {F} (q : Claims F) : gmap string (gval F) :=
  <["typ"%string := GText (cm_type q)]>
  (opt_field "iss" (empty_str (cm_issuer q)) (GText (cm_issuer q))
  (opt_field "sub" (empty_str (cm_subject q)) (GText (cm_subject q))
  (<["iat"%string := GInt (cm_issued q)]>
  (opt_field "exp" (cm_expires q =? 0) (GInt (cm_expires q))
  (opt_field "data" (match cm_data q with [] => true | _ => false end) (GVal (JObj (cm_data q))) ∅))))).

Record IssueRequest (F : Type) := mkIssue {
  iq_subject : string; iq_data : list (string * json F); iq_ttl : Z; iq_png : Z;
}.
Arguments iq_subject {F}. Arguments iq_data {F}. Arguments iq_ttl {F}. Arguments iq_png {F}.
Arguments mkIssue {F}.
Record IssueResponse := mkIssued {
  ir_payload : string; ir_qr : string; ir_bytes : Z; ir_issued : time; ir_expires : time;
}.
Record VerifyResult (F : Type) := mkResult {
  vr_valid : bool; vr_reason : string; vr_issuer : string; vr_subject : string;
  vr_issued : option time; vr_expires : option time; vr_data : list (string * json F);
}.
Arguments vr_valid {F}. Arguments vr_reason {F}. Arguments vr_issuer {F}. Arguments vr_subject {F}.
Arguments vr_issued {F}. Arguments vr_expires {F}. Arguments vr_data {F}. Arguments mkResult {F}.
Definition refused {F} (reason : string) : VerifyResult F := mkResult false reason "" "" None None [].

(** A text or an object of the decoded claims, empty when it is anything else. *)
Definition text_of {F} (v : option (json F)) : string := match v with Some (JText s) => s | _ => "" end.
Definition object_of {F} (v : option (json F)) : list (string * json F) :=
  match v with Some (JObj l) => l | _ => [] end.

Section Service.
  Context {W F : Type}.
  Variable c : codec F.
  (** The signer and the verifier, [None] when no service key is configured. *)
  Variable signer : option (gmap string (gval F) -> M W (res goerr string)).
  Variable verifier : option (string -> time -> res goerr (gmap string (json F))).
  Variable issuer : string.
  Variable now : W -> time.
  (** [qrcode.Encode] at medium correction, and base64 of the image. *)
  Variable qr_encode : string -> Z -> res goerr string.
  Variable b64 : string -> string.

(** [numericTime] on what a decoder leaves. *)
Definition numericTime (v : option (json F)) : option time :=
  match v with Some (JNum f) => Some (unix_time (cd_to_int c f)) | _ => None end.

(** The claims of [Issue] at an instant. *)
Definition issue_ttl (q : IssueRequest F) : duration := if 0 <? iq_ttl q then seconds (iq_ttl q) else defaultTTL.
Definition issue_claims (q : IssueRequest F) (t : time) : Claims F :=
  mkClaims docType issuer (iq_subject q) (unix t) (unix (t + issue_ttl q)) (iq_data q).

(** [Issue]. *)
Definition Issue (q : IssueRequest F) : M W (res goerr IssueResponse) :=
  match signer with
  | None => mret (Err (New "signedqr: no service signing key configured"))
  | Some sign =>
      (let* t := mget now in
       let* token := sign (claims_object (issue_claims q t)) in
       mret match token with
            | Err e => Err (Wrap "signedqr: sign: " e)
            | Ok token =>
                let n := Z.of_nat (String.length token) in
                if maxPayloadBytes <? n then
                  Err (New ("signedqr: payload is " ++ dec_of_Z n ++ " bytes, over the " ++ dec_of_Z maxPayloadBytes
                    ++ "-byte limit for a reliably scannable code - carry fewer fields, or reference them by id"))
                else
                  let size := if iq_png q <=? 0 then qrPNGSize else iq_png q in
                  match qr_encode token size with
                  | Err e => Err (Wrap "signedqr: render: " e)
                  | Ok png => Ok (mkIssued token (b64 png) n t (t + issue_ttl q))
                  end
            end)%m
  end.

(** [Verify]. *)
Definition Verify (payload : string) (t : time) : VerifyResult F :=
  let payload := trim_space payload in
  if empty_str payload then refused "empty payload"
  else match verifier with
  | None => refused "no service key configured to verify against"
  | Some verify =>
      match verify payload t with
      | Err e => refused (err_text e)
      | Ok m =>
          if negb (str_eqb (text_of (m !! "typ"%string)) docType) then
            refused "payload is not a signed document"
          else mkResult true "" (text_of (m !! "iss"%string)) (text_of (m !! "sub"%string))
                 (numericTime (m !! "iat"%string)) (numericTime (m !! "exp"%string))
                 (object_of (m !! "data"%string))
      end
  end.
End Service.

(** ** Proofs, over the service key of Jws *)
Section Proofs.
  Context {W F : Type}.
  Variable c : codec F.
  Variable sha256 : string -> string.
  Variable rsa_sign : string -> M W (res goerr string).
  Variable rsa_verify : string -> string -> bool.
  Variable kid : string.
  Variable issuer : string.
  Variable now : W -> time.
  Variable qr_encode : string -> Z -> res goerr string.
  Variable b64 : string -> string.
Notation sign := (Jws.Sign c sha256 rsa_sign kid).
Notation check := (Jws.Verify c sha256 rsa_verify).
Notation Issue := (Issue (Some sign) issuer now qr_encode b64).
Notation Verify := (Verify c (Some check)).

(** The fields of the decoded claim object. *)
Lemma object_lookup (q : Claims F) :
  let m := decoded c <$> claims_object q in
  m !! "typ"%string = Some (JText (utf8_clean (cm_type q))) /\
  m !! "iss"%string = (if empty_str (cm_issuer q) then None else Some (JText (utf8_clean (cm_issuer q)))) /\
  m !! "sub"%string = (if empty_str (cm_subject q) then None else Some (JText (utf8_clean (cm_subject q)))) /\
  m !! "iat"%string = Some (JNum (cd_of_int c (cm_issued q))) /\
  m !! "exp"%string = (if cm_expires q =? 0 then None else Some (JNum (cd_of_int c (cm_expires q)))) /\
  m !! "data"%string = (match cm_data q with [] => None | _ => Some (clean (JObj (cm_data q))) end).
Proof.
  unfold claims_object, opt_field. destruct (empty_str (cm_issuer q)), (empty_str (cm_subject q)),
    (cm_expires q =? 0), (cm_data q); split_and!; rewrite lookup_fmap; simplify_map_eq; done.
Qed.

(** The object read back is empty when the issued one is. *)
Definition clean_object (l : list (string * json F)) : list (string * json F) :=
  object_of (Some (clean (JObj l))).
Definition full_seconds (t : time) : time := unix_time (unix t).

Lemma issue_inv q w w' resp :
  Issue q w = Done (w', Ok resp) ->
  sign (claims_object (issue_claims issuer q (now w))) w = Done (w', Ok (ir_payload resp)) /\
  ir_issued resp = now w /\ ir_expires resp = now w + issue_ttl q /\
  ir_bytes resp = Z.of_nat (String.length (ir_payload resp)) /\ ir_bytes resp <= maxPayloadBytes.
Proof.
  intros (w1 & t & [= <- <-] & (w2 & [token|e] & Hs & H)%mbind_done)%mbind_done;
    apply mret_done in H as [-> H]; [|done]. cbv zeta in H.
  destruct (Z.ltb_spec maxPayloadBytes (Z.of_nat (String.length token))); [done|].
  destruct (qr_encode _ _) as [png|]; [|done]. apply ok_inj in H as ->. done.
Qed.

Lemma utf8_clean_nil : utf8_clean "" = ""%string.
Proof. done. Qed.
Lemma text_of_opt s : text_of (F := F) (if empty_str s then None else Some (JText (utf8_clean s))) = utf8_clean s.
Proof. unfold empty_str. destruct (str_eqb s "") eqn:E; [|done]. by apply str_eqb_eq in E as ->. Qed.

(** C30: A scanned document is what was issued. Up to the end of the second before
    its expiry, verifying the payload of an issued document, with any ASCII white
    space around it, answers valid, with the issuer, subject and data of the
    request (invalid UTF-8 replaced) and the issue and expiry instants in whole
    seconds; afterwards it answers that the token expired. *)
Theorem document_roundtrip q w w' resp t before_ after_ :
  codec_laws c -> key_sound rsa_sign rsa_verify ->
  Z.abs (unix (now w)) <= 2 ^ 53 -> Z.abs (unix (now w + issue_ttl q)) <= 2 ^ 53 ->
  unix (now w + issue_ttl q) <> 0 ->
  Issue q w = Done (w', Ok resp) -> blank before_ -> blank after_ ->
  Verify (before_ ++ ir_payload resp ++ after_)%string t =
    if after t (full_seconds (ir_expires resp)) then refused (err_text ErrTokenExpired)
    else mkResult true "" (utf8_clean issuer) (utf8_clean (iq_subject q))
           (Some (full_seconds (ir_issued resp))) (Some (full_seconds (ir_expires resp)))
           (clean_object (iq_data q)).
Proof.
  intros Hc Hk Hi He Hz (Hs & -> & -> & _)%issue_inv Hb Ha. unfold SignedQr.Verify, full_seconds.
  rewrite (sign_trimmed_in _ _ _ _ _ _ _ _ _ _ Hs Hb Ha).
  rewrite (proj2 (str_eqb_neq _ _) (sign_nonempty _ _ _ _ _ _ _ _ Hs) : empty_str _ = false).
  rewrite (verify_signed _ _ _ _ _ _ _ _ _ t Hc Hk Hs).
  destruct (object_lookup (issue_claims issuer q (now w))) as (E1 & E2 & E3 & E4 & E5 & E6). cbn zeta in *.
  apply Z.eqb_neq in Hz. cbn [issue_claims cm_type cm_issuer cm_subject cm_issued cm_expires cm_data] in *.
  rewrite Hz in E5. rewrite E5, (cl_exact _ Hc) by done.
  destruct (after t (unix_time (unix (now w + issue_ttl q)))); [done|].
  rewrite E1, E2, E3, E4, E5, E6, !text_of_opt. cbn [text_of numericTime].
  rewrite !(cl_exact _ Hc) by done. change (str_eqb (utf8_clean docType) docType) with true. cbn [negb].
  by destruct (iq_data q).
Qed.

(** Nothing else passes: a payload that verifies carries a signature of the
    service key over its own segments, claims of the document type, and an
    expiry that has not passed. *)
Theorem document_sound payload t r :
  Verify payload t = r -> vr_valid r = true ->
  exists h p g sig raw m, split "." (trim_space payload) = [h; p; g] /\ b64url_decode g = Some sig /\
    rsa_verify (sha256 (h ++ "." ++ p)%string) sig = true /\
    b64url_decode p = Some raw /\ cd_unmarshal c raw = Some m /\
    m !! "typ"%string = Some (JText docType) /\
    vr_subject r = text_of (m !! "sub"%string) /\ vr_data r = object_of (m !! "data"%string) /\
    (forall e, vr_expires r = Some e -> t <= e).
Proof.
  intros <-. unfold SignedQr.Verify. destruct (empty_str _); [done|].
  destruct (check _ t) as [m|e] eqn:Ev; [|done].
  destruct (str_eqb (text_of (m !! "typ"%string)) docType) eqn:Et; [|done]. intros _. cbn [negb].
  apply str_eqb_eq in Et. apply verify_sound in Ev as (h & p & g & sig & raw & H1 & H2 & H3 & H4 & H5 & H6).
  exists h, p, g, sig, raw, m. split_and!; try done.
  - destruct (m !! "typ"%string) as [[]|]; try done. cbn in Et. by rewrite Et.
  - cbn [vr_expires]. intros e He. destruct (m !! "exp"%string) as [[]|] eqn:E; try done.
    injection He as <-. by apply H6.
Qed.

Lemma put_str_ne j k v m : k <> j -> Oidc.Oidc.put_str k v m !! j = m !! j.
Proof. intros Hk. unfold Oidc.Oidc.put_str. destruct (empty_str v); [done|by rewrite lookup_insert_ne]. Qed.
Lemma put_list_ne j k l m : k <> j -> Oidc.Oidc.put_list k l m !! j = m !! j.
Proof. intros Hk. unfold Oidc.Oidc.put_list. destruct l; [done|by rewrite lookup_insert_ne]. Qed.

(** The tokens of the OpenID provider, made by the same key, are no documents. *)
Lemma provider_token_refused cfg cl client nonce t0 w w' token t :
  codec_laws c -> key_sound rsa_sign rsa_verify ->
  sign (of_jval <$> Oidc.Oidc.idClaims cfg cl client nonce t0) w = Done (w', Ok token) ->
  vr_valid (Verify token t) = false.
Proof.
  intros Hc Hk Hs. unfold SignedQr.Verify. rewrite (sign_trimmed _ _ _ _ _ _ _ _ Hs).
  destruct (empty_str token); [done|]. rewrite (verify_signed _ _ _ _ _ _ _ _ _ t Hc Hk Hs).
  assert ((decoded c <$> (of_jval <$> Oidc.Oidc.idClaims cfg cl client nonce t0)) !! "typ"%string = None) as E.
  { rewrite !lookup_fmap.
    enough (Oidc.Oidc.idClaims cfg cl client nonce t0 !! "typ"%string = None) as -> by done.
    unfold Oidc.Oidc.idClaims, Oidc.Oidc.claimsToMap.
    destruct (empty_str nonce); rewrite !lookup_insert_ne by done;
      by rewrite !put_str_ne, ?put_list_ne, !put_str_ne by done. }
  set (m := decoded c <$> _) in *. clearbody m.
  destruct (m !! "exp"%string) as [[]|]; try (destruct (after t _)); rewrite ?E; done.
Qed.

(** A document passes for an access token: userinfo takes any token of the
    service key, so the payload printed on paper is accepted as a bearer token
    in the name of its subject. *)
Theorem document_passes_as_access_token q w w' resp t :
  codec_laws c -> key_sound rsa_sign rsa_verify -> Z.abs (unix (now w + issue_ttl q)) <= 2 ^ 53 ->
  Issue q w = Done (w', Ok resp) -> t <= full_seconds (ir_expires resp) ->
  exists m, UserInfo c sha256 rsa_verify (ir_payload resp) t = Ok m /\
    text_of (m !! "sub"%string) = utf8_clean (iq_subject q).
Proof.
  intros Hc Hk He (Hs & _ & -> & _)%issue_inv Ht. unfold UserInfo.
  rewrite (sign_trimmed _ _ _ _ _ _ _ _ Hs), (verify_signed _ _ _ _ _ _ _ _ _ t Hc Hk Hs).
  destruct (object_lookup (issue_claims issuer q (now w))) as (_ & _ & E3 & _ & E5 & _). cbn zeta in *.
  exists (decoded c <$> claims_object (issue_claims issuer q (now w))). split.
  - rewrite E5. cbn [issue_claims cm_expires].
    destruct (unix (now w + issue_ttl q) =? 0); [done|]. rewrite (cl_exact _ Hc) by done.
    unfold after, full_seconds in *. destruct (Z.ltb_spec (unix_time (unix (now w + issue_ttl q))) t); [lia|done].
  - rewrite E3. apply text_of_opt.
Qed.
End Proofs.

(** ** A concrete key: it signs a text with the text itself. *)
Definition lab_issuer : string := "qoltanba".
Definition lab_request : IssueRequest Z := mkIssue "900101300123" [("permit"%string, JText "7")] 60 0.
Definition lab_now : time := unix_time 1000.
Definition lab_object : gmap string (gval Z) := claims_object (issue_claims lab_issuer lab_request lab_now).
Definition lab_decoded : gmap string (json Z) :=
  decoded (mkCodec (fun _ => Ok ""%string) (fun _ => None) id id) <$> lab_object.
Definition lab_codec : codec Z :=
  mkCodec (fun m => if bool_decide (m = lab_object) then Ok "P"%string else Err (New "json"))
    (fun s => if str_eqb s "P" then Some lab_decoded else None) id id.
Definition lab_rsa_sign (d : string) : M Z (res goerr string) := mret (Ok d).
Definition lab_rsa_verify (d sig : string) : bool := str_eqb d sig.
Definition lab_issue : outcome (Z * res goerr IssueResponse) :=
  Issue (Some (Jws.Sign lab_codec id lab_rsa_sign "kid")) lab_issuer id (fun _ _ => Ok "png"%string) id
    lab_request lab_now.
Definition lab_response : IssueResponse :=
  match lab_issue with Done (_, Ok r) => r | _ => mkIssued "" "" 0 0 0 end.
Definition lab_verify : string -> time -> VerifyResult Z :=
  Verify lab_codec (Some (Jws.Verify lab_codec id lab_rsa_verify)).

Lemma lab_issued : lab_issue = Done (lab_now, Ok lab_response).
Proof. vm_compute. reflexivity. Qed.
Lemma lab_codec_laws : codec_laws lab_codec.
Proof.
  constructor; [|done]. intros m s. unfold lab_codec. cbn [cd_marshal cd_unmarshal].
  destruct (decide (m = lab_object)) as [->|Hn]; [rewrite bool_decide_eq_true_2 by done|by rewrite bool_decide_eq_false_2].
  intros [= <-]. done.
Qed.
Lemma lab_key_sound : key_sound lab_rsa_sign lab_rsa_verify.
Proof. intros d w w' sig [= <- <-]. apply str_eqb_refl. Qed.

Definition lab_newline : string := String (ascii_of_nat 13) (String (ascii_of_nat 10) "").
Lemma document_roundtrip_witness :
  lab_verify (" " ++ ir_payload lab_response ++ lab_newline)%string (unix_time 1060) =
    mkResult true "" lab_issuer "900101300123" (Some lab_now) (Some (unix_time 1060)) [("permit"%string, JText "7")].
Proof.
  refine (document_roundtrip lab_codec id lab_rsa_sign lab_rsa_verify "kid" lab_issuer id
            (fun _ _ => Ok "png"%string) id lab_request lab_now lab_now lab_response (unix_time 1060) " " lab_newline
            lab_codec_laws lab_key_sound _ _ _ lab_issued eq_refl eq_refl); vm_compute; discriminate.
Defined.

Lemma document_sound_witness :
  vr_valid (lab_verify (ir_payload lab_response) (unix_time 1060)) = true /\
  exists m : gmap string (json Z), m !! "typ"%string = Some (JText docType) /\
    vr_subject (lab_verify (ir_payload lab_response) (unix_time 1060)) = text_of (F := Z) (m !! "sub"%string).
Proof.
  assert (vr_valid (lab_verify (ir_payload lab_response) (unix_time 1060)) = true) as E
    by (vm_compute; reflexivity).
  split; [exact E|].
  destruct (document_sound lab_codec id lab_rsa_verify (ir_payload lab_response) (unix_time 1060) _ eq_refl E)
    as (h & p & g & sig & raw & m & _ & _ & _ & _ & _ & H1 & H2 & _).
  exists m. split; assumption.
Defined.

Lemma document_passes_as_access_token_witness :
  exists m, UserInfo lab_codec id lab_rsa_verify (ir_payload lab_response) (unix_time 1060) = Ok m /\
    text_of (m !! "sub"%string) = "900101300123"%string.
Proof.
  refine (document_passes_as_access_token lab_codec id lab_rsa_sign lab_rsa_verify "kid" lab_issuer id
            (fun _ _ => Ok "png"%string) id lab_request lab_now lab_now lab_response (unix_time 1060)
            lab_codec_laws lab_key_sound _ lab_issued _); vm_compute; discriminate.
Defined.

(** A long lifetime wraps around: a document asked to last three centuries is
    issued already expired. *)
Example long_ttl_wraps : issue_ttl (mkIssue (F := Z) "" [] (10 ^ 10) 0) < 0.
Proof. vm_compute. reflexivity. Qed.
End SignedQr.
