(* ===== verification/Resolvers.v ===== *)
(** * Keys and payloads by reference (internal/keysource/keysource.go,
    internal/dataref/dataref.go)

    Both resolvers fill ports of the domain service: the key port hands the
    driver a PKCS#12 file or a token, the data port a local file. What they put
    on disk goes through one interface, [Spool]: private temporary files, with
    the laws the proofs rely on. The HTTP client, [os.Stat] and the URL parser
    are parameters. *)
From S2P Require Import Prelude Errors Provider CoreTypes.
Open Scope Z_scope.

(** ** Temporary files *)
Class Spool (W : Type) := {
  sp_create : string -> string -> M W (res goerr string);
  sp_chmod : string -> M W (option goerr);
  sp_write : string -> string -> M W (option goerr);
  sp_close : string -> M W (option goerr);
  sp_os_remove : string -> M W (option goerr);
}.
(** [_ = os.Remove(name)]: its error is dropped. *)
Definition sp_remove {W} `{Spool W} (n : string) : M W unit := (let* _ := sp_os_remove n in mret tt)%m.

(** A created file is a new one; a write that fails may leave a part; closing
    and the mode change nothing; a removed file is gone, and a removal that fails
    leaves it. *)
Class SpoolLaws (W : Type) `{Spool W} := {
  sp_view : W -> gmap string string;
  sp_create_law : forall d p w w' r, sp_create d p w = Done (w', r) ->
    match r with
    | Ok n => sp_view w !! n = None /\ sp_view w' = <[n := ""%string]> (sp_view w)
    | Err _ => sp_view w' = sp_view w
    end;
  sp_chmod_law : forall n w w' r, sp_chmod n w = Done (w', r) -> sp_view w' = sp_view w;
  sp_write_law : forall n d w w' r, sp_write n d w = Done (w', r) ->
    exists t, sp_view w' = <[n := t]> (sp_view w) /\
      (r = None -> forall s, sp_view w !! n = Some s -> t = (s ++ d)%string);
  sp_close_law : forall n w w' r, sp_close n w = Done (w', r) -> sp_view w' = sp_view w;
  sp_remove_law : forall n w w' e, sp_os_remove n w = Done (w', e) ->
    sp_view w' = match e with None => delete n (sp_view w) | Some _ => sp_view w end;
}.

Section Created.
  Context {W : Type} `{SpoolLaws W}.

(** From the state before a file was created: nothing but that file differs. *)
Definition only_file (n : string) (w0 w : W) : Prop :=
  sp_view w0 !! n = None /\ delete n (sp_view w) = sp_view w0.

Lemma only_file_create d p w w' n : sp_create d p w = Done (w', Ok n) ->
  only_file n w w' /\ sp_view w' !! n = Some ""%string.
Proof.
  intros [Hn E]%sp_create_law. rewrite E. split; [|apply lookup_insert_eq].
  split; [done|]. by rewrite E, delete_insert_id.
Qed.
Lemma only_file_same n w0 w w' : only_file n w0 w -> sp_view w' = sp_view w -> only_file n w0 w'.
Proof. intros [A B] E. split; [done|]. by rewrite E. Qed.
Lemma only_file_write n d w0 w w' r : only_file n w0 w -> sp_write n d w = Done (w', r) -> only_file n w0 w'.
Proof. intros [A B] (t & E & _)%sp_write_law. split; [done|]. by rewrite E, delete_insert_eq. Qed.
(** The file is gone again, unless a removal of it failed. *)
Definition undone (w0 w : W) : Prop :=
  sp_view w = sp_view w0 \/
  exists n, only_file n w0 w /\ exists w1 w2 e, sp_os_remove n w1 = Done (w2, Some e).
Lemma undone_from w0 w1 w : sp_view w1 = sp_view w0 -> undone w1 w -> undone w0 w.
Proof. intros E. unfold undone, only_file. by rewrite E. Qed.
Lemma undone_same w0 w : sp_view w = sp_view w0 -> undone w0 w.
Proof. by left. Qed.
Lemma only_file_remove n w0 w w' u : only_file n w0 w -> sp_remove n w = Done (w', u) -> undone w0 w'.
Proof.
  intros Ho (w1 & e & Hr & [-> _]%mret_done)%mbind_done. pose proof (sp_remove_law _ _ _ _ Hr) as Hv. destruct e as [e|].
  - right. exists n. split; [by eapply only_file_same|]. by exists w, w1, e.
  - left. rewrite Hv. apply Ho.
Qed.
End Created.

(** ** dataref.go *)
Module DataRef.

Record Config := mkConfig {
  cf_local : bool; cf_url : bool; cf_schemes : list string; cf_max : Z; cf_spool : string; cf_timeout : duration;
}.
Record Resolver := mkResolver {
  rs_local : bool; rs_url : bool; rs_schemes : list string; rs_max : Z; rs_spool : string; rs_timeout : duration;
}.

(** [New]. *)
Definition New_resolver (c : Config) : Resolver :=
  let l := match cf_schemes c with [] => ["https"%string] | l => l end in
  mkResolver (cf_local c) (cf_url c) (map (fun s => to_lower (trim_space s)) l) (cf_max c) (cf_spool c)
    (if cf_timeout c <=? 0 then 30 * second else cf_timeout c).

(** A response: its status and its body, which ends or fails after its bytes. *)
Record http_response := mkResponse { hr_status : Z; hr_body : string; hr_broken : bool }.

Section Resolve.
  Context {W : Type} `{Spool W}.
  (** [os.Stat]: whether the file is regular and its size. *)
  Variable stat : string -> M W (option (bool * Z)).
  (** [url.Parse]: scheme and host. *)
  Variable url_parse : string -> option (string * string).
  Variable valid_request : string -> bool.
  Variable http_get : string -> M W (option http_response).
  Variable r : Resolver.

Definition invalid {A} (msg : string) : res goerr A := Err (NewError KindInvalid "dataref" msg).
Definition unavailable {A} (msg : string) : res goerr A := Err (NewError KindUnavailable "dataref" msg).

(** [local]. *)
Definition local (path : string) : M W (res goerr (string * M W unit)) :=
  if negb (rs_local r) then mret (invalid "local-path data is not enabled")
  else
    (let* info := stat path in
     mret match info with
          | None => invalid "data path is not accessible"
          | Some (regular, size) =>
              if negb regular then invalid "data path is not a regular file"
              else if (0 <? rs_max r) && (rs_max r <? size) then invalid "data file exceeds the size limit"
              else Ok (path, mret tt)
          end)%m.

(** What [io.Copy] gets of the body, and whether it meets the read error. *)
Definition copied (b : http_response) : string * bool :=
  if 0 <? rs_max r then
    let n := wrap64 (rs_max r + 1) in
    (limit_reader n (hr_body b), hr_broken b && (Z.of_nat (String.length (hr_body b)) <? n))
  else (hr_body b, hr_broken b).

(** [fetch]. *)
Definition fetch (raw : string) : M W (res goerr (string * M W unit)) :=
  if negb (rs_url r) then mret (invalid "url data is not enabled")
  else match url_parse raw with
  | None => mret (invalid "invalid data url")
  | Some (scheme, host) =>
      if empty_str host then mret (invalid "invalid data url")
      else if negb (existsb (str_eqb (to_lower scheme)) (rs_schemes r)) then
        mret (invalid "data url scheme is not allowed")
      else if negb (valid_request raw) then mret (invalid "invalid data url")
      else
        (let* resp := http_get raw in
         match resp with
         | None => mret (unavailable "data url fetch failed")
         | Some b =>
             if negb (hr_status b =? 200) then mret (unavailable "data url returned a non-200 status")
             else
               let* tmp := sp_create (rs_spool r) "qoltanba-data-*" in
               match tmp with
               | Err _ => mret (Err (NewError KindInternal "dataref" "cannot create spool file"))
               | Ok name =>
                   let '(body, broken) := copied b in
                   let* werr := sp_write name body in
                   let* cerr := sp_close name in
                   if bool_decide (is_Some werr) || broken || bool_decide (is_Some cerr) then
                     let* _ := sp_remove name in mret (unavailable "data url copy failed")
                   else if (0 <? rs_max r) && (rs_max r <? Z.of_nat (String.length body)) then
                     let* _ := sp_remove name in mret (invalid "data exceeds the size limit")
                   else mret (Ok (name, sp_remove name))
               end
         end)%m
  end.

(** [Resolve]. *)
Definition Resolve (ref : DataRef) : M W (res goerr (string * M W unit)) :=
  if negb (empty_str (dr_path ref)) then local (dr_path ref)
  else if negb (empty_str (dr_url ref)) then fetch (dr_url ref)
  else mret (invalid "empty data reference").
End Resolve.

Section Proofs.
  Context {W : Type} `{SpoolLaws W}.
  Variable stat : string -> M W (option (bool * Z)).
  Variable url_parse : string -> option (string * string).
  Variable valid_request : string -> bool.
  Variable http_get : string -> M W (option http_response).
  Variable r : Resolver.
  Hypothesis stat_reads : forall p w w' i, stat p w = Done (w', i) -> sp_view w' = sp_view w.
  Hypothesis get_reads : forall u w w' b, http_get u w = Done (w', b) -> sp_view w' = sp_view w.
Notation Resolve := (Resolve stat url_parse valid_request http_get r).
Notation fetch := (fetch url_parse valid_request http_get r).

(** What a fetch that succeeds has gone through. *)
Definition fetched (raw name : string) (w w' : W) : Prop :=
  rs_url r = true /\
  (exists scheme host, url_parse raw = Some (scheme, host) /\ host <> ""%string /\
     existsb (str_eqb (to_lower scheme)) (rs_schemes r) = true) /\
  exists w1 b, http_get raw w = Done (w1, Some b) /\ hr_status b = 200 /\
    sp_view w !! name = None /\
    sp_view w' = <[name := fst (copied r b)]> (sp_view w) /\ snd (copied r b) = false /\
    (0 < rs_max r -> Z.of_nat (String.length (fst (copied r b))) <= rs_max r).

Lemma fetch_spec raw w w' x :
  fetch raw w = Done (w', x) ->
  match x with
  | Ok (name, cleanup) => fetched raw name w w' /\ cleanup = sp_remove name
  | Err _ => undone w w'
  end.
Proof.
  unfold DataRef.fetch. destruct (rs_url r) eqn:Eu; [|by intros [-> ->]%mret_done; left]. cbn [negb].
  destruct (url_parse raw) as [[scheme host]|] eqn:Ep; [|by intros [-> ->]%mret_done; left].
  destruct (empty_str host) eqn:Eh; [by intros [-> ->]%mret_done; left|].
  destruct (existsb _ _) eqn:Es; [|by intros [-> ->]%mret_done; left]. cbn [negb].
  destruct (valid_request raw); [|by intros [-> ->]%mret_done; left]. cbn [negb].
  intros (w1 & resp & Hg & Hk)%mbind_done. pose proof (get_reads _ _ _ _ Hg) as V1.
  destruct resp as [b|]; [|apply mret_done in Hk as [-> ->]; by left].
  destruct (hr_status b =? 200) eqn:Ec; [|apply mret_done in Hk as [-> ->]; by left]. cbn [negb] in Hk.
  apply mbind_done in Hk as (w2 & [name|e] & Hn & Hk).
  2:{ apply mret_done in Hk as [-> ->]. apply sp_create_law in Hn. left. congruence. }
  destruct (copied r b) as [body broken] eqn:Eb.
  apply only_file_create in Hn as [Ho Hv].
  apply mbind_done in Hk as (w3 & werr & Hw & Hk). apply mbind_done in Hk as (w4 & cerr & Hc & Hk).
  assert (only_file name w1 w4) as Ho4
    by (eapply only_file_same; [by eapply only_file_write|by eapply sp_close_law]).
  destruct (bool_decide (is_Some werr) || broken || bool_decide (is_Some cerr)) eqn:Ef.
  { apply mbind_done in Hk as (w5 & [] & Hr & [-> ->]%mret_done).
    eapply undone_from; [exact V1|]. by eapply only_file_remove. }
  destruct ((0 <? rs_max r) && (rs_max r <? _)) eqn:El.
  { apply mbind_done in Hk as (w5 & [] & Hr & [-> ->]%mret_done).
    eapply undone_from; [exact V1|]. by eapply only_file_remove. }
  apply mret_done in Hk as [-> ->]. split; [|done]. boolp.
  assert (werr = None) as -> by (destruct werr; [|done]; exfalso; eauto).
  apply sp_write_law in Hw as (t & Et & Ht). specialize (Ht eq_refl _ Hv). cbn in Ht. subst t.
  apply str_eqb_neq in Eh. split; [done|]. split; [by exists scheme, host|].
  exists w1, b. rewrite Eb. split_and!; try done.
  - rewrite <- V1. apply Ho.
  - cbn [fst]. rewrite (sp_close_law _ _ _ _ Hc), Et. destruct Ho as [_ Ho].
    rewrite <- V1, <- Ho, insert_delete_eq. done.
  - cbn [fst]. intros Hm. apply andb_false_iff in El as [El|El]; boolp; lia.
Qed.

Lemma limit_reader_short n s : Z.of_nat (String.length (limit_reader n s)) < n -> limit_reader n s = s.
Proof.
  revert n. induction s as [|c s IH]; intros n; [done|]. cbn [limit_reader].
  destruct (Z.leb_spec n 0); [cbn; lia|]. cbn [String.length]. intros Hn. f_equal. apply IH. lia.
Qed.

(** What lies in the file of a fetched body: at the largest limit the extra byte
    that [fetch] allows wraps around and nothing is copied. *)
Definition spooled (b : http_response) : string := if rs_max r =? 2 ^ 63 - 1 then ""%string else hr_body b.
Lemma copied_spooled b : rs_max r < 2 ^ 63 ->
  (0 < rs_max r -> Z.of_nat (String.length (fst (copied r b))) <= rs_max r) -> fst (copied r b) = spooled b.
Proof.
  intros Hmax. unfold copied, spooled. destruct (Z.ltb_spec 0 (rs_max r)) as [Hp|Hp].
  - cbn [fst]. destruct (Z.eqb_spec (rs_max r) (2 ^ 63 - 1)) as [->|Hn].
    + intros _. by destruct (hr_body b).
    + rewrite wrap64_id by (unfold in64; lia). intros Hl. apply limit_reader_short. specialize (Hl Hp). lia.
  - rewrite (proj2 (Z.eqb_neq _ _)) by lia. done.
Qed.

(** C31: A resolved payload obeys the policy. A reference that resolves is either a
    local path, with local paths enabled, a regular file within the limit; or,
    with fetching enabled, a URL with a host and an allowed scheme, answered
    200, and the path is a file that did not exist before and holds the whole
    body, within the limit (but nothing when the limit is the largest int64).
    Nothing else on disk changed. The cleanup of a path does nothing; that of a
    URL removes the file, so what was there is restored unless the removal
    fails, an error the code drops, and then just that file stays. *)
Theorem resolve_policy ref w w' path cleanup :
  rs_max r < 2 ^ 63 ->
  Resolve ref w = Done (w', Ok (path, cleanup)) ->
  (forall w1 w2, sp_view w1 = sp_view w' -> cleanup w1 = Done (w2, tt) ->
     sp_view w2 = sp_view w \/
     only_file path w w2 /\ exists e, sp_os_remove path w1 = Done (w2, Some e)) /\
  ((path = dr_path ref /\ dr_path ref <> ""%string /\ rs_local r = true /\ sp_view w' = sp_view w /\
    (forall w1, cleanup w1 = Done (w1, tt)) /\
    exists size, stat path w = Done (w', Some (true, size)) /\ (0 < rs_max r -> size <= rs_max r)) \/
   (dr_path ref = ""%string /\ rs_url r = true /\ sp_view w !! path = None /\
    (exists scheme host, url_parse (dr_url ref) = Some (scheme, host) /\ host <> ""%string /\
       to_lower scheme ∈ rs_schemes r) /\
    exists w1 b, http_get (dr_url ref) w = Done (w1, Some b) /\ hr_status b = 200 /\
      sp_view w' = <[path := if rs_max r =? 2 ^ 63 - 1 then ""%string else hr_body b]> (sp_view w) /\
      (0 < rs_max r < 2 ^ 63 - 1 -> Z.of_nat (String.length (hr_body b)) <= rs_max r))).
Proof.
  intros Hmax. unfold DataRef.Resolve. destruct (str_eqb (dr_path ref) "") eqn:Ep; unfold empty_str; rewrite Ep; cbn [negb].
  - destruct (negb (str_eqb (dr_url ref) "")); [|by intros [_ Hd]%mret_done].
    intros ((Hu & (scheme & host & E1 & E2 & E3) & w1 & b & Hg & Hs & Hn & Hv & Hb & Hl) & ->)%fetch_spec.
    pose proof (copied_spooled b Hmax Hl) as Ef. rewrite Ef in Hv, Hl. split.
    { intros wa wb Ea (wc & e & Hr & [-> _]%mret_done)%mbind_done. pose proof (sp_remove_law _ _ _ _ Hr) as Er.
      destruct e as [e|]; [right|left; by rewrite Er, Ea, Hv, delete_insert_id]. split; [|by exists e].
      split; [done|]. by rewrite Er, Ea, Hv, delete_insert_id. }
    right. apply str_eqb_eq in Ep. split_and!; try done.
    { exists scheme, host. split_and!; try done. apply existsb_elem in E3 as (x & Hx & ->%str_eqb_eq). done. }
    exists w1, b. split_and!; try done. intros [Hp Hlt]. specialize (Hl Hp). unfold spooled in Hl.
    rewrite (proj2 (Z.eqb_neq _ _)) in Hl by lia. done.
  - unfold local. destruct (rs_local r); [|by intros [_ Hd]%mret_done]. cbn [negb].
    intros (w1 & info & Hi & Hk)%mbind_done. apply mret_done in Hk as [-> Hk].
    destruct info as [[[] size]|]; try done. cbn [negb] in Hk.
    destruct ((0 <? rs_max r) && (rs_max r <? size)) eqn:El; [done|]. injection Hk as -> ->.
    pose proof (stat_reads _ _ _ _ Hi) as Hv. split; [intros wa wb Ea [= <-]; left; congruence|].
    left. apply str_eqb_neq in Ep. split_and!; try done. exists size. split; [done|].
    intros Hm. apply andb_false_iff in El as [El|El]; boolp; lia.
Qed.

(** A reference that does not resolve leaves nothing behind but a file whose
    removal failed. *)
Theorem resolve_no_leak ref w w' e : Resolve ref w = Done (w', Err e) -> undone w w'.
Proof.
  unfold DataRef.Resolve. destruct (negb (empty_str (dr_path ref))).
  - unfold local. destruct (rs_local r); [|intros [-> _]%mret_done; by left]. cbn [negb].
    intros (w1 & info & Hi & Hk)%mbind_done. apply mret_done in Hk as [-> _]. left. by eapply stat_reads.
  - destruct (negb (empty_str (dr_url ref))); [|intros [-> _]%mret_done; by left].
    intros Hf%fetch_spec. done.
Qed.
End Proofs.
End DataRef.

(** ** keysource.go *)
Module KeySource.

Definition ErrInlineDisabled :=
  Sent "keysource.ErrInlineDisabled" "keysource: inline keys are disabled on this transport".
Definition ErrUnsupported := Sent "keysource.ErrUnsupported" "keysource: key variant not supported".

(** [storageByName]. *)
Definition storageByName (name : string) : option StorageType :=
  let n := to_lower (trim_space name) in
  let among l := existsb (str_eqb n) l in
  if among ["pkcs12"; "p12"]%string then Some StoragePKCS12
  else if among ["kzidcard"; "idcard"]%string then Some StorageKZIDCard
  else if among ["kaztoken"]%string then Some StorageKaztoken
  else if among ["etoken72k"; "etoken"]%string then Some StorageEToken72K
  else if among ["jacarta"]%string then Some StorageJaCarta
  else if among ["akey"; "aquarius"]%string then Some StorageAKey
  else if among ["etoken5110"]%string then Some StorageEToken5110
  else None.

Section Resolve.
  Context {W : Type} `{Spool W}.
  Variable allowInline : bool.

(** [resolveInline]. *)
Definition resolveInline (k : InlineKey) : M W (res goerr (KeyRef * M W unit)) :=
  if negb allowInline then mret (Err ErrInlineDisabled)
  else if empty_str (ik_p12 k) then mret (Err (New "keysource: empty inline p12"))
  else
    (let* tmp := sp_create "" "kalkan-key-*.p12" in
     match tmp with
     | Err e => mret (Err (Wrap "keysource: temp key file: " e))
     | Ok path =>
         let* err := sp_chmod path in
         match err with
         | Some e => let* _ := sp_close path in let* _ := sp_remove path in
                     mret (Err (Wrap "keysource: chmod temp key: " e))
         | None =>
             let* err := sp_write path (ik_p12 k) in
             match err with
             | Some e => let* _ := sp_close path in let* _ := sp_remove path in
                         mret (Err (Wrap "keysource: write temp key: " e))
             | None =>
                 let* err := sp_close path in
                 match err with
                 | Some e => let* _ := sp_remove path in mret (Err (Wrap "keysource: close temp key: " e))
                 | None => mret (Ok (mkKeyRef StoragePKCS12 path (ik_password k), sp_remove path))
                 end
             end
         end
     end)%m.

(** [resolvePath] and [resolveToken]; a nil [Release] does nothing. *)
Definition resolvePath (k : PathKey) : res goerr (KeyRef * M W unit) :=
  if empty_str (pk_path k) then Err (New "keysource: empty key path")
  else Ok (mkKeyRef StoragePKCS12 (pk_path k) (pk_password k), mret tt).
Definition resolveToken (k : TokenKey) : res goerr (KeyRef * M W unit) :=
  match storageByName (tk_storage k) with
  | None => Err (New ("keysource: unknown token storage " ++ quoted (tk_storage k)))
  | Some st => Ok (mkKeyRef st "" (tk_pin k), mret tt)
  end.

(** [Resolve]. *)
Definition Resolve (spec : KeySpec) : M W (res goerr (KeyRef * M W unit)) :=
  match ks_inline spec, ks_path spec, ks_token spec with
  | Some k, _, _ => resolveInline k
  | None, Some k, _ => mret (resolvePath k)
  | None, None, Some k => mret (resolveToken k)
  | None, None, None =>
      mret (Err (if negb (empty_str (ks_key_id spec)) then ErrUnsupported
                 else New "keysource: empty key spec"))
  end.
End Resolve.

Section Proofs.
  Context {W : Type} `{SpoolLaws W}.
  Variable allowInline : bool.
Notation Resolve := (Resolve allowInline).

Lemma resolveInline_spec k w w' x :
  resolveInline allowInline k w = Done (w', x) ->
  match x with
  | Ok (ref, release) =>
      allowInline = true /\ ik_p12 k <> ""%string /\ ref = mkKeyRef StoragePKCS12 (k_path ref) (ik_password k) /\
      sp_view w !! k_path ref = None /\ sp_view w' = <[k_path ref := ik_p12 k]> (sp_view w) /\
      release = sp_remove (k_path ref)
  | Err _ => undone w w'
  end.
Proof.
  unfold resolveInline. destruct allowInline; [|by intros [-> ->]%mret_done; left]. cbn [negb].
  destruct (empty_str (ik_p12 k)) eqn:Ee; [by intros [-> ->]%mret_done; left|].
  intros (w1 & [path|e] & Hc & Hk)%mbind_done; [|apply mret_done in Hk as [-> ->]; left; by apply sp_create_law in Hc].
  apply only_file_create in Hc as [Ho Hv]. apply mbind_done in Hk as (w2 & err & Hm & Hk).
  pose proof (sp_chmod_law _ _ _ _ Hm) as V2. pose proof (only_file_same _ _ _ _ Ho V2) as Ho2.
  destruct err as [e|].
  { apply mbind_done in Hk as (w3 & o & Hc3 & Hk). apply mbind_done in Hk as (w4 & [] & Hr & [-> ->]%mret_done).
    eapply (only_file_remove path w w3 w4 tt); [|done].
    by eapply only_file_same, sp_close_law. }
  apply mbind_done in Hk as (w3 & err & Hw & Hk). pose proof (only_file_write _ _ _ _ _ _ Ho2 Hw) as Ho3.
  destruct err as [e|].
  { apply mbind_done in Hk as (w4 & o & Hc3 & Hk). apply mbind_done in Hk as (w5 & [] & Hr & [-> ->]%mret_done).
    eapply (only_file_remove path w w4 w5 tt); [|done].
    by eapply only_file_same, sp_close_law. }
  apply mbind_done in Hk as (w4 & err & Hc4 & Hk). pose proof (sp_close_law _ _ _ _ Hc4) as V4.
  destruct err as [e|].
  { apply mbind_done in Hk as (w5 & [] & Hr & [-> ->]%mret_done).
    eapply (only_file_remove path w w4 w5 tt); [|done]. by eapply only_file_same. }
  apply mret_done in Hk as [-> ->]. cbn [k_path]. apply str_eqb_neq in Ee.
  destruct (sp_write_law _ _ _ _ _ Hw) as (t & Et & Ht). rewrite V2 in Et, Ht.
  specialize (Ht eq_refl _ Hv). change ("" ++ ik_p12 k)%string with (ik_p12 k) in Ht. subst t.
  destruct Ho as [Hn Hd]. split_and!; try done.
  by rewrite V4, Et, <- Hd, insert_delete_eq.
Qed.

(** Key material in a request exists on disk for one operation only, and only
    where it is allowed. A request's key resolves without touching the disk -
    a path or a token is passed on as it is - or, for inline material with
    inline keys enabled, to a new file that holds exactly its bytes and that
    the release removes; a key that does not resolve leaves nothing behind; both
    unless the removal of the file fails, which the code does not report. *)
Theorem key_on_disk_released spec w w' x :
  Resolve spec w = Done (w', x) ->
  match x with
  | Err _ => undone w w'
  | Ok (ref, release) =>
      (forall w1 w2, sp_view w1 = sp_view w' -> release w1 = Done (w2, tt) -> undone w w2) /\
      match ks_inline spec with
      | Some k => allowInline = true /\ sp_view w !! k_path ref = None /\
                  sp_view w' = <[k_path ref := ik_p12 k]> (sp_view w) /\ k_password ref = ik_password k
      | None => sp_view w' = sp_view w /\
                (forall k, ks_path spec = Some k -> k_path ref = pk_path k /\ k_path ref <> ""%string)
      end
  end.
Proof.
  unfold KeySource.Resolve. destruct (ks_inline spec) as [k|].
  - intros Hr%resolveInline_spec. destruct x as [[ref release]|e]; [|done].
    destruct Hr as (A & _ & B & C & D & ->). split; [|by rewrite B].
    intros w1 w2 E. apply only_file_remove. split; [done|]. by rewrite E, D, delete_insert_id.
  - destruct (ks_path spec) as [k|]; [|destruct (ks_token spec) as [k|]].
    + intros [-> ->]%mret_done. unfold resolvePath. destruct (empty_str (pk_path k)) eqn:Ee; [by left|].
      apply str_eqb_neq in Ee. split; [intros w1 w2 E [= <-]; by left|]. split; [done|]. by intros k' [= <-].
    + intros [-> ->]%mret_done. unfold resolveToken. destruct (storageByName _); [|by left].
      split; [intros w1 w2 E [= <-]; by left|]. done.
    + intros [-> ->]%mret_done. by left.
Qed.
End Proofs.
End KeySource.

(** ** A spool directory of one file name *)
Module SpoolLab.
Notation disk := (gmap string string).
#[export] Instance disk_spool : Spool disk := {|
  sp_create := fun _ _ w => match w !! "tmp"%string with
                            | Some _ => Done (w, Err (New "exists"))
                            | None => Done (<["tmp"%string := ""%string]> w, Ok "tmp"%string) end;
  sp_chmod := fun _ => mret None;
  sp_write := fun n d w => Done (<[n := (default "" (w !! n) ++ d)%string]> w, None);
  sp_close := fun _ => mret None;
  sp_os_remove := fun n w => Done (delete n w, None);
|}.
#[export] Instance disk_laws : SpoolLaws disk.
Proof.
  refine {| sp_view := fun w => w |}; cbn [sp_create sp_chmod sp_write sp_close sp_os_remove disk_spool].
  - intros _ _ w w' r. destruct (w !! "tmp"%string) eqn:E; intros [= <- <-]; done.
  - by intros n w w' r [= -> _].
  - intros n d w w' r [= <- <-]. eexists. split; [done|]. intros _ s ->. done.
  - by intros n w w' r [= -> _].
  - by intros n w w' u [= <- <-].
Defined.

(** ["https://x"] answers with five bytes; a URL without a scheme does not parse. *)
Definition lab_parse (u : string) : option (string * string) :=
  if has_prefix "https://" u then Some ("https"%string, "x"%string)
  else if has_prefix "http://" u then Some ("http"%string, "x"%string) else None.
Definition lab_get (u : string) : M disk (option DataRef.http_response) :=
  mret (Some (DataRef.mkResponse 200 "bytes" false)).
Definition lab_resolver (max : Z) : DataRef.Resolver :=
  DataRef.New_resolver (DataRef.mkConfig false true [] max "" 0).
Definition lab_resolve (max : Z) (url : string) :=
  DataRef.Resolve (W := disk) (fun _ => mret None) lab_parse (fun _ => true) lab_get (lab_resolver max)
    (mkDataRef "" url) ∅.

Lemma resolve_policy_witness :
  lab_resolve 5 "https://x" = Done ({["tmp"%string := "bytes"%string]}, Ok ("tmp"%string, sp_remove "tmp")) /\
  exists w1 b, lab_get "https://x" ∅ = Done (w1, Some b) /\
    ({["tmp"%string := "bytes"%string]} : disk) = <["tmp"%string := DataRef.hr_body b]> ∅.
Proof.
  assert (lab_resolve 5 "https://x" =
    Done ({["tmp"%string := "bytes"%string]}, Ok ("tmp"%string, sp_remove "tmp"))) as E by reflexivity.
  split; [exact E|].
  destruct (DataRef.resolve_policy (W := disk) (fun _ => mret None) lab_parse (fun _ => true) lab_get
    (lab_resolver 5) ltac:(by intros p w w' i [= -> _]) ltac:(by intros u w w' b [= -> _])
    (mkDataRef "" "https://x") ∅ {["tmp"%string := "bytes"%string]} "tmp" (sp_remove "tmp") eq_refl E)
    as [_ [(F & _)|(_ & _ & _ & _ & w1 & b & A & _ & B & _)]]; [discriminate|].
  exists w1, b. split; assumption.
Defined.
Lemma resolve_no_leak_witness :
  lab_resolve 4 "https://x" = Done (∅, DataRef.invalid "data exceeds the size limit") /\ undone (∅ : disk) ∅.
Proof.
  assert (lab_resolve 4 "https://x" = Done (∅, DataRef.invalid "data exceeds the size limit")) as E by reflexivity.
  split; [exact E|].
  refine (DataRef.resolve_no_leak (W := disk) (fun _ => mret None) lab_parse (fun _ => true) lab_get
    (lab_resolver 4) _ _ (mkDataRef "" "https://x") ∅ ∅
    (NewError KindInvalid "dataref" "data exceeds the size limit") E).
  - by intros p w w' i [= -> _].
  - by intros u w w' b [= -> _].
Defined.

(** At the largest limit the extra byte wraps around: nothing is copied and
    an empty payload is handed on as the data. *)
Example limit_wraps :
  lab_resolve (2 ^ 63 - 1) "https://x" = Done ({["tmp"%string := ""%string]}, Ok ("tmp"%string, sp_remove "tmp")).
Proof. reflexivity. Qed.

Definition lab_key : KeySpec := mkKeySpec (Some (mkInlineKey "P12" "secret" "")) None None "".
Lemma key_on_disk_released_witness :
  KeySource.Resolve true lab_key (∅ : disk) =
    Done ({["tmp"%string := "P12"%string]}, Ok (mkKeyRef StoragePKCS12 "tmp" "secret", sp_remove "tmp")) /\
  (∅ : disk) !! "tmp"%string = None.
Proof.
  assert (KeySource.Resolve true lab_key (∅ : disk) =
    Done ({["tmp"%string := "P12"%string]}, Ok (mkKeyRef StoragePKCS12 "tmp" "secret", sp_remove "tmp"))) as E
    by reflexivity.
  split; [exact E|].
  destruct (KeySource.key_on_disk_released true lab_key (∅ : disk) {["tmp"%string := "P12"%string]}
    (Ok (mkKeyRef StoragePKCS12 "tmp" "secret", sp_remove "tmp")) E) as [_ (_ & A & _)].
  exact A.
Defined.
End SpoolLab.
