(* ===== verification/Trust.v ===== *)
(** * Trust anchors and downloaded issuers (internal/trust, internal/aia)

    The anchor store with its directory loader, the registry loader and the
    refresher; the AIA fetcher with its cache and its PKCS#7 bundles, read with
    the decoder of Asn1. Directories, files, HTTP, PEM and X.509 are parameters. *)
From S2P Require Import Prelude Errors Provider CoreTypes Pki CertParse Chain Asn1 Cms CmsSpec Text.
Open Scope Z_scope.

Module Trust.

(** [isCertFile]. *)
Definition isCertFile (name : string) : bool :=
  existsb (str_eqb (to_lower (path_ext name))) [".pem"; ".crt"; ".cer"]%string.

Record RefreshStatus := mkStatus {
  rs_enabled : bool; rs_interval : Z; rs_last : string; rs_anchors : Z; rs_errors : Z;
}.
(** A [Refresher] and the live store it fills. *)
Record live := mkLive { lv_anchors : list TrustedCert; lv_status : RefreshStatus }.

(** [pem.Block]. *)
Record pem_block := mkBlock { pb_type : string; pb_headers : gmap string string; pb_bytes : string }.

Section Trust.
  Context {W : Type}.
  (** [pem.Decode]: the next block, and what follows it. *)
  Variable pem_next : string -> option (pem_block * string).
  Variable pem_encode : pem_block -> string.
  (** The issuer and subject of a certificate, as raw names. *)
  Variable parse_names : string -> option (string * string).
  (** [os.ReadDir]: the entries, nothing there, or an error. *)
  Variable read_dir : string -> M W (res goerr (option (list (string * bool)))).
  Variable read_file : string -> M W (res goerr string).
  Variable fetch : string -> M W (option string).

(** [isSelfSigned]. *)
Definition isSelfSigned (der : string) : bool :=
  match parse_names der with Some (issuer, subject) => str_eqb issuer subject | None => false end.

(** A certificate block, encoded again with the headers it came with. *)
Definition anchor_of (b : pem_block) : TrustedCert :=
  mkTrusted (pem_encode b) (negb (isSelfSigned (pb_bytes b))).

(** [addPEM]: one turn for each block. *)
Fixpoint addPEM_loop (fuel : nat) (raw : string) (s : list TrustedCert) : list TrustedCert :=
  match fuel with
  | O => s
  | S f =>
      match pem_next raw with
      | None => s
      | Some (b, rest) =>
          addPEM_loop f rest (if negb (str_eqb (pb_type b) "CERTIFICATE") then s else s ++ [anchor_of b])
      end
  end.
Definition addPEM (raw : string) (s : list TrustedCert) : list TrustedCert :=
  addPEM_loop (S (String.length raw)) raw s.

(** [addDER]. *)
Definition addDER (der : string) (s : list TrustedCert) : option (list TrustedCert) :=
  match parse_names der with None => None | Some _ => Some (s ++ [anchor_of (mkBlock "CERTIFICATE" ∅ der)]) end.

(** [LoadDir]. *)
Fixpoint load_entries (dir : string) (l : list (string * bool)) (s : list TrustedCert)
    : M W (res goerr (list TrustedCert)) :=
  match l with
  | [] => mret (Ok s)
  | (name, is_dir) :: t =>
      if is_dir || negb (isCertFile name) then load_entries dir t s
      else
        (let* raw := read_file (path_join dir name) in
         match raw with
         | Err e => mret (Err (Wrap ("trust: read " ++ name ++ ": ") e))
         | Ok raw => load_entries dir t (addPEM raw s)
         end)%m
  end.
Definition LoadDir (dir : string) : M W (res goerr (list TrustedCert)) :=
  if empty_str dir then mret (Ok [])
  else
    (let* entries := read_dir dir in
     match entries with
     | Err e => mret (Err (Wrap ("trust: read dir " ++ dir ++ ": ") e))
     | Ok None => mret (Ok [])
     | Ok (Some l) => load_entries dir l []
     end)%m.

(** [certDER] and [LoadRegistry]. *)
Definition certDER (body : string) : string :=
  match pem_next body with
  | Some (b, _) => if str_eqb (pb_type b) "CERTIFICATE" then pb_bytes b else body
  | None => body
  end.
Definition registry_turn (acc : list TrustedCert * list goerr) (ref : CACertRef)
    : M W (list TrustedCert * list goerr) :=
  let '(s, errs) := acc in
  (let* body := fetch (ca_url ref) in
   mret match body with
        | None => (s, errs ++ [New ("trust: fetch " ++ ca_label ref ++ " (" ++ ca_url ref ++ "): failed")])
        | Some body =>
            match addDER (certDER body) s with
            | Some s' => (s', errs)
            | None => (s, errs ++ [New ("trust: parse " ++ ca_label ref ++ " (" ++ ca_url ref
                                          ++ "): not a certificate")])
            end
        end)%m.
Definition LoadRegistry (refs : list CACertRef) (s : list TrustedCert) : M W (list TrustedCert * list goerr) :=
  mfold registry_turn (s, []) refs.

(** [NewRefresher]. *)
Definition NewRefresher (anchors : list TrustedCert) : live :=
  mkLive anchors (mkStatus false 0 "" (Z.of_nat (length anchors)) 0).

  Variable nowRFC3339 : M W string.
  Variable caDir : string.
  Variable refs : list CACertRef.

(** The sources rebuilt, and how many failed. *)
Definition rebuild : M W (list TrustedCert * list goerr) :=
  (let* built := LoadDir caDir in
   let '(s, errs) := match built with Ok l => (l, []) | Err e => ([], [e]) end in
   match refs with
   | [] => mret (s, errs)
   | _ => let* (s, more) := LoadRegistry refs s in mret (s, errs ++ more)
   end)%m.

(** [Refresh]: the swap and the status are two lock sections; readers of the
    store see the set before or after the swap. *)
Definition swap (fresh : list TrustedCert) (l : live) : live * unit :=
  let kept := bool_decide (length fresh = 0)%nat && (0 <? Z.of_nat (length (lv_anchors l))) in
  (mkLive (if kept then lv_anchors l else fresh) (lv_status l), tt).
Definition note (at_ : string) (errs : list goerr) (l : live) : live * unit :=
  let st := lv_status l in
  (mkLive (lv_anchors l) (mkStatus (rs_enabled st) (rs_interval st) at_ (Z.of_nat (length (lv_anchors l)))
                            (Z.of_nat (length errs))), tt).
Definition Refresh : M (W * live) unit :=
  (let* (fresh, errs) := in_world rebuild in
   let* _ := in_store (swap fresh) in
   let* at_ := in_world nowRFC3339 in
   in_store (note at_ errs))%m.

(** [Run]: one refresh for each tick, none when the interval is not positive. *)
Definition enable (interval : duration) (l : live) : live * unit :=
  let st := lv_status l in
  (mkLive (lv_anchors l) (mkStatus true (Z.quot interval second) (rs_last st) (rs_anchors st) (rs_errors st)), tt).
Definition Run (interval : duration) (ticks : nat) : M (W * live) unit :=
  if interval <=? 0 then mret tt
  else (let* _ := in_store (enable interval) in mfold (fun _ _ => Refresh) tt (repeat tt ticks))%m.
End Trust.

(** ** What the store holds *)
Section Proofs.
  Context {W : Type}.
  Variable pem_next : string -> option (pem_block * string).
  Variable pem_encode : pem_block -> string.
  Variable parse_names : string -> option (string * string).
  Variable read_dir : string -> M W (res goerr (option (list (string * bool)))).
  Variable read_file : string -> M W (res goerr string).
  Variable fetch : string -> M W (option string).
  Variable nowRFC3339 : M W string.
  Variable caDir : string.
  Variable refs : list CACertRef.
Notation anchor_of := (anchor_of pem_encode parse_names).
Notation addPEM_loop := (addPEM_loop pem_next pem_encode parse_names).
Notation rebuild := (rebuild pem_next pem_encode parse_names read_dir read_file fetch caDir refs).
Notation Refresh := (Refresh pem_next pem_encode parse_names read_dir read_file fetch nowRFC3339 caDir refs).
Notation Run := (Run pem_next pem_encode parse_names read_dir read_file fetch nowRFC3339 caDir refs).

(** An anchor is a root exactly when its certificate parses and names itself
    as its issuer. *)
Definition classified (a : TrustedCert) : Prop :=
  exists b, tc_cert a = pem_encode b /\ pb_type b = "CERTIFICATE"%string /\
    (tc_intermediate a = false <-> exists n, parse_names (pb_bytes b) = Some (n, n)).

Lemma anchor_classified b : pb_type b = "CERTIFICATE"%string -> classified (anchor_of b).
Proof.
  exists b. split; [done|]. split; [done|]. unfold Trust.anchor_of, isSelfSigned. cbn [tc_intermediate].
  destruct (parse_names (pb_bytes b)) as [[i s]|]; [|split; [done|by intros [n ?]]].
  destruct (str_eqb i s) eqn:E; cbn.
  - apply str_eqb_eq in E as ->. split; [by eexists|done].
  - apply str_eqb_neq in E. split; [done|]. intros [n [= -> ->]]. done.
Qed.

Lemma addPEM_loop_classified fuel raw s :
  Forall classified s -> Forall classified (addPEM_loop fuel raw s).
Proof.
  revert raw s. induction fuel as [|fuel IH]; intros raw s Hs; [done|]. cbn [Trust.addPEM_loop].
  destruct (pem_next raw) as [[b rest]|]; [|done]. apply IH. destruct (str_eqb (pb_type b) _) eqn:E; [|done].
  apply Forall_app. split; [done|]. repeat constructor. apply anchor_classified. by apply str_eqb_eq.
Qed.

(** The fuel of [addPEM] is enough when each block is shorter than its text. *)
Lemma addPEM_fuel raw s fuel :
  (forall r b rest, pem_next r = Some (b, rest) -> (String.length rest < String.length r)%nat) ->
  (String.length raw < fuel)%nat ->
  addPEM_loop fuel raw s = addPEM_loop (S (String.length raw)) raw s.
Proof.
  intros Hp. enough (forall n m raw s, (String.length raw < n)%nat -> (String.length raw < m)%nat ->
    addPEM_loop n raw s = addPEM_loop m raw s) as E by (intros; apply E; lia).
  clear raw s fuel. induction n as [|n IH]; intros m raw s Hn Hm; [lia|]. destruct m as [|m]; [lia|].
  cbn [Trust.addPEM_loop]. destruct (pem_next raw) as [[b rest]|] eqn:E; [|done].
  apply Hp in E. apply IH; lia.
Qed.

Lemma load_entries_classified dir l s w w' s' :
  Forall classified s ->
  load_entries pem_next pem_encode parse_names read_file dir l s w = Done (w', Ok s') -> Forall classified s'.
Proof.
  revert s w. induction l as [|[name d] l IH]; intros s w Hs; cbn [load_entries];
    [by intros [_ [= ->]]%mret_done|].
  destruct (d || negb (isCertFile name)); [by apply IH|].
  intros (w1 & [raw|e] & _ & Hk)%mbind_done; [|by apply mret_done in Hk as [_ ?]].
  eapply IH; [|exact Hk]. by apply addPEM_loop_classified.
Qed.

Lemma registry_classified s w w' s' errs :
  Forall classified s ->
  LoadRegistry pem_next pem_encode parse_names fetch refs s w = Done (w', (s', errs)) -> Forall classified s'.
Proof.
  intros Hs H. refine (mfold_inv _ (fun acc => Forall classified (fst acc)) _ _ _ _ _ _ _ H); [done|].
  clear. intros [s errs] ref w0 w1 [s1 errs1] _ Hs (w2 & body & _ & Hk)%mbind_done.
  apply mret_done in Hk as [_ Hk]. cbn [fst] in *. destruct body as [body|]; [|by injection Hk as -> _].
  unfold addDER in Hk. destruct (parse_names _); [|by injection Hk as -> _]. injection Hk as -> _.
  apply Forall_app. split; [done|]. repeat constructor. by apply anchor_classified.
Qed.

Lemma rebuild_classified w w' s errs : rebuild w = Done (w', (s, errs)) -> Forall classified s.
Proof.
  intros (w1 & built & Hb & Hk)%mbind_done.
  assert (Forall classified (match built with Ok l => l | Err _ => [] end)) as Hc.
  { destruct built as [l|e]; [|done]. revert Hb. unfold LoadDir.
    destruct (empty_str caDir); [by intros [_ [= ->]]%mret_done|].
    intros (w2 & [[entries|]|e] & _ & Hl)%mbind_done; try (by apply mret_done in Hl as [_ [= ->]]).
    by eapply load_entries_classified in Hl. }
  destruct built as [l|e]; (destruct refs as [|ref refs'] eqn:Er;
    [by apply mret_done in Hk as [_ [= -> ->]]|]); rewrite <- Er in Hk;
    apply mbind_done in Hk as (w2 & [s1 more] & Hr & Hk); apply mret_done in Hk as [_ [= -> ->]];
    by eapply registry_classified in Hr.
Qed.

(** The invariant of a live store under refreshes. *)
Record live_ok (l0 l : live) : Prop := {
  lo_kept : lv_anchors l0 <> [] -> lv_anchors l <> [];
  lo_classified : Forall classified (lv_anchors l);
  lo_count : rs_anchors (lv_status l) = Z.of_nat (length (lv_anchors l));
}.

Lemma refresh_ok l0 w l w' l' :
  live_ok l0 l -> Refresh (w, l) = Done ((w', l'), tt) -> live_ok l0 l'.
Proof.
  intros [Hk Hc _] ([w1 l1] & [fresh errs] & [-> Hr]%in_world_done & H)%mbind_done.
  apply mbind_done in H as ([w2 l2] & [] & [-> Hs]%in_store_done & H). injection Hs as <-.
  apply mbind_done in H as ([w3 l3] & at_ & [-> _]%in_world_done & H).
  apply in_store_done in H as [-> Hn]. injection Hn as <-.
  set (kept := bool_decide _ && _). constructor; cbn [lv_anchors lv_status rs_anchors]; [| |done].
  - intros Hl. specialize (Hk Hl). destruct kept eqn:Ek; [done|]. intros ->. unfold kept in Ek. cbn in Ek.
    destruct (lv_anchors l); [done|]. cbn in Ek. discriminate.
  - destruct kept; [done|]. by eapply rebuild_classified.
Qed.

(** C29: Refreshing never disarms the service. However often a live store is
    refreshed, from whatever its sources answer, it does not become empty once
    it holds an anchor; every anchor it publishes is a CERTIFICATE block
    classified as a root exactly when it parses and is self-issued; and the
    reported count is the number of anchors in force. *)
Theorem refresh_keeps_trust anchors interval ticks w w' l' :
  Forall classified anchors ->
  Run interval ticks (w, NewRefresher anchors) = Done ((w', l'), tt) ->
  (anchors <> [] -> lv_anchors l' <> []) /\ Forall classified (lv_anchors l') /\
  rs_anchors (lv_status l') = Z.of_nat (length (lv_anchors l')).
Proof.
  intros Ha H. enough (live_ok (NewRefresher anchors) l') as [A B C] by done.
  assert (live_ok (NewRefresher anchors) (NewRefresher anchors)) as H0 by by constructor.
  revert H. unfold Trust.Run. destruct (interval <=? 0); [by intros [[= _ ->] _]%mret_done|].
  intros ([w1 l1] & [] & [-> He]%in_store_done & H)%mbind_done. injection He as <-.
  refine (mfold_state_inv _ (fun _ s => live_ok (NewRefresher anchors) (snd s)) _ _ _ _ _ _ _ H).
  - destruct H0 as [A B C]. by constructor.
  - intros _ [] [w2 l2] [w3 l3] [] _ Hl Hr. by eapply refresh_ok.
Qed.
End Proofs.

(** ** An outage of the registry *)
Definition lab_next (raw : string) : option (pem_block * string) :=
  match raw with
  | String c t => Some (mkBlock "CERTIFICATE" ∅ (String c ""), t)
  | EmptyString => None
  end.
(** "R" is a root, "I" an intermediate; the directory holds one root, the
    registry is up in the first world only. *)
Definition lab_names (der : string) : option (string * string) :=
  if str_eqb der "R" then Some ("R", "R")%string else if str_eqb der "I" then Some ("R", "I")%string else None.
Definition lab_refs : list CACertRef := [mkCACertRef "root" "http://ca" "root" "GOST" false].
Definition lab_run (up : bool) (ticks : nat) (anchors : list TrustedCert) :=
  Run (W := bool) lab_next pb_bytes lab_names (fun _ => mret (Ok (Some [("ca.pem", false)]%string)))
    (fun _ => mret (Ok "R"%string)) (fun _ w => Done (false, if w then Some "I"%string else None))
    (mret "now"%string) "/ca" lab_refs second ticks (up, NewRefresher anchors).
Definition lab_root : TrustedCert := mkTrusted "R" false.
Definition lab_intermediate : TrustedCert := mkTrusted "I" true.

Lemma refresh_keeps_trust_witness :
  lab_run true 1 [lab_root] =
    Done ((false, mkLive [lab_root; lab_intermediate] (mkStatus true 1 "now" 2 0)), tt) /\
  ([lab_root] <> [] -> [lab_root; lab_intermediate] <> []).
Proof.
  assert (lab_run true 1 [lab_root] =
    Done ((false, mkLive [lab_root; lab_intermediate] (mkStatus true 1 "now" 2 0)), tt)) as E by reflexivity.
  split; [exact E|].
  refine (proj1 (refresh_keeps_trust lab_next pb_bytes lab_names _ _ _ _ _ _ [lab_root] second 1 true _ _ _ E)).
  constructor; [|constructor]. exists (mkBlock "CERTIFICATE" ∅ "R"). split; [reflexivity|]. split; [reflexivity|]. split; [|reflexivity].
  intros _. exists "R"%string. reflexivity.
Defined.

(** The second refresh finds the registry down: its anchors are gone, because
    the directory alone still yields one. *)
Example registry_outage_drops_anchors :
  lab_run true 2 [lab_root] = Done ((false, mkLive [lab_root] (mkStatus true 1 "now" 1 1)), tt).
Proof. reflexivity. Qed.
End Trust.
