(* ===== verification/Aia.v ===== *)
(** * The AIA fetcher (internal/aia/aia.go, pkcs7.go)

    Downloads of a certificate's issuer with a cache by URL; certificates come
    as PEM, as DER or in a PKCS#7 bundle, which is read with the decoder of
    Asn1. HTTP, PEM and X.509 are parameters. *)
From S2P Require Import Prelude Errors Provider CoreTypes Chain Asn1 Cms CmsSpec.
Open Scope Z_scope.

Module Aia.

Definition maxResponseBytes : Z := 2 * 2 ^ 20.
(** The default of [New]. *)
Definition New_timeout (timeout : duration) : duration := if timeout <=? 0 then 5 * second else timeout.

(** ** pkcs7.go *)
Definition set_raw : fieldParameters := mkParams false false None true.
Record signedData := mkSignedData { sd_certificates : RawValue }.
Definition signedData_type : gotype signedData := struct_type (fun b =>
  let? (_, b) := parseField int_type 0 plain b in
  let? (_, b) := parseField raw_type zero_raw plain b in
  let? (_, b) := parseField raw_type zero_raw plain b in
  let? (ce, b) := parseField raw_type zero_raw (optional_tag 0) b in
  let? (_, b) := parseField raw_type zero_raw (optional_tag 1) b in
  let? (_, _) := parseField raw_type zero_raw set_raw b in
  Ok (mkSignedData ce))%res.
Definition zero_signedData : signedData := mkSignedData zero_raw.

(** The cache of a [Fetcher]: an entry without a certificate is a known miss. *)
Notation cache := (gmap string (option string)).

Section Fetch.
  Context {W : Type}.
  Variable pem_first : string -> option (string * string).
  (** [x509.ParseCertificates] on concatenated DER: the raw certificates. *)
  Variable parse_certificates : string -> option (list string).
  (** The CA Issuers URLs of a certificate. *)
  Variable issuing_urls : string -> option (list string).
  (** A GET: nothing when the request is bad, fails or breaks off; else the
      status and the body. *)
  Variable http_get : string -> M W (option (Z * string)).

(** [parsePKCS7Certs]. *)
Definition parsePKCS7Certs (der : string) : list string :=
  match Unmarshal contentInfo_type (mkContentInfo [] zero_raw) der with
  | Err _ => []
  | Ok (ci, _) =>
      if negb (oid_eqb (ci_type ci) oidSignedData) then []
      else
        let sd := match Unmarshal signedData_type zero_signedData (rv_bytes (ci_content ci)) with
                  | Ok (sd, _) => Some sd
                  | Err _ => match Unmarshal signedData_type zero_signedData (rv_full (ci_content ci)) with
                             | Ok (sd, _) => Some sd
                             | Err _ => None
                             end
                  end in
        match sd with
        | None => []
        | Some sd =>
            let certs := rv_bytes (sd_certificates sd) in
            if empty_str certs then [] else default [] (parse_certificates certs)
        end
  end.

(** [extractCert]. *)
Definition extractCert (body : string) : option string :=
  let der :=
    match parse_certificates body with
    | Some (c :: _) => Some c
    | _ => match parsePKCS7Certs body with c :: _ => Some c | [] => None end
    end in
  match pem_first body with
  | Some (ty, b) => if str_eqb ty "CERTIFICATE" then Some b else der
  | None => der
  end.

(** [download]. *)
Definition download (url : string) : M W (option string) :=
  (let* resp := http_get url in
   mret match resp with
        | Some (code, body) =>
            if negb (code =? 200) then None else extractCert (limit_reader maxResponseBytes body)
        | None => None
        end)%m.

(** What a miss or a download stores. *)
Definition put (url : string) (der : option string) (c : cache) : cache * unit := (<[url := der]> c, tt).

(** [get]: the lookup and the store are two lock sections. *)
Definition get (url : string) : M (W * cache) (option string) :=
  (let* hit := in_store (fun c : cache => (c, c !! url)) in
   match hit with
   | Some der => mret der
   | None =>
       let* der := in_world (download url) in
       let* _ := in_store (put url der) in
       mret der
   end)%m.

(** [FetchIssuer]. *)
Fixpoint first_issuer (urls : list string) : M (W * cache) (option string) :=
  match urls with
  | [] => mret None
  | url :: t => (let* der := get url in
                 match der with Some d => mret (Some d) | None => first_issuer t end)%m
  end.
Definition FetchIssuer (certDER : string) : M (W * cache) (option string) :=
  match issuing_urls certDER with None => mret None | Some urls => first_issuer urls end.

(** ** Proofs *)
(** What a URL was seen to serve: some answer of a GET, with status 200, whose
    first bytes hold the certificate. *)
Definition served (url der : string) : Prop :=
  exists w w' body, http_get url w = Done (w', Some (200, body)) /\
    extractCert (limit_reader maxResponseBytes body) = Some der.
Definition cache_ok (c : cache) : Prop := forall url der, c !! url = Some (Some der) -> served url der.

Lemma download_served url w w' der : download url w = Done (w', Some der) -> served url der.
Proof.
  intros (w1 & resp & Hg & Hk)%mbind_done. apply mret_done in Hk as [-> Hk].
  destruct resp as [[code body]|]; [|done]. destruct (code =? 200) eqn:E; [|done].
  apply Z.eqb_eq in E as ->. by exists w, w1, body.
Qed.

Lemma get_ok url w c w' c' r :
  cache_ok c -> get url (w, c) = Done ((w', c'), r) ->
  cache_ok c' /\ (forall der, r = Some der -> served url der) /\ c ⊆ c' /\ is_Some (c' !! url).
Proof.
  intros Hc ([w1 c1] & hit & [-> Hl]%in_store_done & H)%mbind_done. injection Hl as <- <-.
  destruct (c !! url) as [der|] eqn:E.
  - apply mret_done in H as [[= -> ->] ->]. split; [done|]. split; [|done]. intros d ->. by apply Hc.
  - apply mbind_done in H as ([w2 c2] & der & [-> Hd]%in_world_done & H).
    apply mbind_done in H as ([w3 c3] & [] & [-> Hp]%in_store_done & H). injection Hp as <-.
    apply mret_done in H as [[= -> ->] ->].
    assert (forall d, der = Some d -> served url d) as Hs by (intros d ->; by eapply download_served).
    split_and!; [|done|by apply insert_subseteq|by rewrite lookup_insert_eq].
    intros u d Hu. destruct (decide (u = url)) as [->|Hn].
    + rewrite lookup_insert_eq in Hu. injection Hu as ->. by apply Hs.
    + rewrite lookup_insert_ne in Hu by done. by apply Hc.
Qed.

(** What the fetcher hands out is what one of the certificate's own URLs
    served, now or before: the certificate found in at most 2 MiB of an answer
    with status 200. The cache keeps only such certificates and only grows, and
    the URLs up to the one that answered are in it, so none of them is
    contacted again. *)
Theorem fetched_issuer_served cert w c w' c' der :
  cache_ok c -> FetchIssuer cert (w, c) = Done ((w', c'), Some der) ->
  cache_ok c' /\ c ⊆ c' /\
  exists urls before url after, issuing_urls cert = Some urls /\ urls = before ++ url :: after /\
    served url der /\ Forall (fun u => is_Some (c' !! u)) (before ++ [url]).
Proof.
  unfold FetchIssuer. destruct (issuing_urls cert) as [urls|]; [|by intros _ [_ ?]%mret_done].
  intros Hc H. enough (cache_ok c' /\ c ⊆ c' /\ exists before url after, urls = before ++ url :: after /\
    served url der /\ Forall (fun u => is_Some (c' !! u)) (before ++ [url])) as (A & B & b & u & a & D)
    by (split; [done|]; split; [done|]; exists urls, b, u, a; done).
  revert w c Hc H. induction urls as [|url urls IH]; intros w c Hc H; [by apply mret_done in H as [_ ?]|].
  apply mbind_done in H as ([w1 c1] & r & Hg & H). destruct (get_ok _ _ _ _ _ _ Hc Hg) as (A & B & C & D).
  destruct r as [d|].
  - apply mret_done in H as [[= -> ->] [= ->]]. split; [done|]. split; [done|].
    exists [], url, urls. split_and!; [done|by apply B|by repeat constructor].
  - destruct (IH _ _ A H) as (A' & C' & b & u & a & -> & Hs & Hf). split; [done|].
    split; [by transitivity c1|]. exists (url :: b), u, a. split_and!; [done|done|].
    constructor; [|done]. destruct D as [x D]. exists x. by eapply lookup_weaken.
Qed.

End Fetch.

(** ** Bundles *)
Section Bundles.
  Variable parse_certificates : string -> option (list string).
Notation parsePKCS7Certs := (parsePKCS7Certs parse_certificates).

Lemma bundle_fields k u t f :
  container_ok k -> ty_parse signedData_type u t (e_body (signed_data k)) f =
    Ok (mkSignedData (optional_raw (context 0 <$> c_certs k))).
Proof.
  intros Hc. destruct (container_parts k Hc) as (_ & _ & Hset & Hh & Hs). destruct Hc as (Hv & Hd & He & Hso & _).
  cbn [ty_parse signedData_type struct_type signed_data sequence e_body].
  unfold header_elems in *. flatten.
  rewrite read_int by (done || apply Hh; set_solver). cbn [rbind].
  rewrite !read_raw by (done || apply Hh; set_solver). cbn [rbind].
  rewrite read_raw by (done || apply Hh; set_solver). cbn [rbind].
  assert (E : exists e r, tag_ok e /\ fits e /\ (e_class e, e_tag e) <> (ClassContextSpecific, 0) /\
     (encs match c_crls k with Some b => [context 1 b] | None => [] end ++ enc (signer_set k) ++ "")%string
     = (enc e ++ r)%string).
  { destruct (c_crls k) as [b|] eqn:Eb.
    - exists (context 1 b). eexists. rewrite encs_one. split_and!; [auto with qol|apply Hh; set_solver|done|done].
    - exists (signer_set k), ""%string. split_and!; [auto with qol|done|done|done]. }
  destruct E as (e & r & Ht & Hf & Hn & E). rewrite E, read_optional, <- E;
    [|lia|intros b Hb; apply Hh; rewrite Hb; set_solver|done|done|done]. cbn [rbind].
  rewrite read_optional; [|lia|intros b Hb; apply Hh; rewrite Hb; set_solver|auto with qol|done|done].
  cbn [rbind]. by rewrite read_raw by (done || auto with qol).
Qed.

(** A bundle gives its certificates: from the DER of any SignedData whose
    certificates field holds concatenated certificates, the fetcher reads
    exactly those, whatever else the container carries. *)
Theorem bundle_certificates k certs l :
  container_ok k -> c_certs k = Some certs -> certs <> ""%string -> parse_certificates certs = Some l ->
  parsePKCS7Certs (encode k) = l.
Proof.
  intros Hk Hc Hne Hp. unfold Aia.parsePKCS7Certs. rewrite contentInfo_read by done.
  cbn [ci_type ci_content rv_bytes raw_of]. change (oid_eqb oidSignedData oidSignedData) with true. cbn [negb].
  assert (Unmarshal signedData_type zero_signedData (e_body (content_elem k)) =
    Ok (mkSignedData (optional_raw (Some (context 0 certs))), ""%string)) as ->.
  { destruct (container_parts k Hk) as (_ & Hsd & _). unfold Unmarshal. cbn [content_elem context e_body].
    rewrite <- (app_nil_s (enc _)), read_match; [|auto with qol|done| |done].
    - rewrite bundle_fields by done. by rewrite Hc.
    - split_and!; [done|by right|by right]. }
  cbn [sd_certificates optional_raw raw_of rv_bytes context e_body].
  by rewrite (proj2 (str_eqb_neq _ _) Hne : empty_str _ = false), Hp.
Qed.
End Bundles.

(** ** A concrete fetcher: "http://ca" serves a bundle of one certificate. *)
Definition lab_bundle : container :=
  mkContainer (lab_bytes [1]) (set_of "") (sequence (lab_oid [1; 2; 840; 113549; 1; 7; 1])) (Some "CERT"%string)
    None [lab_signer].
Lemma lab_bundle_ok : container_ok lab_bundle.
Proof.
  destruct lab_container_ok as (A & B & C & D & _).
  split_and!; [done|auto with qol|auto with qol| |vm_compute; reflexivity].
  apply Forall_cons in D as [D _]. by repeat constructor.
Qed.
Definition lab_parse (b : string) : option (list string) :=
  if str_eqb b "CERT" then Some ["CERT"%string] else None.
(** The world counts the requests; "http://down" fails. *)
Definition lab_get (u : string) : M Z (option (Z * string)) := fun w =>
  Done (w + 1, if str_eqb u "http://ca" then Some (200, encode lab_bundle) else None).
Definition lab_urls (_ : string) : option (list string) := Some ["http://down"; "http://ca"]%string.
Definition lab_fetch : M (Z * cache) (option string) :=
  FetchIssuer (fun _ => None) lab_parse lab_urls lab_get "leaf".
Definition lab_cache : cache := {["http://down"%string := None; "http://ca"%string := Some "CERT"%string]}.

Lemma bundle_certificates_witness : parsePKCS7Certs lab_parse (encode lab_bundle) = ["CERT"%string].
Proof.
  apply (bundle_certificates lab_parse lab_bundle "CERT"); [apply lab_bundle_ok|reflexivity|discriminate|reflexivity].
Defined.

Lemma fetched_issuer_served_witness :
  lab_fetch (0, ∅) = Done ((2, lab_cache), Some "CERT"%string) /\ (∅ : cache) ⊆ lab_cache.
Proof.
  assert (lab_fetch (0, ∅) = Done ((2, lab_cache), Some "CERT"%string)) as E by (vm_compute; reflexivity).
  split; [exact E|].
  refine (proj1 (proj2 (fetched_issuer_served (fun _ => None) lab_parse lab_urls lab_get "leaf" 0 ∅ 2
    lab_cache "CERT" _ E))).
  intros url der H. discriminate H.
Defined.

(** The second call asks no server, the one that was down included. *)
Example miss_not_retried : lab_fetch (2, lab_cache) = Done ((2, lab_cache), Some "CERT"%string).
Proof. vm_compute. reflexivity. Qed.
End Aia.
