(* ===== verification/Dispatch.v ===== *)
(** * Wire requests and the operation router (internal/transport/dto,
    internal/transport/dispatch)

    The requests of the stateless transports with their mapping to the domain's
    inputs, and the router that decodes a payload, calls the domain and hands
    the outputs on. Decoding JSON into the request structs is a parameter; the
    domain is a record of its operations, a batch one of them. *)
From S2P Require Import Prelude Errors Provider CoreTypes Service Verify Sign Historical Batch.
Open Scope Z_scope.

Module Dto.

(** The domain's string types, from their texts. *)
Definition format_of (s : string) : SignatureFormat :=
  if str_eqb s "cms" then FormatCMS else if str_eqb s "xml" then FormatXML
  else if str_eqb s "wsse" then FormatWSSE else FormatOther s.
Definition method_of (s : string) : RevMethod :=
  if str_eqb s "ocsp" then MethodOCSP else if str_eqb s "crl" then MethodCRL else MethodOther s.

(** [parseFormat], [parseEncoding], [parseMethod]. *)
Definition parseFormat (s : string) : res goerr SignatureFormat :=
  let f := format_of s in
  if negb (format_valid f)
  then Err (New ("unknown signature format " ++ quoted s ++ " (want cms|xml|wsse)"))
  else Ok f.
Definition parseEncoding (s : string) : CertEncoding :=
  if str_eqb s "der" then EncodingDER else if str_eqb s "base64" then EncodingB64 else EncodingPEM.
Definition parseMethod (s : string) : RevMethod := if str_eqb s "crl" then MethodCRL else MethodOCSP.

Record SignRequest := mkSignRequest {
  sq_policy : string; sq_format : string; sq_data : string; sq_data_path : string; sq_data_url : string;
  sq_key : KeySpec; sq_detached : bool; sq_with_timestamp : option bool; sq_tsa_url : string;
  sq_no_check_cert_time : bool; sq_input_pem : bool; sq_output_pem : bool; sq_node_id : string;
  sq_parent_node : string; sq_parent_ns : string; sq_existing : option string;
}.
Definition sign_ToCore (r : SignRequest) : res goerr SignInput :=
  let input f := mkSignInput (sq_policy r) f (sq_data r) (mkDataRef (sq_data_path r) (sq_data_url r))
    (sq_key r) (sq_detached r) (sq_with_timestamp r) (sq_tsa_url r) (sq_no_check_cert_time r)
    (sq_input_pem r) (sq_output_pem r) [] (sq_node_id r) (sq_parent_node r) (sq_parent_ns r) (sq_existing r) in
  if negb (empty_str (sq_format r)) || empty_str (sq_policy r)
  then (let? f := parseFormat (sq_format r) in Ok (input f))%res
  else Ok (input (FormatOther "")).

Record VerifyRequest := mkVerifyRequest {
  vq_format : string; vq_signature : string; vq_data : string; vq_data_path : string; vq_data_url : string;
  vq_detached : bool; vq_input_pem : bool; vq_check_cert_time : bool; vq_extract_content : bool;
  vq_claims : bool; vq_explain : bool; vq_report : bool; vq_receipt : bool; vq_trusted : list TrustedCert;
  vq_revocation_check : option bool; vq_revocation_method : string; vq_responder : string; vq_archive : bool;
}.
Definition verify_ToCore (r : VerifyRequest) : res goerr VerifyInput :=
  (let? f := parseFormat (vq_format r) in
   Ok (mkVerifyInput f (vq_signature r) (vq_data r) (mkDataRef (vq_data_path r) (vq_data_url r))
     (vq_detached r) (vq_input_pem r) (vq_check_cert_time r) (vq_extract_content r) (vq_claims r)
     (vq_explain r) (vq_report r) (vq_receipt r) (vq_trusted r) (vq_revocation_check r)
     (method_of (vq_revocation_method r)) (vq_responder r) (vq_archive r)))%res.

Record RegistryItemRequest := mkRegistryRequest { rq_ref : string; rq_verify : VerifyRequest }.
Definition RegistryItemToCore (r : RegistryItemRequest) : res goerr RegistryItem :=
  (let? i := verify_ToCore (rq_verify r) in Ok (mkRegItem (rq_ref r) i))%res.

Record ArchiveRequest := mkArchiveRequest {
  aq_signature : string; aq_input_pem : bool; aq_data : string; aq_detached : bool; aq_responder : string;
  aq_output_pem : bool; aq_trusted : list TrustedCert; aq_allow_revoked : bool;
}.
Definition archive_ToCore (r : ArchiveRequest) : ArchiveInput :=
  mkArchiveInput (aq_signature r) (aq_input_pem r) (aq_data r) (aq_detached r) (aq_responder r)
    (aq_trusted r) (aq_output_pem r) (aq_allow_revoked r).

(** The responder of the outer struct hides the embedded one in JSON. *)
Record VerifyAtRequest := mkVerifyAtRequest {
  tq_verify : VerifyRequest; tq_at : time; tq_method : string; tq_crl : string; tq_responder : string;
}.
Definition verify_at_ToCore (r : VerifyAtRequest) : res goerr VerifyAtInput :=
  (let? i := verify_ToCore (tq_verify r) in
   Ok (mkVerifyAtInput i (tq_at r) (parseMethod (tq_method r)) (tq_crl r) (tq_responder r)))%res.

Record ExtractRequest := mkExtractRequest { eq_format : string; eq_signature : string; eq_data : string }.
Record ExtractInput := mkExtractInput { xi_format : SignatureFormat; xi_signature : string; xi_data : string }.
Definition extract_ToCore (r : ExtractRequest) : res goerr ExtractInput :=
  (let? f := parseFormat (eq_format r) in Ok (mkExtractInput f (eq_signature r) (eq_data r)))%res.

Record CertInfoRequest := mkCertInfoRequest {
  cq_cert : string; cq_key : KeySpec; cq_encoding : string; cq_build_chain : bool; cq_validate : bool;
  cq_claims : bool; cq_method : string; cq_trusted : list TrustedCert;
}.
Definition CertInfoToCore (r : CertInfoRequest) : CertInfoInput :=
  mkCertInfoInput (cq_cert r) (cq_key r) (parseEncoding (cq_encoding r)) (cq_build_chain r)
    (cq_validate r) (cq_claims r) (parseMethod (cq_method r)) (cq_trusted r).

Record ValidateRequest := mkValidateRequest {
  vr_cert : string; vr_encoding : string; vr_method : string; vr_want_ocsp : bool; vr_responder : string;
  vr_crl : string; vr_trusted : list TrustedCert;
}.
Definition ValidateToCore (r : ValidateRequest) : ValidateInput :=
  mkValidateInput (vr_cert r) (parseEncoding (vr_encoding r)) (parseMethod (vr_method r)) time_zero
    (vr_want_ocsp r) (vr_trusted r) (vr_responder r) (vr_crl r).

(** batch.go *)
Record BatchRequest (R : Type) := mkBatchRequest { bq_items : list R; bq_policy : string; bq_concurrency : Z }.
Arguments bq_items {R}. Arguments bq_policy {R}. Arguments bq_concurrency {R}. Arguments mkBatchRequest {R}.
Definition policy_of (s : string) : BatchPolicy :=
  if str_eqb s "continue-on-error" then PolicyContinue
  else if str_eqb s "fail-fast" then PolicyFailFast else PolicyOther s.
Definition Options {R} (b : BatchRequest R) : BatchOptions :=
  mkBatchOptions (policy_of (bq_policy b)) (bq_concurrency b).

Fixpoint BatchItems_from {R I} (conv : R -> res goerr I) (i : Z) (items : list R) : res goerr (list I) :=
  match items with
  | [] => Ok []
  | r :: t =>
      match conv r with
      | Err e => Err (Wrap ("items[" ++ dec_of_Z i ++ "]: ") e)
      | Ok x => (let? l := BatchItems_from conv (i + 1) t in Ok (x :: l))%res
      end
  end.
Definition BatchItems {R I} (items : list R) (conv : R -> res goerr I) : res goerr (list I) :=
  BatchItems_from conv 0 items.

(** A batch is mapped item by item, or refused whole at its first bad item. *)
Lemma BatchItems_spec {R I} (conv : R -> res goerr I) items :
  match BatchItems items conv with
  | Ok l => Forall2 (fun r x => conv r = Ok x) items l
  | Err _ => exists r e, r ∈ items /\ conv r = Err e
  end.
Proof.
  unfold BatchItems. generalize 0. induction items as [|r items IH]; intros i; cbn [BatchItems_from]; [constructor|].
  destruct (conv r) as [x|e] eqn:E; [|exists r, e; split; [left|done]].
  specialize (IH (i + 1)). destruct (BatchItems_from conv (i + 1) items) as [l|e]; cbn [rbind].
  - by constructor.
  - destruct IH as (r' & e' & Hr & He). exists r', e'. split; [by right|done].
Qed.
End Dto.

Module Dispatch.
Import Dto.

(** [Ops] and [Valid]. *)
Definition Ops : list string :=
  ["sign"; "verify"; "verify-at"; "archive"; "extract"; "cert-info"; "cert-validate";
   "sign-batch"; "verify-batch"; "extract-batch"; "cert-info-batch"; "cert-validate-batch"]%string.
Definition Valid (op : string) : bool := existsb (fun o => str_eqb o op) Ops.

Fixpoint has_suffix (p s : string) : bool :=
  str_eqb p s || match s with EmptyString => false | String _ t => has_suffix p t end.
Definition is_batch (op : string) : bool := has_suffix "-batch" op.

(** ** Outputs, as the transports marshal them *)
Inductive output :=
| OSign (o : SignOutput) | OVerify (o : VerifyOutput) | OVerifyAt (o : VerifyAtOutput)
| OArchive (o : ArchiveOutput) | OExtract (o : ExtractOutput) | OInfo (o : CertInfoOutput)
| OValidate (o : ValidateOutput)
| OSignBatch (o : BatchOutput SignOutput) | OVerifyBatch (o : BatchOutput VerifyOutput)
| OExtractBatch (o : BatchOutput ExtractOutput) | OInfoBatch (o : BatchOutput CertInfoOutput)
| OValidateBatch (o : BatchOutput ValidateOutput)
| OSignItem (o : BatchItem SignOutput) | OVerifyItem (o : BatchItem VerifyOutput)
| OExtractItem (o : BatchItem ExtractOutput) | OInfoItem (o : BatchItem CertInfoOutput)
| OValidateItem (o : BatchItem ValidateOutput)
| OSummary (total succeeded failed : Z).

(** A batch port: the items its sink received, in order, and what it returned. *)
Definition batch_port (W I O : Type) : Type :=
  list I -> BatchOptions -> M W (list (BatchItem O) * BatchOutput O).

(** The domain service, as the router calls it. *)
Record core_ops (W : Type) := mkCoreOps {
  op_sign : SignInput -> M W (SignOutput * option goerr);
  op_verify : VerifyInput -> M W (VerifyOutput * option goerr);
  op_verify_at : VerifyAtInput -> M W (VerifyAtOutput * option goerr);
  op_archive : ArchiveInput -> M W (ArchiveOutput * option goerr);
  op_extract : ExtractInput -> M W (ExtractOutput * option goerr);
  op_info : CertInfoInput -> M W (CertInfoOutput * option goerr);
  op_validate : ValidateInput -> M W (ValidateOutput * option goerr);
  op_sign_batch : batch_port W SignInput SignOutput;
  op_verify_batch : batch_port W VerifyInput VerifyOutput;
  op_extract_batch : batch_port W ExtractInput ExtractOutput;
  op_info_batch : batch_port W CertInfoInput CertInfoOutput;
  op_validate_batch : batch_port W ValidateInput ValidateOutput;
}.
Arguments op_sign {W}. Arguments op_verify {W}. Arguments op_verify_at {W}. Arguments op_archive {W}.
Arguments op_extract {W}. Arguments op_info {W}. Arguments op_validate {W}. Arguments op_sign_batch {W}.
Arguments op_verify_batch {W}. Arguments op_extract_batch {W}. Arguments op_info_batch {W}.
Arguments op_validate_batch {W}.

(** [json.Unmarshal] at the request types. *)
Record decoders := mkDecoders {
  de_sign : string -> option SignRequest; de_verify : string -> option VerifyRequest;
  de_verify_at : string -> option VerifyAtRequest; de_archive : string -> option ArchiveRequest;
  de_extract : string -> option ExtractRequest; de_info : string -> option CertInfoRequest;
  de_validate : string -> option ValidateRequest;
  de_sign_batch : string -> option (BatchRequest SignRequest);
  de_verify_batch : string -> option (BatchRequest VerifyRequest);
  de_extract_batch : string -> option (BatchRequest ExtractRequest);
  de_info_batch : string -> option (BatchRequest CertInfoRequest);
  de_validate_batch : string -> option (BatchRequest ValidateRequest);
}.

Definition invalid (op : string) : goerr := Domain KindInvalid op None.

Section Router.
  Context {W : Type}.
  Variable svc : core_ops W.
  Variable dec : decoders.

(** One operation: the decoded request, its input, the call. *)
Definition single {R I O} (decode : string -> option R) (conv : R -> res goerr I)
    (call : I -> M W (O * option goerr)) (wrap : O -> output) (name payload : string) : M W (res goerr output) :=
  match decode payload with
  | None => mret (Err (invalid name))
  | Some r =>
      match conv r with
      | Err _ => mret (Err (invalid name))
      | Ok i => (let* (o, err) := call i in
                 mret match err with Some e => Err e | None => Ok (wrap o) end)%m
      end
  end.
(** [handleBatch], and [streamBatch] up to its emissions. *)
Definition batch {R I O} (decode : string -> option (BatchRequest R)) (conv : R -> res goerr I)
    (run : batch_port W I O) (name payload : string) : M W (res goerr (list (BatchItem O) * BatchOutput O)) :=
  match decode payload with
  | None => mret (Err (invalid name))
  | Some r =>
      match BatchItems (bq_items r) conv with
      | Err _ => mret (Err (invalid name))
      | Ok items => (let* out := run items (Options r) in mret (Ok out))%m
      end
  end.
Definition aggregate {O} (wrap : BatchOutput O -> output)
    (m : M W (res goerr (list (BatchItem O) * BatchOutput O))) : M W (res goerr output) :=
  (let* r := m in mret match r with Err e => Err e | Ok (_, out) => Ok (wrap out) end)%m.
Definition stream {O} (wrap : BatchItem O -> output)
    (m : M W (res goerr (list (BatchItem O) * BatchOutput O))) : M W (list output * option goerr) :=
  (let* r := m in
   mret match r with
        | Err e => ([], Some e)
        | Ok (sunk, out) =>
            (map wrap sunk ++ [OSummary (bo_total out) (bo_succeeded out) (bo_failed out)], None)
        end)%m.

Definition info_conv (r : CertInfoRequest) : res goerr CertInfoInput := Ok (CertInfoToCore r).
Definition validate_conv (r : ValidateRequest) : res goerr ValidateInput := Ok (ValidateToCore r).
Definition archive_conv (r : ArchiveRequest) : res goerr ArchiveInput := Ok (archive_ToCore r).

Definition sign_batch := batch (de_sign_batch dec) sign_ToCore (op_sign_batch svc) "SignBatch".
Definition verify_batch := batch (de_verify_batch dec) verify_ToCore (op_verify_batch svc) "VerifyBatch".
Definition extract_batch := batch (de_extract_batch dec) extract_ToCore (op_extract_batch svc) "ExtractBatch".
Definition info_batch := batch (de_info_batch dec) info_conv (op_info_batch svc) "CertInfoBatch".
Definition validate_batch := batch (de_validate_batch dec) validate_conv (op_validate_batch svc) "ValidateBatch".

(** [Handle]. *)
Definition Handle (op payload : string) : M W (res goerr output) :=
  let named := str_eqb op in
  if named "sign" then single (de_sign dec) sign_ToCore (op_sign svc) OSign "Sign" payload
  else if named "verify" then single (de_verify dec) verify_ToCore (op_verify svc) OVerify "Verify" payload
  else if named "verify-at" then
    single (de_verify_at dec) verify_at_ToCore (op_verify_at svc) OVerifyAt "VerifyAt" payload
  else if named "archive" then single (de_archive dec) archive_conv (op_archive svc) OArchive "Archive" payload
  else if named "extract" then single (de_extract dec) extract_ToCore (op_extract svc) OExtract "Extract" payload
  else if named "cert-info" then single (de_info dec) info_conv (op_info svc) OInfo "CertInfo" payload
  else if named "cert-validate" then
    single (de_validate dec) validate_conv (op_validate svc) OValidate "Validate" payload
  else if named "sign-batch" then aggregate OSignBatch (sign_batch payload)
  else if named "verify-batch" then aggregate OVerifyBatch (verify_batch payload)
  else if named "extract-batch" then aggregate OExtractBatch (extract_batch payload)
  else if named "cert-info-batch" then aggregate OInfoBatch (info_batch payload)
  else if named "cert-validate-batch" then aggregate OValidateBatch (validate_batch payload)
  else mret (Err (invalid "dispatch")).

(** [HandleStreaming]: what it emits, in order, and its error. The consumer's
    [emit] touches nothing of the domain, so the emissions are collected. *)
Definition HandleStreaming (op payload : string) : M W (list output * option goerr) :=
  let named := str_eqb op in
  if negb (is_batch op) then
    (let* r := Handle op payload in
     mret match r with Err e => ([], Some e) | Ok out => ([out], None) end)%m
  else if named "sign-batch" then stream OSignItem (sign_batch payload)
  else if named "verify-batch" then stream OVerifyItem (verify_batch payload)
  else if named "extract-batch" then stream OExtractItem (extract_batch payload)
  else if named "cert-info-batch" then stream OInfoItem (info_batch payload)
  else if named "cert-validate-batch" then stream OValidateItem (validate_batch payload)
  else mret ([], Some (invalid op)).

(** What the batch ports are relied on for, as runBatch provides it: one result
    for each item, the sink got the items that ran, the counters count them. *)
Definition run_law {I O} (run : batch_port W I O) : Prop :=
  forall items opts w w' sunk out, run items opts w = Done (w', (sunk, out)) ->
    length (bo_results out) = length items /\ sunk ≡ₚ filter ran (bo_results out) /\
    bo_total out = Z.of_nat (length items) /\
    bo_succeeded out = counted ItemOK (bo_results out) /\ bo_failed out = counted ItemError (bo_results out).
Record batch_laws : Prop := {
  bl_sign : run_law (op_sign_batch svc); bl_verify : run_law (op_verify_batch svc);
  bl_extract : run_law (op_extract_batch svc); bl_info : run_law (op_info_batch svc);
  bl_validate : run_law (op_validate_batch svc);
}.
End Router.

(** ** Streaming and aggregating answer the same *)
(** The items an aggregated output says ran, and its counts. *)
Definition run_items (o : output) : list output :=
  match o with
  | OSignBatch b => map OSignItem (filter ran (bo_results b))
  | OVerifyBatch b => map OVerifyItem (filter ran (bo_results b))
  | OExtractBatch b => map OExtractItem (filter ran (bo_results b))
  | OInfoBatch b => map OInfoItem (filter ran (bo_results b))
  | OValidateBatch b => map OValidateItem (filter ran (bo_results b))
  | _ => []
  end.
Definition summary (o : output) : output :=
  let of_ {O} (b : BatchOutput O) := OSummary (bo_total b) (bo_succeeded b) (bo_failed b) in
  match o with
  | OSignBatch b => of_ b | OVerifyBatch b => of_ b | OExtractBatch b => of_ b
  | OInfoBatch b => of_ b | OValidateBatch b => of_ b
  | o => o
  end.

Section Agreement.
  Context {W : Type}.
  Variable svc : core_ops W.
  Variable dec : decoders.

(** What a stream owes the aggregated answer of the same call. *)
Definition agrees (batch : bool) (emitted : list output) (err : option goerr) (r : res goerr output) : Prop :=
  match r with
  | Err e => emitted = [] /\ err = Some e
  | Ok out =>
      err = None /\
      if batch then exists items, emitted = items ++ [summary out] /\ items ≡ₚ run_items out
      else emitted = [out]
  end.

Lemma stream_agrees {I O} (run : batch_port W I O) (wrap : BatchItem O -> output) (whole : BatchOutput O -> output)
    {R} (decode : string -> option (BatchRequest R)) (conv : R -> res goerr I) name payload w w' emitted err :
  run_law run ->
  (forall b, run_items (whole b) = map wrap (filter ran (bo_results b))) ->
  (forall b, summary (whole b) = OSummary (bo_total b) (bo_succeeded b) (bo_failed b)) ->
  stream wrap (batch decode conv run name payload) w = Done (w', (emitted, err)) ->
  exists r, aggregate whole (batch decode conv run name payload) w = Done (w', r) /\ agrees true emitted err r.
Proof.
  intros Hlaw Hi Hs (w1 & r & Hb & Hk)%mbind_done. apply mret_done in Hk as [-> Hk].
  unfold aggregate. setoid_rewrite mbind_done. destruct r as [[sunk out]|e].
  - injection Hk as -> ->. exists (Ok (whole out)). split; [by exists w1, (Ok (sunk, out))|].
    split; [done|]. exists (map wrap sunk). rewrite Hi, Hs. split; [done|]. apply Permutation_map.
    unfold batch in Hb. destruct (decode payload) as [rq|]; [|by apply mret_done in Hb as [_ ?]].
    destruct (BatchItems (bq_items rq) conv) as [items|]; [|by apply mret_done in Hb as [_ ?]].
    apply mbind_done in Hb as (w2 & [s o] & Hr & Hk). apply mret_done in Hk as [-> [= -> ->]].
    by apply Hlaw in Hr as (_ & Hp & _).
  - injection Hk as -> ->. exists (Err e). split; [by exists w1, (Err e)|]. done.
Qed.

(** A message transport and a request transport give the same answer. For
    every supported operation, streaming runs the same calls with the same
    errors as the aggregated form: a single operation emits its one output, a
    batch emits each item that ran once, in some order, then the counts of the
    aggregated result. *)
Theorem streaming_agrees op payload w w' emitted err :
  batch_laws svc -> Valid op = true ->
  HandleStreaming svc dec op payload w = Done (w', (emitted, err)) ->
  exists r, Handle svc dec op payload w = Done (w', r) /\ agrees (is_batch op) emitted err r.
Proof.
  intros [L1 L2 L3 L4 L5] (o & Ho & ->%str_eqb_eq)%existsb_elem H.
  unfold Ops in Ho. rewrite !elem_of_cons, elem_of_nil in Ho.
  destruct Ho as [->|[->|[->|[->|[->|[->|[->|[->|[->|[->|[->|[->|[]]]]]]]]]]]]];
    lazymatch type of H with
    | HandleStreaming _ _ ?o _ _ = _ =>
        lazymatch eval vm_compute in (is_batch o) with
        | true => idtac
        | false =>
            apply mbind_done in H as (w1 & r & Hh & Hk); apply mret_done in Hk as [-> Hk]; exists r;
            split; [exact Hh|]; destruct r; injection Hk as -> ->; done
        end
    end.
  - by apply (stream_agrees (op_sign_batch svc) OSignItem OSignBatch).
  - by apply (stream_agrees (op_verify_batch svc) OVerifyItem OVerifyBatch).
  - by apply (stream_agrees (op_extract_batch svc) OExtractItem OExtractBatch).
  - by apply (stream_agrees (op_info_batch svc) OInfoItem OInfoBatch).
  - by apply (stream_agrees (op_validate_batch svc) OValidateItem OValidateBatch).
Qed.
End Agreement.

(** Two of the single operations have no batch form. *)
Example no_batch_companion : Valid "verify-at-batch" = false /\ Valid "archive-batch" = false.
Proof. split; reflexivity. Qed.

(** ** A concrete domain: batches one item after the other *)
Section Sequential.
  Context {W I O : Type} (call : I -> M W (O * option goerr)).

Fixpoint run_from (i : nat) (items : list I) : M W (list (BatchItem O)) :=
  match items with
  | [] => mret []
  | x :: t =>
      (let* (o, err) := call x in
       let* rest := run_from (S i) t in
       mret (item_of i (match err with Some e => Err e | None => Ok o end) :: rest))%m
  end.
Definition run_in_order : batch_port W I O := fun items _ =>
  (let* l := run_from 0 items in
   mret (l, mkBatchOutput (Z.of_nat (length items)) (counted ItemOK l) (counted ItemError l) l))%m.

Lemma run_from_ran items i w w' l :
  run_from i items w = Done (w', l) -> length l = length items /\ filter ran l = l.
Proof.
  revert i w w' l. induction items as [|x t IH]; intros i w w' l; cbn [run_from]; [by intros [_ ->]%mret_done|].
  intros (w1 & [o err] & _ & (w2 & rest & Hr & [_ ->]%mret_done)%mbind_done)%mbind_done.
  apply IH in Hr as [Hl Hf]. cbn [length]. split; [lia|]. rewrite filter_cons_True by apply item_of_ran.
  by rewrite Hf.
Qed.
Lemma run_in_order_law : run_law run_in_order.
Proof.
  intros items opts w w' sunk out (w1 & l & Hl & [_ E]%mret_done)%mbind_done. injection E as -> ->. cbn.
  apply run_from_ran in Hl as [Hl Hf]. split_and!; try done. by rewrite Hf.
Qed.
End Sequential.

Definition lab_validate (i : ValidateInput) : M unit (ValidateOutput * option goerr) :=
  mret (mkValidateOutput empty_revocation "" "" [] None,
        if empty_str (va_cert i) then Some (Domain KindInvalid "Validate" None) else None).
Definition lab_none {I O} (o : O) (_ : I) : M unit (O * option goerr) := mret (o, Some ErrUnsupported).
Definition lab_sign_out : SignOutput := mkSignOutput "" FormatCMS None "" None.
Definition lab_verify_out : VerifyOutput := mkVerifyOutput false FormatCMS false [] "" [] None None None "" None.
Definition lab_ops : core_ops unit :=
  mkCoreOps unit (lab_none lab_sign_out) (lab_none lab_verify_out) (lab_none no_verdict)
    (lab_none empty_archive) (lab_none (mkExtract "" false None)) (lab_none no_info) lab_validate
    (run_in_order (lab_none lab_sign_out)) (run_in_order (lab_none lab_verify_out))
    (run_in_order (lab_none (mkExtract "" false None))) (run_in_order (lab_none no_info))
    (run_in_order lab_validate).
(** Every payload is a batch of one certificate and one without. *)
Definition lab_request (cert : string) : ValidateRequest := mkValidateRequest cert "" "" false "" "" [].
Definition lab_dec : decoders :=
  mkDecoders (fun _ => None) (fun _ => None) (fun _ => None) (fun _ => None) (fun _ => None) (fun _ => None)
    (fun p => Some (lab_request p)) (fun _ => None) (fun _ => None) (fun _ => None) (fun _ => None)
    (fun p => Some (mkBatchRequest [lab_request p; lab_request ""] "" 0)).
Lemma lab_laws : batch_laws lab_ops.
Proof. constructor; apply run_in_order_law. Qed.

Definition lab_items : list (BatchItem ValidateOutput) :=
  [item_of 0 (Ok (mkValidateOutput empty_revocation "" "" [] None));
   item_of 1 (Err (Domain KindInvalid "Validate" None))].

Lemma streaming_agrees_witness :
  HandleStreaming lab_ops lab_dec "cert-validate-batch" "C" tt =
    Done (tt, (map OValidateItem lab_items ++ [OSummary 2 1 1], None)) /\
  exists r, Handle lab_ops lab_dec "cert-validate-batch" "C" tt = Done (tt, r) /\
    agrees true (map OValidateItem lab_items ++ [OSummary 2 1 1]) None r.
Proof.
  assert (HandleStreaming lab_ops lab_dec "cert-validate-batch" "C" tt =
    Done (tt, (map OValidateItem lab_items ++ [OSummary 2 1 1], None))) as E by reflexivity.
  split; [exact E|].
  exact (streaming_agrees lab_ops lab_dec "cert-validate-batch" "C" tt tt _ _ lab_laws eq_refl E).
Defined.
End Dispatch.
