(* ===== verification/IdemPort.v ===== *)
(** * What the transports ask of the idempotency cache

    [IdemPort] is the one operation they call, with its contract: a replayed
    answer runs nothing and is one that an earlier success stored under the same
    key. The cache of Idempotency is an instance. The middleware of the
    transports (Mq, HttpIdem) is proved against the class. *)
From S2P Require Import Prelude Errors Idempotency.
Open Scope Z_scope.

(** [Do] with the work as a computation; a panic of the work is [WPanic]. *)
Class IdemPort (W C : Type) := {
  ic_do : string -> M W work -> M (W * C) do_result;
}.

(** What a work did, as an answer. *)
Definition answer_of (wk : work) : res goerr string :=
  match runGuarded wk with (d, None) => Ok d | (_, Some e) => Err e end.
Definition gave_up (e : goerr) : Prop := e = ctx_canceled \/ e = ctx_deadline.

(** [ic_holds P c]: every answer the cache may replay satisfies [P] at its key.
    The contract: works whose answers satisfy [P] keep that; a call answers
    what some work answered under its key, unless it gave up waiting for
    another call; a call that is not replayed ran its work and reports what it
    did, and one that is replayed did nothing to the world. [ic_held c key d exp]:
    [d] is stored under [key] until [exp]; till then calls replay it, and the
    answer of a call that succeeded is stored, for [ic_ttl] if it ran its work. *)
Class IdemLaws (W C : Type) `{IdemPort W C} := {
  ic_holds : (string -> res goerr string -> Prop) -> C -> Prop;
  ic_do_law : forall (P : string -> res goerr string -> Prop) key fn w c w' c' d replayed err,
    ic_holds P c -> key <> ""%string ->
    (forall w0 w1 wk, fn w0 = Done (w1, wk) -> P key (answer_of wk)) ->
    ic_do key fn (w, c) = Done ((w', c'), (d, replayed, err)) ->
    ic_holds P c' /\
    match err with None => P key (Ok d) | Some e => P key (Err e) \/ gave_up e end /\
    (replayed = true -> w' = w) /\
    (replayed = false ->
       (exists wk, fn w = Done (w', wk) /\ (d, replayed, err) = own_result wk) \/
       (w' = w /\ exists e, err = Some e /\ gave_up e));
  ic_now : W -> time;
  ic_ttl : C -> duration;
  ic_held : C -> string -> string -> time -> Prop;
  ic_hit_law : forall key fn w c d exp, key <> ""%string -> ic_held c key d exp -> ic_now w < exp ->
    exists c', ic_do key fn (w, c) = Done ((w, c'), (d, true, None)) /\ ic_held c' key d exp;
  ic_store_law : forall P key fn w c w' c' d replayed, ic_holds P c -> key <> ""%string ->
    ic_do key fn (w, c) = Done ((w', c'), (d, replayed, None)) ->
    exists exp, ic_held c' key d exp /\ (replayed = false -> exp = ic_now w' + ic_ttl c);
}.

(** ** The cache of Idempotency *)
Section Cache.
  Context {W : Type}.
  Variable now : W -> time.

(** The call of one client that no other call overlaps; should it meet a call in
    flight, it waits until its context ends. *)
Definition cache_do (key : string) (fn : M W work) : M (W * cache) do_result :=
  if empty_str key then
    (let* wk := in_world fn in let '(d, e) := runGuarded wk in mret (d, false, e))%m
  else
    (let* t := mget (fun s => now (fst s)) in
     let* v := in_store (fun c => enter c t key) in
     match v with
     | Replay d => mret (d, true, None)
     | Wait i =>
         let* r := in_store (fun c => (c, coalesced_result c i)) in
         mret (match r with Some r => r | None => (""%string, false, Some ctx_canceled) end)
     | Run i =>
         let* wk := in_world fn in
         let* t2 := mget (fun s => now (fst s)) in
         let* _ := in_store (fun c => (close_done (settle c t2 i wk) i, tt)) in
         mret (own_result wk)
     end)%m.

#[global] Instance CachePort : IdemPort W cache := {| ic_do := cache_do |}.

(** Every entry that succeeded satisfies the predicate at its own key. *)
Definition entries_hold (P : string -> res goerr string -> Prop) (c : cache) : Prop :=
  cache_ok c /\
  forall i e, heap c !! i = Some e -> e_done e = true -> e_err e = None -> P (e_key e) (Ok (e_data e)).

Lemma removeLocked_hold P c i key :
  entries_hold P c -> byKey c !! key = Some i -> entries_hold P (removeLocked c i).
Proof.
  intros [Hc Hh] Hb. split; [by eapply removeLocked_byKey|].
  intros j e. rewrite (proj1 (proj2 (proj2 (removeLocked_same c i)))). apply Hh.
Qed.

Lemma register_hold P c key c' i :
  entries_hold P c -> byKey c !! key = None -> register c key = (c', i) ->
  entries_hold P c' /\ byKey c' !! key = Some i /\ heap c' !! i = Some (Entry key false "" None time_zero).
Proof.
  intros [Hc Hh] Hb Hr. pose proof (register_spec _ _ _ _ Hc Hb Hr) as (H1 & _ & _ & _ & _ & _ & Hheap & _).
  split; [split; [done|]|split; [exact (register_tracked _ _ _ _ Hc Hb Hr)|by rewrite Hheap, lookup_insert_eq]].
  intros j e. rewrite Hheap. destruct (decide (j = i)) as [->|Hn].
  - rewrite lookup_insert_eq. by intros [= <-].
  - rewrite lookup_insert_ne by done. apply Hh.
Qed.

(** The entry section: a replay satisfies the predicate, a run owns a fresh
    entry, a wait changes nothing. *)
Lemma enter_hold P c t key c' v :
  entries_hold P c -> enter c t key = (c', v) ->
  entries_hold P c' /\
  match v with
  | Replay d => P key (Ok d)
  | Wait i => exists e, heap c' !! i = Some e /\ e_key e = key /\ e_done e = false
  | Run i => byKey c' !! key = Some i /\ heap c' !! i = Some (Entry key false "" None time_zero)
  end.
Proof.
  intros Hh He. pose proof Hh as [Hc Hp].
  destruct (enter_cases _ _ _ _ _ Hc He) as (Hc' & _ & _ & [(i & e & Hb & Hi & Hcase)|(Hb & j & -> & Hr)]).
  - destruct (ok_key _ Hc _ _ Hb) as (e0 & He0 & Hk). assert (e0 = e) as -> by congruence.
    destruct Hcase as [(Hd & _ & -> & _ & Hheap & _)|[(Hd & -> & ->)|(Hd & _ & j & -> & Hr)]].
    + split; [split; [done|by rewrite Hheap]|]. rewrite <- Hk. apply (Hp i); [done..|].
      apply (ok_success _ Hc i); [|done]. by eapply tracked_in_lru.
    + split; [done|]. by exists e.
    + destruct (removeLocked_byKey _ _ _ Hc Hb) as [_ Hb'].
      eapply register_hold; [by eapply removeLocked_hold|rewrite Hb'; apply lookup_delete_eq|exact Hr].
  - by eapply register_hold.
Qed.

(** The work's section: what it stored satisfies the predicate if it succeeded. *)
Lemma settle_close_hold P c t i key wk :
  entries_hold P c -> byKey c !! key = Some i -> heap c !! i = Some (Entry key false "" None time_zero) ->
  P key (answer_of wk) -> entries_hold P (close_done (settle c t i wk) i).
Proof.
  intros [Hc Hp] Hb Hi Hwk. split; [by apply close_done_ok, settle_ok|].
  destruct (settle_effect c t i wk _ Hi) as [_ Ho]. intros j e Hj Hd He.
  destruct (decide (j = i)) as [->|Hn].
  2:{ rewrite close_done_other in Hj by done. apply (Hp j); [|done..]. by rewrite <- (Ho j). }
  assert (exists x, heap (settle c t i wk) !! i = Some x /\ e_key x = key /\ e_err x = snd (runGuarded wk) /\
            (snd (runGuarded wk) = None -> e_data x = fst (runGuarded wk))) as (x & Hx & Hk & Hxe & Hxd).
  { unfold settle. rewrite Hi. destruct (runGuarded wk) as [d [err|]].
    - exists (Entry key false "" (Some err) time_zero). split; [|done]. case_bool_decide.
      + rewrite (proj1 (proj2 (proj2 (removeLocked_same _ _)))). apply lookup_insert_eq.
      + apply lookup_insert_eq.
    - eexists. split; [apply lookup_insert_eq|done]. }
  unfold close_done in Hj. rewrite Hx in Hj. cbn [heap set_entry] in Hj. rewrite lookup_insert_eq in Hj.
  injection Hj as <-. cbn [e_key e_data e_err] in *. rewrite Hk, Hxd by congruence.
  unfold answer_of in Hwk. destruct (runGuarded wk) as [d [err|]]; cbn in *; congruence || done.
Qed.

(** The key has a finished entry with the data, which lives that long. *)
Definition held (c : cache) (key d : string) (exp : time) : Prop :=
  exists i e, byKey c !! key = Some i /\ heap c !! i = Some e /\ e_done e = true /\ e_data e = d /\
    (is_zero (e_expiry e) = true \/ exp <= e_expiry e).

Lemma held_replays key fn w c d exp :
  key <> ""%string -> held c key d exp -> now w < exp ->
  exists c', cache_do key fn (w, c) = Done ((w, c'), (d, true, None)) /\ held c' key d exp.
Proof.
  intros Hne (i & e & Hb & Hh & Hd & <- & Hx) Ht. unfold cache_do.
  rewrite (proj2 (str_eqb_neq _ _) Hne : empty_str key = false).
  assert (fresh e (now w) = true) as Hf.
  { unfold fresh, before. apply orb_true_iff. destruct Hx as [?|?]; [by left|right; lia]. }
  eexists. unfold mbind_, mget, in_store. cbn [fst]. unfold enter. rewrite Hb, Hh, Hd, Hf. split; [reflexivity|].
  by exists i, e.
Qed.

Lemma answer_held P key fn w c w' c' d replayed :
  entries_hold P c -> key <> ""%string -> cache_do key fn (w, c) = Done ((w', c'), (d, replayed, None)) ->
  exists exp, held c' key d exp /\ (replayed = false -> exp = now w' + ttl c).
Proof.
  intros [Hc Hp] Hne H. unfold cache_do in H. rewrite (proj2 (str_eqb_neq _ _) Hne : empty_str key = false) in H.
  apply mbind_done in H as (s1 & t & [= <- <-] & H). cbn [fst] in H.
  apply mbind_done in H as ([w1 c1] & v & [-> He]%in_store_done & H).
  destruct (enter_cases _ _ _ _ _ Hc He) as (Hc1 & Ht & _ & Hcase). destruct v as [d0|i|i].
  - apply mret_done in H as [[= -> ->] [= -> ->]].
    destruct Hcase as [(i & e & Hb & Hi & [(Hd & Hf & [= ->] & Hb' & Hh' & _)|[(_ & [=] & _)|(_ & _ & j & [=] & _)]])|(_ & j & [=] & _)].
    exists (e_expiry e). split; [|done]. exists i, e. rewrite Hb', Hh'. split_and!; [done..|]. right. lia.
  - destruct Hcase as [(j & e & Hb & Hi & [(_ & _ & [=] & _)|[(Hd & [= ->] & ->)|(_ & _ & j' & [=] & _)]])|(_ & j & [=] & _)].
    apply mbind_done in H as ([w2 c2] & r & [-> Hr]%in_store_done & H). injection Hr as <- <-.
    unfold coalesced_result in H. rewrite Hi, Hd in H. by apply mret_done in H as [_ [=]].
  - destruct (enter_hold (fun _ _ => True) c (now w) key c1 (Run i)) as [_ [Hb Hi]]; [split; auto|done|].
    apply mbind_done in H as ([w2 c2] & wk & [-> Hw]%in_world_done & H).
    apply mbind_done in H as (s3 & t2 & [= <- <-] & H). cbn [fst] in H.
    apply mbind_done in H as ([w4 c4] & [] & [-> Hs]%in_store_done & H). injection Hs as <-.
    apply mret_done in H as [[= -> ->] Hr].
    destruct (finished_ok c1 i key (now w2) wk _ Hc1 Hb Hi eq_refl) as [_ Hfin].
    unfold own_result in Hr. destruct (runGuarded wk) as [d1 [e|]]; [done|]. injection Hr as -> ->.
    destruct Hfin as (Hb' & e' & He' & Hd' & Hdata & Hexp). exists (now w2 + ttl c). split; [|done].
    exists i, e'. split_and!; [done..|]. right. rewrite Hexp, Ht. lia.
Qed.

#[global] Instance CacheLaws : IdemLaws W cache.
Proof.
  refine {| ic_holds := entries_hold; ic_now := now; ic_ttl := ttl; ic_held := held |};
    [|by apply held_replays|by apply answer_held].
  intros P key fn w c w' c' d replayed err Hh Hne Hfn H. cbn [ic_do CachePort] in H. unfold cache_do in H.
  rewrite (proj2 (str_eqb_neq _ _) Hne : empty_str key = false) in H.
  apply mbind_done in H as (s1 & t & [= <- <-] & H). cbn [fst] in H.
  apply mbind_done in H as ([w1 c1] & v & [-> He]%in_store_done & H).
  destruct (enter_hold _ _ _ _ _ _ Hh He) as [Hh1 Hv]. destruct v as [d0|i|i].
  - apply mret_done in H as [[= -> ->] [= -> -> ->]]. split; [done|]. by split_and!.
  - destruct Hv as (e & Hi & _ & Hd). apply mbind_done in H as ([w2 c2] & r & [-> Hr]%in_store_done & H).
    injection Hr as <- <-. unfold coalesced_result in H. rewrite Hi, Hd in H.
    apply mret_done in H as [[= -> ->] [= -> -> ->]]. split; [done|].
    split_and!; [right; by left|done|]. intros _. right. split; [done|]. eexists. split; [done|by left].
  - destruct Hv as [Hb Hi]. apply mbind_done in H as ([w2 c2] & wk & [-> Hw]%in_world_done & H).
    apply mbind_done in H as (s3 & t2 & [= <- <-] & H). cbn [fst] in H.
    apply mbind_done in H as ([w4 c4] & [] & [-> Hs]%in_store_done & H). injection Hs as <-.
    apply mret_done in H as [[= -> ->] Hr].
    assert (replayed = false) as -> by (destruct wk; by injection Hr).
    pose proof (Hfn _ _ _ Hw) as HP. split; [|split; [|split; [done|]]].
    + by eapply settle_close_hold.
    + unfold answer_of in HP. unfold own_result in Hr.
      destruct (runGuarded wk) as [d0 [e|]]; injection Hr as -> ->; [by left|done].
    + intros _. left. by exists wk.
Defined.
End Cache.
