(* ===== verification/HttpIdem.v ===== *)
(** * Idempotency keys on the request transports
    (internal/transport/rest/idempotency.go, internal/transport/grpc/idempotency.go)

    The HTTP middleware and the gRPC interceptor, over the interface IdemPort.
    A handler is a computation that may panic; what it wrote is its answer. The
    JSON of a stored response and the protobuf encoding of a reply are
    parameters. *)
From S2P Require Import Prelude Errors CertParse Asn1 Text Stores Idempotency IdemPort.
Open Scope Z_scope.

Definition nul : ascii := "000".
Definition nul_sep (a b : string) : string := (a ++ String nul b)%string.

(** Keys joined with a NUL tell their parts apart when the first part, or the
    last, has none. *)
Lemma nul_sep_inj_left a b a' b' :
  no_char nul a = true -> no_char nul a' = true -> nul_sep a b = nul_sep a' b' -> a = a' /\ b = b'.
Proof.
  unfold nul_sep. revert a'. induction a as [|c a IH]; intros [|c' a'] Ha Ha' E; cbn in *.
  - by injection E as ->.
  - injection E as <- _. by cbn in Ha'.
  - injection E as -> _. by cbn in Ha.
  - injection E as <- E. boolp. destruct (IH a' ltac:(done) ltac:(done) E) as [-> ->]. done.
Qed.
Lemma app_inj_suffix (x y z : string) : (x ++ z = y ++ z)%string -> x = y.
Proof.
  revert y. induction x as [|c x IH]; intros [|d y] E; [done|..].
  - apply (f_equal String.length) in E. rewrite !slength_app in E. cbn [String.length] in E. lia.
  - apply (f_equal String.length) in E. rewrite !slength_app in E. cbn [String.length] in E. lia.
  - injection E as -> E. f_equal. by apply IH.
Qed.
Lemma nul_sep_inj_right a b a' b' :
  no_char nul b = true -> no_char nul b' = true -> nul_sep a b = nul_sep a' b' -> a = a' /\ b = b'.
Proof.
  unfold nul_sep. intros Hb Hb' E.
  assert (split nul a ++ [b] = split nul a' ++ [b']) as E'.
  { rewrite <- (split_no_char _ _ Hb), <- (split_no_char _ _ Hb'), <- !split_app. by rewrite E. }
  apply app_inj_tail in E' as [_ ->]. split; [|done].
  by eapply app_inj_suffix.
Qed.

(** ** rest/idempotency.go *)
Module Rest.

(** What a handler wrote: status (200 unless set), headers, body. *)
Record http_out := mkOut { ho_status : Z; ho_headers : gmap string string; ho_body : string }.
Record request := mkRequest { rq_method : string; rq_path : string; rq_key : string }.
Record cachedResponse := mkCached { cr_status : Z; cr_content_type : string; cr_body : string }.

(** The stored form of a [responseRecorder]. *)
Definition recorded (o : http_out) : cachedResponse :=
  mkCached (ho_status o) (default "" (ho_headers o !! "Content-Type"%string)) (ho_body o).
Definition successful (r : cachedResponse) : bool := (200 <=? cr_status r) && (cr_status r <? 300).

(** [nonCacheable]: an error value that carries the response; its fields. *)
Definition nonCacheable (r : cachedResponse) : goerr :=
  Native "rest.nonCacheable" (cr_status r) (cr_content_type r) (Some (Errors.New (cr_body r))).
Definition as_nonCacheable (e : goerr) : option cachedResponse :=
  match e with
  | Native op code ct (Some (Errors.New body)) =>
      if str_eqb op "rest.nonCacheable" then Some (mkCached code ct body) else None
  | _ => None
  end.

(** [flushTo], and the answer from a stored response. *)
Definition reply (r : cachedResponse) (replayed : bool) : http_out :=
  let h := if replayed then {["Idempotency-Replayed"%string := "true"%string]} else ∅ in
  mkOut (cr_status r)
    (if empty_str (cr_content_type r) then h else <["Content-Type"%string := cr_content_type r]> h)
    (cr_body r).

(** The cache key of a request. *)
Definition cacheKey (q : request) : string := nul_sep (rq_method q) (nul_sep (rq_path q) (rq_key q)).

Section Middleware.
  Context {W C : Type} `{IdemPort W C} `{Codec cachedResponse}.
  (** Whether a cache is configured. *)
  Variable enabled : bool.
  Variable panic_text : string.

(** The work given to the cache. *)
Definition runner (next : M W (option http_out)) : M W work :=
  (let* o := next in
   mret match o with
        | None => WPanic panic_text
        | Some o =>
            let r := recorded o in
            if successful r then
              match cd_encode r with Ok b => WRet b | Err e => WErr "" e end
            else WErr "" (nonCacheable r)
        end)%m.

(** [idempotent]; [None] is a panic that reaches the server. *)
Definition idempotent (q : request) (next : M W (option http_out)) : M (W * C) (option http_out) :=
  if negb enabled || empty_str (rq_key q) then in_world next
  else
    (let* (data, replayed, err) := ic_do (cacheKey q) (runner next) in
     match err with
     | Some e =>
         match as_nonCacheable e with
         | Some r => mret (Some (reply r false))
         | None => in_world next
         end
     | None =>
         match cd_decode data with
         | Err _ => in_world next
         | Ok r => mret (Some (reply r replayed))
         end
     end)%m.
End Middleware.

Section Proofs.
  Context {W C : Type} `{IdemLaws W C} `{Codec cachedResponse}.
  Variable enabled : bool.
  Variable panic_text : string.
  (** What the handlers of the server have answered, by request. *)
  Variable produced : request -> cachedResponse -> Prop.

(** Methods and header values have no NUL character (net/http refuses them). *)
Definition clean_request (q : request) : Prop :=
  no_char nul (rq_method q) = true /\ no_char nul (rq_key q) = true.
Lemma cacheKey_inj q q' : clean_request q -> clean_request q' -> cacheKey q = cacheKey q' -> q = q'.
Proof.
  intros [Hm Hk] [Hm2 Hk2] E. unfold cacheKey in E.
  apply nul_sep_inj_left in E as [Em E]; [|done..]. apply nul_sep_inj_right in E as [Ep Ek]; [|done..].
  destruct q, q'. cbn in *. by subst.
Qed.

(** What the cache may hold under a key, or a call may be told: an answer of
    a handler for the request with that key. *)
Definition kept (key : string) (a : res goerr string) : Prop :=
  exists q, clean_request q /\ cacheKey q = key /\
  match a with
  | Ok data => exists r, produced q r /\ successful r = true /\ cd_encode r = Ok data
  | Err e => forall r, as_nonCacheable e = Some r -> produced q r
  end.

Lemma kept_own q a : clean_request q -> kept (cacheKey q) a ->
  match a with
  | Ok data => exists r, produced q r /\ successful r = true /\ cd_encode r = Ok data
  | Err e => forall r, as_nonCacheable e = Some r -> produced q r
  end.
Proof. intros Hq (q' & Hq' & E & Ha). by apply cacheKey_inj in E as ->. Qed.

Lemma nonCacheable_as r : as_nonCacheable (nonCacheable r) = Some r.
Proof. by destruct r. Qed.

Lemma runner_kept q (next : M W (option http_out)) w w' wk :
  clean_request q ->
  (forall w0 w1 o, next w0 = Done (w1, Some o) -> produced q (recorded o)) ->
  (forall r e, cd_encode r = Err e -> as_nonCacheable e = None) ->
  runner panic_text next w = Done (w', wk) -> kept (cacheKey q) (answer_of wk).
Proof.
  intros Hq Hn Henc (w1 & o & Ho & Hk)%mbind_done. apply mret_done in Hk as [_ ->]. exists q. split; [done|].
  split; [done|]. destruct o as [o|]; [|done]. apply Hn in Ho. destruct (successful (recorded o)) eqn:Es.
  - destruct (cd_encode (recorded o)) as [b|e] eqn:Ee; unfold answer_of, runGuarded; rewrite Es, Ee.
    + exists (recorded o). done.
    + intros r. by rewrite (Henc _ _ Ee).
  - unfold answer_of, runGuarded. rewrite Es. intros r. rewrite nonCacheable_as. by intros [= <-].
Qed.

Lemma recorded_reply r b : recorded (reply r b) = r.
Proof.
  destruct r as [st ct body]. unfold reply, recorded. cbn [cr_status cr_content_type cr_body ho_status ho_headers ho_body].
  f_equal. destruct (empty_str ct) eqn:E; [|by rewrite lookup_insert_eq]. apply str_eqb_eq in E as ->.
  by destruct b.
Qed.
Lemma reply_marked r b :
  ho_headers (reply r b) !! "Idempotency-Replayed"%string = Some "true"%string -> b = true.
Proof. unfold reply. cbn [ho_headers]. destruct (empty_str (cr_content_type r)); by destruct b. Qed.

(** A retry gets the first answer, and only its own. Whatever requests went
    before, a request is answered with a status, content type and body that its
    handler produced for a request with the same method, path and key; an
    answer marked as replayed is one of the successful ones, and nothing was
    executed for it. The cache stays in order. *)
Theorem rest_replay_faithful q (next : M W (option http_out)) w c w' c' o :
  clean_request q -> ic_holds kept c ->
  (forall w0 w1 o0, next w0 = Done (w1, Some o0) ->
     produced q (recorded o0) /\ ho_headers o0 !! "Idempotency-Replayed"%string = None) ->
  (forall r e, cd_encode r = Err e -> as_nonCacheable e = None) ->
  idempotent enabled panic_text q next (w, c) = Done ((w', c'), Some o) ->
  ic_holds kept c' /\
  exists r, produced q r /\ recorded o = r /\
    (ho_headers o !! "Idempotency-Replayed"%string = Some "true"%string -> w' = w /\ successful r = true).
Proof.
  intros Hq Hc Hn Henc. unfold idempotent.
  assert (forall w0 c0, ic_holds kept c0 -> in_world next (w0, c0) = Done ((w', c'), Some o) ->
    ic_holds kept c' /\ exists r, produced q r /\ recorded o = r /\
    (ho_headers o !! "Idempotency-Replayed"%string = Some "true"%string -> w' = w /\ successful r = true)) as Hdirect.
  { intros w0 c0 Hc0 [-> Hw]%in_world_done. split; [done|]. apply Hn in Hw as [Hp Hh].
    exists (recorded o). split_and!; [done..|]. by rewrite Hh. }
  destruct (negb enabled || empty_str (rq_key q)) eqn:Ek; [by apply Hdirect|].
  intros ([w1 c1] & [[data replayed] err] & Hd & Hk)%mbind_done.
  apply (ic_do_law kept) in Hd as (Hc1 & Ha & Hr & _); [|done|unfold cacheKey, nul_sep; by destruct (rq_method q)|].
  2:{ intros w0 w2 wk Hw. eapply runner_kept; [done| |done|exact Hw]. intros w3 w4 o0 Ho. exact (proj1 (Hn _ _ _ Ho)). }
  destruct err as [e|].
  - destruct (as_nonCacheable e) as [r|] eqn:En; [|by eapply Hdirect].
    apply mret_done in Hk as [[= -> ->] [= ->]]. split; [done|]. exists r.
    destruct Ha as [Ha|[-> | ->]]; [|done..]. apply kept_own in Ha; [|done]. split_and!; [by apply Ha|by apply recorded_reply|].
    intros Hh%reply_marked. done.
  - destruct (cd_decode data) as [r|e] eqn:Ed; [|by eapply Hdirect].
    apply mret_done in Hk as [[= -> ->] [= ->]]. split; [done|]. exists r.
    apply kept_own in Ha as (r' & Hp & Hs & He); [|done]. apply cd_round_trip in He.
    assert (r' = r) as -> by congruence. split_and!; [done|by apply recorded_reply|].
    intros Hh%reply_marked. split; [by apply Hr|done].
Qed.
End Proofs.
End Rest.

(** ** grpc/idempotency.go *)
Module Grpc.

(** A stored reply: the name of its message type and the message's JSON. *)
Record cachedReply := mkCached { cr_type : string; cr_body : string }.
Global Instance cachedReply_eq_dec : EqDecision cachedReply.
Proof. solve_decision. Defined.

(** [metadataValue] on the incoming metadata, if there is any. *)
Definition metadataValue (md : option (gmap string (list string))) (key : string) : string :=
  match md with
  | None => ""
  | Some m => match m !! key with Some (v :: _) => v | _ => "" end
  end.
Definition idempotencyKey : string := "idempotency-key".

(** protobuf: the messages among the values a handler can return, their JSON,
    and the registry of message types. *)
Class Proto (any msg : Type) := {
  pb_message : any -> option msg;
  pb_any : msg -> any;
  pb_name : msg -> string;
  pb_marshal : msg -> res goerr string;
  pb_unmarshal : string -> string -> res goerr msg;
}.
(** Documented: the JSON of a message of a registered type reads back as it. *)
Class ProtoLaws (any msg : Type) `{Proto any msg} := {
  pb_is_message : forall a m, pb_message a = Some m -> a = pb_any m;
  pb_read_back : forall m s, pb_marshal m = Ok s -> pb_unmarshal (pb_name m) s = Ok m;
}.

(** A local variable for the length of a call. *)
Definition with_local {W C L A} (l : L) (m : M ((W * L) * C) A) : M (W * C) (L * A) := fun '(w, c) =>
  match m ((w, l), c) with
  | Done (((w', l'), c'), a) => Done ((w', c'), (l', a))
  | Panic => Panic
  end.

Section Replies.
  Context {any msg : Type} `{Proto any msg} `{Codec cachedReply}.

Definition encodeReply (out : any) : res goerr string :=
  match pb_message out with
  | None => Err (Errors.New "response is not a proto message")
  | Some m =>
      match pb_marshal m with
      | Err e => Err e
      | Ok body => cd_encode (mkCached (pb_name m) body)
      end
  end.
Definition decodeReply (blob : string) : res goerr msg :=
  match cd_decode blob with
  | Err e => Err e
  | Ok cached => pb_unmarshal (cr_type cached) (cr_body cached)
  end.

Lemma decode_encode `{!ProtoLaws any msg} out blob :
  encodeReply out = Ok blob -> exists m, decodeReply blob = Ok m /\ out = pb_any m.
Proof.
  unfold encodeReply, decodeReply. destruct (pb_message out) as [m|] eqn:Em; [|done].
  destruct (pb_marshal m) as [body|e] eqn:Eb; [|done]. intros E%cd_round_trip. rewrite E. cbn.
  exists m. split; [by apply pb_read_back|by apply pb_is_message].
Qed.
End Replies.

Section Interceptor.
  Context {W C any msg : Type} `{IdemPort (W * any) C} `{Proto any msg} `{Codec cachedReply}.
  Variable enabled : bool.
  Variable panic_text : string.
  (** The nil interface value. *)
  Variable nil_any : any.

(** The work given to the cache: it leaves the handler's value in [fresh]. *)
Definition runner (handler : M W (option (res goerr any))) : M (W * any) work :=
  (let* r := in_world handler in
   match r with
   | None => mret (WPanic panic_text)
   | Some (Err herr) => mret (WErr "" herr)
   | Some (Ok out) =>
       let* _ := in_store (fun _ => (out, tt)) in
       mret match encodeReply out with Ok b => WRet b | Err e => WErr "" e end
   end)%m.

(** [IdempotencyInterceptor]; a handler's [None], and the answer [None], is a
    panic that reaches the server. *)
Definition interceptor (FullMethod : string) (md : option (gmap string (list string)))
    (handler : M W (option (res goerr any))) : M (W * C) (option (res goerr any)) :=
  let key := metadataValue md idempotencyKey in
  if negb enabled || empty_str key then in_world handler
  else
    (let* (fresh, (blob, replayed, err)) :=
       with_local nil_any (ic_do (nul_sep FullMethod key) (runner handler)) in
     match err with
     | Some e => mret (Some (Err e))
     | None =>
         if negb replayed then mret (Some (Ok fresh))
         else match decodeReply blob with
              | Err _ => in_world handler
              | Ok out => mret (Some (Ok (pb_any out)))
              end
     end)%m.
End Interceptor.

Section Proofs.
  Context {W C any msg : Type} `{IdemLaws (W * any) C} `{ProtoLaws any msg} `{Codec cachedReply}.
  Variable enabled : bool.
  Variable panic_text : string.
  Variable nil_any : any.
  (** What the handlers of the server have answered, by method and key. *)
  Variable answered : string -> string -> res goerr any -> Prop.

(** The errors a call may end with: its handler's, that of encoding what the
    handler returned, that of a panic of the handler. *)
Definition may_fail (m k : string) (e : goerr) : Prop :=
  answered m k (Err e) \/
  (exists out, answered m k (Ok out) /\ encodeReply out = Err e) \/
  e = Errors.New ("idempotency: work panicked: " ++ panic_text).

(** What the cache may hold under a key, or a call may be told. *)
Definition kept (key : string) (a : res goerr string) : Prop :=
  exists m k, no_char nul m = true /\ nul_sep m k = key /\
  match a with
  | Ok blob => exists out, answered m k (Ok out) /\ encodeReply out = Ok blob
  | Err e => may_fail m k e
  end.

Lemma grpc_kept_own m k a : no_char nul m = true -> kept (nul_sep m k) a ->
  match a with
  | Ok blob => exists out, answered m k (Ok out) /\ encodeReply out = Ok blob
  | Err e => may_fail m k e
  end.
Proof. intros Hm (m' & k' & Hm' & E & Ha). by apply nul_sep_inj_left in E as [-> ->]. Qed.

(** The work: what it returned, and what it left in [fresh]. *)
Lemma runner_spec (handler : M W (option (res goerr any))) w l w' l' wk :
  runner panic_text handler (w, l) = Done ((w', l'), wk) ->
  exists o, handler w = Done (w', o) /\
  match o with
  | Some (Ok out) => l' = out /\ answer_of wk = encodeReply out
  | Some (Err e) => answer_of wk = Err e
  | None => answer_of wk = Err (Errors.New ("idempotency: work panicked: " ++ panic_text))
  end.
Proof.
  intros ([w1 l1] & o & [-> Ho]%in_world_done & Hk)%mbind_done.
  destruct o as [[out|e]|]; [|by apply mret_done in Hk as [[= -> ->] ->]; eexists; split; [exact Ho|]..].
  apply mbind_done in Hk as ([w2 l2] & [] & [-> Hs]%in_store_done & Hk). injection Hs as <-.
  apply mret_done in Hk as [[= -> ->] ->]. exists (Some (Ok out)). split; [done|]. split; [done|].
  by destruct (encodeReply out).
Qed.

Lemma grpc_runner_kept m k (handler : M W (option (res goerr any))) s s' wk :
  no_char nul m = true ->
  (forall w0 w1 r, handler w0 = Done (w1, Some r) -> answered m k r) ->
  runner panic_text handler s = Done (s', wk) -> kept (nul_sep m k) (answer_of wk).
Proof.
  destruct s as [w l], s' as [w' l']. intros Hm Hh (o & Ho & Hk)%runner_spec. exists m, k. split; [done|].
  split; [done|]. destruct o as [[out|e]|].
  - destruct Hk as [_ ->]. apply Hh in Ho. destruct (encodeReply out) eqn:E; [by exists out|].
    right. left. by exists out.
  - rewrite Hk. left. by eapply Hh.
  - rewrite Hk. right. by right.
Qed.

Lemma with_local_done {L A} (l l' : L) (m : M ((W * L) * C) A) w w' c c' a :
  with_local l m (w, c) = Done ((w', c'), (l', a)) <-> m ((w, l), c) = Done (((w', l'), c'), a).
Proof. unfold with_local. destruct (m _) as [[[[]]]|]; naive_solver. Qed.

(** A retry of a unary call gets a value that its handler returned for the same
    method and key, never one of another call. A call that succeeds either ran
    its handler now, and gives that value, or did nothing to the world. One that
    fails has the error of a handler of its own method and key, or of the caller
    that gave up waiting; the cache stays in order. *)
Theorem grpc_replay_faithful FullMethod md (handler : M W (option (res goerr any))) w c w' c' r :
  no_char nul FullMethod = true -> ic_holds kept c ->
  (forall w0 w1 r0, handler w0 = Done (w1, Some r0) ->
     answered FullMethod (metadataValue md idempotencyKey) r0) ->
  interceptor enabled panic_text nil_any FullMethod md handler (w, c) = Done ((w', c'), Some r) ->
  ic_holds kept c' /\
  match r with
  | Ok out => answered FullMethod (metadataValue md idempotencyKey) (Ok out) /\
              (handler w = Done (w', Some (Ok out)) \/ w' = w)
  | Err e => may_fail FullMethod (metadataValue md idempotencyKey) e \/ gave_up e
  end.
Proof.
  intros Hm Hc Hh. unfold interceptor. set (k := metadataValue md idempotencyKey) in *.
  destruct (negb enabled || empty_str k) eqn:Ek.
  { intros [-> Ho]%in_world_done. split; [done|]. pose proof (Hh _ _ _ Ho). destruct r; [by eauto|by left; left]. }
  intros ([w1 c1] & [fresh [[blob replayed] err]] & Hd%with_local_done & Hk)%mbind_done.
  assert (nul_sep FullMethod k <> ""%string) as Hne by (unfold nul_sep; by destruct FullMethod).
  apply (ic_do_law kept) in Hd as (Hc1 & Ha & Hr & Hn); [|done..|].
  2:{ intros s0 s1 wk Hw. by eapply grpc_runner_kept. }
  destruct err as [e|].
  { apply mret_done in Hk as [[= -> ->] [= ->]]. split; [done|]. destruct Ha as [Ha|Ha]; [left|by right].
    by apply grpc_kept_own in Ha. }
  apply grpc_kept_own in Ha as (out & Ho & He); [|done]. destruct replayed; cbn [negb] in Hk.
  - destruct (decode_encode _ _ He) as (m & Hdec & ->). rewrite Hdec in Hk.
    apply mret_done in Hk as [[= -> ->] [= ->]]. specialize (Hr eq_refl). injection Hr as -> _. by eauto.
  - apply mret_done in Hk as [[= -> ->] [= ->]]. split; [done|].
    destruct (Hn eq_refl) as [(wk & (o & Hw & Hk)%runner_spec & Hown)|(_ & e & [=] & _)].
    unfold own_result, answer_of in *. destruct (runGuarded wk) as [d [e|]]; [done|].
    destruct o as [[out'|e]|]; [|done..]. destruct Hk as [-> _]. pose proof (Hh _ _ _ Hw). by eauto.
Qed.
End Proofs.
End Grpc.

(** ** Concrete transports
    A handler that counts its runs; the world is the count. *)
Module IdemLab.
Definition lab_now (runs : Z) : time := 5.
#[global] Instance lab_port : IdemPort Z cache := CachePort lab_now.
#[global] Instance lab_laws : IdemLaws Z cache := CacheLaws lab_now.
Definition lab_empty : cache := Idempotency.New 60 10.

Lemma lab_empty_holds {W} (now : W -> time) P : ic_holds (IdemLaws := CacheLaws now) P lab_empty.
Proof. split; [apply New_ok|]. intros i e H. cbn in H. by rewrite lookup_empty in H. Qed.

Definition lab_created : Rest.cachedResponse := Rest.mkCached 201 "application/json" "{}".
Global Instance cachedResponse_eq_dec : EqDecision Rest.cachedResponse.
Proof. solve_decision. Defined.
Global Instance lab_response_codec : Codec Rest.cachedResponse.
Proof.
  refine {| cd_encode := fun r => if decide (r = lab_created) then Ok "r" else Err (Errors.New "json");
            cd_decode := fun raw => if str_eqb raw "r" then Ok lab_created else Err (Errors.New "json") |}%string.
  intros v raw. destruct (decide _) as [->|_]; by intros [= <-].
Defined.
Definition lab_handler : M Z (option Rest.http_out) := fun runs =>
  Done (runs + 1, Some (Rest.mkOut 201 {["Content-Type" := "application/json"]} "{}"))%string.
Definition lab_query : Rest.request := Rest.mkRequest "POST" "/v1/sign" "k1".
Definition lab_stored : cache :=
  match Rest.idempotent true "" lab_query lab_handler (0, lab_empty) with Done ((_, c), _) => c | Panic => lab_empty end.

Definition lab_produced (q : Rest.request) (r : Rest.cachedResponse) : Prop := r = lab_created.

(** Two requests with one key: the handler runs once, the second answer is the
    first one, marked. *)
Lemma rest_replay_faithful_witness :
  exists o, Rest.idempotent true "" lab_query lab_handler (1, lab_stored) = Done ((1, lab_stored), Some o) /\
    Rest.ho_headers o !! "Idempotency-Replayed" = Some "true" /\ lab_produced lab_query (Rest.recorded o).
Proof.
  assert (forall runs w1 o, lab_handler runs = Done (w1, Some o) ->
    lab_produced lab_query (Rest.recorded o) /\ Rest.ho_headers o !! "Idempotency-Replayed" = None) as Hn
    by (intros runs w1 o [= <- <-]; done).
  assert (forall r e, cd_encode r = Err e -> Rest.as_nonCacheable e = None) as He
    by (intros r e; cbn; destruct (decide _); [done|by intros [= <-]]).
  assert (Rest.clean_request lab_query) as Hq by done.
  assert (Rest.idempotent true "" lab_query lab_handler (0, lab_empty) =
    Done ((1, lab_stored), Some (Rest.reply lab_created false))) as E1 by (vm_compute; reflexivity).
  assert (Rest.idempotent true "" lab_query lab_handler (1, lab_stored) =
    Done ((1, lab_stored), Some (Rest.reply lab_created true))) as E2 by (vm_compute; reflexivity).
  destruct (Rest.rest_replay_faithful _ _ lab_produced _ _ _ _ _ _ _ Hq (lab_empty_holds _ _) Hn He E1) as [Hc _].
  destruct (Rest.rest_replay_faithful _ _ lab_produced _ _ _ _ _ _ _ Hq Hc Hn He E2) as (_ & r & Hp & Hr & _).
  exists (Rest.reply lab_created true). split; [exact E2|]. split; [done|]. by rewrite Hr.
Defined.
#[global] Instance lab_call_port : IdemPort (Z * string) cache := CachePort (fun _ => 5).
#[global] Instance lab_call_laws : IdemLaws (Z * string) cache := CacheLaws (fun _ => 5).
Global Instance lab_proto : Grpc.Proto string string := {|
  Grpc.pb_message a := Some a; Grpc.pb_any m := m; Grpc.pb_name _ := "kz.Signed"%string;
  Grpc.pb_marshal m := Ok m; Grpc.pb_unmarshal _ s := Ok s |}.
Global Instance lab_proto_laws : Grpc.ProtoLaws string string.
Proof. split; [by intros a m [= ->]|by intros m s [= ->]]. Defined.
Global Instance lab_reply_codec : Codec Grpc.cachedReply.
Proof.
  refine {| cd_encode := fun r => if decide (r = Grpc.mkCached "kz.Signed" "cms") then Ok "r" else Err (Errors.New "json");
            cd_decode := fun raw => if str_eqb raw "r" then Ok (Grpc.mkCached "kz.Signed" "cms")
                                    else Err (Errors.New "json") |}%string.
  intros v raw. destruct (decide _) as [->|_]; by intros [= <-].
Defined.
Definition lab_call : M Z (option (res goerr string)) := fun runs => Done (runs + 1, Some (Ok "cms"%string)).
Definition lab_md : option (gmap string (list string)) := Some {["idempotency-key" := ["k1"]]}%string.
Definition lab_method : string := "/kz.Signer/Sign".
Definition lab_call_stored : cache :=
  match Grpc.interceptor true "" "" lab_method lab_md lab_call (0, lab_empty) with
  | Done ((_, c), _) => c | Panic => lab_empty end.
Definition lab_answered (m k : string) (r : res goerr string) : Prop := r = Ok "cms"%string.

(** Two calls with one key: the handler runs once. *)
Lemma grpc_replay_faithful_witness :
  Grpc.interceptor true "" "" lab_method lab_md lab_call (1, lab_call_stored) =
    Done ((1, lab_call_stored), Some (Ok "cms"%string)) /\
  lab_answered lab_method "k1" (Ok "cms"%string).
Proof.
  assert (forall w0 w1 r0, lab_call w0 = Done (w1, Some r0) ->
    lab_answered lab_method (Grpc.metadataValue lab_md Grpc.idempotencyKey) r0) as Hn by (by intros w0 w1 r0 [= <- <-]).
  assert (no_char nul lab_method = true) as Hm by done.
  assert (Grpc.interceptor true "" "" lab_method lab_md lab_call (0, lab_empty) =
    Done ((1, lab_call_stored), Some (Ok "cms"%string))) as E1 by (vm_compute; reflexivity).
  assert (Grpc.interceptor true "" "" lab_method lab_md lab_call (1, lab_call_stored) =
    Done ((1, lab_call_stored), Some (Ok "cms"%string))) as E2 by (vm_compute; reflexivity).
  destruct (Grpc.grpc_replay_faithful _ _ _ lab_answered _ _ _ _ _ _ _ _ Hm (lab_empty_holds _ _) Hn E1) as [Hc _].
  destruct (Grpc.grpc_replay_faithful _ _ _ lab_answered _ _ _ _ _ _ _ _ Hm Hc Hn E2) as (_ & Hp & _).
  split; [exact E2|exact Hp].
Defined.
End IdemLab.
