(* ===== verification/Mq.v ===== *)
(** * The message-queue core (internal/transport/mq/mq.go, jobs.go, sem.go)

    [Process] turns one message into replies: the envelope, the routing between
    job operations and the dispatcher, the deduplication of redelivered
    operations over the interface IdemPort. The state is the domain's world, the
    idempotency cache and the broker; [publish] acts on the broker only. JSON is
    a parameter, the job manager a record of its operations. *)
From S2P Require Import Prelude Errors Provider CoreTypes CertParse Asn1 Text Stores Idempotency.
From S2P Require Import Service Verify Sign Historical Batch Jobs Dispatch IdemPort HttpIdem.
Open Scope Z_scope.

Module Mq.

(** ** The envelopes *)
Record Request := mkRequest {
  rq_op : string; rq_corr : string; rq_request : string; rq_key : string; rq_locale : string;
}.
Record ReplyError := mkReplyError {
  re_kind : string; re_code : string; re_message : string; re_action : string;
}.
Record Reply := mkReply {
  rp_corr : string; rp_op : string; rp_result : string; rp_error : option ReplyError;
}.
Definition failure (corr op : string) (e : ReplyError) : Reply := mkReply corr op "" (Some e).
Definition success (corr op result : string) : Reply := mkReply corr op result None.
Definition plain_error (k : error_kind) (msg : string) : ReplyError := mkReplyError (KindName k) "" msg "".

(** The payloads of the job operations, and the answer of job-result. *)
Record jobSubmitEnvelope := mkSubmit { je_op : string; je_request : string; je_callback : string; je_key : string }.
Record jobResultMsg := mkJobResult { jm_status : string; jm_result : string }.

(** JSON, as the processor uses it. *)
Record json_port := mkJson {
  js_request : string -> option Request;
  js_submit : string -> option jobSubmitEnvelope;
  js_id : string -> option string;
  js_output : Dispatch.Dispatch.output -> res goerr string;
  js_view : Jobs.View -> res goerr string;
  js_job_result : jobResultMsg -> res goerr string;
  js_reply : Reply -> res goerr string;
}.

(** The job manager, as the processor calls it. *)
Record job_port (W : Type) := mkJobPort {
  jp_submit : string -> string -> string -> string -> M W (res goerr Jobs.View);
  jp_get : string -> M W (res goerr Jobs.View);
  jp_result : string -> M W (res goerr (string * Jobs.Status));
  jp_cancel : string -> M W (option goerr);
}.
Arguments jp_submit {W}. Arguments jp_get {W}. Arguments jp_result {W}. Arguments jp_cancel {W}.

Definition status_name (s : Jobs.Status) : string :=
  match s with
  | Jobs.StatusQueued => "queued" | Jobs.StatusRunning => "running" | Jobs.StatusSucceeded => "succeeded"
  | Jobs.StatusFailed => "failed" | Jobs.StatusCanceled => "canceled"
  end.
Definition isJobOp (op : string) : bool :=
  str_eqb op "job-submit" || str_eqb op "job-status" || str_eqb op "job-result" || str_eqb op "job-cancel".

Definition default_kind (err : goerr) : error_kind := default KindInternal (as_domain err).

(** [jobReplyError] and [jobOutcome]. *)
Definition jobReplyError (err : goerr) : ReplyError :=
  if errors_is err Jobs.ErrNotFound then plain_error KindInvalid "job not found"
  else if errors_is err Jobs.ErrInvalidOp then plain_error KindInvalid "unknown operation"
  else if errors_is err Jobs.ErrTooLarge then plain_error KindInvalid "request too large for an inline job"
  else if errors_is err Jobs.ErrNotReady then plain_error KindUnavailable "job not finished"
  else if errors_is err Jobs.ErrBusy then plain_error KindUnavailable "job queue full"
  else plain_error (default_kind err) (err_text err).
Definition jobOutcome (err : goerr) : string :=
  if errors_is err Jobs.ErrBusy then "server_error"
  else if errors_is err Jobs.ErrNotFound || errors_is err Jobs.ErrInvalidOp || errors_is err Jobs.ErrTooLarge ||
          errors_is err Jobs.ErrNotReady then "client_error"
  else "server_error".

Definition outcomeForKind (err : goerr) : string :=
  if decide (as_domain err = Some KindInvalid) then "client_error" else "server_error".

(** [errorFrom], at the locale of the request. *)
Definition errorFrom (loc : Locale) (err : goerr) : ReplyError :=
  let exp := ExplainIn err loc in
  mkReplyError (KindName (default_kind err)) (x_code exp)
    (if empty_str (x_message exp) then err_text err else x_message exp) (x_action exp).

Section Processor.
  Context {W C B : Type} `{IdemPort W C}.
  (** The domain service, by the locale of its context, its decoders, the job manager and the cache, if
      configured; JSON; the broker. *)
  Variable svc : Locale -> Dispatch.Dispatch.core_ops W.
  Variable dec : Dispatch.Dispatch.decoders.
  Variable jobs : option (job_port W).
  Variable idem : bool.
  Variable panic_text : string.
  Variable js : json_port.
  Variable publish : string -> string -> B -> B * option goerr.
  Notation state := ((W * C) * B)%type.

Definition encodeReply (r : Reply) : string :=
  match js_reply js r with
  | Ok b => b
  | Err _ => "{" ++ dq ++ "error" ++ dq ++ ":{" ++ dq ++ "kind" ++ dq ++ ":" ++ dq ++ "internal" ++ dq ++ "," ++
             dq ++ "message" ++ dq ++ ":" ++ dq ++ "encode reply" ++ dq ++ "}}"
  end.
Definition send (r : Reply) : M state (option goerr) :=
  in_store (publish (rp_corr r) (encodeReply r)).
Definition domain {A} (m : M W A) : M state A := in_world (in_world m).

(** What [Process] ends with: the metric's operation and outcome, its error. *)
Definition ended : Type := (string * string * option goerr).
Definition closing (op outcome : string) (r : Reply) : M state ended :=
  (let* e := send r in mret (op, outcome, e))%m.

(** [jobReply], [jobViewReply]. *)
Definition jobReply (corr op : string) (err : goerr) : M state ended :=
  closing op (jobOutcome err) (failure corr op (jobReplyError err)).
Definition or_nil (r : res goerr string) : string := match r with Ok s => s | Err _ => "" end.
Definition jobViewReply (corr op : string) (r : res goerr Jobs.View) : M state ended :=
  match r with
  | Err e => jobReply corr op e
  | Ok v => closing op "ok" (success corr op (or_nil (js_view js v)))
  end.
Definition jobID (raw : string) : option string :=
  match js_id js raw with Some id => if empty_str id then None else Some id | None => None end.

(** [handleJob]. *)
Definition handleJob (q : Request) (corr : string) : M state ended :=
  let op := rq_op q in
  let bad := jobReply corr op (Domain KindInvalid op None) in
  match jobs with
  | None => closing op "client_error" (failure corr op (plain_error KindUnsupported "async jobs are disabled"))
  | Some m =>
      if str_eqb op "job-submit" then
        match js_submit js (rq_request q) with
        | None => bad
        | Some s =>
            (let* r := domain (jp_submit m (je_op s) (je_request s) (je_callback s) (je_key s)) in
             jobViewReply corr op r)%m
        end
      else
        match jobID (rq_request q) with
        | None => bad
        | Some id =>
            if str_eqb op "job-status" then
              (let* r := domain (jp_get m id) in jobViewReply corr op r)%m
            else if str_eqb op "job-result" then
              (let* r := domain (jp_result m id) in
               match r with
               | Err e => jobReply corr op e
               | Ok (raw, st) =>
                   closing op "ok" (success corr op (or_nil (js_job_result js (mkJobResult (status_name st) raw))))
               end)%m
            else
              (let* e := domain (jp_cancel m id) in
               match e with
               | Some e => jobReply corr op e
               | None => let* r := domain (jp_get m id) in jobViewReply corr op r
               end)%m
        end
  end.

(** [emit]: one reply per output until publishing fails; an output that does not
    marshal is reported. *)
Definition output_reply (corr op : string) (v : Dispatch.Dispatch.output) : Reply :=
  match js_output js v with
  | Err _ => failure corr op (plain_error KindInternal "encode result")
  | Ok result => success corr op result
  end.
Definition emit (corr op : string) (pubErr : option goerr) (v : Dispatch.Dispatch.output) : M state (option goerr) :=
  match pubErr with Some e => mret (Some e) | None => send (output_reply corr op v) end.

(** The locale the context carries. *)
Definition locale_of_request (q : Request) : Locale :=
  if empty_str (rq_locale q) then LocaleEN else ParseLocale (rq_locale q).

(** The work of a deduplicated operation; of a panic only the fact is kept. *)
Definition idem_work (q : Request) : M W work := fun w =>
  match Dispatch.Dispatch.Handle (svc (locale_of_request q)) dec (rq_op q) (rq_request q) w with
  | Panic => Done (w, WPanic panic_text)
  | Done (w', Err herr) => Done (w', WErr "" herr)
  | Done (w', Ok out) => Done (w', match js_output js out with Ok b => WRet b | Err e => WErr "" e end)
  end.
Definition idem_key (q : Request) : string := nul_sep (rq_op q) (rq_key q).

(** The two ways of running an operation. *)
Definition deduplicated (q : Request) (op corr : string) : M state ended :=
  (let* (result, _, derr) := in_world (ic_do (idem_key q) (idem_work q)) in
   match derr with
   | Some e => closing op (outcomeForKind e) (failure corr (rq_op q) (errorFrom (locale_of_request q) e))
   | None => closing op "ok" (success corr (rq_op q) result)
   end)%m.
Definition streamed (q : Request) (op corr : string) : M state ended :=
  (let* (outs, err) := domain (Dispatch.Dispatch.HandleStreaming (svc (locale_of_request q)) dec (rq_op q) (rq_request q)) in
   let* pubErr := mfold (emit corr (rq_op q)) None outs in
   match pubErr with
   | Some e => mret (op, "server_error"%string, Some e)
   | None =>
       match err with
       | Some e => closing op (outcomeForKind e) (failure corr (rq_op q) (errorFrom (locale_of_request q) e))
       | None => mret (op, "ok"%string, None)
       end
   end)%m.

Definition op_label (q : Request) : string := if empty_str (rq_op q) then "unknown" else rq_op q.
Definition corr_of (q : Request) (metaCorrID : string) : string :=
  if empty_str (rq_corr q) then metaCorrID else rq_corr q.

(** [Process]. *)
Definition Process (body metaCorrID : string) : M state ended :=
  match js_request js body with
  | None =>
      closing "unknown" "client_error" (failure metaCorrID "" (plain_error KindInvalid "invalid request envelope"))
  | Some q =>
      let op := op_label q in
      let corr := corr_of q metaCorrID in
      if isJobOp (rq_op q) then handleJob q corr
      else if negb (Dispatch.Dispatch.Valid (rq_op q)) then
        closing op "client_error"
          (failure corr (rq_op q) (plain_error KindInvalid ("unknown operation " ++ dq ++ rq_op q ++ dq)))
      else if idem && negb (empty_str (rq_key q)) && negb (Dispatch.Dispatch.is_batch (rq_op q)) then
        deduplicated q op corr
      else streamed q op corr
  end.
End Processor.

(** ** Replies *)
Section Replies.
  Context {W C B : Type} `{IdemLaws W C}.
  Variable svc : Locale -> Dispatch.Dispatch.core_ops W.
  Variable dec : Dispatch.Dispatch.decoders.
  Variable jobs : option (job_port W).
  Variable idem : bool.
  Variable panic_text : string.
  Variable js : json_port.
  Variable publish : string -> string -> B -> B * option goerr.
Notation Process := (Process svc dec jobs idem panic_text js publish).

(** JSON, as encoding/json documents it: no value has an empty encoding, and
    the job views always have one. *)
Record json_laws : Prop := {
  jl_output : forall v s, js_output js v = Ok s -> s <> ""%string;
  jl_view : forall v, exists s, js_view js v = Ok s /\ s <> ""%string;
  jl_job : forall m, exists s, js_job_result js m = Ok s /\ s <> ""%string;
}.

(** Publishing replies in order, up to the first failure. *)
Fixpoint deliver (l : list Reply) (b : B) : B * option goerr :=
  match l with
  | [] => (b, None)
  | r :: t =>
      let (b', e) := publish (rp_corr r) (encodeReply js r) b in
      match e with Some e => (b', Some e) | None => deliver t b' end
  end.

(** A reply a client can route and read: its correlation id, and exactly one of
    a result and an error. *)
Definition reply_ok (corr : string) (r : Reply) : Prop :=
  rp_corr r = corr /\
  match rp_error r with None => rp_result r <> ""%string | Some _ => rp_result r = ""%string end.

Lemma failure_ok corr op e : reply_ok corr (failure corr op e).
Proof. done. Qed.
Lemma success_ok corr op s : s <> ""%string -> reply_ok corr (success corr op s).
Proof. done. Qed.
Hint Resolve failure_ok success_ok : core.

(** One reply. *)
Definition replied (corr : string) (b b' : B) (err : option goerr) : Prop :=
  exists r, reply_ok corr r /\ deliver [r] b = (b', err).

Lemma closing_deliver op outcome r (s : W * C) b s' b' o oc err :
  closing js publish op outcome r (s, b) = Done ((s', b'), (o, oc, err)) ->
  s' = s /\ deliver [r] b = (b', err).
Proof.
  intros ([s1 b1] & e & [-> Hp]%in_store_done & Hk)%mbind_done.
  apply mret_done in Hk as [[= -> ->] [= -> -> ->]]. split; [done|].
  cbn [deliver]. rewrite Hp. by destruct e.
Qed.
Lemma closing_failure corr op outcome op' e (s : W * C) b s' b' o oc err :
  closing js publish op outcome (failure corr op' e) (s, b) = Done ((s', b'), (o, oc, err)) ->
  s' = s /\ replied corr b b' err.
Proof. intros [-> Hd]%closing_deliver. split; [done|]. by eexists. Qed.
Lemma closing_success corr op outcome op' x (s : W * C) b s' b' o oc err :
  x <> ""%string -> closing js publish op outcome (success corr op' x) (s, b) = Done ((s', b'), (o, oc, err)) ->
  s' = s /\ replied corr b b' err.
Proof. intros Hx [-> Hd]%closing_deliver. split; [done|]. eexists. split; [by apply success_ok|done]. Qed.

Lemma domain_done {A} (m : M W A) (w w' : W) (c c' : C) (b b' : B) a :
  domain m ((w, c), b) = Done (((w', c'), b'), a) <-> m w = Done (w', a) /\ c' = c /\ b' = b.
Proof.
  unfold domain. split.
  - intros [-> [-> Hm]%in_world_done]%in_world_done. done.
  - intros (Hm & -> & ->). apply in_world_done. split; [done|]. by apply in_world_done.
Qed.

Lemma jobReply_replied corr op e (s : W * C) b s' b' o oc err :
  jobReply js publish corr op e (s, b) = Done ((s', b'), (o, oc, err)) -> s' = s /\ replied corr b b' err.
Proof. apply closing_failure. Qed.
Lemma jobViewReply_replied corr op r (s : W * C) b s' b' o oc err :
  json_laws -> jobViewReply js publish corr op r (s, b) = Done ((s', b'), (o, oc, err)) ->
  s' = s /\ replied corr b b' err.
Proof.
  intros Hj. unfold jobViewReply. destruct r as [v|e]; [|by apply jobReply_replied].
  apply closing_success. destruct (jl_view Hj v) as (x & -> & Hx). done.
Qed.

(** A job operation: one reply; the domain's world changes, the cache does not. *)
Lemma handleJob_replied q corr w (c : C) b w' c' b' o oc err :
  json_laws -> handleJob jobs js publish q corr ((w, c), b) = Done (((w', c'), b'), (o, oc, err)) ->
  c' = c /\ replied corr b b' err.
Proof.
  intros Hj. unfold handleJob. destruct jobs as [m|]; [|by intros [[= -> ->] ?]%closing_failure].
  assert (forall x, jobReply js publish corr (rq_op q) x ((w, c), b) = Done (((w', c'), b'), (o, oc, err)) ->
    c' = c /\ replied corr b b' err) as Hbad by (by intros x [[= -> ->] ?]%jobReply_replied).
  destruct (str_eqb (rq_op q) "job-submit").
  { destruct (js_submit js (rq_request q)) as [x|]; [|by apply Hbad].
    intros ([[w1 c1] b1] & r & (_ & -> & ->)%domain_done & Hk)%mbind_done.
    by apply jobViewReply_replied in Hk as [[= -> ->] ?]. }
  destruct (jobID js (rq_request q)) as [id|]; [|by apply Hbad].
  destruct (str_eqb (rq_op q) "job-status"); [|destruct (str_eqb (rq_op q) "job-result")].
  - intros ([[w1 c1] b1] & r & (_ & -> & ->)%domain_done & Hk)%mbind_done.
    by apply jobViewReply_replied in Hk as [[= -> ->] ?].
  - intros ([[w1 c1] b1] & r & (_ & -> & ->)%domain_done & Hk)%mbind_done. destruct r as [[raw st]|e].
    + apply closing_success in Hk as [[= -> ->] ?]; [done|].
      destruct (jl_job Hj (mkJobResult (status_name st) raw)) as (x & -> & Hx). done.
    + by apply jobReply_replied in Hk as [[= -> ->] ?].
  - intros ([[w1 c1] b1] & e & (_ & -> & ->)%domain_done & Hk)%mbind_done.
    destruct e as [e|]; [by apply jobReply_replied in Hk as [[= -> ->] ?]|].
    apply mbind_done in Hk as ([[w2 c2] b2] & r & (_ & -> & ->)%domain_done & Hk).
    by apply jobViewReply_replied in Hk as [[= -> ->] ?].
Qed.

(** What the dispatcher emits: outputs or an error; one output when the
    operation is a single one. *)
Lemma streaming_shape (l : Locale) op payload w w' outs err :
  Dispatch.Dispatch.HandleStreaming (svc l) dec op payload w = Done (w', (outs, err)) ->
  (err = None /\ outs <> [] /\ (Dispatch.Dispatch.is_batch op = false -> length outs = 1%nat)) \/
  (outs = [] /\ exists e, err = Some e).
Proof.
  unfold Dispatch.Dispatch.HandleStreaming. destruct (Dispatch.Dispatch.is_batch op); cbn [negb].
  2:{ intros (w1 & r & _ & Hk)%mbind_done. apply mret_done in Hk as [_ E].
      destruct r; injection E as -> ->; [left|right]; eauto. }
  assert (forall O (wrap : BatchItem O -> _) m, Dispatch.Dispatch.stream wrap m w = Done (w', (outs, err)) ->
    (err = None /\ outs <> [] /\ (true = false -> length outs = 1%nat)) \/
    (outs = [] /\ exists e, err = Some e)) as Hs.
  { intros O wrap m (w1 & r & _ & Hk)%mbind_done. apply mret_done in Hk as [_ E].
    destruct r as [[sunk out]|e]; injection E as -> ->; [left|right]; [|eauto].
    split; [done|]. split; [|done]. by destruct (map wrap sunk). }
  repeat match goal with |- context [if str_eqb ?a ?b then _ else _] => destruct (str_eqb a b) end;
    [by apply Hs..|]. intros [_ [= -> ->]]%mret_done. right. eauto.
Qed.

(** The emissions are deliveries. *)
Lemma emit_deliver corr op outs (s : W * C) b s' b' err :
  mfold (emit js publish corr op) None outs (s, b) = Done ((s', b'), err) <->
  s' = s /\ deliver (map (output_reply js corr op) outs) b = (b', err).
Proof.
  assert (forall e l (x x' : (W * C) * B) y', mfold (emit js publish corr op) (Some e) l x = Done (x', y') <-> x' = x /\ y' = Some e) as Hend.
  { intros e l x. induction l as [|v l IH]; intros x' y'; [cbn; unfold mret; naive_solver|].
    rewrite <- IH. done. }
  revert b. induction outs as [|v l IH]; intros b.
  { cbn. unfold mret. naive_solver. }
  cbn [map deliver mfold]. unfold mbind_ at 1, emit at 1, send, in_store.
  destruct (publish _ _ b) as [b1 e1]. destruct e1 as [e|]; [|apply IH]. rewrite Hend. naive_solver.
Qed.

(** ** Deduplication *)
(** What operations have answered, by operation and idempotency key. *)
Variable answered : string -> string -> string -> Prop.
Definition kept (key : string) (a : res goerr string) : Prop :=
  match a with
  | Ok data => data <> ""%string /\
      exists op k, no_char nul op = true /\ nul_sep op k = key /\ answered op k data
  | Err _ => True
  end.
(** [answered] holds of what the operation of a request answers. *)
Definition recorded_answers (q : Request) : Prop :=
  forall w0 w1 out x,
    Dispatch.Dispatch.Handle (svc (locale_of_request q)) dec (rq_op q) (rq_request q) w0 = Done (w1, Ok out) ->
    js_output js out = Ok x -> answered (rq_op q) (rq_key q) x.

Lemma valid_op_clean op : Dispatch.Dispatch.Valid op = true -> no_char nul op = true.
Proof.
  unfold Dispatch.Dispatch.Valid. intros (o & Ho & ->%str_eqb_eq)%existsb_exists. revert op Ho.
  apply List.Forall_forall. by repeat constructor.
Qed.

Lemma idem_work_kept q w w' wk :
  json_laws -> recorded_answers q -> Dispatch.Dispatch.Valid (rq_op q) = true ->
  idem_work svc dec panic_text js q w = Done (w', wk) -> kept (idem_key q) (answer_of wk).
Proof.
  intros Hj Ha Hv%valid_op_clean. unfold idem_work. destruct (Dispatch.Dispatch.Handle _ _ _ _ _) as [[w1 [out|e]]|] eqn:E.
  - intros [= -> <-]. destruct (js_output js out) as [x|e] eqn:Ex; [|done]. split; [by eapply jl_output|].
    exists (rq_op q), (rq_key q). split; [done|]. split; [done|]. by eapply Ha.
  - by intros [= -> <-].
  - by intros [= -> <-].
Qed.

(** A deduplicated operation: one reply; a result in it is one that the
    operation answered under this key, and is kept there; the domain's world
    changed only if that was now. An answer the cache still holds is replayed. *)
Definition dedup_contract (q : Request) (corr : string) (w w' : W) (c c' : C) (r : Reply) : Prop :=
  (rp_error r = None -> answered (rq_op q) (rq_key q) (rp_result r) /\
     exists exp, ic_held c' (idem_key q) (rp_result r) exp /\
       (w' = w \/ exists out,
          Dispatch.Dispatch.Handle (svc (locale_of_request q)) dec (rq_op q) (rq_request q) w = Done (w', Ok out) /\
          js_output js out = Ok (rp_result r) /\ exp = ic_now w' + ic_ttl (W := W) c)) /\
  (forall d exp, ic_held c (idem_key q) d exp -> ic_now w < exp ->
     w' = w /\ r = success corr (rq_op q) d /\ ic_held c' (idem_key q) d exp).

Lemma idem_key_nonempty q : idem_key q <> ""%string.
Proof. unfold idem_key, nul_sep. by destruct (rq_op q). Qed.

Lemma deduplicated_spec q op corr w c b w' c' b' o oc err :
  json_laws -> recorded_answers q -> Dispatch.Dispatch.Valid (rq_op q) = true -> ic_holds kept c ->
  deduplicated svc dec panic_text js publish q op corr ((w, c), b) = Done (((w', c'), b'), (o, oc, err)) ->
  ic_holds kept c' /\
  exists r, reply_ok corr r /\ deliver [r] b = (b', err) /\ dedup_contract q corr w w' c c' r.
Proof.
  intros Hj Ha Hv Hc ([[w1 c1] b1] & [[data replayed] derr] & [-> Hd]%in_world_done & Hk)%mbind_done.
  assert (forall d exp, ic_held c (idem_key q) d exp -> ic_now w < exp ->
    w1 = w /\ data = d /\ derr = None /\ ic_held c1 (idem_key q) d exp) as Hhit.
  { intros d exp Hh Hx. destruct (ic_hit_law _ (idem_work svc dec panic_text js q) _ _ _ _ (idem_key_nonempty q) Hh Hx)
      as (c2 & Hd2 & Hh2). rewrite Hd in Hd2. by injection Hd2 as -> -> -> -> ->. }
  pose proof Hd as Hst.
  apply (ic_do_law kept) in Hd as (Hc1 & Hans & Hr & Hn); [|done|apply idem_key_nonempty|].
  2:{ intros w0 w2 wk Hw. by eapply idem_work_kept. }
  destruct derr as [e|].
  { apply closing_deliver in Hk as [[= -> ->] Hk]. split; [done|]. eexists. split; [apply failure_ok|]. split; [done|].
    split; [done|]. intros d exp Hh Hx. by destruct (Hhit d exp Hh Hx) as (_ & _ & [=] & _). }
  apply closing_deliver in Hk as [[= -> ->] Hk]. split; [done|]. destruct Hans as [Hne (op' & k & Hop & E & Hans)].
  apply nul_sep_inj_left in E as [-> ->]; [|done|by apply valid_op_clean].
  eexists. split; [by apply success_ok|]. split; [done|]. split.
  2:{ intros d exp Hh Hx. by destruct (Hhit d exp Hh Hx) as (-> & -> & _ & ?). }
  intros _. split; [done|]. cbn [success rp_result].
  destruct (ic_store_law kept _ _ _ _ _ _ _ _ Hc (idem_key_nonempty q) Hst) as (exp & Hheld & Hexp).
  exists exp. split; [done|].
  destruct replayed; [left; by apply Hr|]. destruct (Hn eq_refl) as [(wk & Hw & Hown)|(_ & e & [=] & _)]. right.
  unfold idem_work in Hw. destruct (Dispatch.Dispatch.Handle _ _ _ _ _) as [[w2 [out|e]]|]; injection Hw as -> <-; [|done..].
  exists out. split; [done|]. split; [destruct (js_output js out); [|done]; by injection Hown as ->|by apply Hexp].
Qed.

(** Whatever the body, the processor publishes at least one reply, stops at the
    first one that is refused, and ends with that refusal and no other error. *)
Lemma process_delivers body meta w c b w' c' b' o oc err :
  Process body meta ((w, c), b) = Done (((w', c'), b'), (o, oc, err)) ->
  exists l, l <> [] /\ deliver l b = (b', err).
Proof.
  assert (forall op outcome r (s : W * C) x s' x', closing js publish op outcome r (s, x) = Done ((s', x'), (o, oc, err)) ->
    exists l, l <> [] /\ deliver l x = (x', err)) as Hc by (intros op outcome r s x s' x' [_ Hd]%closing_deliver; by exists [r]).
  unfold Mq.Process. destruct (js_request js body) as [q|]; [|by apply Hc].
  destruct (isJobOp (rq_op q)).
  { unfold handleJob, jobViewReply, jobReply. destruct jobs as [m|]; [|by apply Hc].
    repeat first [intros ([[? ?] ?] & ? & (_ & -> & ->)%domain_done & Hk)%mbind_done; revert Hk | case_match];
      by apply Hc. }
  destruct (negb _); [by apply Hc|]. destruct (idem && _ && _).
  { intros ([[w1 c1] b1] & [[data replayed] derr] & [-> _]%in_world_done & Hk)%mbind_done. revert Hk. destruct derr; apply Hc. }
  intros ([[w1 c1] b1] & [outs err1] & (Hs & -> & ->)%domain_done & Hk)%mbind_done.
  apply mbind_done in Hk as ([[w2 c2] b2] & pubErr & [[= -> ->] Hd]%emit_deliver & Hk).
  apply streaming_shape in Hs as [(-> & Hne & _)|(-> & e & ->)].
  - assert (b' = b2 /\ err = pubErr) as [-> ->] by (destruct pubErr; by apply mret_done in Hk as [[= -> -> ->] [= -> -> ->]]).
    eexists. split; [|exact Hd]. by destruct outs.
  - injection Hd as <- <-. by apply Hc in Hk.
Qed.

(** The effective correlation id of a message, and whether it may have more than
    one reply. *)
Definition corr_for (body metaCorrID : string) : string :=
  match js_request js body with Some q => corr_of q metaCorrID | None => metaCorrID end.
Definition single_reply (body : string) : bool :=
  match js_request js body with Some q => negb (Dispatch.Dispatch.is_batch (rq_op q)) | None => true end.

Lemma replied_one corr b b' err : replied corr b b' err ->
  exists l, deliver l b = (b', err) /\ l <> [] /\ Forall (reply_ok corr) l /\ length l = 1%nat.
Proof. intros (r & Hr & Hd). exists [r]. split; [done|]. split; [done|]. split; [by apply Forall_singleton|done]. Qed.

(** Every message is answered. Whatever its body, [Process] publishes at least
    one reply, each one under the message's correlation id and with exactly one
    of a result and an error; all but the summary-terminated batches have a
    single reply. It stops at the first reply the broker refuses, and its error
    is the broker's and nothing else: a malformed envelope, an unknown operation
    or a failed one are answers. *)
Theorem mq_replies body meta w c b w' c' b' o oc err :
  json_laws -> ic_holds kept c ->
  (forall q, js_request js body = Some q -> recorded_answers q) ->
  Process body meta ((w, c), b) = Done (((w', c'), b'), (o, oc, err)) ->
  ic_holds kept c' /\
  exists l, deliver l b = (b', err) /\ l <> [] /\ Forall (reply_ok (corr_for body meta)) l /\
    (single_reply body = true -> length l = 1%nat).
Proof.
  intros Hj Hc Ha. unfold Process, corr_for, single_reply. destruct (js_request js body) as [q|] eqn:Eq.
  2:{ intros [[= -> ->] Hk]%closing_failure. split; [done|]. apply replied_one in Hk as (l & ? & ? & ? & ?). by exists l. }
  specialize (Ha q eq_refl). destruct (isJobOp (rq_op q)).
  { intros [-> Hk]%handleJob_replied; [|done]. split; [done|]. apply replied_one in Hk as (l & ? & ? & ? & ?). by exists l. }
  destruct (Dispatch.Dispatch.Valid (rq_op q)) eqn:Ev; cbn [negb].
  2:{ intros [[= -> ->] Hk]%closing_failure. split; [done|]. apply replied_one in Hk as (l & ? & ? & ? & ?). by exists l. }
  destruct (idem && _ && _).
  { intros [Hc' (r & Hr & Hd & _)]%deduplicated_spec; [|done..]. split; [done|]. exists [r].
    split; [done|]. split; [done|]. split; [by apply Forall_singleton|done]. }
  intros ([[w1 c1] b1] & [outs err1] & (Hs & -> & ->)%domain_done & Hk)%mbind_done.
  apply mbind_done in Hk as ([[w2 c2] b2] & pubErr & [[= -> ->] Hd]%emit_deliver & Hk).
  assert (Forall (reply_ok (corr_of q meta)) (map (output_reply js (corr_of q meta) (rq_op q)) outs)) as Hf.
  { apply Forall_map, Forall_true. intros v. unfold output_reply. destruct (js_output js v) as [x|] eqn:Ex; [|done].
    apply success_ok. by eapply jl_output. }
  apply streaming_shape in Hs as [(-> & Hne & Hone)|(-> & e & ->)].
  - assert (w' = w1 /\ c' = c /\ b' = b2 /\ err = pubErr) as (-> & -> & -> & ->).
    { destruct pubErr; by apply mret_done in Hk as [[= -> -> ->] [= -> -> ->]]. }
    split; [done|]. exists (map (output_reply js (corr_of q meta) (rq_op q)) outs). split; [done|].
    split; [by destruct outs|]. split; [done|]. rewrite length_map, negb_true_iff. done.
  - injection Hd as <- <-. apply closing_failure in Hk as [[= -> ->] Hk]. split; [done|].
    apply replied_one in Hk as (l & ? & ? & ? & ?). by exists l.
Qed.

(** C13: A redelivered message does its work once. With a cache, a single operation
    that carries an idempotency key is answered with one reply. A result in it is
    one that the operation answered for the same operation and key; either
    nothing happened in the domain or the operation ran now and answered just
    that; and the cache then holds the result, for its TTL if it is new. As long
    as the cache holds a result (until it expires, unless it is evicted), a
    delivery with that operation and key runs nothing: the domain is unchanged,
    the reply carries the held result, and it stays held. *)
Theorem mq_redelivery body meta q w c b w' c' b' o oc err :
  json_laws -> ic_holds kept c -> recorded_answers q -> idem = true ->
  js_request js body = Some q -> rq_key q <> ""%string ->
  Dispatch.Dispatch.Valid (rq_op q) = true -> Dispatch.Dispatch.is_batch (rq_op q) = false ->
  Process body meta ((w, c), b) = Done (((w', c'), b'), (o, oc, err)) ->
  ic_holds kept c' /\
  exists r, reply_ok (corr_of q meta) r /\ deliver [r] b = (b', err) /\
    (rp_error r = None -> answered (rq_op q) (rq_key q) (rp_result r) /\
       exists exp, ic_held c' (idem_key q) (rp_result r) exp /\
         (w' = w \/ exists out,
            Dispatch.Dispatch.Handle (svc (locale_of_request q)) dec (rq_op q) (rq_request q) w = Done (w', Ok out) /\
            js_output js out = Ok (rp_result r) /\ exp = ic_now w' + ic_ttl (W := W) c)) /\
    (forall d exp, ic_held c (idem_key q) d exp -> ic_now w < exp ->
       w' = w /\ r = success (corr_of q meta) (rq_op q) d /\ ic_held c' (idem_key q) d exp).
Proof.
  intros Hj Hc Ha Hi Hq Hk Hv Hb. unfold Process. rewrite Hq, Hi, Hv, Hb.
  rewrite (proj2 (str_eqb_neq _ _) Hk : empty_str (rq_key q) = false). cbn [negb andb].
  assert (isJobOp (rq_op q) = false) as ->.
  { destruct (isJobOp (rq_op q)) eqn:E; [|done]. unfold isJobOp in E.
    repeat (apply orb_true_iff in E as [E|E]; [|by apply str_eqb_eq in E; rewrite E in Hv]).
    by apply str_eqb_eq in E; rewrite E in Hv. }
  by apply deduplicated_spec.
Qed.
End Replies.

(** ** A concrete processor
    The world counts the validations; the broker is what was published. *)
Definition lab_fails {I O} (o : O) (_ : I) : M Z (O * option goerr) := mret (o, Some ErrUnsupported).
Definition lab_count (i : ValidateInput) : M Z (ValidateOutput * option goerr) := fun n =>
  Done (n + 1, (mkValidateOutput empty_revocation "" "" [] None,
                if empty_str (va_cert i) then Some (Domain KindInvalid "Validate" None) else None)).
Import Dispatch.Dispatch.
Definition lab_svc (_ : Locale) : core_ops Z :=
  mkCoreOps Z (lab_fails lab_sign_out) (lab_fails lab_verify_out) (lab_fails no_verdict)
    (lab_fails empty_archive) (lab_fails (mkExtract "" false None)) (lab_fails no_info) lab_count
    (run_in_order (lab_fails lab_sign_out)) (run_in_order (lab_fails lab_verify_out))
    (run_in_order (lab_fails (mkExtract "" false None))) (run_in_order (lab_fails no_info))
    (run_in_order lab_count).
Definition lab_batch : Request := mkRequest "cert-validate-batch" "" "C" "" "".
Definition lab_single : Request := mkRequest "cert-validate" "c9" "C" "k1" "ru".
Definition lab_js : json_port :=
  mkJson (fun b => if str_eqb b "batch" then Some lab_batch else if str_eqb b "single" then Some lab_single else None)
    (fun _ => None) (fun _ => None) (fun _ => Ok "{out}"%string) (fun _ => Ok "{view}"%string)
    (fun _ => Ok "{job}"%string)
    (fun r => Ok (rp_op r ++ ":" ++ match rp_error r with Some e => re_kind e | None => rp_result r end)%string).
Lemma lab_json_laws : json_laws lab_js.
Proof. split; [by intros v s [= <-]|intros; by eexists..]. Qed.
Definition lab_publish (corr reply : string) (b : list (string * string)) : list (string * string) * option goerr :=
  if Nat.ltb (length b) 3 then (b ++ [(corr, reply)], None) else (b, Some (Errors.New "broker")).
Definition lab_process := Process (C := cache) lab_svc lab_dec None true "panic" lab_js lab_publish.
Definition lab_answered (op key result : string) : Prop := op = "cert-validate"%string /\ result = "{out}"%string.
Lemma lab_recorded q : rq_op q = "cert-validate"%string -> recorded_answers lab_svc lab_dec lab_js lab_answered q.
Proof. intros E w0 w1 out x _ [= <-]. done. Qed.

Definition lab_batch_replies : list (string * string) :=
  [("m1", "cert-validate-batch:{out}"); ("m1", "cert-validate-batch:{out}"); ("m1", "cert-validate-batch:{out}")]%string.
(** A batch of two: two items and the summary, under the transport's id. *)
Lemma mq_replies_witness :
  lab_process "batch" "m1" ((0, IdemLab.lab_empty), []) =
    Done (((2, IdemLab.lab_empty), lab_batch_replies), ("cert-validate-batch", "ok", None))%string /\
  exists l, deliver lab_js lab_publish l [] = (lab_batch_replies, None) /\ Forall (reply_ok "m1") l.
Proof.
  assert (lab_process "batch" "m1" ((0, IdemLab.lab_empty), []) =
    Done (((2, IdemLab.lab_empty), lab_batch_replies), ("cert-validate-batch", "ok", None))%string) as E by reflexivity.
  split; [exact E|].
  destruct (mq_replies lab_svc lab_dec None true "panic" lab_js lab_publish (fun _ _ _ => True) "batch" "m1" _ _ _ _ _ _ _ _ _
    lab_json_laws (IdemLab.lab_empty_holds IdemLab.lab_now _) (fun _ _ _ _ _ _ _ _ => I) E) as (_ & l & Hd & _ & Hf & _).
  exists l. split; [exact Hd|exact Hf].
Defined.

Definition lab_cache : cache :=
  match lab_process "single" "m1" ((0, IdemLab.lab_empty), []) with Done (((_, c), _), _) => c | Panic => IdemLab.lab_empty end.
(** The redelivery of a single operation: validated once, answered twice. *)
Lemma mq_redelivery_witness :
  lab_process "single" "m2" ((1, lab_cache), [("c9", "cert-validate:{out}")])%string =
    Done (((1, lab_cache), [("c9", "cert-validate:{out}"); ("c9", "cert-validate:{out}")]), ("cert-validate", "ok", None))%string /\
  exists r, deliver lab_js lab_publish [r] [("c9", "cert-validate:{out}")]%string =
    ([("c9", "cert-validate:{out}"); ("c9", "cert-validate:{out}")]%string, None) /\
    r = success "c9" "cert-validate" "{out}".
Proof.
  assert (lab_process "single" "m1" ((0, IdemLab.lab_empty), []) =
    Done (((1, lab_cache), [("c9", "cert-validate:{out}")]), ("cert-validate", "ok", None))%string) as E1
    by (vm_compute; reflexivity).
  assert (lab_process "single" "m2" ((1, lab_cache), [("c9", "cert-validate:{out}")])%string =
    Done (((1, lab_cache), [("c9", "cert-validate:{out}"); ("c9", "cert-validate:{out}")]), ("cert-validate", "ok", None))%string)
    as E2 by (vm_compute; reflexivity).
  assert (ic_held (W := Z) lab_cache (idem_key lab_single) "{out}" 65) as Hh.
  { exists 0%nat. eexists. split; [vm_compute; reflexivity|]. split; [vm_compute; reflexivity|].
    split; [reflexivity|]. split; [reflexivity|]. right. vm_compute. discriminate. }
  destruct (mq_redelivery lab_svc lab_dec None true "panic" lab_js lab_publish lab_answered "single" "m1" lab_single
    _ _ _ _ _ _ _ _ _ lab_json_laws (IdemLab.lab_empty_holds IdemLab.lab_now _) (lab_recorded lab_single eq_refl) eq_refl eq_refl
    ltac:(done) eq_refl eq_refl E1) as [Hc _].
  destruct (mq_redelivery lab_svc lab_dec None true "panic" lab_js lab_publish lab_answered "single" "m2" lab_single
    _ _ _ _ _ _ _ _ _ lab_json_laws Hc (lab_recorded lab_single eq_refl) eq_refl eq_refl
    ltac:(done) eq_refl eq_refl E2) as (_ & r & _ & Hd & _ & Hhit).
  split; [exact E2|]. exists r. split; [exact Hd|].
  exact (proj1 (proj2 (Hhit "{out}"%string 65 Hh eq_refl))).
Defined.
End Mq.
