(* ===== verification/Brokers.v ===== *)
(** * The broker adapters
    (internal/transport/amqp/amqp.go, kafka/kafka.go, nats/nats.go, mq/sem.go)

    Delivery handling over an abstract processor ([Process] of Mq, by its publish
    callback) and an abstract client library: what is published where, and when a
    message is acknowledged. The AMQP accept loop with its semaphore, wait group
    and drain is a step system; the NATS one is another, over its callbacks. A
    delivery is handled in one step: what happens inside concurrent handlings is
    the processor's and its components' concern. *)
From S2P Require Import Prelude Errors Provider Dispatch IdemPort HttpIdem Mq.
Open Scope Z_scope.

Module Brokers.

(** [mq.NewSemaphore]: the capacity. *)
Definition NewSemaphore (n : Z) : Z := if n <? 1 then 1 else n.

Section Adapters.
  Context {St B : Type}.
  (** [Processor.Process]: publish, body, correlation id of the transport. *)
  Variable process : (string -> string -> B -> B * option goerr) -> string -> string ->
    M (St * B) (option goerr).

(** ** AMQP *)
Record amqp_delivery := mkAmqp { ad_tag : Z; ad_body : string; ad_corr : string; ad_reply_to : string }.
(** How a delivery was settled. *)
Inductive settlement := Acked | Requeued.

  (** Publishing to a queue, acknowledging, and rejecting with requeue. *)
  Variable amqp_send : string -> string -> string -> B -> B * option goerr.
  Variable amqp_ack : Z -> B -> B * option goerr.
  Variable amqp_nack : Z -> B -> B * option goerr.

Definition amqp_reply_to (reply_queue : string) (d : amqp_delivery) : string :=
  if empty_str (ad_reply_to d) then reply_queue else ad_reply_to d.
(** The callback; without an address there is nothing to publish. *)
Definition reply_with (send : string -> string -> string -> B -> B * option goerr) (replyTo corrID reply : string)
    (b : B) : B * option goerr :=
  if empty_str replyTo then (b, None) else send replyTo corrID reply b.
Definition amqp_handle (reply_queue : string) (d : amqp_delivery) : M (St * B) settlement :=
  (let* err := process (reply_with amqp_send (amqp_reply_to reply_queue d)) (ad_body d) (ad_corr d) in
   match err with
   | Some _ => let* _ := in_store (amqp_nack (ad_tag d)) in mret Requeued
   | None => let* _ := in_store (amqp_ack (ad_tag d)) in mret Acked
   end)%m.
Definition prefetch_of (cfg_prefetch concurrency : Z) : Z := if cfg_prefetch <? 1 then concurrency else cfg_prefetch.

(** ** NATS *)
Record nats_msg := mkNats { nm_seq : Z; nm_data : string; nm_reply : string; nm_header : option (gmap string string) }.
  (** Publishing to a subject with headers, and the two acknowledgements. *)
  Variable nats_publish : string -> gmap string string -> string -> B -> B * option goerr.
  Variable nats_ack_sync : Z -> B -> B * option goerr.
  Variable nats_ack : Z -> B -> B * option goerr.

Definition MsgIdHdr : string := "Nats-Msg-Id".
Definition corrIDFromHeader (m : nats_msg) : string :=
  match nm_header m with None => "" | Some h => default "" (h !! MsgIdHdr) end.
Definition nats_send (subject corrID reply : string) : B -> B * option goerr :=
  nats_publish subject (if empty_str corrID then ∅ else {[MsgIdHdr := corrID]}) reply.
(** [true]: acknowledged. *)
Definition nats_handle (reply_subject : string) (m : nats_msg) : M (St * B) bool :=
  let replyTo := if empty_str (nm_reply m) then reply_subject else nm_reply m in
  (let* err := process (reply_with nats_send replyTo) (nm_data m) (corrIDFromHeader m) in
   match err with
   | Some _ => mret false
   | None =>
       let* e := in_store (nats_ack_sync (nm_seq m)) in
       match e with
       | Some _ => let* _ := in_store (nats_ack (nm_seq m)) in mret true
       | None => mret true
       end
   end)%m.

(** ** Kafka *)
Record kafka_record := mkRecord { kr_offset : Z; kr_key : string; kr_value : string; kr_headers : list (string * string) }.
Definition replyTopicHeader : string := "reply-topic".
  (** Producing to a topic, polling (none: closed or the context ended), and
      committing a poll's records. *)
  Variable kafka_produce : string -> string -> string -> B -> B * option goerr.
  Variable kafka_poll : B -> B * option (list kafka_record).
  Variable kafka_commit : list kafka_record -> B -> B * option goerr.

Definition replyTopicFor (reply_topic : string) (r : kafka_record) : string :=
  fold_left (fun topic h => if str_eqb (fst h) replyTopicHeader && negb (empty_str (snd h)) then snd h else topic)
    (kr_headers r) reply_topic.
Definition kafka_handle (reply_topic : string) (r : kafka_record) : M (St * B) bool :=
  (let* err := process (reply_with kafka_produce (replyTopicFor reply_topic r)) (kr_value r) (kr_key r) in
   mret match err with Some _ => false | None => true end)%m.
(** [handleBatch]: every record, whatever happens to the others; the processing
    context is never cancelled, so a slot is always acquired. *)
Definition kafka_handleBatch (reply_topic : string) (records : list kafka_record) : M (St * B) bool :=
  mfold (fun ok r => (let* done_ := kafka_handle reply_topic r in mret (ok && done_))%m) true records.
(** [Run], for so many polls: the polls and whether each was committed. *)
Fixpoint kafka_Run (polls : nat) (reply_topic : string) : M (St * B) (list (list kafka_record * bool)) :=
  match polls with
  | O => mret []
  | S n =>
      (let* fetches := in_store kafka_poll in
       match fetches with
       | None => mret []
       | Some [] => kafka_Run n reply_topic
       | Some records =>
           let* ok := kafka_handleBatch reply_topic records in
           let* _ := (if ok then in_store (kafka_commit records) else mret None) in
           let* rest := kafka_Run n reply_topic in
           mret ((records, ok) :: rest)
       end)%m
  end.

(** ** The AMQP accept loop
    [Run] as a step system: deliveries arrive, a slot is acquired for each, a
    goroutine handles it, gives its slot back and then leaves the wait group.
    Once the context has ended or the channel is closed, the loop waits for the
    group and returns. *)
Inductive phase := Handling | Settled | Freed.
#[global] Instance phase_eq_dec : EqDecision phase.
Proof. solve_decision. Defined.
Inductive loop := Accepting | Acquiring (d : amqp_delivery) | Draining | Returned.
Record consumer := mkConsumer {
  co_world : St * B; co_done : bool; co_closed : bool; co_loop : loop;
  co_tasks : list (amqp_delivery * phase);
  co_received : list amqp_delivery; co_settled : list (amqp_delivery * settlement);
  co_dropped : list amqp_delivery;
}.
Definition slots {A} (tasks : list (A * phase)) : Z :=
  Z.of_nat (length (filter (fun t => snd t <> Freed) tasks)).
Definition with_loop (l : loop) (s : consumer) : consumer :=
  mkConsumer (co_world s) (co_done s) (co_closed s) l (co_tasks s) (co_received s) (co_settled s) (co_dropped s).
Definition with_tasks (ts : list (amqp_delivery * phase)) (s : consumer) : consumer :=
  mkConsumer (co_world s) (co_done s) (co_closed s) (co_loop s) ts (co_received s) (co_settled s) (co_dropped s).
Definition received (d : amqp_delivery) (s : consumer) : consumer :=
  mkConsumer (co_world s) (co_done s) (co_closed s) (Acquiring d) (co_tasks s) (d :: co_received s)
    (co_settled s) (co_dropped s).
Definition dropped (d : amqp_delivery) (s : consumer) : consumer :=
  mkConsumer (co_world s) (co_done s) (co_closed s) Draining (co_tasks s) (co_received s) (co_settled s)
    (d :: co_dropped s).
Definition settled (d : amqp_delivery) (v : settlement) (w : St * B) (ts : list (amqp_delivery * phase))
    (s : consumer) : consumer :=
  mkConsumer w (co_done s) (co_closed s) (co_loop s) ts (co_received s) ((d, v) :: co_settled s) (co_dropped s).
Definition interrupt (done_ closed : bool) (s : consumer) : consumer :=
  mkConsumer (co_world s) done_ closed (co_loop s) (co_tasks s) (co_received s) (co_settled s) (co_dropped s).

Inductive amqp_step (reply_queue : string) (concurrency : Z) : consumer -> consumer -> Prop :=
| ACancel s : amqp_step reply_queue concurrency s (interrupt true (co_closed s) s)
| AClose s : amqp_step reply_queue concurrency s (interrupt (co_done s) true s)
| AWorld s w : amqp_step reply_queue concurrency s
    (mkConsumer w (co_done s) (co_closed s) (co_loop s) (co_tasks s) (co_received s) (co_settled s) (co_dropped s))
| AReceive s d : co_loop s = Accepting -> amqp_step reply_queue concurrency s (received d s)
| AAcquire s d : co_loop s = Acquiring d -> slots (co_tasks s) < NewSemaphore concurrency ->
    amqp_step reply_queue concurrency s (with_loop Accepting (with_tasks ((d, Handling) :: co_tasks s) s))
| ARefuse s d : co_loop s = Acquiring d -> co_done s = true -> amqp_step reply_queue concurrency s (dropped d s)
| AStop s : co_loop s = Accepting -> co_done s || co_closed s = true ->
    amqp_step reply_queue concurrency s (with_loop Draining s)
| ASettle s l1 d l2 w v : co_tasks s = l1 ++ (d, Handling) :: l2 ->
    amqp_handle reply_queue d (co_world s) = Done (w, v) ->
    amqp_step reply_queue concurrency s (settled d v w (l1 ++ (d, Settled) :: l2) s)
| ARelease s l1 d l2 : co_tasks s = l1 ++ (d, Settled) :: l2 ->
    amqp_step reply_queue concurrency s (with_tasks (l1 ++ (d, Freed) :: l2) s)
| ALeave s l1 d l2 : co_tasks s = l1 ++ (d, Freed) :: l2 ->
    amqp_step reply_queue concurrency s (with_tasks (l1 ++ l2) s)
| AReturn s : co_loop s = Draining -> co_tasks s = [] ->
    amqp_step reply_queue concurrency s (with_loop Returned s).
Definition consumer_init (w : St * B) : consumer := mkConsumer w false false Accepting [] [] [] [].

(** The deliveries whose handling has not ended, and the one being acquired for. *)
Definition handling {A} (ts : list (A * phase)) : list A :=
  map fst (filter (fun t => snd t = Handling) ts).
Definition acquiring (l : loop) : list amqp_delivery := match l with Acquiring d => [d] | _ => [] end.

Record amqp_ok (concurrency : Z) (s : consumer) : Prop := {
  ao_bound : slots (co_tasks s) <= NewSemaphore concurrency;
  ao_all : co_received s ≡ₚ
    map fst (co_settled s) ++ handling (co_tasks s) ++ acquiring (co_loop s) ++ co_dropped s;
  ao_dropped : (length (co_dropped s) <= 1)%nat /\
    (co_dropped s <> [] -> co_loop s = Draining \/ co_loop s = Returned);
  ao_returned : co_loop s = Returned -> co_tasks s = [];
}.
End Adapters.

(** ** Tasks *)
Lemma slots_middle {A} l1 (d : A) p l2 :
  slots (l1 ++ (d, p) :: l2) = slots (l1 ++ l2) + (if decide (p = Freed) then 0 else 1).
Proof.
  unfold slots. rewrite !filter_app, filter_cons. cbn [snd]. destruct (decide (p = Freed)) as [->|Hp].
  - rewrite decide_False by (intros H; by apply H). lia.
  - rewrite decide_True by done. rewrite !length_app. cbn [length]. lia.
Qed.
Lemma handling_middle {A} l1 (d : A) p l2 :
  handling (l1 ++ (d, p) :: l2) ≡ₚ (if decide (p = Handling) then [d] else []) ++ handling (l1 ++ l2).
Proof.
  unfold handling. rewrite !filter_app, filter_cons. cbn [snd]. destruct (decide (p = Handling)); [|done].
  rewrite !map_app. cbn [map fst app]. by rewrite Permutation_middle.
Qed.

(** ** The accept loop drains *)
Section Loop.
  Context {St B : Type}.
  Variable process : (string -> string -> B -> B * option goerr) -> string -> string ->
    M (St * B) (option goerr).
  Variable amqp_send : string -> string -> string -> B -> B * option goerr.
  Variable amqp_ack : Z -> B -> B * option goerr.
  Variable amqp_nack : Z -> B -> B * option goerr.
  Variable reply_queue : string.
  Variable concurrency : Z.
Notation step := (amqp_step process amqp_send amqp_ack amqp_nack reply_queue concurrency).
Notation handle := (amqp_handle process amqp_send amqp_ack amqp_nack reply_queue).
Notation consumer := (@consumer St B).

Lemma amqp_step_ok (s s' : consumer) : step s s' -> amqp_ok concurrency s -> amqp_ok concurrency s'.
Proof.
  intros Hs [Hb Ha [Hd Hd'] Hr].
  destruct Hs as [s|s|s w|s d Hl|s d Hl Hslot|s d Hl Hc|s Hl Hc|s l1 d l2 w v Ht Hh|s l1 d l2 Ht|s l1 d l2 Ht|s Hl Ht];
    split; cbn [interrupt received dropped settled with_loop with_tasks co_tasks co_loop co_received co_settled
      co_dropped acquiring]; try done; rewrite ?Hl, ?Ht in *.
  all: cbn [acquiring app] in *.
  - rewrite Ha. by rewrite !app_assoc, Permutation_middle.
  - split; [done|]. by intros [[=]|[=]]%Hd'.
  - change ((d, Handling) :: co_tasks s) with ([] ++ (d, Handling) :: co_tasks s). rewrite slots_middle. cbn [app].
    rewrite decide_False by done. lia.
  - change ((d, Handling) :: co_tasks s) with ([] ++ (d, Handling) :: co_tasks s). rewrite handling_middle, Ha.
    rewrite decide_True by done. cbn [app].
    by rewrite <- Permutation_middle.
  - split; [done|]. by intros [[=]|[=]]%Hd'.
  - done.
  - destruct (co_dropped s); [|by destruct Hd' as [[=]|[=]]]. split; [done|]. by left.
  - done.
  - split; [done|]. by left.
  - rewrite slots_middle in *. rewrite decide_False in * by done. done.
  - rewrite handling_middle in *. rewrite decide_True in Ha by done. rewrite decide_False by done. rewrite Ha.
    cbn [map fst app]. by rewrite <- Permutation_middle.
  - intros Hx. by apply Hr, app_eq_nil in Hx as [_ ?].
  - rewrite slots_middle in *. rewrite decide_True by done. rewrite decide_False in Hb by done. lia.
  - rewrite handling_middle in *. by rewrite !decide_False in * by done.
  - intros Hx. by apply Hr, app_eq_nil in Hx as [_ ?].
  - rewrite slots_middle in Hb. rewrite decide_True in Hb by done. lia.
  - rewrite handling_middle in *. by rewrite !decide_False in * by done.
  - intros Hx. by apply Hr, app_eq_nil in Hx as [_ ?].
  - done.
  - split; [done|]. by right.
Qed.

Lemma amqp_init_ok w : amqp_ok concurrency (consumer_init w : consumer).
Proof.
  split; cbn; [|done|split; [lia|done]|done]. unfold NewSemaphore, slots. destruct (concurrency <? 1) eqn:E; boolp; cbn; lia.
Qed.

(** *** What the broker sees of a delivery *)

(** What [Process] promises to the adapters: replies with their correlation ids,
    at least one, are handed to the callback in order up to the first that it
    refuses, and that refusal is the error returned. *)
Fixpoint deliver_all (publish : string -> string -> B -> B * option goerr) (l : list (string * string)) (b : B)
    : B * option goerr :=
  match l with
  | [] => (b, None)
  | p :: t => let (b', e) := publish (fst p) (snd p) b in
              match e with Some e => (b', Some e) | None => deliver_all publish t b' end
  end.
Definition replies_law : Prop := forall publish body corr st b st' b' err,
  process publish body corr (st, b) = Done ((st', b'), err) ->
  exists l, l <> [] /\ deliver_all publish l b = (b', err).

(** The calls on the channel, with their results, as the broker could list them. *)
Inductive amqp_call :=
| Sent (to corr reply : string) (e : option goerr) | AckSent (tag : Z) (e : option goerr) | NackSent (tag : Z) (e : option goerr).
Record amqp_calls := mkCalls {
  history : B -> list amqp_call;
  hi_send : forall to corr reply b b' e, amqp_send to corr reply b = (b', e) -> history b' = history b ++ [Sent to corr reply e];
  hi_ack : forall tag b b' e, amqp_ack tag b = (b', e) -> history b' = history b ++ [AckSent tag e];
  hi_nack : forall tag b b' e, amqp_nack tag b = (b', e) -> history b' = history b ++ [NackSent tag e];
}.
  Variable calls : amqp_calls.
  Hypothesis replies : replies_law.
Notation seen := (history calls).

Definition accepted (to : string) (l : list (string * string)) : list amqp_call :=
  map (fun p => Sent to (fst p) (snd p) None) l.
(** The calls for one delivery: an acknowledgement after every reply was accepted,
    or with no address to send them to; a rejection right after the first reply
    that was not. *)
Definition settling (d : amqp_delivery) (v : settlement) (evs : list amqp_call) : Prop :=
  let to := amqp_reply_to reply_queue d in
  exists l, l <> [] /\
    match v with
    | Acked => exists e, evs = (if empty_str to then [] else accepted to l) ++ [AckSent (ad_tag d) e]
    | Requeued => exists l1 p l2 e e', to <> ""%string /\ l = l1 ++ p :: l2 /\
        evs = accepted to l1 ++ [Sent to (fst p) (snd p) (Some e); NackSent (ad_tag d) e']
    end.

Lemma deliver_nowhere l b : deliver_all (reply_with amqp_send "") l b = (b, None).
Proof. induction l as [|p l IH]; [done|]. cbn. exact IH. Qed.
Lemma deliver_seen to l b b' err : to <> ""%string -> deliver_all (reply_with amqp_send to) l b = (b', err) ->
  match err with
  | None => seen b' = seen b ++ accepted to l
  | Some e => exists l1 p l2, l = l1 ++ p :: l2 /\ seen b' = seen b ++ accepted to l1 ++ [Sent to (fst p) (snd p) (Some e)]
  end.
Proof.
  intros Hto. revert b. induction l as [|p l IH]; intros b; cbn [deliver_all].
  { intros [= <- <-]. by rewrite app_nil_r. }
  unfold reply_with at 1. rewrite (proj2 (str_eqb_neq _ _) Hto : empty_str to = false).
  destruct (amqp_send to (fst p) (snd p) b) as [b1 e1] eqn:Es. apply (hi_send calls) in Es. destruct e1 as [e|].
  - intros [= <- <-]. exists [], p, l. by rewrite Es.
  - intros Hd. specialize (IH b1 Hd). rewrite Es in IH. destruct err as [e|].
    + destruct IH as (l1 & q & l2 & -> & ->). exists (p :: l1), q, l2. by rewrite <- app_assoc.
    + by rewrite IH, <- app_assoc.
Qed.
Lemma handle_seen d st b st' b' v : handle d (st, b) = Done ((st', b'), v) ->
  exists evs, settling d v evs /\ seen b' = seen b ++ evs.
Proof.
  intros ([s1 b1] & err & Hp & Hk)%mbind_done. apply replies in Hp as (l & Hne & Hd).
  destruct (decide (amqp_reply_to reply_queue d = ""%string)) as [Hto|Hto].
  - rewrite Hto, deliver_nowhere in Hd. injection Hd as -> <-.
    apply mbind_done in Hk as ([s2 b2] & e & [-> Ha]%in_store_done & [[= -> ->] ->]%mret_done).
    apply (hi_ack calls) in Ha. eexists. split; [|exact Ha]. exists l. split; [done|]. exists e. by rewrite Hto.
  - apply deliver_seen in Hd; [|done]. destruct err as [e0|];
      apply mbind_done in Hk as ([s2 b2] & e & [-> Ha]%in_store_done & [[= -> ->] ->]%mret_done).
    + destruct Hd as (l1 & p & l2 & El & Hd). apply (hi_nack calls) in Ha. rewrite Hd in Ha.
      eexists. split; [|by rewrite Ha, <- app_assoc]. exists l. split; [done|].
      exists l1, p, l2, e0, e. by rewrite <- app_assoc.
    + apply (hi_ack calls) in Ha. rewrite Hd in Ha. eexists. split; [|by rewrite Ha, <- app_assoc].
      exists l. split; [done|]. exists e. by rewrite (proj2 (str_eqb_neq _ _) Hto : empty_str _ = false).
Qed.

(** A step in which the rest of the process only adds to the calls. *)
Definition lived (s s' : consumer) : Prop :=
  step s s' /\ seen (snd (co_world s)) `prefix_of` seen (snd (co_world s')).
Definition recorded_calls (s : consumer) : Prop := forall d v, (d, v) ∈ co_settled s ->
  exists before_ evs after_, settling d v evs /\ seen (snd (co_world s)) = before_ ++ evs ++ after_.

Lemma lived_recorded (s s' : consumer) : lived s s' -> recorded_calls s -> recorded_calls s'.
Proof.
  intros [Hs [ext He]] H.
  assert (forall d v, (d, v) ∈ co_settled s -> exists b evs a, settling d v evs /\ seen (snd (co_world s')) = b ++ evs ++ a) as Hold.
  { intros d v Hin. destruct (H d v Hin) as (b & evs & a & Hv & Eb). exists b, evs, (a ++ ext). split; [done|].
    by rewrite He, Eb, <- !app_assoc. }
  intros d v. destruct Hs as [| | | | | | |s l1 d' l2 w v' Ht Hh| | |]; cbn in *; try apply Hold.
  intros [[= -> ->]|Hin]%elem_of_cons; [|by apply Hold]. destruct (co_world s) as [st b], w as [st' b'].
  destruct (handle_seen _ _ _ _ _ _ Hh) as (evs & Hv & Eb). exists (seen b), evs, []. by rewrite app_nil_r.
Qed.

End Loop.

(** ** Kafka polls *)
Section Kafka.
  Context {St B : Type}.
  Variable process : (string -> string -> B -> B * option goerr) -> string -> string ->
    M (St * B) (option goerr).
  Variable kafka_produce : string -> string -> string -> B -> B * option goerr.
  Variable kafka_poll : B -> B * option (list kafka_record).
  Variable kafka_commit : list kafka_record -> B -> B * option goerr.
Notation handle := (kafka_handle process kafka_produce).
Notation handleBatch := (kafka_handleBatch process kafka_produce).

(** A record whose processing published all its replies. *)
Definition answered (reply_topic : string) (r : kafka_record) : Prop :=
  exists w w', process (reply_with kafka_produce (replyTopicFor reply_topic r)) (kr_value r) (kr_key r) w = Done (w', None).

Lemma handle_answered topic r (w w' : St * B) : handle topic r w = Done (w', true) -> answered topic r.
Proof.
  intros (w1 & err & Hp & Hk)%mbind_done. apply mret_done in Hk as [_ E]. destruct err; [done|].
  by exists w, w1.
Qed.
Lemma handleBatch_answered topic records (w w' : St * B) :
  handleBatch topic records w = Done (w', true) -> forall r, r ∈ records -> answered topic r.
Proof.
  unfold kafka_handleBatch. generalize true at 1 as ok. revert w. induction records as [|x t IH]; intros w ok.
  { intros _ r Hr. by apply elem_of_nil in Hr. }
  cbn [mfold]. intros (w1 & b & Hx & Hk)%mbind_done r [->|Hr]%elem_of_cons; [|by eapply IH].
  apply mbind_done in Hx as (w2 & d & Hx & Hb). apply mret_done in Hb as [_ ->].
  assert (ok && d = true) as [_ ->]%andb_true_iff; [|by eapply handle_answered].
  clear -Hk. revert Hk. generalize (ok && d) as b. revert w1. induction t as [|y t IH]; intros w b.
  - by intros [_ <-]%mret_done.
  - intros (w1 & b1 & Hy & Hk)%mbind_done. apply IH in Hk. apply mbind_done in Hy as (w3 & d3 & _ & Hb).
    apply mret_done in Hb as [_ ->]. by apply andb_true_iff in Hk as [-> _].
Qed.

(** A poll whose records were committed had every reply published. *)
Lemma kafka_commit_sound polls topic (w w' : St * B) tr :
  kafka_Run process kafka_produce kafka_poll kafka_commit polls topic w = Done (w', tr) ->
  forall records, (records, true) ∈ tr -> forall r, r ∈ records -> answered topic r.
Proof.
  revert w tr. induction polls as [|n IH]; intros w tr; cbn [kafka_Run].
  { intros [_ ->]%mret_done records Hin. by apply elem_of_nil in Hin. }
  intros (w1 & fetches & _ & Hk)%mbind_done. destruct fetches as [[|x t]|]; [by eapply IH| |].
  2:{ apply mret_done in Hk as [-> ->]. intros records Hin. by apply elem_of_nil in Hin. }
  apply mbind_done in Hk as (w2 & ok & Hb & Hk). apply mbind_done in Hk as (w3 & e & _ & Hk).
  apply mbind_done in Hk as (w4 & rest & Hr & Hk). apply mret_done in Hk as [-> ->].
  intros records [[= -> <-]|Hin]%elem_of_cons; [exact (handleBatch_answered _ _ _ _ Hb)|exact (IH _ _ Hr _ Hin)].
Qed.
End Kafka.

(** ** A concrete broker
    What was published, and a topic with its fetch position and the group's
    committed offset: a poll returns one record and moves the position, a commit
    records the offset after the last record. *)
Record broker := mkBroker { bk_sent : list (string * string * string); bk_log : list kafka_record;
  bk_position : nat; bk_committed : Z }.
Definition lab_send (refused : string) (to corr reply : string) (b : broker) : broker * option goerr :=
  if str_eqb corr refused then (b, Some (Errors.New "publish"))
  else (mkBroker (bk_sent b ++ [(to, corr, reply)]) (bk_log b) (bk_position b) (bk_committed b), None).
Definition lab_poll (b : broker) : broker * option (list kafka_record) :=
  match bk_log b !! bk_position b with
  | None => (b, None)
  | Some r => (mkBroker (bk_sent b) (bk_log b) (S (bk_position b)) (bk_committed b), Some [r])
  end.
Definition lab_commit (l : list kafka_record) (b : broker) : broker * option goerr :=
  (mkBroker (bk_sent b) (bk_log b) (bk_position b)
     (fold_left (fun o r => Z.max o (kr_offset r + 1)) l (bk_committed b)), None).
(** A processor that answers every message with one reply. *)
Definition lab_process (publish : string -> string -> broker -> broker * option goerr) (body corr : string) :
    M (unit * broker) (option goerr) := in_store (publish corr ("re:" ++ body)%string).

Definition lab_log : list kafka_record := [mkRecord 0 "a" "m0" []; mkRecord 1 "b" "m1" []].
(** The reply to the first record cannot be published, so its poll is not
    committed; the next poll is, and the committed offset passes both records:
    the first one is neither answered nor read again. *)
Example kafka_failed_poll_skipped :
  kafka_Run lab_process (lab_send "a") lab_poll lab_commit 2 "out" (tt, mkBroker [] lab_log 0 0) =
  Done ((tt, mkBroker [("out", "b", "re:m1")] lab_log 2 2),
        [([mkRecord 0 "a" "m0" []], false); ([mkRecord 1 "b" "m1" []], true)])%string.
Proof. reflexivity. Qed.

(** Two replies to one NATS message, as a batch has them, carry the same
    message id, by which a stream recognises duplicates. *)
Example nats_batch_same_id :
  let two publish (_ corr : string) : M (unit * list (gmap string string)) (option goerr) :=
    (let* _ := in_store (publish corr "item") in in_store (publish corr "summary"))%m in
  nats_handle two (fun _ h _ b => (b ++ [h], None)) (fun _ b => (b, None)) (fun _ b => (b, None)) "out"
    (mkNats 1 "m" "" (Some {["Nats-Msg-Id" := "c1"]})) (tt, []) =
  Done ((tt, [{["Nats-Msg-Id" := "c1"]}; {["Nats-Msg-Id" := "c1"]}]), true)%string.
Proof. reflexivity. Qed.

(** *** The processor of Mq behind the consumer *)
Section MqProcessor.
  Context {W C : Type} `{IdemPort W C}.
  Variable svc : Locale -> Dispatch.Dispatch.core_ops W.
  Variable dec : Dispatch.Dispatch.decoders.
  Variable jobs : option (Mq.Mq.job_port W).
  Variable idem : bool.
  Variable panic_text : string.
  Variable js : Mq.Mq.json_port.
Definition mq_process {B} (publish : string -> string -> B -> B * option goerr) (body corr : string) :
    M ((W * C) * B) (option goerr) :=
  (let* x := Mq.Mq.Process svc dec jobs idem panic_text js publish body corr in mret (snd x))%m.
Lemma mq_replies_law {B} : replies_law (mq_process (B := B)).
Proof.
  intros publish body corr [w c] b [w' c'] b' err ([[w1 c1] b1] & [[o oc] e] & Hp & [[= -> -> ->] ->]%mret_done)%mbind_done.
  apply Mq.Mq.process_delivers in Hp as (l & Hne & Hd). cbn [snd].
  exists (map (fun r => (Mq.Mq.rp_corr r, Mq.Mq.encodeReply js r)) l). split; [by destruct l|].
  revert b Hd. clear Hne. induction l as [|r l IH]; intros b Hd; [exact Hd|]. cbn [map deliver_all fst snd Mq.Mq.deliver] in *.
  destruct (publish _ _ b) as [b2 [e2|]]; [exact Hd|by apply IH].
Qed.
End MqProcessor.

(** A channel that keeps the calls, and accepts all but the replies to "bad". *)
Definition lab_channel_send (to corr reply : string) (b : list amqp_call) : list amqp_call * option goerr :=
  let e := if str_eqb to "bad" then Some (Errors.New "publish") else None in (b ++ [Sent to corr reply e], e).
Definition lab_channel_ack (tag : Z) (b : list amqp_call) : list amqp_call * option goerr := (b ++ [AckSent tag None], None).
Definition lab_channel_nack (tag : Z) (b : list amqp_call) : list amqp_call * option goerr := (b ++ [NackSent tag None], None).
Definition lab_calls : amqp_calls lab_channel_send lab_channel_ack lab_channel_nack.
Proof.
  refine (mkCalls _ _ _ id _ _ _).
  - by intros to corr reply b b' e [= <- <-].
  - by intros tag b b' e [= <- <-].
  - by intros tag b b' e [= <- <-].
Defined.

Definition lab_mq := mq_process (C := Idempotency.cache) Mq.Mq.lab_svc Dispatch.Dispatch.lab_dec None true "panic" Mq.Mq.lab_js (B := list amqp_call).
Definition lab_delivery : amqp_delivery := mkAmqp 1 "single" "c1" "q".
Notation lab_lived := (lived lab_mq lab_channel_send lab_channel_ack lab_channel_nack "" 1 lab_calls).
Definition lab_world : (Z * Idempotency.cache) * list amqp_call := ((0, HttpIdem.IdemLab.lab_empty), []).
Definition lab_answered : outcome (((Z * Idempotency.cache) * list amqp_call) * settlement) :=
  amqp_handle lab_mq lab_channel_send lab_channel_ack lab_channel_nack "" lab_delivery lab_world.
Definition lab_answered_world := match lab_answered with Done (w, _) => w | Panic => lab_world end.
Definition lab_end : @consumer (Z * Idempotency.cache) (list amqp_call) :=
  mkConsumer lab_answered_world true false Returned [] [lab_delivery] [(lab_delivery, Acked)] [].

Lemma amqp_lab_run : rtc lab_lived (consumer_init lab_world) lab_end.
Proof.
  eapply rtc_l; [split; [by apply (AReceive _ _ _ _ _ _ _ lab_delivery)|reflexivity]|].
  eapply rtc_l; [split; [by eapply AAcquire|reflexivity]|]. eapply rtc_l; [split; [by apply ACancel|reflexivity]|].
  eapply rtc_l; [split; [by apply AStop|reflexivity]|].
  eapply rtc_l; [split; [by apply (ASettle _ _ _ _ _ _ _ [] lab_delivery [] lab_answered_world Acked); [|vm_compute; reflexivity]|]|].
  { apply prefix_nil. }
  eapply rtc_l; [split; [by apply (ARelease _ _ _ _ _ _ _ [] lab_delivery [])|reflexivity]|].
  eapply rtc_l; [split; [by apply (ALeave _ _ _ _ _ _ _ [] lab_delivery [])|reflexivity]|].
  eapply rtc_l; [split; [by apply AReturn|reflexivity]|]. apply rtc_refl.
Defined.
End Brokers.
