(* ===== verification/Consumers.v ===== *)
(** * Running the broker consumers
    (internal/transport/amqp/amqp.go, kafka/kafka.go, nats/nats.go: [Run])

    Connecting and letting go, with the connections that are open; and the NATS
    subscription, whose callbacks the client library runs one after another
    beside the goroutines they start. Handling a delivery is in Brokers. *)
From S2P Require Import Prelude Errors Brokers.
Open Scope Z_scope.

Module Consumers.
Import Brokers.Brokers.

(** ** Connections *)
Inductive resource := Connection | Channel | Client.
Section Connect.
  Context {W : Type}.
  (** The state: the world and what is open, last opened first. *)
Notation net := (W * list resource)%type.
Definition opening (r : resource) (m : M W (option goerr)) : M net (option goerr) := fun s =>
  match m (fst s) with
  | Done (w, None) => Done ((w, r :: snd s), None)
  | Done (w, Some e) => Done ((w, snd s), Some e)
  | Panic => Panic
  end.
Definition doing {A} (m : M W A) : M net A := fun s =>
  match m (fst s) with Done (w, a) => Done ((w, snd s), a) | Panic => Panic end.
(** A [defer]: what is left is closed when the body has returned. *)
Definition deferred {A} (close : M W unit) (body : M net A) : M net A :=
  (let* a := body in
   let* _ := doing close in
   let* _ := (fun s => Done ((fst s, List.tl (snd s)), tt)) in
   mret a)%m.
(** One step of a sequence that stops at an error. *)
Definition then_ (m : M net (option goerr)) (k : M net (option goerr)) : M net (option goerr) :=
  (let* err := m in match err with Some e => mret (Some e) | None => k end)%m.

Record amqp_config := mkAmqpConfig { am_url : string; am_queue : string; am_reply_queue : string; am_prefetch : Z }.
  Variable amqp_dial : string -> M W (option goerr).
  Variable amqp_channel : M W (option goerr).
  Variable amqp_qos : Z -> M W (option goerr).
  Variable amqp_consume : string -> M W (option goerr).
  Variable amqp_close_channel amqp_close : M W unit.
(** [Run], the accept loop given. *)
Definition amqp_Run (cfg : amqp_config) (concurrency : Z) (accept : M W unit) : M net (option goerr) :=
  then_ (opening Connection (amqp_dial (am_url cfg))) (deferred amqp_close
    (then_ (opening Channel amqp_channel) (deferred amqp_close_channel
      (then_ (doing (amqp_qos (prefetch_of (am_prefetch cfg) concurrency)))
        (then_ (doing (amqp_consume (am_queue cfg)))
          (let* _ := doing accept in mret None)%m))))).

Record nats_config := mkNatsConfig { na_url : string; na_subject : string; na_queue : string; na_reply_subject : string; na_durable : string }.
  Variable nats_connect : string -> M W (option goerr).
  Variable nats_jetstream : M W (option goerr).
  (** Subscribing with manual and explicit acknowledgement: the subject, the
      durable name and, for a queue group, its name. *)
  Variable nats_subscribe : string -> option string -> string -> M W (option goerr).
  Variable nats_close : M W unit.
Definition nats_Run (cfg : nats_config) (serve : M W unit) : M net (option goerr) :=
  then_ (opening Connection (nats_connect (na_url cfg))) (deferred nats_close
    (then_ (doing nats_jetstream)
      (then_ (doing (nats_subscribe (na_subject cfg) (if empty_str (na_queue cfg) then None else Some (na_queue cfg)) (na_durable cfg)))
        (let* _ := doing serve in mret None)%m))).

Record kafka_config := mkKafkaConfig { ka_brokers : list string; ka_topic : string; ka_reply_topic : string; ka_group : string }.
  Variable kafka_client : list string -> string -> string -> M W (option goerr).
  Variable kafka_close : M W unit.
Definition kafka_consume (cfg : kafka_config) (poll_loop : M W unit) : M net (option goerr) :=
  then_ (opening Client (kafka_client (ka_brokers cfg) (ka_group cfg) (ka_topic cfg)))
    (deferred kafka_close (let* _ := doing poll_loop in mret None)%m).

(** What a computation leaves open. *)
Definition balanced (m : M net (option goerr)) : Prop := forall w l w' l' e, m (w, l) = Done ((w', l'), e) -> l' = l.
Lemma doing_balanced (m : M W (option goerr)) : balanced (doing m).
Proof. intros w l w' l' e. unfold doing. cbn. destruct (m w) as [[w1 a]|]; [|done]. by intros [= _ <- _]. Qed.
Lemma serve_balanced (m : M W unit) : balanced (let* _ := doing m in mret None)%m.
Proof. intros w l w' l' e. unfold mbind_, doing, mret. cbn. destruct (m w) as [[w1 a]|]; [|done]. by intros [= _ <- _]. Qed.
Lemma then_balanced m k : balanced m -> balanced k -> balanced (then_ m k).
Proof.
  intros Hm Hk w l w' l' e ([w1 l1] & err & H1 & H2)%mbind_done. apply Hm in H1 as ->.
  destruct err; [|by eapply Hk]. by apply mret_done in H2 as [[= _ <-] _].
Qed.
Lemma scoped r m close body : balanced body -> balanced (then_ (opening r m) (deferred close body)).
Proof.
  intros Hb w l w' l' e ([w1 l1] & err & H1 & H2)%mbind_done. unfold opening in H1. cbn in H1.
  destruct (m w) as [[w2 [e1|]]|]; [| |done]; injection H1 as <- <- <-.
  - by apply mret_done in H2 as [[= _ <-] _].
  - apply mbind_done in H2 as ([w3 l3] & a & H2 & H3). apply Hb in H2 as ->.
    apply mbind_done in H3 as ([w4 l4] & u & H3 & H4). unfold doing in H3. cbn in H3. destruct (close w3) as [[w5 v]|]; [|done].
    injection H3 as <- <- _. apply mbind_done in H4 as (s & v' & [= <- _] & H4). by apply mret_done in H4 as [[= _ <-] _].
Qed.
(** Whatever fails and however it ends, a consumer leaves nothing open. *)
Theorem consumers_close :
  (forall cfg n accept, balanced (amqp_Run cfg n accept)) /\ (forall cfg serve, balanced (nats_Run cfg serve)) /\
  (forall cfg loop, balanced (kafka_consume cfg loop)).
Proof.
  split_and!; intros; repeat first [apply scoped | apply then_balanced; [apply doing_balanced|] | apply serve_balanced].
Qed.
End Connect.

(** ** The NATS subscription
    The library calls the handler for one message after another; a call waits for
    a slot and starts a goroutine. When the context has ended [Run] starts the
    drain, which stops new deliveries and returns at once, waits for the
    goroutines and closes the connection. *)
Inductive main := Serving | Waiting | Closed.
Section Nats.
  Context {St B : Type}.
  Variable process : (string -> string -> B -> B * option goerr) -> string -> string -> M (St * B) (option goerr).
  Variable nats_publish : string -> gmap string string -> string -> B -> B * option goerr.
  Variable nats_ack_sync nats_ack : Z -> B -> B * option goerr.
  Variable reply_subject : string.
  Variable concurrency : Z.
Notation handle := (nats_handle process nats_publish nats_ack_sync nats_ack reply_subject).
Record subscription := mkSub {
  su_world : St * B; su_done : bool; su_main : main; su_queue : list nats_msg; su_call : option nats_msg;
  su_tasks : list (nats_msg * phase); su_delivered : list nats_msg; su_settled : list (nats_msg * bool);
}.
Definition world (w : St * B) (s : subscription) : subscription :=
  mkSub w (su_done s) (su_main s) (su_queue s) (su_call s) (su_tasks s) (su_delivered s) (su_settled s).
Definition stopped (s : subscription) : subscription :=
  mkSub (su_world s) true (su_main s) (su_queue s) (su_call s) (su_tasks s) (su_delivered s) (su_settled s).
Definition running (m : main) (s : subscription) : subscription :=
  mkSub (su_world s) (su_done s) m (su_queue s) (su_call s) (su_tasks s) (su_delivered s) (su_settled s).
Definition delivered (m : nats_msg) (s : subscription) : subscription :=
  mkSub (su_world s) (su_done s) (su_main s) (su_queue s ++ [m]) (su_call s) (su_tasks s) (m :: su_delivered s) (su_settled s).
Definition called (m : nats_msg) (q : list nats_msg) (s : subscription) : subscription :=
  mkSub (su_world s) (su_done s) (su_main s) q (Some m) (su_tasks s) (su_delivered s) (su_settled s).
Definition begun (m : nats_msg) (s : subscription) : subscription :=
  mkSub (su_world s) (su_done s) (su_main s) (su_queue s) None ((m, Handling) :: su_tasks s) (su_delivered s) (su_settled s).
Definition tasked (ts : list (nats_msg * phase)) (s : subscription) : subscription :=
  mkSub (su_world s) (su_done s) (su_main s) (su_queue s) (su_call s) ts (su_delivered s) (su_settled s).
Definition ended (m : nats_msg) (b : bool) (w : St * B) (ts : list (nats_msg * phase)) (s : subscription) : subscription :=
  mkSub w (su_done s) (su_main s) (su_queue s) (su_call s) ts (su_delivered s) ((m, b) :: su_settled s).

Inductive nats_step : subscription -> subscription -> Prop :=
| NCancel s : nats_step s (stopped s)
| NWorld s w : nats_step s (world w s)
| NDeliver s m : su_main s = Serving -> nats_step s (delivered m s)
| NCall s m q : su_main s <> Closed -> su_queue s = m :: q -> su_call s = None -> nats_step s (called m q s)
| NBegin s m : su_call s = Some m -> slots (su_tasks s) < NewSemaphore concurrency -> nats_step s (begun m s)
| NEnd s l1 m l2 w b : su_tasks s = l1 ++ (m, Handling) :: l2 -> handle m (su_world s) = Done (w, b) ->
    nats_step s (ended m b w (l1 ++ (m, Settled) :: l2) s)
| NRelease s l1 m l2 : su_tasks s = l1 ++ (m, Settled) :: l2 -> nats_step s (tasked (l1 ++ (m, Freed) :: l2) s)
| NLeave s l1 m l2 : su_tasks s = l1 ++ (m, Freed) :: l2 -> nats_step s (tasked (l1 ++ l2) s)
| NDrain s : su_main s = Serving -> su_done s = true -> nats_step s (running Waiting s)
| NReturn s : su_main s = Waiting -> su_tasks s = [] -> nats_step s (running Closed s).
Definition subscribed (w : St * B) : subscription := mkSub w false Serving [] None [] [] [].

(** A message whose processing ended without an error: every reply published. *)
Definition answered_msg (m : nats_msg) : Prop := exists w w1,
  process (reply_with (nats_send nats_publish) (if empty_str (nm_reply m) then reply_subject else nm_reply m)) (nm_data m) (corrIDFromHeader m) w
    = Done (w1, None).
Record nats_ok (s : subscription) : Prop := {
  no_bound : slots (su_tasks s) <= NewSemaphore concurrency;
  no_all : su_delivered s ≡ₚ map fst (su_settled s) ++ handling (su_tasks s) ++ option_list (su_call s) ++ su_queue s;
  no_acked : forall m, (m, true) ∈ su_settled s -> answered_msg m;
}.
Lemma nats_handle_answered m w w' : handle m w = Done (w', true) -> answered_msg m.
Proof.
  intros (w1 & err & Hp & Hk)%mbind_done. destruct err as [e|]; [by apply mret_done in Hk as [_ ?]|]. by exists w, w1.
Qed.
Lemma nats_step_ok s s' : nats_step s s' -> nats_ok s -> nats_ok s'.
Proof.
  intros Hs [Hb Ha Hk].
  destruct Hs as [s|s w|s m Hm|s m q Hm Hq Hc|s m Hc Hl|s l1 m l2 w b Ht Hh|s l1 m l2 Ht|s l1 m l2 Ht|s Hm Hd|s Hm Ht];
    split; cbn [world stopped running delivered called begun tasked ended su_tasks su_delivered su_settled su_call su_queue]; try done; rewrite ?Ht, ?Hc, ?Hq in *.
  - rewrite Ha, !app_assoc. by rewrite (Permutation_cons_append _ m).
  - done.
  - change ((m, Handling) :: su_tasks s) with ([] ++ (m, Handling) :: su_tasks s). rewrite slots_middle. cbn [app]. rewrite decide_False by done. lia.
  - change ((m, Handling) :: su_tasks s) with ([] ++ (m, Handling) :: su_tasks s). rewrite handling_middle, Ha, decide_True by done.
    cbn [app option_list]. by rewrite (Permutation_middle _ _ m).
  - rewrite slots_middle in *. by rewrite !decide_False in * by done.
  - rewrite handling_middle in *. rewrite decide_True in Ha by done. rewrite decide_False by done. rewrite Ha. cbn [map fst app]. by rewrite <- Permutation_middle.
  - intros x [[= -> <-]|Hx]%elem_of_cons; [by eapply nats_handle_answered|by apply Hk].
  - rewrite slots_middle in *. rewrite decide_True by done. rewrite decide_False in Hb by done. lia.
  - rewrite handling_middle in *. by rewrite !decide_False in * by done.
  - rewrite slots_middle in Hb. rewrite decide_True in Hb by done. lia.
  - rewrite handling_middle in *. by rewrite !decide_False in * by done.
Qed.
(** In any order of deliveries, callbacks, completions and a shutdown: no more
    messages in work than the worker count; each delivered message is settled, in
    work, in the callback or queued; and an acknowledged one was answered. *)
Theorem nats_accounts w0 s : rtc nats_step (subscribed w0) s ->
  slots (su_tasks s) <= Z.max 1 concurrency /\
  su_delivered s ≡ₚ map fst (su_settled s) ++ handling (su_tasks s) ++ option_list (su_call s) ++ su_queue s /\
  forall m, (m, true) ∈ su_settled s -> answered_msg m.
Proof.
  intros Hr. assert (nats_ok s) as [Hb Ha Hk].
  { refine (rtc_ind_r nats_ok _ _ _ s Hr); [|intros x y _ Hxy Hx; by eapply nats_step_ok].
    split; cbn; [|done|by intros m ?%elem_of_nil]. unfold NewSemaphore, slots. destruct (concurrency <? 1) eqn:E; boolp; cbn; lia. }
  split; [|done]. unfold NewSemaphore in Hb. destruct (concurrency <? 1) eqn:E; boolp; lia.
Qed.
(** But a shutdown does not wait for what is queued: [Run] can return, and close
    the connection, with a delivered message that no callback has seen. *)
Lemma nats_leaves_queued w0 m : exists s, rtc nats_step (subscribed w0) s /\ su_main s = Closed /\ su_queue s = [m] /\ su_settled s = [].
Proof.
  eexists. split; [|split; [|split]].
  - eapply rtc_l; [by apply (NDeliver _ m)|]. eapply rtc_l; [apply NCancel|]. eapply rtc_l; [by apply NDrain|].
    eapply rtc_l; [by apply NReturn|]. apply rtc_refl.
  - done.
  - done.
  - done.
Qed.
End Nats.
End Consumers.
