(* ===== verification/Config.v ===== *)
(** * Configuration (internal/config/config.go, registry.go)

    The registry of settings, the layers they come from (defaults, file,
    environment with its side files, flags), the effective configuration, its
    validation and its dump. The sections are records, one field per setting; the
    usage texts are left out. koanf is a map from keys to values, and its decoding
    of that map a parameter; so are the flag parser, the file parsers and reading
    a file. *)
From stdpp Require Import sorting.
From S2P Require Import Prelude Errors Pki Asn1 Text Strconv.
Open Scope Z_scope.

Module Config.

Definition envPrefix : string := "QOLTANBA_".

(** ** The configuration *)
Record LibConfig := mkLibConfig {
  lib_path : string; lib_version : string; lib_isolated : bool; lib_isolation_deps : list string;
  lib_min_version : string; lib_compat : string;
}.
Record CryptoWorkerConfig := mkCryptoWorkerConfig {
  crypto_worker_enabled : bool; crypto_worker_processes : Z; crypto_worker_timeout : string;
  crypto_worker_max_ops : Z; crypto_worker_max_rss_mb : Z; crypto_worker_standby : Z;
  crypto_worker_keep_after_revoked : bool;
}.
Record ReceiptsConfig := mkReceiptsConfig {
  receipts_enabled : bool; receipts_signed_qr : bool; receipts_issuer : string;
}.
Record ChallengeConfig := mkChallengeConfig {
  challenge_enabled : bool; challenge_ttl : string; challenge_store : string;
  challenge_bolt_path : string; challenge_require_ocsp : bool;
}.
Record CertWatchConfig := mkCertWatchConfig {
  certwatch_enabled : bool; certwatch_dir : string; certwatch_interval : string;
  certwatch_warn_from : string; certwatch_webhook_url : string; certwatch_check_revocation : bool;
}.
Record PortalConfig := mkPortalConfig {
  portal_enabled : bool;
}.
Record MultisignConfig := mkMultisignConfig {
  multisign_enabled : bool; multisign_ttl : string; multisign_store : string;
  multisign_bolt_path : string;
}.
Record AuditConfig := mkAuditConfig {
  audit_enabled : bool; audit_path : string; audit_sync : bool; audit_expose : bool;
}.
Record ConsoleConfig := mkConsoleConfig {
  console_enabled : bool; console_sandbox_key : string; console_sandbox_key_password : string;
}.
Record HTTPConfig := mkHTTPConfig {
  http_enabled : bool; http_addr : string;
}.
Record GRPCConfig := mkGRPCConfig {
  grpc_enabled : bool; grpc_addr : string;
}.
Record AMQPConfig := mkAMQPConfig {
  amqp_url : string; amqp_queue : string; amqp_reply_queue : string; amqp_prefetch : Z;
}.
Record KafkaConfig := mkKafkaConfig {
  kafka_brokers : list string; kafka_topic : string; kafka_reply_topic : string; kafka_group : string;
}.
Record NATSConfig := mkNATSConfig {
  nats_url : string; nats_subject : string; nats_queue : string; nats_reply_subject : string;
  nats_durable : string;
}.
Record KeysConfig := mkKeysConfig {
  keys_allow_inline : bool;
}.
Record SignConfig := mkSignConfig {
  sign_default_timestamp : bool; sign_tsa_url : string;
}.
Record TrustConfig := mkTrustConfig {
  trust_ca_dir : string; trust_fetch_aia : bool; trust_aia_timeout : Z; trust_use_rk_registry : bool;
  trust_rk_include_test : bool; trust_verify_chain : bool; trust_refresh_interval : string;
  trust_crl_cache : bool; trust_crl_spool_dir : string; trust_crl_cache_max_mb : Z;
  trust_ocsp_cache : bool; trust_ocsp_cache_ttl : string; trust_ocsp_cache_max_entries : Z;
  trust_crl_fail_policy : string; trust_tsa_policies : list string;
}.
Record JobsConfig := mkJobsConfig {
  jobs_enabled : bool; jobs_store : string; jobs_bolt_path : string; jobs_max_concurrent : Z;
  jobs_queue_size : Z; jobs_max_input_mb : Z; jobs_ttl : string;
}.
Record IdempotencyConfig := mkIdempotencyConfig {
  idempotency_enabled : bool; idempotency_ttl : string; idempotency_max_entries : Z;
}.
Record InputConfig := mkInputConfig {
  input_allow_local_path : bool; input_allow_url : bool; input_allowed_schemes : list string;
  input_max_mb : Z; input_spool_dir : string;
}.
Record OIDCConfig := mkOIDCConfig {
  oidc_enabled : bool; oidc_issuer : string; oidc_key_path : string; oidc_challenge_ttl : string;
  oidc_token_ttl : string; oidc_store : string; oidc_bolt_path : string; oidc_require_ocsp : bool;
  oidc_audience : string; oidc_clients : list string;
}.
Record QRConfig := mkQRConfig {
  qr_enabled : bool; qr_public_base_url : string; qr_default_profile : string;
  qr_default_mode : string; qr_session_ttl : string; qr_store : string; qr_bolt_path : string;
  qr_require_ocsp : bool; qr_relay_url : string; qr_relay_id : string; qr_organization : string;
}.
Record LogConfig := mkLogConfig {
  log_level : string; log_format : string;
}.
Record MetricsConfig := mkMetricsConfig {
  metrics_enabled : bool; metrics_addr : string;
}.
Record Config := mkConfig {
  cfg_lib : LibConfig; cfg_workers : Z; cfg_verify_only : bool; cfg_locale : string;
  cfg_http : HTTPConfig; cfg_grpc : GRPCConfig; cfg_amqp : AMQPConfig; cfg_kafka : KafkaConfig;
  cfg_nats : NATSConfig; cfg_keys : KeysConfig; cfg_crypto_worker : CryptoWorkerConfig;
  cfg_sign : SignConfig; cfg_trust : TrustConfig; cfg_log : LogConfig; cfg_metrics : MetricsConfig;
  cfg_jobs : JobsConfig; cfg_idempotency : IdempotencyConfig; cfg_input : InputConfig;
  cfg_oidc : OIDCConfig; cfg_qr : QRConfig; cfg_receipts : ReceiptsConfig;
  cfg_certwatch : CertWatchConfig; cfg_portal : PortalConfig; cfg_multisign : MultisignConfig;
  cfg_audit : AuditConfig; cfg_console : ConsoleConfig; cfg_challenge : ChallengeConfig;
}.

(** ** The registry *)
Inductive kind := kindString | kindBool | kindInt | kindStringSlice.
(** Values of settings; a file may hold others. *)
Inductive value := VString (s : string) | VBool (b : bool) | VInt (n : Z) | VList (l : list string) | VOther (raw : string).
#[global] Instance kind_eq_dec : EqDecision kind.
Proof. solve_decision. Defined.
#[global] Instance value_eq_dec : EqDecision value.
Proof. solve_decision. Defined.
Record entry := mkEntry {
  e_key : string; e_flag : string; e_env : string; e_kind : kind; e_def : value; e_secret : bool;
}.
Definition plain (key flag env : string) (k : kind) (def : value) : entry := mkEntry key flag env k def false.
Definition hidden (key flag env : string) (k : kind) (def : value) : entry := mkEntry key flag env k def true.

Definition registry : list entry :=
  [
   plain "lib.path" "lib-path" "LIB_PATH" kindString (VString EmptyString);
   plain "lib.version" "lib-version" "LIB_VERSION" kindString (VString EmptyString);
   plain "lib.isolated" "lib-isolated" "LIB_ISOLATED" kindBool (VBool false);
   plain "lib.isolation-deps" "lib-isolation-deps" "LIB_ISOLATION_DEPS" kindStringSlice (VList []);
   plain "lib.min-version" "lib-min-version" "LIB_MIN_VERSION" kindString (VString "2.0.0");
   plain "lib.compat" "lib-compat" "LIB_COMPAT" kindString (VString "strict");
   plain "workers" "workers" "WORKERS" kindInt (VInt 1);
   plain "verify-only" "verify-only" "VERIFY_ONLY" kindBool (VBool false);
   plain "locale" "locale" "LOCALE" kindString (VString "en");
   plain "console.enabled" "console" "CONSOLE_ENABLED" kindBool (VBool false);
   plain "console.sandbox-key" "console-sandbox-key" "CONSOLE_SANDBOX_KEY" kindString (VString EmptyString);
      hidden "console.sandbox-key-password" "console-sandbox-key-password" "CONSOLE_SANDBOX_KEY_PASSWORD"
      kindString (VString EmptyString);
   plain "audit.enabled" "audit" "AUDIT_ENABLED" kindBool (VBool false);
   plain "audit.path" "audit-path" "AUDIT_PATH" kindString (VString EmptyString);
   plain "audit.sync" "audit-sync" "AUDIT_SYNC" kindBool (VBool false);
   plain "audit.expose" "audit-expose" "AUDIT_EXPOSE" kindBool (VBool false);
   plain "multisign.enabled" "multisign" "MULTISIGN_ENABLED" kindBool (VBool false);
   plain "multisign.ttl" "multisign-ttl" "MULTISIGN_TTL" kindString (VString "168h");
   plain "multisign.store" "multisign-store" "MULTISIGN_STORE" kindString (VString "memory");
   plain "multisign.bolt-path" "multisign-bolt-path" "MULTISIGN_BOLT_PATH" kindString (VString EmptyString);
   plain "portal.enabled" "portal" "PORTAL_ENABLED" kindBool (VBool false);
   plain "certwatch.enabled" "certwatch" "CERTWATCH_ENABLED" kindBool (VBool false);
   plain "certwatch.dir" "certwatch-dir" "CERTWATCH_DIR" kindString (VString EmptyString);
   plain "certwatch.interval" "certwatch-interval" "CERTWATCH_INTERVAL" kindString (VString "6h");
   plain "certwatch.warn-from" "certwatch-warn-from" "CERTWATCH_WARN_FROM" kindString (VString "720h");
      hidden "certwatch.webhook-url" "certwatch-webhook-url" "CERTWATCH_WEBHOOK_URL" kindString (VString
      EmptyString);
      plain "certwatch.check-revocation" "certwatch-check-revocation" "CERTWATCH_CHECK_REVOCATION" kindBool
      (VBool true);
   plain "challenge.enabled" "challenge" "CHALLENGE_ENABLED" kindBool (VBool false);
   plain "challenge.ttl" "challenge-ttl" "CHALLENGE_TTL" kindString (VString "5m");
   plain "challenge.store" "challenge-store" "CHALLENGE_STORE" kindString (VString "memory");
   plain "challenge.bolt-path" "challenge-bolt-path" "CHALLENGE_BOLT_PATH" kindString (VString EmptyString);
   plain "challenge.require-ocsp" "challenge-require-ocsp" "CHALLENGE_REQUIRE_OCSP" kindBool (VBool false);
   plain "receipts.enabled" "receipts" "RECEIPTS_ENABLED" kindBool (VBool false);
   plain "receipts.signed-qr" "signed-qr" "SIGNED_QR_ENABLED" kindBool (VBool false);
   plain "receipts.issuer" "receipts-issuer" "RECEIPTS_ISSUER" kindString (VString EmptyString);
   plain "crypto-worker.enabled" "crypto-worker" "CRYPTO_WORKER_ENABLED" kindBool (VBool true);
   plain "crypto-worker.processes" "crypto-worker-processes" "CRYPTO_WORKER_PROCESSES" kindInt (VInt 0);
   plain "crypto-worker.timeout" "crypto-worker-timeout" "CRYPTO_WORKER_TIMEOUT" kindString (VString "60s");
   plain "crypto-worker.max-ops" "crypto-worker-max-ops" "CRYPTO_WORKER_MAX_OPS" kindInt (VInt 1000);
   plain "crypto-worker.max-rss-mb" "crypto-worker-max-rss-mb" "CRYPTO_WORKER_MAX_RSS_MB" kindInt (VInt 512);
   plain "crypto-worker.standby" "crypto-worker-standby" "CRYPTO_WORKER_STANDBY" kindInt (VInt 1);
      plain "crypto-worker.keep-after-revoked" "crypto-worker-keep-after-revoked"
      "CRYPTO_WORKER_KEEP_AFTER_REVOKED" kindBool (VBool false);
   plain "http.enabled" "http" "HTTP_ENABLED" kindBool (VBool false);
   plain "http.addr" "http-addr" "HTTP_ADDR" kindString (VString ":8080");
   plain "grpc.enabled" "grpc" "GRPC_ENABLED" kindBool (VBool false);
   plain "grpc.addr" "grpc-addr" "GRPC_ADDR" kindString (VString ":9091");
   hidden "amqp.url" "amqp-url" "AMQP_URL" kindString (VString EmptyString);
   plain "amqp.queue" "amqp-queue" "AMQP_QUEUE" kindString (VString EmptyString);
   plain "amqp.reply-queue" "amqp-reply-queue" "AMQP_REPLY_QUEUE" kindString (VString EmptyString);
   plain "amqp.prefetch" "amqp-prefetch" "AMQP_PREFETCH" kindInt (VInt 0);
   plain "kafka.brokers" "kafka-brokers" "KAFKA_BROKERS" kindStringSlice (VList []);
   plain "kafka.topic" "kafka-topic" "KAFKA_TOPIC" kindString (VString EmptyString);
   plain "kafka.reply-topic" "kafka-reply-topic" "KAFKA_REPLY_TOPIC" kindString (VString EmptyString);
   plain "kafka.group" "kafka-group" "KAFKA_GROUP" kindString (VString "qoltanba");
   hidden "nats.url" "nats-url" "NATS_URL" kindString (VString EmptyString);
   plain "nats.subject" "nats-subject" "NATS_SUBJECT" kindString (VString EmptyString);
   plain "nats.queue" "nats-queue" "NATS_QUEUE" kindString (VString EmptyString);
   plain "nats.reply-subject" "nats-reply-subject" "NATS_REPLY_SUBJECT" kindString (VString EmptyString);
   plain "nats.durable" "nats-durable" "NATS_DURABLE" kindString (VString "qoltanba");
   plain "keys.allow-inline" "keys-allow-inline" "KEYS_ALLOW_INLINE" kindBool (VBool false);
   plain "sign.tsa-url" "sign-tsa-url" "SIGN_TSA_URL" kindString (VString EmptyString);
   plain "sign.default-timestamp" "sign-default-timestamp" "SIGN_DEFAULT_TIMESTAMP" kindBool (VBool false);
   plain "trust.ca-dir" "trust-ca-dir" "TRUST_CA_DIR" kindString (VString EmptyString);
   plain "trust.fetch-aia" "trust-fetch-aia" "TRUST_FETCH_AIA" kindBool (VBool false);
   plain "trust.aia-timeout" "trust-aia-timeout" "TRUST_AIA_TIMEOUT" kindInt (VInt 5);
   plain "trust.use-rk-registry" "trust-use-rk-registry" "TRUST_USE_RK_REGISTRY" kindBool (VBool false);
   plain "trust.rk-include-test" "trust-rk-include-test" "TRUST_RK_INCLUDE_TEST" kindBool (VBool false);
   plain "trust.verify-chain" "trust-verify-chain" "TRUST_VERIFY_CHAIN" kindBool (VBool false);
      plain "trust.refresh-interval" "trust-refresh-interval" "TRUST_REFRESH_INTERVAL" kindString (VString
      EmptyString);
   plain "trust.crl-cache" "trust-crl-cache" "TRUST_CRL_CACHE" kindBool (VBool false);
   plain "trust.crl-spool-dir" "trust-crl-spool-dir" "TRUST_CRL_SPOOL_DIR" kindString (VString EmptyString);
   plain "trust.ocsp-cache" "trust-ocsp-cache" "TRUST_OCSP_CACHE" kindBool (VBool false);
   plain "trust.ocsp-cache-ttl" "trust-ocsp-cache-ttl" "TRUST_OCSP_CACHE_TTL" kindString (VString "10m");
      plain "trust.ocsp-cache-max-entries" "trust-ocsp-cache-max-entries" "TRUST_OCSP_CACHE_MAX_ENTRIES"
      kindInt (VInt 0);
   plain "trust.crl-cache-max-mb" "trust-crl-cache-max-mb" "TRUST_CRL_CACHE_MAX_MB" kindInt (VInt 0);
   plain "trust.tsa-policies" "trust-tsa-policies" "TRUST_TSA_POLICIES" kindStringSlice (VList []);
   plain "trust.crl-fail-policy" "trust-crl-fail-policy" "TRUST_CRL_FAIL_POLICY" kindString (VString "soft");
   plain "log.level" "log-level" "LOG_LEVEL" kindString (VString "info");
   plain "log.format" "log-format" "LOG_FORMAT" kindString (VString "text");
   plain "metrics.enabled" "metrics" "METRICS_ENABLED" kindBool (VBool false);
   plain "metrics.addr" "metrics-addr" "METRICS_ADDR" kindString (VString ":9090");
   plain "jobs.enabled" "jobs" "JOBS_ENABLED" kindBool (VBool false);
   plain "jobs.store" "jobs-store" "JOBS_STORE" kindString (VString "memory");
   plain "jobs.bolt-path" "jobs-bolt-path" "JOBS_BOLT_PATH" kindString (VString EmptyString);
   plain "jobs.max-concurrent" "jobs-max-concurrent" "JOBS_MAX_CONCURRENT" kindInt (VInt 0);
   plain "jobs.queue-size" "jobs-queue-size" "JOBS_QUEUE_SIZE" kindInt (VInt 128);
   plain "jobs.max-input-mb" "jobs-max-input-mb" "JOBS_MAX_INPUT_MB" kindInt (VInt 0);
   plain "jobs.ttl" "jobs-ttl" "JOBS_TTL" kindString (VString "1h");
   plain "idempotency.enabled" "idempotency" "IDEMPOTENCY_ENABLED" kindBool (VBool false);
   plain "idempotency.ttl" "idempotency-ttl" "IDEMPOTENCY_TTL" kindString (VString "24h");
   plain "idempotency.max-entries" "idempotency-max-entries" "IDEMPOTENCY_MAX_ENTRIES" kindInt (VInt 8192);
   plain "input.allow-local-path" "input-allow-local-path" "INPUT_ALLOW_LOCAL_PATH" kindBool (VBool false);
   plain "input.allow-url" "input-allow-url" "INPUT_ALLOW_URL" kindBool (VBool false);
      plain "input.allowed-schemes" "input-allowed-schemes" "INPUT_ALLOWED_SCHEMES" kindStringSlice (VList
      ["https"]);
   plain "input.max-mb" "input-max-mb" "INPUT_MAX_MB" kindInt (VInt 0);
   plain "input.spool-dir" "input-spool-dir" "INPUT_SPOOL_DIR" kindString (VString EmptyString);
   plain "oidc.enabled" "oidc" "OIDC_ENABLED" kindBool (VBool false);
   plain "oidc.issuer" "oidc-issuer" "OIDC_ISSUER" kindString (VString EmptyString);
   hidden "oidc.key-path" "oidc-key-path" "OIDC_KEY_PATH" kindString (VString EmptyString);
   plain "oidc.challenge-ttl" "oidc-challenge-ttl" "OIDC_CHALLENGE_TTL" kindString (VString "5m");
   plain "oidc.token-ttl" "oidc-token-ttl" "OIDC_TOKEN_TTL" kindString (VString "1h");
   plain "oidc.store" "oidc-store" "OIDC_STORE" kindString (VString "memory");
   plain "oidc.bolt-path" "oidc-bolt-path" "OIDC_BOLT_PATH" kindString (VString EmptyString);
   plain "oidc.require-ocsp" "oidc-require-ocsp" "OIDC_REQUIRE_OCSP" kindBool (VBool true);
   plain "oidc.audience" "oidc-audience" "OIDC_AUDIENCE" kindString (VString EmptyString);
   hidden "oidc.clients" "oidc-clients" "OIDC_CLIENTS" kindStringSlice (VList []);
   plain "qr.enabled" "qr" "QR_ENABLED" kindBool (VBool false);
   plain "qr.public-base-url" "qr-public-base-url" "QR_PUBLIC_BASE_URL" kindString (VString EmptyString);
   plain "qr.default-profile" "qr-default-profile" "QR_DEFAULT_PROFILE" kindString (VString "agnostic");
   plain "qr.default-mode" "qr-default-mode" "QR_DEFAULT_MODE" kindString (VString "sign");
   plain "qr.session-ttl" "qr-session-ttl" "QR_SESSION_TTL" kindString (VString "5m");
   plain "qr.store" "qr-store" "QR_STORE" kindString (VString "memory");
   plain "qr.bolt-path" "qr-bolt-path" "QR_BOLT_PATH" kindString (VString EmptyString);
   plain "qr.require-ocsp" "qr-require-ocsp" "QR_REQUIRE_OCSP" kindBool (VBool false);
   plain "qr.relay-url" "qr-relay-url" "QR_RELAY_URL" kindString (VString EmptyString);
   plain "qr.relay-id" "qr-relay-id" "QR_RELAY_ID" kindString (VString EmptyString);
   plain "qr.organization" "qr-organization" "QR_ORGANIZATION" kindString (VString EmptyString)]%string.

(** [splitList]. *)
Definition splitList (s : string) : list string :=
  filter (fun p => p <> ""%string) (map trim_space (split "," s)).
Definition join_comma (l : list string) : string := String.concat "," l.

(** [envVar], [parse]. *)
Definition envVar (e : entry) : string := (envPrefix ++ e_env e)%string.
Definition parse (e : entry) (v : string) : value :=
  match e_kind e with
  | kindBool => VBool (default false (ParseBool (trim_space v)))
  | kindInt => VInt (fst (Atoi (trim_space v)))
  | kindStringSlice => VList (splitList v)
  | kindString => VString v
  end.

(** The type assertion on a default in [bind], which panics on another type. *)
Definition bind_default (e : entry) : outcome value :=
  match e_kind e, e_def e with
  | kindBool, VBool b => Done (VBool b)
  | kindInt, VInt n => Done (VInt n)
  | kindStringSlice, VList l => Done (VString (join_comma l))
  | kindString, VString s => Done (VString s)
  | _, _ => Panic
  end.
(** The getter of a flag that was set to [v]. *)
Definition getter (e : entry) (v : value) : value :=
  match e_kind e, v with kindStringSlice, VString s => VList (splitList s) | _, _ => v end.

(** ** Layers *)
Notation settings := (gmap string value).
Notation origins := (gmap string string).
Record Loaded := mkLoaded { ld_config : Config; ld_origins : origins }.
Definition layers : Type := (settings * origins).
Definition Set_ (key : string) (v : value) (origin : string) (st : layers) : layers :=
  (<[key := v]> (fst st), <[key := origin]> (snd st)).
(** A layer over the registry: the entries it has a value for. *)
Definition layer (given : entry -> option value) (origin : string) (st : layers) : layers :=
  fold_left (fun st e => match given e with Some v => Set_ (e_key e) v origin st | None => st end) registry st.

Section Load.
  (** The environment; [os.ReadFile]; [fs.Parse] for the [config] flag's default:
      the path and the flags set explicitly, by name; a config file's keys; the
      decoding into [Config]. *)
  Variable env : gmap string string.
  Variable read_file : string -> option string.
  Variable parse_flags : string -> res goerr (string * gmap string value).
  Variable load_file : string -> res goerr settings.
  Variable decode : settings -> res goerr Config.

(** [fromEnv]. *)
Definition fromEnv (e : entry) : option value :=
  let path := default ""%string (env !! (envVar e ++ "_FILE")%string) in
  match (if empty_str path then None else read_file path) with
  | Some data => Some (parse e (trim_space data))
  | None => match env !! envVar e with Some v => Some (parse e v) | None => None end
  end.
(** [parserFor]. *)
Definition parserFor (path : string) : res goerr unit :=
  let ext := to_lower (path_ext path) in
  if existsb (str_eqb ext) [".yaml"; ".yml"; ".json"; ".toml"]%string then Ok tt
  else Err (New ("config: unsupported file type " ++ dq ++ path_ext path ++ dq ++ " (use yaml/json/toml)")).
Definition file_layer (path : string) : res goerr settings :=
  if empty_str path then Ok ∅
  else match parserFor path with
       | Err e => Err e
       | Ok _ => match load_file path with
                 | Err e => Err (Wrap ("config: load " ++ path ++ ": ") e)
                 | Ok m => Ok m
                 end
       end.
(** The four layers, in order. *)
Definition merge (file : settings) (set_flags : gmap string value) : layers :=
  let st := layer (fun e => Some (e_def e)) "default" (∅, ∅) in
  let st := (file ∪ fst st, (const "file"%string <$> file) ∪ snd st) in
  let st := layer fromEnv "env" st in
  layer (fun e => getter e <$> set_flags !! e_flag e) "flag" st.
(** [Load]. *)
Definition Load : res goerr Loaded :=
  match parse_flags (default ""%string (env !! (envPrefix ++ "CONFIG")%string)) with
  | Err e => Err e
  | Ok (path, set_flags) =>
      match file_layer path with
      | Err e => Err e
      | Ok file =>
          let st := merge file set_flags in
          match decode (fst st) with
          | Err e => Err (Wrap "config: decode: " e)
          | Ok c => Ok (mkLoaded c (snd st))
          end
      end
  end.
End Load.

(** Decoding by field: what the documented decoding of a well-typed map gives. *)
Definition text_at (m : settings) (k : string) : string := match m !! k with Some (VString s) => s | _ => "" end.
Definition flag_at (m : settings) (k : string) : bool := match m !! k with Some (VBool b) => b | _ => false end.
Definition int_at (m : settings) (k : string) : Z := match m !! k with Some (VInt n) => n | _ => 0 end.
Definition list_at (m : settings) (k : string) : list string := match m !! k with Some (VList l) => l | _ => [] end.
Definition config_of (m : settings) : Config :=
  mkConfig
        (mkLibConfig (text_at m "lib.path") (text_at m "lib.version") (flag_at m "lib.isolated") (list_at m
       "lib.isolation-deps") (text_at m "lib.min-version") (text_at m "lib.compat"))
    (int_at m "workers")
    (flag_at m "verify-only")
    (text_at m "locale")
    (mkHTTPConfig (flag_at m "http.enabled") (text_at m "http.addr"))
    (mkGRPCConfig (flag_at m "grpc.enabled") (text_at m "grpc.addr"))
        (mkAMQPConfig (text_at m "amqp.url") (text_at m "amqp.queue") (text_at m "amqp.reply-queue") (int_at m
       "amqp.prefetch"))
        (mkKafkaConfig (list_at m "kafka.brokers") (text_at m "kafka.topic") (text_at m "kafka.reply-topic")
       (text_at m "kafka.group"))
        (mkNATSConfig (text_at m "nats.url") (text_at m "nats.subject") (text_at m "nats.queue") (text_at m
       "nats.reply-subject") (text_at m "nats.durable"))
    (mkKeysConfig (flag_at m "keys.allow-inline"))
        (mkCryptoWorkerConfig (flag_at m "crypto-worker.enabled") (int_at m "crypto-worker.processes")
       (text_at m "crypto-worker.timeout") (int_at m "crypto-worker.max-ops") (int_at m
       "crypto-worker.max-rss-mb") (int_at m "crypto-worker.standby") (flag_at m
       "crypto-worker.keep-after-revoked"))
    (mkSignConfig (flag_at m "sign.default-timestamp") (text_at m "sign.tsa-url"))
        (mkTrustConfig (text_at m "trust.ca-dir") (flag_at m "trust.fetch-aia") (int_at m "trust.aia-timeout")
       (flag_at m "trust.use-rk-registry") (flag_at m "trust.rk-include-test") (flag_at m
       "trust.verify-chain") (text_at m "trust.refresh-interval") (flag_at m "trust.crl-cache") (text_at m
       "trust.crl-spool-dir") (int_at m "trust.crl-cache-max-mb") (flag_at m "trust.ocsp-cache") (text_at m
       "trust.ocsp-cache-ttl") (int_at m "trust.ocsp-cache-max-entries") (text_at m "trust.crl-fail-policy")
       (list_at m "trust.tsa-policies"))
    (mkLogConfig (text_at m "log.level") (text_at m "log.format"))
    (mkMetricsConfig (flag_at m "metrics.enabled") (text_at m "metrics.addr"))
        (mkJobsConfig (flag_at m "jobs.enabled") (text_at m "jobs.store") (text_at m "jobs.bolt-path") (int_at
       m "jobs.max-concurrent") (int_at m "jobs.queue-size") (int_at m "jobs.max-input-mb") (text_at m
       "jobs.ttl"))
        (mkIdempotencyConfig (flag_at m "idempotency.enabled") (text_at m "idempotency.ttl") (int_at m
       "idempotency.max-entries"))
        (mkInputConfig (flag_at m "input.allow-local-path") (flag_at m "input.allow-url") (list_at m
       "input.allowed-schemes") (int_at m "input.max-mb") (text_at m "input.spool-dir"))
        (mkOIDCConfig (flag_at m "oidc.enabled") (text_at m "oidc.issuer") (text_at m "oidc.key-path")
       (text_at m "oidc.challenge-ttl") (text_at m "oidc.token-ttl") (text_at m "oidc.store") (text_at m
       "oidc.bolt-path") (flag_at m "oidc.require-ocsp") (text_at m "oidc.audience") (list_at m
       "oidc.clients"))
        (mkQRConfig (flag_at m "qr.enabled") (text_at m "qr.public-base-url") (text_at m "qr.default-profile")
       (text_at m "qr.default-mode") (text_at m "qr.session-ttl") (text_at m "qr.store") (text_at m
       "qr.bolt-path") (flag_at m "qr.require-ocsp") (text_at m "qr.relay-url") (text_at m "qr.relay-id")
       (text_at m "qr.organization"))
        (mkReceiptsConfig (flag_at m "receipts.enabled") (flag_at m "receipts.signed-qr") (text_at m
       "receipts.issuer"))
        (mkCertWatchConfig (flag_at m "certwatch.enabled") (text_at m "certwatch.dir") (text_at m
       "certwatch.interval") (text_at m "certwatch.warn-from") (text_at m "certwatch.webhook-url") (flag_at m
       "certwatch.check-revocation"))
    (mkPortalConfig (flag_at m "portal.enabled"))
        (mkMultisignConfig (flag_at m "multisign.enabled") (text_at m "multisign.ttl") (text_at m
       "multisign.store") (text_at m "multisign.bolt-path"))
        (mkAuditConfig (flag_at m "audit.enabled") (text_at m "audit.path") (flag_at m "audit.sync") (flag_at
       m "audit.expose"))
        (mkConsoleConfig (flag_at m "console.enabled") (text_at m "console.sandbox-key") (text_at m
       "console.sandbox-key-password"))
        (mkChallengeConfig (flag_at m "challenge.enabled") (text_at m "challenge.ttl") (text_at m
       "challenge.store") (text_at m "challenge.bolt-path") (flag_at m "challenge.require-ocsp")).

(** ** The dump *)
(** [value], case by case; a key without a case shows nothing. *)
Definition value_cases_base (c : Config) : list (string * string) :=
  [
   ("lib.path", (lib_path (cfg_lib c)));
   ("lib.version", (lib_version (cfg_lib c)));
   ("lib.isolated", (format_bool (lib_isolated (cfg_lib c))));
   ("lib.isolation-deps", (join_comma (lib_isolation_deps (cfg_lib c))));
   ("lib.min-version", (lib_min_version (cfg_lib c)));
   ("lib.compat", (lib_compat (cfg_lib c)));
   ("workers", (dec_of_Z (cfg_workers c)));
   ("verify-only", (format_bool (cfg_verify_only c)));
   ("locale", (cfg_locale c));
   ("console.enabled", (format_bool (console_enabled (cfg_console c))));
   ("console.sandbox-key", (console_sandbox_key (cfg_console c)));
   ("console.sandbox-key-password", (console_sandbox_key_password (cfg_console c)));
   ("audit.enabled", (format_bool (audit_enabled (cfg_audit c))));
   ("audit.path", (audit_path (cfg_audit c)));
   ("audit.sync", (format_bool (audit_sync (cfg_audit c))));
   ("audit.expose", (format_bool (audit_expose (cfg_audit c))));
   ("multisign.enabled", (format_bool (multisign_enabled (cfg_multisign c))));
   ("multisign.ttl", (multisign_ttl (cfg_multisign c)));
   ("multisign.store", (multisign_store (cfg_multisign c)));
   ("multisign.bolt-path", (multisign_bolt_path (cfg_multisign c)));
   ("portal.enabled", (format_bool (portal_enabled (cfg_portal c))));
   ("certwatch.enabled", (format_bool (certwatch_enabled (cfg_certwatch c))));
   ("certwatch.dir", (certwatch_dir (cfg_certwatch c)));
   ("certwatch.interval", (certwatch_interval (cfg_certwatch c)));
   ("certwatch.warn-from", (certwatch_warn_from (cfg_certwatch c)));
   ("certwatch.webhook-url", (certwatch_webhook_url (cfg_certwatch c)));
   ("certwatch.check-revocation", (format_bool (certwatch_check_revocation (cfg_certwatch c))));
   ("challenge.enabled", (format_bool (challenge_enabled (cfg_challenge c))));
   ("challenge.ttl", (challenge_ttl (cfg_challenge c)));
   ("challenge.store", (challenge_store (cfg_challenge c)));
   ("challenge.bolt-path", (challenge_bolt_path (cfg_challenge c)));
   ("challenge.require-ocsp", (format_bool (challenge_require_ocsp (cfg_challenge c))));
   ("receipts.enabled", (format_bool (receipts_enabled (cfg_receipts c))));
   ("receipts.signed-qr", (format_bool (receipts_signed_qr (cfg_receipts c))));
   ("receipts.issuer", (receipts_issuer (cfg_receipts c)));
   ("crypto-worker.enabled", (format_bool (crypto_worker_enabled (cfg_crypto_worker c))));
   ("crypto-worker.processes", (dec_of_Z (crypto_worker_processes (cfg_crypto_worker c))));
   ("crypto-worker.timeout", (crypto_worker_timeout (cfg_crypto_worker c)));
   ("crypto-worker.max-ops", (dec_of_Z (crypto_worker_max_ops (cfg_crypto_worker c))));
   ("crypto-worker.max-rss-mb", (dec_of_Z (crypto_worker_max_rss_mb (cfg_crypto_worker c))));
   ("crypto-worker.standby", (dec_of_Z (crypto_worker_standby (cfg_crypto_worker c))));
   ("crypto-worker.keep-after-revoked", (format_bool (crypto_worker_keep_after_revoked (cfg_crypto_worker c))));
   ("http.enabled", (format_bool (http_enabled (cfg_http c))));
   ("http.addr", (http_addr (cfg_http c)));
   ("grpc.enabled", (format_bool (grpc_enabled (cfg_grpc c))));
   ("grpc.addr", (grpc_addr (cfg_grpc c)))].
Definition value_cases_rest (c : Config) : list (string * string) :=
  [
   ("amqp.url", (amqp_url (cfg_amqp c)));
   ("amqp.queue", (amqp_queue (cfg_amqp c)));
   ("amqp.reply-queue", (amqp_reply_queue (cfg_amqp c)));
   ("amqp.prefetch", (dec_of_Z (amqp_prefetch (cfg_amqp c))));
   ("kafka.brokers", (join_comma (kafka_brokers (cfg_kafka c))));
   ("kafka.topic", (kafka_topic (cfg_kafka c)));
   ("kafka.reply-topic", (kafka_reply_topic (cfg_kafka c)));
   ("kafka.group", (kafka_group (cfg_kafka c)));
   ("nats.url", (nats_url (cfg_nats c)));
   ("nats.subject", (nats_subject (cfg_nats c)));
   ("nats.queue", (nats_queue (cfg_nats c)));
   ("nats.reply-subject", (nats_reply_subject (cfg_nats c)));
   ("nats.durable", (nats_durable (cfg_nats c)));
   ("keys.allow-inline", (format_bool (keys_allow_inline (cfg_keys c))));
   ("sign.default-timestamp", (format_bool (sign_default_timestamp (cfg_sign c))));
   ("trust.ca-dir", (trust_ca_dir (cfg_trust c)));
   ("trust.fetch-aia", (format_bool (trust_fetch_aia (cfg_trust c))));
   ("trust.aia-timeout", (dec_of_Z (trust_aia_timeout (cfg_trust c))));
   ("trust.use-rk-registry", (format_bool (trust_use_rk_registry (cfg_trust c))));
   ("trust.rk-include-test", (format_bool (trust_rk_include_test (cfg_trust c))));
   ("trust.verify-chain", (format_bool (trust_verify_chain (cfg_trust c))));
   ("trust.refresh-interval", (trust_refresh_interval (cfg_trust c)));
   ("trust.ocsp-cache", (format_bool (trust_ocsp_cache (cfg_trust c))));
   ("trust.ocsp-cache-ttl", (trust_ocsp_cache_ttl (cfg_trust c)));
   ("trust.ocsp-cache-max-entries", (dec_of_Z (trust_ocsp_cache_max_entries (cfg_trust c))));
   ("trust.crl-cache", (format_bool (trust_crl_cache (cfg_trust c))));
   ("trust.crl-spool-dir", (trust_crl_spool_dir (cfg_trust c)));
   ("trust.crl-cache-max-mb", (dec_of_Z (trust_crl_cache_max_mb (cfg_trust c))));
   ("trust.crl-fail-policy", (trust_crl_fail_policy (cfg_trust c)));
   ("log.level", (log_level (cfg_log c)));
   ("log.format", (log_format (cfg_log c)));
   ("metrics.enabled", (format_bool (metrics_enabled (cfg_metrics c))));
   ("metrics.addr", (metrics_addr (cfg_metrics c)));
   ("jobs.enabled", (format_bool (jobs_enabled (cfg_jobs c))));
   ("jobs.store", (jobs_store (cfg_jobs c)));
   ("jobs.bolt-path", (jobs_bolt_path (cfg_jobs c)));
   ("jobs.max-concurrent", (dec_of_Z (jobs_max_concurrent (cfg_jobs c))));
   ("jobs.queue-size", (dec_of_Z (jobs_queue_size (cfg_jobs c))));
   ("jobs.max-input-mb", (dec_of_Z (jobs_max_input_mb (cfg_jobs c))));
   ("idempotency.enabled", (format_bool (idempotency_enabled (cfg_idempotency c))));
   ("idempotency.ttl", (idempotency_ttl (cfg_idempotency c)));
   ("idempotency.max-entries", (dec_of_Z (idempotency_max_entries (cfg_idempotency c))));
   ("jobs.ttl", (jobs_ttl (cfg_jobs c)));
   ("input.allow-local-path", (format_bool (input_allow_local_path (cfg_input c))));
   ("input.allow-url", (format_bool (input_allow_url (cfg_input c))));
   ("input.allowed-schemes", (join_comma (input_allowed_schemes (cfg_input c))));
   ("input.max-mb", (dec_of_Z (input_max_mb (cfg_input c))));
   ("input.spool-dir", (input_spool_dir (cfg_input c)));
   ("oidc.enabled", (format_bool (oidc_enabled (cfg_oidc c))));
   ("oidc.issuer", (oidc_issuer (cfg_oidc c)));
   ("oidc.key-path", (oidc_key_path (cfg_oidc c)));
   ("oidc.challenge-ttl", (oidc_challenge_ttl (cfg_oidc c)));
   ("oidc.token-ttl", (oidc_token_ttl (cfg_oidc c)));
   ("oidc.store", (oidc_store (cfg_oidc c)));
   ("oidc.bolt-path", (oidc_bolt_path (cfg_oidc c)));
   ("oidc.require-ocsp", (format_bool (oidc_require_ocsp (cfg_oidc c))));
   ("oidc.audience", (oidc_audience (cfg_oidc c)));
   ("oidc.clients", (dec_of_Z (Z.of_nat (length (oidc_clients (cfg_oidc c)))) ++ " client(s)"));
   ("qr.enabled", (format_bool (qr_enabled (cfg_qr c))));
   ("qr.public-base-url", (qr_public_base_url (cfg_qr c)));
   ("qr.default-profile", (qr_default_profile (cfg_qr c)));
   ("qr.default-mode", (qr_default_mode (cfg_qr c)));
   ("qr.session-ttl", (qr_session_ttl (cfg_qr c)));
   ("qr.store", (qr_store (cfg_qr c)));
   ("qr.bolt-path", (qr_bolt_path (cfg_qr c)));
   ("qr.require-ocsp", (format_bool (qr_require_ocsp (cfg_qr c))));
   ("qr.relay-url", (qr_relay_url (cfg_qr c)));
   ("qr.relay-id", (qr_relay_id (cfg_qr c)));
   ("qr.organization", (qr_organization (cfg_qr c)))]%string.
Definition value_cases (c : Config) : list (string * string) := value_cases_base c ++ value_cases_rest c.
Definition value_of (c : Config) (key : string) : string :=
  match find (fun p => str_eqb (fst p) key) (value_cases c) with Some p => snd p | None => "" end.

Definition key_le (a b : entry) : Prop := str_le (e_key a) (e_key b).
#[global] Instance key_le_dec : RelDecision key_le.
Proof. intros a b. apply (_ : Decision (str_le _ _)). Defined.
(** [utf8.RuneCountInString]: a byte that starts no rune counts as one. *)
Fixpoint rune_count_loop (fuel : nat) (s : string) : nat :=
  match fuel, s with
  | S f, String _ t =>
      S (match rune_width s with O => rune_count_loop f t | w => rune_count_loop f (substring w (String.length s - w) s) end)
  | _, _ => O
  end.
Definition rune_count (s : string) : nat := rune_count_loop (String.length s) s.
(** [%-*s]: padded to a width in runes. *)
Definition pad_right (width : nat) (s : string) : string :=
  (s ++ string_of_list_ascii (repeat " "%char (width - rune_count s)))%string.
Definition dump_line (l : Loaded) (e : entry) : string :=
  let origin := default ""%string (ld_origins l !! e_key e) in
  let origin := if empty_str origin then "default"%string else origin in
  let val := if e_secret e then "***"%string else value_of (ld_config l) (e_key e) in
  (pad_right 22 (e_key e) ++ " = " ++ pad_right 28 val ++ " (" ++ origin ++ ")" ++ String "010" "")%string.
Definition Dump (l : Loaded) : string := String.concat "" (map (dump_line l) (merge_sort key_le registry)).

(** ** Resolved settings *)
Definition AMQP_Enabled (c : Config) : bool := negb (empty_str (amqp_url (cfg_amqp c))).
Definition Kafka_Enabled (c : Config) : bool := bool_decide (kafka_brokers (cfg_kafka c) <> []).
Definition NATS_Enabled (c : Config) : bool := negb (empty_str (nats_url (cfg_nats c))).
Definition AnyMQEnabled (c : Config) : bool := AMQP_Enabled c || Kafka_Enabled c || NATS_Enabled c.
Definition Input_Enabled (c : Config) : bool := input_allow_local_path (cfg_input c) || input_allow_url (cfg_input c).

Definition parseDurationOr0 (raw : string) : duration :=
  match ParseDuration (trim_space raw) with Ok d => d | Err _ => 0 end.
(** The same, where a value that is not positive gives a default. *)
Definition positive_or (dflt : duration) (raw : string) : duration :=
  match ParseDuration (trim_space raw) with Ok d => if d <=? 0 then dflt else d | Err _ => dflt end.
Definition ResolveMaxRSSBytes (c : Config) : Z :=
  let n := crypto_worker_max_rss_mb (cfg_crypto_worker c) in
  if n <? 0 then -1 else if n =? 0 then Z.shiftl 512 20 else wrap64 (Z.shiftl n 20).
Definition ResolveTimeout (c : Config) : duration :=
  positive_or (60 * second) (crypto_worker_timeout (cfg_crypto_worker c)).
Definition ResolveProcesses (c : Config) (workers : Z) : Z :=
  let n := crypto_worker_processes (cfg_crypto_worker c) in
  if 0 <? n then n else if 0 <? workers then workers else 1.
Definition ReceiptIssuer (c : Config) : string :=
  let s := trim_space (receipts_issuer (cfg_receipts c)) in
  if empty_str s then trim_space (oidc_issuer (cfg_oidc c)) else s.
Definition ChallengeTTL (c : Config) : duration := positive_or 0 (challenge_ttl (cfg_challenge c)).
Definition ResolveOCSPCacheTTL (c : Config) : duration := positive_or 0 (trust_ocsp_cache_ttl (cfg_trust c)).
Definition ResolveInterval (c : Config) : duration := positive_or 0 (certwatch_interval (cfg_certwatch c)).
Definition ResolveWarnFrom (c : Config) : duration := positive_or 0 (certwatch_warn_from (cfg_certwatch c)).
Definition Multisign_ResolveTTL (c : Config) : duration := positive_or 0 (multisign_ttl (cfg_multisign c)).
Definition JobsTTL (c : Config) : duration := parseDurationOr0 (jobs_ttl (cfg_jobs c)).
Definition Idempotency_ResolveTTL (c : Config) : duration :=
  positive_or (24 * hour) (idempotency_ttl (cfg_idempotency c)).
Definition ResolveMaxEntries (c : Config) : Z :=
  let n := idempotency_max_entries (cfg_idempotency c) in if n <? 1 then 8192 else n.
Definition OIDCChallengeTTL (c : Config) : duration := parseDurationOr0 (oidc_challenge_ttl (cfg_oidc c)).
Definition OIDCTokenTTL (c : Config) : duration := parseDurationOr0 (oidc_token_ttl (cfg_oidc c)).
Definition QRSessionTTL (c : Config) : duration := parseDurationOr0 (qr_session_ttl (cfg_qr c)).
Definition TrustRefreshInterval (c : Config) : duration :=
  let raw := trim_space (trust_refresh_interval (cfg_trust c)) in
  if empty_str raw then (if trust_use_rk_registry (cfg_trust c) then 24 * hour else 0)
  else if str_eqb raw "0" || str_eqb raw "off" then 0
  else match ParseDuration raw with Ok d => d | Err _ => 0 end.

(** ** Validation *)
Definition unless (bad : bool) (msg : string) : list string := if bad then [msg] else [].
Definition blank (s : string) : bool := empty_str (trim_space s).
Definition malformed (raw : string) : bool :=
  let raw := trim_space raw in
  negb (empty_str raw) && match ParseDuration raw with Ok _ => false | Err _ => true end.
Definition one_of (l : list string) (s : string) : bool := existsb (fun x => str_eqb x s) l.
(** The choice of a store and its database path. *)
Definition store_errors (name : string) (known : list string) (store path : string) : list string :=
  if one_of known store then []
  else if str_eqb store "bolt" then unless (blank path) (name ++ ".bolt-path is required when " ++ name ++ ".store=bolt")
  else [(name ++ ".store must be memory or bolt")%string].
Definition tsa_error (p : string) : list string :=
  unless (negb (IsTSAPolicy (trim_space p)))
    ("trust.tsa-policies: " ++ p ++ " is not a NUC TSA policy OID (arc " ++ TSAPolicyArc ++ ")").
Definition when (b : bool) (l : list string) : list string := if b then l else [].

(** The library and the pool. *)
Definition pool_errors (c : Config) : list string :=
  unless (empty_str (lib_path (cfg_lib c))) "lib.path is required (path to libkalkancryptwr-64.so)" ++
  unless (cfg_workers c <? 1) "workers must be >= 1" ++
  unless ((1 <? cfg_workers c) && negb (lib_isolated (cfg_lib c)))
    "workers > 1 requires lib.isolated=true (instances share crypto state otherwise)" ++
  unless (negb (one_of ["strict"; "warn"; "off"]%string (to_lower (lib_compat (cfg_lib c)))))
    "lib.compat must be one of strict|warn|off".
(** The message queues. *)
Definition mq_errors (c : Config) : list string :=
  unless (AMQP_Enabled c && empty_str (amqp_queue (cfg_amqp c))) "amqp.queue is required when amqp.url is set" ++
  when (Kafka_Enabled c)
    (unless (empty_str (kafka_topic (cfg_kafka c))) "kafka.topic is required when kafka.brokers is set" ++
     unless (empty_str (kafka_group (cfg_kafka c))) "kafka.group is required when kafka.brokers is set") ++
  when (NATS_Enabled c)
    (unless (empty_str (nats_subject (cfg_nats c))) "nats.subject is required when nats.url is set" ++
     unless (empty_str (nats_durable (cfg_nats c))) "nats.durable is required when nats.url is set").
(** The child processes and the OCSP cache. *)
Definition worker_errors (c : Config) : list string :=
  when (crypto_worker_enabled (cfg_crypto_worker c))
    (unless (malformed (crypto_worker_timeout (cfg_crypto_worker c))) "crypto-worker.timeout must be a Go duration (e.g. 60s)" ++
     unless (crypto_worker_processes (cfg_crypto_worker c) <? 0) "crypto-worker.processes must be >= 0" ++
     unless (crypto_worker_standby (cfg_crypto_worker c) <? 0) "crypto-worker.standby must be >= 0") ++
  when (trust_ocsp_cache (cfg_trust c))
    (unless (malformed (trust_ocsp_cache_ttl (cfg_trust c))) "trust.ocsp-cache-ttl must be a Go duration (e.g. 10m)").
(** The journal and the signing rounds. *)
Definition audit_errors (c : Config) : list string :=
  unless (audit_enabled (cfg_audit c) && blank (audit_path (cfg_audit c))) "audit.path is required when audit.enabled" ++
  when (multisign_enabled (cfg_multisign c))
    (unless (malformed (multisign_ttl (cfg_multisign c))) "multisign.ttl must be a Go duration (e.g. 168h)" ++
     store_errors "multisign" [EmptyString; "memory"]%string (multisign_store (cfg_multisign c)) (multisign_bolt_path (cfg_multisign c))).
(** The watcher and the challenges; the two durations of certwatch come in either order. *)
Definition watch_errors (c : Config) : list string :=
  when (certwatch_enabled (cfg_certwatch c))
    (unless (blank (certwatch_dir (cfg_certwatch c))) "certwatch.dir is required when certwatch.enabled" ++
     unless (malformed (certwatch_interval (cfg_certwatch c))) "certwatch.interval must be a Go duration (e.g. 6h, 720h)" ++
     unless (malformed (certwatch_warn_from (cfg_certwatch c))) "certwatch.warn-from must be a Go duration (e.g. 6h, 720h)") ++
  when (challenge_enabled (cfg_challenge c))
    (unless (malformed (challenge_ttl (cfg_challenge c))) "challenge.ttl must be a Go duration (e.g. 5m)" ++
     store_errors "challenge" [EmptyString; "memory"]%string (challenge_store (cfg_challenge c)) (challenge_bolt_path (cfg_challenge c))).
(** Logging and trust. *)
Definition log_errors (c : Config) : list string :=
  unless (negb (one_of ["text"; "json"]%string (log_format (cfg_log c)))) "log.format must be text or json" ++
  unless (negb (one_of ["debug"; "info"; "warn"; "error"]%string (log_level (cfg_log c))))
    "log.level must be one of debug|info|warn|error" ++
  unless (negb (one_of ["0"; "off"]%string (trim_space (trust_refresh_interval (cfg_trust c)))) &&
          malformed (trust_refresh_interval (cfg_trust c)))
    "trust.refresh-interval must be a Go duration (e.g. 24h), empty, 0 or off" ++
  List.concat (map tsa_error (trust_tsa_policies (cfg_trust c))) ++
  unless (negb (one_of [EmptyString; "soft"; "hard"]%string (trim_space (trust_crl_fail_policy (cfg_trust c)))))
    "trust.crl-fail-policy must be soft or hard".
(** Jobs and OpenID Connect. *)
Definition jobs_errors (c : Config) : list string :=
  when (jobs_enabled (cfg_jobs c))
    (store_errors "jobs" ["memory"]%string (jobs_store (cfg_jobs c)) (jobs_bolt_path (cfg_jobs c)) ++
     unless (malformed (jobs_ttl (cfg_jobs c))) "jobs.ttl must be a Go duration (e.g. 1h)") ++
  when (oidc_enabled (cfg_oidc c))
    (unless (blank (oidc_issuer (cfg_oidc c))) "oidc.issuer is required when oidc.enabled (the OIDC issuer URL)" ++
     store_errors "oidc" [EmptyString; "memory"]%string (oidc_store (cfg_oidc c)) (oidc_bolt_path (cfg_oidc c)) ++
     unless (malformed (oidc_challenge_ttl (cfg_oidc c))) "oidc.challenge-ttl must be a Go duration (e.g. 5m)" ++
     unless (malformed (oidc_token_ttl (cfg_oidc c))) "oidc.token-ttl must be a Go duration (e.g. 5m)").
(** QR sessions. *)
Definition qr_errors (c : Config) : list string :=
  when (qr_enabled (cfg_qr c))
    ((if one_of [EmptyString; "agnostic"; "egov"]%string (qr_default_profile (cfg_qr c)) then []
      else if str_eqb (qr_default_profile (cfg_qr c)) "relay" then
        unless (blank (qr_relay_url (cfg_qr c))) "qr.relay-url is required when qr.default-profile=relay"
      else ["qr.default-profile must be agnostic, egov or relay"%string]) ++
     unless (negb (one_of [EmptyString; "sign"; "auth"]%string (qr_default_mode (cfg_qr c)))) "qr.default-mode must be sign or auth" ++
     unless (str_eqb (qr_default_mode (cfg_qr c)) "auth" && negb (oidc_enabled (cfg_oidc c)))
       "qr.default-mode=auth requires oidc.enabled (shared token signer)" ++
     store_errors "qr" [EmptyString; "memory"]%string (qr_store (cfg_qr c)) (qr_bolt_path (cfg_qr c)) ++
     unless (malformed (qr_session_ttl (cfg_qr c))) "qr.session-ttl must be a Go duration (e.g. 5m)").
(** [Validate]'s messages, in order. *)
Definition errors_of (c : Config) : list string :=
  pool_errors c ++ mq_errors c ++ worker_errors c ++ audit_errors c ++
  watch_errors c ++ log_errors c ++ jobs_errors c ++ qr_errors c.
Definition Validate (l : Loaded) : option goerr :=
  match errors_of (ld_config l) with
  | [] => None
  | errs => Some (New ("invalid configuration:" ++ String "010" "  - " ++
                       String.concat (String "010" "  - ") errs)%string)
  end.

(** ** The registry is in order *)
Lemma decide_true (P : Prop) `{Decision P} : bool_decide P = true -> P.
Proof. by intros Hb%bool_decide_eq_true. Qed.
#[local] Instance default_typed_dec e : Decision (exists v, bind_default e = Done v).
Proof. destruct (bind_default e) as [v|]; [left; by exists v|right; by intros (v & [=])]. Defined.

(** The settings are told apart on each of their three surfaces, and each
    default has the type its flag is registered with, so registering the flags
    does not panic; no variable is another one's side file. *)
Theorem registry_well_formed :
  NoDup (e_key <$> registry) /\ NoDup (e_flag <$> registry) /\ NoDup (envVar <$> registry) /\
  Forall (fun e => exists v, bind_default e = Done v) registry /\
  Forall (fun e => (envVar e ++ "_FILE")%string ∉ envVar <$> registry) registry.
Proof. split; [|split; [|split; [|split]]]; apply (decide_true _); vm_compute; reflexivity. Qed.
Lemma keys_distinct : NoDup (e_key <$> registry).
Proof. apply (decide_true _). vm_compute. reflexivity. Qed.

(** ** Precedence *)
Section Layer.
  Variable given : entry -> option value.
  Variable origin : string.
Notation put := (fun st e => match given e with Some v => Set_ (e_key e) v origin st | None => st end).

Lemma put_other l k (st : layers) : k ∉ e_key <$> l ->
  fst (fold_left put l st) !! k = fst st !! k /\ snd (fold_left put l st) !! k = snd st !! k.
Proof.
  revert st. induction l as [|x l IH]; intros st Hk; [done|].
  cbn [fmap list_fmap fold_left] in *. apply not_elem_of_cons in Hk as [Hx Hk].
  destruct (IH (put st x) Hk) as [-> ->]. destruct (given x) as [v|]; [|done]. cbn. by rewrite !lookup_insert_ne.
Qed.
Lemma put_entry l e (st : layers) : NoDup (e_key <$> l) -> e ∈ l ->
  fst (fold_left put l st) !! e_key e = (match given e with Some v => Some v | None => fst st !! e_key e end) /\
  snd (fold_left put l st) !! e_key e = (match given e with Some _ => Some origin | None => snd st !! e_key e end).
Proof.
  revert st. induction l as [|x l IH]; intros st Hnd He; [by apply elem_of_nil in He|].
  cbn [fmap list_fmap fold_left] in *. apply NoDup_cons in Hnd as [Hx Hnd]. apply elem_of_cons in He as [->|He].
  - destruct (put_other l (e_key x) (put st x) Hx) as [-> ->]. destruct (given x); [|done]. cbn.
    by rewrite !lookup_insert_eq.
  - destruct (IH (put st x) Hnd He) as [-> ->]. assert (e_key x <> e_key e) as Hne.
    { intros E. apply Hx. rewrite E. by apply list_elem_of_fmap_2. }
    destruct (given e); [done|]. destruct (given x); [|done]. cbn. by rewrite !lookup_insert_ne.
Qed.
Lemma layer_entry (st : layers) e : e ∈ registry ->
  fst (layer given origin st) !! e_key e = (match given e with Some v => Some v | None => fst st !! e_key e end) /\
  snd (layer given origin st) !! e_key e = (match given e with Some _ => Some origin | None => snd st !! e_key e end).
Proof. apply put_entry, keys_distinct. Qed.
End Layer.

Section Precedence.
  Variable env : gmap string string.
  Variable read_file : string -> option string.
  Variable parse_flags : string -> res goerr (string * gmap string value).
  Variable load_file : string -> res goerr settings.
  Variable decode : settings -> res goerr Config.

(** The value of a setting and the layer it comes from: flags over environment
    over file over default. *)
Definition effective (file : settings) (set_flags : gmap string value) (e : entry) : value * string :=
  match set_flags !! e_flag e, fromEnv env read_file e, file !! e_key e with
  | Some v, _, _ => (getter e v, "flag")
  | None, Some v, _ => (v, "env")
  | None, None, Some v => (v, "file")
  | None, None, None => (e_def e, "default")
  end%string.

Lemma merge_effective file set_flags e : e ∈ registry ->
  fst (merge env read_file file set_flags) !! e_key e = Some (fst (effective file set_flags e)) /\
  snd (merge env read_file file set_flags) !! e_key e = Some (snd (effective file set_flags e)).
Proof.
  intros He. unfold merge, effective.
  destruct (layer_entry (fun e => getter e <$> set_flags !! e_flag e) "flag" (layer (fromEnv env read_file) "env"
    (file ∪ fst (layer (fun e => Some (e_def e)) "default" (∅, ∅)),
     (const "file"%string <$> file) ∪ snd (layer (fun e => Some (e_def e)) "default" (∅, ∅)))) e He) as [-> ->].
  destruct (set_flags !! e_flag e) as [v|]; [done|]. cbn [fmap option_fmap option_map].
  destruct (layer_entry (fromEnv env read_file) "env"
    (file ∪ fst (layer (fun e => Some (e_def e)) "default" (∅, ∅)),
     (const "file"%string <$> file) ∪ snd (layer (fun e => Some (e_def e)) "default" (∅, ∅))) e He) as [-> ->].
  destruct (fromEnv env read_file e) as [v|]; [done|]. cbn [fst snd].
  destruct (layer_entry (fun e => Some (e_def e)) "default" (∅, ∅) e He) as [H1 H2].
  rewrite !lookup_union, H1, H2, lookup_fmap.
  destruct (file !! e_key e); split; reflexivity.
Qed.

Lemma loaded_inj c o l : @Ok goerr _ (mkLoaded c o) = Ok l -> c = ld_config l /\ o = ld_origins l.
Proof. by intros [= <-]. Qed.

(** C25: Every setting has the value of the strongest layer that gives one - a flag
    set on the command line, else the environment or its side file, else the
    file, else the default - and the recorded origin names that layer. The code
    makes no exception for secrets, although the comment of the package says that
    they never come from flags: a flag given for a secret is what counts. *)
Theorem config_precedence l :
  Load env read_file parse_flags load_file decode = Ok l ->
  exists path set_flags file m,
    parse_flags (default ""%string (env !! "QOLTANBA_CONFIG"%string)) = Ok (path, set_flags) /\
    file_layer load_file path = Ok file /\ decode m = Ok (ld_config l) /\
    forall e, e ∈ registry ->
      m !! e_key e = Some (fst (effective file set_flags e)) /\
      ld_origins l !! e_key e = Some (snd (effective file set_flags e)) /\
      (e_secret e = true -> forall v, set_flags !! e_flag e = Some v ->
         m !! e_key e = Some (getter e v) /\ ld_origins l !! e_key e = Some "flag"%string).
Proof.
  unfold Load. change (envPrefix ++ "CONFIG")%string with "QOLTANBA_CONFIG"%string.
  destruct (parse_flags _) as [[path set_flags]|e]; [|done].
  destruct (file_layer load_file path) as [file|e] eqn:Ef; [|done].
  destruct (decode _) as [c|e] eqn:Ed; [|done]. intros E. apply loaded_inj in E as [Hc Ho].
  exists path, set_flags, file, (fst (merge env read_file file set_flags)).
  split; [done|]. split; [done|]. rewrite <- Hc, <- Ho. split; [exact Ed|]. intros e He.
  destruct (merge_effective file set_flags e He) as [H1 H2]. split; [exact H1|]. split; [exact H2|].
  intros _ v Hv. rewrite H1, H2. unfold effective. by rewrite Hv.
Qed.
End Precedence.

(** ** The dump *)
(** A setting's value as the dump shows it. *)
Definition shown (m : settings) (e : entry) : string :=
  match e_kind e with
  | kindString => text_at m (e_key e)
  | kindBool => format_bool (flag_at m (e_key e))
  | kindInt => dec_of_Z (int_at m (e_key e))
  | kindStringSlice => join_comma (list_at m (e_key e))
  end.
(** Two settings have no case in [value]. *)
Definition undumped : list string := ["sign.tsa-url"; "trust.tsa-policies"]%string.
Definition shown_or_nothing (m : settings) (e : entry) : string :=
  if one_of undumped (e_key e) then "" else shown m e.
Definition public : list entry := filter (fun e => e_secret e = false) registry.
Lemma values_shown m : map (fun e => value_of (config_of m) (e_key e)) public = map (shown_or_nothing m) public.
Proof.
  assert (public = ltac:(let l := eval vm_compute in public in exact l)) as -> by (vm_compute; reflexivity).
  lazy -[text_at flag_at int_at list_at dec_of_Z join_comma format_bool]. reflexivity.
Qed.
#[local] Opaque registry value_of config_of merge.
Lemma value_shown m e : e ∈ registry -> e_secret e = false ->
  value_of (config_of m) (e_key e) = shown_or_nothing m e.
Proof.
  intros He Hs. apply (proj1 (List.map_ext_in_iff) (values_shown m)).
  apply list_elem_of_In, list_elem_of_filter. done.
Qed.

Lemma concat_ext (f g : entry -> string) l : (forall e, e ∈ l -> f e = g e) -> map f l = map g l.
Proof. intros H. apply List.map_ext_in. intros e He. apply H. by apply list_elem_of_In. Qed.

Lemma shown_at m e v : m !! e_key e = Some v -> shown m e = shown {[e_key e := v]} e.
Proof. intros Hm. unfold shown, text_at, flag_at, int_at, list_at. by rewrite Hm, lookup_singleton_eq. Qed.
Lemma effective_origin env read_file file set_flags e :
  (if empty_str (snd (effective env read_file file set_flags e)) then "default"%string
   else snd (effective env read_file file set_flags e)) = snd (effective env read_file file set_flags e).
Proof. unfold effective. destruct (_ !! _); [done|]. destruct (fromEnv _ _ _); [done|]. by destruct (file !! _). Qed.

Lemma dump_line_secret l l' e : e_secret e = true -> ld_origins l = ld_origins l' -> dump_line l e = dump_line l' e.
Proof. intros Hs Ho. unfold dump_line. rewrite Hs, Ho. reflexivity. Qed.

(** The dump keeps secrets: two configurations that differ in their secrets only
    are dumped alike, whatever those are. *)
Theorem dump_hides_secrets m m' o :
  (forall e, e ∈ registry -> e_secret e = false -> m !! e_key e = m' !! e_key e) ->
  Dump (mkLoaded (config_of m) o) = Dump (mkLoaded (config_of m') o).
Proof.
  intros Hm. unfold Dump. apply (f_equal (String.concat "")), concat_ext. intros e He. rewrite merge_sort_Permutation in He.
  destruct (e_secret e) eqn:Es; [by apply dump_line_secret|].
  unfold dump_line. rewrite Es. cbn [ld_config ld_origins].
  rewrite !value_shown by done. unfold shown_or_nothing. destruct (one_of undumped (e_key e)); [done|].
  unfold shown, text_at, flag_at, int_at, list_at. by rewrite (Hm e).
Qed.

(** The dump is true: when decoding is field by field, the line of a setting
    that is no secret and has a case shows its effective value and the layer
    that value comes from. *)
Theorem dump_effective env read_file parse_flags load_file l path set_flags file e :
  Load env read_file parse_flags load_file (fun m => Ok (config_of m)) = Ok l ->
  parse_flags (default ""%string (env !! "QOLTANBA_CONFIG"%string)) = Ok (path, set_flags) ->
  file_layer load_file path = Ok file ->
  e ∈ registry -> e_secret e = false -> one_of undumped (e_key e) = false ->
  dump_line l e =
    (pad_right 22 (e_key e) ++ " = " ++
     pad_right 28 (shown {[e_key e := fst (effective env read_file file set_flags e)]} e) ++
     " (" ++ snd (effective env read_file file set_flags e) ++ ")" ++ String "010" "")%string.
Proof.
  intros Hl Hf Hfile He Hs Hu. unfold Load in Hl. change (envPrefix ++ "CONFIG")%string with "QOLTANBA_CONFIG"%string in Hl.
  rewrite Hf, Hfile in Hl. apply loaded_inj in Hl as [Hc Ho].
  destruct (merge_effective env read_file file set_flags e He) as [Hv Hor].
  unfold dump_line. rewrite Hs, <- Hc, <- Ho, Hor, value_shown by done. unfold shown_or_nothing. rewrite Hu.
  rewrite (shown_at _ _ _ Hv). cbn [from_option]. cbv zeta. unfold id. rewrite effective_origin. reflexivity.
Qed.

(** ** Validation *)
Lemma unless_nil b msg : unless b msg = [] <-> b = false.
Proof. by destruct b. Qed.
Lemma when_nil b l : when b l = [] <-> (b = true -> l = []).
Proof. destruct b; naive_solver. Qed.
Lemma app_nil {A} (l k : list A) : l ++ k = [] <-> l = [] /\ k = [].
Proof. split; [apply app_eq_nil|by intros [-> ->]]. Qed.

(** What a setting of each sort has to be. *)
Definition duration_ok (raw : string) : Prop :=
  trim_space raw = ""%string \/ exists d, ParseDuration (trim_space raw) = Ok d.
Definition nonblank (s : string) : Prop := trim_space s <> ""%string.
Definition store_ok (known : list string) (store path : string) : Prop :=
  store ∈ known \/ store = "bolt"%string /\ nonblank path.

Lemma one_of_elem l s : one_of l s = true <-> s ∈ l.
Proof.
  unfold one_of. rewrite existsb_exists. split.
  - intros (x & Hx & ->%str_eqb_eq). by apply list_elem_of_In.
  - intros Hs%list_elem_of_In. exists s. split; [done|apply str_eqb_refl].
Qed.
Lemma one_of_bad l s : negb (one_of l s) = false <-> s ∈ l.
Proof. by rewrite negb_false_iff, one_of_elem. Qed.
Lemma malformed_ok raw : malformed raw = false <-> duration_ok raw.
Proof.
  unfold malformed, duration_ok. destruct (empty_str (trim_space raw)) eqn:E; cbn [negb andb].
  - apply str_eqb_eq in E. naive_solver.
  - apply str_eqb_neq in E. destruct (ParseDuration _); naive_solver.
Qed.
Lemma blank_ok s : blank s = false <-> nonblank s.
Proof. apply str_eqb_neq. Qed.
Lemma store_errors_ok name known store path :
  "bolt"%string ∉ known -> store_errors name known store path = [] <-> store_ok known store path.
Proof.
  intros Hb. unfold store_errors, store_ok. destruct (one_of known store) eqn:E.
  - apply one_of_elem in E. naive_solver.
  - assert (store ∉ known) as Hn by (by rewrite <- one_of_elem, E).
    destruct (str_eqb store "bolt") eqn:Es.
    + apply str_eqb_eq in Es. rewrite unless_nil, blank_ok. naive_solver.
    + apply str_eqb_neq in Es. naive_solver.
Qed.
Lemma nonempty_ok s : empty_str s = false <-> s <> ""%string.
Proof. apply str_eqb_neq. Qed.
Lemma and_bad a b : a && b = false <-> (a = true -> b = false).
Proof. destruct a, b; naive_solver. Qed.

(** A configuration the service can run with. *)
Record runnable (c : Config) : Prop := {
  ru_library : lib_path (cfg_lib c) <> ""%string;
  ru_workers : 1 <= cfg_workers c;
  ru_isolated : 1 < cfg_workers c -> lib_isolated (cfg_lib c) = true;
  ru_compat : to_lower (lib_compat (cfg_lib c)) ∈ ["strict"; "warn"; "off"]%string;
  ru_amqp : AMQP_Enabled c = true -> amqp_queue (cfg_amqp c) <> ""%string;
  ru_kafka : Kafka_Enabled c = true -> kafka_topic (cfg_kafka c) <> ""%string /\ kafka_group (cfg_kafka c) <> ""%string;
  ru_nats : NATS_Enabled c = true -> nats_subject (cfg_nats c) <> ""%string /\ nats_durable (cfg_nats c) <> ""%string;
  ru_children : crypto_worker_enabled (cfg_crypto_worker c) = true ->
    duration_ok (crypto_worker_timeout (cfg_crypto_worker c)) /\
    0 <= crypto_worker_processes (cfg_crypto_worker c) /\ 0 <= crypto_worker_standby (cfg_crypto_worker c);
  ru_ocsp : trust_ocsp_cache (cfg_trust c) = true -> duration_ok (trust_ocsp_cache_ttl (cfg_trust c));
  ru_audit : audit_enabled (cfg_audit c) = true -> nonblank (audit_path (cfg_audit c));
  ru_multisign : multisign_enabled (cfg_multisign c) = true ->
    duration_ok (multisign_ttl (cfg_multisign c)) /\
    store_ok [EmptyString; "memory"%string] (multisign_store (cfg_multisign c)) (multisign_bolt_path (cfg_multisign c));
  ru_certwatch : certwatch_enabled (cfg_certwatch c) = true ->
    nonblank (certwatch_dir (cfg_certwatch c)) /\ duration_ok (certwatch_interval (cfg_certwatch c)) /\
    duration_ok (certwatch_warn_from (cfg_certwatch c));
  ru_challenge : challenge_enabled (cfg_challenge c) = true ->
    duration_ok (challenge_ttl (cfg_challenge c)) /\
    store_ok [EmptyString; "memory"%string] (challenge_store (cfg_challenge c)) (challenge_bolt_path (cfg_challenge c));
  ru_log : log_format (cfg_log c) ∈ ["text"; "json"]%string /\
    log_level (cfg_log c) ∈ ["debug"; "info"; "warn"; "error"]%string;
  ru_refresh : trim_space (trust_refresh_interval (cfg_trust c)) ∈ ["0"; "off"]%string \/
    duration_ok (trust_refresh_interval (cfg_trust c));
  ru_tsa : Forall (fun p => IsTSAPolicy (trim_space p) = true) (trust_tsa_policies (cfg_trust c));
  ru_crl : trim_space (trust_crl_fail_policy (cfg_trust c)) ∈ [EmptyString; "soft"%string; "hard"%string];
  ru_jobs : jobs_enabled (cfg_jobs c) = true ->
    store_ok ["memory"%string] (jobs_store (cfg_jobs c)) (jobs_bolt_path (cfg_jobs c)) /\
    duration_ok (jobs_ttl (cfg_jobs c));
  ru_oidc : oidc_enabled (cfg_oidc c) = true ->
    nonblank (oidc_issuer (cfg_oidc c)) /\
    store_ok [EmptyString; "memory"%string] (oidc_store (cfg_oidc c)) (oidc_bolt_path (cfg_oidc c)) /\
    duration_ok (oidc_challenge_ttl (cfg_oidc c)) /\ duration_ok (oidc_token_ttl (cfg_oidc c));
  ru_qr : qr_enabled (cfg_qr c) = true ->
    (qr_default_profile (cfg_qr c) ∈ [EmptyString; "agnostic"%string; "egov"%string] \/
     qr_default_profile (cfg_qr c) = "relay"%string /\ nonblank (qr_relay_url (cfg_qr c))) /\
    qr_default_mode (cfg_qr c) ∈ [EmptyString; "sign"%string; "auth"%string] /\
    (qr_default_mode (cfg_qr c) = "auth"%string -> oidc_enabled (cfg_oidc c) = true) /\
    store_ok [EmptyString; "memory"%string] (qr_store (cfg_qr c)) (qr_bolt_path (cfg_qr c)) /\
    duration_ok (qr_session_ttl (cfg_qr c));
}.

Lemma tsa_errors_ok l : List.concat (map tsa_error l) = [] <-> Forall (fun p => IsTSAPolicy (trim_space p) = true) l.
Proof.
  induction l as [|p l IH]; [by split|]. cbn [map List.concat]. rewrite app_nil, IH, Forall_cons.
  unfold tsa_error. by rewrite unless_nil, negb_false_iff.
Qed.
Lemma profile_errors_ok c :
  (if one_of [EmptyString; "agnostic"; "egov"]%string (qr_default_profile (cfg_qr c)) then []
   else if str_eqb (qr_default_profile (cfg_qr c)) "relay" then
     unless (blank (qr_relay_url (cfg_qr c))) "qr.relay-url is required when qr.default-profile=relay"
   else ["qr.default-profile must be agnostic, egov or relay"%string]) = [] <->
  (qr_default_profile (cfg_qr c) ∈ [EmptyString; "agnostic"%string; "egov"%string] \/
   qr_default_profile (cfg_qr c) = "relay"%string /\ nonblank (qr_relay_url (cfg_qr c))).
Proof.
  destruct (one_of _ _) eqn:E; [apply one_of_elem in E; naive_solver|].
  assert (qr_default_profile (cfg_qr c) ∉ [EmptyString; "agnostic"; "egov"]%string) as Hn by (by rewrite <- one_of_elem, E).
  destruct (str_eqb _ "relay") eqn:Es.
  - apply str_eqb_eq in Es. rewrite unless_nil, blank_ok. naive_solver.
  - apply str_eqb_neq in Es. naive_solver.
Qed.

Ltac errors_ok :=
  rewrite ?app_nil, ?when_nil, ?app_nil, ?unless_nil, ?and_bad, ?malformed_ok, ?one_of_bad, ?blank_ok, ?nonempty_ok,
    ?Z.ltb_ge, ?negb_false_iff.

Lemma pool_errors_ok c : pool_errors c = [] <->
  lib_path (cfg_lib c) <> ""%string /\ 1 <= cfg_workers c /\
  (1 < cfg_workers c -> lib_isolated (cfg_lib c) = true) /\
  to_lower (lib_compat (cfg_lib c)) ∈ ["strict"; "warn"; "off"]%string.
Proof. unfold pool_errors. errors_ok. by rewrite Z.ltb_lt. Qed.
Lemma mq_errors_ok c : mq_errors c = [] <->
  (AMQP_Enabled c = true -> amqp_queue (cfg_amqp c) <> ""%string) /\
  (Kafka_Enabled c = true -> kafka_topic (cfg_kafka c) <> ""%string /\ kafka_group (cfg_kafka c) <> ""%string) /\
  (NATS_Enabled c = true -> nats_subject (cfg_nats c) <> ""%string /\ nats_durable (cfg_nats c) <> ""%string).
Proof. unfold mq_errors. errors_ok. done. Qed.
Lemma worker_errors_ok c : worker_errors c = [] <->
  (crypto_worker_enabled (cfg_crypto_worker c) = true ->
    duration_ok (crypto_worker_timeout (cfg_crypto_worker c)) /\
    0 <= crypto_worker_processes (cfg_crypto_worker c) /\ 0 <= crypto_worker_standby (cfg_crypto_worker c)) /\
  (trust_ocsp_cache (cfg_trust c) = true -> duration_ok (trust_ocsp_cache_ttl (cfg_trust c))).
Proof. unfold worker_errors. errors_ok. done. Qed.
Lemma log_errors_ok c : log_errors c = [] <->
  log_format (cfg_log c) ∈ ["text"; "json"]%string /\
  log_level (cfg_log c) ∈ ["debug"; "info"; "warn"; "error"]%string /\
  (trim_space (trust_refresh_interval (cfg_trust c)) ∈ ["0"; "off"]%string \/
   duration_ok (trust_refresh_interval (cfg_trust c))) /\
  Forall (fun p => IsTSAPolicy (trim_space p) = true) (trust_tsa_policies (cfg_trust c)) /\
  trim_space (trust_crl_fail_policy (cfg_trust c)) ∈ [EmptyString; "soft"%string; "hard"%string].
Proof.
  unfold log_errors. errors_ok. rewrite tsa_errors_ok, negb_true_iff.
  assert ((one_of ["0"; "off"]%string (trim_space (trust_refresh_interval (cfg_trust c))) = false ->
           duration_ok (trust_refresh_interval (cfg_trust c))) <->
          (trim_space (trust_refresh_interval (cfg_trust c)) ∈ ["0"; "off"]%string \/
           duration_ok (trust_refresh_interval (cfg_trust c)))) as ->; [|done].
  rewrite <- one_of_elem. destruct (one_of _ _); naive_solver.
Qed.

(** Validation accepts exactly the configurations the service can run with; for
    any other it reports at least one error. *)
Theorem validate_iff l : Validate l = None <-> runnable (ld_config l).
Proof.
  unfold Validate. assert (errors_of (ld_config l) = [] <-> runnable (ld_config l)) as He.
  2:{ rewrite <- He. by destruct (errors_of _). }
  generalize (ld_config l) as c. intros c. unfold errors_of.
  rewrite !app_nil, pool_errors_ok, mq_errors_ok, worker_errors_ok, log_errors_ok.
  unfold audit_errors, watch_errors, jobs_errors, qr_errors. errors_ok.
  rewrite !store_errors_ok by set_solver. rewrite profile_errors_ok, str_eqb_eq.
  split.
  - intros (? & ? & ? & ? & ? & ? & ? & ?). constructor; tauto.
  - intros []. tauto.
Qed.

(** ** Concrete layers
    A library path in the environment, a queue URL on the command line, a log
    level in the file. *)
Definition lab_env : gmap string string := {["QOLTANBA_LIB_PATH" := "/k.so"; "QOLTANBA_CONFIG" := "q.yaml"]}%string.
Definition lab_flags : gmap string value := {["amqp-url" := VString "amqp://u:p@h"; "amqp-queue" := VString "q"]}%string.
Definition lab_file : settings := {["log.level" := VString "debug"; "lib.path" := VString "/old.so"]}%string.
Definition lab_parse_flags (path : string) : res goerr (string * gmap string value) := Ok (path, lab_flags).
Definition lab_load_file (path : string) : res goerr settings := Ok lab_file.
Definition lab_decode (m : settings) : res goerr Config := Ok (config_of m).
Definition lab_merged : layers := merge lab_env (fun _ => None) lab_file lab_flags.
Definition lab_loaded : Loaded := mkLoaded (config_of (fst lab_merged)) (snd lab_merged).
Lemma lab_Load : Load lab_env (fun _ => None) lab_parse_flags lab_load_file lab_decode = Ok lab_loaded.
Proof. vm_cast_no_check (eq_refl (Ok (E := goerr) lab_loaded)). Defined.
Definition entry_at (key : string) : entry :=
  default (plain "" "" "" kindString (VString "")) (find (fun e => str_eqb (e_key e) key) registry).
Lemma find_default_elem {A} (p : A -> bool) (d : A) (l : list A) : existsb p l = true -> default d (find p l) ∈ l.
Proof.
  intros (e & Hin & Hp)%existsb_exists. destruct (find p l) as [x|] eqn:Ef.
  - apply list_elem_of_In, (find_some p l Ef).
  - pose proof (find_none p l Ef e Hin) as Hn. congruence.
Qed.
Lemma entry_at_elem key : existsb (fun e => str_eqb (e_key e) key) registry = true -> entry_at key ∈ registry.
Proof. exact (find_default_elem _ _ registry). Qed.

(** The environment beats the file. *)
Lemma config_precedence_witness :
  ld_origins lab_loaded !! "lib.path"%string = Some "env"%string /\
  exists m, lab_decode m = Ok (ld_config lab_loaded) /\ m !! "lib.path"%string = Some (VString "/k.so").
Proof.
  destruct (config_precedence lab_env (fun _ => None) lab_parse_flags lab_load_file lab_decode lab_loaded lab_Load)
    as (path & fl & file & m & Hp & Hf & Hd & He).
  destruct (He (entry_at "lib.path") (entry_at_elem "lib.path" ltac:(vm_compute; reflexivity))) as (Hm & _ & _).
  split; [vm_compute; reflexivity|]. exists m. split; [exact Hd|].
  assert (path = "q.yaml"%string /\ fl = lab_flags) as [-> ->].
  { unfold lab_parse_flags in Hp. apply ok_inj in Hp. apply pair_eq in Hp as [Hp1 Hp2]. split; symmetry; assumption. }
  assert (file = lab_file) as -> by (symmetry; exact (ok_inj _ _ Hf)).
  change ("lib.path"%string) with (e_key (entry_at "lib.path")). rewrite Hm. vm_compute. reflexivity.
Defined.

(** The queue's password is not in the dump. *)
Lemma dump_hides_secrets_witness :
  Dump (mkLoaded (config_of {["amqp.url" := VString "amqp://u:p@h"]}) ∅)%string = Dump (mkLoaded (config_of ∅) ∅).
Proof.
  apply (dump_hides_secrets {["amqp.url" := VString "amqp://u:p@h"]}%string ∅ ∅).
  intros e He Hs. rewrite lookup_singleton_ne, lookup_empty; [reflexivity|]. intros Hk.
  assert (Forall (fun e => e_secret e = true \/ "amqp.url"%string <> e_key e) registry) as Hall
    by (apply (decide_true _); vm_compute; reflexivity).
  rewrite Forall_forall in Hall. destruct (Hall e He) as [H|H]; [congruence|by apply H].
Defined.

Lemma dump_effective_witness :
  dump_line lab_loaded (entry_at "log.level") =
    ("log.level              = debug                        (file)" ++ String "010" "")%string.
Proof.
  rewrite (dump_effective lab_env (fun _ => None) lab_parse_flags lab_load_file lab_loaded "q.yaml" lab_flags lab_file
    (entry_at "log.level") lab_Load eq_refl eq_refl (entry_at_elem "log.level" ltac:(vm_compute; reflexivity))
    ltac:(vm_compute; reflexivity) ltac:(vm_compute; reflexivity)).
  vm_compute. reflexivity.
Defined.

(** Two settings always show nothing. *)
Example tsa_url_not_dumped c : value_of c "sign.tsa-url" = ""%string /\ value_of c "trust.tsa-policies" = ""%string.
Proof. split; reflexivity. Qed.
(** What does not parse as a boolean is false, without a word: "yes" turns the
    revocation check of the login off. *)
Example env_yes_is_false :
  fromEnv {["QOLTANBA_OIDC_REQUIRE_OCSP" := "yes"]}%string (fun _ => None) (entry_at "oidc.require-ocsp") =
    Some (VBool false) /\ e_def (entry_at "oidc.require-ocsp") = VBool true.
Proof. split; vm_compute; reflexivity. Qed.
(** A secret given as a flag is taken. *)
Example secret_from_flag :
  e_secret (entry_at "amqp.url") = true /\
  effective ∅ (fun _ => None) ∅ lab_flags (entry_at "amqp.url") = (VString "amqp://u:p@h", "flag"%string).
Proof. split; vm_compute; reflexivity. Qed.
(** The window of the idempotency keys is not validated: seven days written
    as "7d" become one. *)
Example idempotency_ttl_unchecked :
  let c := config_of (<["idempotency.enabled" := VBool true]> (<["idempotency.ttl" := VString "7d"]> (fst lab_merged)))%string in
  errors_of c = [] /\ Idempotency_ResolveTTL c = 24 * hour.
Proof. vm_compute. split; reflexivity. Qed.
End Config.
