(* ===== verification/Compat.v ===== *)
(** * The compatibility report (internal/compat/compat.go)

    What the driver found out about the library is judged against the
    requirements; the report says whether the service may start. *)
From S2P Require Import Prelude Errors Provider Text Strconv Config Native Instance Open.
Import Open.Open.

Module Compat.

(** ** Policies and statuses *)
Inductive Policy := PolicyStrict | PolicyWarn | PolicyOff.
#[global] Instance Policy_eq : EqDecision Policy.
Proof. solve_decision. Defined.
Inductive Status := StatusPass | StatusWarn | StatusFail.
#[global] Instance Status_eq : EqDecision Status.
Proof. solve_decision. Defined.
Definition rank (s : Status) : Z := match s with StatusPass => 0 | StatusWarn => 1 | StatusFail => 2 end.

(** [ParsePolicy]: the policy is strict beside an error. *)
Definition ParsePolicy (s : string) : Policy * option goerr :=
  let k := to_lower (trim_space s) in
  if str_eqb k "strict" || empty_str k then (PolicyStrict, None)
  else if str_eqb k "warn" then (PolicyWarn, None)
  else if str_eqb k "off" then (PolicyOff, None)
  else (PolicyStrict, Some (New ("unknown compatibility policy " ++ dq ++ s ++ dq ++ " (want strict|warn|off)"))).
Definition policy_text (p : Policy) : string := match p with PolicyWarn => "warn" | PolicyOff => "off" | PolicyStrict => "strict" end.
Definition status_text (s : Status) : string := match s with StatusWarn => "WARN" | StatusFail => "FAIL" | StatusPass => "PASS" end.

Record Check := mkCheck { ck_name : string; ck_status : Status; ck_detail : string; ck_critical : bool }.
Record Requirements := mkReq { rq_min : string; rq_sign : bool }.
Record Report := mkReport {
  rp_lib : string; rp_version : string; rp_pool : Z; rp_isolated : bool;
  rp_caps : Capabilities; rp_self : SelfTestResult; rp_checks : list Check;
}.

(** ** Versions *)
Definition displayVersion (v : string) : string := if empty_str v then "unknown" else v.
Definition orNA (s : string) : string := if empty_str s then "(not set)" else s.
(** The segments, all of them numbers that are not negative. *)
Fixpoint segments (parts : list string) : option (list Z) :=
  match parts with
  | [] => Some []
  | p :: t =>
      let (n, ok) := Atoi p in
      if negb ok || (n <? 0) then None else (cons n) <$> segments t
  end.
(** [parseVersion]. *)
Definition parseVersion (v : string) : option (list Z) :=
  let v := trim_space v in
  if empty_str v || str_eqb (to_lower v) "unknown" then None
  else match segments (split "." v) with Some [] => None | r => r end.
(** The loop of [compareVersions], from a segment on. *)
Fixpoint compare_segments (n i : nat) (a b : list Z) : Z :=
  match n with
  | O => 0
  | S n =>
      let av := default 0 (a !! i) in
      let bv := default 0 (b !! i) in
      if negb (av =? bv) then (if av <? bv then -1 else 1) else compare_segments n (S i) a b
  end.
(** [compareVersions]. *)
Definition compareVersions (a b : string) : Z * bool :=
  match parseVersion a, parseVersion b with
  | Some x, Some y => (compare_segments (Nat.max (length x) (length y)) 0 x y, true)
  | _, _ => (0, false)
  end.

(** ** Checks *)
Definition pool_detail (n : Z) : string :=
  "library loaded and initialized (pool of " ++ dec_of_Z n ++ ", isolated=" ++ format_bool (1 <? n) ++ ")".
Definition loadCheck (caps : Capabilities) : Check := mkCheck "load" StatusPass (pool_detail (c_pool_size caps)) false.
Definition versionCheck (version min : string) : Check :=
  if empty_str min then
    mkCheck "version" StatusPass ("detected version " ++ displayVersion version ++ " (no minimum enforced)") false
  else let (cmp, ok) := compareVersions version min in
       if negb ok then
         mkCheck "version" StatusWarn ("version could not be determined (" ++ displayVersion version ++
           "); cannot confirm it is >= " ++ min) false
       else if cmp <? 0 then
         mkCheck "version" StatusFail ("version " ++ version ++ " is below the minimum supported " ++ min) false
       else mkCheck "version" StatusPass ("version " ++ version ++ " satisfies the minimum " ++ min) false.
Definition selfTestCheck (self : SelfTestResult) : Check :=
  if st_ran self && st_ok self then mkCheck "self-test" StatusPass (st_detail self) false
  else if st_ran self && negb (st_ok self) then
    mkCheck "self-test" StatusFail ("self-test FAILED — " ++ st_detail self) true
  else mkCheck "self-test" StatusWarn ("self-test skipped — " ++ st_detail self) false.

Definition capEntry : Type := string * bool.
Definition missing (l : list capEntry) : list string := map fst (List.filter (fun e => negb (snd e)) l).
Definition names (l : list capEntry) : list string := map fst l.
Definition required_caps (caps : Capabilities) (requireSign : bool) : list capEntry :=
  [("VerifyCMS", c_verify_cms caps); ("CertInfo", c_cert_info caps); ("Validate", c_validate caps)]%string ++
  (if requireSign then [("SignCMS"%string, c_sign_cms caps)] else []).
Definition optional_caps (caps : Capabilities) : list capEntry :=
  [("SignXML", c_sign_xml caps); ("VerifyXML", c_verify_xml caps); ("WSSE", c_wsse caps); ("Timestamp", c_timestamp caps);
   ("ZipSign", c_zip_sign caps); ("Hash", c_hash caps); ("ExportCert", c_export_cert caps)]%string.
Definition capabilityChecks (caps : Capabilities) (requireSign : bool) : list Check :=
  let required := required_caps caps requireSign in
  let reqMissing := missing required in
  let optMissing := missing (optional_caps caps) in
  [(if bool_decide (reqMissing <> []) then
      mkCheck "required-capabilities" StatusFail ("missing required capabilities: " ++ String.concat ", " reqMissing) false
    else mkCheck "required-capabilities" StatusPass
           ("all required capabilities present: " ++ String.concat ", " (names required)) false);
   (if bool_decide (optMissing <> []) then
      mkCheck "optional-capabilities" StatusWarn ("unavailable in this library version: " ++ String.concat ", " optMissing) false
    else mkCheck "optional-capabilities" StatusPass "all optional capabilities present" false)].

(** [Evaluate]. *)
Definition Evaluate (libPath : string) (caps : Capabilities) (self : SelfTestResult) (req : Requirements) : Report :=
  mkReport libPath (c_version caps) (c_pool_size caps) (1 <? c_pool_size caps) caps self
    ([loadCheck caps; versionCheck (c_version caps) (rq_min req); selfTestCheck self] ++
     capabilityChecks caps (rq_sign req)).

(** ** Verdicts *)
Definition worse (worst : Status) (c : Check) : Status := if rank worst <? rank (ck_status c) then ck_status c else worst.
Definition Verdict (r : Report) : Status := fold_left worse (rp_checks r) StatusPass.
Definition VerdictString (r : Report) : string :=
  match Verdict r with StatusFail => "incompatible" | StatusWarn => "degraded" | StatusPass => "compatible" end.
Definition Compatible (r : Report) : bool := negb (bool_decide (Verdict r = StatusFail)).
(** [MustRefuse]. *)
Fixpoint refuse_loop (checks : list Check) (anyFail : bool) (p : Policy) : bool :=
  match checks with
  | [] => anyFail && bool_decide (p = PolicyStrict)
  | c :: t =>
      if negb (bool_decide (ck_status c = StatusFail)) then refuse_loop t anyFail p
      else if ck_critical c then true else refuse_loop t true p
  end.
Definition MustRefuse (r : Report) (p : Policy) : bool := refuse_loop (rp_checks r) false p.

(** ** Renderings *)
Definition capabilityList (c : Capabilities) : list capEntry :=
  [("SignCMS", c_sign_cms c); ("VerifyCMS", c_verify_cms c); ("SignXML", c_sign_xml c); ("VerifyXML", c_verify_xml c);
   ("CertInfo", c_cert_info c); ("Validate", c_validate c); ("Timestamp", c_timestamp c); ("ZipSign", c_zip_sign c);
   ("WSSE", c_wsse c); ("Hash", c_hash c); ("ExportCert", c_export_cert c)]%string.
Definition nl : string := String "010" EmptyString.
Definition check_line (c : Check) : string :=
  "  [" ++ status_text (ck_status c) ++ "] " ++ Config.pad_right 22 (ck_name c) ++ " " ++ ck_detail c ++
  (if ck_critical c && bool_decide (ck_status c = StatusFail) then " (critical)" else EmptyString) ++ nl.
Definition cap_line (e : capEntry) : string :=
  "  " ++ Config.pad_right 12 (fst e) ++ " " ++ (if snd e then "yes" else "no") ++ nl.
(** [Text]. *)
Definition report_text (r : Report) : string :=
  "Kalkan library compatibility report" ++ nl ++
  "  library path : " ++ orNA (rp_lib r) ++ nl ++
  "  version      : " ++ displayVersion (rp_version r) ++ nl ++
  "  pool size    : " ++ dec_of_Z (rp_pool r) ++ " (isolated: " ++ format_bool (rp_isolated r) ++ ")" ++ nl ++
  nl ++ "Checks:" ++ nl ++ String.concat EmptyString (map check_line (rp_checks r)) ++
  nl ++ "Capabilities:" ++ nl ++ String.concat EmptyString (map cap_line (capabilityList (rp_caps r))) ++
  nl ++ "Verdict: " ++ to_upper (VerdictString r) ++ nl.

(** [JSON], up to the encoder: the projection it marshals. *)
Record checkJSON := mkCheckJSON { cj_name : string; cj_status : string; cj_detail : string; cj_critical : bool }.
Record jsonReport := mkJsonReport {
  jr_lib : string; jr_version : string; jr_pool : Z; jr_isolated : bool; jr_verdict : string; jr_compatible : bool;
  jr_self : SelfTestResult; jr_checks : list checkJSON; jr_caps : gmap string bool;
}.
Definition json_of (r : Report) : jsonReport :=
  mkJsonReport (rp_lib r) (rp_version r) (rp_pool r) (rp_isolated r) (VerdictString r) (Compatible r) (rp_self r)
    (map (fun c => mkCheckJSON (ck_name c) (status_text (ck_status c)) (ck_detail c) (ck_critical c)) (rp_checks r))
    (fold_left (fun m e => <[fst e := snd e]> m) (capabilityList (rp_caps r)) ∅).

(** ** The order of versions *)
(** A version is a sequence of numbers that goes on with zeros. *)
Definition segment (l : list Z) (i : nat) : Z := default 0 (l !! i).
Definition version_lt (x y : list Z) : Prop :=
  exists i, (forall j, (j < i)%nat -> segment x j = segment y j) /\ segment x i < segment y i.
Definition version_eq (x y : list Z) : Prop := forall i, segment x i = segment y i.

Lemma version_lt_irrefl x y : version_lt x y -> ~ version_eq x y.
Proof. intros (i & _ & Hi) He. rewrite He in Hi. lia. Qed.
Lemma version_lt_asym x y : version_lt x y -> ~ version_lt y x.
Proof.
  intros (i & Hj & Hi) (k & Hj' & Hk). destruct (lt_eq_lt_dec i k) as [[H| ->]|H].
  - specialize (Hj' i H). lia.
  - lia.
  - specialize (Hj k H). lia.
Qed.
Lemma segment_beyond l i : (length l <= i)%nat -> segment l i = 0.
Proof. intros H. unfold segment. by rewrite lookup_ge_None_2. Qed.

Lemma compare_segments_spec n i x y :
  (forall j, (j < i)%nat -> segment x j = segment y j) -> (length x <= i + n)%nat -> (length y <= i + n)%nat ->
  (compare_segments n i x y = -1 /\ version_lt x y) \/ (compare_segments n i x y = 0 /\ version_eq x y) \/
  (compare_segments n i x y = 1 /\ version_lt y x).
Proof.
  revert i. induction n as [|n IH]; intros i Hj Hx Hy; simpl.
  - right; left. split; [done|]. intros j. destruct (Nat.lt_ge_cases j i) as [H|H]; [by apply Hj|].
    by rewrite !segment_beyond by lia.
  - fold (segment x i). fold (segment y i). destruct (segment x i =? segment y i) eqn:E; simpl; boolp.
    + apply IH; [|lia|lia]. intros j H. destruct (decide (j = i)) as [->|]; [done|]. apply Hj. lia.
    + destruct (segment x i <? segment y i) eqn:El; boolp.
      * left. split; [done|]. exists i. split; [done|lia].
      * right; right. split; [done|]. exists i. split; [intros j H; symmetry; by apply Hj|lia].
Qed.
Lemma compare_parsed a b x y : parseVersion a = Some x -> parseVersion b = Some y ->
  compareVersions a b = (compare_segments (Nat.max (length x) (length y)) 0 x y, true).
Proof. unfold compareVersions. by intros -> ->. Qed.

(** Versions are compared as sequences of numbers that go on with zeros: the
    answer is -1, 0 or 1 as the first is smaller, equal or greater in the
    lexicographic order, for any number of segments; exactly when both texts are
    versions is there an answer. *)
Theorem compare_versions_spec a b :
  match parseVersion a, parseVersion b with
  | Some x, Some y => exists c, compareVersions a b = (c, true) /\ (c = -1 \/ c = 0 \/ c = 1) /\
      (c = -1 <-> version_lt x y) /\ (c = 0 <-> version_eq x y) /\ (c = 1 <-> version_lt y x)
  | _, _ => snd (compareVersions a b) = false
  end.
Proof.
  destruct (parseVersion a) as [x|] eqn:Ea; [|by unfold compareVersions; rewrite Ea].
  destruct (parseVersion b) as [y|] eqn:Eb; [|by unfold compareVersions; rewrite Ea, Eb].
  rewrite (compare_parsed a b x y Ea Eb). eexists; split; [reflexivity|].
  destruct (compare_segments_spec (Nat.max (length x) (length y)) 0 x y) as [[-> H]|[[-> H]|[-> H]]];
    [intros j Hj; lia|lia|lia|..]; (split; [lia|]).
  - pose proof (version_lt_irrefl _ _ H). pose proof (version_lt_asym _ _ H). naive_solver.
  - assert (~ version_lt x y) by (intros Hl; by apply (version_lt_irrefl _ _ Hl)).
    assert (~ version_lt y x) by (intros Hl; apply (version_lt_irrefl _ _ Hl); intros j; by rewrite H). naive_solver.
  - pose proof (version_lt_asym _ _ H). assert (~ version_eq x y).
    { intros He. apply (version_lt_irrefl _ _ H). intros j. by rewrite He. } naive_solver.
Qed.

(** ** Refusing to start *)
Lemma refuse_loop_spec checks any p :
  refuse_loop checks any p = true <->
  (exists c, c ∈ checks /\ ck_status c = StatusFail /\ ck_critical c = true) \/
  (p = PolicyStrict /\ (any = true \/ exists c, c ∈ checks /\ ck_status c = StatusFail)).
Proof.
  revert any. induction checks as [|c t IH]; intros any; simpl.
  - rewrite andb_true_iff, bool_decide_eq_true. set_solver.
  - case_bool_decide as Hc; simpl.
    + destruct (ck_critical c) eqn:Ecr; [set_solver|]. rewrite IH. split.
      * intros [(d & Hd & Hf)|[-> _]]; [left; exists d; set_solver|]. right. split; [done|]. right. exists c. set_solver.
      * intros [(d & [->|Hd]%elem_of_cons & Hf & Hcr)|[-> _]]; [congruence|left; eauto|]. right. auto.
    + rewrite IH. split.
      * intros [(d & Hd & Hf)|[-> [->|(d & Hd & Hf)]]]; [left|right|right]; set_solver.
      * intros [(d & [->|Hd]%elem_of_cons & Hf & Hcr)|[-> [->|(d & [->|Hd]%elem_of_cons & Hf)]]]; try done; eauto 6.
Qed.
Lemma verdict_fail l s : fold_left worse l s = StatusFail <-> s = StatusFail \/ exists c, c ∈ l /\ ck_status c = StatusFail.
Proof.
  revert s. induction l as [|c t IH]; intros s; simpl; [set_solver|]. rewrite IH. unfold worse. split.
  - intros [H|(d & Hd & Hf)]; [|right; set_solver]. destruct (rank s <? rank (ck_status c)); [right; exists c; set_solver|by left].
  - intros [->|(d & [->|Hd]%elem_of_cons & Hf)].
    + left. by destruct (ck_status c).
    + left. rewrite Hf. by destruct s.
    + right. eauto.
Qed.

(** The verdict of a report and the strict gate agree. *)
Theorem compatible_iff_strict r : Compatible r = negb (MustRefuse r PolicyStrict).
Proof.
  unfold Compatible, MustRefuse, Verdict. apply eq_true_iff_eq. rewrite !negb_true_iff, bool_decide_eq_false, <- not_true_iff_false.
  rewrite verdict_fail, refuse_loop_spec. split.
  - intros H [(c & Hc & Hf & _)|[_ [|(c & Hc & Hf)]]]; [|done|]; apply H; right; eauto.
  - intros H [|(c & Hc & Hf)]; [done|]. apply H. right. split; [done|]. right. eauto.
Qed.

Lemma missing_ok l : missing l = [] <-> Forall (fun e => snd e = true) l.
Proof.
  unfold missing. induction l as [|[n []] t IH]; simpl; [by split; [constructor|]|..].
  - rewrite IH. split; [by constructor|by intros H; inversion H].
  - split; [done|]. intros H. by inversion H.
Qed.

(** What the library must have. *)
Definition capable (caps : Capabilities) (sign : bool) : Prop :=
  c_verify_cms caps = true /\ c_cert_info caps = true /\ c_validate caps = true /\ (sign = true -> c_sign_cms caps = true).
Definition below (version min : string) : Prop := min <> EmptyString /\ exists c, compareVersions version min = (c, true) /\ c < 0.
Definition proven_wrong (self : SelfTestResult) : Prop := st_ran self = true /\ st_ok self = false.
Lemma capable_iff caps sign : missing (required_caps caps sign) = [] <-> capable caps sign.
Proof.
  rewrite missing_ok. unfold required_caps, capable. rewrite Forall_app, !Forall_cons. simpl.
  destruct sign; rewrite ?Forall_cons, ?Forall_nil; simpl; naive_solver.
Qed.
Lemma version_fails version min : ck_status (versionCheck version min) = StatusFail <-> below version min.
Proof.
  unfold versionCheck, below. destruct (empty_str min) eqn:Em.
  - apply str_eqb_eq in Em as ->. naive_solver.
  - apply str_eqb_neq in Em. destruct (compareVersions version min) as [c []]; simpl; [|naive_solver].
    destruct (c <? 0) eqn:Ec; boolp; simpl; naive_solver lia.
Qed.
Lemma self_fails self : ck_status (selfTestCheck self) = StatusFail <-> proven_wrong self.
Proof. unfold selfTestCheck, proven_wrong. destruct (st_ran self), (st_ok self); naive_solver. Qed.

(** C24: When startup is refused: always on a library whose self-test came out wrong,
    and under the strict policy also on one below the minimum version or
    without a required capability; on nothing else. *)
Theorem must_refuse_iff lib caps self req p :
  MustRefuse (Evaluate lib caps self req) p = true <->
  proven_wrong self \/
  (p = PolicyStrict /\ (below (c_version caps) (rq_min req) \/ ~ capable caps (rq_sign req))).
Proof.
  unfold MustRefuse. rewrite refuse_loop_spec. cbn [Evaluate rp_checks app].
  rewrite <- version_fails, <- self_fails, <- capable_iff. unfold capabilityChecks.
  assert (forall c, ck_critical (versionCheck (c_version caps) (rq_min req)) = c -> c = false) as Hv.
  { intros c <-. unfold versionCheck. destruct (empty_str _); [done|]. destruct (compareVersions _ _) as [n []]; simpl; [|done].
    by destruct (n <? 0). }
  assert (ck_status (selfTestCheck self) = StatusFail -> ck_critical (selfTestCheck self) = true) as Hs.
  { unfold selfTestCheck. by destruct (st_ran self), (st_ok self). }
  specialize (Hv _ eq_refl).
  set (cv := versionCheck _ _) in *. set (cs := selfTestCheck self) in *.
  set (req' := if bool_decide (missing (required_caps _ _) <> []) then _ else _).
  set (opt := if bool_decide (missing (optional_caps caps) <> []) then _ else _).
  assert (ck_status req' = StatusFail <-> missing (required_caps caps (rq_sign req)) <> []) as Hreq.
  { unfold req'. case_bool_decide; simpl; naive_solver. }
  assert (ck_critical req' = false) as Hreq' by (unfold req'; by case_bool_decide).
  assert (ck_status opt <> StatusFail) as Hopt by (unfold opt; by case_bool_decide).
  assert (forall c, c ∈ [loadCheck caps; cv; cs; req'; opt] -> ck_status c = StatusFail -> c = cv \/ c = cs \/ c = req') as Hin.
  { intros c Hc Hf. rewrite !elem_of_cons, elem_of_nil in Hc. naive_solver. }
  split.
  - intros [(c & Hc & Hf & Hcr)|[-> [|(c & Hc & Hf)]]]; [|done|];
      destruct (Hin c Hc Hf) as [-> | [-> | ->]]; naive_solver congruence.
  - intros [H|[-> [H|H]]]; [left; exists cs; split; [set_solver|auto]|..]; [|apply Hreq in H]; right; (split; [done|]); right;
      [exists cv|exists req']; (split; [set_solver|done]).
Qed.

(** ** With the configuration and the pool *)
Lemma lower_space c : is_space (lower_ascii c) = is_space c.
Proof. destruct c as [[] [] [] [] [] [] [] []]; vm_compute; reflexivity. Qed.
Lemma lower_no_space s : all_chars (fun c => negb (is_space c)) (to_lower s) = all_chars (fun c => negb (is_space c)) s.
Proof. induction s as [|c t IH]; [done|]. unfold to_lower in *. simpl. by rewrite lower_space, IH. Qed.

(** The start-up code ignores the error of the policy: on a configuration that
    was validated there is none, and the policy is the one that was written. *)
Theorem valid_policy_parses l :
  Config.Validate l = None ->
  exists p, ParsePolicy (Config.lib_compat (Config.cfg_lib (Config.ld_config l))) = (p, None) /\
    policy_text p = to_lower (Config.lib_compat (Config.cfg_lib (Config.ld_config l))).
Proof.
  intros Hv. assert (Config.errors_of (Config.ld_config l) = []) as He.
  { unfold Config.Validate in Hv. by destruct (Config.errors_of _). }
  unfold Config.errors_of in He. rewrite !Config.app_nil in He. destruct He as [Hp _].
  apply Config.pool_errors_ok in Hp as (_ & _ & _ & Hc).
  set (s := Config.lib_compat _) in *. unfold ParsePolicy.
  assert (all_chars (fun c => negb (is_space c)) s = true) as Hs.
  { rewrite <- lower_no_space. revert Hc. generalize (to_lower s). intros k Hk. rewrite !elem_of_cons, elem_of_nil in Hk.
    by destruct Hk as [-> | [-> | [-> | []]]]. }
  rewrite (trim_no_space s Hs). rewrite !elem_of_cons, elem_of_nil in Hc.
  destruct Hc as [-> | [-> | [-> | []]]]; eexists; split; reflexivity.
Qed.

(** A service that starts under the strict policy has the operations it is
    for: none of them is refused as unsupported before it reaches the library. *)
Theorem strict_gate_supports {L} (i : kalkan L) pem_decode temp_write lib caps self req a cert vreq sreq s :
  MustRefuse (Evaluate lib caps self req) PolicyStrict = false ->
  VerifyCMS i temp_write caps a vreq s = submit a empty_verify (verifyCMS_job i temp_write vreq) s /\
  PoolCertProperties i caps a cert s = submit a [] (fun s => (s, i_certInfo i s cert, None)) s /\
  c_validate caps = true /\
  (rq_sign req = true ->
   SignCMS i pem_decode temp_write caps a sreq s = submit a ""%string (signCMS_job i pem_decode temp_write sreq) s).
Proof.
  intros Hr. assert (capable caps (rq_sign req)) as (Hv & Hc & Hval & Hs).
  { apply capable_iff. destruct (missing (required_caps caps (rq_sign req))) as [|m t] eqn:Em; [done|].
    assert (MustRefuse (Evaluate lib caps self req) PolicyStrict = true) as Ht; [|congruence].
    unfold MustRefuse. apply refuse_loop_spec. right. split; [done|]. right.
    cbn [Evaluate rp_checks app]. unfold capabilityChecks. rewrite Em, bool_decide_eq_true_2 by done.
    eexists. split; [do 3 apply list_elem_of_further; apply list_elem_of_here|done]. }
  unfold VerifyCMS, PoolCertProperties, SignCMS. rewrite Hv, Hc. split; [done|]. split; [done|]. split; [done|].
  intros Hsign. by rewrite (Hs Hsign).
Qed.

(** A minimum that is no version cannot be undershot: the check warns at most. *)
Lemma malformed_minimum_warns version min :
  min <> ""%string -> parseVersion min = None -> ck_status (versionCheck version min) = StatusWarn.
Proof.
  intros Hm Hp. unfold versionCheck. apply str_eqb_neq in Hm. unfold empty_str. rewrite Hm.
  unfold compareVersions. rewrite Hp. by destruct (parseVersion version).
Qed.

(** ** Concrete reports *)
Definition lab_caps (v : string) (sign : bool) : Capabilities := mkCaps v 1 sign true true true true true true true true true true.
Definition passed : SelfTestResult := mkSelfTest true true "SHA256" "match".
Definition lab_req : Requirements := mkReq "2.0.0" true.
Lemma strict_gate_supports_witness :
  MustRefuse (Evaluate "/k.so" (lab_caps "2.0.13" true) passed lab_req) PolicyStrict = false /\
  c_validate (lab_caps "2.0.13" true) = true.
Proof.
  split; [vm_compute; reflexivity|].
  exact (proj1 (proj2 (proj2 (strict_gate_supports (Instance.instance (Instance.lab_lib (Instance.lab_buf "") (Instance.lab_buf "")))
    (fun _ => None) (fun _ => None) "/k.so" (lab_caps "2.0.13" true) passed lab_req (Arrival false Picked None) ""
    (mkVerifyRequest "" "" "" false false false false 0 [])
    (mkSignRequest (mkKeyRef StoragePKCS12 "" "") "" "" false false false false false "" "" []) tt
    ltac:(vm_compute; reflexivity))))).
Defined.
Definition lab_config : Config.Loaded :=
  Config.mkLoaded (Config.config_of {["lib.path" := Config.VString "/k.so"; "workers" := Config.VInt 1; "lib.compat" := Config.VString "Warn";
    "log.format" := Config.VString "json"; "log.level" := Config.VString "info"]})%string ∅.
Lemma valid_policy_parses_witness :
  exists p, ParsePolicy "Warn" = (p, None) /\ policy_text p = "warn"%string.
Proof.
  assert (Config.Validate lab_config = None) as H by (vm_compute; reflexivity).
  exact (valid_policy_parses lab_config H).
Defined.
Example below_minimum :
  let r := Evaluate "/k.so" (lab_caps "1.9.9" true) passed lab_req in
  (MustRefuse r PolicyStrict, MustRefuse r PolicyWarn, MustRefuse r PolicyOff, VerdictString r) =
    (true, false, false, "incompatible"%string).
Proof. vm_compute. reflexivity. Qed.
(** "Report only, never gate" refuses all the same after a failed self-test. *)
Example off_refuses :
  MustRefuse (Evaluate "/k.so" (lab_caps "2.0.13" true) (mkSelfTest true false "SHA256" "mismatch") lab_req) PolicyOff = true.
Proof. vm_compute. reflexivity. Qed.
(** A misspelt minimum lets a library below it pass the strict gate. *)
Example misspelt_minimum :
  MustRefuse (Evaluate "/k.so" (lab_caps "1.0.0" true) passed (mkReq "v2.0.0" true)) PolicyStrict = false.
Proof. vm_compute. reflexivity. Qed.
Example versions_compared :
  (compareVersions "2.0" "2.0.0", compareVersions "2.0.13" "2.0.9", compareVersions "2.0.x" "2") = ((0, true), (1, true), (0, false)).
Proof. vm_compute. reflexivity. Qed.
End Compat.
