(* ===== verification/RestServer.v ===== *)
(** * The HTTP transport (internal/transport/rest/: rest.go, batch.go, jobs.go,
    oidc.go, oidcauth.go, qr.go, multisign.go, challenge.go, signedqr.go, audit.go,
    portal.go, sandbox.go, console.go, observability.go)

    A handler turns a request into a response. The services behind it are
    records of their operations over one world [W]; a service that is switched
    off is [None], and a handler that uses it all the same panics. A response body
    is the value that is encoded, the page that is rendered or the bytes. The JSON
    decoder, forms and the files of an upload are parameters. *)
From S2P Require Import Prelude Errors Provider CoreTypes CertParse Explain Service Verify Sign Historical Batch Text Multisign Jobs Journal Challenge Oidc Qr Jws SignedQr Dispatch HttpIdem.
Import Dispatch.Dispatch.

Module Server.

(** ** Requests and responses *)
(** The query, header and path values are by name, empty when absent. *)
Record request := mkRequest {
  h_method : string; h_path : string; h_value : string -> string; h_query : string -> string;
  h_header : string -> string; h_host : string; h_tls : bool; h_body : string;
}.

Record errorDetail := mkErrorDetail { ed_kind : string; ed_code : string; ed_message : string; ed_action : string }.
Record loginPage := mkLoginPage {
  lp_client : string; lp_request : Oidc.Oidc.AuthorizeRequest; lp_scope : string; lp_challenge_id : string; lp_data : string;
  lp_expires : Z; lp_qr : bool;
}.
Record challengeReply := mkChallengeReply {
  cr_id : string; cr_data : string; cr_alg : string; cr_expires : Z; cr_state : string;
}.
Inductive page :=
| LoginPage (p : loginPage) | AuthorizeErrorPage (code detail : string) | ReportPage (r : VerificationReport)
| PortalPage (error : option string) | ConsolePage (sandbox portal : bool).

(** What is written; [F] is the numbers of signed documents, [DD] and [KS] the
    discovery document and the key set. *)
Inductive payload (F DD KS : Type) :=
| POut (o : output) | PRegistry (o : RegistryOutput) | PError (d : errorDetail)
| PLines (l : list output) | PJob (v : Jobs.Jobs.View) | PBytes (b : string)
| PDiscovery (d : DD) | PKeys (k : KS) | PChallenge (c : challengeReply) | PTokens (t : Oidc.Oidc.TokenResponse)
| PClaims (m : list (string * Jws.Jws.json F)) | POAuth (code description : string) | PPage (p : page)
| PQrCreated (c : Qr.Qr.CreateResponse) | PQrView (v : Qr.Qr.View) | PQrBody (b : Qr.Qr.AppBody) | PStatus (s : string)
| PSession (s : Multisign.Multisign.Session) | PIssued (c : Challenge.Challenge.IssueResponse)
| PConfirmed (c : Challenge.Challenge.ConfirmResponse) | PDocument (d : SignedQr.SignedQr.IssueResponse)
| PDocumentCheck (d : SignedQr.SignedQr.VerifyResult F) | PAudit (r : Journal.Journal.VerifyResult) | PNone.
Arguments POut {F DD KS}. Arguments PRegistry {F DD KS}. Arguments PError {F DD KS}. Arguments PLines {F DD KS}.
Arguments PJob {F DD KS}. Arguments PBytes {F DD KS}. Arguments PDiscovery {F DD KS}. Arguments PKeys {F DD KS}.
Arguments PChallenge {F DD KS}. Arguments PTokens {F DD KS}. Arguments PClaims {F DD KS}. Arguments POAuth {F DD KS}.
Arguments PPage {F DD KS}. Arguments PQrCreated {F DD KS}. Arguments PQrView {F DD KS}. Arguments PQrBody {F DD KS}.
Arguments PStatus {F DD KS}. Arguments PSession {F DD KS}. Arguments PIssued {F DD KS}. Arguments PConfirmed {F DD KS}.
Arguments PDocument {F DD KS}. Arguments PDocumentCheck {F DD KS}. Arguments PAudit {F DD KS}. Arguments PNone {F DD KS}.

(** ** Statuses *)
Definition StatusOK := 200.
Definition StatusCreated := 201.
Definition StatusAccepted := 202.
Definition StatusNoContent := 204.
Definition StatusSeeOther := 303.
Definition StatusBadRequest := 400.
Definition StatusUnauthorized := 401.
Definition StatusForbidden := 403.
Definition StatusNotFound := 404.
Definition StatusMethodNotAllowed := 405.
Definition StatusRequestTimeout := 408.
Definition StatusConflict := 409.
Definition StatusRequestEntityTooLarge := 413.
Definition StatusUnprocessableEntity := 422.
Definition StatusInternalServerError := 500.
Definition StatusNotImplemented := 501.
Definition StatusServiceUnavailable := 503.

(** [statusFor]. *)
Definition statusFor (k : error_kind) : Z :=
  match k with
  | KindInvalid => StatusBadRequest
  | KindUnsupported => StatusNotImplemented
  | KindUnavailable => StatusServiceUnavailable
  | KindCanceled => StatusRequestTimeout
  | KindInternal => StatusInternalServerError
  end.
(** The kind of an error, internal when it carries none. *)
Definition kindOf (e : goerr) : error_kind := default KindInternal (as_domain e).

(** [maxBodyBytes]; [portalMaxUpload]. *)
Definition maxBodyBytes : Z := Z.shiftl 32 20.
Definition portalMaxUpload : Z := Z.shiftl 16 20.

(** [withLocale]. *)
Definition locale (r : request) : Locale :=
  let tag := h_header r "Accept-Language" in if empty_str tag then LocaleEN else ParseLocale tag.

(** [wantsStream], [wantsHTML]. *)
Definition wantsStream (r : request) : bool :=
  existsb (str_eqb (h_query r "stream")) ["1"; "true"; "yes"]%string || contains "application/x-ndjson" (h_header r "Accept").
Definition wantsHTML (r : request) : bool :=
  let accept := h_header r "Accept" in
  if empty_str accept || contains "application/json" accept then false else contains "text/html" accept.

(** [firstForwarded], [publicBaseURL]. *)
Definition firstForwarded (v : string) : string := trim_space (default EmptyString (head (split "," v))).
Definition publicBaseURL (r : request) (configured : string) : string :=
  if negb (empty_str configured) then trim_slashes configured
  else
    let proto := firstForwarded (h_header r "X-Forwarded-Proto") in
    let proto := if empty_str proto then (if h_tls r then "https" else "http")%string else proto in
    let host := firstForwarded (h_header r "X-Forwarded-Host") in
    let host := if empty_str host then h_host r else host in
    (proto ++ "://" ++ host ++ trim_slashes (firstForwarded (h_header r "X-Forwarded-Prefix")))%string.

Section Responses.
  Context {F DD KS : Type}.
Record response := mkResponse { s_status : Z; s_headers : gmap string string; s_body : payload F DD KS }.

Definition typed (ct : string) : gmap string string := {["Content-Type"%string := ct]}.
Definition no_store (h : gmap string string) : gmap string string := <["Cache-Control"%string := "no-store"%string]> h.
(** [writeJSON]. *)
Definition writeJSON (status : Z) (v : payload F DD KS) : response := mkResponse status (typed "application/json") v.
(** [writeError]. *)
Definition writeError (r : request) (err : goerr) (msg : string) : response :=
  let exp := ExplainDomainIn (locale r) err in
  let msg := if empty_str msg then x_message exp else msg in
  let msg := if empty_str msg then err_text err else msg in
  writeJSON (statusFor (kindOf err)) (PError (mkErrorDetail (KindName (kindOf err)) (x_code exp) msg (x_action exp))).
Definition plainError (status : Z) (k : error_kind) (msg action : string) : response :=
  writeJSON status (PError (mkErrorDetail (KindName k) EmptyString msg action)).
Definition invalid (op : string) : goerr := Domain KindInvalid op None.

(** [decode]: the first JSON value of a body that is cut at 32 MiB. *)
Definition first_json (A : Type) : Type := string -> bool -> res goerr A.
Definition decode {A} (parse : first_json A) (r : request) : response + A :=
  match parse (limit_reader maxBodyBytes (h_body r)) (maxBodyBytes <? Z.of_nat (String.length (h_body r))) with
  | Ok v => inr v
  | Err e => inl (writeError r (invalid "decode") ("invalid JSON body: " ++ err_text e))
  end.

(** The end of a handler: the output, or the error. *)
Definition answer {O} (r : request) (wrap : O -> payload F DD KS) (x : O * option goerr) : response :=
  match snd x with Some e => writeError r e EmptyString | None => writeJSON StatusOK (wrap (fst x)) end.

(** [writeJobError]. *)
Definition writeJobError (r : request) (err : goerr) : response :=
  if errors_is err Jobs.Jobs.ErrNotFound then plainError StatusNotFound KindInvalid "job not found" EmptyString
  else if errors_is err Jobs.Jobs.ErrInvalidOp then writeError r (invalid "jobs") "unknown operation"
  else if errors_is err Jobs.Jobs.ErrTooLarge then
    plainError StatusRequestEntityTooLarge KindInvalid "request too large for an inline job" EmptyString
  else if errors_is err Jobs.Jobs.ErrBusy then
    plainError StatusServiceUnavailable KindUnavailable "job queue full" "Retry later."
  else writeError r err EmptyString.

(** [writeQRError]. *)
Definition is_any (err : goerr) (l : list goerr) : bool := existsb (errors_is err) l.
Definition writeQRError (r : request) (err : goerr) : response :=
  if is_any err [Qr.Qr.ErrSessionNotFound; Qr.Qr.ErrAppOnly] then
    plainError StatusNotFound KindInvalid "session not found" EmptyString
  else if is_any err [Qr.Qr.ErrSessionUsed; Qr.Qr.ErrSessionExpired] then
    plainError StatusConflict KindInvalid (err_text err) EmptyString
  else if is_any err [Qr.Qr.ErrAuthUnavailable] then
    plainError StatusNotImplemented KindUnsupported (err_text err) "Enable the OIDC provider (oidc.enabled) to use auth-mode QR."
  else if is_any err [Qr.Qr.ErrRejected; Qr.Qr.ErrRevoked; Qr.Qr.ErrNoData; Qr.Qr.ErrUnsupportedMode; Qr.Qr.ErrUnsupportedProfile] then
    writeError r (invalid "qr") (err_text err)
  else writeError r err EmptyString.

(** [multisignError], [challengeError]. *)
Definition multisignError (err : goerr) : goerr :=
  let k := if is_any err [Multisign.Multisign.ErrNotFound; Multisign.Multisign.ErrSessionClosed;
                          Multisign.Multisign.ErrNoNewSigner; Multisign.Multisign.ErrLostSigner;
                          Multisign.Multisign.ErrNotInvited; Multisign.Multisign.ErrAlreadySigned;
                          Multisign.Multisign.ErrInvalid] then KindInvalid else KindInternal in
  Domain k "Multisign" None.
Definition challengeError (err : goerr) : goerr :=
  let k := if is_any err [Challenge.Challenge.ErrNotFound; Challenge.Challenge.ErrExpired; Challenge.Challenge.ErrUsed]
           then KindInvalid else KindInternal in
  Domain k "ChallengeConfirm" None.

(** [oauthErrorFor], [writeOAuthError], [writeAuthorizeError]. *)
Definition oauthErrorFor (err : goerr) : Z * string :=
  if is_any err [Oidc.Oidc.ErrUnknownClient; Oidc.Oidc.ErrClientAuth] then (StatusUnauthorized, "invalid_client"%string)
  else if is_any err [Oidc.Oidc.ErrCodeInvalid; Oidc.Oidc.ErrPKCEFailed] then (StatusBadRequest, "invalid_grant"%string)
  else if is_any err [Oidc.Oidc.ErrUnsupportedFlow] then (StatusBadRequest, "unsupported_grant_type"%string)
  else if is_any err [Oidc.Oidc.ErrPKCERequired; Oidc.Oidc.ErrRedirectMismatch] then (StatusBadRequest, "invalid_request"%string)
  else if is_any err [Oidc.Oidc.ErrSignatureRejected; Oidc.Oidc.ErrCertRevoked] then (StatusForbidden, "access_denied"%string)
  else (StatusInternalServerError, "server_error"%string).
Definition writeOAuthError (status : Z) (code description : string) : response :=
  mkResponse status (no_store (typed "application/json")) (POAuth code description).
Definition html : gmap string string := typed "text/html; charset=utf-8".
Definition writeAuthorizeError (err : goerr) : response :=
  let (status, code) := oauthErrorFor err in
  mkResponse status (no_store html) (PPage (AuthorizeErrorPage code (err_text err))).

(** [writeOIDCError]. *)
Definition writeOIDCError (err : goerr) : response :=
  let no status code text := writeJSON status (POAuth code text) in
  if errors_is err Challenge.Challenge.ErrNotFound then no StatusBadRequest "invalid_grant"%string "challenge not found"%string
  else if errors_is err Challenge.Challenge.ErrExpired then no StatusBadRequest "invalid_grant"%string "challenge expired"%string
  else if errors_is err Challenge.Challenge.ErrUsed then no StatusBadRequest "invalid_grant"%string "challenge already used"%string
  else if errors_is err Oidc.Oidc.ErrSignatureRejected then no StatusUnauthorized "access_denied"%string "signature rejected"%string
  else if errors_is err Oidc.Oidc.ErrCertRevoked then no StatusUnauthorized "access_denied"%string "certificate revoked"%string
  else if errors_is err Oidc.Oidc.ErrTokenInvalid then no StatusUnauthorized "invalid_token"%string "token invalid"%string
  else if errors_is err Oidc.Oidc.ErrTokenExpired then no StatusUnauthorized "invalid_token"%string "token expired"%string
  else no StatusInternalServerError "server_error"%string EmptyString.
End Responses.

(** ** The services behind the handlers *)
Record jobs_api (W : Type) := mkJobsApi {
  ja_submit : string -> string -> string -> string -> M W (res goerr Jobs.Jobs.View);
  ja_get : string -> M W (res goerr Jobs.Jobs.View);
  ja_result : string -> M W (res goerr (string * Jobs.Jobs.Status));
  ja_cancel : string -> M W (option goerr);
}.
Arguments ja_submit {W}. Arguments ja_get {W}. Arguments ja_result {W}. Arguments ja_cancel {W}.
Record oidc_api (W F DD KS : Type) := mkOidcApi {
  oa_discovery : M W DD; oa_keys : M W KS;
  oa_challenge : string -> string -> M W (res goerr challengeReply);
  oa_verify : string -> string -> string -> M W (res goerr Oidc.Oidc.TokenResponse);
  oa_userinfo : string -> M W (res goerr (list (string * Jws.Jws.json F)));
  oa_validate : Oidc.Oidc.AuthorizeRequest -> M W (res goerr Oidc.Oidc.Client);
  oa_complete : Oidc.Oidc.AuthorizeRequest -> string -> string -> M W (res goerr string);
  oa_exchange : Oidc.Oidc.TokenRequest -> M W (res goerr Oidc.Oidc.TokenResponse);
}.
Arguments oa_discovery {W F DD KS}. Arguments oa_keys {W F DD KS}. Arguments oa_challenge {W F DD KS}.
Arguments oa_verify {W F DD KS}. Arguments oa_userinfo {W F DD KS}. Arguments oa_validate {W F DD KS}.
Arguments oa_complete {W F DD KS}. Arguments oa_exchange {W F DD KS}.
Record qr_api (W : Type) := mkQrApi {
  qa_create : Qr.Qr.CreateRequest -> string -> M W (res goerr Qr.Qr.CreateResponse);
  qa_get : string -> M W (res goerr Qr.Qr.View);
  qa_app_data : string -> M W (res goerr Qr.Qr.AppBody);
  qa_submit : string -> string -> M W (option goerr);
}.
Arguments qa_create {W}. Arguments qa_get {W}. Arguments qa_app_data {W}. Arguments qa_submit {W}.
Record multisign_api (W : Type) := mkMultisignApi {
  ma_create : Multisign.Multisign.CreateRequest -> M W (res goerr Multisign.Multisign.Session);
  ma_get : string -> M W (res goerr Multisign.Multisign.Session);
  ma_submit : string -> string -> M W (res goerr Multisign.Multisign.Session);
  ma_cancel : string -> M W (option goerr);
}.
Arguments ma_create {W}. Arguments ma_get {W}. Arguments ma_submit {W}. Arguments ma_cancel {W}.
Record challenge_api (W : Type) := mkChallengeApi {
  ca_issue : Challenge.Challenge.IssueRequest -> M W (res goerr Challenge.Challenge.IssueResponse);
  ca_confirm : Challenge.Challenge.ConfirmRequest -> M W (Challenge.Challenge.ConfirmResponse * option goerr);
}.
Arguments ca_issue {W}. Arguments ca_confirm {W}.
Record document_api (W F : Type) := mkDocumentApi {
  da_issue : SignedQr.SignedQr.IssueRequest F -> M W (res goerr SignedQr.SignedQr.IssueResponse);
  da_verify : string -> M W (SignedQr.SignedQr.VerifyResult F);
}.
Arguments da_issue {W F}. Arguments da_verify {W F}.

(** [Server]; the domain answers in the language of the request. *)
Record Server (W F DD KS : Type) := mkServer {
  svc : Locale -> core_ops W;
  svc_registry : Locale -> list RegistryItem -> BatchOptions -> M W RegistryOutput;
  sv_jobs : option (jobs_api W); sv_oidc : option (oidc_api W F DD KS); sv_qr : option (qr_api W);
  sv_challenge : option (challenge_api W); sv_multisign : option (multisign_api W);
  sv_audit_path : string; sv_audit_verifier : option (Journal.Journal.Entry -> option goerr);
  sv_console : bool; sv_sandbox_key : string; sv_sandbox_pass : string;
  sv_signed_qr : option (document_api W F); sv_portal : bool; sv_qr_base : string; sv_jwks : option (M W KS);
}.
Arguments svc {W F DD KS}. Arguments svc_registry {W F DD KS}. Arguments sv_jobs {W F DD KS}. Arguments sv_oidc {W F DD KS}.
Arguments sv_qr {W F DD KS}. Arguments sv_challenge {W F DD KS}. Arguments sv_multisign {W F DD KS}.
Arguments sv_audit_path {W F DD KS}. Arguments sv_audit_verifier {W F DD KS}. Arguments sv_console {W F DD KS}.
Arguments sv_sandbox_key {W F DD KS}. Arguments sv_sandbox_pass {W F DD KS}. Arguments sv_signed_qr {W F DD KS}.
Arguments sv_portal {W F DD KS}. Arguments sv_qr_base {W F DD KS}. Arguments sv_jwks {W F DD KS}.

(** [json.Decoder] at the types of the bodies, unknown fields refused. *)
Record jobSubmit := mkJobSubmit { js_op : string; js_request : string; js_callback : string; js_key : string }.
Record parsers (F : Type) := mkParsers {
  ps_sign : first_json Dto.SignRequest; ps_verify : first_json Dto.VerifyRequest;
  ps_verify_at : first_json Dto.VerifyAtRequest; ps_archive : first_json Dto.ArchiveRequest;
  ps_extract : first_json Dto.ExtractRequest; ps_info : first_json Dto.CertInfoRequest;
  ps_validate : first_json Dto.ValidateRequest;
  ps_sign_batch : first_json (Dto.BatchRequest Dto.SignRequest);
  ps_verify_batch : first_json (Dto.BatchRequest Dto.VerifyRequest);
  ps_extract_batch : first_json (Dto.BatchRequest Dto.ExtractRequest);
  ps_info_batch : first_json (Dto.BatchRequest Dto.CertInfoRequest);
  ps_validate_batch : first_json (Dto.BatchRequest Dto.ValidateRequest);
  ps_registry : first_json (Dto.BatchRequest Dto.RegistryItemRequest);
  ps_job : first_json jobSubmit; ps_qr : first_json Qr.Qr.CreateRequest;
  ps_oidc_challenge : first_json (string * string); ps_oidc_verify : first_json (string * string * string);
  ps_multisign : first_json Multisign.Multisign.CreateRequest; ps_container : first_json string;
  ps_issue : first_json Challenge.Challenge.IssueRequest; ps_confirm : first_json Challenge.Challenge.ConfirmRequest;
  ps_document : first_json (SignedQr.SignedQr.IssueRequest F); ps_payload : first_json string;
  ps_sandbox : first_json (string * string);
}.
Arguments ps_sign {F}. Arguments ps_verify {F}. Arguments ps_verify_at {F}. Arguments ps_archive {F}.
Arguments ps_extract {F}. Arguments ps_info {F}. Arguments ps_validate {F}. Arguments ps_sign_batch {F}.
Arguments ps_verify_batch {F}. Arguments ps_extract_batch {F}. Arguments ps_info_batch {F}. Arguments ps_validate_batch {F}.
Arguments ps_registry {F}. Arguments ps_job {F}. Arguments ps_qr {F}. Arguments ps_oidc_challenge {F}.
Arguments ps_oidc_verify {F}. Arguments ps_multisign {F}. Arguments ps_container {F}. Arguments ps_issue {F}.
Arguments ps_confirm {F}. Arguments ps_document {F}. Arguments ps_payload {F}. Arguments ps_sandbox {F}.

Section Handlers.
  Context {W F DD KS : Type}.
  Variable s : Server W F DD KS.
  Variable ps : parsers F.
  (** [r.ParseForm] with [r.FormValue]; HTTP Basic credentials; the files of a
      multipart form; the address [http.Redirect] writes, which makes one without
      a scheme relative to the request; [os.Open] of the journal with its lines,
      the error that ends them, and its bytes. *)
  Variable ParseForm : request -> res goerr (string -> string).
  Variable BasicAuth : request -> option (string * string).
  Variable ParseMultipartForm : request -> res goerr (string -> option string).
  Variable location : request -> string -> string.
  Variable open_journal : string -> M W (res goerr (list Journal.Journal.line * option goerr * string)).

Notation response := (response (F := F) (DD := DD) (KS := KS)).
Notation handler := (request -> M W response).

(** *** rest.go *)
(** The handlers of one operation. *)
Definition one {R I O} (parse : first_json R) (op : string) (conv : R -> res goerr I)
    (call : I -> M W (O * option goerr)) (wrap : O -> output) : handler := fun r =>
  match decode parse r with
  | inl resp => mret resp
  | inr req =>
      match conv req with
      | Err e => mret (writeError r (invalid op) (err_text e))
      | Ok i => (let* out := call i in mret (answer r (fun o => POut (wrap o)) out))%m
      end
  end.
Definition handleSign : handler := fun r => one (ps_sign ps) "Sign" Dto.sign_ToCore (op_sign (svc s (locale r))) OSign r.
Definition handleArchive : handler := fun r =>
  one (ps_archive ps) "Archive" archive_conv (op_archive (svc s (locale r))) OArchive r.
Definition handleVerifyAt : handler := fun r =>
  one (ps_verify_at ps) "VerifyAt" Dto.verify_at_ToCore (op_verify_at (svc s (locale r))) OVerifyAt r.
Definition handleExtract : handler := fun r =>
  one (ps_extract ps) "Extract" Dto.extract_ToCore (op_extract (svc s (locale r))) OExtract r.
Definition handleCertInfo : handler := fun r =>
  one (ps_info ps) "CertInfo" info_conv (op_info (svc s (locale r))) OInfo r.
Definition handleValidate : handler := fun r =>
  one (ps_validate ps) "Validate" validate_conv (op_validate (svc s (locale r))) OValidate r.

(** [in.Report = true]. *)
Definition with_report (i : VerifyInput) : VerifyInput :=
  mkVerifyInput (vi_format i) (vi_signature i) (vi_data i) (vi_data_ref i) (vi_detached i) (vi_input_pem i)
    (vi_check_cert_time i) (vi_extract_content i) (vi_extract_claims i) (vi_explain i) true (vi_receipt i)
    (vi_trusted i) (vi_revocation_check i) (vi_revocation_method i) (vi_responder_url i) (vi_archive i).
(** [writeReportHTML]: the page, when there is a report. *)
Definition writeReportHTML (out : VerifyOutput) : option response :=
  match vo_report out with
  | None => None
  | Some rep => Some (mkResponse StatusOK html (PPage (ReportPage rep)))
  end.
Definition handleVerify : handler := fun r =>
  match decode (ps_verify ps) r with
  | inl resp => mret resp
  | inr req =>
      match Dto.verify_ToCore req with
      | Err e => mret (writeError r (invalid "Verify") (err_text e))
      | Ok i =>
          let i := if wantsHTML r then with_report i else i in
          (let* (out, err) := op_verify (svc s (locale r)) i in
           mret match err with
                | Some e => writeError r e EmptyString
                | None =>
                    match (if wantsHTML r then writeReportHTML out else None) with
                    | Some page => page
                    | None => writeJSON StatusOK (POut (OVerify out))
                    end
                end)%m
      end
  end.

(** *** batch.go *)
(** [decodeBatch]. *)
Definition decodeBatch {R I} (parse : first_json (Dto.BatchRequest R)) (conv : R -> res goerr I) (op : string) (r : request)
    : response + (list I * BatchOptions) :=
  match decode parse r with
  | inl resp => inl resp
  | inr req =>
      match Dto.BatchItems (Dto.bq_items req) conv with
      | Err e => inl (writeError r (invalid op) (err_text e))
      | Ok items => inr (items, Dto.Options req)
      end
  end.
(** [writeBatch]: the aggregate, or a line per item and one for the totals. *)
Definition writeBatch {O} (r : request) (wrap : BatchOutput O -> output) (wrap_item : BatchItem O -> output)
    (run : M W (list (BatchItem O) * BatchOutput O)) : M W response :=
  (let* (sunk, out) := run in
   mret (if wantsStream r then
           mkResponse StatusOK (typed "application/x-ndjson")
             (PLines (map wrap_item sunk ++ [OSummary (bo_total out) (bo_succeeded out) (bo_failed out)]))
         else writeJSON StatusOK (POut (wrap out))))%m.
Definition many {R I O} (parse : first_json (Dto.BatchRequest R)) (conv : R -> res goerr I) (op : string)
    (run : batch_port W I O) (wrap : BatchOutput O -> output) (wrap_item : BatchItem O -> output) : handler := fun r =>
  match decodeBatch parse conv op r with
  | inl resp => mret resp
  | inr (items, opts) => writeBatch r wrap wrap_item (run items opts)
  end.
Definition handleSignBatch : handler := fun r =>
  many (ps_sign_batch ps) Dto.sign_ToCore "SignBatch" (op_sign_batch (svc s (locale r))) OSignBatch OSignItem r.
Definition handleVerifyBatch : handler := fun r =>
  many (ps_verify_batch ps) Dto.verify_ToCore "VerifyBatch" (op_verify_batch (svc s (locale r))) OVerifyBatch OVerifyItem r.
Definition handleExtractBatch : handler := fun r =>
  many (ps_extract_batch ps) Dto.extract_ToCore "ExtractBatch" (op_extract_batch (svc s (locale r))) OExtractBatch OExtractItem r.
Definition handleCertInfoBatch : handler := fun r =>
  many (ps_info_batch ps) info_conv "CertInfoBatch" (op_info_batch (svc s (locale r))) OInfoBatch OInfoItem r.
Definition handleValidateBatch : handler := fun r =>
  many (ps_validate_batch ps) validate_conv "ValidateBatch" (op_validate_batch (svc s (locale r))) OValidateBatch OValidateItem r.
Definition handleVerifyRegistry : handler := fun r =>
  match decodeBatch (ps_registry ps) Dto.RegistryItemToCore "VerifyRegistry" r with
  | inl resp => mret resp
  | inr (items, opts) =>
      (let* out := svc_registry s (locale r) items opts in mret (writeJSON StatusOK (PRegistry out)))%m
  end.

(** A call through a service that may be switched off. *)
Definition on {A B} (o : option A) (f : A -> M W B) : M W B :=
  match o with Some a => f a | None => mlift Panic end.
(** An answer of a service with its own errors. *)
Definition reply {A} (fail : goerr -> response) (done : A -> response) (x : res goerr A) : response :=
  match x with Ok a => done a | Err e => fail e end.

(** *** jobs.go *)
Definition handleJobSubmit : handler := fun r =>
  match decode (ps_job ps) r with
  | inl resp => mret resp
  | inr req =>
      let h := h_header r "Idempotency-Key" in
      let key := if empty_str h then js_key req else h in
      on (sv_jobs s) (fun j =>
        (let* v := ja_submit j (js_op req) (js_request req) (js_callback req) key in
         mret (reply (writeJobError r) (fun v =>
           mkResponse StatusAccepted (<["Location"%string := ("/jobs/" ++ Jobs.Jobs.w_id v)%string]> (typed "application/json"))
             (PJob v)) v))%m)
  end.
Definition handleJobGet : handler := fun r =>
  on (sv_jobs s) (fun j =>
    (let* v := ja_get j (h_value r "id") in
     mret (reply (writeJobError r) (fun v => writeJSON StatusOK (PJob v)) v))%m).
(** The current view under a status, or that there is no such job. *)
Definition job_view (j : jobs_api W) (r : request) (status : Z) : M W response :=
  (let* v := ja_get j (h_value r "id") in
   mret match v with
        | Ok v => writeJSON status (PJob v)
        | Err _ => writeJobError r Jobs.Jobs.ErrNotFound
        end)%m.
Definition handleJobResult : handler := fun r =>
  on (sv_jobs s) (fun j =>
    (let* x := ja_result j (h_value r "id") in
     match x with
     | Err e => if errors_is e Jobs.Jobs.ErrNotReady then job_view j r StatusConflict else mret (writeJobError r e)
     | Ok (raw, status) =>
         if bool_decide (status = Jobs.Jobs.StatusSucceeded) then
           mret (mkResponse StatusOK (typed "application/json") (PBytes raw))
         else job_view j r StatusUnprocessableEntity
     end)%m).
Definition handleJobCancel : handler := fun r =>
  on (sv_jobs s) (fun j =>
    (let* e := ja_cancel j (h_value r "id") in
     match e with
     | Some e => mret (writeJobError r e)
     | None =>
         let* v := ja_get j (h_value r "id") in
         mret (reply (writeJobError r) (fun v => writeJSON StatusOK (PJob v)) v)
     end)%m).

(** *** oidc.go *)
Definition handleOIDCDiscovery : handler := fun _ =>
  on (sv_oidc s) (fun p => (let* d := oa_discovery p in mret (writeJSON StatusOK (PDiscovery d)))%m).
Definition handleOIDCJWKS : handler := fun _ =>
  on (sv_oidc s) (fun p => (let* k := oa_keys p in mret (writeJSON StatusOK (PKeys k)))%m).
Definition handleJWKS : handler := fun _ =>
  on (sv_jwks s) (fun keys => (let* k := keys in mret (writeJSON StatusOK (PKeys k)))%m).
Definition handleOIDCChallenge : handler := fun r =>
  match decode (ps_oidc_challenge ps) r with
  | inl resp => mret resp
  | inr (nonce, state) =>
      on (sv_oidc s) (fun p =>
        (let* c := oa_challenge p nonce state in
         mret (reply writeOIDCError (fun c => writeJSON StatusOK (PChallenge c)) c))%m)
  end.
Definition handleOIDCVerify : handler := fun r =>
  match decode (ps_oidc_verify ps) r with
  | inl resp => mret resp
  | inr (id, signature, client) =>
      on (sv_oidc s) (fun p =>
        (let* t := oa_verify p id signature client in
         mret (reply writeOIDCError (fun t => writeJSON StatusOK (PTokens t)) t))%m)
  end.
(** The token behind [Bearer], which may be left out. *)
Definition bearer_of (r : request) : string :=
  let b := trim_space (h_header r "Authorization") in
  if has_prefix "Bearer " b then substring 7 (String.length b - 7) b else b.
Definition handleOIDCUserInfo : handler := fun r =>
  if empty_str (bearer_of r) then mret (writeOIDCError Oidc.Oidc.ErrTokenInvalid)
  else on (sv_oidc s) (fun p =>
    (let* c := oa_userinfo p (bearer_of r) in
     mret (reply writeOIDCError (fun c => writeJSON StatusOK (PClaims c)) c))%m).

(** *** oidcauth.go *)
(** [authorizeRequestFrom], from the query or the form. *)
Definition authorizeRequestFrom (get : string -> string) : Oidc.Oidc.AuthorizeRequest :=
  Oidc.Oidc.mkAuthorize (get "client_id"%string) (get "redirect_uri"%string) (get "response_type"%string) (get "state"%string)
    (get "nonce"%string) (get "code_challenge"%string) (get "code_challenge_method"%string).
Definition handleOIDCAuthorize : handler := fun r =>
  on (sv_oidc s) (fun p =>
    let req := authorizeRequestFrom (h_query r) in
    (let* client := oa_validate p req in
     match client with
     | Err e => mret (writeAuthorizeError e)
     | Ok client =>
         let* c := oa_challenge p (Oidc.Oidc.aq_nonce req) (Oidc.Oidc.aq_state req) in
         mret match c with
              | Err e => writeError r (Domain KindInternal "Authorize" None) (err_text e)
              | Ok c => mkResponse StatusOK (no_store html)
                          (PPage (LoginPage (mkLoginPage (Oidc.Oidc.cn_id client) req (h_query r "scope") (cr_id c) (cr_data c) (cr_expires c)
                             (match sv_qr s with Some _ => true | None => false end))))
              end
     end)%m).
(** [http.Redirect]. *)
Definition redirect (r : request) (url : string) : response :=
  mkResponse StatusSeeOther {["Location"%string := location r url]} PNone.
Definition handleOIDCAuthorizeSubmit : handler := fun r =>
  match ParseForm r with
  | Err e => mret (writeAuthorizeError e)
  | Ok form =>
      on (sv_oidc s) (fun p =>
        (let* u := oa_complete p (authorizeRequestFrom form) (form "challengeId"%string) (form "signature"%string) in
         mret (reply writeAuthorizeError (redirect r) u))%m)
  end.
Definition handleOIDCToken : handler := fun r =>
  match ParseForm r with
  | Err e => mret (writeOAuthError StatusBadRequest "invalid_request" (err_text e))
  | Ok form =>
      let '(id, secret) := default (form "client_id"%string, form "client_secret"%string) (BasicAuth r) in
      on (sv_oidc s) (fun p =>
        (let* t := oa_exchange p (Oidc.Oidc.mkTokenRequest (form "grant_type"%string) (form "code"%string)
                     (form "redirect_uri"%string) id secret (form "code_verifier"%string)) in
         mret (reply (fun e => let (status, code) := oauthErrorFor e in writeOAuthError status code (err_text e))
                 (fun t => mkResponse StatusOK (no_store (typed "application/json")) (PTokens t)) t))%m)
  end.

(** *** qr.go *)
Definition handleQRCreate : handler := fun r =>
  match decode (ps_qr ps) r with
  | inl resp => mret resp
  | inr req =>
      on (sv_qr s) (fun q =>
        (let* c := qa_create q req (publicBaseURL r (sv_qr_base s)) in
         mret (reply (writeQRError r) (fun c => writeJSON StatusCreated (PQrCreated c)) c))%m)
  end.
Definition handleQRGet : handler := fun r =>
  on (sv_qr s) (fun q =>
    (let* v := qa_get q (h_value r "id") in
     mret (reply (writeQRError r) (fun v => writeJSON StatusOK (PQrView v)) v))%m).
Definition handleQRAppData : handler := fun r =>
  on (sv_qr s) (fun q =>
    (let* b := qa_app_data q (h_value r "id") in
     mret (reply (writeQRError r) (fun b => writeJSON StatusOK (PQrBody b)) b))%m).
Definition handleQRAppSubmit : handler := fun r =>
  if maxBodyBytes <? Z.of_nat (String.length (h_body r)) then
    mret (writeError r (invalid "qr") "read body: http: request body too large")
  else on (sv_qr s) (fun q =>
    (let* e := qa_submit q (h_value r "id") (h_body r) in
     mret match e with
          | Some e => writeQRError r e
          | None => writeJSON StatusOK (PStatus "received")
          end)%m).

(** *** multisign.go *)
Definition multisign_fail (r : request) (e : goerr) : response := writeError r (multisignError e) (err_text e).
Definition handleMultisignCreate : handler := fun r =>
  match decode (ps_multisign ps) r with
  | inl resp => mret resp
  | inr req =>
      on (sv_multisign s) (fun m =>
        (let* x := ma_create m req in
         mret (reply (multisign_fail r) (fun x => writeJSON StatusCreated (PSession x)) x))%m)
  end.
Definition handleMultisignGet : handler := fun r =>
  on (sv_multisign s) (fun m =>
    (let* x := ma_get m (h_value r "id") in
     mret (reply (multisign_fail r) (fun x => writeJSON StatusOK (PSession x)) x))%m).
Definition handleMultisignSubmit : handler := fun r =>
  match decode (ps_container ps) r with
  | inl resp => mret resp
  | inr container =>
      if empty_str container then mret (writeError r (invalid "MultisignSubmit") "container is required")
      else on (sv_multisign s) (fun m =>
        (let* x := ma_submit m (h_value r "id") container in
         mret (reply (multisign_fail r) (fun x => writeJSON StatusOK (PSession x)) x))%m)
  end.
Definition handleMultisignCancel : handler := fun r =>
  on (sv_multisign s) (fun m =>
    (let* e := ma_cancel m (h_value r "id") in
     mret match e with
          | Some e => multisign_fail r e
          | None => mkResponse StatusNoContent ∅ PNone
          end)%m).

(** *** challenge.go *)
Definition handleChallengeIssue : handler := fun r =>
  match decode (ps_issue ps) r with
  | inl resp => mret resp
  | inr req =>
      on (sv_challenge s) (fun c =>
        (let* x := ca_issue c req in
         mret (reply (fun e => writeError r (Domain KindInternal "Challenge" None) (err_text e))
                 (fun x => writeJSON StatusOK (PIssued x)) x))%m)
  end.
Definition handleChallengeConfirm : handler := fun r =>
  match decode (ps_confirm ps) r with
  | inl resp => mret resp
  | inr req =>
      if empty_str (Challenge.Challenge.cq_id req) || empty_str (Challenge.Challenge.cq_signature req) then
        mret (writeError r (invalid "ChallengeConfirm") "challengeId and signature are required")
      else on (sv_challenge s) (fun c =>
        (let* (out, err) := ca_confirm c req in
         mret match err with
              | Some e => writeError r (challengeError e) (err_text e)
              | None => writeJSON StatusOK (PConfirmed out)
              end)%m)
  end.

(** *** signedqr.go *)
Definition handleSignedQRIssue : handler := fun r =>
  match decode (ps_document ps) r with
  | inl resp => mret resp
  | inr req =>
      on (sv_signed_qr s) (fun d =>
        (let* x := da_issue d req in
         mret (reply (fun e => writeError r (invalid "SignedQRIssue") (err_text e))
                 (fun x => writeJSON StatusOK (PDocument x)) x))%m)
  end.
Definition handleSignedQRVerify : handler := fun r =>
  match decode (ps_payload ps) r with
  | inl resp => mret resp
  | inr payload =>
      on (sv_signed_qr s) (fun d => (let* x := da_verify d payload in mret (writeJSON StatusOK (PDocumentCheck x)))%m)
  end.

(** *** audit.go *)
Section Audit.
  Variable sha256_hex : string -> string.
Definition handleAuditVerify : handler := fun r =>
  (let* f := open_journal (sv_audit_path s) in
   mret match f with
        | Err e => writeError r (Domain KindUnavailable "AuditVerify" None) (err_text e)
        | Ok (lines, ended, _) =>
            let res := Journal.Journal.Verify sha256_hex (sv_audit_verifier s) lines ended in
            writeJSON (if Journal.Journal.vj_intact res then StatusOK else StatusConflict) (PAudit res)
        end)%m.
(** [handleAuditExport], of a request that is neither conditional nor for a range. *)
Definition handleAuditExport : handler := fun r =>
  (let* f := open_journal (sv_audit_path s) in
   mret match f with
        | Err e => writeError r (Domain KindUnavailable "AuditExport" None) (err_text e)
        | Ok (_, _, raw) => mkResponse StatusOK (typed "application/x-ndjson") (PBytes raw)
        end)%m.
End Audit.

(** *** portal.go, console.go, sandbox.go *)
Definition handlePortal : handler := fun _ => mret (mkResponse StatusOK html (PPage (PortalPage None))).
Definition renderPortalError (msg : string) : response := mkResponse StatusBadRequest html (PPage (PortalPage (Some msg))).
(** [formatOf]. *)
Fixpoint formatOf (b : string) : SignatureFormat :=
  match b with
  | EmptyString => FormatCMS
  | String c t =>
      if existsb (fun n => Ascii.eqb c (ascii_of_nat n)) [32; 9; 13; 10]%nat then formatOf t
      else if Ascii.eqb c "<" then FormatXML else FormatCMS
  end.
(** [formFile]: what is read of a file stops at the limit. *)
Definition formFile (form : string -> option string) (field : string) : option string :=
  limit_reader portalMaxUpload <$> form field.
Definition portal_input (signature document : string) : VerifyInput :=
  mkVerifyInput (formatOf signature) signature document no_ref (negb (empty_str document))
    (has_prefix "-----BEGIN" signature) false (empty_str document) true false true false [] None (MethodOther EmptyString)
    EmptyString false.
Definition handlePortalVerify : handler := fun r =>
  match ParseMultipartForm r with
  | Err e => mret (renderPortalError ("Не удалось прочитать загруженные файлы: " ++ err_text e))
  | Ok form =>
      let signature := default EmptyString (formFile form "signature") in
      if empty_str signature then mret (renderPortalError "Выберите файл подписи (.p7s, .cms, .xml).")
      else
        let document := default EmptyString (formFile form "document") in
        (let* (out, err) := op_verify (svc s (locale r)) (portal_input signature document) in
         mret match err with
              | Some e => renderPortalError ("Проверка не выполнена: " ++ x_message (ExplainDomainIn (locale r) e))
              | None => default (renderPortalError "Проверка не вернула результат.") (writeReportHTML out)
              end)%m
  end.
Definition handleConsole : handler := fun _ =>
  mret (mkResponse StatusOK html (PPage (ConsolePage (negb (empty_str (sv_sandbox_key s))) (sv_portal s)))).
Definition handleSandboxSign : handler := fun r =>
  match decode (ps_sandbox ps) r with
  | inl resp => mret resp
  | inr (data, format) =>
      if empty_str data then mret (writeError r (invalid "SandboxSign") "data is required")
      else
        let f := if empty_str format then FormatCMS else Dto.format_of format in
        (let* out := op_sign (svc s (locale r)) (mkSignInput EmptyString f data no_ref
                       (mkKeySpec None (Some (mkPathKey (sv_sandbox_key s) (sv_sandbox_pass s) EmptyString)) None EmptyString) false None EmptyString true false true []
                       EmptyString EmptyString EmptyString None) in
         mret (answer r (fun o => POut (OSign o)) out))%m
  end.
End Handlers.

(** ** Building a server *)
Section Build.
  Context {W F DD KS : Type}.
Notation Option := (Server W F DD KS -> Server W F DD KS).
Definition WithJobs (m : jobs_api W) : Option := fun s =>
  mkServer W F DD KS (svc s) (svc_registry s) (Some m) (sv_oidc s) (sv_qr s) (sv_challenge s) (sv_multisign s) (sv_audit_path s)
    (sv_audit_verifier s) (sv_console s) (sv_sandbox_key s) (sv_sandbox_pass s) (sv_signed_qr s) (sv_portal s) (sv_qr_base s) (sv_jwks s).
Definition WithOIDC (p : oidc_api W F DD KS) : Option := fun s =>
  mkServer W F DD KS (svc s) (svc_registry s) (sv_jobs s) (Some p) (sv_qr s) (sv_challenge s) (sv_multisign s) (sv_audit_path s)
    (sv_audit_verifier s) (sv_console s) (sv_sandbox_key s) (sv_sandbox_pass s) (sv_signed_qr s) (sv_portal s) (sv_qr_base s) (Some (oa_keys p)).
Definition WithServiceKey (keys : M W KS) : Option := fun s =>
  mkServer W F DD KS (svc s) (svc_registry s) (sv_jobs s) (sv_oidc s) (sv_qr s) (sv_challenge s) (sv_multisign s) (sv_audit_path s)
    (sv_audit_verifier s) (sv_console s) (sv_sandbox_key s) (sv_sandbox_pass s) (sv_signed_qr s) (sv_portal s) (sv_qr_base s) (match sv_jwks s with None => Some keys | Some k => Some k end).
Definition WithMultisign (m : multisign_api W) : Option := fun s =>
  mkServer W F DD KS (svc s) (svc_registry s) (sv_jobs s) (sv_oidc s) (sv_qr s) (sv_challenge s) (Some m) (sv_audit_path s)
    (sv_audit_verifier s) (sv_console s) (sv_sandbox_key s) (sv_sandbox_pass s) (sv_signed_qr s) (sv_portal s) (sv_qr_base s) (sv_jwks s).
Definition WithAudit (path : string) (verifier : option (Journal.Journal.Entry -> option goerr)) : Option := fun s =>
  mkServer W F DD KS (svc s) (svc_registry s) (sv_jobs s) (sv_oidc s) (sv_qr s) (sv_challenge s) (sv_multisign s) path
    verifier (sv_console s) (sv_sandbox_key s) (sv_sandbox_pass s) (sv_signed_qr s) (sv_portal s) (sv_qr_base s) (sv_jwks s).
Definition WithConsole : Option := fun s =>
  mkServer W F DD KS (svc s) (svc_registry s) (sv_jobs s) (sv_oidc s) (sv_qr s) (sv_challenge s) (sv_multisign s) (sv_audit_path s)
    (sv_audit_verifier s) true (sv_sandbox_key s) (sv_sandbox_pass s) (sv_signed_qr s) (sv_portal s) (sv_qr_base s) (sv_jwks s).
Definition WithSandboxKey (path password : string) : Option := fun s =>
  mkServer W F DD KS (svc s) (svc_registry s) (sv_jobs s) (sv_oidc s) (sv_qr s) (sv_challenge s) (sv_multisign s) (sv_audit_path s)
    (sv_audit_verifier s) (sv_console s) path password (sv_signed_qr s) (sv_portal s) (sv_qr_base s) (sv_jwks s).
Definition WithSignedQR (d : document_api W F) : Option := fun s =>
  mkServer W F DD KS (svc s) (svc_registry s) (sv_jobs s) (sv_oidc s) (sv_qr s) (sv_challenge s) (sv_multisign s) (sv_audit_path s)
    (sv_audit_verifier s) (sv_console s) (sv_sandbox_key s) (sv_sandbox_pass s) (Some d) (sv_portal s) (sv_qr_base s) (sv_jwks s).
Definition WithPortal : Option := fun s =>
  mkServer W F DD KS (svc s) (svc_registry s) (sv_jobs s) (sv_oidc s) (sv_qr s) (sv_challenge s) (sv_multisign s) (sv_audit_path s)
    (sv_audit_verifier s) (sv_console s) (sv_sandbox_key s) (sv_sandbox_pass s) (sv_signed_qr s) true (sv_qr_base s) (sv_jwks s).
Definition WithChallenge (c : challenge_api W) : Option := fun s =>
  mkServer W F DD KS (svc s) (svc_registry s) (sv_jobs s) (sv_oidc s) (sv_qr s) (Some c) (sv_multisign s) (sv_audit_path s)
    (sv_audit_verifier s) (sv_console s) (sv_sandbox_key s) (sv_sandbox_pass s) (sv_signed_qr s) (sv_portal s) (sv_qr_base s) (sv_jwks s).
Definition WithQR (o : qr_api W) (publicBase : string) : Option := fun s =>
  mkServer W F DD KS (svc s) (svc_registry s) (sv_jobs s) (sv_oidc s) (Some o) (sv_challenge s) (sv_multisign s) (sv_audit_path s)
    (sv_audit_verifier s) (sv_console s) (sv_sandbox_key s) (sv_sandbox_pass s) (sv_signed_qr s) (sv_portal s) publicBase (sv_jwks s).
Definition bare (core : Locale -> core_ops W) (registry : Locale -> list RegistryItem -> BatchOptions -> M W RegistryOutput)
    : Server W F DD KS :=
  mkServer W F DD KS core registry None None None None None EmptyString None false EmptyString EmptyString None false EmptyString None.
(** [New]. *)
Definition New core registry (opts : list Option) : Server W F DD KS := fold_left (fun s o => o s) opts (bare core registry).
End Build.

(** ** Routing
    A pattern is a method and path segments, a segment a word or a named
    value. *)
Inductive segment := Lit (w : string) | Val (name : string).
Definition pattern : Type := string * list segment.
Definition values : Type := list (string * string).
Fixpoint match_segments (pat : list segment) (path : list string) : option values :=
  match pat, path with
  | [], [] => Some []
  | Lit w :: pat, x :: path => if str_eqb w x then match_segments pat path else None
  | Val n :: pat, x :: path => if empty_str x then None else cons (n, x) <$> match_segments pat path
  | _, _ => None
  end.
(** The segments of a path, behind its leading slash. *)
Definition path_segments (p : string) : list string := match split "/" p with EmptyString :: l => l | l => l end.
(** A GET pattern also takes HEAD. *)
Definition method_matches (m req : string) : bool := str_eqb m req || (str_eqb m "GET" && str_eqb req "HEAD").
Definition value_of (vs : values) (n : string) : string :=
  match find (fun p => str_eqb (fst p) n) vs with Some p => snd p | None => EmptyString end.

Section Routes.
  Context {W F DD KS C : Type} `{IdemPort.IdemPort W C} `{Stores.Codec HttpIdem.Rest.cachedResponse}.
  Variable s : Server W F DD KS.
  Variable ps : parsers F.
  Variable ParseForm : request -> res goerr (string -> string).
  Variable BasicAuth : request -> option (string * string).
  Variable ParseMultipartForm : request -> res goerr (string -> option string).
  Variable location : request -> string -> string.
  Variable open_journal : string -> M W (res goerr (list Journal.Journal.line * option goerr * string)).
  Variable sha256_hex : string -> string.
  (** Whether a cache is configured; the encoding of a response; the text of a
      panic. *)
  Variable idem_enabled : bool.
  Variable render : response (F := F) (DD := DD) (KS := KS) -> HttpIdem.Rest.http_out.
  Variable panic_text : string.

Record route := mkRoute { rt_pattern : pattern; rt_idempotent : bool; rt_handler : request -> M W (response (F := F) (DD := DD) (KS := KS)) }.
Definition present {A} (o : option A) : bool := match o with Some _ => true | None => false end.
Definition when {A} (b : bool) (l : list A) : list A := if b then l else [].
Definition core_routes : list route :=
  [mkRoute ("POST", [Lit "sign"]) true (handleSign s ps);
   mkRoute ("POST", [Lit "sign"; Lit "add"]) true (handleSign s ps);
   mkRoute ("POST", [Lit "verify"]) true (handleVerify s ps);
   mkRoute ("POST", [Lit "verify"; Lit "at"]) true (handleVerifyAt s ps);
   mkRoute ("POST", [Lit "extract"]) true (handleExtract s ps);
   mkRoute ("POST", [Lit "cert"; Lit "info"]) true (handleCertInfo s ps);
   mkRoute ("POST", [Lit "cert"; Lit "validate"]) true (handleValidate s ps);
   mkRoute ("POST", [Lit "sign"; Lit "batch"]) true (handleSignBatch s ps);
   mkRoute ("POST", [Lit "verify"; Lit "batch"]) true (handleVerifyBatch s ps);
   mkRoute ("POST", [Lit "verify"; Lit "registry"]) true (handleVerifyRegistry s ps);
   mkRoute ("POST", [Lit "sign"; Lit "archive"]) true (handleArchive s ps);
   mkRoute ("POST", [Lit "extract"; Lit "batch"]) true (handleExtractBatch s ps);
   mkRoute ("POST", [Lit "cert"; Lit "info"; Lit "batch"]) true (handleCertInfoBatch s ps);
   mkRoute ("POST", [Lit "cert"; Lit "validate"; Lit "batch"]) true (handleValidateBatch s ps)].
Definition job_routes : list route :=
  when (present (sv_jobs s))
  [mkRoute ("POST", [Lit "jobs"]) false (handleJobSubmit s ps);
   mkRoute ("GET", [Lit "jobs"; Val "id"]) false (handleJobGet s);
   mkRoute ("GET", [Lit "jobs"; Val "id"; Lit "result"]) false (handleJobResult s);
   mkRoute ("DELETE", [Lit "jobs"; Val "id"]) false (handleJobCancel s)].
Definition jwks_routes : list route :=
  when (present (sv_jwks s))
  [mkRoute ("GET", [Lit "jwks.json"]) false (handleJWKS s)].
Definition oidc_routes : list route :=
  when (present (sv_oidc s))
  [mkRoute ("GET", [Lit ".well-known"; Lit "openid-configuration"]) false (handleOIDCDiscovery s);
   mkRoute ("GET", [Lit "oidc"; Lit "jwks.json"]) false (handleOIDCJWKS s);
   mkRoute ("POST", [Lit "oidc"; Lit "challenge"]) false (handleOIDCChallenge s ps);
   mkRoute ("POST", [Lit "oidc"; Lit "verify"]) false (handleOIDCVerify s ps);
   mkRoute ("GET", [Lit "oidc"; Lit "authorize"]) false (handleOIDCAuthorize s);
   mkRoute ("POST", [Lit "oidc"; Lit "authorize"]) false (handleOIDCAuthorizeSubmit s ParseForm location);
   mkRoute ("POST", [Lit "oidc"; Lit "token"]) false (handleOIDCToken s ParseForm BasicAuth);
   mkRoute ("GET", [Lit "oidc"; Lit "userinfo"]) false (handleOIDCUserInfo s)].
Definition document_routes : list route :=
  when (present (sv_signed_qr s))
  [mkRoute ("POST", [Lit "qr"; Lit "documents"]) false (handleSignedQRIssue s ps);
   mkRoute ("POST", [Lit "qr"; Lit "documents"; Lit "verify"]) false (handleSignedQRVerify s ps)].
Definition console_routes : list route :=
  when (sv_console s)
  [mkRoute ("GET", [Lit "console"]) false (handleConsole s)].
Definition sandbox_routes : list route :=
  when (negb (empty_str (sv_sandbox_key s)))
  [mkRoute ("POST", [Lit "sandbox"; Lit "sign"]) false (handleSandboxSign s ps)].
Definition audit_routes : list route :=
  when (negb (empty_str (sv_audit_path s)))
  [mkRoute ("GET", [Lit "audit"; Lit "verify"]) false (handleAuditVerify s open_journal sha256_hex);
   mkRoute ("GET", [Lit "audit"; Lit "export"]) false (handleAuditExport s open_journal)].
Definition multisign_routes : list route :=
  when (present (sv_multisign s))
  [mkRoute ("POST", [Lit "multisign"; Lit "sessions"]) false (handleMultisignCreate s ps);
   mkRoute ("GET", [Lit "multisign"; Lit "sessions"; Val "id"]) false (handleMultisignGet s);
   mkRoute ("POST", [Lit "multisign"; Lit "sessions"; Val "id"; Lit "signatures"]) false (handleMultisignSubmit s ps);
   mkRoute ("DELETE", [Lit "multisign"; Lit "sessions"; Val "id"]) false (handleMultisignCancel s)].
Definition portal_routes : list route :=
  when (sv_portal s)
  [mkRoute ("GET", [Lit "verify"; Lit "portal"]) false (handlePortal);
   mkRoute ("POST", [Lit "verify"; Lit "portal"]) false (handlePortalVerify s ParseMultipartForm)].
Definition challenge_routes : list route :=
  when (present (sv_challenge s))
  [mkRoute ("POST", [Lit "challenge"]) false (handleChallengeIssue s ps);
   mkRoute ("POST", [Lit "challenge"; Lit "confirm"]) false (handleChallengeConfirm s ps)].
Definition qr_routes : list route :=
  when (present (sv_qr s))
  [mkRoute ("POST", [Lit "qr"; Lit "sessions"]) false (handleQRCreate s ps);
   mkRoute ("GET", [Lit "qr"; Lit "sessions"; Val "id"]) false (handleQRGet s);
   mkRoute ("GET", [Lit "qr"; Lit "a"; Val "id"]) false (handleQRAppData s);
   mkRoute ("POST", [Lit "qr"; Lit "a"; Val "id"]) false (handleQRAppSubmit s)].
(** [Routes]: what is registered, in order. *)
Definition routes : list route :=
  core_routes ++ job_routes ++ jwks_routes ++ oidc_routes ++ document_routes ++ console_routes ++ sandbox_routes ++ audit_routes ++ multisign_routes ++ portal_routes ++ challenge_routes ++ qr_routes.

(** What matches a request, with its values. *)
Definition hit (r : request) (rt : route) : option (route * values) :=
  if method_matches (fst (rt_pattern rt)) (h_method r) then
    match match_segments (snd (rt_pattern rt)) (path_segments (h_path r)) with Some vs => Some (rt, vs) | None => None end
  else None.
Definition with_values (r : request) (vs : values) : request :=
  mkRequest (h_method r) (h_path r) (value_of vs) (h_query r) (h_header r) (h_host r) (h_tls r) (h_body r).
Definition plain_text (status : Z) (text : string) : response (F := F) (DD := DD) (KS := KS) :=
  mkResponse status (<["X-Content-Type-Options"%string := "nosniff"%string]> (typed "text/plain; charset=utf-8")) (PBytes text).
Definition path_known (r : request) : bool :=
  existsb (fun rt => present (match_segments (snd (rt_pattern rt)) (path_segments (h_path r)))) routes.
(** The server on a clean path: the mux, the idempotency layer, the handler. *)
Definition serve (r : request) : M (W * C) (option HttpIdem.Rest.http_out) :=
  match omap (hit r) routes with
  | (rt, vs) :: _ =>
      let run := (let* resp := rt_handler rt (with_values r vs) in mret (Some (render resp)))%m in
      if rt_idempotent rt then
        HttpIdem.Rest.idempotent idem_enabled panic_text
          (HttpIdem.Rest.mkRequest (h_method r) (h_path r) (h_header r "Idempotency-Key"%string)) run
      else in_world run
  | [] =>
      mret (Some (render (if path_known r then plain_text StatusMethodNotAllowed "Method Not Allowed"
                          else plain_text StatusNotFound "404 page not found")))
  end.
End Routes.

(** ** observability.go *)
(** [Observability]: liveness, readiness, the status payload. *)
Definition healthz {F DD KS} : response (F := F) (DD := DD) (KS := KS) := mkResponse StatusOK ∅ (PBytes ("ok" ++ String "010" EmptyString)).
Definition readyz {F DD KS} (ready : option bool) : response (F := F) (DD := DD) (KS := KS) :=
  if default false ready then writeJSON StatusOK (PStatus "ready") else writeJSON StatusServiceUnavailable (PStatus "not ready").
End Server.
