(* ===== verification/RestSpec.v ===== *)
(** * What the HTTP transport promises (internal/transport/rest/)

    A request has at most one handler; a server whose services answer always
    answers itself, since a handler is registered only with the service it uses,
    and an error body always has an error status; the operations answer as the
    router of the message queues does; and the browser is redirected only to an
    address that is registered for the client of a login. *)
From S2P Require Import Prelude Errors Provider CoreTypes CertParse Explain Service Verify Sign Historical Batch Multisign Jobs Journal Challenge Oidc Qr Jws SignedQr Dispatch Stores Idempotency IdemPort HttpIdem RestServer.
Import Dispatch.Dispatch Server.

Module Serving.

(** ** Routing is unambiguous *)
Definition seg_overlap (a b : segment) : bool :=
  match a, b with Lit x, Lit y => str_eqb x y | Lit x, Val _ | Val _, Lit x => negb (empty_str x) | Val _, Val _ => true end.
Fixpoint segs_overlap (a b : list segment) : bool :=
  match a, b with
  | [], [] => true
  | x :: a, y :: b => seg_overlap x y && segs_overlap a b
  | _, _ => false
  end.
Definition methods_overlap (a b : string) : bool := str_eqb a b || (str_eqb a "HEAD" && str_eqb b "GET") || (str_eqb a "GET" && str_eqb b "HEAD").
Definition overlaps (p q : pattern) : bool := methods_overlap (fst p) (fst q) && segs_overlap (snd p) (snd q).

Lemma match_overlap a b path va vb :
  match_segments a path = Some va -> match_segments b path = Some vb -> segs_overlap a b = true.
Proof.
  revert b path va vb. induction a as [|x a IH]; intros [|y b] [|w path] va vb Ha Hb; try done.
  - by destruct y.
  - by destruct x.
  - by destruct x.
  - cbn [segs_overlap]. cbn [match_segments] in Ha, Hb. apply andb_true_iff. destruct x as [x|n], y as [y|k]; simpl.
    + destruct (str_eqb x w) eqn:Ex; [|done]. destruct (str_eqb y w) eqn:Ey; [|done].
      apply str_eqb_eq in Ex, Ey. subst. split; [by apply str_eqb_eq|by eapply IH].
    + destruct (str_eqb x w) eqn:Ex; [|done]. destruct (empty_str w) eqn:Ew; [done|]. apply str_eqb_eq in Ex as ->.
      rewrite Ew. destruct (match_segments b path) eqn:Eb; [|done]. split; [done|by eapply IH].
    + destruct (str_eqb y w) eqn:Ey; [|done]. destruct (empty_str w) eqn:Ew; [done|]. apply str_eqb_eq in Ey as ->.
      rewrite Ew. destruct (match_segments a path) eqn:Ea; [|done]. split; [done|by eapply IH].
    + destruct (empty_str w); [done|]. destruct (match_segments a path) eqn:Ea; [|done].
      destruct (match_segments b path) eqn:Eb; [|done]. split; [done|by eapply IH].
Qed.
Lemma methods_meet a b m : method_matches a m = true -> method_matches b m = true -> methods_overlap a b = true.
Proof.
  unfold method_matches, methods_overlap. rewrite !orb_true_iff, !andb_true_iff, !str_eqb_eq. naive_solver.
Qed.
Lemma sublist_when {A} b (l : list A) : when b l `sublist_of` l.
Proof. destruct b; [done|apply sublist_nil_l]. Qed.

Fixpoint separate (l : list pattern) : bool :=
  match l with [] => true | p :: t => forallb (fun q => negb (overlaps p q)) t && separate t end.
Lemma separate_sublist l k : l `sublist_of` k -> separate k = true -> separate l = true.
Proof.
  induction 1 as [|p l k Hs IH|p l k Hs IH]; [done|..]; simpl; intros [Ha Hk]%andb_true_iff; [|by apply IH].
  rewrite IH, andb_true_r by done. apply forallb_forall. intros q Hq. rewrite forallb_forall in Ha. apply Ha.
  apply list_elem_of_In. apply list_elem_of_In in Hq. by eapply elem_of_sublist.
Qed.

Section Unambiguous.
  Context {W F DD KS : Type}.
  Variable s : Server W F DD KS.
  Variable ps : parsers F.
  Variable ParseForm : request -> res goerr (string -> string).
  Variable BasicAuth : request -> option (string * string).
  Variable ParseMultipartForm : request -> res goerr (string -> option string).
  Variable location : request -> string -> string.
  Variable open_journal : string -> M W (res goerr (list Journal.Journal.line * option goerr * string)).
  Variable sha256_hex : string -> string.
Notation all := (routes s ps ParseForm BasicAuth ParseMultipartForm location open_journal sha256_hex).

Lemma map_when {A B} (f : A -> B) b l : map f (when b l) = when b (map f l).
Proof. by destruct b. Qed.
Lemma routes_separate : separate (map rt_pattern all) = true.
Proof.
  eapply separate_sublist.
  - unfold routes. rewrite !map_app. unfold job_routes, jwks_routes, oidc_routes, document_routes, console_routes, sandbox_routes,
      audit_routes, multisign_routes, portal_routes, challenge_routes, qr_routes. rewrite !map_when.
    repeat first [apply sublist_app | apply sublist_when | reflexivity].
  - vm_compute. reflexivity.
Qed.
Lemma hit_overlap r (rt rt' : route (W := W) (F := F) (DD := DD) (KS := KS)) x y : hit r rt = Some x -> hit r rt' = Some y ->
  overlaps (rt_pattern rt) (rt_pattern rt') = true.
Proof.
  unfold hit, overlaps. intros Hx Hy.
  destruct (method_matches (fst (rt_pattern rt)) _) eqn:Em; [|done].
  destruct (method_matches (fst (rt_pattern rt')) _) eqn:Em'; [|done].
  destruct (match_segments (snd (rt_pattern rt)) _) eqn:Es; [|done].
  destruct (match_segments (snd (rt_pattern rt')) _) eqn:Es'; [|done].
  apply andb_true_iff. split; [by eapply methods_meet|by eapply match_overlap].
Qed.

(** At most one route takes a request. *)
Lemma one_hit r : (length (omap (hit r) all) <= 1)%nat.
Proof.
  pose proof routes_separate as Hs. revert Hs. generalize all. intros l. induction l as [|rt l IH]; [simpl; lia|].
  cbn [map separate]. intros [Ha Hs]%andb_true_iff. specialize (IH Hs).
  change (omap (hit r) (rt :: l)) with (match hit r rt with Some y => y :: omap (hit r) l | None => omap (hit r) l end).
  destruct (hit r rt) as [x|] eqn:Ex; [|exact IH].
  enough (omap (hit r) l = []) as -> by (simpl; lia).
  apply elem_of_nil_inv. intros y (rt' & Hin & Hy)%list_elem_of_omap.
  rewrite forallb_forall in Ha. specialize (Ha (rt_pattern rt')).
  rewrite (hit_overlap _ _ _ _ _ Ex Hy) in Ha. discriminate Ha. apply in_map. by apply list_elem_of_In.
Qed.
Lemma hits_at r rt x : rt ∈ all -> hit r rt = Some x -> omap (hit r) all = [x].
Proof.
  intros Hin Hx. pose proof (one_hit r) as Hl.
  assert (x ∈ omap (hit r) all) as Hi by (apply list_elem_of_omap; eauto).
  destruct (omap (hit r) all) as [|y [|z l]]; simpl in Hl; [by apply not_elem_of_nil in Hi| |lia].
  by apply list_elem_of_singleton in Hi as ->.
Qed.

(** Every request has at most one handler, whichever services are switched on:
    no registered pattern shadows another, and their order does not matter. *)
Theorem routes_unambiguous r rt rt' vs vs' : rt ∈ all -> rt' ∈ all ->
  hit r rt = Some (rt, vs) -> hit r rt' = Some (rt', vs') -> rt = rt' /\ vs = vs'.
Proof.
  intros Hin Hin' Hx Hy. pose proof (hits_at r rt _ Hin Hx) as E. rewrite (hits_at r rt' _ Hin' Hy) in E. by injection E.
Qed.
End Unambiguous.

(** ** Every request is answered *)
Definition total {W A} (m : M W A) : Prop := forall w, m w <> Panic.
(** A computation that returns in every world, always with such a value. *)
Definition yields {W A} (P : A -> Prop) (m : M W A) : Prop := forall w, exists w' a, m w = Done (w', a) /\ P a.
Lemma yields_ret {W A} (P : A -> Prop) (a : A) : P a -> yields P (mret (W := W) a).
Proof. intros Ha w. by exists w, a. Qed.
Lemma yields_bind {W A B} (P : B -> Prop) (m : M W A) (f : A -> M W B) :
  total m -> (forall a, yields P (f a)) -> yields P (mbind_ m f).
Proof. intros Hm Hf w. unfold mbind_. specialize (Hm w). destruct (m w) as [[w1 a]|]; [apply Hf|done]. Qed.

Section Answers.
  Context {F DD KS : Type}.
(** A body that reports a failure. *)
Definition error_body (b : payload F DD KS) : bool :=
  match b with
  | PError _ | POAuth _ _ | PPage (AuthorizeErrorPage _ _) | PPage (PortalPage (Some _)) => true
  | _ => false
  end.
(** What every response keeps to: a failure has an error status, and no status
    is out of the range of final ones. *)
Definition proper (resp : response (F := F) (DD := DD) (KS := KS)) : Prop :=
  (error_body (s_body resp) = true -> 400 <= s_status resp < 600) /\
  200 <= s_status resp < 600.
Lemma proper_status status h b : 400 <= status < 600 -> proper (mkResponse status h b).
Proof. intros ?. split; simpl; lia. Qed.
Lemma proper_plain status h b : 200 <= status < 600 -> error_body b = false -> proper (mkResponse status h b).
Proof. intros ? Hb. split; simpl; [by rewrite Hb|lia]. Qed.
Lemma statusFor_error k : 400 <= statusFor k < 600.
Proof. destruct k; vm_compute; split; done. Qed.
Lemma writeError_proper r e m : proper (writeError r e m).
Proof. apply proper_status, statusFor_error. Qed.
Lemma plainError_proper status k m a : 400 <= status < 600 -> proper (plainError status k m a).
Proof. apply proper_status. Qed.
#[local] Hint Resolve writeError_proper : rest.
#[local] Hint Extern 2 (proper (plainError _ _ _ _)) => apply plainError_proper; vm_compute; split; congruence : rest.
#[local] Hint Extern 3 (proper (mkResponse _ _ _)) => apply proper_status; vm_compute; split; congruence : rest.
Ltac written := repeat (case_match; [auto with rest|]); auto with rest.
Lemma writeJobError_proper r e : proper (writeJobError r e).
Proof. unfold writeJobError. written. Qed.
Lemma writeQRError_proper r e : proper (writeQRError r e).
Proof. unfold writeQRError. written. Qed.
Lemma writeOIDCError_proper e : proper (writeOIDCError e).
Proof. unfold writeOIDCError, writeJSON. written. Qed.
Lemma oauthErrorFor_status e : 400 <= fst (oauthErrorFor e) < 600.
Proof. unfold oauthErrorFor. repeat (case_match; [vm_compute; split; congruence|]). vm_compute; split; congruence. Qed.
Lemma writeAuthorizeError_proper e : proper (writeAuthorizeError e).
Proof. unfold writeAuthorizeError. pose proof (oauthErrorFor_status e) as Hs. destruct (oauthErrorFor e). by apply proper_status. Qed.
Lemma writeOAuthError_proper e : proper (let (status, code) := oauthErrorFor e in writeOAuthError status code (err_text e)).
Proof. pose proof (oauthErrorFor_status e) as Hs. destruct (oauthErrorFor e). by apply proper_status. Qed.
Lemma decode_proper {A} (parse : first_json A) r resp : decode parse r = inl resp -> proper resp.
Proof. unfold decode. case_match; [done|]. intros [= <-]. apply writeError_proper. Qed.
End Answers.

(** Services whose operations return. *)
Record core_total {W} (c : core_ops W) : Prop := {
  ct_sign : forall i, total (op_sign c i); ct_verify : forall i, total (op_verify c i);
  ct_verify_at : forall i, total (op_verify_at c i); ct_archive : forall i, total (op_archive c i);
  ct_extract : forall i, total (op_extract c i); ct_info : forall i, total (op_info c i);
  ct_validate : forall i, total (op_validate c i);
  ct_sign_batch : forall l o, total (op_sign_batch c l o); ct_verify_batch : forall l o, total (op_verify_batch c l o);
  ct_extract_batch : forall l o, total (op_extract_batch c l o); ct_info_batch : forall l o, total (op_info_batch c l o);
  ct_validate_batch : forall l o, total (op_validate_batch c l o);
}.
Definition jobs_total {W} (j : jobs_api W) : Prop :=
  (forall a b c d, total (ja_submit j a b c d)) /\ (forall i, total (ja_get j i)) /\ (forall i, total (ja_result j i)) /\
  forall i, total (ja_cancel j i).
Definition oidc_total {W F DD KS} (p : oidc_api W F DD KS) : Prop :=
  total (oa_discovery p) /\ total (oa_keys p) /\ (forall a b, total (oa_challenge p a b)) /\
  (forall a b c, total (oa_verify p a b c)) /\ (forall a, total (oa_userinfo p a)) /\ (forall q, total (oa_validate p q)) /\
  (forall q a b, total (oa_complete p q a b)) /\ forall q, total (oa_exchange p q).
Definition qr_total {W} (q : qr_api W) : Prop :=
  (forall a b, total (qa_create q a b)) /\ (forall i, total (qa_get q i)) /\ (forall i, total (qa_app_data q i)) /\
  forall a b, total (qa_submit q a b).
Definition multisign_total {W} (m : multisign_api W) : Prop :=
  (forall q, total (ma_create m q)) /\ (forall i, total (ma_get m i)) /\ (forall a b, total (ma_submit m a b)) /\
  forall i, total (ma_cancel m i).
Definition challenge_total {W} (c : challenge_api W) : Prop :=
  (forall q, total (ca_issue c q)) /\ forall q, total (ca_confirm c q).
Definition document_total {W F} (d : document_api W F) : Prop :=
  (forall q, total (da_issue d q)) /\ forall p, total (da_verify d p).
Record server_total {W F DD KS} (s : Server W F DD KS) : Prop := {
  st_core : forall l, core_total (svc s l);
  st_registry : forall l i o, total (svc_registry s l i o);
  st_jobs : forall j, sv_jobs s = Some j -> jobs_total j;
  st_oidc : forall p, sv_oidc s = Some p -> oidc_total p;
  st_qr : forall q, sv_qr s = Some q -> qr_total q;
  st_challenge : forall c, sv_challenge s = Some c -> challenge_total c;
  st_multisign : forall m, sv_multisign s = Some m -> multisign_total m;
  st_document : forall d, sv_signed_qr s = Some d -> document_total d;
  st_jwks : forall k, sv_jwks s = Some k -> total k;
}.
#[export] Hint Resolve writeError_proper writeJobError_proper writeQRError_proper writeOIDCError_proper
  writeAuthorizeError_proper writeOAuthError_proper decode_proper : rest.
#[export] Hint Resolve ct_sign ct_verify ct_verify_at ct_archive ct_extract ct_info ct_validate ct_sign_batch
  ct_verify_batch ct_extract_batch ct_info_batch ct_validate_batch st_core st_registry : rest.
#[export] Hint Extern 2 (proper (mkResponse _ _ _)) =>
  first [apply proper_plain; [vm_compute; split; congruence|reflexivity] | apply proper_status; vm_compute; split; congruence] : rest.
#[export] Hint Extern 2 (proper (writeJSON _ _)) => unfold writeJSON : rest.
#[export] Hint Extern 2 (proper (redirect _ _ _)) => unfold redirect : rest.
#[export] Hint Extern 2 (proper (writeOAuthError _ _ _)) => unfold writeOAuthError : rest.
#[export] Hint Extern 2 (proper (renderPortalError _)) => unfold renderPortalError : rest.
#[export] Hint Extern 2 (proper (multisign_fail _ _)) => apply writeError_proper : rest.

Section Answered.
  Context {W F DD KS : Type}.
  Variable s : Server W F DD KS.
  Variable ps : parsers F.
  Variable ParseForm : request -> res goerr (string -> string).
  Variable BasicAuth : request -> option (string * string).
  Variable ParseMultipartForm : request -> res goerr (string -> option string).
  Variable location : request -> string -> string.
  Variable open_journal : string -> M W (res goerr (list Journal.Journal.line * option goerr * string)).
  Variable sha256_hex : string -> string.
  Hypothesis services : server_total s.
  Hypothesis journal : forall p, total (open_journal p).
Notation answered := (fun rt : route => forall r, yields proper (rt_handler rt r)).

Lemma yields_on {A B} (P : B -> Prop) (o : option A) a (f : A -> M W B) : o = Some a -> yields P (f a) -> yields P (on o f).
Proof. by intros ->. Qed.
Lemma reply_proper {A} (fail : goerr -> response) (done : A -> response (F := F) (DD := DD) (KS := KS)) x :
  (forall e, proper (fail e)) -> (forall a, proper (done a)) -> proper (reply fail done x).
Proof. destruct x; simpl; auto. Qed.
Lemma report_proper v resp : writeReportHTML v = Some resp -> proper (F := F) (DD := DD) (KS := KS) resp.
Proof. unfold writeReportHTML. case_match; [|done]. intros [= <-]. eauto with rest. Qed.
#[local] Hint Resolve report_proper : rest.
Lemma one_answered {R I O} (parse : first_json R) op conv (call : I -> M W (O * option goerr)) wrap r :
  (forall i, total (call i)) -> yields (proper (F := F) (DD := DD) (KS := KS)) (one parse op conv call wrap r).
Proof.
  intros Hc. unfold one. case_match eqn:Ed; [apply yields_ret; eauto with rest|]. case_match.
  - apply yields_bind; [done|]. intros [o [e|]]; apply yields_ret; unfold answer; simpl; eauto with rest.
  - apply yields_ret, writeError_proper.
Qed.
Lemma decodeBatch_proper {R I} (parse : first_json (Dto.BatchRequest R)) (conv : R -> res goerr I) op r resp :
  decodeBatch parse conv op r = inl resp -> proper (F := F) (DD := DD) (KS := KS) resp.
Proof.
  unfold decodeBatch. destruct (decode parse r) as [e|req] eqn:Ed; [intros [= <-]; eauto with rest|].
  case_match; intros [= <-]. eauto with rest.
Qed.
#[local] Hint Resolve decodeBatch_proper : rest.
Lemma many_answered {R I O} (parse : first_json (Dto.BatchRequest R)) conv op (run : batch_port W I O) wrap wrap_item r :
  (forall l o, total (run l o)) -> yields (proper (F := F) (DD := DD) (KS := KS)) (many parse conv op run wrap wrap_item r).
Proof.
  intros Hc. unfold many, writeBatch. destruct (decodeBatch _ _ _ _) as [resp|[items opts]] eqn:Ed; [apply yields_ret; eauto with rest|].
  apply yields_bind; [done|]. intros [sunk out]. apply yields_ret. case_match; eauto with rest.
Qed.
#[local] Hint Resolve one_answered many_answered : rest.
Ltac answering :=
  repeat first
    [ apply yields_ret; solve [eauto with rest | congruence | apply reply_proper; intros; eauto with rest
                              | repeat (case_match; eauto with rest)]
    | apply yields_bind; [eauto with rest|intros]
    | eapply yields_on; [eassumption|]
    | case_match ].
Ltac service o H :=
  let api := fresh "api" in let E := fresh "E" in let T := fresh "T" in
  unfold present; destruct o as [api|] eqn:E; [|constructor];
  pose proof (H api E) as T; hnf in T; destruct_and? T;
  repeat constructor; intros ?; cbn [rt_handler].
Lemma core_answered : Forall answered (core_routes s ps).
Proof.
  repeat constructor; intros r; cbn [rt_handler]; unfold handleSign, handleVerifyAt, handleExtract, handleCertInfo,
    handleValidate, handleArchive, handleSignBatch, handleVerifyBatch, handleExtractBatch, handleCertInfoBatch,
    handleValidateBatch; eauto 6 with rest.
  - unfold handleVerify. answering.
  - unfold handleVerifyRegistry. answering.
Qed.
Lemma job_answered : Forall answered (job_routes s ps).
Proof.
  unfold job_routes. service (sv_jobs s) (st_jobs _ services); unfold handleJobSubmit, handleJobGet, handleJobResult, job_view, handleJobCancel;
    answering.
Qed.
Lemma oidc_answered : Forall answered (oidc_routes s ps ParseForm BasicAuth location).
Proof.
  unfold oidc_routes. service (sv_oidc s) (st_oidc _ services); unfold handleOIDCDiscovery, handleOIDCJWKS, handleOIDCChallenge, handleOIDCVerify,
    handleOIDCAuthorize, handleOIDCAuthorizeSubmit, handleOIDCToken, handleOIDCUserInfo; answering.
Qed.
Lemma document_answered : Forall answered (document_routes s ps).
Proof. unfold document_routes. service (sv_signed_qr s) (st_document _ services); unfold handleSignedQRIssue, handleSignedQRVerify; answering. Qed.
Lemma multisign_answered : Forall answered (multisign_routes s ps).
Proof.
  unfold multisign_routes. service (sv_multisign s) (st_multisign _ services);
    unfold handleMultisignCreate, handleMultisignGet, handleMultisignSubmit, handleMultisignCancel; answering.
Qed.
Lemma challenge_answered : Forall answered (challenge_routes s ps).
Proof. unfold challenge_routes. service (sv_challenge s) (st_challenge _ services); unfold handleChallengeIssue, handleChallengeConfirm; answering. Qed.
Lemma qr_answered : Forall answered (qr_routes s ps).
Proof.
  unfold qr_routes. service (sv_qr s) (st_qr _ services); unfold handleQRCreate, handleQRGet, handleQRAppData, handleQRAppSubmit; answering.
Qed.
Lemma jwks_answered : Forall answered (jwks_routes s).
Proof. unfold jwks_routes. service (sv_jwks s) (st_jwks _ services); unfold handleJWKS; answering. Qed.
Lemma console_answered : Forall answered (console_routes s).
Proof. unfold console_routes, when. case_match; repeat constructor; intros r; cbn [rt_handler]. unfold handleConsole. answering. Qed.
Lemma sandbox_answered : Forall answered (sandbox_routes s ps).
Proof. unfold sandbox_routes, when. case_match; repeat constructor; intros r; cbn [rt_handler]. unfold handleSandboxSign, answer. answering. Qed.
Lemma audit_answered : Forall answered (audit_routes s open_journal sha256_hex).
Proof.
  unfold audit_routes, when. case_match; repeat constructor; intros r; cbn [rt_handler].
  - unfold handleAuditVerify. apply yields_bind; [done|]. intros [[[lines ended] raw]|e]; apply yields_ret; [|eauto with rest].
    destruct (Journal.Journal.vj_intact _); eauto with rest.
  - unfold handleAuditExport. answering.
Qed.
Lemma renderPortalError_proper msg : proper (F := F) (DD := DD) (KS := KS) (renderPortalError msg).
Proof. by apply proper_status. Qed.
Lemma portal_answered : Forall answered (portal_routes s ParseMultipartForm).
Proof.
  unfold portal_routes, when. case_match; repeat constructor; intros r; cbn [rt_handler].
  - unfold handlePortal. answering.
  - unfold handlePortalVerify. destruct (ParseMultipartForm r) as [form|e]; [|apply yields_ret, renderPortalError_proper].
    destruct (empty_str _); [apply yields_ret, renderPortalError_proper|]. apply yields_bind; [eauto with rest|].
    intros [out [e|]]; apply yields_ret; [apply renderPortalError_proper|].
    destruct (writeReportHTML out) eqn:E; [by eapply report_proper|apply renderPortalError_proper].
Qed.

(** C20: As long as no operation of the configured services panics and opening the
    journal returns, every registered route answers every request: it never goes
    through a service that is switched off, and an answer that reports a failure
    has an error status. (An operation can panic: see validate_garbage_panics; the
    request then has no answer of its handler.) *)
Theorem routes_answer rt r w :
  rt ∈ routes s ps ParseForm BasicAuth ParseMultipartForm location open_journal sha256_hex ->
  exists w' resp, rt_handler rt r w = Done (w', resp) /\ proper resp.
Proof.
  intros Hin. enough (Forall answered (routes s ps ParseForm BasicAuth ParseMultipartForm location open_journal sha256_hex)) as Ha.
  { rewrite Forall_forall in Ha. exact (Ha _ Hin r w). }
  unfold routes. rewrite !Forall_app. auto 20 using core_answered, job_answered, jwks_answered, oidc_answered, document_answered,
    console_answered, sandbox_answered, audit_answered, multisign_answered, portal_answered, challenge_answered, qr_answered.
Qed.
End Answered.
(** ** The operations, over HTTP and over a queue *)
(** The path of an operation of the router. *)
Definition op_path (op : string) : option (list string) :=
  let named := str_eqb op in
  (if named "sign" then Some ["sign"] else if named "verify" then Some ["verify"]
   else if named "verify-at" then Some ["verify"; "at"] else if named "archive" then Some ["sign"; "archive"]
   else if named "extract" then Some ["extract"] else if named "cert-info" then Some ["cert"; "info"]
   else if named "cert-validate" then Some ["cert"; "validate"] else if named "sign-batch" then Some ["sign"; "batch"]
   else if named "verify-batch" then Some ["verify"; "batch"] else if named "extract-batch" then Some ["extract"; "batch"]
   else if named "cert-info-batch" then Some ["cert"; "info"; "batch"]
   else if named "cert-validate-batch" then Some ["cert"; "validate"; "batch"] else None)%string.
(** The two decoders of a request type read a body alike: this transport reads its
    first value, up to the limit and with no unknown field, a queue the whole
    body. *)
Definition reads_as {A} (parse : first_json A) (de : string -> option A) (b : string) : Prop :=
  match parse (limit_reader maxBodyBytes b) (maxBodyBytes <? Z.of_nat (String.length b)) with
  | Ok v => de b = Some v
  | Err _ => de b = None
  end.
(** The decoders of one operation do. *)
Definition reads_same {F} (ps : parsers F) (dec : decoders) (op b : string) : Prop :=
  let named := str_eqb op in
  if named "sign" then reads_as (ps_sign ps) (de_sign dec) b
  else if named "verify" then reads_as (ps_verify ps) (de_verify dec) b
  else if named "verify-at" then reads_as (ps_verify_at ps) (de_verify_at dec) b
  else if named "archive" then reads_as (ps_archive ps) (de_archive dec) b
  else if named "extract" then reads_as (ps_extract ps) (de_extract dec) b
  else if named "cert-info" then reads_as (ps_info ps) (de_info dec) b
  else if named "cert-validate" then reads_as (ps_validate ps) (de_validate dec) b
  else if named "sign-batch" then reads_as (ps_sign_batch ps) (de_sign_batch dec) b
  else if named "verify-batch" then reads_as (ps_verify_batch ps) (de_verify_batch dec) b
  else if named "extract-batch" then reads_as (ps_extract_batch ps) (de_extract_batch dec) b
  else if named "cert-info-batch" then reads_as (ps_info_batch ps) (de_info_batch dec) b
  else if named "cert-validate-batch" then reads_as (ps_validate_batch ps) (de_validate_batch dec) b
  else True.

Section Equivalence.
  Context {W F DD KS C : Type} `{IdemPort.IdemPort W C} `{Stores.Codec HttpIdem.Rest.cachedResponse}.
  Variable s : Server W F DD KS.
  Variable ps : parsers F.
  Variable dec : decoders.
  Variable ParseForm : request -> res goerr (string -> string).
  Variable BasicAuth : request -> option (string * string).
  Variable ParseMultipartForm : request -> res goerr (string -> option string).
  Variable location : request -> string -> string.
  Variable open_journal : string -> M W (res goerr (list Journal.Journal.line * option goerr * string)).
  Variable sha256_hex : string -> string.
  Variable render : response (F := F) (DD := DD) (KS := KS) -> HttpIdem.Rest.http_out.
  Variable panic_text : string.
Notation all := (routes s ps ParseForm BasicAuth ParseMultipartForm location open_journal sha256_hex).
Notation serving := (serve s ps ParseForm BasicAuth ParseMultipartForm location open_journal sha256_hex false render panic_text).

(** A response that says what the router answered. *)
Definition answers (resp : response (F := F) (DD := DD) (KS := KS)) (x : res goerr output) : Prop :=
  match x with
  | Ok out => s_status resp = StatusOK /\ s_body resp = POut out
  | Err e => s_status resp = statusFor (kindOf e) /\ exists d, s_body resp = PError d /\ ed_kind d = KindName (kindOf e)
  end.
Lemma refused r name op m : answers (writeError r (Server.invalid op) m) (Err (Dispatch.invalid name)).
Proof. split; [done|]. by eexists. Qed.
Lemma failed r e m : answers (writeError r e m) (Err e).
Proof. split; [done|]. by eexists. Qed.
Lemma decode_reads {A} (parse : first_json A) de r : reads_as parse de (h_body r) ->
  match decode (F := F) (DD := DD) (KS := KS) parse r with
  | inr v => de (h_body r) = Some v
  | inl resp => de (h_body r) = None /\ forall name, answers resp (Err (Dispatch.invalid name))
  end.
Proof. unfold reads_as, decode. case_match; [done|]. intros Hd. split; [done|]. intros name. apply refused. Qed.

Lemma one_agrees {R I O} (parse : first_json R) de conv (call : I -> M W (O * option goerr)) wrap op name r w w' x :
  reads_as parse de (h_body r) -> single de conv call wrap name (h_body r) w = Done (w', x) ->
  exists resp, one parse op conv call wrap r w = Done (w', resp) /\ answers resp x.
Proof.
  intros Hr%decode_reads. unfold single, one. destruct (decode parse r) as [resp|v].
  - destruct Hr as [-> Hr]. intros [-> ->]%mret_done. exists resp. auto.
  - rewrite Hr. destruct (conv v) as [i|e].
    + intros (w1 & [o err] & Hc & [-> ->]%mret_done)%mbind_done. unfold mbind_. rewrite Hc. eexists. split; [reflexivity|].
      destruct err; [apply failed|done].
    + intros [-> ->]%mret_done. eexists. split; [reflexivity|apply refused].
Qed.
Lemma many_agrees {R I O} (parse : first_json (Dto.BatchRequest R)) de conv op (run : batch_port W I O) wrap wrap_item name r w w' x :
  wantsStream r = false -> reads_as parse de (h_body r) ->
  aggregate wrap (batch de conv run name (h_body r)) w = Done (w', x) ->
  exists resp, many parse conv op run wrap wrap_item r w = Done (w', resp) /\ answers resp x.
Proof.
  intros Hs Hr%decode_reads (w1 & y & Hb & [-> ->]%mret_done)%mbind_done. revert Hb. unfold batch, many, decodeBatch.
  destruct (decode parse r) as [resp|v].
  - destruct Hr as [-> Hr]. intros [-> ->]%mret_done. exists resp. auto.
  - rewrite Hr. destruct (Dto.BatchItems (Dto.bq_items v) conv) as [items|e].
    + intros (w2 & [sunk out] & Hc & [-> ->]%mret_done)%mbind_done. unfold writeBatch, mbind_. rewrite Hc, Hs. by eexists.
    + intros [-> ->]%mret_done. eexists. split; [reflexivity|apply refused].
Qed.
Lemma verify_agrees r w w' x : wantsHTML r = false -> reads_as (ps_verify ps) (de_verify dec) (h_body r) ->
  single (de_verify dec) Dto.verify_ToCore (op_verify (svc s (locale r))) OVerify "Verify" (h_body r) w = Done (w', x) ->
  exists resp, handleVerify s ps r w = Done (w', resp) /\ answers resp x.
Proof.
  intros Hh Hr Hx. destruct (one_agrees _ _ _ _ _ "Verify" _ _ _ _ _ Hr Hx) as (resp & Ho & Ha). exists resp. split; [|done].
  rewrite <- Ho. unfold handleVerify, one. rewrite Hh. destruct (decode (ps_verify ps) r); [done|].
  destruct (Dto.verify_ToCore v); [|done]. unfold mbind_. destruct (op_verify _ _ _) as [[w1 [out [e|]]]|]; reflexivity.
Qed.

(** A route that takes the request answers it. *)
Lemma serve_at rt vs r w c w' resp : rt ∈ all -> hit r rt = Some (rt, vs) ->
  rt_handler rt (with_values r vs) w = Done (w', resp) -> serving r (w, c) = Done ((w', c), Some (render resp)).
Proof.
  intros Hin Hhit Hrun. unfold serve. rewrite (hits_at _ _ _ _ _ _ _ _ r rt _ Hin Hhit). unfold HttpIdem.Rest.idempotent.
  simpl. assert (in_world (let* resp0 := rt_handler rt (with_values r vs) in mret (Some (render resp0)))%m (w, c) =
    Done ((w', c), Some (render resp))) as Hw.
  { apply in_world_done. split; [done|]. apply mbind_done. by exists w', resp. }
  by destruct (rt_idempotent rt).
Qed.
Lemma match_words path : match_segments (map Lit path) path = Some [].
Proof.
  induction path as [|x path IH]; [done|]. simpl. replace (str_eqb x x) with true; [done|]. symmetry. by apply str_eqb_eq.
Qed.
Lemma serve_core n rt path r w c w' x :
  core_routes s ps !! n = Some rt -> rt_pattern rt = ("POST"%string, map Lit path) ->
  h_method r = "POST"%string -> path_segments (h_path r) = path ->
  (exists resp, rt_handler rt (with_values r []) w = Done (w', resp) /\ answers resp x) ->
  exists resp, serving r (w, c) = Done ((w', c), Some (render resp)) /\ answers resp x.
Proof.
  intros Hn Hp Hm Hs (resp & Hrun & Ha). exists resp. split; [|done]. apply (serve_at rt []); [..|done].
  - unfold routes. rewrite !elem_of_app. left. by eapply list_elem_of_lookup_2.
  - unfold hit. rewrite Hp. cbn [fst snd]. by rewrite Hm, Hs, match_words.
Qed.

Ltac core n Hp Hm Hs :=
  injection Hp as <-; eapply (serve_core n _ _ _ _ _ _ _ eq_refl); [|exact Hm|exact Hs|]; [reflexivity|].
(** C17: Each operation answers over HTTP as it does over a queue. A POST to the
    path of an operation, by a client that asks neither for a page nor for a
    stream and without an idempotency layer, makes the same call on the domain in
    the same world as the router of the queues, and answers with its output or an
    error of the same kind: whenever the two decoders of that operation read the
    body alike, be it as one request or as malformed (they differ on a body over
    the limit, on unknown fields and on text after the value). *)
Theorem rest_dispatch_agree op path r w c w' x :
  op_path op = Some path -> h_method r = "POST"%string -> path_segments (h_path r) = path ->
  wantsHTML r = false -> wantsStream r = false -> reads_same ps dec op (h_body r) ->
  Handle (svc s (locale r)) dec op (h_body r) w = Done (w', x) ->
  exists resp, serving r (w, c) = Done ((w', c), Some (render resp)) /\ answers resp x.
Proof.
  intros Hp Hm Hs Hh Hst Hr Hx. unfold op_path in Hp. unfold Handle in Hx. unfold reads_same in Hr. cbv zeta in *.
  destruct (str_eqb op "sign"); [core 0%nat Hp Hm Hs; by eapply (one_agrees _ _ _ _ _ _ _ (with_values r [])); [exact Hr|exact Hx]|].
  destruct (str_eqb op "verify"); [core 2%nat Hp Hm Hs; exact (verify_agrees (with_values r []) _ _ _ Hh Hr Hx)|].
  destruct (str_eqb op "verify-at"); [core 3%nat Hp Hm Hs; by eapply (one_agrees _ _ _ _ _ _ _ (with_values r [])); [exact Hr|exact Hx]|].
  destruct (str_eqb op "archive"); [core 10%nat Hp Hm Hs; by eapply (one_agrees _ _ _ _ _ _ _ (with_values r [])); [exact Hr|exact Hx]|].
  destruct (str_eqb op "extract"); [core 4%nat Hp Hm Hs; by eapply (one_agrees _ _ _ _ _ _ _ (with_values r [])); [exact Hr|exact Hx]|].
  destruct (str_eqb op "cert-info"); [core 5%nat Hp Hm Hs; by eapply (one_agrees _ _ _ _ _ _ _ (with_values r [])); [exact Hr|exact Hx]|].
  destruct (str_eqb op "cert-validate"); [core 6%nat Hp Hm Hs; by eapply (one_agrees _ _ _ _ _ _ _ (with_values r [])); [exact Hr|exact Hx]|].
  destruct (str_eqb op "sign-batch"); [core 7%nat Hp Hm Hs; by eapply (many_agrees _ _ _ _ _ _ _ _ (with_values r [])); [exact Hst|exact Hr|exact Hx]|].
  destruct (str_eqb op "verify-batch"); [core 8%nat Hp Hm Hs; by eapply (many_agrees _ _ _ _ _ _ _ _ (with_values r [])); [exact Hst|exact Hr|exact Hx]|].
  destruct (str_eqb op "extract-batch"); [core 11%nat Hp Hm Hs; by eapply (many_agrees _ _ _ _ _ _ _ _ (with_values r [])); [exact Hst|exact Hr|exact Hx]|].
  destruct (str_eqb op "cert-info-batch"); [core 12%nat Hp Hm Hs; by eapply (many_agrees _ _ _ _ _ _ _ _ (with_values r [])); [exact Hst|exact Hr|exact Hx]|].
  destruct (str_eqb op "cert-validate-batch"); [core 13%nat Hp Hm Hs; by eapply (many_agrees _ _ _ _ _ _ _ _ (with_values r [])); [exact Hst|exact Hr|exact Hx]|].
  done.
Qed.
End Equivalence.
(** ** Where a browser is sent *)
Section Redirects.
  Context {V St F DD KS : Type} `{Challenge.ChallengeStoreLaws St}.
  Variable v : Challenge.verifier V.
  Variable now : V -> time.
  Variable rand_id : M V (res goerr string).
  Variable add_query : string -> list (string * string) -> option string.
  Variable cfg : Oidc.Oidc.Config.
  Variable clients : gmap string Oidc.Oidc.Client.
Notation W := (@Oidc.Oidc.pstate V St).
Notation complete := (Oidc.Oidc.CompleteAuthorization v now rand_id add_query cfg clients).

Lemma complete_redirects q id signature (w w' : W) u : complete q id signature w = Done (w', Ok u) ->
  exists cl code c, clients !! Oidc.Oidc.aq_client q = Some cl /\ Oidc.Oidc.aq_redirect q ∈ Oidc.Oidc.cn_redirects cl /\
    add_query (Oidc.Oidc.aq_redirect q)
      (("code"%string, code) ::
       (if empty_str (Oidc.Oidc.aq_state q) then [] else [("state"%string, Oidc.Oidc.aq_state q)])) = Some u /\
    Oidc.Oidc.p_codes w' !! code = Some c /\ Oidc.Oidc.ac_redirect c = Oidc.Oidc.aq_redirect q /\
    Oidc.Oidc.vouched v now cfg (Oidc.Oidc.ac_claims c).
Proof.
  unfold Oidc.Oidc.CompleteAuthorization. destruct (Oidc.Oidc.ValidateAuthorize clients q) as [cl|e] eqn:Ev;
    [|by intros [_ ?]%mret_done].
  apply Oidc.Oidc.ValidateAuthorize_ok in Ev as (Hcl & _ & Hin & _).
  intros (s1 & vr & HV & HR)%mbind_done. destruct vr as [[claims nonce]|e]; [|by apply mret_done in HR as [_ ?]].
  apply Oidc.Oidc.verifyChallengeSignature_ok in HV as [Hvouched _].
  apply mbind_done in HR as (s2 & code & _ & HR).
  destruct code as [code|e]; [|by apply mret_done in HR as [_ ?]].
  apply mbind_done in HR as (s3 & t & [= <- <-] & HR).
  apply mbind_done in HR as (s4 & x & [= <- _] & HR). apply mret_done in HR as [-> HR].
  destruct (add_query _ _) as [u'|] eqn:Eq; [|done]. injection HR as <-.
  exists cl, code. eexists. split; [done|]. split; [done|]. split; [exact Eq|].
  cbn [Oidc.Oidc.p_codes]. unfold Oidc.Oidc.put. rewrite lookup_insert_eq. split; [reflexivity|]. split; [reflexivity|exact Hvouched].
Qed.

(** C14: A login that the form submits redirects the browser nowhere but to an
    address registered for its client, and then only with a code that stands for
    a verified signature over a live challenge; any other answer names no
    address. *)
Theorem login_redirects_registered (s : Server W F DD KS) p ParseForm location r w w' resp l :
  sv_oidc s = Some p -> (forall q id signature, oa_complete p q id signature = complete q id signature) ->
  handleOIDCAuthorizeSubmit s ParseForm location r w = Done (w', resp) -> s_headers resp !! "Location"%string = Some l ->
  s_status resp = StatusSeeOther /\
  exists form cl code c u, ParseForm r = Ok form /\ clients !! form "client_id"%string = Some cl /\
    form "redirect_uri"%string ∈ Oidc.Oidc.cn_redirects cl /\
    add_query (form "redirect_uri"%string)
      (("code"%string, code) ::
       (if empty_str (form "state"%string) then [] else [("state"%string, form "state"%string)])) = Some u /\
    l = location r u /\ Oidc.Oidc.p_codes w' !! code = Some c /\
    Oidc.Oidc.ac_redirect c = form "redirect_uri"%string /\ Oidc.Oidc.vouched v now cfg (Oidc.Oidc.ac_claims c).
Proof.
  assert (Hno : forall e, s_headers (writeAuthorizeError (F := F) (DD := DD) (KS := KS) e) !! "Location"%string = None).
  { intros e. unfold writeAuthorizeError. by destruct (oauthErrorFor e). }
  intros Hp Hc. unfold handleOIDCAuthorizeSubmit, on. rewrite Hp. destruct (ParseForm r) as [form|e];
    [|intros [_ ->]%mret_done Hl; by rewrite Hno in Hl].
  intros (w1 & [u|e] & Hu & [-> ->]%mret_done)%mbind_done Hl; cbn [reply] in *; [|by rewrite Hno in Hl].
  rewrite Hc in Hu. split; [done|]. cbn in Hl. rewrite lookup_singleton_eq in Hl. injection Hl as <-.
  apply complete_redirects in Hu as (cl & code & c & Hcl & Hin & Hq & Hcode & Hred & Hv).
  by exists form, cl, code, c, u.
Qed.
End Redirects.
(** ** Concrete servers *)
Definition lab_still {W A} (a : A) : M W A := mret a.
Definition lab_refuses {W I O} (o : O) (_ : I) : M W (O * option goerr) := lab_still (o, Some ErrUnsupported).
Definition lab_core {W} : core_ops W :=
  mkCoreOps W (lab_refuses lab_sign_out) (lab_refuses lab_verify_out) (lab_refuses no_verdict) (lab_refuses empty_archive)
    (lab_refuses (mkExtract "" false None)) (lab_refuses no_info)
    (fun i => lab_still (mkValidateOutput empty_revocation "" "" [] None,
                         if empty_str (va_cert i) then Some (Domain KindInvalid "Validate" None) else None))
    (run_in_order (lab_refuses lab_sign_out)) (run_in_order (lab_refuses lab_verify_out))
    (run_in_order (lab_refuses (mkExtract "" false None))) (run_in_order (lab_refuses no_info))
    (run_in_order (lab_refuses (mkValidateOutput empty_revocation "" "" [] None))).
Definition lab_unread {A} : first_json A := fun _ _ => Err (Errors.New "EOF").
Definition lab_parsers : parsers unit :=
  mkParsers unit lab_unread lab_unread lab_unread lab_unread lab_unread lab_unread (fun b _ => Ok (lab_request b))
    lab_unread lab_unread lab_unread lab_unread (fun b _ => Ok (Dto.mkBatchRequest [lab_request b; lab_request ""] "" 0))
    lab_unread lab_unread lab_unread lab_unread lab_unread lab_unread lab_unread lab_unread lab_unread lab_unread lab_unread lab_unread.
Definition lab_get (m : list (string * string)) (k : string) : string :=
  match find (fun p => str_eqb (fst p) k) m with Some p => snd p | None => EmptyString end.
Definition lab_request_to (method path body : string) : request :=
  mkRequest method path (fun _ => EmptyString) (fun _ => EmptyString) (fun _ => EmptyString) "ca.example" true body.
Definition lab_jobs : jobs_api unit :=
  mkJobsApi unit (fun _ _ _ _ => lab_still (Err Jobs.Jobs.ErrBusy)) (fun _ => lab_still (Err Jobs.Jobs.ErrNotFound))
    (fun _ => lab_still (Err Jobs.Jobs.ErrNotReady)) (fun _ => lab_still (Some Jobs.Jobs.ErrNotFound)).
Definition lab_server : Server unit unit unit unit :=
  Server.New (fun _ => lab_core) (fun _ _ _ => lab_still (mkRegistry 0 0 0 0 0 0 [])) [WithPortal; WithConsole; WithJobs lab_jobs].
Definition lab_form (r : request) : res goerr (string -> string) := Ok (lab_get []).
Definition lab_files (r : request) : res goerr (string -> option string) := Ok (fun _ => None).
Definition lab_basic (r : request) : option (string * string) := None.
Definition lab_location (r : request) (u : string) : string := u.
Definition lab_journal (p : string) : M unit (res goerr (list Journal.Journal.line * option goerr * string)) :=
  lab_still (Err (Errors.New "no such file")).
Notation lab_routes := (routes lab_server lab_parsers lab_form lab_basic lab_files lab_location lab_journal id).
Definition lab_verify_portal : request := lab_request_to "POST" "/verify/portal" "".
Definition lab_job : request := lab_request_to "GET" "/jobs/7" "".

Lemma total_run_in_order {W I O} (call : I -> M W (O * option goerr)) l o : (forall i, total (call i)) -> total (run_in_order call l o).
Proof.
  intros Hc w. apply mbind_returns; [|done]. generalize 0%nat w. clear w. induction l as [|x l IH]; intros i w; [done|].
  apply mbind_returns; [apply Hc|]. intros w1 [out e] _. apply mbind_returns; [apply IH|done].
Qed.
Lemma lab_core_total : core_total (lab_core (W := unit)).
Proof. constructor; intros; try apply total_run_in_order; intros ?; done. Qed.
Lemma lab_server_total : server_total lab_server.
Proof.
  constructor; try done; intros; [apply lab_core_total|].
  injection H as <-. unfold jobs_total, total. naive_solver.
Qed.

Lemma routes_unambiguous_witness :
  exists rt, rt ∈ lab_routes /\ hit lab_verify_portal rt = Some (rt, []) /\ rt_handler rt = handlePortalVerify lab_server lab_files /\
  forall rt' vs, rt' ∈ lab_routes -> hit lab_verify_portal rt' = Some (rt', vs) -> rt = rt'.
Proof.
  exists (mkRoute ("POST", [Lit "verify"; Lit "portal"])%string false (handlePortalVerify lab_server lab_files)).
  assert (mkRoute ("POST", [Lit "verify"; Lit "portal"])%string false (handlePortalVerify lab_server lab_files) ∈ lab_routes) as Hin.
  { apply (list_elem_of_lookup_2 _ 20). reflexivity. }
  split; [exact Hin|]. split; [reflexivity|]. split; [reflexivity|]. intros rt' vs Hin' Hx.
  exact (proj1 (routes_unambiguous _ _ _ _ _ _ _ _ lab_verify_portal _ _ [] vs Hin Hin' eq_refl Hx)).
Defined.
Definition lab_job_route : route (W := unit) (F := unit) (DD := unit) (KS := unit) :=
  mkRoute ("GET", [Lit "jobs"; Val "id"])%string false (handleJobGet lab_server).
Lemma routes_answer_witness :
  lab_job_route ∈ lab_routes /\
  exists w' resp, rt_handler lab_job_route lab_job tt = Done (w', resp) /\ proper resp.
Proof.
  assert (lab_job_route ∈ lab_routes) as Hin by (apply (list_elem_of_lookup_2 _ 15); reflexivity).
  split; [exact Hin|].
  exact (routes_answer lab_server lab_parsers lab_form lab_basic lab_files lab_location lab_journal id lab_server_total
           (fun p w => ltac:(discriminate)) lab_job_route lab_job tt Hin).
Defined.

#[local] Instance lab_rest_port : IdemPort.IdemPort unit Idempotency.cache := IdemPort.CachePort (fun _ => 5).
Definition lab_validate_request : request := lab_request_to "POST" "/cert/validate" "C".
Definition lab_render (r : response (F := unit) (DD := unit) (KS := unit)) : HttpIdem.Rest.http_out :=
  HttpIdem.Rest.mkOut (s_status r) (s_headers r) EmptyString.
Lemma lab_reads : reads_same lab_parsers lab_dec "cert-validate" "C".
Proof. reflexivity. Qed.
Lemma rest_dispatch_agree_witness :
  exists x, Handle lab_core lab_dec "cert-validate" "C" tt = Done (tt, Ok x) /\
  exists resp, serve lab_server lab_parsers lab_form lab_basic lab_files lab_location lab_journal id false lab_render ""
      lab_validate_request (tt, IdemLab.lab_empty) = Done ((tt, IdemLab.lab_empty), Some (lab_render resp)) /\
    s_status resp = StatusOK /\ s_body resp = POut x.
Proof.
  eexists. assert (Handle lab_core lab_dec "cert-validate" "C" tt =
    Done (tt, Ok (OValidate (mkValidateOutput empty_revocation "" "" [] None)))) as E by reflexivity.
  split; [exact E|].
  exact (rest_dispatch_agree lab_server lab_parsers lab_dec lab_form lab_basic lab_files lab_location lab_journal id lab_render ""
    "cert-validate" _ lab_validate_request tt IdemLab.lab_empty tt _ eq_refl eq_refl eq_refl eq_refl eq_refl lab_reads E).
Defined.
(** A login over the concrete provider. *)
Notation lab_pstate := (@Oidc.Oidc.pstate Z (gmap string Challenge.Challenge.Challenge)).
Definition lab_provider : oidc_api lab_pstate unit unit unit :=
  mkOidcApi lab_pstate unit unit unit (lab_still tt) (lab_still tt) (fun _ _ => lab_still (Err Challenge.Challenge.ErrNotFound))
    (fun _ _ _ => lab_still (Err Challenge.Challenge.ErrNotFound)) (fun _ => lab_still (Err Oidc.Oidc.ErrTokenInvalid))
    (fun q => lab_still (Oidc.Oidc.ValidateAuthorize Oidc.Oidc.lab_clients q))
    (Oidc.Oidc.CompleteAuthorization Challenge.Challenge.lab_verifier id Oidc.Oidc.lab_rand Oidc.Oidc.lab_query Oidc.Oidc.lab_cfg
       Oidc.Oidc.lab_clients)
    (fun _ => lab_still (Err Oidc.Oidc.ErrCodeInvalid)).
Definition lab_login_server : Server lab_pstate unit unit unit :=
  Server.New (fun _ => lab_core) (fun _ _ _ => lab_still (mkRegistry 0 0 0 0 0 0 [])) [WithOIDC lab_provider].
Definition lab_login (redirect : string) (r : request) : res goerr (string -> string) :=
  Ok (lab_get [("client_id", "web"); ("redirect_uri", redirect); ("response_type", "code"); ("state", "xyz"); ("nonce", "nn");
               ("code_challenge", "h(secret)"); ("code_challenge_method", "S256"); ("challengeId", "c1");
               ("signature", "sig:n0nce")]%string).
Definition lab_submit (redirect : string) : outcome (lab_pstate * response) :=
  handleOIDCAuthorizeSubmit lab_login_server (lab_login redirect) lab_location (lab_request_to "POST" "/oidc/authorize" "") Oidc.Oidc.lab_p0.
Definition lab_sent : response (F := unit) (DD := unit) (KS := unit) :=
  mkResponse 303 {["Location"%string := "https://app/cb?code=code1&state=xyz"%string]} PNone.

Example login_elsewhere_refused : lab_submit "https://evil/cb" =
  Done (Oidc.Oidc.lab_p0, mkResponse 400 (no_store html) (PPage (AuthorizeErrorPage "invalid_request" (err_text Oidc.Oidc.ErrRedirectMismatch)))).
Proof. vm_compute. reflexivity. Qed.
Lemma login_redirects_registered_witness :
  lab_submit "https://app/cb" = Done (Oidc.Oidc.lab_p1, lab_sent) /\
  exists cl, Oidc.Oidc.lab_clients !! "web"%string = Some cl /\ "https://app/cb"%string ∈ Oidc.Oidc.cn_redirects cl.
Proof.
  assert (lab_submit "https://app/cb" = Done (Oidc.Oidc.lab_p1, lab_sent)) as E by (vm_compute; reflexivity).
  split; [exact E|].
  destruct (login_redirects_registered _ _ _ _ _ _ lab_login_server lab_provider (lab_login "https://app/cb") lab_location
    (lab_request_to "POST" "/oidc/authorize" "") Oidc.Oidc.lab_p0 Oidc.Oidc.lab_p1 lab_sent "https://app/cb?code=code1&state=xyz"
    eq_refl (fun _ _ _ => eq_refl) E eq_refl) as (_ & form & cl & code & c & u & [= <-] & Hcl & Hin & _).
  exists cl. split; [exact Hcl|exact Hin].
Defined.

(** ** What a user of the browser flow sees of a challenge
    A challenge that is expired, unknown or used is a client error of the login
    over the API, and an internal error of the login page. *)
Example oauth_challenge_500 :
  map oauthErrorFor [Challenge.Challenge.ErrNotFound; Challenge.Challenge.ErrExpired; Challenge.Challenge.ErrUsed] =
    repeat (500, "server_error"%string) 3 /\
  map (fun e => s_status (writeOIDCError (F := unit) (DD := unit) (KS := unit) e))
      [Challenge.Challenge.ErrNotFound; Challenge.Challenge.ErrExpired; Challenge.Challenge.ErrUsed] = repeat 400 3.
Proof. split; reflexivity. Qed.
End Serving.
