(* ===== verification/Cli.v ===== *)
(** * The command line (internal/transport/cli/cli.go, the commands of
    cmd/qoltanba/main.go)

    One operation per process: a request from the standard input, a result or an
    error envelope on the standard output, an exit code. What is printed is the
    value that is encoded. The gate that a pipeline opts into is stated against
    the results of the operations. *)
From S2P Require Import Prelude Errors Provider CoreTypes CertParse Explain Service Verify Sign Historical Batch Text Dispatch.
Import Dispatch.Dispatch.

Module Cli.

(** [Ops], [maxRequestBytes], [ExitInvalid]. *)
Definition Ops : list string := Dispatch.Dispatch.Ops.
Definition maxRequestBytes : Z := Z.shiftl 32 20.
Definition ExitInvalid : Z := 2.

(** [options], [Option] and [FailOnInvalid]. *)
Record options := mkOptions { failOnInvalid : bool }.
Definition FailOnInvalid : options -> options := fun _ => mkOptions true.

(** [exitFor]. *)
Definition exitFor (k : error_kind) : Z :=
  match k with
  | KindInvalid => 2
  | KindUnsupported => 3
  | KindUnavailable => 4
  | KindCanceled => 5
  | KindInternal => 1
  end.

(** What a run prints: a result, an error envelope, or a line of text. *)
Record envelope := mkEnvelope { ev_kind : string; ev_message : string; ev_code : option string; ev_action : option string }.
Inductive result := Single (o : output) | Register (o : RegistryOutput).
Inductive printed := PResult (r : result) | PEnvelope (e : envelope) | PLine (s : string).

(** [encodeError]: the envelope and the exit code. *)
Definition nonempty (s : string) : option string := if empty_str s then None else Some s.
Definition encodeError (err : goerr) : envelope * Z :=
  let kind := default KindInternal (as_domain err) in
  let exp := ExplainDomain err in
  (mkEnvelope (KindName kind) (if empty_str (x_message exp) then err_text err else x_message exp)
     (nonempty (x_code exp)) (nonempty (x_action exp)), exitFor kind).

(** [batchVerified], [verified]. *)
Definition batchVerified (out : BatchOutput VerifyOutput) : bool :=
  if 0 <? bo_failed out then false
  else forallb (fun it => match it_output it with Some o => vo_valid o | None => false end) (bo_results out).
Definition verified (r : result) : bool :=
  match r with
  | Single (OVerify v) => vo_valid v
  | Register v => (ro_invalid v =? 0) && (ro_indeterminate v =? 0) && (ro_failed v =? 0)
  | Single (OVerifyBatch v) => batchVerified v
  | _ => true
  end.

Section Run.
  Context {W : Type}.
  Variable svc : core_ops W.
  Variable dec : decoders.
  (** [encode]: the failure of the encoder or of the output. *)
  Variable encode : result -> option goerr.

(** [io.ReadAll] of the limited input; a failure of the input that lies past
    the limit is not met. *)
Definition read_request (input : string) (failed : bool) : option string :=
  if failed && (Z.of_nat (String.length input) <? maxRequestBytes) then None else Some (limit_reader maxRequestBytes input).
(** [Run]: what is printed, and the exit code. *)
Definition Run (op input : string) (failed : bool) (opts : list (options -> options)) : M W (list printed * Z) :=
  let cfg := fold_left (fun c o => o c) opts (mkOptions false) in
  match read_request input failed with
  | None => let (e, code) := encodeError (Domain KindInvalid "read" None) in mret ([PEnvelope e], code)
  | Some payload =>
      (let* res := Handle svc dec op payload in
       mret match res with
            | Err e => let (e, code) := encodeError e in ([PEnvelope e], code)
            | Ok out =>
                match encode (Single out) with
                | Some e => ([PLine (err_text e)], 1)
                | None => ([PResult (Single out)], if failOnInvalid cfg && negb (verified (Single out)) then ExitInvalid else 0)
                end
            end)%m
  end.
End Run.

(** ** The commands *)
(** [extractBoolFlag]. *)
Fixpoint extractBoolFlag (args : list string) (name : string) : list string * bool :=
  match args with
  | [] => ([], false)
  | a :: t =>
      let (out, found) := extractBoolFlag t name in
      if str_eqb a ("-" ++ name) || str_eqb a ("--" ++ name) then (out, true) else (a :: out, found)
  end.
(** [isOp]. *)
Definition isOp (cmd : string) : bool := existsb (fun op => str_eqb op cmd) Ops.
(** [run]: which command the arguments name. *)
Inductive command :=
| CmdDump (args : list string) | CmdCheck (args : list string) | CmdLibCheck (args : list string)
| CmdWorker (args : list string) | CmdOp (op : string) (args : list string) | CmdUnknown (cmd : string)
| CmdServe (args : list string).
Definition run (args : list string) : command :=
  match args with
  | cmd :: rest =>
      if negb (has_prefix "-" cmd) then
        if str_eqb cmd "config-dump" then CmdDump rest
        else if str_eqb cmd "config-check" then CmdCheck rest
        else if str_eqb cmd "lib-check" then CmdLibCheck rest
        else if str_eqb cmd "crypto-worker" then CmdWorker rest
        else if isOp cmd then CmdOp cmd rest
        else CmdUnknown cmd
      else CmdServe args
  | [] => CmdServe []
  end.

(** ** The exit code of a run *)
(** What a caller learns of an operation from the outcome of its run. *)
Definition succeeded (code : Z) : bool := code =? 0.
(** What the gate vouches for: the operations that answer [verified]'s cases. *)
Definition gated (op : string) (o : output) : Prop :=
  (op = "verify"%string -> exists v, o = OVerify v /\ vo_valid v = true) /\
  (op = "verify-batch"%string -> exists b, o = OVerifyBatch b /\
     forall it, it ∈ bo_results b -> exists v, it_output it = Some v /\ vo_valid v = true).

Lemma exitFor_nonzero k : exitFor k <> 0.
Proof. by destruct k. Qed.

Section Gate.
  Context {W : Type}.
  Variable svc : core_ops W.
  Variable dec : decoders.
  Variable encode : result -> option goerr.
Notation ran := (Run svc dec encode).

(** Every run prints exactly one value. *)
Lemma run_prints op input failed opts w w' l code : ran op input failed opts w = Done (w', (l, code)) ->
  length l = 1%nat.
Proof.
  unfold Run. destruct (read_request input failed) as [payload|]; [|by intros [_ [= -> ->]]%mret_done].
  intros (w1 & r & _ & [_ Hl]%mret_done)%mbind_done. destruct r as [out|e]; [|by injection Hl as -> ->].
  destruct (encode _); by injection Hl as -> ->.
Qed.

Lemma handle_verify payload w w' out : Handle svc dec "verify" payload w = Done (w', Ok out) -> exists v, out = OVerify v.
Proof.
  unfold Handle. cbv zeta. cbn [str_eqb]. change (single (de_verify dec) Dto.verify_ToCore (op_verify svc) OVerify "Verify" payload w =
    Done (w', Ok out) -> exists v, out = OVerify v). unfold single.
  destruct (de_verify dec payload) as [r|]; [|by intros [_ [=]]%mret_done].
  destruct (Dto.verify_ToCore r); [|by intros [_ [=]]%mret_done].
  intros (w1 & [o err] & _ & [_ H]%mret_done)%mbind_done. destruct err; [done|]. injection H as ->. by eexists.
Qed.
Lemma handle_verify_batch payload w w' out :
  Handle svc dec "verify-batch" payload w = Done (w', Ok out) -> exists b, out = OVerifyBatch b.
Proof.
  change (aggregate OVerifyBatch (verify_batch svc dec payload) w = Done (w', Ok out) -> exists b, out = OVerifyBatch b).
  intros (w1 & r & _ & [_ H]%mret_done)%mbind_done. destruct r as [[sunk o]|]; [|done]. injection H as ->. by eexists.
Qed.
Lemma verified_gated op payload w w' out :
  Handle svc dec op payload w = Done (w', Ok out) -> verified (Single out) = true -> gated op out.
Proof.
  intros Hh Hv. split; intros ->.
  - destruct (handle_verify _ _ _ _ Hh) as [v ->]. by exists v.
  - destruct (handle_verify_batch _ _ _ _ Hh) as [b ->]. exists b. split; [done|]. revert Hv. simpl. unfold batchVerified.
    destruct (0 <? _); [done|]. intros Hall it Hit. rewrite forallb_forall in Hall.
    specialize (Hall it ltac:(by apply list_elem_of_In)). destruct (it_output it); [eauto|done].
Qed.

(** C19: An exit code of zero says that the operation succeeded on the request and
    that its result was printed. With -fail-invalid it also says, of verify, that
    the signature was reported valid, and of verify-batch, that every item ran and
    was. It says no more: under -fail-invalid, too, a verify-at that succeeded and
    whose output is encoded exits with zero whatever the verdict. *)
Theorem cli_gate_sound op input failed opts w w' l code : ran op input failed opts w = Done (w', (l, code)) ->
  (code = 0 -> exists payload out, read_request input failed = Some payload /\ Handle svc dec op payload w = Done (w', Ok out) /\
    l = [PResult (Single out)] /\
    (failOnInvalid (fold_left (fun c o => o c) opts (mkOptions false)) = true -> gated op out)) /\
  (forall payload v, op = "verify-at"%string -> read_request input failed = Some payload ->
     Handle svc dec op payload w = Done (w', Ok (OVerifyAt v)) -> encode (Single (OVerifyAt v)) = None -> code = 0).
Proof.
  unfold Run. destruct (read_request input failed) as [payload|].
  2:{ intros [_ H]%mret_done. split; [|done]. intros ->. discriminate H. }
  intros (w1 & r & Hr & [-> Hl]%mret_done)%mbind_done. split.
  - intros ->. exists payload. destruct r as [out|e].
    + exists out. destruct (encode _) eqn:Ee; [done|]. apply pair_equal_spec in Hl as [-> Hc]. split; [done|]. split; [done|]. split; [done|].
      intros Hf. rewrite Hf in Hc. destruct (verified (Single out)) eqn:Ev; [by eapply verified_gated|discriminate Hc].
    + unfold encodeError in Hl. injection Hl as _ Hc. symmetry in Hc. by apply exitFor_nonzero in Hc.
  - intros payload' v _ [= <-] Hv He. rewrite Hr in Hv. injection Hv as ->. rewrite He in Hl. injection Hl as _ ->.
    by rewrite andb_false_r.
Qed.
End Gate.

(** The commands do not hide an operation, and every name that is not a flag
    and not an operation is refused or is a command. *)
Theorem run_operations op args : op ∈ Ops -> run (op :: args) = CmdOp op args.
Proof.
  unfold Ops, Dispatch.Dispatch.Ops. intros Hop.
  repeat (apply list_elem_of_In in Hop; destruct Hop as [<-|Hop]; [reflexivity|]; apply list_elem_of_In in Hop). by apply not_elem_of_nil in Hop.
Qed.
(** [extractBoolFlag] takes out every spelling of its flag, wherever it stands,
    and nothing else. *)
Definition spells (name a : string) : bool := str_eqb a ("-" ++ name) || str_eqb a ("--" ++ name).
Theorem extract_flag args name :
  fst (extractBoolFlag args name) = List.filter (fun a => negb (spells name a)) args /\
  snd (extractBoolFlag args name) = existsb (spells name) args.
Proof.
  induction args as [|a args [IH1 IH2]]; [done|]. cbn [extractBoolFlag List.filter existsb]. fold (spells name a).
  destruct (extractBoolFlag args name) as [out found]. cbn [fst snd] in *. subst.
  destruct (spells name a); cbn [negb orb fst snd]; done.
Qed.

(** ** What the exit codes and messages do not tell *)
(** A completed verification that fails the gate and a request that could not be
    read have the same exit code. *)
Example exit_invalid_collides : ExitInvalid = exitFor KindInvalid.
Proof. reflexivity. Qed.
(** A verification at a past instant passes the gate whatever it found. *)
Lemma verify_at_passes v : verified (Single (OVerifyAt v)) = true.
Proof. reflexivity. Qed.
(** The envelope is in English, whichever language is configured. *)
Example envelope_in_english :
  map (fun loc => str_eqb (x_message (ExplainDomainIn loc ErrNotReady)) (ev_message (fst (encodeError ErrNotReady))))
    [LocaleEN; LocaleRU; LocaleKK] = [true; false; false].
Proof. vm_compute. reflexivity. Qed.

(** ** A concrete run *)
Definition lab_good : VerifyOutput := mkVerifyOutput true FormatCMS false [] "" [] None None None "" None.
Definition lab_verify (i : VerifyInput) : M unit (VerifyOutput * option goerr) :=
  mret (if str_eqb (vi_signature i) "good" then lab_good else lab_verify_out, None).
Definition lab_cli_ops : core_ops unit :=
  mkCoreOps unit (op_sign lab_ops) lab_verify (op_verify_at lab_ops) (op_archive lab_ops) (op_extract lab_ops) (op_info lab_ops)
    (op_validate lab_ops) (op_sign_batch lab_ops) (run_in_order lab_verify) (op_extract_batch lab_ops) (op_info_batch lab_ops)
    (op_validate_batch lab_ops).
Definition lab_verify_request (sig : string) : Dto.VerifyRequest :=
  Dto.mkVerifyRequest "cms" sig EmptyString EmptyString EmptyString false false false false false false false false []
    None EmptyString EmptyString false.
Definition lab_cli_dec : decoders :=
  mkDecoders (fun _ => None) (fun p => Some (lab_verify_request p)) (fun _ => None) (fun _ => None) (fun _ => None) (fun _ => None)
    (fun _ => None) (fun _ => None) (fun p => Some (Dto.mkBatchRequest [lab_verify_request p; lab_verify_request "good"] "" 0))
    (fun _ => None) (fun _ => None) (fun _ => None).
Definition lab_run (op input : string) (opts : list (options -> options)) : outcome (unit * (list printed * Z)) :=
  Run lab_cli_ops lab_cli_dec (fun _ => None) op input false opts tt.
Definition code_of (x : outcome (unit * (list printed * Z))) : option Z :=
  match x with Done (_, (_, c)) => Some c | Panic => None end.
(** A bad signature is an answer, and a failure for a gate. *)
Example lab_codes :
  [code_of (lab_run "verify" "bad" []); code_of (lab_run "verify" "bad" [FailOnInvalid]);
   code_of (lab_run "verify" "good" [FailOnInvalid]); code_of (lab_run "verify-batch" "bad" [FailOnInvalid]);
   code_of (lab_run "sign" "bad" [FailOnInvalid])] = [Some 0; Some 2; Some 0; Some 2; Some 2].
Proof. vm_compute. reflexivity. Qed.
Lemma cli_gate_sound_witness :
  exists l out, lab_run "verify-batch" "good" [FailOnInvalid] = Done (tt, (l, 0)) /\ l = [PResult (Single out)] /\
    gated "verify-batch" out.
Proof.
  assert (exists l, lab_run "verify-batch" "good" [FailOnInvalid] = Done (tt, (l, 0))) as [l E] by (eexists; vm_compute; reflexivity).
  destruct (cli_gate_sound lab_cli_ops lab_cli_dec (fun _ => None) "verify-batch" "good" false [FailOnInvalid] tt tt l 0 E)
    as [Hz _].
  destruct (Hz eq_refl) as (payload & out & _ & _ & Hl & Hv).
  exists l, out. split; [exact E|]. split; [exact Hl|]. apply Hv. reflexivity.
Defined.
End Cli.
