(* ===== verification/GrpcServer.v ===== *)
(** * The gRPC transport (internal/transport/grpc/server.go, map.go, batch.go,
    historical.go, jobs.go, and the interceptors of cmd/qoltanba/main.go)

    The messages are records of their fields as the generated getters read them:
    an absent message reads as its zero value, an enumeration is its number, a
    missing optional field is [None]. The handlers are stated over the domain
    operations the message-queue router calls, the job service over the interface
    the HTTP server uses, a server stream over its [Send]. *)
From S2P Require Import Prelude Errors Provider CoreTypes CertParse Explain Service Verify Sign Historical Batch Text Jobs Journal Dispatch HttpIdem RestServer.
Import Dispatch.Dispatch.

Module GrpcServer.

(** [int32] of an integer. *)
Definition int32 (z : Z) : Z := (z + 2 ^ 31) mod 2 ^ 32 - 2 ^ 31.

(** [time.RFC3339] in UTC; [rfc3339]. *)
Definition rfc3339_of (t : time) : string :=
  let day := t / (24 * hour) in
  let rest := t mod (24 * hour) in
  let '(y, m, d) := Journal.Journal.civil day in
  (Journal.Journal.dec_pad 4 y "" ++ "-" ++ Journal.Journal.pad2 m ++ "-" ++ Journal.Journal.pad2 d ++ "T" ++
   Journal.Journal.pad2 (rest / hour) ++ ":" ++ Journal.Journal.pad2 (rest / minute mod 60) ++ ":" ++
   Journal.Journal.pad2 (rest / second mod 60) ++ "Z")%string.
Definition rfc3339 (t : option time) : string := match t with None => EmptyString | Some t => rfc3339_of t end.

(** ** Requests *)
(** The enumerations of the contract. *)
Definition CMS := 1.
Definition XML := 2.
Definition WSSE := 3.
Definition PEM := 1.
Definition DER := 2.
Definition BASE64 := 3.
Definition OCSP := 1.
Definition CRL := 2.
(** [pbFormat], [pbEncoding], [pbMethod]. *)
Definition pbFormat (f : Z) : SignatureFormat :=
  if f =? CMS then FormatCMS else if f =? XML then FormatXML else if f =? WSSE then FormatWSSE else FormatOther "".
Definition pbEncoding (e : Z) : CertEncoding := if e =? DER then EncodingDER else if e =? BASE64 then EncodingB64 else EncodingPEM.
Definition pbMethod (m : Z) : RevMethod := if m =? CRL then MethodCRL else MethodOCSP.
(** The source of a key; [pbKeySpec]. *)
Inductive keySource :=
| KeyInline (p12 password alias : string) | KeyPath (path password alias : string)
| KeyToken (storage pin alias : string) | KeyId (id : string).
Definition pbKeySpec (k : option keySource) : KeySpec :=
  match k with
  | Some (KeyInline p w a) => mkKeySpec (Some (mkInlineKey p w a)) None None EmptyString
  | Some (KeyPath p w a) => mkKeySpec None (Some (mkPathKey p w a)) None EmptyString
  | Some (KeyToken s p a) => mkKeySpec None None (Some (mkTokenKey s p a)) EmptyString
  | Some (KeyId i) => mkKeySpec None None None i
  | None => mkKeySpec None None None EmptyString
  end.
(** [pbTrusted]. *)
Record TrustedPB := mkTrustedPB { tp_cert : string; tp_intermediate : bool }.
Definition pbTrusted (l : list TrustedPB) : list TrustedCert := map (fun c => mkTrusted (tp_cert c) (tp_intermediate c)) l.

(** The request messages. *)
Record SignRequest := mkSignRequest {
  gs_format : Z; gs_data : string; gs_data_path : string; gs_data_url : string; gs_key : option keySource;
  gs_detached : bool; gs_with_timestamp : option bool; gs_tsa_url : string; gs_no_check_cert_time : bool;
  gs_input_pem : bool; gs_output_pem : bool; gs_node_id : string; gs_parent_node : string;
  gs_parent_namespace : string; gs_existing : option string;
}.
(** [VerifyRequest]. *)
Record VerifyRequest := mkVerifyRequest {
  gv_format : Z; gv_signature : string; gv_data : string; gv_data_path : string; gv_data_url : string;
  gv_detached : bool; gv_input_pem : bool; gv_check_cert_time : bool; gv_extract_content : bool; gv_claims : bool;
  gv_trusted : list TrustedPB; gv_revocation_check : option bool; gv_revocation_method : Z; gv_responder_url : string;
}.
(** [ArchiveRequest]. *)
Record ArchiveRequest := mkArchiveRequest {
  ga_signature : string; ga_input_pem : bool; ga_data : string; ga_detached : bool; ga_responder_url : string;
  ga_output_pem : bool; ga_trusted : list TrustedPB; ga_allow_revoked : bool;
}.
(** [ExtractRequest]. *)
Record ExtractRequest := mkExtractRequest {
  ge_format : Z; ge_signature : string; ge_data : string;
}.
(** [CertInfoRequest]. *)
Record CertInfoRequest := mkCertInfoRequest {
  gi_cert : string; gi_key : option keySource; gi_encoding : Z; gi_build_chain : bool; gi_validate : bool;
  gi_method : Z; gi_trusted : list TrustedPB; gi_claims : bool;
}.
(** [CertValidateRequest]. *)
Record CertValidateRequest := mkCertValidateRequest {
  gc_cert : string; gc_encoding : Z; gc_method : Z; gc_want_ocsp : bool; gc_responder_url : string; gc_crl : string;
  gc_trusted : list TrustedPB;
}.
(** [VerifyAtRequest]. *)
Record VerifyAtRequest := mkVerifyAtRequest {
  gt_verify : VerifyRequest; gt_at : string; gt_method : Z; gt_crl : string; gt_responder_url : string;
}.

(** [signInputPB] and the other inputs. *)
Definition signInputPB (q : SignRequest) : SignInput :=
  mkSignInput EmptyString (pbFormat (gs_format q)) (gs_data q) (mkDataRef (gs_data_path q) (gs_data_url q)) (pbKeySpec (gs_key q))
    (gs_detached q) (gs_with_timestamp q) (gs_tsa_url q) (gs_no_check_cert_time q) (gs_input_pem q) (gs_output_pem q) []
    (gs_node_id q) (gs_parent_node q) (gs_parent_namespace q) (gs_existing q).
Definition verifyInputPB (q : VerifyRequest) : VerifyInput :=
  mkVerifyInput (pbFormat (gv_format q)) (gv_signature q) (gv_data q) (mkDataRef (gv_data_path q) (gv_data_url q)) (gv_detached q)
    (gv_input_pem q) (gv_check_cert_time q) (gv_extract_content q) (gv_claims q) false false false (pbTrusted (gv_trusted q))
    (gv_revocation_check q) (pbMethod (gv_revocation_method q)) (gv_responder_url q) false.
Definition archiveInputPB (q : ArchiveRequest) : ArchiveInput :=
  mkArchiveInput (ga_signature q) (ga_input_pem q) (ga_data q) (ga_detached q) (ga_responder_url q) (pbTrusted (ga_trusted q))
    (ga_output_pem q) (ga_allow_revoked q).
Definition extractInputPB (q : ExtractRequest) : Dto.ExtractInput :=
  Dto.mkExtractInput (pbFormat (ge_format q)) (ge_signature q) (ge_data q).
Definition certInfoInputPB (q : CertInfoRequest) : CertInfoInput :=
  mkCertInfoInput (gi_cert q) (pbKeySpec (gi_key q)) (pbEncoding (gi_encoding q)) (gi_build_chain q) (gi_validate q) (gi_claims q)
    (pbMethod (gi_method q)) (pbTrusted (gi_trusted q)).
Definition validateInputPB (q : CertValidateRequest) : ValidateInput :=
  mkValidateInput (gc_cert q) (pbEncoding (gc_encoding q)) (pbMethod (gc_method q)) time_zero (gc_want_ocsp q)
    (pbTrusted (gc_trusted q)) (gc_responder_url q) (gc_crl q).
(** [verifyAtInputPB], on the parser of instants. *)
Definition verifyAtInputPB (parse_time : string -> res goerr time) (q : VerifyAtRequest) : res goerr VerifyAtInput :=
  match parse_time (gt_at q) with
  | Err e => Err (NewError KindInvalid "VerifyAt" ("at must be an RFC3339 instant: " ++ err_text e))
  | Ok at_ => Ok (mkVerifyAtInput (verifyInputPB (gt_verify q)) at_ (pbMethod (gt_method q)) (gt_crl q) (gt_responder_url q))
  end.
(** [batchOptsPB]. *)
Definition batchOptsPB (policy : string) (concurrency : Z) : BatchOptions := mkBatchOptions (Dto.policy_of policy) concurrency.

(** ** Responses *)
(** [coreFormatPB], [coreMethodPB]. *)
Definition coreFormatPB (f : SignatureFormat) : Z :=
  match f with FormatCMS => CMS | FormatXML => XML | FormatWSSE => WSSE | FormatOther _ => 0 end.
Definition coreMethodPB (m : RevMethod) : Z := match m with MethodCRL => CRL | MethodOCSP => OCSP | MethodOther _ => 0 end.

(** [libErrorPB] of a non-nil error. *)
Record LibErrorPB := mkLibErrorPB {
  pl_code : string; pl_text : string; pl_key : string; pl_message : string; pl_action : string;
}.
Definition libErrorPB (e : LibError) : LibErrorPB :=
  mkLibErrorPB (le_code e) (le_text e) (le_key e) (le_message e) (le_action e).
(** An element of [warningsPB]. *)
Record WarningPB := mkWarningPB {
  pw_field : string; pw_reason : string;
}.
Definition warningPB (w : Warning) : WarningPB :=
  mkWarningPB (w_field w) (w_reason w).
Definition warningsPB (ws : list Warning) : list WarningPB := map warningPB ws.
(** [subjectPB]. *)
Record SubjectPB := mkSubjectPB {
  ps_common_name : string; ps_last_name : string; ps_given_name : string; ps_email : string; ps_organization : string;
  ps_org_unit : string; ps_country : string; ps_locality : string; ps_state : string; ps_business_category : string;
  ps_domain_component : string; ps_dn : string; ps_iin : string; ps_bin : string; ps_gender : string;
}.
Definition subjectPB (s : Subject) : SubjectPB :=
  mkSubjectPB (s_common_name s) (s_last_name s) (s_given_name s) (s_email s) (s_organization s) (s_org_unit s)
    (s_country s) (s_locality s) (s_state s) (s_business_category s) (s_domain_component s) (s_dn s) (s_iin s)
    (s_bin s) (s_gender s).
(** [certPB], [certsPB]. *)
Record CertificatePB := mkCertificatePB {
  pc_subject : SubjectPB; pc_issuer : SubjectPB; pc_serial : string; pc_not_before : string; pc_not_after : string;
  pc_sig_alg : string; pc_sig_alg_oid : string; pc_key_alg : string; pc_public_key : string;
  pc_authority_key_id : string; pc_subject_key_id : string; pc_key_usage : list string; pc_key_usage_kind : string;
  pc_eku : list string; pc_policy_oids : list string; pc_owner_type : string; pc_roles : list string;
  pc_ca_issuer_urls : list string; pc_ocsp_urls : list string; pc_crl_urls : list string; pc_is_ca : bool;
  pc_pem : string;
}.
Definition certPB (c : Certificate) : CertificatePB :=
  mkCertificatePB (subjectPB (c_subject c)) (subjectPB (c_issuer c)) (c_serial c) (rfc3339 (c_not_before c))
    (rfc3339 (c_not_after c)) (c_sig_alg c) (c_sig_alg_oid c) (c_key_alg c) (c_public_key c) (c_authority_key_id c)
    (c_subject_key_id c) (c_key_usage c) (c_key_usage_kind c) (c_eku c) (c_policy_oids c) (c_owner_type c) (c_roles c)
    (c_ca_issuer_urls c) (c_ocsp_urls c) (c_crl_urls c) (c_is_ca c) (c_pem c).
Definition certsPB (cs : list Certificate) : list CertificatePB := map certPB cs.
(** [timestampPB] of a non-nil timestamp. *)
Record TimestampPB := mkTimestampPB {
  pt_serial : string; pt_gen_time : string; pt_policy : string; pt_tsa : string; pt_hash_alg : string;
  pt_hash : string; pt_imprint_verified : option bool; pt_imprint_note : string; pt_signature_verified : option bool;
  pt_signature_note : string; pt_policy_name : string; pt_policy_accepted : option bool; pt_policy_note : string;
}.
Definition timestampPB (t : Timestamp) : TimestampPB :=
  mkTimestampPB (ts_serial t) (rfc3339 (ts_gen_time t)) (ts_policy t) (ts_tsa t) (ts_hash_alg t) (ts_hash t)
    (ts_imprint_verified t) (ts_imprint_note t) (ts_signature_verified t) (ts_signature_note t) (ts_policy_name t)
    (ts_policy_accepted t) (ts_policy_note t).
(** [claimsPB] of non-nil claims. *)
Record ClaimsPB := mkClaimsPB {
  pcl_sub : string; pcl_name : string; pcl_given_name : string; pcl_family_name : string; pcl_email : string;
  pcl_iin : string; pcl_bin : string; pcl_organization : string; pcl_roles : list string; pcl_owner_type : string;
  pcl_gender : string;
}.
Definition claimsPB (c : Claims) : ClaimsPB :=
  mkClaimsPB (cl_sub c) (cl_name c) (cl_given_name c) (cl_family_name c) (cl_email c) (cl_iin c) (cl_bin c)
    (cl_organization c) (cl_roles c) (cl_owner_type c) (cl_gender c).
(** [revocationPB]; [signerRevocationPB]. *)
Record RevocationPB := mkRevocationPB {
  pr_revoked : bool; pr_determinate : bool; pr_method : Z; pr_revocation_time : string; pr_reason : string;
  pr_checked_at : string; pr_lib_error : option LibErrorPB; pr_this_update : string; pr_next_update : string;
  pr_produced_at : string;
}.
Definition revocationPB (r : RevocationStatus) : RevocationPB :=
  mkRevocationPB (r_revoked r) (r_determinate r) (coreMethodPB (r_method r)) (rfc3339 (r_revocation_time r))
    (r_reason r) (rfc3339 (r_checked_at r)) (libErrorPB <$> r_lib_error r) (rfc3339 (r_this_update r))
    (rfc3339 (r_next_update r)) (rfc3339 (r_produced_at r)).
Definition signerRevocationPB (r : option RevocationStatus) : option RevocationPB :=
  match r with None => None | Some r => Some (revocationPB r) end.
(** [signerPB], [signersPB]. *)
Record SignerPB := mkSignerPB {
  psg_certificate : CertificatePB; psg_chain : list CertificatePB; psg_valid : bool; psg_signing_time : string;
  psg_sig_alg : string; psg_timestamp : option TimestampPB; psg_chain_complete : bool; psg_trust_anchor : bool;
  psg_chain_sigs : bool; psg_cades_level : string; psg_verify_info : string; psg_claims : option ClaimsPB;
  psg_revocation : option RevocationPB;
}.
Definition signerPB (s : Signer) : SignerPB :=
  mkSignerPB (certPB (sg_certificate s)) (certsPB (sg_chain s)) (sg_valid s) (rfc3339 (sg_signing_time s))
    (sg_sig_alg s) (timestampPB <$> sg_timestamp s) (sg_chain_complete s) (sg_trust_anchor s) (sg_chain_sigs s)
    (sg_cades s) (sg_verify_info s) (claimsPB <$> sg_claims s) (signerRevocationPB (sg_revocation s)).
Definition signersPB (ss : list Signer) : list SignerPB := map signerPB ss.
(** The responses, of a non-nil output. *)
Record SignResponse := mkSignResponse {
  prs_signature : string; prs_format : Z; prs_timestamp : option TimestampPB; prs_cades_level : string;
  prs_lib_error : option LibErrorPB;
}.
Definition signResponsePB (o : SignOutput) : SignResponse :=
  mkSignResponse (so_signature o) (coreFormatPB (so_format o)) (timestampPB <$> so_timestamp o) (so_cades o)
    (libErrorPB <$> so_lib_error o).
(** [verifyResponsePB]. *)
Record VerifyResponse := mkVerifyResponse {
  prv_valid : bool; prv_format : Z; prv_detached : bool; prv_signers : list SignerPB; prv_content : string;
  prv_warnings : list WarningPB; prv_lib_error : option LibErrorPB;
}.
Definition verifyResponsePB (o : VerifyOutput) : VerifyResponse :=
  mkVerifyResponse (vo_valid o) (coreFormatPB (vo_format o)) (vo_detached o) (signersPB (vo_signers o)) (vo_content o)
    (warningsPB (vo_warnings o)) (libErrorPB <$> vo_lib_error o).
(** [extractResponsePB]. *)
Record ExtractResponse := mkExtractResponse {
  pre_content : string; pre_detached : bool; pre_lib_error : option LibErrorPB;
}.
Definition extractResponsePB (o : ExtractOutput) : ExtractResponse :=
  mkExtractResponse (ex_content o) (ex_detached o) (libErrorPB <$> ex_lib_error o).
(** [certInfoResponsePB]. *)
Record CertInfoResponse := mkCertInfoResponse {
  pri_certificate : CertificatePB; pri_chain : list CertificatePB; pri_warnings : list WarningPB;
  pri_lib_error : option LibErrorPB; pri_claims : option ClaimsPB;
}.
Definition certInfoResponsePB (o : CertInfoOutput) : CertInfoResponse :=
  mkCertInfoResponse (certPB (co_certificate o)) (certsPB (co_chain o)) (warningsPB (co_warnings o))
    (libErrorPB <$> co_lib_error o) (claimsPB <$> co_claims o).
(** [certValidateResponsePB]. *)
Record CertValidateResponse := mkCertValidateResponse {
  prc_status : RevocationPB; prc_info : string; prc_ocsp_response : string; prc_warnings : list WarningPB;
  prc_lib_error : option LibErrorPB;
}.
Definition certValidateResponsePB (o : ValidateOutput) : CertValidateResponse :=
  mkCertValidateResponse (revocationPB (vao_status o)) (vao_info o) (vao_ocsp o) (warningsPB (vao_warnings o))
    (libErrorPB <$> vao_lib_error o).
(** [archiveResponsePB], the evidence laid flat. *)
Record ArchiveResponse := mkArchiveResponse {
  pra_signature : string; pra_level : string; pra_warnings : list WarningPB; pra_ocsp_responses : Z; pra_crls : Z;
  pra_certificates : Z;
}.
Definition archiveResponsePB (o : ArchiveOutput) : ArchiveResponse :=
  mkArchiveResponse (ar_signature o) (ar_level o) (warningsPB (ar_warnings o)) (int32 (ar_ocsp o)) (int32 (ar_crls o))
    (int32 (ar_certs o)).
(** historical.go: [verdictPB], [verifyAtResponsePB]. *)
Record VerdictPB := mkVerdictPB {
  pvd_at : string; pvd_valid_at : bool; pvd_determinate : bool; pvd_signature_valid : bool; pvd_within : bool;
  pvd_not_before : string; pvd_not_after : string; pvd_not_revoked : bool; pvd_revoked_as_of : bool;
  pvd_revocation_time : string; pvd_reason : string; pvd_method : Z; pvd_reasons : list string;
}.
Definition verdictPB (v : PointInTimeVerdict) : VerdictPB :=
  mkVerdictPB (rfc3339_of (pv_at v)) (pv_valid_at v) (pv_determinate v) (pv_signature_valid v) (pv_within v)
    (rfc3339 (pv_not_before v)) (rfc3339 (pv_not_after v)) (pv_not_revoked v) (pv_revoked_as_of v)
    (rfc3339 (pv_revocation_time v)) (pv_reason v) (coreMethodPB (pv_method v)) (pv_reasons v).
(** A signer at the instant. *)
Record SignerAtPB := mkSignerAtPB {
  psa_signer : SignerPB; psa_verdict : VerdictPB;
}.
Definition signerAtPB (s : SignerAt) : SignerAtPB :=
  mkSignerAtPB (signerPB (sa_signer s)) (verdictPB (sa_verdict s)).
(** [verifyAtResponsePB]. *)
Record VerifyAtResponse := mkVerifyAtResponse {
  prt_at : string; prt_valid_at : bool; prt_determinate : bool; prt_format : Z; prt_detached : bool;
  prt_signers : list SignerAtPB; prt_warnings : list WarningPB; prt_lib_error : option LibErrorPB;
}.
Definition verifyAtResponsePB (o : VerifyAtOutput) : VerifyAtResponse :=
  mkVerifyAtResponse (rfc3339_of (vat_at o)) (vat_valid_at o) (vat_determinate o) (coreFormatPB (vat_format o))
    (vat_detached o) (map signerAtPB (vat_signers o)) (warningsPB (vat_warnings o)) (libErrorPB <$> vat_lib_error o).

(** [batchItemErrorPB], [jobStatusPB], [batchSummary] and the items of the events. *)
Record ItemErrorPB := mkItemErrorPB { pe_kind : string; pe_code : string; pe_message : string; pe_action : string }.
Definition batchItemErrorPB (e : BatchItemError) : ItemErrorPB :=
  mkItemErrorPB (ie_kind e) (ie_code e) (ie_message e) (ie_action e).
Definition job_status_text (st : Jobs.Jobs.Status) : string :=
  match st with
  | Jobs.Jobs.StatusQueued => "queued" | Jobs.Jobs.StatusRunning => "running" | Jobs.Jobs.StatusSucceeded => "succeeded"
  | Jobs.Jobs.StatusFailed => "failed" | Jobs.Jobs.StatusCanceled => "canceled"
  end.
Record JobStatusPB := mkJobStatusPB {
  pj_id : string; pj_op : string; pj_status : string; pj_submitted : string; pj_started : string; pj_finished : string;
  pj_expires : string; pj_error : option ItemErrorPB;
}.
Definition jobStatusPB (v : Jobs.Jobs.View) : JobStatusPB :=
  mkJobStatusPB (Jobs.Jobs.w_id v) (Jobs.Jobs.w_op v) (job_status_text (Jobs.Jobs.w_status v)) (rfc3339_of (Jobs.Jobs.w_submitted v))
    (rfc3339 (Jobs.Jobs.w_started v)) (rfc3339 (Jobs.Jobs.w_finished v)) (rfc3339 (Jobs.Jobs.w_expires v))
    (batchItemErrorPB <$> Jobs.Jobs.w_error v).
Definition item_status_text (st : ItemStatus) : string :=
  match st with ItemOK => "ok" | ItemError => "error" | ItemSkipped => "skipped" end.
Inductive event (P : Type) :=
| EItem (index : Z) (status : string) (output : option P) (error : option ItemErrorPB)
| ESummary (total succeeded failed : Z).
Arguments EItem {P}. Arguments ESummary {P}.
Definition itemEvent {O P} (wrap : O -> P) (bi : BatchItem O) : event P :=
  EItem (int32 (Z.of_nat (it_index bi))) (item_status_text (it_status bi)) (wrap <$> it_output bi) (batchItemErrorPB <$> it_error bi).
Definition batchSummary {O P} (out : BatchOutput O) : event P :=
  ESummary (int32 (bo_total out)) (int32 (bo_succeeded out)) (int32 (bo_failed out)).

(** ** Errors *)
(** The status codes of the protocol. *)
Inductive code :=
| OK | Canceled | Unknown | InvalidArgument | DeadlineExceeded | NotFound | AlreadyExists | PermissionDenied
| ResourceExhausted | FailedPrecondition | Aborted | OutOfRange | Unimplemented | Internal | Unavailable | DataLoss
| Unauthenticated.
Global Instance code_eq_dec : EqDecision code.
Proof. solve_decision. Defined.
Record status := mkStatus { sx_code : code; sx_message : string }.
(** [grpcError]. *)
Definition code_for (k : option error_kind) : code :=
  match k with
  | Some KindInvalid => InvalidArgument
  | Some KindUnsupported => Unimplemented
  | Some KindUnavailable => Unavailable
  | Some KindCanceled => Canceled
  | _ => Internal
  end.
Definition grpcError (loc : Locale) (err : goerr) : status :=
  let exp := ExplainDomainIn loc err in
  mkStatus (code_for (as_domain err))
    (if empty_str (x_message exp) then err_text err
     else if empty_str (x_action exp) then x_message exp else x_message exp ++ " " ++ x_action exp)%string.
(** [jobGRPCError]. *)
Definition jobGRPCError (err : goerr) : status :=
  mkStatus
    (if errors_is err Jobs.Jobs.ErrNotFound then NotFound
     else if errors_is err Jobs.Jobs.ErrInvalidOp then InvalidArgument
     else if errors_is err Jobs.Jobs.ErrTooLarge then ResourceExhausted
     else if errors_is err Jobs.Jobs.ErrBusy then Unavailable
     else if errors_is err Jobs.Jobs.ErrNotReady then FailedPrecondition
     else Internal) (err_text err).

(** ** The interceptors of a unary call *)
(** [localeUnaryInterceptor], then [LocaleInterceptor]. *)
Definition localeUnaryInterceptor (defaultLocale : string) : Locale := ParseLocale defaultLocale.
Definition LocaleInterceptor (md : option (gmap string (list string))) (loc : Locale) : Locale :=
  let tag := HttpIdem.Grpc.metadataValue md "accept-language" in
  if empty_str tag then loc else ParseLocale tag.
(** [LocaleFrom] of a stream, which no interceptor has seen. *)
Definition stream_locale : Locale := LocaleEN.

(** ** The server *)
Record Server (W : Type) := mkServer { g_svc : Locale -> core_ops W; g_jobs : option (Server.jobs_api W) }.
Arguments g_svc {W}. Arguments g_jobs {W}. Arguments mkServer {W}.
(** [WithJobs], [New]. *)
Definition WithJobs {W} (m : Server.jobs_api W) (s : Server W) : Server W := mkServer (g_svc s) (Some m).
Definition New {W} (svc : Locale -> core_ops W) (opts : list (Server W -> Server W)) : Server W :=
  fold_left (fun s o => o s) opts (mkServer svc None).

Section Handlers.
  Context {W St : Type}.
  Variable s : Server W.
  Variable loc : Locale.
  Variable parse_time : string -> res goerr time.

(** The end of a unary call. *)
Definition unary {O P} (wrap : O -> P) (call : M W (O * option goerr)) : M W (res status P) :=
  (let* (out, err) := call in
   mret match err with Some e => Err (grpcError loc e) | None => Ok (wrap out) end)%m.
Definition Sign (q : SignRequest) := unary signResponsePB (op_sign (g_svc s loc) (signInputPB q)).
Definition Verify (q : VerifyRequest) := unary verifyResponsePB (op_verify (g_svc s loc) (verifyInputPB q)).
Definition Archive (q : ArchiveRequest) := unary archiveResponsePB (op_archive (g_svc s loc) (archiveInputPB q)).
Definition Extract (q : ExtractRequest) := unary extractResponsePB (op_extract (g_svc s loc) (extractInputPB q)).
Definition CertInfo (q : CertInfoRequest) := unary certInfoResponsePB (op_info (g_svc s loc) (certInfoInputPB q)).
Definition CertValidate (q : CertValidateRequest) := unary certValidateResponsePB (op_validate (g_svc s loc) (validateInputPB q)).
Definition VerifyAt (q : VerifyAtRequest) : M W (res status VerifyAtResponse) :=
  match verifyAtInputPB parse_time q with
  | Err e => mret (Err (grpcError loc e))
  | Ok i => unary verifyAtResponsePB (op_verify_at (g_svc s loc) i)
  end.

(** *** jobs.go *)
Definition jobsEnabled : option status :=
  match g_jobs s with None => Some (mkStatus Unimplemented "async jobs are disabled on this server") | Some _ => None end.
Definition with_jobs {A} (f : Server.jobs_api W -> M W (res status A)) : M W (res status A) :=
  match jobsEnabled, g_jobs s with
  | Some e, _ => mret (Err e)
  | None, Some j => f j
  | None, None => mlift Panic
  end.
Definition job_result {A B} (f : A -> B) (x : res goerr A) : res status B :=
  match x with Ok a => Ok (f a) | Err e => Err (jobGRPCError e) end.
Definition SubmitJob (op request callback : string) : M W (res status JobStatusPB) :=
  with_jobs (fun j => (let* v := Server.ja_submit j op request callback EmptyString in mret (job_result jobStatusPB v))%m).
Definition GetJob (id : string) : M W (res status JobStatusPB) :=
  with_jobs (fun j => (let* v := Server.ja_get j id in mret (job_result jobStatusPB v))%m).
Definition GetJobResult (id : string) : M W (res status (string * string)) :=
  with_jobs (fun j => (let* v := Server.ja_result j id in
                       mret (job_result (fun p => (job_status_text (snd p), fst p)) v))%m).
Definition CancelJob (id : string) : M W (res status JobStatusPB) :=
  with_jobs (fun j =>
    (let* e := Server.ja_cancel j id in
     match e with
     | Some e => mret (Err (jobGRPCError e))
     | None => let* v := Server.ja_get j id in mret (job_result jobStatusPB v)
     end)%m).
End Handlers.

(** *** batch.go *)
Section Streams.
  Context {W St P : Type}.
  Variable s : Server W.
  (** [stream.Send]. *)
  Variable send : event P -> St -> St * option goerr.

(** The sink, over the items in the order they complete: after a refused send
    it only lets the batch run on. *)
Fixpoint sink (events : list (event P)) : M (W * St) (option goerr) :=
  match events with
  | [] => mret None
  | e :: t =>
      (let* err := in_store (send e) in
       match err with Some _ => mret err | None => sink t end)%m
  end.
(** [streamBatch]. *)
Definition streamBatch {I O} (items : list I) (opts : BatchOptions) (run : batch_port W I O) (wrap : O -> P)
    : M (W * St) (option goerr) :=
  (let* (sunk, out) := in_world (run items opts) in
   let* sendErr := sink (map (itemEvent wrap) sunk) in
   match sendErr with
   | Some _ => mret sendErr
   | None => in_store (send (batchSummary out))
   end)%m.
End Streams.
Section Batches.
  Context {W St : Type}.
  Variable s : Server W.
Notation sender P := (event P -> St -> St * option goerr).
Definition SignBatch (send : sender SignResponse) (items : list SignRequest) policy concurrency :=
  streamBatch send (map signInputPB items) (batchOptsPB policy concurrency) (op_sign_batch (g_svc s stream_locale)) signResponsePB.
Definition VerifyBatch (send : sender VerifyResponse) (items : list VerifyRequest) policy concurrency :=
  streamBatch send (map verifyInputPB items) (batchOptsPB policy concurrency) (op_verify_batch (g_svc s stream_locale)) verifyResponsePB.
Definition ExtractBatch (send : sender ExtractResponse) (items : list ExtractRequest) policy concurrency :=
  streamBatch send (map extractInputPB items) (batchOptsPB policy concurrency) (op_extract_batch (g_svc s stream_locale)) extractResponsePB.
Definition CertInfoBatch (send : sender CertInfoResponse) (items : list CertInfoRequest) policy concurrency :=
  streamBatch send (map certInfoInputPB items) (batchOptsPB policy concurrency) (op_info_batch (g_svc s stream_locale)) certInfoResponsePB.
Definition CertValidateBatch (send : sender CertValidateResponse) (items : list CertValidateRequest) policy concurrency :=
  streamBatch send (map validateInputPB items) (batchOptsPB policy concurrency) (op_validate_batch (g_svc s stream_locale)) certValidateResponsePB.
End Batches.

(** ** The same operations as over a queue *)
(** The JSON request of the other transports that says what a message says. *)
Definition format_name (f : Z) : string := if f =? CMS then "cms" else if f =? XML then "xml" else "wsse".
Definition method_name (m : Z) : string := if m =? CRL then "crl" else "ocsp".
Definition encoding_name (e : Z) : string := if e =? DER then "der" else if e =? BASE64 then "base64" else "pem".
Definition known_format (f : Z) : bool := (f =? CMS) || (f =? XML) || (f =? WSSE).
Definition twin_sign (q : SignRequest) : Dto.SignRequest :=
  Dto.mkSignRequest EmptyString (format_name (gs_format q)) (gs_data q) (gs_data_path q) (gs_data_url q) (pbKeySpec (gs_key q))
    (gs_detached q) (gs_with_timestamp q) (gs_tsa_url q) (gs_no_check_cert_time q) (gs_input_pem q) (gs_output_pem q)
    (gs_node_id q) (gs_parent_node q) (gs_parent_namespace q) (gs_existing q).
Definition twin_verify (q : VerifyRequest) : Dto.VerifyRequest :=
  Dto.mkVerifyRequest (format_name (gv_format q)) (gv_signature q) (gv_data q) (gv_data_path q) (gv_data_url q) (gv_detached q)
    (gv_input_pem q) (gv_check_cert_time q) (gv_extract_content q) (gv_claims q) false false false (pbTrusted (gv_trusted q))
    (gv_revocation_check q) (method_name (gv_revocation_method q)) (gv_responder_url q) false.
Definition twin_archive (q : ArchiveRequest) : Dto.ArchiveRequest :=
  Dto.mkArchiveRequest (ga_signature q) (ga_input_pem q) (ga_data q) (ga_detached q) (ga_responder_url q) (ga_output_pem q)
    (pbTrusted (ga_trusted q)) (ga_allow_revoked q).
Definition twin_extract (q : ExtractRequest) : Dto.ExtractRequest :=
  Dto.mkExtractRequest (format_name (ge_format q)) (ge_signature q) (ge_data q).
Definition twin_info (q : CertInfoRequest) : Dto.CertInfoRequest :=
  Dto.mkCertInfoRequest (gi_cert q) (pbKeySpec (gi_key q)) (encoding_name (gi_encoding q)) (gi_build_chain q) (gi_validate q)
    (gi_claims q) (method_name (gi_method q)) (pbTrusted (gi_trusted q)).
Definition twin_validate (q : CertValidateRequest) : Dto.ValidateRequest :=
  Dto.mkValidateRequest (gc_cert q) (encoding_name (gc_encoding q)) (method_name (gc_method q)) (gc_want_ocsp q)
    (gc_responder_url q) (gc_crl q) (pbTrusted (gc_trusted q)).
Definition twin_verify_at (q : VerifyAtRequest) (at_ : time) : Dto.VerifyAtRequest :=
  Dto.mkVerifyAtRequest (twin_verify (gt_verify q)) at_ (method_name (gt_method q)) (gt_crl q) (gt_responder_url q).

Lemma format_twin f : known_format f = true -> Dto.parseFormat (format_name f) = Ok (pbFormat f).
Proof. unfold known_format, format_name, pbFormat. by destruct (f =? CMS), (f =? XML), (f =? WSSE). Qed.
Lemma method_twin m : Dto.method_of (method_name m) = pbMethod m.
Proof. unfold method_name, pbMethod. by destruct (m =? CRL). Qed.
Lemma parse_method_twin m : Dto.parseMethod (method_name m) = pbMethod m.
Proof. unfold method_name, pbMethod. by destruct (m =? CRL). Qed.
Lemma encoding_twin e : Dto.parseEncoding (encoding_name e) = pbEncoding e.
Proof. unfold encoding_name, pbEncoding. by destruct (e =? DER), (e =? BASE64). Qed.

(** The unary calls, and their replies. *)
Inductive rpc :=
| CallSign (q : SignRequest) | CallVerify (q : VerifyRequest) | CallVerifyAt (q : VerifyAtRequest) | CallArchive (q : ArchiveRequest)
| CallExtract (q : ExtractRequest) | CallInfo (q : CertInfoRequest) | CallValidate (q : CertValidateRequest).
Inductive reply :=
| RepSign (r : SignResponse) | RepVerify (r : VerifyResponse) | RepVerifyAt (r : VerifyAtResponse) | RepArchive (r : ArchiveResponse)
| RepExtract (r : ExtractResponse) | RepInfo (r : CertInfoResponse) | RepValidate (r : CertValidateResponse).
Definition op_of (c : rpc) : string :=
  match c with
  | CallSign _ => "sign" | CallVerify _ => "verify" | CallVerifyAt _ => "verify-at" | CallArchive _ => "archive"
  | CallExtract _ => "extract" | CallInfo _ => "cert-info" | CallValidate _ => "cert-validate"
  end.
(** The message names a format, where its operation takes one. *)
Definition known (c : rpc) : bool :=
  match c with
  | CallSign q => known_format (gs_format q) | CallVerify q => known_format (gv_format q)
  | CallVerifyAt q => known_format (gv_format (gt_verify q)) | CallExtract q => known_format (ge_format q)
  | _ => true
  end.

Section Agreement.
  Context {W : Type}.
  Variable s : Server W.
  Variable loc : Locale.
  Variable parse_time : string -> res goerr time.
  Variable dec : decoders.
Definition tagged {A} (f : A -> reply) (m : M W (res status A)) : M W (res status reply) :=
  (let* r := m in mret match r with Ok a => Ok (f a) | Err e => Err e end)%m.
Definition call_rpc (c : rpc) : M W (res status reply) :=
  match c with
  | CallSign q => tagged RepSign (Sign s loc q)
  | CallVerify q => tagged RepVerify (Verify s loc q)
  | CallVerifyAt q => tagged RepVerifyAt (VerifyAt s loc parse_time q)
  | CallArchive q => tagged RepArchive (Archive s loc q)
  | CallExtract q => tagged RepExtract (Extract s loc q)
  | CallInfo q => tagged RepInfo (CertInfo s loc q)
  | CallValidate q => tagged RepValidate (CertValidate s loc q)
  end.
(** The payload of a queue message that says the same. *)
Definition says (payload : string) (c : rpc) : Prop :=
  match c with
  | CallSign q => de_sign dec payload = Some (twin_sign q)
  | CallVerify q => de_verify dec payload = Some (twin_verify q)
  | CallVerifyAt q => exists t, parse_time (gt_at q) = Ok t /\ de_verify_at dec payload = Some (twin_verify_at q t)
  | CallArchive q => de_archive dec payload = Some (twin_archive q)
  | CallExtract q => de_extract dec payload = Some (twin_extract q)
  | CallInfo q => de_info dec payload = Some (twin_info q)
  | CallValidate q => de_validate dec payload = Some (twin_validate q)
  end.
Definition reply_of (o : output) : option reply :=
  match o with
  | OSign o => Some (RepSign (signResponsePB o)) | OVerify o => Some (RepVerify (verifyResponsePB o))
  | OVerifyAt o => Some (RepVerifyAt (verifyAtResponsePB o)) | OArchive o => Some (RepArchive (archiveResponsePB o))
  | OExtract o => Some (RepExtract (extractResponsePB o)) | OInfo o => Some (RepInfo (certInfoResponsePB o))
  | OValidate o => Some (RepValidate (certValidateResponsePB o)) | _ => None
  end.
Definition same (x : res goerr output) (y : res status reply) : Prop :=
  match x with Ok o => exists r, reply_of o = Some r /\ y = Ok r | Err e => y = Err (grpcError loc e) end.

Lemma unary_agrees {R I O P} (de : string -> option R) conv (call : I -> M W (O * option goerr)) wrap (pb : O -> P) f name payload v i w w' x :
  de payload = Some v -> conv v = Ok i -> (forall o, reply_of (wrap o) = Some (f (pb o))) ->
  single de conv call wrap name payload w = Done (w', x) ->
  exists y, tagged f (unary loc pb (call i)) w = Done (w', y) /\ same x y.
Proof.
  intros Hd Hc Hw. unfold single. rewrite Hd, Hc. intros (w1 & [o err] & Ho & [-> ->]%mret_done)%mbind_done.
  unfold tagged, unary, mbind_. rewrite Ho. eexists. split; [reflexivity|]. destruct err; cbn; [done|eauto].
Qed.

(** C18: A unary call does what the router does for the request in JSON: the same
    operation on the same input in the same world, and the reply is the output,
    or the status the error. *)
Theorem grpc_dispatch_agree c payload w w' x :
  known c = true -> says payload c -> Handle (g_svc s loc) dec (op_of c) payload w = Done (w', x) ->
  exists y, call_rpc c w = Done (w', y) /\ same x y.
Proof.
  destruct c as [q|q|q|q|q|q|q]; cbn [known says op_of call_rpc]; intros Hk Hs Hx.
  - eapply unary_agrees; [exact Hs| | |exact Hx]; [|done]. unfold Dto.sign_ToCore, twin_sign. cbn. by rewrite format_twin, orb_true_r.
  - eapply unary_agrees; [exact Hs| | |exact Hx]; [|done]. unfold Dto.verify_ToCore, twin_verify. cbn. by rewrite format_twin, method_twin.
  - destruct Hs as (t & Ht & Hs). unfold VerifyAt, verifyAtInputPB. rewrite Ht.
    eapply unary_agrees; [exact Hs| | |exact Hx]; [|done]. unfold Dto.verify_at_ToCore, Dto.verify_ToCore, twin_verify_at, twin_verify. cbn.
    by rewrite format_twin, method_twin, parse_method_twin.
  - eapply unary_agrees; [exact Hs| | |exact Hx]; done.
  - eapply unary_agrees; [exact Hs| | |exact Hx]; [|done]. unfold Dto.extract_ToCore, twin_extract. cbn. by rewrite format_twin.
  - eapply unary_agrees; [exact Hs| | |exact Hx]; [|done]. unfold info_conv, Dto.CertInfoToCore, twin_info. cbn.
    by rewrite encoding_twin, parse_method_twin.
  - eapply unary_agrees; [exact Hs| | |exact Hx]; [|done]. unfold validate_conv, Dto.ValidateToCore, twin_validate. cbn.
    by rewrite encoding_twin, parse_method_twin.
Qed.
End Agreement.

(** ** Streams *)
Lemma int32_id z : - 2 ^ 31 <= z < 2 ^ 31 -> int32 z = z.
Proof. intros Hz. unfold int32. rewrite Z.mod_small; lia. Qed.
Section StreamProofs.
  Context {W St P I O : Type}.
  Variable send : event P -> St -> St * option goerr.
  (** What the peer is sent; a refused event is not. *)
  Variable sent : St -> list (event P).
  Hypothesis send_law : forall e st st' r, send e st = (st', r) ->
    sent st' = sent st ++ match r with None => [e] | Some _ => [] end.
  Variable run : batch_port W I O.
  Variable wrap : O -> P.

Lemma sink_sent events (w w' : W) st st' r : sink send events (w, st) = Done ((w', st'), r) ->
  w' = w /\ exists pre rest, events = pre ++ rest /\ sent st' = sent st ++ pre /\ (r = None -> rest = []) /\ (r <> None -> rest <> []).
Proof.
  revert st r. induction events as [|e t IH]; intros st r; cbn [sink].
  - intros [[= <- <-] ->]%mret_done. split; [done|]. exists [], []. rewrite !app_nil_r. split_and!; congruence.
  - intros ([w1 st1] & err & [-> Hs]%in_store_done & HR)%mbind_done. apply send_law in Hs. destruct err as [x|].
    + apply mret_done in HR as [[= <- <-] ->]. split; [done|]. exists [], (e :: t). split_and!; [done|exact Hs|done|done].
    + apply IH in HR as (-> & pre & rest & -> & Hp & Hn & Hr). split; [done|]. exists (e :: pre), rest.
      rewrite Hp, Hs, <- app_assoc. split_and!; auto.
Qed.

(** A streamed batch that ends well has sent an event for every item that ran, in
    the order they completed, and then one summary with the exact counts; one
    that fails has sent a proper prefix of that. The batch itself runs to its end
    either way. *)
Theorem stream_complete items opts w st w' st' r :
  run_law run -> Z.of_nat (length items) < 2 ^ 31 ->
  streamBatch send items opts run wrap (w, st) = Done ((w', st'), r) ->
  exists sunk out, run items opts w = Done (w', (sunk, out)) /\ sunk ≡ₚ filter ran (bo_results out) /\
    let events := map (itemEvent wrap) sunk ++
      [ESummary (Z.of_nat (length items)) (counted ItemOK (bo_results out)) (counted ItemError (bo_results out))] in
    match r with
    | None => sent st' = sent st ++ events
    | Some _ => exists pre e rest, events = pre ++ e :: rest /\ sent st' = sent st ++ pre
    end.
Proof.
  intros Hlaw Hn. unfold streamBatch.
  intros ([w1 st1] & [sunk out] & [-> Hrun]%in_world_done & HR)%mbind_done.
  destruct (Hlaw _ _ _ _ _ _ Hrun) as (Hlen & Hperm & Ht & Hok & Herr).
  assert (batchSummary (P := P) out =
    ESummary (Z.of_nat (length items)) (counted ItemOK (bo_results out)) (counted ItemError (bo_results out))) as Esum.
  { assert (forall x, 0 <= counted x (bo_results out) < 2 ^ 31) as Hc.
    { intros x. unfold counted. pose proof (length_filter (fun it => it_status it = x) (bo_results out)). lia. }
    unfold batchSummary. rewrite Ht, Hok, Herr, !int32_id; [done|..]; first [pose proof (Hc ItemOK); pose proof (Hc ItemError)]; lia. }
  apply mbind_done in HR as ([w2 st2] & e & Hsink & HR). apply sink_sent in Hsink as (-> & pre & rest & Hev & Hs & Hnone & Hsome).
  exists sunk, out. destruct e as [e|].
  - apply mret_done in HR as [[= -> ->] ->]. split; [done|]. split; [done|].
    destruct rest as [|x rest]; [by destruct Hsome|]. exists pre, x, (rest ++ [ESummary (Z.of_nat (length items))
      (counted ItemOK (bo_results out)) (counted ItemError (bo_results out))]). by rewrite Hev, <- app_assoc.
  - rewrite (Hnone eq_refl), app_nil_r in Hev. apply in_store_done in HR as [-> HR]. split; [done|]. split; [done|].
    apply send_law in HR. rewrite HR, Hs, Esum, Hev. destruct r as [e|]; [|by rewrite <- app_assoc].
    eexists pre, _, []. split; [reflexivity|]. by rewrite app_nil_r.
Qed.
End StreamProofs.

(** ** Statuses *)
(** The HTTP status of a failed operation and its gRPC code say the same. *)
Definition http_code (s : Z) : code :=
  if s =? 400 then InvalidArgument else if s =? 501 then Unimplemented else if s =? 503 then Unavailable
  else if s =? 408 then Canceled else Internal.
Theorem statuses_agree loc e : sx_code (grpcError loc e) = http_code (Server.statusFor (Server.kindOf e)).
Proof. unfold grpcError, Server.kindOf. cbn. by destruct (as_domain e) as [[]|]. Qed.
(** Without the job service every job call is refused, and none is a panic. *)
Lemma jobs_disabled {W A} (s : Server W) (f : Server.jobs_api W -> M W (res status A)) w : g_jobs s = None ->
  with_jobs s f w = Done (w, Err (mkStatus Unimplemented "async jobs are disabled on this server")).
Proof. unfold with_jobs, jobsEnabled. by intros ->. Qed.

(** ** A concrete server *)
Definition lab_server : Server unit := New (fun _ => lab_ops) [].
Definition lab_validate_message (cert : string) : CertValidateRequest := mkCertValidateRequest cert PEM OCSP false "" "" [].
Definition lab_grpc_dec : decoders :=
  mkDecoders (fun _ => None) (fun _ => None) (fun _ => None) (fun _ => None) (fun _ => None) (fun _ => None)
    (fun p => Some (twin_validate (lab_validate_message p))) (fun _ => None) (fun _ => None) (fun _ => None) (fun _ => None) (fun _ => None).
Definition lab_time (_ : string) : res goerr time := Err (Errors.New "no time").
Lemma grpc_dispatch_agree_witness :
  exists o, Handle lab_ops lab_grpc_dec "cert-validate" "C" tt = Done (tt, Ok (OValidate o)) /\
    call_rpc lab_server LocaleEN lab_time (CallValidate (lab_validate_message "C")) tt =
      Done (tt, Ok (RepValidate (certValidateResponsePB o))).
Proof.
  assert (Handle lab_ops lab_grpc_dec "cert-validate" "C" tt =
    Done (tt, Ok (OValidate (mkValidateOutput empty_revocation "" "" [] None)))) as E by reflexivity.
  eexists. split; [exact E|].
  destruct (grpc_dispatch_agree lab_server LocaleEN lab_time lab_grpc_dec (CallValidate (lab_validate_message "C")) "C" tt tt _
              eq_refl eq_refl E) as (y & Hy & r & Hr & ->).
  injection Hr as <-. exact Hy.
Defined.

(** A stream whose peer takes one event and goes. *)
Definition lab_send (e : event CertValidateResponse) (st : list (event CertValidateResponse)) :=
  match st with [] => ([e], None) | _ => (st, Some (Errors.New "EOF")) end.
Lemma lab_send_law e st st' r : lab_send e st = (st', r) -> st' = st ++ match r with None => [e] | Some _ => [] end.
Proof. destruct st; intros [= <- <-]; [done|by rewrite app_nil_r]. Qed.
Definition lab_items : list ValidateInput :=
  [validateInputPB (lab_validate_message "C"); validateInputPB (lab_validate_message "")].
Definition lab_batch : outcome (unit * list (event CertValidateResponse) * option goerr) :=
  streamBatch lab_send lab_items (batchOptsPB "" 0)
    (op_validate_batch lab_ops) certValidateResponsePB (tt, []).
Lemma stream_complete_witness :
  exists st', lab_batch = Done ((tt, st'), Some (Errors.New "EOF")) /\ length st' = 1%nat.
Proof.
  assert (exists st', lab_batch = Done ((tt, st'), Some (Errors.New "EOF"))) as [st' E] by (eexists; vm_compute; reflexivity).
  exists st'. split; [exact E|].
  destruct (stream_complete lab_send id lab_send_law (op_validate_batch lab_ops) certValidateResponsePB lab_items (batchOptsPB "" 0) tt [] tt st' _
              (bl_validate _ lab_laws) ltac:(done) E) as (sunk & out & Hrun & _ & pre & e & rest & Hev & Hs).
  vm_compute in E. injection E as <-. reflexivity.
Defined.

End GrpcServer.
