(* ===== verification/Metrics.v ===== *)
(** * Metrics (internal/metrics/metrics.go, instrument.go, the HTTP wiring of
    cmd/qoltanba/main.go)

    The counters and what the instrumentation of a request reads. A request is an
    object the layers of the server share by reference: the routers write the
    pattern they matched into the one they are given, and the language layer gives
    the next layer a copy. The Prometheus registry is modelled by the series it
    holds and the sources read at a scrape. *)
From S2P Require Import Prelude Text Provider CoreTypes Dispatch HttpIdem RestServer GrpcServer.
Import Server.

Module Metrics.

(** ** Labels *)
Fixpoint trim_left_slashes (s : string) : string :=
  match s with String c t => if Ascii.eqb c "/" then trim_left_slashes t else s | EmptyString => EmptyString end.
(** From the first slash, if there is one. *)
Fixpoint from_slash (s : string) : option string :=
  match s with EmptyString => None | String c t => if Ascii.eqb c "/" then Some s else from_slash t end.
Definition slash_to_dot (c : ascii) : ascii := if Ascii.eqb c "/" then "."%char else c.
(** [opFromPattern]. *)
Definition opFromPattern (pattern : string) : string :=
  if empty_str pattern then "unknown"
  else string_map slash_to_dot (trim_slashes (trim_left_slashes (default pattern (from_slash pattern)))).
(** Behind the last slash. *)
Definition after_last_slash (s : string) : string := default EmptyString (last (split "/" s)).
(** [opFromGRPCMethod], [outcomeForStatus], [grpcOutcome]. *)
Definition opFromGRPCMethod (full : string) : string :=
  let m := after_last_slash full in if empty_str m then "unknown" else to_lower m.
Definition outcomeForStatus (code : Z) : string :=
  if code <? 400 then "ok" else if code <? 500 then "client_error" else "server_error".
Definition code_name (c : GrpcServer.code) : string :=
  match c with
  | GrpcServer.OK => "OK" | GrpcServer.Canceled => "Canceled" | GrpcServer.Unknown => "Unknown"
  | GrpcServer.InvalidArgument => "InvalidArgument" | GrpcServer.DeadlineExceeded => "DeadlineExceeded"
  | GrpcServer.NotFound => "NotFound" | GrpcServer.AlreadyExists => "AlreadyExists"
  | GrpcServer.PermissionDenied => "PermissionDenied" | GrpcServer.ResourceExhausted => "ResourceExhausted"
  | GrpcServer.FailedPrecondition => "FailedPrecondition" | GrpcServer.Aborted => "Aborted" | GrpcServer.OutOfRange => "OutOfRange"
  | GrpcServer.Unimplemented => "Unimplemented" | GrpcServer.Internal => "Internal" | GrpcServer.Unavailable => "Unavailable"
  | GrpcServer.DataLoss => "DataLoss" | GrpcServer.Unauthenticated => "Unauthenticated"
  end.
Definition grpcOutcome {A} (r : res GrpcServer.status A) : string :=
  match r with Ok _ => "ok" | Err e => to_lower (code_name (GrpcServer.sx_code e)) end.

(** ** The recorder *)
(** A sample: the name of its family, the labels, the value. *)
Record sample := mkSample { sm_family : string; sm_labels : list (string * string); sm_value : Z }.
Section Recorder.
  Context {W : Type}.
(** The counters by transport, operation and outcome, the latencies by
    transport and operation, and the sources that are bound. *)
Record Recorder := mkRecorder {
  rc_requests : gmap (string * string * string) Z;
  rc_duration : gmap (string * string) (list duration);
  rc_bound : list (W -> list sample);
}.
Definition New : Recorder := mkRecorder ∅ ∅ [].
(** [Observe]; [None] is the nil recorder. *)
Definition Observe (r : option Recorder) (transport op outcome : string) (d : duration) : option Recorder :=
  match r with
  | None => None
  | Some r =>
      let k := (transport, op, outcome) in
      let l := (transport, op) in
      Some (mkRecorder (<[k := default 0 (rc_requests r !! k) + 1]> (rc_requests r))
              (<[l := default [] (rc_duration r !! l) ++ [d]]> (rc_duration r)) (rc_bound r))
  end.
(** The bindings; a nil source is not bound. *)
Definition bind (r : option Recorder) (source : option (W -> list sample)) : option Recorder :=
  match r, source with
  | Some r, Some f => Some (mkRecorder (rc_requests r) (rc_duration r) (rc_bound r ++ [f]))
  | r, _ => r
  end.
Definition gauge (name : string) (count : W -> Z) : W -> list sample := fun w => [mkSample name [] (count w)].
(** [poolCollector.Collect]. *)
Definition pool_samples (inUse size : Z) : list sample :=
  let idle := size - inUse in
  let idle := if idle <? 0 then 0 else idle in
  [mkSample "qoltanba_pool_workers" [("state", "busy")] inUse; mkSample "qoltanba_pool_workers" [("state", "idle")] idle]%string.
Definition BindPool (r : option Recorder) (stats : option (W -> Z * Z)) :=
  bind r ((fun (f : W -> Z * Z) w => let (inUse, size) := f w in pool_samples inUse size) <$> stats).
Definition BindTrust (r : option Recorder) (count : option (W -> Z)) := bind r (gauge "qoltanba_trust_anchors" <$> count).
(** [crlCollector.Collect]. *)
Definition hit_samples (name : string) (hits misses : Z) : list sample :=
  [mkSample name [("result", "hit")] hits; mkSample name [("result", "miss")] misses]%string.
Definition hit_source (name : string) (f : W -> Z * Z) : W -> list sample := fun w => let (h, m) := f w in hit_samples name h m.
Definition BindCRL (r : option Recorder) (stats : option (W -> Z * Z)) := bind r (hit_source "qoltanba_crl_cache_total" <$> stats).
Definition BindOCSPCache (r : option Recorder) (stats : option (W -> Z * Z)) := bind r (hit_source "qoltanba_ocsp_cache_total" <$> stats).
Definition BindOIDC (r : option Recorder) (count : option (W -> Z)) := bind r (gauge "qoltanba_oidc_challenges" <$> count).
Definition BindChallenges (r : option Recorder) (count : option (W -> Z)) := bind r (gauge "qoltanba_challenges" <$> count).
Definition BindMultisign (r : option Recorder) (count : option (W -> Z)) := bind r (gauge "qoltanba_multisign_sessions" <$> count).
Definition BindQR (r : option Recorder) (count : option (W -> Z)) := bind r (gauge "qoltanba_qr_sessions" <$> count).
(** [CertWatchState], [certWatchCollector.Collect]; an expiry in nanoseconds. *)
Record CertWatchState := mkCertWatchState {
  cw_file : string; cw_subject : string; cw_expires_in : duration; cw_has_expiry : bool; cw_revoked : bool; cw_failed : bool;
}.
Definition boolGauge (b : bool) : Z := if b then 1 else 0.
Definition watch_samples (s : CertWatchState) : list sample :=
  let labels := [("file", cw_file s); ("subject", cw_subject s)]%string in
  (if cw_has_expiry s then [mkSample "qoltanba_watched_cert_expiry_seconds" labels (cw_expires_in s)] else []) ++
  [mkSample "qoltanba_watched_cert_revoked" labels (boolGauge (cw_revoked s));
   mkSample "qoltanba_watched_cert_check_ok" labels (boolGauge (negb (cw_failed s)))].
Definition BindCertWatch (r : option Recorder) (states : option (W -> list CertWatchState)) :=
  bind r ((fun (f : W -> list CertWatchState) w => concat (map watch_samples (f w))) <$> states).
(** [cryptoWorkerCollector.Collect]. *)
Definition worker_samples (spawns crashes recycles timeouts hotSwaps : Z) : list sample :=
  map (fun p => mkSample "qoltanba_crypto_worker_total" [("event"%string, fst p)] (snd p))
    [("spawn", spawns); ("crash", crashes); ("recycle", recycles); ("timeout", timeouts); ("hotswap", hotSwaps)]%string.
Definition BindCryptoWorker (r : option Recorder) (stats : option (W -> Z * Z * Z * Z * Z)) :=
  bind r ((fun (f : W -> Z * Z * Z * Z * Z) w => let '(s, c, rc, t, h) := f w in worker_samples s c rc t h) <$> stats).
(** What a scrape of the bound sources returns; the nil recorder serves 404. *)
Definition scrape (r : option Recorder) (w : W) : option (list sample) :=
  (fun r => concat (map (fun f => f w) (rc_bound r))) <$> r.
End Recorder.
Arguments Recorder : clear implicits.

(** ** The status of a response *)
(** The calls on a response writer. *)
Inductive wcall := WriteHeader (code : Z) | Write.
(** [statusRecorder]. *)
Record statusRecorder := mkStatusRecorder { sr_status : Z; sr_wrote : bool }.
Definition record_call (s : statusRecorder) (c : wcall) : statusRecorder :=
  match c with
  | WriteHeader code => if sr_wrote s then s else mkStatusRecorder code true
  | Write => mkStatusRecorder (sr_status s) true
  end.
Definition recorded (calls : list wcall) : Z := sr_status (fold_left record_call calls (mkStatusRecorder 200 false)).
(** The status the server sends: the first final one, 200 when the body comes
    first or nothing does. *)
Definition informational (code : Z) : bool := (100 <=? code) && (code <=? 199) && negb (code =? 101).
Fixpoint sent_status (calls : list wcall) : Z :=
  match calls with
  | [] => 200
  | WriteHeader c :: t => if informational c then sent_status t else c
  | Write :: _ => 200
  end.

(** ** The layers of the server *)
(** A request; the pattern is what a router wrote last. *)
Record hreq := mkHReq { q_method : string; q_path : string; q_lang : string; q_pattern : string }.
Notation heap := (list hreq).
Definition with_pattern (p : string) (q : hreq) : hreq := mkHReq (q_method q) (q_path q) (q_lang q) p.
Definition empty_request : hreq := mkHReq EmptyString EmptyString EmptyString EmptyString.
Definition read_request (l : nat) : M heap hreq := fun h => Done (h, default empty_request (h !! l)).
Definition set_pattern (l : nat) (p : string) : M heap unit := fun h => Done (alter (with_pattern p) l h, tt).
Definition new_request (q : hreq) : M heap nat := fun h => Done (h ++ [q], length h).
Notation handler := (nat -> M heap (list wcall)).

Definition segment_text (s : segment) : string := match s with Lit w => w | Val n => ("{" ++ n ++ "}")%string end.
Definition pattern_text (p : pattern) : string := (fst p ++ " /" ++ concat_with "/" (map segment_text (snd p)))%string.
Definition takes (q : hreq) (p : pattern) : bool :=
  method_matches (fst p) (q_method q) && match match_segments (snd p) (path_segments (q_path q)) with Some _ => true | None => false end.
(** A router writes the pattern it matched, or none. *)
Definition serve_mux (routes : list (pattern * handler)) : handler := fun l =>
  (let* q := read_request l in
   match find (fun r => takes q (fst r)) routes with
   | Some (p, h) => let* _ := set_pattern l (pattern_text p) in h l
   | None => let* _ := set_pattern l EmptyString in mret [WriteHeader 404; Write]
   end)%m.
(** [withLocale]: [WithContext] copies the request. *)
Definition withLocale (next : handler) : handler := fun l =>
  (let* q := read_request l in
   if empty_str (q_lang q) then next l else let* l' := new_request q in next l')%m.

Section Instrumented.
  Context {W : Type}.
(** [InstrumentHTTP]: the pattern is read when the handler is done, from the
    request this layer was given. *)
Definition InstrumentHTTP (transport : string) (d : duration) (next : handler) (l : nat) : M (heap * option (Recorder W)) (list wcall) :=
  (let* calls := in_world (next l) in
   let* q := in_world (read_request l) in
   let* _ := in_store (fun r => (Observe r transport (opFromPattern (q_pattern q)) (outcomeForStatus (recorded calls)) d, tt)) in
   mret calls)%m.
(** The outer router: the health paths, then everything else under the pattern
    of the root. *)
Definition health_paths : list string := ["/healthz"; "/readyz"; "/statusz"; "/metrics"]%string.
Definition is_health (q : hreq) : bool := method_matches "GET" (q_method q) && existsb (str_eqb (q_path q)) health_paths.
Definition work (obs : handler) (d : duration) (routes : list (pattern * handler)) (l : nat) : M (heap * option (Recorder W)) (list wcall) :=
  (let* q := in_world (read_request l) in
   if is_health q then
     let* _ := in_world (set_pattern l ("GET " ++ q_path q)) in in_world (obs l)
   else
     let* _ := in_world (set_pattern l "/") in
     InstrumentHTTP "rest" d (withLocale (serve_mux routes)) l)%m.
(** [UnaryInterceptor]. *)
Definition UnaryInterceptor {V A} (full : string) (d : duration) (call : M V (res GrpcServer.status A))
    : M (V * option (Recorder W)) (res GrpcServer.status A) :=
  (let* r := in_world call in
   let* _ := in_store (fun rec => (Observe rec "grpc" (opFromGRPCMethod full) (grpcOutcome r) d, tt)) in
   mret r)%m.
End Instrumented.

(** ** What is counted *)
Lemma recorded_done calls st : fold_left record_call calls (mkStatusRecorder st true) = mkStatusRecorder st true.
Proof. induction calls as [|[]]; done. Qed.
(** The status that is counted is the one the client gets, unless the handler
    sends an informational one first. *)
Lemma recorded_sent calls : (forall c, WriteHeader c ∈ calls -> informational c = false) -> recorded calls = sent_status calls.
Proof.
  intros Hi. unfold recorded. destruct calls as [|[c|] t]; [done|..]; cbn.
  - rewrite (Hi c) by left. by rewrite recorded_done.
  - by rewrite recorded_done.
Qed.

(** The pattern a router finds for a request. *)
Definition matched {A} (routes : list (pattern * A)) (q : hreq) : string :=
  match find (fun r => takes q (fst r)) routes with Some (p, _) => pattern_text p | None => EmptyString end.
Definition keeps_requests (h : handler) : Prop := forall l hp hp' c, h l hp = Done (hp', c) -> hp' = hp.

Section Counted.
  Context {W : Type}.
  Variable obs : handler.
  Variable routes : list (pattern * handler).
  Hypothesis handlers_keep : forall p h, (p, h) ∈ routes -> keeps_requests h.

Lemma serve_mux_pattern l q hp hp' c : hp !! l = Some q -> serve_mux routes l hp = Done (hp', c) ->
  hp' = alter (with_pattern (matched routes q)) l hp.
Proof.
  intros Hq. unfold serve_mux, matched, mbind_, read_request. rewrite Hq. cbn.
  destruct (find _ routes) as [[p h]|] eqn:Ef; cbn; [|by intros [= <- _]].
  intros Hh. apply find_some in Ef as [Hin _]. eapply handlers_keep; [|exact Hh]. by apply list_elem_of_In.
Qed.

Lemma withLocale_pattern l q hp hp' c : hp !! l = Some q -> withLocale (serve_mux routes) l hp = Done (hp', c) ->
  q_pattern (default empty_request (hp' !! l)) = if empty_str (q_lang q) then matched routes q else q_pattern q.
Proof.
  intros Hq (h1 & q1 & H1 & HR)%mbind_done. unfold read_request in H1. rewrite Hq in H1. injection H1 as <- <-.
  cbn [default] in HR. unfold from_option, id in HR. destruct (empty_str (q_lang q)).
  - apply (serve_mux_pattern _ _ _ _ _ Hq) in HR as ->. by rewrite list_lookup_alter_eq, Hq.
  - apply mbind_done in HR as (h2 & l2 & [= <- <-] & HR).
    eapply serve_mux_pattern in HR; [|by apply list_lookup_middle].
    subst hp'. rewrite list_lookup_alter_ne by (apply lookup_lt_Some in Hq; lia).
    rewrite lookup_app_l by by eapply lookup_lt_Some. by rewrite Hq.
Qed.
(** Every request that is not a health check is counted once, under the route
    it was given to - but one that names a language is counted under no operation
    at all, since the routers below wrote their match into a copy. *)
Theorem http_counted l q hp (rec : Recorder W) d hp' rec' calls :
  hp !! l = Some q -> is_health q = false ->
  work obs d routes l (hp, Some rec) = Done ((hp', rec'), calls) ->
  rec' = Observe (Some rec) "rest" (if empty_str (q_lang q) then opFromPattern (matched routes q) else EmptyString)
           (outcomeForStatus (recorded calls)) d.
Proof.
  intros Hq Hh. unfold work. intros ([h1 r1] & q1 & [-> H1]%in_world_done & HR)%mbind_done.
  unfold read_request in H1. rewrite Hq in H1. injection H1 as <- <-. rewrite Hh in HR.
  apply mbind_done in HR as ([h2 r2] & u & [-> H2]%in_world_done & HR). injection H2 as <- _.
  unfold InstrumentHTTP in HR.
  apply mbind_done in HR as ([h3 r3] & calls1 & [-> Hn]%in_world_done & HR).
  apply mbind_done in HR as ([h4 r4] & q4 & [-> H4]%in_world_done & HR). injection H4 as <- <-.
  apply mbind_done in HR as ([h5 r5] & u5 & [-> H5]%in_store_done & HR).
  apply mret_done in HR as [[= -> ->] ->]. apply pair_equal_spec in H5 as [<- _].
  assert (Hl : alter (with_pattern "/") l hp !! l = Some (with_pattern "/" q)) by by rewrite list_lookup_alter_eq, Hq.
  rewrite (withLocale_pattern _ _ _ _ _ Hl Hn). cbn [q_lang q_pattern with_pattern]. by destruct (empty_str (q_lang q)).
Qed.
End Counted.

(** The operation labels do not grow with the requests: there is one for each
    route, and one for what no route takes. *)
Lemma labels_bounded {A} (routes : list (pattern * A)) q :
  opFromPattern (matched routes q) ∈ ("unknown"%string :: map (fun r => opFromPattern (pattern_text (fst r))) routes).
Proof.
  unfold matched. destruct (find _ routes) as [[p h]|] eqn:Ef; [|by left].
  apply find_some in Ef as [Hin _]. right. apply list_elem_of_In. apply in_map_iff. by exists (p, h).
Qed.
(** The idle workers of a scrape are the rest of the pool, never less than none,
    also for a pool that reports more workers in use than it has. *)
Lemma pool_gauges inUse size : map sm_value (pool_samples inUse size) = [inUse; Z.max 0 (size - inUse)].
Proof. unfold pool_samples. destruct (Z.ltb_spec (size - inUse) 0); cbn; do 2 f_equal; lia. Qed.

(** ** A concrete server *)
(** The routes of the core operations and of the jobs, each answered with 200. *)
Definition lab_routes : list (pattern * handler) :=
  map (fun p => (p, fun _ => mret [WriteHeader 200; Write]))
    [("POST", [Lit "sign"]); ("POST", [Lit "cert"; Lit "info"]); ("GET", [Lit "jobs"; Val "id"])]%string.
Definition lab_obs : handler := fun _ => mret [WriteHeader 200].
Lemma lab_keep p h : (p, h) ∈ lab_routes -> keeps_requests h.
Proof.
  intros Hin l hp hp' c. unfold lab_routes in Hin. cbn in Hin. rewrite !elem_of_cons, elem_of_nil in Hin.
  destruct Hin as [[= _ ->]|[[= _ ->]|[[= _ ->]|[]]]]; by intros [= <- _].
Qed.
Definition lab_request (lang : string) : hreq := mkHReq "POST" "/cert/info" lang "".
Definition lab_serve (lang : string) : outcome (heap * option (Recorder unit) * list wcall) :=
  work lab_obs 7 lab_routes 0 ([lab_request lang], Some New).
Definition lab_requests (lang : string) : gmap (string * string * string) Z :=
  match lab_serve lang with Done ((_, Some r), _) => rc_requests r | _ => ∅ end.
(** The same call, without and with a language. *)
Example localized_uncounted :
  lab_requests "" = {[("rest", "cert.info", "ok") := 1]}%string /\ lab_requests "ru" = {[("rest", "", "ok") := 1]}%string.
Proof. split; vm_compute; reflexivity. Qed.
Lemma http_counted_witness :
  exists hp r calls, lab_serve "ru" = Done ((hp, r), calls) /\ r = Observe (Some New) "rest" "" "ok" 7.
Proof.
  assert (exists hp r calls, lab_serve "ru" = Done ((hp, r), calls) /\ calls = [WriteHeader 200; Write]) as (hp & r & calls & E & ->)
    by (do 3 eexists; split; vm_compute; reflexivity).
  exists hp, r, [WriteHeader 200; Write]. split; [exact E|].
  exact (http_counted lab_obs lab_routes lab_keep 0 (lab_request "ru") [lab_request "ru"] New 7 hp r _ eq_refl eq_refl E).
Defined.
(** The labels of the registered routes, and of the root. *)
Example op_labels :
  map opFromPattern ["POST /sign"; "POST /sign/add"; "POST /cert/validate"; "GET /jobs/{id}"; ""; "/"]%string =
    ["sign"; "sign.add"; "cert.validate"; "jobs.{id}"; "unknown"; ""]%string.
Proof. reflexivity. Qed.
Example method_labels :
  map opFromGRPCMethod ["/qoltanba.v1.SignatureService/CertValidate"; "x"; "/"]%string = ["certvalidate"; "x"; "unknown"]%string.
Proof. reflexivity. Qed.

End Metrics.
