(* ===== verification/App.v ===== *)
(** * The program (cmd/qoltanba/main.go)

    Starting the driver and gating it, assembling the domain service and the
    subsystems from the configuration, serving and shutting down, and the
    commands. What is outside - the library, the files, the network, the signal
    that ends the service - are actions on a world [W]. What the process holds -
    the driver, the journal, the stores, the listeners - is read off a log of what
    it opened and closed. *)
From S2P Require Import Prelude Errors Provider Text Jobs Challenge Oidc Qr CertWatch Crl OcspCache Resolvers Idempotency Strconv Config Open Worker Compat Cli.
Import Config.Config.

Module App.

(** ** What the process holds *)
Inductive resource := RDriver | RJournal | RStore (name : string) | RListener (name : string).
Global Instance resource_eq_dec : EqDecision resource.
Proof. solve_decision. Defined.
Inductive change := Acquired (r : resource) | Released (r : resource).
Notation log := (list change).
Fixpoint drop_one (r : resource) (l : list resource) : list resource :=
  match l with [] => [] | x :: t => if decide (x = r) then t else x :: drop_one r t end.
Definition held_step (h : list resource) (c : change) : list resource :=
  match c with Acquired r => r :: h | Released r => drop_one r h end.
Definition held (l : log) : list resource := fold_left held_step l [].
Definition note (c : change) (l : log) : log * unit := (l ++ [c], tt).

(** ** The options of the domain service *)
Inductive core_option :=
| WithTrustStore | WithVerifyOnly (b : bool) | WithKeySource (allow_inline : bool) | WithDefaultTimestamp (b : bool)
| WithIssuerFetcher (timeout : duration) | WithCRLSource (c : Crl.Crl.Config) | WithCRLFailHard
| WithOCSPCache (c : OcspCache.OcspCache.Config) | WithChainVerification | WithDefaultTSAURL (url : string)
| WithTSAPolicies (l : list string) | WithReceiptSigner (issuer : string) | WithAudit
| WithDataResolver (c : Resolvers.DataRef.Config).
Definition megabytes (n : Z) : Z := wrap64 (Z.shiftl n 20).
(** The options [buildService] collects; [signer]: whether there is a service key. *)
Definition service_options (cfg : Config) (signer : bool) : list core_option :=
  let tr := cfg_trust cfg in
  let timeout := seconds (trust_aia_timeout tr) in
  [WithTrustStore; WithVerifyOnly (cfg_verify_only cfg)] ++
  (if negb (cfg_verify_only cfg)
   then [WithKeySource (keys_allow_inline (cfg_keys cfg)); WithDefaultTimestamp (sign_default_timestamp (cfg_sign cfg))] else []) ++
  (if trust_fetch_aia tr then [WithIssuerFetcher timeout] else []) ++
  (if trust_crl_cache tr
   then WithCRLSource (Crl.Crl.mkConfig timeout (trust_crl_spool_dir tr) (megabytes (trust_crl_cache_max_mb tr))) ::
        (if str_eqb (trust_crl_fail_policy tr) "hard" then [WithCRLFailHard] else []) else []) ++
  (if trust_ocsp_cache tr then [WithOCSPCache (OcspCache.OcspCache.mkConfig (ResolveOCSPCacheTTL cfg) 0 (trust_ocsp_cache_max_entries tr))] else []) ++
  (if trust_verify_chain tr then [WithChainVerification] else []) ++
  (if negb (empty_str (sign_tsa_url (cfg_sign cfg))) then [WithDefaultTSAURL (sign_tsa_url (cfg_sign cfg))] else []) ++
  (if bool_decide (trust_tsa_policies tr <> []) then [WithTSAPolicies (trust_tsa_policies tr)] else []) ++
  (if receipts_enabled (cfg_receipts cfg) && signer then [WithReceiptSigner (ReceiptIssuer cfg)] else []) ++
  (if audit_enabled (cfg_audit cfg) then [WithAudit] else []) ++
  (if Input_Enabled cfg
   then let i := cfg_input cfg in
        [WithDataResolver (Resolvers.DataRef.mkConfig (input_allow_local_path i) (input_allow_url i) (input_allowed_schemes i)
           (megabytes (input_max_mb i)) (input_spool_dir i) 0)] else []).

(** The library in this process; the children and what they are started with. *)
Definition native_config (cfg : Config) : Open.Open.Config :=
  let l := cfg_lib cfg in Open.Open.mkConfig (lib_path l) (cfg_workers cfg) (lib_isolated l) (lib_isolation_deps l) (lib_version l).
Definition worker_command (exe : string) (cfg : Config) : list string :=
  [exe; "crypto-worker"; "-lib-path=" ++ lib_path (cfg_lib cfg)]%string ++
  (if negb (empty_str (lib_version (cfg_lib cfg))) then ["-lib-version=" ++ lib_version (cfg_lib cfg)]%string else []).
Definition worker_config (exe : string) (cfg : Config) : Worker.Worker.Config :=
  let w := cfg_crypto_worker cfg in
  Worker.Worker.mkConfig (worker_command exe cfg) (ResolveProcesses cfg (cfg_workers cfg)) (ResolveTimeout cfg) (crypto_worker_max_ops w)
    (ResolveMaxRSSBytes cfg) (crypto_worker_standby w) (crypto_worker_keep_after_revoked w).
Definition requirements (cfg : Config) : Compat.Compat.Requirements :=
  Compat.Compat.mkReq (lib_min_version (cfg_lib cfg)) (negb (cfg_verify_only cfg)).
(** [cfg.CryptoWorker.Enabled = false]. *)
Definition in_process (cfg : Config) : Config :=
  let w := cfg_crypto_worker cfg in
  mkConfig (cfg_lib cfg) (cfg_workers cfg) (cfg_verify_only cfg) (cfg_locale cfg) (cfg_http cfg) (cfg_grpc cfg) (cfg_amqp cfg)
    (cfg_kafka cfg) (cfg_nats cfg) (cfg_keys cfg)
    (mkCryptoWorkerConfig false (crypto_worker_processes w) (crypto_worker_timeout w) (crypto_worker_max_ops w)
       (crypto_worker_max_rss_mb w) (crypto_worker_standby w) (crypto_worker_keep_after_revoked w))
    (cfg_sign cfg) (cfg_trust cfg) (cfg_log cfg) (cfg_metrics cfg) (cfg_jobs cfg) (cfg_idempotency cfg) (cfg_input cfg) (cfg_oidc cfg)
    (cfg_qr cfg) (cfg_receipts cfg) (cfg_certwatch cfg) (cfg_portal cfg) (cfg_multisign cfg) (cfg_audit cfg) (cfg_console cfg)
    (cfg_challenge cfg).

Section Service.
  Context {W D J T : Type}.
Record ports := mkPorts {
  native_open : Open.Open.Config -> M W (res goerr D); executable : M W (res goerr string);
  start_workers : Worker.Worker.Config -> M W (res goerr D); self_test : D -> M W (res goerr Open.Open.SelfTestResult);
  capabilities : D -> Capabilities; close_driver : D -> M W (option goerr);
  load_trust : string -> M W (res goerr T); load_registry : T -> bool -> M W Z;
  open_journal : string -> bool -> bool -> M W (res goerr J); close_journal : J -> M W (option goerr);
}.
  Variable p : ports.
Notation A := (M (W * log)).

(** A resource is held from the call that opens it to the one that closes it,
    whatever that one answers. *)
Definition acquire {R} (r : resource) (m : M W (res goerr R)) : A (res goerr R) :=
  (let* x := in_world m in
   match x with
   | Ok a => let* _ := in_store (note (Acquired r)) in mret (Ok a)
   | Err e => mret (Err e)
   end)%m.
Definition release {R} (r : resource) (m : M W R) : A R :=
  (let* x := in_world m in let* _ := in_store (note (Released r)) in mret x)%m.
Definition close_prov (d : D) : A (option goerr) := release RDriver (close_driver p d).
(** The end of both ways to bring up a driver. *)
Definition assess (cfg : Config) (d : D) : A (res goerr (D * Compat.Compat.Report)) :=
  (let* self := in_world (self_test p d) in
   match self with
   | Err e => let* _ := close_prov d in mret (Err (Wrap "self-test: " e))
   | Ok self => mret (Ok (d, Compat.Compat.Evaluate (lib_path (cfg_lib cfg)) (capabilities p d) self (requirements cfg)))
   end)%m.
(** [openLibrary]. *)
Definition openLibrary (cfg : Config) : A (res goerr (D * Compat.Compat.Report)) :=
  (let* d := acquire RDriver (native_open p (native_config cfg)) in
   match d with Err e => mret (Err (Wrap "load driver: " e)) | Ok d => assess cfg d end)%m.
(** [startCryptoWorker]. *)
Definition startCryptoWorker (cfg : Config) : A (res goerr D) :=
  (let* exe := in_world (executable p) in
   match exe with
   | Err e => mret (Err (Wrap "locate own binary: " e))
   | Ok exe => acquire RDriver (start_workers p (worker_config exe cfg))
   end)%m.
(** [openDriver]. *)
Definition openDriver (cfg : Config) : A (res goerr (D * Compat.Compat.Report)) :=
  if negb (crypto_worker_enabled (cfg_crypto_worker cfg)) then openLibrary cfg
  else
    (let* d := startCryptoWorker cfg in
     match d with Err e => mret (Err (Wrap "start crypto worker: " e)) | Ok d => assess cfg d end)%m.

(** A built service: its options, the report it was gated on, and what its closer
    closes. *)
Record built := mkBuilt { bt_options : list core_option; bt_report : Compat.Compat.Report; bt_driver : D; bt_journal : option J }.
(** [buildService]. *)
Definition policy_of (cfg : Config) : Compat.Compat.Policy := fst (Compat.Compat.ParsePolicy (lib_compat (cfg_lib cfg))).
Definition refusal (cfg : Config) (r : Compat.Compat.Report) : goerr :=
  Errors.New ("library incompatible (policy=" ++ Compat.Compat.policy_text (policy_of cfg) ++ "), refusing to start:" ++
              Compat.Compat.nl ++ Compat.Compat.report_text r).
Definition buildService (cfg : Config) (signer : bool) : A (res goerr built) :=
  (let* d := openDriver cfg in
   match d with
   | Err e => mret (Err e)
   | Ok (prov, report) =>
       if Compat.Compat.MustRefuse report (policy_of cfg) then
         let* _ := close_prov prov in mret (Err (refusal cfg report))
       else
         let* store := in_world (load_trust p (trust_ca_dir (cfg_trust cfg))) in
         match store with
         | Err e => let* _ := close_prov prov in mret (Err (Wrap "load trust store: " e))
         | Ok store =>
             let* _ := (if trust_use_rk_registry (cfg_trust cfg)
                        then in_world (load_registry p store (trust_rk_include_test (cfg_trust cfg))) else mret 0) in
             if audit_enabled (cfg_audit cfg) then
               let* j := acquire RJournal (open_journal p (audit_path (cfg_audit cfg)) (audit_sync (cfg_audit cfg)) signer) in
               match j with
               | Err e => let* _ := close_prov prov in mret (Err (Wrap "open audit journal: " e))
               | Ok j => mret (Ok (mkBuilt (service_options cfg signer) report prov (Some j)))
               end
             else mret (Ok (mkBuilt (service_options cfg signer) report prov None))
         end
   end)%m.
(** The closer of a built service; a failure to close is only logged. *)
Definition closer (b : built) : A unit :=
  (let* _ := match bt_journal b with Some j => let* _ := release RJournal (close_journal p j) in mret tt | None => mret tt end in
   let* _ := close_prov (bt_driver b) in mret tt)%m.
End Service.

(** ** The subsystems *)
Record qr_setup := mkQrSetup { qs_config : Qr.Qr.QrConfig; qs_profiles : list string; qs_organization : string; qs_issuer : bool }.
Record subsystems := mkSubsystems {
  sub_jobs : option Jobs.Jobs.Config; sub_oidc : option (Oidc.Oidc.Config * gmap string Oidc.Oidc.Client); sub_qr : option qr_setup;
  sub_challenge : option Challenge.Challenge.Config; sub_certwatch : option CertWatch.CertWatch.Config; sub_multisign : option duration;
  sub_signer : bool;
}.
Section Subsystems.
  Context {W : Type}.
  (** A service key from its path; a BoltDB file under a name. *)
  Variable load_key : string -> M W (res goerr unit).
  Variable open_bolt : string -> string -> M W (res goerr unit).
Notation A := (M (W * log)).

(** [loadServiceKey]: whether there is a key. *)
Definition loadServiceKey (cfg : Config) : A (res goerr bool) :=
  if negb (oidc_enabled (cfg_oidc cfg)) && negb (receipts_enabled (cfg_receipts cfg)) then mret (Ok false)
  else
    (let* k := in_world (load_key (oidc_key_path (cfg_oidc cfg))) in
     mret match k with Err e => Err (Wrap "service signing key: " e) | Ok _ => Ok true end)%m.
(** The store of a subsystem, in a file or in memory. *)
Definition open_store (name kind path failed : string) : A (res goerr unit) :=
  (let* s := acquire (RStore name) (if str_eqb kind "bolt" then open_bolt name path else mret (Ok tt)) in
   mret match s with Err e => Err (Wrap failed e) | Ok _ => Ok tt end)%m.
(** [buildOIDC]; [buildChallenge]; [buildMultisign]; [buildQR]; [buildJobs]. *)
Definition buildOIDC (cfg : Config) (signer : bool) : A (res goerr (option (Oidc.Oidc.Config * gmap string Oidc.Oidc.Client))) :=
  let o := cfg_oidc cfg in
  if negb (oidc_enabled o) then mret (Ok None)
  else if negb signer then mret (Err (Errors.New "oidc enabled without a service signing key"))
  else
    (let* s := open_store "oidc" (oidc_store o) (oidc_bolt_path o) "open oidc challenge store: " in
     match s with
     | Err e => mret (Err e)
     | Ok _ =>
         mret match Oidc.Oidc.ParseClients (oidc_clients o) ∅ with
              | Err e => Err (Wrap "oidc clients: " e)
              | Ok clients =>
                  Ok (Some (Oidc.Oidc.mkConfig (oidc_issuer o) (oidc_audience o) (OIDCChallengeTTL cfg) (OIDCTokenTTL cfg)
                              (oidc_require_ocsp o) 0, clients))
              end
     end)%m.
Definition buildChallenge (cfg : Config) : A (res goerr (option Challenge.Challenge.Config)) :=
  let c := cfg_challenge cfg in
  if negb (challenge_enabled c) then mret (Ok None)
  else
    (let* s := open_store "challenge" (challenge_store c) (challenge_bolt_path c) "open challenge store: " in
     mret match s with
          | Err e => Err e
          | Ok _ => Ok (Some (Challenge.Challenge.mkConfig (ChallengeTTL cfg) (challenge_require_ocsp c)))
          end)%m.
Definition buildMultisign (cfg : Config) : A (res goerr (option duration)) :=
  let m := cfg_multisign cfg in
  if negb (multisign_enabled m) then mret (Ok None)
  else
    (let* s := open_store "multisign" (multisign_store m) (multisign_bolt_path m) "open multisign store: " in
     mret match s with Err e => Err e | Ok _ => Ok (Some (Multisign_ResolveTTL cfg)) end)%m.
Definition buildQR (cfg : Config) (oidc : bool) : A (res goerr (option qr_setup)) :=
  let q := cfg_qr cfg in
  if negb (qr_enabled q) then mret (Ok None)
  else
    (let* s := open_store "qr" (qr_store q) (qr_bolt_path q) "open qr session store: " in
     mret match s with
          | Err e => Err e
          | Ok _ =>
              Ok (Some (mkQrSetup (Qr.Qr.mkQrConfig (qr_default_profile q) (qr_default_mode q) (QRSessionTTL cfg) 0 (qr_require_ocsp q))
                          (["agnostic"; "egov"]%string ++ (if negb (empty_str (qr_relay_url q)) then ["relay"%string] else []))
                          (qr_organization q) oidc))
          end)%m.
Definition buildJobs (cfg : Config) : A (res goerr (option Jobs.Jobs.Config)) :=
  let j := cfg_jobs cfg in
  if negb (jobs_enabled j) then mret (Ok None)
  else
    (let* s := open_store "jobs" (jobs_store j) (jobs_bolt_path j) "open job store: " in
     mret match s with
          | Err e => Err e
          | Ok _ =>
              let workers := if jobs_max_concurrent j <? 1 then cfg_workers cfg else jobs_max_concurrent j in
              Ok (Some (Jobs.Jobs.mkConfig workers (jobs_queue_size j) (JobsTTL cfg) (megabytes (jobs_max_input_mb j)) 0))
          end)%m.
(** The configuration of the certificate watcher. *)
Definition watch_config (cfg : Config) : option CertWatch.CertWatch.Config :=
  let c := cfg_certwatch cfg in
  if certwatch_enabled c
  then Some (CertWatch.CertWatch.mkConfig (certwatch_dir c) (ResolveInterval cfg) (ResolveWarnFrom cfg) (certwatch_webhook_url c)
               (certwatch_check_revocation c))
  else None.
End Subsystems.

(** ** Serving
    What runs beside the requests: a subsystem's reaper or watcher, the trust
    refresher, the serving loop of a listener, a queue consumer. *)
Inductive task := Background (name : string) | Refreshing (interval : duration) | Serving (listener : string) | Consuming (broker : string).
Section Serve.
  Context {W : Type}.
  (** The start of the job workers and of what else runs on its own, a file's
      removal and a listener on a network address, the time until the signal or a
      fault that ends the service, the shutdown of a listener, the end of the queue
      consumers and of the job workers, a store's [Close]. *)
Record run_ports := mkRunPorts {
  start_jobs : M W (option goerr); launch : task -> M W unit; remove : string -> M W unit;
  net_listen : string -> string -> M W (res goerr unit); until_stopped : M W unit; shutdown : string -> M W unit;
  wait_consumers : M W unit; wait_jobs : M W unit; close_store : string -> M W (option goerr);
}.
  Variable p : run_ports.
Notation A := (M (W * log)).
Definition some {X} (o : option X) : bool := match o with Some _ => true | None => false end.

(** The listeners a configuration asks for, with their addresses, in order. *)
Definition listeners (cfg : Config) : list (string * string) :=
  let h := cfg_http cfg in
  let m := cfg_metrics cfg in
  ((if http_enabled h then [("rest"%string, http_addr h)] else []) ++
   (if metrics_enabled m && (negb (http_enabled h) || negb (str_eqb (metrics_addr m) (http_addr h)))
    then [("metrics"%string, metrics_addr m)] else []) ++
   (if grpc_enabled (cfg_grpc cfg) then [("grpc"%string, grpc_addr (cfg_grpc cfg))] else [])).
(** [listen]. *)
Definition listen (addr : string) : M W (res goerr unit) :=
  if has_prefix "unix:" addr then let path := Pki.trim_prefix addr "unix:" in (let* _ := remove p path in net_listen p "unix" path)%m
  else net_listen p "tcp" addr.
Fixpoint listen_all (l : list (string * string)) : A bool :=
  match l with
  | [] => mret true
  | (name, addr) :: t =>
      (let* r := acquire (RListener name) (listen addr) in
       match r with
       | Err _ => mret false
       | Ok _ => let* _ := in_world (launch p (Serving name)) in listen_all t
       end)%m
  end.
(** What is started before the listeners; the consumers of [startMQ]. *)
Definition background (cfg : Config) (sub : subsystems) : list task :=
  (if some (sub_oidc sub) then [Background "oidc"] else []) ++ (if some (sub_certwatch sub) then [Background "certwatch"] else []) ++
  (if some (sub_challenge sub) then [Background "challenge"] else []) ++ (if some (sub_qr sub) then [Background "qr"] else []) ++
  (let interval := TrustRefreshInterval cfg in if 0 <? interval then [Refreshing interval] else []).
Definition startMQ (cfg : Config) : list task :=
  (if AMQP_Enabled cfg then [Consuming "amqp"] else []) ++ (if Kafka_Enabled cfg then [Consuming "kafka"] else []) ++
  (if NATS_Enabled cfg then [Consuming "nats"] else []).
Definition launch_all (l : list task) : M W unit := mfold (fun _ t => launch p t) tt l.
(** The stores of the subsystems, in the order they are closed. *)
Definition stores (sub : subsystems) : list string :=
  ((if some (sub_jobs sub) then ["jobs"%string] else []) ++ (if some (sub_oidc sub) then ["oidc"%string] else []) ++
   (if some (sub_multisign sub) then ["multisign"%string] else []) ++ (if some (sub_challenge sub) then ["challenge"%string] else []) ++
   (if some (sub_qr sub) then ["qr"%string] else [])).
(** [serve], up to what it logs: the exit code. *)
Definition serve (cfg : Config) (sub : subsystems) : A Z :=
  (let* failed := in_world (if some (sub_jobs sub) then start_jobs p else mret None) in
   match failed with
   | Some _ => mret 1
   | None =>
       let* _ := in_world (launch_all (background cfg sub)) in
       let* up := listen_all (listeners cfg) in
       if negb up then mret 1
       else
         let* _ := in_world (if AnyMQEnabled cfg then launch_all (startMQ cfg) else mret tt) in
         let* _ := in_world (until_stopped p) in
         let* _ := mfold (fun _ l => release (RListener (fst l)) (shutdown p (fst l))) tt (listeners cfg) in
         let* _ := in_world (wait_consumers p) in
         let* _ := in_world (if some (sub_jobs sub) then wait_jobs p else mret tt) in
         let* _ := mfold (fun _ name => let* _ := release (RStore name) (close_store p name) in mret tt) tt (stores sub) in
         mret 0
   end)%m.
End Serve.

(** ** The flags of a child process
    [flag.FlagSet.Parse] over two text flags: [-name=value], [-name value], either
    with two dashes; the first argument that is no flag, or [--], ends it. *)
Fixpoint cut_equals (s : string) : string * option string :=
  match s with
  | EmptyString => (EmptyString, None)
  | String c t => if Ascii.eqb c "=" then (EmptyString, Some t) else let (n, v) := cut_equals t in (String c n, v)
  end.
Inductive parsed_flag := NotFlag | BadFlag | Flag (name : string) (value : option string).
Definition parseOne (s : string) : parsed_flag :=
  match s with
  | String "-" rest =>
      match rest with
      | EmptyString => NotFlag
      | String "-" EmptyString => NotFlag
      | _ =>
          let name := match rest with String "-" t => t | _ => rest end in
          if empty_str name || has_prefix "-" name || has_prefix "=" name then BadFlag else let (n, v) := cut_equals name in Flag n v
      end
  | _ => NotFlag
  end.
(** The values of the library's path and version. *)
Definition set_flag (st : string * string) (name v : string) : option (string * string) :=
  if str_eqb name "lib-path" then Some (v, snd st) else if str_eqb name "lib-version" then Some (fst st, v) else None.
Fixpoint worker_flags (st : string * string) (args : list string) : option (string * string) :=
  match args with
  | [] => Some st
  | s :: rest =>
      match parseOne s with
      | NotFlag => Some st
      | BadFlag => None
      | Flag n (Some v) => match set_flag st n v with Some st => worker_flags st rest | None => None end
      | Flag n None =>
          match rest with
          | v :: rest => match set_flag st n v with Some st => worker_flags st rest | None => None end
          | [] => None
          end
      end
  end.

(** ** The commands *)
Inductive printed := Stdout (s : string) | Stderr (s : string).
Section Commands.
  Context {W D J T : Type}.
  Variable p : ports (W := W) (D := D) (J := J) (T := T).
  Variable rp : run_ports (W := W).
  Variable load_key : string -> M W (res goerr unit).
  Variable open_bolt : string -> string -> M W (res goerr unit).
  (** [loadConfig]; the JSON of a report; the operations of a service; what the
      operation of the command line prints and returns. *)
  Variable load_config : list string -> res goerr Loaded.
  Variable report_json : Compat.Compat.Report -> res goerr string.
  Variable run_op : built (D := D) (J := J) -> string -> string -> bool -> M W (list printed * Z).
  (** The worker protocol over the standard streams, on a driver. *)
  Variable serve_worker : D -> M W (option goerr).
  (** [strconv.Quote]. *)
  Variable quote : string -> string.
Notation A := (M (W * log)).
Definition complain (e : goerr) (code : Z) : list printed * Z := ([Stderr (err_text e)], code).

(** [runDump], [runCheck]. *)
Definition runDump (args : list string) : list printed * Z :=
  match load_config args with Err e => complain e 2 | Ok l => ([Stdout (Dump l)], 0) end.
Definition runCheck (args : list string) : list printed * Z :=
  match load_config args with
  | Err e => complain e 2
  | Ok l => match Validate l with Some e => complain e 1 | None => ([Stdout "configuration OK"], 0) end
  end.
(** The configuration a command runs with. *)
Definition load_valid (args : list string) : res goerr Config :=
  match load_config args with
  | Err e => Err e
  | Ok l => match Validate l with Some e => Err e | None => Ok (ld_config l) end
  end.
(** [runLibCheck]. *)
Definition runLibCheck (args : list string) : A (list printed * Z) :=
  let (args, asJSON) := Cli.Cli.extractBoolFlag args "json" in
  match load_valid args with
  | Err e => mret (complain e 2)
  | Ok cfg =>
      (let* d := openLibrary p cfg in
       match d with
       | Err e => mret (complain e 1)
       | Ok (pool, report) =>
           let code := if Compat.Compat.Compatible report then 0 else 1 in
           let out := if asJSON
                      then match report_json report with Err e => complain e 1 | Ok b => ([Stdout b], code) end
                      else ([Stdout (Compat.Compat.report_text report)], code) in
           let* _ := close_prov p pool in mret out
       end)%m
  end.
(** [runCLI]. *)
Definition runCLI (op : string) (args : list string) : A (list printed * Z) :=
  let (args, failInvalid) := Cli.Cli.extractBoolFlag args "fail-invalid" in
  match load_valid args with
  | Err e => mret (complain e 2)
  | Ok cfg =>
      let cfg := in_process cfg in
      (let* b := buildService p cfg false in
       match b with
       | Err e => mret (complain e 1)
       | Ok b =>
           let* out := in_world (run_op b op (cfg_locale cfg) failInvalid) in
           let* _ := closer p b in mret out
       end)%m
  end.

(** The subsystems of a service, in the order they are built. *)
Definition build_subsystems (cfg : Config) (signer : bool) : A (res goerr subsystems) :=
  (let* jobs := buildJobs open_bolt cfg in
   match jobs with
   | Err e => mret (Err e)
   | Ok jobs =>
       let* oidc := buildOIDC open_bolt cfg signer in
       match oidc with
       | Err e => mret (Err e)
       | Ok oidc =>
           let watch := watch_config cfg in
           let* ch := buildChallenge open_bolt cfg in
           match ch with
           | Err e => mret (Err e)
           | Ok ch =>
               let* ms := buildMultisign open_bolt cfg in
               match ms with
               | Err e => mret (Err e)
               | Ok ms =>
                   let* qr := buildQR open_bolt cfg (some oidc) in
                   mret match qr with
                        | Err e => Err e
                        | Ok qr => Ok (mkSubsystems jobs oidc qr ch watch ms signer)
                        end
               end
           end
       end
   end)%m.
(** [runServe]. *)
Definition no_transport (cfg : Config) : bool :=
  negb (http_enabled (cfg_http cfg)) && negb (grpc_enabled (cfg_grpc cfg)) && negb (AnyMQEnabled cfg).
Definition runServe (args : list string) : A (list printed * Z) :=
  match load_valid args with
  | Err e => mret (complain e 2)
  | Ok cfg =>
      if no_transport cfg then mret ([], 2)
      else
        (let* signer := loadServiceKey load_key cfg in
         match signer with
         | Err _ => mret ([], 1)
         | Ok signer =>
             let* b := buildService p cfg signer in
             match b with
             | Err _ => mret ([], 1)
             | Ok b =>
                 let* sub := build_subsystems cfg signer in
                 let* code := match sub with Err _ => mret 1 | Ok sub => serve rp cfg sub end in
                 let* _ := closer p b in mret ([], code)
             end
         end)%m
  end.
(** [runCryptoWorker], up to what the flag parser prints. *)
Definition worker_failed (e : goerr) : list printed * Z := ([Stderr ("crypto-worker: " ++ err_text e)], 1).
Definition run_child (libPath libVersion : string) : A (list printed * Z) :=
  (let* pool := acquire RDriver (native_open p (Open.Open.mkConfig libPath 1 false [] libVersion)) in
   match pool with
   | Err e => mret (worker_failed e)
   | Ok pool =>
       let* failed := in_world (serve_worker pool) in
       let* _ := close_prov p pool in
       mret match failed with Some e => worker_failed e | None => ([], 0) end
   end)%m.
Definition runCryptoWorker (args : list string) : A (list printed * Z) :=
  match worker_flags (EmptyString, EmptyString) args with
  | None => mret ([], 2)
  | Some (libPath, libVersion) => run_child libPath libVersion
  end.
(** [run]: one command per process. *)
Definition run (args : list string) : A (list printed * Z) :=
  match Cli.Cli.run args with
  | Cli.Cli.CmdDump rest => mret (runDump rest)
  | Cli.Cli.CmdCheck rest => mret (runCheck rest)
  | Cli.Cli.CmdLibCheck rest => runLibCheck rest
  | Cli.Cli.CmdWorker rest => runCryptoWorker rest
  | Cli.Cli.CmdOp op rest => runCLI op rest
  | Cli.Cli.CmdUnknown cmd =>
      mret ([Stderr ("unknown command " ++ quote cmd ++ " (ops: " ++ concat_with "|" Cli.Cli.Ops ++ "; or config-dump/config-check/lib-check)")], 2)
  | Cli.Cli.CmdServe rest => runServe rest
  end.
End Commands.

(** ** What is held, along a run *)
Lemma held_note l c : held (l ++ [c]) = held_step (held l) c.
Proof. unfold held. by rewrite fold_left_app. Qed.
Lemma drop_one_perm r l k : l ≡ₚ r :: k -> drop_one r l ≡ₚ k.
Proof.
  revert k. induction l as [|x l IH]; intros k Hp; [by apply Permutation_nil_cons in Hp|]. simpl. destruct (decide (x = r)) as [->|Hn].
  - by apply Permutation_cons_inv in Hp.
  - assert (x ∈ k) as [k1 [k2 ->]]%list_elem_of_split.
    { assert (x ∈ r :: k) as Hx by (rewrite <- Hp; left). by apply elem_of_cons in Hx as [->|Hx]. }
    rewrite <- Permutation_middle. constructor. apply IH. apply (Permutation_cons_inv (a := x)). rewrite Hp.
    rewrite <- Permutation_middle. apply perm_swap.
Qed.
(** A resource that the gate of the driver is not about. *)
Definition minor (r : resource) : bool := match r with RStore _ | RListener _ => true | _ => false end.

Section Held.
  Context {W : Type}.
Lemma acquire_held {X} r (m : M W (res goerr X)) w l w' l' x : acquire r m (w, l) = Done ((w', l'), x) ->
  held l' = match x with Ok _ => r :: held l | Err _ => held l end.
Proof.
  intros ([w1 l1] & y & [-> _]%in_world_done & HR)%mbind_done. destruct y as [a|e].
  - apply mbind_done in HR as ([w2 l2] & u & [-> H2]%in_store_done & HR). apply mret_done in HR as [[= -> ->] ->].
    unfold note in H2. injection H2 as <- _. by rewrite held_note.
  - by apply mret_done in HR as [[= -> ->] ->].
Qed.
Lemma release_held {X} r (m : M W X) w l w' l' x k : release r m (w, l) = Done ((w', l'), x) -> held l ≡ₚ r :: k -> held l' ≡ₚ k.
Proof.
  intros ([w1 l1] & y & [-> _]%in_world_done & HR)%mbind_done Hk.
  apply mbind_done in HR as ([w2 l2] & u & [-> H2]%in_store_done & HR). apply mret_done in HR as [[= -> ->] ->].
  unfold note in H2. injection H2 as <- _. rewrite held_note. by apply drop_one_perm.
Qed.
End Held.

Section ServiceHeld.
  Context {W D J T : Type}.
  Variable p : ports (W := W) (D := D) (J := J) (T := T).

Lemma close_prov_held d w l w' l' x k : close_prov p d (w, l) = Done ((w', l'), x) -> held l ≡ₚ RDriver :: k -> held l' ≡ₚ k.
Proof. apply release_held. Qed.
(** What the two ways to bring up a driver hold when they are done. *)
Definition driver_held (cfg : Config) (l l' : log) (r : res goerr (D * Compat.Compat.Report)) : Prop :=
  match r with
  | Err _ => held l' ≡ₚ held l
  | Ok (d, rep) => held l' ≡ₚ RDriver :: held l /\
      exists self, rep = Compat.Compat.Evaluate (lib_path (cfg_lib cfg)) (capabilities p d) self (requirements cfg)
  end.
Lemma assess_held cfg d w l0 l w' l' r : assess p cfg d (w, l) = Done ((w', l'), r) -> held l = RDriver :: held l0 ->
  driver_held cfg l0 l' r.
Proof.
  intros ([w1 l1] & self & [-> _]%in_world_done & HR)%mbind_done Hl. destruct self as [self|e].
  - apply mret_done in HR as [[= -> ->] ->]. split; [by rewrite Hl|by eexists].
  - apply mbind_done in HR as ([w2 l2] & u & HC & HR). apply mret_done in HR as [[= -> ->] ->].
    eapply close_prov_held; [exact HC|by rewrite Hl].
Qed.
Lemma openLibrary_held cfg w l w' l' r : openLibrary p cfg (w, l) = Done ((w', l'), r) -> driver_held cfg l l' r.
Proof.
  intros ([w1 l1] & d & HA%acquire_held & HR)%mbind_done. destruct d as [d|e]; [by eapply assess_held|].
  apply mret_done in HR as [[= -> ->] ->]. cbn. by rewrite HA.
Qed.
Lemma openDriver_held cfg w l w' l' r : openDriver p cfg (w, l) = Done ((w', l'), r) -> driver_held cfg l l' r.
Proof.
  unfold openDriver. destruct (negb _); [apply openLibrary_held|].
  intros ([w1 l1] & d & HS & HR)%mbind_done. unfold startCryptoWorker in HS.
  apply mbind_done in HS as ([w2 l2] & exe & [-> _]%in_world_done & HS). destruct exe as [exe|e].
  - apply acquire_held in HS. destruct d as [d|e]; [by eapply assess_held|].
    apply mret_done in HR as [[= -> ->] ->]. cbn. by rewrite HS.
  - apply mret_done in HS as [[= -> ->] ->]. apply mret_done in HR as [[= -> ->] ->]. unfold driver_held. reflexivity.
Qed.

Definition journal_of (b : built (D := D) (J := J)) : list resource := match bt_journal b with Some _ => [RJournal] | None => [] end.
Lemma buildService_held cfg signer w l w' l' r : buildService p cfg signer (w, l) = Done ((w', l'), r) ->
  match r with
  | Err _ => held l' ≡ₚ held l
  | Ok b => held l' ≡ₚ journal_of b ++ RDriver :: held l /\ bt_options b = service_options cfg signer /\
      Compat.Compat.MustRefuse (bt_report b) (policy_of cfg) = false /\
      exists self, bt_report b =
        Compat.Compat.Evaluate (lib_path (cfg_lib cfg)) (capabilities p (bt_driver b)) self (requirements cfg)
  end.
Proof.
  intros ([w1 l1] & d & HD%openDriver_held & HR)%mbind_done. destruct d as [[prov report]|e]; [|by apply mret_done in HR as [[= -> ->] ->]].
  destruct HD as [HD Hrep].
  destruct (Compat.Compat.MustRefuse report (policy_of cfg)) eqn:Hm.
  { apply mbind_done in HR as ([w2 l2] & u & HC & HR). apply mret_done in HR as [[= -> ->] ->]. by eapply close_prov_held. }
  apply mbind_done in HR as ([w2 l2] & store & [-> _]%in_world_done & HR). destruct store as [store|e].
  2: { apply mbind_done in HR as ([w3 l3] & u & HC & HR). apply mret_done in HR as [[= -> ->] ->]. by eapply close_prov_held. }
  apply mbind_done in HR as ([w3 l3] & n & Hreg & HR).
  assert (l3 = l1) as -> by (destruct (trust_use_rk_registry _); [by apply in_world_done in Hreg as [-> _]|by apply mret_done in Hreg as [[= -> ->] _]]).
  destruct (audit_enabled (cfg_audit cfg)).
  - apply mbind_done in HR as ([w4 l4] & j & HA%acquire_held & HR). destruct j as [j|e].
    + apply mret_done in HR as [[= -> ->] ->]. split; [|done]. cbn. by rewrite HA, HD.
    + apply mbind_done in HR as ([w5 l5] & u & HC & HR). apply mret_done in HR as [[= -> ->] ->].
      eapply close_prov_held; [exact HC|by rewrite HA].
  - apply mret_done in HR as [[= -> ->] ->]. done.
Qed.
Lemma closer_held b w l w' l' u k : closer p b (w, l) = Done ((w', l'), u) -> held l ≡ₚ journal_of b ++ RDriver :: k -> held l' ≡ₚ k.
Proof.
  unfold journal_of. intros ([w1 l1] & u1 & HJ & HR)%mbind_done Hl.
  apply mbind_done in HR as ([w2 l2] & u2 & HC & HR). apply mret_done in HR as [[= -> ->] _].
  eapply close_prov_held; [exact HC|]. destruct (bt_journal b) as [j|].
  - apply mbind_done in HJ as ([w3 l3] & u3 & HJ & HR). apply mret_done in HR as [[= -> ->] _]. by eapply release_held.
  - by apply mret_done in HJ as [[= -> ->] _].
Qed.

(** A service is built only over a library that the configured policy does not
    refuse, on the report made of that library, with the options of the
    configuration; it holds its driver and its journal. When it is not built,
    nothing that was opened on the way is still open. *)
Theorem service_gated cfg signer w l w' l' r : buildService p cfg signer (w, l) = Done ((w', l'), r) ->
  match r with
  | Err _ => held l' ≡ₚ held l
  | Ok b => held l' ≡ₚ journal_of b ++ RDriver :: held l /\ bt_options b = service_options cfg signer /\
      exists self, Compat.Compat.MustRefuse
        (Compat.Compat.Evaluate (lib_path (cfg_lib cfg)) (capabilities p (bt_driver b)) self (requirements cfg)) (policy_of cfg) = false
  end.
Proof.
  intros H%buildService_held. destruct r as [b|e]; [|done]. destruct H as (Hh & Ho & Hm & self & Hr).
  split; [done|]. split; [done|]. exists self. by rewrite <- Hr.
Qed.
End ServiceHeld.

Section ServeHeld.
  Context {W : Type}.
  Variable rp : run_ports (W := W).
  Variable open_bolt : string -> string -> M W (res goerr unit).
Definition minors (l : list resource) : Prop := forall r, r ∈ l -> minor r = true.
Notation listening ls := (map (fun l : string * string => RListener (fst l)) ls).

Lemma listen_all_held ls w l w' l' up : listen_all rp ls (w, l) = Done ((w', l'), up) ->
  if up then held l' ≡ₚ listening ls ++ held l else exists extra, minors extra /\ held l' ≡ₚ extra ++ held l.
Proof.
  revert w l. induction ls as [|[name addr] ls IH]; intros w l; cbn [listen_all]; [by intros [[= -> ->] ->]%mret_done|].
  intros ([w1 l1] & r & HA%acquire_held & HR)%mbind_done. destruct r as [u|e].
  - apply mbind_done in HR as ([w2 l2] & u2 & [-> _]%in_world_done & HR). apply IH in HR. rewrite HA in HR. destruct up.
    + rewrite HR. cbn. by rewrite Permutation_middle.
    + destruct HR as (extra & Hm & HR). exists (extra ++ [RListener name]). rewrite HR, <- app_assoc. split; [|done].
      intros r [Hr|Hr]%elem_of_app; [by apply Hm|]. by apply list_elem_of_singleton in Hr as ->.
  - apply mret_done in HR as [[= -> ->] ->]. exists []. rewrite HA. split; [|done]. by intros r Hr%elem_of_nil.
Qed.
Lemma release_listeners_held ls k w l w' l' u :
  mfold (fun (_ : unit) (x : string * string) => release (RListener (fst x)) (shutdown rp (fst x))) tt ls (w, l) = Done ((w', l'), u) ->
  held l ≡ₚ listening ls ++ k -> held l' ≡ₚ k.
Proof.
  revert w l. induction ls as [|x ls IH]; intros w l H Hl; cbn in H; [by apply mret_done in H as [[= -> ->] _]|].
  apply mbind_done in H as ([w1 l1] & [] & HR & H). eapply (IH _ _ H). by eapply release_held.
Qed.
Lemma close_stores_held names k w l w' l' u :
  mfold (fun (_ : unit) name => (let* _ := release (RStore name) (close_store rp name) in mret tt)%m) tt names (w, l) = Done ((w', l'), u) ->
  held l ≡ₚ map RStore names ++ k -> held l' ≡ₚ k.
Proof.
  revert w l. induction names as [|x names IH]; intros w l H Hl; cbn in H; [by apply mret_done in H as [[= -> ->] _]|].
  apply mbind_done in H as ([w1 l1] & [] & HR & H). eapply (IH _ _ H).
  apply mbind_done in HR as ([w2 l2] & u2 & HR & HM). apply mret_done in HM as [[= -> ->] _]. by eapply release_held.
Qed.
Lemma minors_stores names : minors (map RStore names).
Proof. intros r (n & <- & _)%list_elem_of_In%in_map_iff. done. Qed.

(** A service that ended well has shut down every listener and closed every
    store; one that could not start holds only such. *)
Lemma serve_held cfg sub k w l w' l' code : serve rp cfg sub (w, l) = Done ((w', l'), code) ->
  held l ≡ₚ map RStore (stores sub) ++ k ->
  exists extra, minors extra /\ held l' ≡ₚ extra ++ k /\ (code = 0 -> extra = []).
Proof.
  intros ([w1 l1] & failed & [-> _]%in_world_done & HR)%mbind_done Hl. destruct failed as [e|].
  { apply mret_done in HR as [[= -> ->] ->]. exists (map RStore (stores sub)). split; [apply minors_stores|]. by split. }
  apply mbind_done in HR as ([w2' l2'] & u2 & [-> _]%in_world_done & HR).
  apply mbind_done in HR as ([w2 l2] & up & Hup%listen_all_held & HR). destruct up.
  - cbn [negb] in HR.
    apply mbind_done in HR as ([w3' l3'] & u3' & [-> _]%in_world_done & HR).
    apply mbind_done in HR as ([w3 l3] & u3 & [-> _]%in_world_done & HR).
    apply mbind_done in HR as ([w4 l4] & u4 & HL & HR).
    apply mbind_done in HR as ([w5 l5] & u5 & [-> _]%in_world_done & HR).
    apply mbind_done in HR as ([w6 l6] & u6 & [-> _]%in_world_done & HR).
    apply mbind_done in HR as ([w7 l7] & u7 & HC & HR). apply mret_done in HR as [[= -> ->] ->].
    exists []. split; [by intros r Hr%elem_of_nil|]. split; [|done].
    eapply close_stores_held; [exact HC|]. eapply release_listeners_held; [exact HL|]. by rewrite Hup, Hl.
  - apply mret_done in HR as [[= -> ->] ->]. destruct Hup as (extra & Hm & Hup).
    exists (extra ++ map RStore (stores sub)). split; [|split; [by rewrite Hup, Hl, app_assoc|done]].
    intros r [Hr|Hr]%elem_of_app; [by apply Hm|by eapply minors_stores].
Qed.

Lemma open_store_held name kind path failed w l w' l' r : open_store open_bolt name kind path failed (w, l) = Done ((w', l'), r) ->
  held l' = match r with Ok _ => RStore name :: held l | Err _ => held l end.
Proof.
  intros ([w1 l1] & x & HA%acquire_held & HR)%mbind_done. apply mret_done in HR as [[= -> ->] ->]. by destruct x.
Qed.
(** A builder that holds a store when there is a subsystem, and nothing new when
    there is none. *)
Definition builds {X} (name : string) (m : M (W * log) (res goerr (option X))) : Prop := forall w l w' l' r, m (w, l) = Done ((w', l'), r) ->
  match r with
  | Ok o => held l' = map RStore (if some o then [name] else []) ++ held l
  | Err _ => exists extra, minors extra /\ held l' = extra ++ held l
  end.
Ltac built_store := intros ([? ?] & [?|?] & HS%open_store_held & HR)%mbind_done; apply mret_done in HR as [[= -> ->] ->];
  [exact HS | exists []; split; [by intros ? ?%elem_of_nil|exact HS]].
Lemma buildJobs_builds cfg : builds "jobs" (buildJobs open_bolt cfg).
Proof. intros w l w' l' r. unfold buildJobs. destruct (negb _); [by intros [[= -> ->] ->]%mret_done|]. built_store. Qed.
Lemma buildChallenge_builds cfg : builds "challenge" (buildChallenge open_bolt cfg).
Proof. intros w l w' l' r. unfold buildChallenge. destruct (negb _); [by intros [[= -> ->] ->]%mret_done|]. built_store. Qed.
Lemma buildMultisign_builds cfg : builds "multisign" (buildMultisign open_bolt cfg).
Proof. intros w l w' l' r. unfold buildMultisign. destruct (negb _); [by intros [[= -> ->] ->]%mret_done|]. built_store. Qed.
Lemma buildQR_builds cfg b : builds "qr" (buildQR open_bolt cfg b).
Proof. intros w l w' l' r. unfold buildQR. destruct (negb _); [by intros [[= -> ->] ->]%mret_done|]. built_store. Qed.
Lemma buildOIDC_builds cfg signer : builds "oidc" (buildOIDC open_bolt cfg signer).
Proof.
  intros w l w' l' r. unfold buildOIDC. destruct (negb _); [by intros [[= -> ->] ->]%mret_done|].
  destruct (negb signer); [intros [[= -> ->] ->]%mret_done; exists []; split; [by intros ? ?%elem_of_nil|done]|].
  intros ([w1 l1] & s & HS%open_store_held & HR)%mbind_done. destruct s as [u|e]; apply mret_done in HR as [[= -> ->] ->].
  - destruct (Oidc.Oidc.ParseClients _ _); [exact HS|]. exists [RStore "oidc"]. split; [|exact HS].
    by intros r ->%list_elem_of_singleton.
  - exists []. split; [by intros ? ?%elem_of_nil|exact HS].
Qed.
End ServeHeld.

(** ** What a command leaves *)
Section CommandsHeld.
  Context {W D J T : Type}.
  Variable p : ports (W := W) (D := D) (J := J) (T := T).
  Variable rp : run_ports (W := W).
  Variable load_key : string -> M W (res goerr unit).
  Variable open_bolt : string -> string -> M W (res goerr unit).
  Variable load_config : list string -> res goerr Loaded.
  Variable report_json : Compat.Compat.Report -> res goerr string.
  Variable run_op : built (D := D) (J := J) -> string -> string -> bool -> M W (list printed * Z).
  Variable serve_worker : D -> M W (option goerr).
  Variable quote : string -> string.

Lemma build_subsystems_held cfg signer w l w' l' r : build_subsystems open_bolt cfg signer (w, l) = Done ((w', l'), r) ->
  match r with
  | Ok sub => held l' ≡ₚ map RStore (stores sub) ++ held l
  | Err _ => exists extra, minors extra /\ held l' ≡ₚ extra ++ held l
  end.
Proof.
  assert (Hmore : forall a names h, (exists n, h = map RStore n ++ held l) -> a = map RStore names ++ h -> exists n, a = map RStore n ++ held l).
  { intros a names h (n & ->) ->. exists (names ++ n). by rewrite map_app, app_assoc. }
  assert (Hfail : forall a h, (exists n, h = map RStore n ++ held l) -> (exists x, minors x /\ a = x ++ h) ->
    exists extra, minors extra /\ a ≡ₚ extra ++ held l).
  { intros a h (n & ->) (x & Hx & ->). exists (x ++ map RStore n). rewrite app_assoc. split; [|done].
    intros r0 [Hr|Hr]%elem_of_app; [by apply Hx|by eapply minors_stores]. }
  intros ([w1 l1] & j & HJ%buildJobs_builds & HR)%mbind_done.
  destruct j as [j|e]; [|apply mret_done in HR as [[= -> ->] ->]; eapply Hfail; [by exists []|exact HJ]].
  assert (N1 : exists n, held l1 = map RStore n ++ held l) by eauto.
  apply mbind_done in HR as ([w2 l2] & o & HO%buildOIDC_builds & HR).
  destruct o as [o|e]; [|apply mret_done in HR as [[= -> ->] ->]; by eapply Hfail].
  pose proof (Hmore _ _ _ N1 HO) as N2.
  apply mbind_done in HR as ([w3 l3] & c & HC%buildChallenge_builds & HR).
  destruct c as [c|e]; [|apply mret_done in HR as [[= -> ->] ->]; by eapply Hfail].
  pose proof (Hmore _ _ _ N2 HC) as N3.
  apply mbind_done in HR as ([w4 l4] & ms & HM%buildMultisign_builds & HR).
  destruct ms as [ms|e]; [|apply mret_done in HR as [[= -> ->] ->]; by eapply Hfail].
  pose proof (Hmore _ _ _ N3 HM) as N4.
  apply mbind_done in HR as ([w5 l5] & q & HQ%buildQR_builds & HR). apply mret_done in HR as [[= -> ->] ->].
  destruct q as [q|e]; [|by eapply Hfail].
  rewrite HQ, HM, HC, HO, HJ. unfold stores. cbn [sub_jobs sub_oidc sub_multisign sub_challenge sub_qr].
  destruct (some j), (some o), (some ms), (some c), (some q); cbn; solve_Permutation.
Qed.

(** The two commands of one run leave nothing open, however they end. *)
Lemma runCLI_held op args w l w' l' r : runCLI p load_config run_op op args (w, l) = Done ((w', l'), r) -> held l' ≡ₚ held l.
Proof.
  unfold runCLI. destruct (Cli.Cli.extractBoolFlag args "fail-invalid") as [rest fail].
  destruct (load_valid load_config rest) as [cfg|e]; [|by intros [[= -> ->] _]%mret_done].
  intros ([w1 l1] & b & HB%buildService_held & HR)%mbind_done. destruct b as [b|e]; [|by apply mret_done in HR as [[= -> ->] _]].
  apply mbind_done in HR as ([w2 l2] & out & [-> _]%in_world_done & HR). apply mbind_done in HR as ([w3 l3] & u & HC & HR).
  apply mret_done in HR as [[= -> ->] _]. eapply closer_held; [exact HC|]. apply HB.
Qed.
Lemma runLibCheck_held args w l w' l' r : runLibCheck p load_config report_json args (w, l) = Done ((w', l'), r) -> held l' ≡ₚ held l.
Proof.
  unfold runLibCheck. destruct (Cli.Cli.extractBoolFlag args "json") as [rest json].
  destruct (load_valid load_config rest) as [cfg|e]; [|by intros [[= -> ->] _]%mret_done].
  intros ([w1 l1] & d & HD%openLibrary_held & HR)%mbind_done. destruct d as [[pool report]|e]; [|by apply mret_done in HR as [[= -> ->] _]].
  apply mbind_done in HR as ([w2 l2] & u & HC & HR). apply mret_done in HR as [[= -> ->] _].
  eapply close_prov_held; [exact HC|]. apply HD.
Qed.
Lemma run_child_held lp lv w l w' l' r : run_child p serve_worker lp lv (w, l) = Done ((w', l'), r) -> held l' ≡ₚ held l.
Proof.
  intros ([w1 l1] & x & HA%acquire_held & HR)%mbind_done. destruct x as [pool|e]; [|by apply mret_done in HR as [[= -> ->] _]; rewrite HA].
  apply mbind_done in HR as ([w2 l2] & f & [-> _]%in_world_done & HR).
  apply mbind_done in HR as ([w3 l3] & u & HC & HR). apply mret_done in HR as [[= -> ->] _].
  eapply close_prov_held; [exact HC|]. by rewrite HA.
Qed.
(** What a run leaves open: listeners and stores at most, and nothing when it
    ends well. *)
Definition leaves (k : list resource) (l : log) (code : Z) : Prop :=
  exists extra, held l ≡ₚ extra ++ k /\ (forall r, r ∈ extra -> minor r = true) /\ (code = 0 -> extra = []).
Lemma leaves_nothing l k code : held l ≡ₚ k -> leaves k l code.
Proof. intros H. exists []. split; [done|]. split; [|done]. by intros r Hr%elem_of_nil. Qed.
Lemma runServe_leaves args w l w' l' out code :
  runServe p rp load_key open_bolt load_config args (w, l) = Done ((w', l'), (out, code)) -> leaves (held l) l' code.
Proof.
  unfold runServe. destruct (load_valid load_config args) as [cfg|e]; [|intros [[= -> ->] _]%mret_done; by apply leaves_nothing].
  destruct (no_transport cfg); [intros [[= -> ->] _]%mret_done; by apply leaves_nothing|].
  intros ([w1 l1] & signer & HS & HR)%mbind_done.
  assert (l1 = l) as ->.
  { unfold loadServiceKey in HS. destruct (_ && _); [by apply mret_done in HS as [[= -> ->] _]|].
    apply mbind_done in HS as ([w2 l2] & k & [-> _]%in_world_done & HS). by apply mret_done in HS as [[= -> ->] _]. }
  destruct signer as [signer|e]; [|apply mret_done in HR as [[= -> ->] _]; by apply leaves_nothing].
  apply mbind_done in HR as ([w2 l2] & b & HB%buildService_held & HR).
  destruct b as [b|e]; [|apply mret_done in HR as [[= -> ->] _]; by apply leaves_nothing].
  destruct HB as (HB & _).
  apply mbind_done in HR as ([w3 l3] & sub & HSub%build_subsystems_held & HR).
  apply mbind_done in HR as ([w4 l4] & code' & HRun & HR).
  apply mbind_done in HR as ([w5 l5] & u & HC & HR). apply mret_done in HR as [[= -> ->] [= -> ->]].
  assert (exists extra, minors extra /\ held l4 ≡ₚ extra ++ journal_of b ++ RDriver :: held l /\ (code' = 0 -> extra = []))
    as (extra & Hm & Hh & Hc).
  { destruct sub as [sub|e].
    - eapply serve_held; [exact HRun|]. by rewrite HSub, HB.
    - apply mret_done in HRun as [[= -> ->] ->]. destruct HSub as (extra & Hm & HSub). exists extra. by rewrite HSub, HB. }
  exists extra. split; [|by split]. eapply closer_held; [exact HC|]. rewrite Hh. solve_Permutation.
Qed.
(** C23: Whatever command the process runs and however it ends, the driver and the
    journal it opened are closed; a run that ends well has also shut down every
    listener and closed the store of every subsystem. *)
Theorem run_releases args w l w' l' out code :
  run p rp load_key open_bolt load_config report_json run_op serve_worker quote args (w, l) = Done ((w', l'), (out, code)) ->
  exists extra, held l' ≡ₚ extra ++ held l /\ (forall r, r ∈ extra -> minor r = true) /\ (code = 0 -> extra = []).
Proof.
  unfold run. destruct (Cli.Cli.run args) as [rest|rest|rest|rest|op rest|cmd|rest].
  1, 2, 6: intros [[= -> ->] _]%mret_done; by apply leaves_nothing.
  - intros H%runLibCheck_held. by apply leaves_nothing.
  - unfold runCryptoWorker. destruct (worker_flags _ _) as [[lp lv]|]; [|intros [[= -> ->] _]%mret_done; by apply leaves_nothing].
    intros H%run_child_held. by apply leaves_nothing.
  - intros H%runCLI_held. by apply leaves_nothing.
  - apply runServe_leaves.
Qed.

(** A child process loads the library its parent was configured with: the
    command line the parent builds for it is read back, by the dispatch of the
    program and the flag parser, as that path and version. *)
Theorem child_loads_configured exe cfg :
  run p rp load_key open_bolt load_config report_json run_op serve_worker quote (tail (worker_command exe cfg)) =
  run_child p serve_worker (lib_path (cfg_lib cfg)) (lib_version (cfg_lib cfg)).
Proof.
  unfold worker_command. destruct (lib_version (cfg_lib cfg)) as [|c v] eqn:E; reflexivity.
Qed.
End CommandsHeld.

(** ** What the configuration gives the service *)
Lemma absent {X} (P : X -> bool) l x : forallb (fun o => negb (P o)) l = true -> P x = true -> x ∉ l.
Proof. intros Hl Hx Hin%list_elem_of_In. rewrite forallb_forall in Hl. specialize (Hl x Hin). by rewrite Hx in Hl. Qed.
Ltac each_option := unfold service_options; rewrite ?forallb_app; repeat (apply andb_true_iff; split); repeat case_match; done.
(** A service that only verifies is given no access to keys. *)
Lemma verify_only_no_keys cfg signer b : cfg_verify_only cfg = true -> WithKeySource b ∉ service_options cfg signer.
Proof.
  intros Hv. apply (absent (fun o => match o with WithKeySource _ => true | _ => false end)); [|done].
  unfold service_options. rewrite Hv. each_option.
Qed.
(** Receipts are signed only with the service key. *)
Lemma receipts_need_key cfg issuer : WithReceiptSigner issuer ∉ service_options cfg false.
Proof.
  apply (absent (fun o => match o with WithReceiptSigner _ => true | _ => false end)); [|done].
  unfold service_options. rewrite andb_false_r. each_option.
Qed.
(** The child that is spawned runs the worker, on the library of the parent. *)
(** ** A concrete program
    A library that passes its self-test, every file opens, the service is stopped
    at once. *)
Definition lab_settings : gmap string value :=
  <["lib.path" := VString "/k.so"]> (<["http.enabled" := VBool true]> (<["http.addr" := VString ":8080"]>
  (<["jobs.enabled" := VBool true]> (<["audit.enabled" := VBool true]> (<["audit.path" := VString "/j"]>
  (<["crypto-worker.enabled" := VBool false]>
   (fst (layer (fun e => Some (e_def e)) "default" (∅, ∅))))))))).
Definition lab_loaded : Loaded := mkLoaded (config_of lab_settings) ∅.
Definition lab_cfg : Config := config_of lab_settings.
Definition lab_ports (version : string) : ports (W := unit) (D := unit) (J := unit) (T := unit) :=
  mkPorts (fun _ => mret (Ok tt)) (mret (Ok "/bin/q"%string)) (fun _ => mret (Ok tt)) (fun _ => mret (Ok Compat.Compat.passed))
    (fun _ => Compat.Compat.lab_caps version true) (fun _ => mret None) (fun _ => mret (Ok tt)) (fun _ _ => mret 0)
    (fun _ _ _ => mret (Ok tt)) (fun _ => mret None).
Definition lab_run : run_ports (W := unit) :=
  mkRunPorts (mret None) (fun _ => mret tt) (fun _ => mret tt) (fun _ _ => mret (Ok tt)) (mret tt) (fun _ => mret tt) (mret tt) (mret tt) (fun _ => mret None).
Definition lab_build : outcome (unit * log * res goerr (built (D := unit) (J := unit))) :=
  buildService (lab_ports "2.0.13") lab_cfg false (tt, []).
Definition lab_serve : outcome (unit * log * (list printed * Z)) :=
  run (lab_ports "2.0.13") lab_run (fun _ => mret (Ok tt)) (fun _ _ => mret (Ok tt)) (fun _ => Ok lab_loaded)
    (fun _ => Ok EmptyString) (fun _ _ _ _ => mret ([], 0)) (fun _ => mret None) (fun s => s) [] (tt, []).
Lemma service_gated_witness :
  exists l b, lab_build = Done ((tt, l), Ok b) /\ held l ≡ₚ [RJournal; RDriver].
Proof.
  assert (exists l b, lab_build = Done ((tt, l), Ok b) /\ journal_of b = [RJournal]) as (l & b & E & Hj)
    by (do 2 eexists; split; vm_compute; reflexivity).
  exists l, b. split; [exact E|]. destruct (service_gated (lab_ports "2.0.13") lab_cfg false tt [] tt l _ E) as [Hh _].
  rewrite Hj in Hh. exact Hh.
Defined.
Lemma run_releases_witness : exists l, lab_serve = Done ((tt, l), ([], 0)) /\ held l ≡ₚ [].
Proof.
  assert (exists l, lab_serve = Done ((tt, l), ([], 0))) as [l E] by (eexists; vm_compute; reflexivity).
  exists l. split; [exact E|].
  destruct (run_releases (lab_ports "2.0.13") lab_run (fun _ => mret (Ok tt)) (fun _ _ => mret (Ok tt))
    (fun _ => Ok lab_loaded) (fun _ => Ok EmptyString) (fun _ _ _ _ => mret ([], 0)) (fun _ => mret None) (fun s => s) [] tt [] tt l [] 0 E) as (extra & Hh & _ & Hz).
  rewrite (Hz eq_refl) in Hh. exact Hh.
Defined.
(** What was held on the way, and what a refused library leaves. *)
Example lab_log : match lab_serve with Done ((_, l), _) => l | Panic => [] end =
  [Acquired RDriver; Acquired RJournal; Acquired (RStore "jobs"); Acquired (RListener "rest"); Released (RListener "rest");
   Released (RStore "jobs"); Released RJournal; Released RDriver].
Proof. vm_compute. reflexivity. Qed.

End App.
