(* ===== verification/Wiring.v ===== *)
(** * What a configuration puts on the network (cmd/qoltanba/main.go: the REST
    server of [serve]; transport/rest/rest.go: [Routes])

    The REST server assembled from the subsystems that were built, and the
    verifier of the audit journal. The routes that the process registers are
    exactly those of the features its configuration switches on, and the journal
    the service key seals is one that its verifier accepts. *)
From S2P Require Import Prelude Errors Text Jws Journal Jobs Challenge Oidc Qr SignedQr Idempotency Provider CoreTypes Batch Dispatch Multisign Config RestServer RestSpec GrpcServer App.
Import Config.Config App.App.

Module Wiring.

(** ** The signatures of the journal *)
Section Entries.
  Context {F : Type}.
(** [auditEntryVerifier] of a service key, at the time of the check. *)
Definition auditEntryVerifier (key : option (string -> time -> res goerr (gmap string (Jws.Jws.json F)))) (now : time)
    : option (Journal.Journal.Entry -> option goerr) :=
  match key with
  | None => None
  | Some verify => Some (fun e =>
      match verify (Journal.Journal.en_signature e) now with
      | Err err => Some err
      | Ok claims =>
          let hash := match claims !! "hash"%string with Some (Jws.Jws.JText h) => h | _ => EmptyString end in
          if str_eqb hash (Journal.Journal.en_hash e) then None else Some (Errors.New "signature covers a different entry")
      end)
  end.
(** The claims of a [Seal]; [auditSigner] of a key. *)
Definition seal_claims (s : Journal.Journal.Seal) : gmap string (Jws.Jws.gval F) :=
  <["seq"%string := Jws.Jws.GInt (Journal.Journal.sl_seq s)]> {["hash"%string := Jws.Jws.GText (Journal.Journal.sl_hash s)]}.
Definition auditSigner (key : option (gmap string (Jws.Jws.gval F) -> res goerr string)) : option (Journal.Journal.Seal -> res goerr string) :=
  match key with None => None | Some sign => Some (fun s => sign (seal_claims s)) end.
End Entries.

(** ** A journal under the service key *)
Section Sealed.
  Context {W F : Type}.
  Variable c : Jws.Jws.codec F.
  Variable sha256 sha256_hex : string -> string.
  (** The key signs a digest the same way each time. *)
  Variable rsa_sign : string -> M W (res goerr string).
  Variable rsa_verify : string -> string -> bool.
  Variable kid : string.
  Variable world : W.
Definition key_sign (claims : gmap string (Jws.Jws.gval F)) : res goerr string :=
  match Jws.Jws.Sign c sha256 rsa_sign kid claims world with Done (_, r) => r | Panic => Err (Errors.New "panic") end.
Notation key_verify := (Jws.Jws.Verify c sha256 rsa_verify).

Lemma seal_exp s : (Jws.Jws.decoded c <$> seal_claims s) !! "exp"%string = None.
Proof. rewrite lookup_fmap. reflexivity. Qed.
Lemma seal_hash s : (Jws.Jws.decoded c <$> seal_claims s) !! "hash"%string = Some (Jws.Jws.JText (utf8_clean (Journal.Journal.sl_hash s))).
Proof. rewrite lookup_fmap. reflexivity. Qed.

(** The verifier accepts an entry that the key has sealed. *)
Lemma sealed_entry_accepted now f e :
  Jws.Jws.codec_laws c -> Jws.Jws.key_sound rsa_sign rsa_verify -> (forall s, utf8_clean (sha256_hex s) = sha256_hex s) ->
  auditEntryVerifier (Some key_verify) now = Some f -> Journal.Journal.en_hash e = Journal.Journal.hashOf sha256_hex e ->
  (forall sign, auditSigner (Some key_sign) = Some sign ->
     sign (Journal.Journal.mkSeal (Journal.Journal.en_seq e) (Journal.Journal.en_hash e)) = Ok (Journal.Journal.en_signature e)) ->
  f e = None.
Proof.
  intros Hc Hk Hx [= <-] Hh Hs. specialize (Hs _ eq_refl). unfold key_sign in Hs.
  destruct (Jws.Jws.Sign _ _ _ _ _ _) as [[w' r]|] eqn:E; [|done]. subst r.
  rewrite (Jws.Jws.verify_signed _ _ _ _ _ _ _ _ _ now Hc Hk E).
  rewrite seal_exp, seal_hash. cbn [Journal.Journal.sl_hash]. rewrite Hh. cbn. unfold Journal.Journal.hashOf. by rewrite Hx, str_eqb_refl.
Qed.

(** C10: A journal that the service key seals, to the verifier of the audit
    endpoint, after any sequence of appends whose writes succeed and of restarts.
    When the fields of every event are valid UTF-8 it is intact: every signature
    covers its own entry, and the check reports one entry per append and the
    log's own head. An event with another field is hashed as it is and written
    with replacement characters, so the check stops at the first such entry, as
    edited, unless the digest of what was written is that of what was meant. *)
Theorem service_journal_intact now evs l :
  Jws.Jws.codec_laws c -> Jws.Jws.key_sound rsa_sign rsa_verify -> (forall s, utf8_clean (sha256_hex s) = sha256_hex s) ->
  Journal.Journal.history sha256_hex (auditSigner (Some key_sign)) evs l -> Z.of_nat (length evs) < 2 ^ 64 ->
  let verdict := Journal.Journal.Verify sha256_hex (auditEntryVerifier (Some key_verify) now) (Journal.Journal.lg_file l) None in
  (Forall Journal.Journal.event_ok evs ->
   verdict = Journal.Journal.mkVerify (Z.of_nat (length evs)) 0 "" (Journal.Journal.lg_prev l) true) /\
  (forall pre ev post, evs = pre ++ ev :: post -> Forall Journal.Journal.event_ok pre -> ~ Journal.Journal.event_ok ev ->
   exists e e', Journal.Journal.written e ∈ Journal.Journal.lg_file l /\
     Journal.Journal.written e = Journal.Journal.LEntry e' /\ Journal.Journal.en_event e = ev /\
     (Journal.Journal.hashOf sha256_hex e' = Journal.Journal.hashOf sha256_hex e \/
      verdict = Journal.Journal.mkVerify (Z.of_nat (length pre)) (Z.of_nat (length pre) + 1)
                  "entry content does not match its hash (it was edited)" "" false)).
Proof.
  intros Hc Hk Hx Hh Hl. refine (Journal.Journal.history_verdict sha256_hex _ _ _ evs l Hh Hl).
  intros f e. exact (sealed_entry_accepted now f e Hc Hk Hx).
Qed.
End Sealed.

(** ** The REST server *)
Section Rest.
  Context {W F DD KS : Type}.
  (** The services behind the handlers, from their configurations; the published
      keys; the check of an entry of the journal. *)
Record apis := mkApis {
  ap_jobs : Jobs.Jobs.Config -> Server.jobs_api W;
  ap_oidc : Oidc.Oidc.Config * gmap string Oidc.Oidc.Client -> Server.oidc_api W F DD KS;
  ap_qr : qr_setup -> Server.qr_api W;
  ap_challenge : Challenge.Challenge.Config -> Server.challenge_api W;
  ap_multisign : duration -> Server.multisign_api W;
  ap_documents : string -> Server.document_api W F;
  ap_keys : M W KS;
  ap_entries : bool -> option (Journal.Journal.Entry -> option goerr);
}.
  Variable ap : apis.
Notation Option := (Server.Server W F DD KS -> Server.Server W F DD KS).

(** An option that depends on a subsystem, on a switch. *)
Definition with_some {X} (o : option X) (f : X -> Option) : list Option := match o with Some x => [f x] | None => [] end.
Definition with_if (b : bool) (f : Option) : list Option := if b then [f] else [].
Definition rest_options (cfg : Config) (sub : subsystems) : list Option :=
  let c := cfg_console cfg in
  with_some (sub_jobs sub) (fun j => Server.WithJobs (ap_jobs ap j)) ++
  with_some (sub_oidc sub) (fun o => Server.WithOIDC (ap_oidc ap o)) ++
  with_if (sub_signer sub) (Server.WithServiceKey (ap_keys ap)) ++
  with_some (sub_challenge sub) (fun c => Server.WithChallenge (ap_challenge ap c)) ++
  with_some (sub_multisign sub) (fun m => Server.WithMultisign (ap_multisign ap m)) ++
  with_if (portal_enabled (cfg_portal cfg)) Server.WithPortal ++
  with_if (receipts_signed_qr (cfg_receipts cfg) && sub_signer sub) (Server.WithSignedQR (ap_documents ap (ReceiptIssuer cfg))) ++
  with_if (console_enabled c) Server.WithConsole ++
  with_if (negb (empty_str (console_sandbox_key c))) (Server.WithSandboxKey (console_sandbox_key c) (console_sandbox_key_password c)) ++
  with_if (audit_enabled (cfg_audit cfg) && audit_expose (cfg_audit cfg))
    (Server.WithAudit (audit_path (cfg_audit cfg)) (ap_entries ap (sub_signer sub))) ++
  with_some (sub_qr sub) (fun q => Server.WithQR (ap_qr ap q) (qr_public_base_url (cfg_qr cfg))).
Definition rest_server core registry (cfg : Config) (sub : subsystems) : Server.Server W F DD KS :=
  Server.New core registry (rest_options cfg sub).
(** The gRPC server: the operations, and the jobs when they are on. *)
Definition grpc_server core (sub : subsystems) : GrpcServer.GrpcServer.Server W :=
  GrpcServer.GrpcServer.New core (match sub_jobs sub with Some j => [GrpcServer.GrpcServer.WithJobs (ap_jobs ap j)] | None => [] end).
(** The cache that the transports share. *)
Definition idempotency_cache (cfg : Config) : option Idempotency.cache :=
  if idempotency_enabled (cfg_idempotency cfg)
  then Some (Idempotency.New (Idempotency_ResolveTTL cfg) (ResolveMaxEntries cfg)) else None.
End Rest.
Arguments apis : clear implicits.

(** ** The routes of a configuration
    A feature's switch and the patterns it owns, in the order they are
    registered. *)
(** A pattern as the code writes it: a method and a path with [{id}]. *)
Definition at_ (m path : string) : Server.pattern :=
  (m, map (fun w => if str_eqb w "{id}" then Server.Val "id" else Server.Lit w) (Server.path_segments path)).
Definition core_patterns : list Server.pattern :=
  map (at_ "POST") ["/sign"; "/sign/add"; "/verify"; "/verify/at"; "/extract"; "/cert/info"; "/cert/validate"; "/sign/batch"; "/verify/batch";
                    "/verify/registry"; "/sign/archive"; "/extract/batch"; "/cert/info/batch"; "/cert/validate/batch"]%string.
Definition surface (cfg : Config) : list Server.pattern :=
  let key := oidc_enabled (cfg_oidc cfg) || receipts_enabled (cfg_receipts cfg) in
  let c := cfg_console cfg in
  let a := cfg_audit cfg in
  core_patterns ++
  Server.when (jobs_enabled (cfg_jobs cfg))
    [at_ "POST" "/jobs"; at_ "GET" "/jobs/{id}"; at_ "GET" "/jobs/{id}/result"; at_ "DELETE" "/jobs/{id}"] ++
  Server.when key [at_ "GET" "/jwks.json"] ++
  Server.when (oidc_enabled (cfg_oidc cfg))
    [at_ "GET" "/.well-known/openid-configuration"; at_ "GET" "/oidc/jwks.json"; at_ "POST" "/oidc/challenge";
     at_ "POST" "/oidc/verify"; at_ "GET" "/oidc/authorize"; at_ "POST" "/oidc/authorize"; at_ "POST" "/oidc/token";
     at_ "GET" "/oidc/userinfo"] ++
  Server.when (receipts_signed_qr (cfg_receipts cfg) && key) [at_ "POST" "/qr/documents"; at_ "POST" "/qr/documents/verify"] ++
  Server.when (console_enabled c) [at_ "GET" "/console"] ++
  Server.when (negb (empty_str (console_sandbox_key c))) [at_ "POST" "/sandbox/sign"] ++
  Server.when (audit_enabled a && audit_expose a && negb (empty_str (audit_path a)))
    [at_ "GET" "/audit/verify"; at_ "GET" "/audit/export"] ++
  Server.when (multisign_enabled (cfg_multisign cfg))
    [at_ "POST" "/multisign/sessions"; at_ "GET" "/multisign/sessions/{id}"; at_ "POST" "/multisign/sessions/{id}/signatures";
     at_ "DELETE" "/multisign/sessions/{id}"] ++
  Server.when (portal_enabled (cfg_portal cfg)) [at_ "GET" "/verify/portal"; at_ "POST" "/verify/portal"] ++
  Server.when (challenge_enabled (cfg_challenge cfg)) [at_ "POST" "/challenge"; at_ "POST" "/challenge/confirm"] ++
  Server.when (qr_enabled (cfg_qr cfg))
    [at_ "POST" "/qr/sessions"; at_ "GET" "/qr/sessions/{id}"; at_ "GET" "/qr/a/{id}"; at_ "POST" "/qr/a/{id}"].

(** ** What was built is what is switched on *)
Section Built.
  Context {W : Type}.
  Variable load_key : string -> M W (res goerr unit).
  Variable open_bolt : string -> string -> M W (res goerr unit).

(** A builder of a switchable feature: present exactly when it is on. *)
Definition switched {X} (on : bool) (m : M (W * log) (res goerr (option X))) : Prop :=
  forall w w' o, m w = Done (w', Ok o) -> some o = on.
Ltac switch := intros w w' o; match goal with |- (if negb ?b then _ else _) _ = _ -> _ => destruct b end;
  [intros (w1 & [u|e] & _ & HR)%mbind_done; by apply mret_done in HR as [_ [= ->]] | by intros [_ [= ->]]%mret_done].
Lemma jobs_switched cfg : switched (jobs_enabled (cfg_jobs cfg)) (buildJobs open_bolt cfg).
Proof. unfold buildJobs. switch. Qed.
Lemma challenge_switched cfg : switched (challenge_enabled (cfg_challenge cfg)) (buildChallenge open_bolt cfg).
Proof. unfold buildChallenge. switch. Qed.
Lemma multisign_switched cfg : switched (multisign_enabled (cfg_multisign cfg)) (buildMultisign open_bolt cfg).
Proof. unfold buildMultisign. switch. Qed.
Lemma qr_switched cfg b : switched (qr_enabled (cfg_qr cfg)) (buildQR open_bolt cfg b).
Proof. unfold buildQR. switch. Qed.
Lemma oidc_switched cfg signer : switched (oidc_enabled (cfg_oidc cfg)) (buildOIDC open_bolt cfg signer).
Proof.
  unfold buildOIDC. intros w w' o. destruct (oidc_enabled _); [|by intros [_ [= ->]]%mret_done].
  cbn [negb]. destruct signer; [|by intros [_ ?]%mret_done].
  intros (w1 & [u|e] & _ & HR)%mbind_done; apply mret_done in HR as [_ HR]; [|done].
  destruct (Oidc.Oidc.ParseClients _ _); [|done]. by injection HR as ->.
Qed.
Lemma key_loaded cfg w w' signer : loadServiceKey load_key cfg w = Done (w', Ok signer) ->
  signer = oidc_enabled (cfg_oidc cfg) || receipts_enabled (cfg_receipts cfg).
Proof.
  unfold loadServiceKey. rewrite <- negb_orb. destruct (oidc_enabled _ || receipts_enabled _).
  - intros (w1 & [u|e] & _ & HR)%mbind_done; by apply mret_done in HR as [_ [= ->]].
  - by intros [_ [= ->]]%mret_done.
Qed.
Lemma subsystems_switched cfg signer w w' sub : build_subsystems open_bolt cfg signer w = Done (w', Ok sub) ->
  some (sub_jobs sub) = jobs_enabled (cfg_jobs cfg) /\ some (sub_oidc sub) = oidc_enabled (cfg_oidc cfg) /\
  some (sub_qr sub) = qr_enabled (cfg_qr cfg) /\ some (sub_challenge sub) = challenge_enabled (cfg_challenge cfg) /\
  some (sub_multisign sub) = multisign_enabled (cfg_multisign cfg) /\ sub_signer sub = signer.
Proof.
  intros (w1 & [j|e] & HJ & HR)%mbind_done; [|by apply mret_done in HR as [_ HR]].
  apply mbind_done in HR as (w2 & [o|e] & HO & HR); [|by apply mret_done in HR as [_ HR]].
  apply mbind_done in HR as (w3 & [c|e] & HC & HR); [|by apply mret_done in HR as [_ HR]].
  apply mbind_done in HR as (w4 & [m|e] & HM & HR); [|by apply mret_done in HR as [_ HR]].
  apply mbind_done in HR as (w5 & [q|e] & HQ & HR); apply mret_done in HR as [_ HR]; [|done]. apply ok_inj in HR as ->.
  split; [by eapply jobs_switched|]. split; [by eapply oidc_switched|]. split; [by eapply qr_switched|].
  split; [by eapply challenge_switched|]. split; [by eapply multisign_switched|done].
Qed.
End Built.

(** ** The server as its options leave it *)
Section Surface.
  Context {W F DD KS : Type}.
  Variable ap : apis W F DD KS.
Notation St := (Server.Server W F DD KS).
(** From a server where a field is [x], the options lead to one where it is [y]. *)
Definition after {A} (g : St -> A) (l : list (St -> St)) (x y : A) : Prop := forall s, g s = x -> g (fold_left (fun s o => o s) l s) = y.
Lemma after_none {A} (g : St -> A) x : after g [] x x.
Proof. by intros s. Qed.
Lemma after_some {A X} (g : St -> A) (h : X -> A -> A) (o : option X) (f : X -> St -> St) l x y :
  (forall v s, g (f v s) = h v (g s)) -> after g l (match o with Some v => h v x | None => x end) y -> after g (with_some o f ++ l) x y.
Proof. intros Hf Hl s Hs. destruct o as [v|]; apply Hl; [by rewrite Hf, Hs|done]. Qed.
Lemma after_if {A} (g : St -> A) (h : A -> A) (b : bool) (f : St -> St) l x y :
  (forall s, g (f s) = h (g s)) -> after g l (if b then h x else x) y -> after g (with_if b f ++ l) x y.
Proof. intros Hf Hl s Hs. destruct b; apply Hl; [by rewrite Hf, Hs|done]. Qed.
Lemma keep_some {A X} (g : St -> A) (o : option X) (f : X -> St -> St) l x y :
  (forall v s, g (f v s) = g s) -> after g l x y -> after g (with_some o f ++ l) x y.
Proof. intros Hf Hl. apply (after_some g (fun _ a => a)); [done|]. by destruct o. Qed.
Lemma keep_if {A} (g : St -> A) (b : bool) (f : St -> St) l x y : (forall s, g (f s) = g s) -> after g l x y -> after g (with_if b f ++ l) x y.
Proof. intros Hf Hl. apply (after_if g (fun a => a)); [done|]. by destruct b. Qed.

Section Fields.
  Variable core : Locale -> Dispatch.Dispatch.core_ops W.
  Variable registry : Locale -> list RegistryItem -> BatchOptions -> M W RegistryOutput.
  Variable cfg : Config.
  Variable sub : subsystems.
Notation s := (rest_server ap core registry cfg sub).
(** A field that one option sets: the others keep it. *)
Ltac kept := repeat first [apply keep_some; [done|] | apply keep_if; [done|]].
Lemma options_end (g : St -> bool) x y : after g (rest_options ap cfg sub ++ []) x y -> g (Server.bare core registry) = x -> g s = y.
Proof. rewrite app_nil_r. intros H Hx. by apply H. Qed.
Ltac field g := apply (options_end g false); [|done]; unfold rest_options; rewrite <- !app_assoc; kept.
Ltac set_some := eapply (after_some _ (fun _ _ => true)); [done|]; kept; apply after_none.
Ltac set_if := eapply (after_if _ (fun _ => true)); [done|]; kept; apply after_none.
Lemma has_jobs : Server.present (Server.sv_jobs s) = some (sub_jobs sub).
Proof. field (fun s : St => Server.present (Server.sv_jobs s)). set_some. Qed.
Lemma has_oidc : Server.present (Server.sv_oidc s) = some (sub_oidc sub).
Proof. field (fun s : St => Server.present (Server.sv_oidc s)). set_some. Qed.
Lemma has_qr : Server.present (Server.sv_qr s) = some (sub_qr sub).
Proof. field (fun s : St => Server.present (Server.sv_qr s)). set_some. Qed.
Lemma has_challenge : Server.present (Server.sv_challenge s) = some (sub_challenge sub).
Proof. field (fun s : St => Server.present (Server.sv_challenge s)). set_some. Qed.
Lemma has_multisign : Server.present (Server.sv_multisign s) = some (sub_multisign sub).
Proof. field (fun s : St => Server.present (Server.sv_multisign s)). set_some. Qed.
Lemma if_id (b : bool) : b = if b then true else false.
Proof. by destruct b. Qed.
Lemma has_portal : Server.sv_portal s = portal_enabled (cfg_portal cfg).
Proof. rewrite (if_id (portal_enabled _)). field (fun s : St => Server.sv_portal s). set_if. Qed.
Lemma has_console : Server.sv_console s = console_enabled (cfg_console cfg).
Proof. rewrite (if_id (console_enabled _)). field (fun s : St => Server.sv_console s). set_if. Qed.
Lemma has_documents : Server.present (Server.sv_signed_qr s) = receipts_signed_qr (cfg_receipts cfg) && sub_signer sub.
Proof. rewrite (if_id (_ && _)). field (fun s : St => Server.present (Server.sv_signed_qr s)). set_if. Qed.
Lemma has_keys : Server.present (Server.sv_jwks s) = some (sub_oidc sub) || sub_signer sub.
Proof.
  transitivity (if sub_signer sub then true else some (sub_oidc sub)); [|by destruct (sub_oidc sub), (sub_signer sub)].
  field (fun s : St => Server.present (Server.sv_jwks s)). eapply (after_some _ (fun _ _ => true)); [done|].
  eapply (after_if _ (fun _ => true)); [intros s'; simpl; by destruct (Server.sv_jwks s')|]. kept. apply after_none.
Qed.
Lemma has_sandbox : negb (empty_str (Server.sv_sandbox_key s)) = negb (empty_str (console_sandbox_key (cfg_console cfg))).
Proof.
  rewrite (if_id (negb (empty_str (console_sandbox_key _)))). field (fun s : St => negb (empty_str (Server.sv_sandbox_key s))).
  destruct (empty_str (console_sandbox_key _)) eqn:E; [cbn [negb with_if app]; kept; apply after_none|].
  eapply (after_if _ (fun _ => true)); [intros s'; simpl; by rewrite E|]. kept. apply after_none.
Qed.
Lemma has_audit : negb (empty_str (Server.sv_audit_path s)) =
  audit_enabled (cfg_audit cfg) && audit_expose (cfg_audit cfg) && negb (empty_str (audit_path (cfg_audit cfg))).
Proof.
  transitivity (if audit_enabled (cfg_audit cfg) && audit_expose (cfg_audit cfg)
                then negb (empty_str (audit_path (cfg_audit cfg))) else false); [|by destruct (_ && _)].
  field (fun s : St => negb (empty_str (Server.sv_audit_path s))).
  eapply (after_if _ (fun _ => negb (empty_str (audit_path (cfg_audit cfg))))); [done|]. kept. apply after_none.
Qed.
End Fields.

  Variable load_key : string -> M W (res goerr unit).
  Variable open_bolt : string -> string -> M W (res goerr unit).
  Variable ps : Server.parsers F.
  Variable ParseForm : Server.request -> res goerr (string -> string).
  Variable BasicAuth : Server.request -> option (string * string).
  Variable ParseMultipartForm : Server.request -> res goerr (string -> option string).
  Variable location : Server.request -> string -> string.
  Variable open_journal : string -> M W (res goerr (list Journal.Journal.line * option goerr * string)).
  Variable sha256_hex : string -> string.
Notation routes s := (Server.routes s ps ParseForm BasicAuth ParseMultipartForm location open_journal sha256_hex).

(** C21: The process registers exactly the routes of the features its configuration
    switches on: with the service key and the subsystems that it built, the
    patterns of the REST server are those the configuration says, in that order,
    whatever the services are. *)
Theorem surface_configured core registry cfg w w1 w2 w3 signer sub :
  loadServiceKey load_key cfg w = Done (w1, Ok signer) ->
  build_subsystems open_bolt cfg signer w2 = Done (w3, Ok sub) ->
  map Server.rt_pattern (routes (rest_server ap core registry cfg sub)) = surface cfg.
Proof.
  intros HK%key_loaded (HJ & HO & HQ & HC & HM & HS)%subsystems_switched. unfold surface. cbv zeta.
  rewrite <- HK, <- HJ, <- HO, <- HQ, <- HC, <- HM.
  unfold Server.routes, Server.job_routes, Server.jwks_routes, Server.oidc_routes, Server.document_routes, Server.console_routes,
    Server.sandbox_routes, Server.audit_routes, Server.multisign_routes, Server.portal_routes, Server.challenge_routes, Server.qr_routes.
  rewrite has_jobs, has_oidc, has_qr, has_challenge, has_multisign, has_portal, has_console, has_documents, has_keys, has_sandbox, has_audit.
  rewrite !map_app, !RestSpec.Serving.map_when, HS.
  replace (some (sub_oidc sub) || signer) with signer by (rewrite HK, HO; by destruct (oidc_enabled _)).
  reflexivity.
Qed.
End Surface.

(** ** Concrete runs *)
Definition lab_hash : string := "h".
Definition lab_event : Journal.Journal.Event := Journal.Journal.mkEvent "sign" "" "doc" "900101300123" "valid" "".
Definition lab_claims : gmap string (Jws.Jws.gval Z) := seal_claims (Journal.Journal.mkSeal 1 lab_hash).
Definition lab_decoded : gmap string (Jws.Jws.json Z) :=
  Jws.Jws.decoded (Jws.Jws.mkCodec (fun _ => Ok ""%string) (fun _ => None) id id) <$> lab_claims.
Definition lab_codec : Jws.Jws.codec Z :=
  Jws.Jws.mkCodec (fun m => if bool_decide (m = lab_claims) then Ok "P"%string else Err (Errors.New "json"))
    (fun s => if str_eqb s "P" then Some lab_decoded else None) id id.
Definition lab_key : gmap string (Jws.Jws.gval Z) -> res goerr string :=
  key_sign lab_codec id (fun d => mret (Ok d)) "kid" tt.
Definition lab_append : Journal.Journal.log * res goerr Journal.Journal.Entry :=
  Journal.Journal.Append (fun _ => lab_hash) (auditSigner (Some lab_key)) lab_event 5 Journal.Journal.IoOk
    (Journal.Journal.mkLog [] 0 Journal.Journal.genesisHash false).
Lemma lab_seal_codec_laws : Jws.Jws.codec_laws lab_codec.
Proof.
  constructor; [|done]. intros m s. unfold lab_codec. cbn [Jws.Jws.cd_marshal Jws.Jws.cd_unmarshal].
  case_bool_decide as E; [|done]. intros [= <-]. by subst.
Qed.
Lemma service_journal_intact_witness :
  Journal.Journal.Verify (fun _ => lab_hash)
    (auditEntryVerifier (Some (Jws.Jws.Verify lab_codec id (fun d sig => str_eqb d sig))) 0)
    (Journal.Journal.lg_file (fst lab_append)) None = Journal.Journal.mkVerify 1 0 "" lab_hash true.
Proof.
  assert (exists l e, lab_append = (l, Ok e) /\ Journal.Journal.lg_prev l = lab_hash)
    as (l & e & E & Hp) by (do 2 eexists; split; [vm_compute; reflexivity|by vm_compute]).
  assert (Journal.Journal.history (fun _ => lab_hash) (auditSigner (Some lab_key)) [lab_event] l) as Hh
    by (eapply (Journal.Journal.HistAppend _ _ []); [apply Journal.Journal.HistNew|exact E]).
  rewrite E. cbn [fst]. transitivity (Journal.Journal.mkVerify 1 0 "" (Journal.Journal.lg_prev l) true); [|by rewrite Hp].
  refine (proj1 (service_journal_intact lab_codec id (fun _ => lab_hash) (fun d => mret (Ok d)) (fun d sig => str_eqb d sig) "kid" tt 0
    [lab_event] l lab_seal_codec_laws _ _ Hh _) _).
  - intros d w w' sig [_ [= ->]]%mret_done. apply str_eqb_refl.
  - reflexivity.
  - reflexivity.
  - repeat constructor.
Defined.

Import RestSpec.Serving.
Definition lab_refused {A} : M unit (res goerr A) := mret (Err ErrUnsupported).
Definition lab_apis : apis unit unit unit unit :=
  mkApis (fun _ => lab_jobs)
    (fun _ => Server.mkOidcApi unit unit unit unit (mret tt) (mret tt) (fun _ _ => lab_refused) (fun _ _ _ => lab_refused) (fun _ => lab_refused)
                (fun _ => lab_refused) (fun _ _ _ => lab_refused) (fun _ => lab_refused))
    (fun _ => Server.mkQrApi unit (fun _ _ => lab_refused) (fun _ => lab_refused) (fun _ => lab_refused) (fun _ _ => mret None))
    (fun _ => Server.mkChallengeApi unit (fun _ => lab_refused) (fun _ => mret (Challenge.Challenge.no_response, None)))
    (fun _ => Server.mkMultisignApi unit (fun _ => lab_refused) (fun _ => lab_refused) (fun _ _ => lab_refused) (fun _ => mret None))
    (fun _ => Server.mkDocumentApi unit unit (fun _ => lab_refused) (fun _ => mret (SignedQr.SignedQr.mkResult false "" "" "" None None [])))
    (mret tt) (fun _ => None).
Definition lab_core_ops (l : Locale) : Dispatch.Dispatch.core_ops unit := lab_core.
Definition lab_registry (l : Locale) (items : list RegistryItem) (o : BatchOptions) : M unit RegistryOutput := mret (mkRegistry 0 0 0 0 0 0 []).
Definition lab_load (path : string) : M unit (res goerr unit) := mret (Ok tt).
Definition lab_bolt (name path : string) : M unit (res goerr unit) := mret (Ok tt).
(** With the jobs and a journal that is not exposed: the operations and the
    jobs. *)
Lemma surface_configured_witness :
  exists signer sub, loadServiceKey lab_load lab_cfg (tt, []) = Done ((tt, []), Ok signer) /\
    map Server.rt_pattern (Server.routes (rest_server lab_apis lab_core_ops lab_registry lab_cfg sub) lab_parsers lab_form lab_basic lab_files
      lab_location lab_journal id) =
    core_patterns ++ [at_ "POST" "/jobs"; at_ "GET" "/jobs/{id}"; at_ "GET" "/jobs/{id}/result"; at_ "DELETE" "/jobs/{id}"]%string.
Proof.
  assert (loadServiceKey lab_load lab_cfg (tt, []) = Done ((tt, []), Ok false)) as HK by (vm_compute; reflexivity).
  assert (exists w sub, build_subsystems lab_bolt lab_cfg false (tt, []) = Done (w, Ok sub)) as (w & sub & HS)
    by (do 2 eexists; vm_compute; reflexivity).
  exists false, sub. split; [exact HK|].
  rewrite (surface_configured lab_apis lab_load lab_bolt lab_parsers lab_form lab_basic lab_files lab_location lab_journal id
             lab_core_ops lab_registry lab_cfg (tt, []) (tt, []) (tt, []) w false sub HK HS).
  vm_compute. reflexivity.
Defined.
End Wiring.
