(* ===== verification/SpecDoc.v ===== *)
(** * The description of the REST API (tools/openapigen/spec.go)

    The tables of endpoints, the schemas and paths written by hand, the document
    and the Postman collection. Go maps are lists of fields: a write replaces a
    field or adds it, and no two fields share a key. *)
From stdpp Require Import sorting.
From S2P Require Import Prelude Text Jws.

Module SpecDoc.
Import Jws.Jws.

(** ** Objects *)
Section Objects.
  Context {A : Type}.
Fixpoint get (k : string) (m : list (string * A)) : option A :=
  match m with [] => None | (x, v) :: t => if str_eqb x k then Some v else get k t end.
Fixpoint put (k : string) (v : A) (m : list (string * A)) : list (string * A) :=
  match m with [] => [(k, v)] | (x, y) :: t => if str_eqb x k then (k, v) :: t else (x, y) :: put k v t end.
Definition put_all (l m : list (string * A)) : list (string * A) := fold_left (fun m p => put (fst p) (snd p) m) l m.
End Objects.
(** What both [openapigen] and its tests call an operation of the API. *)
Record endpoint := mkEndpoint {
  e_method : string; e_path : string; e_opID : string; e_tag : string; e_summary : string; e_reqSchema : string;
  e_respSchema : string; e_respDesc : string; e_body : string;
}.
(** An example body: an apostrophe stands for a quotation mark. *)
Definition body (s : string) : string := string_map (fun c => if Ascii.eqb c "'" then ascii_of_nat 34 else c) s.

(** ** The tables *)
Open Scope string_scope.
Open Scope list_scope.

Definition endpoints : list endpoint :=
  [mkEndpoint "POST" "/sign" "sign" "signature" "Sign data (CMS / XML / WSSE)" "SignRequest" "SignResponse"
       "Signature produced (check libError for a crypto-core failure)" (body
       "{'format':'cms','data':'{{dataBase64}}','key':{'path':{'path':'/keys/signer.p12','password':'{{keyPassword}}'}},'detached':false,'withTimestamp':false}");
   mkEndpoint "POST" "/sign/add" "signAdd" "signature" "Co-sign — add a signer to an already-signed container" "SignRequest" "SignResponse"
       "Signature produced" (body
       "{'format':'cms','data':'{{dataBase64}}','key':{'path':{'path':'/keys/signer2.p12','password':'{{keyPassword}}'}},'existingSignature':'{{signatureBase64}}'}");
   mkEndpoint "POST" "/verify" "verify" "signature" "Verify a signature and extract everything available" "VerifyRequest" "VerifyResponse"
       "Verification outcome (an invalid signature is valid=false + libError, still HTTP 200)" (body
       "{'format':'cms','signature':'{{signatureBase64}}','checkCertTime':true,'extractContent':true,'claims':true,'explain':true}");
   mkEndpoint "POST" "/verify/at" "verifyAt" "signature"
       "Historical (point-in-time) verify: was the signature valid at a past instant, reconstructing certificate validity and revocation status as of that time"
       "VerifyAtRequest" "VerifyAtResponse"
       "Point-in-time outcome per signer (validAt + determinate; a not-valid-then signature is validAt=false, still HTTP 200)" (body
       "{'format':'cms','signature':'{{signatureBase64}}','at':'2022-06-01T00:00:00Z','method':'ocsp'}");
   mkEndpoint "POST" "/extract" "extract" "signature" "Recover the original content from an attached signature" "ExtractRequest" "ExtractResponse"
       "Recovered content" (body "{'format':'cms','signature':'{{signatureBase64}}'}");
   mkEndpoint "POST" "/cert/info" "certInfo" "certificate" "Fully parse a certificate (optionally build/validate the chain, add claims)"
       "CertInfoRequest" "CertInfoResponse" "Parsed certificate plus optional chain and claims" (body
       "{'cert':'{{certBase64}}','encoding':'der','buildChain':true,'claims':true}");
   mkEndpoint "POST" "/cert/validate" "certValidate" "certificate" "Check a certificate's revocation status (OCSP / CRL)" "ValidateRequest"
       "ValidateResponse" "Revocation-status outcome" (body "{'cert':'{{certBase64}}','encoding':'der','method':'ocsp','wantOcsp':true}");
   mkEndpoint "POST" "/sign/batch" "signBatch" "batch" "Sign many items (aggregated JSON, or NDJSON stream with Accept: application/x-ndjson)"
       "SignBatchRequest" "SignBatchResponse" "Per-item results in request order, plus a summary" (body
       "{'items':[{'format':'cms','data':'{{dataBase64}}','key':{'path':{'path':'/keys/signer.p12','password':'{{keyPassword}}'}}}],'policy':'continue-on-error'}");
   mkEndpoint "POST" "/verify/batch" "verifyBatch" "batch" "Verify many signatures" "VerifyBatchRequest" "VerifyBatchResponse"
       "Per-item results in request order, plus a summary" (body
       "{'items':[{'format':'cms','signature':'{{signatureBase64}}'}],'policy':'continue-on-error'}");
   mkEndpoint "POST" "/extract/batch" "extractBatch" "batch" "Recover content from many attached signatures" "ExtractBatchRequest" "ExtractBatchResponse"
       "Per-item results in request order, plus a summary" (body "{'items':[{'format':'cms','signature':'{{signatureBase64}}'}]}");
   mkEndpoint "POST" "/cert/info/batch" "certInfoBatch" "batch" "Parse many certificates" "CertInfoBatchRequest" "CertInfoBatchResponse"
       "Per-item results in request order, plus a summary" (body "{'items':[{'cert':'{{certBase64}}','encoding':'der'}]}");
   mkEndpoint "POST" "/cert/validate/batch" "certValidateBatch" "batch" "Check revocation for many certificates" "CertValidateBatchRequest"
       "CertValidateBatchResponse" "Per-item results in request order, plus a summary" (body
       "{'items':[{'cert':'{{certBase64}}','encoding':'der','method':'ocsp'}]}");
   mkEndpoint "POST" "/sign/archive" "archive" "signature"
       "Embed long-term validation evidence (CAdES-LT) into an existing signature, so it stays verifiable after the certificate expires" "ArchiveRequest"
       "ArchiveResponse" "Container with evidence embedded (an unreachable responder is a warning, not a failure)" (body
       "{'signature':'{{signatureBase64}}','outputPem':false}");
   mkEndpoint "POST" "/verify/registry" "verifyRegistry" "batch"
       "Verify a set of documents and return the auditor's register: counts plus one row per document with its verdict, signers and first failing check"
       "VerifyRegistryRequest" "RegistryResponse" "Register over the whole set" (body
       "{'items':[{'ref':'contract-2024-11.p7s','format':'cms','signature':'{{signatureBase64}}'}],'policy':'continue-on-error'}");
   mkEndpoint "POST" "/challenge" "challengeIssue" "challenge"
       "Issue a single-use nonce bound to a purpose (the anti-replay handshake as a standalone primitive)" "ChallengeIssueRequest" "ChallengeIssueResponse"
       "Nonce to sign as a detached CMS" (body "{'purpose':'payment.approve','meta':{'orderId':'1042'}}");
   mkEndpoint "POST" "/challenge/confirm" "challengeConfirm" "challenge"
       "Confirm a challenge with the user's detached signature and report who signed it" "ChallengeConfirmRequest" "ChallengeConfirmResponse"
       "Who signed the challenge, and for what" (body "{'challengeId':'{{challengeId}}','signature':'{{signatureBase64}}'}");
   mkEndpoint "POST" "/qr/documents" "signedQRIssue" "signed-qr"
       "Issue a QR carrying a short statement signed with the service key (verifiable offline, no ЭЦП needed to check it)" "SignedQRIssueRequest"
       "SignedQRIssueResponse" "Compact JWS payload plus a rendered PNG" (body "{'subject':'{{iin}}','data':{'permit':'A-142'},'ttlSeconds':86400}");
   mkEndpoint "POST" "/qr/documents/verify" "signedQRVerify" "signed-qr" "Check a scanned document QR against the service key" "SignedQRVerifyRequest"
       "SignedQRVerifyResult" "Verification result (a forged or expired code is valid=false, still HTTP 200)" (body "{'payload':'{{qrPayload}}'}");
   mkEndpoint "POST" "/sandbox/sign" "sandboxSign" "sandbox"
       "Sign with the operator's demo key, so the service can be evaluated without an ЭЦП of one's own (off unless a sandbox key is configured)"
       "SandboxSignRequest" "SignResponse" "Signature produced with the demo key" (body "{'data':'{{dataBase64}}','format':'cms'}")].

Definition oidcEndpoints : list endpoint :=
  [mkEndpoint "GET" "/.well-known/openid-configuration" "oidcDiscovery" "oidc" "OpenID Connect discovery document" EmptyString "OIDCDiscovery"
       "Discovery metadata" EmptyString;
   mkEndpoint "GET" "/oidc/jwks.json" "oidcJWKS" "oidc" "JSON Web Key Set for token verification" EmptyString "OIDCJWKS" "Public signing keys"
       EmptyString;
   mkEndpoint "POST" "/oidc/challenge" "oidcChallenge" "oidc" "Issue a challenge nonce to sign with ЭЦП" "OIDCChallengeRequest" "OIDCChallengeResponse"
       "Challenge to sign (detached CMS over the nonce)" (body "{'nonce':'{{rpNonce}}','state':'{{rpState}}'}");
   mkEndpoint "POST" "/oidc/verify" "oidcVerify" "oidc" "Verify the signed challenge and issue OIDC tokens" "OIDCVerifyRequest" "OIDCTokenResponse"
       "Token set (id_token, access_token)" (body "{'challengeId':'{{challengeId}}','signature':'{{signatureBase64}}','clientId':'{{clientId}}'}");
   mkEndpoint "GET" "/oidc/userinfo" "oidcUserInfo" "oidc" "Claims for a bearer access token" EmptyString EmptyString "Claim set for the token subject"
       EmptyString].

Definition qrEndpoints : list endpoint :=
  [mkEndpoint "POST" "/qr/sessions" "qrCreate" "qr" "Start an eGov Mobile QR signing/auth session" "QRCreateRequest" "QRCreateResponse"
       "Session created (render qr as a PNG; poll the session)" (body
       "{'mode':'sign','profile':'agnostic','data':'{{dataBase64}}','callbackUrl':'{{callbackUrl}}'}");
   mkEndpoint "GET" "/qr/sessions/{id}" "qrGet" "qr" "Poll a QR session for the verified result or tokens" EmptyString "QRView" "Session view"
       EmptyString;
   mkEndpoint "GET" "/qr/a/{id}" "qrAppData" "qr" "App-facing: eGov Mobile fetches the data-to-sign" EmptyString EmptyString "Data-to-sign" EmptyString;
   mkEndpoint "POST" "/qr/a/{id}" "qrAppSubmit" "qr" "App-facing: eGov Mobile returns the signature" EmptyString EmptyString "Accepted" (body
       "{'signature':'{{signatureBase64}}'}")].

Definition multisignEndpoints : list endpoint :=
  [mkEndpoint "POST" "/multisign/sessions" "multisignCreate" "multisign" "Open a session for a document that needs several signatures"
       "MultisignCreateRequest" "MultisignSession" "Session opened" (body
       "{'format':'cms','document':'{{dataBase64}}','required':[{'iin':'{{iin}}','label':'Директор'},{'role':'CEO'}],'subject':'Договор №42','ttlSeconds':604800}");
   mkEndpoint "GET" "/multisign/sessions/{id}" "multisignGet" "multisign"
       "Session state: who has signed, who is still owed, and the container as it stands" EmptyString "MultisignSession" "Session view" EmptyString;
   mkEndpoint "POST" "/multisign/sessions/{id}/signatures" "multisignSubmit" "multisign" "Submit the container after a participant co-signed it"
       "MultisignSubmitRequest" "MultisignSession" "Session after counting the new signer" (body "{'container':'{{signatureBase64}}'}");
   mkEndpoint "DELETE" "/multisign/sessions/{id}" "multisignCancel" "multisign" "Cancel a session" EmptyString EmptyString "Canceled" EmptyString].

Definition auditEndpoints : list endpoint :=
  [mkEndpoint "GET" "/audit/verify" "auditVerify" "audit" "Walk the journal's hash chain and report whether — and where — it was altered" EmptyString
       "AuditVerifyResult" "Chain intact" EmptyString;
   mkEndpoint "GET" "/audit/export" "auditExport" "audit" "Stream the journal as NDJSON for a SIEM (supports range requests and conditional fetches)"
       EmptyString EmptyString "The journal" EmptyString].

Definition authEndpoints : list endpoint :=
  [mkEndpoint "GET" "/jwks.json" "serviceJWKS" "oidc"
       "Public keys the service signs with — verification receipts, signed-document QR and OIDC tokens (served even when OIDC is off)" EmptyString
       "OIDCJWKS" "Public signing keys" EmptyString;
   mkEndpoint "GET" "/oidc/authorize" "oidcAuthorize" "oidc"
       "Authorization endpoint: renders the hosted login page that collects a signature (authorization code + PKCE)" EmptyString EmptyString "Login page"
       EmptyString;
   mkEndpoint "POST" "/oidc/authorize" "oidcAuthorizeSubmit" "oidc"
       "Submit the collected signature and redirect back to the relying party with an authorization code" EmptyString EmptyString
       "Redirect to redirect_uri" EmptyString;
   mkEndpoint "POST" "/oidc/token" "oidcToken" "oidc"
       "Token endpoint: exchange an authorization code for tokens (client credentials in the body or HTTP Basic)" EmptyString "OIDCTokenResponse"
       "Token set" EmptyString].

Definition pageEndpoints : list endpoint :=
  [mkEndpoint "GET" "/verify/portal" "verifyPortal" "portal"
       "Upload form for checking a signature (off by default — it accepts uploads from anyone who can reach it)" EmptyString EmptyString "The upload page"
       EmptyString;
   mkEndpoint "POST" "/verify/portal" "verifyPortalSubmit" "portal" "Check an uploaded container and render the verification card" EmptyString
       EmptyString "The verification card" EmptyString;
   mkEndpoint "GET" "/console" "console" "sandbox" "Built-in test console: pick an operation, edit the body, see the raw response (off by default)"
       EmptyString EmptyString "The console page" EmptyString].

Definition obsEndpoints : list endpoint :=
  [mkEndpoint "GET" "/healthz" "healthz" "observability" "Liveness — the process is up" EmptyString EmptyString "ok" EmptyString;
   mkEndpoint "GET" "/readyz" "readyz" "observability" "Readiness — library loaded and self-tested" EmptyString EmptyString "ready" EmptyString;
   mkEndpoint "GET" "/statusz" "statusz" "observability" "Non-sensitive service status (no secrets)" EmptyString EmptyString "Status info" EmptyString;
   mkEndpoint "GET" "/metrics" "metrics" "observability" "Prometheus metrics" EmptyString EmptyString "Prometheus text exposition" EmptyString].

Definition no_endpoint : endpoint := mkEndpoint EmptyString EmptyString EmptyString EmptyString EmptyString EmptyString EmptyString EmptyString EmptyString.
Definition nth_endpoint (i : nat) (l : list endpoint) : endpoint := nth i l no_endpoint.
Definition idempotentPaths : list string :=
  ["/sign"; "/sign/add"; "/verify"; "/verify/at"; "/extract"; "/cert/info"; "/cert/validate"; "/sign/batch"; "/verify/batch"; "/verify/registry";
   "/sign/archive"; "/extract/batch"; "/cert/info/batch"; "/cert/validate/batch"].
Definition batchStreamPaths : list string := ["/sign/batch"; "/verify/batch"; "/extract/batch"; "/cert/info/batch"; "/cert/validate/batch"].
Definition batchOps : list (string * string * string) :=
  [("Sign", "SignRequest", "SignResponse"); ("Verify", "VerifyRequest", "VerifyResponse"); ("Extract", "ExtractRequest", "ExtractResponse");
   ("CertInfo", "CertInfoRequest", "CertInfoResponse"); ("CertValidate", "ValidateRequest", "ValidateResponse")].

Section Doc.
  Context {F : Type}.
Notation json := (json F).
Notation jobj := (list (string * json)).

(** ** Parts of an operation *)
Definition ref (name : string) : json := JObj [("$ref", JText ("#/components/schemas/" ++ name)%string)].
Definition ref2 (kind name : string) : json := JObj [("$ref", JText ("#/components/" ++ kind ++ "/" ++ name)%string)].
Definition jsonResponse (desc schema : string) : json :=
  JObj (("description", JText desc) ::
        (if negb (empty_str schema) then [("content", JObj [("application/json", JObj [("schema", ref schema)])])] else [])).
Definition headerParam (name desc : string) : json :=
  JObj [
      ("name", JText name); ("in", JText "header"); ("required", JBool false); ("schema", JObj [("type", JText "string")]);
      ("description", JText desc)].
Definition addParam (op : jobj) (p : json) : jobj :=
  let existing := match get "parameters" op with Some (JArr l) => l | _ => [] end in put "parameters" (JArr (existing ++ [p])) op.
(** The parameter of a path. *)
Definition idParam : list json :=
  [JObj [
      ("name", JText "id"); ("in", JText "path"); ("required", JBool true); ("schema", JObj [("type", JText "string")]);
      ("description", JText "job id")]].

(** ** Schemas written by hand *)
Definition addBatchSchemas (schemas : jobj) : jobj :=
  let schemas := fold_left (fun schemas b =>
    let '(title, reqSchema, respSchema) := b in
    let schemas := put (title ++ "BatchRequest")%string (JObj [
        ("type", JText "object"); ("description", JText ("A batch of " ++ reqSchema ++ " items with batch-wide controls.")%string);
        ("properties", JObj [
          ("items", JObj [("type", JText "array"); ("items", ref reqSchema)]);
          ("policy", JObj [
            ("type", JText "string"); ("enum", JArr [JText "continue-on-error"; JText "fail-fast"]);
            ("description", JText "error policy (default continue-on-error)")]);
          ("concurrency", JObj [("type", JText "integer"); ("description", JText "max items in parallel (0 = driver pool size)")])]);
        ("required", JArr [JText "items"])]) schemas in
    let schemas := put (title ++ "BatchItem")%string (JObj [
        ("type", JText "object");
        ("properties", JObj [
          ("index", JObj [("type", JText "integer"); ("description", JText "position in the request")]);
          ("status", JObj [("type", JText "string"); ("enum", JArr [JText "ok"; JText "error"; JText "skipped"])]); ("output", ref respSchema);
          ("error", ref "BatchItemError")])]) schemas in
    let schemas := put (title ++ "BatchResponse")%string (JObj [
        ("type", JText "object");
        ("properties", JObj [
          ("total", JObj [("type", JText "integer")]); ("succeeded", JObj [("type", JText "integer")]); ("failed", JObj [("type", JText "integer")]);
          ("results", JObj [("type", JText "array"); ("items", ref ((title ++ "BatchItem")%string))])])]) schemas in
    schemas) batchOps schemas in
  put "JobSubmitRequest" (JObj [
      ("type", JText "object");
      ("description", JText "Submit an operation to run as an async job. request is the op payload (the same JSON as the sync endpoint, single or batch).");
      ("properties", JObj [
        ("op", JObj [("type", JText "string"); ("description", JText "operation name, e.g. sign, verify, sign-batch")]);
        ("request", JObj [("type", JText "object"); ("description", JText "the op payload")]);
        ("callbackUrl", JObj [("type", JText "string"); ("description", JText "optional webhook POSTed the job status view on completion")])]);
      ("required", JArr [JText "op"; JText "request"])]) schemas.
Definition addAppSchemas (schemas : jobj) : jobj :=
  let schemas := put "VerifyRegistryRequest" (JObj [
      ("type", JText "object"); ("description", JText "A set of documents to check, each optionally labeled with the caller's own reference.");
      ("properties", JObj [
        ("items", JObj [("type", JText "array"); ("items", ref "RegistryItemRequest")]);
        ("policy", JObj [
          ("type", JText "string"); ("enum", JArr [JText "continue-on-error"; JText "fail-fast"]);
          ("description", JText "error policy (default continue-on-error)")]);
        ("concurrency", JObj [("type", JText "integer"); ("description", JText "max items in parallel (0 = driver pool size)")])]);
      ("required", JArr [JText "items"])]) schemas in
  let schemas := put "MultisignSubmitRequest" (JObj [
      ("type", JText "object");
      ("description", JText "The container as it stands after a participant co-signed it elsewhere. The service verifies it and counts the new signer; it never signs here.");
      ("properties", JObj [
        ("container", JObj [("type", JText "string"); ("format", JText "byte"); ("description", JText "base64 co-signed container")])]);
      ("required", JArr [JText "container"])]) schemas in
  let schemas := put "SignedQRVerifyRequest" (JObj [
      ("type", JText "object"); ("description", JText "A scanned QR payload (the compact JWS the code encodes).");
      ("properties", JObj [("payload", JObj [("type", JText "string")])]); ("required", JArr [JText "payload"])]) schemas in
  put "SandboxSignRequest" (JObj [
      ("type", JText "object");
      ("description", JText "Bytes to sign with the operator's demo key. Certificate-time checking is off: a demo container is usually expired or issued by a test CA.");
      ("properties", JObj [
        ("data", JObj [("type", JText "string"); ("format", JText "byte"); ("description", JText "base64 content to sign")]);
        ("format", JObj [("type", JText "string"); ("enum", JArr [JText "cms"; JText "xml"; JText "wsse"]); ("description", JText "default cms")])]);
      ("required", JArr [JText "data"])]) schemas.
Definition addOIDCSchemas (schemas : jobj) : jobj :=
  put "OAuthError" (JObj [
      ("type", JText "object"); ("description", JText "OAuth2/OIDC error response.");
      ("properties", JObj [
        ("error", JObj [
          ("type", JText "string");
          ("enum", JArr [JText "invalid_request"; JText "invalid_grant"; JText "access_denied"; JText "invalid_token"; JText "server_error"])]);
        ("error_description", JObj [("type", JText "string")])]);
      ("required", JArr [JText "error"])]) schemas.
Definition addQRSchemas (schemas : jobj) : jobj :=
  put "QRView" (JObj [
      ("type", JText "object"); ("description", JText "Client-safe QR session view (no data-to-sign or callback).");
      ("properties", JObj [
        ("id", JObj [("type", JText "string")]); ("mode", JObj [("type", JText "string"); ("enum", JArr [JText "sign"; JText "auth"])]);
        ("profile", JObj [("type", JText "string"); ("enum", JArr [JText "agnostic"; JText "egov"; JText "relay"])]);
        ("status", JObj [("type", JText "string"); ("enum", JArr [JText "pending"; JText "verified"; JText "failed"; JText "expired"])]);
        ("expiresAt", JObj [("type", JText "string"); ("format", JText "date-time")]);
        ("result", JObj [("type", JText "object"); ("description", JText "SignResult (sign mode) or OIDC token set (auth mode)")]);
        ("error", ref "BatchItemError")])]) schemas.

(** ** Paths *)
Definition oidcGet (opID summary respDesc schema : string) : jobj :=
  [("tags", JArr [JText "oidc"]); ("summary", JText summary); ("operationId", JText opID);
   ("responses", JObj [("200", jsonResponse respDesc schema)])].
Definition oauthErr (codes : list string) : jobj :=
  fold_left (fun r c => put c (JObj [("description", JText "OAuth2 error"); ("content", JObj [("application/json", JObj [("schema", ref "OAuthError")])])]) r) codes [].
Definition oidc_post (opID summary req resp respDesc : string) (errCodes : list string) : json :=
  let responses := put_all (oauthErr errCodes) [("200", jsonResponse respDesc resp)] in
  JObj [("tags", JArr [JText "oidc"]); ("summary", JText summary); ("operationId", JText opID);
        ("requestBody", JObj [("required", JBool true); ("content", JObj [("application/json", JObj [("schema", ref req)])])]);
        ("responses", JObj responses)].
(** The 200 of [oidcUserInfo] with the OAuth errors beside it. *)
Definition userinfo_op : jobj :=
  let op := oidcGet "oidcUserInfo" "Claims for a bearer access token (Authorization: Bearer <access_token>)" "Claim set for the token subject" EmptyString in
  match get "responses" op with Some (JObj resp) => put "responses" (JObj (put_all (oauthErr ["401"]) resp)) op | _ => op end.
Definition addOIDCPaths (paths : jobj) : jobj :=
  let paths := put "/.well-known/openid-configuration"
    (JObj [("get", JObj (oidcGet "oidcDiscovery" "OpenID Connect discovery document" "Discovery metadata" "OIDCDiscovery"))]) paths in
  let paths := put "/oidc/jwks.json"
    (JObj [("get", JObj (oidcGet "oidcJWKS" "JSON Web Key Set for token verification" "Public signing keys" "OIDCJWKS"))]) paths in
  let paths := put "/oidc/userinfo" (JObj [("get", JObj userinfo_op)]) paths in
  let paths := put "/oidc/challenge"
    (JObj [("post", oidc_post "oidcChallenge" "Issue a challenge nonce to sign with ЭЦП" "OIDCChallengeRequest" "OIDCChallengeResponse"
                      "Challenge to sign (detached CMS over the nonce)" ["400"])]) paths in
  put "/oidc/verify"
    (JObj [("post", oidc_post "oidcVerify" "Verify the signed challenge and issue OIDC tokens" "OIDCVerifyRequest" "OIDCTokenResponse"
                      "Token set (id_token, access_token)" ["400"; "401"])]) paths.

Definition qr_id : list json :=
  [JObj [("name", JText "id"); ("in", JText "path"); ("required", JBool true); ("schema", JObj [("type", JText "string")])]].
Definition withErrs (m : json) : json :=
  match m with
  | JObj m => JObj (put_all [("400", ref2 "responses" "Error"); ("404", ref2 "responses" "Error"); ("500", ref2 "responses" "Error")] m)
  | _ => m
  end.
Definition addQRPaths (paths : jobj) : jobj :=
  let paths := put "/qr/sessions" (JObj [
      ("post", JObj [
        ("tags", JArr [JText "qr"]); ("summary", JText "Start an eGov Mobile QR signing/auth session"); ("operationId", JText "qrCreate");
        ("requestBody", JObj [("required", JBool true); ("content", JObj [("application/json", JObj [("schema", ref "QRCreateRequest")])])]);
        ("responses", withErrs (JObj [("201", jsonResponse "Session created" "QRCreateResponse")]))])]) paths in
  let paths := put "/qr/sessions/{id}" (JObj [
      ("get", JObj [
        ("tags", JArr [JText "qr"]); ("summary", JText "Poll a QR session for the verified result or tokens"); ("operationId", JText "qrGet");
        ("parameters", JArr qr_id); ("responses", withErrs (JObj [("200", jsonResponse "Session view" "QRView")]))])]) paths in
  put "/qr/a/{id}" (JObj [
      ("get", JObj [
        ("tags", JArr [JText "qr"]); ("summary", JText "App-facing: eGov Mobile fetches the data-to-sign"); ("operationId", JText "qrAppData");
        ("parameters", JArr qr_id); ("responses", withErrs (JObj [("200", JObj [("description", JText "Data-to-sign (profile-specific)")])]))]);
      ("post", JObj [
        ("tags", JArr [JText "qr"]); ("summary", JText "App-facing: eGov Mobile returns the signature"); ("operationId", JText "qrAppSubmit");
        ("parameters", JArr qr_id); ("responses", withErrs (JObj [("200", JObj [("description", JText "Signature accepted")])]))])]) paths.

Definition session_id : list json :=
  [JObj [
      ("name", JText "id"); ("in", JText "path"); ("required", JBool true); ("schema", JObj [("type", JText "string")]);
      ("description", JText "session id")]].
Definition multisign_op (e : endpoint) (okCode okDesc : string) (params : option (list json)) : json :=
  let responses := put okCode (jsonResponse okDesc (e_respSchema e))
    [("400", ref2 "responses" "Error"); ("404", ref2 "responses" "Error"); ("500", ref2 "responses" "Error")] in
  let o := [("tags", JArr [JText (e_tag e)]); ("summary", JText (e_summary e)); ("operationId", JText (e_opID e)); ("responses", JObj responses)] in
  let o := match params with Some params => put "parameters" (JArr params) o | None => o end in
  JObj (if negb (empty_str (e_reqSchema e))
        then put "requestBody" (JObj [("required", JBool true); ("content", JObj [("application/json", JObj [("schema", ref (e_reqSchema e))])])]) o
        else o).
Definition addMultisignPaths (paths : jobj) : jobj :=
  let paths := put "/multisign/sessions" (JObj [("post", multisign_op (nth_endpoint 0 multisignEndpoints) "201" "Session opened" None)]) paths in
  let paths := put "/multisign/sessions/{id}" (JObj [
      ("get", multisign_op (nth_endpoint 1 multisignEndpoints) "200" "Session view" (Some session_id));
      ("delete", multisign_op (nth_endpoint 3 multisignEndpoints) "204" "Session canceled (no body)" (Some session_id))]) paths in
  put "/multisign/sessions/{id}/signatures" (JObj [
      ("post", multisign_op (nth_endpoint 2 multisignEndpoints) "200" "Session after counting the new signer" (Some session_id))]) paths.
Definition addAuditPaths (paths : jobj) : jobj :=
  let paths := put "/audit/verify" (JObj [
      ("get", JObj [
        ("tags", JArr [JText "audit"]); ("summary", JText (e_summary (nth_endpoint 0 auditEndpoints))); ("operationId", JText "auditVerify");
        ("responses", JObj [
          ("200", jsonResponse "Chain intact" "AuditVerifyResult");
          ("409", jsonResponse "Chain broken — brokenAt names the first altered entry" "AuditVerifyResult"); ("503", ref2 "responses" "Error")])])]) paths in
  put "/audit/export" (JObj [
      ("get", JObj [
        ("tags", JArr [JText "audit"]); ("summary", JText (e_summary (nth_endpoint 1 auditEndpoints))); ("operationId", JText "auditExport");
        ("responses", JObj [
          ("200", JObj [
            ("description", JText "The journal, one signed entry per line");
            ("content", JObj [("application/x-ndjson", JObj [("schema", JObj [("type", JText "string")])])])]);
          ("206", JObj [("description", JText "Partial content (range request)")]); ("503", ref2 "responses" "Error")])])]) paths.
Definition authorizeParams (place : string) : list json :=
  map (fun q : string * string => JObj [("name", JText (fst q)); ("in", JText place); ("required", JBool false);
         ("schema", JObj [("type", JText "string")]); ("description", JText (snd q))])
    [("client_id", "registered client id"); ("redirect_uri", "must match one registered for the client"); ("response_type", "code");
     ("scope", "openid plus any extra scopes"); ("state", "opaque value echoed back to the client"); ("nonce", "bound into the id_token");
     ("code_challenge", "PKCE challenge (required for public clients)"); ("code_challenge_method", "S256 (plain is refused for public clients)")].
Definition htmlResponse (desc : string) : json :=
  JObj [("description", JText desc); ("content", JObj [("text/html", JObj [("schema", JObj [("type", JText "string")])])])].
Definition addAuthPaths (paths : jobj) : jobj :=
  let paths := put "/jwks.json" (JObj [
      ("get", JObj (oidcGet "serviceJWKS" (e_summary (nth_endpoint 0 authEndpoints)) "Public signing keys" "OIDCJWKS"))]) paths in
  let paths := put "/oidc/authorize" (JObj [
      ("get", JObj [
        ("tags", JArr [JText "oidc"]); ("summary", JText (e_summary (nth_endpoint 1 authEndpoints))); ("operationId", JText "oidcAuthorize");
        ("parameters", JArr (authorizeParams "query"));
        ("responses", JObj [
          ("200", htmlResponse "Hosted login page (NCALayer widget, plus the eGov QR option when the QR orchestrator is on)");
          ("400", htmlResponse "Client or redirect_uri rejected — rendered here rather than redirected")])]);
      ("post", JObj [
        ("tags", JArr [JText "oidc"]); ("summary", JText (e_summary (nth_endpoint 2 authEndpoints))); ("operationId", JText "oidcAuthorizeSubmit");
        ("requestBody", JObj [
          ("required", JBool true);
          ("content", JObj [
            ("application/x-www-form-urlencoded", JObj [
              ("schema", JObj [
                ("type", JText "object");
                ("description", JText "The authorize parameters as posted back by the login page, plus the collected signature.");
                ("properties", JObj [
                  ("client_id", JObj [("type", JText "string")]); ("redirect_uri", JObj [("type", JText "string")]);
                  ("response_type", JObj [("type", JText "string")]); ("scope", JObj [("type", JText "string")]);
                  ("state", JObj [("type", JText "string")]); ("nonce", JObj [("type", JText "string")]);
                  ("code_challenge", JObj [("type", JText "string")]); ("code_challenge_method", JObj [("type", JText "string")]);
                  ("challengeId", JObj [("type", JText "string"); ("description", JText "id of the challenge the page was issued")]);
                  ("signature", JObj [("type", JText "string"); ("description", JText "detached CMS over the challenge nonce")])]);
                ("required", JArr [JText "challengeId"; JText "signature"])])])])]);
        ("responses", JObj [
          ("303", JObj [("description", JText "Redirect to redirect_uri with code and state")]);
          ("400", htmlResponse "Authorization refused (bad client, redirect_uri or signature)")])])]) paths in
  put "/oidc/token" (JObj [
      ("post", JObj [
        ("tags", JArr [JText "oidc"]); ("summary", JText (e_summary (nth_endpoint 3 authEndpoints))); ("operationId", JText "oidcToken");
        ("requestBody", JObj [
          ("required", JBool true);
          ("content", JObj [
            ("application/x-www-form-urlencoded", JObj [
              ("schema", JObj [
                ("type", JText "object");
                ("properties", JObj [
                  ("grant_type", JObj [("type", JText "string"); ("enum", JArr [JText "authorization_code"])]);
                  ("code", JObj [("type", JText "string"); ("description", JText "single-use, 60 s")]);
                  ("redirect_uri", JObj [("type", JText "string")]);
                  ("client_id", JObj [("type", JText "string"); ("description", JText "or HTTP Basic")]);
                  ("client_secret", JObj [("type", JText "string"); ("description", JText "confidential clients only")]);
                  ("code_verifier", JObj [("type", JText "string"); ("description", JText "PKCE verifier")])]);
                ("required", JArr [JText "grant_type"; JText "code"])])])])]);
        ("responses", JObj [
          ("200", jsonResponse "Token set (id_token, access_token)" "OIDCTokenResponse");
          ("400", JObj [("description", JText "OAuth2 error"); ("content", JObj [("application/json", JObj [("schema", ref "OAuthError")])])]);
          ("401", JObj [("description", JText "OAuth2 error"); ("content", JObj [("application/json", JObj [("schema", ref "OAuthError")])])])])])]) paths.
Definition page (e : endpoint) (responses : json) : jobj :=
  [("tags", JArr [JText (e_tag e)]); ("summary", JText (e_summary e)); ("operationId", JText (e_opID e)); ("responses", responses)].
Definition portalSubmit : jobj :=
  put "requestBody" (JObj [
      ("required", JBool true);
      ("content", JObj [
        ("multipart/form-data", JObj [
          ("schema", JObj [
            ("type", JText "object");
            ("properties", JObj [
              ("signature", JObj [
                ("type", JText "string"); ("format", JText "binary");
                ("description", JText "the signed container (.p7s, .cms, .xml); format is detected from the bytes")]);
              ("document", JObj [
                ("type", JText "string"); ("format", JText "binary"); ("description", JText "the original file — only a detached signature needs it")])]);
            ("required", JArr [JText "signature"])])])])])
    (page (nth_endpoint 1 pageEndpoints) (JObj [
      ("200", htmlResponse "The verification card for the uploaded container");
      ("400", htmlResponse "Nothing to check, or the check could not be run — the page says which")])).
Definition addPagePaths (paths : jobj) : jobj :=
  let paths := put "/verify/portal" (JObj [
      ("get", JObj (page (nth_endpoint 0 pageEndpoints) (JObj [("200", htmlResponse "The upload page")]))); ("post", JObj portalSubmit)]) paths in
  put "/console" (JObj [
      ("get", JObj (page (nth_endpoint 2 pageEndpoints) (JObj [("200", htmlResponse "The console page (self-contained, no external resources)")])))]) paths.
Definition addJobPaths (paths : jobj) : jobj :=
  let paths := put "/jobs" (JObj [
      ("post", JObj [
        ("tags", JArr [JText "jobs"]); ("summary", JText "Submit an operation as an async job"); ("operationId", JText "submitJob");
        ("requestBody", JObj [("required", JBool true); ("content", JObj [("application/json", JObj [("schema", ref "JobSubmitRequest")])])]);
        ("responses", JObj [
          ("202", jsonResponse "Job accepted; poll /jobs/{id}. The Location header points at the job." "JobStatus");
          ("400", ref2 "responses" "Error"); ("413", ref2 "responses" "Error"); ("503", ref2 "responses" "Error")])])]) paths in
  let paths := put "/jobs/{id}" (JObj [
      ("get", JObj [
        ("tags", JArr [JText "jobs"]); ("summary", JText "Job status (no request payload or result — poll until terminal)");
        ("operationId", JText "getJob"); ("parameters", JArr idParam);
        ("responses", JObj [("200", jsonResponse "Job status view" "JobStatus"); ("404", ref2 "responses" "Error")])]);
      ("delete", JObj [
        ("tags", JArr [JText "jobs"]); ("summary", JText "Cancel a job (idempotent)"); ("operationId", JText "cancelJob");
        ("parameters", JArr idParam);
        ("responses", JObj [("200", jsonResponse "Job status after cancellation" "JobStatus"); ("404", ref2 "responses" "Error")])])]) paths in
  put "/jobs/{id}/result" (JObj [
      ("get", JObj [
        ("tags", JArr [JText "jobs"]); ("summary", JText "Job result — the operation output once the job succeeded");
        ("operationId", JText "getJobResult"); ("parameters", JArr idParam);
        ("responses", JObj [
          ("200", JObj [("description", JText "The operation output (shape depends on the job's op)")]); ("404", ref2 "responses" "Error");
          ("409", jsonResponse "Job not finished yet — keep polling" "JobStatus");
          ("422", jsonResponse "Job failed or was canceled (see error in the view)" "JobStatus")])])]) paths.

(** ** JSON text
    [json.Marshal] of a value whose texts are valid UTF-8: keys in order, the
    characters of HTML and the two line separators escaped. *)
Variable number : F -> string.
Definition hex4 (n : nat) : string := to_lower (hex_pad 4 (Z.of_nat n) EmptyString).
Definition u_escape (n : nat) : string := (String (ascii_of_nat 92) "u" ++ hex4 n)%string.
Definition escape_char (c : ascii) : string :=
  let n := nat_of_ascii c in
  let back c := String (ascii_of_nat 92) (String c EmptyString) in
  if (n =? 34)%nat || (n =? 92)%nat then back c
  else if (n =? 8)%nat then back "b"%char else if (n =? 12)%nat then back "f"%char else if (n =? 10)%nat then back "n"%char
  else if (n =? 13)%nat then back "r"%char else if (n =? 9)%nat then back "t"%char
  else if (n <? 32)%nat || (n =? 60)%nat || (n =? 62)%nat || (n =? 38)%nat then u_escape n
  else String c EmptyString.
(** A text character by character, but for U+2028 and U+2029. *)
Section Escape.
  Variable char : ascii -> string.
Fixpoint escape_with (s : string) : string :=
  match s with
  | EmptyString => EmptyString
  | String "226" (String "128" (String "168" t)) => (u_escape 8232 ++ escape_with t)%string
  | String "226" (String "128" (String "169" t)) => (u_escape 8233 ++ escape_with t)%string
  | String c t => (char c ++ escape_with t)%string
  end.
End Escape.
Definition escape : string -> string := escape_with escape_char.
Definition quoted (s : string) : string := (dq ++ escape s ++ dq)%string.
Definition pair_le (a b : string * string) : Prop := str_le (fst a) (fst b).
#[export] Instance pair_le_dec : RelDecision pair_le.
Proof. intros a b. unfold pair_le. apply _. Defined.
Fixpoint marshal (j : json) : string :=
  match j with
  | JNull => "null"
  | JBool b => if b then "true" else "false"
  | JNum f => number f
  | JText s => quoted s
  | JArr l => ("[" ++ concat_with "," (map marshal l) ++ "]")%string
  | JObj l =>
      ("{" ++ concat_with "," (map (fun p => (quoted (fst p) ++ ":" ++ snd p)%string)
                                 (merge_sort pair_le (map (fun p => (fst p, marshal (snd p))) l))) ++ "}")%string
  end.

(** ** Headers that depend on the whole document
    A type assertion on a field that is not there panics. *)
Definition within (k : string) (f : jobj -> outcome jobj) (m : jobj) : outcome jobj :=
  match get k m with
  | Some (JObj o) => (let! o := f o in Done (put k (JObj o) m))%outcome
  | _ => Panic
  end.
Fixpoint each {A} (f : jobj -> A -> outcome jobj) (m : jobj) (l : list A) : outcome jobj :=
  match l with [] => Done m | x :: t => (let! m := f m x in each f m t)%outcome end.
Definition addBatchNegotiation (paths : jobj) : outcome jobj :=
  each (fun paths p =>
    within p (within "post" (fun op =>
      let op := addParam op (JObj [
        ("name", JText "stream"); ("in", JText "query"); ("required", JBool false);
        ("schema", JObj [("type", JText "string"); ("enum", JArr [JText "1"; JText "true"; JText "yes"])]);
        ("description", JText "stream results as NDJSON instead of one aggregated object (same as Accept: application/x-ndjson)")]) in
      let op := addParam op (headerParam "Accept" "application/x-ndjson streams per-item results as they complete") in
      within "responses" (within "200" (within "content" (fun content =>
        Done (put "application/x-ndjson" (JObj [("schema", JObj [
          ("type", JText "string");
          ("description", JText "one JSON object per line: each result tagged with its index, then a final {total, succeeded, failed} summary line")])])
          content)))) op)) paths) paths batchStreamPaths.
Definition addReportNegotiation (paths : jobj) : outcome jobj :=
  within "/verify" (within "post" (fun op =>
    let op := addParam op (headerParam "Accept" "text/html returns the verification card as a page instead of JSON (implies report=true)") in
    within "responses" (within "200" (within "content" (fun content =>
      Done (put "text/html" (JObj [("schema", JObj [
        ("type", JText "string");
        ("description", JText "the verification card, self-contained (no external CSS or fonts) so it can be saved or printed as an audit artifact")])])
        content)))) op)) paths.
Definition returnsErrorEnvelope (op : jobj) : bool :=
  match get "responses" op with
  | Some (JObj responses) =>
      existsb (fun p => negb (String.ltb (fst p) "400") &&
                        (let blob := marshal (snd p) in contains "ErrorEnvelope" blob || contains "responses/Error" blob)) responses
  | _ => false
  end.
(** One operation of a path, whether its path is idempotent. *)
Definition cross_cutting (idem : bool) (method : string) (op : jobj) : outcome jobj :=
  let op := if returnsErrorEnvelope op
            then addParam op (headerParam "Accept-Language" "preferred language for error messages (ru, kk; anything else renders English)")
            else op in
  if str_eqb method "post" && idem then
    let op := addParam op (headerParam "Idempotency-Key"
      "replay the first successful response for this key instead of re-executing, so a retry does not produce a second signature") in
    within "responses" (within "200" (fun ok =>
      Done (put "headers" (JObj [("Idempotency-Replayed", JObj [
        ("description", JText "present as true when this response was replayed from an earlier identical call");
        ("schema", JObj [("type", JText "string"); ("enum", JArr [JText "true"])])])]) ok))) op
  else Done op.
(** The value of every field rewritten in place. *)
Fixpoint over (f : string -> json -> outcome json) (m : jobj) : outcome jobj :=
  match m with
  | [] => Done []
  | (k, v) :: t => (let! v := f k v in let! t := over f t in Done ((k, v) :: t))%outcome
  end.
Definition addCrossCutting (paths : jobj) : outcome jobj :=
  over (fun path item =>
    match item with
    | JObj item =>
        (let! item := over (fun method raw =>
           match raw with
           | JObj op => let! op := cross_cutting (bool_decide (path ∈ idempotentPaths)) method op in Done (JObj op)
           | _ => Done raw
           end) item in
         Done (JObj item))%outcome
    | _ => Panic
    end) paths.

(** ** The document *)
Definition endpoint_op (e : endpoint) : jobj :=
  let op := [
    ("tags", JArr [JText (e_tag e)]); ("summary", JText (e_summary e)); ("operationId", JText (e_opID e));
    ("responses", JObj [
      ("200", jsonResponse (e_respDesc e) (e_respSchema e)); ("400", ref2 "responses" "Error"); ("500", ref2 "responses" "Error");
      ("503", ref2 "responses" "Error")])] in
  if negb (empty_str (e_reqSchema e))
  then put "requestBody" (JObj [("required", JBool true); ("content", JObj [("application/json", JObj [("schema", ref (e_reqSchema e))])])]) op
  else op.
Definition obs_op (e : endpoint) : jobj :=
  [("tags", JArr [JText (e_tag e)]); ("summary", JText (e_summary e)); ("operationId", JText (e_opID e));
   ("responses", JObj [("200", JObj [("description", JText (e_respDesc e))])])].
Definition buildPaths : outcome jobj :=
  let paths := fold_left (fun paths e => put (e_path e) (JObj [("post", JObj (endpoint_op e))]) paths) endpoints [] in
  let paths := fold_left (fun paths e => put (e_path e) (JObj [("get", JObj (obs_op e))]) paths) obsEndpoints paths in
  let paths := addPagePaths (addAuthPaths (addAuditPaths (addMultisignPaths (addQRPaths (addOIDCPaths (addJobPaths paths)))))) in
  (let! paths := addBatchNegotiation paths in
   let! paths := addReportNegotiation paths in
   addCrossCutting paths)%outcome.
Definition buildDoc (schemas : jobj) : outcome jobj :=
  (let! paths := buildPaths in Done
    ([
      ("openapi", JText "3.1.0");
      ("info", JObj [
        ("title", JText "qoltanba REST API"); ("version", JText "v1");
        ("description", JText ("REST/JSON transport for the qoltanba digital-signature service (RK / Kalkan). " ++
          "One call handles one item. Binary fields are base64-encoded strings; times are RFC 3339. " ++
          "All request and response keys are lowerCamelCase. Generated from the Go types — do not edit by hand. " ++
          "The proprietary Kalkan library is bring-your-own (BYOL) and is not part of this service.")%string)]);
      ("servers", JArr [JObj [("url", JText "http://localhost:8080"); ("description", JText "Default REST work port (-http :8080)")]]);
      ("tags", JArr [
        JObj [("name", JText "signature"); ("description", JText "Sign, verify, extract")];
        JObj [("name", JText "certificate"); ("description", JText "Certificate parsing and revocation")];
        JObj [("name", JText "batch"); ("description", JText "Batched operations (aggregated or NDJSON stream)")];
        JObj [("name", JText "jobs"); ("description", JText "Async jobs for large/slow work (submit, poll, cancel)")];
        JObj [("name", JText "oidc"); ("description", JText "Login with ЭЦП: OpenID Connect discovery, challenge/verify, hosted login, tokens")];
        JObj [("name", JText "qr"); ("description", JText "eGov Mobile QR signing/authorization sessions")];
        JObj [("name", JText "challenge"); ("description", JText "Standalone challenge–response: a single-use nonce, signed and confirmed")];
        JObj [("name", JText "multisign"); ("description", JText "Sessions collecting several signatures on one document")];
        JObj [("name", JText "signed-qr"); ("description", JText "Short statements signed with the service key and carried in a QR")];
        JObj [("name", JText "audit"); ("description", JText "Tamper-evident journal of what was signed and verified")];
        JObj [("name", JText "portal"); ("description", JText "Human-facing verification page (HTML, off by default)")];
        JObj [("name", JText "sandbox"); ("description", JText "Evaluation aids: demo signing key and the built-in test console (off by default)")];
        JObj [("name", JText "observability"); ("description", JText "Health, status, metrics")]]);
      ("paths", JObj paths);
      ("components", JObj [
        ("schemas", JObj schemas);
        ("responses", JObj [
          ("Error", JObj [
            ("description", JText "Hard failure envelope (friendly message from the error catalog)");
            ("content", JObj [("application/json", JObj [("schema", ref "ErrorEnvelope")])])])])])]))%outcome.

End Doc.

(** ** The Postman collection *)
Record pmRequest := mkRequest { pr_method : string; pr_header : list (string * string); pr_body : option (string * string); pr_raw : string;
  pr_host : list string; pr_path : list string }.
Record pmItem := mkItem { pi_name : string; pi_request : pmRequest }.
Record pmFolder := mkFolder { pf_name : string; pf_items : list pmItem }.
Record pmCollection := mkCollection { pc_info : string * string * string; pc_variable : list (string * string); pc_item : list pmFolder }.
(** [string(p[i])] is the UTF-8 of the code point [p[i]]. *)
Definition rune_of_byte (c : ascii) : string :=
  let n := nat_of_ascii c in
  if (n <? 128)%nat then String c EmptyString
  else String (ascii_of_nat (192 + n / 64)) (String (ascii_of_nat (128 + n mod 64)) EmptyString).
Fixpoint split_loop (p seg : string) (out : list string) : list string :=
  let flush := if negb (empty_str seg) then out ++ [seg] else out in
  match p with
  | EmptyString => flush
  | String c t => if Ascii.eqb c "/" then split_loop t EmptyString flush else split_loop t (seg ++ rune_of_byte c)%string out
  end.
Definition splitPath (p : string) : list string :=
  match p with EmptyString => [] | String _ t => split_loop t EmptyString [] end.
Definition title (s : string) : string :=
  match s with EmptyString => EmptyString | String c t => String (upper_ascii c) t end.
Definition pmRequestFor (e : endpoint) : pmRequest :=
  let sent := negb (empty_str (e_body e)) in
  mkRequest (e_method e) (if sent then [("Content-Type", "application/json")] else []) (if sent then Some ("raw", e_body e) else None)
    ("{{baseUrl}}" ++ e_path e)%string ["{{baseUrl}}"] (splitPath (e_path e)).
(** [add]: the folder of a tag is found by its index. *)
Record folders := mkFolders { fo_items : list pmFolder; fo_index : gmap string nat }.
Definition add (f : folders) (tag : string) (it : pmItem) : folders :=
  let f := match fo_index f !! tag with
           | Some _ => f
           | None => mkFolders (fo_items f ++ [mkFolder (title tag) []]) (<[tag := length (fo_items f)]> (fo_index f))
           end in
  mkFolders (alter (fun c => mkFolder (pf_name c) (pf_items c ++ [it])) (default 0%nat (fo_index f !! tag)) (fo_items f)) (fo_index f).
Definition add_endpoint (f : folders) (e : endpoint) : folders := add f (e_tag e) (mkItem (e_summary e) (pmRequestFor e)).
Definition postman_endpoints : list endpoint :=
  endpoints ++ oidcEndpoints ++ authEndpoints ++ qrEndpoints ++ multisignEndpoints ++ auditEndpoints ++ pageEndpoints ++ obsEndpoints.
(** What [writePostman] writes. *)
Definition postman : pmCollection :=
  mkCollection ("qoltanba REST API",
      "Generated from the Go types (tools/openapigen). Set {{baseUrl}} and the base64/secret variables. All keys are lowerCamelCase.",
      "https://schema.getpostman.com/json/collection/v2.1.0/collection.json")
    [("baseUrl", "http://localhost:8080")]
    (fo_items (fold_left add_endpoint postman_endpoints (mkFolders [] ∅))).
End SpecDoc.
