(* ===== verification/OpenApi.v ===== *)
(** * Generating the API description (tools/openapigen/main.go)

    The schemas are reflected from the Go types, by a library that is a parameter
    here: for a type, its definitions by Go name. They are renamed into one space
    of component names, completed by hand-written ones, and put in the document of
    SpecDoc. The document describes exactly the routes that the transport
    registers, with the headers they honour, and every reference in it leads to a
    component. *)
From stdpp Require Import sorting.
From S2P Require Import Prelude Errors Asn1 Text Jws Provider CoreTypes Batch Multisign Challenge Journal Metrics RestServer RestSpec Wiring SpecDoc.
Import Jws.Jws SpecDoc.SpecDoc.
Open Scope string_scope.
Open Scope list_scope.

Module OpenApi.
Import RestSpec.
#[global] Instance segment_eq_dec : EqDecision Server.segment.
Proof. solve_decision. Defined.

(** ** What is reflected
    A top type: its component name, its package and its Go name. *)
Record schemaType := mkSchemaType { st_name : string; st_typ : string * string }.
Definition go_name (st : schemaType) : string := snd (st_typ st).
Definition topTypes : list schemaType :=
  map (fun p => mkSchemaType (fst p) (snd p))
  [("SignRequest", ("dto", "SignRequest")); ("VerifyRequest", ("dto", "VerifyRequest")); ("VerifyAtRequest", ("dto", "VerifyAtRequest"));
   ("ExtractRequest", ("dto", "ExtractRequest")); ("CertInfoRequest", ("dto", "CertInfoRequest")); ("ValidateRequest", ("dto", "ValidateRequest"));
   ("SignResponse", ("core", "SignOutput")); ("VerifyResponse", ("core", "VerifyOutput")); ("VerifyAtResponse", ("core", "VerifyAtOutput"));
   ("ExtractResponse", ("core", "ExtractOutput")); ("CertInfoResponse", ("core", "CertInfoOutput")); ("ValidateResponse", ("core", "ValidateOutput"));
   ("ErrorEnvelope", ("main", "ErrorEnvelope")); ("BatchItemError", ("core", "BatchItemError")); ("JobStatus", ("jobs", "View"));
   ("OIDCChallengeRequest", ("oidc", "ChallengeRequest")); ("OIDCChallengeResponse", ("oidc", "ChallengeResponse"));
   ("OIDCVerifyRequest", ("oidc", "VerifyRequest")); ("OIDCTokenResponse", ("oidc", "TokenResponse")); ("OIDCDiscovery", ("oidc", "DiscoveryDoc"));
   ("OIDCJWKS", ("oidc", "JWKSet")); ("QRCreateRequest", ("qr", "CreateRequest")); ("QRCreateResponse", ("qr", "CreateResponse"));
   ("ArchiveRequest", ("dto", "ArchiveRequest")); ("ArchiveResponse", ("core", "ArchiveOutput"));
   ("RegistryItemRequest", ("dto", "RegistryItemRequest")); ("RegistryResponse", ("core", "RegistryOutput"));
   ("ChallengeIssueRequest", ("challenge", "IssueRequest")); ("ChallengeIssueResponse", ("challenge", "IssueResponse"));
   ("ChallengeConfirmRequest", ("challenge", "ConfirmRequest")); ("ChallengeConfirmResponse", ("challenge", "ConfirmResponse"));
   ("MultisignCreateRequest", ("multisign", "CreateRequest")); ("MultisignSession", ("multisign", "Session"));
   ("AuditVerifyResult", ("audit", "VerifyResult")); ("SignedQRIssueRequest", ("signedqr", "IssueRequest"));
   ("SignedQRIssueResponse", ("signedqr", "IssueResponse")); ("SignedQRVerifyResult", ("signedqr", "VerifyResult"))].
Definition nestedRenames : list (string * string) := [("Signature", "MultisignSignature"); ("Required", "MultisignRequirement")].
Definition enums : list (string * list string) :=
  [("SignRequest.format", ["cms"; "xml"; "wsse"]); ("VerifyRequest.format", ["cms"; "xml"; "wsse"]);
   ("VerifyAtRequest.format", ["cms"; "xml"; "wsse"]); ("VerifyAtRequest.method", ["ocsp"; "crl"]); ("ExtractRequest.format", ["cms"; "xml"; "wsse"]);
   ("SignResponse.format", ["cms"; "xml"; "wsse"]); ("VerifyResponse.format", ["cms"; "xml"; "wsse"]);
   ("VerifyAtResponse.format", ["cms"; "xml"; "wsse"]); ("PointInTimeVerdict.method", ["ocsp"; "crl"]);
   ("DiagnosisStep.status", ["pass"; "fail"; "warn"; "skipped"; "unknown"]); ("CertInfoRequest.encoding", ["pem"; "der"; "base64"]);
   ("ValidateRequest.encoding", ["pem"; "der"; "base64"]); ("CertInfoRequest.method", ["ocsp"; "crl"]); ("ValidateRequest.method", ["ocsp"; "crl"]);
   ("RevocationStatus.method", ["ocsp"; "crl"]); ("Certificate.ownerType", ["INDIVIDUAL"; "LEGAL_PERSON"; "INFOSYSTEM"; "UNKNOWN"]);
   ("Claims.owner_type", ["INDIVIDUAL"; "LEGAL_PERSON"; "INFOSYSTEM"; "UNKNOWN"]); ("Subject.gender", ["MALE"; "FEMALE"; "NONE"]);
   ("Claims.gender", ["male"; "female"]); ("Signer.cadesLevel", ["BES"; "T"]); ("SignResponse.cadesLevel", ["BES"; "T"]);
   ("QRCreateRequest.mode", ["sign"; "auth"]); ("QRCreateRequest.profile", ["agnostic"; "egov"; "relay"]);
   ("QRCreateRequest.format", ["cms"; "xml"; "wsse"]); ("VerificationReport.verdict", ["valid"; "invalid"; "indeterminate"]);
   ("RegistryRow.verdict", ["valid"; "invalid"; "indeterminate"]); ("ArchiveResponse.level", ["LT"]);
   ("MultisignCreateRequest.format", ["cms"; "xml"]); ("MultisignSession.format", ["cms"; "xml"]);
   ("MultisignSession.status", ["pending"; "complete"; "expired"]); ("RegistryItemRequest.format", ["cms"; "xml"; "wsse"])].


(** The first dot cuts a key of [enums]. *)
Fixpoint splitKey (key : string) : string * string :=
  match key with
  | EmptyString => (EmptyString, EmptyString)
  | String c t => if Ascii.eqb c "." then (EmptyString, t) else let (s, p) := splitKey t in (String c s, p)
  end.

Section Generate.
  Context {F : Type}.
Notation json := (json F).
Notation jobj := (list (string * json)).
  (** The definitions ($defs) reflected from a type; the text of a number. *)
  Variable defs_of : string * string -> jobj.
  Variable number : F -> string.

Definition claimed (n : string) : nat := length (filter (fun st => go_name st = n) topTypes).
Definition rootRenames : list (string * string) :=
  fold_left (fun out st => if (claimed (go_name st) =? 1)%nat then put (go_name st) (st_name st) out else out) topTypes [].
(** The renames of the pass over one top type. *)
Definition renames_for (st : schemaType) : list (string * string) :=
  put (go_name st) (st_name st) (put_all nestedRenames (put_all rootRenames [])).
Definition sameSchema (a b : json) : bool := str_eqb (marshal number a) (marshal number b).
Definition defs_prefix : string := "#/$defs/".
Definition rewriteRef (ref : string) (renames : list (string * string)) : string :=
  let p := String.length defs_prefix in
  if (p <? String.length ref)%nat && has_prefix defs_prefix ref
  then let name := substring p (String.length ref - p) ref in
       ("#/components/schemas/" ++ default name (get name renames))%string
  else ref.
Definition bookkeeping (k : string) : bool := str_eqb k "$schema" || str_eqb k "$id" || str_eqb k "additionalProperties".
Fixpoint cleanSchema (renames : list (string * string)) (v : json) : json :=
  match v with
  | JObj l =>
      JObj ((fix go (l : jobj) : jobj :=
        match l with
        | [] => []
        | (k, v) :: t =>
            if bookkeeping k then go t
            else (k, if str_eqb k "$ref" then match v with JText s => JText (rewriteRef s renames) | _ => v end else cleanSchema renames v) :: go t
        end) l)
  | JArr l => JArr (map (cleanSchema renames) l)
  | _ => v
  end.
(** One definition of a pass; a name that two types claim panics. *)
Definition merge_def (renames : list (string * string)) (out : jobj) (d : string * json) : outcome jobj :=
  let target := default (fst d) (get (fst d) renames) in
  let cleaned := cleanSchema renames (snd d) in
  match get target out with
  | Some prev => if sameSchema prev cleaned then Done (put target cleaned out) else Panic
  | None => Done (put target cleaned out)
  end.
Definition reflectSchemas : outcome jobj :=
  each (fun out st => each (merge_def (renames_for st)) out (defs_of (st_typ st))) [] topTypes.
Definition applyEnums (schemas : jobj) : outcome jobj :=
  each (fun schemas e =>
    let (schema, prop) := splitKey (fst e) in
    within schema (within "properties" (within prop (fun p => Done (put "enum" (JArr (map JText (snd e))) p)))) schemas) schemas enums.
(** [main]: the document; writing it is left out. *)
Definition components (schemas : jobj) : jobj := addOIDCSchemas (addAppSchemas (addBatchSchemas (addQRSchemas schemas))).
Definition generate : outcome jobj :=
  (let! schemas := reflectSchemas in
   let! schemas := applyEnums schemas in
   buildDoc number (components schemas))%outcome.

(** ** References *)
Definition own_ref (p : string * json) : list string := if str_eqb (fst p) "$ref" then match snd p with JText s => [s] | _ => [] end else [].
Fixpoint refs (v : json) : list string :=
  match v with
  | JObj l => flat_map (fun p => own_ref p ++ refs (snd p)) l
  | JArr l => flat_map refs l
  | _ => []
  end.
(** A reference is a text wherever there is one. *)
Definition is_text (v : json) : bool := match v with JText _ => true | _ => false end.
Fixpoint ref_texts (v : json) : bool :=
  match v with
  | JObj l => forallb (fun p => (negb (str_eqb (fst p) "$ref") || is_text (snd p)) && ref_texts (snd p)) l
  | JArr l => forallb ref_texts l
  | _ => true
  end.
(** What the reflector promises of the definitions of a type: they are closed
    under reference, by names, and the type is among them. *)
Record closed (st : schemaType) (defs : jobj) : Prop := {
  cd_root : go_name st ∈ map fst defs;
  cd_texts : forall n d, (n, d) ∈ defs -> is_text d = false /\ ref_texts d = true;
  cd_refs : forall n d r, (n, d) ∈ defs -> r ∈ refs d -> exists x, x <> EmptyString /\ r = (defs_prefix ++ x)%string /\ x ∈ map fst defs;
}.
End Generate.

(** ** Induction over a value and all its parts *)
Section Nested.
  Context {F : Type} (P : json F -> Prop).
  Hypothesis leaf : forall v, (match v with JObj _ | JArr _ => False | _ => True end) -> P v.
  Hypothesis array : forall l, Forall P l -> P (JArr l).
  Hypothesis object : forall l, Forall (fun p => P (snd p)) l -> P (JObj l).
Fixpoint json_nested (v : json F) : P v.
Proof.
  destruct v; try (apply leaf; exact I).
  - apply array. induction l as [|x l IH]; constructor; [apply json_nested|exact IH].
  - apply object. induction l as [|x l IH]; constructor; [apply json_nested|exact IH].
Qed.
End Nested.

Section Objects.
  Context {A : Type}.
Implicit Type m : list (string * A).
Lemma get_keys k m : is_Some (get k m) <-> k ∈ map fst m.
Proof.
  induction m as [|[x v] m IH]; simpl; [split; [intros [? [=]]|by intros ?%elem_of_nil]|].
  destruct (str_eqb x k) eqn:E; [apply str_eqb_eq in E as ->; split; [left|eauto]|].
  rewrite elem_of_cons, IH. apply not_true_iff_false in E. rewrite str_eqb_eq in E. naive_solver.
Qed.
Lemma keys_put k v m x : x ∈ map fst (put k v m) <-> x = k \/ x ∈ map fst m.
Proof.
  induction m as [|[y w] m IH]; simpl; [rewrite elem_of_cons; set_solver|].
  destruct (str_eqb y k) eqn:E; simpl; rewrite !elem_of_cons; [apply str_eqb_eq in E as ->; tauto|rewrite IH; tauto].
Qed.
Lemma keys_put_all l m x : x ∈ map fst (put_all l m) <-> x ∈ map fst l \/ x ∈ map fst m.
Proof.
  unfold put_all. revert m. induction l as [|[k v] l IH]; intros m; simpl; [set_solver|]. rewrite IH, keys_put, elem_of_cons. tauto.
Qed.
Lemma get_put k v m x : get x (put k v m) = if str_eqb k x then Some v else get x m.
Proof.
  induction m as [|[y w] m IH]; simpl; [by destruct (str_eqb k x)|].
  destruct (str_eqb y k) eqn:E; simpl.
  - apply str_eqb_eq in E as ->. by destruct (str_eqb k x).
  - destruct (str_eqb y x) eqn:E'; [|exact IH]. apply str_eqb_eq in E' as ->.
    destruct (str_eqb k x) eqn:E2; [apply str_eqb_eq in E2 as ->; by rewrite str_eqb_refl in E|done].
Qed.
End Objects.

(** ** References of an object *)
Section Refs.
  Context {F : Type}.
Notation json := (json F).
Notation jobj := (list (string * json)).
Implicit Types (m l : jobj) (v : json).
Definition refs_of (p : string * json) : list string := own_ref p ++ refs (snd p).

Lemma elem_flat_map {A B} (f : A -> list B) (l : list A) y : y ∈ flat_map f l <-> exists x, x ∈ l /\ y ∈ f x.
Proof. rewrite list_elem_of_In, in_flat_map. by setoid_rewrite list_elem_of_In. Qed.
Lemma refs_obj l x : x ∈ refs (JObj l) <-> exists p, p ∈ l /\ x ∈ refs_of p.
Proof. apply elem_flat_map. Qed.
Lemma refs_cons p l x : x ∈ refs (JObj (p :: l)) <-> x ∈ refs_of p \/ x ∈ refs (JObj l).
Proof. simpl. by rewrite elem_of_app. Qed.
Lemma refs_put k v m x : x ∈ refs (JObj (put k v m)) -> x ∈ refs_of (k, v) \/ x ∈ refs (JObj m).
Proof.
  induction m as [|[y w] m IH]; cbn [put]; [rewrite refs_cons; tauto|].
  destruct (str_eqb y k); rewrite !refs_cons; tauto.
Qed.
Lemma refs_put_all l m x : x ∈ refs (JObj (put_all l m)) -> x ∈ refs (JObj l) \/ x ∈ refs (JObj m).
Proof.
  unfold put_all. revert m. induction l as [|[k v] l IH]; intros m; [by right|]. simpl fold_left. rewrite refs_cons.
  intros [H|[H|H]%refs_put]%IH; tauto.
Qed.
Lemma get_elem k m v : get k m = Some v -> (k, v) ∈ m.
Proof.
  induction m as [|[y w] m IH]; simpl; [done|]. destruct (str_eqb y k) eqn:E; [|intros H; right; auto].
  apply str_eqb_eq in E as ->. intros [= ->]. left.
Qed.
Lemma refs_get k m v x : get k m = Some v -> x ∈ refs v -> x ∈ refs (JObj m).
Proof. intros Hg%get_elem Hx. apply refs_obj. exists (k, v). split; [done|]. apply elem_of_app. by right. Qed.

(** A change of a field that adds no reference and keeps the fields. *)
Definition tame (f : jobj -> outcome jobj) : Prop := forall o o', f o = Done o' ->
  (forall x, x ∈ refs (JObj o') -> x ∈ refs (JObj o)) /\ (forall x, x ∈ map fst o -> x ∈ map fst o').
Lemma within_tame k f : tame f -> tame (within k f).
Proof.
  intros Hf m m'. unfold within. destruct (get k m) as [[| | | | |o]|] eqn:Eg; [done..| |done].
  destruct (f o) as [o'|] eqn:Ef; [|done]. intros [= <-]. apply Hf in Ef as [Hr _]. split.
  - intros x [Hx|Hx]%refs_put; [|done]. apply elem_of_app in Hx as [Hx|Hx].
    + unfold own_ref in Hx. simpl in Hx. destruct (str_eqb k "$ref"); by apply elem_of_nil in Hx.
    + eapply refs_get; [exact Eg|]. by apply Hr.
  - intros x Hx. apply keys_put. by right.
Qed.
Lemma put_tame k v : refs_of (k, v) = [] -> tame (fun o => Done (put k v o)).
Proof.
  intros Hv o o' [= <-]. split; [|intros x Hx; apply keys_put; by right].
  intros x [Hx|Hx]%refs_put; [|done]. rewrite Hv in Hx. by apply elem_of_nil in Hx.
Qed.
Lemma each_tame {A} (f : jobj -> A -> outcome jobj) (l : list A) : (forall x, tame (fun o => f o x)) -> tame (fun m => each f m l).
Proof.
  intros Hf. induction l as [|y l IH]; intros m m'; simpl; [by intros [= ->]|].
  destruct (f m y) as [m1|] eqn:Ef; [|done]. apply (Hf y) in Ef as [Hr Hk]. intros [Hr' Hk']%IH. split; auto.
Qed.
Lemma texts_no_refs (l : list string) : refs (F := F) (JArr (map JText l)) = [].
Proof. simpl. induction l; simpl; auto. Qed.
Lemma applyEnums_tame : tame applyEnums.
Proof.
  apply each_tame. intros [key vals]. cbn [fst snd]. destruct (splitKey key) as [schema prop].
  do 3 apply within_tame. apply put_tame. unfold refs_of. cbn [snd]. by rewrite texts_no_refs.
Qed.

(** ** References of a cleaned definition *)
Lemma clean_fields rn l : exists l', cleanSchema rn (JObj l) = JObj l' /\ forall q, q ∈ l' -> exists k v, (k, v) ∈ l /\
  q = (k, if str_eqb k "$ref" then match v with JText s => JText (rewriteRef s rn) | _ => v end else cleanSchema rn v).
Proof.
  eexists. split; [reflexivity|]. induction l as [|[k v] l IH]; intros q; [by intros ?%elem_of_nil|].
  destruct (bookkeeping k).
  - intros (k' & v' & Hin & ->)%IH. exists k', v'. split; [by right|done].
  - intros [->|(k' & v' & Hin & ->)%IH]%elem_of_cons; [exists k, v|exists k', v']; (split; [by constructor|done]).
Qed.
Lemma refs_clean rn v x : ref_texts v = true -> x ∈ refs (cleanSchema rn v) -> exists y, y ∈ refs v /\ x = rewriteRef y rn.
Proof.
  revert x. induction v as [v Hv|l IH|l IH] using json_nested; intros x Ht Hx.
  - destruct v; try done; by apply elem_of_nil in Hx.
  - simpl in Hx, Ht. apply elem_flat_map in Hx as (w & (v & -> & Hv)%list_elem_of_fmap & Hw).
    rewrite Forall_forall in IH. rewrite forallb_forall in Ht.
    destruct (IH v Hv x) as (y & Hy & ->); [by apply Ht, list_elem_of_In|done|].
    exists y. split; [|done]. apply elem_flat_map. eauto.
  - destruct (clean_fields rn l) as (l' & El & Hl). rewrite El in Hx. apply refs_obj in Hx as (q & (k & v & Hp & ->)%Hl & Hx).
    rewrite Forall_forall in IH. specialize (IH _ Hp). simpl in IH.
    simpl in Ht. rewrite forallb_forall in Ht. specialize (Ht (k, v)). rewrite <- list_elem_of_In in Ht. specialize (Ht Hp).
    apply andb_true_iff in Ht as [Ht Hd]. cbn [fst snd] in *. unfold refs_of, own_ref in Hx. cbn [fst snd] in Hx.
    destruct (str_eqb k "$ref") eqn:Ek.
    + destruct v; try done. simpl in Hx. apply list_elem_of_singleton in Hx as ->.
      exists s. split; [|done]. apply refs_obj. exists (k, JText s). split; [done|]. unfold refs_of, own_ref. cbn [fst snd]. rewrite Ek. left.
    + simpl in Hx. destruct (IH x Hd Hx) as (y & Hy & ->). exists y. split; [|done].
      apply refs_obj. exists (k, v). split; [done|]. apply elem_of_app. by right.
Qed.
Lemma substring_all s : substring 0 (String.length s) s = s.
Proof. induction s; simpl; [done|]. by rewrite IHs. Qed.
Lemma rewrite_def x rn : x <> EmptyString -> rewriteRef (defs_prefix ++ x)%string rn = ("#/components/schemas/" ++ default x (get x rn))%string.
Proof.
  intros Hx. unfold rewriteRef. destruct x as [|c x]; [done|].
  change (substring (String.length defs_prefix) (String.length (defs_prefix ++ String c x) - String.length defs_prefix) (defs_prefix ++ String c x))
    with (substring 0 (String.length (String c x)) (String c x)).
  by rewrite substring_all.
Qed.
End Refs.

(** ** The components *)
Section Components.
  Context {F : Type}.
Notation json := (json F).
Notation jobj := (list (string * json)).
  Variable defs_of : string * string -> jobj.
  Variable number : F -> string.
Definition schema_ref (n : string) : string := ("#/components/schemas/" ++ n)%string.
(** Every reference of an object leads to one of the names. *)
Definition leads (m : jobj) (names : list string) : Prop := forall x, x ∈ refs (JObj m) -> exists n, n ∈ names /\ x = schema_ref n.

Lemma clean_not_text rn (d : json) : is_text d = false -> is_text (cleanSchema rn d) = false.
Proof. by destruct d. Qed.
Lemma merge_def_spec rn (out : jobj) d out' : merge_def number rn out d = Done out' -> is_text (snd d) = false ->
  (forall x, x ∈ refs (JObj out') -> x ∈ refs (JObj out) \/ x ∈ refs (cleanSchema rn (snd d))) /\
  (forall n, n ∈ map fst out -> n ∈ map fst out') /\ default (fst d) (get (fst d) rn) ∈ map fst out'.
Proof.
  unfold merge_def. set (target := default (fst d) (get (fst d) rn)). intros H Ht%(clean_not_text rn).
  assert (out' = put target (cleanSchema rn (snd d)) out) as ->.
  { destruct (get target out); [|by injection H]. destruct (sameSchema _ _ _); [by injection H|done]. }
  split; [|split; [intros n Hn; apply keys_put; by right|apply keys_put; by left]].
  intros x [Hx|Hx]%refs_put; [|by left]. right. apply elem_of_app in Hx as [Hx|Hx]; [|done].
  unfold own_ref in Hx. cbn [fst snd] in Hx. destruct (str_eqb target "$ref"); [|by apply elem_of_nil in Hx].
  destruct (cleanSchema rn (snd d)); try done; by apply elem_of_nil in Hx.
Qed.
Lemma pass_spec rn defs (out out' : jobj) : each (merge_def number rn) out defs = Done out' ->
  (forall n d, (n, d) ∈ defs -> is_text d = false) ->
  (forall x, x ∈ refs (JObj out') -> x ∈ refs (JObj out) \/ exists n d, (n, d) ∈ defs /\ x ∈ refs (cleanSchema rn d)) /\
  (forall n, n ∈ map fst out -> n ∈ map fst out') /\ (forall n, n ∈ map fst defs -> default n (get n rn) ∈ map fst out').
Proof.
  revert out. induction defs as [|[n d] defs IH]; intros out; cbn [each].
  { intros [= ->] _. split; [by left|]. split; [done|]. by intros n ?%elem_of_nil. }
  destruct (merge_def number rn out (n, d)) as [out1|] eqn:E; [|done]. cbn [obind]. intros H Ht.
  apply merge_def_spec in E as (Hr & Hk & Hn); [|apply (Ht n); left]. apply IH in H as (Hr' & Hk' & Hn'); [|intros; eapply Ht; by right].
  split; [|split; [auto|]].
  - intros x [[Hx|Hx]%Hr|(n' & d' & Hin & Hx)]%Hr'; [by left|right; exists n, d; split; [left|done]|right; exists n', d'; split; [by right|done]].
  - intros k [->|Hk1]%elem_of_cons; [by apply Hk'|by apply Hn'].
Qed.
Lemma root_renamed st : default (go_name st) (get (go_name st) (renames_for st)) = st_name st.
Proof. unfold renames_for. by rewrite get_put, str_eqb_refl. Qed.
(** After each pass every reference leads to a component. *)
Lemma reflect_leads sts (out out' : jobj) :
  each (fun out st => each (merge_def number (renames_for st)) out (defs_of (st_typ st))) out sts = Done out' ->
  (forall st, st ∈ sts -> closed st (defs_of (st_typ st))) -> leads out (map fst out) ->
  leads out' (map fst out') /\ (forall n, n ∈ map fst out -> n ∈ map fst out') /\ (forall st, st ∈ sts -> st_name st ∈ map fst out').
Proof.
  revert out. induction sts as [|st sts IH]; intros out; cbn [each].
  { intros [= ->] _ Hl. split; [done|]. split; [done|]. by intros st ?%elem_of_nil. }
  destruct (each _ out (defs_of (st_typ st))) as [out1|] eqn:E; [|done]. cbn [obind]. intros H Hc Hl.
  destruct (Hc st ltac:(left)) as [Hroot Htext Href].
  apply pass_spec in E as (Hr & Hk & Hn); [|by intros n d Hd; apply (Htext n d)].
  assert (leads out1 (map fst out1)) as Hl1.
  { intros x [(n & Hin & ->)%Hl|(n & d & Hd & (y & Hy & ->)%refs_clean)]%Hr; [exists n; split; [by apply Hk|done]| |by apply (Htext n d)].
    destruct (Href n d y Hd Hy) as (z & Hz & -> & Hin). rewrite rewrite_def by done.
    exists (default z (get z (renames_for st))). split; [by apply Hn|done]. }
  apply IH in H as (Hl' & Hk' & Hs'); [|intros; apply Hc; by right|done].
  split; [done|]. split; [auto|]. intros st' [->|Hin]%elem_of_cons; [|by apply Hs'].
  apply Hk'. rewrite <- root_renamed. by apply Hn.
Qed.

Lemma reflected_leads (out : jobj) : reflectSchemas defs_of number = Done out -> (forall st, st ∈ topTypes -> closed st (defs_of (st_typ st))) ->
  leads out (map fst out) /\ forall st, st ∈ topTypes -> st_name st ∈ map fst out.
Proof.
  unfold reflectSchemas. generalize topTypes. intros sts Hr Hc. destruct (reflect_leads _ _ _ Hr Hc) as (Hl & _ & Hs); [|by split].
  by intros x ?%elem_of_nil.
Qed.

(** The schemas written by hand, in the order they are added. *)
Definition by_hand : jobj := components [].
Lemma components_put (schemas : jobj) : components schemas = put_all by_hand schemas.
Proof. reflexivity. Qed.
Definition known : list string := map st_name topTypes ++ map fst by_hand.
Definition error_ref : string := "#/components/responses/Error".
Definition to_known (r : string) : bool := existsb (fun n => str_eqb r (schema_ref n)) known.
Lemma hand_refs : forallb to_known (refs (JObj by_hand)) = true.
Proof. vm_compute. reflexivity. Qed.
Lemma path_refs : match buildPaths number with
  | Done paths => forallb (fun r => to_known r || str_eqb r error_ref) (refs (JObj paths)) | Panic => false end = true.
Proof. vm_compute. reflexivity. Qed.
Lemma known_leads r : to_known r = true -> exists n, n ∈ known /\ r = schema_ref n.
Proof. intros (n & Hn & ->%str_eqb_eq)%existsb_exists. exists n. split; [by apply list_elem_of_In|done]. Qed.

(** A reference of a document leads to one of its components. *)
Definition resolves (doc : jobj) (r : string) : Prop := exists kind name comps named,
  r = ("#/components/" ++ kind ++ "/" ++ name)%string /\ get "components" doc = Some (JObj comps) /\ get kind comps = Some (JObj named) /\
  is_Some (get name named).

Lemma done_inj {A} (a b : A) : Done a = Done b -> a = b.
Proof. congruence. Qed.
(** The rest of a document holds no reference but that of the shared error. *)
Lemma document_refs schemas doc : buildDoc number schemas = Done doc -> forall r, r ∈ refs (JObj doc) ->
  to_known r = true \/ r = error_ref \/ r = schema_ref "ErrorEnvelope" \/ r ∈ refs (JObj schemas).
Proof.
  pose proof path_refs as Hp. unfold buildDoc. destruct (buildPaths number) as [paths|]; [|done]. cbn [obind]. intros H r Hr. apply done_inj in H as <-.
  rewrite forallb_forall in Hp. rewrite !refs_cons in Hr. unfold refs_of in Hr. cbn [fst snd] in Hr.
  destruct Hr as [Hr|[Hr|[Hr|[Hr|[Hr|[Hr|Hr]]]]]]; [simpl in Hr; by apply elem_of_nil in Hr..| | |by apply elem_of_nil in Hr];
    (apply elem_of_app in Hr as [Hr|Hr]; [by apply elem_of_nil in Hr|]).
  - apply list_elem_of_In, Hp in Hr. apply orb_true_iff in Hr as [Hr|Hr%str_eqb_eq]; [by left|right; by left].
  - rewrite !refs_cons in Hr. unfold refs_of in Hr. cbn [fst snd] in Hr. destruct Hr as [Hr|[Hr|Hr]]; [| |by apply elem_of_nil in Hr].
    + apply elem_of_app in Hr as [Hr|Hr]; [by apply elem_of_nil in Hr|]. do 3 right. exact Hr.
    + simpl in Hr. apply list_elem_of_singleton in Hr. auto.
Qed.

Lemma document_components schemas doc : buildDoc number schemas = Done doc -> exists comps named,
  get "components" doc = Some (JObj comps) /\ get "schemas" comps = Some (JObj schemas) /\ get "responses" comps = Some (JObj named) /\
  is_Some (get "Error" named).
Proof.
  unfold buildDoc. destruct (buildPaths number) as [paths|]; [|done]. cbn [obind]. intros H.
  apply done_inj in H as <-. do 2 eexists. repeat split. by eexists.
Qed.

(** Every reference of the generated document leads to one of its components:
    whatever the reflector answers for the types, if what it answers for each is
    closed, the renaming into one space of names and the merge, the enums, the
    hand-written schemas and the paths keep it so. *)
Theorem no_dangling_refs doc :
  (forall st, st ∈ topTypes -> closed st (defs_of (st_typ st))) -> generate defs_of number = Done doc ->
  forall r, r ∈ refs (JObj doc) -> resolves doc r.
Proof.
  intros Hc. unfold generate. destruct (reflectSchemas defs_of number) as [out|] eqn:Er; [|done]. cbn [obind].
  destruct (applyEnums out) as [schemas|] eqn:Ee; [|done]. cbn [obind]. intros Hd r Hr.
  destruct (reflected_leads _ Er Hc) as [Hl Hroots].
  apply applyEnums_tame in Ee as [Hs Hk].
  assert (forall n, n ∈ known \/ n ∈ map fst out -> is_Some (get n (components schemas))) as Hnames.
  { intros n Hn. rewrite components_put, get_keys, keys_put_all. unfold known in Hn. rewrite elem_of_app in Hn.
    destruct Hn as [[(st & -> & Hst)%list_elem_of_fmap|Hn]|Hn]; [right; by apply Hk, Hroots|by left|right; by apply Hk]. }
  destruct (document_components _ _ Hd) as (comps & named & Hcomp & Hschemas & Hresp & Herr).
  assert (forall n, n ∈ known \/ n ∈ map fst out -> r = schema_ref n -> resolves doc r) as Hto.
  { intros n Hn ->. exists "schemas", n, comps, (components schemas). split; [done|]. split; [done|]. split; [done|]. by apply Hnames. }
  destruct (document_refs _ _ Hd r Hr) as [(n & Hn & E)%known_leads|[E|[E|Hx]]].
  - by apply (Hto n); [left|].
  - exists "responses", "Error", comps, named. split; [rewrite E; reflexivity|]. split; [exact Hcomp|]. split; [exact Hresp|exact Herr].
  - apply (Hto "ErrorEnvelope"); [|done]. left. unfold known. apply elem_of_app. left. apply list_elem_of_In. vm_compute. tauto.
  - rewrite components_put in Hx. apply refs_put_all in Hx as [Hx|Hx%Hs].
    + pose proof hand_refs as Hh. rewrite forallb_forall in Hh. apply list_elem_of_In, Hh, known_leads in Hx as (n & Hn & E).
      by apply (Hto n); [left|].
    + apply Hl in Hx as (n & Hn & E). by apply (Hto n); [right|].
Qed.
End Components.

(** ** The paths and the routes *)
Section Routes.
  Context {F : Type}.
Notation json := (json F).
Notation jobj := (list (string * json)).
  Variable number : F -> string.
(** Whether an operation has a header parameter. *)
Definition has_header (name : string) (op : json) : bool :=
  match op with
  | JObj op =>
      match get "parameters" op with
      | Some (JArr l) =>
          existsb (fun p => match p with
                            | JObj p => match get "in" p, get "name" p with
                                        | Some (JText i), Some (JText n) => str_eqb i "header" && str_eqb n name
                                        | _, _ => false
                                        end
                            | _ => false
                            end) l
      | _ => false
      end
  | _ => false
  end.
(** The operations that a document describes, as route patterns, and whether
    they take an idempotency key. *)
Definition described (paths : jobj) : list (Server.pattern * bool) :=
  flat_map (fun p => match snd p with
                     | JObj item => map (fun o => (Wiring.Wiring.at_ (to_upper (fst o)) (fst p), has_header "Idempotency-Key" (snd o))) item
                     | _ => []
                     end) paths.
Definition described_paths : list (Server.pattern * bool) := match buildPaths number with Done paths => described paths | Panic => [] end.

Section Registered.
  Context {W F' DD KS : Type}.
  Variable s : Server.Server W F' DD KS.
  Variable ps : Server.parsers F'.
  Variable ParseForm : Server.request -> res goerr (string -> string).
  Variable BasicAuth : Server.request -> option (string * string).
  Variable ParseMultipartForm : Server.request -> res goerr (string -> option string).
  Variable location : Server.request -> string -> string.
  Variable open_journal : string -> M W (res goerr (list Journal.Journal.line * option goerr * string)).
  Variable sha256_hex : string -> string.
(** What the transport registers, and whether behind the idempotency layer. *)
Definition registered : list (Server.pattern * bool) :=
  map (fun rt => (Server.rt_pattern rt, Server.rt_idempotent rt))
    (Server.routes s ps ParseForm BasicAuth ParseMultipartForm location open_journal sha256_hex).
Definition all_on : bool :=
  Server.present (Server.sv_jobs s) && Server.present (Server.sv_jwks s) && Server.present (Server.sv_oidc s) &&
  Server.present (Server.sv_signed_qr s) && Server.sv_console s && negb (empty_str (Server.sv_sandbox_key s)) &&
  negb (empty_str (Server.sv_audit_path s)) && Server.present (Server.sv_multisign s) && Server.sv_portal s &&
  Server.present (Server.sv_challenge s) && Server.present (Server.sv_qr s).
Definition health_operations : list (Server.pattern * bool) := map (fun p => (Wiring.Wiring.at_ "GET" p, false)) Metrics.Metrics.health_paths.
Ltac open_routes := unfold registered, Server.routes, Server.job_routes, Server.jwks_routes, Server.oidc_routes, Server.document_routes,
  Server.console_routes, Server.sandbox_routes, Server.audit_routes, Server.multisign_routes, Server.portal_routes, Server.challenge_routes,
  Server.qr_routes; rewrite ?map_app, ?Serving.map_when.

Lemma registered_described x : x ∈ registered -> x ∈ described_paths.
Proof.
  assert (exists R, registered `sublist_of` R /\ forallb (fun x => bool_decide (x ∈ described_paths)) R = true) as (R & Hs & HR).
  { eexists. split.
    - open_routes. repeat first [apply sublist_app | apply Serving.sublist_when | reflexivity].
    - vm_compute. reflexivity. }
  intros Hx. eapply elem_of_sublist in Hx; [|exact Hs]. rewrite forallb_forall in HR. apply list_elem_of_In, HR in Hx.
  by apply bool_decide_eq_true in Hx.
Qed.
Lemma registered_all : all_on = true -> described_paths ≡ₚ registered ++ health_operations.
Proof.
  unfold all_on. rewrite !andb_true_iff. intros Hon. destruct_and! Hon. open_routes.
  repeat match goal with H : _ = true |- _ => rewrite H; clear H end.
  apply (bool_decide_unpack _). vm_compute. exact I.
Qed.

(** The submission of a job hands the header on, before the key of the body. *)
Lemma job_submit_header j r req :
  Server.sv_jobs s = Some j -> Server.decode (F := F') (DD := DD) (KS := KS) (Server.ps_job ps) r = inr req ->
  Server.h_header r "Idempotency-Key" <> EmptyString ->
  exists answer, Server.handleJobSubmit s ps r =
    (let* v := Server.ja_submit j (Server.js_op req) (Server.js_request req) (Server.js_callback req)
                 (Server.h_header r "Idempotency-Key") in mret (answer v))%m.
Proof.
  intros Hj Hd Hk. unfold Server.handleJobSubmit. rewrite Hd, Hj, (proj2 (str_eqb_neq _ _) Hk : empty_str _ = false).
  eexists. reflexivity.
Qed.

(** C22: The paths of the document are those of the transport. They can be built;
    every route that a server registers is described, with an Idempotency-Key
    header exactly where the route is behind the idempotency layer; and with every
    feature on the operations it describes are those routes and the health
    endpoints, each once. One operation honours the header without that layer: the
    submission of a job hands it to the job manager, and is described without
    it. *)
Theorem spec_describes_routes :
  (exists paths, buildPaths number = Done paths) /\ (forall x, x ∈ registered -> x ∈ described_paths) /\
  (all_on = true -> described_paths ≡ₚ registered ++ health_operations) /\
  (Wiring.Wiring.at_ "POST" "/jobs", false) ∈ described_paths /\
  (forall j r req, Server.sv_jobs s = Some j -> Server.decode (F := F') (DD := DD) (KS := KS) (Server.ps_job ps) r = inr req ->
     Server.h_header r "Idempotency-Key" <> EmptyString ->
     exists answer, Server.handleJobSubmit s ps r =
       (let* v := Server.ja_submit j (Server.js_op req) (Server.js_request req) (Server.js_callback req)
                    (Server.h_header r "Idempotency-Key") in mret (answer v))%m).
Proof.
  split; [|split; [apply registered_described|split; [apply registered_all|split; [|apply job_submit_header]]]].
  - pose proof (path_refs number) as H. destruct (buildPaths number) as [paths|]; [eauto|done].
  - apply (bool_decide_unpack _). vm_compute. exact I.
Qed.
End Registered.
End Routes.

(** ** The folders of the collection *)
Definition tag_step (ts : list string) (e : endpoint) : list string := if bool_decide (e_tag e ∈ ts) then ts else ts ++ [e_tag e].
(** The tags of endpoints, in the order they first occur. *)
Definition tags (l : list endpoint) : list string := fold_left tag_step l [].
Definition item_of (e : endpoint) : pmItem := mkItem (e_summary e) (pmRequestFor e).
Definition folder_of (l : list endpoint) (t : string) : pmFolder := mkFolder (title t) (map item_of (filter (fun e => e_tag e = t) l)).
Definition collected (l : list endpoint) : folders := fold_left add_endpoint l (mkFolders [] ∅).

Lemma tags_snoc l e : tags (l ++ [e]) = tag_step (tags l) e.
Proof. unfold tags. by rewrite fold_left_app. Qed.
Lemma folder_snoc l e t : folder_of (l ++ [e]) t =
  if decide (e_tag e = t) then mkFolder (title t) (pf_items (folder_of l t) ++ [item_of e]) else folder_of l t.
Proof.
  unfold folder_of. rewrite filter_app, filter_cons, filter_nil. cbn [pf_items].
  destruct (decide (e_tag e = t)); [by rewrite map_app|by rewrite app_nil_r].
Qed.
Lemma filter_no_tag l t : t ∉ tags l -> filter (fun e => e_tag e = t) l = [].
Proof.
  induction l as [|e l IH] using rev_ind; [done|]. rewrite tags_snoc. unfold tag_step. intros Ht.
  assert (t ∉ tags l /\ e_tag e <> t) as [Hl He].
  { case_bool_decide as Hd; [split; [done|by intros <-]|]. apply not_elem_of_app in Ht as [? ?%not_elem_of_cons]. naive_solver. }
  rewrite filter_app, filter_cons, filter_nil, decide_False by done. by rewrite IH.
Qed.
Lemma collected_spec l : fo_items (collected l) = map (folder_of l) (tags l) /\ NoDup (tags l) /\
  forall t i, fo_index (collected l) !! t = Some i <-> tags l !! i = Some t.
Proof.
  unfold collected. induction l as [|e l (IHi & IHn & IHx)] using rev_ind; [split; [done|]; split; [constructor|]; intros t i; cbn; by rewrite lookup_empty|].
  rewrite fold_left_app. cbn [fold_left]. set (f := fold_left add_endpoint l _) in *. rewrite tags_snoc. unfold add_endpoint, add, tag_step.
  change (mkItem (e_summary e) (pmRequestFor e)) with (item_of e).
  assert (forall i, tags l !! i = Some (e_tag e) ->
    map (folder_of (l ++ [e])) (tags l) = alter (fun c => mkFolder (pf_name c) (pf_items c ++ [item_of e])) i (map (folder_of l) (tags l))) as Halter.
  { intros i Hi. apply list_eq. intros j. rewrite list_lookup_fmap. destruct (decide (i = j)) as [<-|Hne].
    - rewrite list_lookup_alter, decide_True, list_lookup_fmap, Hi by done. cbn. by rewrite folder_snoc, decide_True.
    - rewrite list_lookup_alter, decide_False, list_lookup_fmap by done. destruct (tags l !! j) as [t|] eqn:Ej; [|done]. cbn.
      rewrite folder_snoc, decide_False; [done|]. intros E. apply Hne. eapply NoDup_lookup; [exact IHn|exact Hi|by rewrite E]. }
  destruct (fo_index f !! e_tag e) as [i|] eqn:Ei.
  - apply IHx in Ei as Ht. rewrite bool_decide_true by (eapply list_elem_of_lookup_2, Ht). cbn [fo_items fo_index]. rewrite Ei. cbn [default].
    split; [by rewrite IHi, (Halter i)|]. by split.
  - assert (e_tag e ∉ tags l) as Hnt.
    { intros [i Hi]%list_elem_of_lookup_1. apply IHx in Hi. by rewrite Hi in Ei. }
    rewrite bool_decide_false by done. cbn [fo_items fo_index]. rewrite lookup_insert, decide_True by done. cbn [default]. split; [|split].
    + assert (map (folder_of (l ++ [e])) (tags l) = map (folder_of l) (tags l)) as Hsame.
      { apply list_fmap_ext. intros j t Hj. rewrite folder_snoc, decide_False; [done|]. intros <-. apply Hnt. by eapply list_elem_of_lookup_2. }
      rewrite map_app, Hsame, IHi. cbn [map]. rewrite folder_snoc, decide_True by done.
      assert (folder_of l (e_tag e) = mkFolder (title (e_tag e)) []) as -> by (unfold folder_of; by rewrite filter_no_tag).
      cbn [pf_items app]. unfold id. by rewrite alter_app_r_alt, Nat.sub_diag by lia.
    + apply NoDup_app. split; [done|]. split; [|apply NoDup_singleton]. by intros x Hx ->%list_elem_of_singleton.
    + intros t i. rewrite lookup_insert, IHi, length_map, lookup_app_Some, list_lookup_singleton_Some. case_decide as Et.
      * subst t. split; [intros [= <-]; right; rewrite Nat.sub_diag; by split_and!|]. intros [Hi|(Hle & Hi & _)]; [|f_equal; lia].
        exfalso. by eapply Hnt, list_elem_of_lookup_2.
      * rewrite IHx. split; [by left|]. by intros [Hi|(_ & _ & Hi)].
Qed.

(** The Postman collection holds every endpoint of the tables exactly once, in
    the folder of its tag and in the order of the tables, and a folder for each
    tag in the order the tags first occur. *)
Theorem postman_by_tag l : fo_items (fold_left add_endpoint l (mkFolders [] ∅)) = map (folder_of l) (tags l) /\ NoDup (tags l).
Proof. destruct (collected_spec l) as (Hi & Hn & _). by split. Qed.
(** The paths of jobs are described, and no request of the collection is for
    them. *)
Example postman_lacks_jobs (number : Empty_set -> string) :
  forallb (fun e => negb (has_prefix "/jobs" (e_path e))) postman_endpoints = true /\
  existsb (fun x => bool_decide (x = (Wiring.Wiring.at_ "POST" "/jobs", false))) (described_paths number) = true.
Proof. vm_compute. by split. Qed.
(** The segments of a request's URL are those of the path. *)
Fixpoint plain_ascii (s : string) : bool := match s with EmptyString => true | String c t => (nat_of_ascii c <? 128)%nat && plain_ascii t end.
Definition nonempty (l : list string) : list string := filter (fun s => empty_str s = false) l.
Definition glue (seg : string) (l : list string) : list string := match l with [] => [seg] | h :: t => (seg ++ h)%string :: t end.
Lemma nonempty_cons s l : nonempty (s :: l) = (if negb (empty_str s) then [s] else []) ++ nonempty l.
Proof. unfold nonempty. rewrite filter_cons. by destruct (empty_str s). Qed.
Lemma glue_empty l : l <> [] -> glue EmptyString l = l.
Proof. by destruct l. Qed.
Lemma split_loop_spec p seg out : plain_ascii p = true -> split_loop p seg out = out ++ nonempty (glue seg (split "/" p)).
Proof.
  revert seg out. induction p as [|c p IH]; intros seg out Hp; cbn [split_loop].
  - change (split "/" EmptyString) with [EmptyString]. cbn [glue]. rewrite Asn1.app_nil_s, nonempty_cons. destruct (empty_str seg); cbn; by rewrite ?app_nil_r.
  - cbn [plain_ascii] in Hp. apply andb_true_iff in Hp as [Hc Hp]. rewrite split_cons. destruct (Ascii.eqb c "/").
    + rewrite IH, glue_empty by first [done|apply split_ne]. cbn [glue]. rewrite Asn1.app_nil_s, nonempty_cons, app_assoc.
      by destruct (empty_str seg); cbn; rewrite ?app_nil_r.
    + rewrite IH by done. unfold rune_of_byte. rewrite Hc. f_equal. f_equal. pose proof (split_ne "/" p) as Hn.
      destruct (split "/" p) as [|h t]; [done|]. cbn [glue]. by rewrite Asn1.app_assoc_s.
Qed.
Lemma splitPath_segments p : plain_ascii p = true -> splitPath (String "/" p) = nonempty (split "/" p).
Proof. intros Hp. unfold splitPath. rewrite split_loop_spec, glue_empty by first [done|apply split_ne]. done. Qed.

(** ** Witnesses
    A reflector that answers for a type its enumerated properties, and for one of
    them the definitions it refers to as well. *)
Definition lab_number (f : Empty_set) : string := match f with end.
Definition lab_props (component : string) : list (string * json Empty_set) :=
  flat_map (fun e => let (schema, prop) := splitKey (fst e) in
    if str_eqb schema component then [(prop, JObj [("type", JText "string")])] else []) enums.
Definition lab_schema (component : string) : json Empty_set := JObj [("type", JText "object"); ("properties", JObj (lab_props component))].
Definition lab_nested : list string :=
  ["PointInTimeVerdict"; "DiagnosisStep"; "RevocationStatus"; "Certificate"; "Claims"; "Subject"; "Signer"; "VerificationReport"; "RegistryRow"].
Definition lab_defs (t : string * string) : list (string * json Empty_set) :=
  if str_eqb (snd t) "VerifyOutput" then
    ("VerifyOutput", JObj [("properties", JObj (lab_props "VerifyResponse" ++ map (fun n => (n, JObj [("$ref", JText (defs_prefix ++ n)%string)])) lab_nested))])
      :: map (fun n => (n, lab_schema n)) lab_nested
  else flat_map (fun st => if bool_decide (st_typ st = t) then [(snd t, lab_schema (st_name st))] else []) topTypes.
Definition lab_closed (st : schemaType) : bool :=
  let defs := lab_defs (st_typ st) in
  existsb (str_eqb (go_name st)) (map fst defs) &&
  forallb (fun d => negb (is_text (snd d)) && ref_texts (snd d) &&
    forallb (fun r => existsb (fun x => negb (empty_str x) && str_eqb r (defs_prefix ++ x)%string) (map fst defs)) (refs (snd d))) defs.
Lemma lab_closed_sound st : lab_closed st = true -> closed st (lab_defs (st_typ st)).
Proof.
  unfold lab_closed. rewrite andb_true_iff, forallb_forall. intros [(x & Hx & <-%str_eqb_eq)%existsb_exists Hd]. constructor.
  - by apply list_elem_of_In.
  - intros n d Hin%list_elem_of_In%Hd. cbn in Hin. apply andb_true_iff in Hin as [[Hn%negb_true_iff Ht]%andb_true_iff _]. by split.
  - intros n d r Hin%list_elem_of_In%Hd Hr. cbn in Hin. apply andb_true_iff in Hin as [_ Hf].
    rewrite forallb_forall in Hf. apply list_elem_of_In, Hf, existsb_exists in Hr as (y & Hy & [He ->%str_eqb_eq]%andb_true_iff).
    exists y. split; [by intros ->|]. split; [done|by apply list_elem_of_In].
Qed.
Lemma lab_all_closed : forallb lab_closed topTypes = true.
Proof. vm_compute. reflexivity. Qed.
Lemma no_dangling_refs_witness : exists doc, generate lab_defs lab_number = Done doc /\ length (refs (JObj doc)) = 189%nat /\
  forall r, r ∈ refs (JObj doc) -> resolves doc r.
Proof.
  assert (exists doc, generate lab_defs lab_number = Done doc /\ length (refs (JObj doc)) = 189%nat) as (doc & E & Hl)
    by (eexists; split; vm_compute; reflexivity).
  exists doc. split; [exact E|]. split; [exact Hl|]. apply (no_dangling_refs lab_defs lab_number doc); [|exact E].
  intros st Hst%list_elem_of_In. apply lab_closed_sound. pose proof lab_all_closed as H. rewrite forallb_forall in H. by apply H.
Defined.
(** A server with every feature on. *)
Import RestSpec.Serving.
Definition lab_full : Server.Server unit unit unit unit :=
  Server.New (fun _ => lab_core) Wiring.Wiring.lab_registry
    [Server.WithPortal; Server.WithConsole; Server.WithSandboxKey "/keys/test.p12" "1"; Server.WithAudit "/var/journal" None;
     Server.WithJobs lab_jobs; Server.WithServiceKey (mret tt);
     Server.WithOIDC (Server.mkOidcApi unit unit unit unit (mret tt) (mret tt) (fun _ _ => Wiring.Wiring.lab_refused)
       (fun _ _ _ => Wiring.Wiring.lab_refused) (fun _ => Wiring.Wiring.lab_refused) (fun _ => Wiring.Wiring.lab_refused)
       (fun _ _ _ => Wiring.Wiring.lab_refused) (fun _ => Wiring.Wiring.lab_refused));
     Server.WithQR (Server.mkQrApi unit (fun _ _ => Wiring.Wiring.lab_refused) (fun _ => Wiring.Wiring.lab_refused)
       (fun _ => Wiring.Wiring.lab_refused) (fun _ _ => mret None)) "https://sign.example";
     Server.WithChallenge (Server.mkChallengeApi unit (fun _ => Wiring.Wiring.lab_refused) (fun _ => mret (Challenge.Challenge.no_response, None)));
     Server.WithMultisign (Wiring.Wiring.ap_multisign Wiring.Wiring.lab_apis 0%Z);
     Server.WithSignedQR (Server.mkDocumentApi unit unit (fun _ => Wiring.Wiring.lab_refused)
       (fun _ => mret (SignedQr.SignedQr.mkResult false "" "" "" None None [])))].
Lemma spec_describes_routes_witness :
  described_paths lab_number ≡ₚ
    registered lab_full lab_parsers lab_form lab_basic lab_files lab_location lab_journal id ++ health_operations /\
  length (described_paths lab_number) = 49%nat.
Proof.
  destruct (spec_describes_routes lab_number lab_full lab_parsers lab_form lab_basic lab_files lab_location lab_journal id) as (_ & _ & Hall & _).
  split; [apply Hall; vm_compute; reflexivity|vm_compute; reflexivity].
Defined.
End OpenApi.
