(* ===== verification/Templates.v ===== *)
(** * The pages of the REST transport (internal/transport/rest: reportview.go,
    portal.go, oidcauth.go, console.go)

    The five html/template templates, as written: their own text, with the data
    they insert, each in the context the template engine gives it. In the texts a
    backquote stands for a quotation mark; the comments of the scripts, which the
    engine drops, are left out. Pages says what is sent for them. *)
From S2P Require Import Prelude Errors CoreTypes Oidc Journal RestServer.
Import Journal.Journal Oidc.Oidc RestServer.Server.
Open Scope string_scope.
Open Scope list_scope.

Module Templates.

(** ** Pieces of a page
    Data stands in an element's text, in the text of a title or a textarea, in a
    quoted attribute, as a value of a script or inside a string of one. *)
Inductive context := Html | Rcdata | Attr | JsValue | JsString.
Inductive piece := Own (s : string) | Data (c : context) (s : string).
Definition own (s : string) : list piece := [Own (string_map (fun c => if Ascii.eqb c "`" then ascii_of_nat 34 else c) s)].
Definition html (s : string) : list piece := [Data Html s].
Definition rcdata (s : string) : list piece := [Data Rcdata s].
Definition attr (s : string) : list piece := [Data Attr s].
Definition js_value (s : string) : list piece := [Data JsValue s].
Definition js_string (s : string) : list piece := [Data JsString s].

(** ** The functions of the report's template *)
(** [t.UTC().Format("2006-01-02 15:04:05 UTC")]. *)
Definition fmtAt (t : time) : string :=
  (let day := t / (24 * hour) in
   let rest := t mod (24 * hour) in
   let '(y, m, d) := civil day in
   dec_pad 4 y EmptyString ++ "-" ++ pad2 m ++ "-" ++ pad2 d ++ " " ++
   pad2 (rest / hour) ++ ":" ++ pad2 (rest / minute mod 60) ++ ":" ++ pad2 (rest / second mod 60) ++ " UTC")%Z%string.
Definition fmtTime (t : option time) : string := match t with None => "—" | Some t => fmtAt t end.
Definition yesno (b : bool) : string := if b then "yes" else "no".
Definition verdict_text (v : ReportVerdict) : string :=
  match v with VerdictValid => "valid" | VerdictInvalid => "invalid" | VerdictIndeterminate => "indeterminate" end.
Definition status_text (d : DiagnosisStatus) : string :=
  match d with DiagPass => "pass" | DiagFail => "fail" | DiagWarn => "warn" | DiagSkipped => "skipped" | DiagUnknown => "unknown" end.
Definition some_of {A} (l : list A) : bool := match l with [] => false | _ => true end.
Example epoch : fmtAt ((1970 * 365 + 477 - 365) * 86400 * second)%Z = "1970-01-01 00:00:00 UTC".
Proof. reflexivity. Qed.
Example leap_day : fmtAt (((1970 * 365 + 477 - 365) * 86400 + 1709210096) * second)%Z = "2024-02-29 12:34:56 UTC".
Proof. reflexivity. Qed.

(** ** reportview.go *)
Definition report_signer (g : ReportSigner) : list piece :=
  own "
<h2>Signer: " ++
  (if negb (empty_str (rs_name g)) then html (rs_name g) else own "(unnamed)") ++
  own "</h2>
<table>
" ++
  when (negb (empty_str (rs_iin g))) (own "<tr><th>IIN</th><td>" ++
  html (rs_iin g) ++
  own "</td></tr>") ++
  own "
" ++
  when (negb (empty_str (rs_bin g))) (own "<tr><th>BIN</th><td>" ++
  html (rs_bin g) ++
  own "</td></tr>") ++
  own "
" ++
  when (negb (empty_str (rs_organization g))) (own "<tr><th>Organization</th><td>" ++
  html (rs_organization g) ++
  own "</td></tr>") ++
  own "
" ++
  when (some_of (rs_roles g)) (own "<tr><th>Roles</th><td>" ++
  html (concat_with ", " (rs_roles g)) ++
  own "</td></tr>") ++
  own "
<tr><th>Signed at</th><td>" ++
  html (fmtTime (rs_signed_at g)) ++
  when (negb (empty_str (rs_signed_at_source g))) (own " <small>(" ++
  html (rs_signed_at_source g) ++
  own ")</small>") ++
  own "</td></tr>
<tr><th>Algorithm</th><td>" ++
  (if negb (empty_str (rs_sig_alg g)) then html (rs_sig_alg g) else own "—") ++
  when (negb (empty_str (rs_cades g))) (own " · CAdES-" ++
  html (rs_cades g)) ++
  own "
" ++
  when (negb (empty_str (ai_generation (rs_algorithm g)))) (own "<br><span class=`" ++
  (if str_eqb (ai_generation (rs_algorithm g)) "current" then own "pass" else own "warn") ++
  own "`>" ++
  html (ai_generation (rs_algorithm g)) ++
  own "</span>") ++
  own "
" ++
  when (negb (empty_str (ai_advice (rs_algorithm g)))) (own "<br><small>" ++
  html (ai_advice (rs_algorithm g)) ++
  own "</small>") ++
  own "</td></tr>
<tr><th>Certificate</th><td>serial <code>" ++
  (if negb (empty_str (rc_serial (rs_certificate g))) then html (rc_serial (rs_certificate g)) else own "—") ++
  own "</code><br>
issuer " ++
  (if negb (empty_str (rc_issuer (rs_certificate g))) then html (rc_issuer (rs_certificate g)) else own "—") ++
  own "<br>
valid " ++
  html (fmtTime (rc_not_before (rs_certificate g))) ++
  own " — " ++
  html (fmtTime (rc_not_after (rs_certificate g))) ++
  when (rc_expired (rs_certificate g)) (own " <strong class=`fail`>(expired)</strong>") ++
  own "</td></tr>
<tr><th>Chain</th><td>complete: " ++
  html (yesno (rch_complete (rs_chain g))) ++
  own " · anchored in trust: " ++
  html (yesno (rch_anchored (rs_chain g))) ++
  own " · signatures verified: " ++
  html (yesno (rch_verified (rs_chain g))) ++
  own "</td></tr>
</table>
".
Definition report_page (r : VerificationReport) : list piece :=
  own "<!doctype html>
<html lang=`en`><head><meta charset=`utf-8`>
<meta name=`viewport` content=`width=device-width, initial-scale=1`>
<title>Signature verification — " ++
  rcdata (verdict_text (rep_verdict r)) ++
  own "</title>
<style>
:root { color-scheme: light dark; --ok:#137333; --bad:#c5221f; --warn:#b06000; --line:#d0d7de; }
body { font: 15px/1.5 system-ui, -apple-system, `Segoe UI`, Roboto, sans-serif; margin: 0; padding: 2rem 1rem; }
main { max-width: 46rem; margin: 0 auto; }
.verdict { display:inline-block; padding:.25rem .6rem; border-radius:.4rem; color:#fff; font-weight:600; text-transform:uppercase; letter-spacing:.03em; font-size:.8rem; }
.valid { background: var(--ok); } .invalid { background: var(--bad); } .indeterminate { background: var(--warn); }
h1 { font-size:1.3rem; margin:.6rem 0 .2rem; } .summary { margin:.2rem 0 1.4rem; }
table { border-collapse: collapse; width:100%; margin:.4rem 0 1.4rem; }
th, td { text-align:left; padding:.4rem .6rem; border-bottom:1px solid var(--line); vertical-align:top; }
th { width:12rem; font-weight:600; }
.step { display:flex; gap:.6rem; padding:.35rem 0; border-bottom:1px solid var(--line); }
.badge { flex:0 0 5.5rem; font-size:.78rem; text-transform:uppercase; letter-spacing:.03em; }
.pass { color: var(--ok); } .fail { color: var(--bad); } .warn, .unknown { color: var(--warn); } .skipped { opacity:.6; }
code { font-family: ui-monospace, SFMono-Regular, Menlo, monospace; font-size:.85em; word-break:break-all; }
h2 { font-size:1rem; margin:1.6rem 0 .3rem; }
</style></head><body><main>
<span class=`verdict " ++
  attr (verdict_text (rep_verdict r)) ++
  own "`>" ++
  html (verdict_text (rep_verdict r)) ++
  own "</span>
<h1>Signature verification</h1>
<p class=`summary`>" ++
  html (rep_summary r) ++
  own "</p>

<h2>Document</h2>
<table>
<tr><th>Format</th><td>" ++
  (if negb (empty_str (format_name (rd_format (rep_document r)))) then html (format_name (rd_format (rep_document r))) else own "—") ++
  when (rd_detached (rep_document r)) (own " (detached)") ++
  own "</td></tr>
<tr><th>Signature SHA-256</th><td><code>" ++
  (if negb (empty_str (rd_sig_sha (rep_document r))) then html (rd_sig_sha (rep_document r)) else own "—") ++
  own "</code></td></tr>
" ++
  when (negb (empty_str (rd_content_sha (rep_document r)))) (own "<tr><th>Content SHA-256</th><td><code>" ++
  html (rd_content_sha (rep_document r)) ++
  own "</code></td></tr>") ++
  own "
<tr><th>Checked at</th><td>" ++
  html (fmtAt (rep_checked_at r)) ++
  own "</td></tr>
</table>

" ++
  flat_map report_signer (rep_signers r) ++
  own "

<h2>Checks</h2>
" ++
  flat_map (fun d => own "<div class=`step`><span class=`badge " ++
  attr (status_text (d_status d)) ++
  own "`>" ++
  html (status_text (d_status d)) ++
  own "</span><span>" ++
  html (d_summary d) ++
  when (negb (empty_str (d_action d))) (own "<br><small>" ++
  html (d_action d) ++
  own "</small>") ++
  own "</span></div>") (rep_steps r) ++
  own "

" ++
  when (some_of (rep_warnings r)) (own "<h2>Warnings</h2><ul>" ++
  flat_map (fun w => own "<li>" ++
  html w ++
  own "</li>") (rep_warnings r) ++
  own "</ul>") ++
  own "
</main></body></html>
".
(** ** portal.go *)
Definition portal_page (error : string) : list piece :=
  own "<!doctype html>
<html lang=`ru`><head><meta charset=`utf-8`>
<meta name=`viewport` content=`width=device-width, initial-scale=1`>
<title>Проверка электронной подписи</title>
<style>
:root{color-scheme:light dark;--line:#d0d7de;--accent:#1a56db;--bad:#c5221f}
body{font:15px/1.5 system-ui,-apple-system,`Segoe UI`,Roboto,sans-serif;margin:0;padding:3rem 1rem}
main{max-width:30rem;margin:0 auto}
h1{font-size:1.3rem;margin:0 0 .3rem}
p.sub{margin:.2rem 0 1.6rem;opacity:.75}
label{display:block;margin:1rem 0 .3rem;font-weight:600}
input[type=file]{width:100%}
button{font:inherit;margin-top:1.6rem;padding:.6rem 1rem;border:0;border-radius:.4rem;background:var(--accent);color:#fff;cursor:pointer;width:100%}
.err{color:var(--bad);margin-top:1rem}
small{opacity:.7}
</style></head><body><main>
<h1>Проверка электронной подписи</h1>
<p class=`sub`>Загрузите подпись — сервис покажет, кто и когда подписал документ. Ключ ЭЦП для проверки не нужен.</p>
" ++
  when (negb (empty_str error)) (own "<p class=`err`>" ++
  html error ++
  own "</p>") ++
  own "
<form method=`post` action=`/verify/portal` enctype=`multipart/form-data`>
  <label for=`signature`>Файл подписи</label>
  <input id=`signature` type=`file` name=`signature` required>
  <small>CMS/PKCS#7 (.p7s, .cms) или подписанный XML.</small>

  <label for=`document`>Исходный документ</label>
  <input id=`document` type=`file` name=`document`>
  <small>Нужен только для отсоединённой подписи — когда подпись лежит отдельным файлом.</small>

  <button type=`submit`>Проверить</button>
</form>
</main></body></html>
".
(** ** oidcauth.go *)
Definition authorize_error_page (code detail : string) : list piece :=
  own "<!doctype html>
<html lang=`en`><head><meta charset=`utf-8`><title>Sign-in error</title>
<style>body{font:15px/1.5 system-ui,sans-serif;margin:0;padding:3rem 1rem;text-align:center}
h1{font-size:1.2rem}code{font-family:ui-monospace,Menlo,monospace}</style></head>
<body><h1>Sign-in cannot continue</h1><p><code>" ++
  html code ++
  own "</code></p><p>" ++
  html detail ++
  own "</p></body></html>
".
Definition login_page (p : loginPage) : list piece :=
  own "<!doctype html>
<html lang=`ru`><head><meta charset=`utf-8`>
<meta name=`viewport` content=`width=device-width, initial-scale=1`>
<title>Вход по ЭЦП</title>
<style>
:root{color-scheme:light dark;--line:#d0d7de;--accent:#1a56db;--bad:#c5221f}
body{font:15px/1.5 system-ui,-apple-system,`Segoe UI`,Roboto,sans-serif;margin:0;padding:3rem 1rem}
main{max-width:26rem;margin:0 auto}
h1{font-size:1.25rem;margin:0 0 .3rem}
p.sub{margin:.2rem 0 1.6rem;opacity:.75}
button{font:inherit;padding:.6rem 1rem;border:0;border-radius:.4rem;background:var(--accent);color:#fff;cursor:pointer;width:100%}
button[disabled]{opacity:.6;cursor:progress}
button.secondary{background:transparent;color:var(--accent);border:1px solid var(--accent);margin-top:.6rem}
#qrbox{margin-top:1rem;text-align:center}
#qrimg{image-rendering:pixelated;border:1px solid var(--line);border-radius:.4rem}
details{margin-top:1.4rem;border-top:1px solid var(--line);padding-top:1rem}
textarea{width:100%;min-height:7rem;font-family:ui-monospace,Menlo,monospace;font-size:.8rem}
.status{margin-top:1rem;min-height:1.4rem}
.err{color:var(--bad)}
small{opacity:.7}
</style></head><body><main>
<h1>Вход по ЭЦП</h1>
<p class=`sub`>Приложение <strong>" ++
  html (lp_client p) ++
  own "</strong> запрашивает подтверждение личности.</p>

<form id=`f` method=`post` action=`/oidc/authorize`>
  <input type=`hidden` name=`client_id` value=`" ++
  attr (lp_client p) ++
  own "`>
  <input type=`hidden` name=`redirect_uri` value=`" ++
  attr (aq_redirect (lp_request p)) ++
  own "`>
  <input type=`hidden` name=`response_type` value=`code`>
  <input type=`hidden` name=`state` value=`" ++
  attr (aq_state (lp_request p)) ++
  own "`>
  <input type=`hidden` name=`nonce` value=`" ++
  attr (aq_nonce (lp_request p)) ++
  own "`>
  <input type=`hidden` name=`scope` value=`" ++
  attr (lp_scope p) ++
  own "`>
  <input type=`hidden` name=`code_challenge` value=`" ++
  attr (aq_challenge (lp_request p)) ++
  own "`>
  <input type=`hidden` name=`code_challenge_method` value=`" ++
  attr (aq_method (lp_request p)) ++
  own "`>
  <input type=`hidden` name=`challengeId` value=`" ++
  attr (lp_challenge_id p) ++
  own "`>
  <input type=`hidden` id=`signature` name=`signature` value=``>
  <button type=`button` id=`go`>Подписать через NCALayer</button>
" ++
  when (lp_qr p) (own "  <button type=`button` id=`qr` class=`secondary`>Подписать через eGov Mobile</button>
  <div id=`qrbox` hidden>
    <img id=`qrimg` alt=`QR для eGov Mobile` width=`220` height=`220`>
    <p><small>Отсканируйте QR в приложении eGov Mobile и подпишите запрос.</small></p>
  </div>
") ++
  own "  <div class=`status` id=`status`></div>
  <details>
    <summary>Подписать другим способом</summary>
    <p><small>Подпишите эту строку (base64) как отсоединённый CMS и вставьте результат:</small></p>
    <textarea readonly id=`data`>" ++
  rcdata (lp_data p) ++
  own "</textarea>
    <textarea id=`manual` placeholder=`CMS в base64 или PEM`></textarea>
    <button type=`button` id=`send`>Отправить подпись</button>
  </details>
</form>

<script>
(function () {
  var DATA = " ++
  js_value (lp_data p) ++
  own ";
  var status = document.getElementById('status');
  var form = document.getElementById('f');
  var sigField = document.getElementById('signature');

  function fail(msg) { status.className = 'status err'; status.textContent = msg; }
  function say(msg) { status.className = 'status'; status.textContent = msg; }

  function submit(signature) {
    if (!signature) { fail('Пустая подпись.'); return; }
    sigField.value = signature;
    form.submit();
  }

  document.getElementById('send').addEventListener('click', function () {
    submit(document.getElementById('manual').value.trim());
  });

" ++
  when (lp_qr p) (own "  var qrBtn = document.getElementById('qr');
  if (qrBtn) {
    
    
    qrBtn.addEventListener('click', function () {
      qrBtn.disabled = true;
      say('Создаём сессию eGov Mobile…');
      fetch('/qr/sessions', {
        method: 'POST',
        headers: { 'Content-Type': 'application/json' },
        body: JSON.stringify({ mode: 'sign', format: 'cms', detached: true, data: DATA,
                               description: 'Вход в " ++
  js_string (lp_client p) ++
  own "' })
      }).then(function (r) {
        if (!r.ok) { throw new Error('HTTP ' + r.status); }
        return r.json();
      }).then(function (s) {
        var box = document.getElementById('qrbox');
        document.getElementById('qrimg').src = 'data:image/png;base64,' + s.qr;
        box.hidden = false;
        say('Ожидаем подпись в eGov Mobile…');
        poll(s.sessionId, Date.now() + (s.expiresIn || 300) * 1000);
      }).catch(function (e) {
        qrBtn.disabled = false;
        fail('Не удалось создать QR-сессию: ' + e.message);
      });
    });
  }

  function poll(id, deadline) {
    if (Date.now() > deadline) { qrBtn.disabled = false; fail('Время сессии истекло.'); return; }
    fetch('/qr/sessions/' + encodeURIComponent(id)).then(function (r) { return r.json(); })
      .then(function (v) {
        if (v.status === 'verified' && v.result && v.result.signature) { submit(v.result.signature); return; }
        if (v.status === 'failed' || v.status === 'expired') {
          qrBtn.disabled = false;
          fail(v.error && v.error.message ? v.error.message : 'Подписание не завершено.');
          return;
        }
        setTimeout(function () { poll(id, deadline); }, 1500);
      }).catch(function () { setTimeout(function () { poll(id, deadline); }, 3000); });
  }
") ++
  own "

  
  
  document.getElementById('go').addEventListener('click', function () {
    var btn = this;
    btn.disabled = true;
    say('Открываем NCALayer…');
    var ws;
    try { ws = new WebSocket('wss://127.0.0.1:13579/'); }
    catch (e) { btn.disabled = false; fail('NCALayer недоступен. Используйте ручной способ ниже.'); return; }

    var timer = setTimeout(function () {
      try { ws.close(); } catch (e) {}
      btn.disabled = false;
      fail('NCALayer не отвечает. Запустите его или используйте ручной способ ниже.');
    }, 10000);

    ws.onopen = function () {
      say('Выберите ключ в окне NCALayer…');
      ws.send(JSON.stringify({
        module: 'kz.gov.pki.knca.commonUtils',
        method: 'createCMSSignatureFromBase64',
        args: ['PKCS12', 'AUTHENTICATION', DATA, true]
      }));
    };
    ws.onmessage = function (ev) {
      clearTimeout(timer);
      var res;
      try { res = JSON.parse(ev.data); } catch (e) { btn.disabled = false; fail('Некорректный ответ NCALayer.'); return; }
      try { ws.close(); } catch (e) {}
      if (res && res.code === '200' && res.responseObject) { submit(res.responseObject); return; }
      btn.disabled = false;
      fail((res && (res.message || res.code)) ? 'NCALayer: ' + (res.message || res.code) : 'Подписание отменено.');
    };
    ws.onerror = function () {
      clearTimeout(timer);
      btn.disabled = false;
      fail('Не удалось соединиться с NCALayer. Используйте ручной способ ниже.');
    };
  });
})();
</script>
</main></body></html>
".
(** ** console.go *)
Definition console_page (sandbox portal : bool) : list piece :=
  own "<!doctype html>
<html lang=`en`><head><meta charset=`utf-8`>
<meta name=`viewport` content=`width=device-width, initial-scale=1`>
<title>qoltanba console</title>
<style>
:root{color-scheme:light dark;--line:#d0d7de;--accent:#1a56db;--bad:#c5221f;--ok:#137333}
body{font:14px/1.5 system-ui,-apple-system,`Segoe UI`,Roboto,sans-serif;margin:0;padding:2rem 1rem}
main{max-width:60rem;margin:0 auto}
h1{font-size:1.3rem;margin:0 0 .2rem}
p.sub{margin:.2rem 0 1.5rem;opacity:.75}
.row{display:flex;gap:1rem;flex-wrap:wrap}
.col{flex:1 1 24rem;min-width:20rem}
label{display:block;font-weight:600;margin:.8rem 0 .3rem}
select,textarea,input{width:100%;font:inherit}
textarea{min-height:16rem;font-family:ui-monospace,SFMono-Regular,Menlo,monospace;font-size:.82rem}
pre{background:rgba(127,127,127,.09);padding:.8rem;border-radius:.4rem;overflow:auto;max-height:28rem;font-size:.82rem}
button{font:inherit;margin-top:.9rem;padding:.55rem 1rem;border:0;border-radius:.4rem;background:var(--accent);color:#fff;cursor:pointer}
button.secondary{background:transparent;color:var(--accent);border:1px solid var(--accent)}
.status{margin-top:.6rem;font-weight:600}
.ok{color:var(--ok)}.err{color:var(--bad)}
small{opacity:.7}
</style></head><body><main>
<h1>qoltanba console</h1>
<p class=`sub`>Пробные запросы к этому же REST API. Ничего привилегированного — то же, что увидит ваш клиент.
" ++
  when portal (own " Для проверки файлом есть <a href=`/verify/portal`>портал</a>.") ++
  own "</p>

<div class=`row`>
  <div class=`col`>
    <label for=`op`>Операция</label>
    <select id=`op`>
      <option value=`/verify`>POST /verify</option>
      <option value=`/sign`>POST /sign</option>
      <option value=`/extract`>POST /extract</option>
      <option value=`/cert/info`>POST /cert/info</option>
      <option value=`/cert/validate`>POST /cert/validate</option>
      <option value=`/verify/at`>POST /verify/at</option>
      <option value=`/verify/registry`>POST /verify/registry</option>
      <option value=`/challenge`>POST /challenge</option>
      <option value=`/statusz` data-get=`1`>GET /statusz</option>
      <option value=`/readyz` data-get=`1`>GET /readyz</option>
    </select>

    <label for=`body`>Тело запроса (JSON)</label>
    <textarea id=`body` spellcheck=`false`></textarea>
    <small>Двоичные поля — base64. Времена — RFC 3339.</small>

    <div>
      <button id=`send`>Отправить</button>
      <button id=`sample` class=`secondary` type=`button`>Пример</button>
" ++
  when sandbox (own "      <button id=`demo` class=`secondary` type=`button`>Подписать тестовым ключом</button>") ++
  own "
    </div>
    <div class=`status` id=`status`></div>
  </div>

  <div class=`col`>
    <label>Ответ</label>
    <pre id=`out`>—</pre>
  </div>
</div>

<script>
(function () {
  var SAMPLES = {
    '/verify': { format: 'cms', signature: '<base64 CMS>', detached: false, claims: true, report: true, explain: true },
    '/sign': { policy: 'cades-t', data: btoa('hello'), key: { path: '/path/to/key.p12', password: '***' } },
    '/extract': { format: 'cms', signature: '<base64 CMS>' },
    '/cert/info': { cert: '<base64 cert>', format: 'pem', claims: true, buildChain: true },
    '/cert/validate': { cert: '<base64 cert>', format: 'pem', method: 'ocsp', wantOcsp: true },
    '/verify/at': { format: 'cms', signature: '<base64 CMS>', at: new Date().toISOString() },
    '/verify/registry': { items: [{ ref: 'doc-1', format: 'cms', signature: '<base64 CMS>' }] },
    '/challenge': { purpose: 'payment.confirm', meta: { orderId: '42' } }
  };

  var op = document.getElementById('op');
  var body = document.getElementById('body');
  var out = document.getElementById('out');
  var status = document.getElementById('status');

  function isGet() { return op.options[op.selectedIndex].dataset.get === '1'; }
  function fillSample() {
    var s = SAMPLES[op.value];
    body.value = s ? JSON.stringify(s, null, 2) : '';
    body.disabled = isGet();
  }
  op.addEventListener('change', fillSample);
  document.getElementById('sample').addEventListener('click', fillSample);
  fillSample();

  function show(ok, text, label) {
    out.textContent = text;
    status.className = 'status ' + (ok ? 'ok' : 'err');
    status.textContent = label;
  }

  document.getElementById('send').addEventListener('click', function () {
    var started = performance.now();
    var init = isGet() ? { method: 'GET' }
      : { method: 'POST', headers: { 'Content-Type': 'application/json' }, body: body.value };
    fetch(op.value, init).then(function (r) {
      return r.text().then(function (t) {
        var pretty = t;
        try { pretty = JSON.stringify(JSON.parse(t), null, 2); } catch (e) {}
        var ms = Math.round(performance.now() - started);
        show(r.ok, pretty, r.status + ' ' + r.statusText + ' · ' + ms + ' ms');
      });
    }).catch(function (e) { show(false, String(e), 'запрос не отправлен'); });
  });

" ++
  when sandbox (own "  
  document.getElementById('demo').addEventListener('click', function () {
    show(true, '…', 'подписываем тестовым ключом');
    fetch('/sandbox/sign', {
      method: 'POST', headers: { 'Content-Type': 'application/json' },
      body: JSON.stringify({ data: btoa('hello from the console') })
    }).then(function (r) { return r.text(); }).then(function (t) {
      var parsed; try { parsed = JSON.parse(t); } catch (e) {}
      out.textContent = parsed ? JSON.stringify(parsed, null, 2) : t;
      if (parsed && parsed.signature) {
        op.value = '/verify';
        body.disabled = false;
        body.value = JSON.stringify({ format: 'cms', signature: parsed.signature,
                                      inputPem: true, claims: true, report: true }, null, 2);
        show(true, out.textContent, 'подписано — нажмите «Отправить», чтобы проверить');
      } else {
        show(false, out.textContent, 'не удалось подписать');
      }
    }).catch(function (e) { show(false, String(e), 'запрос не отправлен'); });
  });
") ++
  own "})();
</script>
</main></body></html>
".

(** The page that a handler answers with. *)
Definition page_of (p : page) : list piece :=
  match p with
  | LoginPage p => login_page p
  | AuthorizeErrorPage code detail => authorize_error_page code detail
  | ReportPage r => report_page r
  | PortalPage error => portal_page (default EmptyString error)
  | ConsolePage sandbox portal => console_page sandbox portal
  end.
End Templates.
