(* ===== verification/Pages.v ===== *)
(** * What a browser reads of a page (internal/transport/rest, html/template)

    The data of a page comes from outside: names in certificates, messages of
    errors, parameters of a login. The template engine escapes each piece for the
    place it stands in. Here the escapers, the text that is sent, and a reader of
    it: markup, attribute values, texts, the code of scripts and its strings. A
    page reads as its template says, whatever the data: no data becomes markup
    or code, and what is shown is the data. *)
From S2P Require Import Prelude Errors CoreTypes Oidc RestServer Asn1 Text SpecDoc Templates.
Import Templates.Templates.
Open Scope string_scope.
Open Scope list_scope.

Module Pages.

(** ** The escapers of html/template *)
(** U+FFFD stands for a zero byte. *)
Definition html_char (c : ascii) : string :=
  match nat_of_ascii c with
  | 0 => replacement
  | 34 => "&#34;"
  | 38 => "&amp;"
  | 39 => "&#39;"
  | 43 => "&#43;"
  | 60 => "&lt;"
  | 62 => "&gt;"
  | _ => String c EmptyString
  end%nat.
Fixpoint html_escape (s : string) : string :=
  match s with EmptyString => EmptyString | String c t => (html_char c ++ html_escape t)%string end.
(** In an attribute the code points that some browsers mistake are written by
    number: U+FDD0 to U+FDEF and U+FFF0 to U+FFFF, what is no UTF-8 among them. *)
Definition code3 (a b c : ascii) : Z :=
  ((Z.of_nat (nat_of_ascii a) - 224) * 4096 + (Z.of_nat (nat_of_ascii b) - 128) * 64 + (Z.of_nat (nat_of_ascii c) - 128))%Z.
Definition mistaken (a b c : ascii) : bool :=
  (Ascii.eqb a "239" && ((Ascii.eqb b "183" && byte_in 144 175 c) || (Ascii.eqb b "191" && byte_in 176 191 c)))%bool.
Definition by_number (n : Z) : string := ("&#x" ++ to_lower (hex_pad 4 n EmptyString) ++ ";")%string.
Fixpoint attr_loop (s : string) : string :=
  match s with
  | String a ((String b (String c t)) as u) =>
      if mistaken a b c then (by_number (code3 a b c) ++ attr_loop t)%string else (html_char a ++ attr_loop u)%string
  | String a t => (html_char a ++ attr_loop t)%string
  | EmptyString => EmptyString
  end.
Definition attr_escape (s : string) : string := attr_loop (utf8_clean s).
(** A string of a script. *)
Definition js_char (c : ascii) : string :=
  let n := nat_of_ascii c in
  let back c := String (ascii_of_nat 92) (String c EmptyString) in
  (if (n =? 9) then back "t"%char else if (n =? 10) then back "n"%char else if (n =? 12) then back "f"%char
   else if (n =? 13) then back "r"%char else if (n =? 47) || (n =? 92) then back c
   else if (n <? 32) || (n =? 34) || (n =? 38) || (n =? 39) || (n =? 43) || (n =? 60) || (n =? 62) || (n =? 96)
   then SpecDoc.SpecDoc.u_escape n else String c EmptyString)%nat.
Definition js_escape : string -> string := SpecDoc.SpecDoc.escape_with js_char.
(** Data in its context; a value of a script is its JSON. *)
Definition escape_in (c : context) (s : string) : string :=
  match c with
  | Html | Rcdata => html_escape s
  | Attr => attr_escape s
  | JsValue => SpecDoc.SpecDoc.quoted (utf8_clean s)
  | JsString => js_escape s
  end.
(** What is sent for a page. *)
Definition render_piece (p : piece) : string := match p with Own s => s | Data c s => escape_in c s end.
Fixpoint render (l : list piece) : string :=
  match l with [] => EmptyString | p :: t => (render_piece p ++ render t)%string end.

(** ** The reader
    What a browser distinguishes: markup, the values of attributes, texts, the
    code of a script and its strings. *)
Inductive event := EText (s : string) | EMarkup (s : string) | EValue (s : string) | ECode (s : string) | EString (s : string).
Inductive script := Code | Str (q : ascii) (escaped : bool).
(** In a tag: what is left of the word [script], if that is its name so far. In a
    script: the part of it, and whether the last character was [<]. *)
Inductive mode := Txt | Tag (name : option string) | Quo | Script (j : script) (lt : bool).
(** What a character does: it is kept, or what was read is an event and something
    else begins - with the character still kept, or the last one dropped. *)
Inductive action := Keep | Begin (cur : string) | KeepBegin | DropBegin (cur : string).
Definition named (name : option string) (c : ascii) : option string :=
  match name with Some (String d t) => if Ascii.eqb c d then Some t else None | _ => None end.
Definition next (m : mode) (c : ascii) : mode * action :=
  match m with
  | Txt => if Ascii.eqb c "<" then (Tag (Some "script"), Begin "<") else (Txt, Keep)
  | Tag name =>
      if Ascii.eqb c "034" then (Quo, Begin EmptyString)
      else if Ascii.eqb c ">" then (match name with Some EmptyString => Script Code false | _ => Txt end, KeepBegin)
      else (Tag (named name c), Keep)
  | Quo => if Ascii.eqb c "034" then (Tag None, Begin EmptyString) else (Quo, Keep)
  | Script j lt =>
      if lt && Ascii.eqb c "/" then (Tag None, DropBegin "/<")
      else
        let lt := Ascii.eqb c "<" in
        match j with
        | Code => if Ascii.eqb c "034" || Ascii.eqb c "'" then (Script (Str c false) false, Begin EmptyString) else (Script Code lt, Keep)
        | Str q true => (Script (Str q false) lt, Keep)
        | Str q false =>
            if Ascii.eqb c "\" then (Script (Str q true) lt, Keep)
            else if Ascii.eqb c q then (Script Code false, Begin EmptyString)
            else (Script (Str q false) lt, Keep)
        end
  end.

(** The characters that references stand for. *)
Definition hex_val (c : ascii) : Z :=
  let n := Z.of_nat (nat_of_ascii c) in (if n <? 58 then n - 48 else n - 87)%Z.
Definition hex_value (a b c d : ascii) : Z := (((hex_val a * 16 + hex_val b) * 16 + hex_val c) * 16 + hex_val d)%Z.
Definition utf8_of (n : Z) : string :=
  (let chr z := ascii_of_nat (Z.to_nat z) in
   if n <? 128 then String (chr n) EmptyString
   else if n <? 2048 then String (chr (192 + n / 64)) (String (chr (128 + n mod 64)) EmptyString)
   else String (chr (224 + n / 4096)) (String (chr (128 + n / 64 mod 64)) (String (chr (128 + n mod 64)) EmptyString)))%Z.
Fixpoint html_decode (s : string) : string :=
  match s with
  | String "&" (String "a" (String "m" (String "p" (String ";" t)))) => String "&" (html_decode t)
  | String "&" (String "l" (String "t" (String ";" t))) => String "<" (html_decode t)
  | String "&" (String "g" (String "t" (String ";" t))) => String ">" (html_decode t)
  | String "&" (String "#" (String "3" (String "4" (String ";" t)))) => String (ascii_of_nat 34) (html_decode t)
  | String "&" (String "#" (String "3" (String "9" (String ";" t)))) => String "'" (html_decode t)
  | String "&" (String "#" (String "4" (String "3" (String ";" t)))) => String "+" (html_decode t)
  | String "&" (String "#" (String "x" (String a (String b (String c (String d (String ";" t))))))) =>
      (utf8_of (hex_value a b c d) ++ html_decode t)%string
  | String c t => String c (html_decode t)
  | EmptyString => EmptyString
  end.
Fixpoint js_decode (s : string) : string :=
  match s with
  | String "\" (String "u" (String a (String b (String c (String d t))))) => (utf8_of (hex_value a b c d) ++ js_decode t)%string
  | String "\" (String c t) =>
      String (if Ascii.eqb c "t" then "009" else if Ascii.eqb c "n" then "010" else if Ascii.eqb c "f" then "012"
              else if Ascii.eqb c "r" then "013" else if Ascii.eqb c "b" then "008" else c)%char (js_decode t)
  | String c t => String c (js_decode t)
  | EmptyString => EmptyString
  end.

(** The state: the mode, what was read since it was entered, last character
    first, and the events so far. *)
Record state := mkState { st_mode : mode; st_cur : string; st_events : list event }.
Fixpoint back (s acc : string) : string := match s with EmptyString => acc | String c t => back t (String c acc) end.
Definition srev (s : string) : string := back s EmptyString.
Definition stail (s : string) : string := match s with EmptyString => EmptyString | String _ t => t end.

Section Reader.
  (** How texts and the strings of scripts are decoded. *)
  Variable text_of string_of : string -> string.
Definition decoder (m : mode) : string -> string :=
  match m with Txt | Quo => text_of | Script (Str _ _) _ => string_of | _ => fun s => s end.
Definition emitted (m : mode) (cur : string) : event :=
  let s := decoder m (srev cur) in
  match m with
  | Txt => EText s
  | Tag _ => EMarkup s
  | Quo => EValue s
  | Script Code _ => ECode s
  | Script (Str _ _) _ => EString s
  end.
Definition step (st : state) (c : ascii) : state :=
  let (m, a) := next (st_mode st) c in
  let event cur := st_events st ++ [emitted (st_mode st) cur] in
  match a with
  | Keep => mkState m (String c (st_cur st)) (st_events st)
  | Begin cur => mkState m cur (event (st_cur st))
  | KeepBegin => mkState m EmptyString (event (String c (st_cur st)))
  | DropBegin cur => mkState m cur (event (stail (st_cur st)))
  end.
Fixpoint run (s : string) (st : state) : state := match s with EmptyString => st | String c t => run t (step st c) end.
Definition start : state := mkState Txt EmptyString [].
Definition finish (st : state) : list event := st_events st ++ [emitted (st_mode st) (st_cur st)].
End Reader.
(** What a browser reads. *)
Definition read (s : string) : list event := finish html_decode js_decode (run html_decode js_decode s start).

(** ** What a template says
    Its own text read as it is, the data put where it stands. *)
Definition shown (c : context) (s : string) : string :=
  let seen := (fix seen (s : string) : string :=
    match s with EmptyString => EmptyString | String c t => ((if Ascii.eqb c "000" then replacement else String c EmptyString) ++ seen t)%string end) in
  match c with
  | Html | Rcdata => seen s
  | Attr => seen (utf8_clean s)
  | JsValue => utf8_clean s
  | JsString => s
  end.
Notation as_is := (fun s : string => s).
Definition say (st : state) (p : piece) : state :=
  match p with
  | Own s => run as_is as_is s st
  | Data JsValue s =>
      mkState (Script Code false) EmptyString (st_events st ++ [emitted as_is as_is (st_mode st) (st_cur st); EString (shown JsValue s)])
  | Data c s => mkState (st_mode st) (back (shown c s) (st_cur st)) (st_events st)
  end.
Definition says (l : list piece) : list event := finish as_is as_is (fold_left say l start).

(** ** Well-placed templates
    The template's own text leaves each piece of data where its context says, and
    has no reference of its own for a reader to decode. *)
Definition plain (m : mode) (c : ascii) : bool :=
  match m with
  | Txt | Quo => negb (Ascii.eqb c "&")
  | Script (Str _ _) lt => negb (Ascii.eqb c "\") && negb (lt && Ascii.eqb c "/")
  | _ => true
  end.
Fixpoint walk (s : string) (m : mode) : option mode :=
  match s with EmptyString => Some m | String c t => if plain m c then walk t (fst (next m c)) else None end.
Definition fits (c : context) (m : mode) : bool :=
  match c, m with
  | Html, Txt | Rcdata, Txt | Attr, Quo | JsValue, Script Code false => true
  | JsString, Script (Str q false) false => Ascii.eqb q "034" || Ascii.eqb q "'"
  | _, _ => false
  end.
Fixpoint place (l : list piece) (m : mode) : option mode :=
  match l with
  | [] => Some m
  | Own s :: t => match walk s m with Some m => place t m | None => None end
  | Data c s :: t => if fits c m then place t m else None
  end.

Lemma place_seq a b m m1 r : place a m = Some m1 -> place b m1 = r -> place (a ++ b) m = r.
Proof.
  revert m. induction a as [|[s|c s] a IH]; intros m; simpl; [by intros [= ->]| |].
  - destruct (walk s m); [apply IH|done].
  - destruct (fits c m); [apply IH|done].
Qed.
Lemma place_when b l m : place l m = Some m -> place (RestServer.Server.when b l) m = Some m.
Proof. by destruct b. Qed.
Lemma place_flat_map {A} (f : A -> list piece) l m : (forall x, place (f x) m = Some m) -> place (flat_map f l) m = Some m.
Proof. intros Hf. induction l as [|x l IH]; [done|]. simpl. eapply place_seq; [apply Hf|exact IH]. Qed.
Ltac placing :=
  lazymatch goal with
  | |- place (_ ++ _) _ = _ => eapply place_seq; [placing|placing]
  | |- place (RestServer.Server.when _ _) _ = _ => apply place_when; placing
  | |- place (flat_map _ _) _ = _ => apply place_flat_map; intros; placing
  | |- place (if ?b then _ else _) _ = _ => destruct b; placing
  | |- _ => vm_compute; reflexivity
  end.
Lemma report_signer_placed g : place (report_signer g) Txt = Some Txt.
Proof. unfold report_signer. placing. Qed.
Lemma report_placed r : place (report_page r) Txt = Some Txt.
Proof.
  unfold report_page. repeat lazymatch goal with
    | |- place (flat_map report_signer _ ++ _) _ = _ => eapply place_seq; [apply place_flat_map, report_signer_placed|]
    | |- place (_ ++ _) _ = _ => eapply place_seq; [placing|]
    end. placing.
Qed.
Lemma portal_placed e : place (portal_page e) Txt = Some Txt.
Proof. unfold portal_page. placing. Qed.
Lemma authorize_error_placed c d : place (authorize_error_page c d) Txt = Some Txt.
Proof. unfold authorize_error_page. placing. Qed.
Lemma login_placed p : place (login_page p) Txt = Some Txt.
Proof. unfold login_page. placing. Qed.
Lemma console_placed s p : place (console_page s p) Txt = Some Txt.
Proof. unfold console_page. placing. Qed.
Lemma pages_placed p : place (page_of p) Txt = Some Txt.
Proof.
  destruct p; [apply login_placed|apply authorize_error_placed|apply report_placed|apply portal_placed|apply console_placed].
Qed.

(** ** The escapers
    What a reader decodes of an escaped text, whatever follows it, and that the
    escaped text ends nothing. *)
Lemma back_app a b acc : back (a ++ b)%string acc = back b (back a acc).
Proof. revert acc. induction a; intros acc; simpl; auto. Qed.
Lemma srev_back s cur : srev (back s cur) = (srev cur ++ s)%string.
Proof.
  assert (forall a acc, srev (back a acc) = (srev acc ++ a)%string) as H; [|apply H].
  assert (forall a acc, back a acc = (srev a ++ acc)%string) as Hb.
  { unfold srev. induction a as [|c a IH]; intros acc; simpl; [done|]. rewrite (IH (String c acc)), (IH (String c EmptyString)), Asn1.app_assoc_s. done. }
  assert (forall x y, srev (x ++ y)%string = (srev y ++ srev x)%string) as Ha.
  { intros x y. unfold srev at 1. rewrite back_app. by rewrite (Hb y). }
  assert (forall x, srev (srev x) = x) as Hs.
  { induction x as [|c x IH]; [done|]. unfold srev at 2. simpl. rewrite (Hb x (String c EmptyString)), Ha, IH. done. }
  intros a acc. by rewrite Hb, Ha, Hs.
Qed.
Ltac bytes c := destruct c as [[] [] [] [] [] [] [] []].
Definition nul_seen (c : ascii) : string := if Ascii.eqb c "000" then replacement else String c EmptyString.
Fixpoint seen (s : string) : string := match s with EmptyString => EmptyString | String c t => (nul_seen c ++ seen t)%string end.
Lemma html_char_decodes c b : html_decode (html_char c ++ b) = (nul_seen c ++ html_decode b)%string.
Proof. bytes c; reflexivity. Qed.
Lemma html_decodes s b : html_decode (html_escape s ++ b) = (seen s ++ html_decode b)%string.
Proof. induction s as [|c s IH]; [done|]. cbn [html_escape seen]. by rewrite !Asn1.app_assoc_s, html_char_decodes, IH. Qed.
Lemma js_char_decodes c b : js_decode (js_char c ++ b) = String c (js_decode b).
Proof. bytes c; reflexivity. Qed.
Lemma json_char_decodes c b : js_decode (SpecDoc.SpecDoc.escape_char c ++ b) = String c (js_decode b).
Proof. bytes c; reflexivity. Qed.

Section Separators.
  Variable char : ascii -> string.
Notation escape := (SpecDoc.SpecDoc.escape_with char).
(** One step over a text: a character, or a separator of three bytes. *)
Lemma escape_step c t : escape (String c t) = (char c ++ escape t)%string \/
  exists n u, String c t = (utf8_of (Z.of_nat n) ++ u)%string /\ (n = 8232 \/ n = 8233)%nat /\
    escape (String c t) = (SpecDoc.SpecDoc.u_escape n ++ escape u)%string.
Proof.
  bytes c; try (left; reflexivity). destruct t as [|d t]; [left; reflexivity|].
  bytes d; try (left; reflexivity). destruct t as [|e t]; [left; reflexivity|].
  bytes e; try (left; reflexivity); right;
    first [exists 8232%nat, t; split; [reflexivity|]; split; [tauto|reflexivity] | exists 8233%nat, t; split; [reflexivity|]; split; [tauto|reflexivity]].
Qed.
Lemma separator_decodes n b : (n = 8232 \/ n = 8233)%nat -> js_decode (SpecDoc.SpecDoc.u_escape n ++ b) = (utf8_of (Z.of_nat n) ++ js_decode b)%string.
Proof. intros [-> | ->]; reflexivity. Qed.
(** By those steps. *)
Lemma escape_ind (P : string -> string -> Prop) :
  P EmptyString EmptyString -> (forall c t r, P t r -> P (String c t) (char c ++ r)%string) ->
  (forall n t r, (n = 8232 \/ n = 8233)%nat -> P t r -> P (utf8_of (Z.of_nat n) ++ t)%string (SpecDoc.SpecDoc.u_escape n ++ r)%string) ->
  forall s, P s (escape s).
Proof.
  intros H0 Hc Hs. assert (forall k s, (String.length s <= k)%nat -> P s (escape s)) as H; [|intros s; by apply (H (String.length s))].
  induction k as [|k IH]; intros [|c t] Hk; simpl in Hk; [exact H0|lia|exact H0|].
  destruct (escape_step c t) as [->|(n & u & Ht & Hn & ->)]; [apply Hc, IH; lia|].
  rewrite Ht. apply Hs, IH; [done|]. assert (String.length (String c t) = (3 + String.length u)%nat) as E by (rewrite Ht; by destruct Hn as [->| ->]).
  simpl in E. lia.
Qed.
Lemma escape_decodes s b : (forall c b, js_decode (char c ++ b) = String c (js_decode b)) -> js_decode (escape s ++ b) = (s ++ js_decode b)%string.
Proof.
  intros Hc. apply (escape_ind (fun s r => js_decode (r ++ b) = (s ++ js_decode b)%string)); [done| |].
  - intros c t r IH. by rewrite Asn1.app_assoc_s, Hc, IH.
  - intros n t r Hn IH. by rewrite Asn1.app_assoc_s, separator_decodes, IH, Asn1.app_assoc_s.
Qed.
End Separators.

(** *** Attributes *)
Lemma mistaken_decodes a b c t : mistaken a b c = true ->
  html_decode (by_number (code3 a b c) ++ t) = (seen (String a (String b (String c EmptyString))) ++ html_decode t)%string /\
  no_char "034" (by_number (code3 a b c)) = true.
Proof.
  unfold mistaken. intros [Ha%Ascii.eqb_eq Hbc]%andb_true_iff. subst a. apply orb_true_iff in Hbc as [[Hb%Ascii.eqb_eq Hc]%andb_true_iff|[Hb%Ascii.eqb_eq Hc]%andb_true_iff];
    subst b; revert Hc; bytes c; try discriminate; intros _; (split; reflexivity).
Qed.
Lemma attr_step a t : attr_loop (String a t) = (html_char a ++ attr_loop t)%string \/
  exists b c u, t = String b (String c u) /\ mistaken a b c = true /\ attr_loop (String a t) = (by_number (code3 a b c) ++ attr_loop u)%string.
Proof.
  destruct t as [|b [|c u]]; [by left..|]. cbn [attr_loop]. destruct (mistaken a b c) eqn:E; [right|by left]. by exists b, c, u.
Qed.
Lemma attr_ind (P : string -> string -> Prop) :
  P EmptyString EmptyString -> (forall c t r, P t r -> P (String c t) (html_char c ++ r)%string) ->
  (forall a b c t r, mistaken a b c = true -> P t r -> P (String a (String b (String c t))) (by_number (code3 a b c) ++ r)%string) ->
  forall s, P s (attr_loop s).
Proof.
  intros H0 Hc Hs. assert (forall k s, (String.length s <= k)%nat -> P s (attr_loop s)) as H; [|intros s; by apply (H (String.length s))].
  induction k as [|k IH]; intros [|a t] Hk; simpl in Hk; [exact H0|lia|exact H0|].
  destruct (attr_step a t) as [->|(b & c & u & -> & Hm & ->)]; [apply Hc, IH; lia|]. apply Hs; [done|]. apply IH. simpl in Hk. lia.
Qed.
Lemma attr_decodes s b : html_decode (attr_loop s ++ b) = (seen s ++ html_decode b)%string.
Proof.
  apply (attr_ind (fun s r => html_decode (r ++ b) = (seen s ++ html_decode b)%string)); [done| |].
  - intros c t r IH. cbn [seen]. by rewrite !Asn1.app_assoc_s, html_char_decodes, IH.
  - intros x y z t r Hm IH. destruct (mistaken_decodes x y z (r ++ b) Hm) as [Hd _]. rewrite Asn1.app_assoc_s, Hd, IH.
    cbn [seen]. by rewrite !Asn1.app_assoc_s.
Qed.
Lemma html_no_tag s : no_char "<" (html_escape s) = true.
Proof. induction s as [|c s IH]; [done|]. cbn [html_escape]. rewrite no_char_app, IH. by bytes c. Qed.
Lemma attr_no_quote s : no_char "034" (attr_loop s) = true.
Proof.
  apply (attr_ind (fun s r => no_char "034" r = true)); [done| |].
  - intros c t r IH. rewrite no_char_app, IH. by bytes c.
  - intros a b c t r Hm IH. rewrite no_char_app, IH. by destruct (mistaken_decodes a b c EmptyString Hm) as [_ ->].
Qed.

(** ** Reading what was escaped *)
Section Runs.
  Variable text_of string_of : string -> string.
Notation run := (run text_of string_of).
Notation emitted := (emitted text_of string_of).
Lemma run_app a b st : run (a ++ b) st = run b (run a st).
Proof. revert st. induction a; intros st; simpl; auto. Qed.
(** Characters that a mode keeps. *)
Lemma run_kept x s m cur evs : (forall c, Ascii.eqb c x = false -> next m c = (m, Keep)) -> no_char x s = true ->
  run s (mkState m cur evs) = mkState m (back s cur) evs.
Proof.
  intros Hm. revert cur. induction s as [|c s IH]; intros cur; [done|]. cbn [no_char]. intros [Hc%negb_true_iff Hs]%andb_true_iff.
  cbn [Pages.run back]. unfold step. cbn [st_mode st_cur st_events]. rewrite (Hm c Hc). by apply IH.
Qed.
(** An escaped character of a script's string stays in the string. *)
Definition in_string (q : ascii) (r : string) : Prop :=
  forall cur evs, run r (mkState (Script (Str q false) false) cur evs) = mkState (Script (Str q false) false) (back r cur) evs.
Lemma in_string_app q a b : in_string q a -> in_string q b -> in_string q (a ++ b).
Proof. intros Ha Hb cur evs. by rewrite run_app, Ha, Hb, back_app. Qed.
Lemma escape_in_string char q : (forall c, in_string q (char c)) -> (q = "034"%char \/ q = "'"%char) -> forall s, in_string q (SpecDoc.SpecDoc.escape_with char s).
Proof.
  intros Hc Hq. apply (escape_ind char (fun _ r => in_string q r)); [done| |].
  - intros c t r IH. by apply in_string_app.
  - intros n t r Hn IH. apply in_string_app; [|done]. by destruct Hq as [->| ->], Hn as [->| ->].
Qed.
Lemma js_in_string c q : q = "034"%char \/ q = "'"%char -> in_string q (js_char c).
Proof. intros [-> | ->] cur evs; bytes c; reflexivity. Qed.
Lemma json_in_string c : in_string "034" (SpecDoc.SpecDoc.escape_char c).
Proof. intros cur evs; bytes c; reflexivity. Qed.
End Runs.

(** ** A page reads as its template says
    Between the reader and the template: the same mode and events, and what is
    being read decodes to what is being said, whatever follows. *)
Notation decoding := (decoder html_decode js_decode).
Record agree (st st' : state) : Prop := {
  ag_mode : st_mode st = st_mode st';
  ag_events : st_events st = st_events st';
  ag_cur : forall b, decoding (st_mode st) (srev (st_cur st) ++ b)%string = (srev (st_cur st') ++ decoding (st_mode st) b)%string;
}.
Lemma decoder_as_is m s : decoder as_is as_is m s = s.
Proof. by destruct m as [| | |[]]. Qed.
Lemma decoding_empty m : decoding m EmptyString = EmptyString.
Proof. by destruct m as [| | |[]]. Qed.
Lemma agree_decoded st st' : agree st st' -> decoding (st_mode st) (srev (st_cur st)) = srev (st_cur st').
Proof. intros Ha. rewrite <- (Asn1.app_nil_s (srev (st_cur st))), (ag_cur _ _ Ha), decoding_empty. apply Asn1.app_nil_s. Qed.
Lemma agree_emitted st st' : agree st st' ->
  emitted html_decode js_decode (st_mode st) (st_cur st) = emitted as_is as_is (st_mode st') (st_cur st').
Proof.
  intros Ha. unfold emitted. rewrite (agree_decoded _ _ Ha), <- (ag_mode _ _ Ha), decoder_as_is. done.
Qed.
Lemma agree_start m cur evs : (forall b, decoding m (srev cur ++ b) = (srev cur ++ decoding m b)%string) ->
  agree (mkState m cur evs) (mkState m cur evs).
Proof. by split. Qed.
Lemma html_plain c b : Ascii.eqb c "&" = false -> html_decode (String c b) = String c (html_decode b).
Proof. bytes c; done. Qed.
Lemma js_plain c b : Ascii.eqb c "\" = false -> js_decode (String c b) = String c (js_decode b).
Proof. bytes c; done. Qed.
(** What a mode keeps decodes to itself, if it is plain. *)
Lemma kept_plain m c m' b : next m c = (m', Keep) -> plain m c = true ->
  decoding m (String c b) = String c (decoding m b) /\ forall s, decoding m' s = decoding m s.
Proof.
  destruct m as [|n| |[|q e] lt]; cbn [next plain decoder]; intros Hn Hp.
  - rewrite html_plain by (by apply negb_true_iff). split; [done|]. destruct (Ascii.eqb c "<"); by injection Hn as <-.
  - split; [done|]. destruct (Ascii.eqb c "034"), (Ascii.eqb c ">"); simplify_eq; by intros.
  - rewrite html_plain by (by apply negb_true_iff). split; [done|]. destruct (Ascii.eqb c "034"); by injection Hn as <-.
  - split; [done|]. destruct (lt && Ascii.eqb c "/"); [done|]. destruct (Ascii.eqb c "034" || Ascii.eqb c "'"); by injection Hn as <-.
  - apply andb_true_iff in Hp as [Hp _]. rewrite js_plain by (by apply negb_true_iff). split; [done|].
    destruct (lt && Ascii.eqb c "/"); [done|]. destruct e, (Ascii.eqb c "\"), (Ascii.eqb c q); by injection Hn as <-.
Qed.

Lemma begun_decodes m c m' cur b : (next m c = (m', Begin cur) \/ next m c = (m', DropBegin cur)) ->
  decoding m' (srev cur ++ b)%string = (srev cur ++ decoding m' b)%string.
Proof.
  destruct m as [|n| |[|q e] lt]; cbn [next]; intros Hn.
  - destruct (Ascii.eqb c "<"); destruct Hn as [Hn|Hn]; by simplify_eq.
  - destruct (Ascii.eqb c "034"), (Ascii.eqb c ">"); destruct Hn as [Hn|Hn]; by simplify_eq.
  - destruct (Ascii.eqb c "034"); destruct Hn as [Hn|Hn]; by simplify_eq.
  - destruct (lt && Ascii.eqb c "/"), (Ascii.eqb c "034" || Ascii.eqb c "'"); destruct Hn as [Hn|Hn]; by simplify_eq.
  - destruct (lt && Ascii.eqb c "/"), e, (Ascii.eqb c "\"), (Ascii.eqb c q); destruct Hn as [Hn|Hn]; by simplify_eq.
Qed.
(** The last character is kept or dropped only where nothing is decoded. *)
Lemma verbatim_modes m c m' : (next m c = (m', KeepBegin) \/ exists cur, next m c = (m', DropBegin cur)) -> plain m c = true ->
  (forall s, decoding m s = s) /\ forall s, decoding m' (srev EmptyString ++ s) = (srev EmptyString ++ decoding m' s)%string.
Proof.
  destruct m as [|n| |[|q e] lt]; cbn [next plain]; intros Hn Hp; (split; [|done]).
  - destruct (Ascii.eqb c "<"); destruct Hn as [Hn|[? Hn]]; by simplify_eq.
  - done.
  - destruct (Ascii.eqb c "034"); destruct Hn as [Hn|[? Hn]]; by simplify_eq.
  - done.
  - apply andb_true_iff in Hp as [_ Hp%negb_true_iff]. rewrite Hp in Hn.
    destruct e, (Ascii.eqb c "\"), (Ascii.eqb c q); destruct Hn as [Hn|[? Hn]]; by simplify_eq.
Qed.
Lemma srev_cons c s : srev (String c s) = (srev s ++ String c EmptyString)%string.
Proof. apply (srev_back (String c EmptyString) s). Qed.
Lemma srev_inj a b : srev a = srev b -> a = b.
Proof.
  intros H. assert (forall x, srev (srev x) = x) as Hs.
  { induction x as [|c x IH]; [done|]. rewrite srev_cons. unfold srev at 1. rewrite back_app. simpl. f_equal. exact IH. }
  by rewrite <- (Hs a), H, Hs.
Qed.
Lemma agree_step st st' c : plain (st_mode st) c = true -> agree st st' ->
  agree (step html_decode js_decode st c) (step as_is as_is st' c).
Proof.
  intros Hp Ha. pose proof (agree_emitted _ _ Ha) as He. destruct Ha as [Hm Hev Hc]. unfold step. rewrite <- Hm in *.
  destruct (next (st_mode st) c) as [m a] eqn:En. destruct a as [|cur| |cur].
  - destruct (kept_plain _ _ _ EmptyString En Hp) as [_ Hd]. split; [done..|]. intros b. cbn [st_mode st_cur]. rewrite !Hd, !srev_cons, !Asn1.app_assoc_s.
    rewrite Hc. f_equal. exact (proj1 (kept_plain _ _ _ b En Hp)).
  - split; [done|cbn; by rewrite Hev, He|]. intros b. cbn [st_mode st_cur]. apply (begun_decodes (st_mode st) c). by left.
  - destruct (verbatim_modes _ _ _ (or_introl En) Hp) as [Hv Hd]. assert (st_cur st = st_cur st') as Hcur.
    { apply srev_inj. specialize (Hc EmptyString). by rewrite !Hv, !Asn1.app_nil_s in Hc. }
    split; [done| |intros b; apply Hd]. cbn. rewrite Hev, Hcur. unfold emitted. by rewrite Hv, decoder_as_is.
  - destruct (verbatim_modes _ _ _ (or_intror (ex_intro _ cur En)) Hp) as [Hv _]. assert (st_cur st = st_cur st') as Hcur.
    { apply srev_inj. specialize (Hc EmptyString). by rewrite !Hv, !Asn1.app_nil_s in Hc. }
    split; [done| |]. { cbn. rewrite Hev, Hcur. unfold emitted. by rewrite Hv, decoder_as_is. }
    intros b. cbn [st_mode st_cur]. apply (begun_decodes (st_mode st) c). by right.
Qed.

Lemma agree_walk s m st st' : walk s (st_mode st) = Some m -> agree st st' ->
  agree (run html_decode js_decode s st) (run as_is as_is s st') /\ st_mode (run html_decode js_decode s st) = m.
Proof.
  revert st st'. induction s as [|c s IH]; intros st st'; cbn [walk run]; [by intros [= ->]|].
  destruct (plain (st_mode st) c) eqn:Hp; [|done]. intros Hw Ha. apply IH; [|by apply agree_step].
  rewrite <- Hw. f_equal. unfold step. destruct (next (st_mode st) c) as [m' []]; done.
Qed.
(** Escaped data is read as the data. *)
Lemma agree_data m st st' r s : run html_decode js_decode r st = mkState m (back r (st_cur st)) (st_events st) -> m = st_mode st ->
  (forall b, decoding m (r ++ b) = (s ++ decoding m b)%string) -> agree st st' ->
  agree (run html_decode js_decode r st) (mkState (st_mode st') (back s (st_cur st')) (st_events st')).
Proof.
  intros Hr -> Hd [Hm He Hc]. rewrite Hr. split; [done..|]. intros b. cbn [st_mode st_cur]. by rewrite !srev_back, !Asn1.app_assoc_s, Hc, Hd.
Qed.
Lemma shown_seen c s : shown c s = match c with Html | Rcdata => seen s | Attr => seen (utf8_clean s) | JsValue => utf8_clean s | JsString => s end.
Proof. by destruct c. Qed.
Lemma agree_piece c s st st' : fits c (st_mode st) = true -> agree st st' ->
  agree (run html_decode js_decode (escape_in c s) st) (say st' (Data c s)) /\
  st_mode (run html_decode js_decode (escape_in c s) st) = st_mode st.
Proof.
  intros Hf Ha. pose proof Ha as [Hm He Hc]. destruct st as [m cur evs]. cbn [st_mode st_cur st_events] in *.
  assert (forall x, Ascii.eqb x "<" = false -> next Txt x = (Txt, Keep)) as Htxt by (intros x Hx; cbn; by rewrite Hx).
  assert (forall x, Ascii.eqb x "034" = false -> next Quo x = (Quo, Keep)) as Hquo by (intros x Hx; cbn; by rewrite Hx).
  destruct c, m as [|n| |[|q []] []]; try discriminate; cbn [escape_in say]; rewrite ?shown_seen.
  - split; [|by rewrite (run_kept _ _ "<" _ _ _ _ Htxt (html_no_tag s))].
    eapply agree_data; [apply (run_kept _ _ "<" _ _ _ _ Htxt), html_no_tag|done|apply html_decodes|done].
  - split; [|by rewrite (run_kept _ _ "<" _ _ _ _ Htxt (html_no_tag s))].
    eapply agree_data; [apply (run_kept _ _ "<" _ _ _ _ Htxt), html_no_tag|done|apply html_decodes|done].
  - split; [|by rewrite (run_kept _ _ "034" _ _ _ _ Hquo (attr_no_quote (utf8_clean s)))].
    eapply agree_data; [apply (run_kept _ _ "034" _ _ _ _ Hquo), attr_no_quote|done|apply attr_decodes|done].
  - set (v := utf8_clean s).
    pose proof (escape_in_string html_decode js_decode SpecDoc.SpecDoc.escape_char "034" (fun c => json_in_string _ _ c) (or_introl eq_refl) v) as Hrun.
    assert (js_decode (SpecDoc.SpecDoc.escape v) = v) as Hdec.
    { pose proof (escape_decodes _ v EmptyString json_char_decodes) as Hd. rewrite !Asn1.app_nil_s in Hd. exact Hd. }
    assert (run html_decode js_decode (SpecDoc.SpecDoc.quoted v) (mkState (Script Code false) cur evs) =
            mkState (Script Code false) EmptyString ((evs ++ [ECode (srev cur)]) ++ [EString v])) as E.
    { unfold SpecDoc.SpecDoc.quoted. rewrite !run_app.
      assert (run html_decode js_decode dq (mkState (Script Code false) cur evs) =
        mkState (Script (Str "034" false) false) EmptyString (evs ++ [ECode (srev cur)])) as -> by reflexivity.
      unfold SpecDoc.SpecDoc.escape in *. rewrite Hrun.
      assert (forall x e, run html_decode js_decode dq (mkState (Script (Str "034" false) false) x e) =
        mkState (Script Code false) EmptyString (e ++ [EString (js_decode (srev x))])) as -> by reflexivity.
      rewrite srev_back. change (srev EmptyString ++ SpecDoc.SpecDoc.escape_with SpecDoc.SpecDoc.escape_char v)%string
        with (SpecDoc.SpecDoc.escape_with SpecDoc.SpecDoc.escape_char v). by rewrite Hdec. }
    rewrite E. cbn [st_mode]. split; [|done].
    assert (cur = st_cur st') as Hcur by (apply srev_inj; specialize (Hc EmptyString); by rewrite !Asn1.app_nil_s in Hc).
    split; [done| |done]. cbn [st_events]. rewrite He, <- app_assoc, <- Hm, <- Hcur. done.
  - assert (q = "034"%char \/ q = "'"%char) as Hq by (apply orb_true_iff in Hf as [->%Ascii.eqb_eq| ->%Ascii.eqb_eq]; tauto).
    pose proof (escape_in_string html_decode js_decode js_char q (fun c => js_in_string _ _ c q Hq) Hq s) as Hrun.
    split; [|by rewrite Hrun]. eapply agree_data; [apply Hrun|done|intros b; apply escape_decodes, js_char_decodes|done].
Qed.
Lemma agree_place l m st st' : place l (st_mode st) = Some m -> agree st st' ->
  agree (run html_decode js_decode (render l) st) (fold_left say l st').
Proof.
  revert st st'. induction l as [|[s|c s] l IH]; intros st st'; cbn [place render render_piece fold_left]; [done| |].
  - destruct (walk s (st_mode st)) as [m1|] eqn:Hw; [|done]. intros Hp Ha. rewrite run_app.
    destruct (agree_walk _ _ _ _ Hw Ha) as [Ha' Hm]. apply IH; [|exact Ha']. by rewrite Hm.
  - destruct (fits c (st_mode st)) eqn:Hf; [|done]. intros Hp Ha. rewrite run_app.
    destruct (agree_piece c s _ _ Hf Ha) as [Ha' Hm]. apply IH; [|exact Ha']. by rewrite Hm.
Qed.
Lemma page_reads l m : place l Txt = Some m -> read (render l) = says l.
Proof.
  intros Hp. assert (agree start start) as Ha by (by split).
  pose proof (agree_place l m start start Hp Ha) as Hr. unfold read, says, finish. by rewrite (ag_events _ _ Hr), (agree_emitted _ _ Hr).
Qed.

(** ** The outline of a page
    Its markup and the code of its scripts, without texts, values and strings. *)
Definition outline (e : event) : event :=
  match e with EText _ => EText EmptyString | EValue _ => EValue EmptyString | EString _ => EString EmptyString | e => e end.
Definition blank (p : piece) : piece := match p with Own s => Own s | Data c _ => Data c EmptyString end.
(** Between a page and the page without its data. *)
Definition decodes (m : mode) : bool := match m with Tag _ | Script Code _ => false | _ => true end.
Record alike (st st' : state) : Prop := {
  al_mode : st_mode st = st_mode st';
  al_events : map outline (st_events st) = map outline (st_events st');
  al_cur : decodes (st_mode st) = false -> st_cur st = st_cur st';
}.
Lemma alike_emitted st st' f g : alike st st' -> outline (emitted as_is as_is (st_mode st) (f (st_cur st))) = outline (emitted as_is as_is (st_mode st') (g (st_cur st'))) \/
  decodes (st_mode st) = false.
Proof. intros [Hm He Hc]. rewrite <- Hm. destruct (st_mode st) as [|n| |[|q e] lt]; simpl; auto. Qed.
Lemma alike_step st st' c : alike st st' -> alike (step as_is as_is st c) (step as_is as_is st' c).
Proof.
  intros Ha. pose proof (fun f => alike_emitted st st' f f Ha) as Hem. destruct Ha as [Hm He Hc]. unfold step. rewrite <- Hm in *.
  destruct (next (st_mode st) c) as [m a] eqn:En.
  assert (forall f : string -> string, map outline (st_events st ++ [emitted as_is as_is (st_mode st) (f (st_cur st))]) =
            map outline (st_events st' ++ [emitted as_is as_is (st_mode st) (f (st_cur st'))])) as Hev.
  { intros f. rewrite !map_app, He. f_equal. cbn [map]. destruct (Hem f) as [E|E]; [by rewrite E|]. by rewrite Hc. }
  destruct a as [|cur| |cur]; split; cbn [st_mode st_events st_cur]; try done.
  - intros Hd. rewrite Hc; [done|]. destruct (st_mode st) as [|n| |[|q e] lt]; cbn [next] in En.
    + destruct (Ascii.eqb c "<"); by simplify_eq.
    + done.
    + destruct (Ascii.eqb c "034"); by simplify_eq.
    + done.
    + destruct (lt && Ascii.eqb c "/"), e, (Ascii.eqb c "\"), (Ascii.eqb c q); by simplify_eq.
  - apply (Hev (fun x => x)).
Qed.
Lemma alike_run s st st' : alike st st' -> alike (run as_is as_is s st) (run as_is as_is s st').
Proof. revert st st'. induction s as [|c s IH]; intros st st' Ha; [done|]. by apply IH, alike_step. Qed.
Lemma alike_say p st st' : (match p with Own _ => True | Data c _ => fits c (st_mode st) = true end) -> alike st st' -> alike (say st p) (say st' (blank p)).
Proof.
  destruct p as [s|c s]; intros Hf Ha; [by apply alike_run|]. pose proof Ha as [Hm He Hc].
  destruct c, (st_mode st) as [|n| |[|q []] []] eqn:Em; try discriminate; cbn [say blank]; (split; cbn [st_mode st_events st_cur]; rewrite ?Em; try done).
  rewrite !map_app, He. cbn [map]. unfold emitted. rewrite <- Hm, Hc by done. done.
Qed.
Lemma alike_page l m st st' : place l (st_mode st) = Some m -> alike st st' -> alike (fold_left say l st) (fold_left say (map blank l) st').
Proof.
  revert st st'. induction l as [|p l IH]; intros st st' Hp Ha; [done|]. cbn [fold_left map]. 
  assert ((match p with Own _ => True | Data c _ => fits c (st_mode st) = true end) /\ place l (st_mode (say st p)) = Some m) as [Hf Hl].
  { destruct p as [s|c s]; cbn [place] in Hp.
    - split; [done|]. destruct (walk s (st_mode st)) as [m1|] eqn:Hw; [|done]. cbn [say].
      assert (st_mode (run as_is as_is s st) = m1) as ->; [|done]. clear -Hw. revert st Hw. induction s as [|c s IH]; intros st; cbn [walk run]; [by intros [= ->]|].
      destruct (plain _ _); [|done]. intros Hw. apply IH. rewrite <- Hw. f_equal. unfold step. by destruct (next (st_mode st) c) as [? []].
    - destruct (fits c (st_mode st)) eqn:Hf; [|done]. split; [done|]. destruct c; try exact Hp. cbn [say st_mode].
      destruct (st_mode st) as [| | |[|q []] []]; try discriminate; exact Hp. }
  apply IH; [done|]. by apply alike_say.
Qed.

(** C16: Every page is well placed - each piece of data stands where its context says,
    and the page ends outside any tag - and reads as its template says: what a browser reads of the text that is sent is the
    template's own text with the data (decoded) in it, and the page's markup and
    scripts are those of the page without the data. So nothing in a certificate, a
    message or a request becomes markup or code. *)
Theorem pages_read p :
  place (page_of p) Txt = Some Txt /\
  read (render (page_of p)) = says (page_of p) /\ map outline (read (render (page_of p))) = map outline (says (map blank (page_of p))).
Proof.
  pose proof (pages_placed p) as Hp. split; [exact Hp|]. rewrite (page_reads _ _ Hp). split; [done|].
  assert (alike start start) as Ha by done.
  destruct (alike_page _ _ start start Hp Ha) as [Hm He Hc]. unfold says, finish. rewrite !map_app, He. f_equal. cbn [map]. f_equal.
  rewrite <- Hm. revert Hc. destruct (st_mode (fold_left say (page_of p) start)) as [|n| |[|q e] lt]; try done; intros Hc; unfold emitted; by rewrite Hc.
Qed.
End Pages.
