(* ===== verification/LoginForm.v ===== *)
(** * The sign-in form returns what was checked (internal/transport/rest,
    oidcauth.go)

    The login page carries the request that was checked in hidden fields of its
    form, and the handler of the form checks and completes the request it reads
    from it. Here the form as a browser reads it from the page, and that the
    request it returns is the one that was checked. *)
From S2P Require Import Prelude Errors Provider CoreTypes Batch Oidc RestServer RestSpec Asn1 Text Templates Pages.
Import Oidc.Oidc RestServer.Server Templates.Templates Pages.Pages.
Open Scope string_scope.
Open Scope list_scope.

Module LoginForm.

(** ** Forms in a page
    The name of the attribute that a piece of markup ends in. *)
Fixpoint until (x : ascii) (s : string) : string :=
  match s with EmptyString => EmptyString | String c t => if Ascii.eqb c x then EmptyString else String c (until x t) end.
Definition attr_name (m : string) : string := until "=" (default EmptyString (last (split " " m))).
(** The attributes of the tags that begin so. *)
Fixpoint tags (begin : string) (evs : list event) (cur : option (list (string * string))) : list (list (string * string)) :=
  match evs with
  | [] => []
  | EMarkup m :: (EValue v :: t) =>
      tags begin t ((fun l => l ++ [(attr_name m, v)]) <$> (if has_prefix begin m then Some [] else cur))
  | EMarkup _ :: t => match cur with Some l => l :: tags begin t None | None => tags begin t None end
  | _ :: t => tags begin t None
  end.
Fixpoint assoc (k : string) (l : list (string * string)) : option string :=
  match l with [] => None | (n, v) :: t => if str_eqb n k then Some v else assoc k t end.
(** The named inputs with their values; where the form is sent. *)
Definition fields (evs : list event) : list (string * string) :=
  omap (fun l => (fun n => (n, default EmptyString (assoc "value" l))) <$> assoc "name" l) (tags "<input" evs None).
Definition targets (evs : list event) : list (option string * option string) :=
  map (fun l => (assoc "method" l, assoc "action" l)) (tags "<form" evs None).
(** What the form sends once the script has put the signature into its field. *)
Definition sent (evs : list event) (signature : string) (k : string) : string :=
  if str_eqb k "signature" then signature else default EmptyString (assoc k (fields evs)).

(** ** Reading a page piece by piece *)
Notation own_run s m cur := (run as_is as_is s (mkState m cur [])).
Definition after (evs : list event) (st : state) : state := mkState (st_mode st) (st_cur st) (evs ++ st_events st).
Lemma step_after evs st c : step as_is as_is (after evs st) c = after evs (step as_is as_is st c).
Proof.
  unfold step, after. cbn [st_mode st_cur st_events]. destruct (next (st_mode st) c) as [m []]; cbn [st_mode st_cur st_events]; by rewrite ?app_assoc.
Qed.
Lemma run_after s evs st : run as_is as_is s (after evs st) = after evs (run as_is as_is s st).
Proof. revert st. induction s as [|c s IH]; intros st; cbn [run]; [done|]. by rewrite step_after, IH. Qed.
Lemma say_own s l m cur evs : fold_left say (Own s :: l) (mkState m cur evs) = fold_left say l (after evs (own_run s m cur)).
Proof. cbn [fold_left say]. by rewrite <- run_after, <- (app_nil_r evs) at 1. Qed.
Lemma srev_back_shown c s cur : srev (back (shown c s) cur) = (srev cur ++ shown c s)%string.
Proof. apply srev_back. Qed.
(** Data, and the character that ends it. *)
Definition event_of (m : mode) (s : string) : event :=
  match m with Txt => EText s | Tag _ => EMarkup s | Quo => EValue s | Script Code _ => ECode s | Script (Str _ _) _ => EString s end.
Lemma say_data c s x o l m m' cur cur' evs : next m x = (m', Begin cur') -> (c = JsValue -> False) ->
  fold_left say (Data c s :: Own (String x o) :: l) (mkState m cur evs) =
  fold_left say l (after (evs ++ [event_of m (srev cur ++ shown c s)%string]) (own_run o m' cur')).
Proof.
  intros Hn Hc. rewrite <- run_after. unfold after. cbn [fold_left].
  assert (say (mkState m cur evs) (Data c s) = mkState m (back (shown c s) cur) evs) as -> by (destruct c; done).
  cbn [say run]. unfold step. cbn [st_mode st_cur st_events]. rewrite Hn. rewrite app_nil_r. do 2 f_equal. unfold emitted. rewrite <- srev_back_shown, decoder_as_is.
  by destruct m as [| | |[]].
Qed.
Lemma say_value s l cur evs : fold_left say (Data JsValue s :: l) (mkState (Script Code false) cur evs) =
  fold_left say l (mkState (Script Code false) EmptyString (evs ++ [ECode (srev cur); EString (shown JsValue s)])).
Proof. reflexivity. Qed.

(** ** The form of the login page *)
Ltac literal :=
  match goal with |- context [string_map ?f ?s] => let r := eval vm_compute in (string_map f s) in change (string_map f s) with r end.
Ltac computed :=
  match goal with |- context [run ?d ?e ?s ?st] => let r := eval vm_compute in (run d e s st) in
    replace (run d e s st) with r by (vm_compute; reflexivity) end;
  unfold after; cbn [st_mode st_cur st_events].
Ltac reading :=
  repeat first
    [ rewrite say_value
    | erewrite say_data by (first [reflexivity | discriminate]); computed
    | rewrite say_own; computed ].
Definition login_inputs (p : loginPage) : list (string * string) :=
  [("client_id", shown Attr (lp_client p)); ("redirect_uri", shown Attr (aq_redirect (lp_request p))); ("response_type", "code");
   ("state", shown Attr (aq_state (lp_request p))); ("nonce", shown Attr (aq_nonce (lp_request p))); ("scope", shown Attr (lp_scope p));
   ("code_challenge", shown Attr (aq_challenge (lp_request p))); ("code_challenge_method", shown Attr (aq_method (lp_request p)));
   ("challengeId", shown Attr (lp_challenge_id p)); ("signature", EmptyString)].
Lemma login_says p : fields (says (login_page p)) = login_inputs p /\
  targets (says (login_page p)) = [(Some "post", Some "/oidc/authorize")]%string.
Proof.
  unfold says, login_page, login_inputs. destruct (lp_qr p); cbn [when app own html rcdata attr js_value js_string];
    repeat literal; unfold start; reading;
    repeat (match goal with |- context [shown ?c ?s] => generalize (shown c s); intros ? end); vm_compute; split; reflexivity.
Qed.
(** The page as it is sent, and what its form sends. *)
Definition login_sent (p : loginPage) (signature : string) : string -> string :=
  sent (read (render (page_of (LoginPage p)))) signature.
Lemma login_read p : read (render (page_of (LoginPage p))) = says (login_page p).
Proof. eapply page_reads, login_placed. Qed.

(** ** What comes back *)
Section Returns.
  Context {W F DD KS : Type}.
  Variable clients : gmap string Client.
  Variable s : Server W F DD KS.
  Variable p : oidc_api W F DD KS.
(** Text that a page shows as it is: valid UTF-8 without a zero byte. *)
Definition showable (t : string) : Prop := shown Attr t = t.
Definition asked : list string := ["client_id"; "redirect_uri"; "state"; "nonce"; "code_challenge"; "code_challenge_method"]%string.

Lemma login_page_of r w w' lp : sv_oidc s = Some p -> (forall q, oa_validate p q = mret (ValidateAuthorize clients q)) ->
  (forall id c, clients !! id = Some c -> cn_id c = id) ->
  forall resp, handleOIDCAuthorize s r w = Done (w', resp) -> s_body resp = PPage (LoginPage lp) ->
  lp_client lp = h_query r "client_id" /\ lp_request lp = authorizeRequestFrom (h_query r) /\ aq_response_type (lp_request lp) = "code"%string.
Proof.
  intros Hs Hv Hids resp. unfold handleOIDCAuthorize, on. rewrite Hs. cbv zeta. rewrite Hv.
  intros (w1 & v & [-> ->]%mret_done & HR)%mbind_done Hb.
  destruct (ValidateAuthorize clients (authorizeRequestFrom (h_query r))) as [client|e] eqn:Ev; [|apply mret_done in HR as [_ ->]].
  - apply mbind_done in HR as (w2 & c & _ & [_ ->]%mret_done). destruct c as [c|e].
    + cbn in Hb. injection Hb as <-. cbn [lp_client lp_request].
      unfold ValidateAuthorize in Ev. destruct (clients !! _) as [c0|] eqn:Ec; [|done].
      destruct (_ || _); [done|]. destruct (negb (str_eqb _ "code")) eqn:Er; [done|].
      destruct (_ && (_ || _)); [done|]. destruct (_ && _); [done|]. injection Ev as ->.
      split; [apply (Hids _ _ Ec)|]. split; [done|]. by apply negb_false_iff, str_eqb_eq in Er.
    + unfold writeError in Hb. by repeat case_match.
  - unfold writeAuthorizeError in Hb. by destruct (oauthErrorFor e).
Qed.

(** C15: The sign-in form returns the request that was checked. When the login page is
    shown for a request, the form that a browser reads from the text sent posts to
    the handler of the sign-in; and with what the form sends - every parameter as
    it was asked, the challenge of the page, and the signature made for it - that
    handler completes exactly the request that was checked. *)
Theorem login_form_returns r w w' resp lp ParseForm location r' form signature :
  sv_oidc s = Some p -> (forall q, oa_validate p q = mret (ValidateAuthorize clients q)) ->
  (forall id c, clients !! id = Some c -> cn_id c = id) ->
  handleOIDCAuthorize s r w = Done (w', resp) -> s_body resp = PPage (LoginPage lp) ->
  (forall k, k ∈ asked -> showable (h_query r k)) -> showable (lp_challenge_id lp) ->
  ParseForm r' = Ok form -> (forall k, form k = login_sent lp signature k) ->
  targets (read (render (page_of (LoginPage lp)))) = [(Some "post", Some "/oidc/authorize")]%string /\
  handleOIDCAuthorizeSubmit s ParseForm location r' =
    (let* u := oa_complete p (authorizeRequestFrom (h_query r)) (lp_challenge_id lp) signature in
     mret (reply writeAuthorizeError (redirect location r') u))%m.
Proof.
  intros Hs Hv Hids Hh Hb Hk Hc Hf Hform.
  destruct (login_page_of _ _ _ _ Hs Hv Hids _ Hh Hb) as (Hcl & Hrq & Hcode). rewrite login_read. split; [apply login_says|].
  assert (forall k v, assoc k (login_inputs lp) = Some v -> str_eqb k "signature" = false -> form k = v) as Hget.
  { intros k v Ha Hne. rewrite Hform. unfold login_sent, sent. rewrite login_read, Hne. by rewrite (proj1 (login_says lp)), Ha. }
  unfold handleOIDCAuthorizeSubmit, on. rewrite Hf, Hs.
  assert (form "signature"%string = signature) as -> by (rewrite Hform; reflexivity).
  assert (form "challengeId"%string = lp_challenge_id lp) as -> by (erewrite Hget; [apply Hc|reflexivity|reflexivity]).
  assert (authorizeRequestFrom form = authorizeRequestFrom (h_query r)) as ->; [|done].
  rewrite Hrq in Hcode. unfold authorizeRequestFrom in *. cbn [aq_response_type] in Hcode.
  assert (forall k, k ∈ asked -> shown Attr (h_query r k) = h_query r k) as Hshow by exact Hk.
  f_equal; (erewrite Hget; [|reflexivity|reflexivity]); rewrite ?Hrq, ?Hcl; cbn [aq_redirect aq_state aq_nonce aq_challenge aq_method];
    first [apply Hshow; unfold asked; set_solver|by rewrite Hcode].
Qed.
End Returns.

(** ** A concrete login *)
Import RestSpec.Serving.
Notation lab_state := (@pstate Z (gmap string Challenge.Challenge.Challenge)).
Definition lab_returning : oidc_api lab_state unit unit unit :=
  mkOidcApi lab_state unit unit unit (mret tt) (mret tt) (fun _ _ => mret (Ok (mkChallengeReply "c1" "bjBuY2U=" "CMS-detached" 300 "xyz")))
    (fun _ _ _ => mret (Err Challenge.Challenge.ErrNotFound)) (fun _ => mret (Err ErrTokenInvalid))
    (fun q => mret (ValidateAuthorize lab_clients q))
    (CompleteAuthorization Challenge.Challenge.lab_verifier id lab_rand lab_query lab_cfg lab_clients) (fun _ => mret (Err ErrCodeInvalid)).
Definition lab_hosted : Server lab_state unit unit unit :=
  Server.New (fun _ => lab_core) (fun _ _ _ => mret (mkRegistry 0 0 0 0 0 0 [])) [WithOIDC lab_returning].
Definition lab_ask : request :=
  mkRequest "GET" "/oidc/authorize" (fun _ => EmptyString)
    (lab_get [("client_id", "web"); ("redirect_uri", "https://app/cb"); ("response_type", "code"); ("state", "<x&'y'>"); ("nonce", "nn");
              ("code_challenge", "h(secret)"); ("code_challenge_method", "S256")]%string) (fun _ => EmptyString) "ca.example" true EmptyString.
Definition lab_shown : loginPage := mkLoginPage "web" (authorizeRequestFrom (h_query lab_ask)) EmptyString "c1" "bjBuY2U=" 300 false.
Lemma login_form_returns_witness :
  login_sent lab_shown "sig:n0nce" "state" = "<x&'y'>"%string /\
  handleOIDCAuthorizeSubmit lab_hosted (fun _ => Ok (login_sent lab_shown "sig:n0nce")) lab_location (lab_request_to "POST" "/oidc/authorize" "") =
    (let* u := CompleteAuthorization Challenge.Challenge.lab_verifier id lab_rand lab_query lab_cfg lab_clients
                 (mkAuthorize "web" "https://app/cb" "code" "<x&'y'>" "nn" "h(secret)" "S256") "c1" "sig:n0nce" in
     mret (reply writeAuthorizeError (redirect lab_location (lab_request_to "POST" "/oidc/authorize" "")) u))%m.
Proof.
  split; [vm_compute; reflexivity|].
  assert (exists w' resp, handleOIDCAuthorize lab_hosted lab_ask lab_p0 = Done (w', resp) /\ s_body resp = PPage (LoginPage lab_shown))
    as (w' & resp & E & Hb) by (do 2 eexists; split; [vm_compute; reflexivity|reflexivity]).
  assert (forall id c, lab_clients !! id = Some c -> cn_id c = id) as Hids by (by apply (ParseClients_ids ["web||https://app/cb"%string] ∅)).
  assert (forall k, k ∈ asked -> showable (h_query lab_ask k)) as Hk
    by (intros k Hk; repeat (apply elem_of_cons in Hk as [->|Hk]; [vm_compute; reflexivity|]); by apply elem_of_nil in Hk).
  exact (proj2 (login_form_returns lab_clients lab_hosted lab_returning lab_ask lab_p0 w' resp lab_shown
    (fun _ => Ok (login_sent lab_shown "sig:n0nce")) lab_location (lab_request_to "POST" "/oidc/authorize" "") (login_sent lab_shown "sig:n0nce") "sig:n0nce"
    eq_refl (fun _ => eq_refl) Hids E Hb Hk ltac:(vm_compute; reflexivity) eq_refl (fun _ => eq_refl))).
Defined.
End LoginForm.
