(* ===== verification/Discovery.v ===== *)
(** * What the OpenID Connect provider publishes (internal/oidc: oidc.go,
    contract.go, signer.go)

    The discovery document, the key set, and the reaper that runs beside the
    flows of Oidc. A relying party reads the document to find its way: the
    endpoints it names are served by the transport of RestServer, the key set
    holds the key the tokens of Jws verify under, and the claims it lists are
    those a token can carry. *)
From S2P Require Import Prelude Errors Provider CoreTypes Challenge Oidc Text Jws Journal RestServer RestSpec Wiring.
Open Scope string_scope.
Open Scope list_scope.

Module Discovery.
Import Challenge.Challenge Oidc.Oidc.

(** ** The discovery document *)
Record DiscoveryDoc := mkDiscovery {
  dd_issuer : string; dd_jwks : string; dd_token : string; dd_authorization : string; dd_userinfo : string; dd_challenge : string;
  dd_verify : string; dd_grants : list string; dd_responses : list string; dd_subjects : list string; dd_algs : list string;
  dd_scopes : list string; dd_methods : list string; dd_claims : list string;
}.
Definition Discovery (cfg : Config) : DiscoveryDoc :=
  let base := trim_slashes (oc_issuer cfg) in
  {| dd_issuer := oc_issuer cfg;
     dd_jwks := base ++ "/oidc/jwks.json";
     dd_token := base ++ "/oidc/token";
     dd_authorization := base ++ "/oidc/authorize";
     dd_userinfo := base ++ "/oidc/userinfo";
     dd_challenge := base ++ "/oidc/challenge";
     dd_verify := base ++ "/oidc/verify";
     dd_grants := ["authorization_code"; "urn:qoltanba:params:grant-type:ecp"];
     dd_responses := ["code"; "id_token"; "token"];
     dd_methods := ["S256"];
     dd_subjects := ["public"];
     dd_algs := ["RS256"];
     dd_scopes := ["openid"; "profile"];
     dd_claims := ["sub"; "name"; "given_name"; "family_name"; "email"; "iin"; "bin"; "organization"; "roles"; "owner_type"; "gender"]
  |}%string.

(** ** The key set *)
Record JWK := mkJwk { jk_kty : string; jk_use : string; jk_alg : string; jk_kid : string; jk_n : string; jk_e : string }.
Record JWKSet := mkJwks { jk_keys : list JWK }.
(** [big.Int.Bytes]: big-endian, without leading zeros. *)
Fixpoint big_loop (fuel : nat) (n : Z) (acc : string) : string :=
  match fuel with
  | O => acc
  | S f => if (n <=? 0)%Z then acc else big_loop f (n / 256) (String (byte_of (n mod 256)) acc)
  end.
Definition big_bytes (n : Z) : string := big_loop (S (Z.to_nat (Z.log2 n))) n EmptyString.
(** What [big.Int.SetBytes] reads back. *)
Fixpoint big_value (acc : Z) (s : string) : Z :=
  match s with EmptyString => acc | String c t => big_value (acc * 256 + byte_val c)%Z t end.

Section Keys.
  Context {K : Type}.
  (** The public half of a key. *)
  Variable modulus exponent : K -> Z.
Definition JWKS (s : Jws.Jws.signer (K := K)) : JWKSet :=
  mkJwks [mkJwk "RSA" "sig" "RS256" (Jws.Jws.sg_kid s) (b64url_encode (big_bytes (modulus (Jws.Jws.sg_key s))))
    (b64url_encode (big_bytes (exponent (Jws.Jws.sg_key s))))]%string.
(** How a relying party reads a key. *)
Definition public_key (k : JWK) : option (Z * Z) :=
  match b64url_decode (jk_n k), b64url_decode (jk_e k) with
  | Some n, Some e => Some (big_value 0 n, big_value 0 e)
  | _, _ => None
  end.
End Keys.

(** ** The provider's life *)
Section Life.
  Context {W St : Type} `{ChallengeStore St}.
  Variable now : W -> time.
(** [New]: no codes yet; the configuration is completed by [withDefaults]. *)
Definition New (w : W) (store : St) : pstate := mkPState w store ∅.
(** A tick of [Start]; what the store answers is only logged. *)
Definition reap_tick : M (pstate (W := W) (St := St)) unit :=
  (let* t := clock now in
   let* _ := in_codes (fun m => (reap t m, tt)) in
   let* t := clock now in
   let* _ := in_store (cs_reap t) in
   mret tt)%m.
(** [Start]: ticks, each at its time, until the context ends. *)
Fixpoint Start (ticks : list (W -> W)) : M (pstate (W := W) (St := St)) unit :=
  match ticks with
  | [] => mret tt
  | later :: rest => (let* _ := in_world (fun w => Done (later w, tt)) in let* _ := reap_tick in Start rest)%m
  end.
Definition VerifySignature (v : verifier W) (cfg : Config) (id signature : string) : M (pstate (W := W) (St := St)) (res goerr Claims) :=
  (let* r := verifyChallengeSignature v now cfg id signature in mret (match r with Ok (claims, _) => Ok claims | Err e => Err e end))%m.
Definition ActiveChallenges : M (pstate (W := W) (St := St)) Z := in_store (fun st => (st, cs_len st)).
(** [time.NewTicker] panics unless the interval is positive. *)
Definition ticker (d : duration) : outcome duration := if (d <=? 0)%Z then Panic else Done d.
End Life.

(** ** The key reads back *)
Lemma byte_val_of z : (0 <= z < 256)%Z -> byte_val (byte_of z) = z.
Proof. intros Hz. unfold byte_val, byte_of. rewrite nat_ascii_embedding; lia. Qed.
Lemma big_loop_value fuel n acc : (0 <= n < 256 ^ Z.of_nat fuel)%Z -> big_value 0 (big_loop fuel n acc) = big_value n acc.
Proof.
  revert n acc. induction fuel as [|f IH]; intros n acc Hn; cbn [big_loop]; [by replace n with 0%Z by (cbn in Hn; lia)|].
  destruct (Z.leb_spec n 0) as [Hle|Hgt]; [by replace n with 0%Z by lia|].
  rewrite IH; cbn [big_value].
  - pose proof (Z.mod_pos_bound n 256 ltac:(lia)). rewrite byte_val_of by lia. f_equal. pose proof (Z.div_mod n 256). lia.
  - rewrite Nat2Z.inj_succ, Z.pow_succ_r in Hn by lia. split; [apply Z.div_pos; lia|apply Z.div_lt_upper_bound; lia].
Qed.
Lemma big_bytes_value n : (0 <= n)%Z -> big_value 0 (big_bytes n) = n.
Proof.
  intros Hn. unfold big_bytes. rewrite big_loop_value; [done|]. split; [done|].
  rewrite Nat2Z.inj_succ, Z2Nat.id by apply Z.log2_nonneg. destruct (Z.eq_dec n 0) as [->|]; [done|].
  pose proof (Z.log2_spec n ltac:(lia)) as [_ Hl]. eapply Z.lt_le_trans; [exact Hl|]. apply Z.pow_le_mono_l. pose proof (Z.log2_nonneg n). lia.
Qed.
Example usual_exponent : b64url_encode (big_bytes 65537) = "AQAB"%string.
Proof. reflexivity. Qed.
Lemma public_key_published {K} (modulus exponent : K -> Z) s :
  (0 <= modulus (Jws.Jws.sg_key s))%Z -> (0 <= exponent (Jws.Jws.sg_key s))%Z ->
  map public_key (jk_keys (JWKS modulus exponent s)) = [Some (modulus (Jws.Jws.sg_key s), exponent (Jws.Jws.sg_key s))].
Proof. intros Hm He. unfold JWKS, public_key. cbn [jk_keys map jk_n jk_e]. by rewrite !b64url_roundtrip, !big_bytes_value. Qed.

(** ** The reaper *)
Section Reaper.
  Context {W St : Type} `{ChallengeStoreLaws St}.
  Variable now : W -> time.
(** A tick removes the codes that are over and no other, and adds no challenge. *)
Lemma reap_tick_keeps s s' : reap_tick now s = Done (s', tt) ->
  (forall k c, p_codes s' !! k = Some c <-> p_codes s !! k = Some c /\ (now (p_world s) < ac_expires c)%Z) /\
  cs_view (p_store s') ⊆ cs_view (p_store s).
Proof.
  unfold reap_tick, clock, in_codes, in_store, mget, mbind_, mret. cbn. destruct (cs_reap (now (p_world s)) (p_store s)) as [st r] eqn:E; cbn.
  intros [= <-]. cbn. split; [|eapply cs_reap_sub, E]. intros k c. unfold reap. rewrite map_lookup_filter_Some. cbn. unfold after.
  by rewrite Z.ltb_lt.
Qed.
Lemma reap_tick_step v rand_id sign s256 add_query cfg clients s s' : reap_tick now s = Done (s', tt) ->
  rtc (step v now rand_id sign s256 add_query cfg clients) s s'.
Proof.
  unfold reap_tick, clock, in_codes, in_store, mget, mbind_, mret. cbn. destruct (cs_reap (now (p_world s)) (p_store s)) as [st r] eqn:E; cbn. intros [= <-].
  apply (rtc_l _ _ (mkPState (p_world s) (p_store s) (reap (now (p_world s)) (p_codes s)))); [apply StepReap|]. apply rtc_once, StepOther.
Qed.
End Reaper.
(** The tickers start: every interval is positive. *)
Lemma oidc_ticks c : ticker (oc_reap (withDefaults c)) = Done (oc_reap (withDefaults c)).
Proof.
  unfold ticker, withDefaults. cbn. repeat match goal with |- context [(?a <=? ?b)%Z] => destruct (Z.leb_spec a b) end; try done;
    repeat match goal with H : context [(?a <? ?b)%Z] |- _ => destruct (Z.ltb_spec a b) end; unfold minute, second in *; lia.
Qed.

(** ** The document tells the truth *)
Definition endpoints (d : DiscoveryDoc) : list (string * string) :=
  [("GET", dd_jwks d); ("POST", dd_token d); ("GET", dd_authorization d); ("GET", dd_userinfo d); ("POST", dd_challenge d); ("POST", dd_verify d)]%string.
Lemma claims_advertised c k : k ∈ dom (claimsToMap c) -> forall cfg, k ∈ dd_claims (Discovery cfg).
Proof.
  intros Hk cfg. revert Hk. unfold claimsToMap.
  assert (forall key v (m : gmap string jval), k ∈ dom (put_str key v m) -> k = key \/ k ∈ dom m) as Hs.
  { intros key v m. unfold put_str. destruct (empty_str v); [by right|]. set_solver. }
  assert (forall key l (m : gmap string jval), k ∈ dom (put_list key l m) -> k = key \/ k ∈ dom m) as Hl.
  { intros key l m. unfold put_list. destruct l; [by right|]. set_solver. }
  intros Hk. repeat (first [apply Hs in Hk as [->|Hk]|apply Hl in Hk as [->|Hk]]; [set_solver|]). set_solver.
Qed.
(** The standard claims that a token has besides those of its user. *)
Definition standard_claims : list string := ["iss"; "aud"; "iat"; "auth_time"; "exp"; "nonce"]%string.
Lemma token_claims cfg c client nonce t k : k ∈ dom (idClaims cfg c client nonce t) -> k ∈ dd_claims (Discovery cfg) \/ k ∈ standard_claims.
Proof.
  unfold idClaims. intros Hk. assert (k = "sub"%string \/ k ∈ dom (claimsToMap c) \/ k ∈ standard_claims) as [->|[H|H]]
    by (destruct (empty_str nonce); set_solver).
  - left. unfold Discovery. set_solver.
  - left. by apply (claims_advertised c).
  - by right.
Qed.
Lemma token_issuer cfg c client nonce t : idClaims cfg c client nonce t !! "iss"%string = Some (JStr (dd_issuer (Discovery cfg))).
Proof. unfold idClaims. destruct (empty_str nonce); by simplify_map_eq. Qed.

Section Published.
  Context {W F KS K : Type}.
  Variable s : Server.Server W F DiscoveryDoc KS.
  Variable ps : Server.parsers F.
  Variable ParseForm : Server.request -> res goerr (string -> string).
  Variable BasicAuth : Server.request -> option (string * string).
  Variable ParseMultipartForm : Server.request -> res goerr (string -> option string).
  Variable location : Server.request -> string -> string.
  Variable open_journal : string -> M W (res goerr (list Journal.Journal.line * option goerr * string)).
  Variable sha256_hex : string -> string.
  Variable modulus exponent : K -> Z.
Notation routes := (Server.routes s ps ParseForm BasicAuth ParseMultipartForm location open_journal sha256_hex).

Lemma oidc_patterns : Server.present (Server.sv_oidc s) = true -> forall m path,
  (m, path) ∈ [("GET", "/oidc/jwks.json"); ("POST", "/oidc/token"); ("GET", "/oidc/authorize"); ("GET", "/oidc/userinfo");
               ("POST", "/oidc/challenge"); ("POST", "/oidc/verify"); ("GET", "/.well-known/openid-configuration")]%string ->
  Wiring.Wiring.at_ m path ∈ map Server.rt_pattern routes.
Proof.
  intros Hs m path Hin. unfold Server.routes. rewrite !map_app, !elem_of_app. do 3 right. left. unfold Server.oidc_routes. rewrite Hs.
  cbn [Server.when map Server.rt_pattern].
  repeat (apply elem_of_cons in Hin as [[= -> ->]|Hin]; [repeat first [left; reflexivity|right]|]). by apply elem_of_nil in Hin.
Qed.

(** What the provider tells a relying party holds. Each endpoint of the discovery
    document is the issuer's address followed by a path that the transport serves
    for that method; a token's issuer is the document's, and every claim of it is
    among those the document lists or a standard one; and the key set holds one
    key, under the id that the tokens' header names, which reads back as the
    public half of the key they are signed with. *)
Theorem discovery_truthful cfg key :
  Server.present (Server.sv_oidc s) = true -> (0 <= modulus (Jws.Jws.sg_key key))%Z -> (0 <= exponent (Jws.Jws.sg_key key))%Z ->
  (forall m uri, (m, uri) ∈ endpoints (Discovery cfg) -> exists path,
     uri = (trim_slashes (oc_issuer cfg) ++ path)%string /\ Wiring.Wiring.at_ m path ∈ map Server.rt_pattern routes) /\
  (forall c client nonce t, idClaims cfg c client nonce t !! "iss"%string = Some (JStr (dd_issuer (Discovery cfg))) /\
     forall k, k ∈ dom (idClaims cfg c client nonce t) -> k ∈ dd_claims (Discovery cfg) \/ k ∈ standard_claims) /\
  (exists k, jk_keys (JWKS modulus exponent key) = [k] /\ jk_kid k = Jws.Jws.sg_kid key /\ [jk_alg k] = dd_algs (Discovery cfg) /\
     public_key k = Some (modulus (Jws.Jws.sg_key key), exponent (Jws.Jws.sg_key key))).
Proof.
  intros Hs Hm He. split; [|split].
  - intros m uri Hin. unfold endpoints in Hin.
    repeat (apply elem_of_cons in Hin as [[= -> ->]|Hin];
      [eexists; split; [reflexivity|]; apply oidc_patterns; [exact Hs|repeat first [left; reflexivity|right]]|]).
    by apply elem_of_nil in Hin.
  - intros c client nonce t. split; [apply token_issuer|intros k; apply token_claims].
  - pose proof (public_key_published modulus exponent key Hm He) as Hk. eexists. split; [reflexivity|]. split; [done|]. split; [done|].
    cbn [map JWKS jk_keys] in Hk. by injection Hk.
Qed.
End Published.

(** The document names the response types "id_token" and "token" too; the login
    page refuses them for every client. *)
Lemma advertised_response_refused cfg clients q c :
  aq_response_type q ∈ ["id_token"; "token"]%string ->
  aq_response_type q ∈ dd_responses (Discovery cfg) /\ ValidateAuthorize clients q <> Ok c.
Proof.
  intros Hq. split; [unfold Discovery; set_solver|]. unfold ValidateAuthorize. destruct (clients !! _); [|done].
  destruct (_ || negb (redirectAllowed _ _)); [done|].
  assert (str_eqb (aq_response_type q) "code" = false) as -> by (repeat (apply elem_of_cons in Hq as [E|Hq]; [by rewrite E|]); by apply elem_of_nil in Hq).
  done.
Qed.

(** ** A concrete provider *)
Import RestSpec.Serving.
Definition lab_login : Server.Server unit unit DiscoveryDoc unit :=
  Server.New (fun _ => lab_core) Wiring.Wiring.lab_registry
    [Server.WithOIDC (Server.mkOidcApi unit unit DiscoveryDoc unit (mret (Discovery Oidc.Oidc.lab_cfg)) (mret tt) (fun _ _ => Wiring.Wiring.lab_refused)
       (fun _ _ _ => Wiring.Wiring.lab_refused) (fun _ => Wiring.Wiring.lab_refused) (fun _ => Wiring.Wiring.lab_refused)
       (fun _ _ _ => Wiring.Wiring.lab_refused) (fun _ => Wiring.Wiring.lab_refused))].
Lemma discovery_truthful_witness :
  endpoints (Discovery Oidc.Oidc.lab_cfg) !! 1%nat = Some ("POST", "https://ca.example/oidc/token")%string /\
  exists path, "https://ca.example/oidc/token"%string = ("https://ca.example" ++ path)%string /\
    Wiring.Wiring.at_ "POST" path ∈
      map Server.rt_pattern (Server.routes lab_login lab_parsers lab_form lab_basic lab_files lab_location lab_journal id).
Proof.
  split; [reflexivity|].
  destruct (discovery_truthful lab_login lab_parsers lab_form lab_basic lab_files lab_location lab_journal id
              (fun k : Z => k) (fun _ => 65537%Z) Oidc.Oidc.lab_cfg (Jws.Jws.mkSigner 3233%Z "k1" false)
              eq_refl ltac:(by vm_compute) ltac:(by vm_compute)) as [He _].
  apply (He "POST"%string). unfold endpoints. right. left.
Defined.
End Discovery.
