(* ===== verification/Ports.v ===== *)
(** * What stands behind the service's ports
    (internal/audit/adapter.go, internal/ocspcache/adapter.go and the counters of
    cache.go, internal/core/revocation.go: [writeTempCRL])

    The journal as the audit port, the answer cache as the port for OCSP with what
    its counters say beside concurrent lookups, and the temporary file through
    which the library reads a revocation list. *)
From S2P Require Import Prelude Errors CoreTypes Service Journal OcspCache Resolvers.
Open Scope Z_scope.

(** ** The audit port *)
Module Sink.
Section Sink.
  Variable sha256_hex : string -> string.
  Variable signer : option (Journal.Journal.Seal -> res goerr string).
Notation log := Journal.Journal.log.
Notation Append := (Journal.Journal.Append sha256_hex signer).

(** The actor stays empty. *)
Definition event_of (ev : AuditEvent) : Journal.Journal.Event :=
  Journal.Journal.mkEvent (ae_op ev) "" (ae_subject ev) (ae_signer ev) (ae_outcome ev) (ae_detail ev).

(** The journal and what was written to the service's own log. *)
Record sink := mkSink { sk_log : log; sk_report : list (string * goerr) }.
(** [Record] at a time, the write ending as it does. *)
Definition Record_ (ev : AuditEvent) (t : time) (o : Journal.Journal.io) (s : sink) : sink :=
  let '(l, r) := Append (event_of ev) t o (sk_log s) in
  mkSink l (match r with Ok _ => sk_report s | Err e => sk_report s ++ [(ae_op ev, e)] end).
(** [Close]: a writer that has failed reports it, the file is closed either way. *)
Definition Close (l : log) (closed : option goerr) : option goerr :=
  if Journal.Journal.lg_dead l then Some (New "write error") else closed.
Definition records (evs : list (AuditEvent * time)) (s : sink) : sink :=
  fold_left (fun s '(ev, t) => Record_ ev t Journal.Journal.IoOk s) evs s.

Lemma Append_err ev t l l' e : Append ev t Journal.Journal.IoOk l = (l', Err e) -> l' = l.
Proof.
  unfold Journal.Journal.Append. destruct signer as [sign|]; [destruct (sign _)|]; [| by intros [= <- _]|];
    (destruct (Journal.Journal.lg_dead l); [by intros [= <- _]|done]).
Qed.
Lemma records_run evs : forall s,
  Journal.Journal.run sha256_hex signer (sk_log s) -> Forall (fun p => Journal.Journal.event_ok (event_of (fst p))) evs ->
  Journal.Journal.run sha256_hex signer (sk_log (records evs s)) /\
  (length (Journal.Journal.lg_file (sk_log (records evs s))) + length (sk_report (records evs s)) =
    length evs + length (Journal.Journal.lg_file (sk_log s)) + length (sk_report s))%nat.
Proof.
  induction evs as [|[ev t] evs IH]; intros s Hs He; [done|].
  apply Forall_cons in He as [He Hes]. change (records ((ev, t) :: evs) s) with (records evs (Record_ ev t Journal.Journal.IoOk s)).
  unfold Record_. destruct (Append (event_of ev) t Journal.Journal.IoOk (sk_log s)) as [l' r] eqn:EA. destruct r as [e|e].
  - destruct (IH (mkSink l' (sk_report s))) as [H1 H2]; [by eapply Journal.Journal.RunAppend|done|]. split; [done|].
    rewrite H2. apply (Journal.Journal.Append_entry _ _ None) in EA as (_ & _ & -> & _); [|done]. cbn. rewrite length_app. cbn. lia.
  - apply Append_err in EA as ->. destruct (IH (mkSink (sk_log s) (sk_report s ++ [(ae_op ev, e)]))) as [H1 H2]; [done|done|].
    split; [done|]. rewrite H2. cbn. rewrite length_app. cbn. lia.
Qed.

(** Every event is an entry or an error in the service's log, and the events that
    could not be recorded leave no trace in the journal: it has no gap and
    verifies. *)
Theorem dropped_leave_no_gap check evs :
  (forall f e, check = Some f -> Journal.Journal.en_hash e = Journal.Journal.hashOf sha256_hex e ->
    (forall sign, signer = Some sign ->
       sign (Journal.Journal.mkSeal (Journal.Journal.en_seq e) (Journal.Journal.en_hash e)) = Ok (Journal.Journal.en_signature e)) ->
    f e = None) ->
  Forall (fun p => Journal.Journal.event_ok (event_of (fst p))) evs -> Z.of_nat (length evs) < 2 ^ 64 ->
  let s := records evs (mkSink (Journal.Journal.mkLog [] 0 Journal.Journal.genesisHash false) []) in
  let file := Journal.Journal.lg_file (sk_log s) in
  (length file + length (sk_report s) = length evs)%nat /\
  Journal.Journal.Verify sha256_hex check file None =
    Journal.Journal.mkVerify (Z.of_nat (length file)) 0 "" (Journal.Journal.lg_prev (sk_log s)) true.
Proof.
  intros Hc He Hn s file.
  destruct (records_run evs (mkSink (Journal.Journal.mkLog [] 0 Journal.Journal.genesisHash false) []) (Journal.Journal.RunNew _ _) He) as [Hr Hl].
  cbn in Hl. split; [subst file s; lia|].
  refine (proj1 (Journal.Journal.journal_verifies sha256_hex signer check Hc _ Hr _)). subst file s. lia.
Qed.
End Sink.
(** With a key that refuses to sign, nothing is recorded and the journal verifies. *)
Lemma dropped_leave_no_gap_witness :
  let refuse := Some (fun _ => Err (New "no key")) in
  let ev op := mkAuditEvent op "doc" "900101300123" "valid" "" in
  let s := records Journal.Journal.lab_sha refuse [(ev "sign"%string, 5); (ev "verify"%string, 7)]
    (mkSink (Journal.Journal.mkLog [] 0 Journal.Journal.genesisHash false) []) in
  length (sk_report s) = 2%nat /\
  Journal.Journal.Verify Journal.Journal.lab_sha None (Journal.Journal.lg_file (sk_log s)) None =
    Journal.Journal.mkVerify 0 0 "" Journal.Journal.genesisHash true.
Proof.
  intros refuse ev s. split; [vm_compute; reflexivity|].
  refine (proj2 (dropped_leave_no_gap Journal.Journal.lab_sha refuse None [(ev "sign"%string, 5); (ev "verify"%string, 7)] _ _ _)).
  - done.
  - repeat constructor.
  - vm_compute. reflexivity.
Defined.
End Sink.

(** ** The port for OCSP answers, with its counters
    A lookup answers under the cache's mutex and adds to the counters afterwards,
    each addition atomic, beside other lookups and stores. *)
Module OcspPort.
Import OcspCache.OcspCache.
Inductive counter := Hits | Misses | Stapled.
Record counters := mkCounters { cn_hits : Z; cn_misses : Z; cn_stapled : Z }.
Definition Add (k : counter) (c : counters) : counters :=
  match k with
  | Hits => mkCounters (Journal.Journal.u64 (cn_hits c + 1)) (cn_misses c) (cn_stapled c)
  | Misses => mkCounters (cn_hits c) (Journal.Journal.u64 (cn_misses c + 1)) (cn_stapled c)
  | Stapled => mkCounters (cn_hits c) (cn_misses c) (Journal.Journal.u64 (cn_stapled c + 1))
  end.
(** What a lookup with this answer still has to count. *)
Definition due (a : option OCSPAnswer) : list counter :=
  match a with None => [Misses] | Some v => Hits :: (if empty_str (oa_response v) then [] else [Stapled]) end.

Section Port.
  Variable cert_hash : string -> string.
  Variable cfg : Config.
(** [Adapter.Lookup] and [Adapter.Store]: the cache at its clock; the answer of
    the port has the fields of the cache's. *)
Record port := mkPort { po_cache : cache; po_counters : counters; po_pending : list (list counter); po_lookups : Z; po_found : Z }.
Definition Lookup_locked (cert responder : string) (t : time) (p : port) : port * option OCSPAnswer :=
  let '(c, a) := Lookup cert_hash cert responder t (po_cache p) in
  (mkPort c (po_counters p) (due a :: po_pending p) (po_lookups p + 1) (po_found p + match a with Some _ => 1 | None => 0 end), a).
Definition Store_port (cert responder : string) (v : OCSPAnswer) (t : time) (p : port) : port :=
  mkPort (Store cert_hash cfg cert responder v t (po_cache p)) (po_counters p) (po_pending p) (po_lookups p) (po_found p).
(** [Stats] and [Len]. *)
Definition Stats (p : port) : Z * Z := (cn_hits (po_counters p), cn_misses (po_counters p)).
Definition Len (p : port) : Z := Z.of_nat (size (entries (po_cache p))).
Inductive port_step : port -> port -> Prop :=
| PLookup p cert responder t : port_step p (fst (Lookup_locked cert responder t p))
| PStore p cert responder v t : port_step p (Store_port cert responder v t p)
| PCount p l1 k ks l2 : po_pending p = l1 ++ (k :: ks) :: l2 ->
    port_step p (mkPort (po_cache p) (Add k (po_counters p)) (l1 ++ ks :: l2) (po_lookups p) (po_found p)).
Definition fresh_port : port := mkPort empty_cache (mkCounters 0 0 0) [] 0 0.

Definition is_hits (k : counter) : bool := match k with Hits => true | _ => false end.
Definition is_misses (k : counter) : bool := match k with Misses => true | _ => false end.
Fixpoint owed (f : counter -> bool) (l : list (list counter)) : Z :=
  match l with [] => 0 | ks :: t => Z.of_nat (length (List.filter f ks)) + owed f t end.
(** Lookups that counted their hit and not yet its response. *)
Definition lone (ks : list counter) : Z := match ks with [Stapled] => 1 | _ => 0 end.
Fixpoint lone_all (l : list (list counter)) : Z := match l with [] => 0 | ks :: t => lone ks + lone_all t end.
Definition tail_of_due (ks : list counter) : Prop := exists a, ks `suffix_of` due a.
Lemma owed_app f l1 l2 : owed f (l1 ++ l2) = owed f l1 + owed f l2.
Proof. induction l1 as [|x l IH]; cbn [app owed]; lia. Qed.
Lemma owed_nonneg f l : 0 <= owed f l.
Proof. induction l as [|x l IH]; cbn [owed]; lia. Qed.
Lemma lone_app l1 l2 : lone_all (l1 ++ l2) = lone_all l1 + lone_all l2.
Proof. induction l1 as [|x l IH]; cbn [app lone_all]; lia. Qed.
Lemma lone_nonneg l : 0 <= lone_all l.
Proof. induction l as [|x l IH]; cbn [lone_all]; [lia|]. assert (0 <= lone x) by (destruct x as [|[] [|]]; cbn; lia). lia. Qed.
Lemma tail_cases ks : tail_of_due ks <-> ks = [] \/ ks = [Misses] \/ ks = [Hits] \/ ks = [Stapled] \/ ks = [Hits; Stapled].
Proof.
  split.
  - intros [a [pre E]]. unfold due in E. destruct a as [v|]; [destruct (empty_str (oa_response v))|];
      destruct pre as [|? [|? [|? pre]]]; cbn in E; try (injection E as E; try (injection E as E)); subst; try discriminate; auto 6;
      try (destruct pre; discriminate); repeat match goal with H : [] = _ |- _ => symmetry in H end; subst; auto 6;
      repeat match goal with H : _ ++ _ = [] |- _ => apply app_nil in H as [? ->] end; auto 6.
  - set (v r := mkOCSPAnswer false "" None None None None r).
    intros [->|[->|[->|[->| ->]]]].
    + exists None. by exists [Misses].
    + exists None. by exists [].
    + exists (Some (v "")). by exists [].
    + exists (Some (v "x"%string)). by exists [Hits].
    + exists (Some (v "x"%string)). by exists [].
Qed.
Record port_ok (p : port) : Prop := {
  po_range : 0 <= cn_hits (po_counters p) /\ 0 <= cn_misses (po_counters p) /\ 0 <= cn_stapled (po_counters p) /\ 0 <= po_found p <= po_lookups p;
  po_tails : Forall tail_of_due (po_pending p);
  po_hits : cn_hits (po_counters p) + owed is_hits (po_pending p) = po_found p;
  po_misses : cn_misses (po_counters p) + owed is_misses (po_pending p) = po_lookups p - po_found p;
  po_stapled : cn_stapled (po_counters p) + lone_all (po_pending p) <= cn_hits (po_counters p);
}.
Lemma due_lone a : lone (due a) = 0.
Proof. destruct a as [v|]; cbn; [by destruct (empty_str (oa_response v))|done]. Qed.
Lemma counted_ok p l1 k ks l2 : po_pending p = l1 ++ (k :: ks) :: l2 -> po_lookups p < 2 ^ 64 -> port_ok p ->
  port_ok (mkPort (po_cache p) (Add k (po_counters p)) (l1 ++ ks :: l2) (po_lookups p) (po_found p)).
Proof.
  intros E Hb [(Rh & Rm & Rs & Rf) Ht Hh Hm Hs]. rewrite E in Ht, Hh, Hm, Hs. rewrite !owed_app in Hh, Hm. rewrite lone_app in Hs.
  apply Forall_app in Ht as [T1 T2]. apply Forall_cons in T2 as [T T2]. apply tail_cases in T.
  pose proof (owed_nonneg is_hits l1). pose proof (owed_nonneg is_hits l2). pose proof (owed_nonneg is_misses l1). pose proof (owed_nonneg is_misses l2).
  pose proof (lone_nonneg l1). pose proof (lone_nonneg l2). destruct (po_counters p) as [h m st].
  assert (forall z, 0 <= z < 2 ^ 64 -> Journal.Journal.u64 z = z) as Hu by (intros; by apply Z.mod_small).
  destruct T as [T|[T|[T|[T|T]]]]; [discriminate|..]; injection T as -> ->; cbn in *;
    (split; cbn; [rewrite ?Hu by lia; lia| |rewrite ?owed_app, ?Hu by lia; cbn; lia|rewrite ?owed_app, ?Hu by lia; cbn; lia|rewrite ?lone_app, ?Hu by lia; cbn; lia]);
    apply Forall_app; (split; [done|]); apply Forall_cons; (split; [|done]); apply tail_cases; auto 6.
Qed.
Lemma port_steps_ok p q : port_step p q -> po_lookups p <= po_lookups q /\ (po_lookups q < 2 ^ 64 -> port_ok p -> port_ok q).
Proof.
  intros [p0 cert responder t|p0 cert responder v t|p0 l1 k ks l2 E].
  - unfold Lookup_locked. destruct (Lookup cert_hash cert responder t (po_cache p0)) as [c a]. cbn. split; [lia|].
    intros Hb [(Rh & Rm & Rs & Rf) Ht Hh Hm Hs]. split; cbn.
    + destruct a; lia.
    + apply Forall_cons. split; [by exists a|done].
    + destruct a as [v|]; cbn; [destruct (empty_str (oa_response v)); cbn; lia|lia].
    + destruct a as [v|]; cbn; [destruct (empty_str (oa_response v)); cbn; lia|lia].
    + pose proof (due_lone a). lia.
  - split; [cbn; lia|]. by intros _ [? ? ? ? ?].
  - split; [cbn; lia|]. intros Hb. by apply counted_ok.
Qed.
Lemma port_run_ok p : rtc port_step fresh_port p -> po_lookups p < 2 ^ 64 -> port_ok p.
Proof.
  intros Hr. refine (rtc_ind_r (fun p => po_lookups p < 2 ^ 64 -> port_ok p) _ _ _ p Hr).
  - intros _. split; cbn; try lia. done.
  - intros x y _ Hxy IH Hb. destruct (port_steps_ok x y Hxy) as [Hl Hk]. apply Hk; [done|]. apply IH. lia.
Qed.
(** However lookups and stores interleave, the statistics never claim more than
    was looked up, stapled answers are among the hits, and once no lookup is under
    way each has been counted once, as what it was. *)
Theorem ocsp_counts p : rtc port_step fresh_port p -> po_lookups p < 2 ^ 64 ->
  cn_stapled (po_counters p) <= fst (Stats p) /\ fst (Stats p) + snd (Stats p) <= po_lookups p /\
  (Forall (fun ks => ks = []) (po_pending p) -> Stats p = (po_found p, po_lookups p - po_found p)).
Proof.
  intros Hr Hb. destruct (port_run_ok p Hr Hb) as [R Ht Hh Hm Hs].
  pose proof (owed_nonneg is_hits (po_pending p)). pose proof (owed_nonneg is_misses (po_pending p)). pose proof (lone_nonneg (po_pending p)).
  unfold Stats. cbn [fst snd]. split_and!; [lia|lia|]. intros He.
  assert (forall f, owed f (po_pending p) = 0) as E.
  { intros f. clear -He. induction He as [|x l -> _ IH]; [done|]. by cbn [owed]. }
  rewrite E in Hh, Hm. f_equal; lia.
Qed.
End Port.
End OcspPort.

(** ** The temporary file of a revocation list *)
Module TempCRL.
Section TempCRL.
  Context {W : Type} `{SpoolLaws W}.
(** [writeTempCRL], the removal left to the caller. *)
Definition writeTempCRL (crl : string) : M W (res goerr string) :=
  (let* created := sp_create "" "kalkan-crl-*.crl" in
   match created with
   | Err e => mret (Err e)
   | Ok path =>
       let* written := sp_write path crl in
       match written with
       | Some e => let* _ := sp_close path in let* _ := sp_remove path in mret (Err e)
       | None =>
           let* closed := sp_close path in
           match closed with
           | Some e => let* _ := sp_remove path in mret (Err e)
           | None => mret (Ok path)
           end
       end
   end)%m.
Definition temp_files : temp_port W := mkTempPort _ writeTempCRL sp_remove.

(** A list that cannot be written leaves no file; one that is written is a new file
    that holds exactly the list and nothing else changes, and removing it restores
    what was there; both unless the removal fails, whose error is dropped. *)
Theorem temp_crl_clean crl w w' r : temp_create temp_files crl w = Done (w', r) ->
  match r with
  | Err _ => undone w w'
  | Ok path => only_file path w w' /\ sp_view w' !! path = Some crl /\
      forall w1 w2 u, sp_view w1 = sp_view w' -> temp_remove temp_files path w1 = Done (w2, u) -> undone w w2
  end.
Proof.
  cbn. unfold writeTempCRL. intros (w1 & created & H1 & H2)%mbind_done. destruct created as [path|e].
  - destruct (only_file_create _ _ _ _ _ H1) as [Ho Hv]. apply mbind_done in H2 as (w2 & written & H2 & H3).
    pose proof (only_file_write _ _ _ _ _ _ Ho H2) as Ho2. destruct written as [e|].
    + apply mbind_done in H3 as (w3 & c & H3 & H4). apply sp_close_law in H3. apply mbind_done in H4 as (w4 & u & H4 & H5).
      apply mret_done in H5 as [-> ->]. eapply only_file_remove; [|done]. by eapply only_file_same.
    + apply mbind_done in H3 as (w3 & c & H3 & H4). pose proof (sp_close_law _ _ _ _ H3) as Hc.
      pose proof (only_file_same _ _ _ _ Ho2 Hc) as Ho3. destruct c as [e|].
      * apply mbind_done in H4 as (w4 & u & H4 & H5). apply mret_done in H5 as [-> ->]. by eapply only_file_remove.
      * apply mret_done in H4 as [-> ->]. split; [done|]. split.
        -- apply sp_write_law in H2 as (t & Ht & Hd). rewrite Hc, Ht, lookup_insert_eq. f_equal. by rewrite (Hd eq_refl _ Hv).
        -- intros x1 x2 u Hx Hr. eapply only_file_remove; [|exact Hr]. by eapply only_file_same.
  - apply mret_done in H2 as [-> ->]. left; by apply sp_create_law in H1.
Qed.
End TempCRL.
End TempCRL.

(** ** The download of an authority's certificate (internal/trust/registry.go) *)
Module TrustFetch.
Section Fetch.
  Context {W : Type}.
  Variable valid_request : string -> bool.
  (** The request within a time: a response, or none. *)
  Variable http_get : duration -> string -> M W (option DataRef.http_response).
Definition maxCertBytes : Z := 2 ^ 20.
(** What [io.ReadAll] makes of the limited body. *)
Definition read_limited (n : Z) (r : DataRef.http_response) : option string :=
  if DataRef.hr_broken r && (Z.of_nat (String.length (DataRef.hr_body r)) <? n) then None else Some (limit_reader n (DataRef.hr_body r)).
Definition HTTPFetcher (timeout : duration) (url : string) : M W (option string) :=
  let timeout := if timeout <=? 0 then 10 * second else timeout in
  if negb (valid_request url) then mret None
  else
    (let* resp := http_get timeout url in
     mret (match resp with
           | None => None
           | Some r => if negb (DataRef.hr_status r =? 200) then None else read_limited maxCertBytes r
           end))%m.
Lemma limit_reader_bound n s : 0 <= n -> Z.of_nat (String.length (limit_reader n s)) <= n /\ exists t, s = (limit_reader n s ++ t)%string.
Proof.
  revert n. induction s as [|c s IH]; intros n Hn; cbn [limit_reader]; [split; [cbn; lia|by exists ""%string]|].
  destruct (Z.leb_spec n 0) as [Hle|Hgt]; [split; [cbn; lia|by exists (String c s)]|].
  destruct (IH (n - 1) ltac:(lia)) as [Hl [t Ht]]. split; [cbn [String.length]; lia|]. exists t. cbn [String.append]. by rewrite Ht at 1.
Qed.
(** What is fetched came with status 200, is at most a mebibyte, and is the start of
    the body; and the whole body when it is no larger. *)
Theorem fetched_bounded timeout url w w' body : HTTPFetcher timeout url w = Done (w', Some body) ->
  Z.of_nat (String.length body) <= maxCertBytes /\
  exists t r, 0 < t /\ http_get t url w = Done (w', Some r) /\ DataRef.hr_status r = 200 /\ exists rest, DataRef.hr_body r = (body ++ rest)%string.
Proof.
  unfold HTTPFetcher. destruct (negb (valid_request url)); [by intros [_ ?]%mret_done|].
  intros (w1 & resp & H1 & H2)%mbind_done. destruct resp as [r|]; [|by apply mret_done in H2 as [_ ?]].
  destruct (DataRef.hr_status r =? 200) eqn:E; [|by apply mret_done in H2 as [_ ?]]. apply mret_done in H2 as [-> H2]. unfold read_limited in H2.
  cbn [negb] in H2. destruct (DataRef.hr_broken r && _); [done|]. apply (inj Some) in H2 as ->. boolp.
  destruct (limit_reader_bound maxCertBytes (DataRef.hr_body r) ltac:(unfold maxCertBytes; lia)) as [Hl Ht]. split; [done|].
  eexists _, r. split; [|split; [exact H1|split; [done|exact Ht]]]. destruct (Z.leb_spec timeout 0); unfold second; lia.
Qed.
End Fetch.
End TrustFetch.
