(* ===== verification/Notify.v ===== *)
(** * Telling the outside (internal/jobs/manager.go: [fireWebhook];
    cmd/qoltanba/main.go: [jobWebhook], [qrWebhook], [logReport], [slogLevel])

    Which notifications a run of the job manager sends, over the steps of Jobs; how
    one is delivered; and what the service logs about the library it loaded. *)
From S2P Require Import Prelude Errors Provider CoreTypes Batch Jobs Open Compat.
Open Scope Z_scope.

(** ** One delivery *)
Module Webhook.
Section Deliver.
  Context {W V R : Type}.
  Variable encode : V -> res goerr string.
  Variable request : string -> option goerr.
  Variable post : string -> string -> M W (res goerr R).
  Variable close : R -> M W unit.
  Variable warn : string -> string -> goerr -> M W unit.
(** [jobWebhook] and [qrWebhook], with the name and the id for the log. *)
Definition deliver (name : string) (id : V -> string) (url : string) (v : V) : M W unit :=
  match encode v with
  | Err _ => mret tt
  | Ok body =>
      match request url with
      | Some e => warn (name ++ " webhook build failed") (id v) e
      | None =>
          (let* resp := post url body in
           match resp with
           | Err e => warn (name ++ " webhook delivery failed") (id v) e
           | Ok r => close r
           end)%m
      end
  end.
End Deliver.
(** What [deliver] does to a network that records what was posted: one request at
    most, whatever the answer, and its body is the view. *)
Section Once.
  Context {V R : Type}.
  Variable encode : V -> res goerr string.
  Variable request : string -> option goerr.
  Variable answer : list (string * string) -> res goerr R.
Definition posting (url body : string) : M (list (string * string)) (res goerr R) := fun sent =>
  Done (sent ++ [(url, body)], answer sent).
Lemma deliver_once name id url v sent : exists sent', deliver encode request posting (fun _ => mret tt) (fun _ _ _ => mret tt) name id url v sent = Done (sent', tt) /\
  (sent' = sent \/ exists body, encode v = Ok body /\ sent' = sent ++ [(url, body)]).
Proof.
  unfold deliver. destruct (encode v) as [body|e] eqn:E; [|eexists; split; [done|by left]].
  destruct (request url); [eexists; split; [done|by left]|]. cbn. unfold mbind_, posting.
  destruct (answer sent); (eexists; split; [done|]; right; by exists body).
Qed.
End Once.
End Webhook.

(** ** The notifications of a run *)
Module Notifications.
Import Jobs.Jobs.
(** [fireWebhook]: to whom and what, when webhooks are on. *)
Definition fireWebhook (on : bool) (j : Job) : list (string * View) :=
  if negb on || empty_str (jb_callback j) then [] else [(jb_callback j, view j)].

Section Runs.
  Variable cfg : Config.
  Variable validOp : string -> bool.
  Variable on : bool.
Notation step := (step cfg validOp).
(** A step that stores no outcome. *)
Definition quiet (s s' : system) : Prop := step s s' /\
  forall id j, m_store (s_manager s') !! id = Some j -> Terminal (jb_status j) = true -> m_store (s_manager s) !! id = Some j.
(** [run] and [Cancel] notify after the store has the outcome. *)
Inductive notified : system * list (string * View) -> system * list (string * View) -> Prop :=
| NoteFinish m l1 l2 j t r sent : interrupted r = false ->
    notified (mkSystem m (l1 ++ PExec j :: l2), sent)
      (mkSystem (with_store m (store_save (finished cfg t r j) (m_store m))) (l1 ++ l2), sent ++ fireWebhook on (finished cfg t r j))
| NoteCancel m l1 l2 j t sent :
    notified (mkSystem m (l1 ++ PCancel j :: l2), sent)
      (mkSystem (with_store m (store_save (canceled cfg t j) (m_store m))) (l1 ++ l2), sent ++ fireWebhook on (canceled cfg t j))
| NoteNothing s s' sent : quiet s s' -> notified (s, sent) (s', sent).
Lemma notified_step x y : notified x y -> step (fst x) (fst y).
Proof.
  intros [m l1 l2 j t r sent Hi|m l1 l2 j t sent|s s' sent [Hs _]]; cbn; [|by constructor|done].
  pose proof (StepFinish cfg validOp m l1 l2 j t r) as H. by rewrite Hi in H.
Qed.
Definition good_note (n : string * View) : Prop := exists j t,
  n = (jb_callback j, view j) /\ empty_str (jb_callback j) = false /\ Terminal (jb_status j) = true /\ jb_finished j = Some t /\
  jb_request j = ""%string.
Lemma fire_good j t : Terminal (jb_status j) = true -> jb_finished j = Some t -> jb_request j = ""%string ->
  Forall good_note (fireWebhook on j).
Proof.
  intros Ht Hf Hq. unfold fireWebhook. destruct (empty_str (jb_callback j)) eqn:E; [by rewrite orb_true_r|].
  destruct (negb on); cbn; [done|]. repeat constructor. by exists j, t.
Qed.
(** Every notification goes to the address of a job and shows how it ended: an end
    state and its time, and nothing of the request, which is gone by then. *)
Theorem notes_are_final x : rtc notified (system_init, []) x -> Forall good_note (snd x).
Proof.
  intros Hr. refine (rtc_ind_r (fun x => Forall good_note (snd x)) _ _ _ x Hr); [done|].
  clear. intros x y _ Hxy IH. destruct Hxy as [m l1 l2 j t r sent Hi|m l1 l2 j t sent|s s' sent _]; cbn in *; [..|done];
    apply Forall_app; (split; [done|]); apply (fire_good _ t); try done; unfold finished; by destruct r as [[?|]|?].
Qed.
End Runs.

(** ** Two notifications of one job
    A cancellation recorded while the job is executed is notified; the execution
    ends, overwrites it and is notified too. *)
Definition note_job : Job := new_job "j1" "sign" "{}" "https://client" 10.
Definition note_s0 : system := mkSystem (mkManager {["j1"%string := note_job]} ["j1"%string] [] ∅) [].
Definition note_run : Job := started 11 note_job.
Definition note_s1 : system := mkSystem (mkManager {["j1"%string := note_job]} [] [] ∅) [PStart note_job].
Definition note_s2 : system := mkSystem (mkManager {["j1"%string := note_run]} [] [] ∅) [PExec note_run].
Definition note_s3 : system := mkSystem (s_manager note_s2) [PCancel note_run; PExec note_run].
Definition note_s4 : system := mkSystem (with_store (s_manager note_s2) (store_save (canceled lab 12 note_run) (m_store (s_manager note_s2)))) [PExec note_run].
Definition note_s5 : system :=
  mkSystem (with_store (s_manager note_s4) (store_save (finished lab 13 (Ok (Some "out"%string)) note_run) (m_store (s_manager note_s4)))) [].
Lemma live_quiet s s' : step lab lab_valid s s' ->
  bool_decide (map_Forall (fun _ j => Terminal (jb_status j) = false) (m_store (s_manager s'))) = true -> quiet lab lab_valid s s'.
Proof.
  intros Hs Hl. split; [done|]. intros id j Hj Ht. apply bool_decide_eq_true in Hl. apply Hl in Hj. congruence.
Qed.
(** The caller is told that the job was cancelled and then that it succeeded. *)
Theorem told_twice : exists x,
  rtc (notified lab lab_valid true) (system_init, []) x /\
  map (fun n => (fst n, w_id (snd n), w_status (snd n))) (snd x) =
    [("https://client", "j1", StatusCanceled); ("https://client", "j1", StatusSucceeded)]%string.
Proof.
  eexists. split.
  - eapply rtc_l; [apply (NoteNothing _ _ _ system_init note_s0)|].
    { apply live_quiet; [|vm_compute; reflexivity].
      refine (StepSubmit lab lab_valid _ _ "sign" "{}" "https://client" "" "j1" 10 _ (Ok (view note_job)) _). vm_compute. reflexivity. }
    eapply rtc_l; [apply (NoteNothing _ _ _ note_s0 note_s1)|].
    { apply live_quiet; [|vm_compute; reflexivity]. by refine (StepPickup lab lab_valid (s_manager note_s0) [] "j1" [] _). }
    eapply rtc_l; [apply (NoteNothing _ _ _ note_s1 note_s2)|].
    { apply live_quiet; [|vm_compute; reflexivity]. refine (StepStart lab lab_valid (s_manager note_s1) [] [] note_job 11). }
    eapply rtc_l; [apply (NoteNothing _ _ _ note_s2 note_s3)|].
    { apply live_quiet; [|vm_compute; reflexivity]. by refine (StepCancelLoad lab lab_valid (s_manager note_s2) [PExec note_run] "j1" note_run _ _). }
    eapply rtc_l; [apply (NoteCancel lab lab_valid true (s_manager note_s2) [] [PExec note_run] note_run 12)|].
    eapply rtc_l; [by apply (NoteFinish lab lab_valid true (s_manager note_s4) [] [] note_run 13 (Ok (Some "out"%string)))|].
    apply rtc_refl.
  - vm_compute. reflexivity.
Qed.
End Notifications.

(** ** What the service logs about the library *)
Module ReportLog.
Import Compat.Compat.
Inductive Level := LevelDebug | LevelInfo | LevelWarn | LevelError.
Definition slogLevel (s : string) : Level :=
  if str_eqb s "debug" then LevelDebug else if str_eqb s "warn" then LevelWarn else if str_eqb s "error" then LevelError else LevelInfo.
Definition level_value (l : Level) : Z := match l with LevelDebug => -4 | LevelInfo => 0 | LevelWarn => 4 | LevelError => 8 end.
Record line := mkLine { ln_level : Level; ln_message : string; ln_attrs : list (string * string) }.
Definition level_of (st : Status) (fine : Level) : Level :=
  match st with StatusFail => LevelError | StatusWarn => LevelWarn | StatusPass => fine end.
(** [logReport]; the pool size and the outcome of the self-test are printed. *)
Definition check_lines (cs : list Check) : list line :=
  flat_map (fun c => match ck_status c with
    | StatusPass => []
    | st => [mkLine (match st with StatusFail => LevelError | _ => LevelWarn end) "compatibility check"
              [("name", ck_name c); ("status", status_text st); ("detail", ck_detail c)]]
    end)%string cs.
Definition logReport (r : Report) (p : Policy) : list line :=
  mkLine (level_of (Verdict r) LevelInfo) "library compatibility"
    [("verdict", VerdictString r); ("version", rp_version r); ("poolSize", dec_of_Z (rp_pool r));
     ("selfTest", if Open.Open.st_ok (rp_self r) then "true" else "false"); ("policy", policy_text p)]%string
  :: check_lines (rp_checks r).
(** The handler of [newLogger] writes a line at its level or above. *)
Definition shown (min : Level) (l : list line) : list line := List.filter (fun x => level_value min <=? level_value (ln_level x)) l.

Lemma shown_checks cs : map ln_attrs (shown LevelError (check_lines cs)) =
  map (fun c => [("name", ck_name c); ("status", "FAIL"); ("detail", ck_detail c)]%string) (List.filter (fun c => bool_decide (ck_status c = StatusFail)) cs).
Proof.
  induction cs as [|c cs IH]; [done|]. unfold shown in *. cbn [check_lines flat_map]. rewrite List.filter_app, map_app. fold (check_lines cs). rewrite IH.
  cbn [List.filter]. destruct (ck_status c) eqn:E; cbn; by rewrite ?E.
Qed.
(** A service that logs errors only shows nothing of a library that is usable, and
    of one that is not the verdict and every check that failed, in order. *)
Theorem errors_shown r p :
  (Compatible r = true -> shown LevelError (logReport r p) = []) /\
  (Compatible r = false -> exists v rest, shown LevelError (logReport r p) = v :: rest /\
     ln_attrs v !! 0%nat = Some ("verdict", "incompatible")%string /\ rest <> [] /\
     map ln_attrs rest = map (fun c => [("name", ck_name c); ("status", "FAIL"); ("detail", ck_detail c)]%string)
       (List.filter (fun c => bool_decide (ck_status c = StatusFail)) (rp_checks r))).
Proof.
  pose proof (verdict_fail (rp_checks r) StatusPass) as Hv. fold (Verdict r) in Hv.
  pose proof (shown_checks (rp_checks r)) as Hs. split; intros Hc; unfold Compatible in Hc; boolp.
  - assert (List.filter (fun c => bool_decide (ck_status c = StatusFail)) (rp_checks r) = []) as E.
    { destruct (List.filter _ _) as [|c l] eqn:E; [done|]. exfalso. assert (In c (c :: l)) as Hin by by left.
      rewrite <- E in Hin. apply filter_In in Hin as [Hin Hb]. apply bool_decide_eq_true in Hb. apply Hc, Hv. right. exists c.
      split; [by apply list_elem_of_In|done]. }
    rewrite E in Hs. apply map_eq_nil in Hs. unfold logReport, shown in *. cbn [List.filter ln_level]. rewrite Hs.
    by destruct (Verdict r).
  - unfold logReport, VerdictString. rewrite Hc. exists (mkLine LevelError "library compatibility"
      [("verdict", "incompatible"); ("version", rp_version r); ("poolSize", dec_of_Z (rp_pool r));
       ("selfTest", if Open.Open.st_ok (rp_self r) then "true" else "false"); ("policy", policy_text p)]%string), (shown LevelError (check_lines (rp_checks r))).
    split; [done|]. split; [done|]. split; [|done]. intros E. rewrite E in Hs. cbn in Hs. symmetry in Hs. apply map_eq_nil in Hs.
    apply Hv in Hc as [Hc|(c & Hin & Hf)]; [done|]. assert (In c []) as []. rewrite <- Hs. apply filter_In.
    split; [by apply list_elem_of_In|]. by apply bool_decide_eq_true.
Qed.
End ReportLog.
