(* ===== verification/Reapers.v ===== *)
(** * What keeps the stores from growing
    ([Start] of challenge/challenge.go, qr/orchestrator.go and the reaper of
    jobs/manager.go, under internal/)

    Each of these services runs a ticker whose interval comes from its
    configuration, and removes what has ended at each tick. A signing round has no
    reaper: it stays until it is cancelled. *)
From S2P Require Import Prelude Errors CoreTypes Stores Multisign Challenge Jobs Qr Discovery Bolt.
Open Scope Z_scope.

Module Reapers.

(** ** Stores that are reaped *)
Class Reaped (St V : Type) := {
  rp_reap : time -> St -> St * res goerr Z;
  rp_dead : time -> V -> bool;
}.
(** A store that stands for a map: reaping keeps what is not dead and counts what
    is removed, or fails and changes nothing. *)
Class ReapedLaws (St V : Type) `{Reaped St V} := {
  rp_stands : St -> gmap string V -> Prop;
  rp_law : forall t s m s' r, rp_stands s m -> rp_reap t s = (s', r) ->
    let kept := filter (fun p => rp_dead t (snd p) = false) m in
    match r with
    | Ok n => n = Z.of_nat (size m) - Z.of_nat (size kept) /\ rp_stands s' kept
    | Err _ => rp_stands s' m
    end;
}.

Definition challenge_dead (t : time) (c : Challenge.Challenge.Challenge) : bool := negb (after (Challenge.Challenge.ch_expires c) t).
Definition session_dead (t : time) (s : Qr.Qr.Session) : bool := negb (after (Qr.Qr.qs_expires s) t).
#[global] Instance challenges_reaped : Reaped (gmap string Challenge.Challenge.Challenge) Challenge.Challenge.Challenge :=
  {| rp_reap := Challenge.Challenge.mem_reap; rp_dead := challenge_dead |}.
#[global] Instance sessions_reaped : Reaped (gmap string Qr.Qr.Session) Qr.Qr.Session :=
  {| rp_reap := Qr.Qr.mem_reap; rp_dead := session_dead |}.
#[global] Instance jobs_reaped : Reaped (gmap string Jobs.Jobs.Job) Jobs.Jobs.Job :=
  {| rp_reap := fun t m => let '(m', n) := Jobs.Jobs.Reap t m in (m', Ok n); rp_dead := Jobs.Jobs.reapable |}.
Lemma filter_dead {V} (f g : V -> bool) (m : gmap string V) : (forall v, g v = negb (f v)) ->
  filter (fun p => f (snd p) = true) m = filter (fun p => g (snd p) = false) m.
Proof. intros E. apply map_filter_ext. intros k v _. cbn. rewrite E. by destruct (f v). Qed.
#[global] Instance challenges_reaped_laws : ReapedLaws (gmap string Challenge.Challenge.Challenge) Challenge.Challenge.Challenge.
Proof.
  refine {| rp_stands := eq |}. intros t s m s' r -> [= <- <-]. cbn. unfold challenge_dead.
  by rewrite (filter_dead (fun c => after (Challenge.Challenge.ch_expires c) t) (fun c => negb (after (Challenge.Challenge.ch_expires c) t))).
Defined.
#[global] Instance sessions_reaped_laws : ReapedLaws (gmap string Qr.Qr.Session) Qr.Qr.Session.
Proof.
  refine {| rp_stands := eq |}. intros t s m s' r -> [= <- <-]. cbn. unfold session_dead.
  by rewrite (filter_dead (fun c => after (Qr.Qr.qs_expires c) t) (fun c => negb (after (Qr.Qr.qs_expires c) t))).
Defined.
#[global] Instance jobs_reaped_laws : ReapedLaws (gmap string Jobs.Jobs.Job) Jobs.Jobs.Job.
Proof. refine {| rp_stands := eq |}. by intros t s m s' r -> [= <- <-]. Defined.

(** The durable stores. *)
Section Durable.
  Context {B : Type} `{BoltLaws B}.
#[global] Instance jobs_bolt_reaped `{Codec Jobs.Jobs.Job} : Reaped B Jobs.Jobs.Job :=
  {| rp_reap := Bolt.Bolt.jobs_reap; rp_dead := Jobs.Jobs.reapable |}.
#[global] Instance jobs_bolt_reaped_laws `{Codec Jobs.Jobs.Job} : ReapedLaws B Jobs.Jobs.Job.
Proof.
  refine {| rp_stands := Bolt.Bolt.represents |}. intros t s m s' r R E.
  by destruct (Bolt.Bolt.jobs_reap_represents t s m s' r R E) as [[-> R']|(e & -> & _ & R')].
Defined.
#[global] Instance challenges_bolt_reaped `{Codec Challenge.Challenge.Challenge} : Reaped B Challenge.Challenge.Challenge :=
  {| rp_reap := Challenge.Challenge.cs_reap (ChallengeStore := Bolt.Bolt.ChallengeBolt); rp_dead := challenge_dead |}.
#[global] Instance challenges_bolt_reaped_laws `{Codec Challenge.Challenge.Challenge} : ReapedLaws B Challenge.Challenge.Challenge.
Proof.
  refine {| rp_stands := Bolt.Bolt.represents |}. intros t s m s' r R E.
  by destruct (Bolt.Bolt.reap_represents _ s m s' r R E) as [[-> R']|(e & -> & _ & R')].
Defined.
#[global] Instance sessions_bolt_reaped `{Codec Qr.Qr.Session} : Reaped B Qr.Qr.Session :=
  {| rp_reap := Qr.Qr.ss_reap (SessionStore := Bolt.Bolt.QrBolt); rp_dead := session_dead |}.
#[global] Instance sessions_bolt_reaped_laws `{Codec Qr.Qr.Session} : ReapedLaws B Qr.Qr.Session.
Proof.
  refine {| rp_stands := Bolt.Bolt.represents |}. intros t s m s' r R E.
  by destruct (Bolt.Bolt.reap_represents _ s m s' r R E) as [[-> R']|(e & -> & _ & R')].
Defined.
End Durable.

Section Ticks.
  Context {St V : Type} `{ReapedLaws St V}.
(** The reaper: the ticks, each at its time, until the context ends. *)
Definition Start (ticks : list time) (s : St) : St := fold_left (fun s t => fst (rp_reap t s)) ticks s.

(** While the reaper alone runs nothing is lost that was alive at every tick, and
    what stays was there before. *)
Lemma ticks_keep ticks : forall s m, rp_stands s m ->
  exists m', rp_stands (Start ticks s) m' /\ m' ⊆ m /\
    forall k v, m !! k = Some v -> (forall t, t ∈ ticks -> rp_dead t v = false) -> m' !! k = Some v.
Proof.
  induction ticks as [|t ticks IH]; intros s m Hs; [by exists m|].
  cbn [Start fold_left]. destruct (rp_reap t s) as [s1 r] eqn:E. pose proof (rp_law t s m s1 r Hs E) as L. cbn in L.
  assert (exists m1, rp_stands s1 m1 /\ m1 ⊆ m /\ forall k v, m !! k = Some v -> rp_dead t v = false -> m1 !! k = Some v) as (m1 & H1 & H2 & H3).
  { destruct r as [n|e]; [|by exists m]. destruct L as [_ L]. eexists. split; [exact L|]. split; [apply map_filter_subseteq|].
    intros k v Hv Hd. by apply map_lookup_filter_Some. }
  destruct (IH s1 m1 H1) as (m' & Hm & Hsub & Hk). exists m'. split; [exact Hm|]. split; [by trans m1|].
  intros k v Hv Hd. apply Hk; [apply H3; [done|]; apply Hd; by left|]. intros t' Ht. apply Hd. by right.
Qed.
(** A tick that succeeds leaves nothing that is over at its time. *)
Lemma tick_clears t s m s' n : rp_stands s m -> rp_reap t s = (s', Ok n) ->
  exists m', rp_stands s' m' /\ 0 <= n /\ Z.of_nat (size m') = Z.of_nat (size m) - n /\ forall k v, m' !! k = Some v -> rp_dead t v = false.
Proof.
  intros Hs E. destruct (rp_law t s m s' _ Hs E) as [-> L]. eexists. split; [exact L|].
  assert (size (filter (fun p => rp_dead t (snd p) = false) m) <= size m)%nat by (apply map_subseteq_size, map_filter_subseteq).
  split; [lia|]. split; [lia|]. by intros k v [_ Hd]%map_lookup_filter_Some.
Qed.
End Ticks.

(** ** The intervals *)
Definition challenge_interval (c : Challenge.Challenge.Config) : duration :=
  let interval := Challenge.Challenge.effective_ttl c in if minute <? interval then minute else interval.
(** Whatever is configured no ticker panics, and what is left to the default is
    looked at within a minute, jobs within five, and within its own lifetime. *)
Theorem intervals_tick :
  (forall c, Discovery.Discovery.ticker (challenge_interval c) = Done (challenge_interval c) /\
     challenge_interval c <= minute /\ challenge_interval c <= Challenge.Challenge.effective_ttl c) /\
  (forall c, Discovery.Discovery.ticker (Qr.Qr.qc_reap (Qr.Qr.withDefaults c)) = Done (Qr.Qr.qc_reap (Qr.Qr.withDefaults c)) /\
     (Qr.Qr.qc_reap c <= 0 -> Qr.Qr.qc_reap (Qr.Qr.withDefaults c) <= Z.min minute (Qr.Qr.qc_ttl (Qr.Qr.withDefaults c)))) /\
  (forall c, Discovery.Discovery.ticker (Jobs.Jobs.cf_reap (Jobs.Jobs.withDefaults c)) = Done (Jobs.Jobs.cf_reap (Jobs.Jobs.withDefaults c)) /\
     (Jobs.Jobs.cf_reap c <= 0 -> Jobs.Jobs.cf_reap (Jobs.Jobs.withDefaults c) <= Z.min (5 * minute) (Jobs.Jobs.cf_ttl (Jobs.Jobs.withDefaults c)))).
Proof.
  split_and!; intros c;
    unfold Discovery.Discovery.ticker, challenge_interval, Challenge.Challenge.effective_ttl, Challenge.Challenge.defaultTTL, Qr.Qr.withDefaults, Jobs.Jobs.withDefaults;
    cbn [Qr.Qr.qc_reap Qr.Qr.qc_ttl Jobs.Jobs.cf_reap Jobs.Jobs.cf_ttl];
    repeat match goal with |- context [if ?b then _ else _] => destruct b eqn:?; boolp end; split_and!;
    try (intros; unfold minute, hour, second in *; lia); try done; exfalso; unfold minute, hour, second in *; lia.
Qed.

(** ** Signing rounds *)
Section Rounds.
  Import Multisign.Multisign.
  Context {W St : Type} `{StoreLaws St Session}.
  Variable verifier : VerifyInput -> M W (VerifyOutput * option goerr).
  Variable now : W -> time.
  Variable randID : M W (res goerr string).
  Variable cfg_ttl : duration.
Inductive call := CallCreate (q : CreateRequest) | CallGet (id : string) | CallSubmit (id container : string).
Definition serve (c : call) : M (W * St) (res goerr Session) :=
  match c with
  | CallCreate q => Create verifier now randID cfg_ttl q
  | CallGet id => Get now id
  | CallSubmit id container => Submit verifier now id container
  end.
(** The calls of a service, the clock moving on between them. *)
Inductive served : W * St -> W * St -> Prop :=
| ServedCall c x y r : serve c x = Done (y, r) -> served x y
| ServedTime w w' st : served (w, st) (w', st).
Definition holds (k : string) (st : St) : Prop := is_Some (st_view st !! k).
Lemma holds_insert k k' (v : Session) (m : gmap string Session) : is_Some (m !! k) -> is_Some (<[k' := v]> m !! k).
Proof. intros Hk. destruct (decide (k' = k)) as [->|Hn]; [rewrite lookup_insert_eq; by eexists|by rewrite lookup_insert_ne]. Qed.
Lemma save_holds k id s st st' o : holds k st -> st_save id s st = (st', o) -> holds k st'.
Proof. intros Hk E. unfold holds. destruct o as [e|]; [by rewrite (st_save_err _ _ _ _ _ E)|]. destruct (st_save_ok _ _ _ _ E) as [-> _]. by apply holds_insert. Qed.
Lemma create_holds k id s st st' o : holds k st -> st_create id s st = (st', o) -> holds k st'.
Proof. intros Hk E. unfold holds. destruct o as [e|]; [by rewrite (st_create_err _ _ _ _ _ E)|]. rewrite (st_create_ok _ _ _ _ E). by apply holds_insert. Qed.
Lemma Get_holds k id w st w' st' r : holds k st -> Get now id (w, st) = Done ((w', st'), r) -> holds k st'.
Proof.
  intros Hk ([w1 st1] & got & [-> [= <- <-]]%in_store_done & H2)%mbind_done.
  destruct (st_get id st) as [s|e]; [|apply mret_done in H2 as [[= -> ->] ->]; done].
  apply mbind_done in H2 as (w2 & t & [= <- <-] & H2).
  destruct (_ && _); [|apply mret_done in H2 as [[= -> ->] ->]; done].
  apply mbind_done in H2 as ([w3 st3] & o & [-> Hsv]%in_store_done & [[= -> ->] ->]%mret_done). by eapply save_holds.
Qed.
Lemma finish_holds k s container w st w' st' r : holds k st -> submit_finish verifier now s container (w, st) = Done ((w', st'), r) -> holds k st'.
Proof.
  intros Hk ([w1 st1] & signers & [-> _]%in_world_done & H2)%mbind_done.
  destruct signers as [l|e]; [|by apply mret_done in H2 as [[= -> ->] ->]].
  apply mbind_done in H2 as ([w2 st2] & t & [= <- <- <-] & H2).
  destruct (accept s container l _) as [s'|e]; [|by apply mret_done in H2 as [[= -> ->] ->]].
  apply mbind_done in H2 as ([w3 st3] & o & [-> Hsv]%in_store_done & [[= -> ->] _]%mret_done). by eapply save_holds.
Qed.
Lemma Create_holds k q w st w' st' r : holds k st -> Create verifier now randID cfg_ttl q (w, st) = Done ((w', st'), r) -> holds k st'.
Proof.
  unfold Create. intros Hk HC. destruct (check_request q) as [f|e]; [|by apply mret_done in HC as [[= -> ->] _]].
  apply mbind_done in HC as ([w1 st1] & id & [-> _]%in_world_done & HC).
  destruct id as [id|e]; [|by apply mret_done in HC as [[= -> ->] _]].
  apply mbind_done in HC as ([w2 st2] & t & [= <- <- <-] & HC).
  apply mbind_done in HC as ([w3 st3] & x & HS & HC).
  assert (st3 = st) as ->.
  { destruct (empty_str (cq_container q)); [by apply mret_done in HS as [[= _ ->] _]|].
    apply mbind_done in HS as ([w4 st4] & y & [-> _]%in_world_done & HS). by apply mret_done in HS as [[= _ ->] _]. }
  destruct x as [s|e]; [|by apply mret_done in HC as [[= -> ->] _]].
  apply mbind_done in HC as ([w4 st4] & o & [-> Hc]%in_store_done & [[= -> ->] _]%mret_done). by eapply create_holds.
Qed.
(** Whatever is called and however late, a round that is in the store stays in it:
    only a cancellation removes one, though it expired long ago. *)
Theorem rounds_stay k x y : rtc served x y -> holds k (snd x) -> holds k (snd y).
Proof.
  induction 1 as [|x y z Hxy _ IH]; [done|]. intros Hk. apply IH. destruct Hxy as [c [w st] [w' st'] r E|]; [|done].
  cbn [snd] in *. destruct c as [q|id|id container]; cbn [serve] in E.
  - by eapply Create_holds.
  - by eapply Get_holds.
  - apply mbind_done in E as ([w1 st1] & loaded & HL & E). apply mbind_done in HL as ([w2 st2] & got & HG & [[= -> ->] _]%mret_done).
    apply Get_holds with (k := k) in HG; [|done]. destruct loaded as [s|e]; [exact (finish_holds _ _ _ _ _ _ _ _ HG E)|by apply mret_done in E as [[= _ ->] _]].
Qed.
End Rounds.

(** ** Starting the job manager
    What [Manager.Start] launches: the workers, the reaper of this file and the
    feeder of the recovered jobs. [sync.Once] runs it once. *)
Module Manager.
Import Jobs.Jobs.
Inductive goroutine := Worker | Reaper (interval : duration) | Requeue (ids : list string).
Record started_by := mkStarted { sb_done : bool; sb_running : list goroutine }.
Definition Start_manager (cfg : Config) (recover : res goerr (list string)) (s : started_by) : started_by * option goerr :=
  if sb_done s then (s, None)
  else
    match recover with
    | Err e => (mkStarted true (sb_running s), Some e)
    | Ok ids =>
        (mkStarted true (sb_running s ++ repeat Worker (Z.to_nat (cf_workers cfg)) ++ [Reaper (cf_reap cfg)] ++
           match ids with [] => [] | _ => [Requeue ids] end), None)
    end.
Definition is_worker (g : goroutine) : bool := match g with Worker => true | _ => false end.
(** A manager that has started has its workers, at least one, one reaper, and hands
    every recovered job to its feeder; starting it again changes nothing. *)
Theorem started_once c ids s : Start_manager (withDefaults c) (Ok ids) (mkStarted false []) = (s, None) ->
  Z.of_nat (length (List.filter is_worker (sb_running s))) = Z.max 1 (cf_workers c) /\
  Reaper (cf_reap (withDefaults c)) ∈ sb_running s /\ (ids <> [] -> Requeue ids ∈ sb_running s) /\
  forall recover, Start_manager (withDefaults c) recover s = (s, None).
Proof.
  intros [= <-]. cbn [sb_running sb_done app].
  assert (forall n l, length (List.filter is_worker (repeat Worker n ++ l)) = (n + length (List.filter is_worker l))%nat) as Hf
    by (intros n l; induction n as [|n IH]; cbn; congruence).
  split; [|split; [|split; [|done]]].
  - rewrite Hf. assert (forall d, length (List.filter is_worker (Reaper d :: match ids with [] => [] | _ => [Requeue ids] end)) = 0%nat)
      as E by by destruct ids. rewrite E. destruct (Z.ltb_spec (cf_workers c) 1); lia.
  - apply elem_of_app. right. by left.
  - intros Hi. apply elem_of_app. right. right. destruct ids; [done|]. by left.
Qed.
(** After a start that failed the next one answers that all is well, with nothing
    running. *)
Lemma failed_start_forgotten c e : let (s, err) := Start_manager c (Err e) (mkStarted false []) in
  err = Some e /\ forall recover, Start_manager c recover s = (mkStarted true [], None).
Proof. done. Qed.
End Manager.
End Reapers.
