(* ===== verification/Child.v ===== *)
(** * A child process of the crypto worker
    (internal/cryptoworker/client.go: [startProcess], [kill], [processRSSBytes])

    The operations Worker takes as parameters: a child and its two pipes, with the
    handles that are open, and the reading of its resident size. *)
From S2P Require Import Prelude Errors Text Strconv CertParse Worker.
Open Scope Z_scope.

Module Child.

(** ** The child and its pipes *)
Section Process.
  Context {W : Type}.
  (** A new pipe, a new child of the command; closing a pipe; killing and waiting. *)
  Variable stdin_pipe stdout_pipe : M W (res goerr Z).
  Variable start : string -> list string -> M W (res goerr Z).
  Variable close_pipe kill_child wait_child : Z -> M W unit.
(** The world with the pipes and the children the supervisor holds. *)
Record held := mkHeld { hd_pipes : gset Z; hd_children : gset Z }.
Definition with_pipes (f : gset Z -> gset Z) (h : held) : held := mkHeld (f (hd_pipes h)) (hd_children h).
Definition with_children (f : gset Z -> gset Z) (h : held) : held := mkHeld (hd_pipes h) (f (hd_children h)).
Notation A := (M (W * held)).
Definition open_pipe (new : M W (res goerr Z)) : A (res goerr Z) :=
  (let* r := in_world new in
   match r with
   | Err e => mret (Err e)
   | Ok n => let* _ := in_store (fun h => (with_pipes (fun s => {[n]} ∪ s) h, tt)) in mret (Ok n)
   end)%m.
Definition Close (n : Z) : A unit :=
  (let* _ := in_world (close_pipe n) in in_store (fun h => (with_pipes (fun s => s ∖ {[n]}) h, tt)))%m.

Record process := mkProcess { pr_pid : Z; pr_stdin : Z; pr_stdout : Z }.
(** [startProcess]: the command is not empty. *)
Definition startProcess (cmd : string) (args : list string) : A (res goerr process) :=
  (let* i := open_pipe stdin_pipe in
   match i with
   | Err e => mret (Err (Wrap "cryptoworker: stdin pipe: " e))
   | Ok i =>
       let* o := open_pipe stdout_pipe in
       match o with
       | Err e => let* _ := Close i in mret (Err (Wrap "cryptoworker: stdout pipe: " e))
       | Ok o =>
           let* r := in_world (start cmd args) in
           match r with
           | Err e => let* _ := Close i in let* _ := Close o in mret (Err (Wrap "cryptoworker: start child: " e))
           | Ok pid =>
               let* _ := in_store (fun h => (with_children (fun s => {[pid]} ∪ s) h, tt)) in
               mret (Ok (mkProcess pid i o))
           end
       end
   end)%m.
(** [kill]. *)
Definition kill (p : process) : A unit :=
  (let* _ := in_world (kill_child (pr_pid p)) in
   let* _ := Close (pr_stdin p) in
   let* _ := Close (pr_stdout p) in
   let* _ := in_world (wait_child (pr_pid p)) in
   in_store (fun h => (with_children (fun s => s ∖ {[pr_pid p]}) h, tt)))%m.

Lemma open_pipe_done new w h w' h' r : open_pipe new (w, h) = Done ((w', h'), r) ->
  new w = Done (w', r) /\ h' = match r with Ok n => with_pipes (fun s => {[n]} ∪ s) h | Err _ => h end.
Proof.
  unfold open_pipe, in_world, in_store, mbind_, mret. destruct (new w) as [[w1 [n|e]]|]; [..|done]; by intros [= <- <- <-].
Qed.
Lemma Close_done n w h w' h' u : Close n (w, h) = Done ((w', h'), u) -> h' = with_pipes (fun s => s ∖ {[n]}) h.
Proof. unfold Close, in_world, in_store, mbind_. destruct (close_pipe n w) as [[w1 []]|]; [|done]. by intros [= _ <- _]. Qed.

(** The pipes and the child the system hands out are not in use. *)
Definition fresh (h : held) (p : process) : Prop :=
  pr_stdin p ∉ hd_pipes h /\ pr_stdout p ∉ hd_pipes h /\ pr_stdin p <> pr_stdout p /\ pr_pid p ∉ hd_children h.
Definition new_pipes (h : held) : Prop := forall w w1 n, stdin_pipe w = Done (w1, Ok n) -> n ∉ hd_pipes h /\
  forall w2 w3 m, stdout_pipe w2 = Done (w3, Ok m) -> m ∉ {[n]} ∪ hd_pipes h.
(** A child that does not start leaves no pipe open; one that does holds two pipes,
    and killing it gives back everything. *)
Theorem child_holds_nothing_after cmd args w h w' h' r : new_pipes h ->
  (forall w1 w2 pid, start cmd args w1 = Done (w2, Ok pid) -> pid ∉ hd_children h) ->
  startProcess cmd args (w, h) = Done ((w', h'), r) ->
  match r with
  | Err _ => h' = h
  | Ok p => fresh h p /\ hd_pipes h' = {[pr_stdin p; pr_stdout p]} ∪ hd_pipes h /\ hd_children h' = {[pr_pid p]} ∪ hd_children h /\
      forall w1 w2 h2 u, kill p (w1, h') = Done ((w2, h2), u) -> h2 = h
  end.
Proof.
  intros Hp Hs ([w1 h1] & i & [Ei ->]%open_pipe_done & H1)%mbind_done. destruct i as [i|e]; [|by apply mret_done in H1 as [[= _ ->] ->]].
  destruct (Hp _ _ _ Ei) as [Hi Ho].
  apply mbind_done in H1 as ([w2 h2] & o & [Eo ->]%open_pipe_done & H2). destruct h as [ps cs]. cbn in *. destruct o as [o|e].
  2:{ apply mbind_done in H2 as ([w3 h3] & u & ->%Close_done & [[= _ ->] ->]%mret_done). unfold with_pipes. cbn. f_equal. set_solver. }
  specialize (Ho _ _ _ Eo). apply mbind_done in H2 as ([w3 h3] & pid & [-> Es]%in_world_done & H3). destruct pid as [pid|e].
  2:{ apply mbind_done in H3 as ([w4 h4] & u & ->%Close_done & H4). apply mbind_done in H4 as ([w5 h5] & u' & ->%Close_done & [[= _ ->] ->]%mret_done).
      unfold with_pipes. cbn. f_equal. set_solver. }
  specialize (Hs _ _ _ Es). apply mbind_done in H3 as ([w4 h4] & u & [-> [= <- _]]%in_store_done & [[= _ ->] ->]%mret_done).
  unfold fresh. cbn. split; [set_solver|]. split; [set_solver|]. split; [done|]. intros x1 x2 h2 u2 HK.
  apply mbind_done in HK as ([y1 g1] & u3 & [-> _]%in_world_done & HK). apply mbind_done in HK as ([y2 g2] & u4 & ->%Close_done & HK).
  apply mbind_done in HK as ([y3 g3] & u5 & ->%Close_done & HK). apply mbind_done in HK as ([y4 g4] & u6 & [-> _]%in_world_done & HK).
  apply in_store_done in HK as [_ [= <- _]]. unfold with_pipes, with_children. cbn. f_equal; set_solver.
Qed.
End Process.

(** ** Its resident size *)
Section Rss.
  Context {W : Type}.
  Variable read_file : string -> M W (res goerr string).
  Variable page_size : Z.
(** What a statm says, in bytes. *)
Definition statm_rss (data : string) : option Z :=
  match fields data "" with
  | _ :: resident :: _ => let (pages, ok) := Atoi resident in if ok then Some (wrap64 (pages * page_size)) else None
  | _ => None
  end.
Definition processRSSBytes (pid : Z) : M W (option Z) :=
  (let* r := read_file ("/proc/" ++ dec_of_Z pid ++ "/statm") in
   mret (match r with Ok data => statm_rss data | Err _ => None end))%m.

Lemma digits_dec f : forall z acc, 0 <= z < 10 ^ Z.of_nat f -> digits_loop (dec_loop f z acc) 0 = digits_loop acc z.
Proof.
  assert (forall z a acc, 0 <= z < 10 -> digits_loop (String (digit z) acc) a = digits_loop acc (10 * a + z)) as Hd.
  { intros z a acc Hz. cbn [digits_loop]. assert (digit_of (digit z) = Some z) as ->; [|done].
    assert (z = 0 \/ z = 1 \/ z = 2 \/ z = 3 \/ z = 4 \/ z = 5 \/ z = 6 \/ z = 7 \/ z = 8 \/ z = 9) as Hc by lia.
    by repeat destruct Hc as [->|Hc]; [..|subst z]. }
  induction f as [|f IH]; intros z acc Hz; [cbn in *; by replace z with 0 by lia|].
  cbn [dec_loop]. pose proof (Z.mod_pos_bound z 10 ltac:(lia)). destruct (Z.ltb_spec z 10) as [Hlt|Hge].
  - rewrite Hd by lia. f_equal. rewrite Z.mod_small; lia.
  - rewrite IH.
    + rewrite Hd by lia. f_equal. pose proof (Z.div_mod z 10). lia.
    + rewrite Nat2Z.inj_succ, Z.pow_succ_r in Hz by lia. split; [apply Z.div_pos; lia|apply Z.div_lt_upper_bound; lia].
Qed.
Lemma dec_loop_cons f : forall z c t, exists c' t', dec_loop f z (String c t) = String c' t'.
Proof. induction f as [|f IH]; intros z c t; cbn [dec_loop]; [by eexists _, _|]. destruct (z <? 10); [by eexists _, _|apply IH]. Qed.
Lemma digit_of_class c d : digit_of c = Some d -> is_space c = false /\ c <> "-"%char /\ c <> "+"%char.
Proof. destruct c as [[] [] [] [] [] [] [] []]; done. Qed.
Lemma Atoi_dec n : 0 <= n < 2 ^ 63 -> Atoi (dec_of_Z n) = (n, true).
Proof.
  intros Hn. unfold dec_of_Z. destruct (Z.ltb_spec n 0); [lia|]. pose proof (digits_dec 40 n "" ltac:(lia)) as Hd. cbn [digits_loop] in Hd.
  assert (exists c t, dec_loop 40 n "" = String c t) as (c & t & E).
  { change (dec_loop 40 n "") with (if n <? 10 then String (digit (n mod 10)) "" else dec_loop 39 (n / 10) (String (digit (n mod 10)) "")).
    destruct (n <? 10); [by eexists _, _|]. apply dec_loop_cons. }
  rewrite E in *. cbn [digits_loop] in Hd. destruct (digit_of c) as [d|] eqn:Ec; [|done].
  pose proof (digit_of_class c d Ec) as (_ & Hm & Hp). unfold Atoi.
  assert ((match String c t with String "-" t0 => (true, t0) | String "+" t0 => (false, t0) | _ => (false, String c t) end) = (false, String c t)) as ->
    by (destruct c as [[] [] [] [] [] [] [] []]; done).
  cbn [digits_loop]. rewrite Ec, Hd. destruct (Z.ltb_spec n (- 2 ^ 63)); [lia|]. destruct (Z.ltb_spec (2 ^ 63 - 1) n); [lia|done].
Qed.
Lemma fields_digits s r : forall x n acc, digits_loop s x = Some n -> fields (s ++ r)%string acc = fields r (acc ++ s)%string.
Proof.
  induction s as [|c s IH]; intros x n acc; [by rewrite Asn1.app_nil_s|]. cbn [digits_loop]. destruct (digit_of c) as [d|] eqn:Ec; [|done].
  intros Hd. change (String c s ++ r)%string with (String c (s ++ r)). cbn [fields]. destruct (digit_of_class c d Ec) as (-> & _). rewrite (IH _ _ _ Hd). f_equal. by rewrite Asn1.app_assoc_s.
Qed.
(** What the kernel writes, the two counts and whatever follows, reads as the
    resident pages times the page size. *)
Theorem statm_reads total resident rest : 0 <= total < 2 ^ 63 -> 0 <= resident < 2 ^ 63 -> 0 <= resident * page_size < 2 ^ 63 ->
  statm_rss (dec_of_Z total ++ " " ++ dec_of_Z resident ++ " " ++ rest)%string = Some (resident * page_size).
Proof.
  intros Ht Hr Hb. unfold statm_rss.
  assert (forall n acc r, 0 <= n < 2 ^ 63 -> fields (dec_of_Z n ++ r) acc = fields r (acc ++ dec_of_Z n))%string as Hf.
  { intros n acc r Hn. apply (fields_digits _ _ 0 n). unfold dec_of_Z. destruct (Z.ltb_spec n 0); [lia|].
    rewrite (digits_dec 40 n "") by lia. done. }
  assert (forall n, 0 <= n < 2 ^ 63 -> empty_str (dec_of_Z n) = false) as He.
  { intros n Hn. pose proof (Atoi_dec n Hn) as HA. destruct (dec_of_Z n) eqn:E; [|done]. by vm_compute in HA. }
  assert (forall r acc, fields (" " ++ r) acc = if empty_str acc then fields r "" else acc :: fields r "")%string as Hs by done.
  rewrite Hf, Hs by done. change ("" ++ dec_of_Z total)%string with (dec_of_Z total). rewrite (He total), Hf, Hs by done.
  change ("" ++ dec_of_Z resident)%string with (dec_of_Z resident). rewrite (He resident) by done.
  rewrite Atoi_dec by done. f_equal. unfold wrap64. rewrite Z.mod_small; lia.
Qed.
End Rss.
End Child.
