(* ===== verification/PoolRuns.v ===== *)
(** * The pool of library instances at work
    (internal/native/pool.go: [newPool], [submit], [Close], [Stats]; worker.go:
    [run])

    Native runs one submitted job on the instance that takes it. Here the callers,
    the workers and a shutdown interleave: the hand-over on the unbuffered queue,
    the answer through the job's own channel, the utilization counter, the exit of
    the workers. An instance's state is a value; a job is what it does to it. *)
From S2P Require Import Prelude Errors Provider Native.
Open Scope Z_scope.

Module PoolRuns.
Section Pool.
  Context {L : Type}.
  (** The job of a call. *)
  Variable run : nat -> L -> L * option goerr.

(** A call between two of its atomic steps: before the check of [closed]; at the
    [select]; taken by a worker and not yet counted; counted, waiting for its
    answer; with it; and about to give its count back. A call that was never taken
    ends refused. *)
Inductive phase := Arriving | Selecting | Taken | Waiting | Received (e : option goerr) | Leaving (r : option goerr)
| Returned (r : option goerr) | Refused (e : goerr).
(** A worker at its [select], one that runs a job, one that has closed its
    instance. *)
Inductive worker := Idle (s : L) | Busy (c : nat) (s : L) | Exited (s : L).
(** [Close]: not called, the pool marked, [quit] closed, over. *)
Inductive closing := Open | Marked | Quitting | Closed.
(** The log lists the jobs done, each with the instance and the answer. *)
Record pool := mkPool {
  p_workers : list worker; p_closing : closing; p_inuse : Z; p_calls : gmap nat phase;
  p_done : gmap nat (option goerr); p_log : list (nat * nat * option goerr); p_removed : bool;
}.
Definition closed (p : pool) : bool := match p_closing p with Open => false | _ => true end.
Definition quit (p : pool) : bool := match p_closing p with Quitting | Closed => true | _ => false end.
Definition is_exited (w : worker) : bool := match w with Exited _ => true | _ => false end.
(** [newPool]. *)
Definition newPool (instances : list L) : pool := mkPool (map Idle instances) Open 0 ∅ ∅ [] false.
(** [Stats]. *)
Definition Stats (p : pool) : Z * Z := (p_inuse p, Z.of_nat (length (p_workers p))).

Definition set_call (c : nat) (ph : phase) (p : pool) : pool :=
  mkPool (p_workers p) (p_closing p) (p_inuse p) (<[c := ph]> (p_calls p)) (p_done p) (p_log p) (p_removed p).
Definition count (n : Z) (p : pool) : pool :=
  mkPool (p_workers p) (p_closing p) (p_inuse p + n) (p_calls p) (p_done p) (p_log p) (p_removed p).
Definition set_workers (ws : list worker) (p : pool) : pool :=
  mkPool ws (p_closing p) (p_inuse p) (p_calls p) (p_done p) (p_log p) (p_removed p).
Definition set_closing (k : closing) (removed : bool) (p : pool) : pool :=
  mkPool (p_workers p) k (p_inuse p) (p_calls p) (p_done p) (p_log p) removed.
Definition answered (i c : nat) (e : option goerr) (p : pool) : pool :=
  mkPool (p_workers p) (p_closing p) (p_inuse p) (p_calls p) (<[c := e]> (p_done p)) (p_log p ++ [(i, c, e)]) (p_removed p).

(** The end of [submit]: a context that has ended replaces a success. *)
Definition reported (e ctx : option goerr) : option goerr := match e with None => ctx | _ => e end.
Inductive step : pool -> pool -> Prop :=
| SCall p c : p_calls p !! c = None -> step p (set_call c Arriving p)
| SRefuse p c : p_calls p !! c = Some Arriving -> closed p = true -> step p (set_call c (Refused ErrClosed) p)
| SEnter p c : p_calls p !! c = Some Arriving -> closed p = false -> step p (set_call c Selecting p)
| STake p c l1 s l2 : p_calls p !! c = Some Selecting -> p_workers p = l1 ++ Idle s :: l2 ->
    step p (set_call c Taken (set_workers (l1 ++ Busy c s :: l2) p))
| SQuit p c : p_calls p !! c = Some Selecting -> quit p = true -> step p (set_call c (Refused ErrClosed) p)
| SCancel p c e : p_calls p !! c = Some Selecting -> step p (set_call c (Refused e) p)
| SCount p c : p_calls p !! c = Some Taken -> step p (count 1 (set_call c Waiting p))
| SRun p c l1 s l2 s' e : p_workers p = l1 ++ Busy c s :: l2 -> run c s = (s', e) ->
    step p (answered (length l1) c e (set_workers (l1 ++ Idle s' :: l2) p))
| SReceive p c e : p_calls p !! c = Some Waiting -> p_done p !! c = Some e -> step p (set_call c (Received e) p)
| SReport p c e ctx : p_calls p !! c = Some (Received e) -> step p (set_call c (Leaving (reported e ctx)) p)
| SLeave p c r : p_calls p !! c = Some (Leaving r) -> step p (count (-1) (set_call c (Returned r) p))
| SExit p l1 s l2 : p_workers p = l1 ++ Idle s :: l2 -> quit p = true -> step p (set_workers (l1 ++ Exited s :: l2) p)
| SMark p : p_closing p = Open -> step p (set_closing Marked (p_removed p) p)
| SCloseQuit p : p_closing p = Marked -> step p (set_closing Quitting (p_removed p) p)
| SClosed p : p_closing p = Quitting -> forallb is_exited (p_workers p) = true -> step p (set_closing Closed true p).

(** ** What a run is explained by *)
(** An instance after the jobs of the log that were its own, one after another. *)
Definition replay (s0 : L) (i : nat) (log : list (nat * nat * option goerr)) : L :=
  fold_left (fun s '(j, c, _) => if Nat.eqb j i then fst (run c s) else s) log s0.
Definition state (w : worker) : L := match w with Idle s | Busy _ s | Exited s => s end.
Definition busy (ws : list worker) : list nat := omap (fun w => match w with Busy c _ => Some c | _ => None end) ws.
Definition entry_job (x : nat * nat * option goerr) : nat := snd (fst x).
(** Whether a phase lies after the hand-over, and whether it is counted. *)
Definition handed (ph : phase) : bool := match ph with Arriving | Selecting | Refused _ => false | _ => true end.
Definition counted (ph : phase) : bool := match ph with Waiting | Received _ | Leaving _ => true | _ => false end.
(** What a phase says of the answer. *)
Definition says (ph : phase) (e : option goerr) : Prop :=
  match ph with
  | Received e' => e' = e
  | Leaving r | Returned r => exists ctx, r = reported e ctx
  | _ => True
  end.
Definition awaiting (ph : phase) : bool := match ph with Taken | Waiting => true | _ => false end.

Record pool_ok (inits : list L) (p : pool) : Prop := {
  po_length : length (p_workers p) = length inits;
  po_state : forall i w, p_workers p !! i = Some w -> exists s0, inits !! i = Some s0 /\ state w = replay s0 i (p_log p);
  po_answers : forall l1 i c e l2, p_log p = l1 ++ (i, c, e) :: l2 -> exists s0, inits !! i = Some s0 /\ e = snd (run c (replay s0 i l1));
  po_once : NoDup (busy (p_workers p) ++ map entry_job (p_log p));
  po_taken : forall c, c ∈ busy (p_workers p) ++ map entry_job (p_log p) <-> exists ph, p_calls p !! c = Some ph /\ handed ph = true;
  po_busy : forall c ph, c ∈ busy (p_workers p) -> p_calls p !! c = Some ph -> awaiting ph = true;
  po_done : forall c e, p_done p !! c = Some e <-> exists i, (i, c, e) ∈ p_log p;
  po_says : forall c ph i e, p_calls p !! c = Some ph -> (i, c, e) ∈ p_log p -> says ph e;
  po_inuse : p_inuse p = Z.of_nat (size (filter (fun x => counted (snd x) = true) (p_calls p)));
  po_removed : p_removed p = true <-> p_closing p = Closed;
  po_exited : p_closing p = Closed -> forallb is_exited (p_workers p) = true;
}.

(** ** Helpers *)
Definition tally (m : gmap nat phase) : Z := Z.of_nat (size (filter (fun x => counted (snd x) = true) m)).
Lemma tally_fresh m c ph : m !! c = None -> tally (<[c := ph]> m) = tally m + Z.b2z (counted ph).
Proof.
  intros Hc. unfold tally. rewrite map_filter_insert. cbn [snd]. destruct (decide (counted ph = true)) as [E|E].
  - rewrite E, map_size_insert_None; [cbn; lia|]. apply map_lookup_filter_None. by left.
  - apply not_true_is_false in E. rewrite E, delete_id by done. cbn. lia.
Qed.
Lemma tally_insert m c ph old : m !! c = Some old -> tally (<[c := ph]> m) = tally m - Z.b2z (counted old) + Z.b2z (counted ph).
Proof.
  intros Hc. rewrite <- insert_delete_eq, tally_fresh by apply lookup_delete_eq.
  rewrite <- (insert_delete_id m c old Hc) at 2. rewrite tally_fresh by apply lookup_delete_eq. lia.
Qed.
Lemma busy_middle l1 w l2 : busy (l1 ++ w :: l2) = busy l1 ++ match w with Busy c _ => [c] | _ => [] end ++ busy l2.
Proof. unfold busy. rewrite omap_app. cbn. by destruct w. Qed.
Lemma lookup_middle {A} (l1 : list A) w w' l2 i x : (l1 ++ w' :: l2) !! i = Some x ->
  (i = length l1 /\ x = w') \/ (i <> length l1 /\ (l1 ++ w :: l2) !! i = Some x).
Proof.
  intros Hi. destruct (decide (i = length l1)) as [->|Hn].
  - left. rewrite list_lookup_middle in Hi by done. by injection Hi as ->.
  - right. split; [done|]. destruct (decide (i < length l1)%nat) as [Hl|Hl]; [by rewrite lookup_app_l in * by done|].
    rewrite lookup_app_r in * by lia. destruct (i - length l1)%nat eqn:E; [lia|]. done.
Qed.
Lemma middle_length {A} (l1 : list A) w w' l2 : length (l1 ++ w' :: l2) = length (l1 ++ w :: l2).
Proof. by rewrite !length_app. Qed.
Lemma replay_snoc s0 i log j c e : replay s0 i (log ++ [(j, c, e)]) = if Nat.eqb j i then fst (run c (replay s0 i log)) else replay s0 i log.
Proof. unfold replay. by rewrite fold_left_app. Qed.
Lemma in_log p c : c ∈ map entry_job (p_log p) <-> exists i e, (i, c, e) ∈ p_log p.
Proof.
  rewrite <- list_elem_of_In, in_map_iff || rewrite list_elem_of_In, in_map_iff. split.
  - intros ([[i c'] e] & <- & Hin). exists i, e. by apply list_elem_of_In.
  - intros (i & e & Hin). exists (i, c, e). split; [done|]. by apply list_elem_of_In.
Qed.

(** ** Each step keeps the invariant *)
Lemma busy_idle (l : list L) : busy (map Idle l) = [].
Proof. induction l as [|s l IH]; [done|exact IH]. Qed.
Lemma new_ok instances : pool_ok instances (newPool instances).
Proof.
  split; cbn [newPool p_workers p_closing p_inuse p_calls p_done p_log p_removed]; rewrite ?busy_idle; try done.
  - by rewrite length_map.
  - intros i w. rewrite list_lookup_fmap. destruct (instances !! i) as [s|]; [|done]. intros [= <-]. by exists s.
  - intros l1 ? ? ? ? E. by destruct l1.
  - constructor.
  - intros c. cbn [app map]. split; [by intros ?%elem_of_nil|]. by intros (ph & Hc & _).
  - intros c e. split; [done|]. by intros (i & ?%elem_of_nil).
Qed.
(** A call that only moves on: neither what it was given nor what ran changes. *)
Lemma set_call_ok inits p c ph : pool_ok inits p -> match p_calls p !! c with Some old => handed old = handed ph /\ (awaiting ph = false -> c ∉ busy (p_workers p)) | None => handed ph = false end ->
  (forall i e, (i, c, e) ∈ p_log p -> says ph e) ->
  let n := Z.b2z (counted ph) - match p_calls p !! c with Some old => Z.b2z (counted old) | None => 0 end in
  pool_ok inits (count n (set_call c ph p)).
Proof.
  intros [Hl Hs Ha Ho Ht Hb Hd Hy Hi Hr He] Hold Hsay n.
  split; cbn [count set_call p_workers p_closing p_inuse p_calls p_done p_log p_removed]; try done.
  - intros d. rewrite Ht. destruct (decide (c = d)) as [<-|Hn]; [|by rewrite lookup_insert_ne].
    rewrite lookup_insert_eq. destruct (p_calls p !! c) as [old|].
    + destruct Hold as [E _]. split; [intros (? & [= ->] & ?); exists ph; by rewrite <- E|intros (? & [= <-] & ?); exists old; by rewrite E].
    + split; [by intros (? & ? & _)|]. intros (? & [= <-] & E). congruence.
  - intros d ph' Hin. destruct (decide (c = d)) as [<-|Hn]; [|rewrite lookup_insert_ne by done; by apply Hb].
    rewrite lookup_insert_eq. intros [= <-]. destruct (awaiting ph) eqn:E; [done|]. exfalso. destruct (p_calls p !! c) as [old|] eqn:Ec; [by apply Hold|].
    assert (exists ph0, p_calls p !! c = Some ph0 /\ handed ph0 = true) as (? & ? & _); [|congruence]. apply Ht. apply elem_of_app. by left.
  - intros d ph' i e. destruct (decide (c = d)) as [<-|Hn]; [|rewrite lookup_insert_ne by done; by apply Hy].
    rewrite lookup_insert_eq. intros [= <-]. by apply Hsay.
  - fold (tally (<[c := ph]> (p_calls p))). fold (tally (p_calls p)) in Hi. subst n. destruct (p_calls p !! c) as [old|] eqn:Ec.
    + rewrite (tally_insert _ _ _ _ Ec). lia.
    + rewrite tally_fresh by done. lia.
Qed.
Lemma count_0 n p : n = 0 -> count n p = p.
Proof. intros ->. destruct p. unfold count. cbn. f_equal. lia. Qed.
Lemma move_ok inits p c ph old : pool_ok inits p -> p_calls p !! c = Some old -> handed old = handed ph -> counted old = counted ph ->
  (awaiting ph = false -> c ∉ busy (p_workers p)) -> (forall i e, (i, c, e) ∈ p_log p -> says ph e) -> pool_ok inits (set_call c ph p).
Proof.
  intros Hp Hc Ht Hn Hb Hs. pose proof (set_call_ok inits p c ph Hp) as H. rewrite Hc in H. specialize (H (conj Ht Hb) Hs). cbn in H.
  by rewrite count_0 in H by (rewrite Hn; lia).
Qed.
Lemma not_taken_log inits p c ph i e : pool_ok inits p -> p_calls p !! c = Some ph -> handed ph = false -> (i, c, e) ∉ p_log p.
Proof.
  intros Hp Hc Ht Hin. assert (c ∈ busy (p_workers p) ++ map entry_job (p_log p)) as Hx by (apply elem_of_app; right; apply in_log; by exists i, e).
  apply (po_taken _ _ Hp) in Hx as (ph' & Hc' & Ht'). congruence.
Qed.
Lemma not_taken_busy inits p c ph : pool_ok inits p -> p_calls p !! c = Some ph -> awaiting ph = false -> c ∉ busy (p_workers p).
Proof. intros Hp Hc Ha Hin. pose proof (po_busy _ _ Hp c ph Hin Hc). congruence. Qed.
Lemma pool_take_ok inits p c l1 s l2 : pool_ok inits p -> p_calls p !! c = Some Selecting -> p_workers p = l1 ++ Idle s :: l2 ->
  pool_ok inits (set_call c Taken (set_workers (l1 ++ Busy c s :: l2) p)).
Proof.
  intros Hp Hc Hw. pose proof (fun i e => not_taken_log _ _ _ _ i e Hp Hc eq_refl) as Hlog. pose proof (not_taken_busy _ _ _ _ Hp Hc eq_refl) as Hnb.
  destruct Hp as [Hl Hs Ha Ho Ht Hb Hd Hy Hi Hr He]. rewrite Hw in *. rewrite busy_middle in *. cbn [app] in *.
  assert (c ∉ map entry_job (p_log p)) as Hcl by (intros (i & e & Hin)%in_log; by apply (Hlog i e)).
  split; cbn [set_call set_workers p_workers p_closing p_inuse p_calls p_done p_log p_removed]; rewrite ?busy_middle; try done.
  - by rewrite (middle_length l1 (Idle s)).
  - intros i w [[-> ->]|[Hn Hi']]%(lookup_middle l1 (Idle s)); [|by apply Hs]. cbn. apply (Hs (length l1) (Idle s)). by apply list_lookup_middle.
  - cbn [app]. rewrite <- !app_assoc. cbn [app]. rewrite <- Permutation_middle. rewrite app_assoc. apply NoDup_cons. split; [|done].
    intros [?|?]%elem_of_app; done.
  - intros d. specialize (Ht d). cbn [app]. destruct (decide (c = d)) as [<-|Hn].
    + rewrite lookup_insert_eq. split; [intros _; by exists Taken|]. intros _. apply elem_of_app. left. apply elem_of_app. right. by left.
    + rewrite lookup_insert_ne by done. rewrite <- Ht. rewrite !elem_of_app, elem_of_cons. naive_solver.
  - intros d ph Hin. destruct (decide (c = d)) as [<-|Hn]; [rewrite lookup_insert_eq; by intros [= <-]|]. rewrite lookup_insert_ne by done.
    apply Hb. cbn [app] in Hin. rewrite elem_of_app, elem_of_cons in Hin. rewrite elem_of_app. naive_solver.
  - intros d ph i e. destruct (decide (c = d)) as [<-|Hn]; [rewrite lookup_insert_eq; by intros [= <-]|]. rewrite lookup_insert_ne by done. by apply Hy.
  - fold (tally (<[c := Taken]> (p_calls p))). rewrite (tally_insert _ _ _ _ Hc). fold (tally (p_calls p)) in Hi. cbn. lia.
  - intros Hk. specialize (He Hk). rewrite forallb_app in *. cbn in *. by rewrite andb_false_r in He.
Qed.
Lemma pool_run_ok inits p c l1 s l2 s' e : pool_ok inits p -> p_workers p = l1 ++ Busy c s :: l2 -> run c s = (s', e) ->
  pool_ok inits (answered (length l1) c e (set_workers (l1 ++ Idle s' :: l2) p)).
Proof.
  intros [Hl Hs Ha Ho Ht Hb Hd Hy Hi Hr He] Hw HR. rewrite Hw in *. rewrite busy_middle in *. cbn [app] in *.
  destruct (Hs (length l1) (Busy c s)) as (s0 & H0 & Hst); [by apply list_lookup_middle|]. cbn in Hst.
  assert (busy l1 ++ c :: busy l2 ++ map entry_job (p_log p) ≡ₚ (busy l1 ++ busy l2) ++ map entry_job (p_log p ++ [(length l1, c, e)])) as Hperm.
  { rewrite map_app. cbn. rewrite <- Permutation_middle. rewrite !app_assoc. by rewrite (Permutation_app_comm _ [c]). }
  assert (c ∉ map entry_job (p_log p)) as Hcl.
  { rewrite <- app_assoc in Ho. cbn in Ho. rewrite <- Permutation_middle in Ho. apply NoDup_cons in Ho as [Hx _]. intros Hin. apply Hx. rewrite app_assoc. apply elem_of_app. by right. }
  assert (c ∉ busy l1 ++ busy l2) as Hcb.
  { rewrite <- app_assoc in Ho. cbn in Ho. rewrite <- Permutation_middle in Ho. apply NoDup_cons in Ho as [Hx _]. intros Hin. apply Hx. rewrite app_assoc. apply elem_of_app. by left. }
  assert (exists ph, p_calls p !! c = Some ph /\ awaiting ph = true) as (ph & Hc & Hph).
  { destruct (Ht c) as [Ht1 _]. destruct Ht1 as (ph & Hc & _); [apply elem_of_app; left; apply elem_of_app; right; by left|]. exists ph. split; [done|]. apply (Hb c); [|done].
    apply elem_of_app. right. by left. }
  split; cbn [answered set_workers p_workers p_closing p_inuse p_calls p_done p_log p_removed]; rewrite ?busy_middle; cbn [app]; try done.
  - by rewrite (middle_length l1 (Busy c s)).
  - intros i w [[-> ->]|[Hn Hi']]%(lookup_middle l1 (Busy c s)).
    + exists s0. split; [done|]. cbn. rewrite replay_snoc, Nat.eqb_refl, <- Hst. by rewrite HR.
    + destruct (Hs i w Hi') as (t0 & Ht0 & Hw'). exists t0. split; [done|]. rewrite replay_snoc. destruct (Nat.eqb_spec (length l1) i); [lia|done].
  - intros k1 i d e' k2 E. destruct (decide (k2 = [])) as [->|Hk2].
    + apply app_inj_tail in E as [<- [= <- <- <-]]. exists s0. split; [done|]. by rewrite <- Hst, HR.
    + destruct (exists_last Hk2) as (k3 & z & ->). rewrite app_comm_cons, app_assoc in E. apply app_inj_tail in E as [E _]. by eapply Ha.
  - rewrite <- Hperm. by rewrite <- app_assoc in Ho.
  - intros d. rewrite <- Hperm. rewrite <- Ht. by rewrite <- app_assoc.
  - intros d ph' Hin. apply Hb. rewrite elem_of_app, elem_of_cons. rewrite elem_of_app in Hin. naive_solver.
  - intros d e'. destruct (decide (c = d)) as [<-|Hn].
    + rewrite lookup_insert_eq. split; [intros [= <-]; exists (length l1); apply elem_of_app; right; by left|].
      intros (i & [Hin|Hin]%elem_of_app); [exfalso; apply Hcl, in_log; by exists i, e'|]. apply list_elem_of_singleton in Hin. by injection Hin as _ ->.
    + rewrite lookup_insert_ne by done. rewrite Hd. split; intros (i & Hin); exists i; [apply elem_of_app; by left|].
      apply elem_of_app in Hin as [?|Hin]; [done|]. apply list_elem_of_singleton in Hin. congruence.
  - intros d ph' i e' Hd' [Hin|Hin]%elem_of_app; [by eapply Hy|]. apply list_elem_of_singleton in Hin. injection Hin as -> -> ->.
    rewrite Hc in Hd'. injection Hd' as <-. by destruct ph.
  - intros Hk. specialize (He Hk). rewrite forallb_app in *. cbn in *. by rewrite andb_false_r in He.
Qed.
Lemma exit_ok inits p l1 s l2 : pool_ok inits p -> p_workers p = l1 ++ Idle s :: l2 -> pool_ok inits (set_workers (l1 ++ Exited s :: l2) p).
Proof.
  intros [Hl Hs Ha Ho Ht Hb Hd Hy Hi Hr He] Hw. rewrite Hw in *. rewrite busy_middle in *. cbn [app] in *.
  split; cbn [set_workers p_workers p_closing p_inuse p_calls p_done p_log p_removed]; rewrite ?busy_middle; cbn [app]; try done.
  - by rewrite (middle_length l1 (Idle s)).
  - intros i w [[-> ->]|[Hn Hi']]%(lookup_middle l1 (Idle s)); [|by apply Hs]. apply (Hs (length l1) (Idle s)). by apply list_lookup_middle.
  - intros Hk. specialize (He Hk). rewrite forallb_app in *. cbn in *. by rewrite andb_false_r in He.
Qed.
Lemma pool_step_ok inits p q : step p q -> pool_ok inits p -> pool_ok inits q.
Proof.
  intros Hs Hp. destruct Hs as [p c Hc|p c Hc Hk|p c Hc Hk|p c l1 s l2 Hc Hw|p c Hc Hk|p c e Hc|p c Hc|p c l1 s l2 s' e Hw HR|p c e Hc He|p c e ctx Hc|p c r Hc|p l1 s l2 Hw Hk|p Hk|p Hk|p Hk Hx].
  - pose proof (set_call_ok inits p c Arriving Hp) as H. rewrite Hc in H. specialize (H eq_refl (fun _ _ _ => I)). cbv zeta in H. by rewrite count_0 in H.
  - eapply move_ok; [done..| |done]. intros _. by eapply not_taken_busy.
  - eapply move_ok; [done..| |done]. intros _. by eapply not_taken_busy.
  - by apply pool_take_ok.
  - eapply move_ok; [done..| |done]. intros _. by eapply not_taken_busy.
  - eapply move_ok; [done..| |done]. intros _. by eapply not_taken_busy.
  - pose proof (set_call_ok inits p c Waiting Hp) as H. rewrite Hc in H. apply H; [split; done|done].
  - by eapply pool_run_ok.
  - eapply move_ok; [done..| |].
    + intros _ Hin. destruct (proj1 (po_done _ _ Hp c e) He) as [i Hi]. pose proof (po_once _ _ Hp) as Ho. apply NoDup_app in Ho as (_ & Ho & _).
      apply (Ho c Hin), in_log. by exists i, e.
    + intros i e' Hin. cbn. assert (p_done p !! c = Some e') by (apply (po_done _ _ Hp); by exists i). congruence.
  - eapply move_ok; [done..| |].
    + intros _. by eapply not_taken_busy.
    + intros i e' Hin. pose proof (po_says _ _ Hp _ _ _ _ Hc Hin) as E. cbn in E. subst e'. by exists ctx.
  - pose proof (set_call_ok inits p c (Returned r) Hp) as H. rewrite Hc in H. cbn in H. apply H.
    + split; [done|]. intros _. by eapply not_taken_busy.
    + intros i e' Hin. exact (po_says _ _ Hp _ _ _ _ Hc Hin).
  - by apply exit_ok.
  - destruct Hp as [Hl Hst Ha Ho Ht Hb Hd Hy Hi Hr He]. split; cbn; try done. rewrite Hr, Hk. done.
  - destruct Hp as [Hl Hst Ha Ho Ht Hb Hd Hy Hi Hr He]. split; cbn; try done. rewrite Hr, Hk. done.
  - destruct Hp as [Hl Hst Ha Ho Ht Hb Hd Hy Hi Hr He]. by split.
Qed.
Lemma reachable_ok inits p : rtc step (newPool inits) p -> pool_ok inits p.
Proof. intros Hr. refine (rtc_ind_r (pool_ok inits) _ (new_ok inits) _ p Hr). intros x y _ Hxy Hx. by eapply pool_step_ok. Qed.

(** C38: The pool is the sequential driver. However callers, workers and a shutdown
    interleave, each job is done at most once; a call that returns was answered
    what [Native.submit] answers on one instance, in the state that the earlier
    jobs of that instance, done one after another, left it in; and the job of a
    call that was refused is not done at all. *)
Theorem pool_serial inits p : rtc step (newPool inits) p ->
  NoDup (map entry_job (p_log p)) /\
  (forall c r, p_calls p !! c = Some (Returned r) -> exists i s0 l1 e l2 ctx,
     inits !! i = Some s0 /\ p_log p = l1 ++ (i, c, e) :: l2 /\
     let s := replay s0 i l1 in
     Native.submit (Native.Arrival false Native.Picked ctx) tt (fun s => (fst (run c s), tt, snd (run c s))) s = (fst (run c s), tt, r)) /\
  (forall c e, p_calls p !! c = Some (Refused e) -> c ∉ map entry_job (p_log p)).
Proof.
  intros Hr. pose proof (reachable_ok inits p Hr) as Hp. split; [|split].
  - pose proof (po_once _ _ Hp) as Ho. by apply NoDup_app in Ho as (_ & _ & Ho).
  - intros c r Hc. assert (c ∈ busy (p_workers p) ++ map entry_job (p_log p)) as Hin by (apply (po_taken _ _ Hp); by exists (Returned r)).
    apply elem_of_app in Hin as [Hin|Hin]; [by apply (po_busy _ _ Hp c _ Hin) in Hc|].
    apply in_log in Hin as (i & e & Hin). destruct (po_says _ _ Hp _ _ _ _ Hc Hin) as [ctx ->].
    apply list_elem_of_split in Hin as (l1 & l2 & E). destruct (po_answers _ _ Hp _ _ _ _ _ E) as (s0 & H0 & ->).
    exists i, s0, l1, (snd (run c (replay s0 i l1))), l2, ctx. split; [done|]. split; [done|]. cbn.
    by destruct (snd (run c (replay s0 i l1))).
  - intros c e Hc Hin. apply in_log in Hin as (i & e' & Hin). by eapply (not_taken_log inits p c _ i e').
Qed.
(** The utilization is the number of calls between hand-over and return, so it
    comes back to zero; and a call that was handed over is answered, or a worker has
    its job in hand. *)
Theorem pool_accounts inits p : rtc step (newPool inits) p ->
  0 <= fst (Stats p) /\ snd (Stats p) = Z.of_nat (length inits) /\
  ((forall c ph, p_calls p !! c = Some ph -> counted ph = false) -> fst (Stats p) = 0) /\
  (forall c ph, p_calls p !! c = Some ph -> awaiting ph = true -> is_Some (p_done p !! c) \/ c ∈ busy (p_workers p)).
Proof.
  intros Hr. pose proof (reachable_ok inits p Hr) as Hp. unfold Stats. cbn [fst snd]. rewrite (po_inuse _ _ Hp), (po_length _ _ Hp). split_and!; [lia|done| |].
  - intros Hn. assert (filter (fun x : nat * phase => counted (snd x) = true) (p_calls p) = ∅) as ->; [|done].
    apply map_empty. intros c. apply map_lookup_filter_None. right. intros ph Hc. cbn. by rewrite (Hn c ph Hc).
  - intros c ph Hc Ha. assert (c ∈ busy (p_workers p) ++ map entry_job (p_log p)) as Hin by (apply (po_taken _ _ Hp); exists ph; by destruct ph).
    apply elem_of_app in Hin as [Hin|Hin]; [by right|]. left. apply in_log in Hin as (i & e & Hin). exists e. apply (po_done _ _ Hp). by exists i.
Qed.
(** When [Close] is over every instance is closed and nothing runs on it, the
    temporary files are gone, and no call is left without an answer: it has it, or
    it is refused when it looks. *)
Theorem pool_closed inits p : rtc step (newPool inits) p -> p_closing p = Closed ->
  p_removed p = true /\ forallb is_exited (p_workers p) = true /\ busy (p_workers p) = [] /\
  (forall c ph, p_calls p !! c = Some ph -> awaiting ph = true -> is_Some (p_done p !! c)) /\
  (forall c ph, p_calls p !! c = Some ph -> ph = Arriving \/ ph = Selecting -> step p (set_call c (Refused ErrClosed) p)).
Proof.
  intros Hr Hk. pose proof (reachable_ok inits p Hr) as Hp. pose proof (po_exited _ _ Hp Hk) as Hx.
  assert (busy (p_workers p) = []) as Hb. { clear -Hx. induction (p_workers p) as [|w l IH]; [done|]. cbn in Hx. apply andb_true_iff in Hx as [Hw Hl]. destruct w; [done..|]. by apply IH. }
  split_and!; [by apply (po_removed _ _ Hp)|done|done| |].
  - intros c ph Hc Ha. destruct (proj2 (proj2 (proj2 (pool_accounts inits p Hr))) c ph Hc Ha) as [?|Hin]; [done|]. rewrite Hb in Hin. by apply elem_of_nil in Hin.
  - intros c ph Hc [->| ->]; [apply SRefuse|apply SQuit]; unfold closed, quit; by rewrite ?Hk.
Qed.
End Pool.

(** ** One instance, two callers *)
Definition lab_run (c : nat) (s : list nat) : list nat * option goerr := (s ++ [c], None).
Notation lab_step := (step lab_run).
Definition lab_pool (w : worker (L := list nat)) (k : closing) (n : Z) (calls : list (nat * phase)) (done : list (nat * option goerr)) (log : list (nat * nat * option goerr)) : pool (L := list nat) :=
  mkPool [w] k n (list_to_map calls) (list_to_map done) log false.
(** The first job is done and the second runs before either caller returns. *)
Definition lab_p0 : pool (L := list nat) := lab_pool (Idle []) Open 0 [] [] [].
Definition lab_p1 : pool (L := list nat) := lab_pool (Busy 1%nat []) Open 0 [(1%nat, Taken)] [] [].
Definition lab_p2 : pool (L := list nat) := lab_pool (Idle [1%nat]) Open 1 [(1%nat, Waiting)] [(1%nat, None)] [(0, 1, None)]%nat.
Definition lab_p3 : pool (L := list nat) := lab_pool (Busy 2%nat [1%nat]) Open 2 [(2%nat, Waiting); (1%nat, Waiting)] [(1%nat, None)] [(0, 1, None)]%nat.
Definition lab_p4 : pool (L := list nat) := lab_pool (Busy 2%nat [1%nat]) Open 1 [(1%nat, Returned None); (2%nat, Waiting)] [(1%nat, None)] [(0, 1, None)]%nat.
Lemma lab_reaches : rtc lab_step (newPool [[]]) lab_p3 /\ rtc lab_step (newPool [[]]) lab_p4.
Proof.
  assert (forall p q r, lab_step p q -> q = r -> rtc lab_step p r) as One by (intros p q r Hs <-; by apply rtc_once).
  assert (rtc lab_step (newPool [[]]) lab_p1) as R1.
  { eapply rtc_l; [by apply (SCall lab_run (newPool [[]]) 1%nat)|]. eapply rtc_l; [by apply (SEnter lab_run _ 1%nat)|].
    eapply One; [by apply (STake lab_run _ 1%nat [] [] [])|]. vm_compute. reflexivity. }
  assert (rtc lab_step lab_p1 lab_p2) as R2.
  { eapply rtc_l; [by apply (SCount lab_run lab_p1 1%nat)|]. eapply One; [by apply (SRun lab_run _ 1%nat [] [] [] [1%nat] None)|]. vm_compute. reflexivity. }
  assert (rtc lab_step lab_p2 lab_p3) as R3.
  { eapply rtc_l; [by apply (SCall lab_run lab_p2 2%nat)|]. eapply rtc_l; [by apply (SEnter lab_run _ 2%nat)|].
    eapply rtc_l; [by apply (STake lab_run _ 2%nat [] [1%nat] [])|]. eapply One; [by apply (SCount lab_run _ 2%nat)|]. vm_compute. reflexivity. }
  assert (rtc lab_step lab_p3 lab_p4) as R4.
  { eapply rtc_l; [by apply (SReceive lab_run lab_p3 1%nat None)|]. eapply rtc_l; [by apply (SReport lab_run _ 1%nat None None)|].
    eapply One; [by apply (SLeave lab_run _ 1%nat None)|]. vm_compute. reflexivity. }
  assert (rtc lab_step (newPool [[]]) lab_p3) as R by (etrans; [exact R1|]; etrans; [exact R2|exact R3]).
  split; [exact R|]. etrans; [exact R|exact R4].
Qed.
(** The gauge can show more calls in use than there are instances: it counts
    callers, whose answers may already lie ready. *)
Theorem in_use_exceeds_size : exists p, rtc lab_step (newPool [[]]) p /\ Stats p = (2, 1).
Proof. exists lab_p3. split; [apply lab_reaches|]. vm_compute. reflexivity. Qed.
Lemma pool_serial_witness :
  p_calls lab_p4 !! 1%nat = Some (Returned None) /\
  exists i s0 l1 e l2 ctx, [[]] !! i = Some s0 /\ p_log lab_p4 = l1 ++ (i, 1%nat, e) :: l2 /\
    Native.submit (Native.Arrival false Native.Picked ctx) tt (fun s => (fst (lab_run 1 s), tt, snd (lab_run 1 s))) (replay lab_run s0 i l1) =
      (fst (lab_run 1 (replay lab_run s0 i l1)), tt, None).
Proof.
  assert (p_calls lab_p4 !! 1%nat = Some (Returned None)) as E by (vm_compute; reflexivity). split; [exact E|].
  destruct (pool_serial lab_run [[]] lab_p4 (proj2 lab_reaches)) as (_ & H & _). exact (H 1%nat None E).
Defined.
End PoolRuns.
