(* ===== verification/Gauges.v ===== *)
(** * What a running service measures (cmd/qoltanba/main.go: [bindDriverMetrics],
    the bindings of [buildService] and [runServe])

    The recorder of Metrics, bound to the components that the configuration turns
    on: the driver in the one shape or the other, the trust store, the caches, and
    the subsystems of App. *)
From S2P Require Import Prelude Config CertWatch Metrics App.
Import Config.

Module Gauges.
Import Metrics.Metrics App.App.

Section Gauges.
  Context {W : Type}.
(** What the components answer at a scrape. *)
Record sources := mkSources {
  so_pool : W -> Z * Z; so_worker : W -> Z * Z * Z * Z * Z; so_anchors : W -> Z; so_crl : W -> Z * Z; so_ocsp : W -> Z * Z;
  so_oidc : W -> Z; so_watch : W -> list CertWatch.CertWatch.State; so_challenges : W -> Z; so_multisign : W -> Z; so_qr : W -> Z;
}.
  Variable s : sources.
Notation recorder := (option (Recorder W)).
(** [bindDriverMetrics]: whether the driver is the supervisor of children. *)
Definition bindDriverMetrics (r : recorder) (supervised : bool) : recorder :=
  if supervised then BindCryptoWorker (BindPool r (Some (so_pool s))) (Some (so_worker s)) else BindPool r (Some (so_pool s)).
Definition bind_service (cfg : Config) (r : recorder) : recorder :=
  let r := bindDriverMetrics r (crypto_worker_enabled (cfg_crypto_worker cfg)) in
  let r := BindTrust r (Some (so_anchors s)) in
  let r := if trust_crl_cache (cfg_trust cfg) then BindCRL r (Some (so_crl s)) else r in
  if trust_ocsp_cache (cfg_trust cfg) then BindOCSPCache r (Some (so_ocsp s)) else r.
(** A state of the watcher as the collector reads it. *)
Definition watch_state (st : CertWatch.CertWatch.State) : CertWatchState :=
  mkCertWatchState (CertWatch.CertWatch.st_file st) (CertWatch.CertWatch.st_subject st) (CertWatch.CertWatch.st_expires_in st)
    (some (CertWatch.CertWatch.st_not_after st)) (CertWatch.CertWatch.st_revoked st) (negb (empty_str (CertWatch.CertWatch.st_error st))).
Definition bind_subsystems (sub : subsystems) (r : recorder) : recorder :=
  let r := if some (sub_oidc sub) then BindOIDC r (Some (so_oidc s)) else r in
  let r := if some (sub_certwatch sub) then BindCertWatch r (Some (fun w => map watch_state (so_watch s w))) else r in
  let r := if some (sub_challenge sub) then BindChallenges r (Some (so_challenges s)) else r in
  let r := if some (sub_multisign sub) then BindMultisign r (Some (so_multisign s)) else r in
  if some (sub_qr sub) then BindQR r (Some (so_qr s)) else r.
Definition service_recorder (cfg : Config) (sub : subsystems) : recorder := bind_subsystems sub (bind_service cfg (Some New)).

(** The families that are registered, in order. *)
Definition watch_families : list string :=
  ["qoltanba_watched_cert_expiry_seconds"; "qoltanba_watched_cert_revoked"; "qoltanba_watched_cert_check_ok"]%string.
Definition when (b : bool) (l : list string) : list string := if b then l else [].
Definition registered (cfg : Config) (sub : subsystems) : list string :=
  (((((((((["qoltanba_pool_workers"%string] ++ when (crypto_worker_enabled (cfg_crypto_worker cfg)) ["qoltanba_crypto_worker_total"%string]) ++
  ["qoltanba_trust_anchors"%string]) ++ when (trust_crl_cache (cfg_trust cfg)) ["qoltanba_crl_cache_total"%string]) ++
  when (trust_ocsp_cache (cfg_trust cfg)) ["qoltanba_ocsp_cache_total"%string]) ++ when (some (sub_oidc sub)) ["qoltanba_oidc_challenges"%string]) ++
  when (some (sub_certwatch sub)) watch_families) ++ when (some (sub_challenge sub)) ["qoltanba_challenges"%string]) ++
  when (some (sub_multisign sub)) ["qoltanba_multisign_sessions"%string]) ++ when (some (sub_qr sub)) ["qoltanba_qr_sessions"%string]).

Lemma watch_samples_family x w : x ∈ concat (map watch_samples (map watch_state (so_watch s w))) -> sm_family x ∈ watch_families.
Proof.
  intros Hx. apply list_elem_of_In, in_concat in Hx as (l & Hl & Hx). apply in_map_iff in Hl as (st & <- & _). unfold watch_samples in Hx.
  apply in_app_iff in Hx as [Hx|Hx].
  - destruct (cw_has_expiry st); [|done]. destruct Hx as [<-|[]]. by left.
  - destruct Hx as [<-|[<-|[]]]; [right; by left|right; right; by left].
Qed.
(** A recorder whose scrape shows these families. *)
Definition covers (r : recorder) (fs : list string) (w : W) : Prop := exists l, scrape r w = Some l /\
  (forall x, x ∈ l -> sm_family x ∈ fs) /\ (forall f, f ∈ fs -> f ∈ watch_families \/ exists x, x ∈ l /\ sm_family x = f).
Lemma covers_bind b r fs src g w : covers r fs w -> (forall x, x ∈ src w -> sm_family x ∈ g) ->
  (forall f, f ∈ g -> f ∈ watch_families \/ exists x, x ∈ src w /\ sm_family x = f) ->
  covers (if b : bool then bind r (Some src) else r) (fs ++ when b g) w.
Proof.
  intros (l & E & H1 & H2) G1 G2. destruct b; cbn [when]; [|rewrite app_nil_r; by exists l].
  destruct r as [r|]; [|done]. injection E as <-. eexists. split; [reflexivity|]. cbn. rewrite map_app, concat_app. cbn. rewrite app_nil_r. split.
  - intros x [Hx|Hx]%elem_of_app; apply elem_of_app; [left; by apply H1|right; by apply G1].
  - intros f [Hf|Hf]%elem_of_app; [destruct (H2 f Hf) as [?|(x & Hx & Ef)]|destruct (G2 f Hf) as [?|(x & Hx & Ef)]]; try (by left);
      right; exists x; (split; [|done]); apply elem_of_app; auto.
Qed.
Lemma when_sublist b l : when b l `sublist_of` l.
Proof. destruct b; [done|apply sublist_nil_l]. Qed.
Lemma covers_new w : covers (Some New) [] w.
Proof. exists []. split; [done|]. split; [by intros x ?%elem_of_nil|by intros f ?%elem_of_nil]. Qed.
(** Sources of one family, with a sample at each scrape. *)
Lemma covers_one b r fs src f w : covers r fs w -> (forall x, x ∈ src w -> sm_family x = f) -> (exists x, x ∈ src w) ->
  covers (if b : bool then bind r (Some src) else r) (fs ++ when b [f]) w.
Proof.
  intros Hc H [x Hx]. apply covers_bind; [done|intros y Hy; rewrite (H y Hy); by left|]. intros f' Hf. apply list_elem_of_singleton in Hf as ->. right.
  exists x. split; [done|by apply H].
Qed.
Lemma pool_source x w : x ∈ (let (inUse, size) := so_pool s w in pool_samples inUse size) -> sm_family x = "qoltanba_pool_workers"%string.
Proof. destruct (so_pool s w). intros [->|[->|[]%elem_of_nil]%elem_of_cons]%elem_of_cons; done. Qed.
Lemma hit_family name f x (w : W) : x ∈ hit_source name f w -> sm_family x = name.
Proof. unfold hit_source. destruct (f w). intros [->|[->|[]%elem_of_nil]%elem_of_cons]%elem_of_cons; done. Qed.
Lemma gauge_family name f x (w : W) : x ∈ gauge name f w -> sm_family x = name.
Proof. by intros [->|[]%elem_of_nil]%elem_of_cons. Qed.
Lemma worker_family x w : x ∈ (let '(s, c, rc, t, h) := so_worker s w in worker_samples s c rc t h) -> sm_family x = "qoltanba_crypto_worker_total"%string.
Proof. destruct (so_worker s w) as [[[[? ?] ?] ?] ?]. unfold worker_samples. intros Hx. apply list_elem_of_In, in_map_iff in Hx as (p & <- & _). done. Qed.
(** A scrape of the service shows the families of what is configured and no other:
    each one that is not of the watch list always, the watch list's as there are
    certificates; and no family is registered twice, which would panic. *)
Theorem gauges_configured cfg sub w : exists l, scrape (service_recorder cfg sub) w = Some l /\
  (forall x, x ∈ l -> sm_family x ∈ registered cfg sub) /\
  (forall f, f ∈ registered cfg sub -> f ∈ watch_families \/ exists x, x ∈ l /\ sm_family x = f) /\
  NoDup (registered cfg sub).
Proof.
  assert (covers (service_recorder cfg sub) (registered cfg sub) w) as (l & E & H1 & H2).
  { unfold service_recorder, bind_subsystems, bind_service, registered.
    apply covers_one; [|intros x; apply gauge_family|eexists; by left].
    apply covers_one; [|intros x; apply gauge_family|eexists; by left].
    apply covers_one; [|intros x; apply gauge_family|eexists; by left].
    apply covers_bind; [|intros x; apply watch_samples_family|intros f Hf; by left].
    apply covers_one; [|intros x; apply gauge_family|eexists; by left].
    apply covers_one; [|intros x; apply hit_family|unfold hit_source; destruct (so_ocsp s w); eexists; by left].
    apply covers_one; [|intros x; apply hit_family|unfold hit_source; destruct (so_crl s w); eexists; by left].
    apply (covers_one true); [|intros x; apply gauge_family|eexists; by left].
    set (pooled := BindPool (Some New) (Some (so_pool s))).
    change (bindDriverMetrics (Some New) (crypto_worker_enabled (cfg_crypto_worker cfg)))
      with (if crypto_worker_enabled (cfg_crypto_worker cfg) then BindCryptoWorker pooled (Some (so_worker s)) else pooled).
    apply covers_one; [|intros x; apply worker_family|destruct (so_worker s w) as [[[[? ?] ?] ?] ?]; eexists; by left].
    apply (covers_one true (Some New) []); [apply covers_new|intros x; apply pool_source|destruct (so_pool s w); eexists; by left]. }
  exists l. split_and!; [done..|]. unfold registered.
  apply (sublist_NoDup _ (((((((((["qoltanba_pool_workers"%string] ++ ["qoltanba_crypto_worker_total"%string]) ++
    ["qoltanba_trust_anchors"%string]) ++ ["qoltanba_crl_cache_total"%string]) ++
    ["qoltanba_ocsp_cache_total"%string]) ++ ["qoltanba_oidc_challenges"%string]) ++ watch_families) ++
    ["qoltanba_challenges"%string]) ++ ["qoltanba_multisign_sessions"%string]) ++ ["qoltanba_qr_sessions"%string])).
  - apply (bool_decide_unpack _). vm_compute. exact I.
  - repeat first [apply when_sublist | apply sublist_app | done].
Qed.
End Gauges.
End Gauges.
